(* ===== verification/_CoqProject ===== *)
-Q . S2P
Prelude.v
Enums.v
Errors.v
Tables.v
Convergence.v
Workflow.v
Lifecycles.v
WorkflowFacts.v
Runs.v
LifecycleFacts.v
Db.v
Disposition.v
OutboundGuard.v
ExecutionResults.v
Verification.v
CloseGate.v
SideEffects.v
Reconcile.v
ContextJournal.v
Outbox.v
Delivery.v
OutboxFacts.v
DeliveryFacts.v
DeliveryRuns.v
DeliveryProps.v
DeliveryProgress.v
ContextStore.v
DegradedFlags.v
StateMachine.v
StateMachineFacts.v
ServiceRuns.v
ProjectionFacts.v
ApprovalRules.v
Approval.v
ApprovalFacts.v
ApprovalProps.v
ApprovalReplay.v
ConvergenceGuard.v
CircuitBreaker.v
ErrorTaxonomy.v
ToolMeta.v
ToolRegistry.v
ToolExecutor.v
ToolExecutorFacts.v
ToolRegistryFacts.v
SafeProjection.v
Lease.v
BudgetReservation.v
AutoPolicies.v
ToolGrants.v
ToolGrantFacts.v
BoundExecutor.v
Intents.v
IntentFacts.v
IntentRuns.v
IntentProps.v
IntentDispatch.v
Scenarios.v
DeliveryScenarios.v
ApprovalScenarios.v
IntentScenarios.v
ToolScenarios.v
Detection.v
FeatureSnapshots.v
AnomalyScoring.v
DetectionRuntime.v
DetectionFacts.v
DetectionRuntimeFacts.v
DetectionServices.v
DetectionScenarios.v
Budget.v
BudgetFacts.v
Llm.v
LlmFacts.v
LlmScenarios.v
React.v
ReactFacts.v
ReactFill.v
ReactFillFacts.v
ReactScenarios.v
