(* ===== verification/Prelude.v ===== *)
(** * ShadowTrace: a verification library for the decision core

    ShadowTrace (backend/app) investigates security events with agents, has response Actions
    approved, executes them through external products, writes dispositions back to the source
    product and closes the event.  This library models the part that decides and records: the
    status workflow, the lifecycles of Actions, jobs, outbox rows and writebacks, the approval
    engine, the ledger of investigation intents and the lease of a running investigation, the tool
    registry and executor with the grants that bound dynamic calls, the outbox with its delivery
    worker, the gates in front of CLOSED, the state machine service with its audit log and its
    post-commit projection, the versioned context journal, the degraded flags, the cross-loop
    convergence guard and the per-tool circuit breakers, the token budgets, the LLM client and the
    ReAct loop with its read-only fill, and the detection rules with their shadow runtime.  Paths
    below are relative to backend/app.

    ** How the parts interact

    An investigation starts from a durable intent (services/investigation_intent_service.py), made
    by an HTTP request or by policy (services/auto_investigate_policy.py).  Dispatchers claim
    intents by priority (services/cmu_scheduler.py) and publish them to the broker under a task id
    derived from the intent's revision; a worker's delivery is admitted against it, and stale
    intents are recovered under a new revision.  While it runs, the worker holds a lease on the
    event in Redis and renews it (orchestration/lease.py).

    Tools are registered with metadata and provider bindings (tools/registry.py,
    models/tool_meta.py).  A tool call (tools/executor.py) passes the budget, the input schema, the
    convergence guard and the breaker of the tool, and is retried under a policy (tools/retry.py);
    a side effect needs a persisted job and is never sent twice.  Calls an agent makes up at run
    time go through a grant (services/tool_call_grant_service.py): an attempt is counted in the
    database and in Redis (services/tool_call_budget_reservation.py), the scope is checked
    (tools/bound_tool_executor.py), and only a redacted, bounded view of the result is shown
    (services/safe_tool_projection.py).

    Agents reach a model through the LLM client (core/llm/base.py): each attempt asks the guard and
    the budget (services/budget_service.py, the same that the tool executor asks), is audited and,
    when its answer is valid, charged; a failed model falls back to the next.  The ReAct loop
    (orchestration/react_engine.py) puts two questions to the client per round and hands the chosen
    action to a read-only executor.  The fill (orchestration/react_fill.py) runs that loop for a
    plan step: it resolves the tenant (services/tenant_resolution.py) and mints a grant for the
    tools of the step (tools/tool_call_runtime.py), so that the calls of the loop are the bound
    calls above.

    Detection is a second pipeline.  Packages of rules are compiled
    (services/detection_rule_resolver.py), registered, activated in shadow and promoted
    (services/detection_rule_service.py); feature snapshots and baselines are materialised from
    observations (services/feature_snapshot_service.py, services/detection_baseline_service.py);
    the runtime (services/detection_rule_runtime.py) evaluates the operators (detection/operators)
    over them and appends candidates or errors.

    A plan of Actions is evaluated by the approval engine (services/approval_engine.py): hard
    gates and level rules approve, reject or ask a person; decisions and timeouts settle the
    records, and a decided plan moves its event through the state machine.  Commands of approved
    Actions are enqueued in an outbox and delivered by a worker under leases
    (services/disposition_sync_service.py); each command passes the outbound guard
    (core/guardrails.py) and the live fence (services/writeback_side_effect_fence.py) before it
    leaves, and its receipt is projected onto jobs, target results and Actions.  A submission with
    an unknown outcome is paused and settled by a lookup.

    A caller asks [StateMachineService.transition].  Before a close, stale executions are
    reclaimed (services/action_execution_service.py).  In one transaction the service locks the
    event row, rebuilds the transition context from the tables (views of the gate Actions from
    services/writeback_close_gate.py, outstanding side effects from
    services/side_effect_convergence.py, the terminal writeback), calls [validate_transition]
    (models/workflow.py), writes the row and an audit entry, and commits.  After the commit the
    context store is updated; failures there mark the event as degraded and are repaired later,
    and never change the committed row.

    ** Files

    - [Prelude]: this file; Python values, strings, exceptions as a [result] monad, string enums
      as a type class, hint databases and tactics.
    - [Enums], [Errors]: models/enums.py and the other string enums; core/errors.py, core/auth.py.
    - [Tables], [Workflow], [Lifecycles]: models/workflow.py, its tables and validators, one
      definition per function; a validator returns [Ok tt] or the exception it raises.
    - [WorkflowFacts], [Runs], [LifecycleFacts]: declarative specifications of the validators;
      runs of validated writes, and what every such run satisfies.
    - [Db]: the tables of db/models.py and db/orm/approval.py as lists of rows, and the queries.
    - [Verification]: models/agent_io.py (verification results), models/verification_readiness.py,
      services/terminal_disposition_resolver.py.
    - [CloseGate]: services/writeback_close_gate.py.
    - [Convergence], [SideEffects]: models/ and services/
      side_effect_convergence.py.
    - [Reconcile]: the stale-execution reclaim.
    - [ContextJournal]: the journal operations of
      services/context_service.py.
    - [Disposition]: models/disposition.py and adapters/disposition: commands, receipts, the
      adapter interface, the classification of failures.
    - [OutboundGuard]: the outbound guard of core/guardrails.py, and the approved set of
      services/disposition_guard_context.py.
    - [ExecutionResults]: services/execution_job_persistence.py and the mapping of receipts to
      jobs (providers/tools/mock_provider.py, adapters/_util.py).
    - [Outbox], [Delivery]: services/disposition_sync_service.py: enqueueing, retirement of heads,
      receipts and their projections; then the delivery transaction, the worker, its failure
      paths, and the lookup of paused rows.
    - [OutboxFacts], [DeliveryFacts], [DeliveryRuns], [DeliveryProps], [DeliveryProgress]: row
      invariants; what each transaction does to them; the system as a step relation with
      submissions as events; the properties of all its runs; progress and the defects.
    - [ContextStore]: the interface ([Class ContextStore]) the services use of the context store,
      with the laws they rely on, and an instance over the journal.
    - [DegradedFlags]: services/degraded_flag_service.py.
    - [StateMachine]: services/state_machine_service.py, with log_transition_in_session and
      _security_event_from_row of the services it calls.
    - [StateMachineFacts], [ServiceRuns], [ProjectionFacts]: what a call, a sequence of calls, and
      the projection guarantee.
    - [ApprovalRules]: the validated Action (models/action.py, services/action_mapper.py), the
      gates and level rules, and the binding of an approval to its plan and playbook
      (services/action_approval_policy.py, services/playbook_approval_binding.py).
    - [Approval]: services/approval_engine.py.
    - [ApprovalFacts], [ApprovalProps], [ApprovalReplay]: what each operation does to the tables;
      histories of calls, automatic approval and plan advance; replays, dead ends and the timeout
      scan.
    - [AutoPolicies]: services/auto_investigate_policy.py, services/auto_response_policy.py,
      services/cmu_scheduler.py.
    - [Intents]: services/investigation_intent_service.py, models/investigation_intent.py.
    - [IntentFacts], [IntentRuns], [IntentProps], [IntentDispatch]: how a row may change; what each
      transaction does to the ledger; the properties of all sequences of transactions; claim order,
      recovery and publication.
    - [ConvergenceGuard]: orchestration/convergence_guard.py.
    - [CircuitBreaker]: tools/circuit_breaker.py.
    - [ErrorTaxonomy]: the categories of errors and what may be retried (core/errors.py).
    - [ToolMeta], [ToolRegistry]: models/tool_meta.py; tools/registry.py, tools/base.py.
    - [ToolExecutor]: tools/executor.py, tools/retry.py.
    - [ToolExecutorFacts], [ToolRegistryFacts]: what a call does to counts of dispatches, breakers
      and jobs; the registry invariant and the clients of it.
    - [SafeProjection]: services/safe_tool_projection.py, core/sanitization.py.
    - [Lease]: orchestration/lease.py.
    - [BudgetReservation]: services/tool_call_budget_reservation.py.
    - [ToolGrants], [ToolGrantFacts]: services/tool_call_grant_service.py,
      services/tool_call_grant_resolver.py, models/tool_call_grant.py; the ledger invariant.
    - [BoundExecutor]: tools/bound_tool_executor.py.
    - [Detection], [DetectionFacts]: models/detection_rule.py and detection/operators: rules,
      counting and sequence operators; what they find.
    - [FeatureSnapshots], [AnomalyScoring]: services/feature_snapshot_resolver.py,
      models/feature_snapshot.py, detection/scoring; snapshots, baselines and their scores.
    - [DetectionRuntime], [DetectionRuntimeFacts]: compilation of rules, candidates, the shadow run.
    - [DetectionServices]: the append-only services and the lifecycle of
      packages.
    - [Budget], [BudgetFacts]: services/budget_service.py over an interface to Redis counters; what
      the workers together count.
    - [Llm], [LlmFacts]: core/llm/base.py and the unwrapping of core/llm/json_extract.py; the budget
      is reached through [Class BudgetMeter], with the budget service as an instance.
    - [React], [ReactFacts]: models/react.py, orchestration/react_engine.py; reasons
      and bounds of a run; what every port keeps a run keeps, and that runs only read.
    - [ReactFill], [ReactFillFacts]: orchestration/react_fill.py, tools/tool_call_runtime.py,
      services/tenant_resolution.py; confinement of a fill to its step.
    - [DetectionScenarios], [LlmScenarios], [ReactScenarios],
      [Scenarios], [DeliveryScenarios], [ApprovalScenarios], [IntentScenarios],
      [ToolScenarios]: concrete executions at which the theorems are applied.

    ** State and effects

    Each operation takes the state it reads and returns the state it leaves.  The database is a
    record of tables ([Db.Db]); the services run on a [World]: the database and the state of the
    context store.  A transaction is a function to [result]: on an exception the database stays as
    it was.  Exceptions keep their class, message, code, status and details.  Enum columns hold
    raw text, so that unreadable values take the code's error paths.  Clock readings, generated
    keys, settings, the rows other transactions have locked, the providers' answers, and library
    code (pydantic validation of payloads, text redaction, time formatting, SHA-256) are
    arguments.  The [updated_at] stamp that the projection sets is read from the database clock of
    the context store ([store_now]).  What surrounds the ReAct loop is a state of any type,
    reached through a record of ports.  Integers of the source are unbounded Python integers,
    hence [Z]; the breaker's clock readings are whole numbers of a fixed unit.  Floating-point
    scores, confidences and priorities are rationals, and costs whole numbers of 1e-8 USD.

    ** What the theorems show

    - Closing: CLOSED implies the evidence in the rows ([closed_only_with_evidence]); the
      executable gates decide exactly their specification ([transition_validator_correct],
      [writeback_gate_refines_rows], [convergence_gate_refines_rows]); the caller's context cannot
      open them ([close_independent_of_caller]).
    - Service: a transition is atomic ([transition_atomic]); what the service adds to the audit log,
      between the rows of other services, is a path of the transition table from the status at the
      start ([audit_log_is_a_path]); CLOSED is final, only administrators close unsynced, an event's
      life is bounded ([lifecycle_bounded]).
    - Approval: above the automatic levels only a person approves ([approval_needs_human]);
      decisions are final and keys bind one decision; automatic approval and plan advance happen
      exactly under their conditions; a scan settles what expired.
    - Intents: over any transactions rows move along the table and only a new revision starts over
      ([intents_move_legally]); one intent per event is published or running; a worker of an older
      revision changes nothing ([superseded_worker_fenced]); an HTTP request is idempotent; claims
      take the most urgent first; stale intents are recovered; a dispatch is a sequence of
      transactions; the response phase starts by itself only under mock modes.
    - Lease: an acquired lease is exclusive until it runs out, over any commands of other workers
      ([lease_exclusive]); the renewal loop gives up before its lease can have run out.
    - Tools: every call ends, an implementation runs only after all checks
      ([tool_dispatch_guarded]), a side effect at most once per call and with the provider's
      answer, UNKNOWN or one of three exceptions that pass ([side_effect_at_most_once]); the
      registry stays well-formed; only direct owners run side effects through a provider.
    - Grants: no more attempts than a grant allows ([grant_calls_bounded]), whatever Redis does;
      the slots in Redis and in the memories of several processes are bounded by twice the limit
      for each process, and that bound is reached ([reservations_bounded]); a dynamic call stays
      within its grant ([bound_call_guarded]) and its attempt is always settled; a projection
      shows no secret and is bounded ([projection_is_safe]).
    - Budget: no charge is lost, over all workers and failures of Redis, and only those whose
      reply was lost can count twice ([charges_are_counted]); a spent budget stops tools
      ([spent_budget_stops_tools]) and model calls ([spent_budget_stops_llm]).
    - LLM client: a chat ends; it tries the models in order with at most four attempts each, an
      attempt sends at most one request and logs at most one row ([chat_bounded]).
    - ReAct: a run stops for the reason it reports and not before ([react_stops_for_its_reason]),
      is bounded ([react_run_bounded]) and dispatches query tools only ([react_only_reads]); a fill
      is confined to the query tools of its plan step, when it names one, whatever grants are
      stored ([fill_confined_to_step]; the digest of its key is assumed not to collide).
    - Detection: counting rules report exactly the groups that reach their threshold
      ([counting_operators_exact]); the sequence search is sound, and complete without a gap limit
      in play ([sequence_search_correct]); scores are bounded and comparable, with the largest
      z-score as maximum ([anomaly_score_correct]); snapshots hold nothing from outside their window
      and are ready exactly with enough observations over enough of it ([snapshot_no_leakage]); a
      shadow run evaluates every rule and is idempotent, also when candidates share a key
      ([shadow_run_total], [shadow_rerun_idempotent]); packages start as drafts and move by single
      steps of their lifecycle ([package_lifecycle]).
    - Delivery: over all interleavings of the worker, synchronous deliveries, crashes and lookups
      that keep the discipline [disciplined] (distinct worker ids, synchronous deliveries that
      leave leased rows alone and commit), nothing is submitted twice without a lookup
      ([no_resend_without_lookup]); outside it the defects below resubmit.  Nothing is submitted
      without its checks ([delivery_egress_guarded]); one head per slot, legal status moves,
      well-formed rows; due rows are served; the worker's loop refines the step relation.
    - Lifecycles: approval before high-risk execution, deferred Actions after verification, no
      blind re-send of outbox rows or writebacks, bounded jobs.
    - Reclaim: it only reclaims, and cannot block a close on readable rows.
    - Journal and flags: versions count up by one, compare-and-set loses no update, the completion
      marker is monotonic, the flag list is a map.
    - Guard and breaker: the guard's bounded state refines the full history, but for a failed write
      of a stop ([should_stop_decides_history]); loops under the guard
      end within 80 rounds, the breaker trips and cools down as configured.
    - Defects: a synchronous delivery with an unknown outcome is repeated, a cleared row with a
      receipt is never sent, a superseding enqueue cannot be replayed; an Action the gates send to
      a person cannot be approved, and a review of a decided cycle strands it; a recovered automatic
      investigation loses its response phase; a renewal can confirm a lease that was lost; a probe
      with an inconclusive answer closes its tool for good; a used grant is stranded by the loss of
      Redis; the projection of a close is always degraded and never repaired, a stale repair clears
      a newer marker, a half-open breaker admits two probes, and an unreadable job row hides an
      active one; an outage of Redis forgets what was spent; rejected answers are never charged, and
      a second fallback is refused as an oscillation; a fill over an expired grant can do nothing,
      for good; an early step hides a sequence, a busy group silences its rule, and some rules
      compile that can never fire.

    ** Bounds and fuel

    [closed_search] is a worklist loop with fuel: 64 rounds are proved enough, for any iteration
    order.  [guarded_loop] is a caller's loop: 80 rounds are proved enough.  [repair_loop] recurses
    on the attempts left, at most three by the code's own clamp.  [call_loop], the retry loop of a
    tool call, has max_retries + 1 rounds of fuel, which [tool_call_terminates] proves enough: the
    out-of-fuel outcome is never returned.  [complete_loop], the retries of one model, has fuel for
    both kinds of retry, which [chat_bounded] proves enough; the loop over the models and the ReAct
    loop recurse on the models and rounds left.  Everything else is structurally recursive and
    total.

    ** Not modelled

    Agents and their prompts, the LangGraph workflow, replanning and graph resume, the concrete
    LLM clients and the extraction of JSON from free text, the adapters behind the disposition
    interface and behind the tools, the discovery of tool modules, the compatibility path of the
    evidence agent, ingestion, retrieval, evaluation, HTTP and the event bus: they call models,
    products and frameworks whose answers are parameters here, or hold no state of their own.
    Also the event disposition service and command factory in front of the outbox, the field
    ownership of the working memory, and the remaining event service.  Inside the modelled
    services: logging, metrics, locks (transactions are sequential, also those of the ledger of
    intents that read a row without locking it, such as the skipping of active intents; rows
    locked by others are a parameter of the reclaim), failures of PostgreSQL itself, columns the
    modelled code does not use, operator retry and adjudication of outbox rows, the entity-effect
    polling, the Celery trigger of a dispatch and the removal of task metadata, the retry of
    database connections, the paged listings of detection, and the Redis cache and snapshot
    assembly behind the [ContextStore] interface. *)

From stdpp Require Import prelude strings gmap.
From Stdlib Require Import ZArith Lia.

#[global] Set Warnings "-clear-no-such-hyp,-register-all".

(** ** Notations of the development *)

Declare Scope py_scope.
Delimit Scope py_scope with py.
Notation "x ==? y" := (bool_decide (x = y)) (at level 70, no associativity) : py_scope.
Notation "x !=? y" := (negb (bool_decide (x = y))) (at level 70, no associativity) : py_scope.
Notation "x ∈? l" := (bool_decide (x ∈ l)) (at level 70, no associativity) : py_scope.
Notation "s +++ t" := (String.append s t) (at level 60, right associativity) : py_scope.
#[global] Open Scope py_scope.
#[local] Open Scope string_scope.

(** ** JSON-like values

    What a Python [dict[str, Any]] payload of the source can hold.  A dict is an
    association list in insertion order. *)

Inductive pyval : Type :=
| VNone
| VBool (b : bool)
| VInt (z : Z)
| VStr (s : string)
| VList (l : list pyval)
| VDict (d : list (string * pyval)).

(** Induction that reaches the values inside lists and dicts. *)
Section pyval_induction.
Variable P : pyval → Prop.
Hypothesis (HNone : P VNone) (HBool : ∀ b, P (VBool b)) (HInt : ∀ z, P (VInt z)).
Hypothesis (HStr : ∀ s, P (VStr s)) (HList : ∀ l, Forall P l → P (VList l)).
Hypothesis HDict : ∀ d, Forall (λ kv, P kv.2) d → P (VDict d).

Fixpoint pyval_nested_ind (v : pyval) : P v :=
  match v with
  | VNone => HNone
  | VBool b => HBool b
  | VInt z => HInt z
  | VStr s => HStr s
  | VList l =>
      HList l ((fix go (l : list pyval) : Forall P l :=
        match l with
        | [] => List.Forall_nil _
        | x :: l' => List.Forall_cons _ x l' (pyval_nested_ind x) (go l')
        end) l)
  | VDict d =>
      HDict d ((fix go (d : list (string * pyval)) : Forall (λ kv, P kv.2) d :=
        match d with
        | [] => List.Forall_nil _
        | kv :: d' => List.Forall_cons _ kv d' (pyval_nested_ind kv.2) (go d')
        end) d)
  end.
End pyval_induction.

(** [bool(v)] *)
Definition py_truthy (v : pyval) : bool :=
  match v with
  | VNone => false
  | VBool b => b
  | VInt z => negb (bool_decide (z = 0%Z))
  | VStr s => negb (bool_decide (s = ""))
  | VList l => match l with [] => false | _ => true end
  | VDict d => match d with [] => false | _ => true end
  end.

(** [d.get(k)] on an association list. *)
Fixpoint dict_get {A : Type} (d : list (string * A)) (k : string) : option A :=
  match d with
  | [] => None
  | (k', v) :: d' => if k ==? k' then Some v else dict_get d' k
  end.

(** A truth value compares as a number. *)
Definition int_like (v : pyval) : option Z :=
  match v with VInt z => Some z | VBool b => Some (Z.b2z b) | _ => None end.

(** [a == b]: dicts compare without order. *)
Fixpoint py_eq (a b : pyval) {struct a} : bool :=
  match a, b with
  | VNone, VNone => true
  | VStr s, VStr t => s ==? t
  | VList l, VList m =>
      (fix go l m := match l, m with
                     | [], [] => true
                     | x :: l', y :: m' => py_eq x y && go l' m'
                     | _, _ => false
                     end) l m
  | VDict d, VDict e =>
      Nat.eqb (length d) (length e) &&
      (fix go d := match d with
                   | [] => true
                   | (k, v) :: d' =>
                       match dict_get e k with Some w => py_eq v w | None => false end && go d'
                   end) d
  | _, _ => match int_like a, int_like b with Some x, Some y => Z.eqb x y | _, _ => false end
  end.

(** [d[k] = v]: a dict keeps the position of a key it already has. *)
Fixpoint dict_set {A : Type} (d : list (string * A)) (k : string) (v : A) : list (string * A) :=
  match d with
  | [] => [(k, v)]
  | (k', v') :: d' => if k ==? k' then (k', v) :: d' else (k', v') :: dict_set d' k v
  end.

Definition dict_keys {A : Type} (d : list (string * A)) : list string := d.*1.

Lemma dict_get_set {A} (d : list (string * A)) k v : dict_get (dict_set d k v) k = Some v.
Proof.
  induction d as [|[k' v'] d IH]; cbn; [by rewrite bool_decide_eq_true_2|].
  case_bool_decide as Hk; cbn; [by rewrite bool_decide_eq_true_2|].
  by rewrite bool_decide_eq_false_2.
Qed.

Lemma dict_get_set_ne {A} (d : list (string * A)) k k' v :
  k ≠ k' → dict_get (dict_set d k' v) k = dict_get d k.
Proof.
  intros Hne. induction d as [|[k1 v1] d IH]; cbn; [by rewrite bool_decide_eq_false_2|].
  case_bool_decide as Hk; cbn; [subst; by rewrite bool_decide_eq_false_2|].
  by rewrite IH.
Qed.

(** [getattr(x, "value", None)] on an optional enum, as a payload value. *)
Definition opt_str (o : option string) : pyval :=
  match o with Some s => VStr s | None => VNone end.

Definition opt_bool (o : option bool) : pyval :=
  match o with Some b => VBool b | None => VNone end.

(** ** Strings *)

(** Python strings are modelled as byte strings; the case and white-space tables are the ASCII
    ones, which are the characters the source's labels use. *)

Definition startswith (s p : string) : bool := String.prefix p s.

(** [p in s] *)
Fixpoint str_contains (p s : string) : bool :=
  String.prefix p s ||
  match s with
  | EmptyString => false
  | String _ s' => str_contains p s'
  end.

(** [s[:n]] *)
Definition str_take (n : nat) (s : string) : string := String.substring 0 n s.

Fixpoint str_drop (n : nat) (s : string) : string :=
  match n, s with
  | O, _ => s
  | S n', String _ s' => str_drop n' s'
  | S _, EmptyString => EmptyString
  end.

(** [sep.join(l)] *)
Fixpoint str_join (sep : string) (l : list string) : string :=
  match l with
  | [] => EmptyString
  | [x] => x
  | x :: l' => x +++ sep +++ str_join sep l'
  end.

Definition is_py_space (c : Ascii.ascii) : bool :=
  let n := Ascii.nat_of_ascii c in
  (Nat.leb 9 n && Nat.leb n 13) || (Nat.leb 28 n && Nat.leb n 32).

(** [s.split(sep)] for a separator of one character. *)
Fixpoint str_split (sep : Ascii.ascii) (s : string) : list string :=
  match s with
  | EmptyString => [EmptyString]
  | String c s' =>
      if bool_decide (c = sep) then EmptyString :: str_split sep s'
      else match str_split sep s' with
           | part :: parts => String c part :: parts
           | [] => [String c EmptyString]
           end
  end.

Fixpoint str_lstrip (s : string) : string :=
  match s with
  | EmptyString => EmptyString
  | String c s' => if is_py_space c then str_lstrip s' else s
  end.

Fixpoint str_rev_app (s acc : string) : string :=
  match s with
  | EmptyString => acc
  | String c s' => str_rev_app s' (String c acc)
  end.

Definition str_rev (s : string) : string := str_rev_app s EmptyString.

(** [s.strip()] *)
Definition str_strip (s : string) : string := str_rev (str_lstrip (str_rev (str_lstrip s))).

Definition ascii_lower (c : Ascii.ascii) : Ascii.ascii :=
  let n := Ascii.nat_of_ascii c in
  if Nat.leb 65 n && Nat.leb n 90 then Ascii.ascii_of_nat (n + 32) else c.

Definition ascii_upper (c : Ascii.ascii) : Ascii.ascii :=
  let n := Ascii.nat_of_ascii c in
  if Nat.leb 97 n && Nat.leb n 122 then Ascii.ascii_of_nat (n - 32) else c.

Fixpoint str_map (f : Ascii.ascii → Ascii.ascii) (s : string) : string :=
  match s with
  | EmptyString => EmptyString
  | String c s' => String (f c) (str_map f s')
  end.

Definition str_lower : string → string := str_map ascii_lower.

Definition str_upper : string → string := str_map ascii_upper.

(** The order of Python's strings. *)
Definition string_le (s t : string) : Prop := String.leb s t = true.

#[global] Instance string_le_dec : RelDecision string_le.
Proof. intros ? ?. unfold string_le. apply _. Defined.

Lemma string_app_cons (c : Ascii.ascii) (s t : string) : String c s +++ t = String c (s +++ t).
Proof. done. Qed.

Lemma string_app_assoc (s t u : string) : (s +++ t) +++ u = s +++ (t +++ u).
Proof. induction s as [|c s IH]; [done|]. by rewrite !string_app_cons, IH. Qed.

Lemma string_app_nil_r (s : string) : s +++ EmptyString = s.
Proof. induction s as [|c s IH]; [done|]. by rewrite string_app_cons, IH. Qed.

Lemma string_length_app (s t : string) :
  String.length (s +++ t) = (String.length s + String.length t)%nat.
Proof. induction s as [|c s IH]; [done|]. rewrite string_app_cons. cbn. by rewrite IH. Qed.

Lemma prefix_app (p s : string) : startswith (p +++ s) p = true.
Proof.
  unfold startswith. induction p as [|c p IH]; [by destruct s|].
  rewrite string_app_cons. cbn. by destruct (Ascii.ascii_dec c c).
Qed.

Lemma startswith_true (s p : string) : startswith s p = true ↔ ∃ t, s = p +++ t.
Proof.
  split; [|intros [t ->]; apply prefix_app]. unfold startswith.
  revert s. induction p as [|c p IH]; intros s; [by exists s|].
  destruct s as [|c' s]; cbn; [done|].
  destruct (Ascii.ascii_dec c c') as [<-|]; [|done].
  intros [t ->]%IH. by exists t.
Qed.

Lemma str_take_all n s : (String.length s ≤ n)%nat → str_take n s = s.
Proof.
  unfold str_take. revert n. induction s as [|c s IH]; intros n Hn; [by destruct n|].
  destruct n as [|n]; cbn in *; [lia|]. by rewrite IH by lia.
Qed.

Lemma str_drop_app (p s : string) : str_drop (String.length p) (p +++ s) = s.
Proof. induction p as [|c p IH]; [done|]. by rewrite string_app_cons. Qed.

Lemma str_contains_true (p s : string) : str_contains p s = true ↔ ∃ a b, s = a +++ p +++ b.
Proof.
  split.
  - induction s as [|c s IH]; cbn [str_contains]; rewrite orb_true_iff.
    + intros [H|]; [|done]. apply (startswith_true "" p) in H as [t H]. by exists "", t.
    + intros [H|H].
      * apply (startswith_true (String c s) p) in H as [t ->]. by exists "", t.
      * destruct (IH H) as (a & b & ->). by exists (String c a), b.
  - intros (a & b & ->). induction a as [|c a IH].
    + pose proof (prefix_app p b) as H. unfold startswith in H.
      change ("" +++ p +++ b) with (p +++ b).
      destruct (p +++ b); cbn [str_contains]; by rewrite H.
    + rewrite string_app_cons. cbn [str_contains]. by rewrite IH, orb_true_r.
Qed.

(** ** Exceptions and the error monad *)

Inductive error_class : Type :=
| InvalidStateTransitionError
| InvalidVerdictStatusCombinationError
| EventNotFoundError
| AuthorizationError
| ValidationError
| GuardrailViolationError
| WritebackPendingError
| WritebackFailedError
| WritebackConflictError
| WritebackUnsupportedError
| AdapterNotFoundError
| ApprovalDecisionConflictError
| ResourceNotFoundError
| DependencyUnavailableError
| IdempotencyKeyReuseError
| InvestigationInProgressError
| ToolCallGrantDeniedError
| ToolCallGrantUnavailableError
| ToolAlreadyRegisteredError
| ToolNotFoundError
| ToolValidationError
| ToolExecutionError
| BudgetExceededError
| WrongExecutionChannelError
| TimeoutError
| ConnectionError
| SoftTimeLimitExceeded
| PydanticValidationError
| IntegrityError
| KeyError
| ValueError
| OtherError.

#[global] Instance error_class_eq_dec : EqDecision error_class.
Proof. solve_decision. Defined.

(** The observable part of a raised exception: class, message, [error_code], [status_code] and
    [details].  Built-in exceptions carry no code, status or details. *)
Record error : Type := MkError {
  err_class : error_class;
  err_message : string;
  err_code : string;
  err_status : Z;
  err_details : list (string * pyval)
}.

Inductive result (A : Type) : Type :=
| Ok (a : A)
| Err (e : error).
Arguments Ok {A} a.
Arguments Err {A} e.

#[global] Instance result_ret : MRet result := λ A a, Ok a.
#[global] Instance result_bind : MBind result :=
  λ A B f m, match m with Ok a => f a | Err e => Err e end.

(** [if cond: raise e] *)
Definition raise_if (cond : bool) (e : error) : result unit :=
  if cond then Err e else Ok tt.

Definition is_ok {A} (r : result A) : bool :=
  match r with Ok _ => true | Err _ => false end.

(** [for x in l: f(x)] where the body only raises. *)
Fixpoint for_each {A} (f : A → result unit) (l : list A) : result unit :=
  match l with
  | [] => Ok tt
  | x :: l' => f x ;; for_each f l'
  end.

Section result_lemmas.
Context {A B : Type}.
Implicit Types (m : result A) (f : A → result B).

Lemma bind_Ok m f b : (m ≫= f) = Ok b ↔ ∃ a, m = Ok a ∧ f a = Ok b.
Proof. destruct m; cbn; split; [eauto | naive_solver | done | naive_solver]. Qed.

Lemma bind_Err m f e : (m ≫= f) = Err e ↔ m = Err e ∨ ∃ a, m = Ok a ∧ f a = Err e.
Proof. destruct m; cbn; naive_solver. Qed.

Lemma raise_if_seq_Ok (c : bool) e (k : result B) b :
  (raise_if c e ;; k) = Ok b ↔ c = false ∧ k = Ok b.
Proof. destruct c; cbn; naive_solver. Qed.

Lemma unit_seq_Ok (u : result unit) (k : result B) b :
  (u ;; k) = Ok b ↔ u = Ok tt ∧ k = Ok b.
Proof. destruct u as [[]|]; cbn; naive_solver. Qed.

Lemma is_ok_true m : is_ok m = true ↔ ∃ a, m = Ok a.
Proof. destruct m; cbn; naive_solver. Qed.
End result_lemmas.

Lemma raise_if_Ok (c : bool) e (u : unit) : raise_if c e = Ok u ↔ c = false.
Proof. destruct c, u; cbn; naive_solver. Qed.

Lemma raise_if_Err (c : bool) e e' : raise_if c e = Err e' ↔ c = true ∧ e = e'.
Proof. destruct c; cbn; naive_solver. Qed.

Lemma for_each_Ok {A} (f : A → result unit) l u :
  for_each f l = Ok u ↔ Forall (λ x, f x = Ok tt) l.
Proof.
  destruct u. induction l as [|x l IH]; cbn [for_each].
  - by split.
  - by rewrite unit_seq_Ok, IH, Forall_cons.
Qed.

Lemma if_raise_Ok (c : bool) (m : result unit) u :
  (if c then m else Ok tt) = Ok u ↔ (c = true → m = Ok tt).
Proof. destruct c, u; naive_solver. Qed.

Lemma negb_bool_decide_false (P : Prop) `{!Decision P} : negb (bool_decide P) = false ↔ P.
Proof. rewrite negb_false_iff. apply bool_decide_eq_true. Qed.

(** ** Lists related row by row *)

Lemma Forall2_self {A} (R : A → A → Prop) l : (∀ x, x ∈ l → R x x) → Forall2 R l l.
Proof.
  intros HR. induction l as [|x l IH]; constructor; [apply HR; set_solver|].
  apply IH. intros; apply HR; set_solver.
Qed.

Lemma Forall2_elem_r {A B} (R : A → B → Prop) l k y :
  Forall2 R l k → y ∈ k → ∃ x, x ∈ l ∧ R x y.
Proof.
  intros H. induction H as [|a b l k Hab _ IH]; [set_solver|].
  intros [->|Hy]%elem_of_cons; [exists a; set_solver|]. destruct (IH Hy) as (x & ? & ?).
  exists x. set_solver.
Qed.

Lemma Forall2_elem_l {A B} (R : A → B → Prop) l k x :
  Forall2 R l k → x ∈ l → ∃ y, y ∈ k ∧ R x y.
Proof.
  intros H. induction H as [|a b l k Hab _ IH]; [set_solver|].
  intros [->|Hx]%elem_of_cons; [exists b; set_solver|]. destruct (IH Hx) as (y & ? & ?).
  exists y. set_solver.
Qed.

Lemma Forall2_same {A} (R : A → A → Prop) l : (∀ x, R x x) → Forall2 R l l.
Proof. intros HR. induction l; constructor; auto. Qed.

Lemma Forall2_compose {A B C} (P : A → B → Prop) (Q : B → C → Prop) (R : A → C → Prop) l k m :
  (∀ x y z, P x y → Q y z → R x z) → Forall2 P l k → Forall2 Q k m → Forall2 R l m.
Proof.
  intros HR Hlk. revert m. induction Hlk as [|x y l k Hxy _ IH]; intros m.
  - intros ->%Forall2_nil_inv_l. constructor.
  - intros (z & m' & Hyz & Hkm & ->)%Forall2_cons_inv_l. constructor; eauto.
Qed.

(** ** Shared automation *)

Create HintDb shadowtrace.
Create Rewrite HintDb shadowtrace.

#[export] Hint Rewrite @bind_Ok @raise_if_Ok @raise_if_seq_Ok @unit_seq_Ok @for_each_Ok
  if_raise_Ok andb_true_iff orb_true_iff andb_false_iff orb_false_iff negb_true_iff
  negb_false_iff @bool_decide_eq_true @bool_decide_eq_false : shadowtrace.

(** The same for guards [if A and B and not C: raise]: each conjunct becomes an implication. *)
Create Rewrite HintDb shadowtrace_guards.

Lemma andb_false_impl (a b : bool) : a && b = false ↔ (a = true → b = false).
Proof. destruct a, b; naive_solver. Qed.

#[export] Hint Rewrite @raise_if_Ok @raise_if_seq_Ok @unit_seq_Ok if_raise_Ok andb_true_iff
  andb_false_impl orb_false_iff negb_true_iff negb_false_iff @bool_decide_eq_true
  @bool_decide_eq_false : shadowtrace_guards.

Ltac guards_ok := autorewrite with shadowtrace_guards in *.

(** Turns a successful run into the facts its guards checked. *)
Ltac run_ok := autorewrite with shadowtrace in *.

(** Turns the boolean tests of the source into propositions, in the hypotheses. *)
Ltac bool_props :=
  repeat match goal with
  | H : (_ && _) = true |- _ => apply andb_true_iff in H as [? ?]
  | H : (_ || _) = false |- _ => apply orb_false_iff in H as [? ?]
  | H : negb _ = true |- _ => apply negb_true_iff in H
  | H : negb _ = false |- _ => apply negb_false_iff in H
  | H : bool_decide _ = true |- _ => apply bool_decide_eq_true_1 in H
  | H : bool_decide _ = false |- _ => apply bool_decide_eq_false_1 in H
  end.

(** Case analysis on finite data, by evaluation. *)
Ltac by_cases := intros; repeat match goal with x : _ |- _ => destruct x end; vm_compute; done.

(** ** Python string enums

    A [StrEnum] class of the source: each member has a string value, and calling the class on a
    raw string looks the member up or raises [ValueError]. *)

Class StrEnum (A : Type) `{EqDecision A} := {
  enum_value : A → string;
  enum_members : list A;
  enum_members_complete : ∀ x, x ∈ enum_members;
  enum_value_inj : Inj (=) (=) enum_value
}.
#[global] Existing Instance enum_value_inj.

(** [E(raw)]: [None] stands for [ValueError]. *)
Definition enum_of_value {A} `{StrEnum A} (raw : string) : option A :=
  List.find (λ x, enum_value x ==? raw) enum_members.

Arguments enum_of_value : simpl never.
Arguments enum_value : simpl never.

Section enum_lemmas.
Context {A : Type} `{StrEnum A}.

Lemma enum_of_value_Some raw (x : A) : enum_of_value raw = Some x ↔ raw = enum_value x.
Proof.
  unfold enum_of_value. split.
  - intros [_ Hx]%List.find_some. by bool_props.
  - intros ->. destruct (List.find _ _) as [y|] eqn:Hy.
    + apply List.find_some in Hy as [_ Hy]. bool_props. f_equal. by apply (inj enum_value).
    + eapply List.find_none in Hy; [|apply list_elem_of_In, (enum_members_complete x)].
      by bool_props.
Qed.

Lemma enum_of_value_value (x : A) : enum_of_value (enum_value x) = Some x.
Proof. by apply enum_of_value_Some. Qed.

Lemma enum_of_value_None raw :
  enum_of_value (A:=A) raw = None ↔ ∀ x : A, raw ≠ enum_value x.
Proof.
  split.
  - intros Hn x ->. by rewrite enum_of_value_value in Hn.
  - intros Hne. destruct (enum_of_value raw) as [x|] eqn:Hx; [|done].
    by apply enum_of_value_Some, Hne in Hx.
Qed.

Lemma enum_value_eq (x y : A) : enum_value x = enum_value y ↔ x = y.
Proof. split; [apply (inj _)|by intros ->]. Qed.
End enum_lemmas.

#[export] Hint Rewrite @enum_of_value_value @enum_value_eq @enum_of_value_Some : shadowtrace.

(** Discharges the laws of a [StrEnum] instance by going through its members. *)
Ltac solve_str_enum :=
  first [ intros []; apply (bool_decide_unpack _); vm_compute; exact I
        | intros [] []; cbv; first [reflexivity | discriminate] ].
