(* ===== verification/Enums.v ===== *)
(** * The string enums of the source

    One module per [StrEnum] class, so that members read as in the source
    ([EventStatus.CLOSED]).  Each module gives the members, their string values and a
    [StrEnum] instance: the values are distinct, so reading back a stored value returns the
    member it was written from. *)

From stdpp Require Import prelude strings.
From S2P Require Import Prelude.

#[local] Open Scope string_scope.

(** ** backend/app/models/enums.py *)

Module EventStatus.
Inductive EventStatus : Type :=
| NEW
| TRIAGING
| COLLECTING_EVIDENCE
| ANALYZING
| SCORING
| PLANNING_RESPONSE
| WAITING_APPROVAL
| EXECUTING_RESPONSE
| VERIFYING
| REPLANNING
| CONTAINED
| FAILED
| REPORTING
| CLOSED.

#[global] Instance EventStatus_eq_dec : EqDecision EventStatus.
Proof. solve_decision. Defined.

Definition value (x : EventStatus) : string :=
  match x with
  | NEW => "new"
  | TRIAGING => "triaging"
  | COLLECTING_EVIDENCE => "collecting_evidence"
  | ANALYZING => "analyzing"
  | SCORING => "scoring"
  | PLANNING_RESPONSE => "planning_response"
  | WAITING_APPROVAL => "waiting_approval"
  | EXECUTING_RESPONSE => "executing_response"
  | VERIFYING => "verifying"
  | REPLANNING => "replanning"
  | CONTAINED => "contained"
  | FAILED => "failed"
  | REPORTING => "reporting"
  | CLOSED => "closed"
  end.

#[global] Program Instance EventStatus_str_enum : StrEnum EventStatus := {|
  enum_value := value;
  enum_members := [NEW; TRIAGING; COLLECTING_EVIDENCE; ANALYZING; SCORING; PLANNING_RESPONSE; WAITING_APPROVAL; EXECUTING_RESPONSE; VERIFYING; REPLANNING; CONTAINED; FAILED; REPORTING; CLOSED]
|}.
Solve All Obligations with solve_str_enum.
End EventStatus.
Abbreviation EventStatus := EventStatus.EventStatus.

Module FinalVerdict.
Inductive FinalVerdict : Type :=
| NONE
| POSSIBLE_FALSE_POSITIVE
| FALSE_POSITIVE
| CONFIRMED_THREAT.

#[global] Instance FinalVerdict_eq_dec : EqDecision FinalVerdict.
Proof. solve_decision. Defined.

Definition value (x : FinalVerdict) : string :=
  match x with
  | NONE => "none"
  | POSSIBLE_FALSE_POSITIVE => "possible_false_positive"
  | FALSE_POSITIVE => "false_positive"
  | CONFIRMED_THREAT => "confirmed_threat"
  end.

#[global] Program Instance FinalVerdict_str_enum : StrEnum FinalVerdict := {|
  enum_value := value;
  enum_members := [NONE; POSSIBLE_FALSE_POSITIVE; FALSE_POSITIVE; CONFIRMED_THREAT]
|}.
Solve All Obligations with solve_str_enum.
End FinalVerdict.
Abbreviation FinalVerdict := FinalVerdict.FinalVerdict.

Module CaseLabel.
Inductive CaseLabel : Type :=
| TRUE_POSITIVE
| FALSE_POSITIVE
| UNCERTAIN.

#[global] Instance CaseLabel_eq_dec : EqDecision CaseLabel.
Proof. solve_decision. Defined.

Definition value (x : CaseLabel) : string :=
  match x with
  | TRUE_POSITIVE => "true_positive"
  | FALSE_POSITIVE => "false_positive"
  | UNCERTAIN => "uncertain"
  end.

#[global] Program Instance CaseLabel_str_enum : StrEnum CaseLabel := {|
  enum_value := value;
  enum_members := [TRUE_POSITIVE; FALSE_POSITIVE; UNCERTAIN]
|}.
Solve All Obligations with solve_str_enum.
End CaseLabel.
Abbreviation CaseLabel := CaseLabel.CaseLabel.

Module ActionStatus.
Inductive ActionStatus : Type :=
| PENDING
| WAITING_APPROVAL
| APPROVED
| REJECTED
| SUPERSEDED
| EXECUTING
| PARTIAL_SUCCESS
| SUCCESS
| FAILED
| UNKNOWN
| ROLLED_BACK.

#[global] Instance ActionStatus_eq_dec : EqDecision ActionStatus.
Proof. solve_decision. Defined.

Definition value (x : ActionStatus) : string :=
  match x with
  | PENDING => "pending"
  | WAITING_APPROVAL => "waiting_approval"
  | APPROVED => "approved"
  | REJECTED => "rejected"
  | SUPERSEDED => "superseded"
  | EXECUTING => "executing"
  | PARTIAL_SUCCESS => "partial_success"
  | SUCCESS => "success"
  | FAILED => "failed"
  | UNKNOWN => "unknown"
  | ROLLED_BACK => "rolled_back"
  end.

#[global] Program Instance ActionStatus_str_enum : StrEnum ActionStatus := {|
  enum_value := value;
  enum_members := [PENDING; WAITING_APPROVAL; APPROVED; REJECTED; SUPERSEDED; EXECUTING; PARTIAL_SUCCESS; SUCCESS; FAILED; UNKNOWN; ROLLED_BACK]
|}.
Solve All Obligations with solve_str_enum.
End ActionStatus.
Abbreviation ActionStatus := ActionStatus.ActionStatus.

Module ActionCategory.
Inductive ActionCategory : Type :=
| SYSTEM
| RESPONSE
| VERIFICATION
| ROLLBACK.

#[global] Instance ActionCategory_eq_dec : EqDecision ActionCategory.
Proof. solve_decision. Defined.

Definition value (x : ActionCategory) : string :=
  match x with
  | SYSTEM => "system"
  | RESPONSE => "response"
  | VERIFICATION => "verification"
  | ROLLBACK => "rollback"
  end.

#[global] Program Instance ActionCategory_str_enum : StrEnum ActionCategory := {|
  enum_value := value;
  enum_members := [SYSTEM; RESPONSE; VERIFICATION; ROLLBACK]
|}.
Solve All Obligations with solve_str_enum.
End ActionCategory.
Abbreviation ActionCategory := ActionCategory.ActionCategory.

Module ActionExecutionPhase.
Inductive ActionExecutionPhase : Type :=
| IMMEDIATE
| POST_VERIFY.

#[global] Instance ActionExecutionPhase_eq_dec : EqDecision ActionExecutionPhase.
Proof. solve_decision. Defined.

Definition value (x : ActionExecutionPhase) : string :=
  match x with
  | IMMEDIATE => "immediate"
  | POST_VERIFY => "post_verify"
  end.

#[global] Program Instance ActionExecutionPhase_str_enum : StrEnum ActionExecutionPhase := {|
  enum_value := value;
  enum_members := [IMMEDIATE; POST_VERIFY]
|}.
Solve All Obligations with solve_str_enum.
End ActionExecutionPhase.
Abbreviation ActionExecutionPhase := ActionExecutionPhase.ActionExecutionPhase.

Module Severity.
Inductive Severity : Type :=
| LOW
| MEDIUM
| HIGH
| CRITICAL.

#[global] Instance Severity_eq_dec : EqDecision Severity.
Proof. solve_decision. Defined.

Definition value (x : Severity) : string :=
  match x with
  | LOW => "low"
  | MEDIUM => "medium"
  | HIGH => "high"
  | CRITICAL => "critical"
  end.

#[global] Program Instance Severity_str_enum : StrEnum Severity := {|
  enum_value := value;
  enum_members := [LOW; MEDIUM; HIGH; CRITICAL]
|}.
Solve All Obligations with solve_str_enum.
End Severity.
Abbreviation Severity := Severity.Severity.

Module EventType.
Inductive EventType : Type :=
| ACCOUNT_ANOMALY
| HOST_COMPROMISE
| DATA_EXFILTRATION
| INSIDER_THREAT
| MALICIOUS_PROCESS
| SUSPICIOUS_DOMAIN
| LATERAL_MOVEMENT
| OTHER.

#[global] Instance EventType_eq_dec : EqDecision EventType.
Proof. solve_decision. Defined.

Definition value (x : EventType) : string :=
  match x with
  | ACCOUNT_ANOMALY => "account_anomaly"
  | HOST_COMPROMISE => "host_compromise"
  | DATA_EXFILTRATION => "data_exfiltration"
  | INSIDER_THREAT => "insider_threat"
  | MALICIOUS_PROCESS => "malicious_process"
  | SUSPICIOUS_DOMAIN => "suspicious_domain"
  | LATERAL_MOVEMENT => "lateral_movement"
  | OTHER => "other"
  end.

#[global] Program Instance EventType_str_enum : StrEnum EventType := {|
  enum_value := value;
  enum_members := [ACCOUNT_ANOMALY; HOST_COMPROMISE; DATA_EXFILTRATION; INSIDER_THREAT;
    MALICIOUS_PROCESS; SUSPICIOUS_DOMAIN; LATERAL_MOVEMENT; OTHER]
|}.
Solve All Obligations with solve_str_enum.
End EventType.
Abbreviation EventType := EventType.EventType.

Module ActionLevel.
Inductive ActionLevel : Type :=
| L0
| L1
| L2
| L3
| L4
| L5.

#[global] Instance ActionLevel_eq_dec : EqDecision ActionLevel.
Proof. solve_decision. Defined.

Definition value (x : ActionLevel) : string :=
  match x with
  | L0 => "l0"
  | L1 => "l1"
  | L2 => "l2"
  | L3 => "l3"
  | L4 => "l4"
  | L5 => "l5"
  end.

#[global] Program Instance ActionLevel_str_enum : StrEnum ActionLevel := {|
  enum_value := value;
  enum_members := [L0; L1; L2; L3; L4; L5]
|}.
Solve All Obligations with solve_str_enum.
End ActionLevel.
Abbreviation ActionLevel := ActionLevel.ActionLevel.

Module SourceDisposition.
Inductive SourceDisposition : Type :=
| PENDING
| PROCESSING
| CONTAINED
| COMPLETED
| SUSPENDED
| IGNORED
| UNKNOWN.

#[global] Instance SourceDisposition_eq_dec : EqDecision SourceDisposition.
Proof. solve_decision. Defined.

Definition value (x : SourceDisposition) : string :=
  match x with
  | PENDING => "pending"
  | PROCESSING => "processing"
  | CONTAINED => "contained"
  | COMPLETED => "completed"
  | SUSPENDED => "suspended"
  | IGNORED => "ignored"
  | UNKNOWN => "unknown"
  end.

#[global] Program Instance SourceDisposition_str_enum : StrEnum SourceDisposition := {|
  enum_value := value;
  enum_members := [PENDING; PROCESSING; CONTAINED; COMPLETED; SUSPENDED; IGNORED; UNKNOWN]
|}.
Solve All Obligations with solve_str_enum.
End SourceDisposition.
Abbreviation SourceDisposition := SourceDisposition.SourceDisposition.

Module DispositionPolicy.
Inductive DispositionPolicy : Type :=
| REQUIRED
| NOT_REQUIRED.

#[global] Instance DispositionPolicy_eq_dec : EqDecision DispositionPolicy.
Proof. solve_decision. Defined.

Definition value (x : DispositionPolicy) : string :=
  match x with
  | REQUIRED => "required"
  | NOT_REQUIRED => "not_required"
  end.

#[global] Program Instance DispositionPolicy_str_enum : StrEnum DispositionPolicy := {|
  enum_value := value;
  enum_members := [REQUIRED; NOT_REQUIRED]
|}.
Solve All Obligations with solve_str_enum.
End DispositionPolicy.
Abbreviation DispositionPolicy := DispositionPolicy.DispositionPolicy.

Module ExecutionJobStatus.
Inductive ExecutionJobStatus : Type :=
| QUEUED
| RUNNING
| PARTIAL_SUCCESS
| SUCCESS
| FAILED
| TIMED_OUT
| CANCELLED
| UNKNOWN.

#[global] Instance ExecutionJobStatus_eq_dec : EqDecision ExecutionJobStatus.
Proof. solve_decision. Defined.

Definition value (x : ExecutionJobStatus) : string :=
  match x with
  | QUEUED => "queued"
  | RUNNING => "running"
  | PARTIAL_SUCCESS => "partial_success"
  | SUCCESS => "success"
  | FAILED => "failed"
  | TIMED_OUT => "timed_out"
  | CANCELLED => "cancelled"
  | UNKNOWN => "unknown"
  end.

#[global] Program Instance ExecutionJobStatus_str_enum : StrEnum ExecutionJobStatus := {|
  enum_value := value;
  enum_members := [QUEUED; RUNNING; PARTIAL_SUCCESS; SUCCESS; FAILED; TIMED_OUT; CANCELLED; UNKNOWN]
|}.
Solve All Obligations with solve_str_enum.
End ExecutionJobStatus.
Abbreviation ExecutionJobStatus := ExecutionJobStatus.ExecutionJobStatus.

Module WritebackReadiness.
Inductive WritebackReadiness : Type :=
| NOT_REQUIRED
| READY
| SOURCE_UNRESOLVED
| NOT_CONFIGURED
| CAPABILITY_UNKNOWN
| CAPABILITY_UNSUPPORTED
| PERMISSION_DENIED
| CONNECTOR_UNAVAILABLE.

#[global] Instance WritebackReadiness_eq_dec : EqDecision WritebackReadiness.
Proof. solve_decision. Defined.

Definition value (x : WritebackReadiness) : string :=
  match x with
  | NOT_REQUIRED => "not_required"
  | READY => "ready"
  | SOURCE_UNRESOLVED => "source_unresolved"
  | NOT_CONFIGURED => "not_configured"
  | CAPABILITY_UNKNOWN => "capability_unknown"
  | CAPABILITY_UNSUPPORTED => "capability_unsupported"
  | PERMISSION_DENIED => "permission_denied"
  | CONNECTOR_UNAVAILABLE => "connector_unavailable"
  end.

#[global] Program Instance WritebackReadiness_str_enum : StrEnum WritebackReadiness := {|
  enum_value := value;
  enum_members := [NOT_REQUIRED; READY; SOURCE_UNRESOLVED; NOT_CONFIGURED; CAPABILITY_UNKNOWN; CAPABILITY_UNSUPPORTED; PERMISSION_DENIED; CONNECTOR_UNAVAILABLE]
|}.
Solve All Obligations with solve_str_enum.
End WritebackReadiness.
Abbreviation WritebackReadiness := WritebackReadiness.WritebackReadiness.

Module OutboxDeliveryStatus.
Inductive OutboxDeliveryStatus : Type :=
| READY
| LEASED
| WAITING_RETRY
| DELIVERED
| PAUSED
| DEAD_LETTER.

#[global] Instance OutboxDeliveryStatus_eq_dec : EqDecision OutboxDeliveryStatus.
Proof. solve_decision. Defined.

Definition value (x : OutboxDeliveryStatus) : string :=
  match x with
  | READY => "ready"
  | LEASED => "leased"
  | WAITING_RETRY => "waiting_retry"
  | DELIVERED => "delivered"
  | PAUSED => "paused"
  | DEAD_LETTER => "dead_letter"
  end.

#[global] Program Instance OutboxDeliveryStatus_str_enum : StrEnum OutboxDeliveryStatus := {|
  enum_value := value;
  enum_members := [READY; LEASED; WAITING_RETRY; DELIVERED; PAUSED; DEAD_LETTER]
|}.
Solve All Obligations with solve_str_enum.
End OutboxDeliveryStatus.
Abbreviation OutboxDeliveryStatus := OutboxDeliveryStatus.OutboxDeliveryStatus.

Module WritebackStatus.
Inductive WritebackStatus : Type :=
| PENDING
| SENDING
| ACCEPTED
| CONFIRMED
| PARTIAL
| FAILED
| CONFLICT
| UNKNOWN.

#[global] Instance WritebackStatus_eq_dec : EqDecision WritebackStatus.
Proof. solve_decision. Defined.

Definition value (x : WritebackStatus) : string :=
  match x with
  | PENDING => "pending"
  | SENDING => "sending"
  | ACCEPTED => "accepted"
  | CONFIRMED => "confirmed"
  | PARTIAL => "partial"
  | FAILED => "failed"
  | CONFLICT => "conflict"
  | UNKNOWN => "unknown"
  end.

#[global] Program Instance WritebackStatus_str_enum : StrEnum WritebackStatus := {|
  enum_value := value;
  enum_members := [PENDING; SENDING; ACCEPTED; CONFIRMED; PARTIAL; FAILED; CONFLICT; UNKNOWN]
|}.
Solve All Obligations with solve_str_enum.
End WritebackStatus.
Abbreviation WritebackStatus := WritebackStatus.WritebackStatus.

Module ConfirmationEvidence.
Inductive ConfirmationEvidence : Type :=
| ADAPTER_ACKNOWLEDGED
| STATUS_QUERIED
| READBACK_VERIFIED
| MANUAL_CONFIRMED.

#[global] Instance ConfirmationEvidence_eq_dec : EqDecision ConfirmationEvidence.
Proof. solve_decision. Defined.

Definition value (x : ConfirmationEvidence) : string :=
  match x with
  | ADAPTER_ACKNOWLEDGED => "adapter_acknowledged"
  | STATUS_QUERIED => "status_queried"
  | READBACK_VERIFIED => "readback_verified"
  | MANUAL_CONFIRMED => "manual_confirmed"
  end.

#[global] Program Instance ConfirmationEvidence_str_enum : StrEnum ConfirmationEvidence := {|
  enum_value := value;
  enum_members := [ADAPTER_ACKNOWLEDGED; STATUS_QUERIED; READBACK_VERIFIED; MANUAL_CONFIRMED]
|}.
Solve All Obligations with solve_str_enum.
End ConfirmationEvidence.
Abbreviation ConfirmationEvidence := ConfirmationEvidence.ConfirmationEvidence.

Module ExecutionOwner.
Inductive ExecutionOwner : Type :=
| XDR_MANAGED
| DIRECT_TOOL.

#[global] Instance ExecutionOwner_eq_dec : EqDecision ExecutionOwner.
Proof. solve_decision. Defined.

Definition value (x : ExecutionOwner) : string :=
  match x with
  | XDR_MANAGED => "xdr_managed"
  | DIRECT_TOOL => "direct_tool"
  end.

#[global] Program Instance ExecutionOwner_str_enum : StrEnum ExecutionOwner := {|
  enum_value := value;
  enum_members := [XDR_MANAGED; DIRECT_TOOL]
|}.
Solve All Obligations with solve_str_enum.
End ExecutionOwner.
Abbreviation ExecutionOwner := ExecutionOwner.ExecutionOwner.

Module ExecutionSubstate.
Inductive ExecutionSubstate : Type :=
| NONE
| WAITING_APPROVAL
| WAITING_EXECUTION
| WAITING_WRITEBACK
| MANUAL_RESOLUTION.

#[global] Instance ExecutionSubstate_eq_dec : EqDecision ExecutionSubstate.
Proof. solve_decision. Defined.

Definition value (x : ExecutionSubstate) : string :=
  match x with
  | NONE => "none"
  | WAITING_APPROVAL => "waiting_approval"
  | WAITING_EXECUTION => "waiting_execution"
  | WAITING_WRITEBACK => "waiting_writeback"
  | MANUAL_RESOLUTION => "manual_resolution"
  end.

#[global] Program Instance ExecutionSubstate_str_enum : StrEnum ExecutionSubstate := {|
  enum_value := value;
  enum_members := [NONE; WAITING_APPROVAL; WAITING_EXECUTION; WAITING_WRITEBACK; MANUAL_RESOLUTION]
|}.
Solve All Obligations with solve_str_enum.
End ExecutionSubstate.
Abbreviation ExecutionSubstate := ExecutionSubstate.ExecutionSubstate.

Module DispositionIntentKind.
Inductive DispositionIntentKind : Type :=
| ENTITY_ACTION_SUBMIT
| EXECUTION_RESULT_RECORD
| COMPENSATION_RECORD
| EVENT_STATUS_UPDATE.

#[global] Instance DispositionIntentKind_eq_dec : EqDecision DispositionIntentKind.
Proof. solve_decision. Defined.

Definition value (x : DispositionIntentKind) : string :=
  match x with
  | ENTITY_ACTION_SUBMIT => "entity_action_submit"
  | EXECUTION_RESULT_RECORD => "execution_result_record"
  | COMPENSATION_RECORD => "compensation_record"
  | EVENT_STATUS_UPDATE => "event_status_update"
  end.

#[global] Program Instance DispositionIntentKind_str_enum : StrEnum DispositionIntentKind := {|
  enum_value := value;
  enum_members := [ENTITY_ACTION_SUBMIT; EXECUTION_RESULT_RECORD; COMPENSATION_RECORD; EVENT_STATUS_UPDATE]
|}.
Solve All Obligations with solve_str_enum.
End DispositionIntentKind.
Abbreviation DispositionIntentKind := DispositionIntentKind.DispositionIntentKind.

(** ** backend/app/models/agent_io.py *)

Module EffectStatus.
Inductive EffectStatus : Type :=
| VERIFIED
| FAILED
| SKIPPED
| UNVERIFIABLE.

#[global] Instance EffectStatus_eq_dec : EqDecision EffectStatus.
Proof. solve_decision. Defined.

Definition value (x : EffectStatus) : string :=
  match x with
  | VERIFIED => "verified"
  | FAILED => "failed"
  | SKIPPED => "skipped"
  | UNVERIFIABLE => "unverifiable"
  end.

#[global] Program Instance EffectStatus_str_enum : StrEnum EffectStatus := {|
  enum_value := value;
  enum_members := [VERIFIED; FAILED; SKIPPED; UNVERIFIABLE]
|}.
Solve All Obligations with solve_str_enum.
End EffectStatus.
Abbreviation EffectStatus := EffectStatus.EffectStatus.

Module VerificationOverallStatus.
Inductive VerificationOverallStatus : Type :=
| SUCCESS
| PARTIAL
| FAILED
| WAITING
| MANUAL_RESOLUTION.

#[global] Instance VerificationOverallStatus_eq_dec : EqDecision VerificationOverallStatus.
Proof. solve_decision. Defined.

Definition value (x : VerificationOverallStatus) : string :=
  match x with
  | SUCCESS => "success"
  | PARTIAL => "partial"
  | FAILED => "failed"
  | WAITING => "waiting"
  | MANUAL_RESOLUTION => "manual_resolution"
  end.

#[global] Program Instance VerificationOverallStatus_str_enum : StrEnum VerificationOverallStatus := {|
  enum_value := value;
  enum_members := [SUCCESS; PARTIAL; FAILED; WAITING; MANUAL_RESOLUTION]
|}.
Solve All Obligations with solve_str_enum.
End VerificationOverallStatus.
Abbreviation VerificationOverallStatus := VerificationOverallStatus.VerificationOverallStatus.

Module VerificationPhase.
Inductive VerificationPhase : Type :=
| EFFECT
| DISPOSITION.

#[global] Instance VerificationPhase_eq_dec : EqDecision VerificationPhase.
Proof. solve_decision. Defined.

Definition value (x : VerificationPhase) : string :=
  match x with
  | EFFECT => "effect"
  | DISPOSITION => "disposition"
  end.

#[global] Program Instance VerificationPhase_str_enum : StrEnum VerificationPhase := {|
  enum_value := value;
  enum_members := [EFFECT; DISPOSITION]
|}.
Solve All Obligations with solve_str_enum.
End VerificationPhase.
Abbreviation VerificationPhase := VerificationPhase.VerificationPhase.

(** ** backend/app/models/side_effect_convergence.py *)

Module SideEffectScope.
Inductive SideEffectScope : Type :=
| GATE_APPLICABLE
| BACKGROUND_DETACHED.

#[global] Instance SideEffectScope_eq_dec : EqDecision SideEffectScope.
Proof. solve_decision. Defined.

Definition value (x : SideEffectScope) : string :=
  match x with
  | GATE_APPLICABLE => "gate_applicable"
  | BACKGROUND_DETACHED => "background_detached"
  end.

#[global] Program Instance SideEffectScope_str_enum : StrEnum SideEffectScope := {|
  enum_value := value;
  enum_members := [GATE_APPLICABLE; BACKGROUND_DETACHED]
|}.
Solve All Obligations with solve_str_enum.
End SideEffectScope.
Abbreviation SideEffectScope := SideEffectScope.SideEffectScope.

Module SideEffectConvergencePolicy.
Inductive SideEffectConvergencePolicy : Type :=
| TERMINAL_WRITEBACK
| INDEPENDENT_ENTITY_EFFECT
| EXECUTION_JOB_ONLY.

#[global] Instance SideEffectConvergencePolicy_eq_dec : EqDecision SideEffectConvergencePolicy.
Proof. solve_decision. Defined.

Definition value (x : SideEffectConvergencePolicy) : string :=
  match x with
  | TERMINAL_WRITEBACK => "terminal_writeback"
  | INDEPENDENT_ENTITY_EFFECT => "independent_entity_effect"
  | EXECUTION_JOB_ONLY => "execution_job_only"
  end.

#[global] Program Instance SideEffectConvergencePolicy_str_enum : StrEnum SideEffectConvergencePolicy := {|
  enum_value := value;
  enum_members := [TERMINAL_WRITEBACK; INDEPENDENT_ENTITY_EFFECT; EXECUTION_JOB_ONLY]
|}.
Solve All Obligations with solve_str_enum.
End SideEffectConvergencePolicy.
Abbreviation SideEffectConvergencePolicy := SideEffectConvergencePolicy.SideEffectConvergencePolicy.

Module SideEffectConvergenceReason.
Inductive SideEffectConvergenceReason : Type :=
| IN_FLIGHT_JOB
| EXECUTING_ACTION
| EFFECT_UNVERIFIED
| TERMINAL_WRITEBACK_UNCONFIRMED
| OUTBOX_NOT_CONFIRMED
| OUTBOX_UNDELIVERED.

#[global] Instance SideEffectConvergenceReason_eq_dec : EqDecision SideEffectConvergenceReason.
Proof. solve_decision. Defined.

Definition value (x : SideEffectConvergenceReason) : string :=
  match x with
  | IN_FLIGHT_JOB => "in_flight_job"
  | EXECUTING_ACTION => "executing_action"
  | EFFECT_UNVERIFIED => "effect_unverified"
  | TERMINAL_WRITEBACK_UNCONFIRMED => "terminal_writeback_unconfirmed"
  | OUTBOX_NOT_CONFIRMED => "outbox_not_confirmed"
  | OUTBOX_UNDELIVERED => "outbox_undelivered"
  end.

#[global] Program Instance SideEffectConvergenceReason_str_enum : StrEnum SideEffectConvergenceReason := {|
  enum_value := value;
  enum_members := [IN_FLIGHT_JOB; EXECUTING_ACTION; EFFECT_UNVERIFIED; TERMINAL_WRITEBACK_UNCONFIRMED; OUTBOX_NOT_CONFIRMED; OUTBOX_UNDELIVERED]
|}.
Solve All Obligations with solve_str_enum.
End SideEffectConvergenceReason.
Abbreviation SideEffectConvergenceReason := SideEffectConvergenceReason.SideEffectConvergenceReason.

(** ** backend/app/models/workflow.py *)

Module LateFalsePositiveTier.
Inductive LateFalsePositiveTier : Type :=
| NO_SIDE_EFFECT
| IN_FLIGHT
| VERIFIED_EFFECTS.

#[global] Instance LateFalsePositiveTier_eq_dec : EqDecision LateFalsePositiveTier.
Proof. solve_decision. Defined.

Definition value (x : LateFalsePositiveTier) : string :=
  match x with
  | NO_SIDE_EFFECT => "no_side_effect"
  | IN_FLIGHT => "in_flight"
  | VERIFIED_EFFECTS => "verified_effects"
  end.

#[global] Program Instance LateFalsePositiveTier_str_enum : StrEnum LateFalsePositiveTier := {|
  enum_value := value;
  enum_members := [NO_SIDE_EFFECT; IN_FLIGHT; VERIFIED_EFFECTS]
|}.
Solve All Obligations with solve_str_enum.
End LateFalsePositiveTier.
Abbreviation LateFalsePositiveTier := LateFalsePositiveTier.LateFalsePositiveTier.

Module WritebackCloseGateReason.
Inductive WritebackCloseGateReason : Type :=
| NO_APPLICABLE
| READINESS_NOT_READY
| NO_COMMAND
| INTENTS_NOT_CONFIRMED
| STATUS_NOT_CONFIRMED.

#[global] Instance WritebackCloseGateReason_eq_dec : EqDecision WritebackCloseGateReason.
Proof. solve_decision. Defined.

Definition value (x : WritebackCloseGateReason) : string :=
  match x with
  | NO_APPLICABLE => "no_applicable"
  | READINESS_NOT_READY => "readiness_not_ready"
  | NO_COMMAND => "no_command"
  | INTENTS_NOT_CONFIRMED => "intents_not_confirmed"
  | STATUS_NOT_CONFIRMED => "status_not_confirmed"
  end.

#[global] Program Instance WritebackCloseGateReason_str_enum : StrEnum WritebackCloseGateReason := {|
  enum_value := value;
  enum_members := [NO_APPLICABLE; READINESS_NOT_READY; NO_COMMAND; INTENTS_NOT_CONFIRMED; STATUS_NOT_CONFIRMED]
|}.
Solve All Obligations with solve_str_enum.
End WritebackCloseGateReason.
Abbreviation WritebackCloseGateReason := WritebackCloseGateReason.WritebackCloseGateReason.

(** ** backend/app/orchestration/convergence_guard.py *)

Module StopReason.
Inductive StopReason : Type :=
| GLOBAL_MAX_STEPS
| OSCILLATION
| DUPLICATE_TOOL_CALLS
| MAX_LLM_CALLS
| NONE.

#[global] Instance StopReason_eq_dec : EqDecision StopReason.
Proof. solve_decision. Defined.

Definition value (x : StopReason) : string :=
  match x with
  | GLOBAL_MAX_STEPS => "global_max_steps"
  | OSCILLATION => "oscillation"
  | DUPLICATE_TOOL_CALLS => "duplicate_tool_calls"
  | MAX_LLM_CALLS => "max_llm_calls"
  | NONE => "none"
  end.

#[global] Program Instance StopReason_str_enum : StrEnum StopReason := {|
  enum_value := value;
  enum_members := [GLOBAL_MAX_STEPS; OSCILLATION; DUPLICATE_TOOL_CALLS; MAX_LLM_CALLS; NONE]
|}.
Solve All Obligations with solve_str_enum.
End StopReason.
Abbreviation StopReason := StopReason.StopReason.

(** ** backend/app/tools/circuit_breaker.py *)

Module CircuitState.
Inductive CircuitState : Type :=
| CLOSED
| OPEN
| HALF_OPEN.

#[global] Instance CircuitState_eq_dec : EqDecision CircuitState.
Proof. solve_decision. Defined.

Definition value (x : CircuitState) : string :=
  match x with
  | CLOSED => "closed"
  | OPEN => "open"
  | HALF_OPEN => "half_open"
  end.

#[global] Program Instance CircuitState_str_enum : StrEnum CircuitState := {|
  enum_value := value;
  enum_members := [CLOSED; OPEN; HALF_OPEN]
|}.
Solve All Obligations with solve_str_enum.
End CircuitState.
Abbreviation CircuitState := CircuitState.CircuitState.

(** ** backend/app/models/enums.py: dispositions *)

Module SourceObjectKind.
Inductive SourceObjectKind : Type :=
| INCIDENT
| ALERT
| ASSET
| LOG
| CONNECTOR.

#[global] Instance SourceObjectKind_eq_dec : EqDecision SourceObjectKind.
Proof. solve_decision. Defined.

Definition value (x : SourceObjectKind) : string :=
  match x with
  | INCIDENT => "incident"
  | ALERT => "alert"
  | ASSET => "asset"
  | LOG => "log"
  | CONNECTOR => "connector"
  end.

#[global] Program Instance SourceObjectKind_str_enum : StrEnum SourceObjectKind := {|
  enum_value := value;
  enum_members := [INCIDENT; ALERT; ASSET; LOG; CONNECTOR]
|}.
Solve All Obligations with solve_str_enum.
End SourceObjectKind.
Abbreviation SourceObjectKind := SourceObjectKind.SourceObjectKind.

Module TargetExecutionStatus.
Inductive TargetExecutionStatus : Type :=
| SUCCESS
| FAILED
| UNKNOWN
| SKIPPED.

#[global] Instance TargetExecutionStatus_eq_dec : EqDecision TargetExecutionStatus.
Proof. solve_decision. Defined.

Definition value (x : TargetExecutionStatus) : string :=
  match x with
  | SUCCESS => "success"
  | FAILED => "failed"
  | UNKNOWN => "unknown"
  | SKIPPED => "skipped"
  end.

#[global] Program Instance TargetExecutionStatus_str_enum : StrEnum TargetExecutionStatus := {|
  enum_value := value;
  enum_members := [SUCCESS; FAILED; UNKNOWN; SKIPPED]
|}.
Solve All Obligations with solve_str_enum.
End TargetExecutionStatus.
Abbreviation TargetExecutionStatus := TargetExecutionStatus.TargetExecutionStatus.

Module TargetWritebackStatus.
Inductive TargetWritebackStatus : Type :=
| PENDING
| ACCEPTED
| CONFIRMED
| FAILED
| CONFLICT
| UNKNOWN.

#[global] Instance TargetWritebackStatus_eq_dec : EqDecision TargetWritebackStatus.
Proof. solve_decision. Defined.

Definition value (x : TargetWritebackStatus) : string :=
  match x with
  | PENDING => "pending"
  | ACCEPTED => "accepted"
  | CONFIRMED => "confirmed"
  | FAILED => "failed"
  | CONFLICT => "conflict"
  | UNKNOWN => "unknown"
  end.

#[global] Program Instance TargetWritebackStatus_str_enum : StrEnum TargetWritebackStatus := {|
  enum_value := value;
  enum_members := [PENDING; ACCEPTED; CONFIRMED; FAILED; CONFLICT; UNKNOWN]
|}.
Solve All Obligations with solve_str_enum.
End TargetWritebackStatus.
Abbreviation TargetWritebackStatus := TargetWritebackStatus.TargetWritebackStatus.

Module GuardRailDimension.
Inductive GuardRailDimension : Type :=
| SCHEMA
| GROUNDING
| POLICY
| SANITIZATION.

#[global] Instance GuardRailDimension_eq_dec : EqDecision GuardRailDimension.
Proof. solve_decision. Defined.

Definition value (x : GuardRailDimension) : string :=
  match x with
  | SCHEMA => "schema"
  | GROUNDING => "grounding"
  | POLICY => "policy"
  | SANITIZATION => "sanitization"
  end.

#[global] Program Instance GuardRailDimension_str_enum : StrEnum GuardRailDimension := {|
  enum_value := value;
  enum_members := [SCHEMA; GROUNDING; POLICY; SANITIZATION]
|}.
Solve All Obligations with solve_str_enum.
End GuardRailDimension.
Abbreviation GuardRailDimension := GuardRailDimension.GuardRailDimension.

(** ** backend/app/adapters/disposition/error_classification.py *)

Module DispositionDeliveryErrorKind.
Inductive DispositionDeliveryErrorKind : Type :=
| DETERMINISTIC_REJECTION
| CONFLICT
| AMBIGUOUS_OUTCOME
| GUARDRAIL.

#[global] Instance DispositionDeliveryErrorKind_eq_dec : EqDecision DispositionDeliveryErrorKind.
Proof. solve_decision. Defined.

Definition value (x : DispositionDeliveryErrorKind) : string :=
  match x with
  | DETERMINISTIC_REJECTION => "deterministic_rejection"
  | CONFLICT => "conflict"
  | AMBIGUOUS_OUTCOME => "ambiguous_outcome"
  | GUARDRAIL => "guardrail"
  end.

#[global] Program Instance DispositionDeliveryErrorKind_str_enum : StrEnum DispositionDeliveryErrorKind := {|
  enum_value := value;
  enum_members := [DETERMINISTIC_REJECTION; CONFLICT; AMBIGUOUS_OUTCOME; GUARDRAIL]
|}.
Solve All Obligations with solve_str_enum.
End DispositionDeliveryErrorKind.
Abbreviation DispositionDeliveryErrorKind := DispositionDeliveryErrorKind.DispositionDeliveryErrorKind.

(** ** backend/app/services/disposition_sync_service.py *)

Module _PausedLookupKind.
Inductive _PausedLookupKind : Type :=
| FOUND
| NOT_FOUND
| DEGRADED.

#[global] Instance _PausedLookupKind_eq_dec : EqDecision _PausedLookupKind.
Proof. solve_decision. Defined.

Definition value (x : _PausedLookupKind) : string :=
  match x with
  | FOUND => "found"
  | NOT_FOUND => "not_found"
  | DEGRADED => "degraded"
  end.

#[global] Program Instance _PausedLookupKind_str_enum : StrEnum _PausedLookupKind := {|
  enum_value := value;
  enum_members := [FOUND; NOT_FOUND; DEGRADED]
|}.
Solve All Obligations with solve_str_enum.
End _PausedLookupKind.
Abbreviation _PausedLookupKind := _PausedLookupKind._PausedLookupKind.

(** ** backend/app/models/enums.py *)

Module CapabilityState.
Inductive CapabilityState : Type :=
| UNKNOWN
| SUPPORTED
| UNSUPPORTED.

#[global] Instance CapabilityState_eq_dec : EqDecision CapabilityState.
Proof. solve_decision. Defined.

Definition value (x : CapabilityState) : string :=
  match x with
  | UNKNOWN => "unknown"
  | SUPPORTED => "supported"
  | UNSUPPORTED => "unsupported"
  end.

#[global] Program Instance CapabilityState_str_enum : StrEnum CapabilityState := {|
  enum_value := value;
  enum_members := [UNKNOWN; SUPPORTED; UNSUPPORTED]
|}.
Solve All Obligations with solve_str_enum.
End CapabilityState.
Abbreviation CapabilityState := CapabilityState.CapabilityState.

(** ** backend/app/models/approval.py *)

Module ApprovalDecisionKind.
Inductive ApprovalDecisionKind : Type :=
| AUTO_APPROVE
| REQUIRE_APPROVAL
| AUTO_REJECT.

#[global] Instance ApprovalDecisionKind_eq_dec : EqDecision ApprovalDecisionKind.
Proof. solve_decision. Defined.

Definition value (x : ApprovalDecisionKind) : string :=
  match x with
  | AUTO_APPROVE => "auto_approve"
  | REQUIRE_APPROVAL => "require_approval"
  | AUTO_REJECT => "auto_reject"
  end.

#[global] Program Instance ApprovalDecisionKind_str_enum : StrEnum ApprovalDecisionKind := {|
  enum_value := value;
  enum_members := [AUTO_APPROVE; REQUIRE_APPROVAL; AUTO_REJECT]
|}.
Solve All Obligations with solve_str_enum.
End ApprovalDecisionKind.
Abbreviation ApprovalDecisionKind := ApprovalDecisionKind.ApprovalDecisionKind.

Module InvestigationIntentStatus.
Inductive InvestigationIntentStatus : Type :=
| PENDING
| CLAIMED
| ENQUEUED
| STARTED
| TERMINAL
| SKIPPED
| RETRY
| DEAD.

#[global] Instance InvestigationIntentStatus_eq_dec : EqDecision InvestigationIntentStatus.
Proof. solve_decision. Defined.

Definition value (x : InvestigationIntentStatus) : string :=
  match x with
  | PENDING => "pending"
  | CLAIMED => "claimed"
  | ENQUEUED => "enqueued"
  | STARTED => "started"
  | TERMINAL => "terminal"
  | SKIPPED => "skipped"
  | RETRY => "retry"
  | DEAD => "dead"
  end.

#[global] Program Instance InvestigationIntentStatus_str_enum : StrEnum InvestigationIntentStatus := {|
  enum_value := value;
  enum_members := [PENDING; CLAIMED; ENQUEUED; STARTED; TERMINAL; SKIPPED; RETRY; DEAD]
|}.
Solve All Obligations with solve_str_enum.
End InvestigationIntentStatus.
Abbreviation InvestigationIntentStatus := InvestigationIntentStatus.InvestigationIntentStatus.

Module IntentDeliveryAdmission.
Inductive IntentDeliveryAdmission : Type :=
| ACCEPTED
| STALE_SUPERSEDED
| ALREADY_TERMINAL
| MISSING.

#[global] Instance IntentDeliveryAdmission_eq_dec : EqDecision IntentDeliveryAdmission.
Proof. solve_decision. Defined.

Definition value (x : IntentDeliveryAdmission) : string :=
  match x with
  | ACCEPTED => "accepted"
  | STALE_SUPERSEDED => "stale_superseded"
  | ALREADY_TERMINAL => "already_terminal"
  | MISSING => "missing"
  end.

#[global] Program Instance IntentDeliveryAdmission_str_enum : StrEnum IntentDeliveryAdmission := {|
  enum_value := value;
  enum_members := [ACCEPTED; STALE_SUPERSEDED; ALREADY_TERMINAL; MISSING]
|}.
Solve All Obligations with solve_str_enum.
End IntentDeliveryAdmission.
Abbreviation IntentDeliveryAdmission := IntentDeliveryAdmission.IntentDeliveryAdmission.

Module ToolCallMode.
Inductive ToolCallMode : Type :=
| PRODUCTION
| SHADOW
| COMPATIBILITY.

#[global] Instance ToolCallMode_eq_dec : EqDecision ToolCallMode.
Proof. solve_decision. Defined.

Definition value (x : ToolCallMode) : string :=
  match x with
  | PRODUCTION => "production"
  | SHADOW => "shadow"
  | COMPATIBILITY => "compatibility"
  end.

#[global] Program Instance ToolCallMode_str_enum : StrEnum ToolCallMode := {|
  enum_value := value;
  enum_members := [PRODUCTION; SHADOW; COMPATIBILITY]
|}.
Solve All Obligations with solve_str_enum.
End ToolCallMode.
Abbreviation ToolCallMode := ToolCallMode.ToolCallMode.

Module ToolCallAttemptStatus.
Inductive ToolCallAttemptStatus : Type :=
| RESERVED
| DENIED
| SUCCESS
| FAILED
| TIMEOUT.

#[global] Instance ToolCallAttemptStatus_eq_dec : EqDecision ToolCallAttemptStatus.
Proof. solve_decision. Defined.

Definition value (x : ToolCallAttemptStatus) : string :=
  match x with
  | RESERVED => "reserved"
  | DENIED => "denied"
  | SUCCESS => "success"
  | FAILED => "failed"
  | TIMEOUT => "timeout"
  end.

#[global] Program Instance ToolCallAttemptStatus_str_enum : StrEnum ToolCallAttemptStatus := {|
  enum_value := value;
  enum_members := [RESERVED; DENIED; SUCCESS; FAILED; TIMEOUT]
|}.
Solve All Obligations with solve_str_enum.
End ToolCallAttemptStatus.
Abbreviation ToolCallAttemptStatus := ToolCallAttemptStatus.ToolCallAttemptStatus.

Module ErrorCategory.
Inductive ErrorCategory : Type :=
| TRANSIENT
| PERMANENT
| USER_INPUT
| SYSTEM
| LLM
| TOOL
| BUDGET
| GUARDRAIL.

#[global] Instance ErrorCategory_eq_dec : EqDecision ErrorCategory.
Proof. solve_decision. Defined.

Definition value (x : ErrorCategory) : string :=
  match x with
  | TRANSIENT => "transient"
  | PERMANENT => "permanent"
  | USER_INPUT => "user_input"
  | SYSTEM => "system"
  | LLM => "llm"
  | TOOL => "tool"
  | BUDGET => "budget"
  | GUARDRAIL => "guardrail"
  end.

#[global] Program Instance ErrorCategory_str_enum : StrEnum ErrorCategory := {|
  enum_value := value;
  enum_members := [TRANSIENT; PERMANENT; USER_INPUT; SYSTEM; LLM; TOOL; BUDGET; GUARDRAIL]
|}.
Solve All Obligations with solve_str_enum.
End ErrorCategory.
Abbreviation ErrorCategory := ErrorCategory.ErrorCategory.

Module ToolCategory.
Inductive ToolCategory : Type :=
| QUERY
| RESPONSE
| VERIFICATION
| ROLLBACK.

#[global] Instance ToolCategory_eq_dec : EqDecision ToolCategory.
Proof. solve_decision. Defined.

Definition value (x : ToolCategory) : string :=
  match x with
  | QUERY => "query"
  | RESPONSE => "response"
  | VERIFICATION => "verification"
  | ROLLBACK => "rollback"
  end.

#[global] Program Instance ToolCategory_str_enum : StrEnum ToolCategory := {|
  enum_value := value;
  enum_members := [QUERY; RESPONSE; VERIFICATION; ROLLBACK]
|}.
Solve All Obligations with solve_str_enum.
End ToolCategory.
Abbreviation ToolCategory := ToolCategory.ToolCategory.

(** ** backend/app/models/tool_meta.py, backend/app/tools *)

Module RoutingKind.
Inductive RoutingKind : Type :=
| TOOL_PROVIDER_ONLY
| OWNER_ROUTED
| DISPOSITION_ONLY.

#[global] Instance RoutingKind_eq_dec : EqDecision RoutingKind.
Proof. solve_decision. Defined.

Definition value (x : RoutingKind) : string :=
  match x with
  | TOOL_PROVIDER_ONLY => "tool_provider_only"
  | OWNER_ROUTED => "owner_routed"
  | DISPOSITION_ONLY => "disposition_only"
  end.

#[global] Program Instance RoutingKind_str_enum : StrEnum RoutingKind := {|
  enum_value := value;
  enum_members := [TOOL_PROVIDER_ONLY; OWNER_ROUTED; DISPOSITION_ONLY]
|}.
Solve All Obligations with solve_str_enum.
End RoutingKind.
Abbreviation RoutingKind := RoutingKind.RoutingKind.

Module ExecutionChannel.
Inductive ExecutionChannel : Type :=
| TOOL_PROVIDER
| DISPOSITION_ADAPTER.

#[global] Instance ExecutionChannel_eq_dec : EqDecision ExecutionChannel.
Proof. solve_decision. Defined.

Definition value (x : ExecutionChannel) : string :=
  match x with
  | TOOL_PROVIDER => "tool_provider"
  | DISPOSITION_ADAPTER => "disposition_adapter"
  end.

#[global] Program Instance ExecutionChannel_str_enum : StrEnum ExecutionChannel := {|
  enum_value := value;
  enum_members := [TOOL_PROVIDER; DISPOSITION_ADAPTER]
|}.
Solve All Obligations with solve_str_enum.
End ExecutionChannel.
Abbreviation ExecutionChannel := ExecutionChannel.ExecutionChannel.

Module SideEffectLevel.
Inductive SideEffectLevel : Type :=
| NONE
| LOW
| MEDIUM
| HIGH.

#[global] Instance SideEffectLevel_eq_dec : EqDecision SideEffectLevel.
Proof. solve_decision. Defined.

Definition value (x : SideEffectLevel) : string :=
  match x with
  | NONE => "none"
  | LOW => "low"
  | MEDIUM => "medium"
  | HIGH => "high"
  end.

#[global] Program Instance SideEffectLevel_str_enum : StrEnum SideEffectLevel := {|
  enum_value := value;
  enum_members := [NONE; LOW; MEDIUM; HIGH]
|}.
Solve All Obligations with solve_str_enum.
End SideEffectLevel.
Abbreviation SideEffectLevel := SideEffectLevel.SideEffectLevel.

Module ToolResultStatus.
Inductive ToolResultStatus : Type :=
| ACCEPTED
| SUCCESS
| PARTIAL_SUCCESS
| FAILED
| UNKNOWN
| VALIDATION_ERROR
| AUTH_ERROR
| RATE_LIMITED
| TIMEOUT
| REMOTE_ERROR
| CIRCUIT_OPEN
| UNSUPPORTED.

#[global] Instance ToolResultStatus_eq_dec : EqDecision ToolResultStatus.
Proof. solve_decision. Defined.

Definition value (x : ToolResultStatus) : string :=
  match x with
  | ACCEPTED => "accepted"
  | SUCCESS => "success"
  | PARTIAL_SUCCESS => "partial_success"
  | FAILED => "failed"
  | UNKNOWN => "unknown"
  | VALIDATION_ERROR => "validation_error"
  | AUTH_ERROR => "auth_error"
  | RATE_LIMITED => "rate_limited"
  | TIMEOUT => "timeout"
  | REMOTE_ERROR => "remote_error"
  | CIRCUIT_OPEN => "circuit_open"
  | UNSUPPORTED => "unsupported"
  end.

#[global] Program Instance ToolResultStatus_str_enum : StrEnum ToolResultStatus := {|
  enum_value := value;
  enum_members := [ACCEPTED; SUCCESS; PARTIAL_SUCCESS; FAILED; UNKNOWN; VALIDATION_ERROR;
                   AUTH_ERROR; RATE_LIMITED; TIMEOUT; REMOTE_ERROR; CIRCUIT_OPEN; UNSUPPORTED]
|}.
Solve All Obligations with solve_str_enum.
End ToolResultStatus.
Abbreviation ToolResultStatus := ToolResultStatus.ToolResultStatus.

Module ToolUnavailableReason.
Inductive ToolUnavailableReason : Type :=
| VIRTUAL_META
| UNHEALTHY
| IMPLEMENTATION_MISSING
| BINDING_UNAVAILABLE.

#[global] Instance ToolUnavailableReason_eq_dec : EqDecision ToolUnavailableReason.
Proof. solve_decision. Defined.

Definition value (x : ToolUnavailableReason) : string :=
  match x with
  | VIRTUAL_META => "virtual_meta"
  | UNHEALTHY => "unhealthy"
  | IMPLEMENTATION_MISSING => "implementation_missing"
  | BINDING_UNAVAILABLE => "binding_unavailable"
  end.

#[global] Program Instance ToolUnavailableReason_str_enum : StrEnum ToolUnavailableReason := {|
  enum_value := value;
  enum_members := [VIRTUAL_META; UNHEALTHY; IMPLEMENTATION_MISSING; BINDING_UNAVAILABLE]
|}.
Solve All Obligations with solve_str_enum.
End ToolUnavailableReason.
Abbreviation ToolUnavailableReason := ToolUnavailableReason.ToolUnavailableReason.

Module CallNature.
Inductive CallNature : Type :=
| QUERY
| VERIFICATION
| SIDE_EFFECT
| VIRTUAL.

#[global] Instance CallNature_eq_dec : EqDecision CallNature.
Proof. solve_decision. Defined.

Definition value (x : CallNature) : string :=
  match x with
  | QUERY => "query"
  | VERIFICATION => "verification"
  | SIDE_EFFECT => "side_effect"
  | VIRTUAL => "virtual"
  end.

#[global] Program Instance CallNature_str_enum : StrEnum CallNature := {|
  enum_value := value;
  enum_members := [QUERY; VERIFICATION; SIDE_EFFECT; VIRTUAL]
|}.
Solve All Obligations with solve_str_enum.
End CallNature.
Abbreviation CallNature := CallNature.CallNature.
