(* ===== verification/Errors.v ===== *)
(** * Structured exceptions (backend/app/core/errors.py, backend/app/core/auth.py)

    The constructors of the exceptions the modelled code raises.  [category] and [retryable] are in
    [ErrorTaxonomy]. *)

From Stdlib Require Import Ascii.
From stdpp Require Import prelude strings.
From S2P Require Import Prelude Enums.

#[local] Open Scope string_scope.

Definition underscore_to_space (c : Ascii.ascii) : Ascii.ascii :=
  if c ==? "_"%char then " "%char else c.

(** [status_code] and [default_error_code] of each exception class. *)
Definition class_defaults (c : error_class) : Z * string :=
  match c with
  | InvalidStateTransitionError => (400%Z, "invalid_state_transition")
  | InvalidVerdictStatusCombinationError => (400%Z, "invalid_verdict_status_combination")
  | EventNotFoundError => (404%Z, "event_not_found")
  | ValidationError => (422%Z, "validation_error")
  | GuardrailViolationError => (403%Z, "guardrail_failed")
  | WritebackPendingError => (409%Z, "writeback_pending")
  | WritebackFailedError => (409%Z, "writeback_failed")
  | WritebackConflictError => (409%Z, "writeback_conflict")
  | WritebackUnsupportedError => (422%Z, "writeback_unsupported")
  | AdapterNotFoundError => (404%Z, "adapter_not_found")
  | ApprovalDecisionConflictError => (409%Z, "approval_decision_conflict")
  | ResourceNotFoundError => (404%Z, "not_found")
  | DependencyUnavailableError => (503%Z, "dependency_unavailable")
  | IdempotencyKeyReuseError => (409%Z, "idempotency_key_reuse")
  | InvestigationInProgressError => (409%Z, "investigation_in_progress")
  | ToolCallGrantDeniedError => (403%Z, "tool_call_grant_denied")
  | ToolCallGrantUnavailableError => (503%Z, "tool_call_grant_unavailable")
  | ToolAlreadyRegisteredError => (409%Z, "tool_already_registered")
  | ToolNotFoundError => (404%Z, "tool_not_found")
  | ToolValidationError => (422%Z, "tool_validation_error")
  | ToolExecutionError => (502%Z, "tool_execution_error")
  | BudgetExceededError => (429%Z, "budget_exceeded")
  | AuthorizationError | PydanticValidationError | KeyError | ValueError | IntegrityError | OtherError
  | WrongExecutionChannelError | TimeoutError | ConnectionError | SoftTimeLimitExceeded =>
      (500%Z, "internal_error")
  end.

(** [ShadowTraceError.__init__]: [error_code or default], [message or error_code as words]. *)
Definition ShadowTraceError_init (c : error_class) (message : string)
    (error_code : option string) (details : list (string * pyval)) : error :=
  let '(status, default_code) := class_defaults c in
  let code := match error_code with
              | Some code => if code ==? "" then default_code else code
              | None => default_code
              end in
  {| err_class := c;
     err_message := if message ==? "" then str_map underscore_to_space code else message;
     err_code := code;
     err_status := status;
     err_details := details |}.

Definition merge_optional (k : string) (v : option string) (d : list (string * pyval)) :
    list (string * pyval) :=
  match v with Some s => dict_set d k (VStr s) | None => d end.

(** [InvalidStateTransitionError.__init__]; [current] and [target] are given by value. *)
Definition mk_InvalidStateTransitionError (message : string) (current target : option string)
    (details : list (string * pyval)) (error_code : option string) : error :=
  let merged := merge_optional "target" target (merge_optional "current" current details) in
  let e := ShadowTraceError_init InvalidStateTransitionError message error_code merged in
  if err_code e ==? "closed_side_effects_pending"
  then {| err_class := err_class e; err_message := err_message e; err_code := err_code e;
          err_status := 409%Z; err_details := err_details e |}
  else e.

(** An illegal edge between two members of one enum. *)
Definition invalid_edge {A} `{StrEnum A} (message : string) (current target : A)
    (details : list (string * pyval)) : error :=
  mk_InvalidStateTransitionError message (Some (enum_value current)) (Some (enum_value target))
    details None.

(** A refusal of the CLOSED gate: only the target is known there. *)
Definition closed_refused (message : string) (details : list (string * pyval))
    (error_code : option string) : error :=
  mk_InvalidStateTransitionError message None (Some (enum_value EventStatus.CLOSED)) details
    error_code.

Definition mk_InvalidVerdictStatusCombinationError (message : string)
    (details : list (string * pyval)) : error :=
  ShadowTraceError_init InvalidVerdictStatusCombinationError message None details.

Definition mk_EventNotFoundError (event_id : string) : error :=
  ShadowTraceError_init EventNotFoundError ("security_event not found: " +++ event_id) None
    [("event_id", VStr event_id)].

(** [AuthorizationError([role])]: a plain exception of core/auth.py. *)
Definition mk_AuthorizationError (role : string) : error :=
  {| err_class := AuthorizationError;
     err_message := "requires one of roles: " +++ role;
     err_code := ""; err_status := 403%Z; err_details := [] |}.

(** [E(raw)] where the source lets the [ValueError] escape. *)
Definition builtin_error (c : error_class) (message : string) : error :=
  {| err_class := c; err_message := message; err_code := ""; err_status := 500%Z;
     err_details := [] |}.

Definition enum_of_value_or_raise {A} `{StrEnum A} (raw : string) : result A :=
  match enum_of_value raw with
  | Some x => Ok x
  | None => Err (builtin_error ValueError raw)
  end.

Arguments ShadowTraceError_init : simpl never.
Arguments mk_InvalidStateTransitionError : simpl never.
Arguments invalid_edge : simpl never.
Arguments closed_refused : simpl never.
Arguments mk_InvalidVerdictStatusCombinationError : simpl never.
Arguments mk_EventNotFoundError : simpl never.
Arguments mk_AuthorizationError : simpl never.
Arguments builtin_error : simpl never.

Lemma enum_of_value_or_raise_Ok {A} `{StrEnum A} raw (x : A) :
  enum_of_value_or_raise raw = Ok x ↔ raw = enum_value x.
Proof.
  unfold enum_of_value_or_raise. rewrite <-enum_of_value_Some.
  destruct (enum_of_value raw); naive_solver.
Qed.

#[export] Hint Rewrite @enum_of_value_or_raise_Ok : shadowtrace.

Lemma closed_refused_code message details code :
  code ≠ "" → err_code (closed_refused message details (Some code)) = code.
Proof.
  intros Hne. unfold closed_refused, mk_InvalidStateTransitionError, ShadowTraceError_init; cbn.
  rewrite (bool_decide_eq_false_2 (code = "")) by done.
  by case_bool_decide.
Qed.

(** [type(exc).__name__] *)
Definition error_type_name (c : error_class) : string :=
  match c with
  | InvalidStateTransitionError => "InvalidStateTransitionError"
  | InvalidVerdictStatusCombinationError => "InvalidVerdictStatusCombinationError"
  | EventNotFoundError => "EventNotFoundError"
  | AuthorizationError => "AuthorizationError"
  | ValidationError => "ValidationError"
  | GuardrailViolationError => "GuardrailViolationError"
  | WritebackPendingError => "WritebackPendingError"
  | WritebackFailedError => "WritebackFailedError"
  | WritebackConflictError => "WritebackConflictError"
  | WritebackUnsupportedError => "WritebackUnsupportedError"
  | AdapterNotFoundError => "AdapterNotFoundError"
  | ApprovalDecisionConflictError => "ApprovalDecisionConflictError"
  | ResourceNotFoundError => "ResourceNotFoundError"
  | DependencyUnavailableError => "DependencyUnavailableError"
  | IdempotencyKeyReuseError => "IdempotencyKeyReuseError"
  | InvestigationInProgressError => "InvestigationInProgressError"
  | ToolCallGrantDeniedError => "ToolCallGrantDeniedError"
  | ToolCallGrantUnavailableError => "ToolCallGrantUnavailableError"
  | ToolAlreadyRegisteredError => "ToolAlreadyRegisteredError"
  | ToolNotFoundError => "ToolNotFoundError"
  | ToolValidationError => "ToolValidationError"
  | ToolExecutionError => "ToolExecutionError"
  | BudgetExceededError => "BudgetExceededError"
  | WrongExecutionChannelError => "WrongExecutionChannelError"
  | TimeoutError => "TimeoutError"
  | ConnectionError => "ConnectionError"
  | SoftTimeLimitExceeded => "SoftTimeLimitExceeded"
  | PydanticValidationError => "ValidationError"
  | IntegrityError => "IntegrityError"
  | KeyError => "KeyError"
  | ValueError => "ValueError"
  | OtherError => "Exception"
  end.

(** ** Runtime modes (core/config.py) *)

Definition is_mock_disposition_mode (value : string) : bool :=
  str_lower (str_strip value) ∈? ["mock_xdr"].

Definition is_mock_source_mode (value : string) : bool :=
  str_lower (str_strip value) ∈? ["mock_xdr"].

Definition is_mock_tool_mode (value : string) : bool :=
  str_lower (str_strip value) ∈? ["mock"].
