(* ===== verification/Tables.v ===== *)
(** * Transition tables and constants (backend/app/models/workflow.py)

    The tables of the seven state families.  A [dict[K, set[V]]] is a function to
    [option (list V)]: [None] is a missing key, the list holds the set's members. *)

From stdpp Require Import prelude strings.
From S2P Require Import Prelude Enums.

#[local] Open Scope string_scope.

(** ** Constants *)

Definition MAX_REPLAN_COUNT : Z := 3.
Definition GLOBAL_MAX_STEPS : Z := 80.
Definition MAX_OSCILLATION : nat := 2.
Definition MAX_DUPLICATE_TOOL_CALLS : Z := 3.
Definition MAX_TOTAL_LLM_CALLS : Z := 30.

Definition AUTO_APPROVABLE_ACTION_LEVELS : list ActionLevel := [ActionLevel.L0; ActionLevel.L1].

(** [ActionLevel[name]]: member lookup by name. *)
Definition ActionLevel_of_name (name : string) : option ActionLevel :=
  List.find (λ l, name ==? str_upper (enum_value l)) enum_members.

(** Parse config labels such as [L1] / [l1]. *)
Definition parse_action_level_label (raw : string) : option ActionLevel :=
  let token := str_strip raw in
  if token ==? "" then None
  else match enum_of_value (str_lower token) with
       | Some l => Some l
       | None => ActionLevel_of_name (str_upper token)
       end.

(** [TERMINAL_SOURCE_DISPOSITIONS] of models/enums.py. *)
Definition TERMINAL_SOURCE_DISPOSITIONS : list SourceDisposition :=
  [SourceDisposition.CONTAINED; SourceDisposition.COMPLETED; SourceDisposition.SUSPENDED;
   SourceDisposition.IGNORED].

(** ** EventStatus *)

Definition _NON_TERMINAL : list EventStatus :=
  filter (λ s, s ∉ [EventStatus.CLOSED; EventStatus.FAILED]) enum_members.

Definition _with_failed (targets : list EventStatus) (allow_failed : bool) : list EventStatus :=
  if allow_failed
  then if EventStatus.FAILED ∈? targets then targets else targets ++ [EventStatus.FAILED]
  else targets.

Definition STATE_TRANSITIONS (s : EventStatus) : option (list EventStatus) :=
  Some match s with
  | EventStatus.NEW => _with_failed [EventStatus.TRIAGING] true
  | EventStatus.TRIAGING =>
      _with_failed [EventStatus.COLLECTING_EVIDENCE; EventStatus.CLOSED;
                    EventStatus.PLANNING_RESPONSE] true
  | EventStatus.COLLECTING_EVIDENCE => _with_failed [EventStatus.ANALYZING] true
  | EventStatus.ANALYZING => _with_failed [EventStatus.SCORING] true
  | EventStatus.SCORING =>
      _with_failed [EventStatus.PLANNING_RESPONSE; EventStatus.REPORTING] true
  | EventStatus.PLANNING_RESPONSE =>
      _with_failed [EventStatus.WAITING_APPROVAL; EventStatus.EXECUTING_RESPONSE] true
  | EventStatus.WAITING_APPROVAL =>
      _with_failed [EventStatus.EXECUTING_RESPONSE; EventStatus.REPORTING] true
  | EventStatus.EXECUTING_RESPONSE => _with_failed [EventStatus.VERIFYING] true
  | EventStatus.VERIFYING =>
      _with_failed [EventStatus.REPORTING; EventStatus.CONTAINED; EventStatus.REPLANNING] true
  | EventStatus.REPLANNING =>
      _with_failed [EventStatus.COLLECTING_EVIDENCE; EventStatus.PLANNING_RESPONSE;
                    EventStatus.EXECUTING_RESPONSE; EventStatus.CONTAINED] true
  | EventStatus.CONTAINED => _with_failed [EventStatus.REPORTING] true
  | EventStatus.FAILED => [EventStatus.REPORTING]
  | EventStatus.REPORTING => _with_failed [EventStatus.CLOSED] true
  | EventStatus.CLOSED => []
  end.

Definition VERDICT_STATUS_RULES (v : FinalVerdict) : option (list EventStatus) :=
  match v with
  | FinalVerdict.FALSE_POSITIVE =>
      Some [EventStatus.PLANNING_RESPONSE; EventStatus.WAITING_APPROVAL;
            EventStatus.EXECUTING_RESPONSE; EventStatus.VERIFYING]
  | _ => None
  end.

(** ** ActionStatus, by category *)

Definition RESPONSE_ACTION_TRANSITIONS (s : ActionStatus) : option (list ActionStatus) :=
  Some match s with
  | ActionStatus.PENDING =>
      [ActionStatus.WAITING_APPROVAL; ActionStatus.APPROVED; ActionStatus.REJECTED;
       ActionStatus.SUPERSEDED]
  | ActionStatus.WAITING_APPROVAL =>
      [ActionStatus.APPROVED; ActionStatus.REJECTED; ActionStatus.SUPERSEDED]
  | ActionStatus.APPROVED =>
      [ActionStatus.EXECUTING; ActionStatus.WAITING_APPROVAL; ActionStatus.SUPERSEDED]
  | ActionStatus.EXECUTING =>
      [ActionStatus.PARTIAL_SUCCESS; ActionStatus.SUCCESS; ActionStatus.FAILED;
       ActionStatus.UNKNOWN; ActionStatus.APPROVED]
  | ActionStatus.UNKNOWN =>
      [ActionStatus.PARTIAL_SUCCESS; ActionStatus.SUCCESS; ActionStatus.FAILED]
  | ActionStatus.SUCCESS => [ActionStatus.ROLLED_BACK]
  | ActionStatus.PARTIAL_SUCCESS => [ActionStatus.ROLLED_BACK]
  | ActionStatus.REJECTED => []
  | ActionStatus.SUPERSEDED => []
  | ActionStatus.FAILED => []
  | ActionStatus.ROLLED_BACK => []
  end.

Definition VERIFICATION_ACTION_TRANSITIONS (s : ActionStatus) : option (list ActionStatus) :=
  Some match s with
  | ActionStatus.PENDING => [ActionStatus.EXECUTING]
  | ActionStatus.EXECUTING =>
      [ActionStatus.SUCCESS; ActionStatus.FAILED; ActionStatus.UNKNOWN]
  | ActionStatus.UNKNOWN => [ActionStatus.SUCCESS; ActionStatus.FAILED]
  | ActionStatus.SUCCESS => []
  | ActionStatus.FAILED => []
  | ActionStatus.WAITING_APPROVAL => []
  | ActionStatus.APPROVED => []
  | ActionStatus.REJECTED => []
  | ActionStatus.SUPERSEDED => []
  | ActionStatus.PARTIAL_SUCCESS => []
  | ActionStatus.ROLLED_BACK => []
  end.

Definition ROLLBACK_ACTION_TRANSITIONS (s : ActionStatus) : option (list ActionStatus) :=
  Some match s with
  | ActionStatus.PENDING =>
      [ActionStatus.WAITING_APPROVAL; ActionStatus.APPROVED; ActionStatus.REJECTED;
       ActionStatus.SUPERSEDED]
  | ActionStatus.WAITING_APPROVAL =>
      [ActionStatus.APPROVED; ActionStatus.REJECTED; ActionStatus.SUPERSEDED]
  | ActionStatus.APPROVED =>
      [ActionStatus.EXECUTING; ActionStatus.WAITING_APPROVAL; ActionStatus.SUPERSEDED]
  | ActionStatus.EXECUTING =>
      [ActionStatus.PARTIAL_SUCCESS; ActionStatus.SUCCESS; ActionStatus.FAILED;
       ActionStatus.UNKNOWN; ActionStatus.APPROVED]
  | ActionStatus.UNKNOWN =>
      [ActionStatus.PARTIAL_SUCCESS; ActionStatus.SUCCESS; ActionStatus.FAILED]
  | ActionStatus.SUCCESS => []
  | ActionStatus.PARTIAL_SUCCESS => []
  | ActionStatus.REJECTED => []
  | ActionStatus.SUPERSEDED => []
  | ActionStatus.FAILED => []
  | ActionStatus.ROLLED_BACK => []
  end.

Definition SYSTEM_ACTION_TRANSITIONS (s : ActionStatus) : option (list ActionStatus) :=
  Some match s with
  | ActionStatus.PENDING => [ActionStatus.EXECUTING; ActionStatus.SUCCESS]
  | ActionStatus.EXECUTING => [ActionStatus.SUCCESS; ActionStatus.FAILED]
  | ActionStatus.SUCCESS => []
  | ActionStatus.FAILED => []
  | ActionStatus.WAITING_APPROVAL => []
  | ActionStatus.APPROVED => []
  | ActionStatus.REJECTED => []
  | ActionStatus.SUPERSEDED => []
  | ActionStatus.PARTIAL_SUCCESS => []
  | ActionStatus.UNKNOWN => []
  | ActionStatus.ROLLED_BACK => []
  end.

Definition ACTION_STATUS_TRANSITIONS_BY_CATEGORY (c : ActionCategory) :
    ActionStatus → option (list ActionStatus) :=
  match c with
  | ActionCategory.RESPONSE => RESPONSE_ACTION_TRANSITIONS
  | ActionCategory.VERIFICATION => VERIFICATION_ACTION_TRANSITIONS
  | ActionCategory.ROLLBACK => ROLLBACK_ACTION_TRANSITIONS
  | ActionCategory.SYSTEM => SYSTEM_ACTION_TRANSITIONS
  end.

(** ** ExecutionSubstate *)

Definition EXECUTION_SUBSTATE_HOSTS (s : EventStatus) : option (list ExecutionSubstate) :=
  match s with
  | EventStatus.WAITING_APPROVAL =>
      Some [ExecutionSubstate.NONE; ExecutionSubstate.WAITING_APPROVAL;
            ExecutionSubstate.MANUAL_RESOLUTION]
  | EventStatus.EXECUTING_RESPONSE =>
      Some [ExecutionSubstate.NONE; ExecutionSubstate.WAITING_EXECUTION;
            ExecutionSubstate.MANUAL_RESOLUTION]
  | EventStatus.VERIFYING =>
      Some [ExecutionSubstate.NONE; ExecutionSubstate.WAITING_WRITEBACK;
            ExecutionSubstate.MANUAL_RESOLUTION]
  | _ => None
  end.

Definition EXECUTION_SUBSTATE_FORBIDDEN_STATUSES : list EventStatus :=
  [EventStatus.NEW; EventStatus.TRIAGING; EventStatus.COLLECTING_EVIDENCE;
   EventStatus.ANALYZING; EventStatus.SCORING; EventStatus.PLANNING_RESPONSE;
   EventStatus.REPLANNING; EventStatus.CONTAINED; EventStatus.FAILED;
   EventStatus.REPORTING; EventStatus.CLOSED].

Definition EXECUTION_SUBSTATE_TRANSITIONS (s : ExecutionSubstate) :
    option (list ExecutionSubstate) :=
  Some match s with
  | ExecutionSubstate.NONE =>
      [ExecutionSubstate.WAITING_APPROVAL; ExecutionSubstate.WAITING_EXECUTION;
       ExecutionSubstate.WAITING_WRITEBACK; ExecutionSubstate.MANUAL_RESOLUTION]
  | ExecutionSubstate.WAITING_APPROVAL =>
      [ExecutionSubstate.NONE; ExecutionSubstate.MANUAL_RESOLUTION]
  | ExecutionSubstate.WAITING_EXECUTION =>
      [ExecutionSubstate.NONE; ExecutionSubstate.MANUAL_RESOLUTION]
  | ExecutionSubstate.WAITING_WRITEBACK =>
      [ExecutionSubstate.NONE; ExecutionSubstate.MANUAL_RESOLUTION]
  | ExecutionSubstate.MANUAL_RESOLUTION => [ExecutionSubstate.NONE]
  end.

(** ** ExecutionJobStatus *)

Definition JOB_STATUS_TRANSITIONS (s : ExecutionJobStatus) : option (list ExecutionJobStatus) :=
  Some match s with
  | ExecutionJobStatus.QUEUED =>
      [ExecutionJobStatus.RUNNING; ExecutionJobStatus.CANCELLED; ExecutionJobStatus.FAILED;
       ExecutionJobStatus.TIMED_OUT]
  | ExecutionJobStatus.RUNNING =>
      [ExecutionJobStatus.PARTIAL_SUCCESS; ExecutionJobStatus.SUCCESS;
       ExecutionJobStatus.FAILED; ExecutionJobStatus.TIMED_OUT; ExecutionJobStatus.CANCELLED;
       ExecutionJobStatus.UNKNOWN; ExecutionJobStatus.QUEUED]
  | ExecutionJobStatus.UNKNOWN =>
      [ExecutionJobStatus.PARTIAL_SUCCESS; ExecutionJobStatus.SUCCESS;
       ExecutionJobStatus.FAILED; ExecutionJobStatus.TIMED_OUT; ExecutionJobStatus.CANCELLED]
  | ExecutionJobStatus.PARTIAL_SUCCESS => []
  | ExecutionJobStatus.SUCCESS => []
  | ExecutionJobStatus.FAILED => []
  | ExecutionJobStatus.TIMED_OUT => []
  | ExecutionJobStatus.CANCELLED => []
  end.

(** ** OutboxDeliveryStatus *)

Definition OUTBOX_DELIVERY_TRANSITIONS (s : OutboxDeliveryStatus) :
    option (list OutboxDeliveryStatus) :=
  Some match s with
  | OutboxDeliveryStatus.READY =>
      [OutboxDeliveryStatus.LEASED; OutboxDeliveryStatus.DEAD_LETTER;
       OutboxDeliveryStatus.DELIVERED]
  | OutboxDeliveryStatus.LEASED =>
      [OutboxDeliveryStatus.DELIVERED; OutboxDeliveryStatus.WAITING_RETRY;
       OutboxDeliveryStatus.PAUSED; OutboxDeliveryStatus.DEAD_LETTER]
  | OutboxDeliveryStatus.WAITING_RETRY =>
      [OutboxDeliveryStatus.LEASED; OutboxDeliveryStatus.DEAD_LETTER;
       OutboxDeliveryStatus.DELIVERED]
  | OutboxDeliveryStatus.PAUSED =>
      [OutboxDeliveryStatus.READY; OutboxDeliveryStatus.DELIVERED;
       OutboxDeliveryStatus.DEAD_LETTER]
  | OutboxDeliveryStatus.DELIVERED => [OutboxDeliveryStatus.PAUSED]
  | OutboxDeliveryStatus.DEAD_LETTER => [OutboxDeliveryStatus.PAUSED]
  end.

Definition _OPERATOR_RETRY_FAILURE_WRITEBACK_STATUSES : list WritebackStatus :=
  [WritebackStatus.FAILED; WritebackStatus.PARTIAL; WritebackStatus.UNKNOWN].

Definition _OPERATOR_RETRY_TERMINAL_SUCCESS_WRITEBACK_STATUSES : list WritebackStatus :=
  [WritebackStatus.CONFIRMED; WritebackStatus.ACCEPTED].

(** ** WritebackStatus *)

Definition WRITEBACK_STATUS_TRANSITIONS (s : WritebackStatus) : option (list WritebackStatus) :=
  Some match s with
  | WritebackStatus.PENDING =>
      [WritebackStatus.SENDING; WritebackStatus.FAILED; WritebackStatus.CONFLICT]
  | WritebackStatus.SENDING =>
      [WritebackStatus.ACCEPTED; WritebackStatus.CONFIRMED; WritebackStatus.PARTIAL;
       WritebackStatus.FAILED; WritebackStatus.CONFLICT; WritebackStatus.UNKNOWN]
  | WritebackStatus.ACCEPTED =>
      [WritebackStatus.CONFIRMED; WritebackStatus.PARTIAL; WritebackStatus.FAILED;
       WritebackStatus.CONFLICT; WritebackStatus.UNKNOWN]
  | WritebackStatus.UNKNOWN =>
      [WritebackStatus.ACCEPTED; WritebackStatus.CONFIRMED; WritebackStatus.PARTIAL;
       WritebackStatus.FAILED; WritebackStatus.CONFLICT; WritebackStatus.PENDING]
  | WritebackStatus.PARTIAL =>
      [WritebackStatus.CONFIRMED; WritebackStatus.FAILED; WritebackStatus.PENDING]
  | WritebackStatus.FAILED =>
      [WritebackStatus.CONFIRMED; WritebackStatus.FAILED; WritebackStatus.PENDING]
  | WritebackStatus.CONFLICT => [WritebackStatus.CONFIRMED; WritebackStatus.FAILED]
  | WritebackStatus.CONFIRMED => []
  end.

(** ** Lookup *)

(** [target in table.get(current, set())] *)
Definition _edge_allowed {K V} `{EqDecision V} (table : K → option (list V)) (current : K)
    (target : V) : bool :=
  target ∈? default [] (table current).
