(* ===== verification/Convergence.v ===== *)
(** * Side-effect convergence projections

    The projection records of backend/app/models/side_effect_convergence.py and the two pure
    functions of backend/app/services/side_effect_convergence.py that the CLOSED gate calls on
    them.  The queries that build a summary are in [SideEffects]. *)

From stdpp Require Import prelude strings.
From S2P Require Import Prelude Enums Errors.

#[local] Open Scope string_scope.

Record OutstandingSideEffectView : Type := {
  osv_action_id : string;
  osv_scope : SideEffectScope;
  osv_action_status : ActionStatus;
  osv_execution_phase : ActionExecutionPhase;
  osv_writeback_applicable : bool;
  osv_convergence_policy : option SideEffectConvergencePolicy;
  osv_job_status : option ExecutionJobStatus;
  osv_outbox_delivery_status : option OutboxDeliveryStatus;
  osv_outbox_writeback_status : option WritebackStatus;
  osv_plan_revision : Z;
  osv_superseded : bool;
  osv_blocking_reason : option SideEffectConvergenceReason
}.

Record SideEffectConvergenceSummary : Type := {
  ses_event_id : string;
  ses_current_plan_revision : option Z;
  ses_gate_applicable_outstanding_count : Z;
  ses_background_outstanding_count : Z;
  ses_outstanding_actions : list OutstandingSideEffectView;
  ses_background_side_effects_pending : bool
}.

(** [SideEffectConvergenceSummary(event_id=event_id)] *)
Definition empty_convergence_summary (event_id : string) : SideEffectConvergenceSummary := {|
  ses_event_id := event_id;
  ses_current_plan_revision := None;
  ses_gate_applicable_outstanding_count := 0;
  ses_background_outstanding_count := 0;
  ses_outstanding_actions := [];
  ses_background_side_effects_pending := false
|}.

Record SideEffectConvergenceViolation : Type := {
  sev_reason : SideEffectConvergenceReason;
  sev_action_id : string;
  sev_scope : SideEffectScope;
  sev_convergence_policy : option SideEffectConvergencePolicy
}.

Fixpoint first_gate_violation (views : list OutstandingSideEffectView) :
    option SideEffectConvergenceViolation :=
  match views with
  | [] => None
  | view :: views' =>
      if osv_scope view !=? SideEffectScope.GATE_APPLICABLE then first_gate_violation views'
      else match osv_blocking_reason view with
           | Some reason =>
               Some {| sev_reason := reason; sev_action_id := osv_action_id view;
                       sev_scope := osv_scope view;
                       sev_convergence_policy := osv_convergence_policy view |}
           | None => first_gate_violation views'
           end
  end.

(** Return the first gate-applicable outstanding side effect, if any. *)
Definition check_gate_applicable_side_effect_convergence
    (summary : SideEffectConvergenceSummary) : option SideEffectConvergenceViolation :=
  first_gate_violation (ses_outstanding_actions summary).

Definition raise_side_effect_convergence_error (v : SideEffectConvergenceViolation) :
    result unit :=
  let details := [("action_id", VStr (sev_action_id v));
                  ("reason", VStr (enum_value (sev_reason v)));
                  ("scope", VStr (enum_value (sev_scope v)))] in
  let details := match sev_convergence_policy v with
                 | Some p => dict_set details "convergence_policy" (VStr (enum_value p))
                 | None => details
                 end in
  Err (closed_refused
         "required CLOSED gate: gate-applicable side effects have not converged" details
         (Some "closed_side_effects_pending")).

(** A view that blocks the gate. *)
Definition gate_blocking (view : OutstandingSideEffectView) : Prop :=
  osv_scope view = SideEffectScope.GATE_APPLICABLE ∧ is_Some (osv_blocking_reason view).

Lemma first_gate_violation_None views :
  first_gate_violation views = None ↔ ∀ view, view ∈ views → ¬ gate_blocking view.
Proof.
  induction views as [|view views IH]; cbn; [set_solver|].
  unfold gate_blocking in *. setoid_rewrite elem_of_cons.
  case_bool_decide as Hs; cbn; [|naive_solver].
  destruct (osv_blocking_reason view) eqn:Hr; cbn.
  - split; [done|]. intros Hb. destruct (Hb view); eauto.
  - rewrite IH. split; [|naive_solver].
    intros Hb v [->|?]; [rewrite Hr; intros [_ []%is_Some_None]|by apply Hb].
Qed.
