(* ===== verification/Workflow.v ===== *)
(** * Transition validators (backend/app/models/workflow.py)

    The transition context and every validator of the module, with the exceptions it raises.
    A validator returns [Ok tt] where the source returns and [Err e] where it raises. *)

From stdpp Require Import prelude strings.
From S2P Require Import Prelude Enums Errors Tables Convergence.

#[local] Open Scope string_scope.

(** ** Gate projections *)

Record ClosedGateActionView : Type := {
  cga_action_id : string;
  cga_action_category : ActionCategory;
  cga_writeback_required : bool;
  cga_writeback_applicable : bool;
  cga_writeback_readiness : WritebackReadiness;
  cga_writeback_status : option WritebackStatus;
  cga_has_command : bool;
  cga_all_required_intents_confirmed : bool;
  cga_worst_unconfirmed_outbox_status : option WritebackStatus;
  cga_execution_phase : ActionExecutionPhase;
  cga_tool_name : option string;
  cga_approved_terminal_dispositions : list SourceDisposition;
  cga_superseded : bool;
  cga_rejected : bool;
  cga_has_job_or_outbox : bool
}.

Definition CLOSED_TERMINAL_STRONG_CONFIRMATION_EVIDENCE : list ConfirmationEvidence :=
  [ConfirmationEvidence.READBACK_VERIFIED; ConfirmationEvidence.MANUAL_CONFIRMED].

Record TerminalEventWritebackView : Type := {
  tew_action_id : string;
  tew_disposition_id : string;
  tew_writeback_id : string;
  tew_closure_cycle : Z;
  tew_intent_kind : DispositionIntentKind;
  tew_approved_disposition : SourceDisposition;
  tew_actual_disposition : SourceDisposition;
  tew_receipt_status : WritebackStatus;
  tew_plan_revision : Z;
  tew_simulated : option bool;
  tew_confirmation_evidence : option ConfirmationEvidence
}.

Record TransitionContext : Type := {
  tc_final_verdict : option FinalVerdict;
  tc_need_investigation : option bool;
  tc_disposition_only_intent : bool;
  tc_disposition_policy : option DispositionPolicy;
  tc_severity : option Severity;
  tc_recommendation : option string;
  tc_response_actions_are_disposition_only : option bool;
  tc_has_entity_side_effect_actions : bool;
  tc_report_exists : bool;
  tc_force_close : bool;
  tc_applicable_required_actions : list ClosedGateActionView;
  tc_terminal_event_writeback : option TerminalEventWritebackView;
  tc_current_plan_revision : option Z;
  tc_current_closure_cycle : option Z;
  tc_escalated : bool;
  tc_disposition_is_mock : bool;
  tc_side_effect_convergence : option SideEffectConvergenceSummary
}.

(** [TransitionContext()] *)
Definition TransitionContext_default : TransitionContext := {|
  tc_final_verdict := None; tc_need_investigation := None;
  tc_disposition_only_intent := false; tc_disposition_policy := None; tc_severity := None;
  tc_recommendation := None; tc_response_actions_are_disposition_only := None;
  tc_has_entity_side_effect_actions := false; tc_report_exists := false;
  tc_force_close := false; tc_applicable_required_actions := [];
  tc_terminal_event_writeback := None; tc_current_plan_revision := None;
  tc_current_closure_cycle := None; tc_escalated := false; tc_disposition_is_mock := false;
  tc_side_effect_convergence := None
|}.

(** ** Late false positives *)

Definition classify_late_false_positive (has_immediate_job_or_outbox
    immediate_in_flight_or_unverified has_verified_successful_entity_action : bool) :
    LateFalsePositiveTier :=
  if has_verified_successful_entity_action then LateFalsePositiveTier.VERIFIED_EFFECTS
  else if has_immediate_job_or_outbox || immediate_in_flight_or_unverified
  then LateFalsePositiveTier.IN_FLIGHT
  else LateFalsePositiveTier.NO_SIDE_EFFECT.

Definition late_fp_allowed_substate (event_status : EventStatus) : option ExecutionSubstate :=
  if event_status ∈? [EventStatus.WAITING_APPROVAL; EventStatus.EXECUTING_RESPONSE;
                      EventStatus.VERIFYING]
  then Some ExecutionSubstate.MANUAL_RESOLUTION
  else None.

(** ** Verdict rules *)

Definition _is_fp_signal (ctx : TransitionContext) : bool :=
  if tc_final_verdict ctx ==? Some FinalVerdict.FALSE_POSITIVE then true
  else tc_recommendation ctx ==? Some "close_as_fp".

Definition _validate_triaging_to_closed (ctx : TransitionContext) : result unit :=
  raise_if (tc_disposition_policy ctx !=? Some DispositionPolicy.NOT_REQUIRED)
    (invalid_edge "TRIAGING→CLOSED requires disposition_policy=not_required"
       EventStatus.TRIAGING EventStatus.CLOSED
       [("disposition_policy", opt_str (enum_value <$> tc_disposition_policy ctx))]) ;;
  let low := tc_severity ctx ==? Some Severity.LOW in
  raise_if (negb (low || _is_fp_signal ctx))
    (invalid_edge "TRIAGING→CLOSED only for not_required low-severity or false-positive"
       EventStatus.TRIAGING EventStatus.CLOSED
       [("severity", opt_str (enum_value <$> tc_severity ctx));
        ("final_verdict", opt_str (enum_value <$> tc_final_verdict ctx));
        ("recommendation", opt_str (tc_recommendation ctx))]).

Definition _validate_triaging_to_disposition_only (ctx : TransitionContext) : result unit :=
  raise_if (negb (_is_fp_signal ctx))
    (invalid_edge ("TRIAGING→PLANNING_RESPONSE requires false_positive / close_as_fp " +++
                   "(disposition-only); low-severity required non-FP must investigate")
       EventStatus.TRIAGING EventStatus.PLANNING_RESPONSE
       [("need_investigation", opt_bool (tc_need_investigation ctx));
        ("final_verdict", opt_str (enum_value <$> tc_final_verdict ctx));
        ("recommendation", opt_str (tc_recommendation ctx))]) ;;
  raise_if (negb (tc_disposition_only_intent ctx))
    (invalid_edge ("TRIAGING→PLANNING_RESPONSE disposition-only requires " +++
                   "server-persisted disposition_only_intent=true")
       EventStatus.TRIAGING EventStatus.PLANNING_RESPONSE
       [("disposition_only_intent", VBool false)]).

(** The branch of [validate_verdict_status] taken after plan materialization: [None] falls
    through to the final refusal. *)
Definition disposition_only_plan_check (verdict : FinalVerdict) (status : EventStatus)
    (ctx : TransitionContext) : option (result unit) :=
  let details := [("final_verdict", VStr (enum_value verdict));
                  ("status", VStr (enum_value status))] in
  if tc_has_entity_side_effect_actions ctx then
    Some (Err (mk_InvalidVerdictStatusCombinationError
      "false_positive disposition-only plan must not contain entity side effects"
      (details ++ [("has_entity_side_effect_actions", VBool true)])))
  else match tc_response_actions_are_disposition_only ctx with
       | Some false =>
           Some (Err (mk_InvalidVerdictStatusCombinationError
             ("false_positive disposition-only plan requires all response Actions " +++
              "to be update_source_event_disposition") details))
       | Some true => Some (Ok tt)
       | None => None
       end.

(** Reject illegal FinalVerdict x EventStatus combinations. *)
Definition validate_verdict_status (verdict : FinalVerdict) (status : EventStatus)
    (context : option TransitionContext) : result unit :=
  let ctx := default TransitionContext_default context in
  let forbidden := default [] (VERDICT_STATUS_RULES verdict) in
  let refusal := Err (mk_InvalidVerdictStatusCombinationError
    ("final_verdict=" +++ enum_value verdict +++ " is illegal with status=" +++
     enum_value status)
    [("final_verdict", VStr (enum_value verdict)); ("status", VStr (enum_value status))]) in
  if negb (status ∈? forbidden) then Ok tt
  else if (verdict ==? FinalVerdict.FALSE_POSITIVE) && tc_disposition_only_intent ctx
          && (status ==? EventStatus.PLANNING_RESPONSE)
  then Ok tt
  else if (verdict ==? FinalVerdict.FALSE_POSITIVE) && tc_disposition_only_intent ctx
          && (status ∈? [EventStatus.WAITING_APPROVAL; EventStatus.EXECUTING_RESPONSE;
                         EventStatus.VERIFYING; EventStatus.PLANNING_RESPONSE])
  then default refusal (disposition_only_plan_check verdict status ctx)
  else refusal.

(** ** The CLOSED gate *)

Record WritebackCloseGateViolation : Type := {
  wcv_reason : WritebackCloseGateReason;
  wcv_action_id : option string;
  wcv_writeback_readiness : option string;
  wcv_writeback_status : option string
}.

Definition filter_applicable_required_writeback_actions (l : list ClosedGateActionView) :
    list ClosedGateActionView :=
  List.filter (λ action,
    cga_writeback_required action && cga_writeback_applicable action
    && (cga_action_category action ∈? [ActionCategory.RESPONSE; ActionCategory.ROLLBACK])
    && negb (cga_superseded action) && negb (cga_rejected action)) l.

(** The body of the loop of [check_required_writeback_close_gate]. *)
Definition writeback_action_violation (action : ClosedGateActionView) :
    option WritebackCloseGateViolation :=
  if cga_writeback_readiness action !=? WritebackReadiness.READY then
    Some {| wcv_reason := WritebackCloseGateReason.READINESS_NOT_READY;
            wcv_action_id := Some (cga_action_id action);
            wcv_writeback_readiness := Some (enum_value (cga_writeback_readiness action));
            wcv_writeback_status := None |}
  else if negb (cga_has_command action) then
    Some {| wcv_reason := WritebackCloseGateReason.NO_COMMAND;
            wcv_action_id := Some (cga_action_id action);
            wcv_writeback_readiness := None; wcv_writeback_status := None |}
  else if negb (cga_all_required_intents_confirmed action) then
    let status_for_error := match cga_worst_unconfirmed_outbox_status action with
                            | Some s => Some s
                            | None => cga_writeback_status action
                            end in
    Some {| wcv_reason := WritebackCloseGateReason.INTENTS_NOT_CONFIRMED;
            wcv_action_id := Some (cga_action_id action);
            wcv_writeback_readiness := None;
            wcv_writeback_status := enum_value <$> status_for_error |}
  else if cga_writeback_status action !=? Some WritebackStatus.CONFIRMED then
    Some {| wcv_reason := WritebackCloseGateReason.STATUS_NOT_CONFIRMED;
            wcv_action_id := Some (cga_action_id action);
            wcv_writeback_readiness := None;
            wcv_writeback_status := enum_value <$> cga_writeback_status action |}
  else None.

Fixpoint first_writeback_violation (l : list ClosedGateActionView) :
    option WritebackCloseGateViolation :=
  match l with
  | [] => None
  | action :: l' => match writeback_action_violation action with
                    | Some v => Some v
                    | None => first_writeback_violation l'
                    end
  end.

(** Shared REQUIRED writeback predicate for the Close API pre-check and the CLOSED gate. *)
Definition check_required_writeback_close_gate (actions : list ClosedGateActionView) :
    option WritebackCloseGateViolation :=
  match filter_applicable_required_writeback_actions actions with
  | [] => Some {| wcv_reason := WritebackCloseGateReason.NO_APPLICABLE; wcv_action_id := None;
                  wcv_writeback_readiness := None; wcv_writeback_status := None |}
  | applicable => first_writeback_violation applicable
  end.

(** Map a shared violation to [InvalidStateTransitionError]; never returns. *)
Definition raise_closed_gate_writeback_error (v : WritebackCloseGateViolation) : result unit :=
  match wcv_reason v with
  | WritebackCloseGateReason.NO_APPLICABLE =>
      Err (closed_refused ("required CLOSED gate: zero applicable writeback Actions " +++
                           "(empty / all-rejected sets cannot pass)")
             [("applicable_count", VInt 0)] None)
  | WritebackCloseGateReason.READINESS_NOT_READY =>
      Err (closed_refused "required CLOSED gate: applicable Action readiness is not READY"
             [("action_id", opt_str (wcv_action_id v));
              ("writeback_readiness", opt_str (wcv_writeback_readiness v))] None)
  | WritebackCloseGateReason.NO_COMMAND =>
      Err (closed_refused "required CLOSED gate: applicable Action has no disposition command"
             [("action_id", opt_str (wcv_action_id v))] None)
  | WritebackCloseGateReason.INTENTS_NOT_CONFIRMED =>
      Err (closed_refused "required CLOSED gate: required intents are not all CONFIRMED"
             [("action_id", opt_str (wcv_action_id v));
              ("writeback_status", opt_str (wcv_writeback_status v))] None)
  | WritebackCloseGateReason.STATUS_NOT_CONFIRMED =>
      Err (closed_refused "required CLOSED gate: writeback_status must be CONFIRMED"
             [("action_id", opt_str (wcv_action_id v));
              ("writeback_status", opt_str (wcv_writeback_status v))] None)
  end.

(** [opt is not None and value != opt] *)
Definition differs_from (opt : option Z) (value : Z) : bool :=
  match opt with Some z => value !=? z | None => false end.

(** The checks on the terminal EVENT_STATUS_UPDATE: lines 994-1050. *)
Definition validate_terminal_writeback (ctx : TransitionContext)
    (terminal : TerminalEventWritebackView) : result unit :=
  raise_if (tew_intent_kind terminal !=? DispositionIntentKind.EVENT_STATUS_UPDATE)
    (closed_refused "required CLOSED gate: terminal writeback must be EVENT_STATUS_UPDATE"
       [("intent_kind", VStr (enum_value (tew_intent_kind terminal)))] None) ;;
  raise_if (differs_from (tc_current_plan_revision ctx) (tew_plan_revision terminal))
    (closed_refused "required CLOSED gate: terminal writeback must bind current plan_revision"
       [("plan_revision", VInt (tew_plan_revision terminal));
        ("current_plan_revision", VInt (default 0%Z (tc_current_plan_revision ctx)))] None) ;;
  raise_if (differs_from (tc_current_closure_cycle ctx) (tew_closure_cycle terminal))
    (closed_refused "required CLOSED gate: terminal writeback closure_cycle mismatch"
       [("closure_cycle", VInt (tew_closure_cycle terminal));
        ("current_closure_cycle", VInt (default 0%Z (tc_current_closure_cycle ctx)))] None) ;;
  raise_if (negb (tew_approved_disposition terminal ∈? TERMINAL_SOURCE_DISPOSITIONS))
    (closed_refused "required CLOSED gate: approved disposition not terminal"
       [("approved_disposition", VStr (enum_value (tew_approved_disposition terminal)))]
       None) ;;
  raise_if (negb (tew_actual_disposition terminal ∈? TERMINAL_SOURCE_DISPOSITIONS))
    (closed_refused "required CLOSED gate: actual disposition not terminal"
       [("actual_disposition", VStr (enum_value (tew_actual_disposition terminal)))] None) ;;
  raise_if (tew_actual_disposition terminal !=? tew_approved_disposition terminal)
    (closed_refused "required CLOSED gate: actual disposition must match approved"
       [("approved_disposition", VStr (enum_value (tew_approved_disposition terminal)));
        ("actual_disposition", VStr (enum_value (tew_actual_disposition terminal)))] None) ;;
  raise_if (tew_receipt_status terminal !=? WritebackStatus.CONFIRMED)
    (closed_refused "required CLOSED gate: terminal receipt must be CONFIRMED"
       [("receipt_status", VStr (enum_value (tew_receipt_status terminal)))] None).

(** [evidence not in CLOSED_TERMINAL_STRONG_CONFIRMATION_EVIDENCE] *)
Definition weak_evidence (e : option ConfirmationEvidence) : bool :=
  match e with
  | Some e => negb (e ∈? CLOSED_TERMINAL_STRONG_CONFIRMATION_EVIDENCE)
  | None => true
  end.

(** The receipt checks of non-mock deployments: lines 1052-1088. *)
Definition validate_terminal_receipt (ctx : TransitionContext)
    (terminal : TerminalEventWritebackView) : result unit :=
  raise_if (negb (tc_disposition_is_mock ctx) && (tew_simulated terminal !=? Some false))
    (closed_refused ("required CLOSED gate: non-mock disposition requires a verified " +++
                     "non-simulated terminal receipt")
       [("simulated", opt_bool (tew_simulated terminal));
        ("disposition_is_mock", VBool false)]
       (Some "closed_simulated_receipt_rejected")) ;;
  raise_if (negb (tc_disposition_is_mock ctx)
            && weak_evidence (tew_confirmation_evidence terminal))
    (closed_refused ("required CLOSED gate: non-mock disposition requires strong " +++
                     "confirmation_evidence on terminal receipt")
       [("confirmation_evidence", opt_str (enum_value <$> tew_confirmation_evidence terminal));
        ("disposition_is_mock", VBool false)]
       (Some "closed_weak_confirmation_evidence")).

(** Hard gate for every transition into CLOSED. *)
Definition validate_closed_gate (ctx : TransitionContext) : result unit :=
  raise_if (negb (tc_report_exists ctx))
    (closed_refused ("CLOSED requires an investigation report; " +++
                     "call POST /api/v1/events/{event_id}/report first")
       [("report_exists", VBool false)] (Some "closed_requires_report")) ;;
  match tc_disposition_policy ctx with
  | Some DispositionPolicy.NOT_REQUIRED => Ok tt
  | None => Err (closed_refused "CLOSED gate requires disposition_policy" [] None)
  | Some DispositionPolicy.REQUIRED =>
      match tc_side_effect_convergence ctx with
      | None =>
          Err (closed_refused
                 "required CLOSED gate: missing side_effect_convergence projection" []
                 (Some "closed_side_effects_pending"))
      | Some summary =>
          match check_gate_applicable_side_effect_convergence summary with
          | Some violation => raise_side_effect_convergence_error violation
          | None => Ok tt
          end ;;
          match check_required_writeback_close_gate (tc_applicable_required_actions ctx) with
          | Some violation => raise_closed_gate_writeback_error violation
          | None => Ok tt
          end ;;
          match tc_terminal_event_writeback ctx with
          | None =>
              Err (closed_refused
                     "required CLOSED gate: missing terminal EVENT_STATUS_UPDATE" [] None)
          | Some terminal =>
              validate_terminal_writeback ctx terminal ;;
              validate_terminal_receipt ctx terminal
          end
      end
  end.

(** ** EventStatus transitions *)

Definition validate_transition (current target : EventStatus)
    (context : option TransitionContext) : result unit :=
  let ctx := default TransitionContext_default context in
  raise_if (current ==? EventStatus.CLOSED)
    (invalid_edge "CLOSED is terminal and has no outbound edges" current target []) ;;
  raise_if (negb (_edge_allowed STATE_TRANSITIONS current target))
    (invalid_edge ("illegal transition " +++ enum_value current +++ " → " +++
                   enum_value target) current target []) ;;
  raise_if (tc_force_close ctx)
    (invalid_edge ("force_close is not allowed on validate_transition; " +++
                   "use StateMachineService.force_close") current target
       [("force_close", VBool true)]) ;;
  (if (current ==? EventStatus.TRIAGING) && (target ==? EventStatus.CLOSED)
   then _validate_triaging_to_closed ctx else Ok tt) ;;
  (if (current ==? EventStatus.TRIAGING) && (target ==? EventStatus.PLANNING_RESPONSE)
   then _validate_triaging_to_disposition_only ctx else Ok tt) ;;
  (if target ==? EventStatus.CLOSED then validate_closed_gate ctx else Ok tt) ;;
  match tc_final_verdict ctx with
  | Some verdict => validate_verdict_status verdict target (Some ctx)
  | None => Ok tt
  end.
