(* ===== verification/Lifecycles.v ===== *)
(** * Action, job, outbox, writeback and sub-state validators
      (backend/app/models/workflow.py, lines 1091-1505)

    Keyword-only arguments of a validator are a record with the source's defaults. *)

From stdpp Require Import prelude strings.
From S2P Require Import Prelude Enums Errors Tables Workflow.

#[local] Open Scope string_scope.

(** ** Actions *)

Record ActionTransitionArgs : Type := {
  ata_execution_phase : ActionExecutionPhase;
  ata_after_effect_resolution : bool;
  ata_template_unchanged : bool;
  ata_has_job_or_outbox : bool;
  ata_action_level : ActionLevel;
  ata_auto_execute : bool;
  ata_has_approval_evidence : bool;
  ata_lease_expired_reclaim : bool
}.

Definition default_action_args : ActionTransitionArgs := {|
  ata_execution_phase := ActionExecutionPhase.IMMEDIATE;
  ata_after_effect_resolution := false;
  ata_template_unchanged := true;
  ata_has_job_or_outbox := false;
  ata_action_level := ActionLevel.L0;
  ata_auto_execute := false;
  ata_has_approval_evidence := false;
  ata_lease_expired_reclaim := false
|}.

Definition validate_action_status_transition (category : ActionCategory)
    (current target : ActionStatus) (args : ActionTransitionArgs) : result unit :=
  let table := ACTION_STATUS_TRANSITIONS_BY_CATEGORY category in
  let cat := VStr (enum_value category) in
  raise_if (negb (_edge_allowed table current target))
    (invalid_edge ("illegal " +++ enum_value category +++ " ActionStatus " +++
                   enum_value current +++ " → " +++ enum_value target)
       current target [("action_category", cat)]) ;;
  raise_if ((target ==? ActionStatus.APPROVED)
            && (category ∈? [ActionCategory.RESPONSE; ActionCategory.ROLLBACK])
            && negb (ata_action_level args ∈? AUTO_APPROVABLE_ACTION_LEVELS)
            && negb (ata_has_approval_evidence args))
    (invalid_edge (enum_value (ata_action_level args) +++ " " +++ enum_value category +++
                   " action requires a persisted " +++
                   "ApprovalRecord before →APPROVED (human-in-the-loop gate)")
       current target
       [("action_category", cat);
        ("action_level", VStr (enum_value (ata_action_level args)));
        ("auto_execute", VBool (ata_auto_execute args))]) ;;
  (if target ==? ActionStatus.SUPERSEDED then
     raise_if (ata_has_job_or_outbox args)
       (invalid_edge "SUPERSEDED only allowed when no job/outbox has been created"
          current target []) ;;
     raise_if (negb (current ∈? [ActionStatus.PENDING; ActionStatus.WAITING_APPROVAL;
                                 ActionStatus.APPROVED]))
       (invalid_edge "SUPERSEDED only from un-dispatched PENDING/WAITING_APPROVAL/APPROVED"
          current target [])
   else Ok tt) ;;
  (if (current ==? ActionStatus.APPROVED) && (target ==? ActionStatus.EXECUTING)
      && (ata_execution_phase args ==? ActionExecutionPhase.POST_VERIFY) then
     raise_if (negb (ata_after_effect_resolution args) || negb (ata_template_unchanged args))
       (invalid_edge ("POST_VERIFY APPROVED→EXECUTING requires after_effect_resolution " +++
                      "and unchanged approved template/source/operation")
          current target
          [("after_effect_resolution", VBool (ata_after_effect_resolution args));
           ("template_unchanged", VBool (ata_template_unchanged args))])
   else Ok tt) ;;
  raise_if ((current ==? ActionStatus.EXECUTING) && (target ==? ActionStatus.APPROVED)
            && negb (ata_lease_expired_reclaim args))
    (invalid_edge "EXECUTING→APPROVED requires lease-expired reclaim" current target []) ;;
  raise_if ((target ==? ActionStatus.ROLLED_BACK) && (category !=? ActionCategory.RESPONSE))
    (invalid_edge "ROLLED_BACK is only valid on the original response Action" current target
       [("action_category", cat)]).

(** ** Execution sub-states *)

Definition validate_execution_substate (event_status : EventStatus)
    (current target : ExecutionSubstate) : result unit :=
  let details := [("event_status", VStr (enum_value event_status))] in
  if event_status ∈? EXECUTION_SUBSTATE_FORBIDDEN_STATUSES then
    raise_if (target !=? ExecutionSubstate.NONE)
      (invalid_edge (enum_value event_status +++ " forbids non-NONE execution_substate " +++
                     "(use degraded_flags / human queue instead)") current target details)
  else
    let illegal := match EXECUTION_SUBSTATE_HOSTS event_status with
                   | None => true
                   | Some allowed => negb (target ∈? allowed)
                   end in
    raise_if illegal
      (invalid_edge ("execution_substate " +++ enum_value target +++ " illegal under " +++
                     enum_value event_status) current target details) ;;
    raise_if ((current !=? target)
              && negb (_edge_allowed EXECUTION_SUBSTATE_TRANSITIONS current target))
      (invalid_edge ("illegal execution_substate " +++ enum_value current +++ " → " +++
                     enum_value target) current target []).

(** ** Jobs *)

Definition validate_job_status_transition (current target : ExecutionJobStatus)
    (provider_confirmed_terminal lease_expired_reclaim : bool) : result unit :=
  raise_if ((current ==? ExecutionJobStatus.RUNNING) && (target ==? ExecutionJobStatus.QUEUED)
            && negb lease_expired_reclaim)
    (invalid_edge "RUNNING→QUEUED requires lease-expired reclaim" current target []) ;;
  raise_if ((current ==? ExecutionJobStatus.QUEUED)
            && (target ∈? [ExecutionJobStatus.FAILED; ExecutionJobStatus.TIMED_OUT])
            && negb lease_expired_reclaim)
    (invalid_edge "QUEUED→FAILED/TIMED_OUT requires lease-expired reclaim" current target []) ;;
  raise_if (negb (_edge_allowed JOB_STATUS_TRANSITIONS current target))
    (invalid_edge ("illegal job status " +++ enum_value current +++ " → " +++
                   enum_value target) current target []) ;;
  raise_if ((current ==? ExecutionJobStatus.UNKNOWN)
            && (target ∈? [ExecutionJobStatus.TIMED_OUT; ExecutionJobStatus.CANCELLED])
            && negb provider_confirmed_terminal)
    (invalid_edge "UNKNOWN→TIMED_OUT/CANCELLED requires Provider-confirmed terminal state"
       current target []).

(** ** Operator retry *)

Definition operator_retry_writeback_status_blocked (s : option WritebackStatus) : bool :=
  s ==? Some WritebackStatus.CONFIRMED.

Definition delivery_status_eligible_for_operator_retry_pause (delivery : OutboxDeliveryStatus)
    (writeback_status : option WritebackStatus) : bool :=
  if operator_retry_writeback_status_blocked writeback_status then false
  else if delivery ==? OutboxDeliveryStatus.DEAD_LETTER then true
  else if delivery ==? OutboxDeliveryStatus.DELIVERED then
    match writeback_status with
    | Some s => s ∈? _OPERATOR_RETRY_FAILURE_WRITEBACK_STATUSES
    | None => false
    end
  else delivery ∈? [OutboxDeliveryStatus.PAUSED; OutboxDeliveryStatus.READY].

Definition adapter_capabilities_allow_safe_retry (supports_idempotency
    supports_lookup_by_idempotency : bool) : bool :=
  supports_idempotency && supports_lookup_by_idempotency.

Definition is_operator_retry_terminal_success (s : WritebackStatus) : bool :=
  s ∈? _OPERATOR_RETRY_TERMINAL_SUCCESS_WRITEBACK_STATUSES.

(** ** Outbox delivery *)

Record OutboxTransitionArgs : Type := {
  ota_lease_expired_resend : bool;
  ota_known_pre_egress_failure : bool;
  ota_lookup_confirmed_submission : bool;
  ota_operator_retry_pause : bool
}.

Definition default_outbox_args : OutboxTransitionArgs := {|
  ota_lease_expired_resend := false; ota_known_pre_egress_failure := false;
  ota_lookup_confirmed_submission := false; ota_operator_retry_pause := false
|}.

Definition validate_outbox_delivery_transition (current target : OutboxDeliveryStatus)
    (args : OutboxTransitionArgs) : result unit :=
  (if ota_operator_retry_pause args then
     raise_if (target !=? OutboxDeliveryStatus.PAUSED)
       (invalid_edge "operator retry pause must target PAUSED" current target []) ;;
     raise_if (negb (current ∈? [OutboxDeliveryStatus.DEAD_LETTER;
                                 OutboxDeliveryStatus.DELIVERED]))
       (invalid_edge "operator retry pause only from DEAD_LETTER or failed DELIVERED"
          current target [])
   else Ok tt) ;;
  (if ota_lease_expired_resend args && (current ==? OutboxDeliveryStatus.LEASED) then
     raise_if (target ∈? [OutboxDeliveryStatus.LEASED; OutboxDeliveryStatus.WAITING_RETRY])
       (invalid_edge ("expired outbox lease must transition to PAUSED and lookup; " +++
                      "cannot re-LEASED / WAITING_RETRY / re-send directly")
          current target [])
   else Ok tt) ;;
  raise_if ((current ==? OutboxDeliveryStatus.LEASED)
            && (target ==? OutboxDeliveryStatus.WAITING_RETRY)
            && negb (ota_known_pre_egress_failure args))
    (invalid_edge ("LEASED→WAITING_RETRY requires a proven pre-egress failure; " +++
                   "ambiguous submission outcomes must transition to PAUSED")
       current target []) ;;
  raise_if ((current ∈? [OutboxDeliveryStatus.PAUSED; OutboxDeliveryStatus.READY;
                         OutboxDeliveryStatus.WAITING_RETRY])
            && (target ==? OutboxDeliveryStatus.DELIVERED)
            && negb (ota_lookup_confirmed_submission args))
    (invalid_edge (enum_value current +++ "→DELIVERED requires a provider lookup receipt")
       current target []) ;;
  raise_if (negb (_edge_allowed OUTBOX_DELIVERY_TRANSITIONS current target))
    (invalid_edge ("illegal outbox delivery " +++ enum_value current +++ " → " +++
                   enum_value target) current target []).

(** ** Writeback status *)

Record WritebackTransitionArgs : Type := {
  wta_lookup_never_accepted : bool;
  wta_adapter_allows_safe_retry : bool;
  wta_evidence_adjudication : bool
}.

Definition default_writeback_args : WritebackTransitionArgs := {|
  wta_lookup_never_accepted := false; wta_adapter_allows_safe_retry := false;
  wta_evidence_adjudication := false
|}.

Definition validate_writeback_status_transition (current target : WritebackStatus)
    (args : WritebackTransitionArgs) : result unit :=
  raise_if (negb (_edge_allowed WRITEBACK_STATUS_TRANSITIONS current target))
    (invalid_edge ("illegal writeback status " +++ enum_value current +++ " → " +++
                   enum_value target) current target []) ;;
  (if (current ==? WritebackStatus.UNKNOWN) && (target ==? WritebackStatus.PENDING) then
     raise_if (negb (wta_lookup_never_accepted args))
       (invalid_edge "UNKNOWN→PENDING only when lookup proves never-accepted"
          current target [])
   else Ok tt) ;;
  raise_if ((current ==? WritebackStatus.UNKNOWN)
            && (target ∈? [WritebackStatus.ACCEPTED; WritebackStatus.PARTIAL;
                           WritebackStatus.CONFLICT])
            && negb (wta_evidence_adjudication args))
    (invalid_edge "UNKNOWN→provider status requires lookup or admin adjudication"
       current target []) ;;
  raise_if ((current ∈? [WritebackStatus.FAILED; WritebackStatus.PARTIAL])
            && (target ==? WritebackStatus.PENDING)
            && negb (wta_adapter_allows_safe_retry args))
    (invalid_edge "FAILED/PARTIAL→PENDING only when Adapter allows safe full/idempotent retry"
       current target []) ;;
  if (current ∈? [WritebackStatus.UNKNOWN; WritebackStatus.PARTIAL; WritebackStatus.FAILED;
                  WritebackStatus.CONFLICT])
     && (target ∈? [WritebackStatus.CONFIRMED; WritebackStatus.FAILED])
     && negb (wta_evidence_adjudication args)
     && negb ((current ==? WritebackStatus.FAILED) && (target ==? WritebackStatus.FAILED))
  then raise_if ((target ==? WritebackStatus.CONFIRMED) || (current !=? WritebackStatus.FAILED))
         (invalid_edge ("non-happy-path → CONFIRMED/FAILED requires status query or " +++
                        "admin adjudication") current target [])
  else Ok tt.

(** ** Labels, connectivity, isolation helpers *)

Definition derive_case_label (verdict : FinalVerdict) : CaseLabel :=
  if verdict ==? FinalVerdict.CONFIRMED_THREAT then CaseLabel.TRUE_POSITIVE
  else if verdict ==? FinalVerdict.FALSE_POSITIVE then CaseLabel.FALSE_POSITIVE
  else CaseLabel.UNCERTAIN.

(** The loop of [main_path_reaches_closed].  A Python set iterates in an order the language does
    not fix: [iter s] is the order in which the successors of [s] are pushed.  [stack.pop()]
    takes the last element.  [None] is running out of fuel. *)
Fixpoint closed_search (iter : EventStatus → list EventStatus) (fuel : nat)
    (stack seen : list EventStatus) : option bool :=
  match fuel with
  | O => None
  | S fuel' =>
      match reverse stack with
      | [] => Some false
      | cur :: rest =>
          let stack' := reverse rest in
          if cur ∈? seen then closed_search iter fuel' stack' seen
          else if cur ==? EventStatus.CLOSED then Some true
          else closed_search iter fuel' (stack' ++ iter cur) (cur :: seen)
      end
  end.

Definition main_path_reaches_closed (iter : EventStatus → list EventStatus) (fuel : nat) :
    option bool :=
  closed_search iter fuel [EventStatus.NEW] [].

(** Natural external change updates source [current_*] keys only. *)
Definition apply_external_source_observation (source_object frozen_snapshot :
    list (string * pyval)) (event_status : EventStatus)
    (new_current_disposition new_current_status_raw new_concurrency_token : option string) :
    list (string * pyval) * list (string * pyval) * EventStatus :=
  let updated := merge_optional "current_source_disposition" new_current_disposition
                   source_object in
  let updated := merge_optional "current_source_status_raw" new_current_status_raw updated in
  let updated := merge_optional "current_concurrency_token" new_concurrency_token updated in
  let updated := dict_set updated "source_sync_state" (VStr "observed_external_change") in
  (updated, frozen_snapshot, event_status).

Definition maybe_upgrade_confirmation_evidence (correlated_by_writeback_id
    readback_matches_command : bool) (current : option ConfirmationEvidence) :
    option ConfirmationEvidence :=
  if negb (correlated_by_writeback_id && readback_matches_command) then current
  else Some ConfirmationEvidence.READBACK_VERIFIED.
