(* ===== verification/WorkflowFacts.v ===== *)
(** * What the EventStatus validators guarantee

    Declarative specifications of the CLOSED gate, of the verdict rules and of
    [validate_transition], and the theorems that the executable validators decide exactly
    them. *)

From stdpp Require Import prelude strings.
From S2P Require Import Prelude Enums Errors Tables Convergence Workflow.

#[local] Open Scope string_scope.

(** ** Specifications *)

(** An Action that counts for the REQUIRED writeback predicate. *)
Record gate_action (a : ClosedGateActionView) : Prop := {
  ga_required : cga_writeback_required a = true;
  ga_applicable : cga_writeback_applicable a = true;
  ga_category : cga_action_category a = ActionCategory.RESPONSE
                ∨ cga_action_category a = ActionCategory.ROLLBACK;
  ga_not_superseded : cga_superseded a = false;
  ga_not_rejected : cga_rejected a = false
}.

Record writeback_confirmed (a : ClosedGateActionView) : Prop := {
  wc_ready : cga_writeback_readiness a = WritebackReadiness.READY;
  wc_command : cga_has_command a = true;
  wc_intents : cga_all_required_intents_confirmed a = true;
  wc_status : cga_writeback_status a = Some WritebackStatus.CONFIRMED
}.

(** The terminal EVENT_STATUS_UPDATE closes the current plan revision and closure cycle with the
    approved terminal disposition, confirmed. *)
Record terminal_confirmed (ctx : TransitionContext) (t : TerminalEventWritebackView) : Prop := {
  tco_intent : tew_intent_kind t = DispositionIntentKind.EVENT_STATUS_UPDATE;
  tco_revision : ∀ r, tc_current_plan_revision ctx = Some r → tew_plan_revision t = r;
  tco_cycle : ∀ c, tc_current_closure_cycle ctx = Some c → tew_closure_cycle t = c;
  tco_terminal : tew_approved_disposition t ∈ TERMINAL_SOURCE_DISPOSITIONS;
  tco_actual : tew_actual_disposition t = tew_approved_disposition t;
  tco_receipt : tew_receipt_status t = WritebackStatus.CONFIRMED
}.

(** Outside mock deployments the receipt is a real one with strong evidence. *)
Definition receipt_real (t : TerminalEventWritebackView) : Prop :=
  tew_simulated t = Some false ∧
  (tew_confirmation_evidence t = Some ConfirmationEvidence.READBACK_VERIFIED
   ∨ tew_confirmation_evidence t = Some ConfirmationEvidence.MANUAL_CONFIRMED).

Record required_gate (ctx : TransitionContext) : Prop := {
  rg_converged : ∃ s, tc_side_effect_convergence ctx = Some s ∧
                   ∀ v, v ∈ ses_outstanding_actions s → ¬ gate_blocking v;
  rg_applicable : ∃ a, a ∈ tc_applicable_required_actions ctx ∧ gate_action a;
  rg_confirmed : ∀ a, a ∈ tc_applicable_required_actions ctx → gate_action a →
                   writeback_confirmed a;
  rg_terminal : ∃ t, tc_terminal_event_writeback ctx = Some t ∧ terminal_confirmed ctx t ∧
                   (tc_disposition_is_mock ctx = false → receipt_real t)
}.

Definition closed_gate_spec (ctx : TransitionContext) : Prop :=
  tc_report_exists ctx = true ∧
  (tc_disposition_policy ctx = Some DispositionPolicy.NOT_REQUIRED ∨
   tc_disposition_policy ctx = Some DispositionPolicy.REQUIRED ∧ required_gate ctx).

Definition fp_signal (ctx : TransitionContext) : Prop :=
  tc_final_verdict ctx = Some FinalVerdict.FALSE_POSITIVE
  ∨ tc_recommendation ctx = Some "close_as_fp".

(** A false positive may stand on a disposition status only inside a disposition-only plan. *)
Definition verdict_allowed (ctx : TransitionContext) (v : FinalVerdict) (s : EventStatus) :
    Prop :=
  v = FinalVerdict.FALSE_POSITIVE →
  s ∈ [EventStatus.PLANNING_RESPONSE; EventStatus.WAITING_APPROVAL;
       EventStatus.EXECUTING_RESPONSE; EventStatus.VERIFYING] →
  tc_disposition_only_intent ctx = true ∧
  (s = EventStatus.PLANNING_RESPONSE ∨
   tc_has_entity_side_effect_actions ctx = false ∧
   tc_response_actions_are_disposition_only ctx = Some true).

Record transition_spec (current target : EventStatus) (ctx : TransitionContext) : Prop := {
  ts_edge : target ∈ default [] (STATE_TRANSITIONS current);
  ts_not_forced : tc_force_close ctx = false;
  ts_quick_close : current = EventStatus.TRIAGING → target = EventStatus.CLOSED →
    tc_disposition_policy ctx = Some DispositionPolicy.NOT_REQUIRED ∧
    (tc_severity ctx = Some Severity.LOW ∨ fp_signal ctx);
  ts_disposition_only : current = EventStatus.TRIAGING →
    target = EventStatus.PLANNING_RESPONSE →
    fp_signal ctx ∧ tc_disposition_only_intent ctx = true;
  ts_closed : target = EventStatus.CLOSED → closed_gate_spec ctx;
  ts_verdict : ∀ v, tc_final_verdict ctx = Some v → verdict_allowed ctx v target
}.

(** ** The writeback predicate *)

Lemma in_gate_actions l a :
  a ∈ filter_applicable_required_writeback_actions l ↔ a ∈ l ∧ gate_action a.
Proof.
  unfold filter_applicable_required_writeback_actions.
  rewrite !list_elem_of_In, filter_In.
  split; intros [Hin H]; (split; [done|]).
  - run_ok. destruct H as [[[[? ?] Hc] ?] ?]. split; try done. set_solver.
  - destruct H. run_ok. set_solver.
Qed.

Lemma writeback_action_violation_None a :
  writeback_action_violation a = None ↔ writeback_confirmed a.
Proof.
  unfold writeback_action_violation. split.
  - intros H. repeat case_match; try done. bool_props. by split.
  - intros []. by rewrite wc_ready0, wc_command0, wc_intents0, wc_status0.
Qed.

Lemma first_writeback_violation_None l :
  first_writeback_violation l = None ↔ ∀ a, a ∈ l → writeback_confirmed a.
Proof.
  induction l as [|a l IH]; cbn; [set_solver|].
  pose proof (writeback_action_violation_None a).
  destruct (writeback_action_violation a); set_solver.
Qed.

Lemma check_required_writeback_close_gate_None l :
  check_required_writeback_close_gate l = None ↔
  (∃ a, a ∈ l ∧ gate_action a) ∧ (∀ a, a ∈ l → gate_action a → writeback_confirmed a).
Proof.
  unfold check_required_writeback_close_gate.
  pose proof (in_gate_actions l) as Hin.
  destruct (filter_applicable_required_writeback_actions l) as [|a l'] eqn:E.
  - split; [done|]. intros [(a & Ha) _]. apply Hin in Ha. set_solver.
  - rewrite first_writeback_violation_None. setoid_rewrite Hin. set_solver.
Qed.

Lemma raise_closed_gate_writeback_error_Err v :
  is_ok (raise_closed_gate_writeback_error v) = false.
Proof. by destruct v as [[]]. Qed.

Lemma match_violation_Ok {V} (o : option V) (k : V → result unit) :
  (∀ v, is_ok (k v) = false) →
  match o with Some v => k v | None => Ok tt end = Ok tt ↔ o = None.
Proof.
  intros Hk. destruct o as [v|]; [|done]. specialize (Hk v). by destruct (k v).
Qed.

(** ** The terminal writeback *)

Lemma differs_from_false o z : differs_from o z = false ↔ ∀ r, o = Some r → z = r.
Proof.
  destruct o; cbn; [|naive_solver]. rewrite negb_false_iff, bool_decide_eq_true. naive_solver.
Qed.

Lemma validate_terminal_writeback_Ok ctx t :
  validate_terminal_writeback ctx t = Ok tt ↔ terminal_confirmed ctx t.
Proof.
  unfold validate_terminal_writeback. run_ok. rewrite !differs_from_false.
  split; [intros (?&?&?&?&?&?&?); by split|].
  intros []. by rewrite tco_actual0.
Qed.

Lemma validate_terminal_receipt_Ok ctx t :
  validate_terminal_receipt ctx t = Ok tt ↔ (tc_disposition_is_mock ctx = false → receipt_real t).
Proof.
  unfold validate_terminal_receipt, receipt_real. run_ok.
  destruct (tc_disposition_is_mock ctx); [naive_solver|].
  destruct (tew_confirmation_evidence t) as [[]|]; cbn; naive_solver.
Qed.

(** ** The gate *)

Lemma required_gate_Ok ctx s :
  tc_side_effect_convergence ctx = Some s →
  (match check_gate_applicable_side_effect_convergence s with
   | Some v => raise_side_effect_convergence_error v | None => Ok tt end ;;
   match check_required_writeback_close_gate (tc_applicable_required_actions ctx) with
   | Some v => raise_closed_gate_writeback_error v | None => Ok tt end ;;
   match tc_terminal_event_writeback ctx with
   | None => Err (closed_refused "required CLOSED gate: missing terminal EVENT_STATUS_UPDATE"
                    [] None)
   | Some t => validate_terminal_writeback ctx t ;; validate_terminal_receipt ctx t
   end) = Ok tt ↔ required_gate ctx.
Proof.
  intros Hs. rewrite !unit_seq_Ok.
  rewrite (match_violation_Ok _ raise_side_effect_convergence_error) by done.
  rewrite (match_violation_Ok _ raise_closed_gate_writeback_error)
    by apply raise_closed_gate_writeback_error_Err.
  rewrite check_required_writeback_close_gate_None.
  unfold check_gate_applicable_side_effect_convergence. rewrite first_gate_violation_None.
  destruct (tc_terminal_event_writeback ctx) as [t|] eqn:Ht.
  - rewrite unit_seq_Ok, validate_terminal_writeback_Ok, validate_terminal_receipt_Ok.
    split; [intros (?&[? ?]&?&?); split; eauto 10|].
    intros [(s'&?&?) ? ? (t'&?&?&?)]. naive_solver.
  - split; [naive_solver|]. intros [_ _ _ (?&?&_)]. congruence.
Qed.

Lemma validate_closed_gate_Ok ctx : validate_closed_gate ctx = Ok tt ↔ closed_gate_spec ctx.
Proof.
  unfold validate_closed_gate, closed_gate_spec.
  rewrite raise_if_seq_Ok, negb_false_iff.
  destruct (tc_disposition_policy ctx) as [[]|]; [|naive_solver|naive_solver].
  destruct (tc_side_effect_convergence ctx) as [s|] eqn:Hs.
  - rewrite (required_gate_Ok ctx s Hs). naive_solver.
  - split; [naive_solver|]. intros (_&[?|[_ [(?&?&_) _ _ _]]]); congruence.
Qed.

(** ** Verdicts *)

Lemma is_fp_signal_true ctx : _is_fp_signal ctx = true ↔ fp_signal ctx.
Proof.
  unfold _is_fp_signal, fp_signal. case_bool_decide; [naive_solver|].
  rewrite bool_decide_eq_true. naive_solver.
Qed.

Lemma forbidden_for_fp s :
  s ∈ default [] (VERDICT_STATUS_RULES FinalVerdict.FALSE_POSITIVE) ↔
  s = EventStatus.PLANNING_RESPONSE ∨
  s ∈ [EventStatus.WAITING_APPROVAL; EventStatus.EXECUTING_RESPONSE; EventStatus.VERIFYING].
Proof. cbn. set_solver. Qed.

Lemma disposition_only_plan_check_Ok v s ctx e :
  default (Err e) (disposition_only_plan_check v s ctx) = Ok tt ↔
  tc_has_entity_side_effect_actions ctx = false ∧
  tc_response_actions_are_disposition_only ctx = Some true.
Proof.
  unfold disposition_only_plan_check.
  destruct (tc_has_entity_side_effect_actions ctx),
    (tc_response_actions_are_disposition_only ctx) as [[]|]; cbn; naive_solver.
Qed.

Lemma validate_verdict_status_Ok ctx v s :
  validate_verdict_status v s (Some ctx) = Ok tt ↔ verdict_allowed ctx v s.
Proof.
  unfold validate_verdict_status, verdict_allowed; cbn [from_option id].
  destruct (decide (v = FinalVerdict.FALSE_POSITIVE)) as [->|Hv].
  2: { destruct v; cbn; naive_solver. }
  rewrite (bool_decide_eq_true_2 (_ = FinalVerdict.FALSE_POSITIVE)) by done.
  destruct (decide (s = EventStatus.PLANNING_RESPONSE)) as [->|Hs].
  { destruct (tc_disposition_only_intent ctx); cbn; [naive_solver|].
    split; [done|]. intros H. destruct H; [done|constructor|done]. }
  rewrite (bool_decide_eq_false_2 (s = _)) by done.
  rewrite andb_false_r. cbn [andb].
  case_bool_decide as Hf; cbn [negb].
  - apply forbidden_for_fp in Hf as [?|Hf]; [done|].
    rewrite bool_decide_eq_true_2 by set_solver. rewrite andb_true_r.
    destruct (tc_disposition_only_intent ctx).
    + rewrite disposition_only_plan_check_Ok. set_solver.
    + split; [done|]. intros H. destruct H; set_solver.
  - rewrite forbidden_for_fp in Hf. set_solver.
Qed.

Lemma validate_verdict_option_Ok ctx target :
  match tc_final_verdict ctx with
  | Some verdict => validate_verdict_status verdict target (Some ctx)
  | None => Ok tt
  end = Ok tt ↔ ∀ v, tc_final_verdict ctx = Some v → verdict_allowed ctx v target.
Proof.
  destruct (tc_final_verdict ctx) as [v|]; [|naive_solver].
  rewrite validate_verdict_status_Ok. naive_solver.
Qed.

(** ** Transitions *)

Lemma edge_allowed_true {K V} `{EqDecision V} (table : K → option (list V)) c t :
  _edge_allowed table c t = true ↔ t ∈ default [] (table c).
Proof. apply bool_decide_eq_true. Qed.

Lemma validate_triaging_to_closed_Ok ctx :
  _validate_triaging_to_closed ctx = Ok tt ↔
  tc_disposition_policy ctx = Some DispositionPolicy.NOT_REQUIRED ∧
  (tc_severity ctx = Some Severity.LOW ∨ fp_signal ctx).
Proof. unfold _validate_triaging_to_closed. run_ok. by rewrite is_fp_signal_true. Qed.

Lemma validate_triaging_to_disposition_only_Ok ctx :
  _validate_triaging_to_disposition_only ctx = Ok tt ↔
  fp_signal ctx ∧ tc_disposition_only_intent ctx = true.
Proof. unfold _validate_triaging_to_disposition_only. run_ok. by rewrite is_fp_signal_true. Qed.

Lemma guarded_Ok (P : Prop) `{!Decision P} (m : result unit) Q :
  (m = Ok tt ↔ Q) → (if bool_decide P then m else Ok tt) = Ok tt ↔ (P → Q).
Proof. intros Hm. case_bool_decide; naive_solver. Qed.

Lemma validate_transition_Ok current target ctx :
  validate_transition current target (Some ctx) = Ok tt ↔ transition_spec current target ctx.
Proof.
  unfold validate_transition; cbn [from_option id].
  rewrite !raise_if_seq_Ok, !unit_seq_Ok, negb_false_iff, edge_allowed_true.
  rewrite <-!bool_decide_and.
  rewrite !(guarded_Ok _ _ _ (validate_triaging_to_closed_Ok ctx)),
    !(guarded_Ok _ _ _ (validate_triaging_to_disposition_only_Ok ctx)),
    !(guarded_Ok _ _ _ (validate_closed_gate_Ok ctx)), validate_verdict_option_Ok.
  rewrite bool_decide_eq_false. split.
  - intros (?&?&?&?&?&?&?). split; naive_solver.
  - intros [Hedge ? ? ? ? ?]. split; [intros ->; by apply elem_of_nil in Hedge|naive_solver].
Qed.

(** C12. [validate_transition] decides exactly the documented rules: the edge is in the table, the
    force-close flag is not smuggled in, the two TRIAGING shortcuts hold their conditions, CLOSED
    passes the full closing gate (report; for REQUIRED also converged side effects, confirmed
    writebacks and a confirmed terminal disposition), and a false positive stands on a
    disposition status only inside a disposition-only plan. *)
Theorem transition_validator_correct (current target : EventStatus)
    (ctx : option TransitionContext) :
  validate_transition current target ctx = Ok tt ↔
  transition_spec current target (default TransitionContext_default ctx).
Proof.
  destruct ctx as [ctx|]; cbn [from_option id]; [apply validate_transition_Ok|].
  by rewrite <- validate_transition_Ok.
Qed.
