(* ===== verification/Runs.v ===== *)
(** * Runs of a validated state machine

    The services call a validator before each status write.  A sequence of such writes, each with
    the keyword arguments its caller passes, is a run.  The lemmas here are shared by every state
    family. *)

From stdpp Require Import prelude strings.
From S2P Require Import Prelude.

Section runs.
Context {St Args : Type} (validate : St → St → Args → result unit).

Record step : Type := Step { step_target : St; step_args : Args }.

(** [for (target, args) in steps: validate(current, target, **args); current = target] *)
Fixpoint validated_run (current : St) (steps : list step) : result St :=
  match steps with
  | [] => Ok current
  | st :: steps' =>
      validate current (step_target st) (step_args st) ;;
      validated_run (step_target st) steps'
  end.

Lemma validated_run_cons s st steps s' :
  validated_run s (st :: steps) = Ok s' ↔
  validate s (step_target st) (step_args st) = Ok tt ∧
  validated_run (step_target st) steps = Ok s'.
Proof. cbn. by rewrite unit_seq_Ok. Qed.

Lemma validated_run_app s l1 l2 s' :
  validated_run s (l1 ++ l2) = Ok s' ↔
  ∃ m, validated_run s l1 = Ok m ∧ validated_run m l2 = Ok s'.
Proof.
  revert s. induction l1 as [|st l1 IH]; intros s; cbn [app].
  - cbn. naive_solver.
  - rewrite validated_run_cons, IH. setoid_rewrite validated_run_cons. naive_solver.
Qed.

(** The last write of a run that moved. *)
Lemma validated_run_last s l s' :
  validated_run s l = Ok s' → s ≠ s' →
  ∃ l' m a, l = l' ++ [Step s' a] ∧ validated_run s l' = Ok m ∧ validate m s' a = Ok tt.
Proof.
  destruct l as [|[t a] l _] using rev_ind; [cbn; naive_solver|].
  intros (m & Hm & Hlast)%validated_run_app _.
  apply validated_run_cons in Hlast as [Hv Hend]. cbn in *. naive_solver.
Qed.

(** Rule induction: an invariant every validated step preserves holds at the end of a run. *)
Lemma validated_run_invariant (I : St → Prop) (P : step → Prop) s l s' :
  (∀ s st, I s → P st → validate s (step_target st) (step_args st) = Ok tt →
     I (step_target st)) →
  validated_run s l = Ok s' → Forall P l → I s → I s'.
Proof.
  intros Hstep. revert s. induction l as [|st l IH]; intros s.
  - cbn. naive_solver.
  - intros [Hv Hr]%validated_run_cons [Hp Hl]%Forall_cons Hi. eauto.
Qed.

(** A run that leaves the set [I] takes a step out of it. *)
Lemma validated_run_escape (I : St → Prop) `{!∀ s, Decision (I s)} s l s' :
  validated_run s l = Ok s' → I s → ¬ I s' →
  ∃ m st, I m ∧ ¬ I (step_target st) ∧ st ∈ l ∧
    validate m (step_target st) (step_args st) = Ok tt.
Proof.
  revert s. induction l as [|st l IH]; intros s.
  - cbn. naive_solver.
  - intros [Hv Hr]%validated_run_cons Hi Hni.
    destruct (decide (I (step_target st))) as [Ht|Ht].
    + destruct (IH _ Hr Ht Hni) as (m & st' & ?). exists m, st'. set_solver.
    + exists s, st. set_solver.
Qed.

(** A potential that drops by one at each step, except for [c st] more at the steps that pay,
    bounds the length of a run. *)
Lemma validated_run_bound (rank : St → nat) (cost : St → St → nat) s l s' :
  (∀ s st, validate s (step_target st) (step_args st) = Ok tt →
     S (rank (step_target st)) ≤ rank s + cost s (step_target st)) →
  validated_run s l = Ok s' →
  length l + rank s' ≤
  rank s + sum_list_with (λ e, cost e.1 e.2)
             (zip (s :: (step_target <$> l)) (step_target <$> l)).
Proof.
  intros Hstep. revert s. induction l as [|st l IH]; intros s.
  - cbn. intros [= ->]. lia.
  - intros [Hv Hr]%validated_run_cons. specialize (IH _ Hr). apply Hstep in Hv.
    cbn in *. lia.
Qed.
End runs.

Arguments step : clear implicits.
Arguments Step {_ _} _ _.
Arguments step_target {_ _} _.
Arguments step_args {_ _} _.
