(* ===== verification/LifecycleFacts.v ===== *)
(** * What the action, job, outbox, writeback and sub-state validators guarantee

    Each theorem is about whole runs of writes the validators accepted. *)

From stdpp Require Import prelude strings.
From S2P Require Import Prelude Enums Errors Tables Workflow Lifecycles WorkflowFacts Runs.

(** ** Actions *)

Abbreviation action_step := (step ActionStatus ActionTransitionArgs).
Definition action_run (category : ActionCategory) :
    ActionStatus → list action_step → result ActionStatus :=
  validated_run (validate_action_status_transition category).

(** Statuses an Action has before anyone allowed it to run. *)
Definition not_yet_approved (s : ActionStatus) : Prop :=
  s ∈ [ActionStatus.PENDING; ActionStatus.WAITING_APPROVAL; ActionStatus.REJECTED;
       ActionStatus.SUPERSEDED].

(** Statuses an Action has before its tool call. *)
Definition not_yet_dispatched (s : ActionStatus) : Prop :=
  not_yet_approved s ∨ s = ActionStatus.APPROVED.

#[global] Instance not_yet_approved_dec s : Decision (not_yet_approved s).
Proof. unfold not_yet_approved. apply _. Defined.
#[global] Instance not_yet_dispatched_dec s : Decision (not_yet_dispatched s).
Proof. unfold not_yet_dispatched. apply _. Defined.

Definition has_side_effects (category : ActionCategory) : Prop :=
  category = ActionCategory.RESPONSE ∨ category = ActionCategory.ROLLBACK.

Record action_transition_spec (c : ActionCategory) (s t : ActionStatus)
    (a : ActionTransitionArgs) : Prop := {
  ats_edge : t ∈ default [] (ACTION_STATUS_TRANSITIONS_BY_CATEGORY c s);
  ats_approval : t = ActionStatus.APPROVED → has_side_effects c →
    ata_action_level a ∉ AUTO_APPROVABLE_ACTION_LEVELS → ata_has_approval_evidence a = true;
  ats_superseded : t = ActionStatus.SUPERSEDED →
    ata_has_job_or_outbox a = false ∧
    s ∈ [ActionStatus.PENDING; ActionStatus.WAITING_APPROVAL; ActionStatus.APPROVED];
  ats_post_verify : s = ActionStatus.APPROVED → t = ActionStatus.EXECUTING →
    ata_execution_phase a = ActionExecutionPhase.POST_VERIFY →
    ata_after_effect_resolution a = true ∧ ata_template_unchanged a = true;
  ats_reclaim : s = ActionStatus.EXECUTING → t = ActionStatus.APPROVED →
    ata_lease_expired_reclaim a = true;
  ats_rolled_back : t = ActionStatus.ROLLED_BACK → c = ActionCategory.RESPONSE
}.

Lemma validate_action_status_transition_Ok c s t a :
  validate_action_status_transition c s t a = Ok tt ↔ action_transition_spec c s t a.
Proof.
  unfold validate_action_status_transition. guards_ok. rewrite edge_allowed_true.
  assert (c ∈ [ActionCategory.RESPONSE; ActionCategory.ROLLBACK] ↔ has_side_effects c) as ->
    by (unfold has_side_effects; set_solver).
  split; [intros (?&?&?&?&?&?); split; naive_solver|intros []; naive_solver].
Qed.

(** Leaving the un-approved statuses is a step into APPROVED. *)
Lemma leaves_unapproved c s t a :
  has_side_effects c → not_yet_approved s → ¬ not_yet_approved t →
  action_transition_spec c s t a → t = ActionStatus.APPROVED.
Proof.
  intros [-> | ->] Hs Ht [He _ _ _ _ _]; unfold not_yet_approved in *;
    destruct s; cbn in He; set_solver.
Qed.

Lemma leaves_undispatched c s t a :
  has_side_effects c → not_yet_dispatched s → ¬ not_yet_dispatched t →
  action_transition_spec c s t a → s = ActionStatus.APPROVED ∧ t = ActionStatus.EXECUTING.
Proof.
  intros [-> | ->] Hs Ht [He _ _ _ _ _]; unfold not_yet_dispatched, not_yet_approved in *;
    destruct s; cbn in He; set_solver.
Qed.

(** Human in the loop: a response or rollback Action above the auto-approvable levels that
    gets past the un-approved statuses, by any sequence of validated writes, was moved to
    APPROVED by a write that had a persisted approval record. *)
Theorem high_risk_action_needs_approval (c : ActionCategory) (l : list action_step)
    (s : ActionStatus) :
  has_side_effects c →
  Forall (λ st, ata_action_level (step_args st) ∉ AUTO_APPROVABLE_ACTION_LEVELS) l →
  action_run c ActionStatus.PENDING l = Ok s → ¬ not_yet_approved s →
  ∃ st, st ∈ l ∧ step_target st = ActionStatus.APPROVED ∧
    ata_has_approval_evidence (step_args st) = true.
Proof.
  intros Hc Hl Hr Hs.
  destruct (validated_run_escape _ not_yet_approved _ _ _ Hr) as (m & st & Hm & Ht & Hin & Hv);
    [by apply (bool_decide_unpack _)|done|].
  apply validate_action_status_transition_Ok in Hv.
  pose proof (leaves_unapproved _ _ _ _ Hc Hm Ht Hv) as E.
  exists st. split_and!; [done|done|]. destruct Hv. rewrite Forall_forall in Hl. auto.
Qed.

(** An L3 containment: proposed, sent for approval, approved with evidence, executing. *)
Definition l3_args : ActionTransitionArgs := {|
  ata_execution_phase := ActionExecutionPhase.IMMEDIATE; ata_after_effect_resolution := false;
  ata_template_unchanged := true; ata_has_job_or_outbox := false;
  ata_action_level := ActionLevel.L3; ata_auto_execute := false;
  ata_has_approval_evidence := true; ata_lease_expired_reclaim := false |}.

Definition l3_run : list action_step :=
  [Step ActionStatus.WAITING_APPROVAL l3_args; Step ActionStatus.APPROVED l3_args;
   Step ActionStatus.EXECUTING l3_args].

Lemma high_risk_action_needs_approval_witness :
  ∃ st, st ∈ l3_run ∧ step_target st = ActionStatus.APPROVED ∧
    ata_has_approval_evidence (step_args st) = true.
Proof.
  apply (high_risk_action_needs_approval ActionCategory.RESPONSE l3_run ActionStatus.EXECUTING).
  - by left.
  - apply (bool_decide_unpack _). by vm_compute.
  - by vm_compute.
  - apply (bool_decide_unpack _). by vm_compute.
Defined.

(** A POST_VERIFY response or rollback Action that was dispatched, by any sequence of validated
    writes, was started after effect resolution with the approved template unchanged. *)
Theorem post_verify_waits_for_effects (c : ActionCategory) (l : list action_step)
    (s : ActionStatus) :
  has_side_effects c →
  Forall (λ st, ata_execution_phase (step_args st) = ActionExecutionPhase.POST_VERIFY) l →
  action_run c ActionStatus.PENDING l = Ok s → ¬ not_yet_dispatched s →
  ∃ st, st ∈ l ∧ step_target st = ActionStatus.EXECUTING ∧
    ata_after_effect_resolution (step_args st) = true ∧
    ata_template_unchanged (step_args st) = true.
Proof.
  intros Hc Hl Hr Hs.
  destruct (validated_run_escape _ not_yet_dispatched _ _ _ Hr)
    as (m & st & Hm & Ht & Hin & Hv); [by apply (bool_decide_unpack _)|done|].
  apply validate_action_status_transition_Ok in Hv.
  destruct (leaves_undispatched _ _ _ _ Hc Hm Ht Hv) as [Em E].
  exists st. split_and!; [done|done|..]; destruct Hv; rewrite Forall_forall in Hl; naive_solver.
Qed.

(** A terminal status update: approved before, started after the effects resolved. *)
Definition post_verify_args : ActionTransitionArgs := {|
  ata_execution_phase := ActionExecutionPhase.POST_VERIFY; ata_after_effect_resolution := true;
  ata_template_unchanged := true; ata_has_job_or_outbox := false;
  ata_action_level := ActionLevel.L1; ata_auto_execute := true;
  ata_has_approval_evidence := false; ata_lease_expired_reclaim := false |}.

Definition post_verify_run : list action_step :=
  [Step ActionStatus.APPROVED post_verify_args; Step ActionStatus.EXECUTING post_verify_args].

Lemma post_verify_waits_for_effects_witness :
  ∃ st, st ∈ post_verify_run ∧ step_target st = ActionStatus.EXECUTING ∧
    ata_after_effect_resolution (step_args st) = true ∧
    ata_template_unchanged (step_args st) = true.
Proof.
  apply (post_verify_waits_for_effects ActionCategory.RESPONSE post_verify_run
           ActionStatus.EXECUTING).
  - by left.
  - apply (bool_decide_unpack _). by vm_compute.
  - by vm_compute.
  - apply (bool_decide_unpack _). by vm_compute.
Defined.

(** ** Jobs *)

Record JobTransitionArgs : Type := {
  jta_provider_confirmed_terminal : bool;
  jta_lease_expired_reclaim : bool
}.

Abbreviation job_step := (step ExecutionJobStatus JobTransitionArgs).
Definition job_validate (s t : ExecutionJobStatus) (a : JobTransitionArgs) : result unit :=
  validate_job_status_transition s t (jta_provider_confirmed_terminal a)
    (jta_lease_expired_reclaim a).
Definition job_run : ExecutionJobStatus → list job_step → result ExecutionJobStatus :=
  validated_run job_validate.

Record job_transition_spec (s t : ExecutionJobStatus) (a : JobTransitionArgs) : Prop := {
  jts_edge : t ∈ default [] (JOB_STATUS_TRANSITIONS s);
  jts_requeue : s = ExecutionJobStatus.RUNNING → t = ExecutionJobStatus.QUEUED →
    jta_lease_expired_reclaim a = true;
  jts_never_ran : s = ExecutionJobStatus.QUEUED →
    t ∈ [ExecutionJobStatus.FAILED; ExecutionJobStatus.TIMED_OUT] →
    jta_lease_expired_reclaim a = true;
  jts_unknown : s = ExecutionJobStatus.UNKNOWN →
    t ∈ [ExecutionJobStatus.TIMED_OUT; ExecutionJobStatus.CANCELLED] →
    jta_provider_confirmed_terminal a = true
}.

Lemma validate_job_status_transition_Ok s t a :
  job_validate s t a = Ok tt ↔ job_transition_spec s t a.
Proof.
  unfold job_validate, validate_job_status_transition. guards_ok. rewrite edge_allowed_true.
  split; [intros (?&?&?&?); split; naive_solver|intros []; naive_solver].
Qed.

Definition job_rank (s : ExecutionJobStatus) : nat :=
  match s with
  | ExecutionJobStatus.QUEUED => 3
  | ExecutionJobStatus.RUNNING => 2
  | ExecutionJobStatus.UNKNOWN => 1
  | _ => 0
  end.

Definition job_cost (s t : ExecutionJobStatus) : nat :=
  if (s ==? ExecutionJobStatus.RUNNING) && (t ==? ExecutionJobStatus.QUEUED) then 2 else 0.

Lemma job_rank_decreases s t a :
  job_transition_spec s t a → S (job_rank t) ≤ job_rank s + job_cost s t.
Proof. intros [He _ _ _]. destruct s, t; cbn in *; first [lia | set_solver]. Qed.

Definition reclaims (l : list job_step) : nat :=
  length (filter (λ st, jta_lease_expired_reclaim (step_args st) = true ∧
                        step_target st = ExecutionJobStatus.QUEUED) l).

Lemma job_costs_are_reclaims s l s' :
  job_run s l = Ok s' →
  sum_list_with (λ e, job_cost e.1 e.2) (zip (s :: (step_target <$> l)) (step_target <$> l))
  ≤ 2 * reclaims l.
Proof.
  revert s. unfold reclaims, job_run. induction l as [|st l IH]; intros s; [cbn; lia|].
  intros [Hv Hr]%validated_run_cons. specialize (IH _ Hr).
  apply validate_job_status_transition_Ok in Hv as [_ Hq _ _].
  rewrite filter_cons. cbn [zip_with fmap list_fmap sum_list_with].
  unfold job_cost at 1; cbn [fst snd].
  destruct (decide (s = ExecutionJobStatus.RUNNING ∧ step_target st = ExecutionJobStatus.QUEUED))
    as [[-> Et]|Hne].
  - rewrite Et, !bool_decide_eq_true_2 by done. rewrite decide_True by naive_solver.
    rewrite Et in *. cbn in *. lia.
  - rewrite <-bool_decide_and, bool_decide_eq_false_2 by done. case_decide; cbn in *; lia.
Qed.

(** A job converges: from QUEUED no sequence of validated writes is longer than three steps
    plus two for each lease-expired reclaim back to QUEUED. *)
Theorem job_run_bounded (l : list job_step) (s : ExecutionJobStatus) :
  job_run ExecutionJobStatus.QUEUED l = Ok s → length l ≤ 3 + 2 * reclaims l.
Proof.
  intros Hr.
  pose proof (job_costs_are_reclaims _ _ _ Hr) as Hc.
  pose proof (validated_run_bound job_validate job_rank job_cost _ _ _
    (λ s st H, job_rank_decreases _ _ _ (proj1 (validate_job_status_transition_Ok _ _ _) H)) Hr).
  cbn [job_rank] in *. lia.
Qed.

Definition default_job_args : JobTransitionArgs :=
  {| jta_provider_confirmed_terminal := false; jta_lease_expired_reclaim := false |}.

(** A job that is reclaimed once and then succeeds. *)
Definition reclaimed_job_run : list job_step :=
  [Step ExecutionJobStatus.RUNNING default_job_args;
   Step ExecutionJobStatus.QUEUED {| jta_provider_confirmed_terminal := false; jta_lease_expired_reclaim := true |};
   Step ExecutionJobStatus.RUNNING default_job_args;
   Step ExecutionJobStatus.SUCCESS default_job_args].

Lemma job_run_bounded_witness : length reclaimed_job_run ≤ 3 + 2 * reclaims reclaimed_job_run.
Proof. apply (job_run_bounded _ ExecutionJobStatus.SUCCESS). by vm_compute. Defined.

(** ** Outbox delivery *)

Abbreviation outbox_step := (step OutboxDeliveryStatus OutboxTransitionArgs).
Definition outbox_run :
    OutboxDeliveryStatus → list outbox_step → result OutboxDeliveryStatus :=
  validated_run validate_outbox_delivery_transition.

Record outbox_transition_spec (s t : OutboxDeliveryStatus) (a : OutboxTransitionArgs) : Prop := {
  ots_edge : t ∈ default [] (OUTBOX_DELIVERY_TRANSITIONS s);
  ots_operator : ota_operator_retry_pause a = true →
    t = OutboxDeliveryStatus.PAUSED ∧
    s ∈ [OutboxDeliveryStatus.DEAD_LETTER; OutboxDeliveryStatus.DELIVERED];
  ots_expired : ota_lease_expired_resend a = true → s = OutboxDeliveryStatus.LEASED →
    t ∉ [OutboxDeliveryStatus.LEASED; OutboxDeliveryStatus.WAITING_RETRY];
  ots_retry : s = OutboxDeliveryStatus.LEASED → t = OutboxDeliveryStatus.WAITING_RETRY →
    ota_known_pre_egress_failure a = true;
  ots_delivered : s ∈ [OutboxDeliveryStatus.PAUSED; OutboxDeliveryStatus.READY;
                       OutboxDeliveryStatus.WAITING_RETRY] →
    t = OutboxDeliveryStatus.DELIVERED → ota_lookup_confirmed_submission a = true
}.

Lemma validate_outbox_delivery_transition_Ok s t a :
  validate_outbox_delivery_transition s t a = Ok tt ↔ outbox_transition_spec s t a.
Proof.
  unfold validate_outbox_delivery_transition. guards_ok. rewrite edge_allowed_true.
  split; [intros (?&?&?&?&?); split; naive_solver|intros []; naive_solver].
Qed.

(** Leasing again without a pause goes through WAITING_RETRY, after a proven pre-egress
    failure. *)
Definition no_egress_proof (st : outbox_step) : Prop :=
  step_target st = OutboxDeliveryStatus.PAUSED ∨
  (step_target st = OutboxDeliveryStatus.WAITING_RETRY ∧
   ota_known_pre_egress_failure (step_args st) = true ∧
   ota_lease_expired_resend (step_args st) = false).

Lemma leased_successor t a :
  outbox_transition_spec OutboxDeliveryStatus.LEASED t a →
  no_egress_proof (Step t a) ∨ t = OutboxDeliveryStatus.DELIVERED ∨
  t = OutboxDeliveryStatus.DEAD_LETTER.
Proof.
  intros [He _ Hx Hr _]. unfold no_egress_proof; cbn in *.
  destruct (ota_lease_expired_resend a); set_solver.
Qed.

Lemma finished_successor s t a :
  s = OutboxDeliveryStatus.DELIVERED ∨ s = OutboxDeliveryStatus.DEAD_LETTER →
  outbox_transition_spec s t a → t = OutboxDeliveryStatus.PAUSED.
Proof. intros [-> | ->] [He _ _ _ _]; cbn in He; set_solver. Qed.

(** No blind re-send: between two leases of one outbox row, in any sequence of validated
    writes, the row was paused (for lookup or an operator) or moved to WAITING_RETRY on a proven
    pre-egress failure that is not an expired lease. *)
Theorem outbox_no_blind_resend (l : list outbox_step) :
  l ≠ [] →
  outbox_run OutboxDeliveryStatus.LEASED l = Ok OutboxDeliveryStatus.LEASED →
  ∃ st, st ∈ l ∧ no_egress_proof st.
Proof.
  unfold outbox_run. destruct l as [|[t a] l]; [done|].
  intros _ [Hv Hr]%validated_run_cons. cbn in *.
  apply validate_outbox_delivery_transition_Ok in Hv.
  destruct (leased_successor t a Hv) as [?|Ht]; [set_solver|].
  destruct l as [|[t' a'] l]; [by destruct Ht; subst|].
  apply validated_run_cons in Hr as [Hv' _]; cbn in *.
  apply validate_outbox_delivery_transition_Ok, (finished_successor _ _ _ Ht) in Hv' as ->.
  exists (Step OutboxDeliveryStatus.PAUSED a'). unfold no_egress_proof. set_solver.
Qed.

(** A row whose first egress provably failed before the wire, leased again. *)
Definition retried_outbox_run : list outbox_step :=
  [Step OutboxDeliveryStatus.WAITING_RETRY
     {| ota_lease_expired_resend := false; ota_known_pre_egress_failure := true;
        ota_lookup_confirmed_submission := false; ota_operator_retry_pause := false |};
   Step OutboxDeliveryStatus.LEASED default_outbox_args].

Lemma outbox_no_blind_resend_witness : ∃ st, st ∈ retried_outbox_run ∧ no_egress_proof st.
Proof. apply (outbox_no_blind_resend retried_outbox_run); [done|by vm_compute]. Defined.

(** Delivery provenance: a row that reaches DELIVERED, by any sequence of validated writes,
    was last written from an active lease or with a provider lookup receipt. *)
Theorem outbox_delivered_provenance (s : OutboxDeliveryStatus) (l : list outbox_step) :
  s ≠ OutboxDeliveryStatus.DELIVERED →
  outbox_run s l = Ok OutboxDeliveryStatus.DELIVERED →
  ∃ l' m a, l = l' ++ [Step OutboxDeliveryStatus.DELIVERED a] ∧
    outbox_run s l' = Ok m ∧
    (m = OutboxDeliveryStatus.LEASED ∨ ota_lookup_confirmed_submission a = true).
Proof.
  intros Hs Hr. apply validated_run_last in Hr as (l' & m & a & -> & Hl' & Hv); [|done].
  exists l', m, a. split_and!; [done|done|].
  apply validate_outbox_delivery_transition_Ok in Hv as [He _ _ _ Hd].
  destruct m; cbn in He; set_solver.
Qed.

(** ** Writeback status *)

Abbreviation writeback_step := (step WritebackStatus WritebackTransitionArgs).
Definition writeback_run : WritebackStatus → list writeback_step → result WritebackStatus :=
  validated_run validate_writeback_status_transition.

Definition unhappy : list WritebackStatus :=
  [WritebackStatus.UNKNOWN; WritebackStatus.PARTIAL; WritebackStatus.FAILED;
   WritebackStatus.CONFLICT].

Record writeback_transition_spec (s t : WritebackStatus) (a : WritebackTransitionArgs) :
    Prop := {
  wts_edge : t ∈ default [] (WRITEBACK_STATUS_TRANSITIONS s);
  wts_unknown_retry : s = WritebackStatus.UNKNOWN → t = WritebackStatus.PENDING →
    wta_lookup_never_accepted a = true;
  wts_unknown_provider : s = WritebackStatus.UNKNOWN →
    t ∈ [WritebackStatus.ACCEPTED; WritebackStatus.PARTIAL; WritebackStatus.CONFLICT] →
    wta_evidence_adjudication a = true;
  wts_safe_retry : s ∈ [WritebackStatus.FAILED; WritebackStatus.PARTIAL] →
    t = WritebackStatus.PENDING → wta_adapter_allows_safe_retry a = true;
  wts_adjudicated : s ∈ unhappy → t ∈ [WritebackStatus.CONFIRMED; WritebackStatus.FAILED] →
    wta_evidence_adjudication a = true ∨
    (s = WritebackStatus.FAILED ∧ t = WritebackStatus.FAILED)
}.

Lemma validate_writeback_status_transition_Ok s t a :
  validate_writeback_status_transition s t a = Ok tt ↔ writeback_transition_spec s t a.
Proof.
  unfold validate_writeback_status_transition. guards_ok. rewrite edge_allowed_true.
  split.
  - intros (?&?&?&?&Hl). split; [done|naive_solver..|]. intros Hs Ht.
    destruct (wta_evidence_adjudication a) eqn:Ea; [by left|right].
    destruct (decide (s = WritebackStatus.FAILED)) as [->|]; [|naive_solver].
    unfold unhappy in *. set_solver.
  - intros [? ? ? ? Hl]. split_and!; [done|naive_solver..|].
    intros [[[Hs Ht] Ha] Hne]. destruct (Hl Hs Ht); [congruence|naive_solver].
Qed.

(** A write back to PENDING that proves a second send is safe. *)
Definition resend_proof (st : writeback_step) : Prop :=
  step_target st = WritebackStatus.PENDING ∧
  (wta_lookup_never_accepted (step_args st) = true ∨
   wta_adapter_allows_safe_retry (step_args st) = true).

Lemma into_sending s a :
  writeback_transition_spec s WritebackStatus.SENDING a → s = WritebackStatus.PENDING.
Proof. intros [He _ _ _ _]. destruct s; cbn in He; set_solver. Qed.

Lemma into_pending s a :
  writeback_transition_spec s WritebackStatus.PENDING a →
  resend_proof (Step WritebackStatus.PENDING a).
Proof.
  intros [He Hu _ Hr _]. split; [done|]. cbn. destruct s; cbn in He; set_solver.
Qed.

(** No double submission: a writeback that is SENDING a second time, after any sequence of
    validated writes, went back to PENDING on a lookup that proved it was never accepted, or
    with an adapter that allows a safe idempotent retry. *)
Theorem writeback_no_double_send (s : WritebackStatus) (l : list writeback_step) :
  s ≠ WritebackStatus.PENDING → l ≠ [] →
  writeback_run s l = Ok WritebackStatus.SENDING →
  ∃ st, st ∈ l ∧ resend_proof st.
Proof.
  intros Hs Hl Hr. unfold writeback_run in Hr.
  destruct l as [|[t a] l _] using rev_ind; [done|].
  apply validated_run_app in Hr as (m & Hm & Hlast).
  apply validated_run_cons in Hlast as [Hv [= ->]]; cbn in *.
  apply validate_writeback_status_transition_Ok, into_sending in Hv as ->.
  apply validated_run_last in Hm as (l' & m & a' & -> & _ & Hv'); [|done].
  apply validate_writeback_status_transition_Ok, into_pending in Hv'.
  eexists. split; [|exact Hv']. rewrite !elem_of_app, list_elem_of_singleton. auto.
Qed.

(** A writeback of unknown fate, looked up, proven never accepted and sent again. *)
Definition resent_writeback_run : list writeback_step :=
  [Step WritebackStatus.UNKNOWN default_writeback_args;
   Step WritebackStatus.PENDING
     {| wta_lookup_never_accepted := true; wta_adapter_allows_safe_retry := false;
        wta_evidence_adjudication := false |};
   Step WritebackStatus.SENDING default_writeback_args].

Lemma writeback_no_double_send_witness : ∃ st, st ∈ resent_writeback_run ∧ resend_proof st.
Proof.
  apply (writeback_no_double_send WritebackStatus.SENDING); [done|done|by vm_compute].
Defined.

(** Confirmation provenance: a writeback is CONFIRMED, after any sequence of validated writes,
    by a write from the happy path (SENDING or ACCEPTED) or by an adjudicated one. *)
Theorem writeback_confirmed_provenance (s : WritebackStatus) (l : list writeback_step) :
  s ≠ WritebackStatus.CONFIRMED →
  writeback_run s l = Ok WritebackStatus.CONFIRMED →
  ∃ l' m a, l = l' ++ [Step WritebackStatus.CONFIRMED a] ∧ writeback_run s l' = Ok m ∧
    (m = WritebackStatus.SENDING ∨ m = WritebackStatus.ACCEPTED
     ∨ wta_evidence_adjudication a = true).
Proof.
  intros Hs Hr. apply validated_run_last in Hr as (l' & m & a & -> & Hl' & Hv); [|done].
  exists l', m, a. split_and!; [done|done|].
  apply validate_writeback_status_transition_Ok in Hv as [He _ _ _ Ha].
  unfold unhappy in Ha. destruct m; cbn in He; set_solver.
Qed.

Definition confirmed_writeback_run : list writeback_step :=
  [Step WritebackStatus.SENDING default_writeback_args;
   Step WritebackStatus.ACCEPTED default_writeback_args;
   Step WritebackStatus.CONFIRMED default_writeback_args].

Lemma writeback_confirmed_provenance_witness :
  ∃ l' m a, confirmed_writeback_run = l' ++ [Step WritebackStatus.CONFIRMED a] ∧
    writeback_run WritebackStatus.PENDING l' = Ok m ∧
    (m = WritebackStatus.SENDING ∨ m = WritebackStatus.ACCEPTED
     ∨ wta_evidence_adjudication a = true).
Proof. apply writeback_confirmed_provenance; [done|by vm_compute]. Defined.

(** ** Terminal statuses *)

(** Terminal statuses are absorbing: no validated write leaves a CLOSED event, a confirmed
    writeback, a finished job, or a rejected, superseded, failed or rolled-back Action. *)
Theorem terminal_statuses_absorbing :
  (∀ t ctx, is_ok (validate_transition EventStatus.CLOSED t ctx) = false) ∧
  (∀ t a, is_ok (validate_writeback_status_transition WritebackStatus.CONFIRMED t a) = false) ∧
  (∀ s t a, job_rank s = 0 → is_ok (job_validate s t a) = false) ∧
  (∀ c s t a, s ∈ [ActionStatus.REJECTED; ActionStatus.SUPERSEDED; ActionStatus.FAILED;
                   ActionStatus.ROLLED_BACK] →
     is_ok (validate_action_status_transition c s t a) = false).
Proof.
  split_and!.
  - done.
  - intros t a. by destruct t.
  - intros s t a Hs. destruct (job_validate s t a) as [[]|] eqn:E; [|done].
    apply validate_job_status_transition_Ok in E as [He _ _ _].
    destruct s; first [done|by apply elem_of_nil in He].
  - intros c s t a Hs. destruct (validate_action_status_transition c s t a) as [[]|] eqn:E;
      [|done].
    apply validate_action_status_transition_Ok in E as [He _ _ _ _ _].
    rewrite !elem_of_cons, elem_of_nil in Hs.
    by destruct Hs as [->|[->|[->|[->|[]]]]], c; apply elem_of_nil in He.
Qed.

(** ** Execution sub-states *)

Record substate_spec (e : EventStatus) (s t : ExecutionSubstate) : Prop := {
  sub_host : t ∈ default [ExecutionSubstate.NONE] (EXECUTION_SUBSTATE_HOSTS e);
  sub_edge : is_Some (EXECUTION_SUBSTATE_HOSTS e) → s = t ∨
    t ∈ default [] (EXECUTION_SUBSTATE_TRANSITIONS s)
}.

(** Every status either hosts sub-states or forbids them, never both. *)
Lemma substate_partition e :
  e ∈ EXECUTION_SUBSTATE_FORBIDDEN_STATUSES ↔ EXECUTION_SUBSTATE_HOSTS e = None.
Proof.
  unfold EXECUTION_SUBSTATE_FORBIDDEN_STATUSES. destruct e; cbn; set_solver.
Qed.

(** [validate_execution_substate] accepts exactly: NONE under a status that hosts no sub-state,
    and under a host one of its sub-states that is unchanged or reached by a legal edge. *)
Theorem execution_substate_correct (e : EventStatus) (s t : ExecutionSubstate) :
  validate_execution_substate e s t = Ok tt ↔ substate_spec e s t.
Proof.
  unfold validate_execution_substate.
  destruct (EXECUTION_SUBSTATE_HOSTS e) as [allowed|] eqn:Eh.
  - rewrite bool_decide_eq_false_2 by (rewrite substate_partition; congruence).
    guards_ok. unfold not. rewrite edge_allowed_true.
    split.
    + intros [? Hedge]. split; rewrite Eh; [done|]. intros _.
      destruct (decide (s = t)); naive_solver.
    + intros [Hh He]. rewrite Eh in *. split; [done|]. intros Hne.
      destruct He; [by eexists|naive_solver..].
  - rewrite bool_decide_eq_true_2 by by apply substate_partition. guards_ok. split.
    + intros ->. split; rewrite Eh; [set_solver|]. by intros []%is_Some_None.
    + intros [Hh _]. rewrite Eh in Hh. set_solver.
Qed.

(** The late-false-positive isolation sub-state is always writable where it is offered, and
    nothing but NONE is writable where it is not. *)
Theorem late_fp_substate_writable (e : EventStatus) (s : ExecutionSubstate) :
  match late_fp_allowed_substate e with
  | Some t => validate_execution_substate e s t = Ok tt
  | None => ∀ t, validate_execution_substate e s t = Ok tt → t = ExecutionSubstate.NONE
  end.
Proof.
  destruct e; cbn; try (by destruct s); intros []; by destruct s.
Qed.

(** ** Reaching CLOSED *)

(** [iter] lists the successors of each status, in whatever order the interpreter chose. *)
Definition iterates_table (iter : EventStatus → list EventStatus) : Prop :=
  ∀ s, iter s ≡ₚ default [] (STATE_TRANSITIONS s).

Definition outdegree (s : EventStatus) : nat := length (default [] (STATE_TRANSITIONS s)).

(** Successors the search may still push. *)
Definition unpushed (seen l : list EventStatus) : nat :=
  sum_list_with (λ s, if s ∈? seen then 0 else outdegree s) l.

Lemma unpushed_cons seen s l :
  unpushed seen (s :: l) = (if s ∈? seen then 0 else outdegree s) + unpushed seen l.
Proof. done. Qed.

Lemma unpushed_mono seen cur l : unpushed (cur :: seen) l ≤ unpushed seen l.
Proof.
  induction l as [|s l IH]; [done|]. rewrite !unpushed_cons.
  destruct (decide (s ∈ seen)).
  - rewrite !bool_decide_eq_true_2 by set_solver. lia.
  - rewrite (bool_decide_eq_false_2 (s ∈ seen)) by done. case_bool_decide; lia.
Qed.

Lemma unpushed_seen seen cur l :
  cur ∈ l → cur ∉ seen → unpushed (cur :: seen) l + outdegree cur ≤ unpushed seen l.
Proof.
  intros Hin Hns. induction l as [|s l IH]; [by apply elem_of_nil in Hin|].
  pose proof (unpushed_mono seen cur l). rewrite !unpushed_cons.
  apply elem_of_cons in Hin as [->|Hin].
  - rewrite bool_decide_eq_true_2, bool_decide_eq_false_2 by set_solver. lia.
  - specialize (IH Hin). destruct (decide (s ∈ seen)).
    + rewrite !bool_decide_eq_true_2 by set_solver. lia.
    + rewrite (bool_decide_eq_false_2 (s ∈ seen)) by done. case_bool_decide; lia.
Qed.

Lemma closed_under_table (seen : list EventStatus) :
  EventStatus.NEW ∈ seen →
  (∀ s t, s ∈ seen → t ∈ default [] (STATE_TRANSITIONS s) → t ∈ seen) →
  EventStatus.CLOSED ∈ seen.
Proof.
  intros Hn Hc.
  apply (Hc EventStatus.TRIAGING); [|by apply (bool_decide_unpack _)].
  by apply (Hc EventStatus.NEW), (bool_decide_unpack _).
Qed.

Lemma closed_search_finds iter fuel stack seen :
  iterates_table iter →
  length stack + unpushed seen enum_members < fuel →
  EventStatus.CLOSED ∉ seen →
  EventStatus.NEW ∈ seen ++ stack →
  (∀ s t, s ∈ seen → t ∈ default [] (STATE_TRANSITIONS s) → t ∈ seen ++ stack) →
  closed_search iter fuel stack seen = Some true.
Proof.
  intros Hiter. revert stack seen. induction fuel as [|fuel IH]; intros stack seen Hf Hc Hn Hs;
    [lia|].
  destruct stack as [|cur stack _] using rev_ind.
  { rewrite app_nil_r in *. destruct Hc. by apply closed_under_table. }
  cbn [closed_search]. rewrite reverse_snoc, reverse_involutive.
  rewrite length_app in Hf; cbn [length] in Hf.
  case_bool_decide as Hseen.
  { apply IH; [lia|done|set_solver..]. }
  case_bool_decide as Hcl; [done|].
  pose proof (unpushed_seen seen cur enum_members (enum_members_complete cur) Hseen).
  assert (Hp : ∀ t, t ∈ iter cur ↔ t ∈ default [] (STATE_TRANSITIONS cur))
    by (intros t; by rewrite (Hiter cur)).
  apply IH.
  - rewrite length_app, (Permutation_length (Hiter cur)). unfold outdegree in *. lia.
  - set_solver.
  - set_solver.
  - intros s t [->|Hss]%elem_of_cons Ht; [set_solver|]. specialize (Hs s t Hss Ht). set_solver.
Qed.

(** [main_path_reaches_closed] terminates and answers true, in whatever order the set of
    successors is iterated; 64 loop rounds are enough. *)
Theorem main_path_reaches_closed_true (iter : EventStatus → list EventStatus) (fuel : nat) :
  iterates_table iter → 64 ≤ fuel → main_path_reaches_closed iter fuel = Some true.
Proof.
  intros Hiter Hf. apply closed_search_finds; [done| |set_solver..].
  assert (unpushed [] enum_members = 35) as -> by (by vm_compute). cbn. lia.
Qed.

(** ** EventStatus paths *)

Definition status_rank (s : EventStatus) : nat :=
  match s with
  | EventStatus.NEW => 13
  | EventStatus.TRIAGING => 12
  | EventStatus.COLLECTING_EVIDENCE => 11
  | EventStatus.ANALYZING => 10
  | EventStatus.SCORING => 9
  | EventStatus.PLANNING_RESPONSE => 8
  | EventStatus.WAITING_APPROVAL => 7
  | EventStatus.EXECUTING_RESPONSE => 6
  | EventStatus.VERIFYING => 5
  | EventStatus.REPLANNING => 4
  | EventStatus.CONTAINED => 3
  | EventStatus.FAILED => 2
  | EventStatus.REPORTING => 1
  | EventStatus.CLOSED => 0
  end.

Definition status_cost (s t : EventStatus) : nat :=
  if (s ==? EventStatus.REPLANNING) then 8
  else if (s ==? EventStatus.REPORTING) && (t ==? EventStatus.FAILED) then 2 else 0.

Lemma status_rank_decreases s t :
  t ∈ default [] (STATE_TRANSITIONS s) → S (status_rank t) ≤ status_rank s + status_cost s t.
Proof.
  intros He. apply edge_allowed_true in He.
  destruct s, t; first [discriminate He | apply Nat.leb_le; vm_compute; reflexivity].
Qed.

(** ** Labels and observations *)

Lemma ascii_lower_upper c : ascii_lower (ascii_upper c) = ascii_lower c.
Proof. destruct c as [[] [] [] [] [] [] [] []]; vm_compute; done. Qed.

Lemma str_lower_upper s : str_lower (str_upper s) = str_lower s.
Proof.
  induction s as [|c s IH]; [done|]. cbn. by rewrite ascii_lower_upper, <-IH.
Qed.

(** A level label is parsed to [l] exactly when, white space and case aside, it spells the
    value of [l]; so [L1], [l1] and [ l1 ] are the same level and any other label is none. *)
Theorem parse_action_level_label_correct (raw : string) (l : ActionLevel) :
  parse_action_level_label raw = Some l ↔ str_lower (str_strip raw) = enum_value l.
Proof.
  unfold parse_action_level_label. case_bool_decide as He.
  - rewrite He. split; [done|]. by destruct l.
  - destruct (enum_of_value (str_lower (str_strip raw))) as [l'|] eqn:Ev.
    + apply enum_of_value_Some in Ev. rewrite Ev, enum_value_eq. naive_solver.
    + rewrite enum_of_value_None in Ev. split; [|intros Hl; by destruct (Ev l)].
      intros [_ Hn]%List.find_some. bool_props.
      rewrite <-(str_lower_upper (str_strip raw)), Hn. by destruct l.
Qed.

(** A natural external change touches only the source's [current_*] keys and the sync state:
    the frozen snapshot, the event status and every other key are what they were. *)
Theorem external_observation_frame (source snapshot : list (string * pyval)) (e : EventStatus)
    (disposition status token : option string) (k : string) :
  k ∉ ["current_source_disposition"; "current_source_status_raw"; "current_concurrency_token";
       "source_sync_state"]%string →
  let '(source', snapshot', e') :=
    apply_external_source_observation source snapshot e disposition status token in
  snapshot' = snapshot ∧ e' = e ∧ dict_get source' k = dict_get source k ∧
  dict_get source' "source_sync_state" = Some (VStr "observed_external_change").
Proof.
  intros Hk. cbn. split_and!; [done|done| |by rewrite dict_get_set].
  rewrite dict_get_set_ne by set_solver.
  unfold merge_optional. repeat case_match; rewrite ?dict_get_set_ne by set_solver; done.
Qed.
