(* ===== verification/Db.v ===== *)
(** * Tables and queries (backend/app/db/models.py)

    The rows of the tables the closure path reads and writes, with the columns that path uses
    (a column no modelled code reads or writes is left out), and the queries as functions on a
    table.  A table is the list of its rows in storage order: a SELECT without ORDER BY returns
    them in an order the code must not rely on.  Enum columns hold raw text, as in PostgreSQL;
    JSONB columns hold [pyval]s; a time stamp is a number of time units. *)

From stdpp Require Import prelude strings gmap sorting pretty.
From S2P Require Import Prelude.

(** ** Rows *)

Record SecurityEventRow : Type := {
  se_event_id : string;
  se_event_type : string;
  se_source_type : option string;
  se_created_at : Z;
  se_status : string;
  se_severity : string;
  se_final_verdict : string;
  se_creation_source_ref : pyval;
  se_source_reference_snapshots : list pyval;
  se_disposition_source_ref : option pyval;
  se_disposition_policy : string;
  se_updated_at : Z;
  se_closed_at : option Z;
  se_replan_count : Z;
  se_degraded_flags : list string;
  se_escalated : bool;
  se_external_unsynced : bool;
  se_event_context_snapshot : option pyval;
  se_row_version : Z
}.

Record ActionRow : Type := {
  act_action_id : string;
  act_event_id : string;
  act_plan_revision : Z;
  act_action_fingerprint : string;
  act_action_category : string;
  act_tool_name : string;
  act_action_level : string;
  act_execution_phase : string;
  act_activation_condition : option string;
  act_approved_terminal_dispositions : list pyval;
  act_status : string;
  act_impact_assessment : option pyval;
  act_playbook_ref : option pyval;
  act_action_template_snapshot : option pyval;
  act_execution_owner : option string;
  act_execution_job_id : option string;
  act_writeback_required : bool;
  act_writeback_applicable : bool;
  act_writeback_readiness : string;
  act_writeback_status : option string;
  act_superseded_by_revision : option Z;
  act_executed_at : option Z;
  act_updated_at : Z
}.

Record JobRow : Type := {
  job_job_id : string;
  job_event_id : string;
  job_action_id : string;
  job_provider_name : string;
  job_idempotency_key : string;
  job_provider_job_id : option string;
  job_status : string;
  job_claimed_by : option string;
  job_lease_expires_at : option Z;
  job_poll_after_ms : option Z;
  job_attempt : Z;
  job_provider_code : option string;
  job_provider_message : option string;
  job_raw_result : list (string * pyval);
  job_updated_at : Z;
  job_started_at : option Z;
  job_finished_at : option Z
}.

Record OutboxRow : Type := {
  ob_outbox_id : string;
  ob_writeback_id : string;
  ob_disposition_id : string;
  ob_action_id : string;
  ob_event_id : string;
  ob_closure_cycle : Z;
  ob_source_record_id : string;
  ob_source_locator_hash : string;
  ob_source_sequence : Z;
  ob_intent_kind : string;
  ob_logical_slot : string;
  ob_supersedes_disposition_id : option string;
  ob_superseded_by_disposition_id : option string;
  ob_idempotency_key : string;
  ob_command_payload : list (string * pyval);
  ob_command_payload_sha256 : string;
  ob_delivery_status : string;
  ob_latest_writeback_status : option string;
  ob_attempt : Z;
  ob_next_retry_at : option Z;
  ob_locked_by : option string;
  ob_locked_at : option Z;
  ob_lease_expires_at : option Z;
  ob_last_error_code : option string;
  ob_last_error_detail : option string;
  ob_created_at : Z;
  ob_updated_at : Z;
  ob_delivered_at : option Z
}.

Record ReceiptRow : Type := {
  rc_writeback_id : string;
  rc_sequence : Z;
  rc_disposition_id : string;
  rc_action_id : string;
  rc_source_record_id : string;
  rc_status : string;
  rc_confirmation_evidence : option string;
  rc_provider_record_id : option string;
  rc_provider_job_id : option string;
  rc_provider_code : option string;
  rc_provider_message : option string;
  rc_observed_at : option Z;
  rc_submitted_at : option Z;
  rc_confirmed_at : option Z;
  rc_target_results : list pyval;
  rc_raw_result : list (string * pyval);
  rc_truncated : bool;
  rc_simulated : bool
}.

Record TargetResultRow : Type := {
  tr_job_id : string;
  tr_attempt : Z;
  tr_canonical_target : string;
  tr_status : string;
  tr_code : option string;
  tr_message : option string;
  tr_artifact_id : option string;
  tr_raw_result : list (string * pyval)
}.

Record ReportRow : Type := {
  rp_report_id : string;
  rp_event_id : string
}.

Record AuditLogRow : Type := {
  al_id : Z;
  al_event_id : string;
  al_from_status : option string;
  al_to_status : option string;
  al_operator : option string;
  al_reason : option string;
  al_created_at : Z
}.

Record JournalRow : Type := {
  jn_event_id : string;
  jn_field_name : string;
  jn_value : option pyval;
  jn_version : Z
}.

Record ApprovalRow : Type := {
  ap_approval_id : string;
  ap_action_id : string;
  ap_event_id : string;
  ap_plan_revision : Z;
  ap_approval_cycle : Z;
  ap_decision_id : option string;
  ap_required_level : string;
  ap_decision : string;
  ap_operator : option string;
  ap_comment : option string;
  ap_detail : option (list (string * pyval));
  ap_requested_at : Z;
  ap_decided_at : option Z;
  ap_timeout_at : option Z
}.

(** The database.  [db_versions] is [event_context_field_version]; [db_source_sequences] is the
    column [next_outbox_sequence] of [source_object] by primary key; [db_next_audit_id] is the
    identity column of [event_audit_log]. *)
Record Db : Type := {
  db_events : gmap string SecurityEventRow;
  db_actions : list ActionRow;
  db_jobs : list JobRow;
  db_outboxes : list OutboxRow;
  db_receipts : list ReceiptRow;
  db_target_results : list TargetResultRow;
  db_source_sequences : gmap string Z;
  db_reports : list ReportRow;
  db_approvals : list ApprovalRow;
  db_audit : list AuditLogRow;
  db_journal : list JournalRow;
  db_versions : gmap (string * string) Z;
  db_next_audit_id : Z
}.

Definition empty_db : Db := {|
  db_events := ∅; db_actions := []; db_jobs := []; db_outboxes := []; db_receipts := [];
  db_target_results := []; db_source_sequences := ∅;
  db_reports := []; db_approvals := []; db_audit := []; db_journal := []; db_versions := ∅; db_next_audit_id := 1
|}.

(** Replacing one table. *)
Definition db_with_events (events : gmap string SecurityEventRow) (db : Db) : Db := {|
  db_events := events; db_actions := db_actions db; db_jobs := db_jobs db;
  db_outboxes := db_outboxes db; db_receipts := db_receipts db;
  db_target_results := db_target_results db; db_source_sequences := db_source_sequences db;
  db_reports := db_reports db; db_approvals := db_approvals db;
  db_audit := db_audit db; db_journal := db_journal db; db_versions := db_versions db;
  db_next_audit_id := db_next_audit_id db
|}.

Definition db_with_executions (actions : list ActionRow) (jobs : list JobRow) (db : Db) : Db := {|
  db_events := db_events db; db_actions := actions; db_jobs := jobs;
  db_outboxes := db_outboxes db; db_receipts := db_receipts db;
  db_target_results := db_target_results db; db_source_sequences := db_source_sequences db;
  db_reports := db_reports db; db_approvals := db_approvals db;
  db_audit := db_audit db; db_journal := db_journal db; db_versions := db_versions db;
  db_next_audit_id := db_next_audit_id db
|}.

Definition db_with_audit (audit : list AuditLogRow) (next : Z) (db : Db) : Db := {|
  db_events := db_events db; db_actions := db_actions db; db_jobs := db_jobs db;
  db_outboxes := db_outboxes db; db_receipts := db_receipts db;
  db_target_results := db_target_results db; db_source_sequences := db_source_sequences db;
  db_reports := db_reports db; db_approvals := db_approvals db;
  db_audit := audit; db_journal := db_journal db; db_versions := db_versions db;
  db_next_audit_id := next
|}.

Definition db_with_journal (journal : list JournalRow) (versions : gmap (string * string) Z)
    (db : Db) : Db := {|
  db_events := db_events db; db_actions := db_actions db; db_jobs := db_jobs db;
  db_outboxes := db_outboxes db; db_receipts := db_receipts db;
  db_target_results := db_target_results db; db_source_sequences := db_source_sequences db;
  db_reports := db_reports db; db_approvals := db_approvals db;
  db_audit := db_audit db; db_journal := journal; db_versions := versions;
  db_next_audit_id := db_next_audit_id db
|}.

Definition db_with_outboxes (outboxes : list OutboxRow) (sequences : gmap string Z) (db : Db) :
    Db := {|
  db_events := db_events db; db_actions := db_actions db; db_jobs := db_jobs db;
  db_outboxes := outboxes; db_receipts := db_receipts db;
  db_target_results := db_target_results db; db_source_sequences := sequences;
  db_reports := db_reports db; db_approvals := db_approvals db;
  db_audit := db_audit db; db_journal := db_journal db; db_versions := db_versions db;
  db_next_audit_id := db_next_audit_id db
|}.

Definition db_with_results (receipts : list ReceiptRow) (targets : list TargetResultRow)
    (db : Db) : Db := {|
  db_events := db_events db; db_actions := db_actions db; db_jobs := db_jobs db;
  db_outboxes := db_outboxes db; db_receipts := receipts;
  db_target_results := targets; db_source_sequences := db_source_sequences db;
  db_reports := db_reports db; db_approvals := db_approvals db;
  db_audit := db_audit db; db_journal := db_journal db; db_versions := db_versions db;
  db_next_audit_id := db_next_audit_id db
|}.

Definition db_with_approvals (approvals : list ApprovalRow) (db : Db) : Db := {|
  db_events := db_events db; db_actions := db_actions db; db_jobs := db_jobs db;
  db_outboxes := db_outboxes db; db_receipts := db_receipts db;
  db_target_results := db_target_results db; db_source_sequences := db_source_sequences db;
  db_reports := db_reports db; db_approvals := approvals;
  db_audit := db_audit db; db_journal := db_journal db; db_versions := db_versions db;
  db_next_audit_id := db_next_audit_id db
|}.

(** ** Python values of columns *)

(** [int(x or d)] *)
Definition int_or (x d : Z) : Z := if x ==? 0%Z then d else x.

(** [bool(s)] of an optional text column: NULL and the empty string are false. *)
Definition truthy_str (o : option string) : bool :=
  match o with Some s => s !=? ""%string | None => false end.

(** [str(v)].  The text of a container is abbreviated: the code only compares [str(v)] with enum
    values, none of which starts with a bracket. *)
Definition py_str (v : pyval) : string :=
  match v with
  | VNone => "None"
  | VBool true => "True"
  | VBool false => "False"
  | VInt z => pretty z
  | VStr s => s
  | VList _ => "[...]"
  | VDict _ => "{...}"
  end.

(** [E(raw)] with [except ValueError: d] *)
Definition enum_or {A} `{StrEnum A} (raw : string) (d : A) : A := default d (enum_of_value raw).

(** ** Queries *)

(** [SELECT max(key)] *)
Fixpoint max_of {A} (key : A → Z) (l : list A) : option Z :=
  match l with
  | [] => None
  | x :: l' => match max_of key l' with
               | Some m => Some (Z.max (key x) m)
               | None => Some (key x)
               end
  end.

(** [ORDER BY key DESC LIMIT 1] *)
Fixpoint last_by {A} (key : A → Z) (l : list A) : option A :=
  match l with
  | [] => None
  | x :: l' => match last_by key l' with
               | Some y => if (key y <? key x)%Z then Some x else Some y
               | None => Some x
               end
  end.

Lemma max_of_None {A} (key : A → Z) l : max_of key l = None ↔ l = [].
Proof. destruct l; cbn; [done|]. split; [|done]. by case_match. Qed.

Lemma max_of_Some {A} (key : A → Z) l m :
  max_of key l = Some m → (∃ x, x ∈ l ∧ key x = m) ∧ ∀ x, x ∈ l → (key x ≤ m)%Z.
Proof.
  revert m. induction l as [|x l IH]; cbn; [done|]. intros m.
  destruct (max_of key l) as [m'|] eqn:E; intros [= <-].
  - destruct (IH _ eq_refl) as [(y & Hy & <-) Hm]. split.
    + destruct (Z.max_spec (key x) (key y)) as [[_ ->]|[_ ->]]; set_solver.
    + intros z [->|Hz]%elem_of_cons; [lia|]. specialize (Hm z Hz). lia.
  - apply max_of_None in E as ->. split; [set_solver|].
    intros z ->%list_elem_of_singleton. lia.
Qed.

Lemma last_by_None {A} (key : A → Z) l : last_by key l = None ↔ l = [].
Proof. destruct l; [done|]. cbn. split; [|done]. by repeat case_match. Qed.

Lemma last_by_Some {A} (key : A → Z) l x :
  last_by key l = Some x → x ∈ l ∧ ∀ y, y ∈ l → (key y ≤ key x)%Z.
Proof.
  revert x. induction l as [|y l IH]; cbn; [done|]. intros x.
  destruct (last_by key l) as [z|] eqn:E.
  - destruct (IH z eq_refl) as [Hz Hmax]. destruct (Z.ltb_spec (key z) (key y)); intros [= <-].
    + split; [set_solver|]. intros w [->|Hw]%elem_of_cons; [lia|]. specialize (Hmax w Hw). lia.
    + split; [set_solver|]. intros w [->|Hw]%elem_of_cons; [lia|]. by apply Hmax.
  - apply last_by_None in E as ->. intros [= <-]. split; [set_solver|].
    intros w ->%list_elem_of_singleton. lia.
Qed.

(** [session.get(Model, pk)] on a list table. *)
Definition get_by {A} (pk : A → string) (k : string) (l : list A) : option A :=
  List.find (λ x, pk x ==? k) l.

Lemma get_by_Some {A} (pk : A → string) k l x :
  get_by pk k l = Some x → x ∈ l ∧ pk x = k.
Proof.
  intros [Hin Hk]%List.find_some. bool_props. by rewrite list_elem_of_In.
Qed.

(** [UPDATE ... WHERE pk = k] with the new row. *)
Definition update_by {A} (pk : A → string) (row : A) (l : list A) : list A :=
  map (λ x, if pk x ==? pk row then row else x) l.

(** Where clauses: [List.filter] with a boolean test, in storage order. *)
Lemma in_where {A} (p : A → bool) l x : x ∈ List.filter p l ↔ x ∈ l ∧ p x = true.
Proof. by rewrite !list_elem_of_In, List.filter_In. Qed.

Lemma where_nil {A} (p : A → bool) l : List.filter p l = [] ↔ ∀ x, x ∈ l → p x = false.
Proof.
  split.
  - intros Hn x Hx. destruct (p x) eqn:Hp; [|done].
    assert (x ∈ List.filter p l) as Hf by by apply in_where.
    rewrite Hn in Hf. by apply elem_of_nil in Hf.
  - intros Hp. destruct (List.filter p l) as [|x l'] eqn:E; [done|].
    assert (x ∈ List.filter p l) as [Hx Hpx]%in_where by (rewrite E; set_solver).
    by rewrite Hp in Hpx.
Qed.

(** ** The context journal *)

Definition journal_row_of (event_id field_name : string) (j : JournalRow) : bool :=
  (jn_event_id j ==? event_id) && (jn_field_name j ==? field_name).

(** [SELECT value ... ORDER BY version DESC LIMIT 1]: a NULL value reads as no value. *)
Definition latest_journal_value (db : Db) (event_id field_name : string) : option pyval :=
  last_by jn_version
    (List.filter (journal_row_of event_id field_name) (db_journal db)) ≫= jn_value.
