(* ===== verification/Disposition.v ===== *)
(** * Dispositions: commands, receipts, adapters, failures and the live fence
      (models/disposition.py, adapters/disposition/base.py, adapters/disposition/
      error_classification.py, services/writeback_side_effect_fence.py, core/config.py)

    The envelopes that leave the system and come back, with their validators; the contract of a
    disposition adapter as a record of its methods; the classification of a failed delivery; the
    fence in front of live side effects. *)

From stdpp Require Import prelude strings.
From S2P Require Import Prelude Enums Errors.

#[local] Open Scope string_scope.

(** ** Commands *)

Record SourceObjectLocator : Type := {
  loc_source_product : string;
  loc_source_tenant_id : string;
  loc_connector_id : string;
  loc_source_kind : SourceObjectKind;
  loc_source_object_type : option string;
  loc_source_object_id : string
}.

#[global] Instance SourceObjectLocator_eq_dec : EqDecision SourceObjectLocator.
Proof. solve_decision. Defined.

(** The discriminated union [OperationParams]. *)
Inductive OperationParams : Type :=
| SetEventDispositionParams (target_disposition : SourceDisposition)
    (comment_code : option string)
| SubmitEntityActionParams (entity_action_code canonical_target : string)
| RecordExecutionResultParams (summary_code : option string)
| RecordCompensationParams (summary_code : option string).

Definition params_operation_code (p : OperationParams) : string :=
  match p with
  | SetEventDispositionParams _ _ => "set_event_disposition"
  | SubmitEntityActionParams _ _ => "submit_entity_action"
  | RecordExecutionResultParams _ => "record_execution_result"
  | RecordCompensationParams _ => "record_compensation"
  end.

(** [isinstance(params, _INTENT_PARAMS[kind])]: every intent kind has an entry. *)
Definition _INTENT_PARAMS (kind : DispositionIntentKind) (p : OperationParams) : bool :=
  match kind, p with
  | DispositionIntentKind.EVENT_STATUS_UPDATE, SetEventDispositionParams _ _
  | DispositionIntentKind.ENTITY_ACTION_SUBMIT, SubmitEntityActionParams _ _
  | DispositionIntentKind.EXECUTION_RESULT_RECORD, RecordExecutionResultParams _
  | DispositionIntentKind.COMPENSATION_RECORD, RecordCompensationParams _ => true
  | _, _ => false
  end.

Record TargetDispositionResult : Type := {
  td_canonical_target : string;
  td_status : TargetExecutionStatus;
  td_provider_code : option string;
  td_message_code : option string;
  td_artifact_ref : option string
}.

Record DispositionCommand : Type := {
  dc_disposition_id : string;
  dc_action_id : string;
  dc_closure_cycle : Z;
  dc_intent_kind : DispositionIntentKind;
  dc_source_locator : SourceObjectLocator;
  dc_operation_code : string;
  dc_operation_params : OperationParams;
  dc_target_results : list TargetDispositionResult;
  dc_operator_id : string;
  dc_idempotency_key : string;
  dc_source_concurrency_token : option string;
  dc_execution_owner : ExecutionOwner;
  dc_parent_disposition_id : option string;
  dc_supersedes_disposition_id : option string
}.

Definition _direct_tool_cannot_submit_entity_action (c : DispositionCommand) : result unit :=
  raise_if ((dc_execution_owner c ==? ExecutionOwner.DIRECT_TOOL)
            && (dc_intent_kind c ==? DispositionIntentKind.ENTITY_ACTION_SUBMIT))
    (builtin_error ValueError "DIRECT_TOOL cannot use ENTITY_ACTION_SUBMIT") ;;
  raise_if ((dc_intent_kind c ==? DispositionIntentKind.EVENT_STATUS_UPDATE)
            && (dc_execution_owner c !=? ExecutionOwner.XDR_MANAGED))
    (builtin_error ValueError "EVENT_STATUS_UPDATE must be XDR_MANAGED").

(** The messages quote the two codes, respectively the expected class. *)
Definition _operation_code_and_intent_are_consistent (c : DispositionCommand) : result unit :=
  raise_if (dc_operation_code c !=? params_operation_code (dc_operation_params c))
    (builtin_error ValueError "operation_code must equal operation_params.operation_code") ;;
  raise_if (negb (_INTENT_PARAMS (dc_intent_kind c) (dc_operation_params c)))
    (builtin_error ValueError ("intent_kind " +++ enum_value (dc_intent_kind c) +++
                               " requires other operation_params")).

(** What construction of a [DispositionCommand] checks, in the order of the validators. *)
Definition validate_command_model (c : DispositionCommand) : result unit :=
  _direct_tool_cannot_submit_entity_action c ;;
  _operation_code_and_intent_are_consistent c.

(** [model_dump(mode="json")]: every field, in declaration order. *)
Definition locator_dump (l : SourceObjectLocator) : list (string * pyval) :=
  [("source_product", VStr (loc_source_product l));
   ("source_tenant_id", VStr (loc_source_tenant_id l));
   ("connector_id", VStr (loc_connector_id l));
   ("source_kind", VStr (enum_value (loc_source_kind l)));
   ("source_object_type", opt_str (loc_source_object_type l));
   ("source_object_id", VStr (loc_source_object_id l))].

Definition params_dump (p : OperationParams) : list (string * pyval) :=
  ("operation_code", VStr (params_operation_code p)) ::
  match p with
  | SetEventDispositionParams d comment =>
      [("target_disposition", VStr (enum_value d)); ("comment_code", opt_str comment)]
  | SubmitEntityActionParams code target =>
      [("entity_action_code", VStr code); ("canonical_target", VStr target)]
  | RecordExecutionResultParams s | RecordCompensationParams s => [("summary_code", opt_str s)]
  end.

Definition target_dump (t : TargetDispositionResult) : list (string * pyval) :=
  [("canonical_target", VStr (td_canonical_target t));
   ("status", VStr (enum_value (td_status t)));
   ("provider_code", opt_str (td_provider_code t));
   ("message_code", opt_str (td_message_code t));
   ("artifact_ref", opt_str (td_artifact_ref t))].

Definition command_dump (c : DispositionCommand) : list (string * pyval) :=
  [("disposition_id", VStr (dc_disposition_id c));
   ("action_id", VStr (dc_action_id c));
   ("closure_cycle", VInt (dc_closure_cycle c));
   ("intent_kind", VStr (enum_value (dc_intent_kind c)));
   ("source_locator", VDict (locator_dump (dc_source_locator c)));
   ("operation_code", VStr (dc_operation_code c));
   ("operation_params", VDict (params_dump (dc_operation_params c)));
   ("target_results", VList (map (λ t, VDict (target_dump t)) (dc_target_results c)));
   ("operator_id", VStr (dc_operator_id c));
   ("idempotency_key", VStr (dc_idempotency_key c));
   ("source_concurrency_token", opt_str (dc_source_concurrency_token c));
   ("execution_owner", VStr (enum_value (dc_execution_owner c)));
   ("parent_disposition_id", opt_str (dc_parent_disposition_id c));
   ("supersedes_disposition_id", opt_str (dc_supersedes_disposition_id c))].

(** [command.model_copy(update={"supersedes_disposition_id": d})] *)
Definition command_superseding (c : DispositionCommand) (d : string) : DispositionCommand := {|
  dc_disposition_id := dc_disposition_id c; dc_action_id := dc_action_id c;
  dc_closure_cycle := dc_closure_cycle c; dc_intent_kind := dc_intent_kind c;
  dc_source_locator := dc_source_locator c; dc_operation_code := dc_operation_code c;
  dc_operation_params := dc_operation_params c; dc_target_results := dc_target_results c;
  dc_operator_id := dc_operator_id c; dc_idempotency_key := dc_idempotency_key c;
  dc_source_concurrency_token := dc_source_concurrency_token c;
  dc_execution_owner := dc_execution_owner c;
  dc_parent_disposition_id := dc_parent_disposition_id c;
  dc_supersedes_disposition_id := Some d
|}.

(** ** Receipts *)

Record TargetWritebackResult : Type := {
  tw_canonical_target : string;
  tw_status : TargetWritebackStatus;
  tw_provider_code : option string;
  tw_message_code : option string;
  tw_artifact_ref : option string
}.

Record DispositionReceipt : Type := {
  dr_writeback_id : string;
  dr_sequence : Z;
  dr_disposition_id : string;
  dr_action_id : string;
  dr_source_record_id : string;
  dr_status : WritebackStatus;
  dr_confirmation_evidence : option ConfirmationEvidence;
  dr_provider_record_id : option string;
  dr_provider_job_id : option string;
  dr_provider_code : option string;
  dr_provider_message : option string;
  dr_observed_at : option Z;
  dr_submitted_at : option Z;
  dr_confirmed_at : option Z;
  dr_target_results : list TargetWritebackResult;
  dr_raw_result : list (string * pyval);
  dr_truncated : bool;
  dr_simulated : bool
}.

Definition _confirmed_requires_evidence (r : DispositionReceipt) : result unit :=
  raise_if ((dr_status r ==? WritebackStatus.CONFIRMED)
            && bool_decide (dr_confirmation_evidence r = None))
    (builtin_error ValueError "CONFIRMED receipt requires confirmation_evidence").

Definition target_writeback_dump (t : TargetWritebackResult) : list (string * pyval) :=
  [("canonical_target", VStr (tw_canonical_target t));
   ("status", VStr (enum_value (tw_status t)));
   ("provider_code", opt_str (tw_provider_code t));
   ("message_code", opt_str (tw_message_code t));
   ("artifact_ref", opt_str (tw_artifact_ref t))].

(** ** Adapters *)

(** The capability maps of intents and operations are read by the adapters themselves. *)
Record DispositionAdapterCapabilities : Type := {
  supports_idempotency : bool;
  supports_status_query : bool;
  supports_concurrency_token : bool;
  supports_lookup_by_idempotency : bool;
  supports_readback_confirmation : bool;
  supports_entity_effect_readback : bool
}.

(** A [BaseDispositionAdapter] during one call of the service: its answers to the methods the
    service calls.  The provider's own state is not part of the service: every theorem holds for
    any answers, and different calls may see different answers. *)
Record BaseDispositionAdapter : Type := {
  ad_name : string;
  ad_capabilities : DispositionAdapterCapabilities;
  ad_validate_command : DispositionCommand → result unit;
  ad_submit : DispositionCommand → result DispositionReceipt;
  ad_get_status : string → result (option DispositionReceipt);
  ad_lookup_submission : string → SourceObjectLocator → result (option DispositionReceipt);
  ad_confirm_readback : DispositionCommand → result (option DispositionReceipt)
}.

Definition allows_safe_retry (a : BaseDispositionAdapter) : bool :=
  supports_idempotency (ad_capabilities a) && supports_lookup_by_idempotency (ad_capabilities a).

(** ** Classification of failures *)

Definition _DETERMINISTIC_ADAPTER_REJECTION_CODES : list string :=
  ["not_found"; "unauthorized_field"; "invalid_operation"; "permission_denied"; "auth_error";
   "adapter_validation_error"; "idempotency_key_reuse"; "disposition_id_reuse";
   "writeback_unsupported"; "mock_validation_error"; "invalid_cursor"; "adapter_not_found"].

Definition is_deterministic_adapter_rejection_code (error_code : option string) : bool :=
  match error_code with
  | None => false
  | Some code =>
      if code ==? "" then false
      else if code ∈? _DETERMINISTIC_ADAPTER_REJECTION_CODES then true
      else startswith code "unsupported_"
  end.

Definition _DEAD_LETTER_METRIC_FALLBACK_CODE : string := "adapter_validation_error".

Definition bounded_dead_letter_error_code (error_code : option string) : string :=
  let rest :=
    if error_code ==? Some "version_conflict" then "version_conflict"
    else if error_code ==? Some "guardrail_blocked" then "guardrail_blocked"
    else _DEAD_LETTER_METRIC_FALLBACK_CODE in
  match error_code with
  | None => rest
  | Some code =>
      if (code !=? "") && is_deterministic_adapter_rejection_code error_code then
        if code ∈? _DETERMINISTIC_ADAPTER_REJECTION_CODES then code
        else if startswith code "unsupported_" then "unsupported"
        else rest
      else rest
  end.

Definition classify_disposition_delivery_error (exc : error) :
    DispositionDeliveryErrorKind * option string :=
  match err_class exc with
  | GuardrailViolationError => (DispositionDeliveryErrorKind.GUARDRAIL, Some (err_code exc))
  | WritebackConflictError => (DispositionDeliveryErrorKind.CONFLICT, Some (err_code exc))
  | WritebackUnsupportedError =>
      (DispositionDeliveryErrorKind.DETERMINISTIC_REJECTION, Some (err_code exc))
  | ValidationError =>
      if is_deterministic_adapter_rejection_code (Some (err_code exc))
      then (DispositionDeliveryErrorKind.DETERMINISTIC_REJECTION, Some (err_code exc))
      else (DispositionDeliveryErrorKind.AMBIGUOUS_OUTCOME, Some (err_code exc))
  | _ => (DispositionDeliveryErrorKind.AMBIGUOUS_OUTCOME, None)
  end.

(** ** Settings and the live fence *)

(** The settings the delivery path reads.  Seconds are whole numbers of the clock's unit. *)
Record DeliverySettings : Type := {
  st_block_live_action_execution : bool;
  st_disposition_mode : string;
  st_allow_xdr_writeback : bool;
  st_outbox_max_attempts : Z;
  st_outbox_retry_backoff : Z;
  st_outbox_retry_backoff_max : Z
}.

Definition mk_ValidationError (message : string) (details : list (string * pyval)) : error :=
  ShadowTraceError_init ValidationError message None details.

Definition assert_action_execution_not_frozen (settings : DeliverySettings)
    (action_id : option string) : result unit :=
  raise_if (st_block_live_action_execution settings)
    (mk_ValidationError ("live action execution is frozen (ISSUE-059 P0); " +++
        "set BLOCK_LIVE_ACTION_EXECUTION=false to allow execute_plan")
       (merge_optional "action_id" action_id [("block_live_action_execution", VBool true)])).

Definition assert_xdr_writeback_allowed (settings : DeliverySettings)
    (action_id : option string) (execution_owner : ExecutionOwner) : result unit :=
  if execution_owner !=? ExecutionOwner.XDR_MANAGED then Ok tt
  else
    raise_if (negb (is_mock_disposition_mode (st_disposition_mode settings))
              && negb (st_allow_xdr_writeback settings))
      (mk_ValidationError "xdr writeback is not enabled for live disposition mode"
         (merge_optional "action_id" action_id
            [("disposition_mode", VStr (st_disposition_mode settings))])).

Definition assert_writeback_side_effects_allowed (settings : DeliverySettings)
    (action_id : option string) (execution_owner : option ExecutionOwner) : result unit :=
  assert_action_execution_not_frozen settings action_id ;;
  match execution_owner with
  | None => Ok tt
  | Some owner => assert_xdr_writeback_allowed settings action_id owner
  end.

(** The side effects the settings allow, declaratively. *)
Definition side_effects_open (settings : DeliverySettings) (owner : option ExecutionOwner) :
    Prop :=
  st_block_live_action_execution settings = false ∧
  (owner = Some ExecutionOwner.XDR_MANAGED →
   st_allow_xdr_writeback settings = true ∨
   str_lower (str_strip (st_disposition_mode settings)) = "mock_xdr").

Lemma fence_open settings action_id owner :
  assert_writeback_side_effects_allowed settings action_id owner = Ok tt ↔
  side_effects_open settings owner.
Proof.
  unfold assert_writeback_side_effects_allowed, assert_action_execution_not_frozen,
    side_effects_open, assert_xdr_writeback_allowed, is_mock_disposition_mode.
  rewrite raise_if_seq_Ok.
  destruct owner as [o|]; [|naive_solver].
  destruct (decide (o = ExecutionOwner.XDR_MANAGED)) as [->|Hne].
  - rewrite (bool_decide_eq_true_2 (_ = _)) by done. cbn [negb]. run_ok.
    rewrite list_elem_of_singleton.
    destruct (st_allow_xdr_writeback settings), (decide (str_lower (str_strip
      (st_disposition_mode settings)) = "mock_xdr")); naive_solver.
  - rewrite (bool_decide_eq_false_2 (_ = _)) by done. naive_solver.
Qed.

(** ** Facts *)

(** A schema-valid command never claims one operation while carrying another, and a status
    update or an entity action is always managed by the source product. *)
Lemma validate_command_model_Ok c :
  validate_command_model c = Ok tt ↔
  dc_operation_code c = params_operation_code (dc_operation_params c) ∧
  match dc_operation_params c with
  | SetEventDispositionParams _ _ =>
      dc_intent_kind c = DispositionIntentKind.EVENT_STATUS_UPDATE ∧
      dc_execution_owner c = ExecutionOwner.XDR_MANAGED
  | SubmitEntityActionParams _ _ =>
      dc_intent_kind c = DispositionIntentKind.ENTITY_ACTION_SUBMIT ∧
      dc_execution_owner c = ExecutionOwner.XDR_MANAGED
  | RecordExecutionResultParams _ =>
      dc_intent_kind c = DispositionIntentKind.EXECUTION_RESULT_RECORD
  | RecordCompensationParams _ => dc_intent_kind c = DispositionIntentKind.COMPENSATION_RECORD
  end.
Proof.
  unfold validate_command_model, _direct_tool_cannot_submit_entity_action,
    _operation_code_and_intent_are_consistent.
  run_ok. destruct (dc_intent_kind c), (dc_execution_owner c), (dc_operation_params c); cbn;
    naive_solver.
Qed.

Lemma classify_deterministic exc code :
  classify_disposition_delivery_error exc =
    (DispositionDeliveryErrorKind.DETERMINISTIC_REJECTION, code) →
  (err_class exc = WritebackUnsupportedError ∨ err_class exc = ValidationError) ∧
  code = Some (err_code exc).
Proof.
  unfold classify_disposition_delivery_error. intros H.
  destruct (err_class exc); simplify_eq; auto. case_match; simplify_eq; auto.
Qed.
