(* ===== verification/OutboundGuard.v ===== *)
(** * The outbound disposition guard (core/guardrails.py, lines 642-920, and
      services/disposition_guard_context.py)

    The fail-closed check every command passes when it is enqueued and again before it is sent.
    The redaction of credential-shaped text ([redact_sensitive_text], regular expressions of
    core/sanitization.py) is the parameter [redact]. *)

From Stdlib Require Import Ascii.
From stdpp Require Import prelude strings pretty.
From S2P Require Import Prelude Enums Errors Db Disposition.

#[local] Open Scope string_scope.

(** ** Keys *)

Definition _ANALYSIS_KEY_FRAGMENTS : list string :=
  ["report"; "prompt"; "decision_trace"; "decisiontrace"; "evidence"; "evidence_list";
   "evidence_output"; "reasoning"; "analysis"; "narrative"; "raw_result"; "raw_payload";
   "storyline"; "trace"].

Definition analysis_tokens : list string :=
  ["report"; "prompt"; "evidence"; "reasoning"; "analysis"; "narrative"; "trace"; "password";
   "secret"; "authorization"; "cookie"; "raw"].

(** The character classes [[a-z0-9_]] and [[a-z0-9_\- .]]. *)
Definition is_lower_alnum (c : ascii) : bool :=
  let n := nat_of_ascii c in
  (Nat.leb 97 n && Nat.leb n 122) || (Nat.leb 48 n && Nat.leb n 57) || (c ==? "_"%char).

Definition is_message_char (c : ascii) : bool :=
  is_lower_alnum c || (c ==? "-"%char) || (c ==? " "%char) || (c ==? "."%char).

Fixpoint str_filter (p : ascii → bool) (s : string) : string :=
  match s with
  | EmptyString => EmptyString
  | String c s' => if p c then String c (str_filter p s') else str_filter p s'
  end.

Fixpoint str_forall (p : ascii → bool) (s : string) : bool :=
  match s with
  | EmptyString => true
  | String c s' => p c && str_forall p s'
  end.

(** [s.split(c)] *)
Fixpoint str_split (c : ascii) (s : string) : list string :=
  match s with
  | EmptyString => [EmptyString]
  | String d s' =>
      if d ==? c then EmptyString :: str_split c s'
      else match str_split c s' with
           | [] => [String d EmptyString]
           | w :: ws => String d w :: ws
           end
  end.

Definition _is_analysis_key (key : string) : bool :=
  let cleaned := str_filter is_lower_alnum (str_lower key) in
  (cleaned ∈? _ANALYSIS_KEY_FRAGMENTS)
  || existsb (λ token, token ∈? analysis_tokens) (str_split "_"%char cleaned).

(** ** Content *)

Definition analysis_markers : list string :=
  ["decision_trace"; "investigation report"; "system prompt"; "api_key"; "api key"; "bearer "].

Section guard.
Context (redact : string → string).

Definition suspicious_text (value : string) : bool :=
  existsb (λ marker, str_contains marker (str_lower value)) analysis_markers
  || (redact value !=? value).

Fixpoint _scan_analysis_content (value : pyval) (path : string)
    (skip_key_check_for : option (list string)) : list string :=
  match value with
  | VDict d =>
      (fix items (d : list (string * pyval)) : list string :=
         match d with
         | [] => []
         | (key_s, item) :: d' =>
             let child := if path ==? "" then key_s else path +++ "." +++ key_s in
             let skip_this_key := match skip_key_check_for with
                                  | Some keys => (key_s ∈? keys) && (path ==? "")
                                  | None => false
                                  end in
             ((if negb skip_this_key && _is_analysis_key key_s then [child] else [])
              ++ _scan_analysis_content item child None ++ items d')%list
         end) d
  | VList l =>
      (fix elems (index : nat) (l : list pyval) : list string :=
         match l with
         | [] => []
         | item :: l' =>
             (_scan_analysis_content item (path +++ "[" +++ pretty index +++ "]") None
              ++ elems (S index) l')%list
         end) 0 l
  | VStr value => if suspicious_text value then [if path ==? "" then "<value>" else path] else []
  | _ => []
  end.

Definition _MESSAGE_CODE_MAX_LENGTH : nat := 64.
Definition _MESSAGE_CODE_FALLBACK : string := "message_truncated".

(** The pattern [^[a-z0-9_\- .]+$] on a non-empty stripped text. *)
Definition allowlisted_message_code (value : option string) : option string :=
  match value with
  | None => None
  | Some value =>
      let stripped := str_strip value in
      if (value ==? "") || (stripped ==? "") then None
      else if Nat.ltb _MESSAGE_CODE_MAX_LENGTH (String.length stripped)
              || negb (str_forall is_message_char stripped)
              || negb (bool_decide (_scan_analysis_content (VStr stripped) "" None = []))
      then Some _MESSAGE_CODE_FALLBACK
      else Some stripped
  end.

(** ** Violations *)

Inductive GuardSeverity : Type := block | warn.

#[global] Instance GuardSeverity_eq_dec : EqDecision GuardSeverity.
Proof. solve_decision. Defined.

Record GuardViolation : Type := {
  gv_dimension : GuardRailDimension;
  gv_rule_name : string;
  gv_severity : GuardSeverity;
  gv_detail : string
}.

(** The part of the context mapping the guard reads. *)
Record GuardContext : Type := {
  gc_source_locator : option SourceObjectLocator;
  gc_approved_action_ids : option (list string)
}.

Definition blocking (dimension : GuardRailDimension) (rule detail : string) : GuardViolation :=
  {| gv_dimension := dimension; gv_rule_name := rule; gv_severity := block;
     gv_detail := detail |}.

Definition _DISPOSITION_ALLOWED_TOP_LEVEL : list string :=
  ["disposition_id"; "action_id"; "closure_cycle"; "intent_kind"; "source_locator";
   "operation_code"; "operation_params"; "target_results"; "operator_id"; "idempotency_key";
   "source_concurrency_token"; "execution_owner"; "parent_disposition_id";
   "supersedes_disposition_id"].

Definition locator_differs (actual trusted : SourceObjectLocator) : bool :=
  (loc_source_product actual !=? loc_source_product trusted)
  || (loc_source_tenant_id actual !=? loc_source_tenant_id trusted)
  || (loc_connector_id actual !=? loc_connector_id trusted)
  || (loc_source_object_id actual !=? loc_source_object_id trusted).

Fixpoint message_code_violations (index : nat) (targets : list TargetDispositionResult) :
    list GuardViolation :=
  match targets with
  | [] => []
  | t :: ts =>
      ((if bool_decide (td_message_code t = None) then []
        else if allowlisted_message_code (td_message_code t) !=? td_message_code t
        then [blocking GuardRailDimension.SANITIZATION "outbound_message_code_allowlist"
                ("target_results[" +++ pretty index +++ "].message_code is not a " +++
                 "short allowlisted code")]
        else []) ++ message_code_violations (S index) ts)%list
  end.

(** [_evaluate] on a [DispositionCommand], which is what the service passes: the schema branch
    for raw mappings does not arise. *)
Definition _evaluate (command : DispositionCommand) (context : GuardContext) :
    list GuardViolation :=
  let raw := command_dump command in
  let unknown :=
    List.filter (λ k, negb (k ∈? _DISPOSITION_ALLOWED_TOP_LEVEL)) (dict_keys raw) in
  let analysis_hits :=
    _scan_analysis_content (VDict raw) "" (Some _DISPOSITION_ALLOWED_TOP_LEVEL) in
  ((if bool_decide (unknown = []) then []
    else [blocking GuardRailDimension.POLICY "disposition_field_allowlist"
            ("outbound payload contains non-allowlisted fields: " +++ str_join ", " unknown)])
   ++ match gc_source_locator context with
      | Some trusted =>
          if locator_differs (dc_source_locator command) trusted
          then [blocking GuardRailDimension.POLICY "disposition_source_match"
                  "source_locator does not match trusted event source locator"]
          else []
      | None => []
      end
   ++ match gc_approved_action_ids context with
      | Some approved =>
          if dc_action_id command ∈? approved then []
          else [blocking GuardRailDimension.POLICY "disposition_approved_action"
                  ("action_id '" +++ dc_action_id command +++
                   "' is not in the approved action set")]
      | None => []
      end
   ++ message_code_violations 0 (dc_target_results command)
   ++ if bool_decide (analysis_hits = []) then []
      else [blocking GuardRailDimension.SANITIZATION "no_analysis_content_outbound"
              ("analysis/secret content is forbidden on outbound disposition payload: " +++
               str_join ", " (take 12 analysis_hits))])%list.

Definition violation_dump (v : GuardViolation) : pyval :=
  VDict [("dimension", VStr (enum_value (gv_dimension v)));
         ("rule_name", VStr (gv_rule_name v));
         ("severity", VStr (match gv_severity v with block => "block" | warn => "warn" end));
         ("detail", VStr (gv_detail v))].

(** [OutboundDispositionGuard.validate]: the violations of a command that passes, all of them
    warnings, or the exception. *)
Definition guard_validate (command : DispositionCommand) (context : GuardContext) :
    result (list GuardViolation) :=
  let violations := _evaluate command context in
  let blocked := List.filter (λ v, gv_severity v ==? block) violations in
  match blocked with
  | [] => Ok violations
  | _ => Err (ShadowTraceError_init GuardrailViolationError
                "outbound disposition guard blocked writeback payload"
                (Some "guardrail_violation")
                [("violations", VList (map violation_dump blocked))])
  end.
End guard.

(** ** The approved set *)

Definition _ACTIVE_APPROVAL_STATUSES : list string :=
  [enum_value ActionStatus.APPROVED; enum_value ActionStatus.EXECUTING].

(** The ids as a set; the source returns them sorted. *)
Definition resolve_approved_action_ids (db : Db) (event_id : string) (plan_revision : Z) :
    list string :=
  map act_action_id
    (List.filter (λ a, (act_event_id a ==? event_id) && (act_plan_revision a ==? plan_revision)
                       && (act_status a ∈? _ACTIVE_APPROVAL_STATUSES)
                       && bool_decide (act_superseded_by_revision a = None)) (db_actions db)).

(** ** What the guard decides *)

(** The strings and the keys inside a value. *)
Inductive leaf : pyval → string → Prop :=
| leaf_str s : leaf (VStr s) s
| leaf_list l v s : v ∈ l → leaf v s → leaf (VList l) s
| leaf_dict d k v s : (k, v) ∈ d → leaf v s → leaf (VDict d) s.

Inductive has_key : pyval → string → Prop :=
| key_here d k v : (k, v) ∈ d → has_key (VDict d) k
| key_list l v k : v ∈ l → has_key v k → has_key (VList l) k
| key_dict d k' v k : (k', v) ∈ d → has_key v k → has_key (VDict d) k.

Section guard_facts.
Context (redact : string → string).

(** Text that may leave: redaction leaves it alone and it carries no analysis marker. *)
Definition clean_text (s : string) : Prop :=
  redact s = s ∧ ∀ marker a b, marker ∈ analysis_markers → str_lower s ≠ a +++ marker +++ b.

Lemma suspicious_false s : suspicious_text redact s = false ↔ clean_text s.
Proof.
  unfold suspicious_text, clean_text. rewrite orb_false_iff, negb_false_iff, bool_decide_eq_true.
  rewrite <-not_true_iff_false, existsb_exists. split.
  - intros [Hn Hr]. split; [done|]. intros m a b Hm He. apply Hn. exists m.
    rewrite <-list_elem_of_In, str_contains_true. eauto.
  - intros [Hr Hn]. split; [|done]. intros (m & Hm & Hc).
    apply str_contains_true in Hc as (a & b & He). apply list_elem_of_In in Hm. by eapply Hn.
Qed.

Lemma scan_dict_nil d path skip :
  _scan_analysis_content redact (VDict d) path skip = [] ↔
  Forall (λ kv, (match skip with
                 | Some keys => bool_decide (kv.1 ∈ keys) && bool_decide (path = "")
                 | None => false
                 end = false → _is_analysis_key kv.1 = false) ∧
                _scan_analysis_content redact kv.2
                  (if path ==? "" then kv.1 else path +++ "." +++ kv.1) None = []) d.
Proof.
  induction d as [|[k v] d IH]; [done|]. rewrite Forall_cons.
  change (_scan_analysis_content redact (VDict ((k, v) :: d)) path skip) with
    ((if negb match skip with
              | Some keys => (k ∈? keys) && (path ==? "")
              | None => false
              end && _is_analysis_key k
      then [if path ==? "" then k else path +++ "." +++ k] else [])
     ++ _scan_analysis_content redact v (if path ==? "" then k else path +++ "." +++ k) None
     ++ _scan_analysis_content redact (VDict d) path skip)%list.
  rewrite !app_nil, IH. cbn [fst snd]. clear IH.
  destruct (match skip with Some _ => _ | None => _ end), (_is_analysis_key k); cbn [negb andb];
    naive_solver.
Qed.

Lemma scan_nil v : ∀ path, _scan_analysis_content redact v path None = [] ↔
  (∀ s, leaf v s → clean_text s) ∧ (∀ k, has_key v k → _is_analysis_key k = false).
Proof.
  induction v as [|b|z|s|l IH|d IH] using pyval_nested_ind; intros path.
  1-3: split; [intros _; split; intros ? H; inversion H|done].
  - cbn [_scan_analysis_content].
    assert ((∀ s', leaf (VStr s) s' → clean_text s') ↔ clean_text s) as ->.
    { split; [intros H; apply H; constructor|intros H s' Hs; by inversion Hs; subst]. }
    rewrite <-suspicious_false. destruct (suspicious_text redact s); [naive_solver|].
    split; [|done]. intros _. split; [done|]. intros k H. inversion H.
  - assert (∀ i, ((fix elems (index : nat) (l : list pyval) : list string :=
         match l with
         | [] => []
         | item :: l' =>
             (_scan_analysis_content redact item (path +++ "[" +++ pretty index +++ "]") None
              ++ elems (S index) l')%list
         end) i l = []) ↔
      Forall (λ v, (∀ s, leaf v s → clean_text s) ∧
                   (∀ k, has_key v k → _is_analysis_key k = false)) l) as Hl.
    { induction IH as [|v l Hv _ IHl]; intros i; [done|].
      rewrite app_nil, Hv, IHl, Forall_cons. done. }
    cbn [_scan_analysis_content]. rewrite (Hl 0), Forall_forall. split.
    + intros H. split.
      * intros s Hs. inversion Hs; subst. eapply H; eauto.
      * intros k Hk. inversion Hk; subst. eapply H; eauto.
    + intros [Hs Hk] v Hv. split; intros x Hx; [eapply Hs|eapply Hk]; econstructor; eauto.
  - rewrite scan_dict_nil, !Forall_forall in *. split.
    + intros H. split.
      * intros s Hs. inversion Hs as [| |? k v ? Hin Hv]; subst.
        destruct (H _ Hin) as [_ Hn]. cbn [snd] in Hn. rewrite (IH _ Hin) in Hn. by apply Hn.
      * intros k Hk. inversion Hk as [? ? v Hin| |? k' v ? Hin Hv]; subst.
        { by apply (H _ Hin). }
        destruct (H _ Hin) as [_ Hn]. cbn [snd] in Hn. rewrite (IH _ Hin) in Hn. by apply Hn.
    + intros [Hs Hk] [k v] Hin. cbn [fst snd]. split.
      * intros _. apply Hk. by econstructor.
      * rewrite (IH _ Hin). split; intros x Hx; [eapply Hs|eapply Hk]; by econstructor; eauto.
Qed.

(** The keys below the top level of a dumped command are none of the forbidden ones, so the
    guard never blocks a command for the names of its fields. *)
Definition nested_keys : list string :=
  ["source_product"; "source_tenant_id"; "connector_id"; "source_kind"; "source_object_type";
   "source_object_id"; "operation_code"; "target_disposition"; "comment_code";
   "entity_action_code"; "canonical_target"; "summary_code"; "status"; "provider_code";
   "message_code"; "artifact_ref"].

Lemma nested_keys_allowed k : k ∈ nested_keys → _is_analysis_key k = false.
Proof.
  assert (forallb (λ k, negb (_is_analysis_key k)) nested_keys = true) as H by by vm_compute.
  rewrite forallb_forall in H. intros Hk%list_elem_of_In%H. by apply negb_true_iff in Hk.
Qed.

(** A flat dict has only its own keys. *)
Definition flat (d : list (string * pyval)) : Prop :=
  Forall (λ kv, match kv.2 with VList _ | VDict _ => False | _ => True end) d.

Lemma flat_keys d k : flat d → has_key (VDict d) k → k ∈ dict_keys d.
Proof.
  intros Hf Hk. unfold flat in Hf. rewrite Forall_forall in Hf.
  inversion Hk as [? ? v Hin| |? k' v ? Hin Hv]; subst.
  - apply list_elem_of_fmap. by exists (k, v).
  - specialize (Hf _ Hin). destruct v; cbn in Hf; done || inversion Hv.
Qed.

Lemma flat_nested d k :
  flat d → forallb (λ k, k ∈? nested_keys) (dict_keys d) = true →
  has_key (VDict d) k → k ∈ nested_keys.
Proof.
  intros Hf Hd Hk%flat_keys; [|done]. rewrite forallb_forall in Hd.
  apply list_elem_of_In, Hd in Hk. by apply bool_decide_eq_true in Hk.
Qed.

Ltac flat_dump := repeat constructor; repeat match goal with
  |- context [opt_str ?o] => destruct o; cbn end; exact I.

Lemma command_nested_keys c v k :
  v ∈ (command_dump c).*2 → has_key v k → k ∈ nested_keys.
Proof.
  intros Hv Hk. unfold command_dump in Hv. cbn [fmap list_fmap snd] in Hv.
  repeat (apply elem_of_cons in Hv as [->|Hv]); try (by apply elem_of_nil in Hv);
    try (by inversion Hk);
    try (match type of Hk with has_key (opt_str ?o) _ => destruct o; by inversion Hk end).
  - eapply flat_nested; [| |exact Hk]; [flat_dump|by vm_compute].
  - destruct (dc_operation_params c); (eapply flat_nested; [| |exact Hk]);
      [flat_dump|by vm_compute|flat_dump|by vm_compute|flat_dump|by vm_compute|flat_dump|
       by vm_compute].
  - inversion Hk as [|? ? ? Hin Ht|]; subst. apply list_elem_of_fmap in Hin as (t & -> & _).
    eapply flat_nested; [| |exact Ht]; [flat_dump|by vm_compute].
Qed.

Lemma command_scan c :
  _scan_analysis_content redact (VDict (command_dump c)) ""
    (Some _DISPOSITION_ALLOWED_TOP_LEVEL) = [] ↔
  ∀ s, leaf (VDict (command_dump c)) s → clean_text s.
Proof.
  rewrite scan_dict_nil, Forall_forall. split.
  - intros H s Hs. inversion Hs as [| |? k v ? Hin Hv]; subst.
    destruct (H _ Hin) as [_ Hn]. apply scan_nil in Hn as [Hn _]. by apply Hn.
  - intros H [k v] Hin. cbn [fst snd]. split.
    + intros Hf. exfalso. apply not_true_iff_false in Hf. apply Hf.
      rewrite andb_true_iff, !bool_decide_eq_true. split; [|done].
      change (_DISPOSITION_ALLOWED_TOP_LEVEL) with (dict_keys (command_dump c)).
      apply list_elem_of_fmap. by exists (k, v).
    + apply scan_nil. split.
      * intros s Hs. apply H. by eapply leaf_dict.
      * intros k' Hk'. eapply nested_keys_allowed, command_nested_keys; [|done].
        apply list_elem_of_fmap. by exists (k, v).
Qed.

(** ** Message codes *)

(** A short code: not empty, at most 64 characters of [a-z0-9_- .], no space at either end. *)
Definition short_code (m : string) : Prop :=
  m ≠ "" ∧ str_strip m = m ∧ (String.length m ≤ 64)%nat ∧ str_forall is_message_char m = true.

Lemma short_code_fallback m : Some _MESSAGE_CODE_FALLBACK = Some m → short_code m.
Proof.
  intros H. injection H as H. subst m.
  split_and!; [done|by vm_compute|vm_compute; lia|by vm_compute].
Qed.

Lemma allowlisted_fixpoint m :
  clean_text m → allowlisted_message_code redact (Some m) = Some m ↔ short_code m.
Proof.
  intros Hc. unfold allowlisted_message_code.
  destruct (decide (m = "")) as [->|Hm].
  { split; [discriminate|by intros []]. }
  rewrite (bool_decide_eq_false_2 (m = "")) by done. cbn [orb].
  split.
  - case_bool_decide as Hs; [done|].
    destruct (Nat.ltb_spec _MESSAGE_CODE_MAX_LENGTH (String.length (str_strip m))); cbn [orb].
    { apply short_code_fallback. }
    destruct (str_forall is_message_char (str_strip m)) eqn:Hf; cbn [negb orb].
    + case_bool_decide; cbn [negb].
      * intros [= He]. rewrite He in *. split_and!; try done; unfold _MESSAGE_CODE_MAX_LENGTH in *; lia.
      * apply short_code_fallback.
    + apply short_code_fallback.
  - intros (_ & Hs & Hl & Hf). rewrite Hs, (bool_decide_eq_false_2 (m = "")), Hf by done.
    destruct (Nat.ltb_spec _MESSAGE_CODE_MAX_LENGTH (String.length m)); cbn [orb].
    { unfold _MESSAGE_CODE_MAX_LENGTH in *; lia. }
    cbn [negb orb]. cbn [_scan_analysis_content]. apply suspicious_false in Hc as ->. done.
Qed.

Lemma message_codes_ok ts : ∀ i,
  (∀ t m, t ∈ ts → td_message_code t = Some m → clean_text m) →
  message_code_violations redact i ts = [] ↔
  ∀ t m, t ∈ ts → td_message_code t = Some m → short_code m.
Proof.
  induction ts as [|t ts IH]; intros i Hc; cbn [message_code_violations].
  { split; [|done]. intros _ t m Ht. by apply elem_of_nil in Ht. }
  rewrite app_nil, IH by (intros; eapply Hc; [by right|done]).
  split.
  - intros [Ht Hts] t' m [->|Hin]%elem_of_cons Hm; [|by eapply Hts].
    rewrite Hm in Ht. case_bool_decide; [done|]. revert Ht.
    destruct (decide (allowlisted_message_code redact (Some m) = Some m)) as [He|He].
    + intros _. apply allowlisted_fixpoint; [|done]. eapply Hc; [by left|done].
    + by rewrite (bool_decide_eq_false_2 (_ = Some m)).
  - intros H. split; [|intros; eapply H; [by right|done]].
    destruct (td_message_code t) as [m|] eqn:Hm; [|done].
    rewrite (bool_decide_eq_false_2 (Some m = None)), bool_decide_eq_true_2; [done| |done].
    apply allowlisted_fixpoint; [eapply Hc|eapply H]; done || by left.
Qed.

Lemma guard_passes c ctx :
  (∃ vs, guard_validate redact c ctx = Ok vs) ↔ _evaluate redact c ctx = [].
Proof.
  unfold guard_validate.
  assert (List.filter (λ v, gv_severity v ==? block) (_evaluate redact c ctx) =
          _evaluate redact c ctx) as ->.
  { apply forallb_filter_id. unfold _evaluate.
    assert (∀ i ts, forallb (λ v, gv_severity v ==? block) (message_code_violations redact i ts)
              = true) as Hm.
    { intros i ts. revert i. induction ts as [|t ts IH]; intros i; cbn; [done|].
      rewrite forallb_app, IH, andb_true_r. by repeat case_match. }
    rewrite !forallb_app, Hm, !andb_true_iff. repeat split; by repeat case_match. }
  destruct (_evaluate redact c ctx); naive_solver.
Qed.

Lemma locator_block c o v :
  match o with
  | Some trusted => if locator_differs (dc_source_locator c) trusted then [v] else []
  | None => []
  end = ([] : list GuardViolation) ↔
  ∀ trusted, o = Some trusted →
    loc_source_product (dc_source_locator c) = loc_source_product trusted ∧
    loc_source_tenant_id (dc_source_locator c) = loc_source_tenant_id trusted ∧
    loc_connector_id (dc_source_locator c) = loc_connector_id trusted ∧
    loc_source_object_id (dc_source_locator c) = loc_source_object_id trusted.
Proof.
  destruct o as [tr|]; [|naive_solver]. unfold locator_differs.
  transitivity (locator_differs (dc_source_locator c) tr = false).
  { unfold locator_differs. case_match; naive_solver. }
  unfold locator_differs. run_ok. naive_solver.
Qed.

Lemma approved_block c (o : option (list string)) v :
  match o with
  | Some approved => if dc_action_id c ∈? approved then [] else [v]
  | None => []
  end = ([] : list GuardViolation) ↔ ∀ approved, o = Some approved → dc_action_id c ∈ approved.
Proof. destruct o as [ids|]; [|naive_solver]. case_bool_decide; naive_solver. Qed.

Lemma command_message_codes c i :
  _scan_analysis_content redact (VDict (command_dump c)) ""
    (Some _DISPOSITION_ALLOWED_TOP_LEVEL) = [] →
  message_code_violations redact i (dc_target_results c) = [] ↔
  ∀ t m, t ∈ dc_target_results c → td_message_code t = Some m → short_code m.
Proof.
  intros Hs. apply message_codes_ok. intros t m Ht Hm. apply command_scan with (s := m) in Hs; [done|].
  eapply leaf_dict with (k := "target_results"); [do 7 right; left|].
  apply (leaf_list _ (VDict (target_dump t))).
  - apply list_elem_of_fmap. eauto.
  - eapply leaf_dict with (k := "message_code"); [do 3 right; left|]. rewrite Hm. constructor.
Qed.
End guard_facts.

(** Whatever the context, a command that passes is clean. *)
Lemma outbound_guard_clean redact c ctx :
  (∃ vs, guard_validate redact c ctx = Ok vs) →
  ∀ s, leaf (VDict (command_dump c)) s → clean_text redact s.
Proof.
  rewrite guard_passes. unfold _evaluate. rewrite !app_nil. intros (_ & _ & _ & _ & H).
  apply command_scan. by case_bool_decide.
Qed.

(** The outbound guard decides exactly this: the command's locator is the trusted one, its
    Action is in the approved set (when the context gives them), every message code is a short
    code, and every text in the payload, at any depth, is untouched by redaction and free of
    analysis markers.  Field names never block a schema-valid command. *)
Theorem outbound_guard_exact redact c ctx :
  (∃ vs, guard_validate redact c ctx = Ok vs) ↔
  (∀ trusted, gc_source_locator ctx = Some trusted →
     loc_source_product (dc_source_locator c) = loc_source_product trusted ∧
     loc_source_tenant_id (dc_source_locator c) = loc_source_tenant_id trusted ∧
     loc_connector_id (dc_source_locator c) = loc_connector_id trusted ∧
     loc_source_object_id (dc_source_locator c) = loc_source_object_id trusted) ∧
  (∀ approved, gc_approved_action_ids ctx = Some approved → dc_action_id c ∈ approved) ∧
  (∀ t m, t ∈ dc_target_results c → td_message_code t = Some m → short_code m) ∧
  (∀ s, leaf (VDict (command_dump c)) s → clean_text redact s).
Proof.
  rewrite guard_passes. unfold _evaluate.
  rewrite (bool_decide_eq_true_2 (List.filter _ _ = [])) by done.
  rewrite !app_nil, locator_block, approved_block, <-command_scan.
  destruct (decide (_scan_analysis_content redact (VDict (command_dump c)) ""
                      (Some _DISPOSITION_ALLOWED_TOP_LEVEL) = [])) as [Hs|Hs].
  - rewrite (bool_decide_eq_true_2 _ Hs), command_message_codes by done. naive_solver.
  - rewrite (bool_decide_eq_false_2 _ Hs). naive_solver.
Qed.
