(* ===== verification/ExecutionResults.v ===== *)
(** * Receipts into execution records (adapters/_util.py, services/execution_job_persistence.py,
      providers/tools/mock_provider.py lines 121-224, services/action_execution_service.py
      lines 172-185)

    Sanitising a receipt before it is stored, mapping it to the execution job contract, and
    storing the per-target results of an attempt.  [redact_sensitive_text] (regular expressions)
    and [sanitize_raw_result] (which depends on [str] of arbitrary values) are parameters. *)

From stdpp Require Import prelude strings sorting.
From S2P Require Import Prelude Enums Errors Db Disposition.

#[local] Open Scope string_scope.

(** ** Sanitising *)

Record Sanitizer : Type := {
  redact_sensitive_text : string → string;
  sanitize_raw_result : list (string * pyval) → list (string * pyval)
}.

Section execution_results.
Context (sz : Sanitizer).

Definition redact_field (o : option string) : option string := redact_sensitive_text sz <$> o.

Definition sanitize_target (t : TargetWritebackResult) : TargetWritebackResult := {|
  tw_canonical_target := tw_canonical_target t; tw_status := tw_status t;
  tw_provider_code := redact_field (tw_provider_code t);
  tw_message_code := redact_field (tw_message_code t);
  tw_artifact_ref := redact_field (tw_artifact_ref t)
|}.

Definition sanitize_disposition_receipt (r : DispositionReceipt) : DispositionReceipt :=
  let raw_result := sanitize_raw_result sz (dr_raw_result r) in {|
  dr_writeback_id := dr_writeback_id r; dr_sequence := dr_sequence r;
  dr_disposition_id := dr_disposition_id r; dr_action_id := dr_action_id r;
  dr_source_record_id := dr_source_record_id r; dr_status := dr_status r;
  dr_confirmation_evidence := dr_confirmation_evidence r;
  dr_provider_record_id := dr_provider_record_id r;
  dr_provider_job_id := dr_provider_job_id r;
  dr_provider_code := redact_field (dr_provider_code r);
  dr_provider_message := redact_field (dr_provider_message r);
  dr_observed_at := dr_observed_at r; dr_submitted_at := dr_submitted_at r;
  dr_confirmed_at := dr_confirmed_at r;
  dr_target_results := map sanitize_target (dr_target_results r);
  dr_raw_result := raw_result;
  dr_truncated := dr_truncated r
                  || match dict_get raw_result "truncated" with
                     | Some (VBool true) => true | _ => false
                     end;
  dr_simulated := dr_simulated r
|}.

(** ** Jobs *)

Record TargetExecutionResult : Type := {
  te_canonical_target : string;
  te_status : TargetExecutionStatus;
  te_code : option string;
  te_message : option string;
  te_artifact_id : option string;
  te_raw_result : list (string * pyval)
}.

(** The fields of [ActionExecutionJob] that the receipt path sets or stores. *)
Record ActionExecutionJob : Type := {
  aj_job_id : string;
  aj_event_id : string;
  aj_action_id : string;
  aj_provider_name : string;
  aj_idempotency_key : string;
  aj_provider_job_id : option string;
  aj_status : ExecutionJobStatus;
  aj_claimed_by : option string;
  aj_lease_expires_at : option Z;
  aj_created_at : option Z;
  aj_updated_at : option Z;
  aj_started_at : option Z;
  aj_finished_at : option Z;
  aj_poll_after_ms : option Z;
  aj_attempt : Z;
  aj_target_results : list TargetExecutionResult;
  aj_provider_code : option string;
  aj_provider_message : option string;
  aj_raw_result : list (string * pyval)
}.

Definition XDR_PROVIDER_NAME : string := "mock_xdr".

Definition terminal_job_statuses : list ExecutionJobStatus :=
  [ExecutionJobStatus.PARTIAL_SUCCESS; ExecutionJobStatus.SUCCESS; ExecutionJobStatus.FAILED;
   ExecutionJobStatus.TIMED_OUT; ExecutionJobStatus.CANCELLED].

Definition receipt_status_map (s : WritebackStatus) : ExecutionJobStatus :=
  match s with
  | WritebackStatus.PENDING => ExecutionJobStatus.QUEUED
  | WritebackStatus.SENDING => ExecutionJobStatus.RUNNING
  | WritebackStatus.ACCEPTED => ExecutionJobStatus.RUNNING
  | WritebackStatus.CONFIRMED => ExecutionJobStatus.SUCCESS
  | WritebackStatus.PARTIAL => ExecutionJobStatus.PARTIAL_SUCCESS
  | WritebackStatus.FAILED => ExecutionJobStatus.FAILED
  | WritebackStatus.CONFLICT => ExecutionJobStatus.FAILED
  | WritebackStatus.UNKNOWN => ExecutionJobStatus.UNKNOWN
  end.

Definition target_status_map (s : TargetWritebackStatus) : TargetExecutionStatus :=
  match s with
  | TargetWritebackStatus.PENDING => TargetExecutionStatus.UNKNOWN
  | TargetWritebackStatus.ACCEPTED => TargetExecutionStatus.UNKNOWN
  | TargetWritebackStatus.CONFIRMED => TargetExecutionStatus.SUCCESS
  | TargetWritebackStatus.FAILED => TargetExecutionStatus.FAILED
  | TargetWritebackStatus.CONFLICT => TargetExecutionStatus.FAILED
  | TargetWritebackStatus.UNKNOWN => TargetExecutionStatus.UNKNOWN
  end.

(** [a or b] on optional time stamps. *)
Definition or_else {A} (a b : option A) : option A :=
  match a with Some _ => a | None => b end.

(** The caller gives [job_id] and [action_id], both non-empty. *)
Definition map_disposition_receipt_to_job (receipt : DispositionReceipt)
    (event_id idempotency_key job_id action_id : string) : ActionExecutionJob :=
  let receipt := sanitize_disposition_receipt receipt in
  let status :=
    if (dr_status receipt ==? WritebackStatus.ACCEPTED)
       && negb (bool_decide (dr_provider_job_id receipt = None))
    then ExecutionJobStatus.QUEUED
    else receipt_status_map (dr_status receipt) in
  {| aj_job_id := job_id; aj_event_id := event_id; aj_action_id := action_id;
     aj_provider_name := XDR_PROVIDER_NAME; aj_idempotency_key := idempotency_key;
     aj_provider_job_id := dr_provider_job_id receipt; aj_status := status;
     aj_claimed_by := None; aj_lease_expires_at := None;
     aj_created_at := dr_submitted_at receipt; aj_updated_at := dr_observed_at receipt;
     aj_started_at := if status !=? ExecutionJobStatus.QUEUED
                      then dr_submitted_at receipt else None;
     aj_finished_at := if status ∈? terminal_job_statuses
                       then or_else (dr_confirmed_at receipt) (dr_observed_at receipt)
                       else None;
     aj_poll_after_ms := None; aj_attempt := 0;
     aj_target_results :=
       map (λ item, {| te_canonical_target := tw_canonical_target item;
                       te_status := target_status_map (tw_status item);
                       te_code := tw_provider_code item; te_message := tw_message_code item;
                       te_artifact_id := tw_artifact_ref item; te_raw_result := [] |})
           (dr_target_results receipt);
     aj_provider_code := dr_provider_code receipt;
     aj_provider_message := dr_provider_message receipt;
     aj_raw_result :=
       sanitize_raw_result sz
         (dict_set (dict_set (dict_set (dr_raw_result receipt)
            "simulated" (VBool (dr_simulated receipt)))
            "writeback_id" (VStr (dr_writeback_id receipt)))
            "confirmation_evidence"
            (opt_str (enum_value <$> dr_confirmation_evidence receipt)))
  |}.

Definition _apply_job_row (row : JobRow) (job : ActionExecutionJob) (now : Z) : JobRow := {|
  job_job_id := job_job_id row; job_event_id := job_event_id row;
  job_action_id := job_action_id row; job_provider_name := aj_provider_name job;
  job_idempotency_key := job_idempotency_key row;
  job_provider_job_id := aj_provider_job_id job;
  job_status := enum_value (aj_status job); job_claimed_by := aj_claimed_by job;
  job_lease_expires_at := aj_lease_expires_at job; job_poll_after_ms := aj_poll_after_ms job;
  job_attempt := aj_attempt job; job_provider_code := aj_provider_code job;
  job_provider_message := aj_provider_message job; job_raw_result := aj_raw_result job;
  job_updated_at := now; job_started_at := aj_started_at job;
  job_finished_at := aj_finished_at job
|}.

(** ** Target results of one attempt *)

Definition sanitize_target_execution_result (t : TargetExecutionResult) :
    TargetExecutionResult := {|
  te_canonical_target := te_canonical_target t; te_status := te_status t;
  te_code := redact_field (te_code t); te_message := redact_field (te_message t);
  te_artifact_id := redact_field (te_artifact_id t);
  te_raw_result := sanitize_raw_result sz (te_raw_result t)
|}.

Definition target_result_from_row (row : TargetResultRow) : result TargetExecutionResult :=
  status ← enum_of_value_or_raise (tr_status row);
  Ok {| te_canonical_target := tr_canonical_target row; te_status := status;
        te_code := tr_code row; te_message := tr_message row;
        te_artifact_id := tr_artifact_id row; te_raw_result := tr_raw_result row |}.

Definition _target_identity_key (t : TargetExecutionResult) :
    string * string * option string * option string * option string :=
  (te_canonical_target t, enum_value (te_status t), te_code t, te_message t, te_artifact_id t).

(** [sorted(l, key=lambda item: item.canonical_target)]: stable. *)
Fixpoint insert_target (x : TargetExecutionResult) (l : list TargetExecutionResult) :
    list TargetExecutionResult :=
  match l with
  | [] => [x]
  | y :: l' => if String.leb (te_canonical_target x) (te_canonical_target y)
               then x :: l else y :: insert_target x l'
  end.

Definition sort_targets (l : list TargetExecutionResult) : list TargetExecutionResult :=
  foldr insert_target [] l.

Definition _normalize_targets (targets : list TargetExecutionResult) :
    list TargetExecutionResult :=
  sort_targets (map sanitize_target_execution_result targets).

Definition targets_match (existing incoming : list TargetExecutionResult) : bool :=
  if negb (Nat.eqb (length existing) (length incoming)) then false
  else bool_decide (map _target_identity_key (sort_targets existing) =
                    map _target_identity_key (sort_targets incoming)).

Fixpoint results_from_rows (rows : list TargetResultRow) : result (list TargetExecutionResult) :=
  match rows with
  | [] => Ok []
  | row :: rows' => t ← target_result_from_row row; ts ← results_from_rows rows'; Ok (t :: ts)
  end.

Definition row_of_attempt (job_id : string) (attempt : Z) (row : TargetResultRow) : bool :=
  (tr_job_id row ==? job_id) && (tr_attempt row ==? attempt).

(** [ORDER BY canonical_target]: the rows are read, then sorted. *)
Definition load_target_results_for_job (db : Db) (job_id : string) (attempt : Z) :
    result (list TargetExecutionResult) :=
  ts ← results_from_rows (List.filter (row_of_attempt job_id attempt) (db_target_results db));
  Ok (sort_targets ts).

Definition target_row (job_id : string) (attempt : Z) (t : TargetExecutionResult) :
    TargetResultRow := {|
  tr_job_id := job_id; tr_attempt := attempt; tr_canonical_target := te_canonical_target t;
  tr_status := enum_value (te_status t); tr_code := te_code t; tr_message := te_message t;
  tr_artifact_id := te_artifact_id t; tr_raw_result := te_raw_result t
|}.

Definition sync_target_results_in_tx (db : Db) (job_id : string) (attempt : Z)
    (targets : list TargetExecutionResult) : result (Db * bool) :=
  match targets with
  | [] => Ok (db, true)
  | _ =>
      let normalized := _normalize_targets targets in
      if negb (bool_decide (NoDup (map te_canonical_target normalized))) then Ok (db, false)
      else
        existing ← load_target_results_for_job db job_id attempt;
        match existing with
        | _ :: _ => Ok (db, targets_match existing normalized)
        | [] => Ok (db_with_results (db_receipts db)
                      (db_target_results db ++ map (target_row job_id attempt) normalized)%list
                      db, true)
        end
  end.
End execution_results.

(** ** Facts *)

Section facts.
Context (sz : Sanitizer).

Definition target_le (x y : TargetExecutionResult) : Prop :=
  String.leb (te_canonical_target x) (te_canonical_target y) = true.

Lemma insert_target_sorted x l :
  Sorted target_le l → Sorted target_le (insert_target x l).
Proof.
  induction 1 as [|y l Hl IH Hy]; cbn; [repeat constructor|].
  destruct (String.leb _ _) eqn:Hxy; [repeat constructor; done|].
  constructor; [done|].
  assert (target_le y x) as Hyx.
  { unfold target_le. destruct (String.leb_total (te_canonical_target x) (te_canonical_target y));
      congruence. }
  destruct l as [|z l]; cbn; [by constructor|].
  destruct (String.leb (te_canonical_target x) (te_canonical_target z)); constructor;
    [done|by inversion Hy].
Qed.

Lemma sort_targets_sorted l : Sorted target_le (sort_targets l).
Proof. induction l; cbn; [constructor|by apply insert_target_sorted]. Qed.

Lemma sort_targets_id l : Sorted target_le l → sort_targets l = l.
Proof.
  induction 1 as [|y l Hl IH Hy]; [done|].
  change (sort_targets (y :: l)) with (insert_target y (sort_targets l)). rewrite IH.
  destruct Hy as [|z l Hyz]; [done|]. cbn. by rewrite Hyz.
Qed.

Lemma sort_targets_idemp l : sort_targets (sort_targets l) = sort_targets l.
Proof. apply sort_targets_id, sort_targets_sorted. Qed.

Lemma results_from_stored job_id attempt l :
  results_from_rows (map (target_row job_id attempt) l) = Ok l.
Proof.
  induction l as [|t l IH]; [done|]. cbn. unfold target_result_from_row, enum_of_value_or_raise.
  cbn. rewrite enum_of_value_value. cbn. rewrite IH. by destruct t.
Qed.

Lemma results_from_rows_nil rows : results_from_rows rows = Ok [] → rows = [].
Proof.
  destruct rows as [|r rows]; [done|]. cbn. rewrite bind_Ok. intros (t & _ & H).
  apply bind_Ok in H as (ts & _ & [=]).
Qed.

Lemma sort_targets_nil l : sort_targets l = [] → l = [].
Proof.
  destruct l as [|x l]; [done|].
  change (sort_targets (x :: l)) with (insert_target x (sort_targets l)).
  destruct (sort_targets l); cbn; [done|]. by case_match.
Qed.

Lemma load_nil db job_id attempt :
  load_target_results_for_job db job_id attempt = Ok [] →
  List.filter (row_of_attempt job_id attempt) (db_target_results db) = [].
Proof.
  unfold load_target_results_for_job. rewrite bind_Ok. intros (ts & Hts & [= He]).
  apply sort_targets_nil in He as ->. by apply results_from_rows_nil in Hts.
Qed.

Lemma filter_own_rows job_id attempt l :
  List.filter (row_of_attempt job_id attempt) (map (target_row job_id attempt) l) =
  map (target_row job_id attempt) l.
Proof.
  apply forallb_filter_id, forallb_forall. intros r (t & <- & _)%in_map_iff.
  unfold row_of_attempt. cbn. by rewrite !bool_decide_eq_true_2.
Qed.

Lemma load_after_store db job_id attempt l :
  load_target_results_for_job db job_id attempt = Ok [] →
  load_target_results_for_job
    (db_with_results (db_receipts db)
       (db_target_results db ++ map (target_row job_id attempt) l)%list db) job_id attempt =
  Ok (sort_targets l).
Proof.
  intros Hn%load_nil. unfold load_target_results_for_job. cbn.
  rewrite List.filter_app, Hn, filter_own_rows. cbn. by rewrite results_from_stored.
Qed.

Lemma load_sorted db job_id attempt ts :
  load_target_results_for_job db job_id attempt = Ok ts → sort_targets ts = ts.
Proof.
  unfold load_target_results_for_job. rewrite bind_Ok. intros (l & _ & [= <-]).
  apply sort_targets_idemp.
Qed.

Lemma targets_match_sorted existing incoming :
  sort_targets existing = existing → sort_targets incoming = incoming →
  targets_match existing incoming = true ↔
  map _target_identity_key existing = map _target_identity_key incoming.
Proof.
  intros He Hi. unfold targets_match. rewrite He, Hi.
  destruct (Nat.eqb_spec (length existing) (length incoming)) as [Hl|Hl]; cbn [negb].
  - apply bool_decide_eq_true.
  - split; [done|]. intros Hm. apply (f_equal length) in Hm. by rewrite !length_map in Hm.
Qed.
End facts.

(** Rows of the results table appended. *)
Definition add_results (db : Db) (rows : list TargetResultRow) : Db :=
  db_with_results (db_receipts db) (db_target_results db ++ rows)%list db.

Lemma add_no_results db : add_results db [] = db.
Proof. unfold add_results. rewrite app_nil_r. by destruct db. Qed.

(** Rows of the attempt that read back with the identities of the (redacted, sorted) targets. *)
Definition holds_results sz (db : Db) (job_id : string) (attempt : Z)
    (targets : list TargetExecutionResult) : Prop :=
  NoDup (map te_canonical_target (_normalize_targets sz targets)) ∧
  ∃ stored, load_target_results_for_job db job_id attempt = Ok stored ∧
    map _target_identity_key stored = map _target_identity_key (_normalize_targets sz targets).

(** C17. The results of an attempt are written once and read back.  A synchronisation that returns
    changes nothing but the results table, and there only appends rows of this attempt, and only
    when it had none: no row of any job is changed or lost.  Given targets, it reports success
    exactly when they are pairwise distinct after redaction and the attempt's stored results have
    the identities of the redacted targets; given none it reports success and writes nothing.
    Repeating it changes nothing and reports the same. *)
Theorem target_results_write_once sz db job_id attempt targets db' ok :
  sync_target_results_in_tx sz db job_id attempt targets = Ok (db', ok) →
  (∃ rows, db' = add_results db rows ∧
     Forall (λ r, row_of_attempt job_id attempt r = true) rows ∧
     (rows ≠ [] → List.filter (row_of_attempt job_id attempt) (db_target_results db) = []) ∧
     (targets = [] → rows = [])) ∧
  (ok = true ↔ targets = [] ∨ holds_results sz db' job_id attempt targets) ∧
  sync_target_results_in_tx sz db' job_id attempt targets = Ok (db', ok).
Proof.
  intros Hs.
  assert (sort_targets (_normalize_targets sz targets) = _normalize_targets sz targets) as Hn
    by apply sort_targets_idemp.
  assert (∃ rows, db = add_results db rows ∧ Forall (λ r, row_of_attempt job_id attempt r = true)
    rows ∧ (rows ≠ [] → List.filter (row_of_attempt job_id attempt) (db_target_results db) = []) ∧
    (targets = [] → rows = [])) as Hsame by (exists []; by rewrite add_no_results).
  unfold sync_target_results_in_tx, holds_results in *. destruct targets as [|t0 ts0].
  { injection Hs as <- <-. naive_solver. }
  assert (_normalize_targets sz (t0 :: ts0) ≠ []) as Hnn by (by intros He%sort_targets_nil).
  set (targets := t0 :: ts0) in *. assert (targets ≠ []) as Hne by done. clearbody targets.
  destruct (decide (NoDup (map te_canonical_target (_normalize_targets sz targets)))) as [Hd|Hd];
    [rewrite bool_decide_eq_true_2 in * by done|rewrite bool_decide_eq_false_2 in * by done];
    cbn [negb] in *; [|by injection Hs as <- <-; naive_solver].
  apply bind_Ok in Hs as (existing & Hl & Hs). destruct existing as [|e0 es].
  - injection Hs as <- <-. rewrite load_after_store, Hn by done. split_and!.
    + eexists. split_and!; [done| |by intros _; apply load_nil|done].
      rewrite Forall_map. apply Forall_true. intros t. unfold row_of_attempt. cbn.
      by rewrite !bool_decide_eq_true_2.
    + naive_solver.
    + cbn. destruct (_normalize_targets sz targets) as [|n ns] eqn:En; [done|].
      by rewrite (proj2 (targets_match_sorted _ _ Hn Hn)).
  - injection Hs as <- <-. rewrite Hl. split_and!; [done| |done].
    rewrite targets_match_sorted by (done || by eapply load_sorted). naive_solver.
Qed.
