(* ===== verification/Verification.v ===== *)
(** * Verification results and the terminal disposition

    The verification payload of backend/app/models/agent_io.py, the readiness predicates of
    backend/app/models/verification_readiness.py, the resolver of
    backend/app/services/terminal_disposition_resolver.py and the approved list the response
    agent plans with (backend/app/agents/response_agent.py). *)

From stdpp Require Import prelude strings.
From S2P Require Import Prelude Enums Errors Tables Db.

#[local] Open Scope string_scope.

(** ** Payload *)

Record VerificationActionResult : Type := {
  var_action_id : string;
  var_effect_status : EffectStatus;
  var_writeback_required : bool;
  var_writeback_readiness : WritebackReadiness;
  var_writeback_status : option WritebackStatus;
  var_writeback_ids : list string;
  var_verification_action_id : option string;
  var_detail : option string;
  var_verification_action_dirty : bool;
  var_verification_phase : option VerificationPhase;
  var_confirmation_evidence : option string
}.

(** [_writeback_fields_are_consistent] *)
Definition _writeback_fields_are_consistent (r : VerificationActionResult) : bool :=
  if negb (var_writeback_required r) then
    (var_writeback_readiness r ==? WritebackReadiness.NOT_REQUIRED)
    && (var_writeback_status r ==? None)
  else if var_writeback_readiness r ==? WritebackReadiness.NOT_REQUIRED then
    var_effect_status r ∈? [EffectStatus.UNVERIFIABLE; EffectStatus.SKIPPED]
  else true.

#[global] Instance VerificationActionResult_eq_dec : EqDecision VerificationActionResult.
Proof. solve_decision. Defined.

Record VerificationResult : Type := {
  vr_results : list VerificationActionResult;
  vr_overall_status : VerificationOverallStatus;
  vr_failed_actions : list string;
  vr_failed_writebacks : list string;
  vr_recoverable_writeback_ids : list string;
  vr_pending_writeback_action_ids : list string;
  vr_blocked_writebacks : list string;
  vr_need_action_replan : bool;
  vr_need_writeback_recovery : bool;
  vr_need_manual_resolution : bool;
  vr_verification_phase : VerificationPhase;
  vr_wm_persisted : bool;
  vr_publish_failures : list string
}.

Definition deferred_skipped (item : VerificationActionResult) : bool :=
  (var_effect_status item ==? EffectStatus.SKIPPED)
  && (var_detail item ==? Some "deferred_pending_activation").

(** [_deferred_skipped_not_in_failed_actions] *)
Definition _deferred_skipped_not_in_failed_actions (v : VerificationResult) : bool :=
  forallb (λ item, negb (deferred_skipped item && (var_action_id item ∈? vr_failed_actions v)))
    (vr_results v).

(** ** Readiness predicates *)

Definition IMMEDIATE_PENDING_SKIP_DETAILS : list string :=
  ["pending_execution"; "approved_pending_execution"; "action_not_executed"].

Definition detail_in (o : option string) (l : list string) : bool :=
  match o with Some d => d ∈? l | None => false end.

(** [results] overrides the rows of the verification, as the keyword argument does. *)
Definition has_immediate_effect_pending (verification : option VerificationResult)
    (results : option (list VerificationActionResult)) : bool :=
  let rows := match results with
              | Some r => r
              | None => match verification with Some v => vr_results v | None => [] end
              end in
  existsb (λ item, (var_effect_status item ==? EffectStatus.SKIPPED)
                   && detail_in (var_detail item) IMMEDIATE_PENDING_SKIP_DETAILS) rows.

Definition applicable_effect_results (verification : option VerificationResult) :
    list VerificationActionResult :=
  match verification with
  | None => []
  | Some v => List.filter (λ item, negb (deferred_skipped item)) (vr_results v)
  end.

Definition all_verified (l : list VerificationActionResult) : bool :=
  forallb (λ item, var_effect_status item ==? EffectStatus.VERIFIED) l.

Definition has_unverified_applicable_effects (verification : option VerificationResult) :
    bool :=
  match applicable_effect_results verification with
  | [] => false
  | applicable => negb (all_verified applicable)
  end.

Definition entity_effect_verified_for_action (verification : option VerificationResult)
    (action_id : string) : bool :=
  match verification with
  | None => false
  | Some v =>
      existsb (λ item, (var_action_id item ==? action_id)
                       && (var_verification_phase item ==? Some VerificationPhase.EFFECT)
                       && (var_effect_status item ==? EffectStatus.VERIFIED)) (vr_results v)
  end.

(** ** The resolver *)

Inductive SkippedReason : Type :=
| terminal_not_in_approved_set
| capability_blocked
| verdict_not_terminal.

Record TerminalDispositionResolveResult : Type := {
  tdr_disposition : option SourceDisposition;
  tdr_skipped_reason : option SkippedReason;
  tdr_need_manual_resolution : bool
}.

Definition resolved_nothing : TerminalDispositionResolveResult :=
  {| tdr_disposition := None; tdr_skipped_reason := None; tdr_need_manual_resolution := false |}.
Definition skipped (r : SkippedReason) : TerminalDispositionResolveResult :=
  {| tdr_disposition := None; tdr_skipped_reason := Some r;
     tdr_need_manual_resolution := false |}.
Definition manual (r : option SkippedReason) : TerminalDispositionResolveResult :=
  {| tdr_disposition := None; tdr_skipped_reason := r; tdr_need_manual_resolution := true |}.
Definition resolved_to (d : SourceDisposition) : TerminalDispositionResolveResult :=
  {| tdr_disposition := Some d; tdr_skipped_reason := None;
     tdr_need_manual_resolution := false |}.

Definition _NON_TERMINAL_VERDICTS : list FinalVerdict :=
  [FinalVerdict.NONE; FinalVerdict.POSSIBLE_FALSE_POSITIVE].

Definition _THREAT_NON_BLOCKING_SKIPPED_DETAILS : list string :=
  ["non_verifiable_action"; "writeback_not_applicable"].

Definition non_blocking_skip (item : VerificationActionResult) : bool :=
  (var_effect_status item ==? EffectStatus.SKIPPED)
  && detail_in (var_detail item) _THREAT_NON_BLOCKING_SKIPPED_DETAILS.

(** [SUSPENDED if approved else None] *)
Definition suspended_if_approved (approved_set : list SourceDisposition) :
    option SourceDisposition :=
  if SourceDisposition.SUSPENDED ∈? approved_set then Some SourceDisposition.SUSPENDED else None.

(** The end of [_threat_terminal]: the verdict of the effect results alone. *)
Definition threat_by_effects (raw_applicable : list VerificationActionResult)
    (approved_set : list SourceDisposition) : option SourceDisposition :=
  let applicable := List.filter (λ item, negb (non_blocking_skip item)) raw_applicable in
  if negb (bool_decide (raw_applicable = [])) && bool_decide (applicable = []) then None
  else if existsb (λ item, var_effect_status item ==? EffectStatus.FAILED) applicable
  then suspended_if_approved approved_set
  else if negb (bool_decide (applicable = [])) && negb (all_verified applicable)
  then suspended_if_approved approved_set
  else if SourceDisposition.CONTAINED ∈? approved_set then Some SourceDisposition.CONTAINED
  else if SourceDisposition.COMPLETED ∈? approved_set then Some SourceDisposition.COMPLETED
  else None.

Definition _threat_terminal (verification : option VerificationResult)
    (approved_set : list SourceDisposition) : option SourceDisposition :=
  match verification with
  | None => None
  | Some v =>
      if vr_need_action_replan v || vr_need_manual_resolution v then None
      else if has_immediate_effect_pending verification None then None
      else if vr_overall_status v ==? VerificationOverallStatus.FAILED then None
      else if vr_overall_status v ==? VerificationOverallStatus.PARTIAL
      then suspended_if_approved approved_set
      else if vr_overall_status v !=? VerificationOverallStatus.SUCCESS then None
      else threat_by_effects (applicable_effect_results verification) approved_set
  end.

Record ResolveArgs : Type := {
  ra_final_verdict : FinalVerdict;
  ra_verification : option VerificationResult;
  ra_approved_terminal_dispositions : list SourceDisposition;
  ra_disposition_only : bool;
  ra_disposition_policy : DispositionPolicy;
  ra_writeback_readiness : WritebackReadiness;
  ra_event_disposition_supported : bool
}.

Definition approved_or_skipped (approved_set : list SourceDisposition) (d : SourceDisposition) :
    TerminalDispositionResolveResult :=
  if negb (d ∈? approved_set) then skipped terminal_not_in_approved_set else resolved_to d.

(** [TerminalDispositionResolver.resolve] *)
Definition resolve (a : ResolveArgs) : TerminalDispositionResolveResult :=
  let approved_set := ra_approved_terminal_dispositions a in
  let verification := ra_verification a in
  if ra_disposition_policy a ==? DispositionPolicy.NOT_REQUIRED then resolved_nothing
  else if negb (ra_event_disposition_supported a)
          || (ra_writeback_readiness a ∈? [WritebackReadiness.CAPABILITY_UNSUPPORTED;
                                           WritebackReadiness.CAPABILITY_UNKNOWN;
                                           WritebackReadiness.NOT_CONFIGURED])
  then skipped capability_blocked
  else if ra_disposition_only a then
    if ra_final_verdict a !=? FinalVerdict.FALSE_POSITIVE then
      if ra_final_verdict a ∈? _NON_TERMINAL_VERDICTS then manual (Some verdict_not_terminal)
      else manual None
    else approved_or_skipped approved_set SourceDisposition.IGNORED
  else match ra_final_verdict a with
       | FinalVerdict.FALSE_POSITIVE =>
           if has_immediate_effect_pending verification None then manual None
           else if has_unverified_applicable_effects verification then manual None
           else approved_or_skipped approved_set SourceDisposition.IGNORED
       | FinalVerdict.CONFIRMED_THREAT =>
           match _threat_terminal verification approved_set with
           | None => manual None
           | Some resolved => approved_or_skipped approved_set resolved
           end
       | _ => manual (Some verdict_not_terminal)
       end.

(** What the response agent approves: [final_verdict] may be an enum member, raw text or None. *)
Inductive verdict_arg : Type :=
| VerdictEnum (v : FinalVerdict)
| VerdictRaw (raw : string)
| VerdictNone.

Definition approved_terminal_for_context (disposition_only : bool) (final_verdict : verdict_arg) :
    list SourceDisposition :=
  let verdict := match final_verdict with
                 | VerdictEnum v => Some v
                 | VerdictRaw raw => enum_of_value raw
                 | VerdictNone => None
                 end in
  if disposition_only || (verdict ==? Some FinalVerdict.FALSE_POSITIVE)
  then [SourceDisposition.IGNORED]
  else [SourceDisposition.CONTAINED; SourceDisposition.COMPLETED].

(** ** What the resolver guarantees *)

(** An applicable result that does not stand in the way of containment. *)
Definition effect_settled (item : VerificationActionResult) : Prop :=
  var_effect_status item = EffectStatus.VERIFIED ∨ non_blocking_skip item = true.

(** The evidence behind CONTAINED and COMPLETED. *)
Record containment_evidence (v : VerificationResult) : Prop := {
  ce_success : vr_overall_status v = VerificationOverallStatus.SUCCESS;
  ce_no_replan : vr_need_action_replan v = false;
  ce_no_manual : vr_need_manual_resolution v = false;
  ce_no_pending : has_immediate_effect_pending (Some v) None = false;
  ce_settled : ∀ item, item ∈ applicable_effect_results (Some v) → effect_settled item;
  ce_some_verified : applicable_effect_results (Some v) ≠ [] →
    ∃ item, item ∈ applicable_effect_results (Some v) ∧
      var_effect_status item = EffectStatus.VERIFIED
}.

Lemma suspended_if_approved_Some approved d :
  suspended_if_approved approved = Some d → d = SourceDisposition.SUSPENDED.
Proof. unfold suspended_if_approved. case_bool_decide; naive_solver. Qed.

Lemma all_verified_true l :
  all_verified l = true ↔ ∀ item, item ∈ l → var_effect_status item = EffectStatus.VERIFIED.
Proof.
  unfold all_verified. rewrite forallb_forall. setoid_rewrite bool_decide_eq_true.
  by setoid_rewrite list_elem_of_In.
Qed.

Definition first_choice (approved : list SourceDisposition) (d : SourceDisposition) : Prop :=
  d = SourceDisposition.CONTAINED ∨
  d = SourceDisposition.COMPLETED ∧ SourceDisposition.CONTAINED ∉ approved.

Lemma threat_by_effects_Some raw approved d :
  threat_by_effects raw approved = Some d →
  d = SourceDisposition.SUSPENDED ∨
  (∀ item, item ∈ raw → effect_settled item) ∧
  (raw ≠ [] → ∃ item, item ∈ raw ∧ var_effect_status item = EffectStatus.VERIFIED) ∧
  first_choice approved d.
Proof.
  unfold threat_by_effects. set (app := List.filter _ raw).
  assert (Happ : ∀ item, item ∈ app ↔ item ∈ raw ∧ non_blocking_skip item = false)
    by (intros item; unfold app; by rewrite in_where, negb_true_iff).
  destruct (_ && _) eqn:Eempty; [done|].
  destruct (existsb _ app); [intros ?%suspended_if_approved_Some; by left|].
  destruct (_ && negb (all_verified app)) eqn:Ever;
    [intros ?%suspended_if_approved_Some; by left|].
  intros Hd. right. split_and!.
  - intros item Hi. unfold effect_settled.
    destruct (non_blocking_skip item) eqn:En; [by right|left].
    apply andb_false_iff in Ever as [Ee|Ev]; bool_props.
    + assert (item ∈ app) as Ha by (by apply Happ). rewrite Ee in Ha. by apply elem_of_nil in Ha.
    + by eapply all_verified_true, Happ.
  - intros Hne. destruct app as [|a app'] eqn:Ea.
    + by rewrite (bool_decide_eq_false_2 (raw = [])), bool_decide_eq_true_2 in Eempty.
    + exists a. split; [by apply (Happ a); left|]. cbn in Ever.
      rewrite negb_false_iff in Ever. by bool_props.
  - unfold first_choice. repeat case_bool_decide; naive_solver.
Qed.

Lemma threat_terminal_Some verification approved d :
  _threat_terminal verification approved = Some d →
  d = SourceDisposition.SUSPENDED ∨
  (∃ v, verification = Some v ∧ containment_evidence v) ∧ first_choice approved d.
Proof.
  unfold _threat_terminal. destruct verification as [v|]; [|done].
  destruct (vr_need_action_replan v) eqn:Er, (vr_need_manual_resolution v) eqn:Em; try done.
  destruct (has_immediate_effect_pending (Some v) None) eqn:Ep; [done|]; cbn [orb].
  destruct (vr_overall_status v) eqn:Es; cbn; try done;
    [|intros ?%suspended_if_approved_Some; by left].
  intros [?|(?&?&?)]%threat_by_effects_Some; [by left|right].
  split; [|done]. exists v. by split.
Qed.

Lemma approved_or_skipped_Some approved d d' :
  tdr_disposition (approved_or_skipped approved d) = Some d' → d' = d ∧ d ∈ approved.
Proof. unfold approved_or_skipped. case_bool_decide; naive_solver. Qed.

Record resolution (a : ResolveArgs) (d : SourceDisposition) : Prop := {
  rs_required : ra_disposition_policy a = DispositionPolicy.REQUIRED;
  rs_capable : ra_event_disposition_supported a = true ∧
    ra_writeback_readiness a ∉ [WritebackReadiness.CAPABILITY_UNSUPPORTED;
      WritebackReadiness.CAPABILITY_UNKNOWN; WritebackReadiness.NOT_CONFIGURED];
  rs_approved : d ∈ ra_approved_terminal_dispositions a;
  rs_verdict :
    (d = SourceDisposition.IGNORED ∧ ra_final_verdict a = FinalVerdict.FALSE_POSITIVE ∧
     (ra_disposition_only a = false →
      has_immediate_effect_pending (ra_verification a) None = false ∧
      has_unverified_applicable_effects (ra_verification a) = false)) ∨
    (ra_final_verdict a = FinalVerdict.CONFIRMED_THREAT ∧ ra_disposition_only a = false ∧
     (d = SourceDisposition.SUSPENDED ∨
      (∃ v, ra_verification a = Some v ∧ containment_evidence v) ∧
      first_choice (ra_approved_terminal_dispositions a) d))
}.

Lemma resolve_Some a d : tdr_disposition (resolve a) = Some d → resolution a d.
Proof.
  unfold resolve. destruct (ra_disposition_policy a) eqn:Ep; [|done]. cbn [bool_decide].
  rewrite bool_decide_eq_false_2 by done.
  destruct (_ || _) eqn:Ec; [done|]. apply orb_false_iff in Ec as [Es Er]. bool_props.
  destruct (ra_disposition_only a) eqn:Ed.
  - case_bool_decide as Hv; cbn [negb]; [|by case_bool_decide].
    intros [-> ?]%approved_or_skipped_Some. split; [done|done|done|].
    left. split_and!; [done|done|intros; split; congruence].
  - destruct (ra_final_verdict a) eqn:Ev; try done.
    + destruct (has_immediate_effect_pending (ra_verification a) None) eqn:Ei; [done|].
      destruct (has_unverified_applicable_effects (ra_verification a)) eqn:Eu; [done|].
      intros [-> ?]%approved_or_skipped_Some. split; [done|done|done|].
    left. split_and!; [done|done|intros; split; congruence].
    + destruct (_threat_terminal _ _) as [r|] eqn:Et; [|done].
      intros [-> ?]%approved_or_skipped_Some. split; [done|done|done|]. right.
      apply threat_terminal_Some in Et. naive_solver.
Qed.

(** The resolver only proposes a disposition the approver allowed, on a required policy with a
    capable connector: IGNORED for a false positive with no pending or unverified effect,
    CONTAINED or COMPLETED for a confirmed threat whose verification succeeded with every
    applicable effect verified (or harmlessly skipped, at least one verified), SUSPENDED
    otherwise. *)
Theorem resolver_sound (a : ResolveArgs) (d : SourceDisposition) :
  tdr_disposition (resolve a) = Some d → resolution a d.
Proof. apply resolve_Some. Qed.

(** The resolver and the CLOSED gate agree: on the list the response agent plans with, the
    resolver picks its first element, the one the gate compares the writeback with. *)
Theorem resolver_picks_gate_disposition (a : ResolveArgs) (only : bool) (verdict : verdict_arg)
    (d : SourceDisposition) :
  ra_approved_terminal_dispositions a = approved_terminal_for_context only verdict →
  tdr_disposition (resolve a) = Some d →
  head (approved_terminal_for_context only verdict) = Some d ∧
  d ∈ TERMINAL_SOURCE_DISPOSITIONS.
Proof.
  intros Ha [_ _ Hd Hv]%resolve_Some. rewrite Ha in *. clear Ha.
  unfold approved_terminal_for_context, first_choice in *.
  destruct (_ || _); set_solver.
Qed.
