(* ===== verification/CloseGate.v ===== *)
(** * CLOSED gate projections from the database
      (backend/app/services/writeback_close_gate.py)

    The queries that build the Action views of the CLOSED gate, the Close API's error mapping, and
    what a view says about the rows it was built from. *)

From stdpp Require Import prelude strings sorting.
From S2P Require Import Prelude Enums Errors Tables Convergence Workflow WorkflowFacts Db.

#[local] Open Scope string_scope.

(** ** Close API errors *)

Definition dict_opt (k : string) (v : option string) (d : list (string * pyval)) :
    list (string * pyval) := merge_optional k v d.

Definition api_error (c : error_class) (message : string) (details : list (string * pyval)) :
    result unit :=
  Err (ShadowTraceError_init c message None details).

(** Map a shared violation to Close API HTTP domain errors; never returns. *)
Definition raise_api_writeback_gate_error (v : WritebackCloseGateViolation)
    (event_id : string) : result unit :=
  let details := dict_opt "writeback_status" (wcv_writeback_status v)
                   (dict_opt "readiness" (wcv_writeback_readiness v)
                      (dict_opt "action_id" (wcv_action_id v) [("event_id", VStr event_id)])) in
  let status := wcv_writeback_status v in
  match wcv_reason v with
  | WritebackCloseGateReason.NO_APPLICABLE =>
      api_error WritebackUnsupportedError
        "required disposition_policy but no disposition Action configured" details
  | WritebackCloseGateReason.READINESS_NOT_READY =>
      api_error WritebackUnsupportedError
        ("writeback readiness is " +++ default "None" (wcv_writeback_readiness v)) details
  | WritebackCloseGateReason.NO_COMMAND =>
      api_error WritebackUnsupportedError
        "required writeback Action has no disposition command" details
  | WritebackCloseGateReason.INTENTS_NOT_CONFIRMED =>
      if status ==? Some (enum_value WritebackStatus.FAILED)
      then api_error WritebackFailedError "writeback failed" details
      else if status ==? Some (enum_value WritebackStatus.CONFLICT)
      then api_error WritebackConflictError "writeback conflict" details
      else api_error WritebackPendingError "required writeback intents are not all CONFIRMED"
             details
  | WritebackCloseGateReason.STATUS_NOT_CONFIRMED =>
      if status ==? Some (enum_value WritebackStatus.FAILED)
      then api_error WritebackFailedError "writeback failed" details
      else if status ==? Some (enum_value WritebackStatus.CONFLICT)
      then api_error WritebackConflictError "writeback conflict" details
      else
        let pending_label := if truthy_str status then default "" status
                             else enum_value WritebackStatus.PENDING in
        api_error WritebackPendingError ("writeback is " +++ pending_label) details
  end.

(** ** Queries *)

Definition outbox_confirmed (o : OutboxRow) : bool :=
  ob_latest_writeback_status o ==? Some (enum_value WritebackStatus.CONFIRMED).

(** [DispositionOutbox.action_id == action_id, superseded_by_disposition_id IS NULL] *)
Definition active_outbox_of (action_id : string) (o : OutboxRow) : bool :=
  (ob_action_id o ==? action_id) && (ob_superseded_by_disposition_id o ==? None).

(** Return True when every active outbox record for [action_id] is CONFIRMED. *)
Definition all_intents_confirmed_for_action (db : Db) (action_id : string) : bool :=
  match List.filter (active_outbox_of action_id) (db_outboxes db) with
  | [] => false
  | outboxes => forallb outbox_confirmed outboxes
  end.

(** The statuses the loop of [worst_unconfirmed_outbox_status] collects. *)
Definition unconfirmed_statuses (outboxes : list OutboxRow) : list WritebackStatus :=
  omap (λ o, match ob_latest_writeback_status o with
             | None => None
             | Some raw => if raw ==? enum_value WritebackStatus.CONFIRMED then None
                           else enum_of_value raw
             end) outboxes.

Definition worst_unconfirmed_outbox_status (outboxes : list OutboxRow) :
    option WritebackStatus :=
  match unconfirmed_statuses outboxes with
  | [] => None
  | (first :: _) as parsed =>
      if WritebackStatus.CONFLICT ∈? parsed then Some WritebackStatus.CONFLICT
      else if WritebackStatus.FAILED ∈? parsed then Some WritebackStatus.FAILED
      else Some first
  end.

(** [ORDER BY created_at ASC, outbox_id ASC] *)
Definition outbox_le (o1 o2 : OutboxRow) : Prop :=
  (ob_created_at o1 < ob_created_at o2)%Z ∨
  (ob_created_at o1 = ob_created_at o2 ∧ String.leb (ob_outbox_id o1) (ob_outbox_id o2) = true).

#[global] Instance outbox_le_dec : RelDecision outbox_le.
Proof. intros o1 o2. unfold outbox_le. apply _. Defined.

Definition load_active_outboxes (db : Db) (action_id : string) : list OutboxRow :=
  merge_sort outbox_le (List.filter (active_outbox_of action_id) (db_outboxes db)).

Definition action_has_job_or_outbox (db : Db) (action_id : string) : bool :=
  existsb (λ j, job_action_id j ==? action_id) (db_jobs db)
  || existsb (λ o, ob_action_id o ==? action_id) (db_outboxes db).

(** The loop body of [build_closed_gate_actions]. *)
Definition closed_gate_action_view (db : Db) (action_row : ActionRow) :
    result ClosedGateActionView :=
  cat ← enum_of_value_or_raise (act_action_category action_row);
  let readiness :=
    if act_writeback_readiness action_row ==? "" then WritebackReadiness.NOT_CONFIGURED
    else enum_or (act_writeback_readiness action_row) WritebackReadiness.NOT_CONFIGURED in
  let wb_status := if truthy_str (act_writeback_status action_row)
                   then act_writeback_status action_row ≫= enum_of_value else None in
  let active_outboxes := load_active_outboxes db (act_action_id action_row) in
  let has_command := negb (Nat.eqb (length active_outboxes) 0) in
  let phase_raw := if act_execution_phase action_row ==? "" then "immediate"
                   else act_execution_phase action_row in
  Ok {| cga_action_id := act_action_id action_row;
        cga_action_category := cat;
        cga_writeback_required := act_writeback_required action_row;
        cga_writeback_applicable := act_writeback_applicable action_row;
        cga_writeback_readiness := readiness;
        cga_writeback_status := wb_status;
        cga_has_command := has_command;
        cga_all_required_intents_confirmed :=
          has_command && forallb outbox_confirmed active_outboxes;
        cga_worst_unconfirmed_outbox_status :=
          if has_command then worst_unconfirmed_outbox_status active_outboxes else None;
        cga_execution_phase := enum_or phase_raw ActionExecutionPhase.IMMEDIATE;
        cga_tool_name := Some (act_tool_name action_row);
        cga_approved_terminal_dispositions :=
          omap (λ raw, enum_of_value (py_str raw))
            (act_approved_terminal_dispositions action_row);
        cga_superseded := match act_superseded_by_revision action_row with
                          | Some r => r !=? 0%Z | None => false end;
        cga_rejected := act_status action_row ==? enum_value ActionStatus.REJECTED;
        cga_has_job_or_outbox := action_has_job_or_outbox db (act_action_id action_row) |}.

(** The where clause of the current revision's response and rollback Actions. *)
Definition gate_row (event_id : string) (current_revision : Z) (a : ActionRow) : bool :=
  (act_event_id a ==? event_id) && (act_plan_revision a ==? current_revision)
  && (act_action_category a ∈? [enum_value ActionCategory.RESPONSE;
                                enum_value ActionCategory.ROLLBACK])
  && (act_superseded_by_revision a ==? None).

Fixpoint mapM_result {A B} (f : A → result B) (l : list A) : result (list B) :=
  match l with
  | [] => Ok []
  | x :: l' => y ← f x; ys ← mapM_result f l'; Ok (y :: ys)
  end.

(** Collect applicable-required response/rollback Actions for the CLOSED gate. *)
Definition build_closed_gate_actions (db : Db) (event_id : string)
    (current_revision : option Z) : result (list ClosedGateActionView) :=
  match current_revision with
  | None => Ok []
  | Some rev =>
      mapM_result (closed_gate_action_view db)
        (List.filter (gate_row event_id rev) (db_actions db))
  end.

(** ** What the views say about the rows *)

Lemma mapM_result_Ok {A B} (f : A → result B) l ys :
  mapM_result f l = Ok ys ↔ Forall2 (λ x y, f x = Ok y) l ys.
Proof.
  revert ys. induction l as [|x l IH]; intros ys; cbn [mapM_result].
  - split; [by intros [= <-]|]. by intros ->%Forall2_nil_inv_l.
  - rewrite bind_Ok. split.
    + intros (y & Hy & (ys' & Hys & [= <-])%bind_Ok). constructor; [done|]. by apply IH.
    + intros (y & ys' & Hy & Hys%IH & ->)%Forall2_cons_inv_l.
      exists y. split; [done|]. apply bind_Ok. eauto.
Qed.

(** A live command of an Action: one no later disposition superseded. *)
Definition live_command (db : Db) (aid : string) (o : OutboxRow) : Prop :=
  o ∈ db_outboxes db ∧ ob_action_id o = aid ∧ ob_superseded_by_disposition_id o = None.

Lemma in_active_outboxes db aid o :
  o ∈ List.filter (active_outbox_of aid) (db_outboxes db) ↔ live_command db aid o.
Proof. rewrite in_where. unfold active_outbox_of, live_command. by run_ok. Qed.

Lemma in_load_active_outboxes db aid o :
  o ∈ load_active_outboxes db aid ↔ live_command db aid o.
Proof.
  unfold load_active_outboxes. by rewrite merge_sort_Permutation, in_active_outboxes.
Qed.

Lemma active_outboxes_nonempty db aid :
  negb (Nat.eqb (length (load_active_outboxes db aid)) 0) = true ↔
  ∃ o, live_command db aid o.
Proof.
  setoid_rewrite <-in_load_active_outboxes.
  destruct (load_active_outboxes db aid) as [|o l]; cbn; split; try set_solver.
Qed.

Lemma forallb_elem {A} (p : A → bool) l : forallb p l = true ↔ ∀ x, x ∈ l → p x = true.
Proof. rewrite forallb_forall. by setoid_rewrite list_elem_of_In. Qed.

(** The rows behind a confirmed view: at least one live command, and every live command
    CONFIRMED. *)
Definition commands_confirmed (db : Db) (aid : string) : Prop :=
  (∃ o, live_command db aid o) ∧
  ∀ o, live_command db aid o → ob_latest_writeback_status o = Some (enum_value WritebackStatus.CONFIRMED).

Lemma intents_confirmed_true db aid :
  let l := load_active_outboxes db aid in
  negb (Nat.eqb (length l) 0) && forallb outbox_confirmed l = true ↔ commands_confirmed db aid.
Proof.
  cbn. unfold commands_confirmed.
  rewrite andb_true_iff, active_outboxes_nonempty, forallb_elem.
  setoid_rewrite in_load_active_outboxes. unfold outbox_confirmed.
  setoid_rewrite bool_decide_eq_true. naive_solver.
Qed.

Lemma all_intents_confirmed_true db aid :
  all_intents_confirmed_for_action db aid = true ↔ commands_confirmed db aid.
Proof.
  unfold all_intents_confirmed_for_action, commands_confirmed.
  setoid_rewrite <-in_active_outboxes.
  destruct (List.filter _ _) as [|o l] eqn:E.
  - split; [done|]. intros [(o & Ho) _]. by apply elem_of_nil in Ho.
  - rewrite forallb_elem. unfold outbox_confirmed. setoid_rewrite bool_decide_eq_true.
    split; [|naive_solver]. intros Hl. split; [|done]. exists o. set_solver.
Qed.

(** ISSUE-185: a gate view reports its intents confirmed exactly when the shared query does,
    that is when the Action has a live outbox row and all of them are CONFIRMED; superseded rows
    never count. *)
Theorem view_confirmed_iff_rows (db : Db) (a : ActionRow) (v : ClosedGateActionView) :
  closed_gate_action_view db a = Ok v →
  (cga_has_command v = true ∧ cga_all_required_intents_confirmed v = true ↔
   commands_confirmed db (act_action_id a)) ∧
  cga_all_required_intents_confirmed v = all_intents_confirmed_for_action db (act_action_id a).
Proof.
  unfold closed_gate_action_view. intros (cat & _ & [= <-])%bind_Ok; cbn [cga_has_command
    cga_all_required_intents_confirmed].
  pose proof (intents_confirmed_true db (act_action_id a)) as Hi.
  pose proof (all_intents_confirmed_true db (act_action_id a)) as Ha. cbn in Hi. split.
  - rewrite <-Hi. rewrite andb_true_iff. tauto.
  - apply eq_true_iff_eq. by rewrite Hi, Ha.
Qed.

(** ** The reported status *)

Lemma in_unconfirmed_statuses outboxes s :
  s ∈ unconfirmed_statuses outboxes ↔
  s ≠ WritebackStatus.CONFIRMED ∧
  ∃ o, o ∈ outboxes ∧ ob_latest_writeback_status o = Some (enum_value s).
Proof.
  unfold unconfirmed_statuses. rewrite list_elem_of_omap. split.
  - intros (o & Ho & Hs). destruct (ob_latest_writeback_status o) as [raw|] eqn:Er; [|done].
    case_bool_decide as Hc; [done|]. apply enum_of_value_Some in Hs as ->.
    rewrite enum_value_eq in Hc. eauto.
  - intros (Hne & o & Ho & Hs). exists o. split; [done|]. rewrite Hs.
    rewrite bool_decide_eq_false_2 by by rewrite enum_value_eq. by apply enum_of_value_Some.
Qed.

Definition severity_rank (s : WritebackStatus) : nat :=
  match s with WritebackStatus.CONFLICT => 2 | WritebackStatus.FAILED => 1 | _ => 0 end.

(** The status reported for an unconfirmed Action is one some live outbox row really has, is
    never CONFIRMED, and no live row has a more severe one (CONFLICT above FAILED above the
    rest). *)
Theorem worst_status_is_worst (outboxes : list OutboxRow) (s : WritebackStatus) :
  worst_unconfirmed_outbox_status outboxes = Some s →
  s ∈ unconfirmed_statuses outboxes ∧ s ≠ WritebackStatus.CONFIRMED ∧
  ∀ o s', o ∈ outboxes → ob_latest_writeback_status o = Some (enum_value s') →
    s' ≠ WritebackStatus.CONFIRMED → (severity_rank s' ≤ severity_rank s)%nat.
Proof.
  unfold worst_unconfirmed_outbox_status. intros Hs.
  assert (s ∈ unconfirmed_statuses outboxes ∧
    ∀ s', s' ∈ unconfirmed_statuses outboxes → (severity_rank s' ≤ severity_rank s)%nat) as [Hin Hmax].
  { destruct (unconfirmed_statuses outboxes) as [|f l]; [done|].
    repeat case_bool_decide; injection Hs as <-.
    - split; [done|]. intros s' _. destruct s'; cbn; lia.
    - split; [done|]. intros s' Hs'. destruct s'; cbn; first [lia|done].
    - split; [set_solver|]. intros s' Hs'. destruct s'; cbn; first [lia|done]. }
  split_and!; [done|by apply in_unconfirmed_statuses in Hin as []|].
  intros o s' Ho Hr Hne. apply Hmax, in_unconfirmed_statuses. eauto.
Qed.

(** ** The gate on rows *)

(** A row whose view counts for the REQUIRED predicate. *)
Record gate_action_row (event_id : string) (rev : Z) (a : ActionRow) : Prop := {
  gar_event : act_event_id a = event_id;
  gar_revision : act_plan_revision a = rev;
  gar_category : act_action_category a = enum_value ActionCategory.RESPONSE ∨
                 act_action_category a = enum_value ActionCategory.ROLLBACK;
  gar_live : act_superseded_by_revision a = None;
  gar_required : act_writeback_required a = true;
  gar_applicable : act_writeback_applicable a = true;
  gar_not_rejected : act_status a ≠ enum_value ActionStatus.REJECTED
}.

Record writeback_confirmed_row (db : Db) (a : ActionRow) : Prop := {
  wcr_ready : act_writeback_readiness a = enum_value WritebackReadiness.READY;
  wcr_status : act_writeback_status a = Some (enum_value WritebackStatus.CONFIRMED);
  wcr_commands : commands_confirmed db (act_action_id a)
}.

Lemma gate_row_true event_id rev a :
  gate_row event_id rev a = true ↔
  act_event_id a = event_id ∧ act_plan_revision a = rev ∧
  (act_action_category a = enum_value ActionCategory.RESPONSE ∨
   act_action_category a = enum_value ActionCategory.ROLLBACK) ∧
  act_superseded_by_revision a = None.
Proof. unfold gate_row. run_ok. set_solver. Qed.

Lemma view_gate_action db event_id rev a v :
  gate_row event_id rev a = true → closed_gate_action_view db a = Ok v →
  gate_action v ↔ gate_action_row event_id rev a.
Proof.
  intros (He & Hr & Hc & Hs)%gate_row_true (cat & Hcat & [= <-])%bind_Ok. run_ok.
  rewrite Hs. split.
  - intros []. cbn in *. bool_props. by split.
  - intros []. split; cbn; try done.
    + rewrite Hcat in Hc. destruct Hc as [?%(inj _)|?%(inj _)]; auto.
    + by apply bool_decide_eq_false.
Qed.

Lemma enum_or_eq {A} `{StrEnum A} raw (d x : A) :
  x ≠ d → enum_or raw d = x ↔ raw = enum_value x.
Proof.
  intros Hne. unfold enum_or. rewrite <-enum_of_value_Some.
  destruct (enum_of_value raw) as [y|]; cbn; naive_solver.
Qed.

Lemma parsed_readiness_ready raw :
  (if raw ==? "" then WritebackReadiness.NOT_CONFIGURED
   else enum_or raw WritebackReadiness.NOT_CONFIGURED) = WritebackReadiness.READY
  ↔ raw = enum_value WritebackReadiness.READY.
Proof. case_bool_decide as E; [by rewrite E|by apply enum_or_eq]. Qed.

Lemma parsed_status_confirmed o :
  (if truthy_str o then o ≫= enum_of_value else None) = Some WritebackStatus.CONFIRMED
  ↔ o = Some (enum_value WritebackStatus.CONFIRMED).
Proof.
  destruct o as [raw|]; [|done]. cbn [truthy_str].
  case_bool_decide as E; cbn [negb]; [by rewrite E|].
  cbn [mbind option_bind]. rewrite enum_of_value_Some. naive_solver.
Qed.

Lemma view_writeback_confirmed db a v :
  closed_gate_action_view db a = Ok v → writeback_confirmed v ↔ writeback_confirmed_row db a.
Proof.
  intros (cat & _ & [= <-])%bind_Ok.
  pose proof (intents_confirmed_true db (act_action_id a)) as Hi. cbn [andb] in Hi.
  split.
  - intros [Hr _ Hc Hs]. cbn [cga_writeback_readiness cga_all_required_intents_confirmed
      cga_writeback_status] in *.
    split; [by apply parsed_readiness_ready|by apply parsed_status_confirmed|by apply Hi].
  - intros [Hr Hs Hc]. apply Hi in Hc as Hb. split; cbn [cga_writeback_readiness
      cga_all_required_intents_confirmed cga_writeback_status cga_has_command].
    + by apply parsed_readiness_ready.
    + by apply andb_true_iff in Hb as [].
    + done.
    + by apply parsed_status_confirmed.
Qed.

Definition required_rows_confirmed (db : Db) (event_id : string) (rev : Z) : Prop :=
  (∃ a, a ∈ db_actions db ∧ gate_action_row event_id rev a) ∧
  ∀ a, a ∈ db_actions db → gate_action_row event_id rev a → writeback_confirmed_row db a.

Lemma gate_action_row_selected event_id rev a :
  gate_action_row event_id rev a → gate_row event_id rev a = true.
Proof. intros []. by apply gate_row_true. Qed.

Lemma views_of_rows db event_id rev views :
  build_closed_gate_actions db event_id (Some rev) = Ok views →
  (∀ v, v ∈ views → ∃ a, a ∈ db_actions db ∧ gate_row event_id rev a = true ∧
     closed_gate_action_view db a = Ok v) ∧
  (∀ a, a ∈ db_actions db → gate_row event_id rev a = true →
     ∃ v, v ∈ views ∧ closed_gate_action_view db a = Ok v).
Proof.
  intros Hf%mapM_result_Ok. split.
  - intros v Hv. eapply list_elem_of_lookup in Hv as [i Hi].
    destruct (Forall2_lookup_r _ _ _ _ _ Hf Hi) as (a & Ha & Hav).
    apply list_elem_of_lookup_2, in_where in Ha as []. eauto.
  - intros a Ha Hg. assert (a ∈ List.filter (gate_row event_id rev) (db_actions db)) as Hin
      by by apply in_where.
    apply list_elem_of_lookup in Hin as [i Hi].
    destruct (Forall2_lookup_l _ _ _ _ _ Hf Hi) as (v & Hv & Hav).
    exists v. split; [by eapply list_elem_of_lookup_2|done].
Qed.

Lemma gate_on_rows db event_id rev views :
  build_closed_gate_actions db event_id (Some rev) = Ok views →
  check_required_writeback_close_gate views = None ↔ required_rows_confirmed db event_id rev.
Proof.
  intros Hb. rewrite check_required_writeback_close_gate_None.
  destruct (views_of_rows _ _ _ _ Hb) as [Hv Ha]. split.
  - intros [(v & Hin & Hgv) Hall]. split.
    + destruct (Hv v Hin) as (a & Hina & Hg & Hav). exists a. split; [done|].
      by eapply view_gate_action.
    + intros a Hina Hga. destruct (Ha a Hina) as (v' & Hin' & Hav);
        [by apply gate_action_row_selected|].
      eapply view_writeback_confirmed; [done|]. apply Hall; [done|].
      by eapply view_gate_action; [apply gate_action_row_selected|..].
  - intros [(a & Hina & Hga) Hall]. split.
    + destruct (Ha a Hina) as (v & Hin & Hav); [by apply gate_action_row_selected|].
      exists v. split; [done|]. by eapply view_gate_action; [apply gate_action_row_selected|..].
    + intros v Hin Hgv. destruct (Hv v Hin) as (a' & Hina' & Hg & Hav).
      eapply view_writeback_confirmed; [done|]. apply Hall; [done|].
      by eapply view_gate_action.
Qed.

(** C13. Refinement of the writeback predicate: built from the database, the gate passes exactly
    when the current plan revision has an applicable required Action and each of them is READY,
    CONFIRMED, and has only CONFIRMED live commands, at least one. *)
Theorem writeback_gate_refines_rows (db : Db) (event_id : string) (rev : Z)
    (views : list ClosedGateActionView) :
  build_closed_gate_actions db event_id (Some rev) = Ok views →
  check_required_writeback_close_gate views = None ↔ required_rows_confirmed db event_id rev.
Proof. apply gate_on_rows. Qed.

(** Close API and state machine agree on the class of refusal: a violation is never silently
    dropped, and the API answers 409 with [writeback_failed] or [writeback_conflict] exactly when
    the reported status is FAILED or CONFLICT, 409 pending for other unconfirmed writebacks and
    422 unsupported when there is nothing to confirm. *)
Theorem api_gate_error_classified (v : WritebackCloseGateViolation) (event_id : string) :
  ∃ e, raise_api_writeback_gate_error v event_id = Err e ∧
  (err_class e = WritebackFailedError ↔
     wcv_reason v ∈ [WritebackCloseGateReason.INTENTS_NOT_CONFIRMED;
                     WritebackCloseGateReason.STATUS_NOT_CONFIRMED] ∧
     wcv_writeback_status v = Some (enum_value WritebackStatus.FAILED)) ∧
  (err_class e = WritebackConflictError ↔
     wcv_reason v ∈ [WritebackCloseGateReason.INTENTS_NOT_CONFIRMED;
                     WritebackCloseGateReason.STATUS_NOT_CONFIRMED] ∧
     wcv_writeback_status v = Some (enum_value WritebackStatus.CONFLICT)) ∧
  (err_status e = 422%Z ↔
     wcv_reason v ∈ [WritebackCloseGateReason.NO_APPLICABLE;
                     WritebackCloseGateReason.READINESS_NOT_READY;
                     WritebackCloseGateReason.NO_COMMAND]) ∧
  dict_get (err_details e) "event_id" = Some (VStr event_id).
Proof.
  destruct v as [reason aid rd st]. unfold raise_api_writeback_gate_error, api_error;
    cbn [wcv_reason wcv_writeback_status wcv_writeback_readiness wcv_action_id].
  assert (Hd : dict_get (dict_opt "writeback_status" st (dict_opt "readiness" rd
    (dict_opt "action_id" aid [("event_id", VStr event_id)]))) "event_id"
    = Some (VStr event_id)) by by destruct st, rd, aid.
  destruct reason; try case_bool_decide as Hf; try case_bool_decide as Hc;
    eexists; (split; [reflexivity|]); cbn; split_and!; try done; set_solver.
Qed.
