(* ===== verification/SideEffects.v ===== *)
(** * Side-effect convergence from the database
      (backend/app/services/side_effect_convergence.py)

    What has not converged for each response or rollback Action: jobs, outbox deliveries, writebacks
    and entity effects.  [parse_verification] is pydantic's [VerificationResult.model_validate] on
    a JSON value, [None] where it raises. *)

From stdpp Require Import prelude strings gmap.
From S2P Require Import Prelude Enums Errors Tables Convergence Db Verification CloseGate.

#[local] Open Scope string_scope.

(** ** Constants *)

Definition _ACTIVE_JOB_STATUSES : list ExecutionJobStatus :=
  [ExecutionJobStatus.QUEUED; ExecutionJobStatus.RUNNING].
Definition _TERMINAL_JOB_STATUSES : list ExecutionJobStatus :=
  [ExecutionJobStatus.SUCCESS; ExecutionJobStatus.PARTIAL_SUCCESS].
Definition _UNDELIVERED_OUTBOX_STATUSES : list OutboxDeliveryStatus :=
  [OutboxDeliveryStatus.READY; OutboxDeliveryStatus.LEASED; OutboxDeliveryStatus.WAITING_RETRY;
   OutboxDeliveryStatus.PAUSED; OutboxDeliveryStatus.DEAD_LETTER].
Definition _UNCONFIRMED_WRITEBACK_PRIORITIES : list WritebackStatus :=
  [WritebackStatus.CONFLICT; WritebackStatus.FAILED; WritebackStatus.SENDING;
   WritebackStatus.PENDING].
Definition _ENTITY_OUTBOX_FAILURE_STATUSES : list WritebackStatus :=
  [WritebackStatus.FAILED; WritebackStatus.CONFLICT].

(** The keys of [ENTITY_ACTION_EFFECT_SPECS] (backend/app/models/disposition.py). *)
Definition ENTITY_ACTION_EFFECT_SPECS_keys : list string :=
  ["block_ip"; "block_domain"; "block_process"; "isolate_host"; "quarantine_file";
   "scan_host_for_virus"; "disable_account"; "force_logout"; "reset_password"; "revoke_token"].

(** ** Parsing columns *)

Definition _parse_action_status (raw : string) : ActionStatus := enum_or raw ActionStatus.PENDING.

Definition _parse_exec_phase (raw : option string) : ActionExecutionPhase :=
  if truthy_str raw then enum_or (default "" raw) ActionExecutionPhase.IMMEDIATE
  else ActionExecutionPhase.IMMEDIATE.

Definition job_status_of (j : JobRow) : option ExecutionJobStatus := enum_of_value (job_status j).

Definition _action_has_active_job (action_id : string) (jobs_by_action : gmap string JobRow) :
    option ExecutionJobStatus :=
  job ← jobs_by_action !! action_id;
  status ← job_status_of job;
  if status ∈? _ACTIVE_JOB_STATUSES then Some status else None.

Definition entity_submit (o : OutboxRow) : bool :=
  ob_intent_kind o ==? enum_value DispositionIntentKind.ENTITY_ACTION_SUBMIT.

Definition _resolve_convergence_policy (action_row : ActionRow)
    (active_outboxes : list OutboxRow) : SideEffectConvergencePolicy :=
  if act_writeback_applicable action_row then SideEffectConvergencePolicy.TERMINAL_WRITEBACK
  else if existsb entity_submit active_outboxes
  then SideEffectConvergencePolicy.INDEPENDENT_ENTITY_EFFECT
  else if (act_execution_owner action_row ==? Some (enum_value ExecutionOwner.XDR_MANAGED))
          && act_writeback_required action_row
          && (act_tool_name action_row ∈? ENTITY_ACTION_EFFECT_SPECS_keys)
  then SideEffectConvergencePolicy.INDEPENDENT_ENTITY_EFFECT
  else SideEffectConvergencePolicy.EXECUTION_JOB_ONLY.

Definition _job_terminal_success (job : option JobRow) : bool :=
  match job ≫= job_status_of with
  | Some status => status ∈? _TERMINAL_JOB_STATUSES
  | None => false
  end.

(** ** Outbox checks: [Some reason] blocks *)

Definition delivery_blocks (o : OutboxRow) : bool :=
  match enum_of_value (ob_delivery_status o) with
  | None => true
  | Some delivery => delivery ∈? _UNDELIVERED_OUTBOX_STATUSES
  end.

Definition _outbox_blocks_terminal_writeback (outbox : OutboxRow) :
    option SideEffectConvergenceReason :=
  let wb_raw := ob_latest_writeback_status outbox in
  if truthy_str wb_raw && (wb_raw !=? Some (enum_value WritebackStatus.CONFIRMED))
  then Some SideEffectConvergenceReason.TERMINAL_WRITEBACK_UNCONFIRMED
  else if delivery_blocks outbox then Some SideEffectConvergenceReason.OUTBOX_UNDELIVERED
  else None.

Definition _outbox_blocks_entity_effect (outbox : OutboxRow) :
    option SideEffectConvergenceReason :=
  if delivery_blocks outbox then Some SideEffectConvergenceReason.OUTBOX_UNDELIVERED
  else
    let wb_raw := ob_latest_writeback_status outbox in
    if negb (truthy_str wb_raw) then None
    else match wb_raw ≫= enum_of_value with
         | None => Some SideEffectConvergenceReason.OUTBOX_NOT_CONFIRMED
         | Some wb_status =>
             if wb_status ∈? _ENTITY_OUTBOX_FAILURE_STATUSES
             then Some SideEffectConvergenceReason.OUTBOX_NOT_CONFIRMED else None
         end.

Fixpoint first_reason (checker : OutboxRow → option SideEffectConvergenceReason)
    (l : list OutboxRow) : option SideEffectConvergenceReason :=
  match l with
  | [] => None
  | o :: l' => match checker o with Some r => Some r | None => first_reason checker l' end
  end.

Definition _scan_outboxes_for_block (active_outboxes : list OutboxRow)
    (policy : SideEffectConvergencePolicy) : option SideEffectConvergenceReason :=
  first_reason (if policy ==? SideEffectConvergencePolicy.TERMINAL_WRITEBACK
                then _outbox_blocks_terminal_writeback else _outbox_blocks_entity_effect)
    active_outboxes.

(** The first of [candidates] that occurs in [l], else the head of [l]. *)
Definition first_present {A} `{EqDecision A} (candidates l : list A) : option A :=
  match List.find (λ c, c ∈? l) candidates with Some c => Some c | None => head l end.

(** Representative delivery/writeback across all active outboxes (worst-first). *)
Definition _summarize_outbox_fields (active_outboxes : list OutboxRow) :
    option OutboxDeliveryStatus * option WritebackStatus :=
  let deliveries := omap (λ o, enum_of_value (ob_delivery_status o)) active_outboxes in
  let writebacks := omap (λ o, if truthy_str (ob_latest_writeback_status o)
                               then Some (enum_or (default "" (ob_latest_writeback_status o))
                                            WritebackStatus.PENDING)
                               else None) active_outboxes in
  (first_present [OutboxDeliveryStatus.DEAD_LETTER; OutboxDeliveryStatus.READY;
                  OutboxDeliveryStatus.LEASED; OutboxDeliveryStatus.WAITING_RETRY;
                  OutboxDeliveryStatus.PAUSED] deliveries,
   first_present _UNCONFIRMED_WRITEBACK_PRIORITIES writebacks).

(** ** Jobs by Action *)

Definition job_better (job existing : JobRow) : bool :=
  match job_status_of job, job_status_of existing with
  | Some new_status, Some old_status =>
      (new_status ∈? _ACTIVE_JOB_STATUSES) && negb (old_status ∈? _ACTIVE_JOB_STATUSES)
  | _, _ => false
  end.

Definition add_job (result : gmap string JobRow) (job : JobRow) : gmap string JobRow :=
  match result !! job_action_id job with
  | None => <[job_action_id job := job]> result
  | Some existing => if job_better job existing then <[job_action_id job := job]> result
                     else result
  end.

Definition _build_jobs_by_action (jobs : list JobRow) : gmap string JobRow :=
  foldl add_job ∅ jobs.

(** ** The summary *)

Section summary.
Context (parse_verification : pyval → option VerificationResult).

Definition _load_verification_result (db : Db) (event_id : string) :
    option VerificationResult :=
  match latest_journal_value db event_id "verification_result" with
  | Some row => parse_verification row
  | None =>
      match db_events db !! event_id ≫= se_event_context_snapshot with
      | Some (VDict snapshot) =>
          match dict_get snapshot "verification_result" with
          | None | Some VNone => None
          | Some raw => parse_verification raw
          end
      | _ => None
      end
  end.

(** [not (execution_owner or "").strip()] *)
Definition owner_blank (action_row : ActionRow) : bool :=
  str_strip (default "" (act_execution_owner action_row)) ==? "".

Definition _action_side_effect_blocks_convergence (action_row : ActionRow)
    (jobs_by_action : gmap string JobRow) (active_outboxes : list OutboxRow)
    (verification : option VerificationResult) :
    option SideEffectConvergenceReason * SideEffectConvergencePolicy :=
  let policy := _resolve_convergence_policy action_row active_outboxes in
  let job := jobs_by_action !! act_action_id action_row in
  let reason :=
    if _parse_action_status (act_status action_row) ==? ActionStatus.EXECUTING
    then Some SideEffectConvergenceReason.EXECUTING_ACTION
    else if bool_decide (is_Some
              (_action_has_active_job (act_action_id action_row) jobs_by_action))
    then Some SideEffectConvergenceReason.IN_FLIGHT_JOB
    else if owner_blank action_row then None
    else match policy with
         | SideEffectConvergencePolicy.EXECUTION_JOB_ONLY =>
             if _job_terminal_success job then None
             else Some SideEffectConvergenceReason.IN_FLIGHT_JOB
         | SideEffectConvergencePolicy.INDEPENDENT_ENTITY_EFFECT =>
             let entity_outboxes := List.filter entity_submit active_outboxes in
             if Nat.eqb (length entity_outboxes) 0
             then Some SideEffectConvergenceReason.OUTBOX_UNDELIVERED
             else match _scan_outboxes_for_block entity_outboxes policy with
                  | Some outbox_reason => Some outbox_reason
                  | None =>
                      if negb (_job_terminal_success job)
                      then Some SideEffectConvergenceReason.IN_FLIGHT_JOB
                      else if negb (entity_effect_verified_for_action verification
                                      (act_action_id action_row))
                      then Some SideEffectConvergenceReason.EFFECT_UNVERIFIED
                      else None
                  end
         | SideEffectConvergencePolicy.TERMINAL_WRITEBACK =>
             _scan_outboxes_for_block active_outboxes policy
         end in
  (reason, policy).

Definition _classify_scope (action_row : ActionRow) (current_revision : option Z)
    (disposition_policy : DispositionPolicy) : SideEffectScope :=
  match current_revision with
  | None => SideEffectScope.BACKGROUND_DETACHED
  | Some rev =>
      if negb (act_superseded_by_revision action_row ==? None)
      then SideEffectScope.BACKGROUND_DETACHED
      else if act_plan_revision action_row !=? rev then SideEffectScope.BACKGROUND_DETACHED
      else if disposition_policy ==? DispositionPolicy.NOT_REQUIRED
      then SideEffectScope.BACKGROUND_DETACHED
      else SideEffectScope.GATE_APPLICABLE
  end.

(** The loop body: [None] is [continue]. *)
Definition outstanding_view (db : Db) (jobs_by_action : gmap string JobRow)
    (verification : option VerificationResult) (current_revision : option Z)
    (disposition_policy : DispositionPolicy) (action_row : ActionRow) :
    option OutstandingSideEffectView :=
  if act_status action_row ==? enum_value ActionStatus.REJECTED then None
  else
    let active_outboxes := load_active_outboxes db (act_action_id action_row) in
    match _action_side_effect_blocks_convergence action_row jobs_by_action active_outboxes
            verification with
    | (None, _) => None
    | (Some blocking_reason, policy) =>
        let '(outbox_delivery, outbox_wb) := _summarize_outbox_fields active_outboxes in
        Some {| osv_action_id := act_action_id action_row;
                osv_scope := _classify_scope action_row current_revision disposition_policy;
                osv_action_status := _parse_action_status (act_status action_row);
                osv_execution_phase := _parse_exec_phase (Some (act_execution_phase action_row));
                osv_writeback_applicable := act_writeback_applicable action_row;
                osv_convergence_policy := Some policy;
                osv_job_status := jobs_by_action !! act_action_id action_row ≫= job_status_of;
                osv_outbox_delivery_status := outbox_delivery;
                osv_outbox_writeback_status := outbox_wb;
                osv_plan_revision := act_plan_revision action_row;
                osv_superseded := negb (act_superseded_by_revision action_row ==? None);
                osv_blocking_reason := Some blocking_reason |}
    end.

(** The accumulators of the loop: views, gate count, background count. *)
Definition add_view (acc : list OutstandingSideEffectView * Z * Z)
    (view : option OutstandingSideEffectView) : list OutstandingSideEffectView * Z * Z :=
  let '(outstanding, gate_count, background_count) := acc in
  match view with
  | None => acc
  | Some v => if osv_scope v ==? SideEffectScope.GATE_APPLICABLE
              then ((outstanding ++ [v])%list, (gate_count + 1)%Z, background_count)
              else ((outstanding ++ [v])%list, gate_count, (background_count + 1)%Z)
  end.

Definition response_or_rollback_of (event_id : string) (a : ActionRow) : bool :=
  (act_event_id a ==? event_id)
  && (act_action_category a ∈? [enum_value ActionCategory.RESPONSE;
                                enum_value ActionCategory.ROLLBACK]).

Definition build_side_effect_convergence_summary (db : Db) (event_id : string)
    (current_revision : option Z) (disposition_policy : DispositionPolicy) :
    SideEffectConvergenceSummary :=
  match current_revision with
  | None => empty_convergence_summary event_id
  | Some rev =>
      let action_rows := List.filter (response_or_rollback_of event_id) (db_actions db) in
      let jobs_by_action :=
        _build_jobs_by_action (List.filter (λ j, job_event_id j ==? event_id) (db_jobs db)) in
      let verification := _load_verification_result db event_id in
      let '(outstanding, gate_count, background_count) :=
        foldl add_view ([], 0%Z, 0%Z)
          (map (outstanding_view db jobs_by_action verification current_revision
                  disposition_policy) action_rows) in
      {| ses_event_id := event_id;
         ses_current_plan_revision := current_revision;
         ses_gate_applicable_outstanding_count := gate_count;
         ses_background_outstanding_count := background_count;
         ses_outstanding_actions := outstanding;
         ses_background_side_effects_pending := (0 <? background_count)%Z |}
  end.
End summary.

(** * What the convergence summary guarantees *)

#[local] Close Scope string_scope.

(** ** Jobs *)

Definition active_job (j : JobRow) : Prop :=
  job_status j = enum_value ExecutionJobStatus.QUEUED ∨
  job_status j = enum_value ExecutionJobStatus.RUNNING.

#[global] Instance active_job_dec j : Decision (active_job j).
Proof. unfold active_job. apply _. Defined.

Lemma active_job_status j :
  active_job j ↔ ∃ s, job_status_of j = Some s ∧ s ∈ _ACTIVE_JOB_STATUSES.
Proof.
  unfold active_job, job_status_of, _ACTIVE_JOB_STATUSES. setoid_rewrite enum_of_value_Some.
  set_solver.
Qed.

Lemma job_better_true j e :
  job_better j e = true ↔ active_job j ∧ is_Some (job_status_of e) ∧ ¬ active_job e.
Proof.
  rewrite !active_job_status. unfold job_better.
  destruct (job_status_of j) as [s|], (job_status_of e) as [s'|]; run_ok;
    split; try naive_solver; intros (?&[? ?]&?); naive_solver.
Qed.

(** What [_build_jobs_by_action] holds for an Action after a prefix of the jobs. *)
Record chosen_job (jobs : list JobRow) (aid : string) (o : option JobRow) : Prop := {
  cj_none : o = None → ∀ j, j ∈ jobs → job_action_id j ≠ aid;
  cj_in : ∀ c, o = Some c → c ∈ jobs ∧ job_action_id c = aid;
  cj_active : ∀ c j, o = Some c → is_Some (job_status_of c) → j ∈ jobs →
    job_action_id j = aid → active_job j → active_job c
}.

Lemma add_job_lookup_ne m j aid : job_action_id j ≠ aid → add_job m j !! aid = m !! aid.
Proof.
  intros Hne. unfold add_job. repeat case_match; by rewrite ?lookup_insert_ne.
Qed.

Lemma add_job_chosen jobs m j aid :
  chosen_job jobs aid (m !! aid) → chosen_job (jobs ++ [j]) aid (add_job m j !! aid).
Proof.
  intros [Hn Hi Ha]. destruct (decide (job_action_id j = aid)) as [<-|Hne].
  2: { rewrite add_job_lookup_ne by done. split; [set_solver|set_solver|].
       intros c j' Hc Hv Hj Hid Hact.
       apply elem_of_app in Hj as [Hj|Hj%list_elem_of_singleton]; [eauto|by subst]. }
  unfold add_job. destruct (m !! job_action_id j) as [e|] eqn:Em.
  - destruct (job_better j e) eqn:Eb.
    + apply job_better_true in Eb as (Hact & _ & _). rewrite lookup_insert_eq.
      split; [done| |naive_solver]. intros c [= <-]. set_solver.
    + rewrite Em. split; [done|intros c [= <-]; destruct (Hi e eq_refl); set_solver|].
      intros c j' [= <-] Hv Hj Hid Hact.
      apply elem_of_app in Hj as [Hj|Hj%list_elem_of_singleton]; [by eapply Ha|subst j'].
      destruct (decide (active_job e)) as [|Hna]; [done|].
      assert (job_better j e = true) by (by apply job_better_true). congruence.
  - rewrite lookup_insert_eq. split; [done|intros c [= <-]; set_solver|].
    intros c j' [= <-] Hv Hj Hid Hact.
    apply elem_of_app in Hj as [Hj|Hj%list_elem_of_singleton]; [|by subst].
    by destruct (Hn eq_refl j' Hj).
Qed.

Lemma build_jobs_chosen jobs aid : chosen_job jobs aid (_build_jobs_by_action jobs !! aid).
Proof.
  unfold _build_jobs_by_action.
  induction jobs as [|j jobs IH] using rev_ind.
  - cbn. rewrite lookup_empty. split; [set_solver|done|done].
  - rewrite foldl_app. cbn. by apply add_job_chosen.
Qed.

Lemma action_has_active_job_Some aid m :
  is_Some (_action_has_active_job aid m) ↔ ∃ j, m !! aid = Some j ∧ active_job j.
Proof.
  setoid_rewrite active_job_status. unfold _action_has_active_job.
  destruct (m !! aid) as [j|]; cbn [mbind option_bind].
  2: { split; [by intros []%is_Some_None|naive_solver]. }
  destruct (job_status_of j) as [s|] eqn:Es; cbn [mbind option_bind].
  2: { split; [by intros []%is_Some_None|naive_solver]. }
  case_bool_decide; [naive_solver|]. split; [by intros []%is_Some_None|naive_solver].
Qed.

(** On jobs with readable statuses, an Action has an in-flight job for the gate exactly when
    one of its jobs is QUEUED or RUNNING, in whatever order the rows come back. *)
Theorem active_job_detected (jobs : list JobRow) (aid : string) :
  Forall (λ j, is_Some (job_status_of j)) jobs →
  is_Some (_action_has_active_job aid (_build_jobs_by_action jobs)) ↔
  ∃ j, j ∈ jobs ∧ job_action_id j = aid ∧ active_job j.
Proof.
  intros Hv. rewrite action_has_active_job_Some.
  destruct (build_jobs_chosen jobs aid) as [Hn Hi Ha]. split.
  - intros (j & Hj & Hact). destruct (Hi j Hj). eauto.
  - intros (j & Hin & Hid & Hact).
    destruct (_build_jobs_by_action jobs !! aid) as [c|] eqn:Ec.
    + exists c. split; [done|]. eapply Ha; [done| |done..].
      rewrite Forall_forall in Hv. apply Hv. by destruct (Hi c eq_refl).
    + by destruct (Hn eq_refl j Hin).
Qed.

(** ** Counters *)

Definition gate_view (v : OutstandingSideEffectView) : bool :=
  osv_scope v ==? SideEffectScope.GATE_APPLICABLE.

Lemma fold_views_spec l acc g b :
  foldl add_view (acc, g, b) l =
  (acc ++ omap id l, (g + Z.of_nat (length (List.filter gate_view (omap id l))))%Z,
   (b + Z.of_nat (length (List.filter (λ v, negb (gate_view v)) (omap id l))))%Z).
Proof.
  revert acc g b. induction l as [|[v|] l IH]; intros acc g b; cbn [foldl add_view omap list_omap id].
  - rewrite app_nil_r. cbn. apply f_equal2; [apply f_equal2|]; first [done|lia].
  - fold (gate_view v). destruct (gate_view v) eqn:E; rewrite IH; cbn [List.filter]; rewrite E;
      cbn [negb length]; rewrite <-app_assoc; cbn [app];
      (apply f_equal2; [apply f_equal2|]); first [done|lia].
  - apply IH.
Qed.

Section facts.
Context (parse_verification : pyval → option VerificationResult).

Abbreviation summary := (build_side_effect_convergence_summary parse_verification).

Definition event_jobs (db : Db) (event_id : string) : gmap string JobRow :=
  _build_jobs_by_action (List.filter (λ j, job_event_id j ==? event_id) (db_jobs db)).

Definition view_of (db : Db) (event_id : string) (rev : option Z) (p : DispositionPolicy) :
    ActionRow → option OutstandingSideEffectView :=
  outstanding_view db (event_jobs db event_id)
    (_load_verification_result parse_verification db event_id) rev p.

Lemma summary_outstanding db event_id rev p :
  ses_outstanding_actions (summary db event_id (Some rev) p) =
  omap (view_of db event_id (Some rev) p)
    (List.filter (response_or_rollback_of event_id) (db_actions db)).
Proof.
  unfold build_side_effect_convergence_summary. rewrite fold_views_spec; cbn.
  generalize (List.filter (response_or_rollback_of event_id) (db_actions db)) as l.
  induction l as [|a l IH]; [done|]. cbn. fold (event_jobs db event_id).
  unfold view_of at 1. destruct (outstanding_view _ _ _ _ _ a); cbn; [f_equal|]; apply IH.
Qed.

(** The counters of a summary count: the gate counter is the number of gate-applicable views,
    the background counter the number of the others, and the pending flag says whether there is
    a background one. *)
Theorem summary_counters (db : Db) (event_id : string) (rev : option Z)
    (p : DispositionPolicy) :
  let s := summary db event_id rev p in
  ses_gate_applicable_outstanding_count s
    = Z.of_nat (length (List.filter gate_view (ses_outstanding_actions s))) ∧
  ses_background_outstanding_count s
    = Z.of_nat (length (List.filter (λ v, negb (gate_view v)) (ses_outstanding_actions s))) ∧
  (ses_background_side_effects_pending s = true ↔
   ∃ v, v ∈ ses_outstanding_actions s ∧ gate_view v = false).
Proof.
  destruct rev as [rev|]; cbn; [|split_and!; [done|done|set_solver]].
  unfold build_side_effect_convergence_summary. rewrite fold_views_spec; cbn.
  split_and!; [done|done|]. rewrite Z.ltb_lt.
  set (l := omap id _). setoid_rewrite <-negb_true_iff.
  setoid_rewrite <-(in_where (λ v, negb (gate_view v)) l).
  destruct (List.filter _ l) as [|v l']; cbn; split; try lia; set_solver.
Qed.

(** ** The gate on rows *)

Definition live_outbox (db : Db) (a : ActionRow) (o : OutboxRow) : Prop :=
  live_command db (act_action_id a) o.

Definition entity_command (o : OutboxRow) : Prop :=
  ob_intent_kind o = enum_value DispositionIntentKind.ENTITY_ACTION_SUBMIT.

(** An Action whose effect on an entity is followed independently: it has a live entity command,
    or is one of the entity tools, managed by the XDR with a required writeback. *)
Definition entity_effect_action (db : Db) (a : ActionRow) : Prop :=
  (∃ o, live_outbox db a o ∧ entity_command o) ∨
  (act_execution_owner a = Some (enum_value ExecutionOwner.XDR_MANAGED) ∧
   act_writeback_required a = true ∧ act_tool_name a ∈ ENTITY_ACTION_EFFECT_SPECS_keys).

Definition owned (a : ActionRow) : Prop :=
  str_strip (default EmptyString (act_execution_owner a)) ≠ EmptyString.

Definition delivered (o : OutboxRow) : Prop :=
  ob_delivery_status o = enum_value OutboxDeliveryStatus.DELIVERED.

(** The recorded writeback status, an empty text counting as none. *)
Definition recorded_writeback (o : OutboxRow) : option string :=
  if truthy_str (ob_latest_writeback_status o) then ob_latest_writeback_status o else None.

Definition terminal_settled (o : OutboxRow) : Prop :=
  delivered o ∧ ∀ w, recorded_writeback o = Some w → w = enum_value WritebackStatus.CONFIRMED.

Definition entity_settled (o : OutboxRow) : Prop :=
  delivered o ∧ ∀ w, recorded_writeback o = Some w →
    ∃ s : WritebackStatus, w = enum_value s ∧
      s ≠ WritebackStatus.FAILED ∧ s ≠ WritebackStatus.CONFLICT.

Definition job_succeeded (db : Db) (event_id : string) (a : ActionRow) : Prop :=
  ∃ j, event_jobs db event_id !! act_action_id a = Some j ∧
    (job_status j = enum_value ExecutionJobStatus.SUCCESS ∨
     job_status j = enum_value ExecutionJobStatus.PARTIAL_SUCCESS).

Definition policy_of (db : Db) (a : ActionRow) : SideEffectConvergencePolicy :=
  _resolve_convergence_policy a (load_active_outboxes db (act_action_id a)).

(** Convergence of one Action, on its rows. *)
Record action_converged (db : Db) (event_id : string) (a : ActionRow) : Prop := {
  acv_not_executing : act_status a ≠ enum_value ActionStatus.EXECUTING;
  acv_no_active_job :
    ∀ j, event_jobs db event_id !! act_action_id a = Some j → ¬ active_job j;
  acv_terminal : owned a → act_writeback_applicable a = true →
    ∀ o, live_outbox db a o → terminal_settled o;
  acv_entity : owned a → act_writeback_applicable a = false → entity_effect_action db a →
    (∃ o, live_outbox db a o ∧ entity_command o) ∧
    (∀ o, live_outbox db a o → entity_command o → entity_settled o) ∧
    job_succeeded db event_id a ∧
    entity_effect_verified_for_action
      (_load_verification_result parse_verification db event_id) (act_action_id a) = true;
  acv_job : owned a → act_writeback_applicable a = false → ¬ entity_effect_action db a →
    job_succeeded db event_id a
}.

Lemma entity_submit_true o : entity_submit o = true ↔ entity_command o.
Proof. apply bool_decide_eq_true. Qed.

Lemma owner_blank_false a : owner_blank a = false ↔ owned a.
Proof. apply bool_decide_eq_false. Qed.

Lemma has_entity_command db a :
  existsb entity_submit (load_active_outboxes db (act_action_id a)) = true ↔
  ∃ o, live_outbox db a o ∧ entity_command o.
Proof.
  rewrite existsb_exists. setoid_rewrite entity_submit_true.
  setoid_rewrite <-list_elem_of_In. by setoid_rewrite in_load_active_outboxes.
Qed.

(** The code's policy names the case of [action_converged] an Action is in. *)
Lemma policy_of_spec db a :
  match policy_of db a with
  | SideEffectConvergencePolicy.TERMINAL_WRITEBACK => act_writeback_applicable a = true
  | SideEffectConvergencePolicy.INDEPENDENT_ENTITY_EFFECT =>
      act_writeback_applicable a = false ∧ entity_effect_action db a
  | SideEffectConvergencePolicy.EXECUTION_JOB_ONLY =>
      act_writeback_applicable a = false ∧ ¬ entity_effect_action db a
  end.
Proof.
  unfold policy_of, _resolve_convergence_policy, entity_effect_action.
  destruct (act_writeback_applicable a); [done|].
  pose proof (has_entity_command db a) as Hc.
  destruct (existsb entity_submit _); [naive_solver|].
  destruct (_ && _) eqn:Hx; run_ok; [naive_solver|]. split; [done|].
  intros [?|(? & ? & ?)]; [|naive_solver]. by apply Hc in H.
Qed.

Lemma delivery_blocks_false o : delivery_blocks o = false ↔ delivered o.
Proof.
  unfold delivery_blocks, delivered. rewrite <-enum_of_value_Some.
  destruct (enum_of_value (ob_delivery_status o)) as [[]|]; vm_compute; naive_solver.
Qed.

Lemma terminal_writeback_None o :
  _outbox_blocks_terminal_writeback o = None ↔ terminal_settled o.
Proof.
  unfold _outbox_blocks_terminal_writeback, terminal_settled, recorded_writeback.
  rewrite <-delivery_blocks_false.
  destruct (ob_latest_writeback_status o) as [w|]; cbn [truthy_str andb].
  - case_bool_decide as Hw; cbn [negb andb]; [subst|].
    + destruct (delivery_blocks o); naive_solver.
    + case_bool_decide as Hc; cbn [negb]; [destruct (delivery_blocks o); naive_solver|].
      split; [done|]. intros [_ Hn]. destruct Hc. f_equal. by apply Hn.
  - destruct (delivery_blocks o); naive_solver.
Qed.

Lemma entity_effect_None o : _outbox_blocks_entity_effect o = None ↔ entity_settled o.
Proof.
  unfold _outbox_blocks_entity_effect, entity_settled, recorded_writeback.
  rewrite <-delivery_blocks_false. destruct (delivery_blocks o); [naive_solver|].
  destruct (ob_latest_writeback_status o) as [w|]; [|naive_solver].
  destruct (truthy_str _); cbn [negb]; [|naive_solver]. cbn [mbind option_bind].
  destruct (enum_of_value w) as [s|] eqn:Ew.
  - apply enum_of_value_Some in Ew as ->. unfold _ENTITY_OUTBOX_FAILURE_STATUSES.
    case_bool_decide as Hf.
    + split; [done|]. intros [_ Hn]. destruct (Hn _ eq_refl) as (s' & ->%(inj _) & ?).
      set_solver.
    + split; [|done]. intros _. split; [done|]. intros w [= <-]. exists s. set_solver.
  - rewrite enum_of_value_None in Ew. split; [done|]. intros [_ Hn].
    destruct (Hn _ eq_refl) as (s' & -> & _). by destruct (Ew s').
Qed.

Lemma first_reason_None checker l :
  first_reason checker l = None ↔ ∀ o, o ∈ l → checker o = None.
Proof.
  induction l as [|o l IH]; cbn; [set_solver|]. destruct (checker o) eqn:E.
  - split; [done|]. intros Hall. rewrite Hall in E by set_solver. done.
  - rewrite IH. set_solver.
Qed.

Lemma job_terminal_success_true db event_id a :
  _job_terminal_success (event_jobs db event_id !! act_action_id a) = true ↔
  job_succeeded db event_id a.
Proof.
  unfold _job_terminal_success, job_succeeded, job_status_of, _TERMINAL_JOB_STATUSES.
  destruct (event_jobs db event_id !! act_action_id a) as [j|]; cbn [mbind option_bind];
    [|naive_solver].
  destruct (enum_of_value (job_status j)) as [s|] eqn:Es.
  - apply enum_of_value_Some in Es. rewrite bool_decide_eq_true. set_unfold. split.
    + intros Hs. exists j. split; [done|]. rewrite Es. destruct_or! Hs; subst s; auto.
    + intros (j' & [= <-] & Hj). rewrite Es in Hj. destruct Hj as [?%(inj _)|?%(inj _)]; auto.
  - rewrite enum_of_value_None in Es. naive_solver.
Qed.

Lemma executing_iff raw :
  _parse_action_status raw = ActionStatus.EXECUTING ↔ raw = enum_value ActionStatus.EXECUTING.
Proof. by apply enum_or_eq. Qed.

Lemma entity_outboxes_nonempty db a :
  Nat.eqb (length (List.filter entity_submit (load_active_outboxes db (act_action_id a)))) 0
    = false ↔ ∃ o, live_outbox db a o ∧ entity_command o.
Proof.
  setoid_rewrite <-entity_submit_true.
  unfold live_outbox. setoid_rewrite <-in_load_active_outboxes. setoid_rewrite <-in_where.
  destruct (List.filter _ _) as [|o l]; cbn; split; try set_solver.
Qed.

Abbreviation verification_of :=
  (_load_verification_result parse_verification).

Definition blocking_reason (db : Db) (event_id : string) (a : ActionRow) :
    option SideEffectConvergenceReason :=
  (_action_side_effect_blocks_convergence a (event_jobs db event_id)
     (load_active_outboxes db (act_action_id a)) (verification_of db event_id)).1.

(** The three policies. *)
Lemma terminal_scan_None db a :
  _scan_outboxes_for_block (load_active_outboxes db (act_action_id a))
    SideEffectConvergencePolicy.TERMINAL_WRITEBACK = None ↔
  ∀ o, live_outbox db a o → terminal_settled o.
Proof.
  unfold _scan_outboxes_for_block. rewrite bool_decide_eq_true_2 by done.
  rewrite first_reason_None. setoid_rewrite terminal_writeback_None.
  setoid_rewrite in_load_active_outboxes. done.
Qed.

Lemma entity_scan_None db a :
  _scan_outboxes_for_block
    (List.filter entity_submit (load_active_outboxes db (act_action_id a)))
    SideEffectConvergencePolicy.INDEPENDENT_ENTITY_EFFECT = None ↔
  ∀ o, live_outbox db a o → entity_command o → entity_settled o.
Proof.
  unfold _scan_outboxes_for_block. rewrite bool_decide_eq_false_2 by done.
  rewrite first_reason_None. setoid_rewrite entity_effect_None. setoid_rewrite in_where.
  setoid_rewrite entity_submit_true. setoid_rewrite in_load_active_outboxes. unfold live_outbox. naive_solver.
Qed.

(** The evidence left to show once nothing of the Action is running. *)
Lemma converged_entity db event_id a :
  act_status a ≠ enum_value ActionStatus.EXECUTING →
  (∀ j, event_jobs db event_id !! act_action_id a = Some j → ¬ active_job j) →
  owned a → act_writeback_applicable a = false → entity_effect_action db a →
  action_converged db event_id a ↔
  (∃ o, live_outbox db a o ∧ entity_command o) ∧
  (∀ o, live_outbox db a o → entity_command o → entity_settled o) ∧
  job_succeeded db event_id a ∧
  entity_effect_verified_for_action (verification_of db event_id) (act_action_id a) = true.
Proof. intros He Hn Ho Ha Hent. split; [intros []; auto|]. intros. split; try done; congruence. Qed.

Lemma converged_job db event_id a :
  act_status a ≠ enum_value ActionStatus.EXECUTING →
  (∀ j, event_jobs db event_id !! act_action_id a = Some j → ¬ active_job j) →
  owned a → act_writeback_applicable a = false → ¬ entity_effect_action db a →
  action_converged db event_id a ↔ job_succeeded db event_id a.
Proof. intros He Hn Ho Ha Hent. split; [intros []; auto|]. intros. split; try done; congruence. Qed.

Lemma blocking_reason_None db event_id a :
  blocking_reason db event_id a = None ↔ action_converged db event_id a.
Proof.
  unfold blocking_reason, _action_side_effect_blocks_convergence; cbn [fst].
  fold (policy_of db a).
  case_bool_decide as He.
  { split; [done|]. intros []. by apply executing_iff in He. }
  rewrite executing_iff in He.
  case_bool_decide as Hj; rewrite action_has_active_job_Some in Hj.
  { split; [done|]. intros [_ Hn _ _ _]. naive_solver. }
  assert (∀ j, event_jobs db event_id !! act_action_id a = Some j → ¬ active_job j) as Hn
    by naive_solver. clear Hj.
  pose proof (owner_blank_false a) as Hown. pose proof (policy_of_spec db a) as Hp.
  destruct (owner_blank a).
  { split; [|done]. intros _. split; [done|done|..]; by intros ?%Hown. }
  assert (owned a) as Hown' by naive_solver. clear Hown.
  pose proof (job_terminal_success_true db event_id a) as Hs.
  pose proof (entity_outboxes_nonempty db a) as Ho.
  destruct (policy_of db a).
  - rewrite terminal_scan_None.
    split; [intros Ht; split; auto; intros; congruence|intros []; auto].
  - destruct Hp as [Ha Hent]. rewrite (converged_entity db event_id a) by done.
    destruct (Nat.eqb _ 0); [naive_solver|].
    pose proof (entity_scan_None db a) as Hscan.
    destruct (_scan_outboxes_for_block _ _); [naive_solver|].
    destruct (_job_terminal_success _); cbn [negb]; [|naive_solver].
    destruct (entity_effect_verified_for_action _ _); cbn [negb]; naive_solver.
  - destruct Hp as [Ha Hent]. rewrite (converged_job db event_id a) by done.
    destruct (_job_terminal_success _); naive_solver.
Qed.

Lemma outstanding_gate_view db event_id rev a v :
  view_of db event_id (Some rev) DispositionPolicy.REQUIRED a = Some v →
  act_status a ≠ enum_value ActionStatus.REJECTED ∧ ¬ action_converged db event_id a ∧
  is_Some (osv_blocking_reason v) ∧
  (osv_scope v = SideEffectScope.GATE_APPLICABLE ↔
   act_plan_revision a = rev ∧ act_superseded_by_revision a = None).
Proof.
  unfold view_of, outstanding_view. case_bool_decide as Hr; [done|].
  rewrite <-blocking_reason_None. unfold blocking_reason.
  destruct (_action_side_effect_blocks_convergence _ _ _ _) as [[r|] p] eqn:E; [|done].
  destruct (_summarize_outbox_fields _) as [d w]. intros [= <-]. cbn.
  split_and!; [done|done|by eexists|].
  repeat case_bool_decide; naive_solver.
Qed.

Lemma view_of_None db event_id rev p a :
  act_status a ≠ enum_value ActionStatus.REJECTED →
  view_of db event_id rev p a = None → action_converged db event_id a.
Proof.
  unfold view_of, outstanding_view. intros Hr. rewrite bool_decide_eq_false_2 by done.
  rewrite <-blocking_reason_None. unfold blocking_reason.
  destruct (_action_side_effect_blocks_convergence _ _ _ _) as [[r|] p']; [|done].
  by destruct (_summarize_outbox_fields _).
Qed.

(** A row of the current plan that the gate waits for. *)
Record gate_side_effect_row (event_id : string) (rev : Z) (a : ActionRow) : Prop := {
  gse_event : act_event_id a = event_id;
  gse_category : act_action_category a = enum_value ActionCategory.RESPONSE ∨
                 act_action_category a = enum_value ActionCategory.ROLLBACK;
  gse_revision : act_plan_revision a = rev;
  gse_live : act_superseded_by_revision a = None;
  gse_not_rejected : act_status a ≠ enum_value ActionStatus.REJECTED
}.

Lemma response_or_rollback_true event_id a :
  response_or_rollback_of event_id a = true ↔
  act_event_id a = event_id ∧
  (act_action_category a = enum_value ActionCategory.RESPONSE ∨
   act_action_category a = enum_value ActionCategory.ROLLBACK).
Proof. unfold response_or_rollback_of. run_ok. set_solver. Qed.

Lemma convergence_gate_rows db event_id rev :
  check_gate_applicable_side_effect_convergence
    (summary db event_id (Some rev) DispositionPolicy.REQUIRED) = None ↔
  ∀ a, a ∈ db_actions db → gate_side_effect_row event_id rev a →
    action_converged db event_id a.
Proof.
  unfold check_gate_applicable_side_effect_convergence. rewrite first_gate_violation_None.
  rewrite summary_outstanding. setoid_rewrite list_elem_of_omap. setoid_rewrite in_where.
  setoid_rewrite response_or_rollback_true. split.
  - intros Hno a Ha [He Hcat Hrev Hs Hrej].
    destruct (view_of db event_id (Some rev) DispositionPolicy.REQUIRED a) as [v|] eqn:Ev;
      [|by eapply view_of_None].
    pose proof (outstanding_gate_view _ _ _ _ _ Ev) as (_ & _ & Hb & Hsc).
    destruct (Hno v); [by eauto|]. split; [by apply Hsc|done].
  - intros Hall v (a & (Ha & He & Hcat) & Hv) [Hsc _].
    pose proof (outstanding_gate_view _ _ _ _ _ Hv) as (Hrej & Hnc & _ & Hiff).
    apply Hiff in Hsc as [Hrev Hs]. destruct Hnc. apply Hall; [done|].
    by split.
Qed.

(** Refinement of the convergence gate: built from the database under a required policy, it
    lets CLOSED through exactly when every live, non-rejected response or rollback Action of the
    current plan has converged: not executing, no job in flight and, unless it has no execution
    owner, the evidence its policy asks for (a successful job; a delivered entity command with a
    successful job and a verified effect; or delivered and confirmed writebacks). *)
Theorem convergence_gate_refines_rows (db : Db) (event_id : string) (rev : Z) :
  check_gate_applicable_side_effect_convergence
    (summary db event_id (Some rev) DispositionPolicy.REQUIRED) = None ↔
  ∀ a, a ∈ db_actions db → gate_side_effect_row event_id rev a →
    action_converged db event_id a.
Proof. apply convergence_gate_rows. Qed.
End facts.

Lemma unreadable_job_stays c jobs m :
  job_status_of c = None → m !! job_action_id c = Some c →
  foldl add_job m jobs !! job_action_id c = Some c.
Proof.
  intros Hc. revert m. induction jobs as [|j jobs IH]; intros m Hm; [done|]. cbn. apply IH.
  destruct (decide (job_action_id j = job_action_id c)) as [E|Hne];
    [|by rewrite add_job_lookup_ne].
  unfold add_job. rewrite E, Hm. unfold job_better. rewrite Hc. by destruct (job_status_of j).
Qed.

(** A job row with an unreadable status that comes back first hides every later job of its
    Action, in-flight ones included: the gate then sees no active job. *)
Theorem unreadable_job_hides_active (c : JobRow) (jobs : list JobRow) :
  job_status_of c = None →
  _action_has_active_job (job_action_id c) (_build_jobs_by_action (c :: jobs)) = None.
Proof.
  intros Hc. unfold _action_has_active_job, _build_jobs_by_action; cbn [foldl].
  rewrite unreadable_job_stays; [cbn [mbind option_bind]; by rewrite Hc|done|].
  unfold add_job. by rewrite lookup_empty, lookup_insert_eq.
Qed.
