(* ===== verification/Reconcile.v ===== *)
(** * Stale execution reclaim (backend/app/services/action_execution_service.py)

    [reconcile_stale_executions_for_event] and its helpers: lease-expired jobs go back to the queue
    or time out, and stuck EXECUTING Actions go back to APPROVED or to a final status.  The whole
    call is one transaction: an exception leaves the database as it was.  [locked] says which rows
    another transaction holds ([FOR UPDATE SKIP LOCKED]). *)

From stdpp Require Import prelude strings gmap sorting.
From S2P Require Import Prelude Enums Errors Tables Workflow Lifecycles WorkflowFacts Runs LifecycleFacts Db.

#[local] Open Scope string_scope.

Definition _ACTIVE_OUTBOX_DELIVERY : list string :=
  [enum_value OutboxDeliveryStatus.READY; enum_value OutboxDeliveryStatus.LEASED;
   enum_value OutboxDeliveryStatus.WAITING_RETRY; enum_value OutboxDeliveryStatus.PAUSED].

Definition _RECLAIMABLE_ACTION_CATEGORIES : list string :=
  [enum_value ActionCategory.RESPONSE; enum_value ActionCategory.ROLLBACK].

Definition _has_active_outbox (db : Db) (action_id : string) : bool :=
  existsb (λ o, (ob_action_id o ==? action_id)
                && (ob_delivery_status o ∈? _ACTIVE_OUTBOX_DELIVERY)) (db_outboxes db).

Definition _map_job_to_action_status (status : ExecutionJobStatus) : ActionStatus :=
  match status with
  | ExecutionJobStatus.SUCCESS => ActionStatus.SUCCESS
  | ExecutionJobStatus.PARTIAL_SUCCESS => ActionStatus.PARTIAL_SUCCESS
  | ExecutionJobStatus.FAILED | ExecutionJobStatus.TIMED_OUT | ExecutionJobStatus.CANCELLED =>
      ActionStatus.FAILED
  | ExecutionJobStatus.UNKNOWN => ActionStatus.UNKNOWN
  | ExecutionJobStatus.QUEUED | ExecutionJobStatus.RUNNING => ActionStatus.EXECUTING
  end.

(** ** Row writes *)

Definition put_job (j : JobRow) (db : Db) : Db :=
  db_with_executions (db_actions db) (update_by job_job_id j (db_jobs db)) db.

Definition put_action (a : ActionRow) (db : Db) : Db :=
  db_with_executions (update_by act_action_id a (db_actions db)) (db_jobs db) db.

(** The job row after [status], [claimed_by = None], [lease_expires_at = None], ... *)
Definition released_job (j : JobRow) (status : string) (attempt : Z)
    (message : option string) (finished : option Z) (now : Z) : JobRow := {|
  job_job_id := job_job_id j; job_event_id := job_event_id j; job_action_id := job_action_id j;
  job_provider_name := job_provider_name j; job_idempotency_key := job_idempotency_key j;
  job_provider_job_id := job_provider_job_id j;
  job_status := status; job_claimed_by := None; job_lease_expires_at := None;
  job_poll_after_ms := job_poll_after_ms j; job_attempt := attempt;
  job_provider_code := job_provider_code j; job_provider_message := message;
  job_raw_result := job_raw_result j; job_updated_at := now;
  job_started_at := job_started_at j; job_finished_at := finished
|}.

(** The Action row after [status], [execution_job_id], [executed_at], [updated_at]. *)
Definition moved_action (a : ActionRow) (status : ActionStatus) (job_id : option string)
    (executed_at : option Z) (now : Z) : ActionRow := {|
  act_action_id := act_action_id a; act_event_id := act_event_id a;
  act_plan_revision := act_plan_revision a; act_action_category := act_action_category a;
  act_tool_name := act_tool_name a; act_execution_phase := act_execution_phase a;
  act_action_fingerprint := act_action_fingerprint a; act_action_level := act_action_level a;
  act_activation_condition := act_activation_condition a;
  act_impact_assessment := act_impact_assessment a; act_playbook_ref := act_playbook_ref a;
  act_action_template_snapshot := act_action_template_snapshot a;
  act_approved_terminal_dispositions := act_approved_terminal_dispositions a;
  act_status := enum_value status; act_execution_owner := act_execution_owner a;
  act_execution_job_id := job_id; act_writeback_required := act_writeback_required a;
  act_writeback_applicable := act_writeback_applicable a;
  act_writeback_readiness := act_writeback_readiness a;
  act_writeback_status := act_writeback_status a;
  act_superseded_by_revision := act_superseded_by_revision a;
  act_executed_at := executed_at; act_updated_at := now
|}.

(** ** Reclaiming one job *)

(** The Action of a job that timed out fails with it. *)
Definition fail_executing_action (db : Db) (action_id : string) (now : Z) : result Db :=
  match get_by act_action_id action_id (db_actions db) with
  | None => Ok db
  | Some a =>
      status ← enum_of_value_or_raise (act_status a);
      if status ==? ActionStatus.EXECUTING then
        category ← enum_of_value_or_raise (act_action_category a);
        validate_action_status_transition category ActionStatus.EXECUTING ActionStatus.FAILED
          default_action_args ;;
        Ok (put_action (moved_action a ActionStatus.FAILED None (Some now) now) db)
      else Ok db
  end.

Definition _reclaim_stale_job_row (now max_attempts : Z) (db : Db) (j : JobRow) :
    result (Db * bool) :=
  match job_lease_expires_at j with
  | None => Ok (db, false)
  | Some lease =>
      if (now <=? lease)%Z then Ok (db, false)
      else
        current ← enum_of_value_or_raise (job_status j);
        if negb (current ∈? [ExecutionJobStatus.QUEUED; ExecutionJobStatus.RUNNING])
        then Ok (db, false)
        else if _has_active_outbox db (job_action_id j) then Ok (db, false)
        else if (max_attempts <=? job_attempt j)%Z then
          validate_job_status_transition current ExecutionJobStatus.TIMED_OUT false
            (current ==? ExecutionJobStatus.QUEUED) ;;
          let j' := released_job j (enum_value ExecutionJobStatus.TIMED_OUT) (job_attempt j)
                      (Some "lease_expired_max_attempts") (Some now) now in
          db' ← fail_executing_action (put_job j' db) (job_action_id j) now;
          Ok (db', true)
        else
          (if current ==? ExecutionJobStatus.RUNNING
           then validate_job_status_transition current ExecutionJobStatus.QUEUED false true
           else Ok tt) ;;
          let j' := released_job j (enum_value ExecutionJobStatus.QUEUED) (job_attempt j + 1)
                      (job_provider_message j) (job_finished_at j) now in
          Ok (put_job j' db, true)
  end.

(** ** Reclaiming one Action *)

Definition final_job_statuses : list ExecutionJobStatus :=
  [ExecutionJobStatus.SUCCESS; ExecutionJobStatus.PARTIAL_SUCCESS; ExecutionJobStatus.FAILED;
   ExecutionJobStatus.TIMED_OUT; ExecutionJobStatus.CANCELLED].

(** [execution_job_id] with its row, if both exist. *)
Definition job_of_action (db : Db) (a : ActionRow) : option JobRow :=
  if truthy_str (act_execution_job_id a)
  then get_by job_job_id (default "" (act_execution_job_id a)) (db_jobs db) else None.

(** The end of [_reclaim_stale_executing_action], past the job checks. *)
Definition reclaim_without_live_job (now lease_seconds max_attempts : Z) (db : Db)
    (a : ActionRow) (job_row : option JobRow) (category : ActionCategory) : result (Db * bool) :=
  let back_to_approved :=
    validate_action_status_transition category ActionStatus.EXECUTING ActionStatus.APPROVED
      {| ata_execution_phase := ActionExecutionPhase.IMMEDIATE;
         ata_after_effect_resolution := false; ata_template_unchanged := true;
         ata_has_job_or_outbox := false; ata_action_level := ActionLevel.L0;
         ata_auto_execute := false; ata_has_approval_evidence := false;
         ata_lease_expired_reclaim := true |} ;;
    Ok (put_action (moved_action a ActionStatus.APPROVED None (act_executed_at a) now) db,
        true) in
  if _has_active_outbox db (act_action_id a) then Ok (db, false)
  else match job_row with
       | None => if (now <? act_updated_at a + lease_seconds)%Z then Ok (db, false)
                 else back_to_approved
       | Some j =>
           if (max_attempts <=? job_attempt j)%Z then
             validate_action_status_transition category ActionStatus.EXECUTING
               ActionStatus.FAILED default_action_args ;;
             Ok (put_action (moved_action a ActionStatus.FAILED None (Some now) now) db, true)
           else back_to_approved
       end.

Definition _reclaim_stale_executing_action (now lease_seconds max_attempts : Z) (db : Db)
    (a : ActionRow) : result (Db * bool) :=
  status ← enum_of_value_or_raise (act_status a);
  if status !=? ActionStatus.EXECUTING then Ok (db, false)
  else if negb (act_action_category a ∈? _RECLAIMABLE_ACTION_CATEGORIES) then Ok (db, false)
  else if act_execution_phase a !=? enum_value ActionExecutionPhase.IMMEDIATE
  then Ok (db, false)
  else
    category ← enum_of_value_or_raise (act_action_category a);
    match job_of_action db a with
    | None => reclaim_without_live_job now lease_seconds max_attempts db a None category
    | Some j =>
        job_st ← enum_of_value_or_raise (job_status j);
        if job_st ∈? final_job_statuses then
          let target := _map_job_to_action_status job_st in
          validate_action_status_transition category ActionStatus.EXECUTING target
            default_action_args ;;
          Ok (put_action (moved_action a target (act_execution_job_id a) (Some now) now) db,
              true)
        else if match job_lease_expires_at j with Some t => (now <=? t)%Z | None => false end
                && (job_st ∈? [ExecutionJobStatus.QUEUED; ExecutionJobStatus.RUNNING])
        then Ok (db, false)
        else reclaim_without_live_job now lease_seconds max_attempts db a (Some j) category
    end.

(** ** The whole pass *)

(** Rows are objects of one session: each round reads the row as the previous rounds left it. *)
Fixpoint reclaim_loop {Row} (pk : Row → string) (table : Db → list Row)
    (step : Db → Row → result (Db * bool)) (db : Db) (reconciled : Z) (ids : list string) :
    result (Db * Z) :=
  match ids with
  | [] => Ok (db, reconciled)
  | id :: ids' =>
      match get_by pk id (table db) with
      | None => reclaim_loop pk table step db reconciled ids'
      | Some row =>
          match step db row with
          | Err e => Err e
          | Ok (db', hit) =>
              reclaim_loop pk table step db' (if hit then (reconciled + 1)%Z else reconciled)
                ids'
          end
      end
  end.

Record ReconcileSettings : Type := {
  rec_enabled : bool;
  rec_max_attempts : Z;
  rec_lease_seconds : Z
}.

Definition event_matches (event_id : option string) (row_event : string) : bool :=
  match event_id with Some e => row_event ==? e | None => true end.

Definition job_le (j1 j2 : JobRow) : Prop := (job_updated_at j1 ≤ job_updated_at j2)%Z.
Definition action_le (a1 a2 : ActionRow) : Prop := (act_updated_at a1 ≤ act_updated_at a2)%Z.
#[global] Instance job_le_dec : RelDecision job_le.
Proof. intros ? ?. unfold job_le. apply _. Defined.
#[global] Instance action_le_dec : RelDecision action_le.
Proof. intros ? ?. unfold action_le. apply _. Defined.

Definition stale_job (now : Z) (j : JobRow) : bool :=
  (job_status j ∈? [enum_value ExecutionJobStatus.QUEUED; enum_value ExecutionJobStatus.RUNNING])
  && match job_lease_expires_at j with Some t => (t <? now)%Z | None => false end.

Definition stuck_action (a : ActionRow) : bool :=
  (act_status a ==? enum_value ActionStatus.EXECUTING)
  && (act_execution_phase a ==? enum_value ActionExecutionPhase.IMMEDIATE)
  && (act_action_category a ∈? _RECLAIMABLE_ACTION_CATEGORIES).

(** [reconcile_stale_executions_for_event] *)
Definition reconcile_stale_executions_for_event (settings : ReconcileSettings)
    (locked : string → bool) (now : Z) (db : Db) (event_id : option string) (limit : nat)
    (force : bool) : result (Db * Z) :=
  if negb force && negb (rec_enabled settings) then Ok (db, 0%Z)
  else
    let job_ids := job_job_id <$> take limit (merge_sort job_le
      (List.filter (λ j, stale_job now j && event_matches event_id (job_event_id j)
                         && negb (locked (job_job_id j))) (db_jobs db))) in
    match reclaim_loop job_job_id db_jobs
            (_reclaim_stale_job_row now (rec_max_attempts settings)) db 0%Z job_ids with
    | Err e => Err e
    | Ok (db1, reconciled) =>
    let action_ids := act_action_id <$> take limit (merge_sort action_le
      (List.filter (λ a, stuck_action a && event_matches event_id (act_event_id a)
                         && negb (locked (act_action_id a))) (db_actions db1))) in
    reclaim_loop act_action_id db_actions
      (_reclaim_stale_executing_action now (rec_lease_seconds settings)
         (rec_max_attempts settings)) db1 reconciled action_ids
    end.

(** [reconcile_stale_executions_before_close]: any failure refuses the close. *)
Definition reconcile_stale_executions_before_close (settings : ReconcileSettings)
    (locked : string → bool) (now : Z) (db : Db) (event_id : string) (limit : nat) :
    result (Db * Z) :=
  match reconcile_stale_executions_for_event settings locked now db (Some event_id) limit true
  with
  | Ok r => Ok r
  | Err _ =>
      Err (closed_refused "stale execution reconcile failed before CLOSED gate"
             [("event_id", VStr event_id); ("reason", VStr "stale_reconcile_failed")]
             (Some "closed_side_effects_pending"))
  end.

(** * What the stale execution reclaim guarantees *)

#[local] Close Scope string_scope.

(** ** The relation a pass establishes *)

Definition action_reclaimed (db : Db) (a0 a : ActionRow) : Prop :=
  a = a0 ∨
  act_status a0 = enum_value ActionStatus.EXECUTING ∧
  ∃ s job_id executed now, a = moved_action a0 s job_id executed now ∧
    s ∈ [ActionStatus.APPROVED; ActionStatus.FAILED; ActionStatus.SUCCESS;
         ActionStatus.PARTIAL_SUCCESS] ∧
    (s = ActionStatus.APPROVED → _has_active_outbox db (act_action_id a0) = false).

Definition job_reclaimed (now max_attempts : Z) (db : Db) (j0 j : JobRow) : Prop :=
  j = j0 ∨
  (∃ s, job_status j0 = enum_value s ∧
     s ∈ [ExecutionJobStatus.QUEUED; ExecutionJobStatus.RUNNING]) ∧
  (∃ lease, job_lease_expires_at j0 = Some lease ∧ (lease < now)%Z) ∧
  _has_active_outbox db (job_action_id j0) = false ∧
  ∃ message finished,
    ((max_attempts ≤ job_attempt j0)%Z ∧
     j = released_job j0 (enum_value ExecutionJobStatus.TIMED_OUT) (job_attempt j0) message
           finished now) ∨
    ((job_attempt j0 < max_attempts)%Z ∧
     j = released_job j0 (enum_value ExecutionJobStatus.QUEUED) (job_attempt j0 + 1) message
           finished now).

Record reconciled (now max_attempts : Z) (db db' : Db) : Prop := {
  rcd_actions : Forall2 (action_reclaimed db) (db_actions db) (db_actions db');
  rcd_jobs : Forall2 (job_reclaimed now max_attempts db) (db_jobs db) (db_jobs db');
  rcd_rest : db' = db_with_executions (db_actions db') (db_jobs db') db
}.

(** Primary keys. *)
Record keyed (db : Db) : Prop := {
  key_actions : NoDup (act_action_id <$> db_actions db);
  key_jobs : NoDup (job_job_id <$> db_jobs db)
}.

Lemma active_outbox_same db db' aid :
  db_outboxes db' = db_outboxes db → _has_active_outbox db' aid = _has_active_outbox db aid.
Proof. unfold _has_active_outbox. by intros ->. Qed.

Lemma rcd_outboxes now m db db' : reconciled now m db db' → db_outboxes db' = db_outboxes db.
Proof. intros [_ _ ->]. done. Qed.

Lemma action_reclaimed_trans db a b c :
  action_reclaimed db a b → action_reclaimed db b c → action_reclaimed db a c.
Proof.
  intros [->|(Ha & s & ? & ? & ? & -> & Hs & ?)]; [done|].
  intros [->|(Hb & _)]; [right; eauto 10|]. cbn in Hb. apply (inj _) in Hb. set_solver.
Qed.

Lemma job_reclaimed_trans now m db a b c :
  job_reclaimed now m db a b → job_reclaimed now m db b c → job_reclaimed now m db a c.
Proof.
  intros [->|Hab]; [done|]. intros [->|(_ & (l & Hl & _) & _)]; [by right|].
  by destruct Hab as (_ & _ & _ & ? & ? & [[_ ->]|[_ ->]]).
Qed.

Lemma reconciled_refl now m db : reconciled now m db db.
Proof.
  split; [apply Forall2_same; by left|apply Forall2_same; by left|].
  by destruct db.
Qed.

Lemma reconciled_trans now m db1 db2 db3 :
  reconciled now m db1 db2 → reconciled now m db2 db3 → reconciled now m db1 db3.
Proof.
  intros H12 [Ha Hj Hr]. pose proof (rcd_outboxes _ _ _ _ H12) as Ho.
  destruct H12 as [Ha' Hj' Hr']. split.
  - eapply Forall2_compose; [|done|exact Ha]. intros a b c Hab Hbc.
    eapply action_reclaimed_trans; [done|]. unfold action_reclaimed in *.
    by setoid_rewrite (active_outbox_same _ _ _ Ho) in Hbc.
  - eapply Forall2_compose; [|done|exact Hj]. intros a b c Hab Hbc.
    eapply job_reclaimed_trans; [done|]. unfold job_reclaimed in *.
    by rewrite (active_outbox_same _ _ _ Ho) in Hbc.
  - rewrite Hr, Hr'. done.
Qed.

(** Rows with unique keys. *)
Lemma NoDup_fmap_filter {A B} (f : A → B) (p : A → bool) l :
  NoDup (f <$> l) → NoDup (f <$> List.filter p l).
Proof.
  induction l as [|x l IH]; [done|]. cbn. intros [Hx Hnd]%NoDup_cons.
  destruct (p x); [|auto]. cbn. apply NoDup_cons. split; [|auto].
  intros (y & He & Hy)%list_elem_of_fmap. apply in_where in Hy as [Hy _].
  destruct Hx. rewrite He. by apply list_elem_of_fmap_2.
Qed.

Lemma NoDup_fmap_elem {A B} (f : A → B) l x y :
  NoDup (f <$> l) → x ∈ l → y ∈ l → f x = f y → x = y.
Proof.
  induction l as [|z l IH]; [set_solver|]. cbn. intros [Hz Hnd]%NoDup_cons Hx Hy He.
  apply elem_of_cons in Hx as [->|Hx]; apply elem_of_cons in Hy as [->|Hy]; auto; destruct Hz.
  - rewrite He. by apply list_elem_of_fmap_2.
  - rewrite <-He. by apply list_elem_of_fmap_2.
Qed.

Lemma NoDup_fmap_take {A B} (f : A → B) n l : NoDup (f <$> l) → NoDup (f <$> take n l).
Proof.
  intros H. rewrite <-(take_drop n l), fmap_app in H. by apply NoDup_app in H as [].
Qed.

(** [SELECT ... ORDER BY ... LIMIT n] *)
(** The table after a write. *)
Lemma elem_of_update_by {A} (pk : A → string) l y z :
  z ∈ update_by pk y l ↔ z = y ∧ (∃ x, x ∈ l ∧ pk x = pk y) ∨ z ∈ l ∧ pk z ≠ pk y.
Proof.
  unfold update_by. rewrite list_elem_of_fmap. split.
  - intros (x & -> & Hx). case_bool_decide; [left; eauto|by right].
  - intros [(-> & x & Hx & Hpk)|(Hz & Hne)].
    + exists x. by rewrite bool_decide_eq_true_2.
    + exists z. by rewrite bool_decide_eq_false_2.
Qed.

Lemma get_by_elem {A} (pk : A → string) l x :
  NoDup (pk <$> l) → x ∈ l → get_by pk (pk x) l = Some x.
Proof.
  intros Hnd Hx. destruct (get_by pk (pk x) l) as [y|] eqn:Hg.
  - apply get_by_Some in Hg as [Hy Hk]. by rewrite (NoDup_fmap_elem pk l y x Hnd Hy Hx Hk).
  - apply (List.find_none _ _) with (x := x) in Hg; [|by apply list_elem_of_In].
    by rewrite bool_decide_eq_true_2 in Hg.
Qed.

Lemma NoDup_fmap_selected {A B} (f : A → B) (R : relation A) `{!RelDecision R} p n l :
  NoDup (f <$> l) → NoDup (f <$> take n (merge_sort R (List.filter p l))).
Proof.
  intros H. apply NoDup_fmap_take. rewrite merge_sort_Permutation. by apply NoDup_fmap_filter.
Qed.

Lemma elem_of_selected {A} (R : relation A) `{!RelDecision R} p n l x :
  x ∈ take n (merge_sort R (List.filter p l)) → x ∈ l ∧ p x = true.
Proof.
  intros Hx. apply in_where. rewrite <-(merge_sort_Permutation R).
  rewrite <-(take_drop n (merge_sort R _)). apply elem_of_app. by left.
Qed.

Lemma Forall2_fmap_same {A} (f : A → string) (R : A → A → Prop) l k :
  (∀ x y, R x y → f y = f x) → Forall2 R l k → f <$> k = f <$> l.
Proof. intros HR. induction 1 as [|x y l k Hxy _ IH]; [done|]. cbn. f_equal; auto. Qed.

(** Writing back one row of a table with unique keys changes that row only. *)
Lemma update_by_related {A} (R : A → A → Prop) (pk : A → string) l x y :
  (∀ z, R z z) → NoDup (pk <$> l) → x ∈ l → pk y = pk x → R x y →
  Forall2 R l (update_by pk y l).
Proof.
  intros Hrefl. unfold update_by. induction l as [|z l IH]; intros Hnd Hx Hpk HR; [done|].
  cbn in *. apply NoDup_cons in Hnd as [Hz Hnd].
  constructor.
  - case_bool_decide as E; [|done].
    apply elem_of_cons in Hx as [->|Hx]; [done|].
    destruct Hz. rewrite E, Hpk. by apply list_elem_of_fmap_2.
  - apply elem_of_cons in Hx as [->|Hx]; [|by apply IH].
    clear IH. assert (Hne : ∀ w, w ∈ l → pk w ≠ pk y).
    { intros w Hw E. destruct Hz. rewrite <-Hpk, <-E. by apply list_elem_of_fmap_2. }
    clear Hz Hnd. induction l as [|w l IHl]; [constructor|]. cbn.
    rewrite bool_decide_eq_false_2 by (apply Hne; set_solver).
    constructor; [done|]. apply IHl. set_solver.
Qed.

Lemma put_action_reconciled now m db a a' :
  keyed db → a ∈ db_actions db → act_action_id a' = act_action_id a →
  action_reclaimed db a a' → reconciled now m db (put_action a' db).
Proof.
  intros [Hka _] Ha Hid HR. split; cbn; [|apply Forall2_same; by left|done].
  eapply update_by_related; [by left|done..].
Qed.

Lemma put_job_reconciled now m db j j' :
  keyed db → j ∈ db_jobs db → job_job_id j' = job_job_id j →
  job_reclaimed now m db j j' → reconciled now m db (put_job j' db).
Proof.
  intros [_ Hkj] Hj Hid HR. split; cbn; [apply Forall2_same; by left| |done].
  eapply update_by_related; [by left|done..].
Qed.

Lemma reconciled_keyed now m db db' : reconciled now m db db' → keyed db → keyed db'.
Proof.
  intros [Ha Hj _] [Hka Hkj]. split.
  - replace (act_action_id <$> db_actions db') with (act_action_id <$> db_actions db); [done|].
    clear Hka. induction Ha as [|a a' l l' HR Hl IH]; [done|]. cbn. f_equal; [|done].
    destruct HR as [->|(_ & s & ? & ? & ? & -> & _)]; done.
  - replace (job_job_id <$> db_jobs db') with (job_job_id <$> db_jobs db); [done|].
    clear Hkj. induction Hj as [|j j' l l' HR Hl IH]; [done|]. cbn. f_equal; [|done].
    destruct HR as [->|(_ & _ & _ & ? & ? & [[_ ->]|[_ ->]])]; done.
Qed.

(** ** One row *)

Lemma fail_executing_reconciled now m db aid t db' :
  keyed db → fail_executing_action db aid t = Ok db' → reconciled now m db db'.
Proof.
  intros Hk. unfold fail_executing_action.
  destruct (get_by act_action_id aid (db_actions db)) as [a|] eqn:Ea;
    [|intros [= <-]; apply reconciled_refl].
  apply get_by_Some in Ea as [Ha _].
  intros (s & Hs & Hrest)%bind_Ok. run_ok.
  case_bool_decide as E; [subst s|injection Hrest as <-; apply reconciled_refl].
  apply bind_Ok in Hrest as (c & _ & [_ [= <-]]%unit_seq_Ok).
  eapply put_action_reconciled; [done|done|done|]. right.
  split; [done|]. do 4 eexists. split; [done|]. split; [set_solver|done].
Qed.

Lemma reclaim_job_reconciled now m db j db' b :
  keyed db → j ∈ db_jobs db → _reclaim_stale_job_row now m db j = Ok (db', b) →
  reconciled now m db db'.
Proof.
  intros Hk Hj. unfold _reclaim_stale_job_row.
  destruct (job_lease_expires_at j) as [lease|] eqn:El;
    [|intros [= <- _]; apply reconciled_refl].
  destruct (Z.leb_spec now lease) as [?|Hlt]; [intros [= <- _]; apply reconciled_refl|].
  intros (s & Hs & Hrest)%bind_Ok. run_ok.
  case_bool_decide as Hq; cbn [negb] in Hrest;
    [|injection Hrest as <- _; apply reconciled_refl].
  destruct (_has_active_outbox db (job_action_id j)) eqn:Eo;
    [injection Hrest as <- _; apply reconciled_refl|].
  destruct (Z.leb_spec m (job_attempt j)) as [Hm|Hm].
  - apply unit_seq_Ok in Hrest as [_ (db1 & Hf & [= <- _])%bind_Ok].
    match type of Hf with fail_executing_action (put_job ?j' _) _ _ = _ =>
      assert (reconciled now m db (put_job j' db)) as Hput end.
    { eapply put_job_reconciled; [done|done|done|]. right. split_and!; eauto 10. }
    eapply reconciled_trans; [done|].
    eapply fail_executing_reconciled; [by eapply reconciled_keyed|done].
  - apply unit_seq_Ok in Hrest as [_ [= <- _]].
    eapply put_job_reconciled; [done|done|done|]. right. split_and!; eauto 10.
Qed.

Lemma moved_reconciled now m db a s job_id executed t :
  keyed db → a ∈ db_actions db → act_status a = enum_value ActionStatus.EXECUTING →
  s ∈ [ActionStatus.APPROVED; ActionStatus.FAILED; ActionStatus.SUCCESS;
       ActionStatus.PARTIAL_SUCCESS] →
  (s = ActionStatus.APPROVED → _has_active_outbox db (act_action_id a) = false) →
  reconciled now m db (put_action (moved_action a s job_id executed t) db).
Proof.
  intros Hk Ha Hs Hin Ho. eapply put_action_reconciled; [done|done|done|]. right. eauto 10.
Qed.

Lemma reclaim_without_live_job_reconciled now ls m m' db a jr c db' b :
  keyed db → a ∈ db_actions db → act_status a = enum_value ActionStatus.EXECUTING →
  reclaim_without_live_job now ls m db a jr c = Ok (db', b) → reconciled now m' db db'.
Proof.
  intros Hk Ha Hs. unfold reclaim_without_live_job.
  destruct (_has_active_outbox db (act_action_id a)) eqn:Eo;
    [intros [= <- _]; apply reconciled_refl|].
  assert (Hb : ∀ u : result unit, (u ;; Ok (put_action (moved_action a ActionStatus.APPROVED None
    (act_executed_at a) now) db, true)) = Ok (db', b) → reconciled now m' db db').
  { intros u [_ [= <- _]]%unit_seq_Ok. apply moved_reconciled; [done..|set_solver|done]. }
  destruct jr as [j|].
  - destruct (Z.leb_spec m (job_attempt j)); [|apply Hb].
    intros [_ [= <- _]]%unit_seq_Ok. apply moved_reconciled; [done..|set_solver|done].
  - destruct (now <? act_updated_at a + ls)%Z; [|apply Hb].
    intros [= <- _]. apply reconciled_refl.
Qed.

Lemma final_job_target s :
  s ∈ final_job_statuses →
  _map_job_to_action_status s ∈ [ActionStatus.FAILED; ActionStatus.SUCCESS;
                                 ActionStatus.PARTIAL_SUCCESS].
Proof. unfold final_job_statuses. destruct s; cbn; set_solver. Qed.

Lemma reclaim_action_reconciled now ls m m' db a db' b :
  keyed db → a ∈ db_actions db →
  _reclaim_stale_executing_action now ls m db a = Ok (db', b) → reconciled now m' db db'.
Proof.
  intros Hk Ha (s & Hs & Hrest)%bind_Ok. run_ok.
  case_bool_decide as E; cbn [negb] in Hrest; [subst s|].
  2: { injection Hrest as <- _; apply reconciled_refl. }
  case_bool_decide; cbn [negb] in Hrest; [|injection Hrest as <- _; apply reconciled_refl].
  case_bool_decide; cbn [negb] in Hrest; [|injection Hrest as <- _; apply reconciled_refl].
  apply bind_Ok in Hrest as (c & _ & Hrest).
  destruct (job_of_action db a) as [j|];
    [|by eapply reclaim_without_live_job_reconciled].
  apply bind_Ok in Hrest as (js & _ & Hrest).
  case_bool_decide as Hf.
  - apply unit_seq_Ok in Hrest as [_ [= <- _]]. pose proof (final_job_target js Hf).
    apply moved_reconciled; [done..|set_solver|]. intros E. set_solver.
  - destruct (_ && _); [injection Hrest as <- _; apply reconciled_refl|].
    by eapply reclaim_without_live_job_reconciled.
Qed.

(** ** The pass *)

Lemma reclaim_loop_reconciled {Row} (pk : Row → string) (table : Db → list Row) step now m :
  (∀ db row db' b, keyed db → row ∈ table db → step db row = Ok (db', b) →
     reconciled now m db db') →
  ∀ ids db n db' n', keyed db → reclaim_loop pk table step db n ids = Ok (db', n') →
    reconciled now m db db' ∧ (n ≤ n' ≤ n + Z.of_nat (length ids))%Z.
Proof.
  intros Hstep. induction ids as [|id ids IH]; intros db n db' n' Hk; cbn [reclaim_loop].
  - intros [= <- <-]. split; [apply reconciled_refl|cbn; lia].
  - destruct (get_by pk id (table db)) as [row|] eqn:Er.
    + destruct (step db row) as [[db1 b]|] eqn:Es; [|done]. intros Hl.
      apply get_by_Some in Er as [Hrow _].
      pose proof (Hstep _ _ _ _ Hk Hrow Es) as H1.
      destruct (IH _ _ _ _ (reconciled_keyed _ _ _ _ H1 Hk) Hl) as [H2 Hn].
      split; [by eapply reconciled_trans|]. cbn [length]. destruct b; lia.
    + intros Hl. destruct (IH _ _ _ _ Hk Hl) as [H2 Hn]. split; [done|]. cbn [length]. lia.
Qed.

Lemma selected_le {A} (f : A → string) limit (l : list A) : length (f <$> take limit l) ≤ limit.
Proof. rewrite length_fmap, length_take. lia. Qed.

Lemma reconcile_pass_bounds (settings : ReconcileSettings) (locked : string → bool) (now : Z)
    (db : Db) (event_id : option string) (limit : nat) (force : bool) (db' : Db) (n : Z) :
  keyed db →
  reconcile_stale_executions_for_event settings locked now db event_id limit force = Ok (db', n) →
  reconciled now (rec_max_attempts settings) db db' ∧ (0 ≤ n ≤ 2 * Z.of_nat limit)%Z.
Proof.
  intros Hk. unfold reconcile_stale_executions_for_event.
  destruct (_ && _); [intros [= <- <-]; split; [apply reconciled_refl|lia]|].
  destruct (reclaim_loop job_job_id _ _ _ _ _) as [[db1 n1]|] eqn:Ej; [|done].
  apply (reclaim_loop_reconciled _ _ _ now (rec_max_attempts settings)) in Ej as [Hj Hn1];
    [|intros; by eapply reclaim_job_reconciled|done].
  intros Ha.
  apply (reclaim_loop_reconciled _ _ _ now (rec_max_attempts settings)) in Ha as [Ha Hn];
    [|intros; by eapply reclaim_action_reconciled|by eapply reconciled_keyed].
  split; [by eapply reconciled_trans|].
  match type of Hn1 with context [length (?f <$> take ?k ?l)] =>
    pose proof (selected_le f k l) end.
  match type of Hn with context [length (?f <$> take ?k ?l)] =>
    pose proof (selected_le f k l) end.
  lia.
Qed.

(** What a reclaim pass may do: an Action is touched only if it was EXECUTING, and goes back to
    APPROVED (to be dispatched again) only when no outbox row may still be acting for it; a job
    is touched only if it was QUEUED or RUNNING with an expired lease and no active outbox, and
    either times out at the attempt limit or is queued again with one more attempt; nothing else
    in the database changes, and at most twice the limit of rows do. *)
Theorem reconcile_safe (settings : ReconcileSettings) (locked : string → bool) (now : Z)
    (db : Db) (event_id : option string) (limit : nat) (force : bool) (db' : Db) (n : Z) :
  keyed db →
  reconcile_stale_executions_for_event settings locked now db event_id limit force = Ok (db', n) →
  reconciled now (rec_max_attempts settings) db db' ∧ (0 ≤ n ≤ 2 * Z.of_nat limit)%Z.
Proof. apply reconcile_pass_bounds. Qed.

Lemma reconcile_pass settings locked now db event_id limit force db' n :
  keyed db →
  reconcile_stale_executions_for_event settings locked now db event_id limit force = Ok (db', n) →
  reconciled now (rec_max_attempts settings) db db'.
Proof. intros Hk Hr. by eapply reconcile_pass_bounds in Hr as []. Qed.

(** ** Totality *)

(** The text columns the pass parses hold members of their enums. *)
Record readable (db : Db) : Prop := {
  rd_actions : Forall (λ a, (∃ s : ActionStatus, act_status a = enum_value s) ∧
                            (∃ c : ActionCategory, act_action_category a = enum_value c))
                 (db_actions db);
  rd_jobs : Forall (λ j, ∃ s : ExecutionJobStatus, job_status j = enum_value s) (db_jobs db)
}.

Lemma reconciled_readable now m db db' : reconciled now m db db' → readable db → readable db'.
Proof.
  intros [Ha Hj _] [Hra Hrj]. split.
  - clear Hj Hrj. induction Ha as [|a a' l l' HR Hl IH]; [done|].
    apply Forall_cons in Hra as [[Hs Hc] Hra]. constructor; [|by apply IH].
    destruct HR as [->|(_ & s & ? & ? & ? & -> & _)]; cbn; eauto.
  - clear Ha Hra. induction Hj as [|j j' l l' HR Hl IH]; [done|].
    apply Forall_cons in Hrj as [Hs Hrj]. constructor; [|by apply IH].
    destruct HR as [->|(_ & _ & _ & ? & ? & [[_ ->]|[_ ->]])]; cbn; eauto.
Qed.

Lemma readable_action db a :
  readable db → a ∈ db_actions db →
  (∃ s : ActionStatus, enum_of_value_or_raise (act_status a) = Ok s) ∧
  (∃ c : ActionCategory, enum_of_value_or_raise (act_action_category a) = Ok c).
Proof.
  intros [Hra _] Ha. rewrite Forall_forall in Hra.
  destruct (Hra a Ha) as [[s Hs] [c Hc]]. split; eexists; by apply enum_of_value_or_raise_Ok.
Qed.

Lemma readable_job db j :
  readable db → j ∈ db_jobs db →
  ∃ s : ExecutionJobStatus, enum_of_value_or_raise (job_status j) = Ok s.
Proof.
  intros [_ Hrj] Hj. rewrite Forall_forall in Hrj.
  destruct (Hrj j Hj) as [s Hs]. eexists; by apply enum_of_value_or_raise_Ok.
Qed.

Lemma executing_to_failed c :
  validate_action_status_transition c ActionStatus.EXECUTING ActionStatus.FAILED
    default_action_args = Ok tt.
Proof. by destruct c. Qed.

Lemma fail_executing_total db aid t :
  readable db → ∃ db', fail_executing_action db aid t = Ok db'.
Proof.
  intros Hr. unfold fail_executing_action.
  destruct (get_by act_action_id aid (db_actions db)) as [a|] eqn:Ea; [|by eexists].
  apply get_by_Some in Ea as [Ha _].
  destruct (readable_action db a Hr Ha) as [[s ->] [c ->]]. cbn.
  case_bool_decide; [|by eexists]. rewrite executing_to_failed. by eexists.
Qed.

Lemma reclaim_job_total now m db j :
  keyed db → readable db → j ∈ db_jobs db → ∃ r, _reclaim_stale_job_row now m db j = Ok r.
Proof.
  intros Hk Hr Hj. unfold _reclaim_stale_job_row.
  destruct (job_lease_expires_at j) as [lease|] eqn:El; [|by eexists].
  destruct (Z.leb_spec now lease) as [?|Hlt]; [by eexists|].
  destruct (readable_job db j Hr Hj) as [s Hs]. rewrite Hs. cbn [mbind result_bind].
  case_bool_decide as Hq; cbn [negb]; [|by eexists].
  destruct (_has_active_outbox db (job_action_id j)) eqn:Eo; [by eexists|].
  destruct (Z.leb_spec m (job_attempt j)) as [Hm|Hm].
  - assert (validate_job_status_transition s ExecutionJobStatus.TIMED_OUT false
      (s ==? ExecutionJobStatus.QUEUED) = Ok tt) as -> by (destruct s; done || set_solver).
    cbn [mbind result_bind]. set (j' := released_job _ _ _ _ _ _).
    assert (readable (put_job j' db)) as Hr'.
    { eapply (reconciled_readable now m); [|done]. apply enum_of_value_or_raise_Ok in Hs.
      eapply put_job_reconciled; [done|done|done|]. right. split_and!; eauto 10. }
    destruct (fail_executing_total (put_job j' db) (job_action_id j) now Hr') as [db' ->].
    by eexists.
  - assert ((if s ==? ExecutionJobStatus.RUNNING
      then validate_job_status_transition s ExecutionJobStatus.QUEUED false true
      else Ok tt) = Ok tt) as -> by (by destruct s). by eexists.
Qed.

Lemma reclaim_without_live_job_total now ls m db a jr c :
  c = ActionCategory.RESPONSE ∨ c = ActionCategory.ROLLBACK →
  ∃ r, reclaim_without_live_job now ls m db a jr c = Ok r.
Proof.
  intros Hc. unfold reclaim_without_live_job.
  destruct (_has_active_outbox db (act_action_id a)); [by eexists|].
  assert (∀ args, ata_lease_expired_reclaim args = true → ata_action_level args = ActionLevel.L0 →
    validate_action_status_transition c ActionStatus.EXECUTING ActionStatus.APPROVED args = Ok tt)
    as Hv.
  { intros args Hl Hlv. apply validate_action_status_transition_Ok.
    destruct Hc as [-> | ->]; split; cbn; try done; try set_solver;
      intros _ _ []; rewrite Hlv; apply (bool_decide_unpack _); by vm_compute. }
  destruct jr as [j|]; [destruct (Z.leb m (job_attempt j))|destruct (now <? _)%Z];
    rewrite ?executing_to_failed, ?Hv by done; by eexists.
Qed.

Lemma reclaim_action_total now ls m db a :
  readable db → a ∈ db_actions db →
  ∃ r, _reclaim_stale_executing_action now ls m db a = Ok r.
Proof.
  intros Hr Ha. unfold _reclaim_stale_executing_action.
  destruct (readable_action db a Hr Ha) as [[s ->] [c Hc]]. cbn [mbind result_bind].
  case_bool_decide as E; cbn [negb]; [subst s|by eexists].
  case_bool_decide as Hcat; cbn [negb]; [|by eexists].
  case_bool_decide; cbn [negb]; [|by eexists].
  rewrite Hc. cbn [mbind result_bind]. apply enum_of_value_or_raise_Ok in Hc.
  assert (c = ActionCategory.RESPONSE ∨ c = ActionCategory.ROLLBACK) as Hcc.
  { rewrite Hc in Hcat. unfold _RECLAIMABLE_ACTION_CATEGORIES in Hcat.
    rewrite !elem_of_cons, elem_of_nil, !enum_value_eq in Hcat. naive_solver. }
  destruct (job_of_action db a) as [j|] eqn:Ej; [|by apply reclaim_without_live_job_total].
  assert (j ∈ db_jobs db) as Hj.
  { unfold job_of_action in Ej. destruct (truthy_str _); [|done].
    by apply get_by_Some in Ej as []. }
  destruct (readable_job db j Hr Hj) as [js ->]. cbn [mbind result_bind].
  case_bool_decide as Hf.
  - assert (validate_action_status_transition c ActionStatus.EXECUTING
      (_map_job_to_action_status js) default_action_args = Ok tt) as ->
      by (destruct Hcc as [-> | ->], js; done || set_solver).
    by eexists.
  - destruct (_ && _); [by eexists|by apply reclaim_without_live_job_total].
Qed.

Lemma reclaim_loop_total {Row} (pk : Row → string) (table : Db → list Row) step now m :
  (∀ db row, keyed db → readable db → row ∈ table db → ∃ r, step db row = Ok r) →
  (∀ db row db' b, keyed db → row ∈ table db → step db row = Ok (db', b) →
     reconciled now m db db') →
  ∀ ids db n, keyed db → readable db → ∃ r, reclaim_loop pk table step db n ids = Ok r.
Proof.
  intros Htot Hstep. induction ids as [|id ids IH]; intros db n Hk Hr; cbn [reclaim_loop];
    [by eexists|].
  destruct (get_by pk id (table db)) as [row|] eqn:Er; [|by apply IH].
  apply get_by_Some in Er as [Hrow _].
  destruct (Htot db row Hk Hr Hrow) as [[db1 b] Es]. rewrite Es.
  pose proof (Hstep _ _ _ _ Hk Hrow Es) as H1.
  apply IH; [by eapply reconciled_keyed|by eapply reconciled_readable].
Qed.

Lemma job_pass_total now m db n ids :
  keyed db → readable db →
  ∃ db' n', reclaim_loop job_job_id db_jobs (_reclaim_stale_job_row now m) db n ids = Ok (db', n')
    ∧ keyed db' ∧ readable db'.
Proof.
  intros Hk Hr.
  destruct (reclaim_loop_total job_job_id db_jobs (_reclaim_stale_job_row now m) now m
    ltac:(intros; by apply reclaim_job_total) ltac:(intros; by eapply reclaim_job_reconciled)
    ids db n Hk Hr) as [[db' n'] Hl].
  exists db', n'. split; [done|].
  apply (reclaim_loop_reconciled _ _ _ now m) in Hl as [Hrec _];
    [|intros; by eapply reclaim_job_reconciled|done].
  split; [by eapply reconciled_keyed|by eapply reconciled_readable].
Qed.

Lemma action_pass_total now ls m db n ids :
  keyed db → readable db →
  ∃ r, reclaim_loop act_action_id db_actions (_reclaim_stale_executing_action now ls m) db n ids
       = Ok r.
Proof.
  intros Hk Hr. apply (reclaim_loop_total _ _ _ now m); [|..]; [| |done|done].
  - intros. by apply reclaim_action_total.
  - intros. by eapply reclaim_action_reconciled.
Qed.

(** On readable rows the pass cannot fail: every write it makes is one its validator accepts,
    so the reclaim before CLOSED never refuses the close by itself. *)
Theorem reconcile_before_close_total (settings : ReconcileSettings) (locked : string → bool)
    (now : Z) (db : Db) (event_id : string) (limit : nat) :
  keyed db → readable db →
  ∃ db' n, reconcile_stale_executions_before_close settings locked now db event_id limit
           = Ok (db', n).
Proof.
  intros Hk Hr. unfold reconcile_stale_executions_before_close,
    reconcile_stale_executions_for_event. cbn [negb andb].
  match goal with |- context [reclaim_loop job_job_id _ _ _ _ ?ids] =>
    destruct (job_pass_total now (rec_max_attempts settings) db 0 ids Hk Hr)
      as (db1 & n1 & -> & Hk1 & Hr1) end.
  match goal with |- context [reclaim_loop act_action_id _ _ _ _ ?ids] =>
    destruct (action_pass_total now (rec_lease_seconds settings) (rec_max_attempts settings)
      db1 n1 ids Hk1 Hr1) as [[db2 n2] ->] end.
  eauto.
Qed.
