(* ===== verification/ContextJournal.v ===== *)
(** * The versioned context journal (backend/app/services/context_service.py)

    The PostgreSQL half of EventContextStore: field versions, the append-only journal, [set],
    [compare_and_set], the monotonic completion marker and the versioned read.  Redis is a cache of
    this state: only whether its write succeeded reaches the callers ([redis_ok]). *)

From stdpp Require Import prelude strings gmap.
From S2P Require Import Prelude Enums Errors Db.

#[local] Open Scope string_scope.

(** The fields of EventContext (backend/app/models/context.py). *)
Definition CONTEXT_FIELD_NAMES : list string :=
  ["event"; "source_snapshot"; "source_sync_state"; "detection_context_snapshot";
   "triage_result"; "false_positive_match"; "fp_adjudication"; "evidence_output"; "storyline";
   "graph_output"; "rag_output"; "risk_assessment"; "execution_plan"; "response_plan";
   "approval_records"; "disposition_only_intent"; "execution_substate"; "manual_hold";
   "execution_summary"; "execution_jobs"; "verification_result"; "rollback_results";
   "impact_assessments"; "report"; "report_generated"; "memory_output"; "memory_output_early";
   "disposition_commands"; "disposition_receipts"; "writeback_summary";
   "analysis_only_complete"; "state_history"; "replan_count"; "budget_usage";
   "guard_violations"; "convergence_state"; "quality_scores"; "scratchpad"; "degraded_flags";
   "triage_degraded"; "graph_degraded"; "storyline_degraded"; "classification_override"].

Definition unknown_field (key : string) : error :=
  builtin_error KeyError ("unknown EventContext field: " +++ key).

(** ** Journal values *)

Definition wrap_journal_value (stored : pyval) : pyval :=
  match stored with VDict _ => stored | _ => VDict [("_scalar", stored)] end.

(** A dict whose key set is [{"_scalar"}]: [dict_get] of a one-entry dict. *)
Definition unwrap_journal_value (value : pyval) : pyval :=
  match value with
  | VDict [(k, v)] => if k ==? "_scalar" then v else value
  | _ => value
  end.

(** ** Versions and rows *)

(** [INSERT ... ON CONFLICT DO UPDATE SET current_version = current_version + 1 RETURNING] *)
Definition _upsert_version (db : Db) (event_id field_name : string) : Db * Z :=
  let version := match db_versions db !! (event_id, field_name) with
                 | Some v => (v + 1)%Z | None => 1%Z end in
  (db_with_journal (db_journal db) (<[(event_id, field_name) := version]> (db_versions db)) db,
   version).

Definition _insert_journal (db : Db) (event_id field_name : string) (value : pyval)
    (version : Z) : Db :=
  db_with_journal
    (db_journal db ++ [{| jn_event_id := event_id; jn_field_name := field_name;
                          jn_value := Some (wrap_journal_value value);
                          jn_version := version |}])%list (db_versions db) db.

(** Append one EventContext journal entry inside an existing DB transaction. *)
Definition append_context_journal_in_session (db : Db) (event_id field_name : string)
    (value : pyval) : result (Db * Z) :=
  if negb (field_name ∈? CONTEXT_FIELD_NAMES) then Err (unknown_field field_name)
  else
    let '(db1, new_version) := _upsert_version db event_id field_name in
    Ok (_insert_journal db1 event_id field_name value new_version, new_version).

(** Append one element to a list-shaped EventContext field (full list re-written). *)
Definition append_list_context_journal_in_session (db : Db) (event_id field_name : string)
    (item : pyval) : result (Db * Z) :=
  let items := match latest_journal_value db event_id field_name with
               | None => []
               | Some row => match unwrap_journal_value row with
                             | VList l => l
                             | VNone => []
                             | current => [current]
                             end
               end in
  append_context_journal_in_session db event_id field_name (VList (items ++ [item])%list).

Definition get_field_version (db : Db) (event_id key : string) : option Z :=
  db_versions db !! (event_id, key).

(** The join of journal and version tables on the current version. *)
Definition get_versioned_field (db : Db) (event_id key : string) : result (pyval * Z) :=
  if negb (key ∈? CONTEXT_FIELD_NAMES) then Err (unknown_field key)
  else match db_versions db !! (event_id, key) with
       | None => Ok (VNone, 0%Z)
       | Some version =>
           match List.filter (λ j, journal_row_of event_id key j && (jn_version j ==? version))
                   (db_journal db) with
           | [] => Ok (VNone, 0%Z)
           | j :: _ => Ok (unwrap_journal_value (default VNone (jn_value j)), version)
           end
       end.

(** ** The completion marker *)

Definition merge_analysis_only_complete_into_snapshot (snapshot : list (string * pyval))
    (complete : bool) : list (string * pyval) :=
  let falsy := match dict_get snapshot "analysis_only_complete" with
               | None | Some VNone | Some (VBool false) => true
               | Some (VInt z) => z ==? 0%Z
               | Some (VStr s) => s ==? ""
               | Some (VList l) => match l with [] => true | _ => false end
               | Some (VDict d) => match d with [] => true | _ => false end
               | Some (VBool true) => false
               end in
  if complete || falsy then dict_set snapshot "analysis_only_complete" (VBool complete)
  else snapshot.

Definition snapshot_dict (row : SecurityEventRow) : list (string * pyval) :=
  match se_event_context_snapshot row with Some (VDict d) => d | _ => [] end.

Definition is_true (v : option pyval) : bool :=
  match v with Some (VBool true) => true | _ => false end.

(** [v == b]: Python's integers 0 and 1 equal its booleans. *)
Definition equals_bool (v : option pyval) (b : bool) : bool :=
  match v with
  | Some (VBool b') => Bool.eqb b' b
  | Some (VInt z) => z ==? (if b then 1 else 0)%Z
  | _ => false
  end.

(** The flush of an assigned snapshot: [updated_at] ([onupdate=func.now()]) is stamped when the
    value changed, for only then does the ORM send an UPDATE. *)
Definition with_snapshot (row : SecurityEventRow) (snapshot : option pyval) (dbnow : Z) :
    SecurityEventRow := {|
  se_event_id := se_event_id row; se_event_type := se_event_type row;
  se_source_type := se_source_type row; se_created_at := se_created_at row;
  se_status := se_status row; se_severity := se_severity row;
  se_final_verdict := se_final_verdict row;
  se_creation_source_ref := se_creation_source_ref row;
  se_source_reference_snapshots := se_source_reference_snapshots row;
  se_disposition_source_ref := se_disposition_source_ref row;
  se_disposition_policy := se_disposition_policy row;
  se_updated_at := if py_eq (default VNone (se_event_context_snapshot row)) (default VNone snapshot)
                   then se_updated_at row else dbnow;
  se_closed_at := se_closed_at row; se_replan_count := se_replan_count row;
  se_degraded_flags := se_degraded_flags row; se_escalated := se_escalated row;
  se_external_unsynced := se_external_unsynced row; se_event_context_snapshot := snapshot;
  se_row_version := se_row_version row
|}.

(** The journaled value of the marker at its current version. *)
Definition current_marker (db : Db) (event_id : string) (version : Z) : option pyval :=
  if (0 <? version)%Z then
    match List.filter (λ j, journal_row_of event_id "analysis_only_complete" j
                            && (jn_version j ==? version)) (db_journal db) with
    | [] => None
    | j :: _ => unwrap_journal_value <$> jn_value j
    end
  else None.

(** The transaction of [_set_analysis_only_complete]: [None] is a lost version precondition; the
    result carries the new database, the effective value and the version. *)
Definition _set_analysis_only_complete (dbnow : Z) (db : Db) (event_id : string) (complete : bool)
    (expected_version : option Z) : result (option (Db * bool * Z)) :=
  match db_events db !! event_id with
  | None => Err (builtin_error KeyError ("security_event not found: " +++ event_id))
  | Some event_row =>
      let current_version :=
        default 0%Z (db_versions db !! (event_id, "analysis_only_complete")) in
      if match expected_version with Some v => current_version !=? v | None => false end
      then Ok None
      else
        let current_value := current_marker db event_id current_version in
        let snapshot := snapshot_dict event_row in
        let effective := is_true current_value
                         || is_true (dict_get snapshot "analysis_only_complete") || complete in
        let '(db1, version) :=
          if negb (equals_bool current_value effective)
          then let '(db1, version) := _upsert_version db event_id "analysis_only_complete" in
               (_insert_journal db1 event_id "analysis_only_complete" (VBool effective) version,
                version)
          else (db, current_version) in
        let row' := with_snapshot event_row
          (Some (VDict (merge_analysis_only_complete_into_snapshot snapshot effective))) dbnow in
        Ok (Some (db_with_events (<[event_id := row']> (db_events db1)) db1, effective, version))
  end.

(** ** Writes *)

(** The transaction of [EventContextStore.set]. *)
Definition context_set (dbnow : Z) (db : Db) (event_id key : string) (value : pyval) : result (Db * Z) :=
  if negb (key ∈? CONTEXT_FIELD_NAMES) then Err (unknown_field key)
  else if key ==? "analysis_only_complete" then
    match value with
    | VBool complete =>
        match _set_analysis_only_complete dbnow db event_id complete None with
        | Err e => Err e
        | Ok (Some (db', _, version)) => Ok (db', version)
        | Ok None => Err (builtin_error OtherError "assert result is not None")
        end
    | _ => Err (builtin_error OtherError "analysis_only_complete must be a boolean")
    end
  else
    let '(db1, new_version) := _upsert_version db event_id key in
    Ok (_insert_journal db1 event_id key value new_version, new_version).

Definition compare_and_set (dbnow : Z) (db : Db) (event_id key : string) (expected_version : Z)
    (value : pyval) : result (Db * bool) :=
  if negb (key ∈? CONTEXT_FIELD_NAMES) then Err (unknown_field key)
  else if key ==? "analysis_only_complete" then
    match value with
    | VBool true =>
        match _set_analysis_only_complete dbnow db event_id true (Some expected_version) with
        | Err e => Err e
        | Ok (Some (db', _, _)) => Ok (db', true)
        | Ok None => Ok (db, false)
        end
    | _ => Ok (db, false)
    end
  else
    let new_version :=
      match db_versions db !! (event_id, key) with
      | None => if expected_version ==? 0%Z then Some 1%Z else None
      | Some current => if (expected_version !=? 0%Z) && (current ==? expected_version)
                        then Some (current + 1)%Z else None
      end in
    match new_version with
    | None => Ok (db, false)
    | Some version =>
        let db1 := db_with_journal (db_journal db)
                     (<[(event_id, key) := version]> (db_versions db)) db in
        Ok (_insert_journal db1 event_id key value version, true)
    end.

(** * What the context journal guarantees *)

#[local] Close Scope string_scope.

(** ** Well-formed journals *)

Definition field_versions (db : Db) (e f : string) : list Z :=
  jn_version <$> List.filter (journal_row_of e f) (db_journal db).

(** The journal of a field holds the versions 1, 2, ..., n in order, and n is the current one. *)
Definition journal_wf (db : Db) : Prop :=
  ∀ e f, ∃ n : nat, field_versions db e f = Z.of_nat <$> seq 1 n ∧
    db_versions db !! (e, f) = match n with O => None | S _ => Some (Z.of_nat n) end.

Definition current_version (db : Db) (e f : string) : Z :=
  default 0%Z (db_versions db !! (e, f)).

(** The write every operation performs. *)
Definition write_field (db : Db) (e f : string) (v : pyval) : Db :=
  let '(db1, version) := _upsert_version db e f in _insert_journal db1 e f v version.

Lemma journal_wf_empty : journal_wf empty_db.
Proof. intros e f. by exists 0. Qed.

Lemma upsert_version_value db e f :
  (_upsert_version db e f).2 = (current_version db e f + 1)%Z.
Proof. unfold _upsert_version, current_version. by destruct (db_versions db !! (e, f)). Qed.

Lemma write_versions db e f v :
  db_versions (write_field db e f v) =
  <[(e, f) := (current_version db e f + 1)%Z]> (db_versions db).
Proof. rewrite <-upsert_version_value. done. Qed.

Lemma journal_row_of_true e f j :
  journal_row_of e f j = true ↔ jn_event_id j = e ∧ jn_field_name j = f.
Proof. unfold journal_row_of. run_ok. done. Qed.

Lemma write_rows db e f v e' f' :
  List.filter (journal_row_of e' f') (db_journal (write_field db e f v)) =
  List.filter (journal_row_of e' f') (db_journal db) ++
  (if bool_decide ((e, f) = (e', f')) then
     [{| jn_event_id := e; jn_field_name := f; jn_value := Some (wrap_journal_value v);
         jn_version := (current_version db e f + 1)%Z |}] else []).
Proof.
  rewrite <-upsert_version_value. unfold write_field, _upsert_version. cbn.
  rewrite List.filter_app. f_equal. cbn. unfold journal_row_of at 1; cbn.
  destruct (decide ((e, f) = (e', f'))) as [[= <- <-]|Hne].
  - by rewrite !bool_decide_eq_true_2.
  - rewrite (bool_decide_eq_false_2 (_ = (e', f'))) by done.
    by rewrite <-bool_decide_and, bool_decide_eq_false_2 by naive_solver.
Qed.

Lemma journal_wf_current db e f :
  journal_wf db → ∃ n : nat, field_versions db e f = Z.of_nat <$> seq 1 n ∧
    current_version db e f = Z.of_nat n.
Proof.
  intros Hwf. destruct (Hwf e f) as (n & Hf & Hv). exists n. split; [done|].
  unfold current_version. rewrite Hv. by destruct n.
Qed.

Lemma write_field_wf db e f v : journal_wf db → journal_wf (write_field db e f v).
Proof.
  intros Hwf e' f'. unfold field_versions. rewrite write_rows, write_versions.
  destruct (decide ((e, f) = (e', f'))) as [[= <- <-]|Hne].
  - rewrite bool_decide_eq_true_2 by done.
    destruct (journal_wf_current db e f Hwf) as (n & Hf & Hc). exists (S n).
    rewrite lookup_insert_eq, Hc. split; [|f_equal; lia].
    rewrite fmap_app. fold (field_versions db e f).
    rewrite Hf, seq_S, fmap_app. cbn. do 2 f_equal. lia.
  - rewrite bool_decide_eq_false_2, app_nil_r, lookup_insert_ne by done. apply Hwf.
Qed.

Lemma last_by_snoc {A} (key : A → Z) l x :
  (∀ y, y ∈ l → (key y < key x)%Z) → last_by key (l ++ [x]) = Some x.
Proof.
  induction l as [|y l IH]; intros Hmax; [done|]. cbn.
  rewrite IH by set_solver. destruct (Z.ltb_spec (key x) (key y)); [|done].
  specialize (Hmax y). set_solver by lia.
Qed.

Lemma row_version_le db e f j :
  journal_wf db → j ∈ db_journal db → journal_row_of e f j = true →
  (1 ≤ jn_version j ≤ current_version db e f)%Z.
Proof.
  intros Hwf Hj Hr. destruct (journal_wf_current db e f Hwf) as (n & Hf & ->).
  assert (jn_version j ∈ field_versions db e f) as Hin
    by (apply list_elem_of_fmap_2, in_where; done).
  rewrite Hf in Hin. apply list_elem_of_fmap in Hin as (i & -> & Hi%elem_of_seq). lia.
Qed.

Lemma latest_after_write db e f v :
  journal_wf db →
  latest_journal_value (write_field db e f v) e f = Some (wrap_journal_value v).
Proof.
  intros Hwf. unfold latest_journal_value.
  rewrite write_rows, bool_decide_eq_true_2 by done.
  rewrite last_by_snoc; [done|]. intros y [Hy Hr]%in_where. cbn.
  pose proof (row_version_le db e f y Hwf Hy Hr). lia.
Qed.

Lemma latest_other db e f v e' f' :
  (e, f) ≠ (e', f') →
  latest_journal_value (write_field db e f v) e' f' = latest_journal_value db e' f'.
Proof.
  intros Hne. unfold latest_journal_value.
  by rewrite write_rows, bool_decide_eq_false_2, app_nil_r.
Qed.

Definition scalar_shaped (v : pyval) : Prop := ∃ x, v = VDict [("_scalar", x)].

Lemma unwrap_wrap v : ¬ scalar_shaped v → unwrap_journal_value (wrap_journal_value v) = v.
Proof.
  intros Hv. destruct v as [| | | | |d]; try done.
  destruct d as [|[k x] [|]]; try done. cbn. case_bool_decide as Hk; [|done].
  subst k. destruct Hv. by eexists.
Qed.

Lemma plain_set dbnow db e key v :
  key ∈ CONTEXT_FIELD_NAMES → key ≠ "analysis_only_complete"%string →
  context_set dbnow db e key v = Ok (write_field db e key v, (current_version db e key + 1)%Z).
Proof.
  intros Hk Hne. unfold context_set.
  rewrite (bool_decide_eq_true_2 (key ∈ _)), (bool_decide_eq_false_2 (key = _)) by done.
  cbn [negb]. rewrite <-upsert_version_value. done.
Qed.

Lemma get_versioned_after_write db e key v :
  journal_wf db → key ∈ CONTEXT_FIELD_NAMES →
  get_versioned_field (write_field db e key v) e key =
  Ok (unwrap_journal_value (wrap_journal_value v), (current_version db e key + 1)%Z).
Proof.
  intros Hwf Hk. unfold get_versioned_field.
  rewrite (bool_decide_eq_true_2 (key ∈ _)) by done. cbn [negb].
  rewrite write_versions, lookup_insert_eq.
  set (ver := (current_version db e key + 1)%Z).
  assert (List.filter (λ j, journal_row_of e key j && (jn_version j ==? ver))
    (db_journal (write_field db e key v)) =
    List.filter (λ j, jn_version j ==? ver)
      (List.filter (journal_row_of e key) (db_journal (write_field db e key v)))) as ->.
  { generalize (db_journal (write_field db e key v)) as l.
    induction l as [|j l IH]; [done|]. cbn. destruct (journal_row_of e key j); cbn; rewrite IH;
      done. }
  rewrite write_rows, bool_decide_eq_true_2, List.filter_app by done.
  assert (List.filter (λ j, jn_version j ==? ver)
    (List.filter (journal_row_of e key) (db_journal db)) = []) as ->.
  { apply where_nil. intros j [Hj Hr]%in_where. apply bool_decide_eq_false_2.
    pose proof (row_version_le db e key j Hwf Hj Hr). unfold ver. lia. }
  cbn. by rewrite bool_decide_eq_true_2.
Qed.

(** Write then read: setting a context field allocates the next version, and the versioned read
    returns that value with that version (a dict of the reserved one-key scalar shape apart); the
    journal stays well formed and no other field changes. *)
Theorem set_then_read (dbnow : Z) (db : Db) (e key : string) (v : pyval) :
  journal_wf db → key ∈ CONTEXT_FIELD_NAMES → key ≠ "analysis_only_complete"%string →
  ¬ scalar_shaped v →
  ∃ db', context_set dbnow db e key v = Ok (db', (current_version db e key + 1)%Z) ∧
    journal_wf db' ∧
    get_versioned_field db' e key = Ok (v, (current_version db e key + 1)%Z) ∧
    ∀ e' f', (e, key) ≠ (e', f') → latest_journal_value db' e' f' = latest_journal_value db e' f'.
Proof.
  intros Hwf Hk Hne Hv. eexists. split; [by apply plain_set|].
  split; [by apply write_field_wf|]. split; [|intros; by apply latest_other].
  rewrite get_versioned_after_write by done. by rewrite unwrap_wrap.
Qed.

Lemma versions_zero db e key :
  journal_wf db → current_version db e key = 0%Z ↔ db_versions db !! (e, key) = None.
Proof.
  intros Hwf. unfold current_version. destruct (Hwf e key) as ([|n] & _ & ->); [done|].
  cbn [from_option id]. split; [lia|done].
Qed.

Lemma plain_cas dbnow db e key expected v :
  journal_wf db → key ∈ CONTEXT_FIELD_NAMES → key ≠ "analysis_only_complete"%string →
  compare_and_set dbnow db e key expected v =
  Ok (if bool_decide (expected = current_version db e key)
      then (write_field db e key v, true) else (db, false)).
Proof.
  intros Hwf Hk Hne. unfold compare_and_set.
  rewrite (bool_decide_eq_true_2 (key ∈ _)), (bool_decide_eq_false_2 (key = _)) by done.
  cbn [negb]. pose proof (versions_zero db e key Hwf) as Hz.
  unfold write_field, _upsert_version. unfold current_version in *.
  destruct (db_versions db !! (e, key)) as [cur|] eqn:Ec; cbn [from_option id] in *.
  - assert (cur ≠ 0)%Z by naive_solver.
    destruct (decide (expected = cur)) as [->|].
    + by rewrite bool_decide_eq_false_2, !bool_decide_eq_true_2 by done.
    + rewrite (bool_decide_eq_false_2 (cur = _)), (bool_decide_eq_false_2 (_ = cur)) by done.
      by rewrite andb_false_r.
  - by case_bool_decide.
Qed.

(** No lost update: a compare-and-set succeeds exactly when the expected version is the current
    one; after one writer succeeded, a second writer that read the same version is refused and
    changes nothing. *)
Theorem cas_no_lost_update (dbnow dbnow' : Z) (db : Db) (e key : string) (expected : Z) (v1 v2 : pyval) :
  journal_wf db → key ∈ CONTEXT_FIELD_NAMES → key ≠ "analysis_only_complete"%string →
  (is_ok (compare_and_set dbnow db e key expected v1) = true) ∧
  (∀ db1, compare_and_set dbnow db e key expected v1 = Ok (db1, true) ↔
     expected = current_version db e key ∧ db1 = write_field db e key v1) ∧
  (∀ db1, compare_and_set dbnow db e key expected v1 = Ok (db1, true) →
     journal_wf db1 ∧ compare_and_set dbnow' db1 e key expected v2 = Ok (db1, false)).
Proof.
  intros Hwf Hk Hne. rewrite plain_cas by done. split_and!.
  - done.
  - intros db1. case_bool_decide; naive_solver.
  - intros db1 Hok. case_bool_decide as Hc; [|naive_solver]. injection Hok as <-.
    assert (Hwf1 : journal_wf (write_field db e key v1)) by by apply write_field_wf.
    split; [done|]. rewrite plain_cas by done.
    rewrite bool_decide_eq_false_2; [done|].
    unfold current_version at 1. rewrite write_versions, lookup_insert_eq.
    cbn [from_option id]. lia.
Qed.

(** ** The completion marker *)

Definition marker_true (db : Db) (e : string) : Prop :=
  is_true (current_marker db e (current_version db e "analysis_only_complete")) = true ∨
  ∃ row, db_events db !! e = Some row ∧
    is_true (dict_get (snapshot_dict row) "analysis_only_complete") = true.

Lemma merged_marker snapshot :
  dict_get (merge_analysis_only_complete_into_snapshot snapshot true) "analysis_only_complete"
  = Some (VBool true).
Proof. unfold merge_analysis_only_complete_into_snapshot. apply dict_get_set. Qed.

(** The completion marker is monotonic: once the journal or the snapshot says the analysis is
    complete, or a caller sets it, a later set, even to false, leaves the stored snapshot
    complete and the journal well formed. *)
Theorem completion_marker_monotonic (dbnow : Z) (db : Db) (e : string) (b : bool) (db' : Db) (ver : Z) :
  journal_wf db → marker_true db e ∨ b = true →
  context_set dbnow db e "analysis_only_complete" (VBool b) = Ok (db', ver) →
  marker_true db' e ∧ journal_wf db'.
Proof.
  intros Hwf Hm. unfold context_set.
  rewrite bool_decide_eq_true_2 by (by apply (bool_decide_unpack _)).
  rewrite bool_decide_eq_true_2 by done. cbn [negb].
  unfold _set_analysis_only_complete.
  destruct (db_events db !! e) as [row|] eqn:Er; [|done]. cbn [from_option].
  fold (current_version db e "analysis_only_complete").
  set (cur := current_marker db e _). set (eff := _ || _ || b).
  assert (eff = true) as Heff.
  { unfold eff, cur. destruct Hm as [[->|(r & Hr & Hs)]| ->];
      [done| |by rewrite orb_true_r]. rewrite Hr in Er. injection Er as ->.
    rewrite Hs. by rewrite orb_true_r. }
  rewrite Heff.
  assert (Hfin : ∀ db1, journal_wf db1 →
    let row' := with_snapshot row (Some (VDict
      (merge_analysis_only_complete_into_snapshot (snapshot_dict row) true))) dbnow in
    let db2 := db_with_events (<[e := row']> (db_events db1)) db1 in
    marker_true db2 e ∧ journal_wf db2).
  { intros db1 Hwf1. split; [|done]. right. eexists. split; [apply lookup_insert_eq|].
    change (is_true (dict_get (merge_analysis_only_complete_into_snapshot (snapshot_dict row)
      true) "analysis_only_complete") = true). by rewrite merged_marker. }
  destruct (negb (equals_bool cur true)); intros [= <- _]; [|by apply (Hfin db)].
  apply (Hfin (write_field db e "analysis_only_complete" (VBool true))). by apply write_field_wf.
Qed.
