(* ===== verification/Outbox.v ===== *)
(** * Outbox rows, receipts and their projections
      (services/disposition_sync_service.py, lines 96-210, 1493-1707, 2391-2611, 2955-3328)

    The operations of [DispositionSyncService] on one locked outbox row, the receipt log, and
    the projection of a receipt onto the Action and its execution job.  A method that assigns
    columns of the locked row returns the row; the status the source returns is the row's.  Rows
    carry [updated_at] with [onupdate=now()]: where the source does not assign it, the time of
    the transaction is given ([dbnow]).  Metrics and logging are left out. *)

From stdpp Require Import prelude strings pretty.
From S2P Require Import Prelude Enums Errors Tables Workflow Lifecycles Db Disposition.
From S2P Require Import OutboundGuard ExecutionResults Reconcile ContextJournal.

#[local] Open Scope string_scope.

Notation "x |> f" := (f x) (at level 61, left associativity, only parsing) : py_scope.

(** ** Assignments to an outbox row *)

Definition set_superseded_by (d : string) (o : OutboxRow) : OutboxRow := {|
  ob_outbox_id := ob_outbox_id o; ob_writeback_id := ob_writeback_id o; ob_disposition_id :=
  ob_disposition_id o; ob_action_id := ob_action_id o; ob_event_id := ob_event_id o;
  ob_closure_cycle := ob_closure_cycle o; ob_source_record_id := ob_source_record_id o;
  ob_source_locator_hash := ob_source_locator_hash o; ob_source_sequence := ob_source_sequence o;
  ob_intent_kind := ob_intent_kind o; ob_logical_slot := ob_logical_slot o;
  ob_supersedes_disposition_id := ob_supersedes_disposition_id o; ob_superseded_by_disposition_id
  := Some d; ob_idempotency_key := ob_idempotency_key o; ob_command_payload := ob_command_payload
  o; ob_command_payload_sha256 := ob_command_payload_sha256 o; ob_delivery_status :=
  ob_delivery_status o; ob_latest_writeback_status := ob_latest_writeback_status o; ob_attempt :=
  ob_attempt o; ob_next_retry_at := ob_next_retry_at o; ob_locked_by := ob_locked_by o;
  ob_locked_at := ob_locked_at o; ob_lease_expires_at := ob_lease_expires_at o; ob_last_error_code
  := ob_last_error_code o; ob_last_error_detail := ob_last_error_detail o; ob_created_at :=
  ob_created_at o; ob_updated_at := ob_updated_at o; ob_delivered_at := ob_delivered_at o
|}.

Definition set_delivery_status (s : OutboxDeliveryStatus) (o : OutboxRow) : OutboxRow := {|
  ob_outbox_id := ob_outbox_id o; ob_writeback_id := ob_writeback_id o; ob_disposition_id :=
  ob_disposition_id o; ob_action_id := ob_action_id o; ob_event_id := ob_event_id o;
  ob_closure_cycle := ob_closure_cycle o; ob_source_record_id := ob_source_record_id o;
  ob_source_locator_hash := ob_source_locator_hash o; ob_source_sequence := ob_source_sequence o;
  ob_intent_kind := ob_intent_kind o; ob_logical_slot := ob_logical_slot o;
  ob_supersedes_disposition_id := ob_supersedes_disposition_id o; ob_superseded_by_disposition_id
  := ob_superseded_by_disposition_id o; ob_idempotency_key := ob_idempotency_key o;
  ob_command_payload := ob_command_payload o; ob_command_payload_sha256 :=
  ob_command_payload_sha256 o; ob_delivery_status := enum_value s; ob_latest_writeback_status :=
  ob_latest_writeback_status o; ob_attempt := ob_attempt o; ob_next_retry_at := ob_next_retry_at
  o; ob_locked_by := ob_locked_by o; ob_locked_at := ob_locked_at o; ob_lease_expires_at :=
  ob_lease_expires_at o; ob_last_error_code := ob_last_error_code o; ob_last_error_detail :=
  ob_last_error_detail o; ob_created_at := ob_created_at o; ob_updated_at := ob_updated_at o;
  ob_delivered_at := ob_delivered_at o
|}.

Definition set_latest_writeback_status (s : WritebackStatus) (o : OutboxRow) : OutboxRow := {|
  ob_outbox_id := ob_outbox_id o; ob_writeback_id := ob_writeback_id o; ob_disposition_id :=
  ob_disposition_id o; ob_action_id := ob_action_id o; ob_event_id := ob_event_id o;
  ob_closure_cycle := ob_closure_cycle o; ob_source_record_id := ob_source_record_id o;
  ob_source_locator_hash := ob_source_locator_hash o; ob_source_sequence := ob_source_sequence o;
  ob_intent_kind := ob_intent_kind o; ob_logical_slot := ob_logical_slot o;
  ob_supersedes_disposition_id := ob_supersedes_disposition_id o; ob_superseded_by_disposition_id
  := ob_superseded_by_disposition_id o; ob_idempotency_key := ob_idempotency_key o;
  ob_command_payload := ob_command_payload o; ob_command_payload_sha256 :=
  ob_command_payload_sha256 o; ob_delivery_status := ob_delivery_status o;
  ob_latest_writeback_status := Some (enum_value s); ob_attempt := ob_attempt o; ob_next_retry_at
  := ob_next_retry_at o; ob_locked_by := ob_locked_by o; ob_locked_at := ob_locked_at o;
  ob_lease_expires_at := ob_lease_expires_at o; ob_last_error_code := ob_last_error_code o;
  ob_last_error_detail := ob_last_error_detail o; ob_created_at := ob_created_at o; ob_updated_at
  := ob_updated_at o; ob_delivered_at := ob_delivered_at o
|}.

Definition set_attempt (n : Z) (o : OutboxRow) : OutboxRow := {|
  ob_outbox_id := ob_outbox_id o; ob_writeback_id := ob_writeback_id o; ob_disposition_id :=
  ob_disposition_id o; ob_action_id := ob_action_id o; ob_event_id := ob_event_id o;
  ob_closure_cycle := ob_closure_cycle o; ob_source_record_id := ob_source_record_id o;
  ob_source_locator_hash := ob_source_locator_hash o; ob_source_sequence := ob_source_sequence o;
  ob_intent_kind := ob_intent_kind o; ob_logical_slot := ob_logical_slot o;
  ob_supersedes_disposition_id := ob_supersedes_disposition_id o; ob_superseded_by_disposition_id
  := ob_superseded_by_disposition_id o; ob_idempotency_key := ob_idempotency_key o;
  ob_command_payload := ob_command_payload o; ob_command_payload_sha256 :=
  ob_command_payload_sha256 o; ob_delivery_status := ob_delivery_status o;
  ob_latest_writeback_status := ob_latest_writeback_status o; ob_attempt := n; ob_next_retry_at :=
  ob_next_retry_at o; ob_locked_by := ob_locked_by o; ob_locked_at := ob_locked_at o;
  ob_lease_expires_at := ob_lease_expires_at o; ob_last_error_code := ob_last_error_code o;
  ob_last_error_detail := ob_last_error_detail o; ob_created_at := ob_created_at o; ob_updated_at
  := ob_updated_at o; ob_delivered_at := ob_delivered_at o
|}.

Definition set_next_retry_at (t : option Z) (o : OutboxRow) : OutboxRow := {|
  ob_outbox_id := ob_outbox_id o; ob_writeback_id := ob_writeback_id o; ob_disposition_id :=
  ob_disposition_id o; ob_action_id := ob_action_id o; ob_event_id := ob_event_id o;
  ob_closure_cycle := ob_closure_cycle o; ob_source_record_id := ob_source_record_id o;
  ob_source_locator_hash := ob_source_locator_hash o; ob_source_sequence := ob_source_sequence o;
  ob_intent_kind := ob_intent_kind o; ob_logical_slot := ob_logical_slot o;
  ob_supersedes_disposition_id := ob_supersedes_disposition_id o; ob_superseded_by_disposition_id
  := ob_superseded_by_disposition_id o; ob_idempotency_key := ob_idempotency_key o;
  ob_command_payload := ob_command_payload o; ob_command_payload_sha256 :=
  ob_command_payload_sha256 o; ob_delivery_status := ob_delivery_status o;
  ob_latest_writeback_status := ob_latest_writeback_status o; ob_attempt := ob_attempt o;
  ob_next_retry_at := t; ob_locked_by := ob_locked_by o; ob_locked_at := ob_locked_at o;
  ob_lease_expires_at := ob_lease_expires_at o; ob_last_error_code := ob_last_error_code o;
  ob_last_error_detail := ob_last_error_detail o; ob_created_at := ob_created_at o; ob_updated_at
  := ob_updated_at o; ob_delivered_at := ob_delivered_at o
|}.

(** [locked_by], [locked_at] and [lease_expires_at] are always assigned together. *)
Definition set_lease (by_ : option string) (at_ expires : option Z) (o : OutboxRow) : OutboxRow := {|
  ob_outbox_id := ob_outbox_id o; ob_writeback_id := ob_writeback_id o; ob_disposition_id :=
  ob_disposition_id o; ob_action_id := ob_action_id o; ob_event_id := ob_event_id o;
  ob_closure_cycle := ob_closure_cycle o; ob_source_record_id := ob_source_record_id o;
  ob_source_locator_hash := ob_source_locator_hash o; ob_source_sequence := ob_source_sequence o;
  ob_intent_kind := ob_intent_kind o; ob_logical_slot := ob_logical_slot o;
  ob_supersedes_disposition_id := ob_supersedes_disposition_id o; ob_superseded_by_disposition_id
  := ob_superseded_by_disposition_id o; ob_idempotency_key := ob_idempotency_key o;
  ob_command_payload := ob_command_payload o; ob_command_payload_sha256 :=
  ob_command_payload_sha256 o; ob_delivery_status := ob_delivery_status o;
  ob_latest_writeback_status := ob_latest_writeback_status o; ob_attempt := ob_attempt o;
  ob_next_retry_at := ob_next_retry_at o; ob_locked_by := by_; ob_locked_at := at_;
  ob_lease_expires_at := expires; ob_last_error_code := ob_last_error_code o; ob_last_error_detail
  := ob_last_error_detail o; ob_created_at := ob_created_at o; ob_updated_at := ob_updated_at o;
  ob_delivered_at := ob_delivered_at o
|}.

Definition release_lease : OutboxRow → OutboxRow := set_lease None None None.

Definition set_last_error_code (code : option string) (o : OutboxRow) : OutboxRow := {|
  ob_outbox_id := ob_outbox_id o; ob_writeback_id := ob_writeback_id o; ob_disposition_id :=
  ob_disposition_id o; ob_action_id := ob_action_id o; ob_event_id := ob_event_id o;
  ob_closure_cycle := ob_closure_cycle o; ob_source_record_id := ob_source_record_id o;
  ob_source_locator_hash := ob_source_locator_hash o; ob_source_sequence := ob_source_sequence o;
  ob_intent_kind := ob_intent_kind o; ob_logical_slot := ob_logical_slot o;
  ob_supersedes_disposition_id := ob_supersedes_disposition_id o; ob_superseded_by_disposition_id
  := ob_superseded_by_disposition_id o; ob_idempotency_key := ob_idempotency_key o;
  ob_command_payload := ob_command_payload o; ob_command_payload_sha256 :=
  ob_command_payload_sha256 o; ob_delivery_status := ob_delivery_status o;
  ob_latest_writeback_status := ob_latest_writeback_status o; ob_attempt := ob_attempt o;
  ob_next_retry_at := ob_next_retry_at o; ob_locked_by := ob_locked_by o; ob_locked_at :=
  ob_locked_at o; ob_lease_expires_at := ob_lease_expires_at o; ob_last_error_code := code;
  ob_last_error_detail := ob_last_error_detail o; ob_created_at := ob_created_at o; ob_updated_at
  := ob_updated_at o; ob_delivered_at := ob_delivered_at o
|}.

Definition set_last_error_detail (detail : option string) (o : OutboxRow) : OutboxRow := {|
  ob_outbox_id := ob_outbox_id o; ob_writeback_id := ob_writeback_id o; ob_disposition_id :=
  ob_disposition_id o; ob_action_id := ob_action_id o; ob_event_id := ob_event_id o;
  ob_closure_cycle := ob_closure_cycle o; ob_source_record_id := ob_source_record_id o;
  ob_source_locator_hash := ob_source_locator_hash o; ob_source_sequence := ob_source_sequence o;
  ob_intent_kind := ob_intent_kind o; ob_logical_slot := ob_logical_slot o;
  ob_supersedes_disposition_id := ob_supersedes_disposition_id o; ob_superseded_by_disposition_id
  := ob_superseded_by_disposition_id o; ob_idempotency_key := ob_idempotency_key o;
  ob_command_payload := ob_command_payload o; ob_command_payload_sha256 :=
  ob_command_payload_sha256 o; ob_delivery_status := ob_delivery_status o;
  ob_latest_writeback_status := ob_latest_writeback_status o; ob_attempt := ob_attempt o;
  ob_next_retry_at := ob_next_retry_at o; ob_locked_by := ob_locked_by o; ob_locked_at :=
  ob_locked_at o; ob_lease_expires_at := ob_lease_expires_at o; ob_last_error_code :=
  ob_last_error_code o; ob_last_error_detail := detail; ob_created_at := ob_created_at o;
  ob_updated_at := ob_updated_at o; ob_delivered_at := ob_delivered_at o
|}.

Definition set_updated_at (now : Z) (o : OutboxRow) : OutboxRow := {|
  ob_outbox_id := ob_outbox_id o; ob_writeback_id := ob_writeback_id o; ob_disposition_id :=
  ob_disposition_id o; ob_action_id := ob_action_id o; ob_event_id := ob_event_id o;
  ob_closure_cycle := ob_closure_cycle o; ob_source_record_id := ob_source_record_id o;
  ob_source_locator_hash := ob_source_locator_hash o; ob_source_sequence := ob_source_sequence o;
  ob_intent_kind := ob_intent_kind o; ob_logical_slot := ob_logical_slot o;
  ob_supersedes_disposition_id := ob_supersedes_disposition_id o; ob_superseded_by_disposition_id
  := ob_superseded_by_disposition_id o; ob_idempotency_key := ob_idempotency_key o;
  ob_command_payload := ob_command_payload o; ob_command_payload_sha256 :=
  ob_command_payload_sha256 o; ob_delivery_status := ob_delivery_status o;
  ob_latest_writeback_status := ob_latest_writeback_status o; ob_attempt := ob_attempt o;
  ob_next_retry_at := ob_next_retry_at o; ob_locked_by := ob_locked_by o; ob_locked_at :=
  ob_locked_at o; ob_lease_expires_at := ob_lease_expires_at o; ob_last_error_code :=
  ob_last_error_code o; ob_last_error_detail := ob_last_error_detail o; ob_created_at :=
  ob_created_at o; ob_updated_at := now; ob_delivered_at := ob_delivered_at o
|}.

Definition set_delivered_at (now : Z) (o : OutboxRow) : OutboxRow := {|
  ob_outbox_id := ob_outbox_id o; ob_writeback_id := ob_writeback_id o; ob_disposition_id :=
  ob_disposition_id o; ob_action_id := ob_action_id o; ob_event_id := ob_event_id o;
  ob_closure_cycle := ob_closure_cycle o; ob_source_record_id := ob_source_record_id o;
  ob_source_locator_hash := ob_source_locator_hash o; ob_source_sequence := ob_source_sequence o;
  ob_intent_kind := ob_intent_kind o; ob_logical_slot := ob_logical_slot o;
  ob_supersedes_disposition_id := ob_supersedes_disposition_id o; ob_superseded_by_disposition_id
  := ob_superseded_by_disposition_id o; ob_idempotency_key := ob_idempotency_key o;
  ob_command_payload := ob_command_payload o; ob_command_payload_sha256 :=
  ob_command_payload_sha256 o; ob_delivery_status := ob_delivery_status o;
  ob_latest_writeback_status := ob_latest_writeback_status o; ob_attempt := ob_attempt o;
  ob_next_retry_at := ob_next_retry_at o; ob_locked_by := ob_locked_by o; ob_locked_at :=
  ob_locked_at o; ob_lease_expires_at := ob_lease_expires_at o; ob_last_error_code :=
  ob_last_error_code o; ob_last_error_detail := ob_last_error_detail o; ob_created_at :=
  ob_created_at o; ob_updated_at := ob_updated_at o; ob_delivered_at := Some now
|}.


Definition outbox_delivery (o : OutboxRow) : option OutboxDeliveryStatus :=
  enum_of_value (ob_delivery_status o).

(** ** The service's configuration *)

(** [de_registry] is the adapter registry by name; [de_validate_command] is
    [DispositionCommand.model_validate] (pydantic's parsing; the class's own validators are
    [validate_command_model]); [de_sha256], [de_payload_sha256] and [de_locator_hash] are hex
    digests; [de_isoformat] prints a time stamp. *)
Record DeliveryEnv : Type := {
  de_worker_id : string;
  de_settings : DeliverySettings;
  de_registry : list (string * BaseDispositionAdapter);
  de_sanitizer : Sanitizer;
  de_validate_command : list (string * pyval) → result DispositionCommand;
  de_sha256 : string → string;
  de_payload_sha256 : list (string * pyval) → string;
  de_locator_hash : SourceObjectLocator → string;
  de_isoformat : Z → string
}.

Definition _DEFAULT_LEASE_SECONDS : Z := 30.
Definition _ERROR_DETAIL_MAX_LEN : nat := 500.
Definition OUTBOX_SUPERSEDED_ERROR_CODE : string := "superseded_by_new_head".
Definition WRITEBACK_FENCE_BLOCKED_ERROR_CODE : string := "writeback_fence_blocked".

Definition _truncate_error_detail (detail : string) : string :=
  if Nat.leb (String.length detail) _ERROR_DETAIL_MAX_LEN then detail
  else str_take (_ERROR_DETAIL_MAX_LEN - 3) detail +++ "...".

(** [error_detail] when it is given, the column's value otherwise. *)
Definition detail_or_kept (error_detail : option string) (o : OutboxRow) : option string :=
  match error_detail with
  | Some d => Some (_truncate_error_detail d)
  | None => ob_last_error_detail o
  end.

Definition _outbox_retry_backoff_seconds (settings : DeliverySettings) (attempt : Z) : Z :=
  Z.min (st_outbox_retry_backoff settings * attempt) (st_outbox_retry_backoff_max settings).

(** [lease_expires_at is None or lease_expires_at <= now] *)
Definition lease_expired (o : OutboxRow) (now : Z) : bool :=
  match ob_lease_expires_at o with
  | None => true
  | Some t => (t <=? now)%Z
  end.

(** ** Releasing a leased row *)

Definition _release_leased_outbox_after_lease_expiry (env : DeliveryEnv) (o : OutboxRow)
    (now : Z) : result OutboxRow :=
  current ← enum_of_value_or_raise (ob_delivery_status o);
  if current !=? OutboxDeliveryStatus.LEASED then Ok o
  else
    let detail := "idempotency_key_sha256=" +++ de_sha256 env (ob_idempotency_key o) +++
                  "; locked_by=" +++ match ob_locked_by o with Some w => w | None => "None" end
                  +++ "; attempt=" +++ pretty (ob_attempt o) in
    validate_outbox_delivery_transition current OutboxDeliveryStatus.PAUSED
      {| ota_lease_expired_resend := true; ota_known_pre_egress_failure := false;
         ota_lookup_confirmed_submission := false; ota_operator_retry_pause := false |} ;;
    Ok (o |> set_last_error_code (Some "lease_expired")
          |> set_last_error_detail (Some (_truncate_error_detail detail))
          |> release_lease
          |> set_next_retry_at None
          |> set_updated_at now
          |> set_latest_writeback_status WritebackStatus.UNKNOWN
          |> set_delivery_status OutboxDeliveryStatus.PAUSED).

Definition _release_leased_outbox_after_failure (env : DeliveryEnv) (o : OutboxRow) (now : Z)
    (error_code : string) (error_detail : option string) : result OutboxRow :=
  current ← enum_of_value_or_raise (ob_delivery_status o);
  if current !=? OutboxDeliveryStatus.LEASED then Ok o
  else if lease_expired o now then _release_leased_outbox_after_lease_expiry env o now
  else
    let attempt := (ob_attempt o + 1)%Z in
    let o := o |> set_attempt attempt
               |> set_last_error_code (Some error_code)
               |> set_last_error_detail (detail_or_kept error_detail o)
               |> release_lease
               |> set_updated_at now in
    if (st_outbox_max_attempts (de_settings env) <=? attempt)%Z then
      validate_outbox_delivery_transition current OutboxDeliveryStatus.DEAD_LETTER
        default_outbox_args ;;
      Ok (o |> set_delivery_status OutboxDeliveryStatus.DEAD_LETTER
            |> set_next_retry_at None)
    else
      validate_outbox_delivery_transition current OutboxDeliveryStatus.WAITING_RETRY
        {| ota_lease_expired_resend := false; ota_known_pre_egress_failure := true;
           ota_lookup_confirmed_submission := false; ota_operator_retry_pause := false |} ;;
      Ok (o |> set_delivery_status OutboxDeliveryStatus.WAITING_RETRY
            |> set_next_retry_at
                 (Some (now + _outbox_retry_backoff_seconds (de_settings env) attempt)%Z)).

Definition _pause_outbox_after_unknown_submission (o : OutboxRow) (now : Z)
    (error_code error_detail : string) : result OutboxRow :=
  current ← enum_of_value_or_raise (ob_delivery_status o);
  if negb (current ∈? [OutboxDeliveryStatus.READY; OutboxDeliveryStatus.LEASED;
                       OutboxDeliveryStatus.WAITING_RETRY]) then Ok o
  else
    validate_outbox_delivery_transition current OutboxDeliveryStatus.PAUSED
      default_outbox_args ;;
    Ok (o |> set_last_error_code (Some error_code)
          |> set_last_error_detail (Some (_truncate_error_detail error_detail))
          |> release_lease
          |> set_next_retry_at None
          |> set_updated_at now
          |> set_delivery_status OutboxDeliveryStatus.PAUSED).

Definition _release_leased_outbox_to_dead_letter (o : OutboxRow) (now : Z)
    (error_code : string) (error_detail : option string) : result OutboxRow :=
  current ← enum_of_value_or_raise (ob_delivery_status o);
  if current !=? OutboxDeliveryStatus.LEASED then Ok o
  else
    validate_outbox_delivery_transition current OutboxDeliveryStatus.DEAD_LETTER
      default_outbox_args ;;
    Ok (o |> set_last_error_code (Some error_code)
          |> set_last_error_detail (detail_or_kept error_detail o)
          |> release_lease
          |> set_updated_at now
          |> set_delivery_status OutboxDeliveryStatus.DEAD_LETTER
          |> set_next_retry_at None).

Definition _block_outbox_for_writeback_fence (o : OutboxRow) (now : Z) (error_detail : string) :
    result OutboxRow :=
  current ← enum_of_value_or_raise (ob_delivery_status o);
  if current ==? OutboxDeliveryStatus.LEASED then
    _release_leased_outbox_to_dead_letter o now WRITEBACK_FENCE_BLOCKED_ERROR_CODE
      (Some error_detail)
  else
    validate_outbox_delivery_transition current OutboxDeliveryStatus.DEAD_LETTER
      default_outbox_args ;;
    Ok (o |> set_last_error_code (Some WRITEBACK_FENCE_BLOCKED_ERROR_CODE)
          |> set_last_error_detail (Some (_truncate_error_detail error_detail))
          |> set_updated_at now
          |> set_next_retry_at None
          |> set_delivery_status OutboxDeliveryStatus.DEAD_LETTER).

(** ** Superseded heads *)

Definition _finalize_superseded_head (o : OutboxRow) (superseded_by : string) (now : Z) :
    result OutboxRow :=
  let o := o |> set_superseded_by superseded_by in
  let raw_status := if ob_delivery_status o ==? "" then enum_value OutboxDeliveryStatus.READY
                    else ob_delivery_status o in
  current ← enum_of_value_or_raise raw_status;
  if current ∈? [OutboxDeliveryStatus.DELIVERED; OutboxDeliveryStatus.DEAD_LETTER]
  then Ok (o |> set_updated_at now)
  else
    validate_outbox_delivery_transition current OutboxDeliveryStatus.DEAD_LETTER
      default_outbox_args ;;
    Ok (o |> set_last_error_code (Some OUTBOX_SUPERSEDED_ERROR_CODE)
          |> set_last_error_detail
               (Some (_truncate_error_detail ("superseded by disposition " +++ superseded_by)))
          |> release_lease
          |> set_next_retry_at None
          |> set_updated_at now
          |> set_delivery_status OutboxDeliveryStatus.DEAD_LETTER).

Definition _block_superseded_outbox (o : OutboxRow) (now : Z) : result OutboxRow :=
  current ← enum_of_value_or_raise (ob_delivery_status o);
  if current ==? OutboxDeliveryStatus.LEASED then
    _release_leased_outbox_to_dead_letter o now OUTBOX_SUPERSEDED_ERROR_CODE
      (Some "superseded outbox head cannot egress")
  else
    let o := o |> set_last_error_code (Some OUTBOX_SUPERSEDED_ERROR_CODE)
               |> set_last_error_detail
                    (Some (_truncate_error_detail "superseded outbox head cannot egress"))
               |> set_updated_at now
               |> set_next_retry_at None in
    if current !=? OutboxDeliveryStatus.DEAD_LETTER then
      validate_outbox_delivery_transition current OutboxDeliveryStatus.DEAD_LETTER
        default_outbox_args ;;
      Ok (o |> set_delivery_status OutboxDeliveryStatus.DEAD_LETTER)
    else Ok o.

(** The rows competing for one head: same event, cycle, kind and slot, not superseded. *)
Definition active_head_row (event_id : string) (cycle : Z) (kind slot : string) (o : OutboxRow) :
    bool :=
  (ob_event_id o ==? event_id) && (ob_closure_cycle o ==? cycle) && (ob_intent_kind o ==? kind)
  && (ob_logical_slot o ==? slot) && bool_decide (ob_superseded_by_disposition_id o = None).

Definition _assert_active_head_for_delivery (db : Db) (o : OutboxRow)
    (command : DispositionCommand) : bool :=
  if dc_intent_kind command !=? DispositionIntentKind.EVENT_STATUS_UPDATE then true
  else
    (ob_disposition_id <$>
       last_by ob_created_at
         (List.filter (active_head_row (ob_event_id o) (ob_closure_cycle o)
                         (enum_value (dc_intent_kind command)) (ob_logical_slot o))
            (db_outboxes db)))
    ==? Some (ob_disposition_id o).

(** ** Actions *)

(** The Action row after [writeback_status = status]; an unchanged value writes nothing. *)
Definition action_with_writeback (a : ActionRow) (status : option string) (dbnow : Z) :
    ActionRow := {|
  act_action_id := act_action_id a; act_event_id := act_event_id a;
  act_plan_revision := act_plan_revision a; act_action_category := act_action_category a;
  act_tool_name := act_tool_name a; act_execution_phase := act_execution_phase a;
  act_action_fingerprint := act_action_fingerprint a; act_action_level := act_action_level a;
  act_activation_condition := act_activation_condition a;
  act_impact_assessment := act_impact_assessment a; act_playbook_ref := act_playbook_ref a;
  act_action_template_snapshot := act_action_template_snapshot a;
  act_approved_terminal_dispositions := act_approved_terminal_dispositions a;
  act_status := act_status a; act_execution_owner := act_execution_owner a;
  act_execution_job_id := act_execution_job_id a;
  act_writeback_required := act_writeback_required a;
  act_writeback_applicable := act_writeback_applicable a;
  act_writeback_readiness := act_writeback_readiness a;
  act_writeback_status := status;
  act_superseded_by_revision := act_superseded_by_revision a;
  act_executed_at := act_executed_at a; act_updated_at := dbnow
|}.

Definition _mirror_writeback_status_to_action (a : ActionRow) (status : WritebackStatus)
    (dbnow : Z) : ActionRow :=
  if negb (act_writeback_applicable a) then a
  else if act_writeback_status a ==? Some (enum_value status) then a
  else action_with_writeback a (Some (enum_value status)) dbnow.

Definition _DELIVERY_APPROVAL_RECHECK_INTENTS : list DispositionIntentKind :=
  [DispositionIntentKind.ENTITY_ACTION_SUBMIT; DispositionIntentKind.EXECUTION_RESULT_RECORD;
   DispositionIntentKind.EVENT_STATUS_UPDATE; DispositionIntentKind.COMPENSATION_RECORD].

Definition _action_still_approved_for_delivery (a : ActionRow) : bool :=
  (act_status a ∈? [enum_value ActionStatus.APPROVED; enum_value ActionStatus.EXECUTING;
                    enum_value ActionStatus.SUCCESS; enum_value ActionStatus.PARTIAL_SUCCESS])
  && bool_decide (act_superseded_by_revision a = None).

Definition _apply_action_terminal_from_receipt (a : ActionRow) (receipt : DispositionReceipt)
    (now dbnow : Z) : result ActionRow :=
  current ← enum_of_value_or_raise (act_status a);
  if current !=? ActionStatus.EXECUTING then Ok a
  else if dr_status receipt ==? WritebackStatus.ACCEPTED then Ok a
  else
    let target := match dr_status receipt with
                  | WritebackStatus.CONFIRMED => ActionStatus.SUCCESS
                  | WritebackStatus.PARTIAL => ActionStatus.PARTIAL_SUCCESS
                  | WritebackStatus.UNKNOWN => ActionStatus.UNKNOWN
                  | _ => ActionStatus.FAILED
                  end in
    category ← enum_of_value_or_raise (act_action_category a);
    validate_action_status_transition category current target default_action_args ;;
    Ok (moved_action a target (act_execution_job_id a) (Some now) dbnow).

(** ** Receipts *)

Definition put_outbox (o : OutboxRow) (db : Db) : Db :=
  db_with_outboxes (update_by ob_outbox_id o (db_outboxes db)) (db_source_sequences db) db.

Definition receipts_of (db : Db) (writeback_id : string) : list ReceiptRow :=
  List.filter (λ r, rc_writeback_id r ==? writeback_id) (db_receipts db).

Definition latest_receipt (db : Db) (writeback_id : string) : option ReceiptRow :=
  last_by rc_sequence (receipts_of db writeback_id).

(** [int(seq_row or 0) + 1] *)
Definition next_sequence (db : Db) (writeback_id : string) : Z :=
  (match latest_receipt db writeback_id with Some r => rc_sequence r | None => 0 end + 1)%Z.

(** The provider's receipt, bound to the outbox row. *)
Definition bound_receipt (o : OutboxRow) (sequence : Z) (r : DispositionReceipt) :
    DispositionReceipt := {|
  dr_writeback_id := ob_writeback_id o; dr_sequence := sequence;
  dr_disposition_id := ob_disposition_id o; dr_action_id := ob_action_id o;
  dr_source_record_id := ob_source_record_id o; dr_status := dr_status r;
  dr_confirmation_evidence := dr_confirmation_evidence r;
  dr_provider_record_id := dr_provider_record_id r;
  dr_provider_job_id := dr_provider_job_id r; dr_provider_code := dr_provider_code r;
  dr_provider_message := dr_provider_message r; dr_observed_at := dr_observed_at r;
  dr_submitted_at := dr_submitted_at r; dr_confirmed_at := dr_confirmed_at r;
  dr_target_results := dr_target_results r;
  dr_raw_result := dict_set (dr_raw_result r) "provider_writeback_id" (VStr (dr_writeback_id r));
  dr_truncated := dr_truncated r; dr_simulated := dr_simulated r
|}.

(** A receipt the service writes itself. *)
Definition local_receipt (o : OutboxRow) (sequence : Z) (status : WritebackStatus)
    (evidence : option ConfirmationEvidence) (message : option string) (now : Z) :
    result DispositionReceipt :=
  let r := {|
    dr_writeback_id := ob_writeback_id o; dr_sequence := sequence;
    dr_disposition_id := ob_disposition_id o; dr_action_id := ob_action_id o;
    dr_source_record_id := ob_source_record_id o; dr_status := status;
    dr_confirmation_evidence := evidence; dr_provider_record_id := None;
    dr_provider_job_id := None; dr_provider_code := None; dr_provider_message := message;
    dr_observed_at := Some now; dr_submitted_at := Some now;
    dr_confirmed_at := if status ==? WritebackStatus.CONFIRMED then Some now else None;
    dr_target_results := []; dr_raw_result := []; dr_truncated := false; dr_simulated := false
  |} in
  _confirmed_requires_evidence r ;; Ok r.

Definition receipt_row (r : DispositionReceipt) (sequence : Z) : ReceiptRow := {|
  rc_writeback_id := dr_writeback_id r; rc_sequence := sequence;
  rc_disposition_id := dr_disposition_id r; rc_action_id := dr_action_id r;
  rc_source_record_id := dr_source_record_id r; rc_status := enum_value (dr_status r);
  rc_confirmation_evidence := enum_value <$> dr_confirmation_evidence r;
  rc_provider_record_id := dr_provider_record_id r; rc_provider_job_id := dr_provider_job_id r;
  rc_provider_code := dr_provider_code r; rc_provider_message := dr_provider_message r;
  rc_observed_at := dr_observed_at r; rc_submitted_at := dr_submitted_at r;
  rc_confirmed_at := dr_confirmed_at r;
  rc_target_results := map (λ t, VDict (target_writeback_dump t)) (dr_target_results r);
  rc_raw_result := dr_raw_result r; rc_truncated := dr_truncated r;
  rc_simulated := dr_simulated r
|}.

(** [receipt.model_dump(mode="json")] *)
Definition receipt_dump (env : DeliveryEnv) (r : DispositionReceipt) : list (string * pyval) :=
  [("writeback_id", VStr (dr_writeback_id r)); ("sequence", VInt (dr_sequence r));
   ("disposition_id", VStr (dr_disposition_id r)); ("action_id", VStr (dr_action_id r));
   ("source_record_id", VStr (dr_source_record_id r));
   ("status", VStr (enum_value (dr_status r)));
   ("confirmation_evidence", opt_str (enum_value <$> dr_confirmation_evidence r));
   ("provider_record_id", opt_str (dr_provider_record_id r));
   ("provider_job_id", opt_str (dr_provider_job_id r));
   ("provider_code", opt_str (dr_provider_code r));
   ("provider_message", opt_str (dr_provider_message r));
   ("observed_at", opt_str (de_isoformat env <$> dr_observed_at r));
   ("submitted_at", opt_str (de_isoformat env <$> dr_submitted_at r));
   ("confirmed_at", opt_str (de_isoformat env <$> dr_confirmed_at r));
   ("target_results", VList (map (λ t, VDict (target_writeback_dump t)) (dr_target_results r)));
   ("raw_result", VDict (dr_raw_result r)); ("truncated", VBool (dr_truncated r));
   ("simulated", VBool (dr_simulated r))].

(** What [_append_receipt] is given: a provider receipt, or a status with a message. *)
Inductive ReceiptSource : Type :=
| FromProvider (receipt : DispositionReceipt)
| FromService (status : WritebackStatus) (evidence : option ConfirmationEvidence)
    (message : option string) (now : Z).

Definition _append_receipt (env : DeliveryEnv) (db : Db) (o : OutboxRow) (src : ReceiptSource) :
    result (Db * DispositionReceipt) :=
  let sequence := next_sequence db (ob_writeback_id o) in
  parsed ← match src with
           | FromProvider receipt => Ok (bound_receipt o sequence receipt)
           | FromService status evidence message now =>
               local_receipt o sequence status evidence message now
           end;
  let parsed := sanitize_disposition_receipt (de_sanitizer env) parsed in
  let db := db_with_results (db_receipts db ++ [receipt_row parsed sequence])%list
              (db_target_results db) db in
  journal ← append_list_context_journal_in_session db (ob_event_id o) "disposition_receipts"
              (VDict (receipt_dump env parsed));
  Ok (journal.1, parsed).

(** ** Projection onto the Action and its job *)

(** [mapped.model_copy(update={...})]: the row's own lease, attempt and provider are kept. *)
Definition job_with_row_fields (m : ActionExecutionJob) (row : JobRow)
    (status : ExecutionJobStatus) : ActionExecutionJob := {|
  aj_job_id := aj_job_id m; aj_event_id := aj_event_id m; aj_action_id := aj_action_id m;
  aj_provider_name := job_provider_name row; aj_idempotency_key := aj_idempotency_key m;
  aj_provider_job_id := aj_provider_job_id m; aj_status := status;
  aj_claimed_by := job_claimed_by row; aj_lease_expires_at := job_lease_expires_at row;
  aj_created_at := aj_created_at m; aj_updated_at := aj_updated_at m;
  aj_started_at := aj_started_at m; aj_finished_at := aj_finished_at m;
  aj_poll_after_ms := job_poll_after_ms row; aj_attempt := job_attempt row;
  aj_target_results := aj_target_results m; aj_provider_code := aj_provider_code m;
  aj_provider_message := aj_provider_message m; aj_raw_result := aj_raw_result m
|}.

Definition _persist_execution_job_from_receipt (env : DeliveryEnv) (db : Db) (a : ActionRow)
    (receipt : DispositionReceipt) (o : OutboxRow) (now : Z) :
    result (Db * option ActionExecutionJob) :=
  match act_execution_owner a with
  | None => Ok (db, None)
  | Some raw =>
      owner ← enum_of_value_or_raise raw;
      if owner !=? ExecutionOwner.XDR_MANAGED then Ok (db, None)
      else if negb (truthy_str (act_execution_job_id a)) then Ok (db, None)
      else
        let job_id := default "" (act_execution_job_id a) in
        match get_by job_job_id job_id (db_jobs db) with
        | None => Ok (db, None)
        | Some row =>
            current ← enum_of_value_or_raise (job_status row);
            let mapped := map_disposition_receipt_to_job (de_sanitizer env) receipt
                            (ob_event_id o) (job_idempotency_key row) job_id
                            (act_action_id a) in
            let status :=
              if (current ==? ExecutionJobStatus.RUNNING)
                 && (dr_status receipt ==? WritebackStatus.ACCEPTED)
                 && (aj_status mapped ==? ExecutionJobStatus.QUEUED)
              then ExecutionJobStatus.RUNNING else aj_status mapped in
            let mapped := job_with_row_fields mapped row status in
            (if status !=? current
             then validate_job_status_transition current status
                    (dr_status receipt ==? WritebackStatus.CONFIRMED) false
             else Ok tt) ;;
            synced ← sync_target_results_in_tx (de_sanitizer env) db job_id (job_attempt row)
                       (aj_target_results mapped);
            Ok (put_job (_apply_job_row row mapped now) synced.1, Some mapped)
        end
  end.

Definition entity_effect_pending (a : ActionRow) (command : DispositionCommand)
    (receipt : DispositionReceipt) : bool :=
  (dc_intent_kind command ==? DispositionIntentKind.ENTITY_ACTION_SUBMIT)
  && (dr_status receipt ==? WritebackStatus.ACCEPTED)
  && truthy_str (act_execution_job_id a).

Definition _apply_receipt_execution_projection (env : DeliveryEnv) (db : Db) (a : ActionRow)
    (o : OutboxRow) (command : DispositionCommand) (receipt : DispositionReceipt)
    (now dbnow : Z) : result (Db * option ActionExecutionJob) :=
  a ← (if entity_effect_pending a command receipt then Ok a
       else _apply_action_terminal_from_receipt a receipt now dbnow);
  _persist_execution_job_from_receipt env (put_action a db) a receipt o now.

(** ** Adapters *)

(** [self._adapters.get(name)] *)
Definition disposition_adapter_get (registry : list (string * BaseDispositionAdapter)) (name : string) :
    result BaseDispositionAdapter :=
  match dict_get registry name with
  | Some adapter => Ok adapter
  | None => Err (ShadowTraceError_init AdapterNotFoundError
                   ("disposition adapter '" +++ name +++ "' not registered") None
                   [("adapter_name", VStr name); ("kind", VStr "disposition")])
  end.

(** [payload.get("source_locator") or {}]; [.get] on a value that is not a mapping raises. *)
Definition source_product_of (payload : list (string * pyval)) : result string :=
  let product (d : list (string * pyval)) :=
    match dict_get d "source_product" with
    | Some v => if py_truthy v then py_str v else "mock_xdr"
    | None => "mock_xdr"
    end in
  match dict_get payload "source_locator" with
  | None => Ok (product [])
  | Some (VDict d) => Ok (product d)
  | Some v => if py_truthy v then Err (builtin_error OtherError "AttributeError")
              else Ok (product [])
  end.

Definition _resolve_adapter (env : DeliveryEnv) (o : OutboxRow) : result BaseDispositionAdapter :=
  product ← source_product_of (ob_command_payload o);
  match disposition_adapter_get (de_registry env) product with
  | Ok adapter => Ok adapter
  | Err e =>
      match dict_keys (de_registry env) with
      | [name] => disposition_adapter_get (de_registry env) name
      | _ => Err e
      end
  end.
