(* ===== verification/Delivery.v ===== *)
(** * Outbox delivery (services/disposition_sync_service.py, lines 245-407, 1169-1491,
      2613-2953, 3014-3268, 3353-3570)

    Enqueueing a command, delivering one row, recording a failed delivery, the worker that leases
    rows, and the lookup-first reconciliation of paused rows.  Each definition is one database
    transaction: it holds the row locks of the source, so it is atomic, and an [Err] leaves the
    database as it was.  A submission to the provider happens inside the delivery transaction and
    survives its rollback: [_deliver_outbox] returns it apart from the transaction's result.

    Left out: the projections after the commit (writeback summary, graph resume, event bus,
    entity-effect polling), which do not write outbox rows or receipts. *)

From stdpp Require Import prelude strings sorting.
From S2P Require Import Prelude Enums Errors Tables Workflow Lifecycles Db Disposition.
From S2P Require Import OutboundGuard ExecutionResults Reconcile ContextJournal Outbox.

#[local] Open Scope string_scope.

(** The clock readings of one delivery: the lease check, a block, the delivery, the projection,
    and the transaction's [now()]. *)
Record DeliveryClock : Type := {
  dk_now : Z;
  dk_block : Z;
  dk_delivered : Z;
  dk_project : Z;
  dk_tx : Z
}.

(** ** Delivering one row *)

(** What the checks before the egress decide: the transaction ends here with a database, or the
    command is sent. *)
Inductive egress : Type :=
| Stop (db : Db)
| Send (o : OutboxRow) (a : ActionRow) (command : DispositionCommand)
    (adapter : BaseDispositionAdapter).

Definition stop_with (db : Db) (o : result OutboxRow) : result egress :=
  o ← o; Ok (Stop (put_outbox o db)).

Definition deliverable_statuses : list OutboxDeliveryStatus :=
  [OutboxDeliveryStatus.READY; OutboxDeliveryStatus.LEASED; OutboxDeliveryStatus.WAITING_RETRY].

Definition already_answered_statuses : list WritebackStatus :=
  [WritebackStatus.ACCEPTED; WritebackStatus.CONFIRMED; WritebackStatus.FAILED;
   WritebackStatus.CONFLICT; WritebackStatus.UNKNOWN].

(** [WritebackStatus(raw) if raw else None] *)
Definition optional_writeback_status (raw : option string) : result (option WritebackStatus) :=
  match raw with
  | None => Ok None
  | Some s => if s ==? "" then Ok None
              else status ← enum_of_value_or_raise s; Ok (Some status)
  end.

Definition delivery_guard_context (command : DispositionCommand) : GuardContext :=
  {| gc_source_locator := Some (dc_source_locator command); gc_approved_action_ids := None |}.

(** From the parsed command to the point of egress. *)
Definition egress_checks (env : DeliveryEnv) (ck : DeliveryClock) (db : Db) (o : OutboxRow)
    (a : ActionRow) (delivery_status : OutboxDeliveryStatus) : result egress :=
  command ← de_validate_command env (ob_command_payload o);
  if negb (_assert_active_head_for_delivery db o command) then
    stop_with db (_block_superseded_outbox o (dk_block ck))
  else if (delivery_status ==? OutboxDeliveryStatus.LEASED)
          && negb (bool_decide (ob_locked_by o = None))
          && (ob_locked_by o !=? Some (de_worker_id env))
  then Ok (Stop db)
  else if (dc_intent_kind command ∈? _DELIVERY_APPROVAL_RECHECK_INTENTS)
          && negb (_action_still_approved_for_delivery a) then
    stop_with db (_block_outbox_for_writeback_fence o (dk_block ck)
      ("approval revoked before delivery: action status=" +++ act_status a))
  else
    guard_validate (redact_sensitive_text (de_sanitizer env)) command
      (delivery_guard_context command) ;;
    adapter ← _resolve_adapter env o;
    ad_validate_command adapter command ;;
    existing_status ← optional_writeback_status (ob_latest_writeback_status o);
    if match existing_status with Some s => s ∈? already_answered_statuses | None => false end
    then Ok (Stop db)
    else match receipts_of db (ob_writeback_id o) with
         | _ :: _ => Ok (Stop db)
         | [] => Ok (Send o a command adapter)
         end.

Definition fence_checks (env : DeliveryEnv) (ck : DeliveryClock) (db : Db) (o : OutboxRow)
    (delivery_status : OutboxDeliveryStatus) : result egress :=
  match get_by act_action_id (ob_action_id o) (db_actions db) with
  | None =>
      stop_with db (_block_outbox_for_writeback_fence o (dk_block ck)
        ("action row not found for writeback fence: " +++ ob_action_id o))
  | Some a =>
      match act_execution_owner a with
      | None =>
          stop_with db (_block_outbox_for_writeback_fence o (dk_block ck)
            ("action missing execution_owner for writeback fence: " +++ ob_action_id o))
      | Some raw =>
          owner ← enum_of_value_or_raise raw;
          match assert_writeback_side_effects_allowed (de_settings env) (Some (ob_action_id o))
                  (Some owner) with
          | Err exc =>
              stop_with db (_block_outbox_for_writeback_fence o (dk_block ck) (err_message exc))
          | Ok _ => egress_checks env ck db o a delivery_status
          end
      end
  end.

Definition deliver_checks (env : DeliveryEnv) (ck : DeliveryClock) (db : Db)
    (outbox_id : string) : result egress :=
  match get_by ob_outbox_id outbox_id (db_outboxes db) with
  | None => Ok (Stop db)
  | Some o =>
      if negb (bool_decide (ob_superseded_by_disposition_id o = None)) then
        stop_with db (_block_superseded_outbox o (dk_block ck))
      else
        delivery_status ← enum_of_value_or_raise (ob_delivery_status o);
        if negb (delivery_status ∈? deliverable_statuses) then Ok (Stop db)
        else if (delivery_status ==? OutboxDeliveryStatus.LEASED)
                && (ob_locked_by o !=? Some (de_worker_id env)) then Ok (Stop db)
        else if (delivery_status ==? OutboxDeliveryStatus.LEASED)
                && lease_expired o (dk_now ck) then
          stop_with db (_release_leased_outbox_after_lease_expiry env o (dk_now ck))
        else fence_checks env ck db o delivery_status
  end.

(** The readback of a status update: a failure keeps the receipt of the submission. *)
Definition readback_receipt (env : DeliveryEnv) (db : Db) (o : OutboxRow)
    (command : DispositionCommand) (adapter : BaseDispositionAdapter)
    (receipt : DispositionReceipt) : Db * DispositionReceipt :=
  if (dc_intent_kind command ==? DispositionIntentKind.EVENT_STATUS_UPDATE)
     && supports_readback_confirmation (ad_capabilities adapter) then
    match ad_confirm_readback adapter command with
    | Ok (Some confirmed) =>
        match _append_receipt env db o (FromProvider confirmed) with
        | Ok r => r
        | Err _ => (db, receipt)
        end
    | Ok None | Err _ => (db, receipt)
    end
  else (db, receipt).

(** The rest of the transaction once the provider answered. *)
Definition record_submission (env : DeliveryEnv) (ck : DeliveryClock) (db : Db) (o : OutboxRow)
    (a : ActionRow) (command : DispositionCommand) (adapter : BaseDispositionAdapter)
    (receipt : DispositionReceipt) : result Db :=
  stored ← _append_receipt env db o (FromProvider receipt);
  let '(db, receipt) := readback_receipt env stored.1 o command adapter stored.2 in
  let o := o |> set_latest_writeback_status (dr_status receipt) in
  o ← (if dr_status receipt ==? WritebackStatus.UNKNOWN then
         _pause_outbox_after_unknown_submission o (dk_delivered ck) "submission_unknown"
           "provider submission result unknown; lookup required before retry"
       else Ok (o |> set_delivery_status OutboxDeliveryStatus.DELIVERED
                  |> set_delivered_at (dk_delivered ck)
                  |> set_updated_at (dk_tx ck)));
  let a := _mirror_writeback_status_to_action a (dr_status receipt) (dk_tx ck) in
  projected ← _apply_receipt_execution_projection env (put_action a (put_outbox o db)) a o
                command receipt (dk_project ck) (dk_tx ck);
  Ok projected.1.

(** The submission, if one was made, and the transaction's result. *)
Definition _deliver_outbox (env : DeliveryEnv) (ck : DeliveryClock) (db : Db)
    (outbox_id : string) : option DispositionCommand * result Db :=
  match deliver_checks env ck db outbox_id with
  | Err e => (None, Err e)
  | Ok (Stop db') => (None, Ok db')
  | Ok (Send o a command adapter) =>
      (Some command,
       receipt ← ad_submit adapter command;
       record_submission env ck db o a command adapter receipt)
  end.

(** ** Recording a failed delivery *)

Definition mirror_to (db : Db) (action_id : string) (status : WritebackStatus) (dbnow : Z) : Db :=
  match get_by act_action_id action_id (db_actions db) with
  | Some a => put_action (_mirror_writeback_status_to_action a status dbnow) db
  | None => db
  end.

(** The Action and the job of a failed or conflicting delivery. *)
Definition project_failure (env : DeliveryEnv) (db : Db) (o : OutboxRow)
    (receipt : DispositionReceipt) (now dbnow : Z) : result Db :=
  match get_by act_action_id (ob_action_id o) (db_actions db) with
  | None => Ok db
  | Some a =>
      a ← _apply_action_terminal_from_receipt a receipt now dbnow;
      de_validate_command env (ob_command_payload o) ;;
      r ← _persist_execution_job_from_receipt env (put_action a db) a receipt o now;
      Ok r.1
  end.

Definition _apply_deterministic_rejection_terminal_state (env : DeliveryEnv) (db : Db)
    (o : OutboxRow) (now dbnow : Z) (from_status : OutboxDeliveryStatus)
    (error_code error_detail : string) : result Db :=
  let detail := _truncate_error_detail error_detail in
  validate_outbox_delivery_transition from_status OutboxDeliveryStatus.DEAD_LETTER
    default_outbox_args ;;
  let o := o |> set_last_error_code (Some error_code)
             |> set_last_error_detail (Some detail)
             |> set_latest_writeback_status WritebackStatus.FAILED
             |> release_lease
             |> set_next_retry_at None
             |> set_updated_at now
             |> set_delivery_status OutboxDeliveryStatus.DEAD_LETTER in
  stored ← _append_receipt env (put_outbox o db) o
             (FromService WritebackStatus.FAILED None (Some detail) now);
  project_failure env (mirror_to stored.1 (ob_action_id o) WritebackStatus.FAILED dbnow) o
    stored.2 now dbnow.

(** The row, if it is still leased. *)
Definition leased_row (db : Db) (outbox_id : string) : result (option OutboxRow) :=
  match get_by ob_outbox_id outbox_id (db_outboxes db) with
  | None => Ok None
  | Some o =>
      current ← enum_of_value_or_raise (ob_delivery_status o);
      Ok (if current ==? OutboxDeliveryStatus.LEASED then Some o else None)
  end.

Definition _mark_delivery_deterministic_rejection (env : DeliveryEnv) (now dbnow : Z) (db : Db)
    (outbox_id error_code error_detail : string) : result Db :=
  row ← leased_row db outbox_id;
  match row with
  | None => Ok db
  | Some o =>
      _apply_deterministic_rejection_terminal_state env db o now dbnow
        OutboxDeliveryStatus.LEASED error_code (_truncate_error_detail error_detail)
  end.

Definition _mark_delivery_conflict (env : DeliveryEnv) (now dbnow : Z) (db : Db)
    (outbox_id error_code error_detail : string) : result Db :=
  row ← leased_row db outbox_id;
  match row with
  | None => Ok db
  | Some o =>
      let detail := _truncate_error_detail error_detail in
      let o := o |> set_last_error_code (Some error_code)
                 |> set_last_error_detail (Some detail)
                 |> set_latest_writeback_status WritebackStatus.CONFLICT
                 |> release_lease
                 |> set_next_retry_at None
                 |> set_updated_at now in
      stored ← _append_receipt env db o
                 (FromService WritebackStatus.CONFLICT None (Some detail) now);
      validate_outbox_delivery_transition OutboxDeliveryStatus.LEASED
        OutboxDeliveryStatus.DELIVERED default_outbox_args ;;
      let o := o |> set_delivery_status OutboxDeliveryStatus.DELIVERED
                 |> set_delivered_at now in
      project_failure env
        (mirror_to (put_outbox o stored.1) (ob_action_id o) WritebackStatus.CONFLICT dbnow) o
        stored.2 now dbnow
  end.

Definition _mark_delivery_paused_unknown (env : DeliveryEnv) (now dbnow : Z) (db : Db)
    (outbox_id error_code error_detail : string) : result Db :=
  row ← leased_row db outbox_id;
  match row with
  | None => Ok db
  | Some o =>
      let detail := _truncate_error_detail error_detail in
      o ← _pause_outbox_after_unknown_submission
            (o |> set_latest_writeback_status WritebackStatus.UNKNOWN) now error_code detail;
      stored ← _append_receipt env (put_outbox o db) o
                 (FromService WritebackStatus.UNKNOWN None (Some detail) now);
      Ok (mirror_to stored.1 (ob_action_id o) WritebackStatus.UNKNOWN dbnow)
  end.

Definition _mark_delivery_waiting_retry (env : DeliveryEnv) (now : Z) (db : Db)
    (outbox_id error_code : string) (error_detail : option string) : result Db :=
  match get_by ob_outbox_id outbox_id (db_outboxes db) with
  | None => Ok db
  | Some o =>
      o ← _release_leased_outbox_after_failure env o now error_code error_detail;
      Ok (put_outbox o db)
  end.

Definition _mark_delivery_dead_letter (now : Z) (db : Db) (outbox_id error_code : string)
    (error_detail : option string) : result Db :=
  match get_by ob_outbox_id outbox_id (db_outboxes db) with
  | None => Ok db
  | Some o =>
      o ← _release_leased_outbox_to_dead_letter o now error_code error_detail;
      Ok (put_outbox o db)
  end.

Definition exception_text (e : error) : string :=
  error_type_name (err_class e) +++ ": " +++ err_message e.

(** [code or d] *)
Definition code_or (code : option string) (d : string) : string :=
  match code with Some c => if c ==? "" then d else c | None => d end.

(** The [except] clauses of [OutboxWorker.run_once]. *)
Definition handle_delivery_failure (env : DeliveryEnv) (now dbnow : Z) (db : Db)
    (outbox_id : string) (exc : error) : result Db :=
  let '(kind, code) := classify_disposition_delivery_error exc in
  match kind with
  | DispositionDeliveryErrorKind.GUARDRAIL =>
      _mark_delivery_dead_letter now db outbox_id "guardrail_blocked" (Some (err_message exc))
  | DispositionDeliveryErrorKind.CONFLICT =>
      _mark_delivery_conflict env now dbnow db outbox_id (code_or code "version_conflict")
        (err_message exc)
  | DispositionDeliveryErrorKind.DETERMINISTIC_REJECTION =>
      _mark_delivery_deterministic_rejection env now dbnow db outbox_id
        (code_or code "adapter_validation_error") (err_message exc)
  | DispositionDeliveryErrorKind.AMBIGUOUS_OUTCOME =>
      _mark_delivery_paused_unknown env now dbnow db outbox_id "delivery_outcome_unknown"
        (exception_text exc)
  end.

(** ** The worker *)

(** The WHERE clause of [_claim_batch]. *)
Definition claimable (now : Z) (o : OutboxRow) : bool :=
  let due := match ob_next_retry_at o with None => true | Some t => (t <=? now)%Z end in
  bool_decide (ob_superseded_by_disposition_id o = None)
  && (((ob_delivery_status o ==? enum_value OutboxDeliveryStatus.READY) && due)
      || ((ob_delivery_status o ==? enum_value OutboxDeliveryStatus.WAITING_RETRY) && due)
      || ((ob_delivery_status o ==? enum_value OutboxDeliveryStatus.LEASED)
          && lease_expired o now)).

Definition created_le (o1 o2 : OutboxRow) : Prop := (ob_created_at o1 ≤ ob_created_at o2)%Z.
Definition updated_le (o1 o2 : OutboxRow) : Prop := (ob_updated_at o1 ≤ ob_updated_at o2)%Z.
#[global] Instance created_le_dec : RelDecision created_le.
Proof. intros ? ?. unfold created_le. apply _. Defined.
#[global] Instance updated_le_dec : RelDecision updated_le.
Proof. intros ? ?. unfold updated_le. apply _. Defined.

(** One round of the loop over the selected rows: the database and whether the row is claimed. *)
Definition claim_row (env : DeliveryEnv) (now dbnow : Z) (db : Db) (o : OutboxRow) :
    result (Db * bool) :=
  if negb (bool_decide (ob_superseded_by_disposition_id o = None)) then Ok (db, false)
  else
    current ← enum_of_value_or_raise (ob_delivery_status o);
    if (current ==? OutboxDeliveryStatus.WAITING_RETRY)
       && bool_decide (ob_next_retry_at o = None) then
      let backoff_attempt := Z.max 1 (ob_attempt o + 1) in
      Ok (put_outbox (o |> set_next_retry_at
                             (Some (now + _outbox_retry_backoff_seconds (de_settings env)
                                            backoff_attempt)%Z)
                        |> set_updated_at now) db, false)
    else if (current ==? OutboxDeliveryStatus.LEASED) && lease_expired o now then
      o ← _release_leased_outbox_after_lease_expiry env o now;
      Ok (mirror_to (put_outbox o db) (ob_action_id o) WritebackStatus.UNKNOWN dbnow, false)
    else
      validate_outbox_delivery_transition current OutboxDeliveryStatus.LEASED
        default_outbox_args ;;
      Ok (put_outbox (o |> set_delivery_status OutboxDeliveryStatus.LEASED
                        |> set_lease (Some (de_worker_id env)) (Some now)
                             (Some (now + _DEFAULT_LEASE_SECONDS)%Z)
                        |> set_updated_at dbnow) db, true).

Fixpoint claim_rows (env : DeliveryEnv) (now dbnow : Z) (db : Db) (rows : list OutboxRow) :
    result (Db * list string) :=
  match rows with
  | [] => Ok (db, [])
  | o :: rows' =>
      '(db, hit) ← claim_row env now dbnow db o;
      '(db, claimed) ← claim_rows env now dbnow db rows';
      Ok (db, if hit : bool then ob_outbox_id o :: claimed else claimed)
  end.

(** [locked] are the rows other transactions hold ([SKIP LOCKED]). *)
Definition _claim_batch (env : DeliveryEnv) (locked : string → bool) (now dbnow : Z) (db : Db)
    (limit : nat) : result (Db * list string) :=
  claim_rows env now dbnow db
    (take limit (merge_sort created_le
       (List.filter (λ o, claimable now o && negb (locked (ob_outbox_id o)))
          (db_outboxes db)))).

(** ** Paused rows: lookup before any re-send *)

Record PausedLookupClaim : Type := {
  cl_outbox_id : string;
  cl_token : string;
  cl_event_id : string;
  cl_action_id : string;
  cl_disposition_id : string;
  cl_writeback_id : string;
  cl_idempotency_key : string;
  cl_command_payload_sha256 : string;
  cl_command : DispositionCommand;
  cl_adapter : BaseDispositionAdapter;
  cl_provider_job_id : option string
}.

Record PausedLookupOutcome : Type := {
  lo_kind : _PausedLookupKind;
  lo_receipt : option DispositionReceipt;
  lo_error_code : option string;
  lo_detail : option string
}.

(** The WHERE clause of [_claim_paused_outboxes]. *)
Definition paused_claimable (now : Z) (o : OutboxRow) : bool :=
  (ob_delivery_status o ==? enum_value OutboxDeliveryStatus.PAUSED)
  && bool_decide (ob_superseded_by_disposition_id o = None)
  && (bool_decide (ob_locked_by o = None) || lease_expired o now).

(** One round of the loop; [nonce] is the random part of the token. *)
Definition claim_paused_row (env : DeliveryEnv) (nonce : string) (now dbnow : Z) (db : Db)
    (o : OutboxRow) : Db * option PausedLookupClaim :=
  match command ← de_validate_command env (ob_command_payload o);
        adapter ← _resolve_adapter env o; Ok (command, adapter) with
  | Err exc =>
      (put_outbox (o |> set_last_error_code (Some "lookup_claim_invalid")
                     |> set_last_error_detail (Some (_truncate_error_detail (exception_text exc)))
                     |> set_updated_at now) db, None)
  | Ok (command, adapter) =>
      let token := de_worker_id env +++ ":reconcile:" +++ nonce in
      let o := o |> set_lease (Some token) (Some now) (Some (now + _DEFAULT_LEASE_SECONDS)%Z)
                 |> set_updated_at now in
      (mirror_to (put_outbox o db) (ob_action_id o) WritebackStatus.UNKNOWN dbnow,
       Some {| cl_outbox_id := ob_outbox_id o; cl_token := token; cl_event_id := ob_event_id o;
               cl_action_id := ob_action_id o; cl_disposition_id := ob_disposition_id o;
               cl_writeback_id := ob_writeback_id o;
               cl_idempotency_key := ob_idempotency_key o;
               cl_command_payload_sha256 := ob_command_payload_sha256 o;
               cl_command := command; cl_adapter := adapter;
               cl_provider_job_id :=
                 latest_receipt db (ob_writeback_id o) ≫= rc_provider_job_id |})
  end.

Fixpoint claim_paused_rows (env : DeliveryEnv) (nonce : string → string) (now dbnow : Z)
    (db : Db) (rows : list OutboxRow) : Db * list PausedLookupClaim :=
  match rows with
  | [] => (db, [])
  | o :: rows' =>
      let '(db, claim) := claim_paused_row env (nonce (ob_outbox_id o)) now dbnow db o in
      let '(db, claims) := claim_paused_rows env nonce now dbnow db rows' in
      (db, match claim with Some c => c :: claims | None => claims end)
  end.

Definition _claim_paused_outboxes (env : DeliveryEnv) (nonce : string → string)
    (locked : string → bool) (now dbnow : Z) (db : Db) (limit : nat) :
    Db * list PausedLookupClaim :=
  claim_paused_rows env nonce now dbnow db
    (take limit (merge_sort updated_le
       (List.filter (λ o, paused_claimable now o && negb (locked (ob_outbox_id o)))
          (db_outboxes db)))).

Definition degraded_outcome (code detail : string) : PausedLookupOutcome :=
  {| lo_kind := _PausedLookupKind.DEGRADED; lo_receipt := None; lo_error_code := Some code;
     lo_detail := Some detail |}.

(** The provider is asked outside any transaction. *)
Definition _lookup_paused_outbox (claim : PausedLookupClaim) : PausedLookupOutcome :=
  let adapter := cl_adapter claim in
  let caps := ad_capabilities adapter in
  if negb (supports_lookup_by_idempotency caps || supports_status_query caps) then
    degraded_outcome "lookup_unsupported"
      "adapter lacks lookup/status capability; manual adjudication required"
  else
    let answer :=
      looked ← (if supports_lookup_by_idempotency caps
                then ad_lookup_submission adapter (cl_idempotency_key claim)
                       (dc_source_locator (cl_command claim))
                else Ok None);
      if bool_decide (is_Some looked) then Ok looked
      else if supports_status_query caps && truthy_str (cl_provider_job_id claim)
      then ad_get_status adapter (default "" (cl_provider_job_id claim))
      else Ok None in
    match answer with
    | Err exc => degraded_outcome "lookup_degraded" (exception_text exc)
    | Ok (Some receipt) =>
        {| lo_kind := _PausedLookupKind.FOUND; lo_receipt := Some receipt;
           lo_error_code := None; lo_detail := None |}
    | Ok None =>
        if supports_lookup_by_idempotency caps
        then {| lo_kind := _PausedLookupKind.NOT_FOUND; lo_receipt := None;
                lo_error_code := None; lo_detail := None |}
        else degraded_outcome "lookup_inconclusive"
               "status query unavailable without a provider job id"
    end.

(** The row is the one that was claimed: still paused, under the same token, not superseded,
    with the same command. *)
Definition claim_holds (o : OutboxRow) (status : OutboxDeliveryStatus)
    (claim : PausedLookupClaim) : bool :=
  (status ==? OutboxDeliveryStatus.PAUSED)
  && (ob_locked_by o ==? Some (cl_token claim))
  && bool_decide (ob_superseded_by_disposition_id o = None)
  && (ob_idempotency_key o ==? cl_idempotency_key claim)
  && (ob_command_payload_sha256 o ==? cl_command_payload_sha256 claim).

(** The columns an inconclusive lookup leaves behind. *)
Definition still_paused (db : Db) (o : OutboxRow) (code detail : string) (dbnow : Z) : Db :=
  let o := o |> set_latest_writeback_status WritebackStatus.UNKNOWN
             |> set_last_error_code (Some code)
             |> set_last_error_detail (Some (_truncate_error_detail detail)) in
  mirror_to (put_outbox o db) (ob_action_id o) WritebackStatus.UNKNOWN dbnow.

Definition current_writeback (o : OutboxRow) : result WritebackStatus :=
  status ← optional_writeback_status (ob_latest_writeback_status o);
  Ok (default WritebackStatus.UNKNOWN status).

(** [adapter.allows_safe_retry()] is asked of the adapter of the claim. *)
Definition apply_not_found (env : DeliveryEnv) (now dbnow : Z) (db : Db) (o : OutboxRow)
    (claim : PausedLookupClaim) : result (Db * bool * option WritebackStatus) :=
  if is_deterministic_adapter_rejection_code (ob_last_error_code o) then
    db ← _apply_deterministic_rejection_terminal_state env db o now dbnow
           OutboxDeliveryStatus.PAUSED
           (code_or (ob_last_error_code o) "adapter_validation_error")
           "pre-submit deterministic rejection; lookup retry blocked";
    Ok (db, true, Some WritebackStatus.FAILED)
  else if negb (allows_safe_retry (cl_adapter claim)) then
    Ok (still_paused db o "lookup_not_found"
          "lookup found no submission and adapter does not allow safe retry" dbnow,
        false, Some WritebackStatus.UNKNOWN)
  else
    current_status ← current_writeback o;
    validate_writeback_status_transition current_status WritebackStatus.PENDING
      {| wta_lookup_never_accepted := true; wta_adapter_allows_safe_retry := true;
         wta_evidence_adjudication := false |} ;;
    validate_outbox_delivery_transition OutboxDeliveryStatus.PAUSED OutboxDeliveryStatus.READY
      default_outbox_args ;;
    let o := o |> set_latest_writeback_status WritebackStatus.PENDING
               |> set_last_error_code (Some "lookup_never_accepted")
               |> set_last_error_detail (Some (_truncate_error_detail
                    "lookup confirmed never-accepted; safe-retry re-enqueued"))
               |> set_delivery_status OutboxDeliveryStatus.READY in
    Ok (mirror_to (put_outbox o db) (ob_action_id o) WritebackStatus.PENDING dbnow,
        true, Some WritebackStatus.PENDING).

Definition apply_found (env : DeliveryEnv) (now dbnow : Z) (db : Db) (o : OutboxRow)
    (claim : PausedLookupClaim) (receipt : DispositionReceipt) :
    result (Db * bool * option WritebackStatus) :=
  if dr_status receipt ==? WritebackStatus.UNKNOWN then
    Ok (still_paused db o "lookup_unknown" "lookup inconclusive; outbox remains paused" dbnow,
        false, Some WritebackStatus.UNKNOWN)
  else
    current_status ← current_writeback o;
    validate_writeback_status_transition current_status (dr_status receipt)
      {| wta_lookup_never_accepted := false; wta_adapter_allows_safe_retry := false;
         wta_evidence_adjudication := true |} ;;
    stored ← _append_receipt env db o (FromProvider receipt);
    validate_outbox_delivery_transition OutboxDeliveryStatus.PAUSED
      OutboxDeliveryStatus.DELIVERED
      {| ota_lease_expired_resend := false; ota_known_pre_egress_failure := false;
         ota_lookup_confirmed_submission := true; ota_operator_retry_pause := false |} ;;
    let parsed := stored.2 in
    let o := o |> set_latest_writeback_status (dr_status parsed)
               |> set_delivery_status OutboxDeliveryStatus.DELIVERED
               |> set_delivered_at now
               |> set_last_error_code None
               |> set_last_error_detail None in
    let db := mirror_to (put_outbox o stored.1) (ob_action_id o) (dr_status parsed) dbnow in
    db ← match get_by act_action_id (ob_action_id o) (db_actions db) with
         | None => Ok db
         | Some a =>
             r ← _apply_receipt_execution_projection env db a o (cl_command claim) parsed
                   now dbnow;
             Ok r.1
         end;
    Ok (db, true, Some (dr_status parsed)).

Definition _apply_paused_lookup_outcome (env : DeliveryEnv) (now dbnow : Z) (db : Db)
    (claim : PausedLookupClaim) (outcome : PausedLookupOutcome) :
    result (Db * bool * option WritebackStatus) :=
  match get_by ob_outbox_id (cl_outbox_id claim) (db_outboxes db) with
  | None => Ok (db, false, None)
  | Some o =>
      status ← enum_of_value_or_raise (ob_delivery_status o);
      if negb (claim_holds o status claim) then Ok (db, false, None)
      else
        let o := o |> release_lease |> set_next_retry_at None |> set_updated_at now in
        match lo_kind outcome with
        | _PausedLookupKind.DEGRADED =>
            Ok (still_paused db o (code_or (lo_error_code outcome) "lookup_degraded")
                  (code_or (lo_detail outcome) "lookup inconclusive; outbox remains paused")
                  dbnow,
                false, Some WritebackStatus.UNKNOWN)
        | _PausedLookupKind.NOT_FOUND => apply_not_found env now dbnow db o claim
        | _PausedLookupKind.FOUND =>
            match lo_receipt outcome with
            | None => Err (builtin_error OtherError "AssertionError")
            | Some receipt => apply_found env now dbnow db o claim receipt
            end
        end
  end.

Definition _release_paused_lookup_claim (now : Z) (db : Db) (claim : PausedLookupClaim)
    (error_code detail : string) : result Db :=
  match get_by ob_outbox_id (cl_outbox_id claim) (db_outboxes db) with
  | None => Ok db
  | Some o =>
      status ← enum_of_value_or_raise (ob_delivery_status o);
      if (status !=? OutboxDeliveryStatus.PAUSED) || (ob_locked_by o !=? Some (cl_token claim))
      then Ok db
      else Ok (put_outbox (o |> release_lease
                             |> set_last_error_code (Some error_code)
                             |> set_last_error_detail (Some (_truncate_error_detail detail))
                             |> set_updated_at now) db)
  end.

(** One claim of [reconcile_paused_outboxes]: lookup, apply, and release on failure. *)
Definition reconcile_claim (env : DeliveryEnv) (now dbnow : Z) (db : Db)
    (claim : PausedLookupClaim) : result (Db * bool) :=
  match _apply_paused_lookup_outcome env now dbnow db claim (_lookup_paused_outbox claim) with
  | Ok (db', applied, _) => Ok (db', applied)
  | Err exc =>
      db' ← _release_paused_lookup_claim now db claim "lookup_apply_failed"
              (exception_text exc);
      Ok (db', false)
  end.

(** ** The loop of the worker *)

(** What the clock and the token generator answer during one run; [locked] are the rows other
    transactions hold at the two claims. *)
Record RunInputs : Type := {
  ri_nonce : string → string;
  ri_paused_locked : string → bool;
  ri_paused_now : Z;
  ri_reconcile_now : string → Z;
  ri_locked : string → bool;
  ri_claim_now : Z;
  ri_clock : string → DeliveryClock;
  ri_failure_now : string → Z;
  ri_dbnow : Z
}.

(** The loops carry the database of the last commit, also when they raise. *)
Fixpoint reconcile_claims (env : DeliveryEnv) (ri : RunInputs) (db : Db)
    (claims : list PausedLookupClaim) : Db * result nat :=
  match claims with
  | [] => (db, Ok 0)
  | claim :: claims' =>
      match reconcile_claim env (ri_reconcile_now ri (cl_outbox_id claim)) (ri_dbnow ri) db
              claim with
      | Err e => (db, Err e)
      | Ok (db, applied) =>
          let '(db, reconciled) := reconcile_claims env ri db claims' in
          (db, n ← reconciled; Ok (if applied : bool then S n else n))
      end
  end.

Definition reconcile_paused_outboxes (env : DeliveryEnv) (ri : RunInputs) (db : Db)
    (limit : nat) : Db * result nat :=
  let '(db, claims) := _claim_paused_outboxes env (ri_nonce ri) (ri_paused_locked ri)
                         (ri_paused_now ri) (ri_dbnow ri) db limit in
  reconcile_claims env ri db claims.

(** The ids whose command was submitted, in order, beside the database. *)
Fixpoint deliver_claimed (env : DeliveryEnv) (ri : RunInputs) (db : Db) (ids : list string) :
    list string * (Db * result unit) :=
  match ids with
  | [] => ([], (db, Ok tt))
  | id :: ids' =>
      let '(sent, r) := _deliver_outbox env (ri_clock ri id) db id in
      let submitted := match sent with Some _ => [id] | None => [] end in
      let outcome := match r with
                     | Ok db' => Ok db'
                     | Err exc =>
                         handle_delivery_failure env (ri_failure_now ri id) (ri_dbnow ri) db id
                           exc
                     end in
      match outcome with
      | Err e => (submitted, (db, Err e))
      | Ok db' =>
          let '(more, rest) := deliver_claimed env ri db' ids' in
          (submitted ++ more, rest)%list
      end
  end.

Definition run_once (env : DeliveryEnv) (ri : RunInputs) (db : Db) (limit : nat) :
    list string * (Db * result nat) :=
  match reconcile_paused_outboxes env ri db limit with
  | (db, Err e) => ([], (db, Err e))
  | (db, Ok _) =>
      match _claim_batch env (ri_locked ri) (ri_claim_now ri) (ri_dbnow ri) db limit with
      | Err e => ([], (db, Err e))
      | Ok (db, claimed) =>
          let '(submitted, (db, r)) := deliver_claimed env ri db claimed in
          (submitted, (db, r ;; Ok (length claimed)))
      end
  end.

(** ** Enqueueing *)

(** What the caller and the identifier generators give. *)
Record EnqueueArgs : Type := {
  eq_command : DispositionCommand;
  eq_event_id : string;
  eq_source_record_id : string;
  eq_logical_slot : string;
  eq_trusted_locator : option SourceObjectLocator;
  eq_approved_action_ids : option (list string);
  eq_new_outbox_id : string;
  eq_new_writeback_id : string
}.

(** [ctx = {..., **(guard_context or {})}], then the approved set when the caller gave none. *)
Definition enqueue_guard_context (db : Db) (args : EnqueueArgs) : GuardContext :=
  let command := eq_command args in
  {| gc_source_locator := Some (default (dc_source_locator command) (eq_trusted_locator args));
     gc_approved_action_ids :=
       Some (default (resolve_approved_action_ids db (eq_event_id args)
                        (dc_closure_cycle command)) (eq_approved_action_ids args)) |}.

(** The primary key, the two unique constraints and the partial unique index of
    [disposition_outbox]; a violation is an [IntegrityError]. *)
Definition conflicts_with (new o : OutboxRow) : bool :=
  (ob_outbox_id o ==? ob_outbox_id new)
  || (ob_idempotency_key o ==? ob_idempotency_key new)
  || ((ob_source_record_id o ==? ob_source_record_id new)
      && (ob_source_sequence o ==? ob_source_sequence new))
  || ((ob_intent_kind new ==? enum_value DispositionIntentKind.EVENT_STATUS_UPDATE)
      && bool_decide (ob_superseded_by_disposition_id new = None)
      && active_head_row (ob_event_id new) (ob_closure_cycle new) (ob_intent_kind new)
           (ob_logical_slot new) o).

Definition insert_outbox (db : Db) (new : OutboxRow) : result Db :=
  raise_if (existsb (conflicts_with new) (db_outboxes db))
    (builtin_error IntegrityError "unique constraint violated") ;;
  Ok (db_with_outboxes (db_outboxes db ++ [new])%list (db_source_sequences db) db).

Definition new_outbox (env : DeliveryEnv) (args : EnqueueArgs) (command : DispositionCommand)
    (source_sequence dbnow : Z) : OutboxRow := {|
  ob_outbox_id := eq_new_outbox_id args; ob_writeback_id := eq_new_writeback_id args;
  ob_disposition_id := dc_disposition_id command; ob_action_id := dc_action_id command;
  ob_event_id := eq_event_id args; ob_closure_cycle := dc_closure_cycle command;
  ob_source_record_id := eq_source_record_id args;
  ob_source_locator_hash := de_locator_hash env (dc_source_locator command);
  ob_source_sequence := source_sequence;
  ob_intent_kind := enum_value (dc_intent_kind command);
  ob_logical_slot := eq_logical_slot args;
  ob_supersedes_disposition_id := dc_supersedes_disposition_id command;
  ob_superseded_by_disposition_id := None; ob_idempotency_key := dc_idempotency_key command;
  ob_command_payload := command_dump command;
  ob_command_payload_sha256 := de_payload_sha256 env (command_dump command);
  ob_delivery_status := enum_value OutboxDeliveryStatus.READY;
  ob_latest_writeback_status := None; ob_attempt := 0; ob_next_retry_at := None;
  ob_locked_by := None; ob_locked_at := None; ob_lease_expires_at := None;
  ob_last_error_code := None; ob_last_error_detail := None; ob_created_at := dbnow;
  ob_updated_at := dbnow; ob_delivered_at := None
|}.

(** [SELECT ... LIMIT 1]: the index allows at most one such row. *)
Definition prior_head (db : Db) (args : EnqueueArgs) : option OutboxRow :=
  let command := eq_command args in
  if dc_intent_kind command ==? DispositionIntentKind.EVENT_STATUS_UPDATE
  then List.find (active_head_row (eq_event_id args) (dc_closure_cycle command)
                    (enum_value (dc_intent_kind command)) (eq_logical_slot args))
         (db_outboxes db)
  else None.

(** The row that now carries the command: the active head itself when the same command was
    enqueued before, a new head otherwise.  The source returns it as a [DispositionOutboxRecord]. *)
Definition enqueue_command (env : DeliveryEnv) (now dbnow : Z) (db : Db) (args : EnqueueArgs) :
    result (Db * OutboxRow) :=
  let command := eq_command args in
  guard_validate (redact_sensitive_text (de_sanitizer env)) command
    (enqueue_guard_context db args) ;;
  raise_if (bool_decide (db_events db !! eq_event_id args = None))
    (mk_ValidationError "security_event not found for outbox enqueue"
       [("event_id", VStr (eq_event_id args))]) ;;
  match db_source_sequences db !! eq_source_record_id args with
  | None => Err (mk_ValidationError "source_record not found for outbox enqueue"
                   [("source_record_id", VStr (eq_source_record_id args))])
  | Some n =>
      let source_sequence := (n + 1)%Z in
      let db := db_with_outboxes (db_outboxes db)
                  (<[eq_source_record_id args := source_sequence]> (db_source_sequences db)) db in
      let enqueue_new (db : Db) (command : DispositionCommand) :=
        let new := new_outbox env args command source_sequence dbnow in
        db ← insert_outbox db new;
        journal ← append_list_context_journal_in_session db (eq_event_id args)
                    "disposition_commands" (VDict (command_dump command));
        Ok (journal.1, new) in
      match prior_head db args with
      | None => enqueue_new db command
      | Some head =>
          if (ob_idempotency_key head ==? dc_idempotency_key command)
             && (ob_command_payload_sha256 head ==? de_payload_sha256 env (command_dump command))
          then Ok (db, head)
          else
            head ← _finalize_superseded_head head (dc_disposition_id command) now;
            enqueue_new (put_outbox head db)
              (command_superseding command (ob_disposition_id head))
      end
  end.
