(* ===== verification/OutboxFacts.v ===== *)
(** * What the operations on one outbox row do

    Every operation keeps the identity of the row (its keys, its lineage and its command) and
    moves the delivery status along an edge of the delivery table; the receipt log and the
    outbox table are framed through the projections onto Actions and jobs. *)

From stdpp Require Import prelude strings pretty.
From S2P Require Import Prelude Enums Errors Tables Workflow Lifecycles LifecycleFacts Runs Db.
From S2P Require Import Disposition OutboundGuard ExecutionResults Reconcile.
From S2P Require Import ContextJournal Outbox Delivery.

#[local] Open Scope string_scope.

(** ** Rows *)

(** The columns no operation may change: "[command_payload] is immutable after creation". *)
Definition outbox_identity (o : OutboxRow) :=
  (ob_outbox_id o, ob_writeback_id o, ob_disposition_id o, ob_action_id o, ob_event_id o,
   ob_closure_cycle o, ob_source_record_id o, ob_source_locator_hash o, ob_source_sequence o,
   ob_intent_kind o, ob_logical_slot o, ob_supersedes_disposition_id o, ob_idempotency_key o,
   ob_command_payload o, ob_command_payload_sha256 o, ob_created_at o).

Inductive bounded_text : option string → Prop :=
| bounded_none : bounded_text None
| bounded_some d : (String.length d ≤ 500)%nat → bounded_text (Some d).

Definition detail_bounded (o : OutboxRow) : Prop := bounded_text (ob_last_error_detail o).

(** A write that moves the delivery status from [s] to [t]. *)
Record moved (o o' : OutboxRow) (s t : OutboxDeliveryStatus) : Prop := {
  mv_identity : outbox_identity o' = outbox_identity o;
  mv_superseded : ob_superseded_by_disposition_id o' = ob_superseded_by_disposition_id o;
  mv_from : ob_delivery_status o = enum_value s;
  mv_to : ob_delivery_status o' = enum_value t;
  mv_edge : t ∈ default [] (OUTBOX_DELIVERY_TRANSITIONS s);
  mv_live : s ≠ OutboxDeliveryStatus.DELIVERED ∧ s ≠ OutboxDeliveryStatus.DEAD_LETTER;
  mv_detail : detail_bounded o → detail_bounded o'
}.

Lemma substring_length n s : (String.length (str_take n s) ≤ n)%nat.
Proof.
  unfold str_take. revert n. induction s as [|c s IH]; intros [|n]; cbn; try lia.
  specialize (IH n). lia.
Qed.

Lemma truncate_bounded d : bounded_text (Some (_truncate_error_detail d)).
Proof.
  constructor. unfold _truncate_error_detail. destruct (Nat.leb_spec (String.length d) _ERROR_DETAIL_MAX_LEN).
  - unfold _ERROR_DETAIL_MAX_LEN in *. lia.
  - rewrite string_length_app. pose proof (substring_length (_ERROR_DETAIL_MAX_LEN - 3) d).
    change (String.length "...") with 3%nat. unfold _ERROR_DETAIL_MAX_LEN in *. lia.
Qed.

Lemma detail_or_kept_bounded d o :
  bounded_text (ob_last_error_detail o) → bounded_text (detail_or_kept d o).
Proof. unfold detail_or_kept. destruct d; cbn; [intros _; apply truncate_bounded|done]. Qed.

Arguments detail_or_kept : simpl never.
Arguments _truncate_error_detail : simpl never.

#[export] Hint Resolve bounded_none truncate_bounded detail_or_kept_bounded : shadowtrace.

(** A validated status is an edge of the table. *)
Lemma validated_edge s t args :
  validate_outbox_delivery_transition s t args = Ok tt →
  t ∈ default [] (OUTBOX_DELIVERY_TRANSITIONS s).
Proof. intros H. by apply validate_outbox_delivery_transition_Ok in H as [He _ _ _ _]. Qed.

(** Only an operator's pause leaves a final status. *)
Lemma live_edge s t args :
  t ≠ OutboxDeliveryStatus.PAUSED → validate_outbox_delivery_transition s t args = Ok tt →
  s ≠ OutboxDeliveryStatus.DELIVERED ∧ s ≠ OutboxDeliveryStatus.DEAD_LETTER.
Proof. intros Ht Hv%validated_edge. destruct s; cbn in Hv; set_solver. Qed.

(** Solves the fields of [moved] for a row written by assignments. *)
Ltac row_moved :=
  constructor; [reflexivity|reflexivity|assumption|reflexivity|
                first [eapply validated_edge; eassumption|
                       apply (bool_decide_unpack _); by vm_compute]|
                first [by split|eapply live_edge; [|eassumption]; done]|
                unfold detail_bounded; cbn; eauto with shadowtrace].

Section rows.
Implicit Types o : OutboxRow.
Context (env : DeliveryEnv).

Lemma lease_expiry_moves o now o' :
  _release_leased_outbox_after_lease_expiry env o now = Ok o' →
  o' = o ∧ ob_delivery_status o ≠ enum_value OutboxDeliveryStatus.LEASED ∨
  moved o o' OutboxDeliveryStatus.LEASED OutboxDeliveryStatus.PAUSED ∧
  ob_latest_writeback_status o' = Some (enum_value WritebackStatus.UNKNOWN).
Proof.
  unfold _release_leased_outbox_after_lease_expiry. rewrite bind_Ok. intros (s & Hs & H).
  apply enum_of_value_or_raise_Ok in Hs. case_bool_decide as Hl; cbn [negb] in H.
  - subst s. apply unit_seq_Ok in H as [Hv [= <-]]. right. split; [row_moved|done].
  - injection H as <-. left. split; [done|]. rewrite Hs. by intros ?%(inj enum_value).
Qed.

Lemma pause_unknown_moves o now code detail o' :
  _pause_outbox_after_unknown_submission o now code detail = Ok o' →
  o' = o ∧ (∀ s, s ∈ deliverable_statuses → ob_delivery_status o ≠ enum_value s) ∨
  moved o o' OutboxDeliveryStatus.LEASED OutboxDeliveryStatus.PAUSED ∧
  ob_latest_writeback_status o' = ob_latest_writeback_status o.
Proof.
  unfold _pause_outbox_after_unknown_submission. rewrite bind_Ok. intros (s & Hs & H).
  apply enum_of_value_or_raise_Ok in Hs. case_bool_decide as Hd; cbn [negb] in H.
  - apply unit_seq_Ok in H as [Hv [= <-]]. right.
    assert (s = OutboxDeliveryStatus.LEASED) as ->.
    { apply validated_edge in Hv. destruct s; cbn in Hv; set_solver. }
    split; [row_moved|done].
  - injection H as <-. left. split; [done|]. intros t Ht. rewrite Hs.
    by intros ->%(inj enum_value).
Qed.

Lemma to_dead_letter_moves o now code detail o' :
  _release_leased_outbox_to_dead_letter o now code detail = Ok o' →
  o' = o ∧ ob_delivery_status o ≠ enum_value OutboxDeliveryStatus.LEASED ∨
  moved o o' OutboxDeliveryStatus.LEASED OutboxDeliveryStatus.DEAD_LETTER.
Proof.
  unfold _release_leased_outbox_to_dead_letter. rewrite bind_Ok. intros (s & Hs & H).
  apply enum_of_value_or_raise_Ok in Hs. case_bool_decide as Hl; cbn [negb] in H.
  - subst s. apply unit_seq_Ok in H as [Hv [= <-]]. right. row_moved.
  - injection H as <-. left. split; [done|]. rewrite Hs. by intros ?%(inj enum_value).
Qed.

Lemma fence_block_moves o now detail o' :
  _block_outbox_for_writeback_fence o now detail = Ok o' →
  ∃ s, moved o o' s OutboxDeliveryStatus.DEAD_LETTER.
Proof.
  unfold _block_outbox_for_writeback_fence. rewrite bind_Ok. intros (s & Hs & H).
  apply enum_of_value_or_raise_Ok in Hs. case_bool_decide as Hl.
  - subst s. apply to_dead_letter_moves in H as [[_ ?]|H]; [done|eauto].
  - apply unit_seq_Ok in H as [Hv [= <-]]. exists s. row_moved.
Qed.

Lemma superseded_block_moves o now o' :
  _block_superseded_outbox o now = Ok o' →
  outbox_identity o' = outbox_identity o ∧
  ob_superseded_by_disposition_id o' = ob_superseded_by_disposition_id o ∧
  ob_delivery_status o' = enum_value OutboxDeliveryStatus.DEAD_LETTER ∧
  (detail_bounded o → detail_bounded o') ∧
  ∃ s, ob_delivery_status o = enum_value s ∧
    (s = OutboxDeliveryStatus.DEAD_LETTER ∨
     OutboxDeliveryStatus.DEAD_LETTER ∈ default [] (OUTBOX_DELIVERY_TRANSITIONS s)) ∧
    s ≠ OutboxDeliveryStatus.DELIVERED.
Proof.
  unfold _block_superseded_outbox. rewrite bind_Ok. intros (s & Hs & H).
  apply enum_of_value_or_raise_Ok in Hs. case_bool_decide as Hl.
  - subst s. apply to_dead_letter_moves in H as [[_ ?]|[]]; [done|]. split_and!; eauto 10.
  - case_bool_decide as Hd; cbn [negb] in H.
    + injection H as <-. split_and!; try done; [by rewrite Hd in Hs| |subst s; eauto 10].
      intros _. unfold detail_bounded; cbn. apply truncate_bounded.
    + apply unit_seq_Ok in H as [Hv [= <-]]. split_and!; try done.
      * intros _. unfold detail_bounded; cbn. apply truncate_bounded.
      * exists s. split_and!; [done|right; by eapply validated_edge|].
        by eapply live_edge in Hv as [].
Qed.

Lemma finalize_moves o d now o' :
  _finalize_superseded_head o d now = Ok o' →
  outbox_identity o' = outbox_identity o ∧
  ob_superseded_by_disposition_id o' = Some d ∧
  (ob_delivery_status o' = enum_value OutboxDeliveryStatus.DEAD_LETTER ∨
   ob_delivery_status o' = enum_value OutboxDeliveryStatus.DELIVERED) ∧
  (detail_bounded o → detail_bounded o') ∧ ob_disposition_id o' = ob_disposition_id o.
Proof.
  unfold _finalize_superseded_head. cbn zeta. rewrite bind_Ok. intros (s & Hs & H).
  apply enum_of_value_or_raise_Ok in Hs. case_bool_decide as Hd.
  - injection H as <-. split_and!; try done. cbn.
    assert (ob_delivery_status o = enum_value s) as Hst.
    { cbn in Hs. case_bool_decide; [|done]. destruct s; cbn in *; set_solver. }
    rewrite Hst. set_solver.
  - apply unit_seq_Ok in H as [Hv [= <-]]. split_and!; try done; [by left|].
    intros _. unfold detail_bounded; cbn. apply truncate_bounded.
Qed.

(** A failed delivery ends the lease, and the attempts are bounded by the settings. *)
Lemma failure_moves o now code detail o' :
  _release_leased_outbox_after_failure env o now code detail = Ok o' →
  o' = o ∧ ob_delivery_status o ≠ enum_value OutboxDeliveryStatus.LEASED ∨
  moved o o' OutboxDeliveryStatus.LEASED OutboxDeliveryStatus.PAUSED ∨
  moved o o' OutboxDeliveryStatus.LEASED OutboxDeliveryStatus.DEAD_LETTER ∨
  moved o o' OutboxDeliveryStatus.LEASED OutboxDeliveryStatus.WAITING_RETRY ∧
  ob_attempt o' = (ob_attempt o + 1)%Z ∧
  (ob_attempt o' < st_outbox_max_attempts (de_settings env))%Z.
Proof.
  unfold _release_leased_outbox_after_failure. rewrite bind_Ok. intros (s & Hs & H).
  apply enum_of_value_or_raise_Ok in Hs. case_bool_decide as Hl; cbn [negb] in H.
  - subst s. destruct (lease_expired o now).
    { apply lease_expiry_moves in H as [[_ ?]|[? _]]; [done|auto]. }
    destruct (Z.leb_spec (st_outbox_max_attempts (de_settings env)) (ob_attempt o + 1));
      apply unit_seq_Ok in H as [Hv [= <-]].
    + right; right; left. row_moved.
    + right; right; right. split; [row_moved|]. cbn. lia.
  - injection H as <-. left. split; [done|]. rewrite Hs. by intros ?%(inj enum_value).
Qed.
End rows.

(** ** Frames *)

(** Neither the outbox table nor the receipt log changes. *)
Definition quiet (db db' : Db) : Prop :=
  db_outboxes db' = db_outboxes db ∧ db_receipts db' = db_receipts db.

#[global] Instance quiet_preorder : PreOrder quiet.
Proof. split; [done|]. intros a b c [] []. split; congruence. Qed.

Lemma quiet_put_action a db : quiet db (put_action a db).
Proof. done. Qed.

Lemma quiet_put_job j db : quiet db (put_job j db).
Proof. done. Qed.

Lemma quiet_mirror db aid s t : quiet db (mirror_to db aid s t).
Proof. unfold mirror_to. by destruct (get_by _ _ _). Qed.

Lemma quiet_journal db e f v r :
  append_list_context_journal_in_session db e f v = Ok r → quiet db r.1.
Proof.
  unfold append_list_context_journal_in_session, append_context_journal_in_session.
  case_bool_decide; cbn; [|done]. by intros [= <-].
Qed.

Lemma quiet_sync sz db j n ts r : sync_target_results_in_tx sz db j n ts = Ok r → quiet db r.1.
Proof.
  unfold sync_target_results_in_tx. destruct ts; [by intros [= <-]|].
  case_bool_decide; cbn [negb]; [|by intros [= <-]].
  rewrite bind_Ok. intros (l & _ & Hl). destruct l; by injection Hl as <-.
Qed.

#[export] Hint Resolve quiet_put_action quiet_put_job quiet_mirror quiet_journal quiet_sync
  : shadowtrace.

Lemma quiet_persist env db a r o now res :
  _persist_execution_job_from_receipt env db a r o now = Ok res → quiet db res.1.
Proof.
  unfold _persist_execution_job_from_receipt. intros H.
  destruct (act_execution_owner a); [|by injection H as <-].
  apply bind_Ok in H as (owner & _ & H). case_bool_decide; cbn [negb] in H; [|by injection H as <-].
  case_match; [by injection H as <-|]. case_match; [|by injection H as <-].
  apply bind_Ok in H as (cur & _ & H). apply unit_seq_Ok in H as [_ H].
  apply bind_Ok in H as (synced & Hs & [= <-]). transitivity synced.1; eauto with shadowtrace.
Qed.

Lemma quiet_project env db a o c r now dbnow res :
  _apply_receipt_execution_projection env db a o c r now dbnow = Ok res → quiet db res.1.
Proof.
  unfold _apply_receipt_execution_projection. rewrite bind_Ok. intros (a' & _ & H).
  apply quiet_persist in H. by transitivity (put_action a' db).
Qed.

Lemma quiet_failure env db o r now dbnow db' :
  project_failure env db o r now dbnow = Ok db' → quiet db db'.
Proof.
  unfold project_failure. destruct (get_by _ _ _); [|by intros [= <-]].
  rewrite bind_Ok. intros (a' & _ & H). apply bind_Ok in H as (c & _ & H).
  apply bind_Ok in H as (res & Hp & [= <-]). apply quiet_persist in Hp.
  by transitivity (put_action a' db).
Qed.

(** A stored receipt carries the row's writeback id, the next sequence number and the status it
    was given. *)
Lemma append_receipt_spec env db o src db' r :
  _append_receipt env db o src = Ok (db', r) →
  db_outboxes db' = db_outboxes db ∧
  (∃ row, db_receipts db' = (db_receipts db ++ [row])%list ∧
     rc_writeback_id row = ob_writeback_id o ∧
     rc_sequence row = next_sequence db (ob_writeback_id o) ∧
     rc_status row = enum_value (dr_status r)) ∧
  dr_status r = match src with
                | FromProvider p => dr_status p
                | FromService s _ _ _ => s
                end.
Proof.
  unfold _append_receipt. cbn zeta. rewrite bind_Ok. intros (p & Hp & H).
  apply bind_Ok in H as (j & Hj & [= <- <-]). apply quiet_journal in Hj as [Ho Hr].
  rewrite Ho, Hr. cbn. split; [done|].
  destruct src as [pr|s ev m t].
  - injection Hp as <-. split; [|done]. eauto.
  - unfold local_receipt in Hp. cbn zeta in Hp. apply unit_seq_Ok in Hp as [_ [= <-]].
    split; [|done]. eauto.
Qed.

(** ** Tables *)

Lemma put_outbox_outboxes o db :
  db_outboxes (put_outbox o db) = update_by ob_outbox_id o (db_outboxes db).
Proof. done. Qed.

Lemma get_outbox_Some db id o :
  get_by ob_outbox_id id (db_outboxes db) = Some o → o ∈ db_outboxes db ∧ ob_outbox_id o = id.
Proof. apply get_by_Some. Qed.

Lemma update_by_same {A} (pk : A → string) (x : A) l :
  NoDup (pk <$> l) → x ∈ l → update_by pk x l = l.
Proof.
  intros Hnd Hx.
  assert (Forall2 eq l (update_by pk x l)) as H.
  { eapply (update_by_related eq pk l x x); done. }
  apply list_eq_Forall2 in H. by rewrite <-H.
Qed.

Lemma receipts_of_app db db' rs wb :
  db_receipts db' = (db_receipts db ++ rs)%list →
  receipts_of db' wb = (receipts_of db wb ++ List.filter (λ r, rc_writeback_id r ==? wb) rs)%list.
Proof. intros H. unfold receipts_of. by rewrite H, List.filter_app. Qed.

(** ** Steps of a row *)

Definition leased_ok (o : OutboxRow) : Prop :=
  ob_delivery_status o = enum_value OutboxDeliveryStatus.LEASED →
  is_Some (ob_locked_by o) ∧ is_Some (ob_lease_expires_at o).

(** Well-formed rows: a readable status, an owner and an expiry for a lease, a bounded detail. *)
Record row_wf (o : OutboxRow) : Prop := {
  wf_status : ∃ s : OutboxDeliveryStatus, ob_delivery_status o = enum_value s;
  wf_lease : leased_ok o;
  wf_detail : detail_bounded o
}.

(** What every write to a row respects. *)
Record row_step (o o' : OutboxRow) : Prop := {
  rs_identity : outbox_identity o' = outbox_identity o;
  rs_superseded : is_Some (ob_superseded_by_disposition_id o) →
    is_Some (ob_superseded_by_disposition_id o');
  rs_edge : ∀ s : OutboxDeliveryStatus, ob_delivery_status o = enum_value s →
    ∃ t : OutboxDeliveryStatus, ob_delivery_status o' = enum_value t ∧
      (t = s ∨ t ∈ default [] (OUTBOX_DELIVERY_TRANSITIONS s));
  rs_final : ob_delivery_status o = enum_value OutboxDeliveryStatus.DELIVERED ∨
      ob_delivery_status o = enum_value OutboxDeliveryStatus.DEAD_LETTER →
    ob_delivery_status o' = ob_delivery_status o;
  rs_wf : row_wf o → row_wf o'
}.

(** Not eligible for delivery. *)
Definition parked (o : OutboxRow) : Prop :=
  ∀ s, s ∈ deliverable_statuses → ob_delivery_status o ≠ enum_value s.

(** A write that does not make the row eligible for delivery. *)
Definition calm (o o' : OutboxRow) : Prop :=
  ob_delivery_status o' = ob_delivery_status o ∧
  ob_latest_writeback_status o' = ob_latest_writeback_status o ∧
  ob_locked_by o' = ob_locked_by o ∨ parked o'.

Definition calm_step (o o' : OutboxRow) : Prop := row_step o o' ∧ calm o o'.

Lemma row_step_refl o : row_step o o.
Proof. split; eauto. Qed.

Lemma calm_step_refl o : calm_step o o.
Proof. split; [apply row_step_refl|by left]. Qed.

#[export] Hint Resolve row_step_refl calm_step_refl : shadowtrace.

Lemma identity_outbox_id o o' :
  outbox_identity o' = outbox_identity o → ob_outbox_id o' = ob_outbox_id o.
Proof. by intros [=]. Qed.

Lemma identity_disposition_id o o' :
  outbox_identity o' = outbox_identity o → ob_disposition_id o' = ob_disposition_id o.
Proof. by intros [=]. Qed.

Lemma identity_idempotency_key o o' :
  outbox_identity o' = outbox_identity o → ob_idempotency_key o' = ob_idempotency_key o.
Proof. by intros [=]. Qed.

Lemma identity_writeback_id o o' :
  outbox_identity o' = outbox_identity o → ob_writeback_id o' = ob_writeback_id o.
Proof. by intros [=]. Qed.

Lemma status_parked o s :
  ob_delivery_status o = enum_value s → s ∉ deliverable_statuses → parked o.
Proof. intros Hs Hn t Ht. rewrite Hs. by intros ->%(inj enum_value). Qed.

Lemma not_leased_wf o s :
  ob_delivery_status o = enum_value s → s ≠ OutboxDeliveryStatus.LEASED → detail_bounded o →
  row_wf o.
Proof.
  intros Hs Hne Hd. split; [eauto| |done]. intros Hl. rewrite Hl in Hs.
  by apply (inj enum_value) in Hs.
Qed.

Lemma moved_row_step o o' s t :
  moved o o' s t → t ≠ OutboxDeliveryStatus.LEASED → row_step o o'.
Proof.
  intros [Hi Hsup Hf Ht He [Hl1 Hl2] Hd] Hne. split; [done|by rewrite Hsup| | |].
  - intros s' Hs'. rewrite Hs' in Hf. apply (inj enum_value) in Hf as ->. eauto.
  - intros [Hs|Hs]; rewrite Hs in Hf; by apply (inj enum_value) in Hf; subst.
  - intros [_ _ Hdo]. eapply not_leased_wf; eauto.
Qed.

Lemma moved_calm o o' s t : moved o o' s t → t ∉ deliverable_statuses → calm_step o o'.
Proof.
  intros Hm Hn. split.
  - eapply moved_row_step; [done|]. intros ->. destruct Hn. unfold deliverable_statuses. set_solver.
  - right. eapply status_parked; [by destruct Hm|done].
Qed.

Lemma superseded_block_calm o now o' : _block_superseded_outbox o now = Ok o' → calm_step o o'.
Proof.
  intros (Hi & Hsup & Ht & Hd & s & Hs & He & Hnd)%superseded_block_moves. split.
  - split; [done|by rewrite Hsup| | |].
    + intros s' Hs'. rewrite Hs' in Hs. apply (inj enum_value) in Hs as ->.
      eexists; split; [done|]. by destruct He as [->|?]; [left|right].
    + intros [Hf|Hf]; [|congruence]. rewrite Hf in Hs. by apply (inj enum_value) in Hs.
    + intros [_ _ Hdo]. eapply not_leased_wf; eauto.
  - right. eapply status_parked; [done|]. unfold deliverable_statuses. set_solver.
Qed.

Lemma lease_expiry_calm env o now o' :
  _release_leased_outbox_after_lease_expiry env o now = Ok o' → calm_step o o'.
Proof.
  intros [[-> _]|[Hm _]]%lease_expiry_moves; [eauto with shadowtrace|].
  eapply moved_calm; [done|]. unfold deliverable_statuses. set_solver.
Qed.

Lemma fence_block_calm o now detail o' :
  _block_outbox_for_writeback_fence o now detail = Ok o' → calm_step o o'.
Proof.
  intros [s Hm]%fence_block_moves. eapply moved_calm; [done|].
  unfold deliverable_statuses. set_solver.
Qed.

Lemma to_dead_letter_calm o now code detail o' :
  _release_leased_outbox_to_dead_letter o now code detail = Ok o' → calm_step o o'.
Proof.
  intros [[-> _]|Hm]%to_dead_letter_moves; [eauto with shadowtrace|].
  eapply moved_calm; [done|]. unfold deliverable_statuses. set_solver.
Qed.

Lemma delivery_value_nonempty (s : OutboxDeliveryStatus) : enum_value s ≠ "".
Proof. by destruct s. Qed.

Lemma finalize_calm o d now o' : _finalize_superseded_head o d now = Ok o' → calm_step o o'.
Proof.
  intros H. pose proof H as Hm. apply finalize_moves in Hm as (Hi & Hsup & Ht & Hd & _).
  assert (parked o') as Hp.
  { destruct Ht as [Ht|Ht]; eapply status_parked; try exact Ht; unfold deliverable_statuses;
      set_solver. }
  assert (∀ s : OutboxDeliveryStatus, ob_delivery_status o = enum_value s →
    ∃ t : OutboxDeliveryStatus, ob_delivery_status o' = enum_value t ∧
      (t = s ∨ t ∈ default [] (OUTBOX_DELIVERY_TRANSITIONS s) ∧
       s ≠ OutboxDeliveryStatus.DELIVERED ∧ s ≠ OutboxDeliveryStatus.DEAD_LETTER)) as Hedge.
  { intros s Hs. unfold _finalize_superseded_head in H. cbn zeta in H.
    apply bind_Ok in H as (cur & Hcur & H). cbn in Hcur. rewrite Hs in Hcur.
    rewrite (bool_decide_eq_false_2 (enum_value s = "")) in Hcur
      by apply delivery_value_nonempty.
    apply enum_of_value_or_raise_Ok, (inj enum_value) in Hcur as <-.
    case_bool_decide.
    + injection H as <-. eauto.
    + apply unit_seq_Ok in H as [Hv [= <-]]. eexists; split; [reflexivity|].
      right. split; [by eapply validated_edge|].
      eapply live_edge; [|exact Hv]. done. }
  split; [|by right]. split; [done|by rewrite Hsup| | |].
  - intros s Hs. destruct (Hedge s Hs) as (t & ? & [?|[? _]]); eauto.
  - intros [Hs|Hs]; rewrite Hs; destruct (Hedge _ Hs) as (t & -> & [->|(_ & ? & ?)]); done.
  - intros [_ _ Hdo]. destruct Ht as [Ht|Ht]; eapply not_leased_wf; eauto.
Qed.

(** ** Steps of the tables *)

(** The rows evolve one by one by [R], and the receipt log only grows. *)
Definition evolves (R : OutboxRow → OutboxRow → Prop) (db db' : Db) : Prop :=
  Forall2 R (db_outboxes db) (db_outboxes db') ∧
  ∃ rs, db_receipts db' = (db_receipts db ++ rs)%list.

Definition outboxes_keyed (db : Db) : Prop := NoDup (ob_outbox_id <$> db_outboxes db).

Lemma evolves_quiet R db db' : (∀ o, R o o) → quiet db db' → evolves R db db'.
Proof.
  intros HR [Ho Hr]. split; [rewrite Ho; by apply Forall2_same|].
  exists []. by rewrite app_nil_r.
Qed.

Lemma evolves_put R db o o' db' rs :
  (∀ x, R x x) → outboxes_keyed db → o ∈ db_outboxes db → ob_outbox_id o' = ob_outbox_id o →
  R o o' → db_outboxes db' = update_by ob_outbox_id o' (db_outboxes db) →
  db_receipts db' = (db_receipts db ++ rs)%list → evolves R db db'.
Proof.
  intros Hrefl Hk Ho Hid HR Hob Hre. split; [|eauto]. rewrite Hob.
  by eapply update_by_related.
Qed.

Lemma evolves_trans R db1 db2 db3 :
  (∀ x y z, R x y → R y z → R x z) → evolves R db1 db2 → evolves R db2 db3 → evolves R db1 db3.
Proof.
  intros HR [H1 [r1 E1]] [H2 [r2 E2]]. split.
  - by eapply Forall2_compose.
  - exists (r1 ++ r2)%list. by rewrite E2, E1, app_assoc.
Qed.

Lemma evolves_keyed R db db' :
  (∀ x y, R x y → ob_outbox_id y = ob_outbox_id x) →
  evolves R db db' → outboxes_keyed db → outboxes_keyed db'.
Proof.
  intros HR [H _] Hk. unfold outboxes_keyed in *.
  replace (ob_outbox_id <$> db_outboxes db') with (ob_outbox_id <$> db_outboxes db); [done|].
  clear Hk. induction H as [|x y l l' Hxy _ IH]; [done|]. cbn. f_equal; [|done].
  symmetry. by apply HR.
Qed.
