(* ===== verification/DeliveryFacts.v ===== *)
(** * What one delivery, one failure record and one lookup guarantee *)

From stdpp Require Import prelude strings sorting.
From S2P Require Import Prelude Enums Errors Tables Workflow Lifecycles LifecycleFacts Runs Db.
From S2P Require Import Disposition OutboundGuard ExecutionResults Reconcile.
From S2P Require Import ContextJournal Outbox Delivery OutboxFacts.

#[local] Open Scope string_scope.

(** ** The point of egress *)

(** The newest active head of a status update is the row itself. *)
Definition newest_head (db : Db) (o : OutboxRow) : Prop :=
  ∃ h, h ∈ db_outboxes db ∧ ob_disposition_id h = ob_disposition_id o ∧
    ob_superseded_by_disposition_id h = None ∧
    ∀ h', h' ∈ db_outboxes db → ob_event_id h' = ob_event_id o →
      ob_closure_cycle h' = ob_closure_cycle o →
      ob_intent_kind h' = enum_value DispositionIntentKind.EVENT_STATUS_UPDATE →
      ob_logical_slot h' = ob_logical_slot o → ob_superseded_by_disposition_id h' = None →
      (ob_created_at h' ≤ ob_created_at h)%Z.

(** What holds of the rows when a command leaves the system. *)
Record egress_allowed (env : DeliveryEnv) (ck : DeliveryClock) (db : Db) (o : OutboxRow)
    (a : ActionRow) (s : OutboxDeliveryStatus) (owner : ExecutionOwner)
    (c : DispositionCommand) : Prop := {
  eg_row : o ∈ db_outboxes db;
  eg_head : ob_superseded_by_disposition_id o = None;
  eg_status : ob_delivery_status o = enum_value s;
  eg_deliverable : s = OutboxDeliveryStatus.READY ∨ s = OutboxDeliveryStatus.LEASED ∨
    s = OutboxDeliveryStatus.WAITING_RETRY;
  eg_lease : s = OutboxDeliveryStatus.LEASED →
    ob_locked_by o = Some (de_worker_id env) ∧
    ∃ t, ob_lease_expires_at o = Some t ∧ (dk_now ck < t)%Z;
  eg_action : a ∈ db_actions db ∧ act_action_id a = ob_action_id o;
  eg_owner : act_execution_owner a = Some (enum_value owner);
  eg_fence : side_effects_open (de_settings env) (Some owner);
  eg_approved : ∃ st, act_status a = enum_value st ∧
    st ∈ [ActionStatus.APPROVED; ActionStatus.EXECUTING; ActionStatus.SUCCESS;
          ActionStatus.PARTIAL_SUCCESS];
  eg_current_plan : act_superseded_by_revision a = None;
  eg_command : de_validate_command env (ob_command_payload o) = Ok c;
  eg_newest : dc_intent_kind c = DispositionIntentKind.EVENT_STATUS_UPDATE → newest_head db o;
  eg_clean : ∀ text, leaf (VDict (command_dump c)) text →
    clean_text (redact_sensitive_text (de_sanitizer env)) text;
  eg_first : ∀ r, r ∈ db_receipts db → rc_writeback_id r ≠ ob_writeback_id o;
  eg_unanswered : ∀ w, w ∈ already_answered_statuses →
    ob_latest_writeback_status o ≠ Some (enum_value w)
}.

Lemma all_intents_rechecked k : k ∈ _DELIVERY_APPROVAL_RECHECK_INTENTS.
Proof. destruct k; apply (bool_decide_unpack _); by vm_compute. Qed.

Lemma still_approved a :
  _action_still_approved_for_delivery a = true →
  (∃ st, act_status a = enum_value st ∧
     st ∈ [ActionStatus.APPROVED; ActionStatus.EXECUTING; ActionStatus.SUCCESS;
           ActionStatus.PARTIAL_SUCCESS]) ∧ act_superseded_by_revision a = None.
Proof.
  unfold _action_still_approved_for_delivery. rewrite andb_true_iff, !bool_decide_eq_true.
  intros [Hs Hn]. split; [|done]. repeat (apply elem_of_cons in Hs as [->|Hs]);
    [eexists; split; [done|set_solver]..|by apply elem_of_nil in Hs].
Qed.

Lemma active_head_newest db o c :
  _assert_active_head_for_delivery db o c = true →
  dc_intent_kind c = DispositionIntentKind.EVENT_STATUS_UPDATE → newest_head db o.
Proof.
  unfold _assert_active_head_for_delivery. intros H Hk.
  rewrite Hk, (bool_decide_eq_true_2 (_ = _)) in H by done. cbn [negb] in H.
  apply bool_decide_eq_true in H. destruct (last_by _ _) as [h|] eqn:Hl; [|done].
  injection H as Hd. apply last_by_Some in Hl as [Hin Hmax].
  apply in_where in Hin as [Hh Ha]. unfold active_head_row in Ha. bool_props.
  exists h. split_and!; try done. intros h' Hh' ? ? ? ? ?. apply Hmax, in_where.
  split; [done|]. unfold active_head_row. rewrite !andb_true_iff, !bool_decide_eq_true. done.
Qed.

Lemma unanswered raw st :
  optional_writeback_status raw = Ok st →
  match st with Some s => s ∈? already_answered_statuses | None => false end = false →
  ∀ w, w ∈ already_answered_statuses → raw ≠ Some (enum_value w).
Proof.
  unfold optional_writeback_status. intros H Hn w Hw ->.
  case_bool_decide as He; [by destruct w|].
  apply bind_Ok in H as (s & Hs & [= <-]). apply enum_of_value_or_raise_Ok in Hs.
  apply (inj enum_value) in Hs as <-. by rewrite bool_decide_eq_true_2 in Hn.
Qed.

Lemma stop_not_send db r o a c ad : stop_with db r ≠ Ok (Send o a c ad).
Proof. unfold stop_with. intros (x & _ & [=])%bind_Ok. Qed.

Section egress.
Context (env : DeliveryEnv) (ck : DeliveryClock) (db : Db).

Lemma egress_checks_send o a s o' a' c ad :
  egress_checks env ck db o a s = Ok (Send o' a' c ad) →
  o' = o ∧ a' = a ∧ de_validate_command env (ob_command_payload o) = Ok c ∧
  _resolve_adapter env o = Ok ad ∧
  _assert_active_head_for_delivery db o c = true ∧
  _action_still_approved_for_delivery a = true ∧
  (∀ text, leaf (VDict (command_dump c)) text →
     clean_text (redact_sensitive_text (de_sanitizer env)) text) ∧
  receipts_of db (ob_writeback_id o) = [] ∧
  ∀ w, w ∈ already_answered_statuses → ob_latest_writeback_status o ≠ Some (enum_value w).
Proof.
  unfold egress_checks. rewrite bind_Ok. intros (c0 & Hc & H).
  destruct (_assert_active_head_for_delivery db o c0) eqn:Hh; cbn [negb] in H;
    [|by apply stop_not_send in H].
  destruct (bool_decide (s = _) && _ && _); [done|].
  rewrite (bool_decide_eq_true_2 _ (all_intents_rechecked _)) in H. cbn [andb] in H.
  destruct (_action_still_approved_for_delivery a) eqn:Hap; cbn [negb] in H;
    [|by apply stop_not_send in H].
  apply bind_Ok in H as (vs & Hg & H). apply bind_Ok in H as (ad0 & Hra & H).
  apply unit_seq_Ok in H as [_ H]. apply bind_Ok in H as (st & Hst & H).
  destruct (match st with Some _ => _ | None => _ end) eqn:Hans; [done|].
  destruct (receipts_of db (ob_writeback_id o)) eqn:Hr; [|done].
  injection H as <- <- <- <-. split_and!; try done; [|by eapply unanswered].
  assert (∃ vs, guard_validate (redact_sensitive_text (de_sanitizer env)) c0
            (delivery_guard_context c0) = Ok vs) as Hgs by eauto.
  exact (outbound_guard_clean _ _ _ Hgs).
Qed.

Lemma fence_checks_send o s o' a c ad :
  fence_checks env ck db o s = Ok (Send o' a c ad) →
  o' = o ∧ (a ∈ db_actions db ∧ act_action_id a = ob_action_id o) ∧
  (∃ owner, act_execution_owner a = Some (enum_value owner) ∧
     side_effects_open (de_settings env) (Some owner)) ∧
  egress_checks env ck db o a s = Ok (Send o a c ad).
Proof.
  unfold fence_checks. intros H.
  destruct (get_by _ _ _) as [a0|] eqn:Ha; [|by apply stop_not_send in H].
  apply get_by_Some in Ha.
  destruct (act_execution_owner a0) as [raw|] eqn:Hown; [|by apply stop_not_send in H].
  apply bind_Ok in H as (owner & Hraw & H). apply enum_of_value_or_raise_Ok in Hraw as ->.
  destruct (assert_writeback_side_effects_allowed _ _ _) as [[]|] eqn:Hf;
    [|by apply stop_not_send in H].
  apply fence_open in Hf. pose proof H as He. apply egress_checks_send in He as (-> & -> & _).
  split_and!; eauto; apply Ha.
Qed.

Lemma lease_unexpired o now :
  lease_expired o now = false → ∃ t, ob_lease_expires_at o = Some t ∧ (now < t)%Z.
Proof.
  unfold lease_expired. destruct (ob_lease_expires_at o); [|done].
  intros ?%Z.leb_gt. eauto.
Qed.

Lemma deliver_checks_send id o a c ad :
  deliver_checks env ck db id = Ok (Send o a c ad) →
  ∃ s owner, get_by ob_outbox_id id (db_outboxes db) = Some o ∧ _resolve_adapter env o = Ok ad ∧
    egress_allowed env ck db o a s owner c.
Proof.
  unfold deliver_checks. intros H.
  destruct (get_by _ _ _) as [o0|] eqn:Hg; [|done].
  destruct (decide (ob_superseded_by_disposition_id o0 = None)) as [Hsup|Hsup];
    [rewrite (bool_decide_eq_true_2 _ Hsup) in H|rewrite (bool_decide_eq_false_2 _ Hsup) in H];
    cbn [negb] in H; [|by apply stop_not_send in H].
  apply bind_Ok in H as (s & Hs & H). apply enum_of_value_or_raise_Ok in Hs.
  case_bool_decide as Hd; cbn [negb] in H; [|done].
  destruct (bool_decide (s = _) && _) eqn:Hl1; [done|].
  destruct (bool_decide (s = OutboxDeliveryStatus.LEASED) && lease_expired o0 (dk_now ck))
    eqn:Hl2; [by apply stop_not_send in H|].
  apply fence_checks_send in H as (-> & Ha & (owner & Hown & Hf) & H).
  apply egress_checks_send in H as (_ & _ & Hc & Hra & Hh & Hap & Hcl & Hr & Hw).
  apply still_approved in Hap as [Hap Hrev].
  exists s, owner. split_and!; [done|done|]. constructor; try done.
  - by apply get_by_Some in Hg as [].
  - unfold deliverable_statuses in Hd. set_solver.
  - intros ->. rewrite (bool_decide_eq_true_2 (_ = _)) in Hl1, Hl2 by done. cbn [andb] in *.
    split; [by bool_props|by apply lease_unexpired].
  - by apply active_head_newest.
  - intros r Hrin He.
    assert (r ∈ receipts_of db (ob_writeback_id o0)) as Hin.
    { apply in_where. split; [done|]. by apply bool_decide_eq_true. }
    rewrite Hr in Hin. by apply elem_of_nil in Hin.
Qed.
End egress.

(** ** Effects on the tables *)

Section effects.
Context (env : DeliveryEnv).

Lemma stop_with_calm db o r db' :
  outboxes_keyed db → o ∈ db_outboxes db → (∀ o', r = Ok o' → calm_step o o') →
  stop_with db r = Ok (Stop db') → evolves calm_step db db'.
Proof.
  intros Hk Ho Hr. unfold stop_with. rewrite bind_Ok. intros (o' & He & [= <-]).
  specialize (Hr _ He). destruct Hr as [Hs Hc].
  eapply (evolves_put _ _ o o' _ []); eauto with shadowtrace.
  - by apply identity_outbox_id, rs_identity.
  - by split.
  - by rewrite app_nil_r.
Qed.

Lemma egress_checks_stop ck db o a s db' :
  outboxes_keyed db → o ∈ db_outboxes db →
  egress_checks env ck db o a s = Ok (Stop db') → evolves calm_step db db'.
Proof.
  intros Hk Ho H. unfold egress_checks in H. apply bind_Ok in H as (c & _ & H).
  assert (evolves calm_step db db) as Hsame by (apply evolves_quiet; eauto with shadowtrace; done).
  destruct (negb (_assert_active_head_for_delivery db o c)).
  { eapply stop_with_calm in H; eauto using superseded_block_calm. }
  destruct (bool_decide (s = _) && _ && _); [by injection H as <-|].
  destruct (bool_decide (dc_intent_kind c ∈ _) && _).
  { eapply stop_with_calm in H; eauto using fence_block_calm. }
  apply bind_Ok in H as (vs & _ & H). apply bind_Ok in H as (ad & _ & H).
  apply unit_seq_Ok in H as [_ H]. apply bind_Ok in H as (st & _ & H).
  destruct (match st with Some _ => _ | None => _ end); [by injection H as <-|].
  destruct (receipts_of db _); [done|by injection H as <-].
Qed.

(** A delivery that sends nothing parks the row or leaves it as it was. *)
Lemma deliver_stop_calm ck db id db' :
  outboxes_keyed db → deliver_checks env ck db id = Ok (Stop db') → evolves calm_step db db'.
Proof.
  intros Hk H. unfold deliver_checks in H.
  assert (evolves calm_step db db) as Hsame by (apply evolves_quiet; eauto with shadowtrace; done).
  destruct (get_by _ _ _) as [o|] eqn:Hg; [|by injection H as <-].
  apply get_by_Some in Hg as [Ho _].
  destruct (negb _); [eapply stop_with_calm in H; eauto using superseded_block_calm|].
  apply bind_Ok in H as (s & _ & H). destruct (negb _); [by injection H as <-|].
  destruct (bool_decide (s = _) && _); [by injection H as <-|].
  destruct (bool_decide (s = _) && lease_expired _ _).
  { eapply stop_with_calm in H; eauto using lease_expiry_calm. }
  unfold fence_checks in H. destruct (get_by act_action_id _ _) as [a|].
  - destruct (act_execution_owner a); [|eapply stop_with_calm in H; eauto using fence_block_calm].
    apply bind_Ok in H as (ow & _ & H).
    destruct (assert_writeback_side_effects_allowed _ _ _).
    + by eapply egress_checks_stop.
    + eapply stop_with_calm in H; eauto using fence_block_calm.
  - eapply stop_with_calm in H; eauto using fence_block_calm.
Qed.

Lemma readback_receipt_spec db o c ad r db' r' :
  readback_receipt env db o c ad r = (db', r') →
  db_outboxes db' = db_outboxes db ∧
  ∃ rs, db_receipts db' = (db_receipts db ++ rs)%list ∧
    Forall (λ x, rc_writeback_id x = ob_writeback_id o) rs.
Proof.
  unfold readback_receipt. intros H.
  assert (∃ rs, db_receipts db = (db_receipts db ++ rs)%list ∧
    Forall (λ x, rc_writeback_id x = ob_writeback_id o) rs) as Hsame
    by (exists []; by rewrite app_nil_r).
  destruct (_ && _); [|by injection H as <- <-].
  destruct (ad_confirm_readback ad c) as [[conf|]|]; [|by injection H as <- <-..].
  destruct (_append_receipt _ _ _ _) as [[db1 r1]|] eqn:Ha; injection H as <- <-; [|done].
  apply append_receipt_spec in Ha as (Ho & (row & Hr & Hw & _) & _).
  split; [done|]. exists [row]. auto.
Qed.

(** A recorded submission leaves a receipt of the row's writeback, and the row is delivered, or
    paused when a leased submission has an unknown outcome. *)
Lemma record_submission_spec ck db o a c ad r db' :
  record_submission env ck db o a c ad r = Ok db' →
  ∃ o' rs, db_outboxes db' = update_by ob_outbox_id o' (db_outboxes db) ∧
    db_receipts db' = (db_receipts db ++ rs)%list ∧
    (∃ row, row ∈ rs ∧ rc_writeback_id row = ob_writeback_id o) ∧
    Forall (λ x, rc_writeback_id x = ob_writeback_id o) rs ∧
    outbox_identity o' = outbox_identity o ∧
    ob_superseded_by_disposition_id o' = ob_superseded_by_disposition_id o ∧
    (detail_bounded o → detail_bounded o') ∧
    (ob_delivery_status o' = enum_value OutboxDeliveryStatus.DELIVERED ∨
     ob_delivery_status o = enum_value OutboxDeliveryStatus.LEASED ∧
     ob_delivery_status o' = enum_value OutboxDeliveryStatus.PAUSED ∨
     parked o ∧ ob_delivery_status o' = ob_delivery_status o).
Proof.
  unfold record_submission. rewrite bind_Ok. intros ([db1 r1] & H1 & H). cbn [fst snd] in H.
  apply append_receipt_spec in H1 as (Ho1 & (row1 & Hr1 & Hw1 & _) & _).
  destruct (readback_receipt env db1 o c ad r1) as [db2 r2] eqn:Hrb.
  apply readback_receipt_spec in Hrb as (Ho2 & rs & Hr2 & Hrs).
  apply bind_Ok in H as (o' & Ho' & H). apply bind_Ok in H as (res & Hp & [= <-]).
  apply quiet_project in Hp as [Hpo Hpr]. cbn in Hpo, Hpr.
  exists o', (row1 :: rs). rewrite Hpo, Hpr, Ho2, Ho1, Hr2, Hr1, <-app_assoc.
  split_and!; [done|done|set_solver|by constructor|..];
    (case_bool_decide; [apply pause_unknown_moves in Ho' as [[-> Hn]|[Hm _]]|injection Ho' as <-]);
    try done; try (by destruct Hm); try (by left).
  - right; right. done.
  - right; left. split; by destruct Hm.
Qed.

Lemma leased_row_Some db id o :
  leased_row db id = Ok (Some o) →
  o ∈ db_outboxes db ∧ ob_outbox_id o = id ∧
  ob_delivery_status o = enum_value OutboxDeliveryStatus.LEASED.
Proof.
  unfold leased_row. destruct (get_by _ _ _) as [o0|] eqn:Hg; [|done].
  apply get_by_Some in Hg as [Ho Hid].
  rewrite bind_Ok. intros (s & Hs & H). apply enum_of_value_or_raise_Ok in Hs.
  case_bool_decide as Hl; [|done]. injection H as <-. by subst s.
Qed.

(** One row is written, and receipts are appended. *)
Record puts (db db' : Db) (o o' : OutboxRow) : Prop := {
  pt_row : o ∈ db_outboxes db;
  pt_outboxes : db_outboxes db' = update_by ob_outbox_id o' (db_outboxes db);
  pt_identity : outbox_identity o' = outbox_identity o;
  pt_receipts : ∃ rs, db_receipts db' = (db_receipts db ++ rs)%list
}.

Lemma puts_evolves R db db' o o' :
  (∀ x, R x x) → outboxes_keyed db → puts db db' o o' → R o o' → evolves R db db'.
Proof.
  intros Hrefl Hk [Ho Hob Hi [rs Hre]] HR.
  exact (evolves_put R db o o' db' rs Hrefl Hk Ho (identity_outbox_id _ _ Hi) HR Hob Hre).
Qed.

Lemma puts_quiet db db1 db' o o' : puts db db1 o o' → quiet db1 db' → puts db db' o o'.
Proof.
  intros [Ho Hob Hi [rs Hre]] [Hq1 Hq2]. split; [done|congruence|done|]. exists rs. congruence.
Qed.

Lemma puts_elem db db' o o' x :
  puts db db' o o' → x ∈ db_outboxes db' →
  x = o' ∨ x ∈ db_outboxes db ∧ ob_outbox_id x ≠ ob_outbox_id o.
Proof.
  intros [Ho Hob Hi _] Hx. rewrite Hob in Hx. unfold update_by in Hx.
  apply list_elem_of_fmap in Hx as (y & -> & Hy). apply identity_outbox_id in Hi.
  case_bool_decide as E; [by left|]. right. by rewrite <-Hi.
Qed.

(** The failure paths end the lease of the row in a parked state. *)
Definition parks (db db' : Db) (o : OutboxRow) : Prop :=
  ∃ o', puts db db' o o' ∧ calm_step o o' ∧ parked o'.

Lemma moved_parks o o' s t :
  moved o o' s t → t ∉ deliverable_statuses → calm_step o o' ∧ parked o'.
Proof.
  intros Hm Hn. split; [by eapply moved_calm|]. eapply status_parked; [by destruct Hm|done].
Qed.

Lemma rejection_parks db o0 o now dbnow s code detail db' :
  o0 ∈ db_outboxes db → outbox_identity o = outbox_identity o0 →
  ob_superseded_by_disposition_id o = ob_superseded_by_disposition_id o0 →
  ob_delivery_status o0 = enum_value s →
  _apply_deterministic_rejection_terminal_state env db o now dbnow s code detail = Ok db' →
  parks db db' o0.
Proof.
  intros Ho Hi Hsup Hs. unfold _apply_deterministic_rejection_terminal_state. cbn zeta.
  rewrite unit_seq_Ok. intros [Hv H]. apply bind_Ok in H as ([db1 r1] & H1 & H).
  apply append_receipt_spec in H1 as (Ho1 & (row & Hr1 & _) & _).
  apply quiet_failure in H. cbn [fst snd] in *.
  eexists. split; [eapply puts_quiet; [|etrans; [apply quiet_mirror|exact H]]|].
  - split; [done|exact Ho1|exact Hi|eauto].
  - apply (moved_parks _ _ s OutboxDeliveryStatus.DEAD_LETTER).
    + constructor; [exact Hi|exact Hsup|done|done|by eapply validated_edge
                   |eapply live_edge; [|exact Hv]; done|].
      intros _. unfold detail_bounded; cbn. apply truncate_bounded.
    + unfold deliverable_statuses. set_solver.
Qed.

Lemma conflict_parks now dbnow db id code detail db' o :
  leased_row db id = Ok (Some o) →
  _mark_delivery_conflict env now dbnow db id code detail = Ok db' → parks db db' o.
Proof.
  intros Hl. unfold _mark_delivery_conflict. rewrite Hl. cbn [mbind result_bind]. intros H.
  apply leased_row_Some in Hl as (Ho & _ & Hs).
  apply bind_Ok in H as ([db1 r1] & H1 & H). apply unit_seq_Ok in H as [Hv H].
  apply append_receipt_spec in H1 as (Ho1 & (row & Hr1 & _) & _). cbn [fst snd] in *.
  apply quiet_failure in H.
  eexists. split; [eapply puts_quiet; [|etrans; [apply quiet_mirror|exact H]]|].
  - split; [done|rewrite put_outbox_outboxes, Ho1; reflexivity|reflexivity|cbn; eauto].
  - apply (moved_parks _ _ OutboxDeliveryStatus.LEASED OutboxDeliveryStatus.DELIVERED);
      [row_moved|]. unfold deliverable_statuses. set_solver.
Qed.

Lemma paused_unknown_parks now dbnow db id code detail db' o :
  leased_row db id = Ok (Some o) →
  _mark_delivery_paused_unknown env now dbnow db id code detail = Ok db' → parks db db' o.
Proof.
  intros Hl. unfold _mark_delivery_paused_unknown. rewrite Hl. cbn [mbind result_bind]. intros H.
  apply leased_row_Some in Hl as (Ho & _ & Hs).
  apply bind_Ok in H as (o' & Hp & H). apply bind_Ok in H as ([db1 r1] & H1 & [= <-]).
  apply append_receipt_spec in H1 as (Ho1 & (row & Hr1 & _) & _). cbn [fst snd] in *.
  apply pause_unknown_moves in Hp as [[_ Hn]|[Hm _]].
  { destruct (Hn OutboxDeliveryStatus.LEASED); [unfold deliverable_statuses; set_solver|done]. }
  exists o'. split; [eapply puts_quiet; [|apply quiet_mirror]|].
  - split; [done|exact Ho1|by destruct Hm|eauto].
  - assert (moved o o' OutboxDeliveryStatus.LEASED OutboxDeliveryStatus.PAUSED) as Hm'
      by (destruct Hm; constructor; done).
    eapply moved_parks; [done|]. unfold deliverable_statuses. set_solver.
Qed.

Lemma dead_letter_parks now db id code detail db' o :
  leased_row db id = Ok (Some o) →
  _mark_delivery_dead_letter now db id code detail = Ok db' → parks db db' o.
Proof.
  unfold _mark_delivery_dead_letter, leased_row.
  destruct (get_by _ _ _) as [o0|] eqn:Hg; [|done]. rewrite !bind_Ok.
  intros (s & Hs & Hl) (o' & Hd & [= <-]). apply enum_of_value_or_raise_Ok in Hs.
  case_bool_decide as Hls; [|done]. injection Hl as <-. subst s.
  apply to_dead_letter_moves in Hd as [[_ ?]|Hm]; [done|].
  apply get_by_Some in Hg as [Ho _].
  exists o'. split; [|eapply moved_parks; [done|unfold deliverable_statuses; set_solver]].
  split; [done|done|by destruct Hm|]. exists []. by rewrite app_nil_r.
Qed.

(** Recording a failure parks the leased row it is about, and does nothing to other rows. *)
Lemma handle_failure_spec now dbnow db id exc db' :
  outboxes_keyed db → handle_delivery_failure env now dbnow db id exc = Ok db' →
  (∃ o, leased_row db id = Ok (Some o) ∧ parks db db' o) ∨
  leased_row db id = Ok None ∧ quiet db db'.
Proof.
  intros Hk. unfold handle_delivery_failure.
  destruct (classify_disposition_delivery_error exc) as [[] code]; intros H.
  - destruct (leased_row db id) as [[o|]|e] eqn:Hl;
      unfold _mark_delivery_deterministic_rejection in H; rewrite Hl in H;
      cbn [mbind result_bind] in H; [|right; split; [done|by injection H as <-]|done].
    left. exists o. split; [done|]. apply leased_row_Some in Hl as (Ho & _ & Hs).
    by eapply rejection_parks.
  - destruct (leased_row db id) as [[o|]|e] eqn:Hl; [left; eauto using conflict_parks| |];
      unfold _mark_delivery_conflict in H; rewrite Hl in H; [|done].
    right. split; [done|by injection H as <-].
  - destruct (leased_row db id) as [[o|]|e] eqn:Hl; [left; eauto using paused_unknown_parks| |];
      unfold _mark_delivery_paused_unknown in H; rewrite Hl in H; [|done].
    right. split; [done|by injection H as <-].
  - destruct (leased_row db id) as [[o|]|e] eqn:Hl; [left; eauto using dead_letter_parks| |];
      unfold _mark_delivery_dead_letter, leased_row in *;
      destruct (get_by _ _ _) as [o0|] eqn:Hg; try done.
    + right. split; [done|]. apply bind_Ok in H as (o' & Hd & [= <-]).
      apply to_dead_letter_moves in Hd as [[-> _]|[_ _ Hf _ _ _]].
      * split; [|done]. apply update_by_same; [done|]. by apply get_by_Some in Hg as [].
      * apply bind_Ok in Hl as (s & Hs & Hl). apply enum_of_value_or_raise_Ok in Hs.
        rewrite Hs in Hf. apply (inj enum_value) in Hf as ->. by case_bool_decide.
    + right. split; [done|by injection H as <-].
    + apply bind_Ok in H as (o' & Hd & _). unfold _release_leased_outbox_to_dead_letter in Hd.
      apply bind_Ok in Hd as (s & Hs & _). rewrite Hs in Hl. done.
Qed.

(** *** Claims *)

(** The row is leased by the worker [w]. *)
Record claimed_by (w : string) (o o' : OutboxRow) : Prop := {
  cb_step : row_step o o';
  cb_from : ob_delivery_status o = enum_value OutboxDeliveryStatus.READY ∨
    ob_delivery_status o = enum_value OutboxDeliveryStatus.WAITING_RETRY;
  cb_to : ob_delivery_status o' = enum_value OutboxDeliveryStatus.LEASED;
  cb_latest : ob_latest_writeback_status o' = ob_latest_writeback_status o;
  cb_owner : ob_locked_by o' = Some w
}.

Lemma puts_same db o : outboxes_keyed db → o ∈ db_outboxes db → puts db db o o.
Proof.
  intros Hk Ho. split; [done|by rewrite update_by_same|done|]. exists []. by rewrite app_nil_r.
Qed.

Lemma lease_validated s :
  validate_outbox_delivery_transition s OutboxDeliveryStatus.LEASED default_outbox_args = Ok tt →
  s = OutboxDeliveryStatus.READY ∨ s = OutboxDeliveryStatus.WAITING_RETRY.
Proof. intros Hv%validated_edge. destruct s; cbn in Hv; set_solver. Qed.

Lemma lease_claims now dbnow o s :
  ob_delivery_status o = enum_value s →
  validate_outbox_delivery_transition s OutboxDeliveryStatus.LEASED default_outbox_args = Ok tt →
  claimed_by (de_worker_id env) o
    (o |> set_delivery_status OutboxDeliveryStatus.LEASED
       |> set_lease (Some (de_worker_id env)) (Some now) (Some (now + _DEFAULT_LEASE_SECONDS)%Z)
       |> set_updated_at dbnow).
Proof.
  intros Hs Hv. apply validated_edge in Hv as He. apply lease_validated in Hv.
  split; [|destruct Hv as [->| ->]; auto|done|done|done].
  split; [done|done| | |].
  - intros s' Hs'. rewrite Hs' in Hs. apply (inj enum_value) in Hs as ->. eauto.
  - intros [Hf|Hf]; rewrite Hf in Hs; apply (inj enum_value) in Hs; destruct Hv; by subst.
  - intros [_ _ Hd]. split; [by eexists| |done]. intros _. cbn. eauto.
Qed.

Lemma claim_row_spec now dbnow db o db' hit :
  outboxes_keyed db → o ∈ db_outboxes db → claim_row env now dbnow db o = Ok (db', hit) →
  ∃ o', puts db db' o o' ∧
    if hit then claimed_by (de_worker_id env) o o' else calm_step o o'.
Proof.
  intros Hk Ho. unfold claim_row.
  destruct (negb _).
  { intros [= <- <-]. exists o. split; [by apply puts_same|apply calm_step_refl]. }
  rewrite bind_Ok. intros (s & Hs & H). apply enum_of_value_or_raise_Ok in Hs.
  destruct (bool_decide (s = _) && _).
  { injection H as <- <-. eexists. split; [split; [done|reflexivity|reflexivity|]|].
    - exists []. by rewrite app_nil_r.
    - split; [|by left]. split; [done|done|eauto|done|]. intros [Hst Hl Hd]. by split. }
  destruct (bool_decide (s = _) && lease_expired _ _).
  { apply bind_Ok in H as (o' & Ho' & [= <- <-]). apply lease_expiry_calm in Ho' as Hc.
    exists o'. split; [|done]. eapply puts_quiet; [|apply quiet_mirror].
    split; [done|reflexivity|by destruct Hc as [[] _]|]. exists []. by rewrite app_nil_r. }
  apply unit_seq_Ok in H as [Hv [= <- <-]].
  eexists. split; [split; [done|reflexivity|reflexivity|]|by eapply lease_claims].
  exists []. by rewrite app_nil_r.
Qed.

(** What a batch does to a row: leased and reported, touched without being leased, or not at
    all. *)
Definition batch_rel (ids rows : list string) (o o' : OutboxRow) : Prop :=
  (ob_outbox_id o ∈ ids ∧ claimed_by (de_worker_id env) o o') ∨
  ((ob_outbox_id o ∉ ids) ∧ ob_outbox_id o ∈ rows ∧ calm_step o o') ∨
  ((ob_outbox_id o ∉ rows) ∧ (ob_outbox_id o ∉ ids) ∧ o' = o).

Lemma batch_rel_id ids rows o o' : batch_rel ids rows o o' → ob_outbox_id o' = ob_outbox_id o.
Proof.
  intros [[_ [[] _ _ _ _]]|[(_ & _ & [[] _])|(_ & _ & ->)]]; auto using identity_outbox_id.
Qed.

Lemma keyed_eq db x y :
  outboxes_keyed db → x ∈ db_outboxes db → y ∈ db_outboxes db →
  ob_outbox_id x = ob_outbox_id y → x = y.
Proof. intros Hk Hx Hy. exact (NoDup_fmap_elem ob_outbox_id _ x y Hk Hx Hy). Qed.

(** A write changes the row it writes and no other. *)
Lemma puts_rel db db' o o' :
  outboxes_keyed db → puts db db' o o' →
  Forall2 (λ x y, x = o ∧ y = o' ∨ ob_outbox_id x ≠ ob_outbox_id o ∧ y = x)
    (db_outboxes db) (db_outboxes db').
Proof.
  intros Hk [Ho Hob Hi _]. rewrite Hob. unfold update_by. apply Forall2_fmap_r.
  apply Forall2_self. intros x Hx. apply identity_outbox_id in Hi. cbn. rewrite Hi.
  case_bool_decide as E; [left|right]; split; try done. by eapply keyed_eq.
Qed.

Lemma claim_rows_spec now dbnow rows : ∀ db db' ids,
  outboxes_keyed db → NoDup (ob_outbox_id <$> rows) → (∀ o, o ∈ rows → o ∈ db_outboxes db) →
  claim_rows env now dbnow db rows = Ok (db', ids) →
  evolves (batch_rel ids (ob_outbox_id <$> rows)) db db' ∧
  (∀ id, id ∈ ids → id ∈ ob_outbox_id <$> rows).
Proof.
  induction rows as [|o rows IH]; intros db db' ids Hk Hnd Hin H.
  { injection H as <- <-. split; [|set_solver]. apply evolves_quiet; [|done].
    intros x. right; right. set_solver. }
  cbn [claim_rows] in H. apply bind_Ok in H as ([db1 hit] & H1 & H).
  apply bind_Ok in H as ([db2 ids2] & H2 & [= <- <-]).
  apply claim_row_spec in H1 as (o' & Hp & Ho'); [|done|set_solver].
  cbn in Hnd. apply NoDup_cons in Hnd as [Hno Hnd].
  assert (outboxes_keyed db1) as Hk1.
  { eapply evolves_keyed; [|eapply (puts_evolves (λ x y, ob_outbox_id y = ob_outbox_id x));
      [done|done|exact Hp|]|done]; [done|]. by apply identity_outbox_id, Hp. }
  assert (∀ x, x ∈ rows → ob_outbox_id x ≠ ob_outbox_id o) as Hne.
  { intros x Hx He. destruct Hno. rewrite <-He. by apply list_elem_of_fmap_2. }
  eapply IH in H2 as [[F2 [rs2 Hr2]] Hids]; [|done|done|].
  2: { intros x Hx. rewrite (pt_outboxes _ _ _ _ Hp). unfold update_by.
       apply list_elem_of_fmap. exists x. split; [|by apply Hin; right].
       rewrite bool_decide_eq_false_2; [done|].
       rewrite (identity_outbox_id _ _ (pt_identity _ _ _ _ Hp)). auto. }
  assert (ob_outbox_id o ∉ ids2) as Hno2 by set_solver.
  pose proof (identity_outbox_id _ _ (pt_identity _ _ _ _ Hp)) as Hid.
  split; [|destruct hit; set_solver]. split.
  - eapply Forall2_compose; [|by apply puts_rel|exact F2]. cbn beta.
    intros x y z [[-> ->]|[Hx ->]] Hyz.
    + destruct Hyz as [[Hy _]|[(_ & Hy & _)|(_ & _ & ->)]]; [congruence|congruence|].
      destruct hit; [left|right; left]; set_solver.
    + destruct Hyz as [[Hy Hc]|[(Hy1 & Hy2 & Hc)|(Hy1 & Hy2 & ->)]].
      * left. split; [destruct hit; set_solver|done].
      * right; left. split_and!; [destruct hit; set_solver|set_solver|done].
      * right; right. split_and!; [set_solver|destruct hit; set_solver|done].
  - destruct (pt_receipts _ _ _ _ Hp) as [rs1 Hr1]. exists (rs1 ++ rs2)%list.
    by rewrite Hr2, Hr1, app_assoc.
Qed.

(** *** Paused rows *)

(** The row is paused before and after. *)
Record paused_step (o o' : OutboxRow) : Prop := {
  ps_identity : outbox_identity o' = outbox_identity o;
  ps_superseded : ob_superseded_by_disposition_id o' = ob_superseded_by_disposition_id o;
  ps_before : ob_delivery_status o = enum_value OutboxDeliveryStatus.PAUSED;
  ps_after : ob_delivery_status o' = enum_value OutboxDeliveryStatus.PAUSED;
  ps_detail : detail_bounded o → detail_bounded o'
}.

Lemma paused_parked o :
  ob_delivery_status o = enum_value OutboxDeliveryStatus.PAUSED → parked o.
Proof. intros H. eapply status_parked; [done|]. unfold deliverable_statuses. set_solver. Qed.

Lemma paused_step_calm o o' : paused_step o o' → calm_step o o'.
Proof.
  intros [Hi Hsup Hb Ha Hd]. split; [|right; by apply paused_parked].
  split; [done|by rewrite Hsup| |congruence|].
  - intros s Hs. rewrite Hs in Hb. apply (inj enum_value) in Hb as ->. eauto.
  - intros [_ _ Hdo]. eapply not_leased_wf; eauto.
Qed.

Ltac paused_row :=
  constructor; [reflexivity|reflexivity|assumption|first [assumption|reflexivity]|
                unfold detail_bounded; cbn; eauto with shadowtrace].

Lemma claim_paused_row_spec nonce now dbnow db o :
  o ∈ db_outboxes db → ob_delivery_status o = enum_value OutboxDeliveryStatus.PAUSED →
  ∃ o', puts db (claim_paused_row env nonce now dbnow db o).1 o o' ∧ paused_step o o'.
Proof.
  intros Ho Hp. unfold claim_paused_row.
  destruct (c ← de_validate_command env (ob_command_payload o); _) as [[c ad]|e]; cbn [fst].
  - eexists. split; [eapply puts_quiet; [|apply quiet_mirror]; split; [done|reflexivity|reflexivity|]|].
    + exists []. by rewrite app_nil_r.
    + paused_row.
  - eexists. split; [split; [done|reflexivity|reflexivity|]|].
    + exists []. by rewrite app_nil_r.
    + paused_row.
Qed.

Definition maybe_paused (o o' : OutboxRow) : Prop := o' = o ∨ paused_step o o'.

Lemma maybe_paused_trans x y z : maybe_paused x y → maybe_paused y z → maybe_paused x z.
Proof.
  intros [->|[]] [->|[]]; [by left|right; by split..|].
  right. split; try congruence. auto.
Qed.

Lemma claim_paused_rows_spec nonce now dbnow rows : ∀ db,
  outboxes_keyed db → NoDup (ob_outbox_id <$> rows) →
  (∀ o, o ∈ rows → o ∈ db_outboxes db ∧
     ob_delivery_status o = enum_value OutboxDeliveryStatus.PAUSED) →
  evolves maybe_paused db (claim_paused_rows env nonce now dbnow db rows).1.
Proof.
  induction rows as [|o rows IH]; intros db Hk Hnd Hin.
  { apply evolves_quiet; [by left|done]. }
  cbn [claim_paused_rows]. cbn in Hnd. apply NoDup_cons in Hnd as [Hno Hnd].
  destruct (claim_paused_row_spec (nonce (ob_outbox_id o)) now dbnow db o) as (o' & Hp & Hs);
    [by apply Hin; left|by apply Hin; left|].
  destruct (claim_paused_row env _ now dbnow db o) as [db1 claim]. cbn [fst] in Hp.
  assert (evolves maybe_paused db db1) as He1.
  { eapply puts_evolves; [by left|done|done|by right]. }
  assert (outboxes_keyed db1) as Hk1.
  { eapply evolves_keyed; [|exact He1|done]. intros x y [->|[]]; auto using identity_outbox_id. }
  assert (evolves maybe_paused db1 (claim_paused_rows env nonce now dbnow db1 rows).1) as He2.
  { apply IH; [done|done|]. intros x Hx. destruct (Hin x) as [Hx1 Hx2]; [by right|].
    split; [|done]. rewrite (pt_outboxes _ _ _ _ Hp). unfold update_by.
    apply list_elem_of_fmap. exists x. split; [|done]. rewrite bool_decide_eq_false_2; [done|].
    rewrite (identity_outbox_id _ _ (pt_identity _ _ _ _ Hp)). intros He. destruct Hno.
    rewrite <-He. by apply list_elem_of_fmap_2. }
  destruct (claim_paused_rows env nonce now dbnow db1 rows) as [db2 claims]. cbn [fst] in *.
  eapply evolves_trans; [apply maybe_paused_trans|done|done].
Qed.

(** *** Selected rows *)

Lemma claim_batch_spec locked now dbnow db limit db' ids :
  outboxes_keyed db → _claim_batch env locked now dbnow db limit = Ok (db', ids) →
  ∃ rows, evolves (batch_rel ids rows) db db' ∧ (∀ id, id ∈ ids → id ∈ rows).
Proof.
  intros Hk H. apply claim_rows_spec in H as [He Hi]; [eauto|done|by apply NoDup_fmap_selected|].
  by intros o [Ho _]%elem_of_selected.
Qed.

Lemma claim_paused_spec nonce locked now dbnow db limit :
  outboxes_keyed db →
  evolves maybe_paused db (_claim_paused_outboxes env nonce locked now dbnow db limit).1.
Proof.
  intros Hk. apply claim_paused_rows_spec; [done|by apply NoDup_fmap_selected|].
  intros o [Ho Hp]%elem_of_selected. split; [done|]. unfold paused_claimable in Hp. by bool_props.
Qed.

(** *** Lookup results *)

(** The row of a claim whose token still matches. *)
Record claim_matches (db : Db) (claim : PausedLookupClaim) (o : OutboxRow) : Prop := {
  cm_row : get_by ob_outbox_id (cl_outbox_id claim) (db_outboxes db) = Some o;
  cm_paused : ob_delivery_status o = enum_value OutboxDeliveryStatus.PAUSED;
  cm_token : ob_locked_by o = Some (cl_token claim);
  cm_head : ob_superseded_by_disposition_id o = None;
  cm_key : ob_idempotency_key o = cl_idempotency_key claim;
  cm_payload : ob_command_payload_sha256 o = cl_command_payload_sha256 claim
}.

(** The row was handed back to delivery: READY, with a PENDING writeback. *)
Record cleared (o o' : OutboxRow) : Prop := {
  cr_step : row_step o o';
  cr_from : ob_delivery_status o = enum_value OutboxDeliveryStatus.PAUSED;
  cr_to : ob_delivery_status o' = enum_value OutboxDeliveryStatus.READY;
  cr_latest : ob_latest_writeback_status o' = Some (enum_value WritebackStatus.PENDING)
}.

Definition claim_row_released (o : OutboxRow) (now : Z) : OutboxRow :=
  o |> release_lease |> set_next_retry_at None |> set_updated_at now.

Lemma puts_identity db db' o1 o2 o' :
  puts db db' o1 o' → o2 ∈ db_outboxes db → outbox_identity o1 = outbox_identity o2 →
  puts db db' o2 o'.
Proof. intros [Ho Hob Hi Hr] H2 He. split; [done|done|congruence|done]. Qed.

Lemma still_paused_puts db o o0 code detail dbnow :
  o0 ∈ db_outboxes db → paused_step o0 o →
  ∃ o', puts db (still_paused db o code detail dbnow) o0 o' ∧ paused_step o0 o'.
Proof.
  intros Ho [Hi Hsup Hb Ha Hd]. unfold still_paused. cbn zeta.
  eexists. split; [eapply puts_quiet; [|apply quiet_mirror]; split; [done|reflexivity|exact Hi|]|].
  - exists []. by rewrite app_nil_r.
  - constructor; [exact Hi|exact Hsup|done|exact Ha|].
    intros _. unfold detail_bounded; cbn. apply truncate_bounded.
Qed.

Lemma released_paused o now :
  ob_delivery_status o = enum_value OutboxDeliveryStatus.PAUSED →
  paused_step o (claim_row_released o now).
Proof. intros Hp. paused_row. Qed.

(** What an applied lookup does to the claimed row: it stays paused, is parked for good, or is
    cleared for delivery.  Only an authoritative NOT_FOUND on an adapter with safe retry clears
    it. *)
Inductive lookup_effect (claim : PausedLookupClaim) (outcome : PausedLookupOutcome)
    (db db' : Db) (o o' : OutboxRow) (applied : bool) (st : option WritebackStatus) : Prop :=
| effect_paused : puts db db' o o' → paused_step o o' →
    lookup_effect claim outcome db db' o o' applied st
| effect_parked : puts db db' o o' → calm_step o o' → parked o' →
    lookup_effect claim outcome db db' o o' applied st
| effect_cleared : puts db db' o o' → cleared o o' →
    lo_kind outcome = _PausedLookupKind.NOT_FOUND →
    allows_safe_retry (cl_adapter claim) = true →
    applied = true → st = Some WritebackStatus.PENDING →
    lookup_effect claim outcome db db' o o' applied st.

Lemma apply_not_found_effect now dbnow db o claim outcome db' b st :
  o ∈ db_outboxes db → ob_delivery_status o = enum_value OutboxDeliveryStatus.PAUSED →
  lo_kind outcome = _PausedLookupKind.NOT_FOUND →
  apply_not_found env now dbnow db (claim_row_released o now) claim = Ok (db', b, st) →
  ∃ o', lookup_effect claim outcome db db' o o' b st.
Proof.
  intros Ho Hp Hk. unfold apply_not_found.
  destruct (is_deterministic_adapter_rejection_code _).
  { rewrite bind_Ok. intros (db1 & Hr & [= <- _ _]).
    eapply (rejection_parks _ o) in Hr as (o' & Hput & Hc & Hpk); [|done..].
    exists o'. by apply effect_parked. }
  destruct (allows_safe_retry (cl_adapter claim)) eqn:Hsafe; cbn [negb].
  - rewrite bind_Ok. intros (cur & _ & H). apply unit_seq_Ok in H as [_ H].
    apply unit_seq_Ok in H as [Hv [= <- <- <-]].
    eexists. apply effect_cleared; [| |done..].
    + eapply puts_quiet; [|apply quiet_mirror]. split; [done|reflexivity|reflexivity|].
      exists []. by rewrite app_nil_r.
    + split; [|done|done|done]. apply (moved_row_step _ _ OutboxDeliveryStatus.PAUSED
        OutboxDeliveryStatus.READY); [row_moved|done].
  - intros [= <- _ _].
    destruct (still_paused_puts db (claim_row_released o now) o "lookup_not_found"
      "lookup found no submission and adapter does not allow safe retry" dbnow) as (o' & ? & ?);
      [done|by apply released_paused|].
    exists o'. by apply effect_paused.
Qed.

Lemma quiet_optional_project db aid o c r now dbnow db' :
  match get_by act_action_id aid (db_actions db) with
  | None => Ok db
  | Some a =>
      res ← _apply_receipt_execution_projection env db a o c r now dbnow; Ok res.1
  end = Ok db' → quiet db db'.
Proof.
  destruct (get_by _ _ _) as [a|]; [|by intros [= <-]].
  rewrite bind_Ok. intros (res & Hres & [= <-]). by eapply quiet_project.
Qed.

Lemma apply_found_effect now dbnow db o claim outcome receipt db' b st :
  o ∈ db_outboxes db → ob_delivery_status o = enum_value OutboxDeliveryStatus.PAUSED →
  apply_found env now dbnow db (claim_row_released o now) claim receipt = Ok (db', b, st) →
  ∃ o', lookup_effect claim outcome db db' o o' b st.
Proof.
  intros Ho Hp. unfold apply_found. case_bool_decide.
  { intros [= <- _ _].
    destruct (still_paused_puts db (claim_row_released o now) o "lookup_unknown"
      "lookup inconclusive; outbox remains paused" dbnow) as (o' & ? & ?);
      [done|by apply released_paused|].
    exists o'. by apply effect_paused. }
  rewrite bind_Ok. intros (cur & _ & Hx). apply unit_seq_Ok in Hx as [_ Hx].
  apply bind_Ok in Hx as ([db1 r1] & H1 & Hx). apply unit_seq_Ok in Hx as [Hv Hx].
  apply append_receipt_spec in H1 as (Ho1 & (row & Hr1 & _) & _). cbn [fst snd] in *.
  apply bind_Ok in Hx as (db2 & H2 & [= <- _ _]).
  apply quiet_optional_project in H2.
  eexists. apply effect_parked.
  - eapply puts_quiet; [|etrans; [apply quiet_mirror|exact H2]].
    split; [done|rewrite put_outbox_outboxes, Ho1; reflexivity|reflexivity|cbn; eauto].
  - apply (moved_parks _ _ OutboxDeliveryStatus.PAUSED OutboxDeliveryStatus.DELIVERED);
      [|unfold deliverable_statuses; set_solver].
    row_moved.
  - eapply status_parked; [reflexivity|]. unfold deliverable_statuses. set_solver.
Qed.

Lemma apply_lookup_effect now dbnow db claim outcome db' b st :
  outboxes_keyed db →
  _apply_paused_lookup_outcome env now dbnow db claim outcome = Ok (db', b, st) →
  db' = db ∧ b = false ∧ st = None ∨
  ∃ o o', claim_matches db claim o ∧ lookup_effect claim outcome db db' o o' b st.
Proof.
  intros Hk. unfold _apply_paused_lookup_outcome.
  destruct (get_by _ _ _) as [o|] eqn:Hg; [|intros [= <- <- <-]; by left].
  rewrite bind_Ok. intros (s & Hs & H). apply enum_of_value_or_raise_Ok in Hs.
  destruct (claim_holds o s claim) eqn:Hc; cbn [negb] in H; [|injection H as <- <- <-; by left].
  unfold claim_holds in Hc. bool_props. subst s. apply get_by_Some in Hg as Hg'. destruct Hg' as [Ho _].
  right. exists o.
  assert (∃ o', lookup_effect claim outcome db db' o o' b st) as [o' ?]; [|exists o'; by split].
  destruct (lo_kind outcome) eqn:Hkind.
  - destruct (lo_receipt outcome); [|done]. by eapply apply_found_effect.
  - by eapply apply_not_found_effect.
  - injection H as <- _ _.
    destruct (still_paused_puts db (claim_row_released o now) o
      (code_or (lo_error_code outcome) "lookup_degraded")
      (code_or (lo_detail outcome) "lookup inconclusive; outbox remains paused") dbnow)
      as (o' & ? & ?); [done|by apply released_paused|].
    exists o'. by apply effect_paused.
Qed.

Lemma release_claim_calm now db claim code detail db' :
  outboxes_keyed db → _release_paused_lookup_claim now db claim code detail = Ok db' →
  evolves calm_step db db'.
Proof.
  intros Hk. unfold _release_paused_lookup_claim.
  assert (evolves calm_step db db) as Hsame by (apply evolves_quiet; eauto with shadowtrace; done).
  destruct (get_by _ _ _) as [o|] eqn:Hg; [|by intros [= <-]].
  apply get_by_Some in Hg as [Ho _]. rewrite bind_Ok. intros (s & Hs & H).
  apply enum_of_value_or_raise_Ok in Hs.
  destruct (decide (s = OutboxDeliveryStatus.PAUSED)) as [->|Hne].
  - destruct (_ || _); injection H as <-; [done|].
    eapply (puts_evolves _ db _ o); [apply calm_step_refl|done| |].
    + split; [done|reflexivity|reflexivity|]. exists []. by rewrite app_nil_r.
    + apply paused_step_calm. paused_row.
  - rewrite (bool_decide_eq_false_2 (s = _)) in H by done. by injection H as <-.
Qed.
End effects.

(** ** Enqueueing *)

Definition head_step (o o' : OutboxRow) : Prop :=
  o' = o ∨ calm_step o o' ∧ parked o' ∧ is_Some (ob_superseded_by_disposition_id o').

(** A fresh row. *)
Record enqueued (o : OutboxRow) : Prop := {
  en_status : ob_delivery_status o = enum_value OutboxDeliveryStatus.READY;
  en_latest : ob_latest_writeback_status o = None;
  en_head : ob_superseded_by_disposition_id o = None;
  en_wf : row_wf o
}.

Lemma insert_outbox_spec db new db' :
  insert_outbox db new = Ok db' →
  db' = db_with_outboxes (db_outboxes db ++ [new])%list (db_source_sequences db) db ∧
  ∀ o, o ∈ db_outboxes db → conflicts_with new o = false.
Proof.
  unfold insert_outbox. rewrite raise_if_seq_Ok. intros [Hn [= <-]]. split; [done|].
  intros o Ho. apply not_true_iff_false. intros Hc. apply not_true_iff_false in Hn. apply Hn.
  apply existsb_exists. exists o. by rewrite <-list_elem_of_In.
Qed.

Lemma conflict_free_id new o : conflicts_with new o = false → ob_outbox_id o ≠ ob_outbox_id new.
Proof. unfold conflicts_with. intros H. by bool_props. Qed.

Lemma new_outbox_enqueued env args c n t : enqueued (new_outbox env args c n t).
Proof.
  split; [done|done|done|]. eapply not_leased_wf; [reflexivity|done|].
  unfold detail_bounded; cbn. constructor.
Qed.

(** An enqueue replays the active head, or adds one fresh row after retiring the head it
    replaces; it writes no receipt. *)
Lemma enqueue_spec env now dbnow db args db' row :
  outboxes_keyed db → enqueue_command env now dbnow db args = Ok (db', row) →
  db_receipts db' = db_receipts db ∧
  (db_outboxes db' = db_outboxes db ∧ row ∈ db_outboxes db ∨
   ∃ mid, Forall2 head_step (db_outboxes db) mid ∧
     db_outboxes db' = (mid ++ [row])%list ∧ enqueued row ∧
     ∀ o, o ∈ mid → conflicts_with row o = false).
Proof.
  intros Hk. unfold enqueue_command. cbn zeta. rewrite bind_Ok. intros (vs & _ & H).
  apply raise_if_seq_Ok in H as [_ H].
  destruct (db_source_sequences db !! _) as [n|]; [|done].
  destruct (prior_head _ args) as [head|] eqn:Hh.
  - assert (head ∈ db_outboxes db) as Hin.
    { unfold prior_head in Hh. destruct (bool_decide (dc_intent_kind _ = _)); [|done].
      apply List.find_some in Hh as [Hh _]. by apply list_elem_of_In. }
    destruct (_ && _); [injection H as <- <-; auto|].
    apply bind_Ok in H as (head' & Hf & H). apply bind_Ok in H as (db1 & Hi & H).
    apply bind_Ok in H as (j & Hj & [= <- <-]). apply quiet_journal in Hj as [Hq1 Hq2].
    apply insert_outbox_spec in Hi as [-> Hc]. rewrite Hq1, Hq2. split; [done|]. right.
    exists (update_by ob_outbox_id head' (db_outboxes db)).
    split_and!; [|done|apply new_outbox_enqueued|exact Hc].
    apply finalize_moves in Hf as Hm. destruct Hm as (Hid & Hsup & Ht & _ & _).
    eapply (update_by_related head_step); [by left|done|exact Hin|by apply identity_outbox_id|].
    right. split_and!; [by eapply finalize_calm| |by rewrite Hsup].
    destruct Ht as [Ht|Ht]; eapply status_parked; try exact Ht; unfold deliverable_statuses;
      set_solver.
  - apply bind_Ok in H as (db1 & Hi & H). apply bind_Ok in H as (j & Hj & [= <- <-]).
    apply quiet_journal in Hj as [Hq1 Hq2]. apply insert_outbox_spec in Hi as [-> Hc].
    rewrite Hq1, Hq2. split; [done|]. right. exists (db_outboxes db).
    split_and!; [apply Forall2_same; by left|done|apply new_outbox_enqueued|exact Hc].
Qed.
