(* ===== verification/DeliveryRuns.v ===== *)
(** * Runs of workers, synchronous deliveries, lookups and enqueues

    The transactions of [Delivery] interleaved in any order, with worker crashes: between the
    egress of a submission and the commit that records it, or anywhere else.  A ghost log keeps
    the submissions and the authoritative NOT_FOUND lookups.  Worker processes are told apart by
    their [worker_id], and each works on one batch at a time. *)

From stdpp Require Import prelude strings sorting.
From S2P Require Import Prelude Enums Errors Tables Workflow Lifecycles LifecycleFacts Runs Db.
From S2P Require Import Disposition OutboundGuard ExecutionResults Reconcile.
From S2P Require Import ContextJournal Outbox Delivery OutboxFacts DeliveryFacts.

#[local] Open Scope string_scope.

(** ** The system *)

(** The command of the outbox row was submitted; a lookup cleared the row for another try. *)
Inductive log_event : Type :=
| Sent (outbox_id : string)
| Cleared (outbox_id : string).

#[global] Instance log_event_eq_dec : EqDecision log_event.
Proof. solve_decision. Defined.

(** [sy_pending] are the claimed ids a worker has still to process in its current batch. *)
Record Sys : Type := MkSys {
  sy_db : Db;
  sy_pending : list (string * string);
  sy_log : list log_event
}.

Inductive dstep : Type :=
| SEnqueue (env : DeliveryEnv) (now dbnow : Z) (args : EnqueueArgs)
| SClaim (env : DeliveryEnv) (locked : string → bool) (now dbnow : Z) (limit : nat)
| SProcess (env : DeliveryEnv) (ck : DeliveryClock) (now dbnow : Z) (outbox_id : string)
| SCrash (env : DeliveryEnv) (ck : DeliveryClock) (outbox_id : string)
| SAbandon (worker : string)
| SDirect (env : DeliveryEnv) (ck : DeliveryClock) (outbox_id : string)
| SClaimPaused (env : DeliveryEnv) (nonce : string → string) (locked : string → bool)
    (now dbnow : Z) (limit : nat)
| SReconcile (env : DeliveryEnv) (now dbnow : Z) (claim : PausedLookupClaim).

Definition drop_worker (w : string) (pending : list (string * string)) :
    list (string * string) :=
  List.filter (λ p, p.1 !=? w) pending.

Definition drop_item (w id : string) (pending : list (string * string)) :
    list (string * string) :=
  List.filter (λ p, negb ((p.1 ==? w) && (p.2 ==? id))) pending.

Definition sent_events (sent : option DispositionCommand) (id : string) : list log_event :=
  match sent with Some _ => [Sent id] | None => [] end.

(** One round of the loop of [OutboxWorker.run_once]: deliver, and record a failure.  A failure
    that cannot be recorded ends the run of the worker. *)
Definition process (env : DeliveryEnv) (ck : DeliveryClock) (now dbnow : Z) (y : Sys)
    (id : string) : Sys :=
  let '(sent, r) := _deliver_outbox env ck (sy_db y) id in
  let log := (sy_log y ++ sent_events sent id)%list in
  let w := de_worker_id env in
  match r with
  | Ok db' => MkSys db' (drop_item w id (sy_pending y)) log
  | Err exc =>
      match handle_delivery_failure env now dbnow (sy_db y) id exc with
      | Ok db' => MkSys db' (drop_item w id (sy_pending y)) log
      | Err _ => MkSys (sy_db y) (drop_worker w (sy_pending y)) log
      end
  end.

(** A lookup that clears the row: NOT_FOUND, applied, with the row PENDING again. *)
Definition cleared_events (env : DeliveryEnv) (now dbnow : Z) (db : Db)
    (claim : PausedLookupClaim) : list log_event :=
  let outcome := _lookup_paused_outbox claim in
  match _apply_paused_lookup_outcome env now dbnow db claim outcome with
  | Ok (_, true, Some WritebackStatus.PENDING) =>
      if lo_kind outcome ==? _PausedLookupKind.NOT_FOUND then [Cleared (cl_outbox_id claim)]
      else []
  | _ => []
  end.

Definition exec_dstep (y : Sys) (st : dstep) : Sys :=
  let db := sy_db y in
  match st with
  | SEnqueue env now dbnow args =>
      match enqueue_command env now dbnow db args with
      | Ok (db', _) => MkSys db' (sy_pending y) (sy_log y)
      | Err _ => y
      end
  | SClaim env locked now dbnow limit =>
      let kept := drop_worker (de_worker_id env) (sy_pending y) in
      match _claim_batch env locked now dbnow db limit with
      | Ok (db', ids) =>
          MkSys db' (map (λ id, (de_worker_id env, id)) ids ++ kept)%list (sy_log y)
      | Err _ => MkSys db kept (sy_log y)
      end
  | SProcess env ck now dbnow id => process env ck now dbnow y id
  | SCrash env ck id =>
      MkSys db (drop_worker (de_worker_id env) (sy_pending y))
        (sy_log y ++ sent_events (_deliver_outbox env ck db id).1 id)%list
  | SAbandon w => MkSys db (drop_worker w (sy_pending y)) (sy_log y)
  | SDirect env ck id =>
      let '(sent, r) := _deliver_outbox env ck db id in
      MkSys (match r with Ok db' => db' | Err _ => db end) (sy_pending y)
        (sy_log y ++ sent_events sent id)%list
  | SClaimPaused env nonce locked now dbnow limit =>
      MkSys (_claim_paused_outboxes env nonce locked now dbnow db limit).1 (sy_pending y)
        (sy_log y)
  | SReconcile env now dbnow claim =>
      match reconcile_claim env now dbnow db claim with
      | Ok (db', _) =>
          MkSys db' (sy_pending y) (sy_log y ++ cleared_events env now dbnow db claim)%list
      | Err _ => y
      end
  end.

Definition row_leased (db : Db) (id : string) : Prop :=
  ∃ o, get_by ob_outbox_id id (db_outboxes db) = Some o ∧
    ob_delivery_status o = enum_value OutboxDeliveryStatus.LEASED.

(** An assumption on the deployment, not a check of the code.  Worker processes have ids of their own
    and process the rows they claimed; a submission of a worker whose transaction fails or never
    commits is one of a row still leased; a synchronous delivery does not take over a leased row, and
    commits what it submits.  The code does not enforce it: the default worker id is a constant, and
    a synchronous delivery with an unknown outcome rolls back. *)
Definition disciplined (y : Sys) (st : dstep) : Prop :=
  match st with
  | SProcess env ck _ _ id =>
      (de_worker_id env, id) ∈ sy_pending y ∧
      ∀ c e, _deliver_outbox env ck (sy_db y) id = (Some c, Err e) → row_leased (sy_db y) id
  | SCrash env ck id =>
      (de_worker_id env, id) ∈ sy_pending y ∧
      ∀ c r, _deliver_outbox env ck (sy_db y) id = (Some c, r) → row_leased (sy_db y) id
  | SDirect env ck id =>
      ¬ row_leased (sy_db y) id ∧
      ∀ c r, _deliver_outbox env ck (sy_db y) id = (Some c, r) → is_ok r = true
  | _ => True
  end.

Inductive druns : Sys → list dstep → Sys → Prop :=
| druns_nil y : druns y [] y
| druns_cons y st l y' : disciplined y st → druns (exec_dstep y st) l y' → druns y (st :: l) y'.

(** ** The log *)

(** The last event about the row is a submission. *)
Definition armed_after (id : string) (b : bool) (e : log_event) : bool :=
  match e with
  | Sent i => if i ==? id then true else b
  | Cleared i => if i ==? id then false else b
  end.

Definition armed (log : list log_event) (id : string) : bool := foldl (armed_after id) false log.

Arguments armed : simpl never.

Lemma armed_snoc log e id : armed (log ++ [e]) id = armed_after id (armed log id) e.
Proof. unfold armed. by rewrite foldl_app. Qed.

Lemma armed_stays l id : Cleared id ∉ l → foldl (armed_after id) true l = true.
Proof.
  induction l as [|e l IH]; [done|]. intros Hn. cbn.
  destruct e as [i|i]; cbn; case_bool_decide; subst; try (apply IH; set_solver).
  set_solver.
Qed.

(** Two submissions of a row are separated by a lookup that cleared it. *)
Definition guarded (log : list log_event) : Prop :=
  ∀ id l1 l2 l3, log = (l1 ++ Sent id :: l2 ++ Sent id :: l3)%list → Cleared id ∈ l2.

Lemma guarded_inner log e :
  guarded log →
  (∀ id l1 l2, e = Sent id → log = (l1 ++ Sent id :: l2)%list → Cleared id ∈ l2) →
  guarded (log ++ [e]).
Proof.
  intros Hg He id l1 l2 l3 Heq.
  destruct l3 as [|x l3 _] using rev_ind.
  - replace (l1 ++ Sent id :: l2 ++ [Sent id])%list with ((l1 ++ Sent id :: l2) ++ [Sent id])%list
      in Heq by (by rewrite <-app_assoc).
    apply app_inj_tail in Heq as [-> ->]. by eapply He.
  - replace (l1 ++ Sent id :: l2 ++ Sent id :: l3 ++ [x])%list with
      ((l1 ++ Sent id :: l2 ++ Sent id :: l3) ++ [x])%list in Heq
      by (by rewrite <-!app_assoc; cbn; rewrite <-!app_assoc).
    apply app_inj_tail in Heq as [-> _]. by eapply Hg.
Qed.

Lemma guarded_sent log id : guarded log → armed log id = false → guarded (log ++ [Sent id]).
Proof.
  intros Hg Ha. apply guarded_inner; [done|]. intros i l1 l2 [= <-] ->.
  destruct (decide (Cleared id ∈ l2)) as [|Hn]; [done|]. exfalso.
  unfold armed in Ha. rewrite foldl_app in Ha. cbn in Ha.
  rewrite bool_decide_eq_true_2, armed_stays in Ha; done.
Qed.

Lemma guarded_cleared log id : guarded log → guarded (log ++ [Cleared id]).
Proof. intros Hg. by apply guarded_inner. Qed.

(** ** Rows that cannot be sent again *)

(** Delivery would refuse the row: its status is not deliverable, its writeback is answered, a
    receipt is stored, or the lease it is under has lost its worker. *)
Inductive blocked (receipts : list ReceiptRow) (pending : list (string * string))
    (o : OutboxRow) : Prop :=
| blocked_parked : parked o → blocked receipts pending o
| blocked_answered w : w ∈ already_answered_statuses →
    ob_latest_writeback_status o = Some (enum_value w) → blocked receipts pending o
| blocked_receipt r : r ∈ receipts → rc_writeback_id r = ob_writeback_id o →
    blocked receipts pending o
| blocked_orphan : ob_delivery_status o = enum_value OutboxDeliveryStatus.LEASED →
    (∀ w, ob_locked_by o = Some w → (w, ob_outbox_id o) ∉ pending) → blocked receipts pending o.

(** The invariant: keys are unique, submitted rows exist and are blocked until a lookup clears
    them, and the log is guarded. *)
Record delivery_inv (y : Sys) : Prop := {
  di_keyed : outboxes_keyed (sy_db y);
  di_known : ∀ id, armed (sy_log y) id = true → ∃ o, o ∈ db_outboxes (sy_db y) ∧ ob_outbox_id o = id;
  di_blocked : ∀ o, o ∈ db_outboxes (sy_db y) → armed (sy_log y) (ob_outbox_id o) = true →
    blocked (db_receipts (sy_db y)) (sy_pending y) o;
  di_guarded : guarded (sy_log y)
}.

(** A row that can be sent is not blocked. *)
Lemma egress_not_blocked env ck db o a s owner c pending :
  egress_allowed env ck db o a s owner c →
  (s = OutboxDeliveryStatus.LEASED → (de_worker_id env, ob_outbox_id o) ∈ pending) →
  ¬ blocked (db_receipts db) pending o.
Proof.
  intros He Hp [Hpk|w Hw Hl|r Hr Hwb|Hl Hor].
  - apply (Hpk s); [|apply He]. destruct (eg_deliverable _ _ _ _ _ _ _ _ He) as [->|[->| ->]];
      unfold deliverable_statuses; set_solver.
  - by eapply (eg_unanswered _ _ _ _ _ _ _ _ He).
  - by eapply (eg_first _ _ _ _ _ _ _ _ He).
  - assert (s = OutboxDeliveryStatus.LEASED) as ->.
    { pose proof (eg_status _ _ _ _ _ _ _ _ He) as Hs. rewrite Hl in Hs.
      by apply (inj enum_value) in Hs. }
    destruct (eg_lease _ _ _ _ _ _ _ _ He eq_refl) as [Hlock _].
    by apply (Hor _ Hlock), Hp.
Qed.

Lemma blocked_calm rs rs' p p' o o' :
  calm_step o o' → (∀ r, r ∈ rs → r ∈ rs') →
  (∀ w, (w, ob_outbox_id o) ∈ p' → (w, ob_outbox_id o) ∈ p) →
  blocked rs p o → blocked rs' p' o'.
Proof.
  intros [Hs [(Hst & Hlt & Hlk)|Hpk]] Hrs Hpp Hb; [|by apply blocked_parked].
  pose proof (identity_outbox_id _ _ (rs_identity _ _ Hs)) as Hid.
  pose proof (identity_writeback_id _ _ (rs_identity _ _ Hs)) as Hwb.
  destruct Hb as [Hpk|w Hw Hl|r Hr Hrw|Hl Hor].
  - apply blocked_parked. intros s Hin. rewrite Hst. by apply Hpk.
  - eapply blocked_answered; [done|]. by rewrite Hlt.
  - eapply blocked_receipt; [by apply Hrs|]. by rewrite Hwb.
  - apply blocked_orphan; [by rewrite Hst|]. intros w. rewrite Hlk, Hid.
    intros Hw Hin. by eapply Hor, Hpp.
Qed.

(** *** Steps that submit nothing *)

Lemma inv_evolves (R : OutboxRow → OutboxRow → Prop) y db' pending' :
  (∀ x z, R x z → ob_outbox_id z = ob_outbox_id x) →
  evolves R (sy_db y) db' →
  (∀ x z, R x z → armed (sy_log y) (ob_outbox_id x) = true →
     blocked (db_receipts (sy_db y)) (sy_pending y) x → blocked (db_receipts db') pending' z) →
  delivery_inv y → delivery_inv (MkSys db' pending' (sy_log y)).
Proof.
  intros Hid He Hb [Hk Hkn Hbl Hg]. split; cbn; [by eapply evolves_keyed| | |done].
  - intros id Ha. destruct (Hkn id Ha) as (o & Ho & Hoid).
    destruct (Forall2_elem_l _ _ _ _ (proj1 He) Ho) as (o' & Ho' & HR).
    exists o'. split; [done|]. rewrite <-Hoid. by apply Hid.
  - intros o' Ho' Ha. destruct (Forall2_elem_r _ _ _ _ (proj1 He) Ho') as (o & Ho & HR).
    rewrite (Hid _ _ HR) in Ha. eapply Hb; [done|done|]. by apply Hbl.
Qed.

Lemma calm_step_id x z : calm_step x z → ob_outbox_id z = ob_outbox_id x.
Proof. intros [Hs _]. by apply identity_outbox_id, rs_identity. Qed.

Lemma evolves_receipts R db db' r :
  evolves R db db' → r ∈ db_receipts db → r ∈ db_receipts db'.
Proof. intros [_ [rs ->]] Hr. set_solver. Qed.

Lemma inv_calm y db' pending' :
  evolves calm_step (sy_db y) db' → (∀ x, x ∈ pending' → x ∈ sy_pending y) →
  delivery_inv y → delivery_inv (MkSys db' pending' (sy_log y)).
Proof.
  intros He Hp Hinv. eapply inv_evolves; [apply calm_step_id|exact He| |done].
  intros x z Hxz _. apply blocked_calm; [done| |auto].
  intros r. by eapply evolves_receipts.
Qed.

Lemma in_drop_worker w p x : x ∈ drop_worker w p → x ∈ p ∧ x.1 ≠ w.
Proof. unfold drop_worker. intros [? ?]%in_where. split; [done|by bool_props]. Qed.

Lemma in_drop_item w id p x : x ∈ drop_item w id p → x ∈ p.
Proof. unfold drop_item. by intros [? _]%in_where. Qed.

Lemma inv_quiet y pending' :
  (∀ x, x ∈ pending' → x ∈ sy_pending y) → delivery_inv y →
  delivery_inv (MkSys (sy_db y) pending' (sy_log y)).
Proof.
  intros Hp. apply inv_calm; [|done]. apply evolves_quiet; [apply calm_step_refl|done].
Qed.

(** *** Claims *)

Lemma claimed_not_parked w o o' : claimed_by w o o' → ¬ parked o.
Proof.
  intros Hc Hp. destruct (cb_from _ _ _ Hc) as [E|E].
  - apply (Hp OutboxDeliveryStatus.READY); [unfold deliverable_statuses; set_solver|done].
  - apply (Hp OutboxDeliveryStatus.WAITING_RETRY); [unfold deliverable_statuses; set_solver|done].
Qed.

Lemma inv_claim env y db' ids rows kept :
  evolves (batch_rel env ids rows) (sy_db y) db' → (∀ x, x ∈ kept → x ∈ sy_pending y) →
  delivery_inv y →
  delivery_inv (MkSys db' (map (λ id, (de_worker_id env, id)) ids ++ kept)%list (sy_log y)).
Proof.
  intros He Hkept Hinv. eapply inv_evolves; [apply batch_rel_id|exact He| |done].
  intros x z Hxz _ Hb.
  assert (∀ r, r ∈ db_receipts (sy_db y) → r ∈ db_receipts db') as Hr
    by (intros r; by eapply evolves_receipts).
  assert (ob_outbox_id x ∉ ids → ∀ w, (w, ob_outbox_id x) ∈
    (map (λ id, (de_worker_id env, id)) ids ++ kept)%list → (w, ob_outbox_id x) ∈ sy_pending y)
    as Hp.
  { intros Hn w Hin. apply elem_of_app in Hin as [Hin|Hin]; [|auto].
    apply list_elem_of_fmap in Hin as (id & [= _ <-] & Hid). done. }
  destruct Hxz as [[_ Hc]|[(Hn & _ & Hc)|(_ & Hn & ->)]].
  - pose proof (identity_writeback_id _ _ (rs_identity _ _ (cb_step _ _ _ Hc))) as Hwb.
    destruct Hb as [Hpk|w Hw Hl|r Hr' Hrw|Hl _].
    + by apply claimed_not_parked in Hc.
    + eapply blocked_answered; [done|]. by rewrite (cb_latest _ _ _ Hc).
    + eapply blocked_receipt; [by apply Hr|]. by rewrite Hwb.
    + destruct (cb_from _ _ _ Hc) as [E|E]; rewrite E in Hl; by apply (inj enum_value) in Hl.
  - exact (blocked_calm _ _ _ _ _ _ Hc Hr (Hp Hn) Hb).
  - exact (blocked_calm _ _ _ _ _ _ (calm_step_refl x) Hr (Hp Hn) Hb).
Qed.

(** *** Submissions *)

(** The rows other than [id] are as they were; the row [id] satisfies [P]. *)
Definition only_at (id : string) (P : OutboxRow → Prop) (x z : OutboxRow) : Prop :=
  ob_outbox_id z = ob_outbox_id x ∧ (z = x ∧ ob_outbox_id x ≠ id ∨ ob_outbox_id x = id ∧ P z).

Lemma inv_sent y db' pending' id o :
  delivery_inv y → o ∈ db_outboxes (sy_db y) → ob_outbox_id o = id →
  ¬ blocked (db_receipts (sy_db y)) (sy_pending y) o →
  evolves (only_at id (blocked (db_receipts db') pending')) (sy_db y) db' →
  (∀ x, x ∈ pending' → x ∈ sy_pending y) →
  delivery_inv (MkSys db' pending' (sy_log y ++ [Sent id])%list).
Proof.
  intros [Hk Hkn Hbl Hg] Ho Hid Hnb He Hp.
  assert (armed (sy_log y) id = false) as Ha.
  { apply not_true_iff_false. intros Ha. apply Hnb, Hbl; [done|by rewrite Hid]. }
  split; cbn.
  - eapply evolves_keyed; [|exact He|done]. by intros x z [].
  - intros i Hi. rewrite armed_snoc in Hi. cbn in Hi.
    assert (∃ x, x ∈ db_outboxes (sy_db y) ∧ ob_outbox_id x = i) as (x & Hx & Hxi).
    { case_bool_decide as E; [subst; eauto|]. by apply Hkn. }
    destruct (Forall2_elem_l _ _ _ _ (proj1 He) Hx) as (z & Hz & Hzx & _).
    exists z. split; [done|]. congruence.
  - intros z Hz Hza. destruct (Forall2_elem_r _ _ _ _ (proj1 He) Hz) as (x & Hx & Hxz).
    destruct Hxz as [_ [[-> Hne]|[_ Hb]]]; [|done].
    rewrite armed_snoc in Hza. cbn in Hza. rewrite bool_decide_eq_false_2 in Hza by done.
    eapply blocked_calm; [apply calm_step_refl| | |by apply Hbl].
    + intros r. by eapply evolves_receipts.
    + auto.
  - by apply guarded_sent.
Qed.

Lemma puts_only_at (P : OutboxRow → Prop) db db' o o' :
  outboxes_keyed db → puts db db' o o' → P o' → evolves (only_at (ob_outbox_id o) P) db db'.
Proof.
  intros Hk Hp HP. split; [|apply Hp].
  pose proof (identity_outbox_id _ _ (pt_identity _ _ _ _ Hp)) as Hid.
  eapply Forall2_impl; [by apply puts_rel|]. intros x z [[-> ->]|[Hne ->]]; unfold only_at; auto.
Qed.

Lemma deliver_sent env ck db id c r :
  _deliver_outbox env ck db id = (Some c, r) →
  ∃ o a ad s owner, get_by ob_outbox_id id (db_outboxes db) = Some o ∧
    egress_allowed env ck db o a s owner c ∧
    r = (receipt ← ad_submit ad c; record_submission env ck db o a c ad receipt).
Proof.
  unfold _deliver_outbox. destruct (deliver_checks env ck db id) as [[db'|o a c0 ad]|] eqn:H;
    [done| |done].
  intros [= <- <-]. apply deliver_checks_send in H as (s & owner & Hg & _ & He). eauto 10.
Qed.

Lemma deliver_unsent env ck db id db' :
  outboxes_keyed db → _deliver_outbox env ck db id = (None, Ok db') → evolves calm_step db db'.
Proof.
  intros Hk. unfold _deliver_outbox.
  destruct (deliver_checks env ck db id) as [[db1|o a c0 ad]|] eqn:H; [|done|done].
  intros [= <-]. by eapply deliver_stop_calm.
Qed.

(** The submitted row is the one delivered, and it is not blocked. *)
Lemma sent_row env ck y id c r :
  _deliver_outbox env ck (sy_db y) id = (Some c, r) →
  (row_leased (sy_db y) id → (de_worker_id env, id) ∈ sy_pending y) →
  ∃ o a ad s owner, get_by ob_outbox_id id (db_outboxes (sy_db y)) = Some o ∧
    o ∈ db_outboxes (sy_db y) ∧ ob_outbox_id o = id ∧
    egress_allowed env ck (sy_db y) o a s owner c ∧
    ¬ blocked (db_receipts (sy_db y)) (sy_pending y) o ∧
    r = (receipt ← ad_submit ad c; record_submission env ck (sy_db y) o a c ad receipt).
Proof.
  intros Hd Hp. apply deliver_sent in Hd as (o & a & ad & s & owner & Hg & He & Hr).
  apply get_by_Some in Hg as Hg'. destruct Hg' as [Ho Hid].
  exists o, a, ad, s, owner. split_and!; try done. eapply egress_not_blocked; [done|].
  intros ->. rewrite Hid. apply Hp. exists o. split; [done|]. by destruct He.
Qed.

Lemma inv_sent_recorded env ck y id c db' pending' :
  delivery_inv y → _deliver_outbox env ck (sy_db y) id = (Some c, Ok db') →
  (row_leased (sy_db y) id → (de_worker_id env, id) ∈ sy_pending y) →
  (∀ x, x ∈ pending' → x ∈ sy_pending y) →
  delivery_inv (MkSys db' pending' (sy_log y ++ [Sent id])%list).
Proof.
  intros Hinv Hd Hl Hp.
  apply sent_row in Hd as (o & a & ad & s & owner & Hg & Ho & Hid & He & Hnb & Hr); [|done].
  symmetry in Hr. apply bind_Ok in Hr as (receipt & _ & Hrec).
  apply record_submission_spec in Hrec as (o' & rs & Hob & Hre & (row & Hrow & Hwb) & _ & Hi & _).
  eapply inv_sent; [done|exact Ho|done|done| |done].
  rewrite <-Hid. eapply puts_only_at; [apply Hinv| |].
  - split; [done|exact Hob|exact Hi|eauto].
  - apply (blocked_receipt _ _ _ row); [rewrite Hre; apply elem_of_app; by right|].
    by rewrite Hwb, (identity_writeback_id _ _ Hi).
Qed.

(** An egress that left no record, from a row whose lease its worker gives up. *)
Lemma inv_sent_lost env ck y id c r w :
  w = de_worker_id env → delivery_inv y →
  _deliver_outbox env ck (sy_db y) id = (Some c, r) → row_leased (sy_db y) id →
  (w, id) ∈ sy_pending y →
  delivery_inv (MkSys (sy_db y) (drop_worker w (sy_pending y)) (sy_log y ++ [Sent id])%list).
Proof.
  intros -> Hinv Hd Hl Hp.
  apply sent_row in Hd as (o & a & ad & s & owner & Hg & Ho & Hid & He & Hnb & Hr); [|done].
  eapply inv_sent; [done|exact Ho|done|done| |by intros x []%in_drop_worker].
  destruct Hl as (o1 & Hg1 & Hs1). rewrite Hg in Hg1. injection Hg1 as <-.
  rewrite <-Hid. eapply puts_only_at; [apply Hinv|apply puts_same; [apply Hinv|done]|].
  apply blocked_orphan; [done|]. intros w' Hw'.
  assert (s = OutboxDeliveryStatus.LEASED) as ->.
  { pose proof (eg_status _ _ _ _ _ _ _ _ He) as Hs. rewrite Hs1 in Hs.
    by apply (inj enum_value) in Hs. }
  destruct (eg_lease _ _ _ _ _ _ _ _ He eq_refl) as [Hlock _]. rewrite Hw' in Hlock.
  injection Hlock as ->. by intros [_ ?]%in_drop_worker.
Qed.

Lemma inv_sent_failed env ck now dbnow y id c e db' pending' :
  delivery_inv y → _deliver_outbox env ck (sy_db y) id = (Some c, Err e) →
  row_leased (sy_db y) id → (de_worker_id env, id) ∈ sy_pending y →
  handle_delivery_failure env now dbnow (sy_db y) id e = Ok db' →
  (∀ x, x ∈ pending' → x ∈ sy_pending y) →
  delivery_inv (MkSys db' pending' (sy_log y ++ [Sent id])%list).
Proof.
  intros Hinv Hd Hl Hpe Hh Hp.
  apply sent_row in Hd as (o & a & ad & s & owner & Hg & Ho & Hid & He & Hnb & Hr); [|done].
  eapply inv_sent; [done|exact Ho|done|done| |done].
  apply handle_failure_spec in Hh as [(o1 & Hl1 & o' & Hput & _ & Hpk)|[Hl1 _]]; [| |apply Hinv].
  - apply leased_row_Some in Hl1 as (Ho1 & Hid1 & _).
    assert (o1 = o) as -> by (eapply keyed_eq; [apply Hinv|done|done|congruence]).
    rewrite <-Hid. eapply puts_only_at; [apply Hinv|done|by apply blocked_parked].
  - destruct Hl as (o1 & Hg1 & Hs1). unfold leased_row in Hl1. rewrite Hg1, Hs1 in Hl1.
    by vm_compute in Hl1.
Qed.

Lemma handle_failure_calm env now dbnow db id exc db' :
  outboxes_keyed db → handle_delivery_failure env now dbnow db id exc = Ok db' →
  evolves calm_step db db'.
Proof.
  intros Hk [(o & _ & o' & Hput & Hc & _)|[_ Hq]]%handle_failure_spec; [| |done].
  - eapply puts_evolves; [apply calm_step_refl|done|done|done].
  - by apply evolves_quiet; [apply calm_step_refl|].
Qed.

(** *** The steps *)

Lemma inv_process env ck now dbnow y id :
  disciplined y (SProcess env ck now dbnow id) → delivery_inv y →
  delivery_inv (process env ck now dbnow y id).
Proof.
  intros [Hp Hadm] Hinv. unfold process.
  destruct (_deliver_outbox env ck (sy_db y) id) as [[c|] r] eqn:Hd; cbn [sent_events].
  - destruct r as [db'|e].
    + eapply inv_sent_recorded; eauto using in_drop_item.
    + specialize (Hadm _ _ eq_refl).
      destruct (handle_delivery_failure env now dbnow (sy_db y) id e) as [db'|] eqn:Hh.
      * eapply inv_sent_failed; eauto using in_drop_item.
      * by eapply inv_sent_lost.
  - rewrite app_nil_r. destruct r as [db'|e].
    + apply inv_calm; [|apply in_drop_item|done]. eapply deliver_unsent; [apply Hinv|exact Hd].
    + destruct (handle_delivery_failure env now dbnow (sy_db y) id e) as [db'|] eqn:Hh.
      * apply inv_calm; [|apply in_drop_item|done]. eapply handle_failure_calm; [apply Hinv|done].
      * apply inv_quiet; [|done]. by intros x []%in_drop_worker.
Qed.

Lemma inv_clear y db' id :
  evolves (λ x z, ob_outbox_id z = ob_outbox_id x ∧ (calm_step x z ∨ ob_outbox_id x = id))
    (sy_db y) db' →
  delivery_inv y → delivery_inv (MkSys db' (sy_pending y) (sy_log y ++ [Cleared id])%list).
Proof.
  intros He [Hk Hkn Hbl Hg]. split; cbn.
  - eapply evolves_keyed; [|exact He|done]. by intros x z [].
  - intros i Hi. rewrite armed_snoc in Hi. cbn in Hi. case_bool_decide; [done|].
    destruct (Hkn i Hi) as (x & Hx & Hxi).
    destruct (Forall2_elem_l _ _ _ _ (proj1 He) Hx) as (z & Hz & Hzx & _).
    exists z. split; [done|]. congruence.
  - intros z Hz Ha. destruct (Forall2_elem_r _ _ _ _ (proj1 He) Hz) as (x & Hx & Hid & Hxz).
    rewrite armed_snoc in Ha. cbn in Ha. case_bool_decide as E; [done|].
    destruct Hxz as [Hc|Hxi]; [|congruence].
    rewrite Hid in Ha. refine (blocked_calm _ _ _ _ _ _ Hc _ _ (Hbl _ Hx Ha)); [|auto].
    intros r. by eapply evolves_receipts.
  - by apply guarded_cleared.
Qed.

Lemma inv_reconcile env now dbnow y claim db' applied :
  reconcile_claim env now dbnow (sy_db y) claim = Ok (db', applied) → delivery_inv y →
  delivery_inv (MkSys db' (sy_pending y)
    (sy_log y ++ cleared_events env now dbnow (sy_db y) claim)%list).
Proof.
  intros H Hinv. pose proof (di_keyed _ Hinv) as Hk. unfold reconcile_claim in H.
  unfold cleared_events. cbn zeta.
  destruct (_apply_paused_lookup_outcome _ _ _ _ _ _) as [[[db1 b] st]|e] eqn:Ha.
  - injection H as <- <-.
    assert (∀ l, l = [] ∨ l = [Cleared (cl_outbox_id claim)] →
      evolves calm_step (sy_db y) db1 →
      delivery_inv (MkSys db1 (sy_pending y) (sy_log y ++ l)%list)) as Hcalm.
    { intros l [->| ->] Hev; [rewrite app_nil_r; by apply inv_calm|].
      apply inv_clear; [|done]. destruct Hev as [Hf Hr]. split; [|done].
      eapply Forall2_impl; [exact Hf|]. intros x z Hc. split; [by apply calm_step_id|by left]. }
    set (ev := match b with true => _ | false => _ end).
    assert (ev = [] ∨ ev = [Cleared (cl_outbox_id claim)]) as Hev
      by (subst ev; destruct b, st as [[]|]; auto; case_bool_decide; auto).
    apply apply_lookup_effect in Ha as [(-> & _ & _)|(o & o' & Hm & Heff)]; [| |done].
    + apply Hcalm; [done|]. by apply evolves_quiet; [apply calm_step_refl|].
    + destruct Heff as [Hput Hps|Hput Hc Hpk|Hput Hcl Hkind Hsafe -> ->].
      * apply Hcalm; [done|]. eapply puts_evolves; [apply calm_step_refl|done|done|].
        by apply paused_step_calm.
      * apply Hcalm; [done|]. by eapply puts_evolves; [apply calm_step_refl|..].
      * subst ev. rewrite bool_decide_eq_true_2 by done. apply inv_clear; [|done].
        destruct (get_by_Some _ _ _ _ (cm_row _ _ _ Hm)) as [Ho Hid].
        split; [|apply Hput]. eapply Forall2_impl; [by apply puts_rel|].
        intros x z [[-> ->]|[Hne ->]].
        { split; [by apply identity_outbox_id, Hput|by right]. }
        split; [done|left; apply calm_step_refl].
  - apply bind_Ok in H as (db1 & Hr & [= <- <-]). rewrite app_nil_r.
    apply inv_calm; [by eapply release_claim_calm|done|done].
Qed.

Lemma inv_enqueue env now dbnow y args db' row :
  enqueue_command env now dbnow (sy_db y) args = Ok (db', row) → delivery_inv y →
  delivery_inv (MkSys db' (sy_pending y) (sy_log y)).
Proof.
  intros H [Hk Hkn Hbl Hg].
  apply enqueue_spec in H as [Hr [[Ho _]|(mid & Hmid & Ho & Hen & Hfresh)]]; [| |done].
  - split; cbn; unfold outboxes_keyed in *; rewrite ?Ho, ?Hr; done.
  - assert (∀ x z, head_step x z → calm_step x z) as Hcalm.
    { intros x z [->|(Hc & _ & _)]; [apply calm_step_refl|done]. }
    assert (ob_outbox_id <$> mid = ob_outbox_id <$> db_outboxes (sy_db y)) as Hids.
    { clear -Hmid Hcalm. induction Hmid as [|x z l l' Hxz _ IH]; [done|]. cbn. f_equal; [|done].
      by apply calm_step_id, Hcalm. }
    assert (ob_outbox_id row ∉ ob_outbox_id <$> mid) as Hnew.
    { intros (o & He & Hin)%list_elem_of_fmap. by eapply conflict_free_id; [by apply Hfresh|]. }
    split; cbn; rewrite ?Ho.
    + unfold outboxes_keyed in *. rewrite Ho, fmap_app, Hids. apply NoDup_app.
      split_and!; [done| |apply NoDup_singleton].
      intros i Hi ->%list_elem_of_singleton. rewrite Hids in Hnew. done.
    + intros i Hi. destruct (Hkn i Hi) as (x & Hx & <-).
      destruct (Forall2_elem_l _ _ _ _ Hmid Hx) as (z & Hz & Hxz).
      exists z. split; [set_solver|]. by apply calm_step_id, Hcalm.
    + intros z Hz Ha. apply elem_of_app in Hz as [Hz|Hz].
      * destruct (Forall2_elem_r _ _ _ _ Hmid Hz) as (x & Hx & Hxz). apply Hcalm in Hxz.
        rewrite (calm_step_id _ _ Hxz) in Ha. rewrite Hr.
        eapply blocked_calm; [exact Hxz|done|done|by apply Hbl].
      * apply list_elem_of_singleton in Hz as ->. destruct Hnew.
        destruct (Hkn _ Ha) as (x & Hx & <-). rewrite Hids. by apply list_elem_of_fmap_2.
    + done.
Qed.

Lemma inv_step y st : disciplined y st → delivery_inv y → delivery_inv (exec_dstep y st).
Proof.
  intros Hadm Hinv. destruct st as [env now dbnow args|env locked now dbnow limit
    |env ck now dbnow id|env ck id|w|env ck id|env nonce locked now dbnow limit
    |env now dbnow claim]; cbn [exec_dstep].
  - destruct (enqueue_command _ _ _ _ _) as [[db' row]|] eqn:H; [|done]. by eapply inv_enqueue.
  - destruct (_claim_batch _ _ _ _ _ _) as [[db' ids]|] eqn:H.
    + apply claim_batch_spec in H as (rows & He & _); [|apply Hinv].
      eapply inv_claim; [exact He| |done]. by intros x []%in_drop_worker.
    + apply inv_quiet; [|done]. by intros x []%in_drop_worker.
  - by apply inv_process.
  - destruct Hadm as [Hp Hl].
    destruct (_deliver_outbox env ck (sy_db y) id) as [[c|] r] eqn:Hd; cbn [fst sent_events].
    + eapply inv_sent_lost; eauto.
    + rewrite app_nil_r. apply inv_quiet; [|done]. by intros x []%in_drop_worker.
  - apply inv_quiet; [|done]. by intros x []%in_drop_worker.
  - destruct Hadm as [Hnl Hok].
    destruct (_deliver_outbox env ck (sy_db y) id) as [[c|] r] eqn:Hd; cbn [sent_events].
    + specialize (Hok _ _ eq_refl). destruct r as [db'|]; [|done].
      eapply inv_sent_recorded; eauto. by intros ?%Hnl.
    + rewrite app_nil_r. destruct r as [db'|]; [|apply inv_quiet; auto].
      apply inv_calm; [|done|done]. eapply deliver_unsent; [apply Hinv|exact Hd].
  - apply inv_calm; [|done|done].
    destruct (claim_paused_spec env nonce locked now dbnow (sy_db y) limit) as [Hf Hr];
      [apply Hinv|]. split; [|done]. eapply Forall2_impl; [exact Hf|].
    intros x z [->|Hps]; [apply calm_step_refl|by apply paused_step_calm].
  - destruct (reconcile_claim _ _ _ _ _) as [[db' b]|] eqn:H; [|done]. by eapply inv_reconcile.
Qed.

Lemma inv_runs y l y' : druns y l y' → delivery_inv y → delivery_inv y'.
Proof. induction 1 as [|y st l y' Hadm _ IH]; [done|]. intros Hinv. by apply IH, inv_step. Qed.

(** C3. No blind re-send under the delivery discipline: when worker ids are distinct, unrecorded
    submissions of workers are of leased rows, and synchronous deliveries leave leased rows alone and
    commit what they submit, then over any interleaving of enqueues, worker batches, synchronous
    deliveries, crashes between egress and commit, lease expiries and lookup reconciliations, two
    submissions of the same outbox row are separated by an authoritative NOT_FOUND lookup that
    cleared the row. *)
Theorem no_resend_without_lookup (db : Db) (l : list dstep) (y : Sys) (id : string)
    (l1 l2 l3 : list log_event) :
  outboxes_keyed db → druns (MkSys db [] []) l y →
  sy_log y = (l1 ++ Sent id :: l2 ++ Sent id :: l3)%list → Cleared id ∈ l2.
Proof.
  intros Hk Hr Hlog. apply inv_runs in Hr.
  - by eapply (di_guarded _ Hr).
  - split; cbn; try done. intros i l1' l2' l3' He. by destruct l1'.
Qed.
