(* ===== verification/DeliveryProps.v ===== *)
(** * Guarantees of the outbox over any sequence of transactions *)

From stdpp Require Import prelude strings sorting.
From S2P Require Import Prelude Enums Errors Tables Workflow Lifecycles LifecycleFacts Runs Db.
From S2P Require Import Disposition OutboundGuard ExecutionResults Reconcile.
From S2P Require Import ContextJournal Outbox Delivery OutboxFacts DeliveryFacts DeliveryRuns.

#[local] Open Scope string_scope.

(** ** Egress *)

(** C5. A command leaves the system only through the delivery checks: the row is not superseded (and
    for an event status update it is the newest head of its slot), it is in a deliverable status
    (under an unexpired lease of this worker when leased), its Action exists, is still approved and
    belongs to the current plan, the live fence is open for the Action's owner, the payload parses to
    exactly this command and is clean, and nothing was answered or recorded for its writeback
    before. *)
Theorem delivery_egress_guarded (env : DeliveryEnv) (ck : DeliveryClock) (db : Db) (id : string)
    (c : DispositionCommand) (r : result Db) :
  _deliver_outbox env ck db id = (Some c, r) →
  ∃ o a s owner, ob_outbox_id o = id ∧ egress_allowed env ck db o a s owner c.
Proof.
  intros (o & a & ad & s & owner & Hg & He & _)%deliver_sent.
  apply get_by_Some in Hg as [_ Hid]. eauto 10.
Qed.

(** ** The frame of a step *)

Lemma recorded_row_step env ck db o a s owner c o' :
  egress_allowed env ck db o a s owner c →
  outbox_identity o' = outbox_identity o →
  ob_superseded_by_disposition_id o' = ob_superseded_by_disposition_id o →
  (detail_bounded o → detail_bounded o') →
  (ob_delivery_status o' = enum_value OutboxDeliveryStatus.DELIVERED ∨
   ob_delivery_status o = enum_value OutboxDeliveryStatus.LEASED ∧
   ob_delivery_status o' = enum_value OutboxDeliveryStatus.PAUSED ∨
   parked o ∧ ob_delivery_status o' = ob_delivery_status o) →
  row_step o o'.
Proof.
  intros He Hi Hsup Hd Ht. pose proof (eg_status _ _ _ _ _ _ _ _ He) as Hs.
  destruct Ht as [Ht|[[Hf Ht]|[Hp _]]].
  - apply (moved_row_step _ _ s OutboxDeliveryStatus.DELIVERED); [|done].
    destruct (eg_deliverable _ _ _ _ _ _ _ _ He) as [->|[->| ->]]; split; try done;
      apply (bool_decide_unpack _); by vm_compute.
  - apply (moved_row_step _ _ OutboxDeliveryStatus.LEASED OutboxDeliveryStatus.PAUSED); [|done].
    split; try done. apply (bool_decide_unpack _); by vm_compute.
  - destruct (Hp s); [|done]. destruct (eg_deliverable _ _ _ _ _ _ _ _ He) as [->|[->| ->]];
      unfold deliverable_statuses; set_solver.
Qed.

(** Rows are never deleted; each row takes at most one step of its lifecycle; the rows added are
    fresh; the receipt log grows; keys stay unique. *)
Record framed (db db' : Db) : Prop := {
  fr_rows : ∃ mid news, Forall2 row_step (db_outboxes db) mid ∧
    db_outboxes db' = (mid ++ news)%list ∧ Forall enqueued news ∧
    ∀ new, new ∈ news → news = [new] ∧ ∀ o, o ∈ mid → conflicts_with new o = false;
  fr_receipts : ∃ rs, db_receipts db' = (db_receipts db ++ rs)%list;
  fr_keyed : outboxes_keyed db'
}.

Lemma framed_evolves (R : OutboxRow → OutboxRow → Prop) db db' :
  (∀ x z, R x z → row_step x z) → outboxes_keyed db → evolves R db db' → framed db db'.
Proof.
  intros HR Hk He. split.
  - exists (db_outboxes db'), []. split_and!; [|by rewrite app_nil_r|done|set_solver].
    eapply Forall2_impl; [apply He|done].
  - apply He.
  - eapply evolves_keyed; [|exact He|done]. intros x z Hxz.
    by apply identity_outbox_id, rs_identity, HR.
Qed.

Lemma framed_same db : outboxes_keyed db → framed db db.
Proof.
  intros Hk. eapply (framed_evolves row_step); [done|done|].
  apply evolves_quiet; [apply row_step_refl|done].
Qed.

Lemma framed_calm db db' : outboxes_keyed db → evolves calm_step db db' → framed db db'.
Proof. apply framed_evolves. by intros x z []. Qed.

Lemma framed_recorded env ck db id c db' :
  outboxes_keyed db → _deliver_outbox env ck db id = (Some c, Ok db') → framed db db'.
Proof.
  intros Hk (o & a & ad & s & owner & Hg & He & Hr)%deliver_sent.
  symmetry in Hr. apply bind_Ok in Hr as (receipt & _ & Hrec).
  apply record_submission_spec in Hrec as (o' & rs & Hob & Hre & _ & _ & Hi & Hsup & Hd & Ht).
  apply (framed_evolves row_step); [done|done|].
  eapply (puts_evolves _ db db' o o'); [apply row_step_refl|done| |by eapply recorded_row_step].
  split; [apply He|exact Hob|exact Hi|eauto].
Qed.

Lemma framed_deliver env ck db id sent db' :
  outboxes_keyed db → _deliver_outbox env ck db id = (sent, Ok db') → framed db db'.
Proof.
  destruct sent as [c|]; [apply framed_recorded|]. intros Hk Hd.
  apply framed_calm; [done|]. by eapply deliver_unsent.
Qed.

Lemma framed_enqueue env now dbnow db args db' row :
  outboxes_keyed db → enqueue_command env now dbnow db args = Ok (db', row) → framed db db'.
Proof.
  intros Hk H.
  assert (delivery_inv (MkSys db [] [])) as Hinv.
  { split; cbn; try done. intros i l1 l2 l3 He. by destruct l1. }
  split.
  - apply enqueue_spec in H as [_ [[Ho _]|(mid & Hmid & Ho & Hen & Hfresh)]]; [| |done].
    + exists (db_outboxes db), []. rewrite Ho.
      split_and!; [apply Forall2_same, row_step_refl|by rewrite app_nil_r|done|set_solver].
    + exists mid, [row]. split_and!; [|done|by constructor|].
      * eapply Forall2_impl; [exact Hmid|]. intros x z [->|([] & _)]; [apply row_step_refl|done].
      * intros new ->%list_elem_of_singleton. done.
  - apply enqueue_spec in H as [Hr _]; [|done]. exists []. by rewrite app_nil_r.
  - by apply (inv_enqueue _ _ _ (MkSys db [] []) _ _ _ H) in Hinv as [? _ _ _].
Qed.

Lemma framed_reconcile env now dbnow db claim db' b :
  outboxes_keyed db → reconcile_claim env now dbnow db claim = Ok (db', b) → framed db db'.
Proof.
  intros Hk H. unfold reconcile_claim in H.
  destruct (_apply_paused_lookup_outcome _ _ _ _ _ _) as [[[db1 b1] st]|e] eqn:Ha.
  - injection H as <- <-.
    apply apply_lookup_effect in Ha as [(-> & _)|(o & o' & Hm & Heff)]; [by apply framed_same| |done].
    destruct Heff as [Hput Hps|Hput Hc Hpk|Hput Hcl _ _ _ _].
    + apply framed_calm; [done|]. eapply puts_evolves; [apply calm_step_refl|done|done|].
      by apply paused_step_calm.
    + apply framed_calm; [done|]. by eapply puts_evolves; [apply calm_step_refl|..].
    + apply (framed_evolves row_step); [done|done|].
      eapply puts_evolves; [apply row_step_refl|done|done|apply Hcl].
  - apply bind_Ok in H as (db1 & Hr & [= <- <-]). apply framed_calm; [done|].
    by eapply release_claim_calm.
Qed.

Lemma exec_framed y st :
  outboxes_keyed (sy_db y) → framed (sy_db y) (sy_db (exec_dstep y st)).
Proof.
  intros Hk. pose proof (framed_same _ Hk) as Hsame.
  destruct st as [env now dbnow args|env locked now dbnow limit
    |env ck now dbnow id|env ck id|w|env ck id|env nonce locked now dbnow limit
    |env now dbnow claim]; cbn [exec_dstep]; try exact Hsame.
  - destruct (enqueue_command _ _ _ _ _) as [[db' row]|] eqn:H; [|done].
    by eapply framed_enqueue.
  - destruct (_claim_batch _ _ _ _ _ _) as [[db' ids]|] eqn:H; [|done].
    apply claim_batch_spec in H as (rows & He & _); [|done].
    eapply framed_evolves; [|done|exact He].
    intros x z [[_ Hc]|[(_ & _ & [])|(_ & _ & ->)]]; [apply Hc|done|apply row_step_refl].
  - unfold process.
    destruct (_deliver_outbox env ck (sy_db y) id) as [sent [db'|e]] eqn:Hd.
    + by eapply framed_deliver.
    + destruct (handle_delivery_failure _ _ _ _ _ _) as [db'|] eqn:Hh; [|done].
      apply framed_calm; [done|]. by eapply handle_failure_calm.
  - destruct (_deliver_outbox env ck (sy_db y) id) as [sent [db'|e]] eqn:Hd; [|done].
    by eapply framed_deliver.
  - eapply framed_evolves; [|done|by apply claim_paused_spec].
    intros x z [->|Hps]; [apply row_step_refl|by apply paused_step_calm].
  - destruct (reconcile_claim _ _ _ _ _) as [[db' b]|] eqn:H; [|done].
    by eapply framed_reconcile.
Qed.

Definition exec_dsteps (y : Sys) (l : list dstep) : Sys := foldl exec_dstep y l.

(** An invariant of the tables that every framed step preserves holds after any steps, disciplined
    or not. *)
Lemma framed_invariant (I : Db → Prop) y l :
  (∀ db db', outboxes_keyed db → framed db db' → I db → I db') →
  outboxes_keyed (sy_db y) → I (sy_db y) →
  outboxes_keyed (sy_db (exec_dsteps y l)) ∧ I (sy_db (exec_dsteps y l)).
Proof.
  intros HI. unfold exec_dsteps. revert y. induction l as [|st l IH]; intros y Hk Hi; [done|].
  cbn. pose proof (exec_framed y st Hk) as Hf. apply IH; [apply Hf|by eapply HI].
Qed.

(** ** Rows *)

(** Outbox rows stay well-formed, whatever the workers, callers and providers do: a readable
    delivery status, an owner and an expiry on every leased row, an error detail of at most 500
    characters. *)
Theorem outbox_rows_well_formed (y : Sys) (l : list dstep) :
  outboxes_keyed (sy_db y) → Forall row_wf (db_outboxes (sy_db y)) →
  Forall row_wf (db_outboxes (sy_db (exec_dsteps y l))).
Proof.
  intros Hk Hwf.
  eapply (framed_invariant (λ db, Forall row_wf (db_outboxes db)) y l); [|done|done].
  intros db db' _ [(mid & news & Hmid & Ho & Hen & _) _ _] Hdb. rewrite Ho.
  apply Forall_app. split.
  - clear Ho. induction Hmid as [|x z l0 l1 Hxz _ IH]; [done|].
    apply Forall_cons in Hdb as [Hx Hl]. constructor; [by apply Hxz|auto].
  - eapply Forall_impl; [exact Hen|]. by intros x [].
Qed.

(** One step of the system never rewrites a command and never leaves the delivery table: each
    row keeps its keys, lineage, payload and payload digest; once superseded it stays superseded;
    its delivery status is unchanged or moves along one edge of [OUTBOX_DELIVERY_TRANSITIONS];
    and DELIVERED and DEAD_LETTER are final, since only an operator's retry leaves them. *)
Theorem outbox_step_legal (y : Sys) (st : dstep) (o : OutboxRow) (s : OutboxDeliveryStatus) :
  outboxes_keyed (sy_db y) → o ∈ db_outboxes (sy_db y) → ob_delivery_status o = enum_value s →
  ∃ o' t, o' ∈ db_outboxes (sy_db (exec_dstep y st)) ∧
    outbox_identity o' = outbox_identity o ∧
    (is_Some (ob_superseded_by_disposition_id o) →
     is_Some (ob_superseded_by_disposition_id o')) ∧
    ob_delivery_status o' = enum_value t ∧
    (t = s ∨ s ≠ OutboxDeliveryStatus.DELIVERED ∧ s ≠ OutboxDeliveryStatus.DEAD_LETTER ∧
             t ∈ default [] (OUTBOX_DELIVERY_TRANSITIONS s)).
Proof.
  intros Hk Ho Hs. destruct (exec_framed y st Hk) as [(mid & news & Hmid & Heq & _) _ _].
  destruct (Forall2_elem_l _ _ _ _ Hmid Ho) as (o' & Ho' & [Hi Hsup He Hf _]).
  destruct (He s Hs) as (t & Ht & Hst). exists o', t.
  split_and!; [rewrite Heq; set_solver|done|done|done|].
  destruct (decide (t = s)) as [|Hne]; [by left|]. right. split_and!.
  - intros ->. apply Hne, (inj enum_value). rewrite <-Ht, Hf; auto.
  - intros ->. apply Hne, (inj enum_value). rewrite <-Ht, Hf; auto.
  - by destruct Hst.
Qed.

(** ** Heads *)

Definition competes (o1 o2 : OutboxRow) : Prop :=
  ob_intent_kind o1 = enum_value DispositionIntentKind.EVENT_STATUS_UPDATE ∧
  ob_intent_kind o2 = enum_value DispositionIntentKind.EVENT_STATUS_UPDATE ∧
  ob_event_id o1 = ob_event_id o2 ∧ ob_closure_cycle o1 = ob_closure_cycle o2 ∧
  ob_logical_slot o1 = ob_logical_slot o2 ∧
  ob_superseded_by_disposition_id o1 = None ∧ ob_superseded_by_disposition_id o2 = None.

(** At most one unsuperseded status update per event, cycle and slot. *)
Definition single_head (db : Db) : Prop :=
  ∀ o1 o2, o1 ∈ db_outboxes db → o2 ∈ db_outboxes db → competes o1 o2 → o1 = o2.

Lemma competes_sym o1 o2 : competes o1 o2 → competes o2 o1.
Proof. intros (? & ? & ? & ? & ? & ? & ?). by split_and!. Qed.

(** Rows that compete after a step competed before it. *)
Lemma competes_step x1 z1 x2 z2 :
  row_step x1 z1 → row_step x2 z2 → competes z1 z2 → competes x1 x2.
Proof.
  intros [Hi1 Hs1 _ _ _] [Hi2 Hs2 _ _ _] (Hk1 & Hk2 & He & Hc & Hl & Hn1 & Hn2).
  injection Hi1 as _ _ _ _ Ee1 Ec1 _ _ _ Ek1 El1 _ _ _ _ _.
  injection Hi2 as _ _ _ _ Ee2 Ec2 _ _ _ Ek2 El2 _ _ _ _ _.
  assert (∀ a b : option string, (is_Some a → is_Some b) → b = None → a = None) as Hback.
  { intros a b Hab Hb. destruct a; [|done]. destruct (Hab ltac:(eauto)). congruence. }
  split_and!; try congruence; by eapply Hback.
Qed.

Lemma conflict_free_competes new o : conflicts_with new o = false → ¬ competes new o.
Proof.
  unfold conflicts_with, active_head_row. intros [_ H]%orb_false_iff.
  intros (Hk1 & Hk2 & He & Hc & Hl & Hn1 & Hn2). apply not_true_iff_false in H. apply H.
  rewrite !andb_true_iff. split_and!; apply bool_decide_eq_true_2; congruence.
Qed.

(** At most one active head: if no two unsuperseded EVENT_STATUS_UPDATE rows share event,
    closure cycle and slot, the same holds after any steps of the system. *)
Theorem one_active_head (y : Sys) (l : list dstep) :
  outboxes_keyed (sy_db y) → single_head (sy_db y) → single_head (sy_db (exec_dsteps y l)).
Proof.
  intros Hk Hh. eapply (framed_invariant single_head y l); [|done|done].
  intros db db' _ [(mid & news & Hmid & Ho & _ & Hnew) _ Hk'] Hdb z1 z2 Hz1 Hz2 Hc.
  eapply keyed_eq; [exact Hk'|done|done|]. rewrite Ho in Hz1, Hz2.
  apply elem_of_app in Hz1 as [Hz1|Hz1]; apply elem_of_app in Hz2 as [Hz2|Hz2].
  - destruct (Forall2_elem_r _ _ _ _ Hmid Hz1) as (x1 & Hx1 & Hs1).
    destruct (Forall2_elem_r _ _ _ _ Hmid Hz2) as (x2 & Hx2 & Hs2).
    assert (x1 = x2) as -> by (apply Hdb; [done|done|by eapply competes_step]).
    by rewrite (identity_outbox_id _ _ (rs_identity _ _ Hs1)),
      (identity_outbox_id _ _ (rs_identity _ _ Hs2)).
  - destruct (Hnew _ Hz2) as [_ Hfree].
    by apply Hfree, conflict_free_competes in Hz1; [destruct Hz1; apply competes_sym].
  - destruct (Hnew _ Hz1) as [_ Hfree].
    by apply Hfree, conflict_free_competes in Hz2.
  - destruct (Hnew _ Hz1) as [-> _]. by apply list_elem_of_singleton in Hz2 as ->.
Qed.

(** ** Receipts *)

(** A receipt is stored for the writeback of row [id]. *)
Definition answered (db : Db) (id : string) : Prop :=
  ∃ o r, o ∈ db_outboxes db ∧ ob_outbox_id o = id ∧ r ∈ db_receipts db ∧
    rc_writeback_id r = ob_writeback_id o.

Lemma answered_framed db db' id : framed db db' → answered db id → answered db' id.
Proof.
  intros [(mid & news & Hmid & Ho & _) [rs Hr] _] (o & r & Hin & Hid & Hrin & Hw).
  destruct (Forall2_elem_l _ _ _ _ Hmid Hin) as (o' & Ho' & Hs).
  exists o', r. rewrite Ho, Hr. apply rs_identity in Hs.
  split_and!; [set_solver| |set_solver|].
  - by rewrite (identity_outbox_id _ _ Hs).
  - by rewrite Hw, (identity_writeback_id _ _ Hs).
Qed.

Lemma answered_unsent env ck db id c r :
  outboxes_keyed db → answered db id → _deliver_outbox env ck db id ≠ (Some c, r).
Proof.
  intros Hk (o & rc & Ho & Hid & Hrc & Hw) (o1 & a & ad & s & owner & Hg & He & _)%deliver_sent.
  apply get_by_Some in Hg as [Ho1 Hid1].
  assert (o1 = o) as -> by (eapply keyed_eq; [done|done|done|congruence]).
  by eapply (eg_first _ _ _ _ _ _ _ _ He).
Qed.

Lemma step_sends y st id :
  outboxes_keyed (sy_db y) → answered (sy_db y) id →
  ∃ evs, sy_log (exec_dstep y st) = (sy_log y ++ evs)%list ∧ Sent id ∉ evs.
Proof.
  intros Hk Ha.
  assert (∃ evs, sy_log y = (sy_log y ++ evs)%list ∧ Sent id ∉ evs) as Hnone.
  { exists []. split; [by rewrite app_nil_r|set_solver]. }
  assert (∀ env ck i sent r, _deliver_outbox env ck (sy_db y) i = (sent, r) →
    Sent id ∉ sent_events sent i) as Hsent.
  { intros env ck i [c|] r Hd; [|set_solver]. cbn. intros [= ->]%list_elem_of_singleton.
    by eapply answered_unsent. }
  destruct st as [env now dbnow args|env locked now dbnow limit
    |env ck now dbnow i|env ck i|w|env ck i|env nonce locked now dbnow limit
    |env now dbnow claim]; cbn [exec_dstep]; try exact Hnone.
  - by destruct (enqueue_command _ _ _ _ _) as [[]|].
  - by destruct (_claim_batch _ _ _ _ _ _) as [[]|].
  - unfold process. destruct (_deliver_outbox env ck (sy_db y) i) as [sent r] eqn:Hd.
    exists (sent_events sent i). split; [|by eapply Hsent].
    destruct r; [done|]. by destruct (handle_delivery_failure _ _ _ _ _ _).
  - destruct (_deliver_outbox env ck (sy_db y) i) as [sent r] eqn:Hd.
    exists (sent_events sent i). split; [done|by eapply Hsent].
  - destruct (_deliver_outbox env ck (sy_db y) i) as [sent r] eqn:Hd.
    exists (sent_events sent i). split; [done|by eapply Hsent].
  - destruct (reconcile_claim _ _ _ _ _) as [[db' b]|]; [|done].
    eexists. split; [done|]. unfold cleared_events. cbn zeta.
    destruct (_apply_paused_lookup_outcome _ _ _ _ _ _) as [[[? []] [[]|]]|]; try set_solver.
    case_bool_decide; set_solver.
Qed.

(** A stored receipt ends the submissions of its row: whatever happens afterwards, including
    lookups that clear the row for a retry, the row is never submitted again.  (Hence a row whose
    submission was recorded as UNKNOWN is not re-sent when a lookup proves that the provider never
    accepted it: it cycles between READY, LEASED and PAUSED.) *)
Theorem stored_receipt_never_resent (y : Sys) (l : list dstep) (id : string) :
  outboxes_keyed (sy_db y) → answered (sy_db y) id →
  ∃ evs, sy_log (exec_dsteps y l) = (sy_log y ++ evs)%list ∧ Sent id ∉ evs.
Proof.
  unfold exec_dsteps. revert y. induction l as [|st l IH]; intros y Hk Ha; cbn.
  { exists []. split; [by rewrite app_nil_r|set_solver]. }
  pose proof (exec_framed y st Hk) as Hf.
  destruct (step_sends y st id Hk Ha) as (e1 & He1 & Hn1).
  destruct (IH (exec_dstep y st)) as (e2 & He2 & Hn2);
    [apply Hf|by eapply answered_framed|].
  exists (e1 ++ e2)%list. split; [by rewrite He2, He1, app_assoc|set_solver].
Qed.

(** ** Lookups *)

(** A lookup result is applied only under the token of its claim: either nothing changes, or
    the row is still paused under that very token, unsuperseded, with the idempotency key and the
    payload digest of the claim; the other rows are untouched; and the row becomes deliverable
    again only when the provider reported NOT_FOUND and the adapter supports idempotent
    submission and lookup. *)
Theorem lookup_applied_under_token (env : DeliveryEnv) (now dbnow : Z) (db : Db)
    (claim : PausedLookupClaim) (outcome : PausedLookupOutcome) (db' : Db) (applied : bool)
    (st : option WritebackStatus) :
  outboxes_keyed db →
  _apply_paused_lookup_outcome env now dbnow db claim outcome = Ok (db', applied, st) →
  db' = db ∧ applied = false ∨
  ∃ o, claim_matches db claim o ∧
    ∀ o', o' ∈ db_outboxes db' →
      (ob_outbox_id o' ≠ cl_outbox_id claim → o' ∈ db_outboxes db) ∧
      (ob_outbox_id o' = cl_outbox_id claim → ¬ parked o' →
       lo_kind outcome = _PausedLookupKind.NOT_FOUND ∧
       supports_idempotency (ad_capabilities (cl_adapter claim)) = true ∧
       supports_lookup_by_idempotency (ad_capabilities (cl_adapter claim)) = true).
Proof.
  intros Hk [(-> & -> & _)|(o & o1 & Hm & Heff)]%apply_lookup_effect; [by left| |done].
  right. exists o. split; [done|]. intros o' Ho'.
  destruct (get_by_Some _ _ _ _ (cm_row _ _ _ Hm)) as [Hin Hid].
  assert (puts db db' o o1) as Hput by (by destruct Heff).
  destruct (puts_elem _ _ _ _ _ Hput Ho') as [->|[Hold Hne]].
  - pose proof (identity_outbox_id _ _ (pt_identity _ _ _ _ Hput)) as Hi. split; [congruence|].
    intros _ Hnp. destruct Heff as [_ Hps|_ _ Hpk|_ _ Hkind Hsafe _ _]; [|done|].
    + destruct Hnp. by apply paused_parked, Hps.
    + unfold allows_safe_retry in Hsafe. by bool_props.
  - split; [done|]. congruence.
Qed.

(** ** The worker's loop as steps *)

(** The submissions in a log. *)
Definition submissions (log : list log_event) : list string :=
  omap (λ e, match e with Sent id => Some id | Cleared _ => None end) log.

Lemma submissions_app l1 l2 : submissions (l1 ++ l2) = (submissions l1 ++ submissions l2)%list.
Proof. apply omap_app. Qed.

Lemma exec_dsteps_app y l1 l2 : exec_dsteps y (l1 ++ l2) = exec_dsteps (exec_dsteps y l1) l2.
Proof. apply foldl_app. Qed.

Lemma cleared_not_sent env now dbnow db claim :
  submissions (cleared_events env now dbnow db claim) = [].
Proof.
  unfold cleared_events. cbn zeta.
  destruct (_apply_paused_lookup_outcome _ _ _ _ _ _) as [[[? []] [[]|]]|]; try done.
  by case_bool_decide.
Qed.

Lemma reconcile_claims_steps env ri claims : ∀ y,
  ∃ l, sy_db (exec_dsteps y l) = (reconcile_claims env ri (sy_db y) claims).1 ∧
    submissions (sy_log (exec_dsteps y l)) = submissions (sy_log y).
Proof.
  induction claims as [|c claims IH]; intros y; [by exists []|]. cbn [reconcile_claims].
  set (st := SReconcile env (ri_reconcile_now ri (cl_outbox_id c)) (ri_dbnow ri) c).
  destruct (reconcile_claim _ _ _ _ _) as [[db' b]|e] eqn:Hr; [|by exists []].
  destruct (IH (exec_dstep y st)) as (l & Hdb & Hlog). exists (st :: l).
  change (exec_dsteps y (st :: l)) with (exec_dsteps (exec_dstep y st) l).
  rewrite Hdb, Hlog. cbn [exec_dstep st]. rewrite Hr. cbn [sy_db sy_log].
  rewrite submissions_app, cleared_not_sent, app_nil_r.
  by destruct (reconcile_claims env ri db' claims).
Qed.

Lemma deliver_claimed_steps env ri ids : ∀ y,
  let out := deliver_claimed env ri (sy_db y) ids in
  ∃ l, sy_db (exec_dsteps y l) = out.2.1 ∧
    submissions (sy_log (exec_dsteps y l)) = (submissions (sy_log y) ++ out.1)%list.
Proof.
  induction ids as [|id ids IH]; intros y out.
  { exists []. subst out. cbn. by rewrite app_nil_r. }
  subst out. cbn [deliver_claimed].
  set (st := SProcess env (ri_clock ri id) (ri_failure_now ri id) (ri_dbnow ri) id).
  destruct (_deliver_outbox env (ri_clock ri id) (sy_db y) id) as [sent r] eqn:Hd.
  assert (∃ db' pending, exec_dstep y st =
    MkSys db' pending (sy_log y ++ sent_events sent id) ∧
    match match r with Ok db' => Ok db' | Err exc => handle_delivery_failure env
            (ri_failure_now ri id) (ri_dbnow ri) (sy_db y) id exc end with
    | Ok db2 => db' = db2 | Err _ => db' = sy_db y end) as (db' & pending & Hst & Hdb').
  { cbn [exec_dstep st]. unfold process. rewrite Hd.
    destruct r as [db'|exc]; [by eauto|].
    destruct (handle_delivery_failure _ _ _ _ _ _); eauto. }
  assert (submissions (sent_events sent id) = match sent with Some _ => [id] | None => [] end)
    as Hsub by (by destruct sent).
  destruct (match r with Ok db' => Ok db' | Err exc => _ end) as [db2|e]; subst db'.
  - destruct (IH (exec_dstep y st)) as (l & Hdb & Hlog). exists (st :: l).
    change (exec_dsteps y (st :: l)) with (exec_dsteps (exec_dstep y st) l).
    rewrite Hdb, Hlog, Hst. cbn [sy_db sy_log]. rewrite submissions_app, Hsub.
    destruct (deliver_claimed env ri db2 ids) as [more rest]. cbn [fst snd]; by rewrite <-app_assoc.
  - exists [st]. cbn [exec_dsteps foldl]. change (foldl exec_dstep y [st]) with (exec_dstep y st).
    rewrite Hst. cbn [sy_db sy_log fst snd]. by rewrite submissions_app, Hsub.
Qed.

(** A run of the worker is a sequence of the steps of the system, whatever raises on the
    way: its database is the one the steps leave, and it submits exactly the commands the steps
    submit.  So every guarantee about sequences of steps holds for its runs. *)
Theorem run_once_refines_steps (env : DeliveryEnv) (ri : RunInputs) (y : Sys) (limit : nat) :
  let out := run_once env ri (sy_db y) limit in
  ∃ l, sy_db (exec_dsteps y l) = out.2.1 ∧
    submissions (sy_log (exec_dsteps y l)) = (submissions (sy_log y) ++ out.1)%list.
Proof.
  unfold run_once, reconcile_paused_outboxes. cbn zeta.
  set (paused := SClaimPaused env (ri_nonce ri) (ri_paused_locked ri) (ri_paused_now ri)
                   (ri_dbnow ri) limit).
  destruct (_claim_paused_outboxes _ _ _ _ _ _ _) as [db1 claims] eqn:Hp.
  assert (sy_db (exec_dstep y paused) = db1) as Hdb1 by (cbn [exec_dstep paused]; by rewrite Hp).
  destruct (reconcile_claims_steps env ri claims (exec_dstep y paused)) as (l1 & H1 & Hs1).
  rewrite Hdb1 in H1. set (y1 := exec_dsteps (exec_dstep y paused) l1) in *.
  assert (exec_dsteps y (paused :: l1) = y1) as Hy1 by done.
  destruct (reconcile_claims env ri db1 claims) as [db2 [n|e]]; cbn [fst snd] in *;
    [|exists (paused :: l1); by rewrite Hy1, H1, Hs1, app_nil_r].
  set (claim := SClaim env (ri_locked ri) (ri_claim_now ri) (ri_dbnow ri) limit).
  destruct (_claim_batch _ _ _ _ db2 limit) as [[db3 ids]|e] eqn:Hc; cbn [fst snd];
    [|exists (paused :: l1); by rewrite Hy1, H1, Hs1, app_nil_r].
  assert (sy_db (exec_dstep y1 claim) = db3 ∧ sy_log (exec_dstep y1 claim) = sy_log y1)
    as [Hdb3 Hlog3] by (cbn [exec_dstep claim]; by rewrite H1, Hc).
  destruct (deliver_claimed_steps env ri ids (exec_dstep y1 claim)) as (l2 & H2 & Hs2).
  rewrite Hdb3 in H2, Hs2. rewrite Hlog3, Hs1 in Hs2.
  exists (paused :: l1 ++ claim :: l2). rewrite app_comm_cons, exec_dsteps_app, Hy1.
  change (exec_dsteps y1 (claim :: l2)) with (exec_dsteps (exec_dstep y1 claim) l2).
  rewrite H2, Hs2. by destruct (deliver_claimed env ri db3 ids) as [sub [db4 r]].
Qed.
