(* ===== verification/DeliveryProgress.v ===== *)
(** * What the worker must do, and what the delivery path cannot do

    Progress of the claiming transaction; the behaviour of an enqueue on a replayed command; and
    the submissions that leave no trace. *)

From stdpp Require Import prelude strings sorting gmap.
From S2P Require Import Prelude Enums Errors Tables Workflow Lifecycles LifecycleFacts Runs Db.
From S2P Require Import Disposition OutboundGuard ExecutionResults Reconcile.
From S2P Require Import ContextJournal Outbox Delivery OutboxFacts DeliveryFacts DeliveryRuns.
From S2P Require Import DeliveryProps.

#[local] Open Scope string_scope.

(** ** Progress of a claim *)

Section progress.
Context (env : DeliveryEnv) (now dbnow : Z).

(** What happens to a row the WHERE clause selects; [hit] says whether the batch reports it. *)
Inductive serviced (o o' : OutboxRow) : bool → Prop :=
| serviced_lease :
    claimed_by (de_worker_id env) o o' →
    ob_lease_expires_at o' = Some (now + _DEFAULT_LEASE_SECONDS)%Z →
    serviced o o' true
| serviced_pause :
    ob_delivery_status o = enum_value OutboxDeliveryStatus.LEASED →
    ob_delivery_status o' = enum_value OutboxDeliveryStatus.PAUSED →
    ob_latest_writeback_status o' = Some (enum_value WritebackStatus.UNKNOWN) →
    ob_locked_by o' = None →
    serviced o o' false
| serviced_backoff t :
    ob_delivery_status o = enum_value OutboxDeliveryStatus.WAITING_RETRY →
    ob_next_retry_at o = None →
    ob_delivery_status o' = ob_delivery_status o →
    ob_next_retry_at o' = Some t →
    serviced o o' false.

(** The claiming transaction never raises on a well-formed row. *)
Lemma claim_row_serves db o :
  row_wf o → claimable now o = true →
  ∃ db' hit o', claim_row env now dbnow db o = Ok (db', hit) ∧
    db_outboxes db' = update_by ob_outbox_id o' (db_outboxes db) ∧
    ob_outbox_id o' = ob_outbox_id o ∧ serviced o o' hit.
Proof.
  intros [[s Hs] _ _] Hc. unfold claimable in Hc. apply andb_true_iff in Hc as [Hsup Hc].
  unfold claim_row. rewrite Hsup. cbn [negb].
  rewrite (proj2 (enum_of_value_or_raise_Ok _ s) Hs). cbn [mbind result_bind].
  destruct (bool_decide (s = OutboxDeliveryStatus.WAITING_RETRY) &&
            bool_decide (ob_next_retry_at o = None)) eqn:Hw.
  { bool_props. subst s. do 3 eexists. split_and!; [reflexivity..|].
    eapply serviced_backoff; [done|done|reflexivity|reflexivity]. }
  destruct (bool_decide (s = OutboxDeliveryStatus.LEASED) && lease_expired o now) eqn:Hl.
  { bool_props. subst s. unfold _release_leased_outbox_after_lease_expiry.
    rewrite (proj2 (enum_of_value_or_raise_Ok _ OutboxDeliveryStatus.LEASED) Hs).
    do 3 eexists. split_and!; [reflexivity|by rewrite (proj1 (quiet_mirror _ _ _ _))|reflexivity|].
    by apply serviced_pause. }
  assert (validate_outbox_delivery_transition s OutboxDeliveryStatus.LEASED default_outbox_args
          = Ok tt) as Hv.
  { rewrite Hs in Hc. destruct s; try reflexivity; try (by vm_compute in Hc).
    destruct (lease_expired o now); [by vm_compute in Hl|by vm_compute in Hc]. }
  rewrite Hv. cbn [mbind result_bind]. do 3 eexists. split_and!; [reflexivity..|].
  apply serviced_lease; [by eapply lease_claims|reflexivity].
Qed.

Lemma update_by_elem {A} (pk : A → string) (x z : A) l :
  z ∈ l → z ∈ update_by pk x l ∨ pk z = pk x ∧ x ∈ update_by pk x l.
Proof.
  intros Hz. unfold update_by. destruct (decide (pk z = pk x)) as [He|He]; [right; split; [done|]|left];
    apply list_elem_of_fmap; exists z; (split; [|done]).
  - by rewrite bool_decide_eq_true_2.
  - by rewrite bool_decide_eq_false_2.
Qed.

Lemma claim_rows_serve rows : ∀ db,
  NoDup (ob_outbox_id <$> rows) →
  (∀ o, o ∈ rows → o ∈ db_outboxes db ∧ row_wf o ∧ claimable now o = true) →
  ∃ db' ids, claim_rows env now dbnow db rows = Ok (db', ids) ∧
    (∀ id, id ∈ ids → id ∈ ob_outbox_id <$> rows) ∧
    (∀ o, o ∈ db_outboxes db → ob_outbox_id o ∉ ob_outbox_id <$> rows → o ∈ db_outboxes db') ∧
    ∀ o, o ∈ rows → ∃ o', o' ∈ db_outboxes db' ∧ ob_outbox_id o' = ob_outbox_id o ∧
      serviced o o' (bool_decide (ob_outbox_id o ∈ ids)).
Proof.
  induction rows as [|x rows IH]; intros db Hnd Hrows.
  { exists db, []. split_and!; set_solver. }
  cbn in Hnd. apply NoDup_cons in Hnd as [Hx Hnd].
  destruct (Hrows x ltac:(set_solver)) as (Hin & Hwf & Hc).
  destruct (claim_row_serves db x Hwf Hc) as (db1 & hit & x' & H1 & Hob & Hid & Hs).
  destruct (IH db1 Hnd) as (db' & ids & H2 & Hsub & Hkeep & Hall).
  { intros o Ho. destruct (Hrows o ltac:(set_solver)) as (Hdb & Ho2). split; [|done].
    rewrite Hob. destruct (update_by_elem ob_outbox_id x' o _ Hdb) as [|[He _]]; [done|].
    destruct Hx. rewrite <-Hid, <-He. by apply list_elem_of_fmap_2. }
  assert (x' ∈ db_outboxes db') as Hx'.
  { apply Hkeep; [|by rewrite Hid]. rewrite Hob.
    destruct (update_by_elem ob_outbox_id x' x _ Hin) as [Hx1|[_ ?]]; [|done].
    unfold update_by in *. apply list_elem_of_fmap. exists x. split; [|done].
    by rewrite bool_decide_eq_true_2. }
  exists db', (if hit then ob_outbox_id x :: ids else ids).
  assert (ob_outbox_id x ∉ ids) as Hxids by set_solver.
  cbn [claim_rows]. rewrite H1. cbn [mbind result_bind]. rewrite H2. cbn [mbind result_bind].
  split_and!; [done|destruct hit; cbn; set_solver| |].
  - intros o Ho Hn. cbn in Hn. apply not_elem_of_cons in Hn as [Hn1 Hn2].
    apply Hkeep; [|done]. rewrite Hob.
    destruct (update_by_elem ob_outbox_id x' o _ Ho) as [|[He _]]; [done|].
    congruence.
  - intros o [->|Ho]%elem_of_cons.
    + exists x'. split_and!; [done|done|]. destruct hit.
      * by rewrite bool_decide_eq_true_2 by set_solver.
      * by rewrite bool_decide_eq_false_2.
    + destruct (Hall o Ho) as (o' & Ho' & Hid' & Hs'). exists o'. split_and!; [done|done|].
      destruct hit; [|done]. rewrite (bool_decide_ext _ (ob_outbox_id o ∈ ids)); [done|].
      apply (list_elem_of_fmap_2 ob_outbox_id) in Ho. rewrite elem_of_cons.
      split; [intros [He|?]; [by rewrite He in Ho|done]|by right].
Qed.

(** A worker makes progress: on well-formed rows the claiming transaction never raises, and
    when its limit covers the due rows that no other transaction holds, each of them is served:
    a READY or WAITING_RETRY row is leased to the worker for [_DEFAULT_LEASE_SECONDS] and
    reported; a row whose lease ran out is paused as UNKNOWN, not re-sent; a retry without a
    date gets one. *)
Theorem claim_batch_serves_due_rows (locked : string → bool) (db : Db) (limit : nat) :
  outboxes_keyed db → Forall row_wf (db_outboxes db) →
  (length (List.filter (λ o, claimable now o && negb (locked (ob_outbox_id o)))
            (db_outboxes db)) ≤ limit)%nat →
  ∃ db' ids, _claim_batch env locked now dbnow db limit = Ok (db', ids) ∧
    ∀ o, o ∈ db_outboxes db → claimable now o = true → locked (ob_outbox_id o) = false →
      ∃ o', o' ∈ db_outboxes db' ∧ ob_outbox_id o' = ob_outbox_id o ∧
        serviced o o' (bool_decide (ob_outbox_id o ∈ ids)).
Proof.
  intros Hk Hwf Hlim. rewrite Forall_forall in Hwf. unfold _claim_batch.
  destruct (claim_rows_serve (take limit (merge_sort created_le (List.filter
    (λ o, claimable now o && negb (locked (ob_outbox_id o))) (db_outboxes db)))) db)
    as (db' & ids & H & _ & _ & Hall).
  - by apply NoDup_fmap_selected.
  - intros o [Ho Hp]%elem_of_selected. apply andb_true_iff in Hp as [Hp _]. auto.
  - exists db', ids. split; [done|]. intros o Ho Hc Hl. apply Hall.
    rewrite take_ge by (by rewrite merge_sort_Permutation).
    rewrite merge_sort_Permutation. apply in_where. split; [done|]. by rewrite Hc, Hl.
Qed.

End progress.

(** ** Replayed commands *)

(** The same request, made again: the generated identifiers may differ. *)
Record same_request (args args' : EnqueueArgs) : Prop := {
  sq_command : eq_command args' = eq_command args;
  sq_event_id : eq_event_id args' = eq_event_id args;
  sq_source_record_id : eq_source_record_id args' = eq_source_record_id args;
  sq_logical_slot : eq_logical_slot args' = eq_logical_slot args;
  sq_trusted_locator : eq_trusted_locator args' = eq_trusted_locator args;
  sq_approved_action_ids : eq_approved_action_ids args' = eq_approved_action_ids args
}.

Lemma list_find_app {A} (p : A → bool) l1 l2 :
  List.find p l1 = None → List.find p (l1 ++ l2) = List.find p l2.
Proof. induction l1 as [|x l1 IH]; [done|]. cbn. by destruct (p x). Qed.

Lemma list_find_update (p : OutboxRow → bool) l head' :
  p head' = false →
  (∀ o, o ∈ l → p o = true → ob_outbox_id o = ob_outbox_id head') →
  List.find p (update_by ob_outbox_id head' l) = None.
Proof.
  intros Hp. induction l as [|x l IH]; [done|]. intros Hall. cbn.
  case_bool_decide as E.
  - rewrite Hp. apply IH. set_solver.
  - destruct (p x) eqn:Hx; [|apply IH; set_solver]. destruct E. apply Hall; [set_solver|done].
Qed.

Section replay.
Context (env : DeliveryEnv) (args args' : EnqueueArgs) (Hsame : same_request args args').

(** The outcome of an enqueue that inserted a row. *)
Record inserted (db db1 : Db) (row : OutboxRow) (rows : list OutboxRow) : Prop := {
  in_outboxes : db_outboxes db1 = (rows ++ [row])%list;
  in_actions : db_actions db1 = db_actions db;
  in_events : db_events db1 = db_events db;
  in_sequence : ∃ n, db_source_sequences db1 !! eq_source_record_id args = Some n
}.

Lemma journal_frame db e f v r :
  append_list_context_journal_in_session db e f v = Ok r →
  db_outboxes r.1 = db_outboxes db ∧ db_actions r.1 = db_actions db ∧
  db_events r.1 = db_events db ∧ db_source_sequences r.1 = db_source_sequences db.
Proof.
  unfold append_list_context_journal_in_session, append_context_journal_in_session.
  case_bool_decide; cbn; [|done]. by intros [= <-].
Qed.

(** The first enqueue: what it checked, and the row it added. *)
Lemma enqueue_first now dbnow db db1 row :
  enqueue_command env now dbnow db args = Ok (db1, row) →
  (prior_head db args = None ∨
   ∃ head, prior_head db args = Some head ∧
     ¬ (ob_idempotency_key head = dc_idempotency_key (eq_command args) ∧
        ob_command_payload_sha256 head =
          de_payload_sha256 env (command_dump (eq_command args)))) →
  (∃ vs, guard_validate (redact_sensitive_text (de_sanitizer env)) (eq_command args)
           (enqueue_guard_context db args) = Ok vs) ∧
  db_events db !! eq_event_id args ≠ None ∧
  ∃ command n, row = new_outbox env args command n dbnow ∧
    (prior_head db args = None ∧ command = eq_command args ∧
       inserted db db1 row (db_outboxes db) ∨
     ∃ head head', prior_head db args = Some head ∧
       _finalize_superseded_head head (dc_disposition_id (eq_command args)) now = Ok head' ∧
       command = command_superseding (eq_command args) (ob_disposition_id head') ∧
       inserted db db1 row (update_by ob_outbox_id head' (db_outboxes db))).
Proof.
  unfold enqueue_command. cbn zeta. rewrite bind_Ok. intros (vs & Hg & H) Hnew.
  apply raise_if_seq_Ok in H as [He H]. apply bool_decide_eq_false_1 in He.
  destruct (db_source_sequences db !! _) as [n|] eqn:Hn; [|done].
  change (prior_head (db_with_outboxes _ _ db) args) with (prior_head db args) in H.
  split_and!; [eauto|done|].
  destruct (prior_head db args) as [head|] eqn:Hh.
  - destruct Hnew as [?|(h & [= <-] & Hdiff)]; [done|].
    destruct (_ && _) eqn:Hb; [destruct Hdiff; by bool_props|].
    apply bind_Ok in H as (head' & Hf & H). apply bind_Ok in H as (db2 & Hi & H).
    apply bind_Ok in H as (j & Hj & [= <- <-]). apply insert_outbox_spec in Hi as [-> _].
    apply journal_frame in Hj as (H1 & H2 & H3 & H4).
    do 2 eexists. split; [done|]. right. exists head, head'. split_and!; [done..|].
    split; [exact H1|exact H2|exact H3|]. rewrite H4. cbn. rewrite lookup_insert_eq. eauto.
  - apply bind_Ok in H as (db2 & Hi & H).
    apply bind_Ok in H as (j & Hj & [= <- <-]). apply insert_outbox_spec in Hi as [-> _].
    apply journal_frame in Hj as (H1 & H2 & H3 & H4).
    do 2 eexists. split; [done|]. left. split_and!; [done..|].
    split; [exact H1|exact H2|exact H3|]. rewrite H4. cbn. rewrite lookup_insert_eq. eauto.
Qed.

(** The same request reaches its own row. *)
Lemma replay_request now dbnow db db1 row rows head :
  (∃ vs, guard_validate (redact_sensitive_text (de_sanitizer env)) (eq_command args)
           (enqueue_guard_context db args) = Ok vs) →
  db_events db !! eq_event_id args ≠ None → inserted db db1 row rows →
  prior_head db1 args = Some head →
  ∃ n db2, db_outboxes db2 = db_outboxes db1 ∧ db_source_sequences db1 !! eq_source_record_id args = Some n ∧
    db_source_sequences db2 !! eq_source_record_id args = Some (n + 1)%Z ∧
    db_journal db2 = db_journal db1 ∧ db_receipts db2 = db_receipts db1 ∧
  enqueue_command env now dbnow db1 args' =
    if (ob_idempotency_key head ==? dc_idempotency_key (eq_command args))
       && (ob_command_payload_sha256 head ==?
             de_payload_sha256 env (command_dump (eq_command args)))
    then Ok (db2, head)
    else
      head' ← _finalize_superseded_head head (dc_disposition_id (eq_command args)) now;
      let command := command_superseding (eq_command args) (ob_disposition_id head') in
      let new := new_outbox env args' command (n + 1) dbnow in
      db ← insert_outbox (put_outbox head' db2) new;
      journal ← append_list_context_journal_in_session db (eq_event_id args)
                  "disposition_commands" (VDict (command_dump command));
      Ok (journal.1, new).
Proof.
  destruct Hsame as [Hc He Hs Hl Ht Ha]. intros [vs Hg] Hev [Ho Hact Hevs [n Hn]] Hh.
  exists n, (db_with_outboxes (db_outboxes db1)
    (<[eq_source_record_id args := (n + 1)%Z]> (db_source_sequences db1)) db1).
  split_and!; [done|done|by cbn; rewrite lookup_insert_eq|done|done|].
  assert (enqueue_guard_context db1 args' = enqueue_guard_context db args) as Hctx.
  { unfold enqueue_guard_context, resolve_approved_action_ids. by rewrite Hc, He, Ht, Ha, Hact. }
  unfold enqueue_command. cbn zeta. rewrite Hctx, Hc, Hg, He, Hs, Hn, Hevs. cbn [mbind result_bind].
  rewrite (bool_decide_eq_false_2 _ Hev). cbn [raise_if mbind result_bind].
  match goal with |- context [prior_head ?d args'] =>
    replace (prior_head d args') with (Some head) end; [done|].
  unfold prior_head in *. cbn [db_outboxes db_with_outboxes]. by rewrite Hc, He, Hl.
Qed.
End replay.

Lemma new_outbox_active env args command n t :
  dc_intent_kind command = dc_intent_kind (eq_command args) →
  dc_closure_cycle command = dc_closure_cycle (eq_command args) →
  active_head_row (eq_event_id args) (dc_closure_cycle (eq_command args))
    (enum_value (dc_intent_kind (eq_command args))) (eq_logical_slot args)
    (new_outbox env args command n t) = true.
Proof.
  intros Hk Hc. unfold active_head_row. cbn. rewrite Hk, Hc.
  by rewrite !andb_true_iff, !bool_decide_eq_true.
Qed.

Lemma prior_head_None db args :
  dc_intent_kind (eq_command args) = DispositionIntentKind.EVENT_STATUS_UPDATE →
  prior_head db args = List.find (active_head_row (eq_event_id args)
    (dc_closure_cycle (eq_command args)) (enum_value (dc_intent_kind (eq_command args)))
    (eq_logical_slot args)) (db_outboxes db).
Proof. intros Hk. unfold prior_head. by rewrite (bool_decide_eq_true_2 (_ = _)). Qed.

(** Enqueueing is idempotent on a first head: once a status update was enqueued in a slot
    with no active head, repeating the request, with whatever fresh identifiers, returns the same
    row and adds no outbox row, receipt or journal entry; it only consumes a source sequence
    number. *)
Theorem enqueue_replay_returns_head (env : DeliveryEnv) (args args' : EnqueueArgs)
    (now dbnow now' dbnow' : Z) (db db1 : Db) (row : OutboxRow) :
  same_request args args' →
  dc_intent_kind (eq_command args) = DispositionIntentKind.EVENT_STATUS_UPDATE →
  prior_head db args = None →
  enqueue_command env now dbnow db args = Ok (db1, row) →
  ∃ db2 n, enqueue_command env now' dbnow' db1 args' = Ok (db2, row) ∧
    db_outboxes db2 = db_outboxes db1 ∧ db_receipts db2 = db_receipts db1 ∧
    db_journal db2 = db_journal db1 ∧
    db_source_sequences db1 !! eq_source_record_id args = Some n ∧
    db_source_sequences db2 !! eq_source_record_id args = Some (n + 1)%Z.
Proof.
  intros Hsame Hk Hnone H.
  apply (enqueue_first env args) in H as (Hg & Hev & c & n & Hrow & Hcase); [|by left].
  destruct Hcase as [(_ & -> & Hin)|(h & h' & Hh & _)]; [|congruence].
  assert (prior_head db1 args = Some row) as Hprior.
  { rewrite prior_head_None in * by done. rewrite (in_outboxes _ _ _ _ _ Hin).
    rewrite list_find_app by done. cbn. by rewrite Hrow, new_outbox_active. }
  destruct (replay_request env args args' Hsame now' dbnow' _ _ _ _ _ Hg Hev Hin Hprior)
    as (m & db2 & Ho & Hm1 & Hm2 & Hj & Hr & Heq).
  exists db2, m. split_and!; try done.
  rewrite Heq, Hrow. cbn. by rewrite !bool_decide_eq_true_2.
Qed.

Lemma finalize_new env args c n t d now :
  ∃ o', _finalize_superseded_head (new_outbox env args c n t) d now = Ok o' ∧
    outbox_identity o' = outbox_identity (new_outbox env args c n t).
Proof. eexists. split; reflexivity. Qed.

Lemma insert_outbox_conflict db new o :
  o ∈ db_outboxes db → conflicts_with new o = true →
  insert_outbox db new = Err (builtin_error IntegrityError "unique constraint violated").
Proof.
  intros Ho Hc. unfold insert_outbox.
  assert (existsb (conflicts_with new) (db_outboxes db) = true) as ->; [|done].
  apply existsb_exists. exists o. by rewrite <-list_elem_of_In.
Qed.

(** The same guarantee does not hold for a head that superseded another: repeating the
    request compares the digest of the bare command with the stored digest of the command that
    names its predecessor, takes the head for a different one, retires it in favour of itself,
    and the insertion of the duplicate idempotency key fails. *)
Theorem superseding_replay_refused (env : DeliveryEnv) (args args' : EnqueueArgs)
    (now dbnow now' dbnow' : Z) (db db1 : Db) (head row : OutboxRow) :
  same_request args args' → single_head db →
  dc_intent_kind (eq_command args) = DispositionIntentKind.EVENT_STATUS_UPDATE →
  prior_head db args = Some head →
  ob_idempotency_key head ≠ dc_idempotency_key (eq_command args) →
  de_payload_sha256 env (command_dump (eq_command args)) ≠
    de_payload_sha256 env (command_dump
      (command_superseding (eq_command args) (ob_disposition_id head))) →
  enqueue_command env now dbnow db args = Ok (db1, row) →
  enqueue_command env now' dbnow' db1 args' = Err (builtin_error IntegrityError "unique constraint violated").
Proof.
  intros Hsame Hsingle Hk Hh Hkey Hsha H.
  apply (enqueue_first env args) in H as (Hg & Hev & c & n & Hrow & Hcase);
    [|right; exists head; split; [done|by intros []]].
  destruct Hcase as [(Hnone & _)|(h & h' & Hh' & Hf & Hc & Hin)]; [congruence|].
  rewrite Hh in Hh'. injection Hh' as <-.
  apply finalize_moves in Hf as Hm. destruct Hm as (Hid & Hsup & _).
  rewrite prior_head_None in Hh by done. apply List.find_some in Hh as [Hhin Hhact].
  apply list_elem_of_In in Hhin.
  assert (prior_head db1 args = Some row) as Hprior.
  { rewrite prior_head_None by done. rewrite (in_outboxes _ _ _ _ _ Hin), list_find_app.
    - cbn. by rewrite Hrow, new_outbox_active by (by rewrite Hc).
    - apply list_find_update; [unfold active_head_row; rewrite Hsup, !andb_false_iff; auto|].
      intros o Ho Hact. rewrite (identity_outbox_id _ _ Hid). f_equal. apply Hsingle; [done|done|].
      unfold active_head_row in *. bool_props. split_and!; congruence. }
  destruct (replay_request env args args' Hsame now' dbnow' _ _ _ _ _ Hg Hev Hin Hprior)
    as (m & db2 & Ho & _ & _ & _ & _ & Heq).
  assert (ob_command_payload_sha256 row ≠
          de_payload_sha256 env (command_dump (eq_command args))) as Hdiff.
  { rewrite Hrow, Hc, (identity_disposition_id _ _ Hid). by apply not_eq_sym. }
  assert (ob_idempotency_key row = dc_idempotency_key (eq_command args)) as Hrk
    by (by rewrite Hrow, Hc).
  destruct (finalize_new env args c n dbnow (dc_disposition_id (eq_command args)) now')
    as (r' & Hr' & Hi'). rewrite <-Hrow in Hr', Hi'. clear Hrow.
  rewrite Heq, (bool_decide_eq_false_2 _ Hdiff), andb_false_r, Hr'. cbn [mbind result_bind].
  rewrite (insert_outbox_conflict _ _ r'); [done|..].
  - rewrite put_outbox_outboxes, Ho, (in_outboxes _ _ _ _ _ Hin). apply list_elem_of_fmap.
    exists row. rewrite bool_decide_eq_true_2 by (by rewrite (identity_outbox_id _ _ Hi')).
    split; [done|]. apply elem_of_app. right. by apply list_elem_of_singleton.
  - unfold conflicts_with. apply orb_true_intro; left. apply orb_true_intro; left.
    apply orb_true_intro; right. apply bool_decide_eq_true.
    by rewrite (identity_idempotency_key _ _ Hi').
Qed.

(** ** Submissions without a trace *)

(** The readback adds nothing: it is not supported, or it does not answer. *)
Definition readback_silent (c : DispositionCommand) (ad : BaseDispositionAdapter) : Prop :=
  supports_readback_confirmation (ad_capabilities ad) = false ∨
  ∀ conf, ad_confirm_readback ad c ≠ Ok (Some conf).

Lemma readback_silent_receipt env db o c ad r :
  readback_silent c ad → readback_receipt env db o c ad r = (db, r).
Proof.
  unfold readback_receipt. intros [->|Hn]; [by rewrite andb_false_r|].
  destruct (_ && _); [|done]. destruct (ad_confirm_readback ad c) as [[conf|]|]; [|done..].
  by destruct (Hn conf).
Qed.

Lemma pause_unleased o now code detail s :
  ob_delivery_status o = enum_value s →
  s = OutboxDeliveryStatus.READY ∨ s = OutboxDeliveryStatus.WAITING_RETRY →
  ∃ e, _pause_outbox_after_unknown_submission o now code detail = Err e.
Proof.
  intros Hs Hor. unfold _pause_outbox_after_unknown_submission.
  rewrite (proj2 (enum_of_value_or_raise_Ok _ s) Hs). cbn [mbind result_bind].
  assert (∃ e, validate_outbox_delivery_transition s OutboxDeliveryStatus.PAUSED
    default_outbox_args = Err e) as [e ->] by (destruct Hor as [->| ->]; eexists; reflexivity).
  exists e. by destruct Hor as [->| ->].
Qed.

(** An unknown outcome cannot be recorded on a row that is not leased: READY and WAITING_RETRY
    have no edge to PAUSED. *)
Lemma unleased_unknown_fails env ck db o a c ad s owner receipt :
  egress_allowed env ck db o a s owner c → s ≠ OutboxDeliveryStatus.LEASED →
  readback_silent c ad → dr_status receipt = WritebackStatus.UNKNOWN →
  ∃ e, record_submission env ck db o a c ad receipt = Err e.
Proof.
  intros He Hs Hrb Hu. unfold record_submission.
  destruct (_append_receipt _ _ _ _) as [[db1 r1]|e] eqn:Ha; [|by eexists].
  apply append_receipt_spec in Ha as (_ & _ & Hst). rewrite Hu in Hst.
  cbn [mbind result_bind fst snd]. rewrite (readback_silent_receipt _ _ _ _ _ _ Hrb).
  rewrite Hst, bool_decide_eq_true_2 by done.
  destruct (pause_unleased (o |> set_latest_writeback_status WritebackStatus.UNKNOWN)
    (dk_delivered ck) "submission_unknown"
    "provider submission result unknown; lookup required before retry" s) as [e He'].
  - exact (eg_status _ _ _ _ _ _ _ _ He).
  - by destruct (eg_deliverable _ _ _ _ _ _ _ _ He) as [->|[->| ->]]; auto.
  - exists e. by rewrite He'.
Qed.

(** C40. A synchronous delivery whose provider answers UNKNOWN leaves no trace: the pause is
    refused because the row is READY or WAITING_RETRY, the transaction rolls back the receipt with
    it, and the row stays as deliverable as before, so that a second delivery submits the command
    again with no lookup in between. *)
Theorem unleased_unknown_submission_repeats (env : DeliveryEnv) (ck : DeliveryClock) (y : Sys)
    (id : string) (o : OutboxRow) (a : ActionRow) (c : DispositionCommand)
    (ad : BaseDispositionAdapter) (receipt : DispositionReceipt) :
  deliver_checks env ck (sy_db y) id = Ok (Send o a c ad) →
  ob_delivery_status o ≠ enum_value OutboxDeliveryStatus.LEASED →
  ad_submit ad c = Ok receipt → dr_status receipt = WritebackStatus.UNKNOWN →
  readback_silent c ad →
  exec_dsteps y [SDirect env ck id; SDirect env ck id] =
    MkSys (sy_db y) (sy_pending y) (sy_log y ++ [Sent id; Sent id]).
Proof.
  intros Hsend Hnl Hsub Hu Hrb.
  assert (∃ e, _deliver_outbox env ck (sy_db y) id = (Some c, Err e)) as [e Hd].
  { destruct (deliver_checks_send _ _ _ _ _ _ _ _ Hsend) as (s & owner & _ & _ & He).
    unfold _deliver_outbox. rewrite Hsend, Hsub. cbn [mbind result_bind].
    destruct (unleased_unknown_fails env ck _ o a c ad s owner receipt He) as [e Hr]; try done.
    - intros ->. by rewrite (eg_status _ _ _ _ _ _ _ _ He) in Hnl.
    - exists e. by rewrite Hr. }
  unfold exec_dsteps. cbn [foldl exec_dstep]. rewrite Hd. cbn [sy_db sy_pending sy_log].
  rewrite Hd. cbn. by rewrite <-app_assoc.
Qed.

(** The locator check of the delivery guard compares the command with itself: it cannot fail. *)
Lemma delivery_guard_ignores_locator redact c :
  guard_validate redact c (delivery_guard_context c) =
  guard_validate redact c {| gc_source_locator := None; gc_approved_action_ids := None |}.
Proof.
  unfold guard_validate, _evaluate, delivery_guard_context.
  cbn [gc_source_locator gc_approved_action_ids].
  assert (locator_differs (dc_source_locator c) (dc_source_locator c) = false) as ->; [|done].
  unfold locator_differs. by rewrite !bool_decide_eq_true_2.
Qed.
