(* ===== verification/ContextStore.v ===== *)
(** * The context store interface

    What the state machine and the degraded-flag service use of EventContextStore
    (backend/app/services/context_service.py): four operations on the world, and the laws the
    callers rely on.  [JournalStore] is an instance over the journal of [ContextJournal] that serves
    reads from the journal and takes the assembled snapshot as a parameter; it discharges the
    laws. *)

From stdpp Require Import prelude strings gmap.
From S2P Require Import Prelude Enums Errors Db ContextJournal.

#[local] Open Scope string_scope.

(** The database and the state of the store's cache. *)
Record World (St : Type) : Type := MkWorld { w_db : Db; w_store : St }.
Arguments MkWorld {St} _ _.
Arguments w_db {St} _.
Arguments w_store {St} _.

Definition on_db {St} (f : Db → Db) (w : World St) : World St := MkWorld (f (w_db w)) (w_store w).

(** ** What a projection leaves alone *)

(** The flush of changed flags stamps [updated_at] ([onupdate=func.now()]). *)
Definition with_flags (row : SecurityEventRow) (flags : list string) (dbnow : Z) :
    SecurityEventRow := {|
  se_event_id := se_event_id row; se_event_type := se_event_type row;
  se_source_type := se_source_type row; se_created_at := se_created_at row;
  se_status := se_status row; se_severity := se_severity row;
  se_final_verdict := se_final_verdict row;
  se_creation_source_ref := se_creation_source_ref row;
  se_source_reference_snapshots := se_source_reference_snapshots row;
  se_disposition_source_ref := se_disposition_source_ref row;
  se_disposition_policy := se_disposition_policy row; se_updated_at := dbnow;
  se_closed_at := se_closed_at row; se_replan_count := se_replan_count row;
  se_degraded_flags := flags; se_escalated := se_escalated row;
  se_external_unsynced := se_external_unsynced row;
  se_event_context_snapshot := se_event_context_snapshot row;
  se_row_version := se_row_version row
|}.

(** The authoritative part of an event row: all but the snapshot, the flags and the stamp of the
    last update. *)
Definition row_core (row : SecurityEventRow) : SecurityEventRow :=
  with_flags (with_snapshot row None 0) [] 0.

Record projection_frame (db db' : Db) : Prop := {
  pf_events : ∀ e, row_core <$> db_events db' !! e = row_core <$> db_events db !! e;
  pf_actions : db_actions db' = db_actions db;
  pf_jobs : db_jobs db' = db_jobs db;
  pf_outboxes : db_outboxes db' = db_outboxes db;
  pf_receipts : db_receipts db' = db_receipts db;
  pf_reports : db_reports db' = db_reports db;
  pf_approvals : db_approvals db' = db_approvals db;
  pf_audit : db_audit db' = db_audit db;
  pf_next : db_next_audit_id db' = db_next_audit_id db
}.

#[global] Instance projection_frame_preorder : PreOrder projection_frame.
Proof.
  split.
  - intros db. by split.
  - intros db1 db2 db3 [] []. split; congruence.
Qed.

(** ** The interface *)

Class ContextStore (St : Type) : Type := {
  (** What [func.now()] is in the next transaction. *)
  store_now : St → Z;
  store_get : World St → string → string → result pyval * World St;
  (** [Ok redis_ok], or the exception. *)
  store_set : World St → string → string → pyval → result bool * World St;
  store_refresh_closed_snapshot : World St → string → result unit * World St;
  store_set_closed_ttl : World St → string → result bool * World St;
  store_get_frame : ∀ w e k, projection_frame (w_db w) (w_db (store_get w e k).2);
  store_set_frame : ∀ w e k v, projection_frame (w_db w) (w_db (store_set w e k v).2);
  store_refresh_frame : ∀ w e,
    projection_frame (w_db w) (w_db (store_refresh_closed_snapshot w e).2);
  store_ttl_frame : ∀ w e, w_db (store_set_closed_ttl w e).2 = w_db w;
  (** A key that is no field of EventContext raises before anything is written. *)
  store_set_unknown : ∀ w e k v, k ∉ CONTEXT_FIELD_NAMES →
    store_set w e k v = (Err (unknown_field k), w)
}.

(** ** The journal store *)

(** The state of this instance is what it meets outside: Redis's answers to come, that is whether
    each next write succeeds, and the clock of the database, which passes with every write. *)
Record Redis : Type := { redis_answers : list bool; db_clock : Z }.

Definition redis_write (r : Redis) : bool * Redis :=
  match redis_answers r with
  | [] => (true, {| redis_answers := []; db_clock := (db_clock r + 1)%Z |})
  | ok :: l => (ok, {| redis_answers := l; db_clock := (db_clock r + 1)%Z |})
  end.

Section journal_store.
(** pydantic's validation of the rebuilt context, dumped to JSON. *)
Context (assemble : Db → string → result pyval).

(** Reading falls back on the journal, the authority a cached value is checked against. *)
Definition journal_get (w : World Redis) (e k : string) : result pyval * World Redis :=
  match get_versioned_field (w_db w) e k with
  | Err err => (Err err, w)
  | Ok (v, _) => (Ok v, w)
  end.

Definition journal_set (w : World Redis) (e k : string) (v : pyval) :
    result bool * World Redis :=
  match context_set (db_clock (w_store w)) (w_db w) e k v with
  | Err err => (Err err, w)
  | Ok (db', _) => let '(ok, r) := redis_write (w_store w) in (Ok ok, MkWorld db' r)
  end.

(** [refresh_closed_snapshot]: rebuild, store the snapshot, then refresh the cache; a failed cache
    write is not reported. *)
Definition journal_refresh (w : World Redis) (e : string) : result unit * World Redis :=
  match db_events (w_db w) !! e with
  | None => (Err (builtin_error KeyError ("security_event not found: " +++ e)), w)
  | Some row =>
      match assemble (w_db w) e with
      | Err err => (Err err, w)
      | Ok snapshot =>
          let '(_, r) := redis_write (w_store w) in
          (Ok tt, MkWorld (db_with_events
                     (<[e := with_snapshot row (Some snapshot) (db_clock (w_store w))]>
                        (db_events (w_db w)))
                     (w_db w)) r)
      end
  end.

Definition journal_ttl (w : World Redis) (e : string) : result bool * World Redis :=
  let '(ok, r) := redis_write (w_store w) in (Ok ok, MkWorld (w_db w) r).

Lemma with_snapshot_core row s now : row_core (with_snapshot row s now) = row_core row.
Proof. done. Qed.

Lemma put_row_frame db db1 e row row' :
  projection_frame db db1 → db_events db1 !! e = Some row → row_core row' = row_core row →
  projection_frame db (db_with_events (<[e := row']> (db_events db1)) db1).
Proof.
  intros [] He Hc. split; try done. intros e'. cbn. destruct (decide (e = e')) as [<-|].
  - rewrite lookup_insert_eq, <-pf_events0, He. cbn. by rewrite Hc.
  - by rewrite lookup_insert_ne.
Qed.

Lemma set_complete_frame now db e b expected db' eff ver :
  _set_analysis_only_complete now db e b expected = Ok (Some (db', eff, ver)) →
  projection_frame db db'.
Proof.
  unfold _set_analysis_only_complete. destruct (db_events db !! e) as [row|] eqn:Er; [|done].
  destruct (match expected with Some _ => _ | None => _ end); [done|].
  destruct (negb (equals_bool _ _)); intros [= <- _ _];
    (split; try done; intros e'; cbn; destruct (decide (e = e')) as [<-|];
     [by rewrite lookup_insert_eq, Er|by rewrite lookup_insert_ne]).
Qed.

Lemma context_set_frame now db e k v db' ver :
  context_set now db e k v = Ok (db', ver) → projection_frame db db'.
Proof.
  unfold context_set. case_bool_decide; cbn [negb]; [|done].
  case_bool_decide.
  - destruct v as [|b| | | |]; try done.
    destruct (_set_analysis_only_complete now db e b None) as [[[[db1 eff] ver']|]|] eqn:E; try done.
    intros [= <- _]. by eapply set_complete_frame.
  - intros [= <- _]. by split.
Qed.

#[global] Program Instance JournalStore : ContextStore Redis := {|
  store_now := db_clock;
  store_get := journal_get;
  store_set := journal_set;
  store_refresh_closed_snapshot := journal_refresh;
  store_set_closed_ttl := journal_ttl
|}.
Next Obligation. intros w e k. unfold journal_get. by repeat case_match. Qed.
Next Obligation.
  intros w e k v. unfold journal_set.
  destruct (context_set (db_clock (w_store w)) (w_db w) e k v) as [[db' ver]|err] eqn:E; [|done].
  destruct (redis_write (w_store w)). by eapply context_set_frame.
Qed.
Next Obligation.
  intros w e. unfold journal_refresh.
  destruct (db_events (w_db w) !! e) as [row|] eqn:Er; [|done].
  destruct (assemble (w_db w) e); [|done]. destruct (redis_write (w_store w)).
  eapply put_row_frame; [done|exact Er|apply with_snapshot_core].
Qed.
Next Obligation. intros w e. unfold journal_ttl. by destruct (redis_write (w_store w)). Qed.
Next Obligation.
  intros w e k v Hk. unfold journal_set, context_set. by rewrite bool_decide_eq_false_2.
Qed.
End journal_store.
