(* ===== verification/DegradedFlags.v ===== *)
(** * Degraded flags (backend/app/services/degraded_flag_service.py)

    The sole writer of [security_event.degraded_flags], against the context store interface. *)

From stdpp Require Import prelude strings gmap sorting.
From S2P Require Import Prelude Enums Errors Db ContextJournal ContextStore.

From Stdlib Require Import Ascii.
#[local] Open Scope string_scope.

Definition DEGRADED_FLAG_ALLOWLIST : list string :=
  ["redis_context_unavailable"; "disposition_writeback_blocked";
   "missing_response_plan_for_required_policy"; "disposition_activation_failed";
   "verify_degraded"; "execution_failed_unverified"; "memory_review_enqueue_failed";
   "memory_governance_maintenance_failed"; "memory_after_analysis_failed";
   "memory_after_close_failed"; "decision_audit_degraded";
   "auto_investigate_dispatch_unavailable"; "auto_response_dispatch_unavailable";
   "graph_resume_dispatch_unavailable"; "output_quality_evaluator_unavailable";
   "graph_resume_failed"; "event_type_from_heuristic"; "event_type_from_llm_fallback";
   "event_type_orm_rewrite_skipped"; "event_type_orm_rewrite_failed";
   "triage_risk_inconsistency"; "report_generation_failed";
   "event_context_snapshot_merge_failed"; "celery_redelivery_recovery_needed";
   "state_transition_projection_degraded"; "plan_step_not_executable";
   "saga_compensation_incomplete"; "react_fill_degraded"].

Definition DEGRADED_FLAG_TRUSTED_CALLERS : list string :=
  ["WorkingMemory"; "EventService"; "StateMachineService"; "DegradedFlagService";
   "AnalysisOnlyPipeline"; "SuperAgent"; "InvestigationGraph"; "MemoryAgent";
   "AgentTraceService"; "DecisionRecordService"; "InvestigationIntentService";
   "EventContextStore"; "GraphResumeService"; "ManualResolutionService"; "TriageAgent";
   "RiskAgent"; "ReportAgent"; "CeleryRedeliveryService"; "OutputQualityEvaluator"].

(** [sorted(...)] as a payload *)
Definition sorted_names (l : list string) : pyval := VList (VStr <$> merge_sort string_le l).

(** ** Flag lists *)

(** Return the list entry to upsert, or None to clear the flag. *)
Definition format_degraded_flag (flag_name : string) (value : pyval) : option string :=
  match value with
  | VBool false | VNone => None
  | VBool true => Some (flag_name +++ "=true")
  | _ => Some (flag_name +++ "=" +++ py_str value)
  end.

Definition flag_named (flag_name f : string) : bool :=
  (f ==? flag_name) || startswith f (flag_name +++ "=").

(** Return a new list with [flag_name] set/cleared; other flags preserved. *)
Definition apply_flag_to_list (flags : list string) (flag_name : string) (value : pyval) :
    list string :=
  let remaining := List.filter (λ f, negb (flag_named flag_name f)) flags in
  match format_degraded_flag flag_name value with
  | Some entry => (remaining ++ [entry])%list
  | None => remaining
  end.

(** The scan of [get_flag_value]. *)
Fixpoint flag_value (flags : list string) (flag_name : string) : option string :=
  match flags with
  | [] => None
  | text :: flags' =>
      if text ==? flag_name then Some "true"
      else if startswith text (flag_name +++ "=")
      then Some (str_drop (String.length (flag_name +++ "=")) text)
      else flag_value flags' flag_name
  end.

(** ** The service *)

Section service.
Context {St : Type} `{ContextStore St}.

Definition untrusted_caller (event_id flag_name writer : string) : error :=
  ShadowTraceError_init GuardrailViolationError
    ("untrusted degraded_flags caller: '" +++ writer +++ "'")
    (Some "working_memory_unauthorized_write")
    [("event_id", VStr event_id); ("flag_name", VStr flag_name); ("writer", VStr writer);
     ("trusted", sorted_names DEGRADED_FLAG_TRUSTED_CALLERS)].

Definition not_in_allowlist (flag_name : string) : error :=
  ShadowTraceError_init ValidationError
    ("degraded flag not in allowlist: '" +++ flag_name +++ "'") (Some "validation_error")
    [("flag_name", VStr flag_name); ("allowlist", sorted_names DEGRADED_FLAG_ALLOWLIST)].

Definition flag_event_missing (event_id : string) : error :=
  ShadowTraceError_init ValidationError ("security_event not found: " +++ event_id)
    (Some "event_not_found") [("event_id", VStr event_id)].

(** [DegradedFlagService.set_flag]: PostgreSQL first, then the context mirror, whose exceptions
    escape after the commit. *)
Definition set_flag (w : World St) (event_id flag_name : string) (value : pyval)
    (writer : string) : result (list string) * World St :=
  if negb (writer ∈? DEGRADED_FLAG_TRUSTED_CALLERS)
  then (Err (untrusted_caller event_id flag_name writer), w)
  else if negb (flag_name ∈? DEGRADED_FLAG_ALLOWLIST)
  then (Err (not_in_allowlist flag_name), w)
  else match db_events (w_db w) !! event_id with
       | None => (Err (flag_event_missing event_id), w)
       | Some se =>
           let current := se_degraded_flags se in
           let updated := apply_flag_to_list current flag_name value in
           if updated ==? current then (Ok updated, w)
           else
             let w1 := on_db (λ db, db_with_events
                         (<[event_id := with_flags se updated (store_now (w_store w))]>
                            (db_events db)) db) w in
             match store_set w1 event_id "degraded_flags" (VList (VStr <$> updated)) with
             | (Err e, w2) => (Err e, w2)
             | (Ok _, w2) => (Ok updated, w2)
             end
       end.

Definition get_flag_value (w : World St) (event_id flag_name : string) : option string :=
  match db_events (w_db w) !! event_id with
  | None => None
  | Some se => flag_value (se_degraded_flags se) flag_name
  end.

Definition has_flag (w : World St) (event_id flag_name : string) : bool :=
  bool_decide (is_Some (get_flag_value w event_id flag_name)).
End service.

(** ** Flag lists behave like a map *)

(** Flag names hold no equals sign. *)
Definition plain_name (n : string) : bool := negb (str_contains "=" n).

Lemma plain_name_cons c n :
  plain_name (String c n) = true ↔ c ≠ "="%char ∧ plain_name n = true.
Proof.
  unfold plain_name. rewrite !negb_true_iff. cbn [str_contains].
  rewrite orb_false_iff. cbn [String.prefix].
  destruct (Ascii.ascii_dec "=" c) as [<-|Hc].
  - split; [by intros [H _]; destruct n|naive_solver].
  - naive_solver.
Qed.

Lemma entry_nil v : "" +++ "=" +++ v = String "=" v.
Proof. done. Qed.

(** An entry of one plain name is an entry of no other. *)
Lemma entry_name_unique n n' v t :
  plain_name n = true → plain_name n' = true →
  n +++ "=" +++ v = n' +++ "=" +++ t → n = n' ∧ v = t.
Proof.
  revert n'. induction n as [|c n IH]; intros [|c' n']; rewrite ?entry_nil, ?string_app_cons.
  - intros _ _ [= ->]. done.
  - intros _ [Hc _]%plain_name_cons [= <- _]. done.
  - intros [Hc _]%plain_name_cons _ [= -> _]. done.
  - intros [_ Hn]%plain_name_cons [_ Hn']%plain_name_cons [= -> E].
    by destruct (IH n' Hn Hn' E) as [-> ->].
Qed.

Lemma plain_not_entry n n' v : plain_name n' = true → n +++ "=" +++ v ≠ n'.
Proof.
  revert n'. induction n as [|c n IH]; intros [|c' n']; rewrite ?entry_nil, ?string_app_cons;
    try done.
  - intros [Hc _]%plain_name_cons [= <- _]. done.
  - intros [_ Hn]%plain_name_cons [= _ E]. by eapply IH.
Qed.

Lemma flag_named_entry n n' v :
  plain_name n = true → plain_name n' = true →
  flag_named n' (n +++ "=" +++ v) = true ↔ n' = n.
Proof.
  intros Hn Hn'. unfold flag_named. rewrite orb_true_iff, bool_decide_eq_true.
  rewrite startswith_true. split.
  - intros [E|[t E]]; [by apply plain_not_entry in E|].
    rewrite string_app_assoc in E. by apply entry_name_unique in E as [-> _].
  - intros ->. right. exists v. by rewrite string_app_assoc.
Qed.

Lemma flag_value_None flags n :
  flag_value flags n = None ↔ ∀ f, f ∈ flags → flag_named n f = false.
Proof.
  induction flags as [|f flags IH]; cbn; [set_solver|].
  unfold flag_named at 1. case_bool_decide as E; cbn.
  - split; [done|]. intros Hall. specialize (Hall f ltac:(set_solver)).
    unfold flag_named in Hall. by rewrite bool_decide_eq_true_2 in Hall.
  - destruct (startswith f (n +++ "=")) eqn:Es; cbn.
    + split; [done|]. intros Hall. specialize (Hall f ltac:(set_solver)).
      unfold flag_named in Hall. by rewrite Es, orb_true_r in Hall.
    + rewrite IH. split; [|set_solver]. intros Hall f' [->|Hf]%elem_of_cons; [|by apply Hall].
      unfold flag_named. by rewrite bool_decide_eq_false_2, Es.
Qed.

Lemma flag_value_app l l' n :
  flag_value (l ++ l')%list n =
  match flag_value l n with Some v => Some v | None => flag_value l' n end.
Proof. induction l as [|f l IH]; cbn; [done|]. by repeat case_match. Qed.

(** Dropping the entries of another name does not matter. *)
Lemma flag_value_filter flags p n :
  (∀ f, f ∈ flags → flag_named n f = true → p f = true) →
  flag_value (List.filter p flags) n = flag_value flags n.
Proof.
  induction flags as [|f flags IH]; intros Hp; [done|]. cbn [List.filter flag_value].
  assert (Hrec : flag_value (List.filter p flags) n = flag_value flags n)
    by (apply IH; intros; apply Hp; set_solver).
  destruct (p f) eqn:Ep; cbn [flag_value]; [by rewrite Hrec|].
  assert (flag_named n f = false) as Hn.
  { destruct (flag_named n f) eqn:E; [|done]. rewrite Hp in Ep by set_solver. done. }
  unfold flag_named in Hn. apply orb_false_iff in Hn as [-> ->]. done.
Qed.

Lemma flag_value_entry n v : plain_name n = true → flag_value [n +++ "=" +++ v] n = Some v.
Proof.
  intros Hn. cbn [flag_value].
  rewrite bool_decide_eq_false_2 by (by apply plain_not_entry).
  rewrite <-string_app_assoc, prefix_app. by rewrite str_drop_app.
Qed.

(** The text a set flag reads back as. *)
Definition flag_text (value : pyval) : option string :=
  match value with
  | VBool false | VNone => None
  | VBool true => Some "true"
  | _ => Some (py_str value)
  end.

Lemma format_flag_text n v :
  format_degraded_flag n v = (λ t, n +++ "=" +++ t) <$> flag_text v.
Proof. by destruct v as [|[]| | | |]. Qed.

Lemma flag_value_apply_same flags n v :
  plain_name n = true → flag_value (apply_flag_to_list flags n v) n = flag_text v.
Proof.
  intros Hn. unfold apply_flag_to_list. rewrite format_flag_text.
  assert (Hrem : flag_value (List.filter (λ f, negb (flag_named n f)) flags) n = None).
  { apply flag_value_None. intros f [_ Hf]%in_where. by apply negb_true_iff. }
  destruct (flag_text v) as [t|]; cbn [fmap option_fmap option_map]; [|done].
  rewrite flag_value_app, Hrem. by apply flag_value_entry.
Qed.

(** Every entry of [flags] is well formed for the name [n']: a bare name or [name=value]. *)
Lemma flag_value_apply_other flags n n' v :
  plain_name n = true → plain_name n' = true → n' ≠ n →
  (∀ f, f ∈ flags → flag_named n f = true → flag_named n' f = false) →
  flag_value (apply_flag_to_list flags n v) n' = flag_value flags n'.
Proof.
  intros Hn Hn' Hne Hsep. unfold apply_flag_to_list. rewrite format_flag_text.
  assert (Hrem : flag_value (List.filter (λ f, negb (flag_named n f)) flags) n'
                 = flag_value flags n').
  { apply flag_value_filter. intros f Hf Hf'. apply negb_true_iff.
    destruct (flag_named n f) eqn:E; [|done]. by rewrite Hsep in Hf'. }
  destruct (flag_text v) as [t|]; cbn [fmap option_fmap option_map]; [|done].
  rewrite flag_value_app, Hrem. destruct (flag_value flags n'); [done|].
  apply flag_value_None. intros f ->%list_elem_of_singleton.
  destruct (flag_named n' (n +++ "=" +++ t)) eqn:E; [|done].
  by apply flag_named_entry in E.
Qed.

Lemma flag_named_plain n n' f :
  plain_name n = true → plain_name n' = true → n ≠ n' →
  flag_named n f = true → flag_named n' f = false.
Proof.
  intros Hn Hn' Hne Hf. destruct (flag_named n' f) eqn:Hf'; [|done]. destruct Hne.
  unfold flag_named in *. rewrite orb_true_iff, bool_decide_eq_true, startswith_true in Hf, Hf'.
  destruct Hf as [->|[t ->]], Hf' as [E|[t' E]]; rewrite ?string_app_assoc in E.
  - done.
  - symmetry in E. by apply plain_not_entry in E.
  - by apply plain_not_entry in E.
  - by apply entry_name_unique in E as [-> _].
Qed.

(** The flag list is a map: setting a plain-named flag makes exactly that value readable (or
    clears it), setting it again changes nothing, and every other plain-named flag reads as
    before. *)
Theorem flag_list_is_a_map (flags : list string) (n n' : string) (v : pyval) :
  plain_name n = true → plain_name n' = true →
  flag_value (apply_flag_to_list flags n v) n = flag_text v ∧
  apply_flag_to_list (apply_flag_to_list flags n v) n v = apply_flag_to_list flags n v ∧
  (n' ≠ n → flag_value (apply_flag_to_list flags n v) n' = flag_value flags n').
Proof.
  intros Hn Hn'. split_and!.
  - by apply flag_value_apply_same.
  - unfold apply_flag_to_list. rewrite format_flag_text.
    set (keep := λ f, negb (flag_named n f)).
    assert (Hf : List.filter keep (List.filter keep flags) = List.filter keep flags).
    { induction flags as [|f l IH]; [done|]. cbn. destruct (keep f) eqn:E; cbn; [|done].
      by rewrite E, IH. }
    destruct (flag_text v) as [t|]; cbn [fmap option_fmap option_map]; [|done].
    rewrite List.filter_app, Hf. cbn. unfold keep at 2.
    rewrite (proj2 (flag_named_entry n n t Hn Hn)) by done. cbn. by rewrite app_nil_r.
  - intros Hne. apply flag_value_apply_other; [done..|].
    intros f _ Hf. eapply (flag_named_plain n n'); [done..|by apply not_eq_sym|done].
Qed.

(** Every flag name of the allowlist is plain, so the map law covers all of them. *)
Theorem allowlist_names_plain (n : string) :
  n ∈ DEGRADED_FLAG_ALLOWLIST → plain_name n = true.
Proof.
  assert (forallb plain_name DEGRADED_FLAG_ALLOWLIST = true) as Hall by by vm_compute.
  rewrite forallb_forall in Hall. intros Hn. by apply Hall, list_elem_of_In.
Qed.
