(* ===== verification/StateMachine.v ===== *)
(** * The state machine service (backend/app/services/state_machine_service.py)

    The sole write path of [security_event.status]: the authoritative transition context, the
    transaction of [transition] and [force_close], the audit entry
    (backend/app/services/event_audit_log_service.py), and the post-commit projection with its
    repair.  A transaction returns the new database or raises and leaves the database alone;
    what happens after the commit never raises. *)

From stdpp Require Import prelude strings gmap pretty sorting.
From S2P Require Import Prelude Enums Errors Tables Convergence Workflow Db Verification.
From S2P Require Import CloseGate SideEffects Reconcile ContextJournal ContextStore DegradedFlags.

#[local] Open Scope string_scope.

(** ** Environment

    Settings, optional collaborators, and the library code the service calls. *)

(** [DispositionCommand.model_validate(payload)]: the intent, and the target of
    [SetEventDispositionParams] parameters. *)
Record ParsedCommand : Type := {
  pc_intent_kind : DispositionIntentKind;
  pc_set_disposition : option SourceDisposition
}.

Record Env : Type := {
  env_has_audit : bool;
  env_has_degraded : bool;
  env_disposition_mode : string;
  env_reconcile : ReconcileSettings;
  env_locked : string → bool;
  (** [redact_sensitive_text] *)
  env_redact : string → string;
  env_isoformat : Z → string;
  (** pydantic's validation of the payload models *)
  env_parse_verification : pyval → option VerificationResult;
  env_parse_command : list (string * pyval) → option ParsedCommand;
  env_source_ref_valid : pyval → bool;
  env_locator_valid : pyval → bool;
  (** [event_summary_from_security_event], as JSON *)
  env_event_summary : SecurityEventRow → result pyval
}.

(** The clock readings of one call, in the order they are taken. *)
Record Clock : Type := {
  ck_reconcile : Z;
  ck_updated : Z;
  ck_closed : Z;
  ck_audit : Z;
  ck_history : Z
}.

Definition _STATE_MACHINE_OPERATOR : string := "StateMachineService".
Definition TERMINAL_DISPOSITION_TOOL : string := "update_source_event_disposition".
Definition STATE_TRANSITION_PROJECTION_DEGRADED_FLAG : string :=
  "state_transition_projection_degraded".
Definition REDIS_CONTEXT_PROJECTION_STEPS : list string :=
  ["summary"; "history"; "snapshot"; "closed_ttl"].
Definition _PROJECTION_REPAIR_MAX_ATTEMPTS : Z := 3.

(** ** The domain event *)

Record SecurityEvent : Type := {
  dom_event_id : string;
  dom_event_type : EventType;
  dom_status : EventStatus;
  dom_severity : Severity;
  dom_final_verdict : FinalVerdict;
  dom_disposition_policy : DispositionPolicy;
  dom_updated_at : Z;
  dom_closed_at : option Z;
  dom_replan_count : Z;
  dom_degraded_flags : list string;
  dom_escalated : bool;
  dom_external_unsynced : bool;
  dom_row_version : Z
}.

(** [if row.disposition_source_ref] *)
Definition truthy_json (o : option pyval) : bool :=
  match o with
  | None | Some VNone | Some (VBool false) | Some (VList []) | Some (VDict []) => false
  | Some (VInt z) => z !=? 0%Z
  | Some (VStr s) => s !=? ""
  | Some _ => true
  end.

(** [_security_event_from_row] (backend/app/services/event_service.py); the pass-through columns
    are left out. *)
Definition _security_event_from_row (env : Env) (row : SecurityEventRow) :
    result SecurityEvent :=
  let invalid_ref := ShadowTraceError_init ValidationError
    "security event source reference is not valid" None
    [("event_id", VStr (se_event_id row))] in
  raise_if (negb (env_source_ref_valid env (se_creation_source_ref row)
                  && forallb (env_source_ref_valid env) (se_source_reference_snapshots row)
                  && (negb (truthy_json (se_disposition_source_ref row))
                      || env_locator_valid env (default VNone (se_disposition_source_ref row)))))
    invalid_ref ;;
  event_type ← enum_of_value_or_raise (se_event_type row);
  status ← enum_of_value_or_raise (se_status row);
  severity ← enum_of_value_or_raise (se_severity row);
  verdict ← enum_of_value_or_raise (se_final_verdict row);
  policy ← enum_of_value_or_raise (se_disposition_policy row);
  Ok {| dom_event_id := se_event_id row; dom_event_type := event_type; dom_status := status;
        dom_severity := severity; dom_final_verdict := verdict;
        dom_disposition_policy := policy; dom_updated_at := se_updated_at row;
        dom_closed_at := se_closed_at row; dom_replan_count := se_replan_count row;
        dom_degraded_flags := se_degraded_flags row; dom_escalated := se_escalated row;
        dom_external_unsynced := se_external_unsynced row;
        dom_row_version := int_or (se_row_version row) 1 |}.

(** ** The authoritative transition context *)

Definition current_plan_revision (db : Db) (event_id : string) : option Z :=
  max_of act_plan_revision (List.filter (λ a, act_event_id a ==? event_id) (db_actions db)).

(** [journal_value is True], past the scalar wrapper. *)
Definition read_disposition_only_intent (db : Db) (event_id : string) : bool :=
  match latest_journal_value db event_id "disposition_only_intent" with
  | Some v => match unwrap_journal_value v with VBool true => true | _ => false end
  | None => false
  end.

Definition current_response_action (event_id : string) (rev : Z) (a : ActionRow) : bool :=
  (act_event_id a ==? event_id) && (act_plan_revision a ==? rev)
  && (act_action_category a ==? enum_value ActionCategory.RESPONSE)
  && (act_superseded_by_revision a ==? None).

Definition current_response_actions (db : Db) (event_id : string) (rev : option Z) :
    list ActionRow :=
  match rev with
  | None => []
  | Some r => List.filter (current_response_action event_id r) (db_actions db)
  end.

Definition is_disposition_tool (a : ActionRow) : bool :=
  act_tool_name a ==? TERMINAL_DISPOSITION_TOOL.

Definition _check_report_exists (db : Db) (event_id : string) : bool :=
  existsb (λ r, rp_event_id r ==? event_id) (db_reports db).

(** The EVENT_STATUS_UPDATE target of a stored command (ISSUE-184). *)
Definition _actual_disposition_from_command_payload (env : Env)
    (payload : list (string * pyval)) : option SourceDisposition :=
  match payload with
  | [] => None
  | _ =>
      match env_parse_command env payload with
      | None =>
          match dict_get payload "operation_params" with
          | Some (VDict op_params) =>
              match dict_get op_params "target_disposition" with
              | None | Some VNone => None
              | Some raw => enum_of_value (py_str raw)
              end
          | _ => None
          end
      | Some command =>
          if pc_intent_kind command !=? DispositionIntentKind.EVENT_STATUS_UPDATE then None
          else pc_set_disposition command
      end
  end.

Definition deferred_terminal_action (event_id : string) (rev : Z) (a : ActionRow) : bool :=
  (act_event_id a ==? event_id) && (act_plan_revision a ==? rev) && is_disposition_tool a
  && (act_execution_phase a ==? enum_value ActionExecutionPhase.POST_VERIFY)
  && (act_superseded_by_revision a ==? None).

Definition terminal_outbox_of (action_id : string) (o : OutboxRow) : bool :=
  (ob_action_id o ==? action_id)
  && (ob_intent_kind o ==? enum_value DispositionIntentKind.EVENT_STATUS_UPDATE)
  && (ob_superseded_by_disposition_id o ==? None).

(** [SourceDisposition(str(approved_list[0]))], PENDING when absent or unreadable. *)
Definition approved_disposition_of (a : ActionRow) : SourceDisposition :=
  match act_approved_terminal_dispositions a with
  | [] => SourceDisposition.PENDING
  | raw :: _ => enum_or (py_str raw) SourceDisposition.PENDING
  end.

(** The view from the deferred Action, its outbox row and the latest receipt. *)
Definition terminal_view (env : Env) (db : Db) (rev : Z) (a : ActionRow) (o : OutboxRow) :
    TerminalEventWritebackView :=
  let latest_receipt :=
    last_by rc_sequence
      (List.filter (λ r, rc_writeback_id r ==? ob_writeback_id o) (db_receipts db)) in
  {| tew_action_id := act_action_id a;
     tew_disposition_id := ob_disposition_id o;
     tew_writeback_id := ob_writeback_id o;
     tew_closure_cycle := int_or (ob_closure_cycle o) 0;
     tew_intent_kind := DispositionIntentKind.EVENT_STATUS_UPDATE;
     tew_approved_disposition := approved_disposition_of a;
     tew_actual_disposition :=
       default SourceDisposition.PENDING
         (_actual_disposition_from_command_payload env (ob_command_payload o));
     tew_receipt_status :=
       if truthy_str (ob_latest_writeback_status o)
       then enum_or (default "" (ob_latest_writeback_status o)) WritebackStatus.PENDING
       else WritebackStatus.PENDING;
     tew_plan_revision := rev;
     tew_simulated := rc_simulated <$> latest_receipt;
     tew_confirmation_evidence :=
       r ← latest_receipt;
       if truthy_str (rc_confirmation_evidence r)
       then rc_confirmation_evidence r ≫= enum_of_value else None |}.

(** Find the single active EVENT_STATUS_UPDATE outbox for the CLOSED gate. *)
Definition _build_terminal_writeback_view (env : Env) (db : Db) (event_id : string)
    (current_revision : option Z) : option TerminalEventWritebackView :=
  rev ← current_revision;
  a ← head (List.filter (deferred_terminal_action event_id rev) (db_actions db));
  o ← head (List.filter (terminal_outbox_of (act_action_id a)) (db_outboxes db));
  Some (terminal_view env db rev a o).

Definition _read_closure_cycle (db : Db) (event_id : string) : option Z :=
  max_of ob_closure_cycle (List.filter (λ o, ob_event_id o ==? event_id) (db_outboxes db)).

(** Rebuild trusted transition gates from PostgreSQL; only [recommendation],
    [need_investigation] and [escalated] come from the caller. *)
Definition _build_authoritative_context (env : Env) (db : Db) (event_id : string)
    (row : SecurityEventRow) (caller_context : option TransitionContext) :
    result TransitionContext :=
  let caller := default TransitionContext_default caller_context in
  let current_revision := current_plan_revision db event_id in
  let response_actions := current_response_actions db event_id current_revision in
  gate_actions ← build_closed_gate_actions db event_id current_revision;
  policy ← enum_of_value_or_raise (se_disposition_policy row);
  verdict ← enum_of_value_or_raise (se_final_verdict row);
  severity ← enum_of_value_or_raise (se_severity row);
  Ok {| tc_final_verdict := Some verdict;
        tc_need_investigation := tc_need_investigation caller;
        tc_disposition_only_intent := read_disposition_only_intent db event_id;
        tc_disposition_policy := Some policy;
        tc_severity := Some severity;
        tc_recommendation := tc_recommendation caller;
        tc_response_actions_are_disposition_only :=
          match response_actions with
          | [] => None | _ => Some (forallb is_disposition_tool response_actions) end;
        tc_has_entity_side_effect_actions :=
          existsb (λ a, negb (is_disposition_tool a)) response_actions;
        tc_report_exists := _check_report_exists db event_id;
        tc_force_close := false;
        tc_applicable_required_actions := gate_actions;
        tc_terminal_event_writeback :=
          _build_terminal_writeback_view env db event_id current_revision;
        tc_current_plan_revision := current_revision;
        tc_current_closure_cycle := _read_closure_cycle db event_id;
        tc_escalated := tc_escalated caller;
        tc_disposition_is_mock := is_mock_disposition_mode (env_disposition_mode env);
        tc_side_effect_convergence :=
          Some (build_side_effect_convergence_summary (env_parse_verification env) db event_id
                  current_revision policy) |}.

(** ** The transaction *)

(** The columns [transition] and [force_close] write. *)
Definition write_status (row : SecurityEventRow) (status : EventStatus) (version updated : Z)
    (closed : option Z) (replans : Z) (escalated unsynced : bool) : SecurityEventRow := {|
  se_event_id := se_event_id row; se_event_type := se_event_type row;
  se_source_type := se_source_type row; se_created_at := se_created_at row;
  se_status := enum_value status; se_severity := se_severity row;
  se_final_verdict := se_final_verdict row;
  se_creation_source_ref := se_creation_source_ref row;
  se_source_reference_snapshots := se_source_reference_snapshots row;
  se_disposition_source_ref := se_disposition_source_ref row;
  se_disposition_policy := se_disposition_policy row; se_updated_at := updated;
  se_closed_at := closed; se_replan_count := replans;
  se_degraded_flags := se_degraded_flags row; se_escalated := escalated;
  se_external_unsynced := unsynced;
  se_event_context_snapshot := se_event_context_snapshot row;
  se_row_version := version
|}.

(** [_apply_pre_transition_side_effects]: the replan counter and the escalated flag to write. *)
Definition _apply_pre_transition_side_effects (row : SecurityEventRow)
    (current target : EventStatus) (ctx : TransitionContext) : result (Z * bool) :=
  let escalated := se_escalated row ||
    (tc_escalated ctx && (target ∈? [EventStatus.CONTAINED; EventStatus.FAILED])) in
  if target ==? EventStatus.REPLANNING then
    let new_count := (se_replan_count row + 1)%Z in
    raise_if (MAX_REPLAN_COUNT <? new_count)%Z
      (invalid_edge ("replan_count would exceed MAX_REPLAN_COUNT (" +++
                     pretty MAX_REPLAN_COUNT +++ ")") current target
         [("current_replan_count", VInt (se_replan_count row));
          ("max_replan_count", VInt MAX_REPLAN_COUNT)]) ;;
    Ok (new_count, escalated)
  else Ok (se_replan_count row, escalated).

(** [text or None] with redaction and the 4096 cut of the reason column. *)
Definition redact_opt (env : Env) (o : option string) : option string :=
  if truthy_str o then env_redact env <$> o else None.

(** [EventAuditLogService.log_transition_in_session]: the id of the new row. *)
Definition log_transition_in_session (env : Env) (now : Z) (db : Db) (event_id : string)
    (from_status to_status operator reason : option string) : Db * Z :=
  let id := db_next_audit_id db in
  (db_with_audit
     (db_audit db ++ [{| al_id := id; al_event_id := event_id; al_from_status := from_status;
                         al_to_status := to_status; al_operator := redact_opt env operator;
                         al_reason := str_take 4096 <$> redact_opt env reason;
                         al_created_at := now |}])%list (id + 1)%Z db, id).

(** Steps 7 onwards of the transaction: audit, flush, projection id, domain event. *)
Definition commit_row (env : Env) (ck : Clock) (db : Db) (event_id : string)
    (from_status : string) (row' : SecurityEventRow) (target : EventStatus) (operator : string)
    (reason : option string) : result (Db * string * SecurityEvent) :=
  let db1 := db_with_events (<[event_id := row']> (db_events db)) db in
  let '(db2, projection_id) :=
    if env_has_audit env then
      let '(db2, id) := log_transition_in_session env (ck_audit ck) db1 event_id
                          (Some from_status) (Some (enum_value target)) (Some operator) reason in
      (db2, "audit:" +++ pretty id)
    else (db1, "row-version:" +++ pretty (int_or (se_row_version row') 1)) in
  event ← _security_event_from_row env row';
  Ok (db2, projection_id, event).

Definition operator_or_default (operator : option string) : string :=
  if truthy_str operator then default "" operator else _STATE_MACHINE_OPERATOR.

(** What a committed transaction hands to the projection. *)
Record Committed : Type := {
  cm_db : Db;
  cm_row : SecurityEventRow;
  cm_from : EventStatus;
  cm_projection_id : string;
  cm_event : SecurityEvent
}.

(** The transaction of [transition], steps 1 to 7. *)
Definition transition_tx (env : Env) (ck : Clock) (db : Db) (event_id : string)
    (target : EventStatus) (context : option TransitionContext) (operator : string)
    (reason : option string) : result Committed :=
  match db_events db !! event_id with
  | None => Err (mk_EventNotFoundError event_id)
  | Some row =>
      current ← enum_of_value_or_raise (se_status row);
      ctx ← _build_authoritative_context env db event_id row context;
      validate_transition current target (Some ctx) ;;
      effects ← _apply_pre_transition_side_effects row current target ctx;
      let row' := write_status row target (int_or (se_row_version row) 1 + 1) (ck_updated ck)
                    (if target ==? EventStatus.CLOSED then Some (ck_closed ck)
                     else se_closed_at row)
                    (fst effects) (snd effects) (se_external_unsynced row) in
      committed ← commit_row env ck db event_id (se_status row) row' target operator reason;
      let '(db', projection_id, event) := committed in
      Ok {| cm_db := db'; cm_row := row'; cm_from := current;
            cm_projection_id := projection_id; cm_event := event |}
  end.

(** ** Principals *)

Definition ROLE_ADMIN : string := "admin".

Record Principal : Type := {
  pr_subject : string;
  pr_roles : list string
}.

Definition has_any_role (p : Principal) (roles : list string) : bool :=
  existsb (λ r, r ∈? pr_roles p) roles || (ROLE_ADMIN ∈? pr_roles p).

Definition principal_operator (p : Principal) : string :=
  if startswith (pr_subject p) "principal:" then pr_subject p
  else "principal:" +++ pr_subject p.

Definition force_close_reason (p : Principal) (reason : string) : string :=
  if reason ==? "" then "force_close subject=" +++ pr_subject p
  else "force_close subject=" +++ pr_subject p +++ ": " +++ reason.

(** The transaction of [force_close]. *)
Definition force_close_tx (env : Env) (ck : Clock) (db : Db) (event_id : string)
    (principal : Principal) (reason : string) : result Committed :=
  match db_events db !! event_id with
  | None => Err (mk_EventNotFoundError event_id)
  | Some row =>
      current ← enum_of_value_or_raise (se_status row);
      raise_if (current ==? EventStatus.CLOSED)
        (invalid_edge "force_close: event is already CLOSED" current EventStatus.CLOSED []) ;;
      raise_if (negb (_edge_allowed STATE_TRANSITIONS current EventStatus.CLOSED))
        (invalid_edge ("force_close: illegal transition " +++ enum_value current +++ " → closed")
           current EventStatus.CLOSED []) ;;
      let row' := write_status row EventStatus.CLOSED (int_or (se_row_version row) 1 + 1)
                    (ck_updated ck) (Some (ck_updated ck)) (se_replan_count row)
                    (se_escalated row) true in
      committed ← commit_row env ck db event_id (se_status row) row' EventStatus.CLOSED
                    (principal_operator principal) (Some (force_close_reason principal reason));
      let '(db', projection_id, event) := committed in
      Ok {| cm_db := db'; cm_row := row'; cm_from := current;
            cm_projection_id := projection_id; cm_event := event |}
  end.

(** ** Post-commit projection *)

Inductive ProjectionFailureMode : Type := raised | returned_degraded.

#[global] Instance ProjectionFailureMode_eq_dec : EqDecision ProjectionFailureMode.
Proof. solve_decision. Defined.

Definition mode_text (m : ProjectionFailureMode) : string :=
  match m with raised => "raised" | returned_degraded => "returned_degraded" end.

Record ProjectionFailure : Type := {
  fl_step : string;
  fl_mode : ProjectionFailureMode;
  fl_error_type : option string
}.

Record PostCommitProjectionOutcome : Type := {
  po_committed : bool;
  po_projection_id : string;
  po_failures : list ProjectionFailure;
  po_attempts : Z
}.

(** [PostCommitProjectionOutcome.degraded] *)
Definition degraded (o : PostCommitProjectionOutcome) : bool :=
  match po_failures o with [] => false | _ => true end.

Definition failure (step : string) (mode : ProjectionFailureMode) (exc : option error) :
    ProjectionFailure :=
  {| fl_step := step; fl_mode := mode;
     fl_error_type := (λ e, error_type_name (err_class e)) <$> exc |}.

(** [sorted({f"{step}:{mode}"})] *)
Definition failure_parts (failures : list ProjectionFailure) : list string :=
  merge_sort string_le
    (remove_dups ((λ f, fl_step f +++ ":" +++ mode_text (fl_mode f)) <$> failures)).

Definition projection_token (projection_id : string) : string := "proj=" +++ projection_id.

(** Bounded marker including the projection generation token for safe clear. *)
Definition _projection_degraded_value (failures : list ProjectionFailure)
    (projection_id : string) : string :=
  let joined := str_join "|" (failure_parts failures) in
  let base := if joined ==? "" then "unknown" else joined in
  let token := projection_token projection_id in
  let max_base := Nat.max 1 (512 - String.length token - 1) in
  str_take 512 (str_take max_base base +++ "|" +++ token).

(** [summary.model_dump(mode="json")] *)
Definition view_json (v : OutstandingSideEffectView) : pyval := VDict
  [("action_id", VStr (osv_action_id v));
   ("scope", VStr (enum_value (osv_scope v)));
   ("action_status", VStr (enum_value (osv_action_status v)));
   ("execution_phase", VStr (enum_value (osv_execution_phase v)));
   ("writeback_applicable", VBool (osv_writeback_applicable v));
   ("convergence_policy", opt_str (enum_value <$> osv_convergence_policy v));
   ("job_status", opt_str (enum_value <$> osv_job_status v));
   ("outbox_delivery_status", opt_str (enum_value <$> osv_outbox_delivery_status v));
   ("outbox_writeback_status", opt_str (enum_value <$> osv_outbox_writeback_status v));
   ("plan_revision", VInt (osv_plan_revision v));
   ("superseded", VBool (osv_superseded v));
   ("blocking_reason", opt_str (enum_value <$> osv_blocking_reason v))].

Definition summary_json (s : SideEffectConvergenceSummary) : pyval := VDict
  [("event_id", VStr (ses_event_id s));
   ("current_plan_revision",
      match ses_current_plan_revision s with Some z => VInt z | None => VNone end);
   ("gate_applicable_outstanding_count", VInt (ses_gate_applicable_outstanding_count s));
   ("background_outstanding_count", VInt (ses_background_outstanding_count s));
   ("outstanding_actions", VList (view_json <$> ses_outstanding_actions s));
   ("background_side_effects_pending", VBool (ses_background_side_effects_pending s))].

Definition history_entry (env : Env) (transition_id from_status to_status operator : string)
    (reason : option string) (timestamp : Z) : pyval := VDict
  [("transition_id", VStr transition_id); ("from_status", VStr from_status);
   ("to_status", VStr to_status); ("operator", VStr operator); ("reason", opt_str reason);
   ("timestamp", VStr (env_isoformat env timestamp))].

(** [item.get("transition_id") == projection_id] *)
Definition entry_projects (projection_id : string) (item : pyval) : bool :=
  match item with
  | VDict d => match dict_get d "transition_id" with
               | Some (VStr s) => s ==? projection_id | _ => false end
  | _ => false
  end.

Section service.
Context {St : Type} `{ContextStore St} (env : Env).

(** Failures so far, and the world. *)
Abbreviation progress := (list ProjectionFailure * World St)%type.

Definition project_set (event_id step key : string) (value : pyval) (p : progress) : progress :=
  match store_set (snd p) event_id key value with
  | (Err e, w) => ((fst p ++ [failure step raised (Some e)])%list, w)
  | (Ok true, w) => (fst p, w)
  | (Ok false, w) => ((fst p ++ [failure step returned_degraded None])%list, w)
  end.

(** 1. Current summary. *)
Definition project_summary (event_id : string) (row : SecurityEventRow) (p : progress) :
    progress :=
  match env_event_summary env row with
  | Err e => ((fst p ++ [failure "summary" raised (Some e)])%list, snd p)
  | Ok summary => project_set event_id "summary" "event" summary p
  end.

(** 2. Transition history: appended once, or replaced from the audit log by a repair. *)
Definition project_history (event_id projection_id : string) (entry : pyval) (repair : bool)
    (history_override : option (list pyval)) (p : progress) : progress :=
  if repair then
    match history_override with
    | None => ((fst p ++ [{| fl_step := "history"; fl_mode := raised;
                             fl_error_type := Some "RuntimeError" |}])%list, snd p)
    | Some history => project_set event_id "history" "state_history" (VList history) p
    end
  else match store_get (snd p) event_id "state_history" with
       | (Err e, w) => ((fst p ++ [failure "history" raised (Some e)])%list, w)
       | (Ok v, w) =>
           let current_history := match v with VList l => l | _ => [] end in
           if existsb (entry_projects projection_id) current_history then (fst p, w)
           else project_set event_id "history" "state_history"
                  (VList (current_history ++ [entry])%list) (fst p, w)
       end.

(** [_persist_side_effect_convergence_on_close] *)
Definition _persist_side_effect_convergence_on_close (event_id : string)
    (row : SecurityEventRow) (p : progress) : progress :=
  let step := "side_effect_convergence" in
  match enum_of_value_or_raise (se_disposition_policy row) with
  | Err e => ((fst p ++ [failure step returned_degraded (Some e)])%list, snd p)
  | Ok policy =>
      let db := w_db (snd p) in
      let summary := build_side_effect_convergence_summary (env_parse_verification env) db
                       event_id (current_plan_revision db event_id) policy in
      let p1 := match store_set (snd p) event_id step (summary_json summary) with
                | (Err e, w) => ((fst p ++ [failure step returned_degraded (Some e)])%list, w)
                | (Ok _, w) => (fst p, w)
                end in
      if ses_background_side_effects_pending summary && env_has_degraded env then
        let details := VDict
          [("count", VInt (ses_background_outstanding_count summary));
           ("action_ids", VList (omap (λ v,
              if enum_value (osv_scope v) ==? "background_detached"
              then Some (VStr (osv_action_id v)) else None) (ses_outstanding_actions summary)))] in
        (fst p1, (set_flag (snd p1) event_id "background_side_effects_pending" details
                    "StateMachineService").2)
      else p1
  end.

(** 4. CLOSED snapshot, TTL and convergence summary, each isolated. *)
Definition project_closed (event_id : string) (row : SecurityEventRow) (p : progress) :
    progress :=
  let p1 := match store_refresh_closed_snapshot (snd p) event_id with
            | (Err e, w) => ((fst p ++ [failure "snapshot" raised (Some e)])%list, w)
            | (Ok _, w) => (fst p, w)
            end in
  let p2 := match store_set_closed_ttl (snd p1) event_id with
            | (Err e, w) => ((fst p1 ++ [failure "closed_ttl" raised (Some e)])%list, w)
            | (Ok true, w) => (fst p1, w)
            | (Ok false, w) =>
                ((fst p1 ++ [failure "closed_ttl" returned_degraded None])%list, w)
            end in
  _persist_side_effect_convergence_on_close event_id row p2.

Definition redis_context_degraded (failures : list ProjectionFailure) : bool :=
  existsb (λ f, (fl_mode f ==? returned_degraded)
                && (fl_step f ∈? REDIS_CONTEXT_PROJECTION_STEPS)) failures.

Definition _mark_projection_degraded (event_id : string) (outcome : PostCommitProjectionOutcome)
    (w : World St) : World St :=
  if negb (env_has_degraded env) then w
  else
    let value := _projection_degraded_value (po_failures outcome) (po_projection_id outcome) in
    let w1 := (set_flag w event_id STATE_TRANSITION_PROJECTION_DEGRADED_FLAG (VStr value)
                 "StateMachineService").2 in
    if redis_context_degraded (po_failures outcome)
    then (set_flag w1 event_id "redis_context_unavailable" (VBool true)
            "StateMachineService").2
    else w1.

(** [_sync_context_after_transition_locked] *)
Definition _sync_context_after_transition_locked (ck_history : Z) (w : World St)
    (event_id : string) (row : SecurityEventRow) (current target : EventStatus)
    (operator reason : option string) (projection_id : string) (repair : bool)
    (history_override : option (list pyval)) : PostCommitProjectionOutcome * World St :=
  let entry := history_entry env projection_id (enum_value current) (enum_value target)
                 (operator_or_default operator) reason ck_history in
  let p := project_summary event_id row ([], w) in
  let p := project_history event_id projection_id entry repair history_override p in
  let p := if target ==? EventStatus.REPLANNING
           then project_set event_id "replan_count" "replan_count" (VInt (se_replan_count row)) p
           else p in
  let p := if target ==? EventStatus.CLOSED then project_closed event_id row p else p in
  let outcome := {| po_committed := true; po_projection_id := projection_id;
                    po_failures := fst p; po_attempts := 1 |} in
  (outcome,
   if degraded outcome then _mark_projection_degraded event_id outcome (snd p) else snd p).

Definition with_degraded_flags (event : SecurityEvent) (flags : list string) : SecurityEvent := {|
  dom_event_id := dom_event_id event; dom_event_type := dom_event_type event;
  dom_status := dom_status event; dom_severity := dom_severity event;
  dom_final_verdict := dom_final_verdict event;
  dom_disposition_policy := dom_disposition_policy event;
  dom_updated_at := dom_updated_at event; dom_closed_at := dom_closed_at event;
  dom_replan_count := dom_replan_count event; dom_degraded_flags := flags;
  dom_escalated := dom_escalated event; dom_external_unsynced := dom_external_unsynced event;
  dom_row_version := dom_row_version event
|}.

(** Return committed DB state with the durable degraded marker when possible. *)
Definition _reload_committed_result (w : World St) (event_id : string) (event : SecurityEvent)
    (outcome : PostCommitProjectionOutcome) : SecurityEvent :=
  let prefix := STATE_TRANSITION_PROJECTION_DEGRADED_FLAG +++ "=" in
  let fallback := with_degraded_flags event
    (List.filter (λ f, negb (startswith f prefix)) (dom_degraded_flags event)
     ++ [prefix +++ _projection_degraded_value (po_failures outcome)
                      (po_projection_id outcome)])%list in
  match db_events (w_db w) !! event_id with
  | None => fallback
  | Some row => match _security_event_from_row env row with Ok e => e | Err _ => fallback end
  end.

(** Everything after the commit. *)
Definition after_commit (ck : Clock) (store : St) (event_id : string) (target : EventStatus)
    (operator : string) (reason : option string) (c : Committed) : SecurityEvent * World St :=
  let '(outcome, w) := _sync_context_after_transition_locked (ck_history ck)
    (MkWorld (cm_db c) store) event_id (cm_row c) (cm_from c) target (Some operator) reason
    (cm_projection_id c) false None in
  (if degraded outcome then _reload_committed_result w event_id (cm_event c) outcome
   else cm_event c, w).

(** The reclaim before a close; it commits by itself. *)
Definition reconcile_phase (ck : Clock) (db : Db) (event_id : string) (target : EventStatus) :
    result Db :=
  if target ==? EventStatus.CLOSED
  then match reconcile_stale_executions_before_close (env_reconcile env) (env_locked env)
               (ck_reconcile ck) db event_id 20 with
       | Err e => Err e
       | Ok (db', _) => Ok db'
       end
  else Ok db.

(** [StateMachineService.transition] *)
Definition transition (ck : Clock) (w : World St) (event_id : string) (target : EventStatus)
    (context : option TransitionContext) (operator reason : option string) :
    result SecurityEvent * World St :=
  let op := operator_or_default operator in
  match reconcile_phase ck (w_db w) event_id target with
  | Err e => (Err e, w)
  | Ok db =>
      match transition_tx env ck db event_id target context op reason with
      | Err e => (Err e, MkWorld db (w_store w))
      | Ok c =>
          let '(event, w') := after_commit ck (w_store w) event_id target op reason c in
          (Ok event, w')
      end
  end.

(** [StateMachineService.force_close] *)
Definition force_close (ck : Clock) (w : World St) (event_id : string) (principal : Principal)
    (reason : string) : result SecurityEvent * World St :=
  if negb (has_any_role principal [ROLE_ADMIN])
  then (Err (mk_AuthorizationError ROLE_ADMIN), w)
  else match force_close_tx env ck (w_db w) event_id principal reason with
       | Err e => (Err e, w)
       | Ok c =>
           let '(event, w') := after_commit ck (w_store w) event_id EventStatus.CLOSED
             (principal_operator principal) (Some (force_close_reason principal reason)) c in
           (Ok event, w')
       end.

Definition get_current_status (w : World St) (event_id : string) : result EventStatus :=
  match db_events (w_db w) !! event_id with
  | None => Err (mk_EventNotFoundError event_id)
  | Some row => enum_of_value_or_raise (se_status row)
  end.

(** ** Projection repair *)

Record _ProjectionRepairSource : Type := {
  rs_row : SecurityEventRow;
  rs_current : EventStatus;
  rs_target : EventStatus;
  rs_operator : option string;
  rs_reason : option string;
  rs_projection_id : string;
  rs_history : option (list pyval)
}.

(** [ORDER BY created_at ASC, id ASC] *)
Definition audit_le (a b : AuditLogRow) : Prop :=
  (al_created_at a < al_created_at b)%Z ∨
  (al_created_at a = al_created_at b ∧ (al_id a ≤ al_id b)%Z).
#[global] Instance audit_le_dec : RelDecision audit_le.
Proof. intros a b. unfold audit_le. apply _. Defined.

(** The audit rows of one event, as [get_logs_by_event] returns them. *)
Definition get_logs_by_event (db : Db) (event_id : string) : list AuditLogRow :=
  merge_sort audit_le (List.filter (λ a, al_event_id a ==? event_id) (db_audit db)).

(** Rows that record a move between two event statuses. *)
Definition transition_audit (a : AuditLogRow) : bool :=
  match al_from_status a, al_to_status a with
  | Some f, Some t => bool_decide (is_Some (enum_of_value (A:=EventStatus) f))
                      && bool_decide (is_Some (enum_of_value (A:=EventStatus) t)) && (f !=? t)
  | _, _ => false
  end.

Definition transition_audits (db : Db) (event_id : string) : list AuditLogRow :=
  List.filter transition_audit (get_logs_by_event db event_id).

Definition audit_history_entry (a : AuditLogRow) : pyval :=
  history_entry env ("audit:" +++ pretty (al_id a)) (default "" (al_from_status a))
    (default "" (al_to_status a)) (operator_or_default (al_operator a)) (al_reason a)
    (al_created_at a).

Definition _load_projection_repair_source (db : Db) (event_id : string) :
    result _ProjectionRepairSource :=
  match db_events db !! event_id with
  | None => Err (mk_EventNotFoundError event_id)
  | Some row =>
      let audits := transition_audits db event_id in
      target ← enum_of_value_or_raise (se_status row);
      match last audits with
      | None =>
          Ok {| rs_row := row; rs_current := target; rs_target := target; rs_operator := None;
                rs_reason := None;
                rs_projection_id := "row-version:" +++ pretty (int_or (se_row_version row) 1);
                rs_history := None |}
      | Some latest =>
          current ← enum_of_value_or_raise (default "" (al_from_status latest));
          Ok {| rs_row := row; rs_current := current; rs_target := target;
                rs_operator := al_operator latest; rs_reason := al_reason latest;
                rs_projection_id := "audit:" +++ pretty (al_id latest);
                rs_history := Some (audit_history_entry <$> audits) |}
      end
  end.

(** Clear only this repair generation's marker: [None] is success. *)
Definition _clear_projection_degraded (w : World St) (event_id expected_projection_id : string) :
    option ProjectionFailure * World St :=
  if negb (env_has_degraded env) then (None, w)
  else match get_flag_value w event_id STATE_TRANSITION_PROJECTION_DEGRADED_FLAG with
       | None => (None, w)
       | Some current =>
           if negb (str_contains (projection_token expected_projection_id) current)
           then (Some {| fl_step := "degraded_flag_stale"; fl_mode := raised;
                         fl_error_type := Some "StaleProjectionMarker" |}, w)
           else match set_flag w event_id STATE_TRANSITION_PROJECTION_DEGRADED_FLAG
                        (VBool false) "StateMachineService" with
                | (Err e, w') => (Some (failure "degraded_flag" raised (Some e)), w')
                | (Ok _, w') => (None, w')
                end
       end.

Definition with_attempts (o : PostCommitProjectionOutcome) (n : Z)
    (failures : list ProjectionFailure) : PostCommitProjectionOutcome :=
  {| po_committed := po_committed o; po_projection_id := po_projection_id o;
     po_failures := failures; po_attempts := n |}.

(** The attempts of [_repair_post_commit_projection_locked]: [remaining] more after this one. *)
Fixpoint repair_loop (ck_history : Z) (w : World St) (event_id : string)
    (source : _ProjectionRepairSource) (attempt : Z) (remaining : nat) :
    PostCommitProjectionOutcome * World St :=
  let '(outcome, w1) := _sync_context_after_transition_locked ck_history w event_id
    (rs_row source) (rs_current source) (rs_target source) (rs_operator source)
    (rs_reason source) (rs_projection_id source) true (rs_history source) in
  let last := with_attempts outcome attempt (po_failures outcome) in
  let '(last, w2, finished) :=
    if negb (degraded last) then
      match _clear_projection_degraded w1 event_id (rs_projection_id source) with
      | (None, w2) => (last, w2, true)
      | (Some clear_failure, w2) =>
          if fl_step clear_failure ==? "degraded_flag_stale"
          then (with_attempts last attempt [], w2, true)
          else (with_attempts last attempt (po_failures last ++ [clear_failure])%list, w2, false)
      end
    else (last, w1, false) in
  if finished then (last, w2)
  else match remaining with
       | O => (last, w2)
       | S n => repair_loop ck_history w2 event_id source (attempt + 1) n
       end.

(** [repair_post_commit_projection] *)
Definition repair_post_commit_projection (ck_history : Z) (w : World St) (event_id : string)
    (max_attempts : Z) : result PostCommitProjectionOutcome * World St :=
  match _load_projection_repair_source (w_db w) event_id with
  | Err e => (Err e, w)
  | Ok source =>
      let attempts := Z.max 1 (Z.min max_attempts _PROJECTION_REPAIR_MAX_ATTEMPTS) in
      let '(outcome, w') :=
        repair_loop ck_history w event_id source 1 (Z.to_nat (attempts - 1)) in
      (Ok outcome, w')
  end.

(** [repair_degraded_projections] over the scanned ids: repaired and exhausted counts.  A missing
    event raises and ends the pass. *)
Fixpoint repair_degraded_projections (ck_history : Z) (w : World St) (event_ids : list string)
    (repaired exhausted : Z) : result (Z * Z) * World St :=
  match event_ids with
  | [] => (Ok (repaired, exhausted), w)
  | event_id :: event_ids' =>
      match repair_post_commit_projection ck_history w event_id
              _PROJECTION_REPAIR_MAX_ATTEMPTS with
      | (Err e, w') => (Err e, w')
      | (Ok outcome, w') =>
          if degraded outcome
          then repair_degraded_projections ck_history w' event_ids' repaired (exhausted + 1)
          else repair_degraded_projections ck_history w' event_ids' (repaired + 1) exhausted
      end
  end.
End service.
