(* ===== verification/StateMachineFacts.v ===== *)
(** * What the state machine service guarantees

    The transaction, the frame of the projection, and what a CLOSED event means for the rows. *)

From stdpp Require Import prelude strings gmap pretty sorting.
From S2P Require Import Prelude Enums Errors Tables Convergence Workflow WorkflowFacts Runs.
From S2P Require Import LifecycleFacts Db Verification CloseGate SideEffects.
From S2P Require Import Reconcile ContextJournal ContextStore DegradedFlags.
From S2P Require Import StateMachine.

#[local] Open Scope string_scope.

(** ** The transaction *)

(** The database after a commit: the new row and, with an audit service, one new entry. *)
Definition committed_db (env : Env) (ck : Clock) (db : Db) (event_id : string)
    (from : string) (row' : SecurityEventRow) (target : EventStatus) (operator : string)
    (reason : option string) : Db :=
  let db1 := db_with_events (<[event_id := row']> (db_events db)) db in
  if env_has_audit env
  then (log_transition_in_session env (ck_audit ck) db1 event_id (Some from)
          (Some (enum_value target)) (Some operator) reason).1
  else db1.

Lemma commit_row_Ok env ck db e from row' target op reason db' pid ev :
  commit_row env ck db e from row' target op reason = Ok (db', pid, ev) →
  db' = committed_db env ck db e from row' target op reason ∧
  _security_event_from_row env row' = Ok ev.
Proof.
  unfold commit_row, committed_db. destruct (env_has_audit env); cbn;
    intros (ev' & Hev & [= <- <- <-])%bind_Ok; done.
Qed.

Lemma dom_status_of_row env row ev :
  _security_event_from_row env row = Ok ev → se_status row = enum_value (dom_status ev) ∧
  dom_external_unsynced ev = se_external_unsynced row ∧
  dom_replan_count ev = se_replan_count row.
Proof.
  unfold _security_event_from_row.
  intros [_ (? & _ & (st & Hst & (? & _ & (? & _ & (? & _ & [= <-])%bind_Ok)%bind_Ok)%bind_Ok
    )%bind_Ok)%bind_Ok]%unit_seq_Ok.
  apply enum_of_value_or_raise_Ok in Hst. done.
Qed.

Lemma transition_tx_Ok env ck db e target caller op reason c :
  transition_tx env ck db e target caller op reason = Ok c →
  ∃ row ctx effects,
    db_events db !! e = Some row ∧ se_status row = enum_value (cm_from c) ∧
    _build_authoritative_context env db e row caller = Ok ctx ∧
    transition_spec (cm_from c) target ctx ∧
    _apply_pre_transition_side_effects row (cm_from c) target ctx = Ok effects ∧
    cm_row c = write_status row target (int_or (se_row_version row) 1 + 1) (ck_updated ck)
      (if target ==? EventStatus.CLOSED then Some (ck_closed ck) else se_closed_at row)
      (fst effects) (snd effects) (se_external_unsynced row) ∧
    cm_db c = committed_db env ck db e (se_status row) (cm_row c) target op reason ∧
    _security_event_from_row env (cm_row c) = Ok (cm_event c).
Proof.
  unfold transition_tx. destruct (db_events db !! e) as [row|] eqn:Er; [|done].
  intros (current & Hcur & (ctx & Hctx & [Hv (eff & Heff & ([[db' pid] ev] & Hcommit & [= <-]
    )%bind_Ok)%bind_Ok]%unit_seq_Ok)%bind_Ok)%bind_Ok.
  apply enum_of_value_or_raise_Ok in Hcur. apply validate_transition_Ok in Hv.
  apply commit_row_Ok in Hcommit as [-> Hev].
  exists row, ctx, eff. cbn. split_and!; done.
Qed.

Lemma force_close_tx_Ok env ck db e p reason c :
  force_close_tx env ck db e p reason = Ok c →
  ∃ row,
    db_events db !! e = Some row ∧ se_status row = enum_value (cm_from c) ∧
    EventStatus.CLOSED ∈ default [] (STATE_TRANSITIONS (cm_from c)) ∧
    cm_row c = write_status row EventStatus.CLOSED (int_or (se_row_version row) 1 + 1)
      (ck_updated ck) (Some (ck_updated ck)) (se_replan_count row) (se_escalated row) true ∧
    cm_db c = committed_db env ck db e (se_status row) (cm_row c) EventStatus.CLOSED
      (principal_operator p) (Some (force_close_reason p reason)) ∧
    _security_event_from_row env (cm_row c) = Ok (cm_event c).
Proof.
  unfold force_close_tx. destruct (db_events db !! e) as [row|] eqn:Er; [|done].
  intros (current & Hcur & [_ [He%negb_false_iff ([[db' pid] ev] & Hcommit & [= <-]
    )%bind_Ok]%raise_if_seq_Ok]%raise_if_seq_Ok)%bind_Ok.
  apply enum_of_value_or_raise_Ok in Hcur. apply edge_allowed_true in He.
  apply commit_row_Ok in Hcommit as [-> Hev].
  exists row. cbn. split_and!; done.
Qed.

(** ** The projection changes nothing authoritative *)

Section projection.
Context {St : Type} `{ContextStore St} (env : Env).
Implicit Types (w : World St) (p : list ProjectionFailure * World St).

Lemma set_flag_frame w e name v writer :
  projection_frame (w_db w) (w_db (set_flag w e name v writer).2).
Proof.
  unfold set_flag. destruct (negb _); [done|]. destruct (negb _); [done|].
  destruct (db_events (w_db w) !! e) as [se|] eqn:Es; [|done].
  case_bool_decide; [done|].
  set (w1 := on_db _ w).
  assert (projection_frame (w_db w) (w_db w1)) as Hf
    by (apply (put_row_frame _ _ _ se); done).
  pose proof (store_set_frame w1 e "degraded_flags"
    (VList (VStr <$> apply_flag_to_list (se_degraded_flags se) name v))) as Hs.
  destruct (store_set w1 e "degraded_flags" _) as [[]]; cbn in *; by etrans.
Qed.

Lemma project_set_frame e step key v p :
  projection_frame (w_db p.2) (w_db (project_set e step key v p).2).
Proof.
  unfold project_set. pose proof (store_set_frame p.2 e key v) as Hs.
  by destruct (store_set p.2 e key v) as [[[]|]]; cbn in *.
Qed.

Lemma project_summary_frame e row p :
  projection_frame (w_db p.2) (w_db (project_summary env e row p).2).
Proof.
  unfold project_summary. destruct (env_event_summary env row); [apply project_set_frame|done].
Qed.

Lemma project_history_frame e pid entry repair h p :
  projection_frame (w_db p.2) (w_db (project_history e pid entry repair h p).2).
Proof.
  unfold project_history. destruct repair.
  - destruct h; [apply project_set_frame|done].
  - pose proof (store_get_frame p.2 e "state_history") as Hg.
    destruct (store_get p.2 e "state_history") as [[v|] w']; cbn in *; [|done].
    destruct (existsb _ _); [done|].
    etrans; [exact Hg|]. apply (project_set_frame e _ _ _ (p.1, w')).
Qed.

Lemma persist_convergence_frame e row p :
  projection_frame (w_db p.2) (w_db (_persist_side_effect_convergence_on_close env e row p).2).
Proof.
  unfold _persist_side_effect_convergence_on_close.
  destruct (enum_of_value_or_raise (se_disposition_policy row)) as [policy|]; [|done].
  set (summary := build_side_effect_convergence_summary _ _ _ _ _).
  pose proof (store_set_frame p.2 e "side_effect_convergence" (summary_json summary)) as Hs.
  destruct (store_set p.2 e "side_effect_convergence" _) as [r w1]; cbn in *.
  destruct (_ && _); destruct r; cbn; try done; (etrans; [exact Hs|apply set_flag_frame]).
Qed.

Lemma project_closed_frame e row p :
  projection_frame (w_db p.2) (w_db (project_closed env e row p).2).
Proof.
  unfold project_closed. pose proof (store_refresh_frame p.2 e) as Hr.
  destruct (store_refresh_closed_snapshot p.2 e) as [r w1]; cbn in Hr.
  pose proof (store_ttl_frame w1 e) as Ht.
  etrans; [|apply persist_convergence_frame].
  destruct r; cbn; destruct (store_set_closed_ttl w1 e) as [[[]|] w2]; cbn in *; by rewrite Ht.
Qed.

Lemma mark_degraded_frame e o w :
  projection_frame (w_db w) (w_db (_mark_projection_degraded env e o w)).
Proof.
  unfold _mark_projection_degraded. destruct (negb _); [done|].
  destruct (redis_context_degraded _); [|apply set_flag_frame].
  etrans; apply set_flag_frame.
Qed.

Lemma sync_frame t w e row current target op reason pid repair h :
  projection_frame (w_db w)
    (w_db (_sync_context_after_transition_locked env t w e row current target op reason pid
             repair h).2).
Proof.
  unfold _sync_context_after_transition_locked. cbn [snd].
  assert (Hmark : ∀ p (o : PostCommitProjectionOutcome),
    projection_frame (w_db w) (w_db p.2) →
    projection_frame (w_db w)
      (w_db (if degraded o then _mark_projection_degraded env e o p.2 else p.2))).
  { intros p o Hp. destruct (degraded o); [|done]. etrans; [exact Hp|apply mark_degraded_frame]. }
  apply Hmark.
  assert (Hclosed : ∀ p, projection_frame (w_db w) (w_db p.2) → projection_frame (w_db w)
    (w_db (if target ==? EventStatus.CLOSED then project_closed env e row p else p).2)).
  { intros p Hp. case_bool_decide; [|done]. etrans; [exact Hp|apply project_closed_frame]. }
  apply Hclosed. clear Hclosed Hmark.
  assert (Hreplan : ∀ p, projection_frame (w_db w) (w_db p.2) → projection_frame (w_db w)
    (w_db (if target ==? EventStatus.REPLANNING
           then project_set e "replan_count" "replan_count" (VInt (se_replan_count row)) p
           else p).2)).
  { intros p Hp. case_bool_decide; [|done]. etrans; [exact Hp|apply project_set_frame]. }
  apply Hreplan. etrans; [|apply project_history_frame].
  apply (project_summary_frame e row ([], w)).
Qed.

Lemma clear_degraded_frame w e pid :
  projection_frame (w_db w) (w_db (_clear_projection_degraded env w e pid).2).
Proof.
  unfold _clear_projection_degraded. destruct (negb _); [done|].
  destruct (get_flag_value w e _); [|done]. destruct (negb _); [done|].
  pose proof (set_flag_frame w e STATE_TRANSITION_PROJECTION_DEGRADED_FLAG (VBool false)
    "StateMachineService") as Hs.
  by destruct (set_flag w e _ _ _) as [[]].
Qed.

Lemma repair_loop_frame t w e source attempt n :
  projection_frame (w_db w) (w_db (repair_loop env t w e source attempt n).2).
Proof.
  revert w attempt. induction n as [|n IH]; intros w attempt; cbn [repair_loop];
    pose proof (sync_frame t w e (rs_row source) (rs_current source) (rs_target source)
      (rs_operator source) (rs_reason source) (rs_projection_id source) true (rs_history source))
      as Hs;
    destruct (_sync_context_after_transition_locked _ _ _ _ _ _ _ _ _ _ _ _) as [o w1];
    cbn in Hs;
    pose proof (clear_degraded_frame w1 e (rs_projection_id source)) as Hc;
    destruct (_clear_projection_degraded env w1 e _) as [[f|] w2]; cbn in Hc;
    destruct (negb _); try case_bool_decide; cbn;
    try (by etrans); try (etrans; [exact Hs|]); try (etrans; [exact Hc|]); apply IH || done.
Qed.

Lemma repair_frame t w e max_attempts :
  projection_frame (w_db w) (w_db (repair_post_commit_projection env t w e max_attempts).2).
Proof.
  unfold repair_post_commit_projection.
  destruct (_load_projection_repair_source env (w_db w) e) as [source|]; [|done].
  set (n := Z.to_nat _). pose proof (repair_loop_frame t w e source 1 n) as Hf.
  by destruct (repair_loop env t w e source 1 n).
Qed.

(** A repair rebuilds projections only: whatever it does, event statuses, versions, counters,
    Actions, jobs, outboxes, receipts, reports and the audit log are what they were, and it makes
    between one and three attempts. *)
Theorem repair_changes_no_authoritative_state (t : Z) (w : World St) (e : string)
    (max_attempts : Z) :
  projection_frame (w_db w) (w_db (repair_post_commit_projection env t w e max_attempts).2) ∧
  ∀ o, (repair_post_commit_projection env t w e max_attempts).1 = Ok o →
    (1 ≤ po_attempts o ≤ 3)%Z.
Proof.
  split; [apply repair_frame|]. unfold repair_post_commit_projection.
  destruct (_load_projection_repair_source env (w_db w) e) as [source|]; [|done].
  set (n := Z.to_nat _).
  assert (Hn : (Z.of_nat n ≤ 2)%Z) by (unfold n, _PROJECTION_REPAIR_MAX_ATTEMPTS; lia).
  assert (Ha : ∀ k w a, (1 ≤ a)%Z →
    (a ≤ po_attempts (repair_loop env t w e source a k).1 ≤ a + Z.of_nat k)%Z).
  { clear. induction k as [|k IH]; intros w a Ha; cbn [repair_loop];
      destruct (_sync_context_after_transition_locked _ _ _ _ _ _ _ _ _ _ _ _) as [o w1];
      destruct (_clear_projection_degraded env w1 e _) as [[f|] w2];
      destruct (negb _); try case_bool_decide; cbn;
      try lia; match goal with |- context [repair_loop env t ?w' e source ?a' k] =>
        pose proof (IH w' a'); lia end. }
  specialize (Ha n w 1%Z). destruct (repair_loop env t w e source 1 n) as [o w'].
  cbn in *. intros o' [= <-]. lia.
Qed.

(** ** Commit and rollback *)

Lemma committed_row env' ck db e from row' target op reason :
  db_events (committed_db env' ck db e from row' target op reason) = <[e := row']> (db_events db).
Proof. unfold committed_db. by destruct (env_has_audit env'). Qed.

Lemma reloaded_status w e (c : Committed) o :
  row_core <$> db_events (w_db w) !! e = Some (row_core (cm_row c)) →
  _security_event_from_row env (cm_row c) = Ok (cm_event c) →
  let ev := _reload_committed_result env w e (cm_event c) o in
  dom_status ev = dom_status (cm_event c) ∧
  dom_external_unsynced ev = dom_external_unsynced (cm_event c).
Proof.
  intros Hrow Hev. unfold _reload_committed_result.
  destruct (db_events (w_db w) !! e) as [row|]; [|done]. apply (inj Some) in Hrow as Hcore.
  assert (se_status row = se_status (cm_row c) ∧
          se_external_unsynced row = se_external_unsynced (cm_row c)) as [Hst Hu]
    by (split; [exact (f_equal se_status Hcore)|exact (f_equal se_external_unsynced Hcore)]).
  destruct (_security_event_from_row env row) as [ev|] eqn:E; [|done].
  apply dom_status_of_row in E as (E1 & E2 & _). apply dom_status_of_row in Hev as (E3 & E4 & _).
  split; [|congruence]. apply (inj enum_value). congruence.
Qed.

Lemma after_commit_spec ck store e target op reason (c : Committed) row0 db from :
  cm_db c = committed_db env ck db e from (cm_row c) target op reason →
  cm_row c = row0 → _security_event_from_row env (cm_row c) = Ok (cm_event c) →
  let '(ev, w') := after_commit env ck store e target op reason c in
  projection_frame (cm_db c) (w_db w') ∧ dom_status ev = dom_status (cm_event c) ∧
  dom_external_unsynced ev = dom_external_unsynced (cm_event c).
Proof.
  intros Hdb _ Hev. unfold after_commit.
  pose proof (sync_frame (ck_history ck) (MkWorld (cm_db c) store) e (cm_row c) (cm_from c)
    target (Some op) reason (cm_projection_id c) false None) as Hf.
  destruct (_sync_context_after_transition_locked _ _ _ _ _ _ _ _ _ _ _ _) as [o w'].
  cbn in Hf. split; [done|].
  destruct (degraded o); [|done]. apply reloaded_status; [|done].
  destruct Hf as [He _ _ _ _ _ _ _]. rewrite He, Hdb, committed_row.
  by rewrite lookup_insert_eq.
Qed.

(** The event row a successful call commits. *)
Definition commits (ck : Clock) (db : Db) (e : string) (row row' : SecurityEventRow)
    (target : EventStatus) (op : string) (reason : option string) (w' : World St) : Prop :=
  db_events db !! e = Some row ∧
  se_status row' = enum_value target ∧
  se_row_version row' = (int_or (se_row_version row) 1 + 1)%Z ∧
  projection_frame (committed_db env ck db e (se_status row) row' target op reason) (w_db w').

(** C9. [transition] is atomic: on success the database is the one the reclaim phase left, with the
    event row moved to the target, its version one higher, [external_unsynced] untouched, one
    audit entry more (when auditing) and otherwise only projections rewritten: of event rows the
    context snapshot, the degraded flags and the stamp [updated_at] these writes set.  The returned
    event carries the target status; on an exception nothing but the reclaim phase happened. *)
Theorem transition_atomic (ck : Clock) (w : World St) (e : string) (target : EventStatus)
    (caller : option TransitionContext) (operator reason : option string) :
  match transition env ck w e target caller operator reason with
  | (Ok ev, w') =>
      dom_status ev = target ∧
      ∃ db row row', reconcile_phase env ck (w_db w) e target = Ok db ∧
        commits ck db e row row' target (operator_or_default operator) reason w' ∧
        se_external_unsynced row' = se_external_unsynced row
  | (Err _, w') =>
      w' = w ∨ ∃ db, reconcile_phase env ck (w_db w) e target = Ok db ∧ w' = MkWorld db (w_store w)
  end.
Proof.
  unfold transition. destruct (reconcile_phase env ck (w_db w) e target) as [db|]; [|by left].
  destruct (transition_tx env ck db e target caller _ reason) as [c|] eqn:Etx; [|by eauto].
  apply transition_tx_Ok in Etx as (row & ctx & eff & Hrow & Hfrom & _ & _ & _ & Hnew & Hdb & Hev).
  pose proof (after_commit_spec ck (w_store w) e target (operator_or_default operator) reason c
    _ db _ Hdb eq_refl Hev) as Hafter.
  destruct (after_commit env ck (w_store w) e target _ reason c) as [ev w'].
  destruct Hafter as (Hf & Hst & _). apply dom_status_of_row in Hev as (Hstat & _).
  split.
  - rewrite Hst. apply (inj enum_value). rewrite <-Hstat, Hnew. done.
  - exists db, row, (cm_row c). unfold commits. rewrite <-Hdb.
    split_and!; try done; by rewrite Hnew.
Qed.
End projection.

(** ** What CLOSED means for the rows *)

(** The latest receipt of a writeback is a real one with strong evidence. *)
Definition real_receipt (db : Db) (o : OutboxRow) : Prop :=
  ∃ r, r ∈ db_receipts db ∧ rc_writeback_id r = ob_writeback_id o ∧
    (∀ r', r' ∈ db_receipts db → rc_writeback_id r' = ob_writeback_id o →
       (rc_sequence r' ≤ rc_sequence r)%Z) ∧
    rc_simulated r = false ∧
    (rc_confirmation_evidence r = Some (enum_value ConfirmationEvidence.READBACK_VERIFIED) ∨
     rc_confirmation_evidence r = Some (enum_value ConfirmationEvidence.MANUAL_CONFIRMED)).

(** The terminal writeback: a live deferred Action of the plan, with a live, confirmed
    EVENT_STATUS_UPDATE command that sets the first disposition the approver listed. *)
Record terminal_rows (env : Env) (db : Db) (e : string) (rev : Z) (a : ActionRow)
    (o : OutboxRow) (d : SourceDisposition) : Prop := {
  tr_action : a ∈ db_actions db ∧ act_event_id a = e ∧ act_plan_revision a = rev ∧
    act_superseded_by_revision a = None;
  tr_deferred : act_tool_name a = TERMINAL_DISPOSITION_TOOL ∧
    act_execution_phase a = enum_value ActionExecutionPhase.POST_VERIFY;
  tr_outbox : live_command db (act_action_id a) o ∧
    ob_intent_kind o = enum_value DispositionIntentKind.EVENT_STATUS_UPDATE;
  tr_confirmed : ob_latest_writeback_status o = Some (enum_value WritebackStatus.CONFIRMED);
  tr_cycle : ∀ o', o' ∈ db_outboxes db → ob_event_id o' = e →
    (ob_closure_cycle o' ≤ ob_closure_cycle o)%Z;
  tr_approved : py_str <$> head (act_approved_terminal_dispositions a) = Some (enum_value d);
  tr_actual : _actual_disposition_from_command_payload env (ob_command_payload o) = Some d;
  tr_terminal : d ∈ TERMINAL_SOURCE_DISPOSITIONS;
  tr_receipt : is_mock_disposition_mode (env_disposition_mode env) = false → real_receipt db o
}.

Definition closure_evidence (env : Env) (db : Db) (e : string) (row : SecurityEventRow) : Prop :=
  (∃ r, r ∈ db_reports db ∧ rp_event_id r = e) ∧
  (se_disposition_policy row = enum_value DispositionPolicy.NOT_REQUIRED ∨
   se_disposition_policy row = enum_value DispositionPolicy.REQUIRED ∧
   ∃ rev, current_plan_revision db e = Some rev ∧
     required_rows_confirmed db e rev ∧
     (∀ a, a ∈ db_actions db → gate_side_effect_row e rev a →
        action_converged (env_parse_verification env) db e a) ∧
     ∃ a o d, terminal_rows env db e rev a o d).

Lemma report_exists_true db e :
  _check_report_exists db e = true ↔ ∃ r, r ∈ db_reports db ∧ rp_event_id r = e.
Proof.
  unfold _check_report_exists. rewrite existsb_exists.
  setoid_rewrite bool_decide_eq_true. by setoid_rewrite list_elem_of_In.
Qed.

Lemma head_where {A} (p : A → bool) l x :
  head (List.filter p l) = Some x → x ∈ l ∧ p x = true.
Proof. intros Hh. apply in_where. destruct (List.filter p l); [done|]. set_solver. Qed.

Lemma parsed_receipt_status o :
  (if truthy_str o then enum_or (default "" o) WritebackStatus.PENDING
   else WritebackStatus.PENDING) = WritebackStatus.CONFIRMED ↔
  o = Some (enum_value WritebackStatus.CONFIRMED).
Proof.
  destruct o as [raw|]; [|done]. cbn [truthy_str]. case_bool_decide as E; cbn [negb].
  - by rewrite E.
  - cbn [from_option id]. rewrite enum_or_eq by done. naive_solver.
Qed.

Lemma approved_head a d :
  d ∈ TERMINAL_SOURCE_DISPOSITIONS → approved_disposition_of a = d →
  py_str <$> head (act_approved_terminal_dispositions a) = Some (enum_value d).
Proof.
  intros Hd. unfold approved_disposition_of.
  destruct (act_approved_terminal_dispositions a) as [|raw l].
  - intros <-. unfold TERMINAL_SOURCE_DISPOSITIONS in Hd. set_solver.
  - intros E%enum_or_eq; [by cbn; rewrite E|].
    intros ->. unfold TERMINAL_SOURCE_DISPOSITIONS in Hd. set_solver.
Qed.

Lemma receipt_rows env db rev a o :
  receipt_real (terminal_view env db rev a o) → real_receipt db o.
Proof.
  unfold receipt_real, terminal_view; cbn [tew_simulated tew_confirmation_evidence].
  destruct (last_by rc_sequence _) as [r|] eqn:Er; cbn; [|intros [? _]; done].
  apply last_by_Some in Er as [[Hr Hw]%in_where Hmax]. bool_props.
  intros [[= Hs] He]. exists r. split_and!; [done|done| |done|].
  - intros r' Hr' Hw'. apply Hmax, in_where. split; [done|by apply bool_decide_eq_true].
  - destruct (rc_confirmation_evidence r) as [raw|]; cbn in He; [|by destruct He].
    case_bool_decide as Hraw; cbn in He; [by destruct He|].
    rewrite !enum_of_value_Some in He. naive_solver.
Qed.

Lemma terminal_rows_of env db e rev ctx t :
  _build_terminal_writeback_view env db e (Some rev) = Some t →
  tc_current_plan_revision ctx = Some rev →
  tc_current_closure_cycle ctx = _read_closure_cycle db e →
  tc_disposition_is_mock ctx = is_mock_disposition_mode (env_disposition_mode env) →
  terminal_confirmed ctx t → (tc_disposition_is_mock ctx = false → receipt_real t) →
  ∃ a o d, terminal_rows env db e rev a o d.
Proof.
  unfold _build_terminal_writeback_view. cbn [mbind option_bind].
  destruct (head (List.filter (deferred_terminal_action e rev) (db_actions db))) as [a|] eqn:Ea;
    cbn [mbind option_bind]; [|done].
  destruct (head (List.filter (terminal_outbox_of _) (db_outboxes db))) as [o|] eqn:Eo;
    cbn [mbind option_bind]; [|done].
  intros [= <-] Hrev Hcyc Hmock [_ _ Hc Hterm Hact Hrec] Hreal.
  apply head_where in Ea as [Ha Hdef]. apply head_where in Eo as [Ho Hout].
  unfold deferred_terminal_action, is_disposition_tool in Hdef. unfold terminal_outbox_of in Hout.
  bool_props. exists a, o, (approved_disposition_of a). split.
  - done.
  - done.
  - by split_and!.
  - by apply parsed_receipt_status.
  - intros o' Ho' He'. unfold _read_closure_cycle in Hcyc.
    destruct (max_of ob_closure_cycle _) as [m|] eqn:Em.
    + apply max_of_Some in Em as [_ Hmax]. apply Hc in Hcyc. cbn in Hcyc. unfold int_or in Hcyc.
      assert (ob_closure_cycle o = m) as -> by (by case_bool_decide; congruence).
      apply Hmax, in_where. by rewrite bool_decide_eq_true.
    + apply max_of_None in Em. pose proof (proj1 (where_nil _ _) Em o' Ho') as Hne.
      apply bool_decide_eq_false in Hne. by destruct Hne.
  - by apply approved_head.
  - cbn [tew_actual_disposition tew_approved_disposition terminal_view] in Hact, Hterm.
    destruct (_actual_disposition_from_command_payload env _) as [d|]; [by cbn in Hact; subst|].
    cbn in Hact. rewrite <-Hact in Hterm. unfold TERMINAL_SOURCE_DISPOSITIONS in Hterm.
    set_solver.
  - done.
  - intros Hm. eapply receipt_rows, Hreal. by rewrite Hmock.
Qed.

Lemma closed_gate_rows env db e row caller ctx :
  _build_authoritative_context env db e row caller = Ok ctx →
  closed_gate_spec ctx → closure_evidence env db e row.
Proof.
  unfold _build_authoritative_context.
  intros (gates & Hg & (policy & Hp & (verdict & _ & (sev & _ & [= <-])%bind_Ok
    )%bind_Ok)%bind_Ok)%bind_Ok.
  apply enum_of_value_or_raise_Ok in Hp.
  intros [Hrep Hpol]. cbn [tc_report_exists tc_disposition_policy] in *. split.
  { by apply report_exists_true. }
  destruct Hpol as [[= ->]|([= ->] & [(s & [= <-] & Hconv) Happ Hall (t & Ht & Hterm & Hreal)])];
    [by left|right].
  split; [done|]. cbn [tc_applicable_required_actions tc_terminal_event_writeback] in *.
  destruct (current_plan_revision db e) as [rev|] eqn:Erev.
  2: { injection Hg as <-. destruct Happ as (a & Ha & _). by apply elem_of_nil in Ha. }
  exists rev. split_and!; [done| | |].
  - eapply gate_on_rows; [exact Hg|]. by apply check_required_writeback_close_gate_None.
  - apply convergence_gate_rows. by apply first_gate_violation_None.
  - eapply terminal_rows_of; [exact Ht| | | |exact Hterm|exact Hreal]; done.
Qed.

(** C1. What CLOSED means: whenever [transition] closes an event, then in the database it decided
    on the event has a report and either needs no disposition, or every applicable required
    Action of the current plan is READY and CONFIRMED with only CONFIRMED live commands, every
    live Action of the plan has converged, and a live, confirmed EVENT_STATUS_UPDATE of the
    latest closure cycle set the disposition the approver listed first, a terminal one, with a
    real, strongly evidenced receipt outside mock deployments. *)
Theorem closed_only_with_evidence {St : Type} `{ContextStore St} (env : Env) (ck : Clock)
    (w : World St) (e : string) (caller : option TransitionContext)
    (operator reason : option string) (ev : SecurityEvent) (w' : World St) :
  transition env ck w e EventStatus.CLOSED caller operator reason = (Ok ev, w') →
  ∃ db row, reconcile_phase env ck (w_db w) e EventStatus.CLOSED = Ok db ∧
    db_events db !! e = Some row ∧ closure_evidence env db e row.
Proof.
  unfold transition. destruct (reconcile_phase env ck (w_db w) e _) as [db|]; [|done].
  destruct (transition_tx env ck db e _ caller _ reason) as [c|] eqn:Etx; [|done]. intros _.
  apply transition_tx_Ok in Etx as (row & ctx & eff & Hrow & _ & Hctx & Hspec & _).
  exists db, row. split_and!; [done|done|].
  eapply closed_gate_rows; [exact Hctx|]. by destruct Hspec; auto.
Qed.
