(* ===== verification/ServiceRuns.v ===== *)
(** * Runs of the state machine service

    Any sequence of service calls, by any callers on any events: the audit log of an event is a
    path in the transition table that ends at its status, replanning is bounded, and so is the
    whole lifecycle. *)

From stdpp Require Import prelude strings gmap pretty sorting.
From S2P Require Import Prelude Enums Errors Tables Convergence Workflow WorkflowFacts Runs.
From S2P Require Import LifecycleFacts Db Verification CloseGate SideEffects Reconcile.
From S2P Require Import Reconcile ContextJournal ContextStore DegradedFlags StateMachine.
From S2P Require Import StateMachineFacts.

(** ** Paths in the transition table *)

Definition status_edge (s t : EventStatus) (_ : unit) : result unit :=
  raise_if (negb (_edge_allowed STATE_TRANSITIONS s t)) (invalid_edge "" s t []).

Definition status_path (s : EventStatus) (path : list EventStatus) : result EventStatus :=
  validated_run status_edge s ((λ t, Step t tt) <$> path).

Definition moves (s : EventStatus) (path : list EventStatus) : list (EventStatus * EventStatus) :=
  zip (s :: path) path.

Definition replan_entries (l : list (EventStatus * EventStatus)) : nat :=
  length (List.filter (λ m, m.2 ==? EventStatus.REPLANNING) l).
Definition replan_exits (l : list (EventStatus * EventStatus)) : nat :=
  length (List.filter (λ m, m.1 ==? EventStatus.REPLANNING) l).
Definition report_failures (l : list (EventStatus * EventStatus)) : nat :=
  length (List.filter (λ m, (m.1 ==? EventStatus.REPORTING) && (m.2 ==? EventStatus.FAILED)) l).

Lemma status_edge_Ok s t u :
  status_edge s t u = Ok tt ↔ t ∈ default [] (STATE_TRANSITIONS s).
Proof. unfold status_edge. rewrite raise_if_Ok, negb_false_iff. apply edge_allowed_true. Qed.

Lemma status_path_snoc s path m t :
  status_path s path = Ok m → t ∈ default [] (STATE_TRANSITIONS m) →
  status_path s (path ++ [t]) = Ok t.
Proof.
  intros Hp Ht. unfold status_path. rewrite fmap_app. apply validated_run_app.
  exists m. split; [done|]. apply validated_run_cons. split; [by apply status_edge_Ok|done].
Qed.

Lemma status_path_last s path m :
  status_path s path = Ok m → default s (last path) = m.
Proof.
  unfold status_path. destruct path as [|t path _] using rev_ind; [by intros [= <-]|].
  rewrite fmap_app, last_snoc. intros (m' & _ & Hc)%validated_run_app.
  apply validated_run_cons in Hc as [_ [= <-]]. done.
Qed.

Lemma moves_cons s t path : moves s (t :: path) = (s, t) :: moves t path.
Proof. done. Qed.

Lemma moves_snoc s path t :
  moves s (path ++ [t]) = moves s path ++ [(default s (last path), t)].
Proof.
  revert s. induction path as [|x path IH]; intros s; [done|].
  rewrite <-app_comm_cons, !moves_cons, IH, <-app_comm_cons. do 3 f_equal.
  rewrite last_cons. by destruct (last path).
Qed.

Lemma exits_le_entries s path :
  replan_exits (moves s path) ≤
  replan_entries (moves s path) + (if s ==? EventStatus.REPLANNING then 1 else 0).
Proof.
  revert s. induction path as [|t path IH]; intros s; [cbn; lia|].
  specialize (IH t). rewrite moves_cons. unfold replan_exits, replan_entries in *.
  cbn [List.filter fst snd]. destruct (bool_decide (s = _)), (bool_decide (t = _)); cbn [length] in *; lia.
Qed.

Lemma path_cost s path :
  sum_list_with (λ m, status_cost m.1 m.2) (moves s path) ≤
  8 * replan_exits (moves s path) + 2 * report_failures (moves s path).
Proof.
  generalize (moves s path) as l. induction l as [|[a b] l IH]; [cbn; lia|].
  unfold replan_exits, report_failures, status_cost in *. cbn [sum_list_with List.filter fst snd].
  destruct (a ==? EventStatus.REPLANNING), ((a ==? EventStatus.REPORTING)
    && (b ==? EventStatus.FAILED)); cbn [length]; lia.
Qed.

Lemma status_path_bound s path m :
  status_path s path = Ok m →
  length path ≤ status_rank s + 8 * replan_exits (moves s path)
                + 2 * report_failures (moves s path).
Proof.
  intros Hp.
  pose proof (validated_run_bound status_edge status_rank status_cost s _ m
    (λ s st H, status_rank_decreases _ _ (proj1 (status_edge_Ok _ _ _) H)) Hp) as Hb.
  rewrite length_fmap in Hb. rewrite <-list_fmap_compose in Hb.
  assert ((step_target ∘ (λ t, Step t tt)) <$> path = path) as E
    by (rewrite <-(list_fmap_id path) at 2; done).
  rewrite E in Hb. fold (moves s path) in Hb. pose proof (path_cost s path). lia.
Qed.

(** ** Calls *)

Section calls.
Context {St : Type} `{ContextStore St} (env : Env).

Inductive call : Type :=
| CallTransition (ck : Clock) (e : string) (target : EventStatus)
    (caller : option TransitionContext) (operator reason : option string)
| CallForceClose (ck : Clock) (e : string) (principal : Principal) (reason : string)
| CallRepair (now : Z) (e : string) (max_attempts : Z).

Definition exec_call (w : World St) (c : call) : World St :=
  match c with
  | CallTransition ck e target caller operator reason =>
      (transition env ck w e target caller operator reason).2
  | CallForceClose ck e principal reason => (force_close env ck w e principal reason).2
  | CallRepair now e max_attempts =>
      (repair_post_commit_projection env now w e max_attempts).2
  end.

Definition exec_calls (w : World St) (l : list call) : World St := foldl exec_call w l.

(** ** What one call does to an event *)

(** The status moves the audit log records for an event. *)
Definition event_trace (db : Db) (e : string) : list (option string * option string) :=
  (λ a, (al_from_status a, al_to_status a)) <$>
  List.filter (λ a, al_event_id a ==? e) (db_audit db).

Definition move_text (m : EventStatus * EventStatus) : option string * option string :=
  (Some (enum_value m.1), Some (enum_value m.2)).

(** How a call may change the event [e]: not at all, or one legal move, counted when it enters
    REPLANNING, which is refused at the limit. *)
Inductive event_step (e : string) (db db' : Db) : Prop :=
| event_same :
    row_core <$> db_events db' !! e = row_core <$> db_events db !! e →
    event_trace db' e = event_trace db e → event_step e db db'
| event_moved row row' s t :
    db_events db !! e = Some row → db_events db' !! e = Some row' →
    se_status row = enum_value s → se_status row' = enum_value t →
    t ∈ default [] (STATE_TRANSITIONS s) →
    event_trace db' e = event_trace db e ++ [move_text (s, t)] →
    (se_replan_count row' = se_replan_count row
       + (if bool_decide (t = EventStatus.REPLANNING) then 1 else 0))%Z →
    (t = EventStatus.REPLANNING → (se_replan_count row' ≤ MAX_REPLAN_COUNT)%Z) →
    event_step e db db'.

Lemma frame_event_same e db db' : projection_frame db db' → event_step e db db'.
Proof.
  intros Hf. apply event_same; [apply Hf|]. unfold event_trace. by rewrite (pf_audit _ _ Hf).
Qed.

Lemma event_step_frame e db1 db2 db3 :
  event_step e db1 db2 → projection_frame db2 db3 → event_step e db1 db3.
Proof.
  intros Hs Hf.
  assert (Htr : event_trace db3 e = event_trace db2 e)
    by (unfold event_trace; by rewrite (pf_audit _ _ Hf)).
  pose proof (pf_events _ _ Hf e) as He.
  destruct Hs as [He12 Ht12|row row' s t Hr Hr' Hs Ht Hedge Htrace Hcount Hlim].
  - apply event_same; [by rewrite He|by rewrite Htr].
  - rewrite Hr' in He. destruct (db_events db3 !! e) as [row3|] eqn:E3; [|done].
    apply (inj Some) in He.
    apply (event_moved e db1 db3 row row3 s t); try done.
    + rewrite <-Ht. exact (f_equal se_status He).
    + by rewrite Htr.
    + rewrite <-Hcount. exact (f_equal se_replan_count He).
    + intros E. rewrite (f_equal se_replan_count He : se_replan_count row3 = se_replan_count row').
      by apply Hlim.
Qed.

(** With auditing, the commit of one event's move. *)
Lemma committed_step e0 e ck db row row' s t op reason :
  env_has_audit env = true →
  db_events db !! e0 = Some row → se_status row = enum_value s →
  se_status row' = enum_value t → t ∈ default [] (STATE_TRANSITIONS s) →
  (se_replan_count row' = se_replan_count row
     + (if bool_decide (t = EventStatus.REPLANNING) then 1 else 0))%Z →
  (t = EventStatus.REPLANNING → (se_replan_count row' ≤ MAX_REPLAN_COUNT)%Z) →
  event_step e db (committed_db env ck db e0 (se_status row) row' t op reason).
Proof.
  intros Haud Hrow Hs Ht Hedge Hcount Hlim.
  unfold committed_db. rewrite Haud. cbn.
  destruct (decide (e0 = e)) as [->|Hne].
  - apply (event_moved _ _ _ row row' s t); try done; cbn.
    + by rewrite lookup_insert_eq.
    + unfold event_trace; cbn. rewrite List.filter_app, fmap_app. cbn.
      rewrite bool_decide_eq_true_2 by done. cbn. by rewrite Hs.
  - apply event_same; cbn; [by rewrite lookup_insert_ne|].
    unfold event_trace; cbn. rewrite List.filter_app; cbn.
    by rewrite bool_decide_eq_false_2, app_nil_r.
Qed.

Lemma reconcile_phase_rest ck db e target db' :
  keyed db → reconcile_phase env ck db e target = Ok db' →
  db_events db' = db_events db ∧ db_audit db' = db_audit db ∧ keyed db'.
Proof.
  intros Hk. unfold reconcile_phase. case_bool_decide; [|by intros [= <-]].
  unfold reconcile_stale_executions_before_close.
  destruct (reconcile_stale_executions_for_event _ _ _ _ _ _ _) as [[db1 n]|] eqn:E; [|done].
  intros [= <-]. apply reconcile_pass in E as Hr; [|done].
  pose proof (reconciled_keyed _ _ _ _ Hr Hk). destruct Hr as [_ _ Hrest].
  split_and!; [by rewrite Hrest|by rewrite Hrest|done].
Qed.

Lemma event_step_after_reconcile e db db1 db2 :
  db_events db1 = db_events db → db_audit db1 = db_audit db →
  event_step e db1 db2 → event_step e db db2.
Proof.
  intros He Ha [H1 H2|row row' s t Hr Hr' Hs Ht Hedge Htr Hc Hl].
  - apply event_same; [by rewrite <-He|]. rewrite H2. unfold event_trace. by rewrite Ha.
  - apply (event_moved e db db2 row row' s t); try done; [by rewrite <-He|].
    rewrite Htr. unfold event_trace. by rewrite Ha.
Qed.

Lemma pre_effects_replans row s t ctx eff :
  _apply_pre_transition_side_effects row s t ctx = Ok eff →
  (eff.1 = se_replan_count row + (if bool_decide (t = EventStatus.REPLANNING) then 1 else 0))%Z ∧
  (t = EventStatus.REPLANNING → (eff.1 ≤ MAX_REPLAN_COUNT)%Z).
Proof.
  unfold _apply_pre_transition_side_effects. case_bool_decide.
  - intros [Hm [= <-]]%raise_if_seq_Ok. apply Z.ltb_ge in Hm. cbn. split; [done|]. lia.
  - intros [= <-]. cbn. split; [lia|done].
Qed.

Lemma keyed_frame db db' : projection_frame db db' → keyed db → keyed db'.
Proof. intros [] [? ?]. split; congruence. Qed.

Lemma keyed_committed ck db e from row' t op reason :
  keyed db → keyed (committed_db env ck db e from row' t op reason).
Proof. intros [? ?]. unfold committed_db. destruct (env_has_audit env); by split. Qed.

Lemma after_commit_frame ck store e t op reason (c : Committed) ev w' :
  after_commit env ck store e t op reason c = (ev, w') → projection_frame (cm_db c) (w_db w').
Proof.
  unfold after_commit.
  pose proof (sync_frame env (ck_history ck) (MkWorld (cm_db c) store) e (cm_row c) (cm_from c)
    t (Some op) reason (cm_projection_id c) false None) as Hf.
  destruct (_sync_context_after_transition_locked _ _ _ _ _ _ _ _ _ _ _ _) as [o w1].
  cbn in Hf. by intros [= _ <-].
Qed.

Lemma transition_step ck w e0 t caller operator reason e :
  env_has_audit env = true → keyed (w_db w) →
  let w' := (transition env ck w e0 t caller operator reason).2 in
  event_step e (w_db w) (w_db w') ∧ keyed (w_db w').
Proof.
  intros Haud Hk. unfold transition.
  destruct (reconcile_phase env ck (w_db w) e0 t) as [db|] eqn:Erec;
    [|split; [by apply frame_event_same|done]].
  apply reconcile_phase_rest in Erec as (Hev & Hau & Hk1); [|done].
  destruct (transition_tx env ck db e0 t caller _ reason) as [c|] eqn:Etx.
  2: { split; [|done]. eapply event_step_after_reconcile; [done..|]. by apply frame_event_same. }
  apply transition_tx_Ok in Etx
    as (row & ctx & eff & Hrow & Hfrom & _ & Hspec & Hpre & Hnew & Hdb & _).
  destruct (after_commit env ck (w_store w) e0 t _ reason c) as [ev w'] eqn:Eac; cbn [snd].
  apply after_commit_frame in Eac as Hf. apply pre_effects_replans in Hpre as [Hc Hl].
  split; [|eapply keyed_frame; [done|]; rewrite Hdb; by apply keyed_committed].
  eapply event_step_after_reconcile; [done..|].
  eapply event_step_frame; [|exact Hf]. rewrite Hdb.
  eapply committed_step; [done|done|done|by rewrite Hnew|by destruct Hspec|..];
    rewrite Hnew; done.
Qed.

Lemma force_close_step ck w e0 p reason e :
  env_has_audit env = true → keyed (w_db w) →
  let w' := (force_close env ck w e0 p reason).2 in
  event_step e (w_db w) (w_db w') ∧ keyed (w_db w').
Proof.
  intros Haud Hk. unfold force_close.
  destruct (negb _); [split; [by apply frame_event_same|done]|].
  destruct (force_close_tx env ck (w_db w) e0 p reason) as [c|] eqn:Etx;
    [|split; [by apply frame_event_same|done]].
  apply force_close_tx_Ok in Etx as (row & Hrow & Hfrom & Hedge & Hnew & Hdb & _).
  destruct (after_commit env ck (w_store w) e0 _ _ _ c) as [ev w'] eqn:Eac; cbn [snd].
  apply after_commit_frame in Eac as Hf.
  split; [|eapply keyed_frame; [done|]; rewrite Hdb; by apply keyed_committed].
  eapply event_step_frame; [|exact Hf]. rewrite Hdb.
  eapply committed_step; [done|done|done|by rewrite Hnew|done|..]; rewrite Hnew; [|done].
  rewrite bool_decide_eq_false_2 by done. cbn. lia.
Qed.

Lemma exec_call_step w c e :
  env_has_audit env = true → keyed (w_db w) →
  event_step e (w_db w) (w_db (exec_call w c)) ∧ keyed (w_db (exec_call w c)).
Proof.
  intros Haud Hk. destruct c; cbn [exec_call].
  - by apply transition_step.
  - by apply force_close_step.
  - pose proof (repair_frame env now w e0 max_attempts) as Hf.
    split; [by apply frame_event_same|by eapply keyed_frame].
Qed.

(** ** Histories *)

(** A row of the audit log as the history of an event shows it. *)
Definition audit_entry (a : AuditLogRow) : option string * option string :=
  (al_from_status a, al_to_status a).

(** One step of a run: a call of the service, or a row another service puts into the audit log (the
    creation of the event, a promotion, an execution), which it appends as it likes. *)
Inductive run_step : Type :=
| Served (c : call)
| Noted (a : AuditLogRow).

Definition exec_run_step (w : World St) (s : run_step) : World St :=
  match s with
  | Served c => exec_call w c
  | Noted a => on_db (λ db, db_with_audit (db_audit db ++ [a]) (db_next_audit_id db + 1) db) w
  end.

Definition exec_run (w : World St) (l : list run_step) : World St := foldl exec_run_step w l.

(** What the others noted about an event in a run. *)
Definition notes (e : string) (l : list run_step) : list (option string * option string) :=
  audit_entry <$> List.filter (λ a, al_event_id a ==? e)
    (omap (λ s, match s with Noted a => Some a | Served _ => None end) l).

(** [l] is made of [l1] and [l2], each in its order. *)
Inductive interleaved {A : Type} : list A → list A → list A → Prop :=
| interleaved_nil : interleaved [] [] []
| interleaved_left l1 l2 l x : interleaved l1 l2 l → interleaved (l1 ++ [x]) l2 (l ++ [x])
| interleaved_right l1 l2 l x : interleaved l1 l2 l → interleaved l1 (l2 ++ [x]) (l ++ [x]).

(** From the status [s0], the counter [k0] and the log [t0], the event took the moves of [path]
    while others noted [ns]. *)
Record history (e : string) (s0 : EventStatus) (k0 : Z)
    (t0 ns : list (option string * option string)) (path : list EventStatus) (db : Db) :
    Prop := {
  hi_row : ∃ row s, db_events db !! e = Some row ∧ se_status row = enum_value s ∧
    status_path s0 path = Ok s ∧
    se_replan_count row = (k0 + Z.of_nat (replan_entries (moves s0 path)))%Z;
  hi_trace : ∃ added, event_trace db e = t0 ++ added ∧
    interleaved ns (move_text <$> moves s0 path) added;
  hi_limit : (k0 + Z.of_nat (replan_entries (moves s0 path)) ≤ Z.max k0 MAX_REPLAN_COUNT)%Z
}.

Lemma history_step e s0 k0 t0 ns path db db' :
  event_step e db db' → history e s0 k0 t0 ns path db →
  ∃ path', history e s0 k0 t0 ns path' db'.
Proof.
  intros Hstep [(row & s & Hrow & Hs & Hp & Hc) (added & Htr & Hil) Hlim].
  destruct Hstep as [He Ht|r r' s1 t Hr Hr' Hs1 Ht Hedge Htrace Hcount Hmax].
  - exists path. split; [|exists added; by rewrite Ht|done].
    rewrite Hrow in He. destruct (db_events db' !! e) as [row'|] eqn:E; [|done].
    apply (inj Some) in He. exists row', s. split_and!; [done| |done|].
    + rewrite <-Hs. exact (f_equal se_status He).
    + rewrite <-Hc. exact (f_equal se_replan_count He).
  - rewrite Hrow in Hr. injection Hr as <-. rewrite Hs in Hs1. apply (inj enum_value) in Hs1 as <-.
    exists (path ++ [t]). pose proof (status_path_last _ _ _ Hp) as Hlast.
    assert (Hn : (Z.of_nat (replan_entries (moves s0 (path ++ [t]))) =
      Z.of_nat (replan_entries (moves s0 path))
      + (if bool_decide (t = EventStatus.REPLANNING) then 1 else 0))%Z).
    { rewrite moves_snoc. unfold replan_entries. rewrite List.filter_app, length_app. cbn.
      case_bool_decide; cbn; lia. }
    split.
    + exists r', t. split_and!; [done|done|by eapply status_path_snoc|]. rewrite Hn. lia.
    + exists (added ++ [move_text (s, t)]).
      rewrite Htrace, Htr, moves_snoc, fmap_app, Hlast, app_assoc. split; [done|].
      by apply interleaved_right.
    + rewrite Hn. case_bool_decide as Et; [|lia]. specialize (Hmax Et). lia.
Qed.

Lemma history_note e s0 k0 t0 ns path w a :
  history e s0 k0 t0 ns path (w_db w) →
  history e s0 k0 t0 (ns ++ notes e [Noted a]) path (w_db (exec_run_step w (Noted a))).
Proof.
  intros [Hrow (added & Htr & Hil) Hlim]. split; [done| |done].
  unfold event_trace, notes in *. cbn. rewrite List.filter_app, fmap_app. cbn.
  case_bool_decide; cbn.
  - exists (added ++ [audit_entry a]). unfold audit_entry in *. rewrite Htr, app_assoc.
    split; [done|by apply interleaved_left].
  - exists added. by rewrite !app_nil_r.
Qed.

Lemma notes_cons e s l : notes e (s :: l) = notes e [s] ++ notes e l.
Proof. unfold notes. destruct s; cbn; [done|]. by case_bool_decide. Qed.

Lemma history_run e s0 k0 t0 l w ns path :
  env_has_audit env = true → keyed (w_db w) → history e s0 k0 t0 ns path (w_db w) →
  ∃ path', history e s0 k0 t0 (ns ++ notes e l) path' (w_db (exec_run w l)).
Proof.
  intros Haud. revert w ns path. induction l as [|s l IH]; intros w ns path Hk Hh.
  { exists path. by rewrite app_nil_r. }
  rewrite notes_cons, app_assoc. destruct s as [c|a].
  - destruct (exec_call_step w c e Haud Hk) as [Hs Hk'].
    destruct (history_step _ _ _ _ _ _ _ _ Hs Hh) as [path' Hh'].
    rewrite app_nil_r. by apply (IH (exec_call w c) ns path').
  - apply (IH (exec_run_step w (Noted a)) _ path); [by destruct Hk; split|by apply history_note].
Qed.

Lemma history_start e db row s0 :
  db_events db !! e = Some row → se_status row = enum_value s0 →
  history e s0 (se_replan_count row) (event_trace db e) [] [] db.
Proof.
  intros Hrow Hs. split; [exists row, s0; split_and!; [done|done|done|cbn; lia]| |cbn; lia].
  exists []. rewrite app_nil_r. split; [done|constructor].
Qed.

(** C10. The audit log is a legal history: whatever it held before, after any sequence of service
    calls between which other services add rows of their own, the log of an event has kept its
    earlier entries, and what was added is the rows of the others interleaved with exactly the
    moves of a path in the transition table from its status at the start to its current one; its
    replan counter went up by one for each of these entries into REPLANNING and never past the
    limit of three. *)
Theorem audit_log_is_a_path (w : World St) (l : list run_step) (e : string)
    (row : SecurityEventRow) (s0 : EventStatus) :
  env_has_audit env = true → keyed (w_db w) →
  db_events (w_db w) !! e = Some row → se_status row = enum_value s0 →
  ∃ path, history e s0 (se_replan_count row) (event_trace (w_db w) e) (notes e l) path
            (w_db (exec_run w l)).
Proof.
  intros Haud Hk Hrow Hs.
  apply (history_run e s0 _ _ l w [] []); [done|done|]. by apply history_start.
Qed.

(** C11. The lifecycle is bounded: from NEW with no replan counted, after any sequence of service
    calls and rows of other services, the moves the log has gained are at most 37 plus two for
    each report generation that failed; in particular the replanning loop cannot run for ever. *)
Theorem lifecycle_bounded (w : World St) (l : list run_step) (e : string)
    (row : SecurityEventRow) :
  env_has_audit env = true → keyed (w_db w) →
  db_events (w_db w) !! e = Some row → se_status row = enum_value EventStatus.NEW →
  se_replan_count row = 0%Z →
  ∃ path added, event_trace (w_db (exec_run w l)) e = event_trace (w_db w) e ++ added ∧
    interleaved (notes e l) (move_text <$> moves EventStatus.NEW path) added ∧
    length path ≤ 37 + 2 * report_failures (moves EventStatus.NEW path).
Proof.
  intros Haud Hk Hrow Hs Hc.
  destruct (history_run e EventStatus.NEW _ _ l w [] [] Haud Hk (history_start _ _ _ _ Hrow Hs))
    as (path & [(row' & s & _ & _ & Hp & _) (added & Htrace & Hil) Hlim]).
  exists path, added. split_and!; [done|done|].
  apply status_path_bound in Hp. cbn [status_rank] in Hp.
  pose proof (exits_le_entries EventStatus.NEW path) as He.
  rewrite bool_decide_eq_false_2 in He by done.
  rewrite Hc in Hlim. unfold MAX_REPLAN_COUNT in Hlim. lia.
Qed.

(** ** CLOSED and forced closes *)

Lemma closed_step e db db' row :
  event_step e db db' → db_events db !! e = Some row →
  se_status row = enum_value EventStatus.CLOSED →
  ∃ row', db_events db' !! e = Some row' ∧ row_core row' = row_core row.
Proof.
  intros [He _|r r' s t Hr _ Hs _ Hedge _ _ _] Hrow Hst.
  - rewrite Hrow in He. destruct (db_events db' !! e) as [row'|]; [|done].
    apply (inj Some) in He. by exists row'.
  - rewrite Hrow in Hr. injection Hr as <-. rewrite Hst in Hs.
    apply (inj enum_value) in Hs as <-. by apply elem_of_nil in Hedge.
Qed.

(** CLOSED is final: once an event is CLOSED, no sequence of service calls, forced closes and
    repairs included, changes anything of its row but the snapshot, the degraded flags and their stamp. *)
Theorem closed_is_final (w : World St) (l : list call) (e : string) (row : SecurityEventRow) :
  env_has_audit env = true → keyed (w_db w) →
  db_events (w_db w) !! e = Some row → se_status row = enum_value EventStatus.CLOSED →
  ∃ row', db_events (w_db (exec_calls w l)) !! e = Some row' ∧ row_core row' = row_core row.
Proof.
  intros Haud. revert w row. induction l as [|c l IH]; intros w row Hk Hrow Hst;
    [by exists row|].
  destruct (exec_call_step w c e Haud Hk) as [Hs Hk'].
  destruct (closed_step _ _ _ _ Hs Hrow Hst) as (row1 & Hrow1 & Hc1).
  destruct (IH (exec_call w c) row1) as (row2 & Hrow2 & Hc2); [done|done| |].
  - rewrite <-Hst. exact (f_equal se_status Hc1).
  - exists row2. split; [done|congruence].
Qed.

(** The forced closes an administrator made of an event. *)
Definition admin_force_close (e : string) (c : call) : Prop :=
  match c with
  | CallForceClose _ e' p _ => e' = e ∧ ROLE_ADMIN ∈ pr_roles p
  | _ => False
  end.

Definition unsynced (db : Db) (e : string) : bool :=
  match db_events db !! e with Some row => se_external_unsynced row | None => false end.

Lemma frame_unsynced db db' e : projection_frame db db' → unsynced db' e = unsynced db e.
Proof.
  intros Hf. pose proof (pf_events _ _ Hf e) as He. unfold unsynced.
  destruct (db_events db' !! e), (db_events db !! e); try done.
  apply (inj Some) in He. exact (f_equal se_external_unsynced He).
Qed.

Lemma committed_unsynced ck db e0 from row row' t op reason e :
  db_events db !! e0 = Some row →
  unsynced (committed_db env ck db e0 from row' t op reason) e =
  if bool_decide (e0 = e) then se_external_unsynced row' else unsynced db e.
Proof.
  intros Hrow. unfold unsynced. rewrite committed_row. case_bool_decide as E.
  - subst. by rewrite lookup_insert_eq.
  - by rewrite lookup_insert_ne.
Qed.

Lemma has_admin_role p : has_any_role p [ROLE_ADMIN] = true ↔ ROLE_ADMIN ∈ pr_roles p.
Proof.
  unfold has_any_role. cbn. rewrite orb_false_r, orb_diag. apply bool_decide_eq_true.
Qed.

Lemma call_unsynced w c e :
  keyed (w_db w) → unsynced (w_db (exec_call w c)) e = true →
  unsynced (w_db w) e = true ∨ admin_force_close e c.
Proof.
  intros Hk. destruct c as [ck e0 t caller operator reason|ck e0 p reason|now e0 n];
    cbn [exec_call].
  - intros Hu. left. revert Hu. unfold transition.
    destruct (reconcile_phase env ck (w_db w) e0 t) as [db|] eqn:Erec; [|done].
    apply reconcile_phase_rest in Erec as (Hev & _ & _); [|done].
    assert (Hsame : unsynced db e = unsynced (w_db w) e) by (unfold unsynced; by rewrite Hev).
    destruct (transition_tx env ck db e0 t caller _ reason) as [c|] eqn:Etx;
      [|cbn; by rewrite Hsame].
    apply transition_tx_Ok in Etx as (row & ctx & eff & Hrow & _ & _ & _ & _ & Hnew & Hdb & _).
    destruct (after_commit env ck (w_store w) e0 t _ reason c) as [ev w'] eqn:Eac; cbn [snd].
    apply after_commit_frame in Eac as Hf. rewrite (frame_unsynced _ _ _ Hf), Hdb.
    rewrite (committed_unsynced _ _ _ _ row) by done. rewrite <-Hsame.
    destruct (decide (e0 = e)) as [->|]; [|by rewrite bool_decide_eq_false_2].
    rewrite bool_decide_eq_true_2 by done. rewrite Hnew. unfold unsynced. by rewrite Hrow.
  - unfold force_close. destruct (has_any_role p [ROLE_ADMIN]) eqn:Er; cbn [negb]; [|by left].
    apply has_admin_role in Er.
    destruct (force_close_tx env ck (w_db w) e0 p reason) as [c|] eqn:Etx; [|by left].
    apply force_close_tx_Ok in Etx as (row & Hrow & _ & _ & _ & Hdb & _).
    destruct (after_commit env ck (w_store w) e0 _ _ _ c) as [ev w'] eqn:Eac; cbn [snd].
    apply after_commit_frame in Eac as Hf. rewrite (frame_unsynced _ _ _ Hf), Hdb.
    rewrite (committed_unsynced _ _ _ _ row) by done.
    case_bool_decide as E; [intros _; right; by split|by left].
  - rewrite (frame_unsynced _ _ _ (repair_frame env now w e0 n)). by left.
Qed.

(** [external_unsynced] is the mark of a forced close: an event whose row says so, after any
    sequence of service calls, either said so before or was force-closed by a principal with the
    admin role. *)
Theorem unsynced_only_by_admin (w : World St) (l : list call) (e : string) :
  env_has_audit env = true → keyed (w_db w) →
  unsynced (w_db (exec_calls w l)) e = true →
  unsynced (w_db w) e = true ∨ ∃ c, c ∈ l ∧ admin_force_close e c.
Proof.
  intros Haud. revert w. induction l as [|c l IH]; intros w Hk Hu; [by left|].
  destruct (exec_call_step w c e Haud Hk) as [_ Hk'].
  destruct (IH (exec_call w c) Hk' Hu) as [Hu1|(c' & Hc' & Ha)]; [|right; set_solver].
  destruct (call_unsynced w c e Hk Hu1); [by left|right; set_solver].
Qed.

(** A forced close needs the admin role and a status with an edge to CLOSED (TRIAGING or
    REPORTING); it closes locally and marks the event [external_unsynced].  Refused, it changes
    nothing. *)
Theorem force_close_guarded (ck : Clock) (w : World St) (e : string) (p : Principal)
    (reason : string) :
  match force_close env ck w e p reason with
  | (Ok ev, w') =>
      ROLE_ADMIN ∈ pr_roles p ∧ dom_status ev = EventStatus.CLOSED ∧
      dom_external_unsynced ev = true ∧ unsynced (w_db w') e = true ∧
      ∃ row s, db_events (w_db w) !! e = Some row ∧ se_status row = enum_value s ∧
        (s = EventStatus.TRIAGING ∨ s = EventStatus.REPORTING)
  | (Err _, w') => w' = w
  end.
Proof.
  unfold force_close. destruct (has_any_role p [ROLE_ADMIN]) eqn:Er; cbn [negb]; [|done].
  apply has_admin_role in Er.
  destruct (force_close_tx env ck (w_db w) e p reason) as [c|] eqn:Etx; [|done].
  apply force_close_tx_Ok in Etx as (row & Hrow & Hfrom & Hedge & Hnew & Hdb & Hev).
  pose proof (after_commit_spec env ck (w_store w) e EventStatus.CLOSED (principal_operator p)
    (Some (force_close_reason p reason)) c _ (w_db w) _ Hdb eq_refl Hev) as Hafter.
  destruct (after_commit env ck (w_store w) e _ _ _ c) as [ev w'].
  destruct Hafter as (Hf & Hst & Hun). apply dom_status_of_row in Hev as (Hs1 & Hs2 & _).
  split_and!.
  - done.
  - rewrite Hst. apply (inj enum_value). by rewrite <-Hs1, Hnew.
  - by rewrite Hun, Hs2, Hnew.
  - rewrite (frame_unsynced _ _ _ Hf), Hdb, (committed_unsynced _ _ _ _ row) by done.
    rewrite bool_decide_eq_true_2 by done. by rewrite Hnew.
  - exists row, (cm_from c). split_and!; [done|done|].
    apply edge_allowed_true in Hedge. destruct (cm_from c); by auto || discriminate Hedge.
Qed.
End calls.
