(* ===== verification/ProjectionFacts.v ===== *)
(** * The post-commit projection and the trust boundary of the context

    What the degraded marker fences, what happens to the projection of a CLOSED event, and which
    caller inputs can reach the CLOSED gate. *)

From stdpp Require Import prelude strings gmap pretty sorting.
From S2P Require Import Prelude Enums Errors Tables Convergence Workflow WorkflowFacts Runs.
From S2P Require Import LifecycleFacts Db Verification CloseGate SideEffects.
From S2P Require Import Reconcile ContextJournal ContextStore DegradedFlags.
From S2P Require Import StateMachine StateMachineFacts.

#[local] Open Scope string_scope.

(** ** Cutting strings *)

Lemma str_take_cons n c s : str_take (S n) (String c s) = String c (str_take n s).
Proof. done. Qed.

Lemma str_take_length n s : (String.length (str_take n s) ≤ n)%nat.
Proof.
  revert n. induction s as [|c s IH]; intros [|n]; cbn; try lia.
  change (S (String.length (str_take n s)) ≤ S n)%nat. specialize (IH n). lia.
Qed.

(** ** The marker *)

Definition marker_base (failures : list ProjectionFailure) : string :=
  let joined := str_join "|" (failure_parts failures) in
  if joined ==? "" then "unknown" else joined.

Lemma marker_shape failures pid :
  (String.length (projection_token pid) ≤ 510)%nat →
  ∃ base, _projection_degraded_value failures pid = base +++ "|" +++ projection_token pid.
Proof.
  intros Hlen. unfold _projection_degraded_value. fold (marker_base failures).
  set (m := Nat.max 1 _). exists (str_take m (marker_base failures)).
  apply str_take_all. rewrite !string_length_app.
  pose proof (str_take_length m (marker_base failures)). change (String.length "|") with 1%nat.
  unfold m in *. lia.
Qed.

Lemma marker_contains failures pid suffix :
  (String.length (projection_token (pid +++ suffix)) ≤ 510)%nat →
  str_contains (projection_token pid) (_projection_degraded_value failures (pid +++ suffix))
  = true.
Proof.
  intros [base ->]%(marker_shape failures). apply str_contains_true.
  exists (base +++ "|"), suffix. unfold projection_token. by rewrite !string_app_assoc.
Qed.

(** The degraded marker is at most 512 characters and, for a projection id that fits, names
    its own generation, so the repair of that generation recognises it. *)
Theorem marker_bounded_and_self_fencing (failures : list ProjectionFailure) (pid : string) :
  (String.length (_projection_degraded_value failures pid) ≤ 512)%nat ∧
  ((String.length (projection_token pid) ≤ 510)%nat →
   str_contains (projection_token pid) (_projection_degraded_value failures pid) = true).
Proof.
  split; [apply str_take_length|]. intros Hlen.
  destruct (marker_shape failures pid Hlen) as [base ->]. apply str_contains_true.
  exists (base +++ "|"), "". by rewrite string_app_nil_r, string_app_assoc.
Qed.

Section service.
Context {St : Type} `{ContextStore St} (env : Env).
Implicit Types (w : World St).

(** The fence is a substring test, so it does not separate generations: a repair of the
    projection id [pid] takes the marker of any later id that extends [pid] (audit:1 and
    audit:12) for its own and clears it. *)
Theorem stale_repair_clears_newer_marker (w : World St) (e : string)
    (failures : list ProjectionFailure) (pid suffix : string) :
  env_has_degraded env = true →
  (String.length (projection_token (pid +++ suffix)) ≤ 510)%nat →
  get_flag_value w e STATE_TRANSITION_PROJECTION_DEGRADED_FLAG
    = Some (_projection_degraded_value failures (pid +++ suffix)) →
  _clear_projection_degraded env w e pid =
  match set_flag w e STATE_TRANSITION_PROJECTION_DEGRADED_FLAG (VBool false)
          "StateMachineService" with
  | (Err er, w') => (Some (failure "degraded_flag" raised (Some er)), w')
  | (Ok _, w') => (None, w')
  end.
Proof.
  intros Hd Hlen Hv. unfold _clear_projection_degraded.
  rewrite Hd, Hv, marker_contains by done. done.
Qed.

(** ** CLOSED projections *)

Lemma convergence_field_unknown : "side_effect_convergence" ∉ CONTEXT_FIELD_NAMES.
Proof. apply (bool_decide_unpack _). by vm_compute. Qed.

Lemma persist_always_fails e row (p : list ProjectionFailure * World St) :
  ∃ f, f ∈ (_persist_side_effect_convergence_on_close env e row p).1 ∧
    fl_step f = "side_effect_convergence" ∧ fl_mode f = returned_degraded.
Proof.
  unfold _persist_side_effect_convergence_on_close.
  destruct (enum_of_value_or_raise (se_disposition_policy row)) as [policy|er].
  - rewrite store_set_unknown by apply convergence_field_unknown.
    set (f := failure _ _ _). exists f.
    destruct (_ && _); cbn; set_solver.
  - eexists. cbn. split; [apply elem_of_app; right; by left|done].
Qed.

Lemma degraded_in o (f : ProjectionFailure) : f ∈ po_failures o → degraded o = true.
Proof. unfold degraded. destruct (po_failures o); [by intros ?%elem_of_nil|done]. Qed.

Lemma project_closed_as_persist e row (p : list ProjectionFailure * World St) :
  ∃ p', project_closed env e row p = _persist_side_effect_convergence_on_close env e row p'.
Proof. by eexists. Qed.

Lemma closed_sync_degraded t w e row current op reason pid repair h :
  let o := (_sync_context_after_transition_locked env t w e row current EventStatus.CLOSED op
              reason pid repair h).1 in
  degraded o = true ∧ ∃ f, f ∈ po_failures o ∧ fl_step f = "side_effect_convergence".
Proof.
  unfold _sync_context_after_transition_locked. cbn [fst].
  rewrite (bool_decide_eq_true_2 (EventStatus.CLOSED = _)) by done.
  match goal with |- context [project_closed env e row ?q] =>
    destruct (project_closed_as_persist e row q) as [p' ->] end.
  destruct (persist_always_fails e row p') as (f & Hf & Hs & _).
  split; [|by exists f]. by apply (degraded_in _ f).
Qed.

(** Every close is reported as a degraded projection: whatever the store answers, the
    projection of a move to CLOSED records a failure of the convergence step, because the field
    it writes is none of EventContext's. *)
Theorem closed_projection_always_degraded (t : Z) (w : World St) (e : string)
    (row : SecurityEventRow) (current : EventStatus) (op reason : option string) (pid : string)
    (repair : bool) (h : option (list pyval)) :
  let o := (_sync_context_after_transition_locked env t w e row current EventStatus.CLOSED op
              reason pid repair h).1 in
  degraded o = true ∧ ∃ f, f ∈ po_failures o ∧ fl_step f = "side_effect_convergence".
Proof. apply closed_sync_degraded. Qed.

Lemma closed_repair_loop t w e source attempt n :
  rs_target source = EventStatus.CLOSED →
  degraded (repair_loop env t w e source attempt n).1 = true.
Proof.
  intros Ht. revert w attempt. induction n as [|n IH]; intros w attempt; cbn [repair_loop];
    rewrite Ht;
    pose proof (closed_sync_degraded t w e (rs_row source) (rs_current source)
      (rs_operator source) (rs_reason source) (rs_projection_id source) true (rs_history source))
      as [Hd _];
    destruct (_sync_context_after_transition_locked _ _ _ _ _ _ _ _ _ _ _ _) as [o w1];
    cbn [fst] in Hd; unfold with_attempts at 1 2; cbn [po_failures];
    change (degraded (with_attempts o attempt (po_failures o))) with (degraded o);
    unfold degraded in *; cbn [po_failures]; destruct (po_failures o); try done; cbn.
  apply IH.
Qed.

(** The projection of a CLOSED event can never be repaired: every repair of it ends degraded,
    so its marker stays for ever. *)
Theorem closed_event_never_repaired (t : Z) (w : World St) (e : string) (n : Z)
    (row : SecurityEventRow) (o : PostCommitProjectionOutcome) :
  db_events (w_db w) !! e = Some row → se_status row = enum_value EventStatus.CLOSED →
  (repair_post_commit_projection env t w e n).1 = Ok o → degraded o = true.
Proof.
  intros Hrow Hst. unfold repair_post_commit_projection.
  destruct (_load_projection_repair_source env (w_db w) e) as [source|] eqn:Es; [|done].
  assert (rs_target source = EventStatus.CLOSED) as Ht.
  { revert Es. unfold _load_projection_repair_source. rewrite Hrow.
    intros (target & Htg & Hrest)%bind_Ok. apply enum_of_value_or_raise_Ok in Htg.
    rewrite Hst in Htg. apply (inj enum_value) in Htg as <-.
    destruct (last _); [|by injection Hrest as <-].
    by apply bind_Ok in Hrest as (? & _ & [= <-]). }
  pose proof (closed_repair_loop t w e source 1
    (Z.to_nat (Z.max 1 (Z.min n _PROJECTION_REPAIR_MAX_ATTEMPTS) - 1)) Ht) as Hl.
  destruct (repair_loop env t w e source 1 _) as [o' w']. by intros [= <-].
Qed.

(** The background side-effect flag is never stored: its name is not on the allowlist, so every
    attempt to set it is refused with a validation error and changes nothing. *)
Theorem background_flag_never_stored (w : World St) (e : string) (v : pyval) :
  set_flag w e "background_side_effects_pending" v "StateMachineService"
  = (Err (not_in_allowlist "background_side_effects_pending"), w).
Proof.
  unfold set_flag.
  rewrite bool_decide_eq_true_2 by (apply (bool_decide_unpack _); by vm_compute).
  rewrite bool_decide_eq_false_2; [done|]. apply (bool_decide_unpack _). by vm_compute.
Qed.
End service.

(** ** Callers cannot reach the CLOSED gate *)

(** The three business inputs a caller may supply. *)
Definition override (ctx : TransitionContext) (caller : TransitionContext) :
    TransitionContext := {|
  tc_final_verdict := tc_final_verdict ctx;
  tc_need_investigation := tc_need_investigation caller;
  tc_disposition_only_intent := tc_disposition_only_intent ctx;
  tc_disposition_policy := tc_disposition_policy ctx; tc_severity := tc_severity ctx;
  tc_recommendation := tc_recommendation caller;
  tc_response_actions_are_disposition_only := tc_response_actions_are_disposition_only ctx;
  tc_has_entity_side_effect_actions := tc_has_entity_side_effect_actions ctx;
  tc_report_exists := tc_report_exists ctx; tc_force_close := tc_force_close ctx;
  tc_applicable_required_actions := tc_applicable_required_actions ctx;
  tc_terminal_event_writeback := tc_terminal_event_writeback ctx;
  tc_current_plan_revision := tc_current_plan_revision ctx;
  tc_current_closure_cycle := tc_current_closure_cycle ctx;
  tc_escalated := tc_escalated caller; tc_disposition_is_mock := tc_disposition_is_mock ctx;
  tc_side_effect_convergence := tc_side_effect_convergence ctx
|}.

Lemma context_of_caller env db e row caller :
  _build_authoritative_context env db e row caller =
  (ctx ← _build_authoritative_context env db e row None;
   Ok (override ctx (default TransitionContext_default caller))).
Proof.
  unfold _build_authoritative_context.
  destruct (build_closed_gate_actions db e _); cbn [mbind result_bind]; [|done].
  destruct (enum_of_value_or_raise (se_disposition_policy row)); cbn [mbind result_bind]; [|done].
  destruct (enum_of_value_or_raise (se_final_verdict row)); cbn [mbind result_bind]; [|done].
  by destruct (enum_of_value_or_raise (se_severity row)).
Qed.

Lemma close_ignores_override current ctx caller :
  current ≠ EventStatus.TRIAGING →
  validate_transition current EventStatus.CLOSED (Some (override ctx caller)) =
  validate_transition current EventStatus.CLOSED (Some ctx).
Proof.
  intros Hne. unfold validate_transition; cbn [from_option id].
  by rewrite (bool_decide_eq_false_2 (current = EventStatus.TRIAGING)).
Qed.

(** The gate trusts no caller: closing an event that is not in TRIAGING gives the same result,
    success or refusal, whatever transition context the caller passes in. *)
Theorem close_independent_of_caller (env : Env) (ck : Clock) (db : Db) (e : string)
    (row : SecurityEventRow) (c1 c2 : option TransitionContext) (op : string)
    (reason : option string) :
  db_events db !! e = Some row → se_status row ≠ enum_value EventStatus.TRIAGING →
  transition_tx env ck db e EventStatus.CLOSED c1 op reason =
  transition_tx env ck db e EventStatus.CLOSED c2 op reason.
Proof.
  intros Hrow Hne. unfold transition_tx. rewrite Hrow.
  destruct (enum_of_value_or_raise (se_status row)) as [current|] eqn:Ec;
    cbn [mbind result_bind]; [|done].
  apply enum_of_value_or_raise_Ok in Ec.
  assert (current ≠ EventStatus.TRIAGING) by congruence.
  rewrite (context_of_caller env db e row c1), (context_of_caller env db e row c2).
  destruct (_build_authoritative_context env db e row None) as [ctx|]; cbn [mbind result_bind];
    [|done].
  rewrite !close_ignores_override by done.
  destruct (validate_transition current EventStatus.CLOSED (Some ctx)); cbn [mbind result_bind];
    [|done].
  unfold _apply_pre_transition_side_effects.
  rewrite !(bool_decide_eq_false_2 (EventStatus.CLOSED = EventStatus.REPLANNING)) by done.
  rewrite !(bool_decide_eq_false_2 (EventStatus.CLOSED ∈ _)) by set_solver.
  by rewrite !andb_false_r.
Qed.
