(* ===== verification/ApprovalRules.v ===== *)
(** * Approval rules (services/approval_engine.py, lines 81-319; models/action.py;
      services/action_mapper.py, action_approval_policy.py, playbook_approval_binding.py)

    The validated [Action] of a row, the hard gates, the level rules and the evidence an approval
    is bound to.  Parameters: pydantic's validation of the columns no rule reads and of the
    playbook columns, and SHA-256.  The confidence and the severity of a risk assessment are left
    out: [evaluate_level_rules] takes them and does not read them. *)

From stdpp Require Import prelude strings pretty.
From S2P Require Import Prelude Enums Errors Tables Lifecycles Db StateMachine.

#[local] Open Scope string_scope.

(** ** Models *)

(** The fields of [PlaybookRef] that the binding reads, and its JSON dump. *)
Record PlaybookRef : Type := {
  pb_release_id : string;
  pb_content_hash : string;
  pb_bundle_content_hash : string;
  pb_revision : Z;
  pb_dump : pyval
}.

Record PlaybookActionTemplateSnapshot : Type := {
  ts_required_capabilities : list string;
  ts_template_hash : string;
  ts_dump : pyval
}.

(** The fields of [CapabilityManifest] that the gates read. *)
Record CapabilityManifest : Type := {
  cm_source_read : CapabilityState;
  cm_event_disposition : CapabilityState;
  cm_entity_response : CapabilityState;
  cm_allowed_operations : list string;
  cm_supports_lookup_by_idempotency : bool;
  cm_supports_idempotency : bool
}.

(** The fields of [Action] that the engine reads. *)
Record Action : Type := {
  a_action_id : string;
  a_event_id : string;
  a_plan_revision : Z;
  a_action_fingerprint : string;
  a_action_category : ActionCategory;
  a_tool_name : string;
  a_action_level : ActionLevel;
  a_execution_phase : ActionExecutionPhase;
  a_activation_condition : option string;
  a_status : ActionStatus;
  a_impact_assessment : option pyval;
  a_playbook_ref : option PlaybookRef;
  a_action_template_snapshot : option PlaybookActionTemplateSnapshot;
  a_execution_owner : option ExecutionOwner;
  a_writeback_required : bool;
  a_writeback_applicable : bool;
  a_writeback_readiness : WritebackReadiness;
  a_writeback_status : option WritebackStatus
}.

Definition value_error (message : string) : error := builtin_error ValueError message.

(** ** Validators of [Action] *)

Definition _enforce_owner_and_phase (a : Action) : result unit :=
  let category := enum_value (a_action_category a) in
  (if a_action_category a ∈? [ActionCategory.SYSTEM; ActionCategory.VERIFICATION] then
     raise_if (negb (bool_decide (a_execution_owner a = None)))
       (value_error (category +++ " action must not set execution_owner")) ;;
     raise_if (a_writeback_required a || a_writeback_applicable a)
       (value_error (category +++ " action cannot require/apply writeback"))
   else Ok tt) ;;
  (if (a_action_category a ∈? [ActionCategory.RESPONSE; ActionCategory.ROLLBACK])
      && bool_decide (a_execution_owner a = None) then
     raise_if (negb (a_writeback_required a && negb (a_writeback_applicable a)
                     && (a_writeback_readiness a ==? WritebackReadiness.NOT_REQUIRED)
                     && (a_tool_name a !=? TERMINAL_DISPOSITION_TOOL)))
       (value_error (category +++ " action must select exactly one " +++
                     "execution_owner (XDR_MANAGED xor DIRECT_TOOL)"))
   else Ok tt) ;;
  if a_tool_name a ==? TERMINAL_DISPOSITION_TOOL then
    raise_if (a_execution_phase a !=? ActionExecutionPhase.POST_VERIFY)
      (value_error (TERMINAL_DISPOSITION_TOOL +++ " must be POST_VERIFY")) ;;
    raise_if (a_activation_condition a !=? Some "after_effect_resolution")
      (value_error (TERMINAL_DISPOSITION_TOOL +++ " requires " +++
                    "activation_condition=after_effect_resolution"))
  else
    raise_if (a_execution_phase a !=? ActionExecutionPhase.IMMEDIATE)
      (value_error "only update_source_event_disposition may be POST_VERIFY").

Definition _enforce_writeback_consistency (a : Action) : result unit :=
  if negb (a_writeback_required a) then
    raise_if (a_writeback_applicable a)
      (value_error "writeback_required=false forbids writeback_applicable=true") ;;
    raise_if (a_writeback_readiness a !=? WritebackReadiness.NOT_REQUIRED)
      (value_error "writeback_required=false requires writeback_readiness=NOT_REQUIRED") ;;
    raise_if (negb (bool_decide (a_writeback_status a = None)))
      (value_error "writeback_required=false requires writeback_status=null")
  else if negb (a_writeback_applicable a) then
    raise_if (a_writeback_readiness a !=? WritebackReadiness.NOT_REQUIRED)
      (value_error "writeback_applicable=false requires writeback_readiness=NOT_REQUIRED") ;;
    raise_if (negb (bool_decide (a_writeback_status a = None)))
      (value_error "writeback_applicable=false requires writeback_status=null")
  else
    raise_if (a_writeback_readiness a ==? WritebackReadiness.NOT_REQUIRED)
      (value_error ("writeback_required=true and writeback_applicable=true forbid " +++
                    "writeback_readiness=NOT_REQUIRED")) ;;
    raise_if ((a_writeback_readiness a !=? WritebackReadiness.READY)
              && negb (bool_decide (a_writeback_status a = None)))
      (value_error ("writeback_readiness=" +++ enum_value (a_writeback_readiness a) +++
                    " blocks any writeback attempt; writeback_status must be null")).

(** ** Settings and parameters *)

Record ApprovalEnv : Type := {
  ae_manifest : CapabilityManifest;
  ae_auto_response_enabled : bool;
  ae_auto_response_max_auto_level : string;
  ae_approval_timeout_minutes : Z;
  ae_parse_playbook_ref : pyval → result PlaybookRef;
  ae_parse_template : pyval → result PlaybookActionTemplateSnapshot;
  (** pydantic's validation of the columns no rule reads *)
  ae_columns_valid : ActionRow → result unit;
  ae_sha256 : string → string;
  (** the hash of [{"comment": ...}] *)
  ae_comment_hash : string → string;
  ae_isoformat : Z → string;
  ae_has_context_store : bool;
  (** [ImpactAssessmentService.assess], as JSON *)
  ae_assess : option (Action → result pyval)
}.

Definition opt_parse {A B} (f : A → result B) (o : option A) : result (option B) :=
  match o with
  | None => Ok None
  | Some x => y ← f x; Ok (Some y)
  end.

(** The enum members first, as the mapper does, then the fields of the model. *)
Definition action_from_orm (ae : ApprovalEnv) (row : ActionRow) : result Action :=
  category ← enum_of_value_or_raise (act_action_category row);
  level ← enum_of_value_or_raise (act_action_level row);
  phase ← enum_of_value_or_raise (act_execution_phase row);
  status ← enum_of_value_or_raise (act_status row);
  readiness ← enum_of_value_or_raise (act_writeback_readiness row);
  ae_columns_valid ae row ;;
  playbook_ref ← opt_parse (ae_parse_playbook_ref ae) (act_playbook_ref row);
  template ← opt_parse (ae_parse_template ae) (act_action_template_snapshot row);
  owner ← opt_parse enum_of_value_or_raise (act_execution_owner row);
  writeback_status ← opt_parse enum_of_value_or_raise (act_writeback_status row);
  let a := {|
    a_action_id := act_action_id row; a_event_id := act_event_id row;
    a_plan_revision := act_plan_revision row;
    a_action_fingerprint := act_action_fingerprint row; a_action_category := category;
    a_tool_name := act_tool_name row; a_action_level := level; a_execution_phase := phase;
    a_activation_condition := act_activation_condition row; a_status := status;
    a_impact_assessment := act_impact_assessment row; a_playbook_ref := playbook_ref;
    a_action_template_snapshot := template; a_execution_owner := owner;
    a_writeback_required := act_writeback_required row;
    a_writeback_applicable := act_writeback_applicable row;
    a_writeback_readiness := readiness; a_writeback_status := writeback_status |} in
  _enforce_owner_and_phase a ;;
  _enforce_writeback_consistency a ;;
  Ok a.

(** ** Decisions *)

Record ApprovalDecision : Type := {
  ad_decision : ApprovalDecisionKind;
  ad_rule_applied : string;
  ad_reason : string
}.

Definition manifest_capability (m : CapabilityManifest) (capability : string) :
    option CapabilityState :=
  if capability ==? "entity_response" then Some (cm_entity_response m)
  else if capability ==? "event_disposition" then Some (cm_event_disposition m)
  else if capability ==? "source_read" then Some (cm_source_read m)
  else None.

(** The reason of the first capability the manifest does not support.  Its [repr] is written for
    names without quotes and escapes. *)
Fixpoint manifest_supports_template_capabilities (m : CapabilityManifest)
    (required : list string) : option string :=
  match required with
  | [] => None
  | capability :: required' =>
      match manifest_capability m capability with
      | None => Some ("unknown playbook capability '" +++ capability +++ "'")
      | Some state =>
          if state !=? CapabilityState.SUPPORTED
          then Some ("playbook capability '" +++ capability +++ "' is " +++ enum_value state)
          else manifest_supports_template_capabilities m required'
      end
  end.

Definition auto_reject (rule reason : string) : ApprovalDecision :=
  {| ad_decision := ApprovalDecisionKind.AUTO_REJECT; ad_rule_applied := rule;
     ad_reason := reason |}.

Definition require_approval (rule reason : string) : ApprovalDecision :=
  {| ad_decision := ApprovalDecisionKind.REQUIRE_APPROVAL; ad_rule_applied := rule;
     ad_reason := reason |}.

Definition auto_approve (rule reason : string) : ApprovalDecision :=
  {| ad_decision := ApprovalDecisionKind.AUTO_APPROVE; ad_rule_applied := rule;
     ad_reason := reason |}.

(** The tool and the playbook template against the provider's manifest. *)
Definition manifest_gate (a : Action) (m : CapabilityManifest) : option ApprovalDecision :=
  if (a_action_category a !=? ActionCategory.ROLLBACK)
     && (a_tool_name a !=? TERMINAL_DISPOSITION_TOOL) then
    if negb (a_tool_name a ∈? cm_allowed_operations m) then
      Some (auto_reject "capability_not_allowed"
              ("tool " +++ a_tool_name a +++ " not in provider manifest"))
    else match a_action_template_snapshot a with
         | None => None
         | Some t =>
             match manifest_supports_template_capabilities m (ts_required_capabilities t) with
             | None => None
             | Some reason => Some (auto_reject "playbook_capability_unsupported" reason)
             end
         end
  else None.

Definition readiness_gate (readiness : WritebackReadiness) : option ApprovalDecision :=
  if readiness ==? WritebackReadiness.PERMISSION_DENIED then
    Some (auto_reject "permission_denied" "disposition permission denied for target/source")
  else if readiness ∈? [WritebackReadiness.CAPABILITY_UNSUPPORTED;
                        WritebackReadiness.NOT_CONFIGURED] then
    Some (auto_reject "capability_unsupported"
            ("writeback readiness=" +++ enum_value readiness))
  else if readiness ∈? [WritebackReadiness.SOURCE_UNRESOLVED;
                        WritebackReadiness.CAPABILITY_UNKNOWN;
                        WritebackReadiness.CONNECTOR_UNAVAILABLE] then
    Some (require_approval "source_or_capability_gate"
            ("writeback readiness=" +++ enum_value readiness +++ " requires human review"))
  else None.

Definition evaluate_hard_gates (a : Action) (m : CapabilityManifest) :
    option ApprovalDecision :=
  if bool_decide (a_execution_owner a = None) then None
  else match manifest_gate a m with
       | Some d => Some d
       | None =>
           match readiness_gate (a_writeback_readiness a) with
           | Some d => Some d
           | None =>
               if (a_action_level a ∈? AUTO_APPROVABLE_ACTION_LEVELS)
                  && (negb (cm_supports_idempotency m)
                      || negb (cm_supports_lookup_by_idempotency m))
               then Some (require_approval "provider_idempotency_missing"
                            "provider lacks idempotency/lookup; manual approval required")
               else None
           end
       end.

Definition action_level_rank (l : ActionLevel) : Z :=
  match l with
  | ActionLevel.L0 => 0 | ActionLevel.L1 => 1 | ActionLevel.L2 => 2
  | ActionLevel.L3 => 3 | ActionLevel.L4 => 4 | ActionLevel.L5 => 5
  end.

(** [(settings.auto_response_max_auto_level or "L1").strip()] *)
Definition resolve_runtime_max_auto_level (ae : ApprovalEnv) : option ActionLevel :=
  if negb (ae_auto_response_enabled ae) then None
  else
    let raw := str_strip (if ae_auto_response_max_auto_level ae ==? "" then "L1"
                          else ae_auto_response_max_auto_level ae) in
    Some (default ActionLevel.L1 (parse_action_level_label raw)).

Definition evaluate_level_rules (level : ActionLevel) (max_auto_level : option ActionLevel) :
    ApprovalDecision :=
  if level ∈? AUTO_APPROVABLE_ACTION_LEVELS then
    let cap := default ActionLevel.L1 max_auto_level in
    if (action_level_rank cap <? action_level_rank level)%Z
    then require_approval "level_exceeds_auto_cap"
           (enum_value level +++ " exceeds configured auto-approve cap " +++ enum_value cap +++
            " (ISSUE-109)")
    else auto_approve "level_l0_l1" (enum_value level +++ " auto-approvable after gates")
  else if level ==? ActionLevel.L2 then
    require_approval "level_l2_requires_human"
      "L2 requires human approval (confidence does not auto-approve)"
  else if level ==? ActionLevel.L3 then
    require_approval "level_l3_requires_human"
      "L3 requires human approval (severity/confidence do not auto-approve)"
  else
    require_approval "level_l4_l5_manual" (enum_value level +++ " requires human approval").

(** The decision of [ApprovalEngine.evaluate] on an Action without a record. *)
Definition evaluation_of (ae : ApprovalEnv) (a : Action) : ApprovalDecision :=
  match evaluate_hard_gates a (ae_manifest ae) with
  | Some gate => gate
  | None => evaluate_level_rules (a_action_level a) (resolve_runtime_max_auto_level ae)
  end.

(** ** Binding an approval to what was approved *)

Definition APPROVAL_POLICY_VERSION : string := "issue109_v1".
Definition APPROVAL_POLICY_SOURCE : string := "AUTO_APPROVABLE_ACTION_LEVELS".

Definition compute_playbook_binding_hash (ae : ApprovalEnv) (a : Action) : string :=
  match a_playbook_ref a with
  | None => ""
  | Some p =>
      ae_sha256 ae (str_join "|"
        ([pb_release_id p; pb_bundle_content_hash p; pb_content_hash p;
          pretty (pb_revision p)]
         ++ match a_action_template_snapshot a with
            | None => []
            | Some t => [ts_template_hash t]
            end)%list)
  end.

Definition build_approval_binding_detail (ae : ApprovalEnv) (a : Action) :
    list (string * pyval) :=
  [("plan_revision", VInt (a_plan_revision a));
   ("action_fingerprint", VStr (a_action_fingerprint a));
   ("policy_version", VStr APPROVAL_POLICY_VERSION);
   ("policy_source", VStr APPROVAL_POLICY_SOURCE);
   ("playbook_binding_hash", VStr (compute_playbook_binding_hash ae a));
   ("playbook_ref", match a_playbook_ref a with Some p => pb_dump p | None => VNone end);
   ("action_template_snapshot",
     match a_action_template_snapshot a with Some t => ts_dump t | None => VNone end)].

(** [isinstance(v, int)]: a bool is an int. *)
Definition int_of (v : option pyval) : option Z :=
  match v with
  | Some (VInt z) => Some z
  | Some (VBool b) => Some (if b then 1%Z else 0%Z)
  | _ => None
  end.

(** A non-empty string. *)
Definition text_of (v : option pyval) : option string :=
  match v with
  | Some (VStr s) => if s ==? "" then None else Some s
  | _ => None
  end.

Definition binding_error (a : Action) (message reason : string)
    (details : list (string * pyval)) : error :=
  ShadowTraceError_init ValidationError message None
    (("action_id", VStr (a_action_id a)) :: details ++ [("reason", VStr reason)])%list.

Definition validate_approval_binding (ae : ApprovalEnv) (a : Action)
    (detail : option (list (string * pyval))) : result unit :=
  if bool_decide (a_playbook_ref a = None) then Ok tt
  else match detail with
  | None => Err (binding_error a "approval binding missing for playbook-pinned action"
                   "binding_detail_missing" [])
  | Some detail =>
    match int_of (dict_get detail "plan_revision") with
    | None => Err (binding_error a
        "approval binding missing plan revision for playbook-pinned action"
        "plan_revision_missing" [])
    | Some bound =>
        raise_if (bound !=? a_plan_revision a)
          (binding_error a "approval binding stale: plan revision changed"
             "plan_revision_mismatch"
             [("bound_plan_revision", VInt bound);
              ("current_plan_revision", VInt (a_plan_revision a))]) ;;
        match text_of (dict_get detail "action_fingerprint") with
        | None => Err (binding_error a
            "approval binding missing action fingerprint for playbook-pinned action"
            "action_fingerprint_missing" [])
        | Some fingerprint =>
            raise_if (fingerprint !=? a_action_fingerprint a)
              (binding_error a "approval binding stale: action fingerprint changed"
                 "action_fingerprint_mismatch" []) ;;
            match text_of (dict_get detail "policy_version") with
            | None => Err (binding_error a
                "approval binding missing policy version for playbook-pinned action"
                "policy_version_missing" [])
            | Some version =>
                raise_if (version !=? APPROVAL_POLICY_VERSION)
                  (binding_error a "approval binding stale: policy version changed"
                     "policy_version_mismatch"
                     [("bound_policy_version", VStr version);
                      ("current_policy_version", VStr APPROVAL_POLICY_VERSION)]) ;;
                match text_of (dict_get detail "playbook_binding_hash") with
                | None => Err (binding_error a
                    "approval binding missing playbook hash for playbook-pinned action"
                    "playbook_binding_hash_missing" [])
                | Some bound_hash =>
                    raise_if (compute_playbook_binding_hash ae a !=? bound_hash)
                      (binding_error a "approval binding stale: playbook binding changed"
                         "playbook_binding_mismatch" [])
                end
            end
        end
    end
  end.
