(* ===== verification/Approval.v ===== *)
(** * The approval engine (services/approval_engine.py, lines 64-178 and 322-1269)

    Evaluation of Actions, human decisions with their idempotency keys, timeouts, and the event
    transition once a plan is decided.  A transaction takes the database and returns the one it
    commits; [Err] leaves the database as it was.  The Action given to an evaluation is the one
    its caller loaded, possibly in an earlier transaction: it is an argument of its own, apart
    from the row.  Left out: the event bus; the resume and rollback hooks are arguments, and what
    they change belongs to the steps they start. *)

From stdpp Require Import prelude strings pretty.
From S2P Require Import Prelude Enums Errors Tables Lifecycles Workflow Db Reconcile.
From S2P Require Import ContextJournal ContextStore StateMachine ApprovalRules.

#[local] Open Scope string_scope.

Definition SYSTEM_TIMEOUT_OPERATOR : string := "system_timeout".
Definition APPROVAL_ENGINE_OPERATOR : string := "ApprovalEngine".

Definition _APPROVAL_TERMINAL : list ActionStatus :=
  [ActionStatus.APPROVED; ActionStatus.REJECTED].

Definition _POST_APPROVE_LIFECYCLE : list ActionStatus :=
  [ActionStatus.EXECUTING; ActionStatus.PARTIAL_SUCCESS; ActionStatus.SUCCESS;
   ActionStatus.FAILED; ActionStatus.UNKNOWN; ActionStatus.ROLLED_BACK].

Inductive ResumeStatus : Type := resume_ok | resume_failed | resume_skipped | resume_deferred.

Record ApprovalOutcome : Type := {
  ao_resume_status : option ResumeStatus;
  ao_resume_degraded : bool;
  ao_persisted_status : option ActionStatus;
  ao_decision_id : option string;
  ao_idempotent_replay : bool
}.

Record EvaluatePlanResult : Type := {
  ep_needs_wait : bool;
  ep_plan_revision : Z;
  ep_evaluated_count : nat;
  ep_resume_deferred : bool
}.

(** The clock readings of an operation: the timeout base, the record, the Action row. *)
Record ApprovalClock : Type := {
  ak_timeout : Z;
  ak_now : Z;
  ak_status : Z
}.

(** ** Idempotency *)

Definition _approval_operation (target : ActionStatus) : string :=
  if target ==? ActionStatus.APPROVED then "approve" else "reject".

Definition _decision_status_for_operation (operation : string) : ActionStatus :=
  if operation ==? "approve" then ActionStatus.APPROVED else ActionStatus.REJECTED.

Definition _normalize_approval_comment (comment : option string) : string :=
  match comment with None => "" | Some c => str_strip c end.

Definition _approval_payload_hash (ae : ApprovalEnv) (comment : option string) : string :=
  ae_comment_hash ae (_normalize_approval_comment comment).

(** The stored operation is whatever the column holds. *)
Record _ApprovalIdempotencyBinding : Type := {
  ib_operation : pyval;
  ib_payload_hash : string
}.

Definition truthy_get (d : list (string * pyval)) (k : string) : option pyval :=
  match dict_get d k with
  | Some v => if py_truthy v then Some v else None
  | None => None
  end.

Definition _idempotency_binding_from_record (ae : ApprovalEnv) (r : ApprovalRow)
    (action_status : ActionStatus) : _ApprovalIdempotencyBinding :=
  let legacy := {|
    ib_operation := VStr (if action_status ==? ActionStatus.REJECTED then "reject"
                          else "approve");
    ib_payload_hash := _approval_payload_hash ae (ap_comment r) |} in
  match dict_get (default [] (ap_detail r)) "idempotency" with
  | Some (VDict stored) =>
      match truthy_get stored "operation", truthy_get stored "payload_hash" with
      | Some operation, Some hash =>
          {| ib_operation := operation; ib_payload_hash := py_str hash |}
      | _, _ => legacy
      end
  | _ => legacy
  end.

Definition idempotency_detail (detail : option (list (string * pyval)))
    (operation payload_hash : string) : list (string * pyval) :=
  dict_set (default [] detail) "idempotency"
    (VDict [("operation", VStr operation); ("payload_hash", VStr payload_hash)]).

(** ** Rows *)

Definition decided (r : ApprovalRow) : bool := negb (bool_decide (ap_decided_at r = None)).

Definition _load_record_row (db : Db) (action_id : string) (cycle : Z) : option ApprovalRow :=
  List.find (λ r, (ap_action_id r ==? action_id) && (ap_approval_cycle r ==? cycle))
    (db_approvals db).

Definition _load_pending_record_row (db : Db) (action_id : string) : option ApprovalRow :=
  last_by ap_approval_cycle
    (List.filter (λ r, (ap_action_id r ==? action_id) && negb (decided r)) (db_approvals db)).

Definition _load_action_row (db : Db) (action_id : string) : option ActionRow :=
  get_by act_action_id action_id (db_actions db).

Definition put_record (r : ApprovalRow) (db : Db) : Db :=
  db_with_approvals (update_by ap_approval_id r (db_approvals db)) db.

(** A record with its decision columns replaced. *)
Definition record_decided (r : ApprovalRow) (decision : string) (operator comment : option string)
    (decision_id : option string) (detail : option (list (string * pyval))) (now : Z) :
    ApprovalRow := {|
  ap_approval_id := ap_approval_id r; ap_action_id := ap_action_id r;
  ap_event_id := ap_event_id r; ap_plan_revision := ap_plan_revision r;
  ap_approval_cycle := ap_approval_cycle r; ap_decision_id := decision_id;
  ap_required_level := ap_required_level r; ap_decision := decision; ap_operator := operator;
  ap_comment := comment; ap_detail := detail; ap_requested_at := ap_requested_at r;
  ap_decided_at := Some now; ap_timeout_at := ap_timeout_at r
|}.

(** The Action row after [status = ...; updated_at = now]. *)
Definition with_status (a : ActionRow) (status : ActionStatus) (now : Z) : ActionRow :=
  moved_action a status (act_execution_job_id a) (act_executed_at a) now.

(** [UPDATE action SET ... WHERE action_id = ...] *)
Definition update_action_status (db : Db) (action_id : string) (status : ActionStatus) (now : Z) :
    Db :=
  db_with_executions
    (map (λ a, if act_action_id a ==? action_id then with_status a status now else a)
       (db_actions db)) (db_jobs db) db.

(** The record as the context stores it. *)
Definition _record_to_model (ae : ApprovalEnv) (r : ApprovalRow) : result pyval :=
  level ← enum_of_value_or_raise (A:=ActionLevel) (ap_required_level r);
  decision ← enum_of_value_or_raise (A:=ApprovalDecisionKind) (ap_decision r);
  let time (t : option Z) := opt_str (ae_isoformat ae <$> t) in
  Ok (VDict [
    ("approval_id", VStr (ap_approval_id r)); ("action_id", VStr (ap_action_id r));
    ("event_id", VStr (ap_event_id r)); ("plan_revision", VInt (ap_plan_revision r));
    ("approval_cycle", VInt (ap_approval_cycle r)); ("decision_id", opt_str (ap_decision_id r));
    ("required_level", VStr (enum_value level)); ("decision", VStr (enum_value decision));
    ("operator", opt_str (ap_operator r)); ("comment", opt_str (ap_comment r));
    ("detail", VDict (default [] (ap_detail r)));
    ("requested_at", time (Some (ap_requested_at r))); ("decided_at", time (ap_decided_at r));
    ("timeout_at", time (ap_timeout_at r))]).

Fixpoint records_to_models (ae : ApprovalEnv) (rows : list ApprovalRow) : result (list pyval) :=
  match rows with
  | [] => Ok []
  | r :: rows' => v ← _record_to_model ae r; l ← records_to_models ae rows'; Ok (v :: l)
  end.

Definition _sync_wm_records (ae : ApprovalEnv) (db : Db) (event_id : string) : result Db :=
  if negb (ae_has_context_store ae) then Ok db
  else
    payload ← records_to_models ae
                (List.filter (λ r, ap_event_id r ==? event_id) (db_approvals db));
    r ← append_context_journal_in_session db event_id "approval_records" (VList payload);
    Ok r.1.

(** ** Writing an evaluation *)

Definition record_detail (ae : ApprovalEnv) (a : Action) (d : ApprovalDecision) :
    list (string * pyval) :=
  ([("rule_applied", VStr (ad_rule_applied d)); ("reason", VStr (ad_reason d))]
   ++ build_approval_binding_detail ae a
   ++ [("impact_assessment", default VNone (a_impact_assessment a))])%list.

(** [approval_id] is the generated key of a new record. *)
Definition _upsert_record (ae : ApprovalEnv) (ak : ApprovalClock) (db : Db) (a : Action)
    (d : ApprovalDecision) (cycle : Z) (approval_id : string) : result Db :=
  let human := ad_decision d ==? ApprovalDecisionKind.REQUIRE_APPROVAL in
  let timeout_at := if human then Some (ak_timeout ak + 60 * ae_approval_timeout_minutes ae)%Z
                    else None in
  let detail := Some (record_detail ae a d) in
  db ← match _load_record_row db (a_action_id a) cycle with
       | Some existing =>
           Ok (put_record {|
             ap_approval_id := ap_approval_id existing; ap_action_id := ap_action_id existing;
             ap_event_id := ap_event_id existing; ap_plan_revision := ap_plan_revision existing;
             ap_approval_cycle := ap_approval_cycle existing;
             ap_decision_id := ap_decision_id existing;
             ap_required_level := ap_required_level existing;
             ap_decision := enum_value (ad_decision d); ap_operator := ap_operator existing;
             ap_comment := ap_comment existing; ap_detail := detail;
             ap_requested_at := ap_requested_at existing;
             ap_decided_at := ap_decided_at existing; ap_timeout_at := timeout_at |} db)
       | None =>
           raise_if (bool_decide (is_Some (get_by ap_approval_id approval_id (db_approvals db))))
             (builtin_error IntegrityError "unique constraint violated") ;;
           Ok (db_with_approvals (db_approvals db ++ [{|
             ap_approval_id := approval_id; ap_action_id := a_action_id a;
             ap_event_id := a_event_id a; ap_plan_revision := a_plan_revision a;
             ap_approval_cycle := cycle; ap_decision_id := None;
             ap_required_level := enum_value (a_action_level a);
             ap_decision := enum_value (ad_decision d);
             ap_operator := if human then None else Some APPROVAL_ENGINE_OPERATOR;
             ap_comment := None; ap_detail := detail; ap_requested_at := ak_now ak;
             ap_decided_at := if human then None else Some (ak_now ak);
             ap_timeout_at := timeout_at |}])%list db)
       end;
  _sync_wm_records ae db (a_event_id a).

Definition approval_args (a : Action) (evidence : bool) : ActionTransitionArgs := {|
  ata_execution_phase := a_execution_phase a; ata_after_effect_resolution := false;
  ata_template_unchanged := true; ata_has_job_or_outbox := false;
  ata_action_level := a_action_level a; ata_auto_execute := false;
  ata_has_approval_evidence := evidence; ata_lease_expired_reclaim := false
|}.

(** The transition is validated from the status the caller loaded; the row is overwritten. *)
Definition _set_action_status (ak : ApprovalClock) (db : Db) (a : Action) (target : ActionStatus)
    (has_approval_evidence : bool) : result Db :=
  validate_action_status_transition (a_action_category a) (a_status a) target
    (approval_args a (has_approval_evidence || (target ==? ActionStatus.APPROVED))) ;;
  Ok (update_action_status db (a_action_id a) target (ak_status ak)).

(** [ImpactAssessmentService.persist_evaluation] *)
Definition persist_impact (ae : ApprovalEnv) (ak : ApprovalClock) (db : Db) (a : Action) :
    result Db :=
  match ae_assess ae, a_impact_assessment a with
  | Some _, Some v =>
      let db := db_with_executions
        (map (λ row, if act_action_id row ==? a_action_id a then {|
           act_action_id := act_action_id row; act_event_id := act_event_id row;
           act_plan_revision := act_plan_revision row;
           act_action_fingerprint := act_action_fingerprint row;
           act_action_category := act_action_category row; act_tool_name := act_tool_name row;
           act_action_level := act_action_level row;
           act_execution_phase := act_execution_phase row;
           act_activation_condition := act_activation_condition row;
           act_approved_terminal_dispositions := act_approved_terminal_dispositions row;
           act_status := act_status row; act_impact_assessment := Some v;
           act_playbook_ref := act_playbook_ref row;
           act_action_template_snapshot := act_action_template_snapshot row;
           act_execution_owner := act_execution_owner row;
           act_execution_job_id := act_execution_job_id row;
           act_writeback_required := act_writeback_required row;
           act_writeback_applicable := act_writeback_applicable row;
           act_writeback_readiness := act_writeback_readiness row;
           act_writeback_status := act_writeback_status row;
           act_superseded_by_revision := act_superseded_by_revision row;
           act_executed_at := act_executed_at row; act_updated_at := ak_now ak |} else row)
           (db_actions db)) (db_jobs db) db in
      r ← append_list_context_journal_in_session db (a_event_id a) "impact_assessments" v;
      Ok r.1
  | _, _ => Ok db
  end.

(** The transaction of [_persist_evaluation]. *)
Definition persist_evaluation_tx (ae : ApprovalEnv) (ak : ApprovalClock) (db : Db) (a : Action)
    (d : ApprovalDecision) (cycle : Z) (approval_id : string) : result Db :=
  db ← persist_impact ae ak db a;
  db ← _upsert_record ae ak db a d cycle approval_id;
  match ad_decision d with
  | ApprovalDecisionKind.AUTO_APPROVE => _set_action_status ak db a ActionStatus.APPROVED true
  | ApprovalDecisionKind.AUTO_REJECT => _set_action_status ak db a ActionStatus.REJECTED false
  | ApprovalDecisionKind.REQUIRE_APPROVAL =>
      _set_action_status ak db a ActionStatus.WAITING_APPROVAL false
  end.

(** The transaction of [require_manual_review]. *)
Definition manual_review_tx (ae : ApprovalEnv) (ak : ApprovalClock) (db : Db)
    (action_id reason : string) (cycle : Z) (approval_id : string) : result (Db * Action) :=
  match _load_action_row db action_id with
  | None => Err (ShadowTraceError_init ResourceNotFoundError "action not found" None
                   [("action_id", VStr action_id)])
  | Some row =>
      a ← action_from_orm ae row;
      db ← _upsert_record ae ak db a (require_approval "manual_review" reason) cycle approval_id;
      db ← _set_action_status ak db a ActionStatus.WAITING_APPROVAL false;
      Ok (db, a)
  end.

(** ** Timeouts *)

Definition timed_out (r : ApprovalRow) (now : Z) : ApprovalRow :=
  record_decided r (enum_value ApprovalDecisionKind.AUTO_REJECT) (Some SYSTEM_TIMEOUT_OPERATOR)
    (Some "approval timeout") (ap_decision_id r) (ap_detail r) now.

(** [None]: nothing to do. *)
Definition handle_timeout_tx (ae : ApprovalEnv) (now : Z) (db : Db) (action_id : string)
    (cycle : Z) : result (Db * option Action) :=
  match _load_action_row db action_id with
  | None => Ok (db, None)
  | Some row =>
      if act_status row !=? enum_value ActionStatus.WAITING_APPROVAL then Ok (db, None)
      else match _load_record_row db action_id cycle with
           | None => Ok (db, None)
           | Some record =>
               if decided record then Ok (db, None)
               else
                 let row' := with_status row ActionStatus.REJECTED now in
                 action ← action_from_orm ae row';
                 Ok (put_action row' (put_record (timed_out record now) db), Some action)
           end
  end.

Definition expired_record (now : Z) (r : ApprovalRow) : bool :=
  negb (decided r)
  && match ap_timeout_at r with Some t => (t <=? now)%Z | None => false end
  && (ap_decision r ==? enum_value ApprovalDecisionKind.REQUIRE_APPROVAL).

Fixpoint scan_records (now : Z) (db : Db) (rows : list ApprovalRow) : Db * list string :=
  match rows with
  | [] => (db, [])
  | record :: rows' =>
      match _load_action_row db (ap_action_id record) with
      | None => scan_records now db rows'
      | Some action =>
          if act_status action !=? enum_value ActionStatus.WAITING_APPROVAL
          then scan_records now db rows'
          else
            let db := put_action (with_status action ActionStatus.REJECTED now)
                        (put_record (timed_out record now) db) in
            let '(db, touched) := scan_records now db rows' in
            (db, if act_action_category action !=? enum_value ActionCategory.ROLLBACK
                 then ap_event_id record :: touched else touched)
      end
  end.

Definition _scan_expired_approval_records (now : Z) (db : Db) : Db * list string :=
  scan_records now db (List.filter (expired_record now) (db_approvals db)).

(** ** Decisions *)

Definition conflict_error (message : string) (details : list (string * pyval)) : error :=
  ShadowTraceError_init ApprovalDecisionConflictError message None details.

Definition is_text (v : pyval) (s : string) : bool :=
  match v with VStr t => t ==? s | _ => false end.

Definition _resolve_idempotent_replay (ae : ApprovalEnv) (db : Db) (action_id decision_id : string)
    (operation payload_hash : string) (action_status : string) :
    result (option ApprovalOutcome) :=
  match List.find (λ r, (ap_decision_id r ==? Some decision_id) && decided r)
          (db_approvals db) with
  | None => Ok None
  | Some replay =>
      raise_if (ap_action_id replay !=? action_id)
        (conflict_error "decision_id already used" [("decision_id", VStr decision_id)]) ;;
      status ← enum_of_value_or_raise action_status;
      let stored := _idempotency_binding_from_record ae replay status in
      raise_if (negb (is_text (ib_operation stored) operation)
                || (ib_payload_hash stored !=? payload_hash))
        (conflict_error "decision_id replay operation or payload mismatch"
           [("decision_id", VStr decision_id); ("action_id", VStr action_id);
            ("expected_operation", ib_operation stored);
            ("requested_operation", VStr operation)]) ;;
      Ok (Some {| ao_resume_status := None; ao_resume_degraded := false;
                  ao_persisted_status := Some (_decision_status_for_operation operation);
                  ao_decision_id := Some decision_id; ao_idempotent_replay := true |})
  end.

(** [if decision_id: ...] *)
Definition decision_key (decision_id : option string) : option string :=
  match decision_id with
  | Some d => if d ==? "" then None else Some d
  | None => None
  end.

(** The checks of the decision transaction: the record to decide.  A pending record is undecided by
    its query, so the test for a decided one never fires. *)
Definition decision_checks (ae : ApprovalEnv) (db : Db) (row : ActionRow) (a : Action)
    (action_id : string) (decision_id : option string) (target : ActionStatus) :
    result ApprovalRow :=
  (if target ==? ActionStatus.APPROVED then
     match evaluate_hard_gates a (ae_manifest ae) with
     | Some gate =>
         Err (mk_InvalidStateTransitionError
                "approval blocked: capability or policy changed; re-evaluate required"
                (Some (enum_value (a_status a))) (Some (enum_value target))
                [("action_id", VStr action_id); ("rule_applied", VStr (ad_rule_applied gate));
                 ("reason", VStr (ad_reason gate))] None)
     | None =>
         match _load_pending_record_row db action_id with
         | Some pending =>
             match ap_detail pending with
             | Some detail => validate_approval_binding ae a (Some detail)
             | None => Ok tt
             end
         | None => Ok tt
         end
     end
   else Ok tt) ;;
  let record := _load_pending_record_row db action_id in
  (if a_status a !=? ActionStatus.WAITING_APPROVAL then
     raise_if ((a_status a ∈? _APPROVAL_TERMINAL)
               && existsb (λ r, (ap_action_id r ==? action_id) && decided r) (db_approvals db))
       (conflict_error "approval already decided by another operator"
          [("action_id", VStr action_id); ("current_status", VStr (enum_value (a_status a)))]) ;;
     Err (mk_InvalidStateTransitionError "action is not waiting for approval"
            (Some (enum_value (a_status a))) (Some (enum_value target))
            [("action_id", VStr action_id)] None)
   else Ok tt) ;;
  match record with
  | None => Err (ShadowTraceError_init ResourceNotFoundError "approval record missing" None
                   [("action_id", VStr action_id)])
  | Some record =>
      match decision_key decision_id with
      | None => Ok record
      | Some d =>
          raise_if (existsb (λ r, (ap_decision_id r ==? Some d)
                                  && (ap_action_id r !=? action_id)) (db_approvals db))
            (conflict_error "decision_id already used" [("decision_id", VStr d)]) ;;
          Ok record
      end
  end.

(** The unique constraint on [decision_id]. *)
Definition decision_id_taken (db : Db) (r : ApprovalRow) (decision_id : option string) : bool :=
  match decision_id with
  | None => false
  | Some d => existsb (λ r', (ap_decision_id r' ==? Some d)
                             && (ap_approval_id r' !=? ap_approval_id r)) (db_approvals db)
  end.

Definition decide_tx (ae : ApprovalEnv) (now : Z) (db : Db) (action_id : string)
    (principal : Principal) (comment decision_id : option string) (target : ActionStatus) :
    result (Db * Action) :=
  match _load_action_row db action_id with
  | None => Err (ShadowTraceError_init ResourceNotFoundError "action not found" None
                   [("action_id", VStr action_id)])
  | Some row =>
      a ← action_from_orm ae row;
      record ← decision_checks ae db row a action_id decision_id target;
      validate_action_status_transition (a_action_category a) (a_status a) target
        (approval_args a true) ;;
      raise_if (decision_id_taken db record decision_id)
        (builtin_error IntegrityError "unique constraint violated") ;;
      let record' := record_decided record (ap_decision record)
                       (Some (pr_subject principal)) comment decision_id
                       (Some (idempotency_detail (ap_detail record)
                                (_approval_operation target) (_approval_payload_hash ae comment)))
                       now in
      let row' := with_status row target now in
      decided_action ← action_from_orm ae row';
      Ok (put_action row' (put_record record' db), decided_action)
  end.

(** ** Plans *)

Definition plan_row (event_id : string) (plan_revision : Z) (a : ActionRow) : bool :=
  (act_event_id a ==? event_id) && (act_plan_revision a ==? plan_revision)
  && (act_action_category a ==? enum_value ActionCategory.RESPONSE)
  && bool_decide (act_superseded_by_revision a = None)
  && (act_status a !=? enum_value ActionStatus.SUPERSEDED).

Fixpoint actions_from_rows (ae : ApprovalEnv) (rows : list ActionRow) : result (list Action) :=
  match rows with
  | [] => Ok []
  | r :: rows' => a ← action_from_orm ae r; l ← actions_from_rows ae rows'; Ok (a :: l)
  end.

Definition _load_plan_response_actions (ae : ApprovalEnv) (db : Db) (event_id : string)
    (plan_revision : Z) : result (list Action) :=
  actions_from_rows ae (List.filter (plan_row event_id plan_revision) (db_actions db)).

Definition fully_decided (actions : list Action) : bool :=
  forallb (λ a, a_status a ∈? _APPROVAL_TERMINAL) actions.

Definition is_plan_fully_decided (ae : ApprovalEnv) (db : Db) (event_id : string)
    (plan_revision : Z) : result bool :=
  actions ← _load_plan_response_actions ae db event_id plan_revision;
  Ok (fully_decided actions).

(** The status a decided plan moves its event to. *)
Definition plan_target (actions : list Action) : option EventStatus :=
  let has (p : Action → bool) := existsb p actions in
  let approved := has (λ a, a_status a ==? ActionStatus.APPROVED) in
  let rejected := has (λ a, a_status a ==? ActionStatus.REJECTED) in
  let deferred (st : ActionStatus) :=
    has (λ a, (a_tool_name a ==? TERMINAL_DISPOSITION_TOOL) && (a_status a ==? st)) in
  let required := has a_writeback_required in
  if approved && (negb required || deferred ActionStatus.APPROVED)
  then Some EventStatus.EXECUTING_RESPONSE
  else if rejected && negb approved then Some EventStatus.REPORTING
  else if required && deferred ActionStatus.REJECTED then Some EventStatus.REPORTING
  else if approved then Some EventStatus.REPORTING
  else None.

(** [EventStatus(raw) if raw else None] *)
Definition _event_status (db : Db) (event_id : string) : result (option EventStatus) :=
  match db_events db !! event_id with
  | None => Ok None
  | Some row =>
      if se_status row ==? "" then Ok None
      else status ← enum_of_value_or_raise (se_status row); Ok (Some status)
  end.

Definition _latest_revision (db : Db) (event_id : string) : Z :=
  default 0%Z (max_of act_plan_revision
    (List.filter (λ a, act_event_id a ==? event_id) (db_actions db))).

(** The hooks: resuming the investigation graph, continuing a rollback, and whether the caller
    runs inside the graph of an event. *)
Record ApprovalHooks : Type := {
  ah_has_state_machine : bool;
  ah_resume : option (string → result (option ResumeStatus));
  ah_rollback : option (string → string → result (option ResumeStatus));
  ah_in_graph : string → bool
}.

Section engine.
Context {St : Type} `{ContextStore St} (env : Env) (ae : ApprovalEnv) (ah : ApprovalHooks).

Definition _ensure_event_waiting_approval (ck : Clock) (w : World St) (event_id : string) :
    result unit * World St :=
  if negb (ah_has_state_machine ah) then (Ok tt, w)
  else match _event_status (w_db w) event_id with
       | Err e => (Err e, w)
       | Ok (Some EventStatus.PLANNING_RESPONSE) =>
           let '(r, w) := transition env ck w event_id EventStatus.WAITING_APPROVAL None
                            (Some APPROVAL_ENGINE_OPERATOR) (Some "approval_required") in
           (r ≫= λ _, Ok tt, w)
       | Ok _ => (Ok tt, w)
       end.

(** [None]: the plan is not decided yet. *)
Definition resume_after_plan (event_id : string) : ResumeStatus :=
  match ah_resume ah with
  | None => resume_skipped
  | Some hook =>
      if ah_in_graph ah event_id then resume_deferred
      else match hook event_id with
           | Err _ => resume_failed
           | Ok (Some resume_deferred) => resume_deferred
           | Ok (Some resume_skipped) => resume_failed
           | Ok _ => resume_ok
           end
  end.

Definition _maybe_advance_plan (ck : Clock) (w : World St) (event_id : string)
    (plan_revision : Z) : result (option ResumeStatus) * World St :=
  match _load_plan_response_actions ae (w_db w) event_id plan_revision with
  | Err e => (Err e, w)
  | Ok actions =>
      if negb (fully_decided actions) then (Ok None, w)
      else match plan_target actions with
           | Some target =>
               if negb (ah_has_state_machine ah) then (Ok (Some (resume_after_plan event_id)), w)
               else match _event_status (w_db w) event_id with
                    | Err e => (Err e, w)
                    | Ok status =>
                        if status ∈? [Some EventStatus.WAITING_APPROVAL;
                                      Some EventStatus.PLANNING_RESPONSE] then
                          let '(r, w) := transition env ck w event_id target None
                            (Some APPROVAL_ENGINE_OPERATOR) (Some "plan_fully_decided") in
                          match r with
                          | Err _ => (Ok (Some resume_failed), w)
                          | Ok _ => (Ok (Some (resume_after_plan event_id)), w)
                          end
                        else (Ok (Some (resume_after_plan event_id)), w)
                    end
           | None => (Ok (Some (resume_after_plan event_id)), w)
           end
  end.

(** ** Operations *)

Definition with_impact (a : Action) (v : option pyval) : Action := {|
  a_action_id := a_action_id a; a_event_id := a_event_id a;
  a_plan_revision := a_plan_revision a; a_action_fingerprint := a_action_fingerprint a;
  a_action_category := a_action_category a; a_tool_name := a_tool_name a;
  a_action_level := a_action_level a; a_execution_phase := a_execution_phase a;
  a_activation_condition := a_activation_condition a; a_status := a_status a;
  a_impact_assessment := v; a_playbook_ref := a_playbook_ref a;
  a_action_template_snapshot := a_action_template_snapshot a;
  a_execution_owner := a_execution_owner a; a_writeback_required := a_writeback_required a;
  a_writeback_applicable := a_writeback_applicable a;
  a_writeback_readiness := a_writeback_readiness a; a_writeback_status := a_writeback_status a
|}.

(** The assessment runs once; a failed one is skipped. *)
Definition assessed (a : Action) : Action :=
  match ae_assess ae, a_impact_assessment a with
  | Some assess, None =>
      match assess a with Ok v => with_impact a (Some v) | Err _ => a end
  | _, _ => a
  end.

Definition existing_decision (r : ApprovalRow) : result ApprovalDecision :=
  decision ← enum_of_value_or_raise (ap_decision r);
  let text (k d : string) := match dict_get (default [] (ap_detail r)) k with
                             | Some v => py_str v | None => d end in
  Ok {| ad_decision := decision; ad_rule_applied := text "rule_applied" "existing_record";
        ad_reason := text "reason" "existing approval record" |}.

Definition evaluate (ck : Clock) (ak : ApprovalClock) (w : World St) (action : Action)
    (cycle : Z) (approval_id : string) (advance_plan : bool) :
    result ApprovalDecision * World St :=
  match _load_record_row (w_db w) (a_action_id action) cycle with
  | Some existing => (existing_decision existing, w)
  | None =>
      let action := assessed action in
      let decision := evaluation_of ae action in
      match persist_evaluation_tx ae ak (w_db w) action decision cycle approval_id with
      | Err e => (Err e, w)
      | Ok db =>
          let w := MkWorld db (w_store w) in
          let '(r, w) := if ad_decision decision ==? ApprovalDecisionKind.REQUIRE_APPROVAL
                         then _ensure_event_waiting_approval ck w (a_event_id action)
                         else (Ok tt, w) in
          match r with
          | Err e => (Err e, w)
          | Ok _ =>
              if advance_plan
                 && (ad_decision decision !=? ApprovalDecisionKind.REQUIRE_APPROVAL) then
                let '(r, w) := _maybe_advance_plan ck w (a_event_id action)
                                 (a_plan_revision action) in
                (r ≫= λ _, Ok decision, w)
              else (Ok decision, w)
          end
      end
  end.

Fixpoint evaluate_all (ck : Clock) (ak : ApprovalClock) (w : World St) (actions : list Action)
    (cycle : Z) (new_id : string → string) : result unit * World St :=
  match actions with
  | [] => (Ok tt, w)
  | a :: actions' =>
      let '(r, w) := evaluate ck ak w a cycle (new_id (a_action_id a)) false in
      match r with
      | Err e => (Err e, w)
      | Ok _ => evaluate_all ck ak w actions' cycle new_id
      end
  end.

Definition evaluate_plan (ck : Clock) (ak : ApprovalClock) (w : World St) (event_id : string)
    (plan_revision cycle : Z) (new_id : string → string) :
    result EvaluatePlanResult * World St :=
  match _load_plan_response_actions ae (w_db w) event_id plan_revision with
  | Err e => (Err e, w)
  | Ok [] => (Ok {| ep_needs_wait := false; ep_plan_revision := plan_revision;
                    ep_evaluated_count := 0; ep_resume_deferred := false |}, w)
  | Ok actions =>
      let '(r, w) := evaluate_all ck ak w actions cycle new_id in
      match r ;; _load_plan_response_actions ae (w_db w) event_id plan_revision with
      | Err e => (Err e, w)
      | Ok refreshed =>
          let needs_wait := existsb (λ a, a_status a ==? ActionStatus.WAITING_APPROVAL)
                              refreshed in
          let result (deferred : bool) := {|
            ep_needs_wait := needs_wait; ep_plan_revision := plan_revision;
            ep_evaluated_count := length actions; ep_resume_deferred := deferred |} in
          if needs_wait then (Ok (result false), w)
          else
            let '(r, w) := _maybe_advance_plan ck w event_id plan_revision in
            (resume ← r;
             Ok (result match resume with Some resume_deferred => true | _ => false end), w)
      end
  end.

Definition failed_resume (r : option ResumeStatus) : bool :=
  match r with Some resume_failed => true | _ => false end.

Definition outcome_with_resume (o : ApprovalOutcome) (r : option ResumeStatus) :
    ApprovalOutcome := {|
  ao_resume_status := r; ao_resume_degraded := failed_resume r;
  ao_persisted_status := ao_persisted_status o; ao_decision_id := ao_decision_id o;
  ao_idempotent_replay := ao_idempotent_replay o
|}.

Definition _finish_rollback_decision (a : Action) (principal : Principal)
    (target : ActionStatus) (outcome : ApprovalOutcome) : ApprovalOutcome :=
  if target !=? ActionStatus.APPROVED then outcome
  else outcome_with_resume outcome
         match ah_rollback ah with
         | None => Some resume_failed
         | Some handler =>
             match handler (a_action_id a) (pr_subject principal) with
             | Err _ => Some resume_failed
             | Ok r => r
             end
         end.

(** The replay phase, in a session of its own: [Some] ends the call. *)
Definition replay_phase (db : Db) (action_id : string) (principal : Principal)
    (comment decision_id : option string) (target : ActionStatus) :
    result (option ApprovalOutcome) :=
  match decision_key decision_id, _load_action_row db action_id with
  | Some d, Some row =>
      a ← action_from_orm ae row;
      replay ← _resolve_idempotent_replay ae db action_id d (_approval_operation target)
                 (_approval_payload_hash ae comment) (act_status row);
      Ok match replay with
         | None => None
         | Some outcome =>
             Some (if a_action_category a ==? ActionCategory.ROLLBACK
                   then _finish_rollback_decision a principal target outcome
                   else outcome)
         end
  | _, _ => Ok None
  end.

Definition _decide (ck : Clock) (now : Z) (w : World St) (action_id : string)
    (principal : Principal) (comment decision_id : option string) (target : ActionStatus) :
    result ApprovalOutcome * World St :=
  match replay_phase (w_db w) action_id principal comment decision_id target with
  | Err e => (Err e, w)
  | Ok (Some outcome) => (Ok outcome, w)
  | Ok None =>
      match decide_tx ae now (w_db w) action_id principal comment decision_id target with
      | Err e => (Err e, w)
      | Ok (db, a) =>
          let w := MkWorld db (w_store w) in
          let outcome := {|
            ao_resume_status := None; ao_resume_degraded := false;
            ao_persisted_status := Some target; ao_decision_id := decision_id;
            ao_idempotent_replay := false |} in
          if a_action_category a ==? ActionCategory.ROLLBACK
          then (Ok (_finish_rollback_decision a principal target outcome), w)
          else
            let '(r, w) := _maybe_advance_plan ck w (a_event_id a) (a_plan_revision a) in
            (resume ← r; Ok (outcome_with_resume outcome resume), w)
      end
  end.

Definition approve (ck : Clock) (now : Z) (w : World St) (action_id : string)
    (principal : Principal) (comment decision_id : option string) :
    result ApprovalOutcome * World St :=
  _decide ck now w action_id principal comment decision_id ActionStatus.APPROVED.

Definition reject (ck : Clock) (now : Z) (w : World St) (action_id : string)
    (principal : Principal) (comment decision_id : option string) :
    result ApprovalOutcome * World St :=
  _decide ck now w action_id principal comment decision_id ActionStatus.REJECTED.

Definition handle_timeout (ck : Clock) (now : Z) (w : World St) (action_id : string)
    (cycle : Z) : result unit * World St :=
  match handle_timeout_tx ae now (w_db w) action_id cycle with
  | Err e => (Err e, w)
  | Ok (db, None) => (Ok tt, w)
  | Ok (db, Some a) =>
      let w := MkWorld db (w_store w) in
      if a_action_category a ==? ActionCategory.ROLLBACK then (Ok tt, w)
      else
        let '(r, w) := _maybe_advance_plan ck w (a_event_id a) (a_plan_revision a) in
        (r ≫= λ _, Ok tt, w)
  end.

(** [dict.fromkeys]: the first occurrences, in order. *)
Fixpoint first_occurrences (l : list string) : list string :=
  match l with
  | [] => []
  | x :: l' => x :: List.filter (λ y, y !=? x) (first_occurrences l')
  end.

Fixpoint advance_events (ck : Clock) (w : World St) (events : list string) :
    result unit * World St :=
  match events with
  | [] => (Ok tt, w)
  | e :: events' =>
      let '(r, w) := _maybe_advance_plan ck w e (_latest_revision (w_db w) e) in
      match r with
      | Err err => (Err err, w)
      | Ok _ => advance_events ck w events'
      end
  end.

(** [locked]: the advisory lock was taken. *)
Definition scan_timeouts (ck : Clock) (now : Z) (locked : bool) (w : World St) :
    result (list string) * World St :=
  if negb locked then (Ok [], w)
  else
    let '(db, touched) := _scan_expired_approval_records now (w_db w) in
    let '(r, w) := advance_events ck (MkWorld db (w_store w)) (first_occurrences touched) in
    (r ≫= λ _, Ok touched, w).

Definition require_manual_review (ck : Clock) (ak : ApprovalClock) (w : World St)
    (action_id reason : string) (cycle : Z) (approval_id : string) : result unit * World St :=
  match manual_review_tx ae ak (w_db w) action_id reason cycle approval_id with
  | Err e => (Err e, w)
  | Ok (db, a) => _ensure_event_waiting_approval ck (MkWorld db (w_store w)) (a_event_id a)
  end.
End engine.
