(* ===== verification/ApprovalFacts.v ===== *)
(** * Guarantees of the approval engine *)

From stdpp Require Import prelude strings gmap.
From S2P Require Import Prelude Enums Errors Tables Lifecycles LifecycleFacts Workflow Db Reconcile.
From S2P Require Import Reconcile ContextJournal ContextStore StateMachine StateMachineFacts.
From S2P Require Import ServiceRuns ApprovalRules Approval.

#[local] Open Scope string_scope.

(** ** Frames *)

(** The Action and approval tables are the same. *)
Definition same_rows (db db' : Db) : Prop :=
  db_actions db' = db_actions db ∧ db_approvals db' = db_approvals db.

#[global] Instance same_rows_preorder : PreOrder same_rows.
Proof. split; [by split|]. intros a b c [] []. split; congruence. Qed.

Lemma same_rows_journal db e f v r :
  append_context_journal_in_session db e f v = Ok r → same_rows db r.1.
Proof.
  unfold append_context_journal_in_session. case_bool_decide; cbn; [|done]. by intros [= <-].
Qed.

Lemma same_rows_list_journal db e f v r :
  append_list_context_journal_in_session db e f v = Ok r → same_rows db r.1.
Proof. apply same_rows_journal. Qed.

Lemma same_rows_sync ae db e db' : _sync_wm_records ae db e = Ok db' → same_rows db db'.
Proof.
  unfold _sync_wm_records. destruct (negb _); [by intros [= <-]|].
  rewrite bind_Ok. intros (l & _ & H). apply bind_Ok in H as (r & Hr & [= <-]).
  by eapply same_rows_journal.
Qed.

Section transitions.
Context {St : Type} `{ContextStore St} (env : Env).

Lemma transition_same_rows ck (w : World St) e t caller op reason :
  t ≠ EventStatus.CLOSED →
  same_rows (w_db w) (w_db (transition env ck w e t caller op reason).2).
Proof.
  intros Ht. unfold transition, reconcile_phase. rewrite bool_decide_eq_false_2 by done.
  destruct (transition_tx _ _ _ _ _ _ _ _) as [c|] eqn:Etx; [|done].
  apply transition_tx_Ok in Etx as (row & ctx & eff & _ & _ & _ & _ & _ & _ & Hdb & _).
  destruct (after_commit _ _ _ _ _ _ _ _) as [ev w'] eqn:Eac; cbn [snd].
  apply after_commit_frame in Eac as [_ Ha _ _ _ _ Hp _ _].
  split; [rewrite Ha|rewrite Hp]; rewrite Hdb; unfold committed_db;
    by destruct (env_has_audit env).
Qed.
End transitions.

Lemma plan_target_open actions t : plan_target actions = Some t → t ≠ EventStatus.CLOSED.
Proof. unfold plan_target. repeat case_match; by intros [= <-]. Qed.

Section engine_frames.
Context {St : Type} `{ContextStore St} (env : Env) (ae : ApprovalEnv) (ah : ApprovalHooks).

Lemma ensure_waiting_same_rows ck (w : World St) e :
  same_rows (w_db w) (w_db (_ensure_event_waiting_approval env ah ck w e).2).
Proof.
  unfold _ensure_event_waiting_approval. destruct (negb _); [done|].
  destruct (_event_status _ _) as [[[]|]|]; try done.
  pose proof (transition_same_rows env ck w e EventStatus.WAITING_APPROVAL None
    (Some APPROVAL_ENGINE_OPERATOR) (Some "approval_required") ltac:(done)) as Hs.
  by destruct (transition _ _ _ _ _ _ _ _).
Qed.

Lemma advance_same_rows ck (w : World St) e rev :
  same_rows (w_db w) (w_db (_maybe_advance_plan env ae ah ck w e rev).2).
Proof.
  unfold _maybe_advance_plan. destruct (_load_plan_response_actions _ _ _ _) as [l|]; [|done].
  destruct (negb _); [done|]. destruct (plan_target l) as [t|] eqn:Ht; [|done].
  destruct (negb _); [done|]. destruct (_event_status _ _) as [s|]; [|done].
  case_bool_decide; [|done].
  pose proof (transition_same_rows env ck w e t None (Some APPROVAL_ENGINE_OPERATOR)
    (Some "plan_fully_decided") (plan_target_open _ _ Ht)) as Hs.
  by destruct (transition _ _ _ _ _ _ _ _) as [[] ?].
Qed.

Lemma advance_events_same_rows ck es : ∀ w : World St,
  same_rows (w_db w) (w_db (advance_events env ae ah ck w es).2).
Proof.
  induction es as [|e es IH]; intros w; [done|]. cbn [advance_events].
  pose proof (advance_same_rows ck w e (_latest_revision (w_db w) e)) as Hs.
  destruct (_maybe_advance_plan _ _ _ _ _ _ _) as [[r|] w1]; [|done].
  cbn [snd] in Hs. etrans; [exact Hs|apply IH].
Qed.
End engine_frames.

(** ** How the tables change *)

(** Who decided, when, under which key, and with which comment. *)
Definition settlement (r : ApprovalRow) : option string * option string * option Z * option string :=
  (ap_operator r, ap_comment r, ap_decided_at r, ap_decision_id r).

(** A write to a record keeps its keys, and its settlement once it is decided. *)
Record record_kept (r r' : ApprovalRow) : Prop := {
  rk_id : ap_approval_id r' = ap_approval_id r;
  rk_action : ap_action_id r' = ap_action_id r;
  rk_cycle : ap_approval_cycle r' = ap_approval_cycle r;
  rk_settled : decided r = true → settlement r' = settlement r
}.

#[global] Instance record_kept_preorder : PreOrder record_kept.
Proof.
  split; [by split|]. intros a b c [H1 H2 H3 H4] [K1 K2 K3 K4]. split; try congruence.
  intros Ha. specialize (H4 Ha). rewrite K4; [done|].
  unfold decided in *. by injection H4 as _ _ -> _.
Qed.

Record keyed_tables (db : Db) : Prop := {
  kt_actions : NoDup (act_action_id <$> db_actions db);
  kt_approvals : NoDup (ap_approval_id <$> db_approvals db)
}.

(** An Action keeps its key and level; its status is kept or set as [P] says. *)
Definition status_step (P : string → string → Prop) (a a' : ActionRow) : Prop :=
  act_action_id a' = act_action_id a ∧ act_action_level a' = act_action_level a ∧
  (act_status a' = act_status a ∨ P (act_action_id a) (act_status a')).

Record evolve (P : string → string → Prop) (db db' : Db) : Prop := {
  ev_actions : Forall2 (status_step P) (db_actions db) (db_actions db');
  ev_approvals : ∃ mid news, Forall2 record_kept (db_approvals db) mid ∧
    db_approvals db' = (mid ++ news)%list;
  ev_keyed : keyed_tables db → keyed_tables db'
}.

Definition untouched : string → string → Prop := λ _ _, False.

Lemma status_step_refl P a : status_step P a a.
Proof. split_and!; auto. Qed.

Lemma status_step_trans P a b c : status_step P a b → status_step P b c → status_step P a c.
Proof.
  intros (Hi & Hl & Hs) (Hi' & Hl' & Hs'). split_and!; [congruence..|].
  destruct Hs' as [Hs'|Hs']; [|right; by rewrite <-Hi].
  destruct Hs as [Hs|Hs]; [left; congruence|right; by rewrite Hs'].
Qed.

Lemma evolve_trans P db1 db2 db3 : evolve P db1 db2 → evolve P db2 db3 → evolve P db1 db3.
Proof.
  intros [Ha (m & n & Hm & Hn) Hk] [Ha' (m' & n' & Hm' & Hn') Hk']. split; [| |auto].
  - eapply Forall2_compose; [|exact Ha|exact Ha']. intros x y z. apply status_step_trans.
  - rewrite Hn in Hm'. apply Forall2_app_inv_l in Hm' as (m1 & n1 & Hm1 & Hn1 & ->).
    exists m1, (n1 ++ n')%list. rewrite Hn', app_assoc. split; [|done].
    eapply Forall2_compose; [|exact Hm|exact Hm1]. intros x y z. apply transitivity.
Qed.

Lemma evolve_mono (P Q : string → string → Prop) db db' :
  (∀ id st, P id st → Q id st) → evolve P db db' → evolve Q db db'.
Proof.
  intros HPQ [Ha Hp Hk]. split; [|done|done]. eapply Forall2_impl; [exact Ha|].
  intros a a' (? & ? & [?|?]); split_and!; auto.
Qed.

Lemma evolve_same P db db' : same_rows db db' → evolve P db db'.
Proof.
  intros [Ha Hp]. split.
  - rewrite Ha. apply Forall2_same, status_step_refl.
  - exists (db_approvals db), []. rewrite Hp, app_nil_r. split; [|done]. by apply Forall2_same.
  - intros []. split; [by rewrite Ha|by rewrite Hp].
Qed.

(** One record is rewritten. *)
Lemma put_record_evolve db r r' :
  keyed_tables db → r ∈ db_approvals db → record_kept r r' → evolve untouched db (put_record r' db).
Proof.
  intros Hk Hr Hs.
  assert (Forall2 record_kept (db_approvals db) (db_approvals (put_record r' db))) as Hf.
  { apply (update_by_related record_kept ap_approval_id _ r r'); [done|apply Hk|done|apply Hs|done]. }
  split.
  - apply Forall2_same, status_step_refl.
  - eexists _, []. split; [exact Hf|]. by rewrite app_nil_r.
  - intros [Hka Hkp]. split; [done|].
    rewrite (Forall2_fmap_same ap_approval_id record_kept _ _ (λ x y H, rk_id x y H) Hf). done.
Qed.

(** One Action is rewritten. *)
Lemma put_action_evolve (P : string → string → Prop) db a a' :
  keyed_tables db → a ∈ db_actions db → status_step P a a' → evolve P db (put_action a' db).
Proof.
  intros Hk Ha Hs.
  assert (Forall2 (status_step P) (db_actions db) (db_actions (put_action a' db))) as Hf.
  { apply (update_by_related (status_step P) act_action_id _ a a');
      [apply status_step_refl|apply Hk|done|apply Hs|done]. }
  split; [done| |].
  - exists (db_approvals db), []. rewrite app_nil_r. split; [|done]. by apply Forall2_same.
  - intros [Hka Hkp]. split; [|done].
    rewrite (Forall2_fmap_same act_action_id (status_step P) _ _ (λ x y H, proj1 H) Hf). done.
Qed.

(** An UPDATE of the rows with one key. *)
Lemma map_actions_evolve (P : string → string → Prop) db (f : ActionRow → ActionRow) id jobs :
  (∀ a, act_action_id a = id → status_step P a (f a)) →
  evolve P db (db_with_executions
    (map (λ a, if act_action_id a ==? id then f a else a) (db_actions db)) jobs db).
Proof.
  intros Hf.
  assert (Forall2 (status_step P) (db_actions db)
    (map (λ a, if act_action_id a ==? id then f a else a) (db_actions db))) as Hm.
  { apply Forall2_fmap_r, Forall2_self. intros a _. cbn. case_bool_decide; auto using status_step_refl. }
  split; [exact Hm| |].
  - exists (db_approvals db), []. rewrite app_nil_r. split; [|done]. by apply Forall2_same.
  - intros [Hka Hkp]. split; [|done]. cbn.
    rewrite (Forall2_fmap_same act_action_id (status_step P) _ _ (λ x y H, proj1 H) Hm). done.
Qed.

(** ** Transactions *)

Definition sets (x : string) (t : ActionStatus) : string → string → Prop :=
  λ id st, id = x ∧ st = enum_value t.

Lemma load_record_row_Some db x cycle r :
  _load_record_row db x cycle = Some r →
  r ∈ db_approvals db ∧ ap_action_id r = x ∧ ap_approval_cycle r = cycle.
Proof.
  intros [Hin Hp]%List.find_some. rewrite <-list_elem_of_In in Hin. by bool_props.
Qed.

Lemma load_pending_Some db x r :
  _load_pending_record_row db x = Some r →
  r ∈ db_approvals db ∧ ap_action_id r = x ∧ decided r = false.
Proof.
  unfold _load_pending_record_row. intros [Hin _]%last_by_Some. apply in_where in Hin as [Hin Hp].
  by bool_props.
Qed.

Lemma new_key_fresh db id :
  bool_decide (is_Some (get_by ap_approval_id id (db_approvals db))) = false →
  id ∉ ap_approval_id <$> db_approvals db.
Proof.
  intros Hn%bool_decide_eq_false_1 (r & -> & Hr)%list_elem_of_fmap. destruct Hn.
  destruct (get_by _ _ _) eqn:Hg; [done|].
  eapply List.find_none in Hg; [|by apply list_elem_of_In]. by bool_props.
Qed.

Section transactions.
Context (ae : ApprovalEnv).

Lemma upsert_evolve ak db a d cycle new db' :
  keyed_tables db → _upsert_record ae ak db a d cycle new = Ok db' → evolve untouched db db'.
Proof.
  intros Hk. unfold _upsert_record. cbn zeta. rewrite bind_Ok. intros (db1 & H1 & Hs).
  apply same_rows_sync in Hs. eapply evolve_trans; [|by apply evolve_same].
  destruct (_load_record_row _ _ _) as [r|] eqn:Hr.
  - injection H1 as <-. apply load_record_row_Some in Hr as (Hin & _).
    by eapply put_record_evolve.
  - apply raise_if_seq_Ok in H1 as [Hn [= <-]]. split.
    + apply Forall2_same, status_step_refl.
    + eexists (db_approvals db), _. split; [by apply Forall2_same|done].
    + intros [Hka Hkp]. split; [done|]. cbn. rewrite fmap_app. apply NoDup_app.
      split_and!; [done| |apply NoDup_singleton].
      intros k Hin ->%list_elem_of_singleton. by apply new_key_fresh in Hn.
Qed.

Lemma set_status_evolve ak db a t b db' :
  _set_action_status ak db a t b = Ok db' →
  evolve (sets (a_action_id a) t) db db' ∧
  t ∈ default [] (ACTION_STATUS_TRANSITIONS_BY_CATEGORY (a_action_category a) (a_status a)).
Proof.
  unfold _set_action_status. rewrite unit_seq_Ok. intros [Hv [= <-]]. split.
  - apply map_actions_evolve. intros row <-. split_and!; [done|done|]. by right.
  - apply validate_action_status_transition_Ok in Hv. by destruct Hv.
Qed.

Lemma impact_evolve ak db a db' : persist_impact ae ak db a = Ok db' → evolve untouched db db'.
Proof.
  unfold persist_impact. destruct (ae_assess ae); [|by intros [= <-]; apply evolve_same].
  destruct (a_impact_assessment a); [|by intros [= <-]; apply evolve_same].
  rewrite bind_Ok. intros (jr & Hj & [= <-]). apply same_rows_list_journal in Hj.
  eapply evolve_trans; [|by apply evolve_same]. apply map_actions_evolve.
  intros row _. split_and!; auto.
Qed.

(** The status an evaluation sets. *)
Definition evaluation_status (k : ApprovalDecisionKind) : ActionStatus :=
  match k with
  | ApprovalDecisionKind.AUTO_APPROVE => ActionStatus.APPROVED
  | ApprovalDecisionKind.AUTO_REJECT => ActionStatus.REJECTED
  | ApprovalDecisionKind.REQUIRE_APPROVAL => ActionStatus.WAITING_APPROVAL
  end.

Lemma untouched_evolve P db db' : evolve untouched db db' → evolve P db db'.
Proof. by apply evolve_mono. Qed.

Lemma persist_evolve ak db a d cycle new db' :
  keyed_tables db → persist_evaluation_tx ae ak db a d cycle new = Ok db' →
  evolve (sets (a_action_id a) (evaluation_status (ad_decision d))) db db'.
Proof.
  intros Hk. unfold persist_evaluation_tx. rewrite bind_Ok. intros (db1 & H1 & H).
  apply bind_Ok in H as (db2 & H2 & H3). apply impact_evolve in H1 as E1.
  apply upsert_evolve in H2 as E2; [|by apply E1].
  eapply evolve_trans; [by apply untouched_evolve|].
  eapply evolve_trans; [by apply untouched_evolve|].
  by destruct (ad_decision d); apply set_status_evolve in H3 as [? _].
Qed.

Lemma manual_evolve ak db x reason cycle new db' a :
  keyed_tables db → manual_review_tx ae ak db x reason cycle new = Ok (db', a) →
  evolve (sets x ActionStatus.WAITING_APPROVAL) db db'.
Proof.
  intros Hk. unfold manual_review_tx. destruct (_load_action_row db x) as [row|] eqn:Hr; [|done].
  rewrite bind_Ok. intros (a0 & Ha & H). apply bind_Ok in H as (db1 & H1 & H).
  apply bind_Ok in H as (db2 & H2 & [= <- <-]). apply upsert_evolve in H1; [|done].
  eapply evolve_trans; [by apply untouched_evolve|]. apply set_status_evolve in H2 as [H2 _].
  replace x with (a_action_id a0); [done|].
  apply get_by_Some in Hr as [_ <-]. unfold action_from_orm in Ha.
  repeat (apply bind_Ok in Ha as (? & _ & Ha)). by injection Ha as <-.
Qed.

Lemma timed_out_step r now : decided r = false → record_kept r (timed_out r now).
Proof. intros Hd. split; [done..|]. congruence. Qed.

(** A record and an Action rewritten together. *)
Lemma put_both_evolve (P : string → string → Prop) db r r' a a' :
  keyed_tables db → r ∈ db_approvals db → record_kept r r' → a ∈ db_actions db →
  status_step P a a' → evolve P db (put_action a' (put_record r' db)).
Proof.
  intros Hk Hr Hs Ha Hst. pose proof (put_record_evolve db r r' Hk Hr Hs) as E.
  eapply evolve_trans; [by apply untouched_evolve|].
  eapply put_action_evolve; [by apply E|exact Ha|exact Hst].
Qed.

Lemma with_status_step a t now : status_step (sets (act_action_id a) t) a (with_status a t now).
Proof. split_and!; [done|done|]. by right. Qed.

Lemma timeout_evolve now db x cycle db' o :
  keyed_tables db → handle_timeout_tx ae now db x cycle = Ok (db', o) →
  evolve (sets x ActionStatus.REJECTED) db db'.
Proof.
  intros Hk. unfold handle_timeout_tx.
  assert (evolve (sets x ActionStatus.REJECTED) db db) as Hsame by (by apply evolve_same).
  destruct (_load_action_row db x) as [row|] eqn:Hr; [|by intros [= <- _]].
  destruct (negb _); [by intros [= <- _]|].
  destruct (_load_record_row _ _ _) as [r|] eqn:Hrec; [|by intros [= <- _]].
  destruct (decided r) eqn:Hd; [by intros [= <- _]|].
  rewrite bind_Ok. intros (a & _ & [= <- _]).
  apply load_record_row_Some in Hrec as (Hin & _). apply get_by_Some in Hr as [Ha <-].
  eapply put_both_evolve; [done|exact Hin|by apply timed_out_step|exact Ha|apply with_status_step].
Qed.

(** The record a decision writes. *)
Definition decision_record (now : Z) (r : ApprovalRow) (p : Principal)
    (comment did : option string) (t : ActionStatus) : ApprovalRow :=
  record_decided r (ap_decision r) (Some (pr_subject p)) comment did
    (Some (idempotency_detail (ap_detail r) (_approval_operation t)
             (_approval_payload_hash ae comment))) now.

Lemma decision_checks_Ok db row a x did t r :
  decision_checks ae db row a x did t = Ok r →
  (t = ActionStatus.APPROVED → evaluate_hard_gates a (ae_manifest ae) = None) ∧
  a_status a = ActionStatus.WAITING_APPROVAL ∧ _load_pending_record_row db x = Some r ∧
  (∀ d, decision_key did = Some d →
     Forall (λ r', ap_decision_id r' = Some d → ap_action_id r' = x) (db_approvals db)).
Proof.
  unfold decision_checks. intros [Hg H]%unit_seq_Ok. apply unit_seq_Ok in H as [Hw H]. split_and!.
  - intros ->. cbn in Hg. by destruct (evaluate_hard_gates _ _).
  - case_bool_decide as Hst; [done|]. by apply raise_if_seq_Ok in Hw as [_ [=]].
  - destruct (_load_pending_record_row db x); [|done].
    destruct (decision_key did); [apply raise_if_seq_Ok in H as [_ [=]]|injection H as ->];
      by subst.
  - intros d Hd. destruct (_load_pending_record_row db x); [|done]. rewrite Hd in H.
    apply raise_if_seq_Ok in H as [Hn _]. apply Forall_forall. intros r' Hr' Hrd.
    destruct (decide (ap_action_id r' = x)) as [|Hne]; [done|].
    assert (existsb (λ r0, (ap_decision_id r0 ==? Some d) && (ap_action_id r0 !=? x))
      (db_approvals db) = true) as Hex; [|by rewrite Hex in Hn].
    apply existsb_exists. exists r'. split; [by apply list_elem_of_In|].
    cbn beta. rewrite Hrd. by rewrite bool_decide_eq_true_2, bool_decide_eq_false_2.
Qed.

(** What a committed decision did. *)
Lemma decide_tx_Ok now db x p comment did t db' a :
  decide_tx ae now db x p comment did t = Ok (db', a) →
  ∃ row a0 r, row ∈ db_actions db ∧ act_action_id row = x ∧ action_from_orm ae row = Ok a0 ∧
    decision_checks ae db row a0 x did t = Ok r ∧
    r ∈ db_approvals db ∧ ap_action_id r = x ∧ decided r = false ∧
    decision_id_taken db r did = false ∧
    action_from_orm ae (with_status row t now) = Ok a ∧
    db' = put_action (with_status row t now) (put_record (decision_record now r p comment did t) db).
Proof.
  unfold decide_tx. destruct (_load_action_row db x) as [row|] eqn:Hr; [|done].
  rewrite bind_Ok. intros (a0 & Ha & H). apply bind_Ok in H as (r & Hchk & H).
  apply unit_seq_Ok in H as [_ H]. apply raise_if_seq_Ok in H as [Ht H].
  apply bind_Ok in H as (a1 & Ha1 & [= <- <-]). apply get_by_Some in Hr as [Hrow Hid].
  pose proof (decision_checks_Ok _ _ _ _ _ _ _ Hchk) as (_ & _ & Hp & _).
  apply load_pending_Some in Hp as (Hin & Hx & Hd).
  exists row, a0, r. done.
Qed.

Lemma put_record_elem r r' db :
  r ∈ db_approvals db → ap_approval_id r' = ap_approval_id r → r' ∈ db_approvals (put_record r' db).
Proof.
  intros Hr Hid. cbn. unfold update_by. apply list_elem_of_fmap. exists r. split; [|done].
  by rewrite bool_decide_eq_true_2.
Qed.

Lemma decide_evolve now db x p comment did t db' a :
  keyed_tables db → decide_tx ae now db x p comment did t = Ok (db', a) →
  evolve (sets x t) db db' ∧
  ∃ r, r ∈ db_approvals db' ∧ ap_action_id r = x ∧
    settlement r = (Some (pr_subject p), comment, Some now, did).
Proof.
  intros Hk (row & a0 & r & Hrow & <- & _ & _ & Hin & Hx & Hd & _ & _ & ->)%decide_tx_Ok. split.
  - eapply put_both_evolve; [done|exact Hin| |exact Hrow|apply with_status_step].
    split; [done..|]. congruence.
  - exists (decision_record now r p comment did t). split; [|by split].
    by eapply put_record_elem.
Qed.
End transactions.

(** ** The timeout scan *)

Lemma timeout_one_evolve now db x r row :
  keyed_tables db → r ∈ db_approvals db → decided r = false → row ∈ db_actions db → x = row →
  evolve (λ _ st, st = enum_value ActionStatus.REJECTED) db
    (put_action (with_status x ActionStatus.REJECTED now) (put_record (timed_out r now) db)).
Proof.
  intros Hk Hr Hd Hrow ->.
  apply (evolve_mono (sets (act_action_id row) ActionStatus.REJECTED)); [by intros id st [_ ->]|].
  eapply put_both_evolve; [done|exact Hr|by apply timed_out_step|exact Hrow|apply with_status_step].
Qed.

Lemma scan_evolve now : ∀ rows db,
  keyed_tables db → NoDup (ap_approval_id <$> rows) → rows ⊆ db_approvals db →
  Forall (λ r, decided r = false) rows →
  evolve (λ _ st, st = enum_value ActionStatus.REJECTED) db (scan_records now db rows).1.
Proof.
  induction rows as [|r rows IH]; intros db Hk Hnd Hsub Hun; [by apply evolve_same|].
  cbn [scan_records]. rewrite fmap_cons in Hnd. apply NoDup_cons in Hnd as [Hfresh Hnd].
  apply Forall_cons in Hun as [Hd Hun].
  assert (rows ⊆ db_approvals db) as Htail by (intros y Hy; apply Hsub; by right).
  destruct (_load_action_row db (ap_action_id r)) as [a|] eqn:Ha; [|by apply IH].
  destruct (negb _); [by apply IH|].
  apply get_by_Some in Ha as [Ha _].
  assert (r ∈ db_approvals db) as Hr by (apply Hsub; left).
  pose proof (timeout_one_evolve now db a r a Hk Hr Hd Ha eq_refl) as E.
  match goal with |- context [scan_records now ?db1 rows] => set (db1' := db1) in * end.
  assert (evolve (λ _ st, st = enum_value ActionStatus.REJECTED) db1'
            (scan_records now db1' rows).1) as E2.
  { apply IH; [by apply E|done| |done]. intros y Hy. cbn. unfold update_by.
    apply list_elem_of_fmap. exists y. split; [|by apply Htail].
    rewrite bool_decide_eq_false_2; [done|]. intros Heq. apply Hfresh. cbn in Heq. rewrite <-Heq.
    by apply list_elem_of_fmap_2. }
  destruct (scan_records now db1' rows). by eapply evolve_trans.
Qed.

Lemma scan_tx_evolve now db :
  keyed_tables db →
  evolve (λ _ st, st = enum_value ActionStatus.REJECTED) db
    (_scan_expired_approval_records now db).1.
Proof.
  intros Hk. apply scan_evolve; [done|by apply NoDup_fmap_filter, Hk| |].
  - by intros r [? _]%in_where.
  - apply Forall_forall. intros r [_ Hp]%in_where. unfold expired_record in Hp. by bool_props.
Qed.
