(* ===== verification/ApprovalProps.v ===== *)
(** * Properties of the approval engine

    Histories of calls: a high-level Action is approved by a human only, and a settled decision
    stays as it was.  Then the exact condition of an automatic approval, replays of a decision, the
    advance of a decided plan, and the two ways an Action is left without a way to a decision. *)

From stdpp Require Import prelude strings gmap.
From S2P Require Import Prelude Enums Errors Tables Lifecycles LifecycleFacts Workflow Db Reconcile.
From S2P Require Import Reconcile ContextJournal ContextStore StateMachine StateMachineFacts.
From S2P Require Import ServiceRuns ApprovalRules Approval ApprovalFacts.

#[local] Open Scope string_scope.

(** ** Calls *)

Inductive acall : Type :=
| CEvaluate (ck : Clock) (ak : ApprovalClock) (a : Action) (cycle : Z) (new : string)
    (advance : bool)
| CEvaluatePlan (ck : Clock) (ak : ApprovalClock) (e : string) (rev cycle : Z)
    (new : string → string)
| CApprove (ck : Clock) (now : Z) (x : string) (p : Principal) (comment did : option string)
| CReject (ck : Clock) (now : Z) (x : string) (p : Principal) (comment did : option string)
| CTimeout (ck : Clock) (now : Z) (x : string) (cycle : Z)
| CScan (ck : Clock) (now : Z) (locked : bool)
| CManual (ck : Clock) (ak : ApprovalClock) (x reason : string) (cycle : Z) (new : string).

Section calls.
Context {St : Type} `{ContextStore St} (env : Env) (ae : ApprovalEnv) (ah : ApprovalHooks).

Definition exec_acall (w : World St) (c : acall) : World St :=
  match c with
  | CEvaluate ck ak a cycle new advance => (evaluate env ae ah ck ak w a cycle new advance).2
  | CEvaluatePlan ck ak e rev cycle new => (evaluate_plan env ae ah ck ak w e rev cycle new).2
  | CApprove ck now x p comment did => (approve env ae ah ck now w x p comment did).2
  | CReject ck now x p comment did => (reject env ae ah ck now w x p comment did).2
  | CTimeout ck now x cycle => (handle_timeout env ae ah ck now w x cycle).2
  | CScan ck now locked => (scan_timeouts env ae ah ck now locked w).2
  | CManual ck ak x reason cycle new =>
      (require_manual_review env ae ah ck ak w x reason cycle new).2
  end.

Definition exec_acalls (w : World St) (l : list acall) : World St := foldl exec_acall w l.

(** ** Who may approve *)

Definition levels (db : Db) : list (string * string) :=
  (λ a, (act_action_id a, act_action_level a)) <$> db_actions db.

Definition auto_labels : list string := enum_value <$> AUTO_APPROVABLE_ACTION_LEVELS.

(** The Action a caller passes to [evaluate] has the level its row has. *)
Definition consistent (lv : list (string * string)) (c : acall) : Prop :=
  match c with
  | CEvaluate _ _ a _ _ _ => ∀ l, (a_action_id a, l) ∈ lv → l = enum_value (a_action_level a)
  | _ => True
  end.

Definition low (lv : list (string * string)) (x : string) : Prop :=
  ∀ l, (x, l) ∈ lv → l ∈ auto_labels.

(** The call is a human approval of [x], and the table holds its record. *)
Definition approved_by (db : Db) (x : string) (c : acall) : Prop :=
  match c with
  | CApprove _ now x' p comment did =>
      x' = x ∧ ∃ r, r ∈ db_approvals db ∧ ap_action_id r = x ∧
        settlement r = (Some (pr_subject p), comment, Some now, did)
  | _ => False
  end.

Definition allowed (lv : list (string * string)) (cs : list acall) (db : Db) :
    string → string → Prop :=
  λ x st, st = enum_value ActionStatus.APPROVED → low lv x ∨ Exists (approved_by db x) cs.

Lemma evolve_levels P db db' : evolve P db db' → levels db' = levels db.
Proof.
  intros [Ha _ _]. unfold levels. revert Ha. generalize (db_actions db), (db_actions db').
  induction 1 as [|a a' l l' (Hi & Hl & _) _ IH]; [done|]. cbn. by rewrite Hi, Hl, IH.
Qed.

Lemma evolve_settled P db db' r :
  evolve P db db' → r ∈ db_approvals db →
  ∃ r', r' ∈ db_approvals db' ∧ record_kept r r'.
Proof.
  intros [_ (mid & news & Hm & ->) _] Hr.
  destruct (Forall2_elem_l record_kept _ _ r Hm Hr) as (r' & Hr' & Hs).
  exists r'. split; [apply elem_of_app; by left|done].
Qed.

Lemma approved_by_later P db db' x c : evolve P db db' → approved_by db x c → approved_by db' x c.
Proof.
  intros E. destruct c; try done. intros (-> & r & Hr & Hx & Hs). split; [done|].
  destruct (evolve_settled P db db' r E Hr) as (r' & Hr' & Hst). exists r'.
  split_and!; [done| |].
  - rewrite (rk_action _ _ Hst). exact Hx.
  - rewrite (rk_settled _ _ Hst); [done|]. unfold settlement in Hs. unfold decided.
    by injection Hs as _ _ -> _.
Qed.

Lemma allowed_never lv cs db x st :
  st ≠ enum_value ActionStatus.APPROVED → allowed lv cs db x st.
Proof. by intros ? ?. Qed.

Lemma gates_never_approve a m d :
  evaluate_hard_gates a m = Some d → ad_decision d ≠ ApprovalDecisionKind.AUTO_APPROVE.
Proof.
  unfold evaluate_hard_gates, manifest_gate, readiness_gate.
  repeat case_match; intros; by simplify_eq.
Qed.

Lemma level_rules_approve l cap :
  ad_decision (evaluate_level_rules l cap) = ApprovalDecisionKind.AUTO_APPROVE ↔
  l ∈ AUTO_APPROVABLE_ACTION_LEVELS ∧
  (action_level_rank l ≤ action_level_rank (default ActionLevel.L1 cap))%Z.
Proof.
  unfold evaluate_level_rules. case_bool_decide as Hl.
  - destruct (Z.ltb_spec (action_level_rank (default ActionLevel.L1 cap)) (action_level_rank l));
      cbn; split; try done; lia.
  - split; [|by intros []]. by repeat case_match.
Qed.

Lemma auto_approve_level a :
  ad_decision (evaluation_of ae a) = ApprovalDecisionKind.AUTO_APPROVE →
  a_action_level a ∈ AUTO_APPROVABLE_ACTION_LEVELS.
Proof.
  unfold evaluation_of. destruct (evaluate_hard_gates _ _) as [d|] eqn:Hg.
  - by apply gates_never_approve in Hg.
  - by intros [? _]%level_rules_approve.
Qed.

(** An evaluation approves Actions of an automatic level only. *)
Definition auto_only (lv : list (string * string)) : string → string → Prop :=
  λ x st, st = enum_value ActionStatus.APPROVED → low lv x.

Lemma assessed_keys a :
  a_action_id (assessed ae a) = a_action_id a ∧ a_action_level (assessed ae a) = a_action_level a.
Proof. unfold assessed. by repeat case_match. Qed.

Lemma evaluation_auto_only lv a :
  (∀ l, (a_action_id a, l) ∈ lv → l = enum_value (a_action_level a)) →
  ∀ x st, sets (a_action_id a) (evaluation_status (ad_decision (evaluation_of ae (assessed ae a)))) x st →
  auto_only lv x st.
Proof.
  intros Hc x st [-> ->] Hst l ->%Hc.
  pose proof (auto_approve_level (assessed ae a)) as Hlow.
  destruct (ad_decision _); try done. unfold auto_labels. apply list_elem_of_fmap_2.
  destruct (assessed_keys a) as [_ <-]. by apply Hlow.
Qed.

Lemma evolve_then_same P db db1 db2 : evolve P db db1 → same_rows db1 db2 → evolve P db db2.
Proof. intros E S. eapply evolve_trans; [exact E|by apply evolve_same]. Qed.

Lemma evaluate_evolve ck ak (w : World St) a cycle new adv :
  keyed_tables (w_db w) →
  (∀ l, (a_action_id a, l) ∈ levels (w_db w) → l = enum_value (a_action_level a)) →
  evolve (auto_only (levels (w_db w))) (w_db w) (w_db (evaluate env ae ah ck ak w a cycle new adv).2).
Proof.
  intros Hk Hc. unfold evaluate. destruct (_load_record_row _ _ _); [by apply evolve_same|].
  pose proof (evaluation_auto_only _ _ Hc) as Hauto. destruct (assessed_keys a) as [Hid _].
  destruct (persist_evaluation_tx _ _ _ _ _ _ _) as [db|] eqn:Hp; [|by apply evolve_same].
  apply persist_evolve in Hp as E; [|done]. rewrite Hid in E.
  apply (evolve_mono _ _ _ _ Hauto) in E. cbn zeta.
  set (d := evaluation_of ae (assessed ae a)) in *.
  assert (∃ r1 w1, (if ad_decision d ==? ApprovalDecisionKind.REQUIRE_APPROVAL
    then _ensure_event_waiting_approval env ah ck (MkWorld db (w_store w)) (a_event_id (assessed ae a))
    else (Ok tt, MkWorld db (w_store w))) = (r1, w1) ∧ same_rows db (w_db w1)) as (r1 & w1 & -> & S1).
  { case_bool_decide; [|by do 2 eexists].
    pose proof (ensure_waiting_same_rows env ah ck (MkWorld db (w_store w)) (a_event_id (assessed ae a))).
    destruct (_ensure_event_waiting_approval _ _ _ _ _) as [r1 w1]. by exists r1, w1. }
  apply (evolve_then_same _ _ _ _ E) in S1 as E1. destruct r1; [|done]. destruct (adv && _); [|done].
  pose proof (advance_same_rows env ae ah ck w1 (a_event_id (assessed ae a))
    (a_plan_revision (assessed ae a))) as S2.
  destruct (_maybe_advance_plan _ _ _ _ _ _ _) as [r2 w2]. by eapply evolve_then_same.
Qed.

Lemma orm_keys row a :
  action_from_orm ae row = Ok a →
  a_action_id a = act_action_id row ∧ act_action_level row = enum_value (a_action_level a) ∧
  act_status row = enum_value (a_status a) ∧ a_event_id a = act_event_id row ∧
  a_plan_revision a = act_plan_revision row ∧ a_tool_name a = act_tool_name row ∧
  a_writeback_required a = act_writeback_required row.
Proof.
  unfold action_from_orm. intros H0. repeat (apply bind_Ok in H0 as (? & ? & H0)).
  injection H0 as <-. cbn.
  repeat match goal with H : enum_of_value_or_raise _ = Ok _ |- _ =>
    apply enum_of_value_or_raise_Ok in H end.
  done.
Qed.

Lemma actions_from_rows_Forall2 rows actions :
  actions_from_rows ae rows = Ok actions → Forall2 (λ row a, action_from_orm ae row = Ok a) rows actions.
Proof.
  revert actions. induction rows as [|row rows IH]; intros actions; cbn [actions_from_rows].
  - by intros [= <-].
  - rewrite bind_Ok. intros (a & Ha & H0). apply bind_Ok in H0 as (l & Hl & [= <-]). auto.
Qed.

Lemma keyed_level db row l :
  keyed_tables db → row ∈ db_actions db → (act_action_id row, l) ∈ levels db →
  l = act_action_level row.
Proof.
  intros [Hk _] Hrow (row' & [= Hid ->] & Hrow')%list_elem_of_fmap.
  destruct (NoDup_fmap_elem act_action_id (db_actions db) row row' Hk Hrow Hrow' Hid). done.
Qed.

Lemma plan_actions_consistent db e rev actions :
  keyed_tables db → _load_plan_response_actions ae db e rev = Ok actions →
  Forall (λ a, ∀ l, (a_action_id a, l) ∈ levels db → l = enum_value (a_action_level a)) actions.
Proof.
  intros Hk Hl%actions_from_rows_Forall2. apply Forall_forall. intros a Ha l.
  destruct (Forall2_elem_r _ _ _ a Hl Ha) as (row & [Hrow _]%in_where & (-> & <- & _)%orm_keys).
  by apply keyed_level.
Qed.

Lemma evaluate_all_evolve ck ak cycle new lv : ∀ actions (w : World St),
  keyed_tables (w_db w) → levels (w_db w) = lv →
  Forall (λ a, ∀ l, (a_action_id a, l) ∈ lv → l = enum_value (a_action_level a)) actions →
  evolve (auto_only lv) (w_db w) (w_db (evaluate_all env ae ah ck ak w actions cycle new).2).
Proof.
  induction actions as [|a actions IH]; intros w Hk Hlv Hc; [by apply evolve_same|].
  apply Forall_cons in Hc as [Ha Hc]. cbn [evaluate_all]. subst lv.
  pose proof (evaluate_evolve ck ak w a cycle (new (a_action_id a)) false Hk Ha) as E.
  destruct (evaluate _ _ _ _ _ _ _ _ _ _) as [[d|] w1]; [|exact E]. cbn [snd] in E.
  eapply evolve_trans; [exact E|]. apply IH; [by apply E|by eapply evolve_levels|done].
Qed.

Lemma evaluate_plan_evolve ck ak (w : World St) e rev cycle new :
  keyed_tables (w_db w) →
  evolve (auto_only (levels (w_db w))) (w_db w)
    (w_db (evaluate_plan env ae ah ck ak w e rev cycle new).2).
Proof.
  intros Hk. unfold evaluate_plan.
  destruct (_load_plan_response_actions ae (w_db w) e rev) as [actions|] eqn:Hl;
    [|by apply evolve_same].
  apply plan_actions_consistent in Hl as Hc; [|done].
  pose proof (evaluate_all_evolve ck ak cycle new _ actions w Hk eq_refl Hc) as E.
  destruct actions as [|a actions]; [by apply evolve_same|].
  destruct (evaluate_all _ _ _ _ _ _ _ _ _) as [r w1]; cbn [snd] in E.
  destruct (r ;; _) as [refreshed|]; [|exact E]. destruct (existsb _ refreshed); [exact E|].
  pose proof (advance_same_rows env ae ah ck w1 e rev) as S.
  destruct (_maybe_advance_plan _ _ _ _ _ _ _) as [r2 w2]. by eapply evolve_then_same.
Qed.

(** A decision call that commits nothing leaves the tables; one that commits records it. *)
Lemma decide_call_evolve ck now (w : World St) x p comment did t :
  keyed_tables (w_db w) →
  let w' := (_decide env ae ah ck now w x p comment did t).2 in
  same_rows (w_db w) (w_db w') ∨
  evolve (sets x t) (w_db w) (w_db w') ∧
  ∃ r, r ∈ db_approvals (w_db w') ∧ ap_action_id r = x ∧
    settlement r = (Some (pr_subject p), comment, Some now, did).
Proof.
  intros Hk w'. subst w'. unfold _decide.
  destruct (replay_phase _ _ _ _ _ _ _ _) as [[o|]|]; [by left| |by left].
  destruct (decide_tx _ _ _ _ _ _ _ _) as [[db a]|] eqn:Hd; [|by left].
  apply decide_evolve in Hd as [E Hr]; [|done]. right. cbn zeta.
  case_bool_decide; [done|].
  pose proof (advance_same_rows env ae ah ck (MkWorld db (w_store w)) (a_event_id a)
    (a_plan_revision a)) as S.
  destruct (_maybe_advance_plan _ _ _ _ _ _ _) as [r2 w2]. cbn [snd w_db] in *.
  split; [by eapply evolve_then_same|]. destruct S as [_ ->]. done.
Qed.

Lemma timeout_call_evolve ck now (w : World St) x cycle :
  keyed_tables (w_db w) →
  evolve (sets x ActionStatus.REJECTED) (w_db w)
    (w_db (handle_timeout env ae ah ck now w x cycle).2).
Proof.
  intros Hk. unfold handle_timeout.
  destruct (handle_timeout_tx _ _ _ _ _) as [[db [a|]]|] eqn:Ht; try by apply evolve_same.
  apply timeout_evolve in Ht; [|done]. case_bool_decide; [done|].
  pose proof (advance_same_rows env ae ah ck (MkWorld db (w_store w)) (a_event_id a)
    (a_plan_revision a)) as S.
  destruct (_maybe_advance_plan _ _ _ _ _ _ _) as [r2 w2]. by eapply evolve_then_same.
Qed.

Lemma scan_call_evolve ck now locked (w : World St) :
  keyed_tables (w_db w) →
  evolve (λ _ st, st = enum_value ActionStatus.REJECTED) (w_db w)
    (w_db (scan_timeouts env ae ah ck now locked w).2).
Proof.
  intros Hk. unfold scan_timeouts. destruct locked; [|by apply evolve_same]. cbn [negb].
  pose proof (scan_tx_evolve now (w_db w) Hk) as E.
  destruct (_scan_expired_approval_records now (w_db w)) as [db touched].
  pose proof (advance_events_same_rows env ae ah ck (first_occurrences touched)
    (MkWorld db (w_store w))) as S.
  destruct (advance_events _ _ _ _ _ _) as [r2 w2]. by eapply evolve_then_same.
Qed.

Lemma manual_call_evolve ck ak (w : World St) x reason cycle new :
  keyed_tables (w_db w) →
  evolve (sets x ActionStatus.WAITING_APPROVAL) (w_db w)
    (w_db (require_manual_review env ae ah ck ak w x reason cycle new).2).
Proof.
  intros Hk. unfold require_manual_review.
  destruct (manual_review_tx _ _ _ _ _ _ _) as [[db a]|] eqn:Hm; [|by apply evolve_same].
  apply manual_evolve in Hm; [|done].
  eapply evolve_then_same; [exact Hm|]. apply ensure_waiting_same_rows.
Qed.

(** ** Histories *)

Lemma sets_allowed lv cs db x t :
  t ≠ ActionStatus.APPROVED → ∀ y st, sets x t y st → allowed lv cs db y st.
Proof. intros Ht y st [_ ->] Hst%enum_value_eq. by destruct Ht. Qed.

Lemma exec_acall_evolve (w : World St) c :
  keyed_tables (w_db w) → consistent (levels (w_db w)) c →
  evolve (allowed (levels (w_db w)) [c] (w_db (exec_acall w c))) (w_db w) (w_db (exec_acall w c)).
Proof.
  intros Hk Hc. destruct c; cbn [exec_acall].
  - eapply evolve_mono; [|by apply evaluate_evolve]. intros x st Ha Hst. left. by apply Ha.
  - eapply evolve_mono; [|by apply evaluate_plan_evolve]. intros x st Ha Hst. left. by apply Ha.
  - destruct (decide_call_evolve ck now w x p comment did ActionStatus.APPROVED Hk) as [S|[E Hr]];
      [by apply evolve_same|].
    eapply evolve_mono; [|exact E]. intros y st [-> ->] _. right. constructor. by split.
  - destruct (decide_call_evolve ck now w x p comment did ActionStatus.REJECTED Hk) as [S|[E _]];
      [by apply evolve_same|].
    eapply evolve_mono; [|exact E]. by apply sets_allowed.
  - eapply evolve_mono; [|by apply timeout_call_evolve]. by apply sets_allowed.
  - eapply evolve_mono; [|by apply scan_call_evolve]. intros y st -> Hst. done.
  - eapply evolve_mono; [|by apply manual_call_evolve]. by apply sets_allowed.
Qed.

Lemma exec_acalls_evolve (l : list acall) : ∀ w : World St,
  keyed_tables (w_db w) → Forall (consistent (levels (w_db w))) l →
  evolve (allowed (levels (w_db w)) l (w_db (exec_acalls w l))) (w_db w) (w_db (exec_acalls w l)).
Proof.
  induction l as [|c l IH]; intros w Hk Hc; [by apply evolve_same|].
  apply Forall_cons in Hc as [Hc1 Hc]. cbn [exec_acalls foldl].
  pose proof (exec_acall_evolve w c Hk Hc1) as E1. set (w1 := exec_acall w c) in *.
  pose proof (evolve_levels _ _ _ E1) as Hlv.
  assert (keyed_tables (w_db w1)) as Hk1 by (by apply E1).
  specialize (IH w1 Hk1). rewrite Hlv in IH. specialize (IH Hc).
  fold (exec_acalls w1 l). eapply evolve_trans.
  - eapply evolve_mono; [|exact E1]. intros x st Ha Hst. destruct (Ha Hst) as [|Hx]; [by left|].
    right. apply Exists_cons in Hx as [Hx|Hx%Exists_nil]; [|done]. left.
    by eapply approved_by_later.
  - eapply evolve_mono; [|exact IH]. intros x st Ha Hst. destruct (Ha Hst); [by left|]. by do 2 right.
Qed.


(** A decision is never rewritten: after any calls, the record of a decided approval is still
    there, for the same Action and cycle, with the same operator, comment, time and decision key. *)
Theorem decisions_are_final (w : World St) (l : list acall) (r : ApprovalRow) :
  keyed_tables (w_db w) → Forall (consistent (levels (w_db w))) l →
  r ∈ db_approvals (w_db w) → decided r = true →
  ∃ r', r' ∈ db_approvals (w_db (exec_acalls w l)) ∧ ap_approval_id r' = ap_approval_id r ∧
    ap_action_id r' = ap_action_id r ∧ ap_approval_cycle r' = ap_approval_cycle r ∧
    settlement r' = settlement r.
Proof.
  intros Hk Hc Hr Hd. pose proof (exec_acalls_evolve l w Hk Hc) as E.
  destruct (evolve_settled _ _ _ r E Hr) as (r' & Hr' & [Hi Ha Hcy Hs]). exists r'.
  split_and!; auto.
Qed.
End calls.

(** ** Automatic approval *)

Lemma template_supported m caps :
  manifest_supports_template_capabilities m caps = None ↔
  Forall (λ c, manifest_capability m c = Some CapabilityState.SUPPORTED) caps.
Proof.
  induction caps as [|c caps IH]; cbn [manifest_supports_template_capabilities]; [done|].
  rewrite Forall_cons, <-IH.
  destruct (manifest_capability m c) as [s|]; [|by split; [|intros []]].
  destruct (decide (s = CapabilityState.SUPPORTED)) as [->|Hs].
  - rewrite bool_decide_eq_true_2 by done. naive_solver.
  - rewrite bool_decide_eq_false_2 by done. naive_solver.
Qed.

(** The provider may run the tool, and everything the playbook template asks of it. *)
Definition provider_allows (m : CapabilityManifest) (a : Action) : Prop :=
  a_action_category a = ActionCategory.ROLLBACK ∨ a_tool_name a = TERMINAL_DISPOSITION_TOOL ∨
  a_tool_name a ∈ cm_allowed_operations m ∧
  ∀ t, a_action_template_snapshot a = Some t →
    Forall (λ c, manifest_capability m c = Some CapabilityState.SUPPORTED)
      (ts_required_capabilities t).

Lemma manifest_gate_open a m : manifest_gate a m = None ↔ provider_allows m a.
Proof.
  unfold manifest_gate, provider_allows. setoid_rewrite <-template_supported.
  repeat case_bool_decide; cbn; simplify_eq; try naive_solver.
  destruct (a_action_template_snapshot a) as [t|]; [|naive_solver].
  destruct (manifest_supports_template_capabilities m (ts_required_capabilities t)) eqn:E;
    naive_solver.
Qed.

Lemma readiness_gate_open r :
  readiness_gate r = None ↔ r ∈ [WritebackReadiness.READY; WritebackReadiness.NOT_REQUIRED].
Proof. destruct r; vm_compute; split; intros; (done || set_solver). Qed.

(** C14. The engine approves an Action without a human exactly when its level is L0 or L1 and within
    the configured cap and, if it has an execution owner, the provider's manifest allows its tool and
    its template, its writeback is ready or not needed, and the provider supports idempotent
    submission and lookup. *)
Theorem auto_approval_exact (ae : ApprovalEnv) (a : Action) :
  ad_decision (evaluation_of ae a) = ApprovalDecisionKind.AUTO_APPROVE ↔
  a_action_level a ∈ [ActionLevel.L0; ActionLevel.L1] ∧
  (action_level_rank (a_action_level a)
     ≤ action_level_rank (default ActionLevel.L1 (resolve_runtime_max_auto_level ae)))%Z ∧
  (a_execution_owner a = None ∨
   provider_allows (ae_manifest ae) a ∧
   a_writeback_readiness a ∈ [WritebackReadiness.READY; WritebackReadiness.NOT_REQUIRED] ∧
   cm_supports_idempotency (ae_manifest ae) = true ∧
   cm_supports_lookup_by_idempotency (ae_manifest ae) = true).
Proof.
  assert (AUTO_APPROVABLE_ACTION_LEVELS = [ActionLevel.L0; ActionLevel.L1]) as Hl by done.
  rewrite <-manifest_gate_open, <-readiness_gate_open, <-Hl.
  transitivity (evaluate_hard_gates a (ae_manifest ae) = None ∧
    a_action_level a ∈ AUTO_APPROVABLE_ACTION_LEVELS ∧ (action_level_rank (a_action_level a)
     ≤ action_level_rank (default ActionLevel.L1 (resolve_runtime_max_auto_level ae)))%Z).
  { rewrite <-level_rules_approve. unfold evaluation_of.
    destruct (evaluate_hard_gates _ _) as [d|] eqn:Hg; [|naive_solver].
    apply gates_never_approve in Hg. naive_solver. }
  unfold evaluate_hard_gates. case_bool_decide as Ho; [naive_solver|].
  destruct (manifest_gate _ _); [naive_solver|]. destruct (readiness_gate _); [naive_solver|].
  case_bool_decide; [|naive_solver].
  destruct (cm_supports_idempotency _), (cm_supports_lookup_by_idempotency _); naive_solver.
Qed.

(** ** Advancing a plan *)

Section advance.
Context {St : Type} `{ContextStore St} (env : Env) (ae : ApprovalEnv) (ah : ApprovalHooks).

Lemma transition_status ck (w : World St) e t caller op reason e' :
  t ≠ EventStatus.CLOSED →
  let w' := (transition env ck w e t caller op reason).2 in
  se_status <$> db_events (w_db w') !! e' = se_status <$> db_events (w_db w) !! e' ∨
  e' = e ∧ se_status <$> db_events (w_db w') !! e' = Some (enum_value t).
Proof.
  intros Ht w'. subst w'. unfold transition, reconcile_phase. rewrite bool_decide_eq_false_2 by done.
  destruct (transition_tx _ _ _ _ _ _ _ _) as [c|] eqn:Etx; [|by left].
  apply transition_tx_Ok in Etx as (row & ctx & eff & _ & _ & _ & _ & _ & Hnew & Hdb & _).
  destruct (after_commit _ _ _ _ _ _ _ _) as [ev w'] eqn:Eac; cbn [snd].
  apply after_commit_frame in Eac as Hf. pose proof (pf_events _ _ Hf e') as He.
  assert (se_status <$> db_events (w_db w') !! e' = se_status <$> db_events (cm_db c) !! e') as ->.
  { destruct (db_events (w_db w') !! e'), (db_events (cm_db c) !! e'); cbn in *; try done.
    apply (inj Some) in He. f_equal. exact (f_equal se_status He). }
  rewrite Hdb, committed_row. destruct (decide (e = e')) as [->|Hne].
  - right. rewrite lookup_insert_eq. cbn. by rewrite Hnew.
  - left. by rewrite lookup_insert_ne.
Qed.

(** The plan of [e] at [rev], as rows. *)
Definition in_plan (db : Db) (e : string) (rev : Z) (row : ActionRow) : Prop :=
  row ∈ db_actions db ∧ plan_row e rev row = true.


(** A row of the plan behind each loaded Action, and back. *)
Lemma plan_loaded db e rev actions :
  _load_plan_response_actions ae db e rev = Ok actions →
  (∀ a, a ∈ actions → ∃ row, in_plan db e rev row ∧ action_from_orm ae row = Ok a) ∧
  (∀ row, in_plan db e rev row → ∃ a, a ∈ actions ∧ action_from_orm ae row = Ok a).
Proof.
  intros Hl%actions_from_rows_Forall2. split.
  - intros a Ha. destruct (Forall2_elem_r _ _ _ a Hl Ha) as (row & Hrow & ?). exists row.
    by apply in_where in Hrow.
  - intros row Hrow. apply in_where in Hrow. destruct (Forall2_elem_l _ _ _ row Hl Hrow) as (a & ? & ?).
    by exists a.
Qed.

Lemma existsb_elem {A} (p : A → bool) l : existsb p l = true ↔ ∃ x, x ∈ l ∧ p x = true.
Proof. rewrite existsb_exists. by setoid_rewrite list_elem_of_In. Qed.

Lemma plan_target_spec actions t :
  plan_target actions = Some t →
  t = EventStatus.REPORTING ∨
  t = EventStatus.EXECUTING_RESPONSE ∧
  (∃ a, a ∈ actions ∧ a_status a = ActionStatus.APPROVED) ∧
  ((∃ a, a ∈ actions ∧ a_writeback_required a = true) →
   ∃ a, a ∈ actions ∧ a_tool_name a = TERMINAL_DISPOSITION_TOOL ∧
     a_status a = ActionStatus.APPROVED).
Proof.
  unfold plan_target. destruct (_ && _) eqn:Hgo; [|by repeat case_match; intros [= <-]; left].
  intros [= <-]. right. apply andb_true_iff in Hgo as [Ha Hreq]. split_and!; [done| |].
  - apply existsb_elem in Ha as (a & Ha & Hs). bool_props. by exists a.
  - intros Hwb%existsb_elem. rewrite Hwb in Hreq. cbn in Hreq.
    apply existsb_elem in Hreq as (a & ? & ?). exists a. by bool_props.
Qed.

(** The engine moves an event on only when its plan is decided: if advancing the plan changed an
    event's status, it is that event, every live response Action of the plan is approved or rejected,
    and the new status is EXECUTING_RESPONSE or REPORTING; EXECUTING_RESPONSE only with an approved
    Action and, if any Action requires writeback, with the terminal disposition approved. *)
Theorem plan_advance_guarded (ck : Clock) (w : World St) (e e' : string) (rev : Z) :
  let w' := (_maybe_advance_plan env ae ah ck w e rev).2 in
  let plan := in_plan (w_db w) e rev in
  let approved (row : ActionRow) := act_status row = enum_value ActionStatus.APPROVED in
  se_status <$> db_events (w_db w') !! e' ≠ se_status <$> db_events (w_db w) !! e' →
  e' = e ∧
  (∀ row, plan row → approved row ∨ act_status row = enum_value ActionStatus.REJECTED) ∧
  (se_status <$> db_events (w_db w') !! e' = Some (enum_value EventStatus.REPORTING) ∨
   se_status <$> db_events (w_db w') !! e' = Some (enum_value EventStatus.EXECUTING_RESPONSE) ∧
   (∃ row, plan row ∧ approved row) ∧
   ((∃ row, plan row ∧ act_writeback_required row = true) →
    ∃ row, plan row ∧ act_tool_name row = TERMINAL_DISPOSITION_TOOL ∧ approved row)).
Proof.
  intros w' plan approved. subst w'. unfold _maybe_advance_plan.
  destruct (_load_plan_response_actions ae (w_db w) e rev) as [actions|] eqn:Hload; [|done].
  apply plan_loaded in Hload as [Hback Hload].
  destruct (fully_decided actions) eqn:Hfull; [cbn [negb]|done].
  destruct (plan_target actions) as [t|] eqn:Ht; [|done].
  destruct (negb (ah_has_state_machine ah)); [done|].
  destruct (_event_status _ _) as [s|]; [|done]. case_bool_decide; [|done].
  pose proof (transition_status ck w e t None (Some APPROVAL_ENGINE_OPERATOR)
    (Some "plan_fully_decided") e' (plan_target_open _ _ Ht)) as Hst.
  destruct (transition _ _ _ _ _ _ _ _) as [r w1]. cbn [snd] in Hst. intros Hne.
  replace (w_db (match r with Ok _ => _ | Err _ => _ end).2) with (w_db w1) in * by (by destruct r).
  destruct Hst as [Hst|[-> ->]]; [done|]. split_and!; [done| |].
  - intros row Hrow. destruct (Hload row Hrow) as (a & Ha & (_ & _ & Hs & _)%orm_keys).
    unfold approved. rewrite Hs. unfold fully_decided in Hfull. rewrite forallb_forall in Hfull.
    apply list_elem_of_In, Hfull in Ha. apply bool_decide_eq_true in Ha.
    unfold _APPROVAL_TERMINAL in Ha. apply elem_of_cons in Ha as [->|Ha%list_elem_of_singleton]; [by left|right]. by rewrite Ha.
  - apply plan_target_spec in Ht as [->|(-> & Happ & Hterm)]; [by left|right]. split_and!; [done| |].
    + destruct Happ as (a & Hin & Hs). destruct (Hback a Hin) as (row & Hrow & (_ & _ & Hr & _)%orm_keys).
      exists row. split; [done|]. unfold approved. by rewrite Hr, Hs.
    + intros (row & Hrow & Hreq).
      destruct (Hload row Hrow) as (a & Ha & (_ & _ & _ & _ & _ & _ & Hwb)%orm_keys).
      destruct Hterm as (b & Hb & Htool & Hs); [exists a; by rewrite Hwb|].
      destruct (Hback b Hb) as (row' & Hrow' & (_ & _ & Hr & _ & _ & Htn & _)%orm_keys).
      exists row'. unfold approved. rewrite Hr, Hs, <-Htn. done.
Qed.
End advance.
