(* ===== verification/ApprovalReplay.v ===== *)
(** * Replays of approval decisions, and Actions without a way to a decision *)

From stdpp Require Import prelude strings gmap.
From S2P Require Import Prelude Enums Errors Tables Lifecycles LifecycleFacts Workflow Db Reconcile.
From S2P Require Import Reconcile ContextJournal ContextStore StateMachine StateMachineFacts.
From S2P Require Import ServiceRuns ApprovalRules Approval ApprovalFacts ApprovalProps.

#[local] Open Scope string_scope.

(** ** Reading back a written row *)

Lemma get_by_update {A} (pk : A → string) l x y :
  x ∈ l → pk x = pk y → get_by pk (pk y) (update_by pk y l) = Some y.
Proof.
  intros Hx Hpk. unfold get_by, update_by. induction l as [|z l IH]; [by apply elem_of_nil in Hx|].
  cbn. destruct (decide (pk z = pk y)) as [Hz|Hz].
  - by rewrite (bool_decide_eq_true_2 (pk z = pk y)), bool_decide_eq_true_2.
  - rewrite (bool_decide_eq_false_2 (pk z = pk y)) by done. rewrite bool_decide_eq_false_2 by done.
    apply IH. by apply elem_of_cons in Hx as [->|].
Qed.

(** A search finds the one row it can. *)
Lemma find_only {A} (p : A → bool) l x :
  x ∈ l → p x = true → (∀ y, y ∈ l → p y = true → y = x) → List.find p l = Some x.
Proof.
  intros Hx Hp Hu. destruct (List.find p l) as [y|] eqn:Hf.
  - apply List.find_some in Hf as [Hy Hpy]. f_equal. apply Hu; [by apply list_elem_of_In|done].
  - eapply List.find_none in Hf; [|by apply list_elem_of_In]. congruence.
Qed.

(** ** Recorded decisions *)

Section replay.
Context {St : Type} `{ContextStore St} (env : Env) (ae : ApprovalEnv) (ah : ApprovalHooks).

(** The decision found under key [d] is on Action [x], which loads, with this operation and
    comment. *)
Definition recorded (db : Db) (x d : string) (operation : string) (comment : option string) :
    Prop :=
  ∃ r row a s, List.find (λ r, (ap_decision_id r ==? Some d) && decided r) (db_approvals db) = Some r ∧
    ap_action_id r = x ∧ _load_action_row db x = Some row ∧ action_from_orm ae row = Ok a ∧
    act_status row = enum_value s ∧
    ib_operation (_idempotency_binding_from_record ae r s) = VStr operation ∧
    ib_payload_hash (_idempotency_binding_from_record ae r s) = _approval_payload_hash ae comment.

Lemma recorded_same db db' x d op comment :
  same_rows db db' → recorded db x d op comment → recorded db' x d op comment.
Proof. intros [Ha Hp]. unfold recorded, _load_action_row. by rewrite Ha, Hp. Qed.

Lemma decision_key_Some did d : decision_key did = Some d → did = Some d.
Proof. destruct did; [|done]. cbn. case_bool_decide; congruence. Qed.

(** The binding a decision stores reads back, through its columns or the legacy way. *)
Lemma binding_roundtrip now r p comment did t :
  t ∈ _APPROVAL_TERMINAL →
  let b := _idempotency_binding_from_record ae (decision_record ae now r p comment did t) t in
  ib_operation b = VStr (_approval_operation t) ∧
  ib_payload_hash b = _approval_payload_hash ae comment.
Proof.
  intros Ht. cbn zeta. unfold _idempotency_binding_from_record, decision_record, idempotency_detail.
  cbn [ap_detail ap_comment record_decided from_option id]. rewrite dict_get_set.
  set (h := _approval_payload_hash ae comment). unfold truthy_get.
  cbn [dict_get]. rewrite bool_decide_eq_true_2 by done.
  rewrite bool_decide_eq_false_2 by done. rewrite bool_decide_eq_true_2 by done.
  assert (py_truthy (VStr (_approval_operation t)) = true) as Ho by (by destruct t).
  rewrite Ho. destruct (py_truthy (VStr h)); [done|]. cbn. split; [|done].
  apply elem_of_cons in Ht as [->|Ht%list_elem_of_singleton]; [done|by rewrite Ht].
Qed.

Lemma fresh_recorded now db x p comment did d t db' a :
  decision_key did = Some d → t ∈ _APPROVAL_TERMINAL →
  decide_tx ae now db x p comment did t = Ok (db', a) →
  recorded db' x d (_approval_operation t) comment.
Proof.
  intros Hd%decision_key_Some Ht.
  intros (row & a0 & r & Hrow & <- & _ & _ & Hin & Hx & _ & Hfree & Ha & ->)%decide_tx_Ok.
  subst did. exists (decision_record ae now r p comment (Some d) t), (with_status row t now), a, t.
  split_and!; try done.
  - apply find_only.
    + by eapply put_record_elem.
    + cbn. by rewrite bool_decide_eq_true_2.
    + intros y Hy Hyd. apply list_elem_of_fmap in Hy as (y0 & Hy & Hy0).
      cbn beta in Hy. destruct (decide (ap_approval_id y0 = ap_approval_id r)) as [Hid|Hid];
        [by rewrite bool_decide_eq_true_2 in Hy|].
      rewrite bool_decide_eq_false_2 in Hy by done. subst y. exfalso.
      apply andb_true_iff in Hyd as [Hyd%bool_decide_eq_true _].
      assert (decision_id_taken db r (Some d) = true) as Ht'; [|congruence].
      apply existsb_elem. exists y0. split; [done|].
      rewrite Hyd, bool_decide_eq_true_2, bool_decide_eq_false_2; done.
  - by apply (get_by_update act_action_id _ row (with_status row t now)).
  - by apply binding_roundtrip.
  - by apply binding_roundtrip.
Qed.

Lemma replay_recorded db x p comment did d t o :
  decision_key did = Some d → replay_phase ae ah db x p comment did t = Ok (Some o) →
  recorded db x d (_approval_operation t) comment.
Proof.
  intros Hd. unfold replay_phase. rewrite Hd.
  destruct (_load_action_row db x) as [row|] eqn:Hrow; [|done].
  rewrite bind_Ok. intros (a & Ha & H0). apply bind_Ok in H0 as (replay & Hres & Ho).
  destruct replay as [o0|]; [|done]. unfold _resolve_idempotent_replay in Hres.
  destruct (List.find _ _) as [r|] eqn:Hf; [|done].
  apply raise_if_seq_Ok in Hres as [Hx%negb_bool_decide_false Hres].
  apply bind_Ok in Hres as (s & Hs%enum_of_value_or_raise_Ok & Hres). cbn zeta in Hres.
  apply raise_if_seq_Ok in Hres as [[Hop Hh]%orb_false_iff _].
  exists r, row, a, s. split_and!; try done.
  - apply negb_false_iff in Hop. destruct (ib_operation _); try done.
    unfold is_text in Hop. apply bool_decide_eq_true in Hop. by subst.
  - by apply negb_bool_decide_false in Hh.
Qed.

(** The key and operation again: the stored outcome. *)
Lemma recorded_replay db x p comment did d t :
  decision_key did = Some d → t ∈ _APPROVAL_TERMINAL →
  recorded db x d (_approval_operation t) comment →
  ∃ o, replay_phase ae ah db x p comment did t = Ok (Some o) ∧
    ao_idempotent_replay o = true ∧ ao_persisted_status o = Some t ∧ ao_decision_id o = did.
Proof.
  intros Hd Ht (r & row & a & s & Hf & Hx & Hrow & Ha & Hs & Hop & Hh).
  unfold replay_phase. rewrite Hd, Hrow, Ha. apply decision_key_Some in Hd. subst did. cbn [mbind result_bind].
  unfold _resolve_idempotent_replay. rewrite Hf, Hx, (bool_decide_eq_true_2 (x = x)) by done.
  cbn [negb raise_if]. rewrite Hs. unfold enum_of_value_or_raise. rewrite enum_of_value_value. cbn [mbind result_bind].
  rewrite Hop, Hh. cbn [is_text].
  rewrite (bool_decide_eq_true_2 (_approval_operation t = _)) by done.
  rewrite (bool_decide_eq_true_2 (_approval_payload_hash ae comment = _)) by done.
  cbn [negb orb raise_if mbind result_bind].
  eexists. split; [reflexivity|].
  assert (_decision_status_for_operation (_approval_operation t) = t) as Hst
    by (by apply elem_of_cons in Ht as [->|Ht%list_elem_of_singleton]; [|rewrite Ht]).
  unfold _finish_rollback_decision. by repeat case_bool_decide; cbn; rewrite Hst.
Qed.

(** The key with the other operation, or on another Action: refused. *)
Lemma recorded_conflict db x p comment comment' did d op t :
  decision_key did = Some d → op ≠ _approval_operation t → recorded db x d op comment →
  ∃ err, replay_phase ae ah db x p comment' did t = Err err ∧
    err_class err = ApprovalDecisionConflictError.
Proof.
  intros Hd Hne (r & row & a & s & Hf & Hx & Hrow & Ha & Hs & Hop & Hh).
  unfold replay_phase. rewrite Hd, Hrow, Ha. cbn [mbind result_bind].
  unfold _resolve_idempotent_replay. rewrite Hf, Hx, (bool_decide_eq_true_2 (x = x)) by done.
  cbn [negb raise_if]. rewrite Hs. unfold enum_of_value_or_raise. rewrite enum_of_value_value. cbn [mbind result_bind].
  rewrite Hop. cbn [is_text]. rewrite (bool_decide_eq_false_2 (op = _)) by done. by eexists.
Qed.

Lemma recorded_elsewhere ck now (w : World St) x y p comment comment' did d op t :
  decision_key did = Some d → y ≠ x → recorded (w_db w) x d op comment →
  ∃ err, _decide env ae ah ck now w y p comment' did t = (Err err, w).
Proof.
  intros Hd Hne (r & _ & _ & _ & Hf & Hx & _). unfold _decide, replay_phase. rewrite Hd.
  destruct (_load_action_row (w_db w) y) as [row|] eqn:Hrow.
  - destruct (action_from_orm ae row); [|by eexists]. cbn [mbind result_bind].
    unfold _resolve_idempotent_replay. rewrite Hf, Hx, (bool_decide_eq_false_2 (x = y)) by congruence.
    by eexists.
  - unfold decide_tx. rewrite Hrow. by eexists.
Qed.

Lemma decide_recorded ck now (w : World St) x p comment did d t o w' :
  decision_key did = Some d → t ∈ _APPROVAL_TERMINAL →
  _decide env ae ah ck now w x p comment did t = (Ok o, w') →
  recorded (w_db w') x d (_approval_operation t) comment.
Proof.
  intros Hd Ht. unfold _decide.
  destruct (replay_phase _ _ _ _ _ _ _ _) as [[o'|]|] eqn:Hr; [intros [= _ <-]| |done].
  { by eapply replay_recorded. }
  destruct (decide_tx _ _ _ _ _ _ _ _) as [[db a]|] eqn:Hdec; [|done].
  eapply fresh_recorded in Hdec; [|exact Hd|done]. cbn zeta. case_bool_decide; [by intros [= _ <-]|].
  pose proof (advance_same_rows env ae ah ck (MkWorld db (w_store w)) (a_event_id a)
    (a_plan_revision a)) as S.
  destruct (_maybe_advance_plan _ _ _ _ _ _ _) as [r2 w2]. intros [= _ <-].
  by eapply recorded_same.
Qed.

(** A decision key binds one decision.  After a decision under a key succeeded, the same decision
    under that key, by any principal, is answered from the record and writes nothing; the other
    operation under that key is refused as a conflict whatever the comment; and no other Action can be
    decided under it. *)
Theorem decision_key_binds (ck ck' : Clock) (now now' : Z) (w w' : World St) (x d : string)
    (p p' : Principal) (comment comment' did : option string) (t : ActionStatus)
    (o : ApprovalOutcome) :
  decision_key did = Some d → t ∈ [ActionStatus.APPROVED; ActionStatus.REJECTED] →
  _decide env ae ah ck now w x p comment did t = (Ok o, w') →
  (∃ o', _decide env ae ah ck' now' w' x p' comment did t = (Ok o', w') ∧
     ao_idempotent_replay o' = true ∧ ao_persisted_status o' = Some t ∧ ao_decision_id o' = did) ∧
  (∀ t', t' ∈ [ActionStatus.APPROVED; ActionStatus.REJECTED] → t' ≠ t →
     ∃ err, _decide env ae ah ck' now' w' x p' comment' did t' = (Err err, w') ∧
       err_class err = ApprovalDecisionConflictError) ∧
  (∀ y t', y ≠ x → ∃ err, _decide env ae ah ck' now' w' y p' comment' did t' = (Err err, w')).
Proof.
  intros Hd Ht Hok. pose proof (decide_recorded _ _ _ _ _ _ _ _ _ _ _ Hd Ht Hok) as Hrec.
  split_and!.
  - destruct (recorded_replay _ _ p' _ _ _ _ Hd Ht Hrec) as (o' & Ho & Hrest). exists o'.
    split; [|done]. unfold _decide. by rewrite Ho.
  - intros t' Ht' Hne.
    assert (_approval_operation t ≠ _approval_operation t') as Hop.
    { apply elem_of_cons in Ht as [->|Ht%list_elem_of_singleton];
        apply elem_of_cons in Ht' as [->|Ht'%list_elem_of_singleton]; subst; by vm_compute. }
    destruct (recorded_conflict _ _ p' _ comment' _ _ _ _ Hd Hop Hrec) as (err & He & Hc).
    exists err. unfold _decide. by rewrite He.
  - intros y t' Hne. by eapply recorded_elsewhere.
Qed.
End replay.

(** ** Actions without a way to a decision *)

Lemma get_by_update_ne {A} (pk : A → string) l y k :
  pk y ≠ k → get_by pk k (update_by pk y l) = get_by pk k l.
Proof.
  intros Hne. unfold get_by, update_by. induction l as [|z l IH]; [done|]. cbn.
  destruct (decide (pk z = pk y)) as [Hz|Hz].
  - rewrite (bool_decide_eq_true_2 (pk z = pk y)) by done.
    rewrite !bool_decide_eq_false_2 by congruence. exact IH.
  - rewrite (bool_decide_eq_false_2 (pk z = pk y)) by done. by rewrite IH.
Qed.

(** Every record of the Action is decided. *)
Definition all_decided (db : Db) (x : string) : Prop :=
  ∀ r, r ∈ db_approvals db → ap_action_id r = x → decided r = true.

Section dead_ends.
Context {St : Type} `{ContextStore St} (env : Env) (ae : ApprovalEnv) (ah : ApprovalHooks).

Lemma all_decided_no_tx now db x p comment did t db' a :
  all_decided db x → decide_tx ae now db x p comment did t ≠ Ok (db', a).
Proof.
  intros Hall (row & a0 & r & _ & _ & _ & _ & Hin & Hx & Hd & _)%decide_tx_Ok.
  apply Hall in Hx; congruence.
Qed.

Lemma all_decided_decide ck now (w : World St) x p comment did t :
  all_decided (w_db w) x → (_decide env ae ah ck now w x p comment did t).2 = w.
Proof.
  intros Hall. unfold _decide. destruct (replay_phase _ _ _ _ _ _ _ _) as [[o|]|]; try done.
  destruct (decide_tx _ _ _ _ _ _ _ _) as [[db a]|] eqn:Hd; [|done].
  by apply all_decided_no_tx in Hd.
Qed.

Lemma all_decided_timeout ck now (w : World St) x cycle :
  all_decided (w_db w) x → (handle_timeout env ae ah ck now w x cycle).2 = w.
Proof.
  intros Hall. unfold handle_timeout, handle_timeout_tx.
  destruct (_load_action_row (w_db w) x); [|done]. destruct (negb _); [done|].
  destruct (_load_record_row _ _ _) as [r|] eqn:Hr; [|done].
  apply load_record_row_Some in Hr as (Hin & Hx & _). by rewrite (Hall r Hin Hx).
Qed.

Lemma scan_records_other now x : ∀ rows db,
  Forall (λ r, ap_action_id r ≠ x) rows →
  _load_action_row (scan_records now db rows).1 x = _load_action_row db x.
Proof.
  induction rows as [|r rows IH]; intros db Hx; [done|]. apply Forall_cons in Hx as [Hr Hx].
  cbn [scan_records]. destruct (_load_action_row db (ap_action_id r)) as [a|] eqn:Ha; [|by apply IH].
  destruct (negb _); [by apply IH|]. apply get_by_Some in Ha as [_ Ha].
  match goal with |- context [scan_records now ?db1 rows] => specialize (IH db1 Hx) end.
  destruct (scan_records _ _ _) as [db2 touched]. cbn [fst] in *. rewrite IH.
  apply (get_by_update_ne act_action_id (db_actions db) (with_status a ActionStatus.REJECTED now)).
  cbn. congruence.
Qed.

Lemma all_decided_scan ck now locked (w : World St) x :
  all_decided (w_db w) x →
  _load_action_row (w_db (scan_timeouts env ae ah ck now locked w).2) x = _load_action_row (w_db w) x.
Proof.
  intros Hall. unfold scan_timeouts. destruct locked; [cbn [negb]|done].
  pose proof (scan_records_other now x (List.filter (expired_record now) (db_approvals (w_db w)))
    (w_db w)) as Hs.
  unfold _scan_expired_approval_records. destruct (scan_records _ _ _) as [db touched].
  pose proof (advance_events_same_rows env ae ah ck (first_occurrences touched)
    (MkWorld db (w_store w))) as [Ha _].
  destruct (advance_events _ _ _ _ _ _) as [r2 w2]. cbn [fst snd w_db] in *.
  unfold _load_action_row in *. rewrite Ha. apply Hs, Forall_forall.
  intros r [Hin Hr]%in_where Hx. unfold expired_record in Hr. rewrite (Hall r Hin Hx) in Hr. done.
Qed.

Lemma upsert_decided ak db a d cycle new r db' :
  all_decided db (a_action_id a) → _load_record_row db (a_action_id a) cycle = Some r →
  _upsert_record ae ak db a d cycle new = Ok db' →
  all_decided db' (a_action_id a) ∧ db_actions db' = db_actions db.
Proof.
  intros Hall Hr. unfold _upsert_record. rewrite Hr. cbn zeta. cbn [mbind result_bind].
  intros [Ha Hp]%same_rows_sync. rewrite Ha. split; [|done]. intros y. rewrite Hp. cbn.
  intros (y0 & Hy & Hy0)%list_elem_of_fmap Hx. cbn beta in Hy.
  apply load_record_row_Some in Hr as (Hin & Hrx & _).
  destruct (decide (ap_approval_id y0 = ap_approval_id r)) as [Hid|Hid].
  - rewrite (bool_decide_eq_true_2 (ap_approval_id y0 = ap_approval_id r)) in Hy by done. subst y.
    exact (Hall r Hin Hrx).
  - rewrite (bool_decide_eq_false_2 (ap_approval_id y0 = ap_approval_id r)) in Hy by done. subst y.
    by apply Hall.
Qed.

Lemma load_updated_status db x t now row :
  _load_action_row db x = Some row →
  _load_action_row (update_action_status db x t now) x = Some (with_status row t now).
Proof.
  unfold _load_action_row, get_by. cbn. induction (db_actions db) as [|z l IH]; [done|]. cbn.
  destruct (decide (act_action_id z = x)) as [Hz|Hz].
  - rewrite !(bool_decide_eq_true_2 (act_action_id z = x)) by done. intros [= ->].
    done.
  - by rewrite !(bool_decide_eq_false_2 (act_action_id z = x)) by done.
Qed.

(** Asking for a manual review in a cycle that is already decided strands the Action: it waits for
    approval with no undecided record, so no approval, rejection or timeout of it ever writes
    anything again, and the timeout scan passes it over. *)
Theorem review_of_decided_cycle_strands (ck : Clock) (ak : ApprovalClock) (w w' : World St)
    (x reason new : string) (cycle : Z) (r : ApprovalRow) :
  all_decided (w_db w) x → _load_record_row (w_db w) x cycle = Some r →
  require_manual_review env ae ah ck ak w x reason cycle new = (Ok tt, w') →
  (∃ row, _load_action_row (w_db w') x = Some row ∧
     act_status row = enum_value ActionStatus.WAITING_APPROVAL) ∧
  (∀ ck' now p comment did t, (_decide env ae ah ck' now w' x p comment did t).2 = w') ∧
  (∀ ck' now cycle', (handle_timeout env ae ah ck' now w' x cycle').2 = w') ∧
  (∀ ck' now locked, _load_action_row (w_db (scan_timeouts env ae ah ck' now locked w').2) x
                     = _load_action_row (w_db w') x).
Proof.
  intros Hall Hr. unfold require_manual_review, manual_review_tx.
  destruct (_load_action_row (w_db w) x) as [row|] eqn:Hrow; [|done].
  destruct (action_from_orm ae row) as [a|] eqn:Ha; [|done]. cbn [mbind result_bind].
  apply orm_keys in Ha as [Hid _]. apply get_by_Some in Hrow as Hx. destruct Hx as [_ Hx].
  assert (a_action_id a = x) as Hax by congruence. rewrite <-Hax in Hall, Hr.
  destruct (_upsert_record _ _ _ _ _ _ _) as [db1|] eqn:Hup; [|done]. cbn [mbind result_bind].
  apply upsert_decided with (r := r) in Hup as [Hall1 Hact]; [|done..].
  unfold _set_action_status. destruct (validate_action_status_transition _ _ _ _); [|done].
  cbn [mbind result_bind]. set (db2 := update_action_status _ _ _ _). intros Hw.
  pose proof (ensure_waiting_same_rows env ah ck (MkWorld db2 (w_store w)) (a_event_id a)) as [Sa Sp].
  rewrite Hw in Sa, Sp. cbn [snd w_db] in Sa, Sp.
  assert (all_decided (w_db w') x) as Hall2.
  { intros y. rewrite Sp. rewrite Hax in Hall1. apply Hall1. }
  split_and!.
  - exists (with_status row ActionStatus.WAITING_APPROVAL (ak_status ak)). split; [|done].
    unfold _load_action_row. rewrite Sa. subst db2. rewrite Hax.
    apply (load_updated_status db1). unfold _load_action_row in *. by rewrite Hact.
  - intros. by apply all_decided_decide.
  - intros. by apply all_decided_timeout.
  - intros. by apply all_decided_scan.
Qed.

(** An Action the gates send to a human cannot be approved by one: while the gate holds, the
    evaluation asks for approval and every approval is refused, with nothing written. *)
Theorem gated_review_cannot_approve (ck : Clock) (now : Z) (w : World St) (x : string)
    (row : ActionRow) (a : Action) (gate : ApprovalDecision) (p : Principal)
    (comment did : option string) :
  _load_action_row (w_db w) x = Some row → action_from_orm ae row = Ok a →
  evaluate_hard_gates a (ae_manifest ae) = Some gate →
  ad_decision gate = ApprovalDecisionKind.REQUIRE_APPROVAL →
  replay_phase ae ah (w_db w) x p comment did ActionStatus.APPROVED = Ok None →
  ad_decision (evaluation_of ae a) = ApprovalDecisionKind.REQUIRE_APPROVAL ∧
  ∃ err, approve env ae ah ck now w x p comment did = (Err err, w) ∧
    err_class err = InvalidStateTransitionError ∧
    err_message err = "approval blocked: capability or policy changed; re-evaluate required".
Proof.
  intros Hrow Ha Hg Hd Hrep. split; [unfold evaluation_of; by rewrite Hg|].
  unfold approve, _decide. rewrite Hrep. unfold decide_tx. rewrite Hrow, Ha.
  cbn [mbind result_bind]. unfold decision_checks.
  rewrite (bool_decide_eq_true_2 (ActionStatus.APPROVED = ActionStatus.APPROVED)) by done.
  rewrite Hg. by eexists.
Qed.
End dead_ends.

(** ** The timeout scan settles what expired *)

Definition waiting (a : ActionRow) : bool := act_status a ==? enum_value ActionStatus.WAITING_APPROVAL.

Lemma scan_keeps_settled now x a : ∀ rows db,
  _load_action_row db x = Some a → waiting a = false →
  _load_action_row (scan_records now db rows).1 x = Some a.
Proof.
  induction rows as [|r rows IH]; intros db Hx Hw; [done|]. cbn [scan_records].
  destruct (_load_action_row db (ap_action_id r)) as [b|] eqn:Hb; [|by apply IH].
  destruct (negb _) eqn:Hn; [by apply IH|].
  match goal with |- context [scan_records now ?db1 rows] => specialize (IH db1) end.
  destruct (scan_records _ _ _) as [db2 touched]. cbn [fst] in *. apply IH; [|done].
  rewrite <-Hx. apply (get_by_update_ne act_action_id (db_actions db) (with_status b ActionStatus.REJECTED now)).
  cbn. intros Hid. apply get_by_Some in Hb as Hb'. destruct Hb' as [_ Hb'].
  rewrite <-Hb', Hid in Hb. rewrite Hx in Hb. injection Hb as ->.
  unfold waiting in Hw. by rewrite Hw in Hn.
Qed.

Lemma scan_rejects now x r : ∀ rows db a,
  r ∈ rows → ap_action_id r = x → _load_action_row db x = Some a → waiting a = true →
  ∃ a', _load_action_row (scan_records now db rows).1 x = Some a' ∧
    act_status a' = enum_value ActionStatus.REJECTED.
Proof.
  induction rows as [|r0 rows IH]; intros db a Hr Hrx Hx Hw; [by apply elem_of_nil in Hr|].
  cbn [scan_records]. destruct (decide (ap_action_id r0 = x)) as [H0|H0].
  - rewrite H0, Hx. unfold waiting in Hw. rewrite Hw. cbn [negb].
    match goal with |- context [scan_records now ?db1 rows] =>
      pose proof (scan_keeps_settled now x (with_status a ActionStatus.REJECTED now) rows db1) as Hk end.
    destruct (scan_records _ _ _) as [db2 touched]. cbn [fst] in *. eexists. split; [apply Hk; [|done]|done].
    apply get_by_Some in Hx as [Hin Hid].
    rewrite <-Hid. by apply (get_by_update act_action_id (db_actions db) a (with_status a ActionStatus.REJECTED now)).
  - apply elem_of_cons in Hr as [->|Hr]; [done|].
    destruct (_load_action_row db (ap_action_id r0)) as [b|] eqn:Hb; [|by eapply IH].
    destruct (negb _); [by eapply IH|].
    match goal with |- context [scan_records now ?db1 rows] => specialize (IH db1 a) end.
    destruct (scan_records _ _ _) as [db2 touched]. cbn [fst] in *. apply IH; [done..| |done].
    rewrite <-Hx. apply (get_by_update_ne act_action_id (db_actions db) (with_status b ActionStatus.REJECTED now)).
    apply get_by_Some in Hb as [_ Hb]. cbn. congruence.
Qed.

Section scan.
Context {St : Type} `{ContextStore St} (env : Env) (ae : ApprovalEnv) (ah : ApprovalHooks).

(** No expired request survives a scan: if an undecided request for human approval reached its
    timeout and its Action still waits, a scan that holds the lock leaves the Action REJECTED,
    whatever the plan advances it starts do. *)
Theorem scan_settles_expired (ck : Clock) (now : Z) (w : World St) (r : ApprovalRow)
    (a : ActionRow) :
  r ∈ db_approvals (w_db w) → expired_record now r = true →
  _load_action_row (w_db w) (ap_action_id r) = Some a →
  act_status a = enum_value ActionStatus.WAITING_APPROVAL →
  ∃ a', _load_action_row (w_db (scan_timeouts env ae ah ck now true w).2) (ap_action_id r) = Some a' ∧
    act_status a' = enum_value ActionStatus.REJECTED.
Proof.
  intros Hr He Ha Hw. unfold scan_timeouts, _scan_expired_approval_records. cbn [negb].
  destruct (scan_rejects now (ap_action_id r) r
    (List.filter (expired_record now) (db_approvals (w_db w))) (w_db w) a) as (a' & Ha' & Hs);
    [by apply in_where|done|done|by apply bool_decide_eq_true|].
  destruct (scan_records _ _ _) as [db touched]. cbn [fst] in Ha'.
  pose proof (advance_events_same_rows env ae ah ck (first_occurrences touched)
    (MkWorld db (w_store w))) as [Hact _].
  destruct (advance_events _ _ _ _ _ _) as [r2 w2]. cbn [snd w_db] in *. exists a'. split; [|done].
  unfold _load_action_row in *. by rewrite Hact.
Qed.
End scan.
