(* ===== verification/ConvergenceGuard.v ===== *)
(** * The cross-loop convergence guard

    [orchestration/convergence_guard.py].  Every orchestration loop records a step and asks the
    guard whether to stop.  The guard keeps, per event, counters and a sliding window of action
    labels; [history_view] is the abstract specification: the full list of steps recorded since
    the last [reset], from which every counter and decision is recomputed.

    The fingerprint [make_tool_call_signature] (JSON and SHA-256 of third-party code) and the
    working memory the decision is persisted to are parameters. *)

From stdpp Require Import prelude strings gmap pretty.
From Stdlib Require Import ZArith Lia.
From S2P Require Import Prelude Enums Tables.
#[local] Open Scope string_scope.

(** ** Data *)

Definition _VALID_STEP_TYPES : list string :=
  ["react_round"; "replan"; "agent_retry"; "tool_call"; "llm_call"].

Definition _RECENT_ACTIONS_MAXLEN : nat := 2 * MAX_OSCILLATION + 2.

Record ConvergenceState : Type := MkConvergenceState {
  total_steps : Z;
  react_rounds : Z;
  replan_count : Z;
  llm_calls : Z;
  tool_call_signatures : list (string * Z);
  recent_actions : list string
}.

Definition new_ConvergenceState : ConvergenceState :=
  {| total_steps := 0; react_rounds := 0; replan_count := 0; llm_calls := 0;
     tool_call_signatures := []; recent_actions := [] |}.

Record StopDecision : Type := MkStopDecision {
  stop : bool;
  stop_reason : StopReason;
  stop_detail : string
}.

Definition no_stop : StopDecision := MkStopDecision false StopReason.NONE "".

(** The arguments of one [record_step] call, [event_id] apart. *)
Record step : Type := MkStep {
  st_type : string;
  st_tool_name : option string;
  st_params : option (list (string * pyval));
  st_signature : option string
}.

(** The process-local [self._states]. *)
Abbreviation guard := (gmap string ConvergenceState).

(** How [wm.write] ends: it returns, raises a [ShadowTraceError], or raises something else. *)
Inductive write_outcome : Type := Written | RaisesShadowTraceError | RaisesOther.

(** ** Operations *)

Section Guard.
Context (make_tool_call_signature : string → list (string * pyval) → string).
Context (working_memory : option (string → string → pyval → write_outcome)).

Definition effective_sig (s : step) : option string :=
  match st_signature s with
  | Some sig => Some sig
  | None =>
      match st_tool_name s, st_params s with
      | Some t, Some p => Some (make_tool_call_signature t p)
      | t, _ => t
      end
  end.

Definition step_label (s : step) : string :=
  match effective_sig s with
  | Some sig => if sig !=? "" then st_type s +++ ":" +++ sig else st_type s
  | None => st_type s
  end.

Definition bump_signature (sigs : list (string * Z)) (o : option string) : list (string * Z) :=
  match o with
  | Some sig => if sig !=? "" then dict_set sigs sig (default 0%Z (dict_get sigs sig) + 1)%Z else sigs
  | None => sigs
  end.

Definition _get_or_create_state (g : guard) (event_id : string) : ConvergenceState :=
  default new_ConvergenceState (g !! event_id).

(** [actions[-n:]] for [n > 0]. *)
Definition last_n (n : nat) (l : list string) : list string := drop (length l - n) l.

(** The body of [record_step] on the state of one event. *)
Definition record_in_state (s : step) (st : ConvergenceState) : ConvergenceState :=
  let is_known := st_type s ∈? _VALID_STEP_TYPES in
  let hits t := is_known && (st_type s ==? t) in
  let recent := (recent_actions st ++ [step_label s])%list in
  {| total_steps := total_steps st + 1;
     react_rounds := react_rounds st + (if hits "react_round" then 1 else 0);
     replan_count := replan_count st + (if hits "replan" then 1 else 0);
     llm_calls := llm_calls st + (if hits "llm_call" then 1 else 0);
     tool_call_signatures :=
       if hits "tool_call"
       then bump_signature (tool_call_signatures st) (effective_sig s)
       else tool_call_signatures st;
     recent_actions :=
       if (_RECENT_ACTIONS_MAXLEN <? length recent)%nat
       then last_n _RECENT_ACTIONS_MAXLEN recent else recent |}%Z.

Definition record_step (g : guard) (event_id : string) (s : step) : guard :=
  <[event_id := record_in_state s (_get_or_create_state g event_id)]> g.

(** The loop [for i in range(window)] over [recent], from index [i] on. *)
Fixpoint alternates (a b : string) (i : nat) (recent : list string) : bool :=
  match recent with
  | [] => true
  | x :: recent' =>
      if x !=? (if Nat.even i then a else b) then false else alternates a b (S i) recent'
  end.

Definition _detect_oscillation (actions : list string) : option (string * string) :=
  let window := (2 * MAX_OSCILLATION)%nat in
  if (length actions <? window)%nat then None else
  match last_n window actions with
  | (a :: b :: _) as recent =>
      if a ==? b then None
      else if alternates a b 0 recent then Some (a, b) else None
  | _ => None
  end.

(** [state.model_dump()] with the two keys the stop adds. *)
Definition stop_payload (st : ConvergenceState) (d : StopDecision) : pyval :=
  VDict [("total_steps", VInt (total_steps st));
         ("react_rounds", VInt (react_rounds st));
         ("replan_count", VInt (replan_count st));
         ("llm_calls", VInt (llm_calls st));
         ("tool_call_signatures", VDict (prod_map id VInt <$> tool_call_signatures st));
         ("recent_actions", VList (VStr <$> recent_actions st));
         ("stop_reason", VStr (enum_value (stop_reason d)));
         ("stop_detail", VStr (stop_detail d))].

(** [false] when the exception escapes. *)
Definition _persist_convergence_state (event_id : string) (st : ConvergenceState)
    (d : StopDecision) : bool :=
  match working_memory with
  | None => true
  | Some write =>
      match write event_id "convergence_state" (stop_payload st d) with
      | Written | RaisesShadowTraceError => true
      | RaisesOther => false
      end
  end.

(** [_stop_decision] under the [try] of [should_stop]: an exception that escapes the persistence
    is answered with "do not stop". *)
Definition _stop_decision (event_id : string) (st : ConvergenceState) (reason : StopReason)
    (detail : string) : StopDecision :=
  let d := MkStopDecision true reason detail in
  if _persist_convergence_state event_id st d then d else no_stop.

Definition should_stop (g : guard) (event_id : string) : StopDecision :=
  match g !! event_id with
  | None => no_stop
  | Some st =>
      if (GLOBAL_MAX_STEPS <=? total_steps st)%Z then
        _stop_decision event_id st StopReason.GLOBAL_MAX_STEPS
          ("total_steps=" +++ pretty (total_steps st) +++ " >= GLOBAL_MAX_STEPS=" +++
           pretty GLOBAL_MAX_STEPS)
      else if (MAX_TOTAL_LLM_CALLS <=? llm_calls st)%Z then
        _stop_decision event_id st StopReason.MAX_LLM_CALLS
          ("llm_calls=" +++ pretty (llm_calls st) +++ " >= MAX_TOTAL_LLM_CALLS=" +++
           pretty MAX_TOTAL_LLM_CALLS)
      else match List.find (λ p : string * Z, (MAX_DUPLICATE_TOOL_CALLS <? p.2)%Z)
                   (tool_call_signatures st) with
      | Some (sig, count) =>
          _stop_decision event_id st StopReason.DUPLICATE_TOOL_CALLS
            ("tool_call signature '" +++ sig +++ "' called " +++ pretty count +++
             " times (limit=" +++ pretty MAX_DUPLICATE_TOOL_CALLS +++ ")")
      | None =>
          match _detect_oscillation (recent_actions st) with
          | Some (a, b) =>
              _stop_decision event_id st StopReason.OSCILLATION
                ("A/B oscillation detected: '" +++ a +++ "' ↔ '" +++ b +++ "'")
          | None => no_stop
          end
      end
  end.

Definition get_state (g : guard) (event_id : string) : ConvergenceState :=
  default new_ConvergenceState (g !! event_id).

Definition reset (g : guard) (event_id : string) : guard := delete event_id g.

(** ** The abstract specification: the steps recorded since the last reset *)

Inductive guard_op : Type :=
| Record_ (event_id : string) (s : step)
| Reset_ (event_id : string).

Definition apply_op (g : guard) (o : guard_op) : guard :=
  match o with
  | Record_ e s => record_step g e s
  | Reset_ e => reset g e
  end.

Definition run_guard (ops : list guard_op) : guard := fold_left apply_op ops ∅.

Definition history_op (e : string) (h : list step) (o : guard_op) : list step :=
  match o with
  | Record_ e' s => if e ==? e' then (h ++ [s])%list else h
  | Reset_ e' => if e ==? e' then [] else h
  end.

Definition history (e : string) (ops : list guard_op) : list step :=
  fold_left (history_op e) ops [].

Definition steps_of (t : string) (h : list step) : Z :=
  Z.of_nat (length (filter (λ s, st_type s = t) h)).

(** How often [sig] was called as a tool. *)
Definition calls_of (sig : string) (h : list step) : Z :=
  Z.of_nat (length (filter (λ s, st_type s = "tool_call" ∧ effective_sig s = Some sig ∧ sig ≠ "") h)).

Record history_view (h : list step) (st : ConvergenceState) : Prop := {
  hv_total : total_steps st = Z.of_nat (length h);
  hv_react : react_rounds st = steps_of "react_round" h;
  hv_replan : replan_count st = steps_of "replan" h;
  hv_llm : llm_calls st = steps_of "llm_call" h;
  hv_calls : ∀ sig, default 0%Z (dict_get (tool_call_signatures st) sig) = calls_of sig h;
  hv_keys : NoDup (dict_keys (tool_call_signatures st));
  hv_recent : recent_actions st = last_n _RECENT_ACTIONS_MAXLEN (step_label <$> h)
}.

Definition oscillates (h : list step) : Prop :=
  ∃ pre a b, a ≠ b ∧ step_label <$> h = (pre ++ [a; b; a; b])%list.

(** Which stop reason a full history calls for, in the documented priority order. *)
Definition reason_spec (h : list step) (r : StopReason) : Prop :=
  let many := (GLOBAL_MAX_STEPS ≤ Z.of_nat (length h))%Z in
  let llm := (MAX_TOTAL_LLM_CALLS ≤ steps_of "llm_call" h)%Z in
  let dup := ∃ sig, (MAX_DUPLICATE_TOOL_CALLS < calls_of sig h)%Z in
  match r with
  | StopReason.GLOBAL_MAX_STEPS => many
  | StopReason.MAX_LLM_CALLS => ¬ many ∧ llm
  | StopReason.DUPLICATE_TOOL_CALLS => ¬ many ∧ ¬ llm ∧ dup
  | StopReason.OSCILLATION => ¬ many ∧ ¬ llm ∧ ¬ dup ∧ oscillates h
  | StopReason.NONE => ¬ many ∧ ¬ llm ∧ ¬ dup ∧ ¬ oscillates h
  end.

(** ** The sliding window loses nothing *)

Lemma last_n_app (n : nat) (k l : list string) :
  (n ≤ length l)%nat → last_n n (k ++ l) = last_n n l.
Proof.
  intros Hn. unfold last_n. rewrite length_app, drop_app_ge by lia. f_equal. lia.
Qed.

Lemma last_n_short (n : nat) (l : list string) : (length l ≤ n)%nat → last_n n l = l.
Proof. intros Hn. unfold last_n. by replace (length l - n)%nat with 0%nat by lia. Qed.

Lemma last_n_last_n (m n : nat) (l : list string) :
  (m ≤ n)%nat → last_n m (last_n n l) = last_n m l.
Proof.
  intros Hmn. unfold last_n. rewrite length_drop, drop_drop. f_equal. lia.
Qed.

Lemma last_n_snoc (n : nat) (l : list string) (x : string) :
  last_n (S n) (last_n (S n) l ++ [x]) = last_n (S n) (l ++ [x]).
Proof.
  destruct (decide (length l ≤ S n)%nat) as [Hl|Hl]; [by rewrite (last_n_short _ l)|].
  rewrite <- (take_drop (length l - S n) l) at 2. rewrite <- app_assoc.
  rewrite (last_n_app _ (take _ l)); [done|]. rewrite length_app, length_drop; cbn; lia.
Qed.

Lemma alternates_4 (a b w x y z : string) :
  alternates a b 0 [w; x; y; z] = true ↔ w = a ∧ x = b ∧ y = a ∧ z = b.
Proof.
  cbn. repeat case_bool_decide; cbn; naive_solver.
Qed.

(** Detection sees exactly the histories that end in A, B, A, B with A and B distinct. *)
Lemma detect_oscillation_spec (l : list string) (a b : string) :
  _detect_oscillation l = Some (a, b) ↔ a ≠ b ∧ ∃ pre, l = (pre ++ [a; b; a; b])%list.
Proof.
  unfold _detect_oscillation. change (2 * MAX_OSCILLATION)%nat with 4%nat.
  destruct (Nat.ltb_spec (length l) 4) as [Hl|Hl].
  { split; [done|]. intros [_ [pre ->]]. rewrite length_app in Hl; cbn in Hl; lia. }
  assert (∃ pre w x y z, l = (pre ++ [w; x; y; z])%list) as (pre & w & x & y & z & ->).
  { exists (take (length l - 4) l). pose proof (take_drop (length l - 4) l) as Ht.
    pose proof (length_drop l (length l - 4)) as Hd.
    destruct (drop _ l) as [|w [|x [|y [|z [|]]]]]; cbn in Hd; try lia.
    by exists w, x, y, z. }
  rewrite last_n_app, last_n_short by (cbn; lia).
  destruct (decide (w = x)) as [->|Hwx].
  - rewrite bool_decide_eq_true_2 by done. split; [done|].
    intros [Hab [pre' Heq]]. apply app_inj_2 in Heq as [_ Heq]; [|done]. naive_solver.
  - rewrite bool_decide_eq_false_2 by done.
    destruct (alternates w x 0 [w; x; y; z]) eqn:Halt.
    + apply alternates_4 in Halt as (_ & _ & -> & ->). split.
      * intros [= -> ->]. eauto.
      * intros [Hab [pre' Heq]]. apply app_inj_2 in Heq as [_ Heq]; [|done]. naive_solver.
    + split; [done|]. intros [Hab [pre' Heq]]. apply app_inj_2 in Heq as [_ Heq]; [|done].
      injection Heq as -> -> -> ->. apply not_true_iff_false in Halt. destruct Halt.
      by apply alternates_4.
Qed.

(** ** The guard refines its history *)

Lemma new_state_view : history_view [] new_ConvergenceState.
Proof. split; try done. apply NoDup_nil_2. Qed.

Lemma steps_of_snoc (t : string) (h : list step) (s : step) :
  steps_of t (h ++ [s]) = (steps_of t h + (if st_type s ==? t then 1 else 0))%Z.
Proof.
  unfold steps_of. rewrite filter_app, length_app, filter_cons. case_bool_decide.
  - rewrite decide_True by done. rewrite filter_nil; cbn; lia.
  - rewrite decide_False by done. rewrite filter_nil; cbn; lia.
Qed.

Lemma hits_known (s : step) (t : string) :
  t ∈ _VALID_STEP_TYPES →
  (st_type s ∈? _VALID_STEP_TYPES) && (st_type s ==? t) = (st_type s ==? t).
Proof.
  intros Ht. case_bool_decide as Hs; case_bool_decide as He; try done. by subst t.
Qed.

Lemma calls_of_snoc (sig : string) (h : list step) (s : step) :
  calls_of sig (h ++ [s]) =
  (calls_of sig h +
   (if (st_type s ==? "tool_call") && (effective_sig s ==? Some sig) && (sig !=? "")
    then 1 else 0))%Z.
Proof.
  unfold calls_of. rewrite filter_app, length_app, filter_cons, filter_nil.
  repeat case_bool_decide; cbn; case_decide; cbn; try lia; naive_solver.
Qed.

Lemma dict_set_keys {A} (d : list (string * A)) (k k0 : string) (v : A) :
  k0 ∈ dict_keys (dict_set d k v) → k0 = k ∨ k0 ∈ dict_keys d.
Proof.
  unfold dict_keys. induction d as [|[k1 v1] d IH]; cbn.
  - intros ->%list_elem_of_singleton. by left.
  - case_bool_decide; cbn; [by right|].
    intros [->|Hin]%elem_of_cons; [right; constructor|].
    destruct (IH Hin); [by left|right; by constructor].
Qed.

Lemma dict_set_keys_NoDup {A} (d : list (string * A)) (k : string) (v : A) :
  NoDup (dict_keys d) → NoDup (dict_keys (dict_set d k v)).
Proof.
  induction d as [|[k1 v1] d IH]; cbn; [intros; apply NoDup_singleton|].
  intros [Hk Hd]%NoDup_cons. case_bool_decide as Hkk; cbn; [by apply NoDup_cons|].
  apply NoDup_cons. split; [|by apply IH].
  intros [->|?]%dict_set_keys; done.
Qed.

Lemma record_view (h : list step) (st : ConvergenceState) (s : step) :
  history_view h st → history_view (h ++ [s]) (record_in_state s st).
Proof.
  intros [Ht Hr Hp Hl Hc Hk Hw]. split; cbn [record_in_state total_steps react_rounds replan_count
    llm_calls tool_call_signatures recent_actions].
  - rewrite Ht, length_app; cbn; lia.
  - by rewrite hits_known, Hr, steps_of_snoc by set_solver.
  - by rewrite hits_known, Hp, steps_of_snoc by set_solver.
  - by rewrite hits_known, Hl, steps_of_snoc by set_solver.
  - intros sig. rewrite hits_known, calls_of_snoc, <- Hc by set_solver.
    case_bool_decide; cbn; [|lia]. unfold bump_signature.
    destruct (effective_sig s) as [sg|];
      [|rewrite (bool_decide_eq_false_2 (None = _)) by done; cbn; lia].
    destruct (decide (sg = sig)) as [->|Hne].
    + rewrite (bool_decide_eq_true_2 (Some sig = Some sig)) by done. cbn.
      case_bool_decide; cbn; [lia|]. by rewrite dict_get_set.
    + rewrite (bool_decide_eq_false_2 (Some sg = Some sig)) by congruence. cbn.
      case_bool_decide; cbn; [lia|]. rewrite dict_get_set_ne by done. lia.
  - rewrite hits_known by set_solver. case_bool_decide; [|done]. unfold bump_signature.
    destruct (effective_sig s); [|done]. case_bool_decide; [done|]. by apply dict_set_keys_NoDup.
  - rewrite Hw, fmap_app. cbn [fmap list_fmap].
    change _RECENT_ACTIONS_MAXLEN with 6%nat. rewrite <- (last_n_snoc 5 (step_label <$> h)).
    destruct (Nat.ltb_spec 6 (length (last_n 6 (step_label <$> h) ++ [step_label s]))); [done|].
    by rewrite (last_n_short 6 (_ ++ _)).
Qed.

(** A guard whose stored states all reflect the histories [H]. *)
Definition guard_view (H : string → list step) (g : guard) : Prop :=
  ∀ e, match g !! e with
       | Some st => history_view (H e) st ∧ H e ≠ []
       | None => H e = []
       end.

Lemma apply_op_view (H : string → list step) (g : guard) (o : guard_op) :
  guard_view H g → guard_view (λ e, history_op e (H e) o) (apply_op g o).
Proof.
  intros Hv e. specialize (Hv e). destruct o as [e' s|e']; cbn [apply_op history_op].
  - unfold record_step. destruct (decide (e = e')) as [->|Hne].
    + rewrite lookup_insert_eq, bool_decide_eq_true_2 by done.
      split; [|by destruct (H e')]. apply record_view. unfold _get_or_create_state.
      destruct (g !! e'); [apply Hv|]. rewrite Hv. apply new_state_view.
    + by rewrite lookup_insert_ne, bool_decide_eq_false_2 by congruence.
  - unfold reset. destruct (decide (e = e')) as [->|Hne].
    + by rewrite lookup_delete_eq, bool_decide_eq_true_2 by done.
    + by rewrite lookup_delete_ne, bool_decide_eq_false_2 by congruence.
Qed.

Lemma run_guard_view (ops : list guard_op) :
  guard_view (λ e, history e ops) (run_guard ops).
Proof.
  unfold run_guard, history.
  induction ops as [|o ops IH] using rev_ind; [by intros e|].
  rewrite fold_left_app. cbn. intros e. rewrite fold_left_app. apply (apply_op_view _ _ o IH).
Qed.

(** The guard's per-event state is a faithful summary of that event's history: after any
    interleaving of steps and resets over any number of events, the counters of an event are the
    numbers of its steps since its last reset, each signature count is the number of its calls,
    and the window holds its last six labels. *)
Theorem guard_refines_history (ops : list guard_op) (e : string) :
  history_view (history e ops) (get_state (run_guard ops) e).
Proof.
  pose proof (run_guard_view ops e) as Hv. unfold get_state.
  destruct (run_guard ops !! e); [apply Hv|]. cbn. rewrite Hv. apply new_state_view.
Qed.

(** ** The decision *)

(** The write of the stop into the working memory raises something else than a [ShadowTraceError]. *)
Definition write_escapes (e : string) (st : ConvergenceState) (d : StopDecision) : Prop :=
  ∃ write, working_memory = Some write ∧
    write e "convergence_state" (stop_payload st d) = RaisesOther.

(** The working memory's write raises no exception but a [ShadowTraceError]. *)
Definition memory_contained : Prop :=
  ∀ write e k v, working_memory = Some write → write e k v ≠ RaisesOther.

(** The answer when the history calls for the reason [r]: no stop for no reason; otherwise the stop,
    unless its persistence fails, which is answered with "do not stop". *)
Record answers (e : string) (st : ConvergenceState) (r : StopReason) (d : StopDecision) : Prop := {
  an_none : r = StopReason.NONE → d = no_stop;
  an_stop : r ≠ StopReason.NONE → ∃ detail, let stopped := MkStopDecision true r detail in
    (write_escapes e st stopped → d = no_stop) ∧ (¬ write_escapes e st stopped → d = stopped)
}.

Lemma stop_decision_answers e st r detail :
  r ≠ StopReason.NONE → answers e st r (_stop_decision e st r detail).
Proof.
  intros Hr. split; [done|]. intros _. exists detail. cbn zeta.
  unfold _stop_decision, _persist_convergence_state, write_escapes.
  destruct working_memory as [write|]; [|split; [by intros (? & ? & _)|done]].
  destruct (write _ _ _) eqn:Hw; split; try done; try (intros (w & [= <-] & E); congruence).
  intros Hn. destruct Hn. by exists write.
Qed.

Lemma answers_contained e st r d :
  memory_contained → answers e st r d → stop_reason d = r ∧ stop d = (r !=? StopReason.NONE).
Proof.
  intros Hm [Hn Hs]. destruct (decide (r = StopReason.NONE)) as [->|Hr]; [by rewrite Hn|].
  destruct (Hs Hr) as (detail & _ & Hd). rewrite Hd; [by rewrite bool_decide_eq_false_2|].
  intros (write & Hw & He). by apply (Hm _ _ _ _ Hw) in He.
Qed.

Lemma dict_get_elem {A} (d : list (string * A)) k v :
  NoDup (dict_keys d) → (k, v) ∈ d → dict_get d k = Some v.
Proof.
  unfold dict_keys. induction d as [|[k' v'] d IH]; cbn; [set_solver|].
  intros [Hk Hd]%NoDup_cons [[= -> ->]|Hin]%elem_of_cons.
  - by rewrite bool_decide_eq_true_2.
  - rewrite bool_decide_eq_false_2; [by apply IH|]. intros ->. apply Hk.
    by apply (list_elem_of_fmap_2 fst _ (k', v)).
Qed.

Lemma dict_get_Some_elem {A} (d : list (string * A)) k v : dict_get d k = Some v → (k, v) ∈ d.
Proof.
  induction d as [|[k' v'] d IH]; cbn; [done|].
  case_bool_decide as Hk; [intros [= ->]; subst; set_solver|set_solver].
Qed.

Lemma duplicate_found h st :
  history_view h st →
  (∃ p, List.find (λ p : string * Z, (MAX_DUPLICATE_TOOL_CALLS <? p.2)%Z)
          (tool_call_signatures st) = Some p) ↔
  ∃ sig, (MAX_DUPLICATE_TOOL_CALLS < calls_of sig h)%Z.
Proof.
  intros Hv. split.
  - intros [[sig n] [Hin Hn]%List.find_some]. exists sig. cbn in Hn. rewrite Z.ltb_lt in Hn.
    rewrite <- (hv_calls _ _ Hv). apply list_elem_of_In in Hin.
    by rewrite (dict_get_elem _ _ _ (hv_keys _ _ Hv) Hin).
  - intros [sig Hn]. rewrite <- (hv_calls _ _ Hv) in Hn.
    destruct (dict_get _ sig) as [n|] eqn:Hg; [|by vm_compute in Hn]. cbn in Hn.
    apply dict_get_Some_elem, list_elem_of_In in Hg.
    destruct (List.find _ _) eqn:Hf; [by eexists|].
    eapply List.find_none in Hf; [|done]. cbn in Hf. apply Z.ltb_ge in Hf. lia.
Qed.

Lemma window_oscillates h st :
  history_view h st → (∃ p, _detect_oscillation (recent_actions st) = Some p) ↔ oscillates h.
Proof.
  intros Hv. rewrite (hv_recent _ _ Hv). change _RECENT_ACTIONS_MAXLEN with 6%nat. split.
  - intros [[a b] (Hab & pre & Hl)%detect_oscillation_spec].
    exists (take (length (step_label <$> h) - 6) (step_label <$> h) ++ pre)%list, a, b.
    split; [done|]. rewrite <- app_assoc, <- Hl. unfold last_n. by rewrite take_drop.
  - intros (pre & a & b & Hab & Hl). exists (a, b). apply detect_oscillation_spec.
    split; [done|]. rewrite Hl. exists (last_n 2 pre). unfold last_n.
    rewrite length_app; cbn [length]. rewrite drop_app_le by lia. do 2 f_equal. lia.
Qed.

Lemma should_stop_view h g e st :
  g !! e = Some st → history_view h st →
  ∃ r, reason_spec h r ∧ answers e st r (should_stop g e).
Proof.
  intros Hg Hv. unfold should_stop. rewrite Hg.
  pose proof (duplicate_found h st Hv) as Hdup. pose proof (window_oscillates h st Hv) as Hosc.
  rewrite (hv_total _ _ Hv), (hv_llm _ _ Hv).
  destruct (Z.leb_spec GLOBAL_MAX_STEPS (Z.of_nat (length h))) as [|Hmany];
    [exists StopReason.GLOBAL_MAX_STEPS; split; [done|by apply stop_decision_answers]|].
  apply Z.lt_nge in Hmany.
  destruct (Z.leb_spec MAX_TOTAL_LLM_CALLS (steps_of "llm_call" h)) as [|Hllm];
    [exists StopReason.MAX_LLM_CALLS; split; [done|by apply stop_decision_answers]|].
  apply Z.lt_nge in Hllm.
  destruct (List.find _ _) as [[sig n]|] eqn:Hf.
  { exists StopReason.DUPLICATE_TOOL_CALLS. split; [naive_solver|by apply stop_decision_answers]. }
  assert (¬ ∃ sig, (MAX_DUPLICATE_TOOL_CALLS < calls_of sig h)%Z) as Hnd.
  { rewrite <- Hdup. by intros [? ?]. }
  destruct (_detect_oscillation _) as [[a b]|].
  - exists StopReason.OSCILLATION. split; [cbn; naive_solver|by apply stop_decision_answers].
  - exists StopReason.NONE. split; [cbn; rewrite <- Hosc; naive_solver|by split].
Qed.

Lemma reason_spec_nil : reason_spec [] StopReason.NONE.
Proof.
  split_and!; try by vm_compute.
  - intros [sig H]. by vm_compute in H.
  - intros (pre & a & b & _ & H). by destruct pre.
Qed.

(** C18. The stop decision is a function of the full history since the last reset, although the
    guard keeps six labels only: a stop is called for exactly when the steps reach 80, the model
    calls reach 30, some tool signature was called more than three times, or the history ends in
    A, B, A, B, and its reason is the first of these in that order.  The guard then answers with
    that stop, except when the write of the stop into the working memory raises something else
    than a ShadowTraceError: then, and only then, it answers "do not stop" although a stop is
    called for. *)
Theorem should_stop_decides_history (ops : list guard_op) (e : string) :
  ∃ r, reason_spec (history e ops) r ∧
    answers e (get_state (run_guard ops) e) r (should_stop (run_guard ops) e).
Proof.
  pose proof (run_guard_view ops e) as Hv. unfold get_state.
  destruct (run_guard ops !! e) as [st|] eqn:Hg; cbn [from_option].
  - destruct Hv as [Hv _]. by eapply should_stop_view.
  - exists StopReason.NONE. rewrite Hv. unfold should_stop. rewrite Hg.
    split; [apply reason_spec_nil|by split].
Qed.

(** ** Loops under the guard terminate *)

(** A caller's loop: record the step of iteration [i], ask, and go on unless told to stop.
    Between iterations other loops may use the guard for the same or other events
    ([others i]).  The result is the number of iterations made, [None] when [fuel] ran out. *)
Fixpoint guarded_loop (fuel : nat) (next : nat → step) (others : nat → list guard_op)
    (e : string) (i : nat) (g : guard) : option nat :=
  match fuel with
  | O => None
  | S fuel' =>
      let g1 := record_step g e (next i) in
      if stop (should_stop g1 e) then Some (S i)
      else guarded_loop fuel' next others e (S i) (fold_left apply_op (others i) g1)
  end.

Definition resets (e : string) (o : guard_op) : Prop := o = Reset_ e.

Lemma history_op_grows e h o : ¬ resets e o → (length h ≤ length (history_op e h o))%nat.
Proof.
  destruct o as [e' s|e']; cbn; case_bool_decide; rewrite ?length_app; cbn; try lia.
  subst. intros Hr. by destruct Hr.
Qed.

Lemma histories_grow e ops h :
  Forall (λ o, ¬ resets e o) ops → (length h ≤ length (fold_left (history_op e) ops h))%nat.
Proof.
  intros Ho. revert h. induction Ho as [|o ops Ho _ IH]; intros h; cbn; [lia|].
  pose proof (history_op_grows e h o Ho). specialize (IH (history_op e h o)). lia.
Qed.

Lemma guarded_loop_stops next others e fuel i ops :
  memory_contained → (∀ i, Forall (λ o, ¬ resets e o) (others i)) →
  (80 ≤ length (history e ops) + fuel)%nat → (0 < fuel)%nat →
  ∃ n, guarded_loop fuel next others e i (run_guard ops) = Some n ∧ (i < n ≤ i + fuel)%nat.
Proof.
  intros Hm Hn. revert i ops. induction fuel as [|fuel IH]; intros i ops Hf Hp; [lia|].
  cbn [guarded_loop]. set (ops1 := (ops ++ [Record_ e (next i)])%list).
  assert (record_step (run_guard ops) e (next i) = run_guard ops1) as ->.
  { unfold ops1, run_guard. by rewrite fold_left_app. }
  assert (length (history e ops1) = S (length (history e ops))) as Hlen.
  { unfold ops1, history. rewrite fold_left_app. cbn.
    rewrite bool_decide_eq_true_2, length_app by done. cbn. lia. }
  pose proof (run_guard_view ops1 e) as Hv.
  destruct (run_guard ops1 !! e) as [st|] eqn:Hg; [|by rewrite Hv in Hlen].
  destruct (should_stop_view _ _ _ _ Hg (proj1 Hv)) as (r & Hr & Ha).
  destruct (answers_contained _ _ _ _ Hm Ha) as [_ Hs].
  destruct (stop (should_stop (run_guard ops1) e)) eqn:Hstop; [exists (S i); split; [done|lia]|].
  symmetry in Hs. rewrite negb_false_iff, bool_decide_eq_true in Hs. rewrite Hs in Hr.
  destruct Hr as [Hr _]. unfold GLOBAL_MAX_STEPS in Hr.
  assert (fold_left apply_op (others i) (run_guard ops1) = run_guard (ops1 ++ others i)) as ->.
  { unfold run_guard. by rewrite fold_left_app. }
  destruct (IH (S i) (ops1 ++ others i)%list) as (n & Hl & Hle); [| lia | exists n; split; [done|lia]].
  unfold history at 1. rewrite fold_left_app.
  pose proof (histories_grow e (others i) (history e ops1) (Hn i)). unfold history in *. lia.
Qed.

(** Every loop that records a step and asks the guard in each iteration ends after at most
    80 iterations, whatever the steps are, whatever the guard already holds and whatever other
    loops record meanwhile, provided nobody resets the event and writes to the working memory raise
    no other errors than ShadowTraceErrors. *)
Theorem guarded_loop_terminates next others e ops :
  memory_contained → (∀ i, Forall (λ o, ¬ resets e o) (others i)) →
  ∃ n, guarded_loop 80 next others e 0 (run_guard ops) = Some n ∧ (1 ≤ n ≤ 80)%nat.
Proof.
  intros Hm Hn. destruct (guarded_loop_stops next others e 80 0 ops) as (n & Hl & Hle);
    [done|done|lia|lia|]. exists n. split; [done|lia].
Qed.
End Guard.

(** ** Concrete runs *)

(** A process without working memory, whose signatures are the tool names. *)
Definition by_name (tool : string) (_ : list (string * pyval)) : string := tool.

Lemma no_memory_contained : memory_contained None.
Proof. by intros write e k v [=]. Qed.

Definition tool_step (tool : string) : step :=
  MkStep "tool_call" (Some tool) (Some []) None.

(** Four calls of one tool for "evt-1", interleaved with another event. *)
Definition demo_ops : list guard_op :=
  [Record_ "evt-1" (tool_step "query_logs"); Record_ "evt-2" (tool_step "block_ip");
   Record_ "evt-1" (tool_step "query_logs"); Record_ "evt-1" (tool_step "query_logs");
   Reset_ "evt-2"; Record_ "evt-1" (tool_step "query_logs")].

Example repeated_tool_stops :
  stop_reason (should_stop None (run_guard by_name demo_ops) "evt-1")
  = StopReason.DUPLICATE_TOOL_CALLS.
Proof. by vm_compute. Qed.

(** A store that is down: the guard lets the repetition go on. *)
Example store_failure_lets_loop_go_on :
  should_stop (Some (λ _ _ _, RaisesOther)) (run_guard by_name demo_ops) "evt-1" = no_stop.
Proof. by vm_compute. Qed.

Definition rounds (i : nat) : step := MkStep "agent_retry" (Some (pretty i)) None None.

Lemma guarded_loop_terminates_witness :
  ∃ n, guarded_loop by_name None 80 rounds (λ _, [Reset_ "evt-2"]) "evt-1" 0
         (run_guard by_name demo_ops) = Some n ∧ (1 ≤ n ≤ 80)%nat.
Proof.
  apply (guarded_loop_terminates by_name None).
  - apply no_memory_contained.
  - intros i. by repeat constructor.
Defined.
