(* ===== verification/CircuitBreaker.v ===== *)
(** * Per-tool circuit breakers

    [tools/circuit_breaker.py].  A breaker is a state passed from call to call; the reading of its
    clock is an argument of the calls that consult it.  Times are whole numbers of a fixed unit,
    since the code only subtracts and compares them. *)

From stdpp Require Import prelude strings gmap.
From Stdlib Require Import ZArith Lia.
From S2P Require Import Prelude Enums.
#[local] Open Scope string_scope.

(** ** Data and operations *)

Record CircuitBreaker : Type := MkCircuitBreaker {
  failure_threshold : Z;
  recovery_timeout_s : Z;
  _state : CircuitState;
  _failure_count : Z;
  _opened_at : option Z;
  _half_open_probe_in_flight : bool
}.

Definition new_CircuitBreaker (threshold timeout : Z) : CircuitBreaker :=
  MkCircuitBreaker threshold timeout CircuitState.CLOSED 0 None false.

(** The breaker's fields after an assignment to some of them. *)
Definition assign (b : CircuitBreaker) (s : CircuitState) (n : Z) (o : option Z) (p : bool)
    : CircuitBreaker :=
  MkCircuitBreaker (failure_threshold b) (recovery_timeout_s b) s n o p.

Definition allow_request (now : Z) (b : CircuitBreaker) : bool * CircuitBreaker :=
  match _state b with
  | CircuitState.CLOSED => (true, b)
  | CircuitState.OPEN =>
      match _opened_at b with
      | Some opened_at =>
          if (recovery_timeout_s b <=? now - opened_at)%Z
          then (true, assign b CircuitState.HALF_OPEN (_failure_count b) (_opened_at b) false)
          else (false, b)
      | None => (false, b)
      end
  | CircuitState.HALF_OPEN =>
      if _half_open_probe_in_flight b then (false, b)
      else (true, assign b CircuitState.HALF_OPEN (_failure_count b) (_opened_at b) true)
  end.

Definition record_success (b : CircuitBreaker) : CircuitBreaker :=
  assign b CircuitState.CLOSED 0 None false.

Definition record_failure (now : Z) (b : CircuitBreaker) : CircuitBreaker :=
  match _state b with
  | CircuitState.HALF_OPEN => assign b CircuitState.OPEN (_failure_count b) (Some now) false
  | _ =>
      let n := (_failure_count b + 1)%Z in
      if (failure_threshold b <=? n)%Z
      then assign b CircuitState.OPEN n (Some now) false
      else assign b (_state b) n (_opened_at b) false
  end.

Record CircuitBreakerRegistry : Type := MkRegistry {
  reg_failure_threshold : Z;
  reg_recovery_timeout_s : Z;
  _breakers : gmap string CircuitBreaker
}.

Definition registry_get (r : CircuitBreakerRegistry) (tool_name : string)
    : CircuitBreaker * CircuitBreakerRegistry :=
  match _breakers r !! tool_name with
  | Some b => (b, r)
  | None =>
      let b := new_CircuitBreaker (reg_failure_threshold r) (reg_recovery_timeout_s r) in
      (b, MkRegistry (reg_failure_threshold r) (reg_recovery_timeout_s r)
            (<[tool_name := b]> (_breakers r)))
  end.

(** ** Runs *)

Inductive breaker_call : Type :=
| AllowRequest (now : Z)
| RecordSuccess
| RecordFailure (now : Z).

Inductive breaker_event : Type :=
| Allowed (now : Z)
| Refused (now : Z)
| Succeeded
| Failed (now : Z).

#[global] Instance breaker_event_eq_dec : EqDecision breaker_event.
Proof. solve_decision. Defined.

Definition breaker_step (c : breaker_call) (b : CircuitBreaker) : breaker_event * CircuitBreaker :=
  match c with
  | AllowRequest now =>
      let '(ok, b') := allow_request now b in (if ok then Allowed now else Refused now, b')
  | RecordSuccess => (Succeeded, record_success b)
  | RecordFailure now => (Failed now, record_failure now b)
  end.

(** The events of a run, oldest first, and the breaker it ends in. *)
Fixpoint breaker_run (cs : list breaker_call) (b : CircuitBreaker)
    : list breaker_event * CircuitBreaker :=
  match cs with
  | [] => ([], b)
  | c :: cs' =>
      let '(e, b1) := breaker_step c b in
      let '(es, b2) := breaker_run cs' b1 in (e :: es, b2)
  end.

(** ** The abstract view: what the events of a run say *)

(** The failures recorded since the last success. *)
Definition failure_streak (es : list breaker_event) : Z :=
  fold_left (λ n e, match e with Failed _ => n + 1 | Succeeded => 0 | _ => n end)%Z es 0%Z.

(** The time of the last failure since the last success. *)
Definition last_failure (es : list breaker_event) : option Z :=
  fold_left (λ o e, match e with Failed t => Some t | Succeeded => None | _ => o end) es None.

(** The requests admitted since the last outcome. *)
Definition admitted (es : list breaker_event) : Z :=
  fold_left (λ n e, match e with Allowed _ => n + 1 | Refused _ => n | _ => 0 end)%Z es 0%Z.

Definition event_time (e : breaker_event) : option Z :=
  match e with Allowed t | Refused t | Failed t => Some t | Succeeded => None end.

(** The clock never runs backwards up to [now]: [time.monotonic]. *)
Definition monotonic (es : list breaker_event) (now : Z) : Prop :=
  ∀ e t, e ∈ es → event_time e = Some t → (t ≤ now)%Z.

Record breaker_view (threshold timeout : Z) (es : list breaker_event) (b : CircuitBreaker)
    : Prop := {
  bv_config : failure_threshold b = threshold ∧ recovery_timeout_s b = timeout;
  bv_count : (0 ≤ _failure_count b ≤ failure_streak es)%Z;
  bv_closed : _state b = CircuitState.CLOSED →
    _failure_count b = failure_streak es ∧ (failure_streak es < threshold)%Z;
  bv_tripped : _state b ≠ CircuitState.CLOSED →
    (threshold ≤ _failure_count b)%Z ∧ _opened_at b = last_failure es ∧
    is_Some (last_failure es);
  bv_open : _state b = CircuitState.OPEN → admitted es = 0%Z;
  bv_half : _state b = CircuitState.HALF_OPEN →
    admitted es = (if _half_open_probe_in_flight b then 2 else 1)%Z ∧
    ∃ e t o, e ∈ es ∧ event_time e = Some t ∧ last_failure es = Some o ∧ (timeout ≤ t - o)%Z
}.

Section Breaker.
Context (threshold timeout : Z) (Hthreshold : (0 < threshold)%Z).

Lemma new_breaker_view : breaker_view threshold timeout [] (new_CircuitBreaker threshold timeout).
Proof. split; cbn; try done; by intros. Qed.

Lemma streak_snoc es e :
  failure_streak (es ++ [e]) =
  match e with Failed _ => failure_streak es + 1 | Succeeded => 0 | _ => failure_streak es end%Z.
Proof. unfold failure_streak. by rewrite fold_left_app. Qed.

Lemma last_failure_snoc es e :
  last_failure (es ++ [e]) =
  match e with Failed t => Some t | Succeeded => None | _ => last_failure es end.
Proof. unfold last_failure. by rewrite fold_left_app. Qed.

Lemma admitted_snoc es e :
  admitted (es ++ [e]) =
  match e with Allowed _ => admitted es + 1 | Refused _ => admitted es | _ => 0 end%Z.
Proof. unfold admitted. by rewrite fold_left_app. Qed.

Lemma half_evidence_snoc es e timeout' :
  (∃ e0 t o, e0 ∈ es ∧ event_time e0 = Some t ∧ last_failure es = Some o ∧ (timeout' ≤ t - o)%Z) →
  ∃ e0 t o, e0 ∈ (es ++ [e])%list ∧ event_time e0 = Some t ∧
    last_failure es = Some o ∧ (timeout' ≤ t - o)%Z.
Proof. intros (e0 & t & o & ? & ? & ? & ?). exists e0, t, o. set_solver. Qed.

Lemma breaker_step_view es b c :
  breaker_view threshold timeout es b →
  breaker_view threshold timeout (es ++ [(breaker_step c b).1]) (breaker_step c b).2.
Proof.
  intros [[Hth Hto] Hcount Hclosed Htrip Hopen Hhalf].
  destruct b as [th to s n o p]; cbn in *; subst th to.
  destruct c as [now| |now]; cbn.
  - unfold allow_request; cbn. destruct s; cbn.
    + destruct (Hclosed eq_refl).
      split; cbn; rewrite ?streak_snoc, ?last_failure_snoc, ?admitted_snoc; try done; lia.
    + destruct (Htrip ltac:(done)) as (Hn & -> & Hsome). destruct Hsome as [o Ho]. rewrite Ho.
      destruct (Z.leb_spec timeout (now - o)); cbn;
        split; cbn; rewrite ?streak_snoc, ?last_failure_snoc, ?admitted_snoc, ?Hopen; try done;
        rewrite ?Ho; eauto. intros _. split; [done|].
      exists (Allowed now), now, o. split_and!; [set_solver|done|done|done].
    + destruct (Htrip ltac:(done)) as (Hn & Hlf & Hsome). destruct (Hhalf eq_refl) as [Had Hev].
      destruct p; cbn;
        (split; cbn; rewrite ?streak_snoc, ?last_failure_snoc, ?admitted_snoc, ?Had; try done;
         intros _; split; [done|]; by apply half_evidence_snoc).
  - split; cbn; rewrite ?streak_snoc, ?last_failure_snoc, ?admitted_snoc; try done; by intros.
  - unfold record_failure; cbn. destruct s; cbn.
    + destruct (Hclosed eq_refl) as [-> ?].
      destruct (Z.leb_spec threshold (failure_streak es + 1)); cbn;
        split; cbn; rewrite ?streak_snoc, ?last_failure_snoc, ?admitted_snoc; try done; try lia.
    + destruct (Htrip ltac:(done)) as (Hn & _ & _).
      destruct (Z.leb_spec threshold (n + 1)); [|lia]; cbn.
      split; cbn; rewrite ?streak_snoc, ?last_failure_snoc, ?admitted_snoc; try done; try lia.
    + destruct (Htrip ltac:(done)) as (Hn & _ & _).
      split; cbn; rewrite ?streak_snoc, ?last_failure_snoc, ?admitted_snoc; try done; try lia.
Qed.

Lemma breaker_run_view es b cs :
  breaker_view threshold timeout es b →
  breaker_view threshold timeout (es ++ (breaker_run cs b).1) (breaker_run cs b).2.
Proof.
  revert es b. induction cs as [|c cs IH]; intros es b Hv; cbn [breaker_run].
  - by rewrite app_nil_r.
  - pose proof (breaker_step_view es b c Hv) as Hs. destruct (breaker_step c b) as [e b1].
    specialize (IH (es ++ [e])%list b1 Hs). cbn in IH. destruct (breaker_run cs b1) as [es' b2].
    by rewrite <- app_assoc in IH.
Qed.

Lemma fresh_run_view cs :
  let '(es, b) := breaker_run cs (new_CircuitBreaker threshold timeout) in
  breaker_view threshold timeout es b.
Proof.
  pose proof (breaker_run_view [] _ cs new_breaker_view) as Hv.
  by destruct (breaker_run cs _) as [es b].
Qed.

(** A breaker is closed exactly while fewer than [failure_threshold] failures were recorded
    since the last success: below the threshold every request passes, and from the threshold on
    the breaker stays tripped until a success is recorded. *)
Theorem breaker_trips_exactly cs :
  let '(es, b) := breaker_run cs (new_CircuitBreaker threshold timeout) in
  _state b = CircuitState.CLOSED ↔ (failure_streak es < threshold)%Z.
Proof.
  pose proof (fresh_run_view cs) as Hv. destruct (breaker_run cs _) as [es b].
  split; [intros Hc; by apply (bv_closed _ _ _ _ Hv)|].
  intros Hlt. destruct (decide (_state b = CircuitState.CLOSED)) as [|Hne]; [done|].
  destruct (bv_tripped _ _ _ _ Hv Hne) as [Hge _]. pose proof (bv_count _ _ _ _ Hv). lia.
Qed.

(** A tripped breaker respects its cool-down: once [failure_threshold] failures were recorded
    since the last success, and as long as the clock is monotonic, no request passes before
    [recovery_timeout_s] has elapsed since the last failure. *)
Theorem breaker_cooldown_respected cs now t :
  let '(es, b) := breaker_run cs (new_CircuitBreaker threshold timeout) in
  (threshold ≤ failure_streak es)%Z → last_failure es = Some t → monotonic es now →
  (now - t < timeout)%Z → (allow_request now b).1 = false.
Proof.
  pose proof (fresh_run_view cs) as Hv. destruct (breaker_run cs _) as [es b].
  intros Hge Hlast Hmono Hlt. unfold allow_request. destruct (_state b) eqn:Hs.
  - destruct (bv_closed _ _ _ _ Hv Hs). lia.
  - destruct (bv_tripped _ _ _ _ Hv) as (_ & Ho & _); [by rewrite Hs|].
    rewrite Ho, Hlast, (proj2 (bv_config _ _ _ _ Hv)). by destruct (Z.leb_spec timeout (now - t)); [lia|].
  - destruct (bv_half _ _ _ _ Hv Hs) as (_ & e & t' & o & He & Ht & Ho & Hle).
    specialize (Hmono e t' He Ht). simplify_eq. lia.
Qed.

(** A tripped breaker admits at most two requests before the outcome of one of them is
    recorded. *)
Lemma tripped_admits_at_most_two cs :
  let '(es, b) := breaker_run cs (new_CircuitBreaker threshold timeout) in
  _state b ≠ CircuitState.CLOSED → (admitted es ≤ 2)%Z.
Proof.
  pose proof (fresh_run_view cs) as Hv. destruct (breaker_run cs _) as [es b]. intros Hne.
  destruct (_state b) eqn:Hs; [done|by rewrite (bv_open _ _ _ _ Hv Hs)|].
  destruct (bv_half _ _ _ _ Hv Hs) as [-> _]. by destruct (_half_open_probe_in_flight b).
Qed.
(** The half-open breaker does not keep to the single probe its comment announces: the
    request that moves it from OPEN to HALF_OPEN is admitted without being counted as the probe,
    so a tripped breaker of any threshold and timeout admits exactly two requests before an
    outcome is recorded, and refuses the third. *)
Theorem half_open_admits_two_probes cs now :
  let '(es, b) := breaker_run cs (new_CircuitBreaker threshold timeout) in
  _state b = CircuitState.OPEN →
  (∀ t, last_failure es = Some t → timeout ≤ now - t)%Z →
  (breaker_run [AllowRequest now; AllowRequest now; AllowRequest now] b).1 =
  [Allowed now; Allowed now; Refused now].
Proof.
  pose proof (fresh_run_view cs) as Hv. destruct (breaker_run cs _) as [es b].
  destruct Hv as [[Hth Hto] _ _ Htrip _ _]. intros Hs Ht. destruct b as [th to s n o p]; cbn in *; subst.
  destruct Htrip as (_ & -> & [t Hl]); [done|]. unfold allow_request; cbn. rewrite Hl.
  destruct (Z.leb_spec timeout (now - t)) as [_|Hlt]; [done|]. specialize (Ht t Hl). lia.
Qed.

End Breaker.

(** ** The registry *)

(** Looking a tool's breaker up twice gives the same breaker, and touches no other tool's. *)
Lemma registry_get_stable r tool :
  let '(b, r') := registry_get r tool in
  registry_get r' tool = (b, r') ∧
  ∀ other, other ≠ tool → _breakers r' !! other = _breakers r !! other.
Proof.
  unfold registry_get. destruct (_breakers r !! tool) as [b|] eqn:Hb; [by rewrite Hb|].
  cbn. rewrite lookup_insert_eq. split; [done|]. intros other Hne. by rewrite lookup_insert_ne.
Qed.

(** ** Concrete runs *)

(** Five failures in a row trip the default breaker. *)
Definition five_failures : list breaker_call :=
  [RecordFailure 1; RecordFailure 2; RecordFailure 3; RecordFailure 4; RecordFailure 5].

Lemma breaker_trips_exactly_witness :
  let '(es, b) := breaker_run five_failures (new_CircuitBreaker 5 60) in
  _state b = CircuitState.CLOSED ↔ (failure_streak es < 5)%Z.
Proof. apply (breaker_trips_exactly 5 60). lia. Defined.

Lemma breaker_cooldown_respected_witness :
  (allow_request 64 (breaker_run five_failures (new_CircuitBreaker 5 60)).2).1 = false.
Proof.
  apply (breaker_cooldown_respected 5 60 ltac:(lia) five_failures 64 5); try by vm_compute.
  intros e t He. cbn in He. set_unfold in He.
  destruct_or! He; subst; cbn; intros [= <-]; lia.
Defined.

Lemma half_open_admits_two_probes_witness :
  (breaker_run [AllowRequest 65; AllowRequest 65; AllowRequest 65]
     (breaker_run five_failures (new_CircuitBreaker 5 60)).2).1 =
  [Allowed 65; Allowed 65; Refused 65].
Proof.
  apply (half_open_admits_two_probes 5 60 ltac:(lia) five_failures 65); [by vm_compute|].
  cbn. intros t [= <-]. lia.
Defined.
