(* ===== verification/ErrorTaxonomy.v ===== *)
(** * Categories of exceptions and automatic retry (core/errors.py)

    Which exceptions may be retried without a person: the category of a code, the class defaults, the
    codes that are never retried, and the classification of foreign exceptions. *)

From stdpp Require Import prelude strings.
From S2P Require Import Prelude Enums Errors.

#[local] Open Scope string_scope.

(** ** Tables *)

Definition _CATEGORY_RETRYABLE_DEFAULT (c : ErrorCategory) : bool :=
  match c with
  | ErrorCategory.TRANSIENT => true
  | ErrorCategory.PERMANENT => false
  | ErrorCategory.USER_INPUT => false
  | ErrorCategory.SYSTEM => false
  | ErrorCategory.LLM => true
  | ErrorCategory.TOOL => true
  | ErrorCategory.BUDGET => false
  | ErrorCategory.GUARDRAIL => false
  end.

Definition _NON_AUTO_RETRY_CODES : list string :=
  ["permission_denied"; "invalid_operation"; "version_conflict"; "unknown_delivery";
   "delivery_outcome_unknown"; "submission_unknown"; "writeback_pending";
   "closed_side_effects_pending"; "writeback_failed"; "auth_error"; "validation_error";
   "tool_validation_error"; "unsupported"; "capacity_limit_exceeded"; "wrong_execution_channel";
   "llm_invalid_json"; "llm_auth_error"; "llm_audit_error"].

Definition ERROR_CODE_REGISTRY : list (string * ErrorCategory) := [
  ("event_not_found", ErrorCategory.USER_INPUT);
  ("not_found", ErrorCategory.USER_INPUT);
  ("approval_required", ErrorCategory.PERMANENT);
  ("approval_decision_conflict", ErrorCategory.PERMANENT);
  ("validation_error", ErrorCategory.USER_INPUT);
  ("unauthorized", ErrorCategory.USER_INPUT);
  ("forbidden", ErrorCategory.USER_INPUT);
  ("internal_error", ErrorCategory.SYSTEM);
  ("invalid_state_transition", ErrorCategory.PERMANENT);
  ("closed_simulated_receipt_rejected", ErrorCategory.PERMANENT);
  ("closed_weak_confirmation_evidence", ErrorCategory.PERMANENT);
  ("closed_requires_report", ErrorCategory.PERMANENT);
  ("invalid_verdict_status_combination", ErrorCategory.PERMANENT);
  ("tool_timeout", ErrorCategory.TOOL);
  ("timeout", ErrorCategory.TRANSIENT);
  ("llm_timeout", ErrorCategory.LLM);
  ("llm_auth_error", ErrorCategory.LLM);
  ("llm_rate_limited", ErrorCategory.LLM);
  ("llm_invalid_json", ErrorCategory.LLM);
  ("llm_provider_error", ErrorCategory.LLM);
  ("llm_audit_error", ErrorCategory.LLM);
  ("llm_config_error", ErrorCategory.SYSTEM);
  ("llm_custom_not_probed", ErrorCategory.SYSTEM);
  ("budget_exceeded", ErrorCategory.BUDGET);
  ("guardrail_failed", ErrorCategory.GUARDRAIL);
  ("guardrail_blocked", ErrorCategory.GUARDRAIL);
  ("guardrail_violation", ErrorCategory.GUARDRAIL);
  ("working_memory_unauthorized_write", ErrorCategory.GUARDRAIL);
  ("tool_not_found", ErrorCategory.USER_INPUT);
  ("tool_already_registered", ErrorCategory.USER_INPUT);
  ("tool_validation_error", ErrorCategory.USER_INPUT);
  ("tool_call_grant_denied", ErrorCategory.GUARDRAIL);
  ("tool_call_grant_unavailable", ErrorCategory.TRANSIENT);
  ("wrong_execution_channel", ErrorCategory.PERMANENT);
  ("auth_error", ErrorCategory.TOOL);
  ("rate_limited", ErrorCategory.TRANSIENT);
  ("remote_error", ErrorCategory.TRANSIENT);
  ("http_5xx", ErrorCategory.TRANSIENT);
  ("circuit_open", ErrorCategory.TRANSIENT);
  ("unsupported", ErrorCategory.PERMANENT);
  ("capacity_limit_exceeded", ErrorCategory.TOOL);
  ("correlation_mismatch", ErrorCategory.TOOL);
  ("react_action_denied", ErrorCategory.GUARDRAIL);
  ("permission_denied", ErrorCategory.PERMANENT);
  ("invalid_operation", ErrorCategory.PERMANENT);
  ("version_conflict", ErrorCategory.PERMANENT);
  ("unknown_delivery", ErrorCategory.TRANSIENT);
  ("delivery_outcome_unknown", ErrorCategory.TRANSIENT);
  ("submission_unknown", ErrorCategory.TRANSIENT);
  ("lookup_apply_failed", ErrorCategory.SYSTEM);
  ("lookup_claim_invalid", ErrorCategory.PERMANENT);
  ("lookup_degraded", ErrorCategory.TRANSIENT);
  ("lookup_inconclusive", ErrorCategory.TRANSIENT);
  ("lookup_never_accepted", ErrorCategory.TRANSIENT);
  ("lookup_not_found", ErrorCategory.PERMANENT);
  ("lookup_unknown", ErrorCategory.TRANSIENT);
  ("lookup_unsupported", ErrorCategory.PERMANENT);
  ("writeback_pending", ErrorCategory.PERMANENT);
  ("closed_side_effects_pending", ErrorCategory.PERMANENT);
  ("writeback_failed", ErrorCategory.TOOL);
  ("writeback_conflict", ErrorCategory.PERMANENT);
  ("writeback_unsupported", ErrorCategory.PERMANENT);
  ("disposition_permission_denied", ErrorCategory.USER_INPUT);
  ("investigation_in_progress", ErrorCategory.PERMANENT);
  ("investigation_lease_lost", ErrorCategory.PERMANENT);
  ("lease_expired", ErrorCategory.TRANSIENT);
  ("storyline_not_ready", ErrorCategory.USER_INPUT);
  ("context_not_ready", ErrorCategory.USER_INPUT);
  ("evidence_not_ready", ErrorCategory.USER_INPUT);
  ("feature_disabled", ErrorCategory.USER_INPUT);
  ("full_loop_unavailable", ErrorCategory.USER_INPUT);
  ("qa_unavailable", ErrorCategory.TRANSIENT);
  ("memory_review_not_found", ErrorCategory.USER_INPUT);
  ("memory_review_conflict", ErrorCategory.PERMANENT);
  ("memory_governance_bypass_blocked", ErrorCategory.USER_INPUT);
  ("classification_conflict_active_investigation", ErrorCategory.PERMANENT);
  ("report_quality_incomplete", ErrorCategory.USER_INPUT);
  ("report_quality_conflict", ErrorCategory.PERMANENT);
  ("output_quality_evaluation_blocked", ErrorCategory.PERMANENT);
  ("report_prerequisites_missing", ErrorCategory.USER_INPUT);
  ("report_prerequisites_invalid", ErrorCategory.USER_INPUT);
  ("report_generation_failed", ErrorCategory.LLM);
  ("dependency_unavailable", ErrorCategory.TRANSIENT);
  ("task_unavailable", ErrorCategory.TRANSIENT);
  ("tool_execution_error", ErrorCategory.TOOL);
  ("llm_error", ErrorCategory.LLM);
  ("invalid_cursor", ErrorCategory.USER_INPUT);
  ("unauthorized_field", ErrorCategory.USER_INPUT);
  ("mock_validation_error", ErrorCategory.USER_INPUT);
  ("idempotency_key_reuse", ErrorCategory.USER_INPUT);
  ("disposition_id_reuse", ErrorCategory.USER_INPUT);
  ("adapter_not_found", ErrorCategory.USER_INPUT);
  ("adapter_validation_error", ErrorCategory.USER_INPUT);
  ("configuration_error", ErrorCategory.SYSTEM);
  ("embedding_provider_error", ErrorCategory.SYSTEM);
  ("embedding_compatibility_error", ErrorCategory.PERMANENT);
  ("embedding_provider_unavailable", ErrorCategory.TRANSIENT);
  ("embedding_prefilter_required", ErrorCategory.PERMANENT);
  ("embedding_dimension_mismatch", ErrorCategory.PERMANENT);
  ("embedding_release_mismatch", ErrorCategory.PERMANENT);
  ("embedding_metric_mismatch", ErrorCategory.PERMANENT);
  ("embedding_mode_conflict", ErrorCategory.SYSTEM);
  ("embedding_schema_drift", ErrorCategory.PERMANENT);
  ("replan_count_exceeded", ErrorCategory.PERMANENT);
  ("writeback_recovery_exhausted", ErrorCategory.PERMANENT);
  ("writeback_manual_resolution_required", ErrorCategory.PERMANENT);
  ("plan_step_not_executable", ErrorCategory.PERMANENT);
  ("agent_task_denied", ErrorCategory.GUARDRAIL);
  ("agent_task_unavailable", ErrorCategory.TRANSIENT);
  ("readback_failed", ErrorCategory.TOOL)
].

Definition _category_retryable_default (category : ErrorCategory) : bool :=
  _CATEGORY_RETRYABLE_DEFAULT category.

Definition _retryable_for_code (error_code : string) (category_default : bool) : bool :=
  if error_code ∈? _NON_AUTO_RETRY_CODES then false else category_default.

(** ** Exceptions with their category *)

(** [default_category] and [default_retryable]; [None] for classes outside [ShadowTraceError]. *)
Definition retry_defaults (c : error_class) : option (ErrorCategory * bool) :=
  match c with
  | InvalidStateTransitionError | InvalidVerdictStatusCombinationError
  | ApprovalDecisionConflictError | WritebackPendingError | WritebackConflictError
  | WritebackUnsupportedError | InvestigationInProgressError => Some (ErrorCategory.PERMANENT, false)
  | EventNotFoundError | ValidationError | ResourceNotFoundError | AdapterNotFoundError
  | IdempotencyKeyReuseError | ToolAlreadyRegisteredError | ToolNotFoundError
  | ToolValidationError => Some (ErrorCategory.USER_INPUT, false)
  | GuardrailViolationError | ToolCallGrantDeniedError => Some (ErrorCategory.GUARDRAIL, false)
  | WritebackFailedError => Some (ErrorCategory.TOOL, false)
  | ToolExecutionError => Some (ErrorCategory.TOOL, true)
  | BudgetExceededError => Some (ErrorCategory.BUDGET, false)
  | DependencyUnavailableError | ToolCallGrantUnavailableError =>
      Some (ErrorCategory.TRANSIENT, true)
  | AuthorizationError | WrongExecutionChannelError | TimeoutError | ConnectionError
  | SoftTimeLimitExceeded | PydanticValidationError | IntegrityError | KeyError | ValueError
  | OtherError => None
  end.

(** A raised exception; the last two fields are those of a [ShadowTraceError]. *)
Record exc : Type := MkExc {
  ex_error : error;
  ex_category : ErrorCategory;
  ex_retryable : bool
}.

Definition ex_class (x : exc) : error_class := err_class (ex_error x).

(** [ShadowTraceError.__init__] with all its arguments. *)
Definition shadow_exc (c : error_class) (message : string) (error_code : option string)
    (category : option ErrorCategory) (retryable : option bool) (details : list (string * pyval)) : exc :=
  let e := ShadowTraceError_init c message error_code details in
  let defaults := default (ErrorCategory.SYSTEM, false) (retry_defaults c) in
  let category := match category with
                  | Some cat => cat
                  | None => default defaults.1 (dict_get ERROR_CODE_REGISTRY (err_code e))
                  end in
  {| ex_error := e; ex_category := category;
     ex_retryable := match retryable with
                     | Some b => b
                     | None => _retryable_for_code (err_code e)
                                 (match error_code with
                                  | None => defaults.2
                                  | Some _ => _category_retryable_default category
                                  end)
                     end |}.

(** An exception outside the taxonomy; [code]: its [error_code] attribute, if it has one. *)
Definition plain_exc (c : error_class) (message code : string) : exc :=
  {| ex_error := {| err_class := c; err_message := message; err_code := code; err_status := 500;
                    err_details := [] |};
     ex_category := ErrorCategory.SYSTEM; ex_retryable := false |}.

(** ** Classification *)

Definition is_shadow (x : exc) : bool :=
  match retry_defaults (ex_class x) with Some _ => true | None => false end.

Definition classify_exception (x : exc) : ErrorCategory :=
  if is_shadow x then ex_category x
  else match dict_get ERROR_CODE_REGISTRY (err_code (ex_error x)) with
       | Some category => category
       | None => if ex_class x ∈? [TimeoutError; ConnectionError]
                 then ErrorCategory.TRANSIENT else ErrorCategory.SYSTEM
       end.

Definition is_retryable (x : exc) : bool :=
  if is_shadow x then ex_retryable x
  else if err_code (ex_error x) !=? "" then
    _retryable_for_code (err_code (ex_error x))
      (_category_retryable_default
         (default (classify_exception x) (dict_get ERROR_CODE_REGISTRY (err_code (ex_error x)))))
  else _category_retryable_default (classify_exception x).

(** ** What the tables say *)

Lemma retryable_for_code_true code b :
  _retryable_for_code code b = true ↔ (code ∉ _NON_AUTO_RETRY_CODES) ∧ b = true.
Proof. unfold _retryable_for_code. case_bool_decide; naive_solver. Qed.

(** A code of the stop list is retried only when the raiser says so. *)
Lemma stop_codes_not_retried c m code cat details :
  let x := shadow_exc c m (Some code) cat None details in
  code ∈ _NON_AUTO_RETRY_CODES → is_retryable x = false.
Proof.
  intros x Hin.
  assert (code ≠ "") as Hne.
  { intros ->. apply (bool_decide_eq_true_2 _) in Hin. vm_compute in Hin. done. }
  assert (err_code (ex_error x) = code) as Hcode.
  { unfold x, shadow_exc, ShadowTraceError_init. cbn [ex_error]. destruct (class_defaults c). cbn [err_code].
    by rewrite bool_decide_eq_false_2. }
  apply not_true_iff_false. unfold is_retryable. rewrite Hcode, (bool_decide_eq_false_2 (code = "")) by done.
  destruct (is_shadow x); [|intros Hr; by apply retryable_for_code_true in Hr as []].
  unfold x, shadow_exc in *. cbn [ex_retryable ex_error] in *. rewrite Hcode.
  intros Hr. by apply retryable_for_code_true in Hr as [].
Qed.

(** Failures of a connection and of a dependency are retried; unclassified failures, invalid input
    and exhausted budgets are not. *)
Example retry_examples :
  map is_retryable
    [plain_exc TimeoutError "timed out" ""; plain_exc ConnectionError "reset" "";
     plain_exc OtherError "boom" ""; plain_exc OtherError "vendor" "http_5xx";
     shadow_exc ToolExecutionError "down" None None None [];
     shadow_exc ToolExecutionError "bad key" (Some "auth_error") None None [];
     shadow_exc ToolExecutionError "slow" (Some "rate_limited") None None [];
     shadow_exc BudgetExceededError "spent" None None None []]
  = [true; true; false; true; true; false; true; false].
Proof. vm_compute. reflexivity. Qed.
