(* ===== verification/ToolMeta.v ===== *)
(** * Tool contracts (models/tool_meta.py)

    The metadata of a tool, its provider bindings, the capability surface of a provider and the
    normalised result of a call.  Timeouts are whole numbers of a fixed unit. *)

From stdpp Require Import prelude strings.
From S2P Require Import Prelude Enums Errors ExecutionResults ErrorTaxonomy.

#[local] Open Scope string_scope.
#[local] Open Scope Z_scope.

Definition TERMINAL_DISPOSITION_TOOL : string := "update_source_event_disposition".

Record ToolMeta : Type := {
  tm_tool_name : string;
  tm_tool_category : ToolCategory;
  tm_action_category : option ActionCategory;
  tm_routing_kind : RoutingKind;
  tm_supported_execution_owners : list ExecutionOwner;
  tm_required_disposition_intent_by_owner : list (ExecutionOwner * DispositionIntentKind);
  tm_required_capabilities : list string;
  tm_side_effect_level : SideEffectLevel;
  tm_idempotency : bool;
  tm_async_mode : bool;
  tm_default_timeout_s : Z;
  tm_execution_phase : ActionExecutionPhase;
  tm_activation_condition : option string;
  tm_executable : bool;
  (** the schemas in canonical form, empty when absent *)
  tm_input_schema : string;
  tm_output_schema : string
}.

#[global] Instance ToolMeta_eq_dec : EqDecision ToolMeta.
Proof. solve_decision. Defined.

Definition intent_for (m : ToolMeta) (owner : ExecutionOwner) : option DispositionIntentKind :=
  snd <$> List.find (λ p : ExecutionOwner * DispositionIntentKind, p.1 ==? owner)
            (tm_required_disposition_intent_by_owner m).

Definition meta_error (message : string) : error := builtin_error ValueError message.

(** ** The validator of the metadata *)

Definition query_meta_check (m : ToolMeta) : result unit :=
  raise_if (tm_action_category m !=? None) (meta_error "query tools must have action_category=null") ;;
  raise_if (tm_supported_execution_owners m !=? [])
    (meta_error "query tools must have empty supported_execution_owners") ;;
  raise_if (tm_routing_kind m !=? RoutingKind.TOOL_PROVIDER_ONLY)
    (meta_error "query tools must use routing_kind=tool_provider_only") ;;
  raise_if (tm_side_effect_level m !=? SideEffectLevel.NONE)
    (meta_error "query tools must have side_effect_level=none").

Definition verification_meta_check (m : ToolMeta) : result unit :=
  raise_if (tm_action_category m !=? Some ActionCategory.VERIFICATION)
    (meta_error "verification tools require action_category=verification") ;;
  raise_if (tm_supported_execution_owners m !=? [])
    (meta_error "verification tools must have empty supported_execution_owners") ;;
  raise_if (tm_routing_kind m !=? RoutingKind.TOOL_PROVIDER_ONLY)
    (meta_error "verification tools must use routing_kind=tool_provider_only").

Definition terminal_meta_check (m : ToolMeta) : result unit :=
  let t := TERMINAL_DISPOSITION_TOOL in
  raise_if (tm_routing_kind m !=? RoutingKind.DISPOSITION_ONLY)
    (meta_error (t +++ " must be routing_kind=disposition_only")) ;;
  raise_if (tm_action_category m !=? Some ActionCategory.RESPONSE)
    (meta_error (t +++ " must be action_category=response")) ;;
  raise_if (tm_execution_phase m !=? ActionExecutionPhase.POST_VERIFY)
    (meta_error (t +++ " must be execution_phase=POST_VERIFY")) ;;
  raise_if (tm_activation_condition m !=? Some "after_effect_resolution")
    (meta_error (t +++ " requires activation_condition=after_effect_resolution")) ;;
  raise_if (tm_executable m) (meta_error (t +++ " is virtual and must set executable=false")) ;;
  raise_if (tm_async_mode m) (meta_error (t +++ " must not declare async_mode execute")) ;;
  raise_if (tm_supported_execution_owners m !=? [ExecutionOwner.XDR_MANAGED])
    (meta_error (t +++ " supports only XDR_MANAGED")) ;;
  raise_if (intent_for m ExecutionOwner.XDR_MANAGED !=? Some DispositionIntentKind.EVENT_STATUS_UPDATE)
    (meta_error (t +++ " requires XDR_MANAGED→EVENT_STATUS_UPDATE")).

(** One round of the loop over the owners of a response or rollback tool. *)
Definition owner_intent_check (m : ToolMeta) (owner : ExecutionOwner) : result unit :=
  match intent_for m owner with
  | None => Err (meta_error ("required_disposition_intent_by_owner missing for " +++ enum_value owner))
  | Some intent =>
      raise_if ((owner ==? ExecutionOwner.XDR_MANAGED) && (tm_tool_category m ==? ToolCategory.RESPONSE)
                && (intent !=? DispositionIntentKind.ENTITY_ACTION_SUBMIT))
        (meta_error "response XDR_MANAGED must map to ENTITY_ACTION_SUBMIT") ;;
      raise_if ((owner ==? ExecutionOwner.XDR_MANAGED) && (tm_tool_category m ==? ToolCategory.ROLLBACK)
                && (intent !=? DispositionIntentKind.COMPENSATION_RECORD))
        (meta_error "rollback XDR_MANAGED must map to COMPENSATION_RECORD") ;;
      raise_if ((owner ==? ExecutionOwner.DIRECT_TOOL)
                && (intent !=? DispositionIntentKind.EXECUTION_RESULT_RECORD))
        (meta_error "DIRECT_TOOL must map to EXECUTION_RESULT_RECORD (never ENTITY_ACTION_SUBMIT)")
  end.

Definition side_effect_meta_check (m : ToolMeta) : result unit :=
  raise_if (tm_routing_kind m !=? RoutingKind.OWNER_ROUTED)
    (meta_error "side-effect response/rollback tools must use owner_routed") ;;
  raise_if (tm_action_category m ==? None)
    (meta_error "response/rollback tools require a non-null action_category") ;;
  raise_if (tm_supported_execution_owners m ==? [])
    (meta_error "owner_routed tools must declare at least one supported_execution_owner") ;;
  raise_if (negb (bool_decide (NoDup (tm_supported_execution_owners m))))
    (meta_error "supported_execution_owners must be unique") ;;
  for_each (owner_intent_check m) (tm_supported_execution_owners m).

Definition _routing_and_owners_are_consistent (m : ToolMeta) : result ToolMeta :=
  (if tm_tool_category m ==? ToolCategory.QUERY then query_meta_check m else Ok tt) ;;
  (if tm_tool_category m ==? ToolCategory.VERIFICATION then verification_meta_check m else Ok tt) ;;
  if tm_tool_name m ==? TERMINAL_DISPOSITION_TOOL then terminal_meta_check m ;; Ok m
  else
    (if tm_tool_category m ∈? [ToolCategory.RESPONSE; ToolCategory.ROLLBACK]
     then side_effect_meta_check m else Ok tt) ;;
    raise_if ((tm_routing_kind m ==? RoutingKind.DISPOSITION_ONLY) && tm_executable m)
      (meta_error "disposition_only metas must set executable=false") ;;
    Ok m.

Definition freeze_execution_owner (m : ToolMeta) (owner : ExecutionOwner) : result ExecutionOwner :=
  raise_if (negb (owner ∈? tm_supported_execution_owners m))
    (meta_error ("execution_owner " +++ enum_value owner +++ " is not supported by " +++ tm_tool_name m)) ;;
  Ok owner.

(** Catalog and approval only, never executed. *)
Definition is_virtual (m : ToolMeta) : bool :=
  (tm_routing_kind m ==? RoutingKind.DISPOSITION_ONLY) || negb (tm_executable m).

(** [WrongExecutionChannelError.__init__] *)
Definition wrong_channel (m : ToolMeta) : exc :=
  plain_exc WrongExecutionChannelError
    ("tool '" +++ tm_tool_name m +++ "' routing_kind=" +++ enum_value (tm_routing_kind m) +++
     " is not executable via ToolProvider") "wrong_execution_channel".

Definition ensure_tool_provider_executable (m : ToolMeta) : option exc :=
  if is_virtual m then Some (wrong_channel m) else None.

(** ** Bindings *)

Record ProviderToolBinding : Type := {
  pb_tool_name : string;
  pb_provider_name : string;
  pb_execution_owner : ExecutionOwner;
  pb_execution_channel : ExecutionChannel;
  pb_capabilities : list string
}.

#[global] Instance ProviderToolBinding_eq_dec : EqDecision ProviderToolBinding.
Proof. solve_decision. Defined.

Definition _channel_matches_owner (b : ProviderToolBinding) : result ProviderToolBinding :=
  raise_if ((pb_execution_owner b ==? ExecutionOwner.DIRECT_TOOL)
            && (pb_execution_channel b !=? ExecutionChannel.TOOL_PROVIDER))
    (meta_error "DIRECT_TOOL bindings must use execution_channel=tool_provider") ;;
  raise_if ((pb_execution_owner b ==? ExecutionOwner.XDR_MANAGED)
            && (pb_execution_channel b !=? ExecutionChannel.DISPOSITION_ADAPTER))
    (meta_error "XDR_MANAGED bindings must use execution_channel=disposition_adapter") ;;
  Ok b.

(** ** Results *)

Record ToolResult : Type := {
  tr_call_id : string;
  tr_tool_name : string;
  tr_provider_name : string;
  tr_status : ToolResultStatus;
  tr_job_id : option string;
  tr_provider_job_id : option string;
  tr_data : list (string * pyval);
  tr_target_results : list TargetExecutionResult;
  tr_provider_code : option string;
  tr_provider_message : option string;
  tr_raw_result : list (string * pyval);
  tr_error_detail : option string;
  tr_execution_time_ms : option Z
}.

(** ** Capabilities *)

Record CapabilityBindingEntry : Type := {
  cb_intent_kind : DispositionIntentKind;
  cb_operation_code : string;
  cb_source_kind : option SourceObjectKind;
  cb_native_source_object_type : option string;
  cb_state : CapabilityState
}.

(** The part of [CapabilityManifest] that [allows] reads. *)
Record CapabilitySurface : Type := {
  cf_allowed_intents : list DispositionIntentKind;
  cf_allowed_operations : list string;
  cf_allowed_source_kinds : list SourceObjectKind;
  cf_allowed_native_source_object_types : option (list string);
  cf_bindings : list CapabilityBindingEntry
}.

(** What is asked for. *)
Record CapabilityQuery : Type := {
  cq_intent_kind : DispositionIntentKind;
  cq_operation_code : string;
  cq_source_kind : option SourceObjectKind;
  cq_native_source_object_type : option string
}.

(** One dimension: [None] when the binding declares it and the query does not match. *)
Definition dimension_score {A} `{EqDecision A} (declared asked : option A) : option nat :=
  match declared with
  | None => Some 0%nat
  | Some _ => if asked ==? declared then Some 1%nat else None
  end.

Definition binding_specificity (q : CapabilityQuery) (b : CapabilityBindingEntry) : option nat :=
  match dimension_score (cb_source_kind b) (cq_source_kind q),
        dimension_score (cb_native_source_object_type b) (cq_native_source_object_type q) with
  | Some n, Some k => Some (n + k)%nat
  | _, _ => None
  end.

Definition scored_bindings (c : CapabilitySurface) (q : CapabilityQuery) :
    list (nat * CapabilityState) :=
  omap (λ b, (λ n, (n, cb_state b)) <$> binding_specificity q b)
    (List.filter (λ b, (cb_intent_kind b ==? cq_intent_kind q)
                       && (cb_operation_code b ==? cq_operation_code q)) (cf_bindings c)).

Definition surface_admits (c : CapabilitySurface) (q : CapabilityQuery) : bool :=
  (cq_intent_kind q ∈? cf_allowed_intents c) && (cq_operation_code q ∈? cf_allowed_operations c)
  && match cq_source_kind q with
     | Some k => bool_decide (cf_allowed_source_kinds c = []) || (k ∈? cf_allowed_source_kinds c)
     | None => true
     end
  && match cq_native_source_object_type q, cf_allowed_native_source_object_types c with
     | Some t, Some ts => t ∈? ts
     | _, _ => true
     end.

Definition allows (c : CapabilitySurface) (q : CapabilityQuery) : CapabilityState :=
  if negb (surface_admits c q) then CapabilityState.UNSUPPORTED
  else match scored_bindings c q with
       | [] => CapabilityState.UNKNOWN
       | scored =>
           let top := foldr Nat.max 0%nat scored.*1 in
           match remove_dups (List.filter (λ p : nat * CapabilityState, p.1 =? top)%nat scored).*2 with
           | [state] => state
           | _ => CapabilityState.UNSUPPORTED
           end
       end.

(** ** Bindings that decide a capability *)

Definition matches (c : CapabilitySurface) (q : CapabilityQuery) (n : nat) (s : CapabilityState) : Prop :=
  ∃ b, b ∈ cf_bindings c ∧ cb_intent_kind b = cq_intent_kind q ∧
    cb_operation_code b = cq_operation_code q ∧ binding_specificity q b = Some n ∧ cb_state b = s.

Lemma elem_of_scored c q n s : (n, s) ∈ scored_bindings c q ↔ matches c q n s.
Proof.
  unfold scored_bindings, matches. rewrite list_elem_of_omap. split.
  - intros (b & Hb & Hs). apply list_elem_of_In, filter_In in Hb as [Hb Hc].
    apply andb_true_iff in Hc as [H1%bool_decide_eq_true H2%bool_decide_eq_true].
    apply fmap_Some in Hs as (k & Hk & [= -> ->]). exists b. apply list_elem_of_In in Hb. done.
  - intros (b & Hb & H1 & H2 & Hk & <-). exists b. split; [|by rewrite Hk].
    apply list_elem_of_In, filter_In. split; [by apply list_elem_of_In|].
    apply andb_true_iff. split; by apply bool_decide_eq_true.
Qed.

Lemma max_elem (l : list nat) : l ≠ [] → foldr Nat.max 0%nat l ∈ l.
Proof.
  induction l as [|n l IH]; [done|]. intros _. cbn. destruct l as [|k l'].
  - cbn. rewrite Nat.max_0_r. by left.
  - destruct (Nat.max_spec n (foldr Nat.max 0%nat (k :: l'))) as [[_ ->]|[_ ->]]; [right; by apply IH|by left].
Qed.

Lemma max_bound (l : list nat) n : n ∈ l → (n ≤ foldr Nat.max 0%nat l)%nat.
Proof. induction l as [|k l IH]; [by intros []%elem_of_nil|]. intros [->|Hn]%elem_of_cons; cbn; [lia|]. specialize (IH Hn). lia. Qed.

Lemma remove_dups_singleton {A} `{EqDecision A} (l : list A) x :
  remove_dups l = [x] ↔ l ≠ [] ∧ ∀ y, y ∈ l → y = x.
Proof.
  split.
  - intros H. assert (∀ y, y ∈ l ↔ y = x) as Hx.
    { intros y. rewrite <-elem_of_remove_dups, H. apply list_elem_of_singleton. }
    split; [intros ->; apply (elem_of_nil x), Hx; done|]. intros y. by apply Hx.
  - intros [Hne Hall]. pose proof (NoDup_remove_dups l) as Hnd.
    assert (∀ y, y ∈ remove_dups l → y = x) as Hall' by (intros y; rewrite elem_of_remove_dups; apply Hall).
    destruct (remove_dups l) as [|a [|b k]] eqn:Hr.
    + destruct l as [|a l]; [done|]. assert (a ∈ remove_dups (a :: l)) as Ha by (apply elem_of_remove_dups; by left).
      rewrite Hr in Ha. by apply elem_of_nil in Ha.
    + f_equal. apply Hall'. by left.
    + exfalso. apply NoDup_cons in Hnd as [Hnd _]. apply Hnd. rewrite (Hall' a), (Hall' b); [by left| |]; set_solver.
Qed.

(** A capability is reported as supported or unknown only with the agreement of the most specific
    bindings: the lists admit the query, and either no binding matches (unknown) or there are matching
    bindings of the highest specificity and all of them say so.  Any disagreement among them, and
    anything outside the lists, is unsupported. *)
Theorem capability_most_specific_wins c q s :
  s ≠ CapabilityState.UNSUPPORTED →
  allows c q = s ↔
  surface_admits c q = true ∧
  ((s = CapabilityState.UNKNOWN ∧ ∀ n s', ¬ matches c q n s') ∨
   ∃ n, matches c q n s ∧ ∀ n' s', matches c q n' s' → (n' < n)%nat ∨ n' = n ∧ s' = s).
Proof.
  intros Hs. unfold allows. destruct (surface_admits c q); [cbn [negb]|naive_solver].
  destruct (scored_bindings c q) as [|p l] eqn:Hsc.
  { assert (∀ n s', ¬ matches c q n s') as Hno.
    { intros n s' Hm%elem_of_scored. rewrite Hsc in Hm. by apply elem_of_nil in Hm. }
    split; [intros <-; naive_solver|]. intros [_ [[-> _]|(n & Hm & _)]]; [done|by apply Hno in Hm]. }
  rewrite <-Hsc. set (sc := scored_bindings c q) in *. set (top := foldr Nat.max 0%nat sc.*1).
  set (win := (List.filter (λ p : nat * CapabilityState, p.1 =? top)%nat sc).*2).
  assert (∀ s', s' ∈ win ↔ matches c q top s') as Hwin.
  { intros s'. unfold win. rewrite list_elem_of_fmap, <-elem_of_scored. split.
    - intros ([n s0] & -> & H). apply list_elem_of_In, filter_In in H as [H Hn]. cbn in *.
      apply Nat.eqb_eq in Hn as ->. by apply list_elem_of_In in H.
    - intros H. exists (top, s'). split; [done|]. apply list_elem_of_In, filter_In.
      split; [by apply list_elem_of_In|]. by apply Nat.eqb_refl. }
  assert (∀ n s', matches c q n s' → (n ≤ top)%nat) as Htop.
  { intros n s' Hm%elem_of_scored. apply max_bound. apply list_elem_of_fmap. by exists (n, s'). }
  assert (∃ s0, matches c q top s0) as [s0 Hs0].
  { assert (top ∈ sc.*1) as ([n s0] & Heq & Hin)%list_elem_of_fmap by (apply max_elem; by rewrite Hsc).
    cbn in Heq. exists s0. rewrite Heq. by apply elem_of_scored. }
  assert (remove_dups win = [s] ↔ matches c q top s ∧ ∀ s', matches c q top s' → s' = s) as Hdup.
  { rewrite remove_dups_singleton. split.
    - intros [_ Hall]. assert (∀ s', matches c q top s' → s' = s) as Hall' by (intros s' ?%Hwin; auto).
      split; [|done]. by rewrite <-(Hall' s0 Hs0).
    - intros [Hm Hall]. split; [|intros s' ?%Hwin; auto]. apply Hwin in Hm. intros He. rewrite He in Hm.
      by apply elem_of_nil in Hm. }
  transitivity (remove_dups win = [s]).
  { destruct (remove_dups win) as [|a [|b k]]; split; [naive_solver..| | | ]; congruence. }
  rewrite Hdup. split.
  - intros [Hm Hall]. split; [done|]. right. exists top. split; [done|]. intros n' s' Hm'.
    pose proof (Htop _ _ Hm'). destruct (decide (n' = top)) as [->|]; [right; auto|left; lia].
  - intros [_ [[_ Hno]|(n & Hm & Hbest)]]; [by apply Hno in Hs0|].
    assert (n = top) as ->. { pose proof (Htop _ _ Hm). destruct (Hbest _ _ Hs0) as [|[? _]]; lia. }
    split; [done|]. intros s' Hm'. destruct (Hbest _ _ Hm') as [|[_ ?]]; [lia|done].
Qed.

(** A specific refusal is not overridden by a general permission. *)
Definition demo_surface : CapabilitySurface := {|
  cf_allowed_intents := [DispositionIntentKind.EVENT_STATUS_UPDATE];
  cf_allowed_operations := ["update"]; cf_allowed_source_kinds := [];
  cf_allowed_native_source_object_types := None;
  cf_bindings := [
    {| cb_intent_kind := DispositionIntentKind.EVENT_STATUS_UPDATE; cb_operation_code := "update";
       cb_source_kind := None; cb_native_source_object_type := None;
       cb_state := CapabilityState.SUPPORTED |};
    {| cb_intent_kind := DispositionIntentKind.EVENT_STATUS_UPDATE; cb_operation_code := "update";
       cb_source_kind := None; cb_native_source_object_type := Some "incident";
       cb_state := CapabilityState.UNSUPPORTED |}] |}.

Definition demo_query (t : option string) : CapabilityQuery :=
  {| cq_intent_kind := DispositionIntentKind.EVENT_STATUS_UPDATE; cq_operation_code := "update";
     cq_source_kind := None; cq_native_source_object_type := t |}.

Lemma capability_most_specific_wins_witness :
  allows demo_surface (demo_query (Some "incident")) ≠ CapabilityState.SUPPORTED ∧
  ∃ n, matches demo_surface (demo_query (Some "alert")) n CapabilityState.SUPPORTED.
Proof.
  split; [vm_compute; discriminate|].
  destruct (proj1 (capability_most_specific_wins demo_surface (demo_query (Some "alert"))
    CapabilityState.SUPPORTED ltac:(discriminate)) eq_refl) as [_ [[Hc _]|(n & Hm & _)]];
    [discriminate|by exists n].
Defined.
