(* ===== verification/ToolRegistry.v ===== *)
(** * The tool registry (tools/registry.py, tools/base.py)

    The catalog of canonical tools with their implementations and provider bindings.  JSON Schema is a
    library: what it says about a schema and a value is an argument. *)

From stdpp Require Import prelude strings sorting.
From S2P Require Import Prelude Enums Errors ExecutionResults ErrorTaxonomy ToolMeta.

#[local] Open Scope string_scope.
#[local] Open Scope Z_scope.

(** ** Implementations (tools/base.py) *)

Record ToolImplementation : Type := {
  ti_id : string;
  ti_callable : bool;
  ti_async : bool;
  ti_declared_meta : option ToolMeta
}.

#[global] Instance ToolImplementation_eq_dec : EqDecision ToolImplementation.
Proof. solve_decision. Defined.

(** The reason of the [TypeError]. *)
Definition validate_tool_implementation (i : ToolImplementation) : option string :=
  if negb (ti_callable i) then Some "tool implementation must be callable"
  else if negb (ti_async i) then Some "tool implementation must be async"
  else None.

(** ** Data *)

Record RegisteredTool : Type := {
  rt_tool_meta : ToolMeta;
  rt_tool_impl : option ToolImplementation;
  rt_bindings : list ProviderToolBinding;
  rt_call_count : Z;
  rt_error_count : Z;
  rt_healthy : bool;
  rt_submission_ready : bool
}.

(** The dict of tools, in insertion order. *)
Abbreviation ToolRegistry := (list (string * RegisteredTool)).

Record ToolRegistrationView : Type := {
  rv_tool_meta : ToolMeta;
  rv_bindings : list ProviderToolBinding;
  rv_healthy : bool;
  rv_available : bool;
  rv_unavailable_reasons : list ToolUnavailableReason
}.

(** What jsonschema answers. *)
Inductive SchemaAnswer : Type :=
| schema_ok
| schema_broken (reason : string)
| schema_unusable (reason : string)
| value_invalid (path reason validator : string).

Record SchemaEnv : Type := {
  sv_check : string → option (string * string);
  sv_validate : string → list (string * pyval) → SchemaAnswer
}.

Definition registry_error (c : error_class) (message : string) (details : list (string * pyval)) : error :=
  ShadowTraceError_init c message None details.

Definition quoted (s : string) : string := "'" +++ s +++ "'".

Definition tool_detail (tool_name : string) : string * pyval := ("tool_name", VStr tool_name).

(** ** Lookup and registration *)

Definition get_tool (reg : ToolRegistry) (tool_name : string) : result RegisteredTool :=
  match dict_get reg tool_name with
  | Some r => Ok r
  | None => Err (registry_error ToolNotFoundError ("tool " +++ quoted tool_name +++ " is not registered")
                   [tool_detail tool_name])
  end.

Definition _check_schema (sv : SchemaEnv) (tool_name direction schema : string) : result unit :=
  if schema ==? "" then Ok tt
  else match sv_check sv schema with
       | None => Ok tt
       | Some (path, reason) =>
           Err (registry_error ToolValidationError
                  ("invalid " +++ direction +++ " schema for tool " +++ quoted tool_name +++ " at " +++
                   path +++ ": " +++ reason)
                  [tool_detail tool_name; ("direction", VStr direction); ("path", VStr path);
                   ("reason", VStr reason)])
       end.

Definition implementation_check (m : ToolMeta) (i : ToolImplementation) : result unit :=
  match validate_tool_implementation i with
  | Some reason =>
      Err (registry_error ToolValidationError
             ("invalid implementation for tool " +++ quoted (tm_tool_name m) +++ ": " +++ reason)
             [tool_detail (tm_tool_name m); ("reason", VStr reason)])
  | None =>
      raise_if (match ti_declared_meta i with Some d => d !=? m | None => false end)
        (registry_error ToolValidationError
           ("decorated metadata does not match " +++ quoted (tm_tool_name m))
           [tool_detail (tm_tool_name m)])
  end.

Definition new_registered (m : ToolMeta) (i : option ToolImplementation) : RegisteredTool :=
  {| rt_tool_meta := m; rt_tool_impl := i; rt_bindings := []; rt_call_count := 0; rt_error_count := 0;
     rt_healthy := true; rt_submission_ready := true |}.

Definition register (sv : SchemaEnv) (reg : ToolRegistry) (m : ToolMeta)
    (i : option ToolImplementation) : result ToolRegistry :=
  let name := tm_tool_name m in
  let impl_detail := [tool_detail name; ("field", VStr "tool_impl")] in
  raise_if (match dict_get reg name with Some _ => true | None => false end)
    (registry_error ToolAlreadyRegisteredError ("tool " +++ quoted name +++ " is already registered")
       [tool_detail name]) ;;
  raise_if (is_virtual m && (i !=? None))
    (registry_error ToolValidationError
       ("virtual tool " +++ quoted name +++ " must not define an execute implementation") impl_detail) ;;
  raise_if (negb (is_virtual m) && (i ==? None))
    (registry_error ToolValidationError
       ("executable tool " +++ quoted name +++ " requires an async implementation") impl_detail) ;;
  match i with Some i => implementation_check m i | None => Ok tt end ;;
  _check_schema sv name "input" (tm_input_schema m) ;;
  _check_schema sv name "output" (tm_output_schema m) ;;
  Ok (dict_set reg name (new_registered m i)).

Definition _validate_binding_route (m : ToolMeta) (b : ProviderToolBinding) : result unit :=
  let allowed :=
    if tm_routing_kind m ==? RoutingKind.TOOL_PROVIDER_ONLY
    then (pb_execution_owner b ==? ExecutionOwner.DIRECT_TOOL)
         && (pb_execution_channel b ==? ExecutionChannel.TOOL_PROVIDER)
    else pb_execution_owner b ∈? tm_supported_execution_owners m in
  raise_if (negb allowed)
    (registry_error ToolValidationError
       ("binding execution_owner=" +++ enum_value (pb_execution_owner b) +++
        " is not supported by tool " +++ quoted (tm_tool_name m))
       [tool_detail (tm_tool_name m); ("execution_owner", VStr (enum_value (pb_execution_owner b)));
        ("routing_kind", VStr (enum_value (tm_routing_kind m)))]).

Definition with_bindings (r : RegisteredTool) (bs : list ProviderToolBinding) : RegisteredTool :=
  {| rt_tool_meta := rt_tool_meta r; rt_tool_impl := rt_tool_impl r; rt_bindings := bs;
     rt_call_count := rt_call_count r; rt_error_count := rt_error_count r; rt_healthy := rt_healthy r;
     rt_submission_ready := rt_submission_ready r |}.

Definition register_binding (reg : ToolRegistry) (b : ProviderToolBinding) : result ToolRegistry :=
  registered ← get_tool reg (pb_tool_name b);
  _validate_binding_route (rt_tool_meta registered) b ;;
  raise_if (existsb (λ x, pb_execution_owner x ==? pb_execution_owner b) (rt_bindings registered))
    (registry_error ToolAlreadyRegisteredError
       ("tool " +++ quoted (pb_tool_name b) +++ " already has a binding for execution_owner=" +++
        enum_value (pb_execution_owner b))
       [tool_detail (pb_tool_name b); ("execution_owner", VStr (enum_value (pb_execution_owner b)))]) ;;
  Ok (dict_set reg (pb_tool_name b) (with_bindings registered (rt_bindings registered ++ [b])%list)).

Definition dict_delete {A} (d : list (string * A)) (k : string) : list (string * A) :=
  List.filter (λ p : string * A, p.1 !=? k) d.

Definition unregister (reg : ToolRegistry) (tool_name : string) : result ToolRegistry :=
  get_tool reg tool_name ≫= λ _, Ok (dict_delete reg tool_name).

(** The loop of [load_virtual_metas]: the registry so far is kept when a later entry raises. *)
Fixpoint load_virtual_metas (sv : SchemaEnv) (reg : ToolRegistry) (metas : list ToolMeta) :
    result (list string) * ToolRegistry :=
  match metas with
  | [] => (Ok [], reg)
  | m :: metas' =>
      if tm_routing_kind m !=? RoutingKind.DISPOSITION_ONLY then load_virtual_metas sv reg metas'
      else match dict_get reg (tm_tool_name m) with
           | Some existing =>
               if (rt_tool_meta existing !=? m) || (rt_tool_impl existing !=? None) then
                 (Err (registry_error ToolAlreadyRegisteredError
                         ("conflicting virtual tool " +++ quoted (tm_tool_name m) +++
                          " is already registered") [tool_detail (tm_tool_name m)]), reg)
               else load_virtual_metas sv reg metas'
           | None =>
               match register sv reg m None with
               | Err e => (Err e, reg)
               | Ok reg =>
                   let '(out, reg) := load_virtual_metas sv reg metas' in
                   (loaded ← out; Ok (tm_tool_name m :: loaded), reg)
               end
           end
  end.

(** ** Availability *)

Definition required_of (r : RegisteredTool) (extra : list string) : list string :=
  (tm_required_capabilities (rt_tool_meta r) ++ extra)%list.

Definition covers (b : ProviderToolBinding) (required : list string) : bool :=
  forallb (λ c, c ∈? pb_capabilities b) required.

Definition _has_usable_binding (r : RegisteredTool) (owner : option ExecutionOwner)
    (required_capabilities : list string) : bool :=
  existsb (λ b, (pb_execution_owner b ∈? tm_supported_execution_owners (rt_tool_meta r))
                && match owner with Some o => pb_execution_owner b ==? o | None => true end
                && covers b (required_of r required_capabilities)) (rt_bindings r).

Definition _registration_view (r : RegisteredTool) : ToolRegistrationView :=
  let m := rt_tool_meta r in
  let reasons :=
    ((if is_virtual m then [ToolUnavailableReason.VIRTUAL_META] else []) ++
     (if rt_healthy r then [] else [ToolUnavailableReason.UNHEALTHY]) ++
     (if rt_tool_impl r ==? None then [ToolUnavailableReason.IMPLEMENTATION_MISSING] else []) ++
     (if (tm_routing_kind m ==? RoutingKind.OWNER_ROUTED) && negb (_has_usable_binding r None [])
      then [ToolUnavailableReason.BINDING_UNAVAILABLE] else []))%list in
  {| rv_tool_meta := m; rv_bindings := rt_bindings r; rv_healthy := rt_healthy r;
     rv_available := bool_decide (reasons = []); rv_unavailable_reasons := reasons |}.

Definition in_category (category : option string) (r : RegisteredTool) : bool :=
  match category with
  | Some c => enum_value (tm_tool_category (rt_tool_meta r)) ==? c
  | None => true
  end.

Definition list_registered_tools (reg : ToolRegistry) (category : option string) :
    list ToolRegistrationView :=
  _registration_view <$> List.filter (in_category category) reg.*2.

Definition list_tools (reg : ToolRegistry) (category : option string) : list ToolMeta :=
  rv_tool_meta <$> list_registered_tools reg category.

Definition available_for (owner : option ExecutionOwner) (required_capabilities : list string)
    (r : RegisteredTool) : bool :=
  let m := rt_tool_meta r in
  rv_available (_registration_view r)
  && if tm_routing_kind m ==? RoutingKind.OWNER_ROUTED
     then _has_usable_binding r owner required_capabilities
     else (owner !=? Some ExecutionOwner.XDR_MANAGED)
          && forallb (λ c, c ∈? tm_required_capabilities m) required_capabilities.

Definition list_available_tools (reg : ToolRegistry) (category : option string)
    (owner : option ExecutionOwner) (required_capabilities : list string) : list ToolMeta :=
  rt_tool_meta <$>
    List.filter (λ r, in_category category r && available_for owner required_capabilities r) reg.*2.

Definition list_bindings (reg : ToolRegistry) (tool_name : string) : result (list ProviderToolBinding) :=
  r ← get_tool reg tool_name; Ok (rt_bindings r).

(** [sorted(set(names))] and its [repr], for names without quotes. *)
Definition sorted_set (names : list string) : list string := merge_sort string_le (remove_dups names).

Definition repr_names (names : list string) : string := "[" +++ str_join ", " (quoted <$> names) +++ "]".

Definition resolve_binding (reg : ToolRegistry) (tool_name : string) (owner : ExecutionOwner)
    (required_capabilities : list string) : result ProviderToolBinding :=
  r ← get_tool reg tool_name;
  match List.find (λ b, (pb_execution_owner b ==? owner) && covers b (required_of r required_capabilities))
          (rt_bindings r) with
  | Some b => Ok b
  | None =>
      Err (registry_error ToolNotFoundError
             ("no binding for tool " +++ quoted tool_name +++ ", execution_owner=" +++ enum_value owner +++
              ", capabilities=" +++ repr_names (sorted_set (required_of r required_capabilities)))
             [tool_detail tool_name; ("execution_owner", VStr (enum_value owner));
              ("required_capabilities",
               VList (VStr <$> sorted_set (required_of r required_capabilities)))])
  end.

(** ** Validation of values *)

Definition instance_error (tool_name direction message : string) (details : list (string * pyval)) : exc :=
  shadow_exc ToolValidationError message None None None
    ([tool_detail tool_name; ("direction", VStr direction)] ++ details)%list.

Definition _validate_instance (sv : SchemaEnv) (r : RegisteredTool) (direction : string)
    (value : list (string * pyval)) : option exc :=
  let m := rt_tool_meta r in
  let name := tm_tool_name m in
  let schema := if direction ==? "input" then tm_input_schema m else tm_output_schema m in
  if schema ==? "" then None
  else match sv_validate sv schema value with
       | schema_ok => None
       | schema_broken reason =>
           Some (instance_error name direction
                   ("invalid " +++ direction +++ " schema for tool " +++ quoted name +++ ": " +++ reason)
                   [("reason", VStr reason)])
       | schema_unusable reason =>
           Some (instance_error name direction
                   ("unable to validate " +++ direction +++ " for tool " +++ quoted name +++ ": " +++ reason)
                   [("reason", VStr reason)])
       | value_invalid path reason validator =>
           Some (instance_error name direction
                   (direction +++ " validation failed for tool " +++ quoted name +++ " at " +++ path +++
                    ": " +++ reason)
                   [("path", VStr path); ("reason", VStr reason); ("validator", VStr validator)])
       end.

Definition validate_input (sv : SchemaEnv) (reg : ToolRegistry) (tool_name : string)
    (params : list (string * pyval)) : result unit :=
  r ← get_tool reg tool_name;
  match _validate_instance sv r "input" params with Some x => Err (ex_error x) | None => Ok tt end.

(** The error of a call whose tool is gone is an exception like the others. *)
Definition validate_output (sv : SchemaEnv) (reg : ToolRegistry) (tool_name : string)
    (value : list (string * pyval)) : option exc :=
  match get_tool reg tool_name with
  | Err e => Some (shadow_exc ToolNotFoundError (err_message e) None None None (err_details e))
  | Ok r => _validate_instance sv r "output" value
  end.

(** ** Execution *)

(** How an awaited implementation ends; [cancelled] when the caller's deadline passes first. *)
Inductive Answer : Type :=
| returned (raw : list (string * pyval))
| raised (x : exc)
| cancelled.

Definition require_tool_provider_impl (r : RegisteredTool) : option exc :=
  match ensure_tool_provider_executable (rt_tool_meta r) with
  | Some x => Some x
  | None => match rt_tool_impl r with Some _ => None | None => Some (wrong_channel (rt_tool_meta r)) end
  end.

Definition with_stats (r : RegisteredTool) (calls errors : Z) (healthy : bool) : RegisteredTool :=
  {| rt_tool_meta := rt_tool_meta r; rt_tool_impl := rt_tool_impl r; rt_bindings := rt_bindings r;
     rt_call_count := calls; rt_error_count := errors; rt_healthy := healthy;
     rt_submission_ready := rt_submission_ready r |}.

(** The statistics after [RegisteredTool.execute]; a cancellation is no [Exception]. *)
Definition execute_stats (r : RegisteredTool) (a : Answer) : RegisteredTool :=
  match a with
  | returned _ => with_stats r (rt_call_count r + 1) (rt_error_count r) true
  | raised _ => with_stats r (rt_call_count r + 1) (rt_error_count r + 1) false
  | cancelled => with_stats r (rt_call_count r + 1) (rt_error_count r) (rt_healthy r)
  end.

Definition count_tools (reg : ToolRegistry) (p : RegisteredTool → bool) : nat :=
  length (List.filter p reg.*2).

Definition sum_tools (reg : ToolRegistry) (f : RegisteredTool → Z) : Z :=
  foldr Z.add 0 (f <$> reg.*2).

Record ToolStats : Type := {
  ts_total_tools : nat;
  ts_executable_tools : nat;
  ts_virtual_tools : nat;
  ts_healthy_tools : nat;
  ts_unhealthy_tools : nat;
  ts_total_bindings : Z;
  ts_total_calls : Z;
  ts_total_errors : Z
}.

Definition get_tool_stats (reg : ToolRegistry) : ToolStats := {|
  ts_total_tools := length reg;
  ts_executable_tools := count_tools reg (λ r, tm_executable (rt_tool_meta r));
  ts_virtual_tools := count_tools reg (λ r, negb (tm_executable (rt_tool_meta r)));
  ts_healthy_tools := count_tools reg rt_healthy;
  ts_unhealthy_tools := count_tools reg (λ r, negb (rt_healthy r));
  ts_total_bindings := sum_tools reg (λ r, Z.of_nat (length (rt_bindings r)));
  ts_total_calls := sum_tools reg rt_call_count;
  ts_total_errors := sum_tools reg rt_error_count
|}.
