(* ===== verification/ToolExecutor.v ===== *)
(** * The tool executor (tools/executor.py, tools/retry.py)

    The one entry for tool calls: it validates, asks the convergence guard and the circuit breaker,
    dispatches, retries, charges and audits.  The guard and the job store are behind interfaces; the
    answers of implementations, budget, clocks and pydantic are arguments, as is what other tasks do to
    the shared state while an implementation runs.  The log holds what a call does, oldest first. *)

From Stdlib Require Import QArith.
From stdpp Require Import prelude strings gmap.
From S2P Require Import Prelude Enums Errors Lifecycles Db ExecutionResults ErrorTaxonomy ToolMeta.
From S2P Require Import ToolRegistry ConvergenceGuard CircuitBreaker.

#[local] Open Scope string_scope.
#[local] Open Scope Z_scope.

(** ** Retry policy (tools/retry.py) *)

Record RetryPolicy : Type := {
  rp_max_retries : Z;
  rp_backoff_base : Q;
  rp_backoff_multiplier : Q
}.

Definition default_RetryPolicy : RetryPolicy :=
  {| rp_max_retries := 3; rp_backoff_base := 2; rp_backoff_multiplier := 2 |}.

Definition delay_for_attempt (p : RetryPolicy) (attempt : nat) : Q :=
  match attempt with
  | O => 0
  | S n => (rp_backoff_base p * rp_backoff_multiplier p ^ Z.of_nat n)%Q
  end.

(** ** Call nature *)

Definition derive_call_nature (m : ToolMeta) : CallNature :=
  if is_virtual m then CallNature.VIRTUAL
  else match tm_tool_category m with
       | ToolCategory.QUERY => CallNature.QUERY
       | ToolCategory.VERIFICATION => CallNature.VERIFICATION
       | _ => CallNature.SIDE_EFFECT
       end.

(** ** Ports *)

(** [ConvergenceGuardPort] *)
Class GuardPort (G : Type) : Type := {
  gp_should_stop : G → string → bool;
  gp_record_step : G → string → string → list (string * pyval) → G
}.

#[global] Instance noop_guard : GuardPort unit :=
  {| gp_should_stop := λ _ _, false; gp_record_step := λ g _ _ _, g |}.

(** The cross-loop guard as a port, with the default step type. *)
Definition convergence_port (signature : string → list (string * pyval) → string)
    (memory : option (string → string → pyval → write_outcome)) :
    GuardPort (gmap string ConvergenceState) := {|
  gp_should_stop g e := stop (should_stop memory g e);
  gp_record_step g e t p := record_step signature g e (MkStep "tool_call" (Some t) (Some p) None)
|}.

(** [ExecutionJobStorePort] *)
Class JobStore (J : Type) : Type := {
  js_get_job : J → string → option ActionExecutionJob;
  js_cas_update_job : J → string → ActionExecutionJob → ExecutionJobStatus → (exc + bool) * J
}.

Definition exc_of_error (e : error) : exc :=
  shadow_exc (err_class e) (err_message e) None None None (err_details e).

(** [InMemoryExecutionJobStore] *)
#[global] Instance memory_jobs : JobStore (gmap string ActionExecutionJob) := {|
  js_get_job jobs id := jobs !! id;
  js_cas_update_job jobs id updated expected :=
    match jobs !! id with
    | None => (inr false, jobs)
    | Some current =>
        if aj_status current !=? expected then (inr false, jobs)
        else if aj_status current ==? aj_status updated then (inr true, <[id := updated]> jobs)
        else match validate_job_status_transition (aj_status current) (aj_status updated) false false with
             | Err e => (inl (exc_of_error e), jobs)
             | Ok _ => (inr true, <[id := updated]> jobs)
             end
    end
|}.

(** ** State, arguments and environment *)

Inductive XEvent : Type :=
| audit_started (call_id : string)
| call_started (tool_name : string)
| slept (d : Q)
| dispatched (tool_name : string) (attempt : nat)
| charged (agent_name : string)
| audit_finished (status : ToolResultStatus) (retry_count : nat)
| call_completed (status : ToolResultStatus) (retry_count : nat).

Record CallArgs : Type := {
  ca_tool_name : string;
  ca_params : list (string * pyval);
  ca_event_id : string;
  ca_action_id : option string;
  ca_execution_job_id : option string;
  ca_idempotency_key : option string;
  ca_execution_owner : option ExecutionOwner;
  ca_retry_policy : option RetryPolicy;
  ca_agent_name : string
}.

Record BudgetAnswers : Type := {
  bu_check : option exc;
  bu_charge : nat → option exc
}.

Section executor.
Context {G J : Type} `{GuardPort G} `{JobStore J}.

(** What concurrent calls share. *)
Record Shared : Type := MkShared {
  sh_guard : option G;
  sh_breakers : CircuitBreakerRegistry;
  sh_jobs : option J
}.

Record XWorld : Type := MkXWorld {
  xw_registry : ToolRegistry;
  xw_shared : Shared;
  xw_log : list XEvent
}.

Record CallEnv : Type := {
  ce_call_id : string;
  ce_audit_ok : bool;
  ce_schemas : SchemaEnv;
  ce_budget : option BudgetAnswers;
  ce_parse_result : list (string * pyval) → option ToolResult;
  ce_parse_job : list (string * pyval) → option ActionExecutionJob;
  ce_allow_now : nat → Z;
  ce_record_now : nat → Z;
  ce_elapsed_ms : nat → Z;
  ce_answer : nat → Answer;
  ce_others : nat → Shared → Shared
}.

Inductive Outcome : Type :=
| x_result (r : ToolResult)
| x_raised (x : exc)
| x_out_of_fuel.

Definition emit (ev : XEvent) (w : XWorld) : XWorld :=
  MkXWorld (xw_registry w) (xw_shared w) (xw_log w ++ [ev])%list.

Definition on_shared (f : Shared → Shared) (w : XWorld) : XWorld :=
  MkXWorld (xw_registry w) (f (xw_shared w)) (xw_log w).

Definition on_breaker {A} (tool_name : string) (f : CircuitBreaker → A * CircuitBreaker) (w : XWorld) :
    A * XWorld :=
  let '(b, regs) := registry_get (sh_breakers (xw_shared w)) tool_name in
  let '(a, b) := f b in
  (a, on_shared (λ s, MkShared (sh_guard s)
                        (MkRegistry (reg_failure_threshold regs) (reg_recovery_timeout_s regs)
                           (<[tool_name := b]> (_breakers regs))) (sh_jobs s)) w).

Definition breaker_update (tool_name : string) (f : CircuitBreaker → CircuitBreaker) (w : XWorld) : XWorld :=
  (on_breaker tool_name (λ b, (tt, f b)) w).2.

(** The statistics of the tool's entry. *)
Definition count_execution (tool_name : string) (a : Answer) (w : XWorld) : XWorld :=
  match dict_get (xw_registry w) tool_name with
  | Some r => MkXWorld (dict_set (xw_registry w) tool_name (execute_stats r a)) (xw_shared w) (xw_log w)
  | None => w
  end.

(** ** Results *)

Definition ok_statuses : list ToolResultStatus :=
  [ToolResultStatus.SUCCESS; ToolResultStatus.PARTIAL_SUCCESS; ToolResultStatus.ACCEPTED].

Definition failure_statuses : list ToolResultStatus :=
  [ToolResultStatus.FAILED; ToolResultStatus.REMOTE_ERROR; ToolResultStatus.RATE_LIMITED;
   ToolResultStatus.AUTH_ERROR; ToolResultStatus.VALIDATION_ERROR].

Definition _failure_result (call_id tool_name provider_name : string) (status : ToolResultStatus)
    (error_detail : string) (execution_time_ms : option Z) : ToolResult := {|
  tr_call_id := call_id; tr_tool_name := tool_name; tr_provider_name := provider_name;
  tr_status := status; tr_job_id := None; tr_provider_job_id := None; tr_data := [];
  tr_target_results := []; tr_provider_code := None; tr_provider_message := None;
  tr_raw_result := []; tr_error_detail := Some error_detail; tr_execution_time_ms := execution_time_ms
|}.

Definition _circuit_open_result (call_id tool_name provider_name : string) : ToolResult :=
  _failure_result call_id tool_name provider_name ToolResultStatus.CIRCUIT_OPEN "circuit breaker is open"
    None.

Definition setdefault (d : list (string * pyval)) (k : string) (v : pyval) : list (string * pyval) :=
  match dict_get d k with Some _ => d | None => dict_set d k v end.

Definition simulated (d : list (string * pyval)) : pyval := VDict (dict_set d "simulated" (VBool true)).

(** The provider name is forced on side effects, and what mock providers answer is marked; merging a
    [raw_result] that is no dict raises. *)
Definition forced (provider_name : string) (with_data : bool) (d : list (string * pyval)) :
    exc + list (string * pyval) :=
  let d := dict_set d "provider_name" (VStr provider_name) in
  if provider_name ∈? ["mock_tool_provider"; "mock_xdr"] then
    let d := match dict_get d "data" with
             | Some (VDict data) => if with_data then dict_set d "data" (simulated data) else d
             | _ => d
             end in
    match default VNone (dict_get d "raw_result") with
    | VDict raw => inr (dict_set d "raw_result" (simulated raw))
    | v => if py_truthy v then inl (plain_exc OtherError "argument after ** must be a mapping" "")
           else inr (dict_set d "raw_result" (simulated []))
    end
  else inr d.

Definition job_result_status (s : ExecutionJobStatus) : ToolResultStatus :=
  match s with
  | ExecutionJobStatus.SUCCESS => ToolResultStatus.SUCCESS
  | ExecutionJobStatus.PARTIAL_SUCCESS => ToolResultStatus.PARTIAL_SUCCESS
  | ExecutionJobStatus.FAILED => ToolResultStatus.FAILED
  | ExecutionJobStatus.UNKNOWN => ToolResultStatus.UNKNOWN
  | ExecutionJobStatus.TIMED_OUT => ToolResultStatus.TIMEOUT
  | _ => ToolResultStatus.ACCEPTED
  end.

Definition result_of_job (ce : CallEnv) (job : ActionExecutionJob) (tool_name provider_name : string)
    (execution_time_ms : Z) (force_provider_name : bool) : ToolResult := {|
  tr_call_id := ce_call_id ce; tr_tool_name := tool_name;
  tr_provider_name := if force_provider_name then provider_name else aj_provider_name job;
  tr_status := job_result_status (aj_status job); tr_job_id := Some (aj_job_id job);
  tr_provider_job_id := aj_provider_job_id job; tr_data := [];
  tr_target_results := aj_target_results job; tr_provider_code := aj_provider_code job;
  tr_provider_message := aj_provider_message job; tr_raw_result := aj_raw_result job;
  tr_error_detail := None; tr_execution_time_ms := Some execution_time_ms
|}.

Definition _coerce_tool_result (ce : CallEnv) (raw : list (string * pyval)) (tool_name provider_name : string)
    (execution_time_ms : Z) (force_provider_name : bool) : exc + ToolResult :=
  let payload := setdefault (setdefault raw "call_id" (VStr (ce_call_id ce))) "tool_name" (VStr tool_name) in
  match (if force_provider_name then forced provider_name true payload
         else inr (setdefault payload "provider_name" (VStr provider_name))) with
  | inl x => inl x
  | inr payload =>
      match ce_parse_result ce (setdefault payload "execution_time_ms" (VInt execution_time_ms)) with
      | Some r => inr r
      | None =>
          match (if force_provider_name then forced provider_name false raw else inr raw) with
          | inl x => inl x
          | inr job_payload =>
              match ce_parse_job ce job_payload with
              | None => inl (plain_exc ValueError "validation error for ActionExecutionJob" "")
              | Some job =>
                  inr (result_of_job ce job tool_name provider_name execution_time_ms force_provider_name)
              end
          end
      end
  end.

(** ** Checks before the loop *)

Definition _validate_side_effect_envelope (a : CallArgs) : result unit :=
  let missing :=
    ((if truthy_str (ca_action_id a) then [] else ["action_id"]) ++
     (if truthy_str (ca_execution_job_id a) then [] else ["execution_job_id"]) ++
     (if truthy_str (ca_idempotency_key a) then [] else ["idempotency_key"]) ++
     (if ca_execution_owner a ==? None then ["execution_owner"] else []))%list in
  raise_if (negb (bool_decide (missing = [])))
    (registry_error ToolValidationError
       ("side-effect tool " +++ quoted (ca_tool_name a) +++ " requires " +++ str_join ", " missing)
       [tool_detail (ca_tool_name a); ("missing", VList (VStr <$> missing))]).

Definition _assert_precreated_job (jobs : option J) (a : CallArgs) : result unit :=
  let job_id := default "" (ca_execution_job_id a) in
  match jobs with
  | None => Ok tt
  | Some jobs =>
      match js_get_job jobs job_id with
      | None => Err (registry_error ToolValidationError "pre-created execution job not found"
                       [("execution_job_id", VStr job_id)])
      | Some job =>
          raise_if ((aj_event_id job !=? ca_event_id a) || (Some (aj_action_id job) !=? ca_action_id a))
            (registry_error ToolValidationError "execution job binding mismatch"
               [("execution_job_id", VStr job_id); ("event_id", VStr (ca_event_id a));
                ("action_id", opt_str (ca_action_id a))])
      end
  end.

(** The side-effect branch: the provider to dispatch to. *)
Definition side_effect_provider (w : XWorld) (m : ToolMeta) (a : CallArgs) : exc + string :=
  match _validate_side_effect_envelope a, ca_execution_owner a with
  | Err e, _ => inl (exc_of_error e)
  | Ok _, None => inl (exc_of_error (registry_error ToolValidationError "execution_owner" []))
  | Ok _, Some owner =>
      match resolve_binding (xw_registry w) (ca_tool_name a) owner [] with
      | Err e => inl (exc_of_error e)
      | Ok b =>
          if pb_execution_channel b !=? ExecutionChannel.TOOL_PROVIDER then inl (wrong_channel m)
          else match _assert_precreated_job (sh_jobs (xw_shared w)) a with
               | Err e => inl (exc_of_error e)
               | Ok _ => inr (pb_provider_name b)
               end
      end
  end.

(** ** The job of a side effect *)

Definition written_status (s : ToolResultStatus) (current : ExecutionJobStatus) : ExecutionJobStatus :=
  match s with
  | ToolResultStatus.ACCEPTED => ExecutionJobStatus.QUEUED
  | ToolResultStatus.SUCCESS => ExecutionJobStatus.SUCCESS
  | ToolResultStatus.PARTIAL_SUCCESS => ExecutionJobStatus.PARTIAL_SUCCESS
  | ToolResultStatus.UNKNOWN => ExecutionJobStatus.UNKNOWN
  | ToolResultStatus.TIMEOUT => ExecutionJobStatus.TIMED_OUT
  | ToolResultStatus.FAILED => ExecutionJobStatus.FAILED
  | _ => current
  end.

Definition written_job (j : ActionExecutionJob) (r : ToolResult) (provider_name : string) :
    ActionExecutionJob := {|
  aj_job_id := aj_job_id j; aj_event_id := aj_event_id j; aj_action_id := aj_action_id j;
  aj_provider_name := provider_name; aj_idempotency_key := aj_idempotency_key j;
  aj_provider_job_id := if truthy_str (tr_provider_job_id r) then tr_provider_job_id r
                        else aj_provider_job_id j;
  aj_status := written_status (tr_status r) (aj_status j);
  aj_claimed_by := aj_claimed_by j; aj_lease_expires_at := aj_lease_expires_at j;
  aj_created_at := aj_created_at j; aj_updated_at := aj_updated_at j; aj_started_at := aj_started_at j;
  aj_finished_at := aj_finished_at j; aj_poll_after_ms := aj_poll_after_ms j; aj_attempt := aj_attempt j;
  aj_target_results := match tr_target_results r with [] => aj_target_results j | ts => ts end;
  aj_provider_code := tr_provider_code r; aj_provider_message := tr_provider_message r;
  aj_raw_result := match tr_raw_result r with [] => aj_raw_result j | d => d end
|}.

Definition _cas_writeback_job (w : XWorld) (execution_job_id : string) (r : ToolResult)
    (provider_name : string) : option exc * XWorld :=
  match sh_jobs (xw_shared w) with
  | None => (None, w)
  | Some jobs =>
      match js_get_job jobs execution_job_id with
      | None => (None, w)
      | Some current =>
          let '(out, jobs) := js_cas_update_job jobs execution_job_id (written_job current r provider_name)
                                (aj_status current) in
          (match out with inl x => Some x | inr _ => None end,
           on_shared (λ s, MkShared (sh_guard s) (sh_breakers s) (Some jobs)) w)
      end
  end.
(** ** The dispatch loop *)

Definition _should_retry (nature : CallNature) (m : ToolMeta) (x : exc) (attempt : nat) (p : RetryPolicy)
    (side_effect_dispatched : bool) : bool :=
  if rp_max_retries p <=? Z.of_nat attempt then false
  else if nature ==? CallNature.SIDE_EFFECT then
    if side_effect_dispatched then false
    else if negb (tm_idempotency m) then false
    else (ex_class x ==? TimeoutError) && tm_idempotency m
  else is_retryable x.

(** What stays fixed during one call. *)
Record Call : Type := {
  cl_args : CallArgs;
  cl_registered : RegisteredTool;
  cl_nature : CallNature;
  cl_policy : RetryPolicy;
  cl_provider : string
}.

Definition _finalize (ce : CallEnv) (r : ToolResult) (retry_count : nat) (w : XWorld) : Outcome * XWorld :=
  let w := if ce_audit_ok ce then emit (audit_finished (tr_status r) retry_count) w else w in
  (x_result r, emit (call_completed (tr_status r) retry_count) w).

Definition record_outcome (ce : CallEnv) (attempt : nat) (tool_name : string) (s : ToolResultStatus)
    (w : XWorld) : XWorld :=
  if s ∈? ok_statuses then breaker_update tool_name record_success w
  else if s ∈? failure_statuses then breaker_update tool_name (record_failure (ce_record_now ce attempt)) w
  else w.

(** The output is validated unless the answer reads as a failed result. *)
Definition output_failure (ce : CallEnv) (reg : ToolRegistry) (tool_name : string)
    (raw : list (string * pyval)) : option exc :=
  if match ce_parse_result ce raw with None => true | Some r => tr_status r ∈? ok_statuses end
  then validate_output (ce_schemas ce) reg tool_name raw
  else None.

Definition job_writeback (c : Call) (r : ToolResult) (w : XWorld) : option exc * XWorld :=
  match ca_execution_job_id (cl_args c), tr_job_id r with
  | Some job_id, Some _ =>
      if cl_nature c ==? CallNature.SIDE_EFFECT then _cas_writeback_job w job_id r (cl_provider c)
      else (None, w)
  | _, _ => (None, w)
  end.

(** [None]: nothing is charged. *)
Definition charge_answer (ce : CallEnv) (attempt : nat) (r : ToolResult) : option (option exc) :=
  match ce_budget ce with
  | Some b => if tr_status r ∈? ok_statuses then Some (bu_charge b attempt) else None
  | None => None
  end.

(** The body of the [try] after the implementation returned. *)
Definition settle (ce : CallEnv) (c : Call) (attempt retry_count : nat) (raw : list (string * pyval))
    (w : XWorld) : (exc + Outcome) * XWorld :=
  let a := cl_args c in
  match output_failure ce (xw_registry w) (ca_tool_name a) raw with
  | Some x => (inl x, w)
  | None =>
      match _coerce_tool_result ce raw (ca_tool_name a) (cl_provider c) (ce_elapsed_ms ce attempt)
              (cl_nature c ==? CallNature.SIDE_EFFECT) with
      | inl x => (inl x, w)
      | inr r =>
          let w := record_outcome ce attempt (ca_tool_name a) (tr_status r) w in
          let '(failed, w) := job_writeback c r w in
          match failed, charge_answer ce attempt r with
          | Some x, _ | None, Some (Some x) => (inl x, w)
          | None, Some None =>
              let '(o, w) := _finalize ce r retry_count (emit (charged (ca_agent_name a)) w) in (inr o, w)
          | None, None => let '(o, w) := _finalize ce r retry_count w in (inr o, w)
          end
      end
  end.

(** The [except] clauses: an exception that passes, a retry ([None]), or the failure to report. *)
Definition on_exception (ce : CallEnv) (c : Call) (attempt : nat) (x : exc) (w : XWorld) :
    option (exc + ToolResult) * XWorld :=
  let a := cl_args c in
  let side_effect := cl_nature c ==? CallNature.SIDE_EFFECT in
  let failure status detail :=
    _failure_result (ce_call_id ce) (ca_tool_name a) (cl_provider c) status detail
      (Some (ce_elapsed_ms ce attempt)) in
  let retry x := _should_retry (cl_nature c) (rt_tool_meta (cl_registered c)) x attempt (cl_policy c) true in
  if ex_class x ==? TimeoutError then
    let w := breaker_update (ca_tool_name a) (record_failure (ce_record_now ce attempt)) w in
    if retry (plain_exc TimeoutError "" "") then (None, w)
    else (Some (inr (failure (if side_effect then ToolResultStatus.UNKNOWN else ToolResultStatus.TIMEOUT)
                       "tool execution timed out")), w)
  else if ex_class x ∈? [WrongExecutionChannelError; BudgetExceededError; SoftTimeLimitExceeded] then
    (Some (inl x), w)
  else
    let w := breaker_update (ca_tool_name a) (record_failure (ce_record_now ce attempt)) w in
    if retry x then (None, w)
    else (Some (inr (failure (if side_effect then ToolResultStatus.UNKNOWN else ToolResultStatus.FAILED)
                       (err_message (ex_error x)))), w).

(** [_dispatch] under [wait_for]: the implementation's answer, or the exception. *)
Definition dispatch_once (ce : CallEnv) (c : Call) (attempt : nat) (w : XWorld) :
    (exc + list (string * pyval)) * XWorld :=
  match require_tool_provider_impl (cl_registered c) with
  | Some x => (inl x, w)
  | None =>
      let w := emit (dispatched (ca_tool_name (cl_args c)) attempt) w in
      let w := on_shared (ce_others ce attempt) w in
      let w := count_execution (ca_tool_name (cl_args c)) (ce_answer ce attempt) w in
      (match ce_answer ce attempt with
       | returned raw => inr raw
       | raised x => inl x
       | cancelled => inl (plain_exc TimeoutError "" "")
       end, w)
  end.

Definition guard_stops (a : CallArgs) (w : XWorld) : bool :=
  match sh_guard (xw_shared w) with Some g => gp_should_stop g (ca_event_id a) | None => false end.

Definition guard_record (a : CallArgs) (w : XWorld) : XWorld :=
  on_shared (λ s, MkShared ((λ g, gp_record_step g (ca_event_id a) (ca_tool_name a) (ca_params a)) <$>
                             sh_guard s) (sh_breakers s) (sh_jobs s)) w.

(** One round: an outcome, or [None] to go on. *)
Definition call_round (ce : CallEnv) (c : Call) (attempt retry_count : nat) (w : XWorld) :
    option Outcome * XWorld :=
  let a := cl_args c in
  let finish r w := let '(o, w) := _finalize ce r retry_count w in (Some o, w) in
  if guard_stops a w then
    finish (_failure_result (ce_call_id ce) (ca_tool_name a) (cl_provider c) ToolResultStatus.FAILED
              "convergence guard stopped execution" (Some (ce_elapsed_ms ce attempt))) w
  else
    let w := match attempt with O => w | _ => emit (slept (delay_for_attempt (cl_policy c) attempt)) w end in
    let w := guard_record a w in
    let '(ok, w) := on_breaker (ca_tool_name a) (allow_request (ce_allow_now ce attempt)) w in
    if negb ok then finish (_circuit_open_result (ce_call_id ce) (ca_tool_name a) (cl_provider c)) w
    else
      let '(answer, w) := dispatch_once ce c attempt w in
      let '(out, w) := match answer with
                       | inl x => (inl x, w)
                       | inr raw => settle ce c attempt retry_count raw w
                       end in
      match out with
      | inr o => (Some o, w)
      | inl x =>
          match on_exception ce c attempt x w with
          | (None, w) => (None, w)
          | (Some (inl x), w) => (Some (x_raised x), w)
          | (Some (inr r), w) => finish r w
          end
      end.

Fixpoint call_loop (fuel : nat) (ce : CallEnv) (c : Call) (attempt retry_count : nat) (w : XWorld) :
    Outcome * XWorld :=
  match fuel with
  | O => (x_out_of_fuel, w)
  | S fuel =>
      match call_round ce c attempt retry_count w with
      | (Some o, w) => (o, w)
      | (None, w) => call_loop fuel ce c (S attempt) (S retry_count) w
      end
  end.

(** Enough for every retry the policy allows. *)
Definition call_fuel (p : RetryPolicy) : nat := S (Z.to_nat (rp_max_retries p)).

Definition executor_call (ce : CallEnv) (a : CallArgs) (w : XWorld) : Outcome * XWorld :=
  match get_tool (xw_registry w) (ca_tool_name a) with
  | Err e => (x_raised (exc_of_error e), w)
  | Ok registered =>
      let m := rt_tool_meta registered in
      let nature := derive_call_nature m in
      if nature ==? CallNature.VIRTUAL then (x_raised (wrong_channel m), w)
      else
        match (if nature ==? CallNature.SIDE_EFFECT then side_effect_provider w m a
               else inr "tool_provider") with
        | inl x => (x_raised x, w)
        | inr provider =>
            match (match ce_budget ce with Some b => bu_check b | None => None end) with
            | Some x => (x_raised x, w)
            | None =>
                match validate_input (ce_schemas ce) (xw_registry w) (ca_tool_name a) (ca_params a) with
                | Err e => (x_raised (exc_of_error e), w)
                | Ok _ =>
                    let w := (on_breaker (ca_tool_name a) (pair tt) w).2 in
                    let w := if ce_audit_ok ce then emit (audit_started (ce_call_id ce)) w else w in
                    let w := emit (call_started (ca_tool_name a)) w in
                    if negb (rt_submission_ready registered) && (nature !=? CallNature.QUERY) then
                      _finalize ce (_failure_result (ce_call_id ce) (ca_tool_name a) provider
                                      ToolResultStatus.UNSUPPORTED
                                      "configured Provider is unavailable; manual handling required"
                                      (Some 0)) 0 w
                    else
                      let c := {| cl_args := a; cl_registered := registered; cl_nature := nature;
                                  cl_policy := default default_RetryPolicy (ca_retry_policy a);
                                  cl_provider := provider |} in
                      call_loop (call_fuel (cl_policy c)) ce c 0 0 w
                end
            end
        end
  end.
End executor.
