(* ===== verification/ToolExecutorFacts.v ===== *)
(** * Guarantees of the tool executor *)

From Stdlib Require Import QArith.
From stdpp Require Import prelude strings gmap.
From S2P Require Import Prelude Enums Errors Lifecycles Db ExecutionResults ErrorTaxonomy ToolMeta.
From S2P Require Import ToolRegistry ConvergenceGuard CircuitBreaker ToolExecutor.

#[local] Open Scope string_scope.
#[local] Open Scope Z_scope.

Definition dispatches_of (t : string) (l : list XEvent) : nat :=
  length (List.filter (λ e, match e with dispatched t' _ => t' ==? t | _ => false end) l).

Lemma dispatches_app t l k : dispatches_of t (l ++ k) = (dispatches_of t l + dispatches_of t k)%nat.
Proof. unfold dispatches_of. by rewrite List.filter_app, length_app. Qed.

Section facts.
Context {G J : Type} `{GuardPort G} `{JobStore J}.
Implicit Types (w : XWorld (G := G) (J := J)) (ce : CallEnv (G := G) (J := J)).

(** ** What the parts of a round do to the log and the registry *)

Definition count t w : nat := dispatches_of t (xw_log w).

Lemma count_emit t ev w :
  count t (emit ev w) = (count t w + match ev with dispatched t' _ => if t' ==? t then 1 else 0 | _ => 0 end)%nat.
Proof.
  unfold count, emit. cbn [xw_log]. rewrite dispatches_app. f_equal. unfold dispatches_of. cbn.
  destruct ev; try done. by case_bool_decide.
Qed.

Lemma on_breaker_rest {A} t (f : CircuitBreaker → A * CircuitBreaker) w :
  xw_log (on_breaker t f w).2 = xw_log w ∧ xw_registry (on_breaker t f w).2 = xw_registry w ∧
  sh_guard (xw_shared (on_breaker t f w).2) = sh_guard (xw_shared w) ∧
  sh_jobs (xw_shared (on_breaker t f w).2) = sh_jobs (xw_shared w).
Proof. unfold on_breaker. destruct (registry_get _ _) as [b regs]. by destruct (f b). Qed.

Lemma breaker_update_rest t f w :
  xw_log (breaker_update t f w) = xw_log w ∧ xw_registry (breaker_update t f w) = xw_registry w ∧
  sh_guard (xw_shared (breaker_update t f w)) = sh_guard (xw_shared w) ∧
  sh_jobs (xw_shared (breaker_update t f w)) = sh_jobs (xw_shared w).
Proof. apply on_breaker_rest. Qed.

Lemma count_log t w w' : xw_log w' = xw_log w → count t w' = count t w.
Proof. unfold count. by intros ->. Qed.

Lemma finalize_count t ce r n w o w' : _finalize ce r n w = (o, w') → count t w' = count t w ∧ o = x_result r.
Proof.
  unfold _finalize. intros [= <- <-]. destruct (ce_audit_ok ce); rewrite !count_emit; split; [lia|done|lia|done].
Qed.

Lemma record_outcome_log ce n t s w : xw_log (record_outcome ce n t s w) = xw_log w.
Proof.
  unfold record_outcome. destruct (_ ∈? _); [apply breaker_update_rest|].
  destruct (_ ∈? _); [apply breaker_update_rest|done].
Qed.

Lemma cas_writeback_log w id r p : xw_log (_cas_writeback_job w id r p).2 = xw_log w.
Proof.
  unfold _cas_writeback_job. destruct (sh_jobs _); [|done]. destruct (js_get_job _ _); [|done].
  by destruct (js_cas_update_job _ _ _ _).
Qed.

Lemma job_writeback_log c r w : xw_log (job_writeback c r w).2 = xw_log w.
Proof.
  unfold job_writeback. destruct (ca_execution_job_id _); [|done]. destruct (tr_job_id r); [|done].
  destruct (_ ==? _); [apply cas_writeback_log|done].
Qed.

(** An answer that is settled: the result was read from it. *)
Lemma settle_spec t ce c n k raw w out w' :
  settle ce c n k raw w = (out, w') →
  count t w' = count t w ∧
  ∀ o, out = inr o → ∃ r, o = x_result r ∧
    _coerce_tool_result ce raw (ca_tool_name (cl_args c)) (cl_provider c) (ce_elapsed_ms ce n)
      (cl_nature c ==? CallNature.SIDE_EFFECT) = inr r.
Proof.
  unfold settle. intros Hs. destruct (output_failure _ _ _ _) as [x|]; [by injection Hs as <- <-|].
  destruct (_coerce_tool_result _ _ _ _ _ _) as [x|r] eqn:Hr; [by injection Hs as <- <-|].
  set (w1 := record_outcome _ _ _ _ _) in Hs.
  assert (count t w1 = count t w) as H1 by apply count_log, record_outcome_log.
  pose proof (job_writeback_log c r w1) as Hlog. destruct (job_writeback c r w1) as [failed w2].
  cbn [snd] in Hlog. apply (count_log t) in Hlog. rewrite H1 in Hlog.
  destruct failed as [x|]; [by injection Hs as <- <-|].
  destruct (charge_answer _ _ _) as [[x|]|]; [by injection Hs as <- <-| |];
    (destruct (_finalize _ _ _ _) as [o w3] eqn:Hf; injection Hs as <- <-;
     apply (finalize_count t) in Hf as [Hc ->]; rewrite Hc, ?count_emit; split; [lia|];
     intros o [= <-]; by exists r).
Qed.

Lemma on_exception_spec t ce c n x w out w' :
  on_exception ce c n x w = (out, w') →
  count t w' = count t w ∧
  match out with
  | None => ∃ y, _should_retry (cl_nature c) (rt_tool_meta (cl_registered c)) y n (cl_policy c) true = true
  | Some (inl y) => y = x ∧ ex_class x ∈ [WrongExecutionChannelError; BudgetExceededError; SoftTimeLimitExceeded]
  | Some (inr r) => cl_nature c = CallNature.SIDE_EFFECT → tr_status r = ToolResultStatus.UNKNOWN
  end.
Proof.
  unfold on_exception. set (w1 := breaker_update _ _ _).
  assert (count t w1 = count t w) as H1 by apply count_log, breaker_update_rest.
  destruct (ex_class x ==? TimeoutError).
  { destruct (_should_retry _ _ _ _ _ _) eqn:Hr; intros [= <- <-]; (split; [done|]); [by eexists|].
    cbn. intros ->. by rewrite bool_decide_eq_true_2. }
  case_bool_decide as Hin; [by intros [= <- <-]|].
  destruct (_should_retry _ _ _ _ _ _) eqn:Hr; intros [= <- <-]; (split; [done|]); [by eexists|].
  cbn. intros ->. by rewrite bool_decide_eq_true_2.
Qed.

Lemma count_execution_log t a w : xw_log (count_execution t a w) = xw_log w.
Proof. unfold count_execution. by destruct (dict_get _ _). Qed.

Lemma dispatch_once_spec ce c n w answer w' :
  dispatch_once ce c n w = (answer, w') →
  (require_tool_provider_impl (cl_registered c) = Some (wrong_channel (rt_tool_meta (cl_registered c))) ∧
   answer = inl (wrong_channel (rt_tool_meta (cl_registered c))) ∧ w' = w) ∨
  require_tool_provider_impl (cl_registered c) = None ∧
  (∀ t, count t w' = count t w + if ca_tool_name (cl_args c) ==? t then 1 else 0)%nat ∧
  answer = match ce_answer ce n with
           | returned raw => inr raw
           | raised x => inl x
           | cancelled => inl (plain_exc TimeoutError "" "")
           end.
Proof.
  unfold dispatch_once. destruct (require_tool_provider_impl _) as [x|] eqn:Hreq; intros [= <- <-].
  - left. assert (x = wrong_channel (rt_tool_meta (cl_registered c))) as ->; [|done].
    revert Hreq. unfold require_tool_provider_impl, ensure_tool_provider_executable.
    destruct (is_virtual _); [by intros [= <-]|]. destruct (rt_tool_impl _); [done|by intros [= <-]].
  - right. split; [done|]. split; [intros t|done]. rewrite (count_log t _ _ (count_execution_log _ _ _)).
    unfold on_shared. unfold count at 1. cbn [xw_log]. fold (count t (emit (dispatched (ca_tool_name (cl_args c)) n) w)).
    by rewrite count_emit.
Qed.

(** ** One round *)

(** The exceptions that pass through a call after its dispatch. *)
Definition passing_classes : list error_class :=
  [WrongExecutionChannelError; BudgetExceededError; SoftTimeLimitExceeded].

(** How a dispatched round of a side effect ends: with the answer of the provider, as UNKNOWN, or with an
    exception of one of three classes, raised by the tool itself or while its answer was settled. *)
Definition honest_outcome ce c n (o : Outcome) : Prop :=
  match o with
  | x_result r =>
      tr_status r = ToolResultStatus.UNKNOWN ∨
      ∃ raw, ce_answer ce n = returned raw ∧
        _coerce_tool_result ce raw (ca_tool_name (cl_args c)) (cl_provider c) (ce_elapsed_ms ce n) true = inr r
  | x_raised x => ex_class x ∈ passing_classes ∧
      (ce_answer ce n = raised x ∨ ∃ raw, ce_answer ce n = returned raw)
  | x_out_of_fuel => False
  end.

Record round_ok ce c n w (out : option Outcome) w' : Prop := {
  ro_count : ∀ t, (count t w' ≤ count t w + if ca_tool_name (cl_args c) ==? t then 1 else 0)%nat;
  ro_fuel : out ≠ Some x_out_of_fuel;
  ro_retry : out = None → Z.of_nat n < rp_max_retries (cl_policy c) ∧ cl_nature c ≠ CallNature.SIDE_EFFECT;
  ro_guarded : out = None ∨ (∃ t, count t w < count t w')%nat →
    guard_stops (cl_args c) w = false ∧
    (on_breaker (ca_tool_name (cl_args c)) (allow_request (ce_allow_now ce n)) w).1 = true ∧
    require_tool_provider_impl (cl_registered c) = None;
  ro_honest : ∀ t o, (count t w < count t w')%nat → cl_nature c = CallNature.SIDE_EFFECT → out = Some o →
    honest_outcome ce c n o
}.

Lemma should_retry_true nature m y n p b :
  _should_retry nature m y n p b = true →
  Z.of_nat n < rp_max_retries p ∧ (nature = CallNature.SIDE_EFFECT → b = false).
Proof.
  unfold _should_retry. destruct (Z.leb_spec (rp_max_retries p) (Z.of_nat n)); [done|].
  case_bool_decide as Hn; [|by split]. by destruct b.
Qed.

Lemma on_breaker_same_breakers {A} t (f : CircuitBreaker → A * CircuitBreaker) w w' :
  sh_breakers (xw_shared w') = sh_breakers (xw_shared w) → (on_breaker t f w').1 = (on_breaker t f w).1.
Proof. unfold on_breaker. intros ->. destruct (registry_get _ _) as [b regs]. by destruct (f b). Qed.

(** A round that ends without a dispatch. *)
Lemma finish_round ce c n r k w w1 o w' :
  (∀ t, count t w1 = count t w) → _finalize ce r k w1 = (o, w') → round_ok ce c n w (Some o) w'.
Proof.
  intros H1 Hf.
  assert (∀ t, count t w' = count t w) as Hc.
  { intros t. rewrite (proj1 (finalize_count t _ _ _ _ _ _ Hf)). apply H1. }
  pose proof (proj2 (finalize_count "" _ _ _ _ _ _ Hf)) as ->.
  split; [intros t; rewrite Hc; lia|done|done| |intros t; rewrite Hc; lia].
  intros [?|[t Ht]]; [done|]. rewrite Hc in Ht. lia.
Qed.

(** A round whose implementation was reached, from the exception it ended with. *)
Lemma exception_round ce c n k x w w1 out w' :
  (∀ t, count t w1 = count t w + if ca_tool_name (cl_args c) ==? t then 1 else 0)%nat →
  guard_stops (cl_args c) w = false →
  (on_breaker (ca_tool_name (cl_args c)) (allow_request (ce_allow_now ce n)) w).1 = true →
  require_tool_provider_impl (cl_registered c) = None →
  (∀ y, ce_answer ce n = raised y → x = y) →
  (ce_answer ce n = cancelled → x = plain_exc TimeoutError "" "") →
  match on_exception ce c n x w1 with
  | (None, w2) => (None, w2)
  | (Some (inl y), w2) => (Some (x_raised y), w2)
  | (Some (inr r), w2) => let '(o, w3) := _finalize ce r k w2 in (Some o, w3)
  end = (out, w') → round_ok ce c n w out w'.
Proof.
  intros Hcount Hg Hb Hreq Hraised Hcan Hout.
  destruct (on_exception ce c n x w1) as [res w2] eqn:Hex.
  pose proof (λ t, on_exception_spec t _ _ _ _ _ _ _ Hex) as Hspec.
  assert (∀ t, count t w2 = count t w + if ca_tool_name (cl_args c) ==? t then 1 else 0)%nat as Hc2
    by (intros t; destruct (Hspec t) as [-> _]; apply Hcount).
  destruct (Hspec "") as [_ Hres]. destruct res as [[y|r]|].
  - injection Hout as <- <-. destruct Hres as [-> Hin].
    split; [intros t; rewrite Hc2; lia|done|done|done|]. intros t o Hlt Hn [= <-]. unfold honest_outcome.
    split; [done|]. destruct (ce_answer ce n) as [raw|y|]; [right; by eexists|left; by rewrite (Hraised y)|].
    rewrite (Hcan eq_refl) in Hin. exfalso. revert Hin. cbn. rewrite !elem_of_cons, elem_of_nil. naive_solver.
  - destruct (_finalize ce r k w2) as [o w3] eqn:Hf. injection Hout as <- <-.
    assert (∀ t, count t w3 = count t w2) as Hc3
      by (intros t; exact (proj1 (finalize_count t _ _ _ _ _ _ Hf))).
    pose proof (proj2 (finalize_count "" _ _ _ _ _ _ Hf)) as ->.
    split; [intros t; rewrite Hc3, Hc2; lia|done|done|done|]. intros t o Hlt Hn [= <-]. specialize (Hres Hn).
    by left.
  - injection Hout as <- <-. destruct Hres as [y [Hlt Hse]%should_retry_true].
    split; [intros t; rewrite Hc2; lia|done| |done|done]. intros _. split; [done|]. intros Hn. by apply Hse in Hn.
Qed.

Lemma call_round_ok ce c n k w out w' : call_round ce c n k w = (out, w') → round_ok ce c n w out w'.
Proof.
  unfold call_round. destruct (guard_stops (cl_args c) w) eqn:Hg.
  { destruct (_finalize _ _ _ _) as [o w3] eqn:Hf. intros [= <- <-]. by eapply finish_round. }
  set (w0 := guard_record (cl_args c) _).
  assert (sh_breakers (xw_shared w0) = sh_breakers (xw_shared w)) as Hbr by (unfold w0; by destruct n).
  assert (∀ t, count t w0 = count t w) as Hc0.
  { intros t. unfold w0. destruct n; [done|]. rewrite (count_log t (emit _ w)) by done.
    rewrite count_emit. lia. }
  pose proof (on_breaker_rest (ca_tool_name (cl_args c)) (allow_request (ce_allow_now ce n)) w0) as (Hlog & _).
  pose proof (on_breaker_same_breakers (ca_tool_name (cl_args c)) (allow_request (ce_allow_now ce n)) w w0 Hbr)
    as Hok.
  destruct (on_breaker _ _ w0) as [ok w2]. cbn [fst snd] in Hlog, Hok.
  assert (∀ t, count t w2 = count t w) as Hc2 by (intros t; by rewrite (count_log t _ _ Hlog)).
  destruct ok; cbn [negb].
  2:{ destruct (_finalize _ _ _ _) as [o w3] eqn:Hf. intros [= <- <-]. by eapply finish_round. }
  destruct (dispatch_once ce c n w2) as [answer w3] eqn:Hd.
  apply dispatch_once_spec in Hd as [(_ & -> & ->)|(Hreq & Hc3 & Hans)].
  { (* no implementation: the exception passes and nothing ran *)
    intros [= <- <-]. split; [intros t; rewrite Hc2; lia|done|done| |intros t; rewrite Hc2; lia].
    intros [?|[t Ht]]; [done|]. rewrite Hc2 in Ht. lia. }
  assert (∀ t, count t w3 = count t w + if ca_tool_name (cl_args c) ==? t then 1 else 0)%nat as Hc3'
    by (intros t; rewrite Hc3, Hc2; done).
  destruct answer as [x|raw].
  { apply exception_round; [done..| |].
    - intros y Hy. rewrite Hy in Hans. by injection Hans.
    - intros Hy. rewrite Hy in Hans. by injection Hans. }
  assert (ce_answer ce n = returned raw) as Hret by (destruct (ce_answer ce n); naive_solver).
  destruct (settle ce c n k raw w3) as [res w4] eqn:Hs.
  pose proof (λ t, settle_spec t _ _ _ _ _ _ _ _ Hs) as Hspec.
  assert (∀ t, count t w4 = count t w + if ca_tool_name (cl_args c) ==? t then 1 else 0)%nat as Hc4
    by (intros t; destruct (Hspec t) as [-> _]; apply Hc3').
  destruct res as [x|o].
  { apply exception_round; [done..| |]; rewrite Hret; done. }
  intros [= <- <-]. destruct (proj2 (Hspec "") o eq_refl) as (r & -> & Hr).
  split; [intros t; rewrite Hc4; lia|done|done|done|]. intros t o _ Hn [= <-].
  unfold honest_outcome. right. exists raw. split; [done|]. by rewrite Hn in Hr.
Qed.

(** ** The loop *)

Lemma call_loop_ok fuel ce c n k w o w' :
  call_loop fuel ce c n k w = (o, w') → (Z.to_nat (rp_max_retries (cl_policy c) - Z.of_nat n) < fuel)%nat →
  o ≠ x_out_of_fuel ∧
  ∀ t, (count t w' ≤ count t w + if ca_tool_name (cl_args c) ==? t
                                 then S (Z.to_nat (rp_max_retries (cl_policy c) - Z.of_nat n)) else 0)%nat.
Proof.
  revert n k w. induction fuel as [|fuel IH]; intros n k w Hrun Hfuel; [lia|]. cbn [call_loop] in Hrun.
  destruct (call_round ce c n k w) as [[o1|] w1] eqn:Hr; apply call_round_ok in Hr as [Hc Hf Hret _ _].
  - injection Hrun as <- <-. split; [congruence|]. intros t. specialize (Hc t). destruct (_ ==? _); lia.
  - destruct (Hret eq_refl) as [Hlt _]. apply IH in Hrun as [Ho Hc']; [|lia]. split; [done|].
    intros t. specialize (Hc t). specialize (Hc' t). destruct (_ ==? _); lia.
Qed.

(** A side effect takes one round. *)
Lemma call_loop_side_effect fuel ce c n k w o w' :
  call_loop (S fuel) ce c n k w = (o, w') → cl_nature c = CallNature.SIDE_EFFECT →
  round_ok ce c n w (Some o) w'.
Proof.
  cbn [call_loop]. destruct (call_round ce c n k w) as [[o1|] w1] eqn:Hr; apply call_round_ok in Hr.
  - by intros [= <- <-] _.
  - intros _ Hn. by destruct (ro_retry _ _ _ _ _ _ Hr eq_refl).
Qed.

(** What guards the first round guards the call; only the tool of the call is dispatched. *)
Lemma call_loop_guarded fuel ce c k w o w' t :
  call_loop fuel ce c 0 k w = (o, w') → (count t w < count t w')%nat →
  guard_stops (cl_args c) w = false ∧
  (on_breaker (ca_tool_name (cl_args c)) (allow_request (ce_allow_now ce 0)) w).1 = true ∧
  require_tool_provider_impl (cl_registered c) = None.
Proof.
  destruct fuel as [|fuel]; cbn [call_loop]; [intros [= <- <-]; lia|].
  destruct (call_round ce c 0 k w) as [[o1|] w1] eqn:Hr; apply call_round_ok in Hr; intros Hrun Hlt;
    apply (ro_guarded _ _ _ _ _ _ Hr); [|by left].
  injection Hrun as <- <-. right. by exists t.
Qed.

Lemma call_loop_own_tool fuel ce c n k w t :
  (count t w < count t (call_loop fuel ce c n k w).2)%nat → ca_tool_name (cl_args c) = t.
Proof.
  revert n k w. induction fuel as [|fuel IH]; intros n k w; cbn [call_loop snd]; [lia|].
  destruct (call_round ce c n k w) as [[o1|] w1] eqn:Hr; apply call_round_ok in Hr as [Hc _ _ _ _];
    specialize (Hc t); cbn [snd]; case_bool_decide; try done; [lia|].
  intros Hlt. apply (IH (S n) (S k) w1). lia.
Qed.

(** ** The whole call *)

Lemma registry_get_known (r : CircuitBreakerRegistry) t b regs :
  registry_get r t = (b, regs) →
  _breakers regs !! t = Some b ∧ reg_failure_threshold regs = reg_failure_threshold r ∧
  reg_recovery_timeout_s regs = reg_recovery_timeout_s r.
Proof.
  unfold registry_get. destruct (_breakers r !! t) as [b0|] eqn:Hb; intros [= <- <-]; [done|].
  cbn. by rewrite lookup_insert_eq.
Qed.

(** Looking the breaker up first changes no answer. *)
Lemma on_breaker_created {A} t (f : CircuitBreaker → A * CircuitBreaker) w :
  (on_breaker t f (on_breaker t (pair tt) w).2).1 = (on_breaker t f w).1.
Proof.
  unfold on_breaker. destruct (registry_get (sh_breakers (xw_shared w)) t) as [b regs] eqn:Hr.
  cbn. unfold registry_get at 1. cbn [_breakers]. rewrite lookup_insert_eq. by destruct (f b).
Qed.

(** The checks before the first round. *)
Record call_checked ce a w (registered : RegisteredTool) (provider : string) : Prop := {
  cc_tool : get_tool (xw_registry w) (ca_tool_name a) = Ok registered;
  cc_nature : derive_call_nature (rt_tool_meta registered) ≠ CallNature.VIRTUAL;
  cc_side_effect : derive_call_nature (rt_tool_meta registered) = CallNature.SIDE_EFFECT →
    side_effect_provider w (rt_tool_meta registered) a = inr provider ∧ rt_submission_ready registered = true;
  cc_budget : ∀ b, ce_budget ce = Some b → bu_check b = None;
  cc_input : validate_input (ce_schemas ce) (xw_registry w) (ca_tool_name a) (ca_params a) = Ok tt
}.

Definition the_call a registered provider : Call :=
  {| cl_args := a; cl_registered := registered; cl_nature := derive_call_nature (rt_tool_meta registered);
     cl_policy := default default_RetryPolicy (ca_retry_policy a); cl_provider := provider |}.

Lemma executor_call_cases ce a w o w' :
  executor_call ce a w = (o, w') →
  (o ≠ x_out_of_fuel ∧ ∀ t, count t w' = count t w) ∨
  ∃ registered provider w0, call_checked ce a w registered provider ∧
    (∀ t, count t w0 = count t w) ∧ xw_registry w0 = xw_registry w ∧
    xw_shared w0 = xw_shared (on_breaker (ca_tool_name a) (pair tt) w).2 ∧
    call_loop (call_fuel (default default_RetryPolicy (ca_retry_policy a))) ce
      (the_call a registered provider) 0 0 w0 = (o, w').
Proof.
  unfold executor_call. destruct (get_tool _ _) as [registered|e] eqn:Hget; [|intros [= <- <-]; by left].
  case_bool_decide as Hv; [intros [= <- <-]; by left|].
  destruct (if _ ==? CallNature.SIDE_EFFECT then _ else _) as [x|provider] eqn:Hp; [intros [= <- <-]; by left|].
  destruct (match ce_budget ce with Some b => bu_check b | None => None end) eqn:Hbu;
    [intros [= <- <-]; by left|].
  destruct (validate_input _ _ _ _) as [[]|e] eqn:Hin; [|intros [= <- <-]; by left].
  set (w1 := (on_breaker (ca_tool_name a) (pair tt) w).2). set (w2 := emit (call_started _) _).
  pose proof (on_breaker_rest (ca_tool_name a) (pair tt) w) as (Hlog & Hreg & _ & _).
  assert (∀ t, count t w2 = count t w) as Hc2.
  { intros t. unfold w2. rewrite count_emit, Nat.add_0_r. rewrite <-(count_log t w w1) by done.
    destruct (ce_audit_ok ce); [rewrite count_emit; lia|done]. }
  destruct (negb (rt_submission_ready registered) && _) eqn:Hready.
  { intros Hf. left. split.
    - by rewrite (proj2 (finalize_count "" _ _ _ _ _ _ Hf)).
    - intros t. by rewrite (proj1 (finalize_count t _ _ _ _ _ _ Hf)). }
  intros Hrun. right. exists registered, provider, w2.
  split; [|split; [done|split; [by unfold w2; destruct (ce_audit_ok ce)|split; [by unfold w2; destruct (ce_audit_ok ce)|done]]]].
  split; [done|done| | |done].
  - intros Hn. rewrite (bool_decide_eq_true_2 _ Hn) in Hp. split; [done|].
    apply andb_false_iff in Hready as [Hr|Hr]; [by apply negb_false_iff in Hr|].
    rewrite Hn in Hr. by vm_compute in Hr.
  - intros b Hb. by rewrite Hb in Hbu.
Qed.

Lemma executor_call_bounded ce a w :
  let p := default default_RetryPolicy (ca_retry_policy a) in
  (executor_call ce a w).1 ≠ x_out_of_fuel ∧
  ∀ t, (count t (executor_call ce a w).2 ≤
        count t w + if ca_tool_name a ==? t then S (Z.to_nat (rp_max_retries p)) else 0)%nat.
Proof.
  intros p. destruct (executor_call ce a w) as [o w'] eqn:Hcall. cbn [fst snd].
  apply executor_call_cases in Hcall as [[Ho Hc]|(registered & provider & w0 & _ & Hc0 & _ & _ & Hrun)].
  - split; [done|]. intros t. rewrite Hc. lia.
  - apply call_loop_ok in Hrun as [Ho Hc]; [|cbn; unfold call_fuel; lia]. split; [done|].
    intros t. specialize (Hc t). rewrite Hc0 in Hc. cbn in Hc. rewrite Z.sub_0_r in Hc. done.
Qed.

(** A tool call always ends, whatever the tool answers: after at most [max_retries] retries of its
    own tool and no dispatch of any other. *)
Theorem tool_call_terminates ce a w :
  let p := default default_RetryPolicy (ca_retry_policy a) in
  (executor_call ce a w).1 ≠ x_out_of_fuel ∧
  ∀ t, (count t (executor_call ce a w).2 ≤
        count t w + if ca_tool_name a ==? t then S (Z.to_nat (rp_max_retries p)) else 0)%nat.
Proof. apply executor_call_bounded. Qed.

(** What a side effect brings along before it may run. *)
Definition side_effect_cleared w a (registered : RegisteredTool) (provider : string) : Prop :=
  truthy_str (ca_action_id a) = true ∧ truthy_str (ca_execution_job_id a) = true ∧
  truthy_str (ca_idempotency_key a) = true ∧
  (∃ b, b ∈ rt_bindings registered ∧ ca_execution_owner a = Some (pb_execution_owner b) ∧
     pb_execution_channel b = ExecutionChannel.TOOL_PROVIDER ∧ pb_provider_name b = provider ∧
     ∀ cap, cap ∈ tm_required_capabilities (rt_tool_meta registered) → cap ∈ pb_capabilities b) ∧
  ∀ jobs, sh_jobs (xw_shared w) = Some jobs →
    ∃ job, js_get_job jobs (default "" (ca_execution_job_id a)) = Some job ∧
      aj_event_id job = ca_event_id a ∧ ca_action_id a = Some (aj_action_id job).

Lemma side_effect_provider_spec w a registered provider :
  get_tool (xw_registry w) (ca_tool_name a) = Ok registered →
  side_effect_provider w (rt_tool_meta registered) a = inr provider →
  side_effect_cleared w a registered provider.
Proof.
  intros Hget. unfold side_effect_provider.
  destruct (_validate_side_effect_envelope a) as [[]|e] eqn:Henv; [|done].
  destruct (ca_execution_owner a) as [owner|] eqn:Howner; [|done].
  destruct (resolve_binding _ _ _ _) as [b|e] eqn:Hb; [|done].
  case_bool_decide as Hch; [cbn [negb]|done].
  destruct (_assert_precreated_job _ _) as [[]|e] eqn:Hjob; [|done]. intros [= <-].
  unfold _validate_side_effect_envelope in Henv. apply raise_if_Ok, negb_false_iff, bool_decide_eq_true in Henv.
  destruct (truthy_str (ca_action_id a)) eqn:H1, (truthy_str (ca_execution_job_id a)) eqn:H2,
    (truthy_str (ca_idempotency_key a)) eqn:H3; try done.
  unfold side_effect_cleared. split_and!; [done..| |].
  - unfold resolve_binding in Hb. rewrite Hget in Hb. cbn in Hb.
    destruct (List.find _ _) as [b'|] eqn:Hf; [injection Hb as ->|done].
    apply find_some in Hf as [Hin [Ho Hcov]%andb_true_iff].
    apply bool_decide_eq_true in Ho as <-. exists b. split_and!; [by apply list_elem_of_In|done..|].
    intros cap Hcap. unfold covers, required_of in Hcov. rewrite app_nil_r in Hcov.
    rewrite forallb_forall in Hcov. apply list_elem_of_In, Hcov in Hcap. by apply bool_decide_eq_true in Hcap.
  - intros jobs Hj. unfold _assert_precreated_job in Hjob. rewrite Hj in Hjob.
    destruct (js_get_job _ _) as [job|]; [|done]. exists job. apply raise_if_Ok in Hjob.
    apply orb_false_iff in Hjob as [He%negb_bool_decide_false Ha%negb_bool_decide_false]. done.
Qed.

(** What holds when the implementation of tool [t] is called. *)
Definition dispatch_cleared ce a w t : Prop :=
  ∃ registered provider, ca_tool_name a = t ∧ get_tool (xw_registry w) t = Ok registered ∧
    require_tool_provider_impl registered = None ∧
    (∀ b, ce_budget ce = Some b → bu_check b = None) ∧
    validate_input (ce_schemas ce) (xw_registry w) t (ca_params a) = Ok tt ∧
    guard_stops a w = false ∧ (on_breaker t (allow_request (ce_allow_now ce 0)) w).1 = true ∧
    (derive_call_nature (rt_tool_meta registered) = CallNature.SIDE_EFFECT →
     rt_submission_ready registered = true ∧ side_effect_cleared w a registered provider).

Lemma dispatch_needs_clearance ce a w o w' t :
  executor_call ce a w = (o, w') → (count t w < count t w')%nat → dispatch_cleared ce a w t.
Proof.
  intros Hcall Hlt.
  apply executor_call_cases in Hcall as [[_ Hc]|(registered & provider & w0 & Hck & Hc0 & Hreg & Hsh & Hrun)];
    [rewrite Hc in Hlt; lia|].
  rewrite <-Hc0 in Hlt.
  assert (ca_tool_name a = t) as <- by (apply (call_loop_own_tool (call_fuel (default default_RetryPolicy
    (ca_retry_policy a))) ce (the_call a registered provider) 0 0 w0); by rewrite Hrun).
  destruct (call_loop_guarded _ _ _ _ _ _ _ _ Hrun Hlt) as (Hg & Hb & Hreq). cbn in Hg, Hb, Hreq.
  destruct Hck as [Hget Hn Hse Hbu Hin]. exists registered, provider. split_and!; [done..| | |].
  - unfold guard_stops in *. rewrite Hsh in Hg.
    by rewrite (proj1 (proj2 (proj2 (on_breaker_rest (ca_tool_name a) (pair tt) w)))) in Hg.
  - rewrite <-on_breaker_created. rewrite <-Hb. symmetry. apply on_breaker_same_breakers. by rewrite Hsh.
  - intros Hnat. destruct (Hse Hnat) as [Hp Hready]. split; [done|]. by apply side_effect_provider_spec.
Qed.

(** An implementation is called only after every check: the tool is registered and executable, the
    budget has room, the input is valid, the convergence guard does not stop the event and the
    breaker of the tool admits the request; a side effect moreover has its action, job and idempotency
    key, a direct provider binding for its owner that covers the required capabilities, and a job
    created for this event and action. *)
Theorem tool_dispatch_guarded ce a w o w' t :
  executor_call ce a w = (o, w') → (count t w < count t w')%nat → dispatch_cleared ce a w t.
Proof. apply dispatch_needs_clearance. Qed.

(** C4. A tool with side effects is dispatched at most once per call, and its outcome is not guessed:
    after a dispatch the call returns what the provider answered or UNKNOWN, never a failure made up
    from a timeout or an error; the only exceptions that pass are those of three classes (wrong
    channel, exceeded budget, soft time limit), raised by the tool or while its answer was settled. *)
Theorem side_effect_at_most_once ce a w o w' registered :
  get_tool (xw_registry w) (ca_tool_name a) = Ok registered →
  derive_call_nature (rt_tool_meta registered) = CallNature.SIDE_EFFECT →
  executor_call ce a w = (o, w') →
  ∀ t, (count t w' ≤ count t w + 1)%nat ∧
    ((count t w < count t w')%nat →
     ∃ provider, side_effect_provider w (rt_tool_meta registered) a = inr provider ∧
       honest_outcome ce (the_call a registered provider) 0 o).
Proof.
  intros Hget Hn Hcall t.
  apply executor_call_cases in Hcall as [[_ Hc]|(registered' & provider & w0 & Hck & Hc0 & _ & _ & Hrun)];
    [rewrite Hc; split; lia|].
  rewrite (cc_tool _ _ _ _ _ Hck) in Hget. injection Hget as ->.
  apply call_loop_side_effect in Hrun as [Hc _ _ _ Hh]; [|done]. rewrite <-Hc0. split.
  - specialize (Hc t). destruct (_ ==? _); lia.
  - intros Hlt. exists provider. split; [by apply (cc_side_effect _ _ _ _ _ Hck)|by eapply Hh].
Qed.

(** ** A probe whose outcome is not recorded *)

Definition breaker_at w t : option CircuitBreaker := _breakers (sh_breakers (xw_shared w)) !! t.

(** Half open, with its one probe under way. *)
Definition wedged w t : Prop :=
  ∃ b, breaker_at w t = Some b ∧ _state b = CircuitState.HALF_OPEN ∧ _half_open_probe_in_flight b = true.

Lemma breaker_on_breaker {A} t (f : CircuitBreaker → A * CircuitBreaker) w b :
  breaker_at w t = Some b →
  (on_breaker t f w).1 = (f b).1 ∧ breaker_at (on_breaker t f w).2 t = Some (f b).2.
Proof.
  unfold breaker_at, on_breaker, registry_get. intros ->. destruct (f b) as [x b']. cbn.
  by rewrite lookup_insert_eq.
Qed.

Lemma breaker_emit ev w t : breaker_at (emit ev w) t = breaker_at w t.
Proof. done. Qed.

Lemma finalize_breaker ce r k w o w' t : _finalize ce r k w = (o, w') → breaker_at w' t = breaker_at w t.
Proof. unfold _finalize. intros [= <- <-]. by destruct (ce_audit_ok ce). Qed.

Lemma wedged_round ce c n k w :
  wedged w (ca_tool_name (cl_args c)) →
  ∃ o w', call_round ce c n k w = (Some o, w') ∧ wedged w' (ca_tool_name (cl_args c)) ∧
    ∀ t, count t w' = count t w.
Proof.
  intros (b & Hb & Hs & Hp). unfold call_round.
  assert (∀ r w1, breaker_at w1 (ca_tool_name (cl_args c)) = Some b → (∀ t, count t w1 = count t w) →
    ∃ o w', (let '(o, w2) := _finalize ce r k w1 in (Some o, w2)) = (Some o, w') ∧
      wedged w' (ca_tool_name (cl_args c)) ∧ ∀ t, count t w' = count t w) as Hfin.
  { intros r w1 Hb1 Hc1. destruct (_finalize ce r k w1) as [o w2] eqn:Hf. exists o, w2. split; [done|]. split.
    - exists b. by rewrite (finalize_breaker _ _ _ _ _ _ _ Hf).
    - intros t. rewrite (proj1 (finalize_count t _ _ _ _ _ _ Hf)). apply Hc1. }
  destruct (guard_stops (cl_args c) w); [by apply Hfin|].
  set (w0 := guard_record (cl_args c) _).
  assert (breaker_at w0 (ca_tool_name (cl_args c)) = Some b) as Hb0 by (unfold w0; by destruct n).
  assert (∀ t, count t w0 = count t w) as Hc0.
  { intros t. unfold w0. destruct n; [done|]. rewrite (count_log t (emit _ w)) by done. rewrite count_emit. lia. }
  destruct (breaker_on_breaker _ (allow_request (ce_allow_now ce n)) _ _ Hb0) as [Hok Hb1].
  pose proof (on_breaker_rest (ca_tool_name (cl_args c)) (allow_request (ce_allow_now ce n)) w0) as (Hlog & _).
  destruct (on_breaker _ _ w0) as [ok w2]. cbn [fst snd] in *.
  unfold allow_request in Hok, Hb1. rewrite Hs, Hp in Hok, Hb1. cbn [fst snd] in Hok, Hb1. subst ok.
  cbn [negb]. apply Hfin; [done|]. intros t. rewrite (count_log t _ _ Hlog). apply Hc0.
Qed.

(** No later call gets through, at any time. *)
Lemma wedged_call ce a w :
  wedged w (ca_tool_name a) →
  wedged (executor_call ce a w).2 (ca_tool_name a) ∧ ∀ t, count t (executor_call ce a w).2 = count t w.
Proof.
  intros Hw. unfold executor_call. destruct (get_tool _ _) as [registered|e]; [|done].
  destruct (_ ==? CallNature.VIRTUAL); [done|]. destruct (if _ ==? CallNature.SIDE_EFFECT then _ else _); [done|].
  destruct (match ce_budget ce with Some b => bu_check b | None => None end); [done|].
  destruct (validate_input _ _ _ _); [|done].
  set (w1 := (on_breaker (ca_tool_name a) (pair tt) w).2). set (w2 := emit (call_started _) _).
  assert (wedged w2 (ca_tool_name a)) as Hw2.
  { destruct Hw as (b & Hb & Hrest). exists b. split; [|done].
    destruct (breaker_on_breaker _ (pair tt) _ _ Hb) as [_ Hb1]. fold w1 in Hb1. cbn [snd] in Hb1.
    unfold w2. by destruct (ce_audit_ok ce). }
  assert (∀ t, count t w2 = count t w) as Hc2.
  { intros t. unfold w2. rewrite count_emit, Nat.add_0_r.
    rewrite <-(count_log t w w1) by apply on_breaker_rest.
    destruct (ce_audit_ok ce); [rewrite count_emit; lia|done]. }
  destruct (negb _ && _).
  { destruct (_finalize _ _ _ _) as [o w3] eqn:Hf. cbn [snd]. split.
    - destruct Hw2 as (b & Hb & Hrest). exists b. by rewrite (finalize_breaker _ _ _ _ _ _ _ Hf).
    - intros t. rewrite (proj1 (finalize_count t _ _ _ _ _ _ Hf)). apply Hc2. }
  unfold call_fuel. cbn [call_loop].
  match goal with |- context [call_round ce ?c 0 0 w2] =>
    destruct (wedged_round ce c 0 0 w2 Hw2) as (o & w3 & -> & Hw3 & Hc3) end.
  cbn [snd]. split; [done|]. intros t. by rewrite Hc3.
Qed.

Lemma wedged_calls t (calls : list (CallEnv (G := G) (J := J) * CallArgs)) w :
  wedged w t → Forall (λ p, ca_tool_name p.2 = t) calls →
  count t (foldl (λ w p, (executor_call p.1 p.2 w).2) w calls) = count t w.
Proof.
  intros Hw Hall. revert w Hw. induction Hall as [|[ce a] calls Ha _ IH]; intros w Hw; [done|].
  cbn [foldl]. cbn in Ha. subst t. destruct (wedged_call ce a w Hw) as [Hw' Hc]. by rewrite IH, Hc.
Qed.

Lemma unrecorded_round ce c w b raw r0 r :
  let t := ca_tool_name (cl_args c) in
  guard_stops (cl_args c) w = false → breaker_at w t = Some b →
  _state b = CircuitState.HALF_OPEN → _half_open_probe_in_flight b = false →
  require_tool_provider_impl (cl_registered c) = None → cl_nature c ≠ CallNature.SIDE_EFFECT →
  ce_budget ce = None → (∀ s, ce_others ce 0 s = s) → ce_answer ce 0 = returned raw →
  ce_parse_result ce raw = Some r0 → tr_status r0 ∉ ok_statuses →
  _coerce_tool_result ce raw t (cl_provider c) (ce_elapsed_ms ce 0) false = inr r →
  tr_status r ∉ ok_statuses → tr_status r ∉ failure_statuses →
  ∃ w', call_round ce c 0 0 w = (Some (x_result r), w') ∧ wedged w' t.
Proof.
  intros t Hg Hb Hs Hp Hreq Hn Hbu Hoth Hans Hparse Hst0 Hr Hst1 Hst2. unfold call_round. rewrite Hg.
  set (w0 := guard_record (cl_args c) w). fold t.
  assert (breaker_at w0 t = Some b) as Hb0 by done.
  destruct (breaker_on_breaker _ (allow_request (ce_allow_now ce 0)) _ _ Hb0) as [Hok Hb1].
  destruct (on_breaker t _ w0) as [ok w2]. cbn [fst snd] in Hok, Hb1.
  unfold allow_request in Hok, Hb1. rewrite Hs, Hp in Hok, Hb1. cbn [fst snd] in Hok, Hb1. subst ok.
  cbn [negb]. unfold dispatch_once. rewrite Hreq, Hans. set (w3 := count_execution _ _ _).
  assert (breaker_at w3 t = breaker_at w2 t) as Hb3.
  { unfold w3, count_execution. cbn [xw_registry on_shared emit]. destruct (dict_get _ _);
      unfold breaker_at, on_shared; cbn; by rewrite Hoth. }
  unfold settle, output_failure. rewrite Hparse, (bool_decide_eq_false_2 (tr_status r0 ∈ _)) by done.
  fold t. rewrite (bool_decide_eq_false_2 (cl_nature c = _)) by done. rewrite Hr.
  unfold record_outcome. rewrite !bool_decide_eq_false_2 by done.
  assert (job_writeback c r w3 = (None, w3)) as ->.
  { unfold job_writeback. rewrite (bool_decide_eq_false_2 (cl_nature c = _)) by done.
    destruct (ca_execution_job_id _); [|done]. by destruct (tr_job_id r). }
  unfold charge_answer. rewrite Hbu. destruct (_finalize ce r 0 w3) as [o w4] eqn:Hf.
  pose proof (proj2 (finalize_count "" _ _ _ _ _ _ Hf)) as ->. exists w4. split; [done|].
  eexists. rewrite (finalize_breaker _ _ _ _ _ _ _ Hf), Hb3, Hb1. by split_and!.
Qed.

(** A breaker can refuse its tool forever: when the probe of a half-open breaker is answered with a
    status that counts neither as success nor as failure (a timeout, an unknown outcome or an
    unsupported operation reported by the provider), nothing is recorded, the probe counts as under way
    from then on, and no later call of the tool is dispatched, however long one waits. *)
Theorem unrecorded_probe_wedges_breaker ce a w registered b raw r0 r calls :
  let t := ca_tool_name a in
  get_tool (xw_registry w) t = Ok registered →
  derive_call_nature (rt_tool_meta registered) = CallNature.QUERY →
  require_tool_provider_impl registered = None → ce_budget ce = None →
  validate_input (ce_schemas ce) (xw_registry w) t (ca_params a) = Ok tt → guard_stops a w = false →
  breaker_at w t = Some b → _state b = CircuitState.HALF_OPEN → _half_open_probe_in_flight b = false →
  (∀ s, ce_others ce 0 s = s) → ce_answer ce 0 = returned raw →
  ce_parse_result ce raw = Some r0 → tr_status r0 ∉ ok_statuses →
  _coerce_tool_result ce raw t "tool_provider" (ce_elapsed_ms ce 0) false = inr r →
  tr_status r ∉ ok_statuses → tr_status r ∉ failure_statuses →
  Forall (λ p, ca_tool_name p.2 = t) calls →
  (executor_call ce a w).1 = x_result r ∧
  count t (foldl (λ w p, (executor_call p.1 p.2 w).2) (executor_call ce a w).2 calls) =
    count t (executor_call ce a w).2.
Proof.
  intros t Hget Hn Hreq Hbu Hin Hg Hb Hs Hp Hoth Hans Hparse Hst0 Hr Hst1 Hst2 Hall.
  assert ((executor_call ce a w).1 = x_result r ∧ wedged (executor_call ce a w).2 t) as [Hout Hw];
    [|split; [done|by apply wedged_calls]].
  clear Hall calls. unfold executor_call. fold t. rewrite Hget, Hn.
  rewrite bool_decide_eq_false_2 by done. rewrite bool_decide_eq_false_2 by done. rewrite Hbu, Hin.
  set (w1 := (on_breaker t (pair tt) w).2). set (w2 := emit (call_started t) _).
  assert (breaker_at w2 t = Some b) as Hb2.
  { destruct (breaker_on_breaker _ (pair tt) _ _ Hb) as [_ Hb1]. fold w1 in Hb1. cbn [snd] in Hb1.
    unfold w2. by destruct (ce_audit_ok ce). }
  rewrite (bool_decide_eq_true_2 (CallNature.QUERY = CallNature.QUERY)) by done. rewrite andb_false_r.
  assert (guard_stops a w2 = false) as Hg2.
  { rewrite <-Hg. unfold guard_stops. pose proof (on_breaker_rest t (pair tt) w) as (_ & _ & Hsg & _).
    fold w1 in Hsg. rewrite <-Hsg. unfold w2. by destruct (ce_audit_ok ce). }
  unfold call_fuel. cbn [call_loop].
  match goal with |- context [call_round ce ?c 0 0 w2] =>
    destruct (unrecorded_round ce c w2 b raw r0 r) as (w3 & -> & Hw); try done end.
Qed.
End facts.
