(* ===== verification/ToolRegistryFacts.v ===== *)
(** * The invariant of the tool registry, and what it means for the executor *)

From stdpp Require Import prelude strings gmap.
From S2P Require Import Prelude Enums Errors Db ExecutionResults ErrorTaxonomy ToolMeta ToolRegistry.
From S2P Require Import Reconcile ConvergenceGuard CircuitBreaker ToolExecutor ToolExecutorFacts.

#[local] Open Scope string_scope.
#[local] Open Scope Z_scope.

(** ** Dicts *)

Lemma elem_of_dict_set {A} (d : list (string * A)) k v p : p ∈ dict_set d k v → p = (k, v) ∨ p ∈ d.
Proof.
  induction d as [|[k0 v0] d IH]; cbn [dict_set].
  - intros Hp%list_elem_of_singleton. by left.
  - case_bool_decide as Hk; [subst k0|].
    + intros [->|Hp]%elem_of_cons; [by left|right; by right].
    + intros [->|Hp]%elem_of_cons; [right; by left|]. destruct (IH Hp); [by left|right; by right].
Qed.

Lemma dict_delete_keys {A} (d : list (string * A)) k : NoDup d.*1 → NoDup (dict_delete d k).*1.
Proof. apply NoDup_fmap_filter. Qed.

(** ** The invariant *)

Record tool_ok (k : string) (r : RegisteredTool) : Prop := {
  tk_name : tm_tool_name (rt_tool_meta r) = k;
  tk_meta : _routing_and_owners_are_consistent (rt_tool_meta r) = Ok (rt_tool_meta r);
  tk_impl : rt_tool_impl r = None ↔ is_virtual (rt_tool_meta r) = true;
  tk_async : ∀ i, rt_tool_impl r = Some i → validate_tool_implementation i = None;
  tk_owners : NoDup (pb_execution_owner <$> rt_bindings r);
  tk_routes : ∀ b, b ∈ rt_bindings r → pb_tool_name b = k ∧ _channel_matches_owner b = Ok b ∧
    _validate_binding_route (rt_tool_meta r) b = Ok tt;
  tk_counts : 0 ≤ rt_error_count r ≤ rt_call_count r
}.

Definition registry_ok (reg : ToolRegistry) : Prop :=
  NoDup reg.*1 ∧ ∀ k r, (k, r) ∈ reg → tool_ok k r.

Lemma get_tool_Ok reg t r : get_tool reg t = Ok r → (t, r) ∈ reg.
Proof.
  unfold get_tool. destruct (dict_get reg t) as [r'|] eqn:Hd; [|done]. intros [= ->].
  by apply dict_get_Some_elem.
Qed.

(** A row set under its own name. *)
Lemma set_tool_ok reg k r : registry_ok reg → tool_ok k r → registry_ok (dict_set reg k r).
Proof.
  intros [Hnd Hall] Hr. split; [by apply dict_set_keys_NoDup|].
  intros k' r' [[= -> ->]|Hin]%elem_of_dict_set; [done|by apply Hall].
Qed.

Lemma new_registered_ok m i :
  _routing_and_owners_are_consistent m = Ok m → (i = None ↔ is_virtual m = true) →
  (∀ j, i = Some j → validate_tool_implementation j = None) → tool_ok (tm_tool_name m) (new_registered m i).
Proof. intros Hm Hi Hj. split; cbn; try done; [constructor|by intros b Hb%elem_of_nil]. Qed.

Lemma register_ok sv reg m i reg' :
  registry_ok reg → _routing_and_owners_are_consistent m = Ok m → register sv reg m i = Ok reg' →
  registry_ok reg'.
Proof.
  intros Hok Hm Hreg. unfold register in Hreg. apply raise_if_seq_Ok in Hreg as [_ Hreg].
  apply raise_if_seq_Ok in Hreg as [Hv1 Hreg]. apply raise_if_seq_Ok in Hreg as [Hv2 Hreg].
  apply unit_seq_Ok in Hreg as [Himpl Hreg]. do 2 (apply unit_seq_Ok in Hreg as [_ Hreg]).
  injection Hreg as <-. apply set_tool_ok; [done|]. apply new_registered_ok; [done| |].
  - destruct (is_virtual m), i; cbn in Hv1, Hv2; naive_solver.
  - intros j ->. unfold implementation_check in Himpl. by destruct (validate_tool_implementation j).
Qed.

Lemma register_binding_ok reg b reg' :
  registry_ok reg → _channel_matches_owner b = Ok b → register_binding reg b = Ok reg' → registry_ok reg'.
Proof.
  intros Hok Hb Hreg. unfold register_binding in Hreg. apply bind_Ok in Hreg as (r & Hget & Hreg).
  apply unit_seq_Ok in Hreg as [Hroute Hreg]. apply raise_if_seq_Ok in Hreg as [Hfree [= <-]].
  apply get_tool_Ok in Hget. apply set_tool_ok; [done|]. destruct (proj2 Hok _ _ Hget) as [].
  split; cbn; try done.
  - rewrite fmap_app. apply NoDup_app. split_and!; [done| |apply NoDup_singleton].
    intros o (x & -> & Hx)%list_elem_of_fmap Ho%list_elem_of_singleton.
    apply not_true_iff_false in Hfree as []. apply existsb_exists. exists x.
    split; [by apply list_elem_of_In|]. by apply bool_decide_eq_true.
  - intros x [Hx| ->%list_elem_of_singleton]%elem_of_app; [by apply tk_routes0|done].
Qed.

Lemma unregister_ok reg t reg' : registry_ok reg → unregister reg t = Ok reg' → registry_ok reg'.
Proof.
  intros [Hnd Hall]. unfold unregister. intros (r & _ & [= <-])%bind_Ok. split; [by apply dict_delete_keys|].
  intros k r' Hin. apply Hall. apply list_elem_of_In, filter_In in Hin as [Hin _]. by apply list_elem_of_In.
Qed.

Lemma load_virtual_ok sv metas reg :
  registry_ok reg → Forall (λ m, _routing_and_owners_are_consistent m = Ok m) metas →
  registry_ok (load_virtual_metas sv reg metas).2.
Proof.
  intros Hok Hms. revert reg Hok. induction Hms as [|m metas Hm _ IH]; intros reg Hok; [done|].
  cbn [load_virtual_metas]. destruct (_ !=? _); [by apply IH|].
  destruct (dict_get reg (tm_tool_name m)); [destruct (_ || _); [done|by apply IH]|].
  destruct (register sv reg m None) as [reg'|e] eqn:Hr; [|done].
  apply register_ok in Hr; [|done..]. specialize (IH reg' Hr). by destruct (load_virtual_metas sv reg' metas).
Qed.

Lemma execute_stats_ok k r a : tool_ok k r → tool_ok k (execute_stats r a).
Proof. intros []. split; destruct a; cbn; try done; lia. Qed.

(** ** Runs of the registry *)

(** One operation; pydantic refuses a meta or a binding that breaks its validator before the call. *)
Inductive rcall : Type :=
| RRegister (m : ToolMeta) (i : option ToolImplementation)
| RBind (b : ProviderToolBinding)
| RUnregister (tool_name : string)
| RLoadVirtual (metas : list ToolMeta)
| RExecute (tool_name : string) (a : Answer).

Definition valid_meta (m : ToolMeta) : bool := is_ok (_routing_and_owners_are_consistent m).

Definition kept (reg : ToolRegistry) (out : result ToolRegistry) : ToolRegistry :=
  match out with Ok reg' => reg' | Err _ => reg end.

Definition rstep (sv : SchemaEnv) (reg : ToolRegistry) (c : rcall) : ToolRegistry :=
  match c with
  | RRegister m i => if valid_meta m then kept reg (register sv reg m i) else reg
  | RBind b => if is_ok (_channel_matches_owner b) then kept reg (register_binding reg b) else reg
  | RUnregister t => kept reg (unregister reg t)
  | RLoadVirtual metas =>
      if forallb valid_meta metas then (load_virtual_metas sv reg metas).2 else reg
  | RExecute t a =>
      match get_tool reg t with Ok r => dict_set reg t (execute_stats r a) | Err _ => reg end
  end.

Lemma valid_meta_Ok m : valid_meta m = true ↔ _routing_and_owners_are_consistent m = Ok m.
Proof.
  unfold valid_meta. split; [|by intros ->]. intros (m' & Hm)%is_ok_true. rewrite Hm. f_equal.
  unfold _routing_and_owners_are_consistent in Hm. do 2 (apply unit_seq_Ok in Hm as [_ Hm]).
  destruct (_ ==? _); [by apply unit_seq_Ok in Hm as [_ [= ->]]|].
  apply unit_seq_Ok in Hm as [_ Hm]. by apply raise_if_seq_Ok in Hm as [_ [= ->]].
Qed.

Lemma valid_binding_Ok b : is_ok (_channel_matches_owner b) = true → _channel_matches_owner b = Ok b.
Proof.
  intros (b' & Hb)%is_ok_true. rewrite Hb. f_equal. unfold _channel_matches_owner in Hb.
  do 2 (apply raise_if_seq_Ok in Hb as [_ Hb]). by injection Hb.
Qed.

Lemma rstep_ok sv reg c : registry_ok reg → registry_ok (rstep sv reg c).
Proof.
  intros Hok. destruct c as [m i|b|t|metas|t a]; cbn [rstep].
  - destruct (valid_meta m) eqn:Hm; [|done]. apply valid_meta_Ok in Hm.
    destruct (register sv reg m i) eqn:Hr; cbn; [by eapply register_ok|done].
  - destruct (is_ok _) eqn:Hb; [|done]. apply valid_binding_Ok in Hb.
    destruct (register_binding reg b) eqn:Hr; cbn; [by eapply register_binding_ok|done].
  - destruct (unregister reg t) eqn:Hr; cbn; [by eapply unregister_ok|done].
  - destruct (forallb valid_meta metas) eqn:Hms; [|done]. apply load_virtual_ok; [done|].
    apply Forall_forall. intros m Hm. apply valid_meta_Ok. rewrite forallb_forall in Hms.
    by apply Hms, list_elem_of_In.
  - destruct (get_tool reg t) as [r|e] eqn:Hget; [|done]. apply get_tool_Ok in Hget.
    apply set_tool_ok; [done|]. by apply execute_stats_ok, Hok.
Qed.

Lemma rrun_ok sv reg calls : registry_ok reg → registry_ok (foldl (rstep sv) reg calls).
Proof.
  revert reg. induction calls as [|c calls IH]; intros reg Hok; [done|]. by apply IH, rstep_ok.
Qed.

Lemma empty_registry_ok : registry_ok [].
Proof. split; [constructor|]. intros k r Hr. by apply elem_of_nil in Hr. Qed.

(** ** What the invariant gives *)

Lemma owner_binding_unique reg t owner caps b :
  registry_ok reg → resolve_binding reg t owner caps = Ok b →
  ∃ r, (t, r) ∈ reg ∧ b ∈ rt_bindings r ∧ pb_execution_owner b = owner ∧
    ∀ b', b' ∈ rt_bindings r → pb_execution_owner b' = owner → b' = b.
Proof.
  intros Hok Hres. unfold resolve_binding in Hres. apply bind_Ok in Hres as (r & Hget & Hres).
  apply get_tool_Ok in Hget. destruct (List.find _ _) as [b0|] eqn:Hf; [injection Hres as ->|done].
  apply find_some in Hf as [Hin [Ho%bool_decide_eq_true _]%andb_true_iff]. apply list_elem_of_In in Hin.
  exists r. split_and!; [done..|]. intros b' Hb' Ho'.
  apply (NoDup_fmap_elem pb_execution_owner (rt_bindings r)); [by apply (proj2 Hok _ _ Hget)|done..|congruence].
Qed.

Lemma available_executable reg cat owner caps m :
  m ∈ list_available_tools reg cat owner caps → is_virtual m = false ∧
  ∃ k r, (k, r) ∈ reg ∧ rt_tool_meta r = m ∧ rt_healthy r = true ∧ is_Some (rt_tool_impl r).
Proof.
  unfold list_available_tools. intros (r & -> & Hr)%list_elem_of_fmap.
  apply list_elem_of_In, filter_In in Hr as [Hr [_ Hav]%andb_true_iff].
  apply list_elem_of_In, list_elem_of_fmap in Hr as ([k r'] & -> & Hin). cbn [snd] in *.
  unfold available_for in Hav. apply andb_true_iff in Hav as [Hav _].
  unfold _registration_view in Hav. cbn [rv_available] in Hav. apply bool_decide_eq_true in Hav.
  repeat (apply app_eq_nil in Hav as [? Hav]).
  destruct (is_virtual (rt_tool_meta r')); [done|]. split; [done|]. exists k, r'.
  destruct (rt_healthy r'); [|done]. destruct (rt_tool_impl r') as [i|]; [|done]. by split_and!.
Qed.

(** C20. Whatever is registered, bound, removed, loaded and executed, in any order, the registry stays
    well-formed: one entry per name, valid metadata, an asynchronous implementation exactly for
    the executable tools, one binding per owner over a channel and a route the tool allows.  So an owner
    resolves to one binding, and only healthy tools with an implementation are offered as available. *)
Theorem registry_well_formed sv calls t owner caps cat owner' :
  let reg := foldl (rstep sv) [] calls in
  registry_ok reg ∧
  (∀ b, resolve_binding reg t owner caps = Ok b →
     ∃ r, (t, r) ∈ reg ∧ b ∈ rt_bindings r ∧ pb_execution_owner b = owner ∧
       ∀ b', b' ∈ rt_bindings r → pb_execution_owner b' = owner → b' = b) ∧
  (∀ m, m ∈ list_available_tools reg cat owner' caps → is_virtual m = false ∧
     ∃ k r, (k, r) ∈ reg ∧ rt_tool_meta r = m ∧ rt_healthy r = true ∧ is_Some (rt_tool_impl r)).
Proof.
  intros reg. assert (registry_ok reg) as Hok by apply rrun_ok, empty_registry_ok.
  split; [done|]. split; [intros b; by apply owner_binding_unique|intros m; apply available_executable].
Qed.

Section executor.
Context {G J : Type} `{GuardPort G} `{JobStore J}.
Implicit Types (w : XWorld (G := G) (J := J)) (ce : CallEnv (G := G) (J := J)).

Lemma side_effect_routed k r :
  tool_ok k r → derive_call_nature (rt_tool_meta r) = CallNature.SIDE_EFFECT →
  is_virtual (rt_tool_meta r) = false ∧ tm_tool_name (rt_tool_meta r) ≠ TERMINAL_DISPOSITION_TOOL ∧
  tm_routing_kind (rt_tool_meta r) = RoutingKind.OWNER_ROUTED.
Proof.
  intros [_ Hm _ _ _ _ _]. set (m := rt_tool_meta r) in *. unfold derive_call_nature.
  destruct (is_virtual m) eqn:Hv; [done|]. intros Hn. split; [done|].
  unfold _routing_and_owners_are_consistent in Hm. do 2 (apply unit_seq_Ok in Hm as [_ Hm]).
  case_bool_decide as Hterm.
  - exfalso. apply unit_seq_Ok in Hm as [Ht _]. unfold terminal_meta_check in Ht.
    apply raise_if_seq_Ok in Ht as [Hd%negb_bool_decide_false _]. unfold is_virtual in Hv.
    rewrite Hd in Hv. done.
  - split; [done|]. apply unit_seq_Ok in Hm as [Hse _].
    assert (tm_tool_category m ∈ [ToolCategory.RESPONSE; ToolCategory.ROLLBACK]) as Hc.
    { destruct (tm_tool_category m); try done; rewrite !elem_of_cons; auto. }
    rewrite (bool_decide_eq_true_2 _ Hc) in Hse. unfold side_effect_meta_check in Hse.
    by apply raise_if_seq_Ok in Hse as [Hr%negb_bool_decide_false _].
Qed.

(** With a well-formed registry the executor runs a side effect only for the owner DIRECT_TOOL, which
    the tool supports: what the source product manages itself, and the terminal disposition, never
    go through a tool provider. *)
Theorem only_direct_side_effects_run ce a w o w' t registered :
  registry_ok (xw_registry w) → executor_call ce a w = (o, w') → (count t w < count t w')%nat →
  get_tool (xw_registry w) t = Ok registered →
  derive_call_nature (rt_tool_meta registered) = CallNature.SIDE_EFFECT →
  ca_execution_owner a = Some ExecutionOwner.DIRECT_TOOL ∧
  ExecutionOwner.DIRECT_TOOL ∈ tm_supported_execution_owners (rt_tool_meta registered) ∧
  t ≠ TERMINAL_DISPOSITION_TOOL.
Proof.
  intros Hok Hcall Hlt Hget Hn.
  destruct (dispatch_needs_clearance _ _ _ _ _ _ Hcall Hlt)
    as (r & provider & Hname & Hget' & _ & _ & _ & _ & _ & Hse).
  rewrite Hget in Hget'. injection Hget' as <-. destruct (Hse Hn) as [_ (_ & _ & _ & (b & Hb & Ho & Hch & _) & _)].
  apply get_tool_Ok in Hget. pose proof (proj2 Hok _ _ Hget) as Htk.
  destruct (side_effect_routed _ _ Htk Hn) as (_ & Hterm & Hrouted).
  destruct (tk_routes _ _ Htk b Hb) as (_ & Hbv & Hroute). rewrite (tk_name _ _ Htk) in Hterm.
  unfold _validate_binding_route in Hroute. rewrite Hrouted in Hroute.
  rewrite (bool_decide_eq_false_2 (RoutingKind.OWNER_ROUTED = _)) in Hroute by done.
  apply raise_if_Ok, negb_false_iff, bool_decide_eq_true in Hroute.
  assert (pb_execution_owner b = ExecutionOwner.DIRECT_TOOL) as Hd.
  { unfold _channel_matches_owner in Hbv. apply raise_if_seq_Ok in Hbv as [_ Hbv].
    apply raise_if_seq_Ok in Hbv as [Hx _]. rewrite Hch in Hx. by destruct (pb_execution_owner b). }
  rewrite Hd in *. done.
Qed.
End executor.
