(* ===== verification/SafeProjection.v ===== *)
(** * Safe projection of tool output (services/safe_tool_projection.py, core/sanitization.py)

    What an agent may see of a tool's result: sanitised, bounded, checked against the schema of the tool
    and scanned for prompt injection.  The redaction inside texts, the size of an encoding, SHA-256 and
    JSON Schema are arguments; the patterns are matched by derivatives. *)

From Stdlib Require Import Ascii.
From stdpp Require Import prelude strings sorting.
From S2P Require Import Prelude Enums Errors ExecutionResults ErrorTaxonomy ToolMeta ToolRegistry ToolExecutor.

#[local] Open Scope string_scope.

Definition DEFAULT_MAX_FIELD_CHARS : nat := N.to_nat 8192.
Definition DEFAULT_MAX_RECORDS : nat := 200.
Definition DEFAULT_MAX_TOTAL_BYTES : nat := N.to_nat 256000.

(** ** Patterns *)

Inductive re : Type :=
| Nothing
| Empty
| Chr (p : ascii → bool)
| Cat (r s : re)
| Alt (r s : re)
| Star (r : re).

Fixpoint nullable (r : re) : bool :=
  match r with
  | Nothing | Chr _ => false
  | Empty | Star _ => true
  | Cat r s => nullable r && nullable s
  | Alt r s => nullable r || nullable s
  end.

(** What is left to match after one character. *)
Fixpoint derivative (c : ascii) (r : re) : re :=
  match r with
  | Nothing | Empty => Nothing
  | Chr p => if p c then Empty else Nothing
  | Cat r s => if nullable r then Alt (Cat (derivative c r) s) (derivative c s) else Cat (derivative c r) s
  | Alt r s => Alt (derivative c r) (derivative c s)
  | Star r => Cat (derivative c r) (Star r)
  end.

(** [r.search(s)]: some part of the text matches. *)
Fixpoint prefix_matches (r : re) (s : string) : bool :=
  nullable r || match s with EmptyString => false | String c s => prefix_matches (derivative c r) s end.

Fixpoint re_search (r : re) (s : string) : bool :=
  prefix_matches r s || match s with EmptyString => false | String _ s => re_search r s end.

(** A word, in either case. *)
Fixpoint word (s : string) : re :=
  match s with
  | EmptyString => Empty
  | String c s => Cat (Chr (λ x, ascii_lower x ==? c)) (word s)
  end.

Definition spaces : re := Star (Chr is_py_space).

Definition some_space : re := Cat (Chr is_py_space) spaces.

Definition re_optional (r : re) : re := Alt Empty r.

Fixpoint re_seq (l : list re) : re :=
  match l with [] => Empty | r :: l => Cat r (re_seq l) end.

Definition prior_instructions (verb : string) : re :=
  re_seq [word verb; some_space; re_optional (re_seq [word "all"; some_space]);
          Alt (word "previous") (word "prior"); some_space; word "instructions"].

Definition _INJECTION_HINT_RE : re :=
  Alt (prior_instructions "ignore")
    (Alt (re_seq [word "ignore"; some_space; word "all"; some_space; word "rules"])
       (Alt (prior_instructions "disregard") (re_seq [word "system"; spaces; word ":"; spaces]))).

Definition _contains_injection_hint (value : string) : bool := re_search _INJECTION_HINT_RE value.

(** ** Redaction (core/sanitization.py) *)

Definition REDACTED : string := "[REDACTED]".

Definition sep : re := re_optional (Alt (word "_") (word "-")).

Fixpoint re_any (l : list re) : re :=
  match l with [] => Nothing | r :: l => Alt r (re_any l) end.

Definition _SENSITIVE_KEY_RE : re :=
  re_any [word "password"; word "passwd"; word "pwd"; word "secret"; word "token"; word "authorization";
          re_seq [word "api"; sep; word "key"]; re_seq [word "access"; sep; word "key"];
          re_seq [word "auth"; sep; word "code"]; word "cookie"; word "credential";
          re_seq [word "private"; sep; word "key"]; re_seq [word "session"; sep; word "id"];
          re_seq [word "raw"; sep; Alt (word "result") (word "payload")]].

Definition is_sensitive_key (key : string) : bool := re_search _SENSITIVE_KEY_RE key.

Definition max_depth : nat := 32.

(** [redact]: the redaction of credentials inside a text; [depth]: the levels left. *)
Fixpoint sanitize_item (redact : string → string) (v : pyval) (depth : nat) : pyval :=
  match depth with
  | O => VStr REDACTED
  | S depth =>
      match v with
      | VDict d =>
          VDict ((fix go d := match d with
                              | [] => []
                              | (k, x) :: d =>
                                  (k, if is_sensitive_key k then VStr REDACTED
                                      else sanitize_item redact x depth) :: go d
                              end) d)
      | VList l =>
          VList ((fix go l := match l with [] => [] | x :: l => sanitize_item redact x depth :: go l end) l)
      | VStr s => VStr (redact s)
      | _ => v
      end
  end.

(** Depths 0 to [max_depth] are looked into. *)
Definition sanitize_data (redact : string → string) (v : pyval) : pyval := sanitize_item redact v (S max_depth).

(** ** The projection *)

Record SafeToolProjection : Type := {
  sp_tool_name : string;
  sp_status : string;
  sp_data : list (string * pyval);
  sp_provenance : list (string * pyval);
  sp_trust_level : string;
  sp_taint_flags : list string;
  sp_projection_hash : string
}.

Record ProjectionEnv : Type := {
  pj_max_field_chars : nat;
  pj_max_records : nat;
  pj_max_total_bytes : nat;
  pj_redact : string → string;
  pj_encoded_length : list (string * pyval) → nat;
  pj_hash : list (string * pyval) → string;
  pj_schema_valid : string → list (string * pyval) → bool
}.

Section projection.
Context (pj : ProjectionEnv).

Definition _truncate_scalar (v : pyval) : pyval :=
  match v with
  | VStr s =>
      let cleaned := str_take (pj_max_field_chars pj) s in
      VStr (if _contains_injection_hint cleaned then str_take 512 cleaned else cleaned)
  | _ => v
  end.

(** One value of a mapping. *)
Fixpoint truncate_value (v : pyval) : pyval :=
  match v with
  | VStr s => VStr (str_take (pj_max_field_chars pj) s)
  | VList l => VList (take (pj_max_records pj) l)
  | VDict d =>
      VDict ((fix go d := match d with [] => [] | (k, x) :: d => (k, truncate_value x) :: go d end) d)
  | _ => v
  end.

Definition _truncate_mapping (d : list (string * pyval)) : list (string * pyval) :=
  (λ p, (p.1, truncate_value p.2)) <$> d.

Definition truncate_record (r : pyval) : pyval :=
  match r with VDict d => VDict (_truncate_mapping d) | _ => r end.

(** [len(bounded.get("records") or [])]; a number or a true flag has no length. *)
Definition record_count (d : list (string * pyval)) : exc + Z :=
  match dict_get d "records" with
  | None | Some VNone | Some (VBool false) | Some (VInt 0) => inr 0%Z
  | Some (VStr s) => inr (Z.of_nat (String.length s))
  | Some (VList l) => inr (Z.of_nat (length l))
  | Some (VDict d) => inr (Z.of_nat (length d))
  | Some _ => inl (plain_exc OtherError "object has no len()" "")
  end.

Definition summary_limit : nat := 32.

Definition _bound_payload (v : pyval) : exc + list (string * pyval) :=
  match v with
  | VDict d =>
      let d := match dict_get d "records" with
               | Some (VList rs) =>
                   dict_set d "records" (VList (truncate_record <$> take (pj_max_records pj) rs))
               | _ => d
               end in
      let bounded := _truncate_mapping d in
      if (pj_encoded_length pj bounded <=? pj_max_total_bytes pj)%nat then inr bounded
      else match record_count bounded with
           | inl x => inl x
           | inr n =>
               inr [("truncated", VBool true);
                    ("summary_keys",
                     VList (VStr <$> take summary_limit (merge_sort string_le (dict_keys bounded))));
                    ("record_count", VInt n)]
           end
  | _ => inr [("value", _truncate_scalar v)]
  end.

Definition schema_failed (m : ToolMeta) (d : list (string * pyval)) : bool :=
  (tm_output_schema m !=? "") && negb (pj_schema_valid pj (tm_output_schema m) d).

Fixpoint _scan_injection_hints (v : pyval) : bool :=
  match v with
  | VStr s => _contains_injection_hint s
  | VDict d => (fix go d := match d with [] => false | (_, x) :: d => _scan_injection_hints x || go d end) d
  | VList l => (fix go l := match l with [] => false | x :: l => _scan_injection_hints x || go l end) l
  | _ => false
  end.

Definition flags_of (r : ToolResult) (failed : bool) (data : list (string * pyval)) : list string :=
  ((if failed then ["schema_validation_failed"] else []) ++
   (if _scan_injection_hints (VDict data) then ["prompt_injection_suspect"] else []) ++
   (if tr_status r ∈? ok_statuses then [] else ["tool_status:" +++ enum_value (tr_status r)]))%list.

Definition project (reg : ToolRegistry) (tool_name : string) (r : ToolResult) (grant_id attempt_id : string) :
    exc + SafeToolProjection :=
  match get_tool reg tool_name with
  | Err e => inl (exc_of_error e)
  | Ok registered =>
      match _bound_payload (sanitize_data (pj_redact pj) (VDict (tr_data r))) with
      | inl x => inl x
      | inr bounded =>
          let failed := schema_failed (rt_tool_meta registered) bounded in
          let data := if failed then [] else bounded in
          let flags := flags_of r failed data in
          inr {| sp_tool_name := tool_name; sp_status := enum_value (tr_status r); sp_data := data;
                 sp_provenance := [("grant_id", VStr grant_id); ("attempt_id", VStr attempt_id);
                                   ("provider_name", VStr (tr_provider_name r));
                                   ("call_id", VStr (tr_call_id r))];
                 sp_trust_level := if bool_decide (flags = []) then "verified" else "untrusted";
                 sp_taint_flags := flags;
                 sp_projection_hash :=
                   pj_hash pj [("tool_name", VStr tool_name); ("status", VStr (enum_value (tr_status r)));
                               ("data", VDict data); ("grant_id", VStr grant_id);
                               ("attempt_id", VStr attempt_id)] |}
      end
  end.
End projection.

Arguments is_sensitive_key : simpl never.
Arguments _contains_injection_hint : simpl never.

(** ** Patterns mean what they say *)

Inductive lang : re → string → Prop :=
| lang_empty : lang Empty ""
| lang_chr p c : p c = true → lang (Chr p) (String c "")
| lang_cat r s x y : lang r x → lang s y → lang (Cat r s) (x +++ y)
| lang_left r s x : lang r x → lang (Alt r s) x
| lang_right r s x : lang s x → lang (Alt r s) x
| lang_stop r : lang (Star r) ""
| lang_more r x y : lang r x → lang (Star r) y → lang (Star r) (x +++ y).

Lemma append_nil (x y : string) : x +++ y = "" → x = "" ∧ y = "".
Proof. by destruct x. Qed.

Lemma nullable_lang r : nullable r = true ↔ lang r "".
Proof.
  induction r as [| |p|r IHr s IHs|r IHr s IHs|r IHr]; cbn; split; intros Hx; try done; try by constructor.
  - inversion Hx.
  - inversion Hx.
  - apply andb_true_iff in Hx as [H1%IHr H2%IHs]. exact (lang_cat r s "" "" H1 H2).
  - inversion Hx as [| |r' s' x y Hr Hs He E| | | |]; subst. apply append_nil in E as [-> ->].
    apply andb_true_iff. split; [by apply IHr|by apply IHs].
  - apply orb_true_iff in Hx as [H1%IHr|H2%IHs]; [by constructor|by apply lang_right].
  - inversion Hx; subst; apply orb_true_iff; [left; by apply IHr|right; by apply IHs].
Qed.

Lemma star_step r c s : lang (Star r) (String c s) → ∃ x y, s = x +++ y ∧ lang r (String c x) ∧ lang (Star r) y.
Proof.
  intros H. remember (Star r) as q eqn:Hq. remember (String c s) as z eqn:Hz. revert s Hz.
  induction H as [| | | | | |r' x y Hx _ Hy IH]; try done. injection Hq as ->. intros s Hz.
  destruct x as [|c' x]; [by apply IH|]. injection Hz as -> <-. exists x, y. done.
Qed.

Lemma derivative_lang c r s : lang (derivative c r) s ↔ lang r (String c s).
Proof.
  revert s. induction r as [| |p|r1 IH1 r2 IH2|r1 IH1 r2 IH2|r IH]; intros s; cbn [derivative].
  - split; inversion 1.
  - split; inversion 1.
  - destruct (p c) eqn:Hp; split; inversion 1; subst; [by constructor|constructor|congruence].
  - assert (lang (Cat (derivative c r1) r2) s → lang (Cat r1 r2) (String c s)) as Hfst.
    { inversion 1; subst. apply (lang_cat r1 r2 (String c x) y); [by apply IH1|done]. }
    assert (lang (Cat r1 r2) (String c s) →
      lang (Cat (derivative c r1) r2) s ∨ nullable r1 = true ∧ lang (derivative c r2) s) as Hsnd.
    { inversion 1 as [| |r' s' x y Hx Hy He E| | | |]; subst. destruct x as [|c' x].
      - right. split; [by apply nullable_lang|]. apply IH2. by rewrite <-E.
      - injection E as -> <-. left. constructor; [by apply IH1|done]. }
    destruct (nullable r1) eqn:Hn; [|naive_solver]. split.
    + inversion 1; subst; [by apply Hfst|]. apply (lang_cat r1 r2 "" (String c s)); [by apply nullable_lang|by apply IH2].
    + intros [Hl|[_ Hr]]%Hsnd; [by constructor|by apply lang_right].
  - split; inversion 1; subst; [apply lang_left|apply lang_right|apply lang_left|apply lang_right];
      first [by apply IH1|by apply IH2].
  - split.
    + inversion 1; subst. apply (lang_more r (String c x) y); [by apply IH|done].
    + intros (x & y & -> & Hx & Hy)%star_step. constructor; [by apply IH|done].
Qed.

Lemma prefix_matches_lang s r : prefix_matches r s = true ↔ ∃ x y, s = x +++ y ∧ lang r x.
Proof.
  revert r. induction s as [|c s IH]; intros r; cbn [prefix_matches].
  - rewrite orb_false_r, nullable_lang. split; [by exists "", ""|].
    intros (x & y & E & Hx). symmetry in E. by apply append_nil in E as [-> _].
  - rewrite orb_true_iff, nullable_lang, IH. split.
    + intros [Hn|(x & y & -> & Hx%derivative_lang)]; [by exists "", (String c s)|by exists (String c x), y].
    + intros (x & y & E & Hx). destruct x as [|c' x]; [by left|]. injection E as -> ->. right.
      exists x, y. split; [done|]. by apply derivative_lang.
Qed.

(** A search succeeds exactly when some part of the text is in the language of the pattern. *)
Lemma re_search_lang s r : re_search r s = true ↔ ∃ x y z, s = x +++ y +++ z ∧ lang r y.
Proof.
  induction s as [|c s IH]; cbn [re_search]; rewrite orb_true_iff, prefix_matches_lang.
  - split; [intros [(x & y & E & Hx)|]; [by exists "", x, y|done]|].
    intros (x & y & z & E & Hy). symmetry in E. apply append_nil in E as [-> E].
    left. by exists y, z.
  - rewrite IH. split.
    + intros [(x & y & E & Hx)|(x & y & z & -> & Hy)]; [by exists "", x, y|by exists (String c x), y, z].
    + intros (x & y & z & E & Hy). destruct x as [|c' x]; [left; by exists y, z|].
      injection E as -> ->. right. by exists x, y, z.
Qed.

(** ** What a projection shows *)

(** Texts inside a value; keys are not scanned. *)
Inductive text_in (s : string) : pyval → Prop :=
| text_here : text_in s (VStr s)
| text_list l v : v ∈ l → text_in s v → text_in s (VList l)
| text_dict d k v : (k, v) ∈ d → text_in s v → text_in s (VDict d).

Lemma scan_spec v : _scan_injection_hints v = true ↔ ∃ s, text_in s v ∧ _contains_injection_hint s = true.
Proof.
  induction v as [|b|z|s|l IH|d IH] using pyval_nested_ind; cbn [_scan_injection_hints];
    try (split; [done|intros (s & Hs & _); by inversion Hs]).
  - split; [intros Hs; exists s; by split; [constructor|]|]. intros (s' & Hs & Hh). by inversion Hs; subst.
  - transitivity (∃ v, v ∈ l ∧ _scan_injection_hints v = true).
    + clear IH. induction l as [|x l IHl]; [split; [done|intros (v & Hv & _); by apply elem_of_nil in Hv]|].
      rewrite orb_true_iff, IHl. split.
      * intros [Hx|(v & Hv & Hs)]; [by exists x; split; [left|]|by exists v; split; [right|]].
      * intros (v & [->|Hv]%elem_of_cons & Hs); [by left|right; by exists v].
    + rewrite Forall_forall in IH. split.
      * intros (v & Hv & (s & Hs & Hh)%IH); [|done]. exists s. split; [by eapply text_list|done].
      * intros (s & Hs & Hh). inversion Hs; subst. exists v. split; [done|]. apply IH; [done|by exists s].
  - transitivity (∃ kv, kv ∈ d ∧ _scan_injection_hints kv.2 = true).
    + clear IH. induction d as [|[k x] d IHl]; [split; [done|intros (v & Hv & _); by apply elem_of_nil in Hv]|].
      rewrite orb_true_iff, IHl. split.
      * intros [Hx|(v & Hv & Hs)]; [by exists (k, x); split; [left|]|by exists v; split; [right|]].
      * intros (v & [->|Hv]%elem_of_cons & Hs); [by left|right; by exists v].
    + rewrite Forall_forall in IH. split.
      * intros ([k v] & Hv & Hs). apply IH in Hs as (s & Hs & Hh); [|done]. exists s.
        split; [by eapply text_dict|done].
      * intros (s & Hs & Hh). inversion Hs; subst. exists (k, v). split; [done|].
        apply (IH (k, v)); [done|by exists s].
Qed.

(** Every secret-bearing key holds the replacement. *)
Inductive no_secret : pyval → Prop :=
| ns_none : no_secret VNone
| ns_bool b : no_secret (VBool b)
| ns_int z : no_secret (VInt z)
| ns_str s : no_secret (VStr s)
| ns_list l : Forall no_secret l → no_secret (VList l)
| ns_dict d : Forall (λ kv, (is_sensitive_key kv.1 = true → kv.2 = VStr REDACTED) ∧ no_secret kv.2) d →
    no_secret (VDict d).

Lemma sanitize_no_secret redact v n : no_secret (sanitize_item redact v n).
Proof.
  revert n. induction v as [|b|z|s|l IH|d IH] using pyval_nested_ind; intros [|n]; cbn [sanitize_item];
    try constructor; rewrite Forall_forall in IH.
  - induction l as [|x l IHl]; [constructor|]. constructor; [apply IH; by left|].
    apply IHl. intros y Hy. apply IH. by right.
  - induction d as [|[k x] d IHl]; [constructor|]. constructor.
    + cbn. split; [by intros ->|]. destruct (is_sensitive_key k); [constructor|].
      apply (IH (k, x)). by left.
    + apply IHl. intros y Hy. apply IH. by right.
Qed.

Lemma no_secret_dict d :
  no_secret (VDict d) ↔ Forall (λ kv, (is_sensitive_key kv.1 = true → kv.2 = VStr REDACTED) ∧ no_secret kv.2) d.
Proof. split; [by inversion 1|by constructor]. Qed.

Section facts.
Context (pj : ProjectionEnv).
Hypothesis room_for_replacement : (String.length REDACTED <= pj_max_field_chars pj)%nat.

Lemma truncate_redacted : truncate_value pj (VStr REDACTED) = VStr REDACTED.
Proof. cbn [truncate_value]. by rewrite str_take_all. Qed.

Lemma truncate_no_secret v : no_secret v → no_secret (truncate_value pj v).
Proof.
  induction v as [|b|z|s|l IH|d IH] using pyval_nested_ind; intros Hv; cbn [truncate_value]; try constructor.
  - inversion Hv; subst. by apply Forall_take.
  - apply no_secret_dict in Hv. rewrite Forall_forall in IH, Hv.
    induction d as [|[k x] d IHl]; [constructor|]. constructor.
    + destruct (Hv (k, x)) as [Hk Hx]; [by left|]. cbn in *. split.
      * intros Hs. rewrite (Hk Hs). apply truncate_redacted.
      * apply (IH (k, x)); [by left|done].
    + apply IHl; intros y Hy; [apply IH|apply Hv]; by right.
Qed.

Lemma truncate_mapping_no_secret d : no_secret (VDict d) → no_secret (VDict (_truncate_mapping pj d)).
Proof.
  intros Hd. apply no_secret_dict in Hd. constructor. unfold _truncate_mapping. apply Forall_fmap.
  eapply Forall_impl; [exact Hd|]. intros [k v] [Hk Hv]. cbn in *. split.
  - intros Hs. rewrite (Hk Hs). apply truncate_redacted.
  - by apply truncate_no_secret.
Qed.

Lemma dict_get_no_secret d k v : no_secret (VDict d) → dict_get d k = Some v → no_secret v.
Proof.
  intros Hd%no_secret_dict. induction d as [|[k0 v0] d IH]; [done|]. apply Forall_cons in Hd as [[_ H0] Hd].
  cbn. case_bool_decide; [by intros [= <-]|by apply IH].
Qed.

Lemma dict_set_no_secret d k v :
  no_secret (VDict d) → no_secret v → is_sensitive_key k = false → no_secret (VDict (dict_set d k v)).
Proof.
  intros Hd%no_secret_dict Hv Hk. constructor. induction d as [|[k0 v0] d IH]; cbn.
  - constructor; [|constructor]. cbn. by rewrite Hk.
  - apply Forall_cons in Hd as [H0 Hd]. case_bool_decide; constructor; auto. cbn. subst. by rewrite Hk.
Qed.

Lemma plain_entry k v d :
  is_sensitive_key k = false → no_secret v → no_secret (VDict d) → no_secret (VDict ((k, v) :: d)).
Proof. intros Hk Hv Hd%no_secret_dict. constructor. constructor; [|done]. cbn. by rewrite Hk. Qed.

Lemma bound_no_secret v d : no_secret v → _bound_payload pj v = inr d → no_secret (VDict d).
Proof.
  intros Hv. unfold _bound_payload. destruct v as [|b|z|s|l|d0];
    try (intros [= <-]; apply plain_entry; [by vm_compute|first [exact Hv|constructor]|constructor; constructor]).
  set (d1 := match dict_get d0 "records" with Some _ => _ | None => _ end).
  assert (no_secret (VDict d1)) as Hd1.
  { unfold d1. destruct (dict_get d0 "records") as [v|] eqn:Hr; [|done]. destruct v as [| | | |rs|]; try done.
    apply dict_set_no_secret; [done| |by vm_compute]. apply dict_get_no_secret in Hr; [|done].
    inversion Hr as [| | | |l Hl|]; subst. constructor. apply Forall_fmap.
    eapply Forall_impl; [by apply Forall_take|]. intros x Hx. destruct x; try done.
    by apply truncate_mapping_no_secret. }
  apply truncate_mapping_no_secret in Hd1. destruct (_ <=? _)%nat; [by intros [= <-]|].
  destruct (record_count _) as [x|n]; [done|]. intros [= <-].
  apply plain_entry; [by vm_compute|constructor|].
  apply plain_entry; [by vm_compute|constructor; apply Forall_fmap, Forall_true; intros; constructor|].
  apply plain_entry; [by vm_compute|constructor|constructor; constructor].
Qed.

Lemma bound_size d0 d : _bound_payload pj (VDict d0) = inr d →
  (pj_encoded_length pj d <= pj_max_total_bytes pj)%nat ∨
  ∃ keys n, (length keys <= 32)%nat ∧
    d = [("truncated", VBool true); ("summary_keys", VList (VStr <$> keys)); ("record_count", VInt n)].
Proof.
  unfold _bound_payload. set (bounded := _truncate_mapping pj _).
  destruct (Nat.leb_spec (pj_encoded_length pj bounded) (pj_max_total_bytes pj)); [intros [= <-]; by left|].
  destruct (record_count bounded) as [x|n]; [done|]. intros [= <-]. right. eexists _, n. split; [|done].
  rewrite length_take. unfold summary_limit. lia.
Qed.
End facts.

(** C21. What a projection shows of a tool's result: no key that names a secret, at any depth, holds
    anything but the replacement; the data is within the size limit, or withheld, or replaced by a
    summary of at most 32 keys; and it is marked as verified exactly when nothing is flagged, in which
    case it satisfies the output schema of the tool, none of its texts carries an injection hint, and the
    call succeeded. *)
Theorem projection_is_safe pj reg tool_name r grant_id attempt_id p registered :
  (String.length REDACTED <= pj_max_field_chars pj)%nat →
  get_tool reg tool_name = Ok registered →
  project pj reg tool_name r grant_id attempt_id = inr p →
  no_secret (VDict (sp_data p)) ∧
  ((pj_encoded_length pj (sp_data p) <= pj_max_total_bytes pj)%nat ∨ sp_data p = [] ∨
   ∃ keys n, (length keys <= 32)%nat ∧
     sp_data p = [("truncated", VBool true); ("summary_keys", VList (VStr <$> keys)); ("record_count", VInt n)]) ∧
  (sp_trust_level p = "verified" ↔ sp_taint_flags p = []) ∧
  (sp_trust_level p = "verified" →
   schema_failed pj (rt_tool_meta registered) (sp_data p) = false ∧
   (∀ s, text_in s (VDict (sp_data p)) → _contains_injection_hint s = false) ∧ tr_status r ∈ ok_statuses).
Proof.
  intros Hroom Hget Hp. unfold project in Hp. rewrite Hget in Hp.
  destruct (_bound_payload pj _) as [x|bounded] eqn:Hb; [done|]. injection Hp as <-.
  cbn [sp_data sp_trust_level sp_taint_flags].
  set (failed := schema_failed pj (rt_tool_meta registered) bounded).
  set (flags := flags_of r failed _).
  assert ((if bool_decide (flags = []) then "verified" else "untrusted") = "verified" ↔ flags = []) as Hflags
    by (case_bool_decide; naive_solver).
  split_and!; [| |done|].
  - destruct failed; [constructor; constructor|].
    exact (bound_no_secret pj Hroom _ _ (sanitize_no_secret _ _ _) Hb).
  - destruct failed; [by right; left|]. destruct (bound_size pj Hroom _ _ Hb) as [Hs|Hs]; [by left|by right; right].
  - rewrite Hflags. intros Hnil. unfold flags, flags_of in Hnil.
    apply app_eq_nil in Hnil as [Hf Hnil]. apply app_eq_nil in Hnil as [Hi Hs].
    destruct failed eqn:Hfailed; [done|]. split_and!; [done| |].
    + intros s Hs'. apply not_true_iff_false. intros Hh.
      assert (_scan_injection_hints (VDict bounded) = true) as Hscan by (apply scan_spec; by exists s).
      by rewrite Hscan in Hi.
    + by case_bool_decide.
Qed.
