(* ===== verification/Lease.v ===== *)
(** * The lease of a running investigation (orchestration/lease.py)

    One Redis key per event holds the identity of the worker that orchestrates it.  Redis is behind
    the interface [RedisKeys], whose laws state the documented behaviour of its commands; one
    instance satisfies them.  Every command is atomic, and an operation that sends two commands
    leaves room for other workers in between. *)

From stdpp Require Import prelude strings gmap.
From S2P Require Import Prelude Enums Errors.

#[local] Open Scope string_scope.
#[local] Open Scope Z_scope.

Definition LEASE_KEY_PREFIX : string := "shadowtrace:lease:event:".
Definition DEFAULT_LEASE_TTL_S : Z := 600.
Definition RENEW_INTERVAL_S : Z := 60.

Definition _lease_key (event_id : string) : string := LEASE_KEY_PREFIX +++ event_id.

(** ** Redis *)

(** Commands take the server's clock. *)
Class RedisKeys (R : Type) : Type := {
  (** the stored value and its deadline, expired or not *)
  r_entry : R → string → option (string * Z);
  r_get : Z → R → string → option string;
  r_set_nx_ex : Z → R → string → string → Z → bool * R;
  r_expire : Z → R → string → Z → bool * R;
  r_del : Z → R → string → Z * R
}.

Definition live_entry {R} `{RedisKeys R} (now : Z) (r : R) (k : string) : option (string * Z) :=
  match r_entry r k with Some (v, d) => if now <? d then Some (v, d) else None | None => None end.

Definition others_kept {R} `{RedisKeys R} (r r' : R) (k : string) : Prop :=
  ∀ k', k' ≠ k → r_entry r' k' = r_entry r k'.

(** GET answers the value of a key that has not expired; SET NX EX writes only an absent key; EXPIRE
    moves the deadline of a present key; DEL removes a present key and counts it. *)
Class RedisLaws (R : Type) `{RedisKeys R} : Prop := {
  get_live : ∀ now r k, r_get now r k = fst <$> live_entry now r k;
  set_present : ∀ now r k v ttl x, live_entry now r k = Some x → r_set_nx_ex now r k v ttl = (false, r);
  set_absent : ∀ now r k v ttl, live_entry now r k = None → ∃ r',
    r_set_nx_ex now r k v ttl = (true, r') ∧ r_entry r' k = Some (v, now + ttl) ∧ others_kept r r' k;
  expire_present : ∀ now r k ttl v d, live_entry now r k = Some (v, d) → ∃ r',
    r_expire now r k ttl = (true, r') ∧ r_entry r' k = Some (v, now + ttl) ∧ others_kept r r' k;
  expire_absent : ∀ now r k ttl, live_entry now r k = None → r_expire now r k ttl = (false, r);
  del_present : ∀ now r k x, live_entry now r k = Some x → ∃ r',
    r_del now r k = (1, r') ∧ r_entry r' k = None ∧ others_kept r r' k;
  del_absent : ∀ now r k, live_entry now r k = None → r_del now r k = (0, r)
}.

(** What a worker sees of the connection. *)
Inductive Net : Type :=
| connected
| no_client
| lost_before (e : error)
| lost_after (e : error).

(** A command over the connection: without an answer its effect may or may not have happened. *)
Definition over_net {R A} (n : Net) (r : R) (out : A * R) : result A * R :=
  match n with
  | lost_before e => (Err e, r)
  | lost_after e => (Err e, out.2)
  | _ => (Ok out.1, out.2)
  end.

(** ** EventLease *)

Section lease.
Context {R : Type} `{RedisKeys R}.

Definition lease_store_unavailable (event_id : string) (extra : list (string * pyval)) : error :=
  ShadowTraceError_init DependencyUnavailableError "event lease store unavailable"
    (Some "dependency_unavailable")
    ([("event_id", VStr event_id); ("dependency", VStr "redis")] ++ extra)%list.

Definition lease_acquire (n : Net) (now : Z) (r : R) (event_id owner_id : string) (ttl_s : Z) :
    result bool * R :=
  match n with
  | no_client => (Err (lease_store_unavailable event_id []), r)
  | _ => over_net n r (r_set_nx_ex now r (_lease_key event_id) owner_id ttl_s)
  end.

(** The first command of a renewal: whether to go on. *)
Definition renew_check (n : Net) (now : Z) (r : R) (event_id owner_id : string) : result bool :=
  match n with
  | no_client => Err (lease_store_unavailable event_id [("operation", VStr "renew")])
  | lost_before e | lost_after e => Err e
  | connected =>
      Ok match r_get now r (_lease_key event_id) with
         | None => false
         | Some current => current ==? owner_id
         end
  end.

(** The second command; its answer is not looked at. *)
Definition renew_extend (n : Net) (now : Z) (r : R) (event_id : string) : result bool * R :=
  let '(ok, r) := over_net n r (r_expire now r (_lease_key event_id) DEFAULT_LEASE_TTL_S) in
  (ok ≫= λ _, Ok true, r).

(** [others]: what other workers do between the two commands. *)
Definition lease_renew (n n' : Net) (now now' : Z) (r : R) (event_id owner_id : string)
    (others : R → R) : result bool * R :=
  match renew_check n now r event_id owner_id with
  | Err e => (Err e, r)
  | Ok false => (Ok false, r)
  | Ok true => renew_extend n' now' (others r) event_id
  end.

(** The Lua script, one atomic command: 1 deleted, 0 another owner, -1 absent. *)
Definition _RELEASE_SCRIPT (now : Z) (r : R) (key owner_id : string) : Z * R :=
  match r_get now r key with
  | None => (-1, r)
  | Some val => if val ==? owner_id then r_del now r key else (0, r)
  end.

Definition lease_release (n : Net) (now : Z) (r : R) (event_id owner_id : string) :
    result bool * R :=
  match n with
  | no_client => (Ok false, r)
  | _ =>
      let '(code, r) := over_net n r (_RELEASE_SCRIPT now r (_lease_key event_id) owner_id) in
      (c ← code; Ok ((c =? 1) || (c =? -1)), r)
  end.

Definition get_owner (n : Net) (now : Z) (r : R) (event_id : string) : result (option string) :=
  match n with
  | no_client => Ok None
  | lost_before e | lost_after e => Err e
  | connected => Ok (r_get now r (_lease_key event_id))
  end.
End lease.

(** ** The renewal task *)

Inductive RenewalEnd : Type := renewal_lost | renewal_errors.

(** [_renew_loop] over the outcomes of its calls of [renew]: the round in which it gives up, and
    why; [None] while it goes on. *)
Fixpoint renew_loop (max_renew_failures consecutive_errors : nat) (outcomes : list (result bool)) :
    option (nat * RenewalEnd) :=
  match outcomes with
  | [] => None
  | Ok true :: rest => prod_map S id <$> renew_loop max_renew_failures 0 rest
  | Ok false :: _ => Some (0%nat, renewal_lost)
  | Err _ :: rest =>
      if Nat.ltb max_renew_failures (S consecutive_errors) then Some (0%nat, renewal_errors)
      else prod_map S id <$> renew_loop max_renew_failures (S consecutive_errors) rest
  end.

(** ** Exclusion *)

Lemma lease_key_inj e e' : _lease_key e = _lease_key e' → e = e'.
Proof. unfold _lease_key, LEASE_KEY_PREFIX. cbn. by intros [=]. Qed.

(** The commands of all workers, whatever the workers see of them. *)
Inductive lcommand : Type :=
| LAcquire (event_id owner_id : string) (ttl_s : Z)
| LExtend (event_id : string)
| LRelease (event_id owner_id : string)
| LRead (event_id : string).

Section runs.
Context {R : Type} `{RedisLaws R}.

Definition lcommand_run (r : R) (c : Z * lcommand) : R :=
  match c.2 with
  | LAcquire e o ttl => (lease_acquire connected c.1 r e o ttl).2
  | LExtend e => (renew_extend connected c.1 r e).2
  | LRelease e o => (lease_release connected c.1 r e o).2
  | LRead e => r
  end.

Definition lrun : R → list (Z * lcommand) → R := foldl lcommand_run.

(** Every command reaches Redis before the deadline of the event's lease, which renewals move. *)
Fixpoint covered (event_id : string) (deadline : Z) (trace : list (Z * lcommand)) : Prop :=
  match trace with
  | [] => True
  | (t, c) :: trace' =>
      t < deadline ∧
      covered event_id
        (match c with
         | LExtend e => if e ==? event_id then t + DEFAULT_LEASE_TTL_S else deadline
         | _ => deadline
         end) trace'
  end.

Definition deadline_after (event_id : string) (deadline : Z) (trace : list (Z * lcommand)) : Z :=
  foldl (λ d '(t, c), match c with
                      | LExtend e => if e ==? event_id then t + DEFAULT_LEASE_TTL_S else d
                      | _ => d
                      end) deadline trace.

Definition releases (event_id owner : string) (c : Z * lcommand) : bool :=
  match c.2 with LRelease e o => (e ==? event_id) && (o ==? owner) | _ => false end.

(** The event is leased to [owner] until [d]. *)
Definition leased (r : R) (event_id owner : string) (d : Z) : Prop :=
  r_entry r (_lease_key event_id) = Some (owner, d).

Lemma leased_live r e o d now : leased r e o d → now < d → live_entry now r (_lease_key e) = Some (o, d).
Proof. intros Hl Hn. unfold live_entry. rewrite Hl. apply Z.ltb_lt in Hn. by rewrite Hn. Qed.

(** An effect on another event's key. *)
Lemma leased_kept r r' e e' o d :
  leased r e o d → e' ≠ e → others_kept r r' (_lease_key e') → leased r' e o d.
Proof. intros Hl Hne Hk. unfold leased. rewrite Hk; [done|]. by intros ?%lease_key_inj. Qed.

(** While the lease lasts, nobody acquires it, and only its owner releases it. *)
Lemma acquire_refused r e o d now o' ttl :
  leased r e o d → now < d → lease_acquire connected now r e o' ttl = (Ok false, r).
Proof.
  intros Hl Hn. unfold lease_acquire. by rewrite (set_present _ _ _ _ _ _ (leased_live _ _ _ _ _ Hl Hn)).
Qed.

Lemma release_refused r e o d now o' :
  leased r e o d → now < d → o' ≠ o → lease_release connected now r e o' = (Ok false, r).
Proof.
  intros Hl Hn Hne. unfold lease_release, _RELEASE_SCRIPT.
  rewrite get_live, (leased_live _ _ _ _ _ Hl Hn). cbn. by rewrite bool_decide_eq_false_2.
Qed.

Lemma acquire_kept now r e o ttl :
  others_kept r (lease_acquire connected now r e o ttl).2 (_lease_key e).
Proof.
  unfold lease_acquire. destruct (live_entry now r (_lease_key e)) as [x|] eqn:Hl.
  - by rewrite (set_present _ _ _ _ _ _ Hl).
  - destruct (set_absent now r (_lease_key e) o ttl Hl) as (r' & -> & _ & Hk). exact Hk.
Qed.

Lemma extend_kept now r e : others_kept r (renew_extend connected now r e).2 (_lease_key e).
Proof.
  unfold renew_extend. destruct (live_entry now r (_lease_key e)) as [[v d]|] eqn:Hl.
  - destruct (expire_present now r (_lease_key e) DEFAULT_LEASE_TTL_S v d Hl) as (r' & -> & _ & Hk).
    exact Hk.
  - by rewrite (expire_absent _ _ _ _ Hl).
Qed.

Lemma release_kept now r e o : others_kept r (lease_release connected now r e o).2 (_lease_key e).
Proof.
  unfold lease_release, _RELEASE_SCRIPT. rewrite get_live.
  destruct (live_entry now r (_lease_key e)) as [[v d]|] eqn:Hl; cbn; [|done].
  case_bool_decide; [|done].
  destruct (del_present now r (_lease_key e) (v, d) Hl) as (r' & -> & _ & Hk). exact Hk.
Qed.

Lemma leased_step r e o d t c :
  leased r e o d → t < d → releases e o (t, c) = false →
  leased (lcommand_run r (t, c)) e o
    (match c with LExtend e' => if e' ==? e then t + DEFAULT_LEASE_TTL_S else d | _ => d end).
Proof.
  intros Hl Ht Hr. destruct c as [e' o' ttl|e'|e' o'|e']; unfold lcommand_run; cbn [fst snd].
  - destruct (decide (e' = e)) as [->|Hne]; [by rewrite (acquire_refused _ _ _ _ _ _ _ Hl Ht)|].
    eapply leased_kept; [exact Hl|exact Hne|apply acquire_kept].
  - case_bool_decide as He; [subst e'|eapply leased_kept; [exact Hl|exact He|apply extend_kept]].
    unfold renew_extend.
    destruct (expire_present t r (_lease_key e) DEFAULT_LEASE_TTL_S o d (leased_live _ _ _ _ _ Hl Ht))
      as (r' & -> & He & _). exact He.
  - destruct (decide (e' = e)) as [->|Hne];
      [|eapply leased_kept; [exact Hl|exact Hne|apply release_kept]].
    unfold releases in Hr. cbn in Hr. rewrite bool_decide_eq_true_2 in Hr by done. cbn in Hr.
    apply bool_decide_eq_false in Hr. by rewrite (release_refused _ _ _ _ _ _ Hl Ht Hr).
  - exact Hl.
Qed.

Lemma leased_run r e o d trace :
  leased r e o d → covered e d trace → forallb (λ c, negb (releases e o c)) trace = true →
  leased (lrun r trace) e o (deadline_after e d trace).
Proof.
  revert r d. induction trace as [|[t c] trace IH]; intros r d Hl Hc Hr; [exact Hl|].
  destruct Hc as [Ht Hc]. apply andb_true_iff in Hr as [Hr1 Hr2]. apply negb_true_iff in Hr1.
  exact (IH _ _ (leased_step r e o d t c Hl Ht Hr1) Hc Hr2).
Qed.

(** C7. Once a worker has acquired the lease of an event, then over any commands of any workers that
    reach Redis before the lease runs out (each renewal extends it) and do not include the owner's
    own release: the worker stays the owner, every attempt to acquire the lease is refused, every
    release by another identity is refused, and its own renewal checks succeed. *)
Theorem lease_exclusive r r1 now e o ttl trace t o' ttl' :
  lease_acquire connected now r e o ttl = (Ok true, r1) →
  covered e (now + ttl) trace → forallb (λ c, negb (releases e o c)) trace = true →
  t < deadline_after e (now + ttl) trace →
  let r2 := lrun r1 trace in
  get_owner connected t r2 e = Ok (Some o) ∧
  lease_acquire connected t r2 e o' ttl' = (Ok false, r2) ∧
  (o' ≠ o → lease_release connected t r2 e o' = (Ok false, r2)) ∧
  renew_check connected t r2 e o = Ok true.
Proof.
  intros Hacq Hc Hr Ht r2.
  assert (leased r1 e o (now + ttl)) as Hl1.
  { unfold lease_acquire in Hacq. destruct (live_entry now r (_lease_key e)) as [x|] eqn:Hl.
    - by rewrite (set_present _ _ _ _ _ _ Hl) in Hacq.
    - destruct (set_absent now r (_lease_key e) o ttl Hl) as (r' & Heq & He & _).
      rewrite Heq in Hacq. injection Hacq as <-. exact He. }
  pose proof (leased_run r1 e o (now + ttl) trace Hl1 Hc Hr) as Hl. fold r2 in Hl.
  pose proof (leased_live _ _ _ _ _ Hl Ht) as Hlive. split_and!.
  - unfold get_owner. by rewrite get_live, Hlive.
  - by apply (acquire_refused r2 e o (deadline_after e (now + ttl) trace)).
  - intros Hne. by apply (release_refused r2 e o (deadline_after e (now + ttl) trace)).
  - unfold renew_check. rewrite get_live, Hlive. cbn. by rewrite bool_decide_eq_true_2.
Qed.

(** A renewal is not atomic: when the lease runs out between its two commands and another worker
    acquires it there, the renewal of the first worker still answers that it holds the lease, and
    extends the lease of the other. *)
Theorem renewal_confirms_lost_lease r e o d o' ttl now now1 now2 :
  leased r e o d → now < d → d ≤ now1 → now1 ≤ now2 < now1 + ttl →
  let others r0 := (lease_acquire connected now1 r0 e o' ttl).2 in
  (lease_renew connected connected now now2 r e o others).1 = Ok true ∧
  leased (lease_renew connected connected now now2 r e o others).2 e o' (now2 + DEFAULT_LEASE_TTL_S).
Proof.
  intros Hl Hn Hd Hn2 others. unfold lease_renew, renew_check.
  rewrite get_live, (leased_live _ _ _ _ _ Hl Hn). cbn [fst fmap option_fmap option_map].
  rewrite bool_decide_eq_true_2 by done.
  assert (live_entry now1 r (_lease_key e) = None) as Hgone.
  { unfold live_entry. rewrite Hl. destruct (Z.ltb_spec now1 d); [lia|done]. }
  assert (leased (others r) e o' (now1 + ttl)) as Hl'.
  { unfold others, lease_acquire.
    destruct (set_absent now1 r (_lease_key e) o' ttl Hgone) as (r' & -> & He & _). exact He. }
  unfold renew_extend.
  destruct (expire_present now2 (others r) (_lease_key e) DEFAULT_LEASE_TTL_S o' (now1 + ttl))
    as (r' & -> & He & _); [apply (leased_live _ _ _ _ _ Hl'); lia|].
  by split.
Qed.
End runs.

(** ** Renewal in time *)

(** The time since the start of the last round that renewed. *)
Definition unrenewed (start : Z) (rounds : list (Z * result bool)) : Z :=
  foldl (λ acc '(dt, o), match o with Ok true => dt | _ => acc + dt end) start rounds.

(** The rounds a renewal task runs. *)
Definition rounds_run (max errors : nat) (rounds : list (Z * result bool)) : list (Z * result bool) :=
  match renew_loop max errors (snd <$> rounds) with
  | Some (i, _) => take (S i) rounds
  | None => rounds
  end.

Lemma rounds_run_cons max errors dt o rounds :
  rounds_run max errors ((dt, o) :: rounds) =
  (dt, o) :: match o with
             | Ok true => rounds_run max 0 rounds
             | Ok false => []
             | Err _ => if Nat.ltb max (S errors) then [] else rounds_run max (S errors) rounds
             end.
Proof.
  unfold rounds_run. cbn [fmap list_fmap snd renew_loop]. destruct o as [[|]|e]; [|done|].
  - by destruct (renew_loop max 0 _) as [[i w]|].
  - destruct (Nat.ltb max (S errors)); [done|].
    by destruct (renew_loop max (S errors) _) as [[i w]|].
Qed.

Lemma unrenewed_bounded max d errors rounds start :
  (errors ≤ max)%nat → 0 ≤ d → (∀ dt o, (dt, o) ∈ rounds → 0 ≤ dt ≤ d) →
  start ≤ (Z.of_nat errors + 1) * d →
  unrenewed start (rounds_run max errors rounds) ≤ (Z.of_nat max + 2) * d.
Proof.
  revert errors start. induction rounds as [|[dt o] rounds IH]; intros errors start He Hd Hdt Hs.
  { cbn. nia. }
  destruct (Hdt dt o ltac:(by left)) as [Hdt0 Hdt1].
  assert (∀ dt o, (dt, o) ∈ rounds → 0 ≤ dt ≤ d) as Hdt' by (intros; apply (Hdt dt0 o0); by right).
  rewrite rounds_run_cons. unfold unrenewed. cbn [foldl]. destruct o as [[|]|e].
  - apply (IH 0%nat); [lia|done..|lia].
  - cbn. nia.
  - destruct (Nat.ltb_spec max (S errors)) as [Hlt|Hge]; [cbn; nia|].
    apply (IH (S errors)); [lia|done..|nia].
Qed.

(** With the default failure limit of 3 and rounds shorter than 120 seconds (60 of sleep and the
    time of the commands), the renewal task never lets 600 seconds, the lifetime of the lease, pass
    since the start of its last successful round: it has renewed, or has signalled the worker. *)
Theorem renewal_gives_up_in_time rounds :
  (∀ dt o, (dt, o) ∈ rounds → 0 ≤ dt < 2 * RENEW_INTERVAL_S) →
  unrenewed 0 (rounds_run 3 0 rounds) < DEFAULT_LEASE_TTL_S.
Proof.
  intros Hdt. assert (unrenewed 0 (rounds_run 3 0 rounds) ≤ (Z.of_nat 3 + 2) * 119) as Hb.
  { apply unrenewed_bounded; [lia..| |lia]. intros dt o Hin. specialize (Hdt dt o Hin).
    unfold RENEW_INTERVAL_S in Hdt. lia. }
  unfold DEFAULT_LEASE_TTL_S. lia.
Qed.

(** ** An instance *)

Definition MapRedis : Type := gmap string (string * Z).

#[global] Instance map_redis : RedisKeys MapRedis := {
  r_entry m k := m !! k;
  r_get now m k :=
    match m !! k with Some (v, d) => if now <? d then Some v else None | None => None end;
  r_set_nx_ex now m k v ttl :=
    match m !! k with
    | Some (_, d) => if now <? d then (false, m) else (true, <[k := (v, now + ttl)]> m)
    | None => (true, <[k := (v, now + ttl)]> m)
    end;
  r_expire now m k ttl :=
    match m !! k with
    | Some (v, d) => if now <? d then (true, <[k := (v, now + ttl)]> m) else (false, m)
    | None => (false, m)
    end;
  r_del now m k :=
    match m !! k with
    | Some (_, d) => if now <? d then (1, delete k m) else (0, m)
    | None => (0, m)
    end
}.

#[global] Instance map_redis_laws : RedisLaws MapRedis.
Proof.
  split; unfold live_entry, others_kept; cbn; intros now m k;
    destruct (m !! k) as [[v0 d0]|]; try destruct (now <? d0); intros; simplify_eq/=; try done;
    eexists; (split; [done|]); split;
    first [by apply lookup_insert_eq|by apply lookup_delete_eq
          |by intros; apply lookup_insert_ne|by intros; apply lookup_delete_ne].
Qed.

(** ** Witnesses *)

Definition lease_trace : list (Z * lcommand) :=
  [(20, LAcquire "evt-1" "worker-b" 600); (70, LExtend "evt-1"); (80, LRelease "evt-1" "worker-b");
   (650, LAcquire "evt-2" "worker-b" 600)].

Lemma lease_exclusive_witness :
  let r2 := lrun (lease_acquire connected 10 (∅ : MapRedis) "evt-1" "worker-a" 600).2 lease_trace in
  get_owner connected 660 r2 "evt-1" = Ok (Some "worker-a") ∧
  lease_acquire connected 660 r2 "evt-1" "worker-b" 600 = (Ok false, r2).
Proof.
  destruct (lease_exclusive (∅ : MapRedis)
    (lease_acquire connected 10 (∅ : MapRedis) "evt-1" "worker-a" 600).2 10 "evt-1" "worker-a" 600
    lease_trace 660 "worker-b" 600) as (Howner & Hacq & _).
  - reflexivity.
  - vm_compute. repeat split.
  - reflexivity.
  - vm_compute. reflexivity.
  - split; [exact Howner|exact Hacq].
Defined.

Lemma renewal_confirms_lost_lease_witness :
  let r := (lease_acquire connected 0 (∅ : MapRedis) "evt-1" "worker-a" 600).2 in
  let others r0 := (lease_acquire connected 601 r0 "evt-1" "worker-b" 600).2 in
  (lease_renew connected connected 599 602 r "evt-1" "worker-a" others).1 = Ok true.
Proof.
  apply (renewal_confirms_lost_lease
    (lease_acquire connected 0 (∅ : MapRedis) "evt-1" "worker-a" 600).2 "evt-1" "worker-a" 600
    "worker-b" 600 599 601 602); [reflexivity|lia..].
Defined.

Lemma renewal_gives_up_in_time_witness :
  unrenewed 0 (rounds_run 3 0 [(61, Ok true); (90, Err (builtin_error OtherError "timeout"));
                               (61, Ok false)]) < 600.
Proof.
  apply renewal_gives_up_in_time. intros dt o Hin.
  apply elem_of_cons in Hin as [[= -> ->]|Hin]; [vm_compute; split; congruence|].
  apply elem_of_cons in Hin as [[= -> ->]|Hin]; [vm_compute; split; congruence|].
  apply elem_of_cons in Hin as [[= -> ->]|Hin]; [vm_compute; split; congruence|].
  by apply elem_of_nil in Hin.
Defined.
