(* ===== verification/BudgetReservation.v ===== *)
(** * Attempt budgets of tool-call grants (services/tool_call_budget_reservation.py)

    A counter per grant, in Redis or, when Redis fails, in the process.  Redis is behind the
    interface [RedisCounters]; the scripts are atomic.  What the server answers to each call is an
    argument; clock readings are whole numbers of a fixed unit. *)

From stdpp Require Import prelude strings gmap.
From S2P Require Import Prelude Enums Errors Lease.

#[local] Open Scope string_scope.
#[local] Open Scope Z_scope.

(** Integer keys: an absent one reads as 0. *)
Class RedisCounters (R : Type) : Type := {
  rc_value : R → string → Z;
  rc_incr : R → string → Z * R;
  rc_decrby : R → string → Z → Z * R
}.

(** INCR and DECRBY change the key and answer its new value. *)
Class RedisCounterLaws (R : Type) `{RedisCounters R} : Prop := {
  incr_value : ∀ r k, (rc_incr r k).1 = rc_value r k + 1;
  incr_effect : ∀ r k k',
    rc_value (rc_incr r k).2 k' = if k' ==? k then rc_value r k + 1 else rc_value r k';
  decrby_effect : ∀ r k n k',
    rc_value (rc_decrby r k n).2 k' = if k' ==? k then rc_value r k - n else rc_value r k'
}.

Definition PRODUCTION_BUDGET_KEY_PREFIX : string := "shadowtrace:tool_grant_budget:production:".
Definition SHADOW_BUDGET_KEY_PREFIX : string := "shadowtrace:tool_grant_budget:shadow:".
Definition COMPAT_BUDGET_KEY_PREFIX : string := "shadowtrace:tool_grant_budget:compat:".

Definition budget_reservation_key (mode : ToolCallMode) (namespace_key grant_id : string) : string :=
  match mode with
  | ToolCallMode.SHADOW => SHADOW_BUDGET_KEY_PREFIX
  | ToolCallMode.PRODUCTION => PRODUCTION_BUDGET_KEY_PREFIX
  | ToolCallMode.COMPATIBILITY => COMPAT_BUDGET_KEY_PREFIX
  end +++ namespace_key +++ ":" +++ grant_id.

Record ReservationEnv : Type := {
  rv_has_redis : bool;
  rv_attempt_recovery : bool;
  rv_recovery_interval : Z
}.

(** [counters] holds the reserved counts; the consumed counts are never written. *)
Record ReservationState : Type := {
  rs_memory : gmap string Z;
  rs_degraded : bool;
  rs_pinned : gset string;
  rs_last_probe : Z
}.

(** What Redis answers during one call. *)
Record RedisAnswers : Type := {
  ra_ping : result bool;
  ra_now : Z;
  ra_probe_ping : result bool;
  ra_probe_get : result unit;
  ra_client : bool;
  ra_net : Net
}.

Definition with_memory (k : string) (n : Z) (st : ReservationState) : ReservationState :=
  {| rs_memory := <[k := n]> (rs_memory st); rs_degraded := rs_degraded st;
     rs_pinned := rs_pinned st; rs_last_probe := rs_last_probe st |}.

Definition with_degraded (b : bool) (st : ReservationState) : ReservationState :=
  {| rs_memory := rs_memory st; rs_degraded := b; rs_pinned := rs_pinned st;
     rs_last_probe := rs_last_probe st |}.

Definition _pin_key_to_memory (k : string) (st : ReservationState) : ReservationState :=
  {| rs_memory := rs_memory st; rs_degraded := rs_degraded st;
     rs_pinned := if k ==? "" then rs_pinned st else {[k]} ∪ rs_pinned st;
     rs_last_probe := rs_last_probe st |}.

Definition with_probe (t : Z) (st : ReservationState) : ReservationState :=
  {| rs_memory := rs_memory st; rs_degraded := rs_degraded st; rs_pinned := rs_pinned st;
     rs_last_probe := t |}.

Definition _uses_redis_for_key (st : ReservationState) (k : string) : bool :=
  negb (bool_decide (k ∈ rs_pinned st)).

Definition _ensure_key_pinned_for_degraded_fallback (k : string) (st : ReservationState) :
    ReservationState :=
  if rs_degraded st then _pin_key_to_memory k st else st.

Definition _mark_redis_degraded (k : option string) (st : ReservationState) : ReservationState :=
  let st := with_degraded true st in
  match k with Some k => _pin_key_to_memory k st | None => st end.

(** Exceptions of the probe are swallowed; a probe that answers clears the degraded mark. *)
Definition _maybe_attempt_redis_recovery (rv : ReservationEnv) (a : RedisAnswers)
    (st : ReservationState) : ReservationState :=
  if negb (rv_attempt_recovery rv) || negb (rs_degraded st) || negb (rv_has_redis rv) then st
  else if ra_now a - rs_last_probe st <? rv_recovery_interval rv then st
  else
    let st := with_probe (ra_now a) st in
    match ra_probe_ping a, ra_probe_get a with
    | Ok true, Ok _ => with_degraded false st
    | _, _ => st
    end.

(** Whether there is a client to talk to. *)
Definition _redis_client (rv : ReservationEnv) (a : RedisAnswers) (st : ReservationState) :
    bool * ReservationState :=
  if negb (rv_has_redis rv) then (false, st)
  else match ra_ping a with
       | Err _ | Ok false => (false, _mark_redis_degraded None st)
       | Ok true =>
           if rs_degraded st then
             let st := _maybe_attempt_redis_recovery rv a st in
             if rs_degraded st then (false, st) else (ra_client a, st)
           else (ra_client a, st)
       end.

Section reservation.
Context {R : Type} `{RedisCounters R}.
Context (rv : ReservationEnv).

Definition memory_count (st : ReservationState) (k : string) : Z := default 0 (rs_memory st !! k).

Definition exhausted : error := builtin_error ValueError "grant max_calls exhausted".

(** [setdefault] creates the counter before the test. *)
Definition reserve_in_memory (st : ReservationState) (k : string) (max_calls : Z) :
    result Z * ReservationState :=
  let n := memory_count st k in
  if max_calls <=? n then (Err exhausted, with_memory k n st)
  else (Ok (n + 1), with_memory k (n + 1) st).

Definition reserve_script (r : R) (k : string) (limit : Z) : Z * R :=
  if limit <=? rc_value r k then (-1, r) else rc_incr r k.

Definition budget_reserve (st : ReservationState) (r : R) (a : RedisAnswers) (mode : ToolCallMode)
    (namespace_key grant_id : string) (max_calls : Z) : result Z * (ReservationState * R) :=
  if max_calls <? 1 then (Err (builtin_error ValueError "max_calls must be >= 1"), (st, r))
  else
    let k := budget_reservation_key mode namespace_key grant_id in
    let '(client, st) := _redis_client rv a st in
    if negb client || negb (_uses_redis_for_key st k) then
      let '(out, st) :=
        reserve_in_memory (_ensure_key_pinned_for_degraded_fallback k st) k max_calls in
      (out, (st, r))
    else
      let '(answer, r) := over_net (ra_net a) r (reserve_script r k max_calls) in
      match answer with
      | Err _ =>
          let '(out, st) := reserve_in_memory (_mark_redis_degraded (Some k) st) k max_calls in
          (out, (st, r))
      | Ok seq => (if seq <? 0 then Err exhausted else Ok seq, (st, r))
      end.

Definition release_in_memory (st : ReservationState) (k : string) (count : Z) : ReservationState :=
  with_memory k (Z.max 0 (memory_count st k - count)) st.

Definition release_script (r : R) (k : string) (dec : Z) : Z * R :=
  let current := rc_value r k in
  if current <=? 0 then (0, r) else rc_decrby r k (if current <? dec then current else dec).

Definition budget_release (st : ReservationState) (r : R) (a : RedisAnswers) (mode : ToolCallMode)
    (namespace_key grant_id : string) (count : Z) : ReservationState * R :=
  if count <? 1 then (st, r)
  else
    let k := budget_reservation_key mode namespace_key grant_id in
    let '(client, st) := _redis_client rv a st in
    if negb client || negb (_uses_redis_for_key st k) then
      (release_in_memory (_ensure_key_pinned_for_degraded_fallback k st) k count, r)
    else
      let '(answer, r) := over_net (ra_net a) r (release_script r k count) in
      match answer with
      | Err _ => (release_in_memory (_mark_redis_degraded (Some k) st) k count, r)
      | Ok _ => (st, r)
      end.

Definition get_reserved_count (st : ReservationState) (r : R) (a : RedisAnswers)
    (mode : ToolCallMode) (namespace_key grant_id : string) : Z * ReservationState :=
  let k := budget_reservation_key mode namespace_key grant_id in
  if negb (_uses_redis_for_key st k) then (memory_count st k, st)
  else
    let '(client, st) := _redis_client rv a st in
    if negb client then (memory_count st k, st)
    else match ra_net a with
         | lost_before _ | lost_after _ =>
             let st := _mark_redis_degraded (Some k) st in (memory_count st k, st)
         | _ => (rc_value r k, st)
         end.
End reservation.

(** ** How the counters move *)

(** The operations on the flags leave the counters alone. *)
Lemma recovery_memory rv a st : rs_memory (_maybe_attempt_redis_recovery rv a st) = rs_memory st.
Proof.
  unfold _maybe_attempt_redis_recovery. destruct (_ || _); [done|]. destruct (_ <? _); [done|].
  destruct (ra_probe_ping a) as [[|]|e]; [|done..]. by destruct (ra_probe_get a).
Qed.

Lemma redis_client_memory rv a st : rs_memory (_redis_client rv a st).2 = rs_memory st.
Proof.
  unfold _redis_client. destruct (negb _); [done|]. destruct (ra_ping a) as [[|]|e]; [|done..].
  destruct (rs_degraded st); [|done]. destruct (rs_degraded (_maybe_attempt_redis_recovery _ _ _));
    apply recovery_memory.
Qed.

(** A key is pinned only by a call on it, and stays so. *)
Definition pins (k : string) (st st' : ReservationState) : Prop :=
  (∀ k', k' ∈ rs_pinned st → k' ∈ rs_pinned st') ∧
  (∀ k', k' ≠ k → k' ∈ rs_pinned st' → k' ∈ rs_pinned st).

Lemma recovery_pinned rv a st : rs_pinned (_maybe_attempt_redis_recovery rv a st) = rs_pinned st.
Proof.
  unfold _maybe_attempt_redis_recovery. destruct (_ || _); [done|]. destruct (_ <? _); [done|].
  destruct (ra_probe_ping a) as [[|]|e]; [|done..]. by destruct (ra_probe_get a).
Qed.

Lemma redis_client_pinned rv a st : rs_pinned (_redis_client rv a st).2 = rs_pinned st.
Proof.
  unfold _redis_client. destruct (negb _); [done|]. destruct (ra_ping a) as [[|]|e]; [|done..].
  destruct (rs_degraded st); [|done]. destruct (rs_degraded (_maybe_attempt_redis_recovery _ _ _));
    apply recovery_pinned.
Qed.

Lemma pin_pins k st : pins k st (_pin_key_to_memory k st).
Proof.
  unfold pins, _pin_key_to_memory. cbn [rs_pinned]. destruct (k ==? ""); split; [done..|set_solver|set_solver].
Qed.

Lemma ensure_pins k st : pins k st (_ensure_key_pinned_for_degraded_fallback k st).
Proof.
  unfold _ensure_key_pinned_for_degraded_fallback. destruct (rs_degraded st); [apply pin_pins|by split].
Qed.

Lemma mark_pins k st : pins k st (_mark_redis_degraded (Some k) st).
Proof. apply (pin_pins k (with_degraded true st)). Qed.

Lemma ensure_pinned_memory k st :
  rs_memory (_ensure_key_pinned_for_degraded_fallback k st) = rs_memory st.
Proof. unfold _ensure_key_pinned_for_degraded_fallback. by destruct (rs_degraded st). Qed.

Lemma memory_count_with k n st k' :
  memory_count (with_memory k n st) k' = if k' ==? k then n else memory_count st k'.
Proof.
  unfold memory_count, with_memory. cbn [rs_memory]. case_bool_decide as Hk.
  - subst k'. by rewrite lookup_insert_eq.
  - by rewrite lookup_insert_ne.
Qed.

Section bounds.
Context {R : Type} `{RedisCounterLaws R} (rv : ReservationEnv).

(** Both counters of a key, and how far one step may move them. *)
Definition counted (st : ReservationState) (r : R) (k : string) : Z := memory_count st k + rc_value r k.

Definition sound_counters (st : ReservationState) (r : R) (k : string) (limit : Z) : Prop :=
  0 ≤ memory_count st k ≤ limit ∧ 0 ≤ rc_value r k ≤ limit.

Lemma reserve_in_memory_spec st k limit out st' :
  reserve_in_memory st k limit = (out, st') →
  rs_pinned st' = rs_pinned st ∧
  (∀ k', k' ≠ k → memory_count st' k' = memory_count st k') ∧
  match out with
  | Ok seq => memory_count st k < limit ∧ seq = memory_count st k + 1 ∧ memory_count st' k = seq
  | Err _ => memory_count st' k = memory_count st k
  end.
Proof.
  unfold reserve_in_memory. destruct (Z.leb_spec limit (memory_count st k)); intros [= <- <-];
    (split; [done|]); (split; [intros k' Hk; by rewrite memory_count_with, bool_decide_eq_false_2|]);
    rewrite memory_count_with, bool_decide_eq_true_2 by done; [done|lia].
Qed.

Lemma reserve_script_spec r k limit :
  (∀ k', k' ≠ k → rc_value (reserve_script r k limit).2 k' = rc_value r k') ∧
  (rc_value r k < limit ∧ (reserve_script r k limit).1 = rc_value r k + 1 ∧
     rc_value (reserve_script r k limit).2 k = rc_value r k + 1 ∨
   limit ≤ rc_value r k ∧ reserve_script r k limit = (-1, r)).
Proof.
  unfold reserve_script. destruct (Z.leb_spec limit (rc_value r k)); [by split; [|right]|].
  split; [intros k' Hk; by rewrite incr_effect, bool_decide_eq_false_2|].
  left. by rewrite incr_value, incr_effect, bool_decide_eq_true_2.
Qed.

(** What one reservation does to the counters of every key. *)
Record reserved_step (st : ReservationState) (r : R) (k : string) (limit : Z) (out : result Z)
    (st' : ReservationState) (r' : R) : Prop := {
  rd_other : ∀ k', k' ≠ k → memory_count st' k' = memory_count st k' ∧ rc_value r' k' = rc_value r k';
  rd_memory : memory_count st k ≤ memory_count st' k ≤ Z.max (memory_count st k) limit;
  rd_redis : rc_value r k ≤ rc_value r' k ≤ Z.max (rc_value r k) limit;
  rd_pins : pins k st st';
  rd_granted : ∀ seq, out = Ok seq →
    seq ≤ limit ∧ counted st r k + 1 ≤ counted st' r' k ∧
    (seq = memory_count st k + 1 ∨ seq = rc_value r k + 1) ∧
    (k ∈ rs_pinned st' → memory_count st k + 1 ≤ memory_count st' k)
}.

Lemma reserve_in_memory_step st st0 r r0 k limit out st' :
  rs_memory st0 = rs_memory st → pins k st st0 → reserve_in_memory st0 k limit = (out, st') →
  (∀ k', k' ≠ k → rc_value r0 k' = rc_value r k') → rc_value r k ≤ rc_value r0 k ≤ Z.max (rc_value r k) limit →
  reserved_step st r k limit out st' r0.
Proof.
  intros Hm Hp Hres Hr1 Hr2. apply reserve_in_memory_spec in Hres as (Hpin & Hother & Hkey).
  assert (∀ k, memory_count st0 k = memory_count st k) as Hmc by (intros; unfold memory_count; by rewrite Hm).
  rewrite !Hmc in Hkey. split.
  - intros k' Hk. rewrite Hother, Hmc by done. auto.
  - destruct out; lia.
  - done.
  - unfold pins. by rewrite Hpin.
  - intros seq ->. unfold counted. destruct Hkey as (Hlt & -> & Hs). split_and!; [lia|lia|by left|lia].
Qed.

Lemma reserve_step st r a mode ns g limit out st' r' :
  0 ≤ rc_value r (budget_reservation_key mode ns g) →
  budget_reserve rv st r a mode ns g limit = (out, (st', r')) →
  reserved_step st r (budget_reservation_key mode ns g) limit out st' r'.
Proof.
  intros Hpos. unfold budget_reserve. set (k := budget_reservation_key mode ns g) in *.
  destruct (limit <? 1). { intros [= <- <- <-]. split; [done|lia|lia|by split|done]. }
  pose proof (redis_client_memory rv a st) as Hm. pose proof (redis_client_pinned rv a st) as Hp.
  destruct (_redis_client rv a st) as [client st0]. cbn [snd] in Hm, Hp.
  destruct (negb client || _) eqn:Hpath.
  { destruct (reserve_in_memory _ k limit) as [o s1] eqn:Hres. intros [= <- <- <-].
    eapply reserve_in_memory_step; [| |exact Hres|done|lia]; [by rewrite ensure_pinned_memory|].
    unfold pins. rewrite <-Hp. apply ensure_pins. }
  apply orb_false_iff in Hpath as [_ Hpath]. apply negb_false_iff, negb_true_iff in Hpath.
  apply bool_decide_eq_false in Hpath.
  destruct (reserve_script_spec r k limit) as [Hother Hkey].
  assert (rc_value r k ≤ rc_value (reserve_script r k limit).2 k ≤ Z.max (rc_value r k) limit) as Hrange.
  { destruct Hkey as [(Hlt & _ & ->)|[_ ->]]; [lia|]. cbn. lia. }
  assert (∀ r0, (r0 = r ∨ r0 = (reserve_script r k limit).2) →
    (let '(out0, st1) := reserve_in_memory (_mark_redis_degraded (Some k) st0) k limit in
     (out0, (st1, r0))) = (out, (st', r')) →
    reserved_step st r k limit out st' r') as Hfall.
  { intros r0 Hr0 Heq. destruct (reserve_in_memory _ k limit) as [o s1] eqn:Hres.
    injection Heq as <- <- <-. eapply reserve_in_memory_step; [| |exact Hres|..]; [done| | |].
    - unfold pins. rewrite <-Hp. apply mark_pins.
    - destruct Hr0 as [->| ->]; [done|exact Hother].
    - destruct Hr0 as [->| ->]; lia. }
  assert (reserved_step st r k limit
    (if (reserve_script r k limit).1 <? 0 then Err exhausted else Ok (reserve_script r k limit).1) st0
    (reserve_script r k limit).2) as Hok.
  { assert (∀ k, memory_count st0 k = memory_count st k) as Hmc by (intros; unfold memory_count; by rewrite Hm).
    split; [intros; by rewrite Hmc, Hother|rewrite Hmc; lia|done|unfold pins; by rewrite Hp|].
    intros seq. destruct Hkey as [(Hlt & -> & Hv)|[_ Hs]].
    - destruct (Z.ltb_spec (rc_value r k + 1) 0); [done|]. intros [= <-]. unfold counted.
      rewrite Hmc, Hv. split_and!; [lia|lia|by right|done].
    - rewrite Hs. done. }
  destruct (ra_net a) as [| |e|e]; cbn [over_net].
  - by intros [= <- <- <-].
  - by intros [= <- <- <-].
  - intros Heq. apply (Hfall r); auto.
  - intros Heq. apply (Hfall (reserve_script r k limit).2); auto.
Qed.

(** What a release does. *)
Lemma release_script_spec r k n :
  1 ≤ n → 0 ≤ rc_value r k →
  (∀ k', k' ≠ k → rc_value (release_script r k n).2 k' = rc_value r k') ∧
  rc_value (release_script r k n).2 k = Z.max 0 (rc_value r k - n).
Proof.
  intros Hn Hpos. unfold release_script. destruct (Z.leb_spec (rc_value r k) 0); cbn [snd].
  { split; [done|lia]. }
  split; [intros k' Hk; by rewrite decrby_effect, bool_decide_eq_false_2|].
  rewrite decrby_effect, bool_decide_eq_true_2 by done. destruct (Z.ltb_spec (rc_value r k) n); lia.
Qed.

(** What one release does: it lowers one counter, or, when the answer of Redis is lost, possibly both
    and pins the key. *)
Record released_step (st : ReservationState) (r : R) (k : string) (n : Z)
    (st' : ReservationState) (r' : R) : Prop := {
  rl_other : ∀ k', k' ≠ k → memory_count st' k' = memory_count st k' ∧ rc_value r' k' = rc_value r k';
  rl_memory : 0 ≤ memory_count st' k ≤ memory_count st k ∧ memory_count st k - n ≤ memory_count st' k;
  rl_redis : 0 ≤ rc_value r' k ≤ rc_value r k;
  rl_pins : pins k st st';
  rl_one : ((k ∉ rs_pinned st) ∧ k ∈ rs_pinned st') ∨ counted st r k - n ≤ counted st' r' k
}.

Lemma release_in_memory_step st st0 r r0 k n :
  1 ≤ n → 0 ≤ memory_count st k → rs_memory st0 = rs_memory st → pins k st st0 →
  (∀ k', k' ≠ k → rc_value r0 k' = rc_value r k') → 0 ≤ rc_value r0 k ≤ rc_value r k →
  (((k ∉ rs_pinned st) ∧ k ∈ rs_pinned st0) ∨ rc_value r0 k = rc_value r k) →
  released_step st r k n (release_in_memory st0 k n) r0.
Proof.
  intros Hn Hpos Hm Hp Hr1 Hr2 Hor.
  assert (∀ k, memory_count st0 k = memory_count st k) as Hmc by (intros; unfold memory_count; by rewrite Hm).
  assert (memory_count (release_in_memory st0 k n) k = Z.max 0 (memory_count st k - n)) as Hk.
  { unfold release_in_memory. by rewrite memory_count_with, bool_decide_eq_true_2, Hmc. }
  split; [|lia|done|exact Hp|].
  - intros k' Hk'. split; [|auto]. unfold release_in_memory.
    by rewrite memory_count_with, bool_decide_eq_false_2, Hmc.
  - destruct Hor as [Hin|Heq]; [by left|]. right. unfold counted. lia.
Qed.

Lemma budget_key_non_empty mode ns g : budget_reservation_key mode ns g ≠ "".
Proof. by destruct mode. Qed.

Lemma mark_pinned k st : k ≠ "" → k ∈ rs_pinned (_mark_redis_degraded (Some k) st).
Proof.
  intros Hk. cbn. rewrite bool_decide_eq_false_2 by done. set_solver.
Qed.

Lemma release_step st r a mode ns g n st' r' :
  let k := budget_reservation_key mode ns g in
  1 ≤ n → 0 ≤ memory_count st k → 0 ≤ rc_value r k →
  budget_release rv st r a mode ns g n = (st', r') → released_step st r k n st' r'.
Proof.
  intros k Hn Hpm Hpr. unfold budget_release. fold k. destruct (Z.ltb_spec n 1); [lia|].
  pose proof (redis_client_memory rv a st) as Hm. pose proof (redis_client_pinned rv a st) as Hp.
  destruct (_redis_client rv a st) as [client st0]. cbn [snd] in Hm, Hp.
  destruct (negb client || _) eqn:Hpath.
  { intros [= <- <-]. apply release_in_memory_step; [done..| | |done|lia|by right].
    - by rewrite ensure_pinned_memory.
    - unfold pins. rewrite <-Hp. apply ensure_pins. }
  apply orb_false_iff in Hpath as [_ Hpath]. apply negb_false_iff, negb_true_iff in Hpath.
  apply bool_decide_eq_false in Hpath. rewrite Hp in Hpath.
  destruct (release_script_spec r k n Hn Hpr) as [Hother Hkey].
  assert (∀ r0, (r0 = r ∨ r0 = (release_script r k n).2) →
    released_step st r k n (release_in_memory (_mark_redis_degraded (Some k) st0) k n) r0) as Hlost.
  { intros r0 Hr0. apply release_in_memory_step; [done..| | | |].
    - unfold pins. rewrite <-Hp. apply mark_pins.
    - destruct Hr0 as [->| ->]; [done|exact Hother].
    - destruct Hr0 as [->| ->]; lia.
    - left. split; [done|]. apply mark_pinned, budget_key_non_empty. }
  assert (released_step st r k n st0 (release_script r k n).2) as Hok.
  { assert (∀ k, memory_count st0 k = memory_count st k) as Hmc by (intros; unfold memory_count; by rewrite Hm).
    split; [intros; by rewrite Hmc, Hother|rewrite Hmc; lia|lia|unfold pins; by rewrite Hp|].
    right. unfold counted. rewrite Hmc. lia. }
  destruct (ra_net a) as [| |e|e]; cbn [over_net]; intros [= <- <-]; auto.
Qed.

Lemma read_flags st r a mode ns g st' n :
  get_reserved_count rv st r a mode ns g = (n, st') →
  rs_memory st' = rs_memory st ∧ pins (budget_reservation_key mode ns g) st st'.
Proof.
  unfold get_reserved_count. destruct (negb _); [intros [= <- <-]; by split; [|split]|].
  pose proof (redis_client_memory rv a st) as Hm. pose proof (redis_client_pinned rv a st) as Hp.
  destruct (_redis_client rv a st) as [client st0]. cbn [snd] in Hm, Hp.
  assert (pins (budget_reservation_key mode ns g) st st0) as Hpins by (unfold pins; by rewrite Hp).
  destruct (negb client); [by intros [= <- <-]|].
  destruct (ra_net a); intros [= <- <-]; (split; [done|]); try done;
    unfold pins; rewrite <-Hp; apply mark_pins.
Qed.

(** ** Runs

    The API and every worker are processes with counters of their own over one Redis. *)

Inductive bcall : Type :=
| BReserve (a : RedisAnswers) (mode : ToolCallMode) (ns g : string) (limit : Z)
| BRelease (a : RedisAnswers) (mode : ToolCallMode) (ns g : string) (count : Z)
| BRead (a : RedisAnswers) (mode : ToolCallMode) (ns g : string).

(** A call of one process: its counters, Redis, and by how much the slots of the key that are
    handed out and not released change. *)
Definition bstep (k : string) (st : ReservationState) (r : R) (c : bcall) :
    ReservationState * R * Z :=
  match c with
  | BReserve a mode ns g limit =>
      let '(answer, (st, r)) := budget_reserve rv st r a mode ns g limit in
      (st, r, match answer with
              | Ok _ => if budget_reservation_key mode ns g ==? k then 1 else 0
              | Err _ => 0
              end)
  | BRelease a mode ns g n =>
      let '(st, r) := budget_release rv st r a mode ns g n in
      (st, r, if (budget_reservation_key mode ns g ==? k) && (1 <=? n) then - n else 0)
  | BRead a mode ns g => ((get_reserved_count rv st r a mode ns g).2, r, 0)
  end.

(** The processes, Redis, and the outstanding slots of the key. *)
Record BudgetWorld : Type := MkBudgetWorld {
  bw_procs : list ReservationState;
  bw_redis : R;
  bw_out : Z
}.

(** Call [c] of process number [p]. *)
Definition bworld_step (k : string) (w : BudgetWorld) (pc : nat * bcall) : BudgetWorld :=
  match bw_procs w !! pc.1 with
  | None => w
  | Some st =>
      let '(st', r', d) := bstep k st (bw_redis w) pc.2 in
      MkBudgetWorld (<[pc.1 := st']> (bw_procs w)) r' (bw_out w + d)
  end.

Definition brun (k : string) : BudgetWorld → list (nat * bcall) → BudgetWorld :=
  foldl (bworld_step k).

(** The limit that every reservation of the key asks for. *)
Definition asks (k : string) (limit : Z) (c : bcall) : Prop :=
  match c with
  | BReserve _ mode ns g n => budget_reservation_key mode ns g = k → n = limit
  | _ => True
  end.

(** What a call does to the key: the outstanding slots move with the counters of the process and of
    Redis, except when a release pins the key, which may lower both; once the key is pinned, with
    the counter of the process alone. *)
Record call_effect (k : string) (limit : Z) (st : ReservationState) (r : R)
    (st' : ReservationState) (r' : R) (d : Z) : Prop := {
  ce_other : ∀ k', 0 ≤ memory_count st' k' ∧ 0 ≤ rc_value r' k';
  ce_memory : memory_count st' k ≤ limit;
  ce_redis : rc_value r' k ≤ limit;
  ce_pins : k ∈ rs_pinned st → k ∈ rs_pinned st';
  ce_pinned : k ∈ rs_pinned st' → d ≤ memory_count st' k - memory_count st k;
  ce_counted : d ≤ counted st' r' k - counted st r k ∨
    (k ∉ rs_pinned st) ∧ k ∈ rs_pinned st' ∧ d ≤ memory_count st' k - memory_count st k
}.

Definition non_negative (st : ReservationState) (r : R) : Prop :=
  ∀ k', 0 ≤ memory_count st k' ∧ 0 ≤ rc_value r k'.

(** A step that leaves the counters of the key alone. *)
Lemma effect_none k limit st r st' r' :
  memory_count st k ≤ limit → rc_value r k ≤ limit → non_negative st' r' →
  memory_count st' k = memory_count st k → rc_value r' k = rc_value r k →
  (k ∈ rs_pinned st → k ∈ rs_pinned st') → call_effect k limit st r st' r' 0.
Proof. intros Hm Hr Ho Hk1 Hk2 Hpin. split; unfold counted; rewrite ?Hk1, ?Hk2; try done; lia. Qed.

Lemma reserve_effect k limit st r a mode ns g n answer st' r' :
  non_negative st r → memory_count st k ≤ limit → rc_value r k ≤ limit →
  (budget_reservation_key mode ns g = k → n = limit) →
  budget_reserve rv st r a mode ns g n = (answer, (st', r')) →
  call_effect k limit st r st' r' (match answer with
    | Ok _ => if budget_reservation_key mode ns g ==? k then 1 else 0 | Err _ => 0 end).
Proof.
  intros Ho Hm Hr Hask Hres. apply reserve_step in Hres; [|apply Ho].
  destruct Hres as [Hother Hmem Hred [Hpin1 Hpin2] Hgr].
  assert (non_negative st' r') as Ho'.
  { intros k'. destruct (decide (k' = budget_reservation_key mode ns g)) as [->|Hne].
    - specialize (Ho (budget_reservation_key mode ns g)). lia.
    - destruct (Hother k' Hne) as [-> ->]. apply Ho. }
  case_bool_decide as Hk.
  - subst k. rewrite (Hask eq_refl) in *. split; [done|lia|lia|apply Hpin1| |].
    + intros Hin. destruct answer as [seq|e]; [|lia].
      destruct (Hgr seq eq_refl) as (_ & _ & _ & Hpinned). specialize (Hpinned Hin). lia.
    + left. unfold counted in *.
      destruct answer as [seq|e]; [destruct (Hgr seq eq_refl) as (_ & Hsum & _)|]; lia.
  - destruct (Hother k ltac:(done)) as [Hk1 Hk2].
    assert ((match answer with Ok _ => 0 | Err _ => 0 end) = 0) as -> by (by destruct answer).
    by apply effect_none; auto.
Qed.

Lemma release_effect k limit st r a mode ns g n st' r' :
  non_negative st r → memory_count st k ≤ limit → rc_value r k ≤ limit →
  budget_release rv st r a mode ns g n = (st', r') →
  call_effect k limit st r st' r'
    (if (budget_reservation_key mode ns g ==? k) && (1 <=? n) then - n else 0).
Proof.
  intros Ho Hm Hr Hrel. destruct (Z.leb_spec 1 n) as [Hn|Hn].
  2:{ rewrite andb_false_r. unfold budget_release in Hrel. destruct (Z.ltb_spec n 1); [|lia].
      injection Hrel as <- <-. by apply effect_none. }
  apply release_step in Hrel; [|done|apply Ho|apply Ho].
  destruct Hrel as [Hother Hmem Hred [Hpin1 Hpin2] Hone]. rewrite andb_true_r.
  assert (non_negative st' r') as Ho'.
  { intros k'. destruct (decide (k' = budget_reservation_key mode ns g)) as [->|Hne]; [lia|].
    destruct (Hother k' Hne) as [-> ->]. apply Ho. }
  case_bool_decide as Hk.
  - subst k. split; [done|lia|lia|apply Hpin1|lia|].
    destruct Hone as [[Hu Hp]|Hone]; [right; split_and!; [done|done|lia]|left; lia].
  - destruct (Hother k ltac:(done)) as [Hk1 Hk2]. by apply effect_none; auto.
Qed.

Lemma bstep_effect k limit st r c st' r' d :
  non_negative st r → memory_count st k ≤ limit → rc_value r k ≤ limit → asks k limit c →
  bstep k st r c = (st', r', d) → call_effect k limit st r st' r' d.
Proof.
  intros Ho Hm Hr Hask. destruct c as [a mode ns g n|a mode ns g n|a mode ns g]; cbn [bstep].
  - destruct (budget_reserve rv st r a mode ns g n) as [answer [st1 r1]] eqn:Hres.
    intros [= <- <- <-]. by eapply reserve_effect.
  - destruct (budget_release rv st r a mode ns g n) as [st1 r1] eqn:Hrel.
    intros [= <- <- <-]. by eapply release_effect.
  - destruct (get_reserved_count rv st r a mode ns g) as [n st1] eqn:Hread.
    intros [= <- <- <-]. apply read_flags in Hread as [Hmem [Hpin1 _]].
    assert (∀ k, memory_count st1 k = memory_count st k) as Hmc
      by (intros; unfold memory_count; by rewrite Hmem).
    apply effect_none; auto. intros k'. rewrite Hmc. apply Ho.
Qed.

(** ** The sum over the processes *)

Definition zsum (f : ReservationState → Z) (l : list ReservationState) : Z :=
  foldr (λ st n, f st + n) 0 l.

Lemma zsum_insert f l p st st' :
  l !! p = Some st → zsum f (<[p := st']> l) = zsum f l - f st + f st'.
Proof.
  intros Hp. rewrite <-(take_drop_middle l p st Hp) at 2.
  rewrite insert_take_drop by by eapply lookup_lt_Some.
  unfold zsum. rewrite !foldr_app. cbn [foldr]. generalize (drop (S p) l) as l2.
  induction (take p l) as [|x l1 IH]; intros l2; cbn [foldr]; [lia|]. rewrite IH. lia.
Qed.

Lemma zsum_le f l n : Forall (λ st, f st ≤ n) l → zsum f l ≤ Z.of_nat (length l) * n.
Proof. induction 1 as [|x l Hx _ IH]; cbn [zsum foldr length]; [lia|]. unfold zsum in IH. lia. Qed.

Definition pinned_in (k : string) (st : ReservationState) : Z :=
  if bool_decide (k ∈ rs_pinned st) then 1 else 0.

Definition memories (k : string) (l : list ReservationState) : Z := zsum (λ st, memory_count st k) l.
Definition pinned_count (k : string) (l : list ReservationState) : Z := zsum (pinned_in k) l.

Definition some_unpinned (k : string) (l : list ReservationState) : Prop :=
  Exists (λ st, k ∉ rs_pinned st) l.

Lemma some_unpinned_count k l : some_unpinned k l → pinned_count k l ≤ Z.of_nat (length l) - 1.
Proof.
  induction 1 as [st l Hst|st l _ IH].
  - assert (pinned_count k l ≤ Z.of_nat (length l) * 1).
    { apply zsum_le, Forall_true. intros x. unfold pinned_in. case_bool_decide; lia. }
    unfold pinned_count in *. cbn [zsum foldr length]. unfold pinned_in at 1.
    rewrite bool_decide_eq_false_2 by done. unfold zsum in *. lia.
  - unfold pinned_count, zsum in *. cbn [foldr length]. unfold pinned_in at 1.
    case_bool_decide; lia.
Qed.

Record budget_inv (k : string) (limit : Z) (w : BudgetWorld) : Prop := {
  bi_memory : Forall (λ st, non_negative st (bw_redis w) ∧ memory_count st k ≤ limit) (bw_procs w);
  bi_redis : 0 ≤ rc_value (bw_redis w) k ≤ limit;
  bi_unpinned : some_unpinned k (bw_procs w) →
    bw_out w ≤ rc_value (bw_redis w) k + memories k (bw_procs w)
               + pinned_count k (bw_procs w) * limit;
  bi_out : bw_out w ≤ memories k (bw_procs w) + Z.of_nat (length (bw_procs w)) * limit
}.

Lemma unpinned_before k l p st st' :
  l !! p = Some st → (k ∈ rs_pinned st → k ∈ rs_pinned st') →
  some_unpinned k (<[p := st']> l) → some_unpinned k l.
Proof.
  intros Hp Hpin. unfold some_unpinned. rewrite !Exists_exists. intros (x & Hx & Hk).
  apply list_elem_of_lookup in Hx as [i Hi].
  apply list_lookup_insert_Some in Hi as [(-> & <- & _)|[Hne Hi]].
  - exists st. split; [by eapply list_elem_of_lookup_2|auto].
  - exists x. split; [by eapply list_elem_of_lookup_2|done].
Qed.

Lemma effect_inv k limit w p st st' r' d :
  0 ≤ limit → budget_inv k limit w → bw_procs w !! p = Some st →
  call_effect k limit st (bw_redis w) st' r' d →
  budget_inv k limit (MkBudgetWorld (<[p := st']> (bw_procs w)) r' (bw_out w + d)).
Proof.
  destruct w as [procs r out]. cbn [bw_procs bw_redis bw_out].
  intros Hl [Hmem Hr Hun Hout] Hp [Ho Hm1 Hr1 Hpin Hpd Hcd]. cbn [bw_procs bw_redis bw_out] in *.
  assert (Hsum : memories k (<[p := st']> procs) = memories k procs - memory_count st k
                   + memory_count st' k)
    by exact (zsum_insert (λ st, memory_count st k) procs p st st' Hp).
  assert (Hcnt : pinned_count k (<[p := st']> procs) = pinned_count k procs - pinned_in k st
                   + pinned_in k st') by exact (zsum_insert (pinned_in k) procs p st st' Hp).
  assert (Hgrow : pinned_in k st ≤ pinned_in k st')
    by (unfold pinned_in; repeat case_bool_decide; naive_solver lia).
  assert (Hun' : some_unpinned k (<[p := st']> procs) → out + d ≤ rc_value r' k
    + memories k (<[p := st']> procs) + pinned_count k (<[p := st']> procs) * limit).
  { intros Hs. specialize (Hun (unpinned_before _ _ _ _ _ Hp Hpin Hs)). rewrite Hsum, Hcnt.
    pose proof (Ho k). unfold counted in Hcd. destruct Hcd as [Hd|(Hu & Hi & Hd)]; [nia|].
    unfold pinned_in in *. rewrite bool_decide_eq_false_2 in * by done.
    rewrite bool_decide_eq_true_2 in * by done. nia. }
  split; cbn [bw_procs bw_redis bw_out]; [|by split; [apply Ho|]|done|].
  - apply Forall_insert; [|by split]. eapply Forall_impl; [exact Hmem|]. cbn.
    intros x [Hx1 Hx2]. split; [|done]. intros k'. split; [apply Hx1|apply Ho].
  - rewrite length_insert. destruct (decide (some_unpinned k (<[p := st']> procs))) as [Hs|Hs].
    + specialize (Hun' Hs). apply some_unpinned_count in Hs. rewrite length_insert in Hs. nia.
    + assert (k ∈ rs_pinned st') as Hi.
      { destruct (decide (k ∈ rs_pinned st')) as [|Hn]; [done|]. destruct Hs. apply Exists_exists.
        exists st'. split; [|done]. eapply list_elem_of_lookup_2, list_lookup_insert_eq.
        by eapply lookup_lt_Some. }
      specialize (Hpd Hi). lia.
Qed.

Lemma brun_inv k limit calls w :
  0 ≤ limit → Forall (λ pc, asks k limit pc.2) calls → budget_inv k limit w →
  budget_inv k limit (brun k w calls) ∧ length (bw_procs (brun k w calls)) = length (bw_procs w).
Proof.
  intros Hl Hasks. revert w. induction Hasks as [|[p c] calls Hc _ IH]; intros w Hinv; [done|].
  change (brun k w ((p, c) :: calls)) with (brun k (bworld_step k w (p, c)) calls).
  unfold bworld_step. cbn [fst snd] in *.
  destruct (bw_procs w !! p) as [st|] eqn:Hp; [|by apply IH].
  destruct (bstep k st (bw_redis w) c) as [[st' r'] d] eqn:Hb.
  pose proof (Forall_lookup_1 _ _ _ _ (bi_memory _ _ _ Hinv) Hp) as [Hn Hm].
  apply (bstep_effect k limit) in Hb; [|done|done|apply Hinv|done].
  destruct (IH _ (effect_inv _ _ _ _ _ _ _ _ Hl Hinv Hp Hb)) as [Hi Hlen]. split; [done|].
  rewrite Hlen. cbn. apply length_insert.
Qed.

(** C19. Whatever Redis answers or loses, over any reservations, releases and reads by any number of
    processes that share Redis and fall back on counters of their own: the slots of a grant handed
    out and not released never exceed twice its limit for each process (for a single process one
    budget in Redis and one in memory), every counter stays between 0 and the limit, and each
    granted number lies between 1 and the limit. *)
Theorem reservations_bounded k limit procs r calls :
  0 ≤ limit → (∀ k', rc_value r k' = 0) → Forall (λ st, ∀ k', memory_count st k' = 0) procs →
  Forall (λ pc, asks k limit pc.2) calls →
  let w := brun k (MkBudgetWorld procs r 0) calls in
  bw_out w ≤ 2 * Z.of_nat (length procs) * limit ∧ 0 ≤ rc_value (bw_redis w) k ≤ limit ∧
  Forall (λ st, 0 ≤ memory_count st k ≤ limit) (bw_procs w) ∧
  ∀ p st a mode ns g seq st' r', bw_procs w !! p = Some st →
    budget_reservation_key mode ns g = k →
    budget_reserve rv st (bw_redis w) a mode ns g limit = (Ok seq, (st', r')) → 1 ≤ seq ≤ limit.
Proof.
  intros Hl Hz1 Hz2 Hasks.
  assert (budget_inv k limit (MkBudgetWorld procs r 0)) as Hinv.
  { assert (memories k procs = 0) as Hm0.
    { unfold memories. clear -Hz2. induction Hz2 as [|x l Hx _ IH]; [done|].
      change (memory_count x k + zsum (λ st, memory_count st k) l = 0). rewrite IH, Hx. done. }
    assert (0 ≤ pinned_count k procs) as Hp0.
    { unfold pinned_count. clear. induction procs as [|x l IH]; [done|].
      change (0 ≤ pinned_in k x + zsum (pinned_in k) l). unfold pinned_in at 1.
      case_bool_decide; lia. }
    split; cbn [bw_procs bw_redis bw_out]; rewrite ?Hm0, ?Hz1; [|lia|nia|nia]. eapply Forall_impl; [exact Hz2|].
    intros st Hst. split; [intros k'; rewrite Hst, Hz1; lia|rewrite Hst; lia]. }
  destruct (brun_inv k limit calls _ Hl Hasks Hinv) as [[Hm Hr _ Ho] Hlen]. cbn zeta in *.
  set (w := brun k _ calls) in *. cbn [bw_procs] in Hlen. split_and!.
  - assert (memories k (bw_procs w) ≤ Z.of_nat (length (bw_procs w)) * limit) as Hs.
    { apply zsum_le. eapply Forall_impl; [exact Hm|naive_solver]. }
    rewrite Hlen in *. lia.
  - apply Hr.
  - apply Hr.
  - eapply Forall_impl; [exact Hm|]. intros st [Hn Hlim]. split; [apply Hn|done].
  - intros p st a mode ns g seq st' r' Hp Hk Hres.
    pose proof (Forall_lookup_1 _ _ _ _ Hm Hp) as [Hn Hlim].
    apply reserve_step in Hres as Hs; [|apply Hn].
    destruct (rd_granted _ _ _ _ _ _ _ Hs seq eq_refl) as (Hle & _ & Hseq & _).
    pose proof (Hn (budget_reservation_key mode ns g)). lia.
Qed.
End bounds.

(** ** An instance, and the two budgets *)

#[global] Instance map_counters : RedisCounters (gmap string Z) := {
  rc_value m k := default 0 (m !! k);
  rc_incr m k := (default 0 (m !! k) + 1, <[k := default 0 (m !! k) + 1]> m);
  rc_decrby m k n := (default 0 (m !! k) - n, <[k := default 0 (m !! k) - n]> m)
}.

#[global] Instance map_counter_laws : RedisCounterLaws (gmap string Z).
Proof.
  split; cbn; [done|..]; intros; case_bool_decide as Hk;
    by rewrite ?Hk, ?lookup_insert_eq, ?lookup_insert_ne.
Qed.

Definition demo_reservations : ReservationEnv :=
  {| rv_has_redis := true; rv_attempt_recovery := true; rv_recovery_interval := 5 |}.

Definition redis_up (now : Z) (n : Net) : RedisAnswers :=
  {| ra_ping := Ok true; ra_now := now; ra_probe_ping := Ok true; ra_probe_get := Ok tt;
     ra_client := true; ra_net := n |}.

Definition fresh_reservations : ReservationState :=
  {| rs_memory := ∅; rs_degraded := false; rs_pinned := ∅; rs_last_probe := 0 |}.

Definition no_client : RedisAnswers :=
  {| ra_ping := Ok true; ra_now := 0; ra_probe_ping := Ok true; ra_probe_get := Ok tt;
     ra_client := false; ra_net := connected |}.

Definition reply_lost : RedisAnswers := redis_up 0 (lost_after (builtin_error OtherError "timeout")).

Definition demo_reserve (p : nat) (a : RedisAnswers) : nat * bcall :=
  (p, BReserve a ToolCallMode.PRODUCTION "ns" "g" 2).

Definition demo_budget_key : string := budget_reservation_key ToolCallMode.PRODUCTION "ns" "g".

(** Two processes.  The first takes two slots in memory and two in Redis, and its release of two is
    done twice because the reply is lost; both then take what is left: the bound is reached. *)
Definition demo_reserves : list (nat * bcall) :=
  [demo_reserve 0 no_client; demo_reserve 0 no_client;
   demo_reserve 0 (redis_up 0 connected); demo_reserve 0 (redis_up 0 connected);
   (0%nat, BRelease reply_lost ToolCallMode.PRODUCTION "ns" "g" 2);
   demo_reserve 0 (redis_up 0 connected); demo_reserve 0 (redis_up 0 connected);
   demo_reserve 1 (redis_up 0 connected); demo_reserve 1 (redis_up 0 connected);
   demo_reserve 1 no_client; demo_reserve 1 no_client].

Definition demo_budget_world : BudgetWorld :=
  brun demo_reservations demo_budget_key
    (MkBudgetWorld [fresh_reservations; fresh_reservations] (∅ : gmap string Z) 0) demo_reserves.

Lemma reservations_bounded_witness :
  bw_out demo_budget_world = 8 ∧ bw_out demo_budget_world ≤ 2 * 2 * 2.
Proof.
  split; [vm_compute; reflexivity|].
  apply (reservations_bounded demo_reservations demo_budget_key 2
    [fresh_reservations; fresh_reservations] (∅ : gmap string Z) demo_reserves).
  - lia.
  - intros k'. reflexivity.
  - repeat constructor.
  - repeat constructor.
Defined.
