(* ===== verification/AutoPolicies.v ===== *)
(** * Automatic investigation and response policies (services/auto_investigate_policy.py,
      services/auto_response_policy.py, services/cmu_scheduler.py)

    Which events are investigated without a request, which of these may enter the response phase,
    and in which order intents are claimed.  Priorities are exact rationals where the code computes
    with floating-point numbers; ages are whole seconds. *)

From stdpp Require Import prelude strings.
From Stdlib Require Import Ascii QArith Lqa.
From S2P Require Import Prelude Enums Errors Tables Lifecycles Db.

#[local] Open Scope string_scope.

(** ** Settings *)

Record PolicySettings : Type := {
  ps_auto_investigate_enabled : bool;
  ps_auto_investigate_min_severity : string;
  ps_auto_investigate_event_types : string;
  ps_auto_response_enabled : bool;
  ps_auto_response_min_severity : string;
  ps_auto_response_max_auto_level : string;
  ps_auto_response_event_types : string;
  ps_source_mode : string;
  ps_tool_mode : string;
  ps_disposition_mode : string;
  ps_orchestration_mode : string
}.

Definition PROVISIONAL_LINK_ROLE : string := "provisional".
Definition PRIMARY_LINK_ROLE : string := "primary".
Definition UNKNOWN_LINK_ROLE : string := "unknown".

Definition _SEVERITY_RANK (s : Severity) : Z :=
  match s with
  | Severity.LOW => 0 | Severity.MEDIUM => 1 | Severity.HIGH => 2 | Severity.CRITICAL => 3
  end.

(** [raw or default] *)
Definition or_text (raw default : string) : string := if raw ==? "" then default else raw.

(** [(setting or default).strip().lower()] as a severity, the default if unreadable. *)
Definition severity_setting (raw : string) (fallback : Severity) : Severity :=
  default fallback (enum_of_value (str_lower (str_strip (or_text raw (enum_value fallback))))).

(** [item.strip().lower() for item in raw.split(",") if item.strip()] *)
Definition allowlist_of (raw : string) : list string :=
  (str_lower ∘ str_strip) <$>
    List.filter (λ item, negb (str_strip item ==? "")) (str_split ","%char (str_strip raw)).

(** The text of a JSON object's field. *)
Definition text_field (v : pyval) (k : string) : option string :=
  match v with
  | VDict d => match dict_get d k with Some (VStr s) => Some s | _ => None end
  | _ => None
  end.

Definition non_empty (s : option string) : list string :=
  match s with Some s => if s ==? "" then [] else [s] | None => [] end.

Definition _trusted_mock_provenance (event : SecurityEventRow) (source_product : option string) :
    bool :=
  let products :=
    (((str_lower ∘ str_strip) <$> non_empty source_product)
    ++ ((str_lower ∘ str_strip) <$>
          List.filter (λ p, negb (str_strip p ==? ""))
            (option_list (text_field (se_creation_source_ref event) "source_product")))
    ++ ((str_lower ∘ str_strip) <$> non_empty (se_source_type event)))%list in
  existsb is_mock_source_mode products.

(** ** Eligibility *)

Record PolicyDecision : Type := { pd_eligible : bool; pd_reason : string }.

Definition refuse (reason : string) : PolicyDecision := {| pd_eligible := false; pd_reason := reason |}.

(** The tests the two policies share, after the modes: severity, then event type. *)
Definition severity_and_type (event : SecurityEventRow) (min_severity : Severity)
    (allowlist : list string) (accept : PolicyDecision) : PolicyDecision :=
  match enum_of_value (A:=Severity) (str_lower (se_severity event)) with
  | None => refuse "invalid_severity"
  | Some severity =>
      if (_SEVERITY_RANK severity <? _SEVERITY_RANK min_severity)%Z
      then refuse "below_min_severity"
      else if negb (bool_decide (allowlist = []))
              && negb (str_lower (se_event_type event) ∈? allowlist)
      then refuse "event_type_not_allowed"
      else accept
  end.

(** [AutoInvestigatePolicyService.evaluate] *)
Definition auto_investigate_evaluate (ps : PolicySettings) (event : SecurityEventRow)
    (link_role : string) (source_product : option string) : PolicyDecision :=
  if negb (ps_auto_investigate_enabled ps) then refuse "disabled"
  else if negb (is_mock_source_mode (ps_source_mode ps)) then refuse "source_mode_not_mock_xdr"
  else if link_role ==? PROVISIONAL_LINK_ROLE then refuse "provisional_hold"
  else if se_status event !=? enum_value EventStatus.NEW then refuse "status_not_new"
  else if negb (_trusted_mock_provenance event source_product) then refuse "untrusted_provenance"
  else severity_and_type event
         (severity_setting (ps_auto_investigate_min_severity ps) Severity.MEDIUM)
         (allowlist_of (ps_auto_investigate_event_types ps))
         {| pd_eligible := true; pd_reason := "auto_investigate:policy_match" |}.

Definition full_loop_available (orchestration_mode : string) : bool :=
  negb (str_lower (str_strip (or_text orchestration_mode "graph")) ==? "analysis_only").

Definition max_auto_level (ps : PolicySettings) : ActionLevel :=
  default ActionLevel.L1
    (parse_action_level_label (or_text (ps_auto_response_max_auto_level ps) "L1")).

(** [AutoResponsePolicyService.evaluate] *)
Definition auto_response_evaluate (ps : PolicySettings) (event : SecurityEventRow)
    (link_role : string) (source_product : option string) : PolicyDecision :=
  if negb (ps_auto_response_enabled ps) then refuse "disabled"
  else if negb (full_loop_available (ps_orchestration_mode ps))
  then refuse "orchestration_analysis_only"
  else if negb (is_mock_source_mode (ps_source_mode ps)) then refuse "source_mode_not_mock_xdr"
  else if negb (is_mock_tool_mode (ps_tool_mode ps)) then refuse "tool_mode_not_mock"
  else if negb (is_mock_disposition_mode (ps_disposition_mode ps))
  then refuse "disposition_mode_not_mock"
  else if link_role ==? PROVISIONAL_LINK_ROLE then refuse "provisional_hold"
  else if link_role !=? PRIMARY_LINK_ROLE then refuse "link_role_not_primary"
  else if se_status event !=? enum_value EventStatus.NEW then refuse "status_not_new"
  else if negb (_trusted_mock_provenance event source_product) then refuse "untrusted_provenance"
  else severity_and_type event
         (severity_setting (ps_auto_response_min_severity ps) Severity.HIGH)
         (allowlist_of (ps_auto_response_event_types ps))
         (if max_auto_level ps ∈? AUTO_APPROVABLE_ACTION_LEVELS
          then {| pd_eligible := true; pd_reason := "auto_response:policy_match" |}
          else refuse "max_auto_level_not_auto_approvable").

Definition format_auto_response_audit_reason (d : PolicyDecision) : string :=
  if pd_eligible d then pd_reason d else "auto_response:skipped_" +++ pd_reason d.

(** ** Claim order *)

Definition DEFAULT_EXPECTED_S : Q := 600.
Definition ANALYSIS_ONLY_EXPECTED_S : Q := 300.
Definition AGING_HIGH_CATCHUP_S : Q := 1800.

Definition HOLDING_COST (key : string) : option Q :=
  if key ==? "low" then Some 1%Q
  else if key ==? "medium" then Some 2%Q
  else if key ==? "high" then Some 4%Q
  else if key ==? "critical" then Some 8%Q
  else None.

Definition expected_duration_s (include_response_execution : bool) : Q :=
  if include_response_execution then DEFAULT_EXPECTED_S else ANALYSIS_ONLY_EXPECTED_S.

Definition Q_max (a b : Q) : Q := if Qle_bool a b then b else a.

Definition aging_gamma (expected_s : Q) : Q :=
  (3 / (Q_max expected_s 1 * AGING_HIGH_CATCHUP_S))%Q.

Definition holding_cost (severity : option string) : Q :=
  default 1%Q (HOLDING_COST (str_lower (str_strip (or_text (default "" severity) "low")))).

Definition wait_seconds (created_at now : Z) : Q := inject_Z (Z.max 0 (now - created_at)).

Definition dispatch_priority (severity : option string) (created_at now : Z)
    (include_response_execution : bool) : Q :=
  let duration := Q_max (expected_duration_s include_response_execution) 1 in
  (holding_cost severity * (1 / duration)
   + aging_gamma duration * wait_seconds created_at now)%Q.

(** The SQL expression: [lower] without [strip], an event that is missing costs 1. *)
Definition sql_holding (severity : option string) : Q :=
  match str_lower <$> severity with
  | Some s => if s ==? "critical" then 8%Q else if s ==? "high" then 4%Q
              else if s ==? "medium" then 2%Q else 1%Q
  | None => 1%Q
  end.

Definition priority_expression (severity : option string) (created_at now : Z)
    (include_response_execution : bool) : Q :=
  let duration := expected_duration_s include_response_execution in
  (sql_holding severity / duration
   + (3 / (duration * AGING_HIGH_CATCHUP_S)) * wait_seconds created_at now)%Q.

(** ** What the policies admit *)

Lemma auto_response_eligible (ps : PolicySettings) (event : SecurityEventRow)
    (link_role : string) (source_product : option string) :
  pd_eligible (auto_response_evaluate ps event link_role source_product) = true →
  ps_auto_response_enabled ps = true ∧
  is_mock_source_mode (ps_source_mode ps) = true ∧ is_mock_tool_mode (ps_tool_mode ps) = true ∧
  is_mock_disposition_mode (ps_disposition_mode ps) = true ∧
  full_loop_available (ps_orchestration_mode ps) = true ∧ link_role = PRIMARY_LINK_ROLE ∧
  se_status event = enum_value EventStatus.NEW ∧
  _trusted_mock_provenance event source_product = true ∧
  max_auto_level ps ∈ AUTO_APPROVABLE_ACTION_LEVELS ∧
  (∃ severity, str_lower (se_severity event) = enum_value severity ∧
     (_SEVERITY_RANK (severity_setting (ps_auto_response_min_severity ps) Severity.HIGH)
        ≤ _SEVERITY_RANK severity)%Z).
Proof.
  unfold auto_response_evaluate, severity_and_type.
  destruct (ps_auto_response_enabled ps); [cbn [negb]|done].
  destruct (full_loop_available _); [cbn [negb]|done].
  destruct (is_mock_source_mode _); [cbn [negb]|done].
  destruct (is_mock_tool_mode _); [cbn [negb]|done].
  destruct (is_mock_disposition_mode _); [cbn [negb]|done].
  case_bool_decide; [done|]. case_bool_decide as Hrole; [cbn [negb]|done].
  case_bool_decide as Hst; [cbn [negb]|done].
  destruct (_trusted_mock_provenance _ _); [cbn [negb]|done].
  destruct (enum_of_value _) as [severity|] eqn:Hs; [|done].
  destruct (Z.ltb_spec (_SEVERITY_RANK severity)
    (_SEVERITY_RANK (severity_setting (ps_auto_response_min_severity ps) Severity.HIGH))); [done|].
  destruct (_ && _); [done|]. case_bool_decide; [|done]. intros _.
  split_and!; try done. exists severity. apply enum_of_value_Some in Hs. done.
Qed.

(** ** What the order guarantees *)

Lemma wait_monotone c c' now : (c ≤ c')%Z → (wait_seconds c' now <= wait_seconds c now)%Q.
Proof. intros Hc. unfold wait_seconds. rewrite <-Zle_Qle. lia. Qed.

Lemma duration_positive b : (0 < expected_duration_s b)%Q.
Proof. by destruct b. Qed.

(** The Python formula and the SQL expression agree on a readable severity. *)
Lemma dispatch_priority_sql (s : Severity) created_at now b :
  (dispatch_priority (Some (enum_value s)) created_at now b
   == priority_expression (Some (enum_value s)) created_at now b)%Q.
Proof.
  unfold dispatch_priority, priority_expression, aging_gamma.
  assert (sql_holding (Some (enum_value s)) = holding_cost (Some (enum_value s))) as ->
    by (by destruct s; vm_compute).
  generalize (holding_cost (Some (enum_value s))), (wait_seconds created_at now). intros h w.
  replace (Q_max (expected_duration_s b) 1) with (expected_duration_s b) by (by destruct b).
  replace (Q_max (expected_duration_s b) 1) with (expected_duration_s b) by (by destruct b).
  unfold AGING_HIGH_CATCHUP_S. destruct b; unfold expected_duration_s, DEFAULT_EXPECTED_S,
    ANALYSIS_ONLY_EXPECTED_S; field.
Qed.

(** Older first within one class. *)
Lemma priority_fifo severity b c c' now :
  (c ≤ c')%Z →
  (priority_expression severity c' now b <= priority_expression severity c now b)%Q.
Proof.
  intros Hc. unfold priority_expression. apply Qplus_le_r.
  apply (Qmult_le_l _ _ (3 / (expected_duration_s b * AGING_HIGH_CATCHUP_S))%Q); [by destruct b|].
  by apply wait_monotone.
Qed.

(** A LOW intent that waited half an hour has caught up with a fresh HIGH one. *)
Lemma low_catches_up b now c :
  (1800 ≤ now - c)%Z →
  (priority_expression (Some "high") now now b <= priority_expression (Some "low") c now b)%Q.
Proof.
  intros Hw. unfold priority_expression, wait_seconds. rewrite Z.sub_diag, Z.max_id.
  rewrite Z.max_r by lia.
  assert (1800 <= inject_Z (now - c))%Q as Hq by (by rewrite (Zle_Qle 1800) in Hw).
  revert Hq. generalize (inject_Z (now - c)). intros q Hq.
  change (sql_holding (Some "high")) with 4%Q. change (sql_holding (Some "low")) with 1%Q.
  unfold expected_duration_s, DEFAULT_EXPECTED_S, ANALYSIS_ONLY_EXPECTED_S, AGING_HIGH_CATCHUP_S.
  destruct b.
  - assert ((3 / (600 * 1800)) == (1 # 360000))%Q as -> by done.
    assert ((4 / 600) == (4 # 600))%Q as -> by done.
    assert ((1 / 600) == (1 # 600))%Q as -> by done. change (inject_Z 0) with 0%Q. lra.
  - assert ((3 / (300 * 1800)) == (1 # 180000))%Q as -> by done.
    assert ((4 / 300) == (4 # 300))%Q as -> by done.
    assert ((1 / 300) == (1 # 300))%Q as -> by done. change (inject_Z 0) with 0%Q. lra.
Qed.
