(* ===== verification/ToolGrants.v ===== *)
(** * Grants for dynamic tool calls (services/tool_call_grant_service.py,
      services/tool_call_grant_resolver.py, models/tool_call_grant.py)

    A grant allows a bounded number of tool calls for one event.  Attempts are counted in PostgreSQL
    and, as a second opinion, in the budget of [BudgetReservation]; an attempt on which the two
    disagree is rolled back.  Keys, tokens and clock readings are arguments, as is SHA-256; what other
    processes do between the transactions of one call is an argument too. *)

From stdpp Require Import prelude strings gmap.
From S2P Require Import Prelude Enums Errors Db Lease BudgetReservation.

#[local] Open Scope string_scope.
#[local] Open Scope Z_scope.

Definition TOOL_CALL_GRANT_SCHEMA_VERSION : string := "1.0".
Definition DEFAULT_TOOL_CALL_GRANT_POLICY_VERSION : string := "tool-grant-v1".

(** ** Models *)

Record BoundExecutionPrincipal : Type := {
  bp_principal_id : string;
  bp_agent_name : string;
  bp_actor_type : string
}.

Definition length_within (lo hi : nat) (s : string) : bool :=
  (lo <=? String.length s)%nat && (String.length s <=? hi)%nat.

Definition principal_valid (p : BoundExecutionPrincipal) : bool :=
  length_within 8 128 (bp_principal_id p) && length_within 1 128 (bp_agent_name p)
  && length_within 1 64 (bp_actor_type p).

Record ToolCallGrantScope : Type := {
  gs_allowed_tools : list string;
  gs_allowed_domains : list string;
  gs_allowed_entities : list string;
  gs_connector_ids : list string
}.

(** Stripped, without empty and repeated items. *)
Fixpoint normalize_tokens (seen items : list string) : list string :=
  match items with
  | [] => []
  | item :: items' =>
      let token := str_strip item in
      if (token ==? "") || (token ∈? seen) then normalize_tokens seen items'
      else token :: normalize_tokens (token :: seen) items'
  end.

Definition _normalize_scope_lists (sc : ToolCallGrantScope) : ToolCallGrantScope := {|
  gs_allowed_tools := normalize_tokens [] (gs_allowed_tools sc);
  gs_allowed_domains := normalize_tokens [] (gs_allowed_domains sc);
  gs_allowed_entities := normalize_tokens [] (gs_allowed_entities sc);
  gs_connector_ids := normalize_tokens [] (gs_connector_ids sc)
|}.

Record ToolCallGrant : Type := {
  tg_grant_id : string;
  tg_mode : ToolCallMode;
  tg_namespace_key : string;
  tg_shadow_run_id : option string;
  tg_event_id : string;
  tg_plan_step_id : option string;
  tg_task_id : option string;
  tg_tenant_id : string;
  tg_scope : ToolCallGrantScope;
  tg_execution_principal : BoundExecutionPrincipal;
  tg_max_calls : Z;
  tg_attempt_count : Z;
  tg_valid_from : Z;
  tg_expires_at : Z;
  tg_policy_version : string;
  tg_schema_version : string;
  tg_revoked_at : option Z;
  tg_created_at : Z
}.

(** The field constraints, then [_shadow_mode_requires_run_id]. *)
Definition ToolCallGrant_validate (g : ToolCallGrant) : result ToolCallGrant :=
  raise_if (negb (principal_valid (tg_execution_principal g)))
    (builtin_error ValueError "execution_principal") ;;
  raise_if (negb ((1 <=? tg_max_calls g) && (tg_max_calls g <=? 10000)))
    (builtin_error ValueError "max_calls") ;;
  raise_if (tg_attempt_count g <? 0) (builtin_error ValueError "attempt_count") ;;
  raise_if ((tg_mode g ==? ToolCallMode.SHADOW)
            && (str_strip (default "" (tg_shadow_run_id g)) ==? ""))
    (builtin_error ValueError "shadow_run_id is required when mode=shadow") ;;
  raise_if ((tg_mode g !=? ToolCallMode.SHADOW) && truthy_str (tg_shadow_run_id g))
    (builtin_error ValueError "shadow_run_id must be null unless mode=shadow") ;;
  raise_if (tg_expires_at g <=? tg_valid_from g)
    (builtin_error ValueError "expires_at must be after valid_from") ;;
  Ok g.

Record ToolCallGrantCreateRequest : Type := {
  cr_mode : ToolCallMode;
  cr_shadow_run_id : option string;
  cr_event_id : string;
  cr_plan_step_id : option string;
  cr_task_id : option string;
  cr_tenant_id : string;
  cr_scope : ToolCallGrantScope;
  cr_execution_principal : BoundExecutionPrincipal;
  cr_max_calls : Z;
  cr_valid_for_seconds : Z;
  cr_policy_version : string;
  cr_idempotency_key : string
}.

(** The field constraints of the request. *)
Definition create_request_valid (q : ToolCallGrantCreateRequest) : bool :=
  principal_valid (cr_execution_principal q)
  && (1 <=? cr_max_calls q) && (cr_max_calls q <=? 10000)
  && (1 <=? cr_valid_for_seconds q) && (cr_valid_for_seconds q <=? 86400)
  && length_within 8 256 (cr_idempotency_key q).

(** ** Tables *)

Record GrantRow : Type := {
  gr_grant_id : string;
  gr_mode : string;
  gr_namespace_key : string;
  gr_shadow_run_id : option string;
  gr_event_id : string;
  gr_plan_step_id : option string;
  gr_task_id : option string;
  gr_tenant_id : string;
  gr_scope : ToolCallGrantScope;
  gr_execution_principal : BoundExecutionPrincipal;
  gr_max_calls : Z;
  gr_attempt_count : Z;
  gr_valid_from : Z;
  gr_expires_at : Z;
  gr_policy_version : string;
  gr_schema_version : string;
  gr_grant_token_hash : string;
  gr_revoked_at : option Z;
  gr_idempotency_key : string;
  gr_created_at : Z
}.

Record AttemptRow : Type := {
  at_attempt_id : string;
  at_grant_id : string;
  at_mode : string;
  at_namespace_key : string;
  at_shadow_run_id : option string;
  at_event_id : string;
  at_tool_name : string;
  at_attempt_seq : Z;
  at_status : string;
  at_denial_reason : option string;
  at_params_hash : string;
  at_result_status : option string;
  at_projection_hash : option string;
  at_created_at : Z
}.

Record GrantDb : Type := MkGrantDb { gd_grants : list GrantRow; gd_attempts : list AttemptRow }.

Definition row_with_count (r : GrantRow) (count : Z) (revoked_at : option Z) : GrantRow := {|
  gr_grant_id := gr_grant_id r; gr_mode := gr_mode r; gr_namespace_key := gr_namespace_key r;
  gr_shadow_run_id := gr_shadow_run_id r; gr_event_id := gr_event_id r;
  gr_plan_step_id := gr_plan_step_id r; gr_task_id := gr_task_id r; gr_tenant_id := gr_tenant_id r;
  gr_scope := gr_scope r; gr_execution_principal := gr_execution_principal r;
  gr_max_calls := gr_max_calls r; gr_attempt_count := count; gr_valid_from := gr_valid_from r;
  gr_expires_at := gr_expires_at r; gr_policy_version := gr_policy_version r;
  gr_schema_version := gr_schema_version r; gr_grant_token_hash := gr_grant_token_hash r;
  gr_revoked_at := revoked_at; gr_idempotency_key := gr_idempotency_key r;
  gr_created_at := gr_created_at r
|}.

Definition attempt_with (a : AttemptRow) (status : ToolCallAttemptStatus)
    (denial_reason result_status projection_hash : option string) : AttemptRow := {|
  at_attempt_id := at_attempt_id a; at_grant_id := at_grant_id a; at_mode := at_mode a;
  at_namespace_key := at_namespace_key a; at_shadow_run_id := at_shadow_run_id a;
  at_event_id := at_event_id a; at_tool_name := at_tool_name a; at_attempt_seq := at_attempt_seq a;
  at_status := enum_value status; at_denial_reason := denial_reason;
  at_params_hash := at_params_hash a; at_result_status := result_status;
  at_projection_hash := projection_hash; at_created_at := at_created_at a
|}.

Definition get_grant (db : GrantDb) (grant_id : string) : option GrantRow :=
  get_by gr_grant_id grant_id (gd_grants db).

(** ** Resolution *)

Definition build_namespace_key (mode : ToolCallMode) (event_id : string)
    (shadow_run_id : option string) : result string :=
  match mode with
  | ToolCallMode.SHADOW =>
      let run_id := str_strip (default "" shadow_run_id) in
      if run_id ==? ""
      then Err (builtin_error ValueError "shadow_run_id is required for shadow namespace")
      else Ok ("shadow:" +++ run_id)
  | ToolCallMode.COMPATIBILITY => Ok ("compat:" +++ event_id)
  | ToolCallMode.PRODUCTION => Ok ("production:" +++ event_id)
  end.

Definition grant_from_row (r : GrantRow) : result ToolCallGrant :=
  mode ← enum_of_value_or_raise (gr_mode r);
  ToolCallGrant_validate {|
    tg_grant_id := gr_grant_id r; tg_mode := mode; tg_namespace_key := gr_namespace_key r;
    tg_shadow_run_id := gr_shadow_run_id r; tg_event_id := gr_event_id r;
    tg_plan_step_id := gr_plan_step_id r; tg_task_id := gr_task_id r;
    tg_tenant_id := gr_tenant_id r; tg_scope := _normalize_scope_lists (gr_scope r);
    tg_execution_principal := gr_execution_principal r; tg_max_calls := gr_max_calls r;
    tg_attempt_count := gr_attempt_count r; tg_valid_from := gr_valid_from r;
    tg_expires_at := gr_expires_at r; tg_policy_version := gr_policy_version r;
    tg_schema_version := gr_schema_version r; tg_revoked_at := gr_revoked_at r;
    tg_created_at := gr_created_at r |}.

(** A text parameter, stripped; [None] when it is absent, no text or blank. *)
Definition scoped_param (params : list (string * pyval)) (k : string) : option string :=
  match dict_get params k with
  | Some (VStr s) => if str_strip s ==? "" then None else Some (str_strip s)
  | _ => None
  end.

Definition entity_keys : list string := ["entity_id"; "account"; "host"; "ip"; "process_name"].

(** The loop over the entity parameters: a denial, or whether one matched. *)
Fixpoint entity_scan (params : list (string * pyval)) (allowed keys : list string) (matched : bool) :
    string + bool :=
  match keys with
  | [] => inr matched
  | k :: keys' =>
      match scoped_param params k with
      | Some v => if v ∈? allowed then entity_scan params allowed keys' true
                  else inl (k +++ " not in grant scope")
      | None => entity_scan params allowed keys' matched
      end
  end.

Definition connector_denial (params : list (string * pyval)) (sc : ToolCallGrantScope) :
    option string :=
  if bool_decide (gs_connector_ids sc = []) then None
  else match (match scoped_param params "connector_id" with
              | Some c => Some c | None => scoped_param params "source_connector_id" end) with
       | None => Some "connector scope requires explicit connector_id or source_connector_id"
       | Some c => if c ∈? gs_connector_ids sc then None else Some "connector_id not in grant scope"
       end.

Definition domain_denial (params : list (string * pyval)) (sc : ToolCallGrantScope) :
    option string :=
  if bool_decide (gs_allowed_domains sc = []) then None
  else match scoped_param params "domain" with
       | None => Some "domain scope requires explicit domain parameter"
       | Some d => if d ∈? gs_allowed_domains sc then None else Some "domain not in grant scope"
       end.

Definition entity_denial (params : list (string * pyval)) (sc : ToolCallGrantScope) :
    option string :=
  if bool_decide (gs_allowed_entities sc = []) then None
  else match entity_scan params (gs_allowed_entities sc) entity_keys false with
       | inl reason => Some reason
       | inr true => None
       | inr false => Some "entity scope requires explicit scoped entity parameter"
       end.

Definition validate_scope_params (params : list (string * pyval)) (sc : ToolCallGrantScope) :
    option string :=
  match connector_denial params sc with
  | Some reason => Some reason
  | None => match domain_denial params sc with
            | Some reason => Some reason
            | None => entity_denial params sc
            end
  end.

(** ** The service *)

Record GrantEnv : Type := {
  ge_available : bool;
  ge_sha256 : string → string;
  ge_params_fingerprint : list (string * pyval) → string
}.

Definition grant_unavailable (message : string) (details : list (string * pyval)) : error :=
  ShadowTraceError_init ToolCallGrantUnavailableError message None details.

Definition grant_denied (message : string) (details : list (string * pyval)) : error :=
  ShadowTraceError_init ToolCallGrantDeniedError message None details.

Definition grant_detail (grant_id : string) : string * pyval := ("grant_id", VStr grant_id).

Definition new_grant_row (ge : GrantEnv) (now dbnow : Z) (q : ToolCallGrantCreateRequest)
    (namespace_key token grant_id : string) : GrantRow := {|
  gr_grant_id := grant_id; gr_mode := enum_value (cr_mode q); gr_namespace_key := namespace_key;
  gr_shadow_run_id := cr_shadow_run_id q; gr_event_id := cr_event_id q;
  gr_plan_step_id := cr_plan_step_id q; gr_task_id := cr_task_id q; gr_tenant_id := cr_tenant_id q;
  gr_scope := _normalize_scope_lists (cr_scope q);
  gr_execution_principal := cr_execution_principal q; gr_max_calls := cr_max_calls q;
  gr_attempt_count := 0; gr_valid_from := now; gr_expires_at := now + cr_valid_for_seconds q;
  gr_policy_version := cr_policy_version q; gr_schema_version := TOOL_CALL_GRANT_SCHEMA_VERSION;
  gr_grant_token_hash := ge_sha256 ge token; gr_revoked_at := None;
  gr_idempotency_key := cr_idempotency_key q; gr_created_at := dbnow
|}.

Definition grant_by_key (db : GrantDb) (key : string) : option GrantRow :=
  List.find (λ r, gr_idempotency_key r ==? key) (gd_grants db).

Definition grant_conflict (db : GrantDb) (row : GrantRow) : bool :=
  existsb (λ r, (gr_grant_id r ==? gr_grant_id row)
                || (gr_idempotency_key r ==? gr_idempotency_key row)) (gd_grants db).

(** [others]: what other processes commit between the lookup and the insertion. *)
Definition issue_grant (ge : GrantEnv) (now dbnow : Z) (db : GrantDb)
    (q : ToolCallGrantCreateRequest) (token grant_id : string) (others : GrantDb → GrantDb) :
    result (ToolCallGrant * string) * GrantDb :=
  if negb (ge_available ge) then
    (Err (grant_unavailable "tool call grant service unavailable"
            [("reason", VStr "service_disabled")]), db)
  else if cr_mode q ==? ToolCallMode.COMPATIBILITY then
    (Err (ShadowTraceError_init ValidationError "compatibility mode grants are not issuable" None []),
     db)
  else match build_namespace_key (cr_mode q) (cr_event_id q) (cr_shadow_run_id q) with
       | Err e => (Err e, db)
       | Ok namespace_key =>
           let row := new_grant_row ge now dbnow q namespace_key token grant_id in
           match grant_by_key db (cr_idempotency_key q) with
           | Some existing =>
               if gr_event_id existing !=? cr_event_id q then
                 (Err (ShadowTraceError_init ValidationError
                         "idempotency_key reused for different event_id" None
                         [("idempotency_key", VStr (cr_idempotency_key q))]), db)
               else (g ← grant_from_row existing; Ok (g, ""), db)
           | None =>
               let db := others db in
               if grant_conflict db row then
                 match grant_by_key db (cr_idempotency_key q) with
                 | Some replay => (g ← grant_from_row replay; Ok (g, ""), db)
                 | None =>
                     (Err (ShadowTraceError_init ValidationError "failed to issue tool call grant"
                             None []), db)
                 end
               else (g ← grant_from_row row; Ok (g, token),
                     MkGrantDb (gd_grants db ++ [row])%list (gd_attempts db))
           end
       end.

Definition load_grant_trusted (ge : GrantEnv) (db : GrantDb) (grant_id : string) :
    result ToolCallGrant :=
  raise_if (negb (ge_available ge))
    (grant_unavailable "tool call grant service unavailable" [grant_detail grant_id]) ;;
  match get_grant db grant_id with
  | None => Err (grant_denied "unknown grant_id" [grant_detail grant_id])
  | Some r => grant_from_row r
  end.

Definition load_grant (ge : GrantEnv) (db : GrantDb) (grant_id grant_token : string) :
    result ToolCallGrant :=
  raise_if (negb (ge_available ge))
    (grant_unavailable "tool call grant service unavailable" [grant_detail grant_id]) ;;
  match get_grant db grant_id with
  | None => Err (grant_denied "unknown grant_id" [grant_detail grant_id])
  | Some r =>
      raise_if (gr_grant_token_hash r !=? ge_sha256 ge grant_token)
        (grant_denied "grant token tampered or invalid"
           [grant_detail grant_id; ("reason", VStr "token_mismatch")]) ;;
      grant_from_row r
  end.

Definition _assert_grant_live (now : Z) (g : ToolCallGrant) (event_id : string) : result unit :=
  raise_if (negb (bool_decide (tg_revoked_at g = None)))
    (grant_denied "grant revoked" [grant_detail (tg_grant_id g)]) ;;
  raise_if (now <? tg_valid_from g) (grant_denied "grant not yet valid" [grant_detail (tg_grant_id g)]) ;;
  raise_if (tg_expires_at g <=? now) (grant_denied "grant expired" [grant_detail (tg_grant_id g)]) ;;
  raise_if (tg_event_id g !=? event_id)
    (grant_denied "cross-event grant reuse denied"
       [grant_detail (tg_grant_id g); ("expected_event_id", VStr (tg_event_id g))]).

Definition calls_exhausted (g : ToolCallGrant) : error :=
  grant_denied "grant max_calls exhausted"
    [grant_detail (tg_grant_id g); ("max_calls", VInt (tg_max_calls g))].

(** The conditional UPDATE. *)
Definition countable (now : Z) (r : GrantRow) : bool :=
  bool_decide (gr_revoked_at r = None) && (now <? gr_expires_at r) && (gr_valid_from r <=? now)
  && (gr_attempt_count r <? gr_max_calls r).

Record AttemptArgs : Type := {
  aa_attempt_id : string;
  aa_tool_name : string;
  aa_params : list (string * pyval);
  aa_event_id : string
}.

Definition new_attempt_row (ge : GrantEnv) (dbnow : Z) (g : ToolCallGrant) (aa : AttemptArgs)
    (seq : Z) : AttemptRow := {|
  at_attempt_id := aa_attempt_id aa; at_grant_id := tg_grant_id g;
  at_mode := enum_value (tg_mode g); at_namespace_key := tg_namespace_key g;
  at_shadow_run_id := tg_shadow_run_id g; at_event_id := aa_event_id aa;
  at_tool_name := aa_tool_name aa; at_attempt_seq := seq;
  at_status := enum_value ToolCallAttemptStatus.RESERVED; at_denial_reason := None;
  at_params_hash := ge_params_fingerprint ge (aa_params aa); at_result_status := None;
  at_projection_hash := None; at_created_at := dbnow
|}.

(** The keys of the attempts: the attempt id, and the grant with the sequence number. *)
Definition attempt_conflict (db : GrantDb) (row : AttemptRow) : bool :=
  existsb (λ a, (at_attempt_id a ==? at_attempt_id row)
                || ((at_grant_id a ==? at_grant_id row) && (at_attempt_seq a =? at_attempt_seq row)))
    (gd_attempts db).

Definition reserve_attempt_tx (ge : GrantEnv) (now dbnow : Z) (db : GrantDb) (g : ToolCallGrant)
    (aa : AttemptArgs) : result (AttemptRow * ToolCallGrant) * GrantDb :=
  match get_grant db (tg_grant_id g) with
  | None => (Err (calls_exhausted g), db)
  | Some r =>
      if negb (countable now r) then (Err (calls_exhausted g), db)
      else
        let seq := gr_attempt_count r + 1 in
        let record := new_attempt_row ge dbnow g aa seq in
        if attempt_conflict db record then
          (Err (grant_unavailable "tool call grant persistence unavailable"
                  [grant_detail (tg_grant_id g); ("reason", VStr "IntegrityError")]), db)
        else
          let fresh := row_with_count r seq (gr_revoked_at r) in
          let db := MkGrantDb (update_by gr_grant_id fresh (gd_grants db))
                      (gd_attempts db ++ [record])%list in
          (g ← grant_from_row fresh; Ok (record, g), db)
  end.

Definition _rollback_reserved_attempt (db : GrantDb) (grant_id attempt_id denial_reason : string) :
    GrantDb :=
  let grants :=
    match get_grant db grant_id with
    | Some r => if 0 <? gr_attempt_count r
                then update_by gr_grant_id
                       (row_with_count r (gr_attempt_count r - 1) (gr_revoked_at r)) (gd_grants db)
                else gd_grants db
    | None => gd_grants db
    end in
  let attempts :=
    match get_by at_attempt_id attempt_id (gd_attempts db) with
    | Some a => update_by at_attempt_id
                  (attempt_with a ToolCallAttemptStatus.DENIED (Some denial_reason)
                     (at_result_status a) (at_projection_hash a)) (gd_attempts db)
    | None => gd_attempts db
    end in
  MkGrantDb grants attempts.

Section service.
Context {R : Type} `{RedisCounters R} (rv : ReservationEnv) (ge : GrantEnv).

Record GrantWorld : Type := MkGrantWorld {
  gw_db : GrantDb;
  gw_reservations : ReservationState;
  gw_redis : R
}.

(** The clock readings and answers of one call. *)
Record AttemptClock : Type := {
  ac_checked : Z;
  ac_updated : Z;
  ac_created : Z;
  ac_reserve : RedisAnswers;
  ac_release : RedisAnswers
}.

(** [others]: what other processes do before the transaction, before the reservation in the budget,
    and before a rollback. *)
Definition reserve_attempt (ck : AttemptClock) (w : GrantWorld) (grant_id : string)
    (aa : AttemptArgs) (others : nat → GrantWorld → GrantWorld) :
    result (AttemptRow * ToolCallGrant) * GrantWorld :=
  match (g ← load_grant_trusted ge (gw_db w) grant_id;
         _assert_grant_live (ac_checked ck) g (aa_event_id aa) ;; Ok g) with
  | Err e => (Err e, w)
  | Ok g =>
      let w := others 0%nat w in
      match reserve_attempt_tx ge (ac_updated ck) (ac_created ck) (gw_db w) g aa with
      | (Err e, db) => (Err e, MkGrantWorld db (gw_reservations w) (gw_redis w))
      | (Ok (record, g), db) =>
          let w := others 1%nat (MkGrantWorld db (gw_reservations w) (gw_redis w)) in
          let rolled_back w reason :=
            MkGrantWorld
              (_rollback_reserved_attempt (gw_db w) (tg_grant_id g) (aa_attempt_id aa) reason)
              (gw_reservations w) (gw_redis w) in
          match budget_reserve rv (gw_reservations w) (gw_redis w) (ac_reserve ck) (tg_mode g)
                  (tg_namespace_key g) (tg_grant_id g) (tg_max_calls g) with
          | (Err e, (st, r)) =>
              let w := others 2%nat (MkGrantWorld (gw_db w) st r) in
              (Err (if err_class e ==? ValueError then calls_exhausted g
                    else grant_unavailable "tool call grant budget reservation unavailable"
                           [grant_detail (tg_grant_id g);
                            ("reason", VStr (error_type_name (err_class e)))]),
               rolled_back w "grant budget reservation failed")
          | (Ok seq, (st, r)) =>
              if seq =? at_attempt_seq record then (Ok (record, g), MkGrantWorld (gw_db w) st r)
              else
                let '(st, r) := budget_release rv st r (ac_release ck) (tg_mode g)
                                  (tg_namespace_key g) (tg_grant_id g) 1 in
                let w := others 2%nat (MkGrantWorld (gw_db w) st r) in
                (Err (grant_denied "grant budget seq mismatch"
                        [grant_detail (tg_grant_id g); ("reserved_seq", VInt seq);
                         ("authoritative_seq", VInt (at_attempt_seq record))]),
                 rolled_back w "grant budget seq mismatch")
          end
      end
  end.
End service.

Definition finalize_attempt (db : GrantDb) (attempt_id : string) (status : ToolCallAttemptStatus)
    (denial_reason result_status projection_hash : option string) : GrantDb :=
  match get_by at_attempt_id attempt_id (gd_attempts db) with
  | None => db
  | Some a =>
      MkGrantDb (gd_grants db)
        (update_by at_attempt_id
           (attempt_with a status denial_reason result_status projection_hash) (gd_attempts db))
  end.

Definition revoke_grant (now : Z) (db : GrantDb) (grant_id : string) :
    result ToolCallGrant * GrantDb :=
  match get_grant db grant_id with
  | None => (Err (grant_denied "unknown grant_id" [grant_detail grant_id]), db)
  | Some r =>
      let r' := row_with_count r (gr_attempt_count r) (Some now) in
      (grant_from_row r', MkGrantDb (update_by gr_grant_id r' (gd_grants db)) (gd_attempts db))
  end.

Definition count_attempts (db : GrantDb) (grant_id : string) : Z :=
  match get_grant db grant_id with Some r => gr_attempt_count r | None => 0 end.

Definition count_production_attempts_for_event (db : GrantDb) (event_id : string) : nat :=
  length (List.filter (λ a, (at_event_id a ==? event_id)
                            && (at_mode a ==? enum_value ToolCallMode.PRODUCTION)) (gd_attempts db)).

Definition count_production_grants_for_event (db : GrantDb) (event_id : string) : nat :=
  length (List.filter (λ r, (gr_event_id r ==? event_id)
                            && (gr_mode r ==? enum_value ToolCallMode.PRODUCTION)) (gd_grants db)).
