(* ===== verification/ToolGrantFacts.v ===== *)
(** * Guarantees of the tool-call grants *)

From stdpp Require Import prelude strings gmap sorting.
From S2P Require Import Prelude Enums Errors Db Reconcile Lease BudgetReservation.
From S2P Require Import ToolGrants.

#[local] Open Scope string_scope.
#[local] Open Scope Z_scope.

(** ** Scopes *)

(** What a scope allows. *)
Definition within_scope (params : list (string * pyval)) (sc : ToolCallGrantScope) : Prop :=
  (gs_connector_ids sc = [] ∨
   ∃ c, c ∈ gs_connector_ids sc ∧
     (scoped_param params "connector_id" = Some c ∨
      scoped_param params "connector_id" = None ∧ scoped_param params "source_connector_id" = Some c)) ∧
  (gs_allowed_domains sc = [] ∨
   ∃ d, d ∈ gs_allowed_domains sc ∧ scoped_param params "domain" = Some d) ∧
  (gs_allowed_entities sc = [] ∨
   (∃ k v, k ∈ entity_keys ∧ scoped_param params k = Some v) ∧
   ∀ k v, k ∈ entity_keys → scoped_param params k = Some v → v ∈ gs_allowed_entities sc).

Lemma entity_scan_true params allowed keys m :
  entity_scan params allowed keys m = inr true ↔
  (m = true ∨ ∃ k v, k ∈ keys ∧ scoped_param params k = Some v) ∧
  ∀ k v, k ∈ keys → scoped_param params k = Some v → v ∈ allowed.
Proof.
  revert m. induction keys as [|k keys IH]; intros m; cbn [entity_scan].
  { split.
    - intros [= ->]. split; [by left|]. by intros k v Hk%elem_of_nil.
    - intros [[->|(k & v & Hk & _)] _]; [done|by apply elem_of_nil in Hk]. }
  destruct (scoped_param params k) as [v|] eqn:Hv.
  - case_bool_decide as Hin.
    + rewrite IH. split.
      * intros [_ Hall]. split; [right; exists k, v; split; [by left|done]|].
        intros k' v' [->|Hk]%elem_of_cons Hv'; [congruence|by eapply Hall].
      * intros [_ Hall]. split; [by left|]. intros k' v' Hk. apply Hall. by right.
    + split; [done|]. intros [_ Hall]. destruct Hin. apply (Hall k); [by left|done].
  - rewrite IH. split; intros [Hm Hall]; (split; [destruct Hm as [?|(k' & v' & Hk & Hv')]; [by left|]|]).
    + right. exists k', v'. split; [by right|done].
    + intros k' v' [->|Hk]%elem_of_cons Hv'; [congruence|by eapply Hall].
    + apply elem_of_cons in Hk as [->|Hk]; [congruence|]. right. by exists k', v'.
    + intros k' v' Hk. apply Hall. by right.
Qed.

Lemma scope_params_spec params sc : validate_scope_params params sc = None ↔ within_scope params sc.
Proof.
  assert (connector_denial params sc = None ↔ (within_scope params
    {| gs_allowed_tools := []; gs_allowed_domains := []; gs_allowed_entities := [];
       gs_connector_ids := gs_connector_ids sc |})) as Hc.
  { unfold connector_denial, within_scope; cbn. case_bool_decide as He; [by rewrite He; naive_solver|].
    destruct (scoped_param params "connector_id") as [c|];
      [|destruct (scoped_param params "source_connector_id") as [c|]];
      try case_bool_decide; naive_solver. }
  assert (domain_denial params sc = None ↔ (gs_allowed_domains sc = [] ∨
    ∃ d, d ∈ gs_allowed_domains sc ∧ scoped_param params "domain" = Some d)) as Hd.
  { unfold domain_denial. case_bool_decide as He; [naive_solver|].
    destruct (scoped_param params "domain") as [d|]; try case_bool_decide; naive_solver. }
  assert (entity_denial params sc = None ↔ (gs_allowed_entities sc = [] ∨
    (∃ k v, k ∈ entity_keys ∧ scoped_param params k = Some v) ∧
    ∀ k v, k ∈ entity_keys → scoped_param params k = Some v → v ∈ gs_allowed_entities sc)) as He.
  { unfold entity_denial. case_bool_decide as Hn; [naive_solver|].
    pose proof (entity_scan_true params (gs_allowed_entities sc) entity_keys false) as Hs.
    destruct (entity_scan _ _ _ _) as [reason|[|]]; naive_solver. }
  unfold validate_scope_params. unfold within_scope in *. cbn in Hc.
  destruct (connector_denial params sc); [naive_solver|]. destruct (domain_denial params sc); naive_solver.
Qed.

(** The parameters of a tool call pass exactly when they stay within the scope of the grant: a
    named connector, domain and entities wherever the scope lists any, and every entity parameter
    among the allowed ones. *)
Theorem scope_params_exact params sc : validate_scope_params params sc = None ↔ within_scope params sc.
Proof. apply scope_params_spec. Qed.

(** ** The ledger *)

Record grants_ok (db : GrantDb) : Prop := {
  gk_grants : NoDup (gr_grant_id <$> gd_grants db);
  gk_ids : NoDup (at_attempt_id <$> gd_attempts db);
  gk_seqs : NoDup ((λ a, (at_grant_id a, at_attempt_seq a)) <$> gd_attempts db);
  gk_counts : ∀ r, r ∈ gd_grants db → 0 ≤ gr_attempt_count r ≤ gr_max_calls r;
  gk_range : ∀ a, a ∈ gd_attempts db →
    ∃ r, r ∈ gd_grants db ∧ gr_grant_id r = at_grant_id a ∧ 1 ≤ at_attempt_seq a ≤ gr_max_calls r
}.

(** What never changes of a grant. *)
Definition same_grant (r r' : GrantRow) : Prop :=
  gr_grant_id r' = gr_grant_id r ∧ gr_event_id r' = gr_event_id r ∧
  gr_max_calls r' = gr_max_calls r ∧ gr_expires_at r' = gr_expires_at r ∧
  (is_Some (gr_revoked_at r) → is_Some (gr_revoked_at r')).

Definition same_attempt (a a' : AttemptRow) : Prop :=
  at_attempt_id a' = at_attempt_id a ∧ at_grant_id a' = at_grant_id a ∧
  at_attempt_seq a' = at_attempt_seq a.

(** A column that the update of a row keeps. *)
Lemma update_by_column {A B} (f : A → B) (pk : A → string) l y :
  (∀ x, x ∈ l → pk x = pk y → f y = f x) → f <$> update_by pk y l = f <$> l.
Proof.
  intros Hf. unfold update_by. change (map ?g l) with (g <$> l). rewrite <-list_fmap_compose.
  apply list_fmap_ext. intros i x Hx%list_elem_of_lookup_2. cbn. case_bool_decide; auto.
Qed.

(** Rows in place. *)
Lemma put_grants_ok db r r' :
  grants_ok db → r ∈ gd_grants db → same_grant r r' → 0 ≤ gr_attempt_count r' ≤ gr_max_calls r' →
  grants_ok (MkGrantDb (update_by gr_grant_id r' (gd_grants db)) (gd_attempts db)).
Proof.
  intros [Hg Hi Hs Hc Hr] Hin Hsame Hcount. destruct Hsame as (Hid & _ & Hmax & _).
  split; cbn [gd_grants gd_attempts]; [|done|done| |].
  - by rewrite (update_by_column gr_grant_id).
  - intros x [[-> _]|[Hx _]]%elem_of_update_by; [done|by apply Hc].
  - intros a Ha. destruct (Hr a Ha) as (x & Hx & Hxa & Hrange).
    destruct (decide (gr_grant_id x = gr_grant_id r')) as [He|Hne].
    + exists r'. split_and!; [apply elem_of_update_by; left; eauto|congruence|lia|].
      rewrite Hid in He. rewrite (NoDup_fmap_elem gr_grant_id _ x r Hg Hx Hin He) in Hrange. lia.
    + exists x. split_and!; [apply elem_of_update_by; by right|done|lia|lia].
Qed.

Lemma put_attempts_ok db a a' :
  grants_ok db → a ∈ gd_attempts db → same_attempt a a' →
  grants_ok (MkGrantDb (gd_grants db) (update_by at_attempt_id a' (gd_attempts db))).
Proof.
  intros [Hg Hi Hs Hc Hr] Hin (H1 & H2 & H3).
  assert (∀ x, x ∈ gd_attempts db → at_attempt_id x = at_attempt_id a' → x = a) as Huniq.
  { intros x Hx He. apply (NoDup_fmap_elem at_attempt_id _ x a Hi Hx Hin). congruence. }
  split; cbn [gd_grants gd_attempts]; [done| | |done|].
  - by rewrite (update_by_column at_attempt_id).
  - rewrite update_by_column; [done|]. intros x Hx He. rewrite (Huniq x Hx He). congruence.
  - intros x [[-> _]|[Hx _]]%elem_of_update_by; [|by apply Hr].
    destruct (Hr a Hin) as (r & Hr1 & Hr2 & Hr3). exists r. rewrite H2, H3. done.
Qed.

(** ** Transactions *)

Lemma same_grant_count r n rv :
  (is_Some (gr_revoked_at r) → is_Some rv) → same_grant r (row_with_count r n rv).
Proof. intros Hr. unfold same_grant. by split_and!. Qed.

Lemma same_attempt_with a s d rs ph : same_attempt a (attempt_with a s d rs ph).
Proof. done. Qed.

Lemma get_grant_Some db k r : get_grant db k = Some r → r ∈ gd_grants db ∧ gr_grant_id r = k.
Proof. apply get_by_Some. Qed.

Lemma issue_ok ge now dbnow db q token gid others :
  grants_ok (others db) → grants_ok db → create_request_valid q = true →
  grants_ok (issue_grant ge now dbnow db q token gid others).2.
Proof.
  intros Hoth Hok Hq. unfold issue_grant. destruct (negb _); [done|]. destruct (_ ==? _); [done|].
  destruct (build_namespace_key _ _ _) as [ns|e]; [|done].
  destruct (grant_by_key db _) as [r|]; [by destruct (_ !=? _)|].
  destruct (grant_conflict (others db) _) eqn:Hc; [by destruct (grant_by_key (others db) _)|].
  cbn [snd]. destruct Hoth as [Hg Hi Hs Hcnt Hr]. unfold create_request_valid in Hq.
  apply andb_true_iff in Hq as [Hq _]. do 3 (apply andb_true_iff in Hq as [Hq ?]).
  split; cbn [gd_grants gd_attempts]; [|done|done| |].
  - rewrite fmap_app. apply NoDup_app. split_and!; [done| |apply NoDup_singleton].
    intros k (x & -> & Hx)%list_elem_of_fmap Hin%list_elem_of_singleton.
    apply not_true_iff_false in Hc as []. apply existsb_exists. exists x.
    split; [by apply list_elem_of_In|]. by rewrite bool_decide_eq_true_2.
  - intros r [Hr'| ->%list_elem_of_singleton]%elem_of_app; [by apply Hcnt|]. cbn. lia.
  - intros a Ha. destruct (Hr a Ha) as (r & Hr1 & Hr2). exists r. split; [|done].
    apply elem_of_app. by left.
Qed.

Lemma reserve_tx_ok ge now dbnow db g aa :
  grants_ok db → grants_ok (reserve_attempt_tx ge now dbnow db g aa).2.
Proof.
  intros Hok. unfold reserve_attempt_tx. destruct (get_grant db (tg_grant_id g)) as [r|] eqn:Hget; [|done].
  destruct (countable now r) eqn:Hc; [cbn [negb]|done]. destruct (attempt_conflict _ _) eqn:Ha; [done|].
  cbn [snd]. apply get_grant_Some in Hget as [Hr Hid].
  unfold countable in Hc. apply andb_true_iff in Hc as [_ Hlt%Z.ltb_lt].
  assert (grants_ok (MkGrantDb (update_by gr_grant_id
    (row_with_count r (gr_attempt_count r + 1) (gr_revoked_at r)) (gd_grants db)) (gd_attempts db))) as Hok1.
  { apply (put_grants_ok db r); [done|done|by apply same_grant_count|]. cbn.
    pose proof (gk_counts db Hok r Hr). lia. }
  destruct Hok1 as [Hg Hi Hs Hcnt Hrng]. cbn [gd_grants gd_attempts] in *.
  assert (∀ a, a ∈ gd_attempts db → at_attempt_id a ≠ aa_attempt_id aa ∧
    ¬ (at_grant_id a = tg_grant_id g ∧ at_attempt_seq a = gr_attempt_count r + 1)) as Hfree.
  { intros a Hin. apply not_true_iff_false in Ha. split.
    - intros He. apply Ha, existsb_exists. exists a. split; [by apply list_elem_of_In|].
      cbn. by rewrite bool_decide_eq_true_2.
    - intros [He1 He2]. apply Ha, existsb_exists. exists a. split; [by apply list_elem_of_In|].
      cbn. rewrite (bool_decide_eq_true_2 (at_grant_id a = _)) by done.
      by rewrite He2, Z.eqb_refl, orb_true_r. }
  split; cbn [gd_grants gd_attempts]; [done| | |done|].
  - rewrite fmap_app. apply NoDup_app. split_and!; [done| |apply NoDup_singleton].
    intros k (x & -> & Hx)%list_elem_of_fmap Hin%list_elem_of_singleton. by apply Hfree in Hx as [].
  - rewrite fmap_app. apply NoDup_app. split_and!; [done| |apply NoDup_singleton].
    intros k (x & -> & Hx)%list_elem_of_fmap [= E1 E2]%list_elem_of_singleton.
    apply Hfree in Hx as [_ []]. done.
  - intros a [Hin| ->%list_elem_of_singleton]%elem_of_app; [by apply Hrng|].
    exists (row_with_count r (gr_attempt_count r + 1) (gr_revoked_at r)).
    pose proof (gk_counts db Hok r Hr). split_and!; [apply elem_of_update_by; left; eauto|done|cbn; lia..].
Qed.

Lemma rollback_ok db gid aid reason :
  grants_ok db → grants_ok (_rollback_reserved_attempt db gid aid reason).
Proof.
  intros Hok. unfold _rollback_reserved_attempt.
  assert (grants_ok (MkGrantDb match get_grant db gid with
    | Some r => if 0 <? gr_attempt_count r
                then update_by gr_grant_id
                       (row_with_count r (gr_attempt_count r - 1) (gr_revoked_at r)) (gd_grants db)
                else gd_grants db
    | None => gd_grants db end (gd_attempts db))) as Hok1.
  { destruct (get_grant db gid) as [r|] eqn:Hget; [|by destruct db].
    apply get_grant_Some in Hget as [Hr _].
    destruct (Z.ltb_spec 0 (gr_attempt_count r)); [|by destruct db].
    apply (put_grants_ok db r); [done|done|by apply same_grant_count|].
    pose proof (gk_counts db Hok r Hr). cbn. lia. }
  destruct (get_by at_attempt_id aid (gd_attempts db)) as [a|] eqn:Ha; [|done].
  apply get_by_Some in Ha as [Ha _]. eapply (put_attempts_ok (MkGrantDb _ _) a) in Hok1;
    [exact Hok1|done|apply same_attempt_with].
Qed.

Lemma finalize_ok db aid s d rs ph : grants_ok db → grants_ok (finalize_attempt db aid s d rs ph).
Proof.
  intros Hok. unfold finalize_attempt.
  destruct (get_by at_attempt_id aid (gd_attempts db)) as [a|] eqn:Ha; [|done].
  apply get_by_Some in Ha as [Ha _]. eapply put_attempts_ok; [done|done|apply same_attempt_with].
Qed.

Lemma revoke_ok now db gid : grants_ok db → grants_ok (revoke_grant now db gid).2.
Proof.
  intros Hok. unfold revoke_grant. destruct (get_grant db gid) as [r|] eqn:Hget; [|done].
  apply get_grant_Some in Hget as [Hr _].
  apply (put_grants_ok db r); [done|done|by apply same_grant_count|]. exact (gk_counts db Hok r Hr).
Qed.

(** ** Runs *)

(** One committed transaction of the service. *)
Inductive gcall : Type :=
| GIssue (now dbnow : Z) (q : ToolCallGrantCreateRequest) (token grant_id : string)
| GReserve (now dbnow : Z) (g : ToolCallGrant) (aa : AttemptArgs)
| GRollback (grant_id attempt_id reason : string)
| GFinalize (attempt_id : string) (s : ToolCallAttemptStatus) (d rs ph : option string)
| GRevoke (now : Z) (grant_id : string).

(** A request that its model refuses reaches no transaction. *)
Definition gcommit (ge : GrantEnv) (db : GrantDb) (c : gcall) : GrantDb :=
  match c with
  | GIssue now dbnow q token gid =>
      if create_request_valid q then (issue_grant ge now dbnow db q token gid id).2 else db
  | GReserve now dbnow g aa => (reserve_attempt_tx ge now dbnow db g aa).2
  | GRollback gid aid reason => _rollback_reserved_attempt db gid aid reason
  | GFinalize aid s d rs ph => finalize_attempt db aid s d rs ph
  | GRevoke now gid => (revoke_grant now db gid).2
  end.

Definition grun (ge : GrantEnv) : GrantDb → list gcall → GrantDb := foldl (gcommit ge).

Lemma gcommit_ok ge db c : grants_ok db → grants_ok (gcommit ge db c).
Proof.
  intros Hok. destruct c; cbn [gcommit].
  - destruct (create_request_valid q) eqn:Hq; [by apply issue_ok|done].
  - by apply reserve_tx_ok.
  - by apply rollback_ok.
  - by apply finalize_ok.
  - by apply revoke_ok.
Qed.

Lemma grun_ok ge db calls : grants_ok db → grants_ok (grun ge db calls).
Proof.
  revert db. induction calls as [|c calls IH]; intros db Hok; [done|]. by apply IH, gcommit_ok.
Qed.

Definition attempts_of (db : GrantDb) (grant_id : string) : list AttemptRow :=
  List.filter (λ a, at_grant_id a ==? grant_id) (gd_attempts db).

Lemma attempts_bounded db r :
  grants_ok db → r ∈ gd_grants db →
  Z.of_nat (length (attempts_of db (gr_grant_id r))) ≤ gr_max_calls r.
Proof.
  intros [Hg Hi Hs Hc Hr] Hin. pose proof (Hc r Hin).
  assert (NoDup (at_attempt_seq <$> attempts_of db (gr_grant_id r))) as Hnd.
  { apply (NoDup_fmap_filter _ (λ a, at_grant_id a ==? gr_grant_id r)) in Hs.
    fold (attempts_of db (gr_grant_id r)) in Hs.
    assert ((λ a, (at_grant_id a, at_attempt_seq a)) <$> attempts_of db (gr_grant_id r) =
      pair (gr_grant_id r) <$> (at_attempt_seq <$> attempts_of db (gr_grant_id r))) as He.
    { rewrite <-list_fmap_compose. apply list_fmap_ext. intros i a Ha%list_elem_of_lookup_2.
      apply list_elem_of_In, filter_In in Ha as [_ Ha%bool_decide_eq_true]. cbn. by rewrite Ha. }
    rewrite He in Hs. by apply NoDup_fmap_1 in Hs. }
  assert (at_attempt_seq <$> attempts_of db (gr_grant_id r) ⊆+ seqZ 1 (gr_max_calls r)) as Hsub.
  { apply NoDup_submseteq; [done|]. intros n (a & -> & Ha)%list_elem_of_fmap.
    apply list_elem_of_In, filter_In in Ha as [Ha Hid%bool_decide_eq_true].
    apply list_elem_of_In in Ha. destruct (Hr a Ha) as (x & Hx & Hxa & Hrange).
    rewrite Hid in Hxa. rewrite (NoDup_fmap_elem gr_grant_id _ x r Hg Hx Hin Hxa) in Hrange.
    apply elem_of_seqZ. lia. }
  apply submseteq_length in Hsub. rewrite length_fmap, length_seqZ in Hsub. lia.
Qed.

(** C8. Whatever transactions commit, in any order, and whatever Redis does: the counter of a grant
    stays between 0 and its limit, attempts of one grant have distinct numbers within the limit, and
    so no more attempts are ever recorded for a grant than it allows. *)
Theorem grant_calls_bounded ge db calls :
  grants_ok db → grants_ok (grun ge db calls) ∧
  ∀ r, r ∈ gd_grants (grun ge db calls) →
    0 ≤ gr_attempt_count r ≤ gr_max_calls r ∧
    Z.of_nat (length (attempts_of (grun ge db calls) (gr_grant_id r))) ≤ gr_max_calls r.
Proof.
  intros Hok. pose proof (grun_ok ge db calls Hok) as Hok'. split; [done|].
  intros r Hr. split; [by apply Hok'|by apply attempts_bounded].
Qed.

(** ** One call *)

Lemma grant_from_row_Ok r g :
  grant_from_row r = Ok g →
  gr_mode r = enum_value (tg_mode g) ∧ tg_grant_id g = gr_grant_id r ∧ tg_event_id g = gr_event_id r ∧
  tg_namespace_key g = gr_namespace_key r ∧ tg_max_calls g = gr_max_calls r ∧
  tg_valid_from g = gr_valid_from r ∧ tg_expires_at g = gr_expires_at r ∧
  tg_revoked_at g = gr_revoked_at r ∧ 1 ≤ gr_max_calls r.
Proof.
  unfold grant_from_row. rewrite bind_Ok. intros (m & Hm%enum_of_value_or_raise_Ok & Hv).
  unfold ToolCallGrant_validate in Hv. repeat (apply raise_if_seq_Ok in Hv as [? Hv]).
  injection Hv as <-. cbn in *. split_and!; try done.
  match goal with H : negb (_ && _) = false |- _ => apply negb_false_iff, andb_true_iff in H end. lia.
Qed.

Section calls.
Context {R : Type} `{RedisCounters R} (rv : ReservationEnv) (ge : GrantEnv).

(** The row an attempt was loaded from, at the time of the check. *)
Definition live_for (now : Z) (r : GrantRow) (event_id : string) : Prop :=
  gr_revoked_at r = None ∧ gr_valid_from r ≤ now < gr_expires_at r ∧ gr_event_id r = event_id.

Lemma load_live_Ok now db gid event_id g :
  (g ← load_grant_trusted ge db gid; _assert_grant_live now g event_id ;; Ok g) = Ok g →
  ∃ r, get_grant db gid = Some r ∧ grant_from_row r = Ok g ∧ live_for now r event_id ∧
       tg_grant_id g = gid.
Proof.
  rewrite bind_Ok. intros (g' & Hload & H0). apply unit_seq_Ok in H0 as [Hlive [= ->]].
  unfold load_grant_trusted in Hload. apply raise_if_seq_Ok in Hload as [_ Hload].
  destruct (get_grant db gid) as [r|] eqn:Hget; [|done]. exists r.
  destruct (grant_from_row_Ok r g Hload) as (_ & Hid & Hev & _ & _ & Hvf & Hex & Hrev & _).
  unfold _assert_grant_live in Hlive. do 3 (apply raise_if_seq_Ok in Hlive as [? Hlive]).
  apply raise_if_Ok in Hlive. apply get_grant_Some in Hget as Hg. destruct Hg as [_ Hk].
  bool_props. rewrite Hvf, Hex, Hrev, Hev in *. unfold live_for.
  split_and!; [done|done|done|lia|lia|done|congruence].
Qed.

Lemma reserve_tx_Ok now dbnow db g aa record g' db' :
  reserve_attempt_tx ge now dbnow db g aa = (Ok (record, g'), db') →
  ∃ r, get_grant db (tg_grant_id g) = Some r ∧ countable now r = true ∧
    record = new_attempt_row ge dbnow g aa (gr_attempt_count r + 1) ∧
    attempt_conflict db record = false ∧
    grant_from_row (row_with_count r (gr_attempt_count r + 1) (gr_revoked_at r)) = Ok g' ∧
    db' = MkGrantDb (update_by gr_grant_id
                       (row_with_count r (gr_attempt_count r + 1) (gr_revoked_at r)) (gd_grants db))
            (gd_attempts db ++ [record])%list.
Proof.
  unfold reserve_attempt_tx. destruct (get_grant db (tg_grant_id g)) as [r|]; [|done].
  destruct (countable now r) eqn:Hc; [cbn [negb]|done]. destruct (attempt_conflict _ _) eqn:Ha; [done|].
  intros [= Hg <-]. apply bind_Ok in Hg as (g1 & Hg1 & [= <- <-]). exists r. by split_and!.
Qed.

(** An attempt is granted only for the event of its grant, while the grant was neither revoked nor
    outside its window, both when it was loaded and when it was counted; its number is the next one
    of the grant and within the limit, and the budget handed out the same number. *)
Theorem attempt_granted_only_live ck (w : GrantWorld) gid aa others record g w' :
  reserve_attempt rv ge ck w gid aa others = (Ok (record, g), w') →
  ∃ r0 r, get_grant (gw_db w) gid = Some r0 ∧ live_for (ac_checked ck) r0 (aa_event_id aa) ∧
    get_grant (gw_db (others 0%nat w)) gid = Some r ∧
    gr_revoked_at r = None ∧ gr_valid_from r ≤ ac_updated ck < gr_expires_at r ∧
    at_grant_id record = gid ∧ at_event_id record = aa_event_id aa ∧
    at_attempt_seq record = gr_attempt_count r + 1 ∧ gr_attempt_count r + 1 ≤ gr_max_calls r ∧
    at_status record = enum_value ToolCallAttemptStatus.RESERVED ∧
    ∃ st red, (budget_reserve rv st red (ac_reserve ck) (tg_mode g) (tg_namespace_key g)
                 (tg_grant_id g) (tg_max_calls g)).1 = Ok (at_attempt_seq record).
Proof.
  unfold reserve_attempt.
  destruct (g ← load_grant_trusted ge (gw_db w) gid; _) as [g0|e] eqn:Hload; [|done].
  apply load_live_Ok in Hload as (r0 & Hget0 & Hrow0 & Hlive & Hgid).
  destruct (reserve_attempt_tx _ _ _ _ _ _) as [[[record0 g1]|e] db] eqn:Htx; [|done].
  apply reserve_tx_Ok in Htx as (r & Hget & Hc & -> & _ & _ & _). rewrite Hgid in Hget.
  destruct (budget_reserve _ _ _ _ _ _ _ _) as [[seq|e] [st red]] eqn:Hb; [|done].
  destruct (Z.eqb_spec seq (at_attempt_seq (new_attempt_row ge (ac_created ck) g0 aa
    (gr_attempt_count r + 1)))) as [Hseq|]; [|by destruct (budget_release _ _ _ _ _ _ _ _)].
  intros [= <- <- <-]. exists r0, r. unfold countable in Hc. bool_props.
  split_and!; try done; try lia. eexists _, _. rewrite Hb, Hseq. done.
Qed.

Lemma reserve_attempt_ok ck (w : GrantWorld) gid aa others :
  (∀ n w, grants_ok (gw_db w) → grants_ok (gw_db (others n w))) → grants_ok (gw_db w) →
  grants_ok (gw_db (reserve_attempt rv ge ck w gid aa others).2).
Proof.
  intros Hoth Hok. unfold reserve_attempt.
  destruct (g ← load_grant_trusted ge (gw_db w) gid; _) as [g|e]; [|done].
  pose proof (reserve_tx_ok ge (ac_updated ck) (ac_created ck) (gw_db (others 0%nat w)) g aa
    (Hoth 0%nat w Hok)) as Htx.
  destruct (reserve_attempt_tx _ _ _ _ _ _) as [[[record g']|e] db]; [|done]. cbn [snd] in Htx.
  set (w1 := others 1%nat _). assert (grants_ok (gw_db w1)) as Hw1 by (by apply Hoth).
  destruct (budget_reserve _ _ _ _ _ _ _ _) as [[seq|e] [st red]].
  - destruct (_ =? _); [done|]. destruct (budget_release _ _ _ _ _ _ _ _). by apply rollback_ok, Hoth.
  - by apply rollback_ok, Hoth.
Qed.

(** ** Rolled-back attempts *)

(** The next number of the grant is taken. *)
Definition blocked (db : GrantDb) (grant_id : string) : Prop :=
  ∃ r a, get_grant db grant_id = Some r ∧ a ∈ gd_attempts db ∧ at_grant_id a = grant_id ∧
    at_attempt_seq a = gr_attempt_count r + 1.

Lemma blocked_tx now dbnow db g aa :
  blocked db (tg_grant_id g) → ∃ e, reserve_attempt_tx ge now dbnow db g aa = (Err e, db).
Proof.
  intros (r & a & Hget & Ha & Hid & Hseq). unfold reserve_attempt_tx. rewrite Hget.
  destruct (countable now r); [cbn [negb]|by eexists].
  assert (attempt_conflict db (new_attempt_row ge dbnow g aa (gr_attempt_count r + 1)) = true) as ->;
    [|by eexists].
  apply existsb_exists. exists a. split; [by apply list_elem_of_In|]. cbn.
  rewrite (bool_decide_eq_true_2 (at_grant_id a = _)) by done. by rewrite Hseq, Z.eqb_refl, orb_true_r.
Qed.

Lemma blocked_attempt ck (w : GrantWorld) gid aa :
  blocked (gw_db w) gid → ∃ e, reserve_attempt rv ge ck w gid aa (λ _ w, w) = (Err e, w).
Proof.
  intros Hb. unfold reserve_attempt.
  destruct (g ← load_grant_trusted ge (gw_db w) gid; _) as [g0|e] eqn:Hload; [|by eexists].
  apply load_live_Ok in Hload as (_ & _ & _ & _ & Hgid). subst gid.
  destruct (blocked_tx (ac_updated ck) (ac_created ck) (gw_db w) g0 aa Hb) as [e ->].
  exists e. by destruct w.
Qed.

Lemma update_by_self {A} (pk : A → string) l x y :
  get_by pk (pk x) l = Some x → pk y = pk x → get_by pk (pk x) (update_by pk y l) = Some y.
Proof.
  intros Hx Hy. unfold get_by, update_by in *. rewrite Hy.
  induction l as [|z l IH]; [done|]. cbn [List.find map] in *.
  destruct (pk z ==? pk x) eqn:Hz.
  - by rewrite bool_decide_eq_true_2.
  - rewrite Hz. by apply IH.
Qed.

Lemma rollback_blocks now dbnow db g aa record g' db1 reason :
  reserve_attempt_tx ge now dbnow db g aa = (Ok (record, g'), db1) → grants_ok db →
  blocked (_rollback_reserved_attempt db1 (tg_grant_id g) (aa_attempt_id aa) reason) (tg_grant_id g).
Proof.
  intros (r & Hget & _ & -> & Hconf & _ & ->)%reserve_tx_Ok Hok.
  set (fresh := row_with_count r (gr_attempt_count r + 1) (gr_revoked_at r)).
  set (record := new_attempt_row ge dbnow g aa (gr_attempt_count r + 1)).
  apply get_grant_Some in Hget as Hr. destruct Hr as [Hr Hid]. pose proof (gk_counts db Hok r Hr).
  rewrite <-Hid in *. unfold get_grant in Hget.
  set (grants1 := update_by gr_grant_id fresh (gd_grants db)).
  assert (get_by gr_grant_id (gr_grant_id r) grants1 = Some fresh) as Hget1 by (by apply update_by_self).
  exists (row_with_count fresh (gr_attempt_count r) (gr_revoked_at r)).
  unfold _rollback_reserved_attempt, get_grant. cbn [gd_grants gd_attempts]. rewrite Hget1.
  replace (0 <? gr_attempt_count fresh) with true by (symmetry; apply Z.ltb_lt; cbn; lia).
  replace (gr_attempt_count fresh - 1) with (gr_attempt_count r) by (cbn; lia).
  change (gr_revoked_at fresh) with (gr_revoked_at r).
  assert (get_by gr_grant_id (gr_grant_id r) (update_by gr_grant_id
    (row_with_count fresh (gr_attempt_count r) (gr_revoked_at r)) grants1) =
    Some (row_with_count fresh (gr_attempt_count r) (gr_revoked_at r))) as Hget2
    by (by apply (update_by_self gr_grant_id grants1 fresh)).
  destruct (get_by at_attempt_id (aa_attempt_id aa) (gd_attempts db ++ [record])) as [a|] eqn:Ha.
  - apply get_by_Some in Ha as [Ha Haid].
    assert (a = record) as ->.
    { apply elem_of_app in Ha as [Ha|Ha]; [|by apply list_elem_of_singleton in Ha].
      apply not_true_iff_false in Hconf as []. apply existsb_exists. exists a.
      split; [by apply list_elem_of_In|]. cbn. by rewrite bool_decide_eq_true_2. }
    eexists. split_and!; [exact Hget2| | |]; [apply elem_of_update_by; left; split; [reflexivity|]|done..].
    exists record. split; [apply elem_of_app; right; by left|done].
  - exists record. split_and!; [exact Hget2|apply elem_of_app; right; by left|done..].
Qed.

(** A reservation without Redis on a key the process has not counted yet. *)
Lemma reserve_starts_at_one st red a mode ns g limit :
  1 ≤ limit → (_redis_client rv a st).1 = false →
  memory_count st (budget_reservation_key mode ns g) = 0 →
  ∃ st', budget_reserve rv st red a mode ns g limit = (Ok 1, (st', red)).
Proof.
  intros Hl Hclient Hmem. unfold budget_reserve. destruct (Z.ltb_spec limit 1); [lia|].
  pose proof (redis_client_memory rv a st) as Hm.
  destruct (_redis_client rv a st) as [client st0]. cbn [fst snd] in *. subst client. cbn [negb orb].
  unfold reserve_in_memory, memory_count in *. rewrite ensure_pinned_memory, Hm, Hmem.
  destruct (Z.leb_spec limit 0); [lia|]. by eexists.
Qed.

(** C39. A grant of which attempts were counted in Redis does not survive the loss of Redis: the
    process starts its own count at 1, the next attempt is denied as a mismatch and rolled back, and
    from then on every attempt on the grant fails, whatever Redis, the clocks and the arguments are:
    the rolled-back row keeps the number the counter was set back to. *)
Theorem fallback_strands_used_grant ck (w : GrantWorld) gid aa g record g' db1 :
  grants_ok (gw_db w) →
  (g ← load_grant_trusted ge (gw_db w) gid; _assert_grant_live (ac_checked ck) g (aa_event_id aa) ;; Ok g)
    = Ok g →
  reserve_attempt_tx ge (ac_updated ck) (ac_created ck) (gw_db w) g aa = (Ok (record, g'), db1) →
  1 < at_attempt_seq record →
  (_redis_client rv (ac_reserve ck) (gw_reservations w)).1 = false →
  memory_count (gw_reservations w)
    (budget_reservation_key (tg_mode g') (tg_namespace_key g') (tg_grant_id g')) = 0 →
  ∃ w', reserve_attempt rv ge ck w gid aa (λ _ w, w) =
          (Err (grant_denied "grant budget seq mismatch"
                  [grant_detail gid; ("reserved_seq", VInt 1);
                   ("authoritative_seq", VInt (at_attempt_seq record))]), w') ∧
    ∀ ck' aa', ∃ e, reserve_attempt rv ge ck' w' gid aa' (λ _ w, w) = (Err e, w').
Proof.
  intros Hok Hload Htx Hseq Hclient Hmem. unfold reserve_attempt at 1. rewrite Hload, Htx.
  apply load_live_Ok in Hload as (_ & _ & _ & _ & Hgid). subst gid.
  pose proof Htx as (r & Hget & _ & _ & _ & Hrow & _)%reserve_tx_Ok.
  apply get_grant_Some in Hget as [_ Hid].
  apply grant_from_row_Ok in Hrow as (_ & Hid' & _ & _ & Hmax & _ & _ & _ & Hpos). cbn in Hid', Hmax, Hpos.
  rewrite Hid in Hid'. cbn [gw_db gw_reservations gw_redis].
  destruct (reserve_starts_at_one _ (gw_redis w) _ _ _ _ (tg_max_calls g') ltac:(lia) Hclient Hmem)
    as [st' ->].
  destruct (Z.eqb_spec 1 (at_attempt_seq record)); [lia|].
  destruct (budget_release _ _ _ _ _ _ _ _) as [st2 red2]. eexists. split; [by rewrite Hid'|].
  intros ck' aa'. apply blocked_attempt. cbn [gw_db]. by eapply rollback_blocks.
Qed.
End calls.
