(* ===== verification/BoundExecutor.v ===== *)
(** * Grant-bound tool calls (tools/bound_tool_executor.py)

    Dynamic tool calls go through a grant: every call reserves an attempt, is checked against the scope
    of the grant, runs under the identity of the grant's principal, and settles its attempt.  This file
    composes [ToolGrants], [ToolExecutor] and [SafeProjection]. *)

From stdpp Require Import prelude strings gmap.
From S2P Require Import Prelude Enums Errors Db ExecutionResults ErrorTaxonomy ToolMeta ToolRegistry.
From S2P Require Import Reconcile CircuitBreaker ToolExecutor ToolExecutorFacts SafeProjection.
From S2P Require Import Lease BudgetReservation ToolGrants ToolGrantFacts.

#[local] Open Scope string_scope.
#[local] Open Scope Z_scope.

(** ** Tools a grant may name (services/tool_call_grant_resolver.py) *)

Definition resolve_effective_query_tools (sc : ToolCallGrantScope) (reg : ToolRegistry) : list string :=
  let registered :=
    tm_tool_name <$> List.filter (λ m, tm_routing_kind m !=? RoutingKind.DISPOSITION_ONLY)
                       (list_tools reg (Some (enum_value ToolCategory.QUERY))) in
  List.filter (λ t, t ∈? registered) (gs_allowed_tools sc).

Definition is_tool_allowed_by_grant (tool_name : string) (sc : ToolCallGrantScope) (reg : ToolRegistry) : bool :=
  tool_name ∈? resolve_effective_query_tools sc reg.

Definition is_non_query_dynamic_tool (reg : ToolRegistry) (tool_name : string) : bool :=
  match get_tool reg tool_name with
  | Err _ => true
  | Ok r => (tm_tool_category (rt_tool_meta r) !=? ToolCategory.QUERY)
            || (tm_routing_kind (rt_tool_meta r) ==? RoutingKind.DISPOSITION_ONLY)
  end.

(** ** The checks of a call *)

Definition tenant_mismatch (g : ToolCallGrant) (params : list (string * pyval)) : bool :=
  (tg_tenant_id g !=? "")
  && match dict_get params "tenant_id" with
     | None | Some VNone => false
     | Some v => (str_strip (py_str v) !=? "") && (py_str v !=? tg_tenant_id g)
     end.

Definition _precheck (g : ToolCallGrant) (reg : ToolRegistry) (tool_name : string)
    (params : list (string * pyval)) (event_id : string) : option string :=
  if tg_event_id g !=? event_id then Some "cross-event grant reuse denied"
  else if tenant_mismatch g params then Some "tenant mismatch"
  else if is_non_query_dynamic_tool reg tool_name then Some "dynamic non-query tools are forbidden"
  else if negb (is_tool_allowed_by_grant tool_name (tg_scope g) reg) then Some "tool not in grant allow-list"
  else match get_tool reg tool_name with
       | Ok r => if tm_tool_category (rt_tool_meta r) !=? ToolCategory.QUERY
                 then Some "only query tools allowed in dynamic path"
                 else validate_scope_params params (tg_scope g)
       | Err _ => None
       end.

Definition _attempt_status_for_result (r : ToolResult) : ToolCallAttemptStatus :=
  if tr_status r ==? ToolResultStatus.TIMEOUT then ToolCallAttemptStatus.TIMEOUT
  else if tr_status r ∈? ok_statuses then ToolCallAttemptStatus.SUCCESS
  else ToolCallAttemptStatus.FAILED.

(** ** The call *)

Record BoundToolCallResult : Type := {
  br_result : ToolResult;
  br_projection : SafeToolProjection;
  br_attempt_id : string
}.

Section bound.
Context {G J R : Type} `{GuardPort G} `{JobStore J} `{RedisCounters R}.
Context (rv : ReservationEnv) (ge : GrantEnv) (pj : ProjectionEnv).

Record BoundWorld : Type := MkBoundWorld {
  bw_grants : GrantWorld (R := R);
  bw_tools : XWorld (G := G) (J := J)
}.

Inductive BoundOutcome : Type :=
| b_result (r : BoundToolCallResult)
| b_raised (x : exc)
| b_out_of_fuel.

(** Shadow grants run without the production budget; the noop service in its place does nothing. *)
Definition _dispatch_executor (g : ToolCallGrant) (ce : CallEnv (G := G) (J := J)) : CallEnv (G := G) (J := J) :=
  if tg_mode g ==? ToolCallMode.SHADOW then
    {| ce_call_id := ce_call_id ce; ce_audit_ok := ce_audit_ok ce; ce_schemas := ce_schemas ce;
       ce_budget := None; ce_parse_result := ce_parse_result ce; ce_parse_job := ce_parse_job ce;
       ce_allow_now := ce_allow_now ce; ce_record_now := ce_record_now ce;
       ce_elapsed_ms := ce_elapsed_ms ce; ce_answer := ce_answer ce; ce_others := ce_others ce |}
  else ce.

(** The arguments of the inner call: the caller's, under the trusted name. *)
Definition trusted_args (g : ToolCallGrant) (a : CallArgs) : CallArgs := {|
  ca_tool_name := ca_tool_name a; ca_params := ca_params a; ca_event_id := ca_event_id a;
  ca_action_id := ca_action_id a; ca_execution_job_id := ca_execution_job_id a;
  ca_idempotency_key := ca_idempotency_key a; ca_execution_owner := ca_execution_owner a;
  ca_retry_policy := ca_retry_policy a;
  ca_agent_name := bp_agent_name (tg_execution_principal g)
|}.

Definition finalize_in (w : BoundWorld) (attempt_id : string) (status : ToolCallAttemptStatus)
    (denial_reason result_status projection_hash : option string) : BoundWorld :=
  MkBoundWorld
    (MkGrantWorld (finalize_attempt (gw_db (bw_grants w)) attempt_id status denial_reason result_status
                     projection_hash) (gw_reservations (bw_grants w)) (gw_redis (bw_grants w)))
    (bw_tools w).

Definition sanitized_result (r : ToolResult) (p : SafeToolProjection) : ToolResult := {|
  tr_call_id := tr_call_id r; tr_tool_name := tr_tool_name r; tr_provider_name := tr_provider_name r;
  tr_status := tr_status r; tr_job_id := None; tr_provider_job_id := None; tr_data := sp_data p;
  tr_target_results := []; tr_provider_code := None; tr_provider_message := None; tr_raw_result := [];
  tr_error_detail := tr_error_detail r; tr_execution_time_ms := tr_execution_time_ms r
|}.

(** After a successful reservation. *)
Definition granted_call (ce : CallEnv (G := G) (J := J)) (g : ToolCallGrant) (attempt_id : string)
    (a : CallArgs) (w : BoundWorld) : BoundOutcome * BoundWorld :=
  let reg := xw_registry (bw_tools w) in
  let tool_name := ca_tool_name a in
  match _precheck g reg tool_name (ca_params a) (ca_event_id a) with
  | Some reason =>
      (b_raised (exc_of_error (grant_denied reason
         [grant_detail (tg_grant_id g); tool_detail tool_name; ("attempt_id", VStr attempt_id)])),
       finalize_in w attempt_id ToolCallAttemptStatus.DENIED (Some reason) None None)
  | None =>
      match validate_input (ce_schemas ce) reg tool_name (ca_params a) with
      | Err e =>
          if err_class e ==? ToolValidationError then
            (b_raised (exc_of_error (grant_denied "tool input validation failed"
               [grant_detail (tg_grant_id g); tool_detail tool_name])),
             finalize_in w attempt_id ToolCallAttemptStatus.DENIED (Some (err_message e)) None None)
          else (b_raised (exc_of_error e), w)
      | Ok _ =>
          let '(o, tools) := executor_call (_dispatch_executor g ce) (trusted_args g a) (bw_tools w) in
          let w := MkBoundWorld (bw_grants w) tools in
          let failed x :=
            (b_raised x, finalize_in w attempt_id ToolCallAttemptStatus.FAILED
                           (Some "inner tool executor failed") None None) in
          match o with
          | x_out_of_fuel => (b_out_of_fuel, w)
          | x_raised x => failed x
          | x_result r =>
              match project pj (xw_registry tools) tool_name r (tg_grant_id g) attempt_id with
              | inl x => failed x
              | inr p =>
                  (b_result {| br_result := sanitized_result r p; br_projection := p;
                               br_attempt_id := attempt_id |},
                   finalize_in w attempt_id (_attempt_status_for_result r) None
                     (Some (enum_value (tr_status r))) (Some (sp_projection_hash p)))
              end
          end
      end
  end.

Definition attempt_args (attempt_id : string) (a : CallArgs) : AttemptArgs :=
  {| aa_attempt_id := attempt_id; aa_tool_name := ca_tool_name a; aa_params := ca_params a;
     aa_event_id := ca_event_id a |}.

Definition bound_call (ck : AttemptClock) (ce : CallEnv (G := G) (J := J)) (grant_id attempt_id : string)
    (a : CallArgs) (others : nat → GrantWorld → GrantWorld) (w : BoundWorld) : BoundOutcome * BoundWorld :=
  match reserve_attempt rv ge ck (bw_grants w) grant_id (attempt_args attempt_id a) others with
  | (Err e, gw) => (b_raised (exc_of_error e), MkBoundWorld gw (bw_tools w))
  | (Ok (record, g), gw) => granted_call ce g attempt_id a (MkBoundWorld gw (bw_tools w))
  end.

(** ** Guarantees *)

Lemma precheck_None g reg t params event_id :
  _precheck g reg t params event_id = None →
  tg_event_id g = event_id ∧ tenant_mismatch g params = false ∧ t ∈ gs_allowed_tools (tg_scope g) ∧
  (∃ r, get_tool reg t = Ok r ∧ tm_tool_category (rt_tool_meta r) = ToolCategory.QUERY ∧
        tm_routing_kind (rt_tool_meta r) ≠ RoutingKind.DISPOSITION_ONLY) ∧
  within_scope params (tg_scope g).
Proof.
  unfold _precheck. case_bool_decide as He; [cbn [negb]|done]. destruct (tenant_mismatch g params); [done|].
  destruct (is_non_query_dynamic_tool reg t) eqn:Hq; [done|].
  destruct (is_tool_allowed_by_grant t (tg_scope g) reg) eqn:Ha; [cbn [negb]|done].
  unfold is_non_query_dynamic_tool in Hq. destruct (get_tool reg t) as [r|e] eqn:Hget; [|done].
  apply orb_false_iff in Hq as [Hc%negb_bool_decide_false Hr%bool_decide_eq_false].
  rewrite Hc, bool_decide_eq_true_2 by done. cbn [negb]. intros Hs%scope_params_spec.
  unfold is_tool_allowed_by_grant, resolve_effective_query_tools in Ha.
  apply bool_decide_eq_true, list_elem_of_In, filter_In in Ha as [Ha _]. apply list_elem_of_In in Ha.
  split_and!; [done..| |done]. by exists r.
Qed.

Lemma granted_call_dispatch ce g aid a w o w' t :
  granted_call ce g aid a w = (o, w') → (count t (bw_tools w) < count t (bw_tools w'))%nat →
  _precheck g (xw_registry (bw_tools w)) (ca_tool_name a) (ca_params a) (ca_event_id a) = None ∧
  bw_tools w' = (executor_call (_dispatch_executor g ce) (trusted_args g a) (bw_tools w)).2.
Proof.
  unfold granted_call. destruct (_precheck _ _ _ _ _) eqn:Hp; [intros [= <- <-]; cbn; lia|].
  destruct (validate_input _ _ _ _) as [[]|e]; [|destruct (_ ==? _); intros [= <- <-]; cbn; lia].
  destruct (executor_call _ _ _) as [out tools]. intros Hrest _. split; [done|]. cbn [snd].
  destruct out as [r|x|]; [|by injection Hrest as <- <-..].
  destruct (project _ _ _ _ _ _); by injection Hrest as <- <-.
Qed.

(** C6. A dynamic call reaches a tool only through its grant: an attempt was reserved for it, the tool is a
    registered query tool on the allow-list of the grant, the event is the grant's, the tenant is not
    another one, the parameters stay within the scope, and the call runs under the name of the grant's
    principal, without the production budget for a shadow grant. *)
Theorem bound_call_guarded ck ce gid aid a others w o w' t :
  bound_call ck ce gid aid a others w = (o, w') → (count t (bw_tools w) < count t (bw_tools w'))%nat →
  ∃ record g gw, reserve_attempt rv ge ck (bw_grants w) gid (attempt_args aid a) others = (Ok (record, g), gw) ∧
    ca_tool_name a = t ∧ tg_event_id g = ca_event_id a ∧ tenant_mismatch g (ca_params a) = false ∧
    t ∈ gs_allowed_tools (tg_scope g) ∧ within_scope (ca_params a) (tg_scope g) ∧
    (∃ r, get_tool (xw_registry (bw_tools w)) t = Ok r ∧
       tm_tool_category (rt_tool_meta r) = ToolCategory.QUERY ∧
       tm_routing_kind (rt_tool_meta r) ≠ RoutingKind.DISPOSITION_ONLY) ∧
    ∃ inner args, bw_tools w' = (executor_call inner args (bw_tools w)).2 ∧
      ca_agent_name args = bp_agent_name (tg_execution_principal g) ∧
      (tg_mode g = ToolCallMode.SHADOW → ce_budget inner = None).
Proof.
  unfold bound_call. destruct (reserve_attempt _ _ _ _ _ _ _) as [[[record g]|e] gw];
    [|intros [= <- <-]; cbn; lia].
  intros Hcall Hlt. pose proof (granted_call_dispatch _ _ _ _ _ _ _ _ Hcall Hlt) as [Hp Hw]. cbn in Hp, Hw.
  destruct (precheck_None _ _ _ _ _ Hp) as (Hev & Ht & Hin & Hr & Hsc).
  assert (ca_tool_name a = t) as <-.
  { cbn [bw_tools] in Hlt. rewrite Hw in Hlt.
    pose proof (proj2 (executor_call_bounded (_dispatch_executor g ce) (trusted_args g a) (bw_tools w)) t) as Hb.
    cbn [ca_tool_name trusted_args] in Hb. case_bool_decide; [done|lia]. }
  exists record, g, gw. split_and!; [done..|]. eexists _, _. split; [exact Hw|]. split; [done|].
  intros Hm. unfold _dispatch_executor. by rewrite Hm, bool_decide_eq_true_2.
Qed.

(** ** Attempts are settled *)

Definition attempt_row (w : BoundWorld) (aid : string) : option AttemptRow :=
  get_by at_attempt_id aid (gd_attempts (gw_db (bw_grants w))).

Lemma finalize_settles w aid s d rs ph row :
  attempt_row w aid = Some row → attempt_row (finalize_in w aid s d rs ph) aid = Some (attempt_with row s d rs ph).
Proof.
  unfold attempt_row, finalize_in, finalize_attempt. cbn. intros Hrow. rewrite Hrow. cbn.
  pose proof (proj2 (get_by_Some _ _ _ _ Hrow)) as <-. by apply update_by_self.
Qed.

Lemma get_by_snoc {A} (pk : A → string) (l : list A) x :
  (∀ y, y ∈ l → pk y ≠ pk x) → get_by pk (pk x) (l ++ [x]) = Some x.
Proof.
  unfold get_by. induction l as [|y l IH]; intros Hne; cbn; [by rewrite bool_decide_eq_true_2|].
  rewrite bool_decide_eq_false_2 by (apply Hne; by left). apply IH. intros z Hz. apply Hne. by right.
Qed.

(** The reserved row is there. *)
Lemma reserved_row ck w gid aid a record g gw :
  reserve_attempt rv ge ck (bw_grants w) gid (attempt_args aid a) (λ _ w, w) = (Ok (record, g), gw) →
  get_by at_attempt_id aid (gd_attempts (gw_db gw)) = Some record ∧ at_grant_id record = gid.
Proof.
  unfold reserve_attempt.
  destruct (g ← load_grant_trusted ge (gw_db (bw_grants w)) gid; _) as [g0|e] eqn:Hload; [|done].
  apply load_live_Ok in Hload as (_ & _ & _ & _ & Hgid).
  destruct (reserve_attempt_tx _ _ _ _ _ _) as [[[record0 g1]|e] db] eqn:Htx; [|done].
  apply reserve_tx_Ok in Htx as (r & _ & _ & -> & Hconf & _ & ->).
  destruct (budget_reserve _ _ _ _ _ _ _ _) as [[seq|e] [st red]]; [|done].
  destruct (_ =? _); [|by destruct (budget_release _ _ _ _ _ _ _ _)].
  intros [= <- _ <-]. split; [|done]. cbn [gw_db gd_attempts].
  apply (get_by_snoc at_attempt_id _ (new_attempt_row ge (ac_created ck) g0 (attempt_args aid a) _)).
  intros y Hy He. apply not_true_iff_false in Hconf as [].
  apply existsb_exists. exists y. split; [by apply list_elem_of_In|]. by rewrite bool_decide_eq_true_2.
Qed.

(** C22. Every reserved attempt is settled: when a bound call returns or raises, whatever the tool did, its
    attempt is stored with the number it was given and is no longer open. *)
Theorem attempt_always_settled ck ce gid aid a w record g gw o w' :
  reserve_attempt rv ge ck (bw_grants w) gid (attempt_args aid a) (λ _ w, w) = (Ok (record, g), gw) →
  bound_call ck ce gid aid a (λ _ w, w) w = (o, w') →
  o ≠ b_out_of_fuel ∧
  ∃ row, attempt_row w' aid = Some row ∧ at_grant_id row = gid ∧ at_attempt_seq row = at_attempt_seq record ∧
    at_status row ≠ enum_value ToolCallAttemptStatus.RESERVED.
Proof.
  intros Hres. unfold bound_call. rewrite Hres. apply reserved_row in Hres as [Hrow Hgid].
  set (w0 := MkBoundWorld gw (bw_tools w)).
  assert (∀ w1 s d rs ph, bw_grants w1 = gw → s ≠ ToolCallAttemptStatus.RESERVED →
    ∃ row, attempt_row (finalize_in w1 aid s d rs ph) aid = Some row ∧ at_grant_id row = gid ∧
      at_attempt_seq row = at_attempt_seq record ∧ at_status row ≠ enum_value ToolCallAttemptStatus.RESERVED)
    as Hdone.
  { intros w1 s d rs ph Hw1 Hs. exists (attempt_with record s d rs ph).
    split_and!; [apply finalize_settles; unfold attempt_row; by rewrite Hw1|done..|].
    cbn. intros He%enum_value_eq. done. }
  unfold granted_call. destruct (_precheck _ _ _ _ _) eqn:Hp; [intros [= <- <-]; split; [done|by apply Hdone]|].
  destruct (precheck_None _ _ _ _ _ Hp) as (_ & _ & _ & (r & Hget & _) & _).
  destruct (validate_input _ _ _ _) as [[]|e] eqn:Hin.
  - pose proof (proj1 (executor_call_bounded (_dispatch_executor g ce) (trusted_args g a) (bw_tools w0))) as Ho.
    destruct (executor_call _ _ _) as [out tools]. cbn [fst] in Ho. destruct out as [res|x|]; [|
      intros [= <- <-]; split; [done|by apply Hdone]|done].
    destruct (project _ _ _ _ _ _); intros [= <- <-]; (split; [done|]); apply Hdone; try done.
    unfold _attempt_status_for_result. destruct (_ ==? _); [done|]. by destruct (_ ∈? _).
  - unfold validate_input in Hin. rewrite Hget in Hin. cbn in Hin.
    assert (err_class e = ToolValidationError) as ->.
    { destruct (_validate_instance _ _ _ _) as [x|] eqn:Hx; [|done]. injection Hin as <-.
      unfold _validate_instance in Hx. cbn in Hx. destruct (_ ==? ""); [done|].
      destruct (sv_validate _ _ _); [done|..]; by injection Hx as <-. }
    rewrite bool_decide_eq_true_2 by done. intros [= <- <-]. split; [done|by apply Hdone].
Qed.
End bound.
