(* ===== verification/Intents.v ===== *)
(** * The investigation intent ledger (services/investigation_intent_service.py,
      models/investigation_intent.py)

    Durable requests to investigate an event: created by HTTP intake or by policy, claimed in
    priority order, published to the broker under a task id derived from the revision, admitted when
    a worker starts, settled by the worker, and recovered when stale.  Each transaction takes the
    tables and returns them or an exception; what the broker and the task metadata store answer are
    arguments.  Left out: logging, metrics, the retry of failed database connections, and the Celery
    trigger that schedules a dispatch. *)

From stdpp Require Import prelude strings gmap sorting pretty.
From Stdlib Require Import QArith.
From S2P Require Import Prelude Enums Errors Tables Workflow Db ContextJournal ContextStore.
From S2P Require Import DegradedFlags StateMachine AutoPolicies.

#[local] Open Scope string_scope.
#[local] Open Scope Z_scope.

Definition INTENT_KIND_AUTO_INVESTIGATE : string := "auto_investigate".
Definition INTENT_VERSION_ISSUE108_V1 : string := "issue108_v1".
Definition INTENT_KIND_HTTP_INVESTIGATE : string := "http_investigate".
Definition INTENT_VERSION_ISSUE276_V1 : string := "issue276_v1".

Definition INTENT_TRANSITIONS (s : InvestigationIntentStatus) : list InvestigationIntentStatus :=
  match s with
  | InvestigationIntentStatus.PENDING =>
      [InvestigationIntentStatus.CLAIMED; InvestigationIntentStatus.SKIPPED]
  | InvestigationIntentStatus.CLAIMED =>
      [InvestigationIntentStatus.ENQUEUED; InvestigationIntentStatus.RETRY;
       InvestigationIntentStatus.PENDING; InvestigationIntentStatus.SKIPPED;
       InvestigationIntentStatus.DEAD]
  | InvestigationIntentStatus.ENQUEUED =>
      [InvestigationIntentStatus.STARTED; InvestigationIntentStatus.RETRY;
       InvestigationIntentStatus.SKIPPED; InvestigationIntentStatus.DEAD]
  | InvestigationIntentStatus.STARTED =>
      [InvestigationIntentStatus.TERMINAL; InvestigationIntentStatus.SKIPPED;
       InvestigationIntentStatus.RETRY; InvestigationIntentStatus.DEAD]
  | InvestigationIntentStatus.RETRY =>
      [InvestigationIntentStatus.CLAIMED; InvestigationIntentStatus.DEAD;
       InvestigationIntentStatus.SKIPPED]
  | InvestigationIntentStatus.TERMINAL => []
  | InvestigationIntentStatus.SKIPPED => [InvestigationIntentStatus.RETRY]
  | InvestigationIntentStatus.DEAD => [InvestigationIntentStatus.RETRY]
  end.

Definition TERMINAL_INTENT_STATUSES : list InvestigationIntentStatus :=
  [InvestigationIntentStatus.TERMINAL; InvestigationIntentStatus.SKIPPED;
   InvestigationIntentStatus.DEAD].

(** [InvestigationIntentTransitionError] is a [ValueError]. *)
Definition validate_intent_transition (current target : InvestigationIntentStatus) : result unit :=
  raise_if (negb (target ∈? INTENT_TRANSITIONS current))
    (builtin_error ValueError ("invalid investigation intent transition: " +++
       enum_value current +++ " -> " +++ enum_value target)).

(** ** Tables *)

Record IntentRow : Type := {
  it_intent_id : string;
  it_event_id : string;
  it_intent_kind : string;
  it_intent_version : string;
  it_status : string;
  it_revision : Z;
  it_request_idempotency_key : option string;
  it_request_payload_sha256 : option string;
  it_requested_by : option string;
  it_orchestration_mode : string;
  it_attempt : Z;
  it_claim_owner : option string;
  it_claim_expires_at : option Z;
  it_broker_task_id : option string;
  it_skip_reason : option string;
  it_last_error : option string;
  it_include_response_execution : bool;
  it_generate_report : bool;
  it_created_at : Z;
  it_updated_at : Z
}.

#[global] Instance IntentRow_eq_dec : EqDecision IntentRow.
Proof. solve_decision. Defined.

Record SourceEventLinkRow : Type := { sl_event_id : string; sl_role : string }.

(** The tables the service uses: those of [Db], the intents and the source links. *)
Record Ledger : Type := MkLedger {
  lg_db : Db;
  lg_intents : list IntentRow;
  lg_links : list SourceEventLinkRow
}.

(** *** Column updates *)

Definition row_with (r : IntentRow) (status : InvestigationIntentStatus) (revision attempt : Z)
    (claim : option (string * Z)) (task skip error : option string) : IntentRow := {|
  it_intent_id := it_intent_id r; it_event_id := it_event_id r;
  it_intent_kind := it_intent_kind r; it_intent_version := it_intent_version r;
  it_status := enum_value status; it_revision := revision;
  it_request_idempotency_key := it_request_idempotency_key r;
  it_request_payload_sha256 := it_request_payload_sha256 r;
  it_requested_by := it_requested_by r; it_orchestration_mode := it_orchestration_mode r;
  it_attempt := attempt; it_claim_owner := fst <$> claim; it_claim_expires_at := snd <$> claim;
  it_broker_task_id := task; it_skip_reason := skip; it_last_error := error;
  it_include_response_execution := it_include_response_execution r;
  it_generate_report := it_generate_report r; it_created_at := it_created_at r;
  it_updated_at := it_updated_at r
|}.

Definition row_with_task (r : IntentRow) (task : option string) : IntentRow := {|
  it_intent_id := it_intent_id r; it_event_id := it_event_id r;
  it_intent_kind := it_intent_kind r; it_intent_version := it_intent_version r;
  it_status := it_status r; it_revision := it_revision r;
  it_request_idempotency_key := it_request_idempotency_key r;
  it_request_payload_sha256 := it_request_payload_sha256 r;
  it_requested_by := it_requested_by r; it_orchestration_mode := it_orchestration_mode r;
  it_attempt := it_attempt r; it_claim_owner := it_claim_owner r;
  it_claim_expires_at := it_claim_expires_at r; it_broker_task_id := task;
  it_skip_reason := it_skip_reason r; it_last_error := it_last_error r;
  it_include_response_execution := it_include_response_execution r;
  it_generate_report := it_generate_report r; it_created_at := it_created_at r;
  it_updated_at := it_updated_at r
|}.

Definition row_with_response (r : IntentRow) (include_response : bool) : IntentRow := {|
  it_intent_id := it_intent_id r; it_event_id := it_event_id r;
  it_intent_kind := it_intent_kind r; it_intent_version := it_intent_version r;
  it_status := it_status r; it_revision := it_revision r;
  it_request_idempotency_key := it_request_idempotency_key r;
  it_request_payload_sha256 := it_request_payload_sha256 r;
  it_requested_by := it_requested_by r; it_orchestration_mode := it_orchestration_mode r;
  it_attempt := it_attempt r; it_claim_owner := it_claim_owner r;
  it_claim_expires_at := it_claim_expires_at r; it_broker_task_id := it_broker_task_id r;
  it_skip_reason := it_skip_reason r; it_last_error := it_last_error r;
  it_include_response_execution := include_response;
  it_generate_report := it_generate_report r; it_created_at := it_created_at r;
  it_updated_at := it_updated_at r
|}.

Definition stamped (now : Z) (r : IntentRow) : IntentRow := {|
  it_intent_id := it_intent_id r; it_event_id := it_event_id r;
  it_intent_kind := it_intent_kind r; it_intent_version := it_intent_version r;
  it_status := it_status r; it_revision := it_revision r;
  it_request_idempotency_key := it_request_idempotency_key r;
  it_request_payload_sha256 := it_request_payload_sha256 r;
  it_requested_by := it_requested_by r; it_orchestration_mode := it_orchestration_mode r;
  it_attempt := it_attempt r; it_claim_owner := it_claim_owner r;
  it_claim_expires_at := it_claim_expires_at r; it_broker_task_id := it_broker_task_id r;
  it_skip_reason := it_skip_reason r; it_last_error := it_last_error r;
  it_include_response_execution := it_include_response_execution r;
  it_generate_report := it_generate_report r; it_created_at := it_created_at r;
  it_updated_at := now
|}.

(** *** Constraints and writes *)

Definition both_some (a b : option string) : bool :=
  match a, b with Some x, Some y => x ==? y | _, _ => false end.

(** The unique constraints: one intent per event, kind and version; one per broker task; one per
    requester and idempotency key. *)
Definition intents_conflict (a b : IntentRow) : bool :=
  ((it_event_id a ==? it_event_id b) && (it_intent_kind a ==? it_intent_kind b)
   && (it_intent_version a ==? it_intent_version b))
  || both_some (it_broker_task_id a) (it_broker_task_id b)
  || (both_some (it_requested_by a) (it_requested_by b)
      && both_some (it_request_idempotency_key a) (it_request_idempotency_key b)).

Definition unique_violation : error := builtin_error IntegrityError "unique constraint violated".

(** [ORDER BY f ASC] *)
Definition le_by {A} (f : A → Z) : relation A := λ a b, (f a ≤ f b)%Z.

#[global] Instance le_by_dec {A} (f : A → Z) : RelDecision (le_by f).
Proof. intros a b. unfold le_by. apply _. Defined.

Definition with_intents (l : list IntentRow) (lg : Ledger) : Ledger :=
  MkLedger (lg_db lg) l (lg_links lg).

(** The UPDATE of a changed row: [updated_at] is stamped when a column changed. *)
Definition put_intent (dbnow : Z) (old new : IntentRow) (lg : Ledger) : result Ledger :=
  if new ==? old then Ok lg
  else
    raise_if (existsb (λ r, (it_intent_id r !=? it_intent_id new) && intents_conflict r new)
                (lg_intents lg)) unique_violation ;;
    Ok (with_intents (update_by it_intent_id (stamped dbnow new) (lg_intents lg)) lg).

Definition insert_intent (new : IntentRow) (lg : Ledger) : result Ledger :=
  raise_if (existsb (λ r, (it_intent_id r ==? it_intent_id new) || intents_conflict r new)
              (lg_intents lg)) unique_violation ;;
  Ok (with_intents (lg_intents lg ++ [new])%list lg).

Definition get_intent (lg : Ledger) (intent_id : string) : option IntentRow :=
  get_by it_intent_id intent_id (lg_intents lg).

(** ** Settings and parameters *)

Record IntentEnv : Type := {
  ie_policies : PolicySettings;
  ie_claim_lease_s : Z;
  ie_max_attempts : Z;
  ie_provisional_window_s : Z;
  ie_materialize_batch_size : nat;
  ie_worker_id : string;
  ie_has_degraded : bool;
  ie_celery : bool;
  ie_sha256 : string → string
}.

Definition deterministic_investigation_task_id (ie : IntentEnv) (intent_id : string)
    (revision : Z) : string :=
  ie_sha256 ie (intent_id +++ ":" +++ pretty revision).

Definition _safe_dispatch_error (e : error) : string := error_type_name (err_class e).

Definition _PURE_INVESTIGATION_DISPATCH_STATUSES : list string :=
  enum_value <$> [EventStatus.TRIAGING; EventStatus.COLLECTING_EVIDENCE; EventStatus.ANALYZING;
                  EventStatus.SCORING].

Definition _STARTED_STALE_MIN_S : Z := 660.

Definition _EVENT_INVESTIGATION_RESUMABLE : list string :=
  enum_value <$> [EventStatus.TRIAGING; EventStatus.COLLECTING_EVIDENCE; EventStatus.ANALYZING;
                  EventStatus.SCORING; EventStatus.PLANNING_RESPONSE;
                  EventStatus.WAITING_APPROVAL; EventStatus.EXECUTING_RESPONSE;
                  EventStatus.VERIFYING; EventStatus.REPLANNING].

Definition _EVENT_INVESTIGATION_COMPLETED : list string :=
  enum_value <$> [EventStatus.CONTAINED; EventStatus.REPORTING; EventStatus.CLOSED].

Definition _DISPATCH_IN_PROCESS_FALLBACK_TRIGGERS : list string := ["soft_time_limit_recovered"].

Definition _resolve_response_link_role (lg : Ledger) (event_id : string) : string :=
  let roles := sl_role <$> List.filter (λ l, sl_event_id l ==? event_id) (lg_links lg) in
  if PROVISIONAL_LINK_ROLE ∈? roles then PROVISIONAL_LINK_ROLE
  else if PRIMARY_LINK_ROLE ∈? roles then PRIMARY_LINK_ROLE
  else UNKNOWN_LINK_ROLE.

(** [row.revision or 1], [row.attempt or 0] *)
Definition revision_of (r : IntentRow) : Z := int_or (it_revision r) 1.

(** ** HTTP intake *)

Record HttpInvestigationIntentResult : Type := {
  hr_intent_id : string;
  hr_event_id : string;
  hr_task_id : string;
  hr_revision : Z;
  hr_status : InvestigationIntentStatus;
  hr_created : bool
}.

Record HttpRequest : Type := {
  hq_event_id : string;
  hq_requested_by : string;
  hq_idempotency_key : string;
  hq_payload_sha256 : string;
  hq_orchestration_mode : string;
  hq_include_response : bool;
  hq_generate_report : bool
}.

Section ledger.
Context (ie : IntentEnv).

Definition task_id (r : IntentRow) (revision : Z) : string :=
  deterministic_investigation_task_id ie (it_intent_id r) revision.

Definition _http_intent_result (r : IntentRow) (created : bool) :
    result HttpInvestigationIntentResult :=
  status ← enum_of_value_or_raise (it_status r);
  Ok {| hr_intent_id := it_intent_id r; hr_event_id := it_event_id r;
        hr_task_id := task_id r (revision_of r); hr_revision := revision_of r;
        hr_status := status; hr_created := created |}.

(** The row after [_rearm_http_intent]; the columns of the request are replaced when given. *)
Definition rearmed (r : IntentRow) (request : option (HttpRequest * string * string)) :
    IntentRow :=
  let revision := revision_of r + 1 in
  let kept {A} (f : HttpRequest → A) (old : A) : A :=
    match request with Some (q, _, _) => f q | None => old end in
  {| it_intent_id := it_intent_id r; it_event_id := it_event_id r;
     it_intent_kind := it_intent_kind r; it_intent_version := it_intent_version r;
     it_status := enum_value InvestigationIntentStatus.RETRY; it_revision := revision;
     it_request_idempotency_key :=
       match request with Some (_, key, _) => Some key | None => it_request_idempotency_key r end;
     it_request_payload_sha256 := kept (λ q, Some (hq_payload_sha256 q)) (it_request_payload_sha256 r);
     it_requested_by :=
       match request with Some (_, _, subject) => Some subject | None => it_requested_by r end;
     it_orchestration_mode := kept hq_orchestration_mode (it_orchestration_mode r);
     it_attempt := 0; it_claim_owner := None; it_claim_expires_at := None;
     it_broker_task_id := Some (task_id r revision); it_skip_reason := None; it_last_error := None;
     it_include_response_execution := kept hq_include_response (it_include_response_execution r);
     it_generate_report := kept hq_generate_report (it_generate_report r);
     it_created_at := it_created_at r; it_updated_at := it_updated_at r |}.

Definition _rearm_http_intent (dbnow : Z) (lg : Ledger) (r : IntentRow)
    (request : option (HttpRequest * string * string)) :
    result (Ledger * HttpInvestigationIntentResult) :=
  current ← enum_of_value_or_raise (it_status r);
  validate_intent_transition current InvestigationIntentStatus.RETRY ;;
  out ← _http_intent_result (rearmed r request) false;
  lg ← put_intent dbnow r (rearmed r request) lg;
  Ok (lg, out).

Definition settled_statuses : list InvestigationIntentStatus :=
  [InvestigationIntentStatus.DEAD; InvestigationIntentStatus.SKIPPED].

Definition _replay_http_intent (dbnow : Z) (lg : Ledger) (r : IntentRow)
    (event_id payload_sha256 : string) : result (Ledger * HttpInvestigationIntentResult) :=
  raise_if ((it_event_id r !=? event_id) || (it_request_payload_sha256 r !=? Some payload_sha256))
    (ShadowTraceError_init IdempotencyKeyReuseError
       "Idempotency-Key was already used with a different investigation request" None
       [("event_id", VStr event_id); ("existing_event_id", VStr (it_event_id r));
        ("intent_id", VStr (it_intent_id r))]) ;;
  status ← enum_of_value_or_raise (it_status r);
  if (it_intent_kind r ==? INTENT_KIND_HTTP_INVESTIGATE) && (status ∈? settled_statuses)
  then _rearm_http_intent dbnow lg r None
  else out ← _http_intent_result r false; Ok (lg, out).

Definition skipped_row (reason : string) (r : IntentRow) : IntentRow :=
  row_with r InvestigationIntentStatus.SKIPPED (it_revision r) (it_attempt r) None None
    (Some reason) (it_last_error r).

(** The live automatic intents of an event. *)
Definition skippable (event_id : string) (r : IntentRow) : bool :=
  (it_event_id r ==? event_id) && (it_intent_kind r ==? INTENT_KIND_AUTO_INVESTIGATE)
  && (it_intent_version r ==? INTENT_VERSION_ISSUE108_V1)
  && negb (it_status r ∈? (enum_value <$> TERMINAL_INTENT_STATUSES)).

Fixpoint skip_rows (dbnow : Z) (lg : Ledger) (rows : list IntentRow) (reason : string) :
    result (Ledger * nat) :=
  match rows with
  | [] => Ok (lg, 0%nat)
  | r :: rows' =>
      current ← enum_of_value_or_raise (it_status r);
      validate_intent_transition current InvestigationIntentStatus.SKIPPED ;;
      lg ← put_intent dbnow r (skipped_row reason r) lg;
      rest ← skip_rows dbnow lg rows' reason;
      Ok (rest.1, S rest.2)
  end.

Definition skip_active_intents_for_event_in_session (dbnow : Z) (lg : Ledger)
    (event_id reason : string) : result (Ledger * nat) :=
  skip_rows dbnow lg (List.filter (skippable event_id) (lg_intents lg)) reason.

Definition request_row (subject key : string) (r : IntentRow) : bool :=
  (it_requested_by r ==? Some subject) && (it_request_idempotency_key r ==? Some key).

Definition http_row (event_id : string) (r : IntentRow) : bool :=
  (it_event_id r ==? event_id) && (it_intent_kind r ==? INTENT_KIND_HTTP_INVESTIGATE)
  && (it_intent_version r ==? INTENT_VERSION_ISSUE276_V1).

Definition event_missing_error (event_id : string) : error :=
  ShadowTraceError_init ValidationError ("event " +++ event_id +++ " not found")
    (Some "event_not_found") [("event_id", VStr event_id)].

(** An intent of the event is accepted already: re-arm a settled one, refuse otherwise. *)
Definition on_active_intent (dbnow : Z) (lg : Ledger) (q : HttpRequest) (key subject : string)
    (active : IntentRow) : result (Ledger * HttpInvestigationIntentResult) :=
  status ← enum_of_value_or_raise (it_status active);
  if status ∈? settled_statuses then _rearm_http_intent dbnow lg active (Some (q, key, subject))
  else Err (ShadowTraceError_init InvestigationInProgressError
              "investigation already accepted for this event" None
              [("event_id", VStr (hq_event_id q)); ("intent_id", VStr (it_intent_id active))]).

Definition new_http_row (dbnow : Z) (q : HttpRequest) (key subject intent_id : string) :
    IntentRow := {|
  it_intent_id := intent_id; it_event_id := hq_event_id q;
  it_intent_kind := INTENT_KIND_HTTP_INVESTIGATE; it_intent_version := INTENT_VERSION_ISSUE276_V1;
  it_status := enum_value InvestigationIntentStatus.PENDING; it_revision := 1;
  it_request_idempotency_key := Some key; it_request_payload_sha256 := Some (hq_payload_sha256 q);
  it_requested_by := Some subject; it_orchestration_mode := hq_orchestration_mode q;
  it_attempt := 0; it_claim_owner := None; it_claim_expires_at := None;
  it_broker_task_id := Some (deterministic_investigation_task_id ie intent_id 1);
  it_skip_reason := None; it_last_error := None;
  it_include_response_execution := hq_include_response q;
  it_generate_report := hq_generate_report q; it_created_at := dbnow; it_updated_at := dbnow
|}.

(** The first transaction of the intake. *)
Definition http_intake_tx (dbnow : Z) (lg : Ledger) (q : HttpRequest) (key subject : string)
    (intent_id : string) : result (Ledger * HttpInvestigationIntentResult) :=
  match db_events (lg_db lg) !! hq_event_id q with
  | None => Err (event_missing_error (hq_event_id q))
  | Some event =>
      match List.find (request_row subject key) (lg_intents lg) with
      | Some existing => _replay_http_intent dbnow lg existing (hq_event_id q) (hq_payload_sha256 q)
      | None =>
          if se_status event !=? enum_value EventStatus.NEW then
            current ← enum_of_value_or_raise (A:=EventStatus) (se_status event);
            Err (mk_InvalidStateTransitionError
                   ("event must be in NEW status to start investigation, current: " +++
                    se_status event)
                   (Some (enum_value current)) (Some (enum_value EventStatus.TRIAGING))
                   [("event_id", VStr (hq_event_id q))] None)
          else match List.find (http_row (hq_event_id q)) (lg_intents lg) with
               | Some active => on_active_intent dbnow lg q key subject active
               | None =>
                   skipped ← skip_active_intents_for_event_in_session dbnow lg (hq_event_id q)
                               "superseded_by_http_investigate";
                   let row := new_http_row dbnow q key subject intent_id in
                   lg ← insert_intent row skipped.1;
                   out ← _http_intent_result row true;
                   Ok (lg, out)
               end
      end
  end.

(** The transaction after a lost race on a unique constraint. *)
Definition http_race_tx (dbnow : Z) (lg : Ledger) (q : HttpRequest) (key subject : string)
    (lost : error) : result (Ledger * HttpInvestigationIntentResult) :=
  match db_events (lg_db lg) !! hq_event_id q with
  | None => Err (event_missing_error (hq_event_id q))
  | Some event =>
      match List.find (request_row subject key) (lg_intents lg) with
      | Some existing => _replay_http_intent dbnow lg existing (hq_event_id q) (hq_payload_sha256 q)
      | None =>
          match List.find (http_row (hq_event_id q)) (lg_intents lg) with
          | Some active => on_active_intent dbnow lg q key subject active
          | None => Err lost
          end
      end
  end.

(** [others]: what other processes commit between the two transactions. *)
Definition create_or_replay_http_intent (dbnow : Z) (lg : Ledger) (q : HttpRequest)
    (intent_id : string) (others : Ledger → Ledger) :
    result HttpInvestigationIntentResult * Ledger :=
  let key := str_strip (hq_idempotency_key q) in
  let subject := str_strip (hq_requested_by q) in
  if (key ==? "") || (200 <? Z.of_nat (String.length key)) then
    (Err (ShadowTraceError_init ValidationError "Idempotency-Key must contain 1 to 200 characters"
            None [("field", VStr "Idempotency-Key")]), lg)
  else if subject ==? "" then
    (Err (ShadowTraceError_init ValidationError "authenticated principal subject is required"
            None []), lg)
  else match http_intake_tx dbnow lg q key subject intent_id with
       | Ok (lg', out) => (Ok out, lg')
       | Err e =>
           if err_class e ==? IntegrityError then
             let lg := others lg in
             match http_race_tx dbnow lg q key subject e with
             | Ok (lg', out) => (Ok out, lg')
             | Err e' => (Err e', lg)
             end
           else (Err e, lg)
       end.

Definition mark_inline_started (dbnow : Z) (lg : Ledger) (intent_id : string) :
    result (Ledger * string) :=
  match get_intent lg intent_id with
  | None => Err (ShadowTraceError_init ValidationError "investigation intent not found" None
                   [("intent_id", VStr intent_id)])
  | Some r =>
      current ← enum_of_value_or_raise (it_status r);
      raise_if (negb (current ∈? [InvestigationIntentStatus.PENDING;
                                  InvestigationIntentStatus.RETRY]))
        (ShadowTraceError_init InvestigationInProgressError
           "investigation intent is not available for inline claim" None
           [("intent_id", VStr intent_id); ("status", VStr (enum_value current))]) ;;
      validate_intent_transition current InvestigationIntentStatus.CLAIMED ;;
      let task := task_id r (revision_of r) in
      validate_intent_transition InvestigationIntentStatus.CLAIMED
        InvestigationIntentStatus.ENQUEUED ;;
      validate_intent_transition InvestigationIntentStatus.ENQUEUED
        InvestigationIntentStatus.STARTED ;;
      lg ← put_intent dbnow r
             (row_with r InvestigationIntentStatus.STARTED (it_revision r) (it_attempt r) None
                (Some task) (it_skip_reason r) (it_last_error r)) lg;
      Ok (lg, task)
  end.

(** ** Intents by policy *)

Definition add_audit (dbnow : Z) (lg : Ledger) (event : SecurityEventRow) (operator reason : string) :
    Ledger :=
  let db := lg_db lg in
  let id := db_next_audit_id db in
  MkLedger
    (db_with_audit
       (db_audit db ++ [{| al_id := id; al_event_id := se_event_id event;
                           al_from_status := Some (se_status event);
                           al_to_status := Some (se_status event); al_operator := Some operator;
                           al_reason := Some reason; al_created_at := dbnow |}])%list (id + 1) db)
    (lg_intents lg) (lg_links lg).

Definition auto_row (event_id : string) (r : IntentRow) : bool :=
  (it_event_id r ==? event_id) && (it_intent_kind r ==? INTENT_KIND_AUTO_INVESTIGATE)
  && (it_intent_version r ==? INTENT_VERSION_ISSUE108_V1).

(** [str(settings.orchestration_mode or "graph").strip().lower() or "graph"] *)
Definition intent_orchestration_mode : string :=
  or_text (str_lower (str_strip (or_text (ps_orchestration_mode (ie_policies ie)) "graph"))) "graph".

(** The key of a new row is fresh: its generator collides with probability 2^-64, and the code
    answers a collision by giving up the caller's transaction. *)
Definition maybe_create_pending_in_session (dbnow : Z) (lg : Ledger) (event : SecurityEventRow)
    (link_role : string) (source_product : option string) (created_or_promoted : bool)
    (intent_id : string) : result (Ledger * option string) :=
  if negb created_or_promoted || negb (ps_auto_investigate_enabled (ie_policies ie))
  then Ok (lg, None)
  else
    let decision := auto_investigate_evaluate (ie_policies ie) event link_role source_product in
    if negb (pd_eligible decision) then Ok (lg, None)
    else if existsb (auto_row (se_event_id event)) (lg_intents lg) then Ok (lg, None)
    else
      lg ← insert_intent {|
        it_intent_id := intent_id; it_event_id := se_event_id event;
        it_intent_kind := INTENT_KIND_AUTO_INVESTIGATE;
        it_intent_version := INTENT_VERSION_ISSUE108_V1;
        it_status := enum_value InvestigationIntentStatus.PENDING; it_revision := 1;
        it_request_idempotency_key := None; it_request_payload_sha256 := None;
        it_requested_by := None; it_orchestration_mode := intent_orchestration_mode;
        it_attempt := 0; it_claim_owner := None; it_claim_expires_at := None;
        it_broker_task_id := None; it_skip_reason := None; it_last_error := None;
        it_include_response_execution := false; it_generate_report := false;
        it_created_at := dbnow; it_updated_at := dbnow |} lg;
      Ok (add_audit dbnow lg event "AutoInvestigatePolicyService" (pd_reason decision),
          Some intent_id).

(** ** Claims *)

Definition claim_expired (now : Z) (r : IntentRow) : bool :=
  match it_claim_expires_at r with Some t => t <? now | None => false end.

(** The row after a claim; an expired claim counts an attempt first. *)
Definition claimed_row (now : Z) (r : IntentRow) (attempt : Z) : IntentRow :=
  row_with r InvestigationIntentStatus.CLAIMED (it_revision r) attempt
    (Some (ie_worker_id ie, now + ie_claim_lease_s ie)) (it_broker_task_id r) (it_skip_reason r)
    (it_last_error r).

(** The status and attempt to claim from. *)
Definition expire_claim (now : Z) (r : IntentRow) (current : InvestigationIntentStatus) :
    result (InvestigationIntentStatus * Z) :=
  if (current ==? InvestigationIntentStatus.CLAIMED) && claim_expired now r then
    validate_intent_transition current InvestigationIntentStatus.RETRY ;;
    Ok (InvestigationIntentStatus.RETRY, it_attempt r + 1)
  else Ok (current, it_attempt r).

Definition _claim_intent (now dbnow : Z) (lg : Ledger) (intent_id : string) :
    result (Ledger * option string) :=
  match get_intent lg intent_id with
  | None => Ok (lg, None)
  | Some r =>
      current ← enum_of_value_or_raise (it_status r);
      from ← expire_claim now r current;
      if negb (from.1 ∈? [InvestigationIntentStatus.PENDING; InvestigationIntentStatus.RETRY])
      then Ok (lg, None)
      else
        validate_intent_transition from.1 InvestigationIntentStatus.CLAIMED ;;
        lg ← put_intent dbnow r (claimed_row now r from.2) lg;
        Ok (lg, Some (it_intent_id r))
  end.

Definition claimable_intent (now : Z) (r : IntentRow) : bool :=
  (it_status r ∈? (enum_value <$> [InvestigationIntentStatus.PENDING;
                                   InvestigationIntentStatus.RETRY]))
  || ((it_status r ==? enum_value InvestigationIntentStatus.CLAIMED) && claim_expired now r).

Definition intent_priority (now : Z) (lg : Ledger) (r : IntentRow) : Q :=
  priority_expression (se_severity <$> db_events (lg_db lg) !! it_event_id r) (it_created_at r) now
    (it_include_response_execution r).

(** [ORDER BY priority DESC, created_at ASC, intent_id ASC] *)
Definition claim_order (now : Z) (lg : Ledger) (a b : IntentRow) : bool :=
  let pa := intent_priority now lg a in
  let pb := intent_priority now lg b in
  negb (Qle_bool pa pb)
  || (Qeq_bool pa pb
      && ((it_created_at a <? it_created_at b)
          || ((it_created_at a =? it_created_at b)
              && String.leb (it_intent_id a) (it_intent_id b)))).

Definition claim_rel (now : Z) (lg : Ledger) : relation IntentRow :=
  λ a b, claim_order now lg a b = true.

#[global] Instance claim_rel_dec now lg : RelDecision (claim_rel now lg).
Proof. intros a b. unfold claim_rel. apply _. Defined.

(** The rows of the claiming SELECT; [locked] rows are skipped. *)
Definition claim_candidates (now : Z) (lg : Ledger) (locked : string → bool) (limit : nat) :
    list IntentRow :=
  take limit (merge_sort (claim_rel now lg)
    (List.filter (λ r, claimable_intent now r && negb (locked (it_intent_id r))) (lg_intents lg))).

Fixpoint claim_intent_rows (now dbnow : Z) (lg : Ledger) (rows : list IntentRow) :
    result (Ledger * list string) :=
  match rows with
  | [] => Ok (lg, [])
  | r :: rows' =>
      current ← enum_of_value_or_raise (it_status r);
      from ← expire_claim now r current;
      validate_intent_transition from.1 InvestigationIntentStatus.CLAIMED ;;
      lg ← put_intent dbnow r (claimed_row now r from.2) lg;
      rest ← claim_intent_rows now dbnow lg rows';
      Ok (rest.1, it_intent_id r :: rest.2)
  end.

Definition claim_intent_batch (now dbnow : Z) (lg : Ledger) (locked : string → bool)
    (limit : nat) : result (Ledger * list string) :=
  claim_intent_rows now dbnow lg (claim_candidates now lg locked limit).

(** ** Publishing *)

(** [_set_status_in_session] on a row. *)
Definition _set_status_in_session (r : IntentRow) (target : InvestigationIntentStatus)
    (skip_reason last_error : option string) (increment_attempt : bool) : result IntentRow :=
  current ← enum_of_value_or_raise (it_status r);
  validate_intent_transition current target ;;
  let revision := if increment_attempt then revision_of r + 1 else it_revision r in
  Ok (row_with r target revision
        (if increment_attempt then it_attempt r + 1 else it_attempt r) None
        (if increment_attempt
         then (if target ==? InvestigationIntentStatus.RETRY then Some (task_id r revision) else None)
         else it_broker_task_id r)
        (match skip_reason with Some s => Some s | None => it_skip_reason r end)
        (match last_error with Some s => Some s | None => it_last_error r end)).

Record _EnqueuedPublishTarget : Type := {
  pt_event_id : string;
  pt_task_id : string;
  pt_intent_id : string;
  pt_include_response_execution : bool;
  pt_generate_report : bool;
  pt_orchestration_mode : string;
  pt_resume_from_checkpoint : bool
}.

Definition running_statuses : list string :=
  enum_value <$> [InvestigationIntentStatus.CLAIMED; InvestigationIntentStatus.ENQUEUED;
                  InvestigationIntentStatus.STARTED].

Definition sibling_blocking (lg : Ledger) (r : IntentRow) : bool :=
  existsb (λ s, (it_event_id s ==? it_event_id r) && (it_intent_id s !=? it_intent_id r)
                && (it_status s ∈? running_statuses)) (lg_intents lg).

Definition resumable (r : IntentRow) (event : SecurityEventRow) : bool :=
  (1 <? revision_of r) && (se_status event ∈? _EVENT_INVESTIGATION_RESUMABLE).

(** Whether the run includes the response phase; automatic intents ask the policy. *)
Definition response_decision (lg : Ledger) (event : SecurityEventRow) : PolicyDecision :=
  auto_response_evaluate (ie_policies ie) event (_resolve_response_link_role lg (se_event_id event))
    (text_field (se_creation_source_ref event) "source_product").

Definition include_response_of (lg : Ledger) (event : SecurityEventRow) (r : IntentRow) : bool :=
  if it_intent_kind r ==? INTENT_KIND_AUTO_INVESTIGATE
  then pd_eligible (response_decision lg event) else it_include_response_execution r.

Definition audit_response (dbnow : Z) (lg : Ledger) (event : SecurityEventRow) (r : IntentRow) :
    Ledger :=
  if (it_intent_kind r ==? INTENT_KIND_AUTO_INVESTIGATE)
     && ps_auto_response_enabled (ie_policies ie)
  then add_audit dbnow lg event "AutoResponsePolicyService"
         (format_auto_response_audit_reason (response_decision lg event))
  else lg.

Definition enqueued_row (lg : Ledger) (event : SecurityEventRow) (r : IntentRow) : IntentRow :=
  row_with_response
    (row_with r InvestigationIntentStatus.ENQUEUED (it_revision r) (it_attempt r) None
       (Some (task_id r (it_revision r))) (it_skip_reason r) None)
    (include_response_of lg event r).

Definition _commit_enqueued_publish_target (dbnow : Z) (lg : Ledger) (intent_id : string) :
    result (Ledger * option _EnqueuedPublishTarget) :=
  let settle (r : IntentRow) target skip error increment :=
    r' ← _set_status_in_session r target skip error increment;
    lg ← put_intent dbnow r r' lg;
    Ok (lg, None) in
  match get_intent lg intent_id with
  | None => Ok (lg, None)
  | Some r =>
      claimed_status ← enum_of_value_or_raise (it_status r);
      if claimed_status !=? InvestigationIntentStatus.CLAIMED then Ok (lg, None)
      else match db_events (lg_db lg) !! it_event_id r with
           | None => settle r InvestigationIntentStatus.SKIPPED (Some "event_missing") None false
           | Some event =>
               if (se_status event !=? enum_value EventStatus.NEW) && negb (resumable r event)
               then settle r InvestigationIntentStatus.SKIPPED (Some "event_not_new") None false
               else if sibling_blocking lg r
               then settle r InvestigationIntentStatus.RETRY None (Some "sibling_intent_active") true
               else
                 validate_intent_transition InvestigationIntentStatus.CLAIMED
                   InvestigationIntentStatus.ENQUEUED ;;
                 let r' := enqueued_row lg event r in
                 lg' ← put_intent dbnow r r' (audit_response dbnow lg event r);
                 Ok (lg', Some {|
                   pt_event_id := it_event_id r; pt_task_id := task_id r (it_revision r);
                   pt_intent_id := it_intent_id r;
                   pt_include_response_execution := it_include_response_execution r';
                   pt_generate_report := it_generate_report r;
                   pt_orchestration_mode := or_text (it_orchestration_mode r) "graph";
                   pt_resume_from_checkpoint := resumable r event |})
           end
  end.

(** The row a failed publication leaves ([_handle_publish_transient_failure]). *)
Definition transient_failure_row (r : IntentRow) (failure : string) (conserve : bool) :
    result IntentRow :=
  if conserve then
    r' ← _set_status_in_session r InvestigationIntentStatus.RETRY None (Some failure) false;
    Ok (row_with_task r' None)
  else if ie_max_attempts ie <=? it_attempt r + 1 then
    _set_status_in_session r InvestigationIntentStatus.DEAD None (Some failure) false
  else _set_status_in_session r InvestigationIntentStatus.RETRY None (Some failure) true.

(** [_revert_enqueued_after_publish_failure]: the rows, and the event to flag; the flag is set
    before the transaction commits. *)
Definition revert_transient_tx (dbnow : Z) (lg : Ledger) (intent_id failure : string)
    (conserve : bool) : result (Ledger * option string) :=
  match get_intent lg intent_id with
  | None => Ok (lg, None)
  | Some r =>
      status ← enum_of_value_or_raise (it_status r);
      if status !=? InvestigationIntentStatus.ENQUEUED then Ok (lg, None)
      else
        r' ← transient_failure_row r failure conserve;
        lg ← put_intent dbnow r r' lg;
        Ok (lg, if ie_has_degraded ie then Some (it_event_id r) else None)
  end.

Definition _revert_enqueued_after_unexpected_failure (dbnow : Z) (lg : Ledger)
    (intent_id failure : string) (conserve : bool) : result Ledger :=
  match get_intent lg intent_id with
  | None => Ok lg
  | Some r =>
      status ← enum_of_value_or_raise (it_status r);
      if status !=? InvestigationIntentStatus.ENQUEUED then Ok lg
      else
        r' ← _set_status_in_session r
               (if conserve then InvestigationIntentStatus.RETRY else InvestigationIntentStatus.DEAD)
               None (Some failure) false;
        put_intent dbnow r (row_with_task r' None) lg
  end.

(** ** Workers *)

Definition mark_started (dbnow : Z) (lg : Ledger) (intent_id broker_task_id : string) :
    result (Ledger * IntentDeliveryAdmission) :=
  match get_intent lg intent_id with
  | None => Ok (lg, IntentDeliveryAdmission.MISSING)
  | Some r =>
      current ← enum_of_value_or_raise (it_status r);
      if current ∈? TERMINAL_INTENT_STATUSES
      then Ok (lg, IntentDeliveryAdmission.ALREADY_TERMINAL)
      else if current ==? InvestigationIntentStatus.STARTED then
        if it_broker_task_id r ==? Some broker_task_id
        then Ok (lg, IntentDeliveryAdmission.ACCEPTED)
        else if broker_task_id ==? task_id r (revision_of r) then
          lg ← put_intent dbnow r (row_with_task r (Some broker_task_id)) lg;
          Ok (lg, IntentDeliveryAdmission.ACCEPTED)
        else Ok (lg, IntentDeliveryAdmission.STALE_SUPERSEDED)
      else if current !=? InvestigationIntentStatus.ENQUEUED
      then Ok (lg, IntentDeliveryAdmission.STALE_SUPERSEDED)
      else if truthy_str (it_broker_task_id r) && (it_broker_task_id r !=? Some broker_task_id)
      then Ok (lg, IntentDeliveryAdmission.STALE_SUPERSEDED)
      else
        validate_intent_transition current InvestigationIntentStatus.STARTED ;;
        lg ← put_intent dbnow r
               (row_with r InvestigationIntentStatus.STARTED (it_revision r) (it_attempt r) None
                  (Some broker_task_id) (it_skip_reason r) (it_last_error r)) lg;
        Ok (lg, IntentDeliveryAdmission.ACCEPTED)
  end.

(** [_transition] as the [mark_*] methods call it. *)
Definition intent_transition (dbnow : Z) (lg : Ledger) (intent_id : string)
    (target : InvestigationIntentStatus) (skip_reason last_error : option string)
    (increment_attempt : bool) (expected : option string) : result (Ledger * bool) :=
  match get_intent lg intent_id with
  | None => Ok (lg, false)
  | Some r =>
      current ← enum_of_value_or_raise (it_status r);
      if match expected with
         | Some t => (current !=? InvestigationIntentStatus.STARTED)
                     || (it_broker_task_id r !=? Some t)
         | None => false
         end
      then Ok (lg, false)
      else if current ∈? TERMINAL_INTENT_STATUSES then Ok (lg, false)
      else
        validate_intent_transition current target ;;
        r' ← _set_status_in_session r target skip_reason last_error increment_attempt;
        lg ← put_intent dbnow r r' lg;
        Ok (lg, true)
  end.

Definition mark_terminal (dbnow : Z) (lg : Ledger) (intent_id : string) (task : option string) :=
  intent_transition dbnow lg intent_id InvestigationIntentStatus.TERMINAL None None false task.

Definition mark_skipped (dbnow : Z) (lg : Ledger) (intent_id reason : string)
    (task : option string) :=
  intent_transition dbnow lg intent_id InvestigationIntentStatus.SKIPPED (Some reason) None false
    task.

Definition mark_retry (dbnow : Z) (lg : Ledger) (intent_id error : string) (task : option string) :=
  intent_transition dbnow lg intent_id InvestigationIntentStatus.RETRY None (Some error) true task.

Definition mark_dead (dbnow : Z) (lg : Ledger) (intent_id error : string) (task : option string) :=
  intent_transition dbnow lg intent_id InvestigationIntentStatus.DEAD None (Some error) false task.

(** ** Recovery *)

Definition _is_stale_intent_row (now : Z) (r : IntentRow) (status : InvestigationIntentStatus) :
    bool :=
  let lease_seconds := ie_claim_lease_s ie in
  claim_expired now r
  || match status with
     | InvestigationIntentStatus.ENQUEUED => Z.max (lease_seconds * 4) 30 <? now - it_updated_at r
     | InvestigationIntentStatus.STARTED =>
         Z.max (lease_seconds * 4) _STARTED_STALE_MIN_S <? now - it_updated_at r
     | _ => false
     end.

(** [row.last_error or text] *)
Definition error_or (r : IntentRow) (text : string) : option string :=
  if truthy_str (it_last_error r) then it_last_error r else Some text.

Definition _reconcile_stale_row (r : IntentRow) (status : InvestigationIntentStatus)
    (event : option SecurityEventRow) : result IntentRow :=
  let recovered :=
    let next_attempt := it_attempt r + 1 in
    let revision := revision_of r + 1 in
    if ie_max_attempts ie <=? next_attempt then
      validate_intent_transition status InvestigationIntentStatus.DEAD ;;
      Ok (row_with r InvestigationIntentStatus.DEAD revision (it_attempt r) None None
            (it_skip_reason r) (error_or r "max_attempts_exceeded"))
    else
      validate_intent_transition status InvestigationIntentStatus.RETRY ;;
      Ok (row_with r InvestigationIntentStatus.RETRY revision next_attempt None
            (Some (task_id r revision)) (it_skip_reason r) (error_or r "stale_intent_reconciled")) in
  match event with
  | Some event =>
      if (status ==? InvestigationIntentStatus.STARTED)
         && (se_status event ∈? _EVENT_INVESTIGATION_COMPLETED) then
        validate_intent_transition status InvestigationIntentStatus.TERMINAL ;;
        Ok (row_with r InvestigationIntentStatus.TERMINAL (it_revision r) (it_attempt r) None
              (it_broker_task_id r) (it_skip_reason r) (it_last_error r))
      else if (status ==? InvestigationIntentStatus.STARTED)
              && (se_status event ==? enum_value EventStatus.FAILED) then
        validate_intent_transition status InvestigationIntentStatus.SKIPPED ;;
        Ok (row_with r InvestigationIntentStatus.SKIPPED (it_revision r) (it_attempt r) None
              (it_broker_task_id r) (Some "event_failed") (it_last_error r))
      else recovered
  | None => recovered
  end.

Definition stale_candidates (lg : Ledger) (locked : string → bool) (limit : nat) : list IntentRow :=
  take limit (merge_sort (le_by it_updated_at)
    (List.filter (λ r, (it_status r ∈? running_statuses) && negb (locked (it_intent_id r)))
       (lg_intents lg))).

Fixpoint reconcile_rows (now dbnow : Z) (lg : Ledger) (rows : list IntentRow) :
    result (Ledger * nat) :=
  match rows with
  | [] => Ok (lg, 0%nat)
  | r :: rows' =>
      status ← enum_of_value_or_raise (it_status r);
      if negb (_is_stale_intent_row now r status) then reconcile_rows now dbnow lg rows'
      else
        r' ← _reconcile_stale_row r status (db_events (lg_db lg) !! it_event_id r);
        lg ← put_intent dbnow r r' lg;
        rest ← reconcile_rows now dbnow lg rows';
        Ok (rest.1, S rest.2)
  end.

Definition reconcile_stale_tx (now dbnow : Z) (lg : Ledger) (locked : string → bool) (limit : nat) :
    result (Ledger * nat) :=
  reconcile_rows now dbnow lg (stale_candidates lg locked limit).

(** The provisional links of aged NEW events without an automatic intent, oldest event first. *)
Definition materializable (now : Z) (lg : Ledger) (l : SourceEventLinkRow) :
    option (Z * SecurityEventRow) :=
  match db_events (lg_db lg) !! sl_event_id l with
  | Some event =>
      if (sl_role l ==? PROVISIONAL_LINK_ROLE) && (se_status event ==? enum_value EventStatus.NEW)
         && (se_created_at event <=? now - ie_provisional_window_s ie)
         && negb (existsb (auto_row (sl_event_id l)) (lg_intents lg))
      then Some (se_created_at event, event) else None
  | None => None
  end.

Fixpoint materialize_rows (dbnow : Z) (lg : Ledger) (events : list SecurityEventRow)
    (new_id : string → string) : result (Ledger * nat) :=
  match events with
  | [] => Ok (lg, 0%nat)
  | event :: events' =>
      r ← maybe_create_pending_in_session dbnow lg event PRIMARY_LINK_ROLE
            (text_field (se_creation_source_ref event) "source_product") true
            (new_id (se_event_id event));
      rest ← materialize_rows dbnow r.1 events' new_id;
      Ok (rest.1, match r.2 with Some _ => S rest.2 | None => rest.2 end)
  end.

Definition _materialize_provisional_intents (now dbnow : Z) (lg : Ledger)
    (new_id : string → string) : result (Ledger * nat) :=
  if negb (ps_auto_investigate_enabled (ie_policies ie)) then Ok (lg, 0%nat)
  else materialize_rows dbnow lg
         (snd <$> take (ie_materialize_batch_size ie)
            (merge_sort (le_by fst) (omap (materializable now lg) (lg_links lg)))) new_id.

(** Two transactions; the first stays committed when the second fails. *)
Definition reconcile_stale (now dbnow : Z) (lg : Ledger) (locked : string → bool) (limit : nat)
    (new_id : string → string) : result nat * Ledger :=
  match reconcile_stale_tx now dbnow lg locked limit with
  | Err e => (Err e, lg)
  | Ok (lg1, n) =>
      match _materialize_provisional_intents now dbnow lg1 new_id with
      | Err e => (Err e, lg1)
      | Ok (lg2, m) => (Ok (n + m)%nat, lg2)
      end
  end.

(** ** Dispatch *)

Definition lookup_by_broker_task_id (lg : Ledger) (task : string) : option IntentRow :=
  List.find (λ r, it_broker_task_id r ==? Some task) (lg_intents lg).

Definition lookup_active_for_event (lg : Ledger) (event_id : string) : option IntentRow :=
  head (merge_sort (le_by (λ r, - it_created_at r)) (List.filter (auto_row event_id) (lg_intents lg))).

Definition pending_dispatch_stats (now : Z) (lg : Ledger) : nat * option Z :=
  let pending := List.filter (λ r, it_status r ∈? (enum_value <$>
    [InvestigationIntentStatus.PENDING; InvestigationIntentStatus.RETRY])) (lg_intents lg) in
  (length pending,
   (λ t, Z.max 0 (now - (- t))) <$> max_of (λ r, - it_created_at r) pending).

Definition _is_safe_for_in_process_dispatch_fallback (lg : Ledger) (event_id intent_id : string) :
    result bool :=
  match get_intent lg intent_id, db_events (lg_db lg) !! event_id with
  | Some r, Some event =>
      if it_event_id r !=? event_id then Ok false
      else
        status ← enum_of_value_or_raise (it_status r);
        Ok ((status ∈? [InvestigationIntentStatus.PENDING; InvestigationIntentStatus.RETRY])
            && negb (it_include_response_execution r)
            && (se_status event ∈? _PURE_INVESTIGATION_DISPATCH_STATUSES)
            && negb (existsb (λ o, (ob_event_id o ==? event_id)
                                   && bool_decide (ob_superseded_by_disposition_id o = None)
                                   && (ob_latest_writeback_status o
                                       ==? Some (enum_value WritebackStatus.UNKNOWN)))
                       (db_outboxes (lg_db lg))))
  | _, _ => Ok false
  end.

(** What the broker and the metadata store answer to one publication. *)
Inductive BrokerAnswer : Type :=
| broker_accepted
| metadata_unavailable (e : error)
| broker_unavailable (type_name : string)
| broker_failed (e : error).

Record PublishAnswer : Type := {
  pa_answer : BrokerAnswer;
  (** removing the task metadata after a failure *)
  pa_cleanup : result unit
}.

Section dispatch.
Context {St : Type} `{ContextStore St}.

Record IntentWorld : Type := MkIntentWorld { iw_ledger : Ledger; iw_store : St }.

Definition set_dispatch_flag (w : IntentWorld) (event_id flag : string) :
    result unit * IntentWorld :=
  if negb (ie_has_degraded ie) then (Ok tt, w)
  else
    let '(r, w') := set_flag (MkWorld (lg_db (iw_ledger w)) (iw_store w)) event_id flag (VBool true)
                      "InvestigationIntentService" in
    (r ≫= λ _, Ok tt,
     MkIntentWorld (MkLedger (w_db w') (lg_intents (iw_ledger w)) (lg_links (iw_ledger w)))
       (w_store w')).

(** The flag is set inside the transaction, by another session: its failure rolls the rows back. *)
Definition _revert_enqueued_after_publish_failure (dbnow : Z) (w : IntentWorld)
    (intent_id failure : string) (conserve : bool) : result unit * IntentWorld :=
  match revert_transient_tx dbnow (iw_ledger w) intent_id failure conserve with
  | Err e => (Err e, w)
  | Ok (lg, None) => (Ok tt, MkIntentWorld lg (iw_store w))
  | Ok (lg, Some event_id) =>
      match set_dispatch_flag w event_id "auto_investigate_dispatch_unavailable" with
      | (Err e, w') => (Err e, w')
      | (Ok _, w') =>
          (Ok tt, MkIntentWorld (MkLedger (lg_db (iw_ledger w')) (lg_intents lg) (lg_links lg))
                    (iw_store w'))
      end
  end.

Definition broker_error (target : _EnqueuedPublishTarget) : error :=
  ShadowTraceError_init DependencyUnavailableError "celery broker unavailable"
    (Some "dependency_unavailable")
    [("dependency", VStr "celery_broker"); ("event_id", VStr (pt_event_id target));
     ("intent_id", VStr (pt_intent_id target))].

(** After a failed publication: clean up, revert, flag the response path, then raise or not. *)
Definition after_failed_publish (w : IntentWorld) (target : _EnqueuedPublishTarget)
    (answer : PublishAnswer) (revert : IntentWorld → result unit * IntentWorld)
    (raised : option error) : result bool * IntentWorld :=
  match pa_cleanup answer with
  | Err e => (Err e, w)
  | Ok _ =>
      match revert w with
      | (Err e, w) => (Err e, w)
      | (Ok _, w) =>
          let '(r, w) := if pt_include_response_execution target
                         then set_dispatch_flag w (pt_event_id target)
                                "auto_response_dispatch_unavailable"
                         else (Ok tt, w) in
          match r, raised with
          | Err e, _ => (Err e, w)
          | Ok _, Some e => (Err e, w)
          | Ok _, None => (Ok false, w)
          end
      end
  end.

Definition _publish_claimed_intent (dbnow : Z) (w : IntentWorld) (intent_id : string)
    (strict conserve : bool) (answer : PublishAnswer) : result bool * IntentWorld :=
  match _commit_enqueued_publish_target dbnow (iw_ledger w) intent_id with
  | Err e => (Err e, w)
  | Ok (lg, None) => (Ok false, MkIntentWorld lg (iw_store w))
  | Ok (lg, Some target) =>
      let w := MkIntentWorld lg (iw_store w) in
      let transient failure w :=
        _revert_enqueued_after_publish_failure dbnow w (pt_intent_id target) failure conserve in
      match pa_answer answer with
      | broker_accepted => (Ok true, w)
      | metadata_unavailable e =>
          after_failed_publish w target answer (transient (_safe_dispatch_error e))
            (if strict then Some e else None)
      | broker_unavailable name =>
          after_failed_publish w target answer (transient name)
            (if strict then Some (broker_error target) else None)
      | broker_failed e =>
          after_failed_publish w target answer
            (λ w, match _revert_enqueued_after_unexpected_failure dbnow (iw_ledger w)
                          (pt_intent_id target) (_safe_dispatch_error e) conserve with
                  | Err e' => (Err e', w)
                  | Ok lg => (Ok tt, MkIntentWorld lg (iw_store w))
                  end) None
      end
  end.

Fixpoint publish_all (dbnow : Z) (w : IntentWorld) (ids : list string)
    (answers : string → PublishAnswer) : result nat * IntentWorld :=
  match ids with
  | [] => (Ok 0%nat, w)
  | id :: ids' =>
      match _publish_claimed_intent dbnow w id false false (answers id) with
      | (Err e, w) => (Err e, w)
      | (Ok b, w) =>
          let '(r, w) := publish_all dbnow w ids' answers in
          (r ≫= λ n, Ok (if b then S n else n), w)
      end
  end.

Definition claim_and_publish_batch (now dbnow : Z) (w : IntentWorld) (locked : string → bool)
    (limit : nat) (answers : string → PublishAnswer) : result nat * IntentWorld :=
  match claim_intent_batch now dbnow (iw_ledger w) locked limit with
  | Err e => (Err e, w)
  | Ok (lg, ids) => publish_all dbnow (MkIntentWorld lg (iw_store w)) ids answers
  end.

(** The loop of [dispatch_sync_batch]: published, and whether a dependency was unavailable. *)
Fixpoint publish_strict (dbnow : Z) (w : IntentWorld) (ids : list string)
    (answers : string → PublishAnswer) : result (nat * bool) * IntentWorld :=
  match ids with
  | [] => (Ok (0%nat, false), w)
  | id :: ids' =>
      let continue (published transient : bool) (w : IntentWorld) :=
        let '(r, w) := publish_strict dbnow w ids' answers in
        (r ≫= λ n, Ok ((if published then S n.1 else n.1), transient || n.2), w) in
      match _publish_claimed_intent dbnow w id true false (answers id) with
      | (Ok b, w) => continue b false w
      | (Err e, w) =>
          if err_class e ==? DependencyUnavailableError then continue false true w else (Err e, w)
      end
  end.

Definition dispatch_sync_batch (now dbnow : Z) (w : IntentWorld) (locked : string → bool)
    (limit : nat) (answers : string → PublishAnswer) : result (nat * nat) * IntentWorld :=
  match claim_intent_batch now dbnow (iw_ledger w) locked limit with
  | Err e => (Err e, w)
  | Ok (lg, ids) =>
      let '(r, w) := publish_strict dbnow (MkIntentWorld lg (iw_store w)) ids answers in
      (n ← r;
       raise_if (n.2 && (n.1 ==? 0%nat))
         (ShadowTraceError_init DependencyUnavailableError "celery broker unavailable"
            (Some "dependency_unavailable")
            [("dependency", VStr "celery_broker"); ("claimed", VInt (Z.of_nat (length ids)))]) ;;
       Ok (length ids, n.1), w)
  end.

Definition claim_and_publish_intent (now dbnow : Z) (w : IntentWorld) (intent_id : string)
    (conserve : bool) (answer : PublishAnswer) : result bool * IntentWorld :=
  match _claim_intent now dbnow (iw_ledger w) intent_id with
  | Err e => (Err e, w)
  | Ok (lg, None) => (Ok false, MkIntentWorld lg (iw_store w))
  | Ok (lg, Some id) =>
      _publish_claimed_intent dbnow (MkIntentWorld lg (iw_store w)) id false conserve answer
  end.

(** Exceptions are logged and answered with 0. *)
Definition _run_in_process_dispatch_fallback (now dbnow : Z) (w : IntentWorld)
    (event_id intent_id : option string) (trigger : string) (answer : PublishAnswer) :
    bool * IntentWorld :=
  if negb (trigger ∈? _DISPATCH_IN_PROCESS_FALLBACK_TRIGGERS) then (false, w)
  else match event_id, intent_id with
       | Some e, Some i =>
           match _is_safe_for_in_process_dispatch_fallback (iw_ledger w) e i with
           | Ok true =>
               match claim_and_publish_intent now dbnow w i true answer with
               | (Ok b, w) => (b, w)
               | (Err _, w) => (false, w)
               end
           | _ => (false, w)
           end
       | _, _ => (false, w)
       end.

(** [enqueued]: whether Celery took the dispatch trigger. *)
Definition schedule_dispatch_async (now dbnow : Z) (w : IntentWorld)
    (event_id intent_id : option string) (trigger : string) (enqueued : bool)
    (answer : PublishAnswer) : IntentWorld :=
  if negb (ie_celery ie) || enqueued then w
  else
    let w := match event_id with
             | Some e => (set_dispatch_flag w e "auto_investigate_dispatch_unavailable").2
             | None => w
             end in
    (_run_in_process_dispatch_fallback now dbnow w event_id intent_id trigger answer).2.
End dispatch.
End ledger.
