(* ===== verification/IntentFacts.v ===== *)
(** * Guarantees of the investigation intent ledger: rows and transactions *)

From stdpp Require Import prelude strings gmap sorting pretty.
From S2P Require Import Prelude Enums Errors Tables Workflow Db Reconcile.
From S2P Require Import ContextJournal ContextStore DegradedFlags StateMachine AutoPolicies Intents.

#[local] Open Scope string_scope.

(** Membership in a list of constants. *)
Ltac decide_in := apply (bool_decide_unpack _); vm_compute; exact I.

(** No membership in a list of constants. *)
Ltac refute_in H := exfalso; apply (bool_decide_pack _) in H; vm_compute in H; exact H.

Definition has_status (r : IntentRow) (s : InvestigationIntentStatus) : Prop :=
  it_status r = enum_value s.

#[global] Instance has_status_dec r s : Decision (has_status r s).
Proof. unfold has_status. apply _. Defined.

(** Published, or running. *)
Definition active (r : IntentRow) : Prop :=
  has_status r InvestigationIntentStatus.ENQUEUED ∨ has_status r InvestigationIntentStatus.STARTED.

(** Started at least once at this revision, or given up. *)
Definition spent (r : IntentRow) : Prop :=
  ∃ s, has_status r s ∧
    s ∈ InvestigationIntentStatus.STARTED :: TERMINAL_INTENT_STATUSES.

Definition ahead (r : IntentRow) : Prop :=
  ∃ s, has_status r s ∧
    s ∈ [InvestigationIntentStatus.PENDING; InvestigationIntentStatus.RETRY;
         InvestigationIntentStatus.CLAIMED; InvestigationIntentStatus.ENQUEUED].

Lemma has_status_inj r s t : has_status r s → has_status r t → s = t.
Proof. unfold has_status. intros -> H%enum_value_eq. done. Qed.

(** ** How a row changes *)

Definition intent_edge (s t : string) : Prop :=
  ∃ a b, s = enum_value a ∧ t = enum_value b ∧ b ∈ INTENT_TRANSITIONS a.

(** The columns of the request an intent answers. *)
Definition request_of (r : IntentRow) : option string * option string * option string :=
  (it_requested_by r, it_request_idempotency_key r, it_request_payload_sha256 r).

Record intent_moved (r r' : IntentRow) : Prop := {
  im_id : it_intent_id r' = it_intent_id r;
  im_event : it_event_id r' = it_event_id r;
  im_kind : it_intent_kind r' = it_intent_kind r;
  im_version : it_intent_version r' = it_intent_version r;
  im_path : rtc intent_edge (it_status r) (it_status r');
  im_revision : (it_revision r ≤ it_revision r')%Z;
  im_restart : spent r → ahead r' → (it_revision r < it_revision r')%Z;
  im_final : has_status r InvestigationIntentStatus.TERMINAL → r' = r;
  im_request : it_revision r' = it_revision r → request_of r' = request_of r
}.

Lemma spent_or_ahead r s : has_status r s → spent r ∨ ahead r.
Proof.
  intros Hs.
  destruct s; (left; eexists; split; [exact Hs|decide_in]) || (right; eexists; split; [exact Hs|decide_in]).
Qed.

Lemma spent_ahead r : spent r → ahead r → False.
Proof.
  intros (s & Hs & Hin) (t & Ht & Hin'). rewrite (has_status_inj r s t Hs Ht) in Hin.
  destruct t; first [refute_in Hin|refute_in Hin'].
Qed.

Lemma intent_moved_refl r : intent_moved r r.
Proof. split; try done. intros Hs Ha. by destruct (spent_ahead r). Qed.

Lemma intent_moved_trans a b c s :
  has_status b s → intent_moved a b → intent_moved b c → intent_moved a c.
Proof.
  intros Hb [H1 H2 H3 H4 Hp Hr Hs Hf Hq] [K1 K2 K3 K4 Kp Kr Ks Kf Kq]. split; try congruence.
  - by etrans.
  - lia.
  - intros Ha Hc. destruct (spent_or_ahead b s Hb) as [Hsp|Hah].
    + specialize (Ks Hsp Hc). lia.
    + specialize (Hs Ha Hah). lia.
  - intros Ht. specialize (Hf Ht). subst b. by apply Kf.
  - intros He. rewrite Kq by lia. apply Hq. lia.
Qed.

(** ** Well-formed ledgers *)

Section facts.
Context (ie : IntentEnv).

Record row_ok (r : IntentRow) : Prop := {
  ro_status : ∃ s : InvestigationIntentStatus, has_status r s;
  ro_revision : (1 ≤ it_revision r)%Z;
  ro_attempt : (0 ≤ it_attempt r)%Z;
  ro_task : ∀ t, it_broker_task_id r = Some t → ∃ v, t = task_id ie r v ∧ (v ≤ it_revision r)%Z;
  ro_active : active r → it_broker_task_id r = Some (task_id ie r (it_revision r));
  ro_claim : has_status r InvestigationIntentStatus.CLAIMED →
    is_Some (it_claim_owner r) ∧ is_Some (it_claim_expires_at r);
  ro_unclaimed : ¬ has_status r InvestigationIntentStatus.CLAIMED →
    it_claim_owner r = None ∧ it_claim_expires_at r = None
}.

Record ledger_ok (l : list IntentRow) : Prop := {
  lo_keyed : NoDup (it_intent_id <$> l);
  lo_rows : Forall row_ok l;
  lo_unique : ∀ r s, r ∈ l → s ∈ l → it_intent_id r ≠ it_intent_id s → intents_conflict r s = false
}.

(** At most one published or running intent per event. *)
Definition one_running (l : list IntentRow) : Prop :=
  ∀ r s, r ∈ l → s ∈ l → active r → active s → it_event_id r = it_event_id s → r = s.

Definition intents_step (l l' : list IntentRow) : Prop :=
  ∃ mid news, Forall2 intent_moved l mid ∧ l' = (mid ++ news)%list.

(** A write of [r'] over [r]. *)
Record write_ok (r r' : IntentRow) : Prop := {
  wo_moved : intent_moved r r';
  wo_row : row_ok r'
}.

Lemma revision_of_ok r : row_ok r → revision_of r = it_revision r.
Proof.
  intros [_ Hr _ _ _ _ _]. unfold revision_of, int_or. rewrite bool_decide_eq_false_2; [done|lia].
Qed.

Lemma both_some_true a b : both_some a b = true ↔ ∃ x, a = Some x ∧ b = Some x.
Proof.
  destruct a as [x|], b as [y|]; cbn; try naive_solver. rewrite bool_decide_eq_true. naive_solver.
Qed.

Definition conflicting (a b : IntentRow) : Prop :=
  it_event_id a = it_event_id b ∧ it_intent_kind a = it_intent_kind b
    ∧ it_intent_version a = it_intent_version b
  ∨ (∃ t, it_broker_task_id a = Some t ∧ it_broker_task_id b = Some t)
  ∨ (∃ u, it_requested_by a = Some u ∧ it_requested_by b = Some u)
    ∧ (∃ k, it_request_idempotency_key a = Some k ∧ it_request_idempotency_key b = Some k).

Lemma intents_conflict_true a b : intents_conflict a b = true ↔ conflicting a b.
Proof.
  unfold intents_conflict, conflicting. rewrite !orb_true_iff, !andb_true_iff, !both_some_true.
  rewrite !bool_decide_eq_true. tauto.
Qed.

Lemma conflict_sym a b : intents_conflict a b = intents_conflict b a.
Proof.
  apply eq_true_iff_eq. rewrite !intents_conflict_true. unfold conflicting. naive_solver.
Qed.

(** ** Writes *)

Lemma put_intent_Ok dbnow r r' lg lg' :
  put_intent dbnow r r' lg = Ok lg' →
  r' = r ∧ lg' = lg ∨
  r' ≠ r ∧ lg' = with_intents (update_by it_intent_id (stamped dbnow r') (lg_intents lg)) lg ∧
  (∀ s, s ∈ lg_intents lg → it_intent_id s ≠ it_intent_id r' → intents_conflict s r' = false).
Proof.
  unfold put_intent. case_bool_decide as He; [intros [= <-]; by left|].
  intros [Hn [= <-]]%raise_if_seq_Ok. right. split_and!; [done|done|].
  intros s Hs Hid. destruct (intents_conflict s r') eqn:Hc; [|done].
  assert (existsb (λ r, (it_intent_id r !=? it_intent_id r') && intents_conflict r r')
    (lg_intents lg) = true) as Hex; [|congruence].
  apply existsb_exists. exists s. split; [by apply list_elem_of_In|].
  by rewrite bool_decide_eq_false_2, Hc.
Qed.

Lemma row_ok_stamped now r : row_ok r → row_ok (stamped now r).
Proof. intros [H1 H2 H3 H4 H5 H6 H7]. by split. Qed.

Lemma moved_stamped now r r' : r' ≠ r → intent_moved r r' → intent_moved r (stamped now r').
Proof. intros Hne [H1 H2 H3 H4 H5 H6 H7 H8 H9]. split; try done. intros Ht. by apply H8 in Ht. Qed.

Record put_spec (l l' : list IntentRow) (r r'' : IntentRow) : Prop := {
  ps_moved : Forall2 intent_moved l l';
  ps_new : intent_moved r r'' ∧ row_ok r'';
  ps_rows : ∀ z, z ∈ l' ↔ z = r'' ∨ z ∈ l ∧ it_intent_id z ≠ it_intent_id r
}.

Lemma put_intent_spec dbnow r r' lg lg' :
  ledger_ok (lg_intents lg) → r ∈ lg_intents lg → write_ok r r' →
  put_intent dbnow r r' lg = Ok lg' →
  ledger_ok (lg_intents lg') ∧ lg_db lg' = lg_db lg ∧ lg_links lg' = lg_links lg ∧
  ∃ r'', (r'' = r' ∨ r'' = stamped dbnow r') ∧ put_spec (lg_intents lg) (lg_intents lg') r r''.
Proof.
  intros [Hk Hrows Hu] Hr [Hm Hro] [[-> ->]|(Hne & -> & Hc)]%put_intent_Ok.
  - split_and!; [done..|]. exists r. split; [by left|]. split; [by apply Forall2_same, intent_moved_refl|done|].
    intros z. split; [|naive_solver]. intros Hz.
    destruct (decide (it_intent_id z = it_intent_id r)) as [E|]; [left|by right].
    exact (NoDup_fmap_elem it_intent_id _ z r Hk Hz Hr E).
  - set (r'' := stamped dbnow r').
    assert (intent_moved r r'') as Hm'' by (by apply moved_stamped).
    assert (it_intent_id r'' = it_intent_id r) as Hid by apply Hm.
    assert (Forall2 intent_moved (lg_intents lg) (update_by it_intent_id r'' (lg_intents lg))) as Hf.
    { apply (update_by_related intent_moved it_intent_id _ r r''); [apply intent_moved_refl|done..]. }
    assert (∀ z, z ∈ update_by it_intent_id r'' (lg_intents lg) ↔
              z = r'' ∨ z ∈ lg_intents lg ∧ it_intent_id z ≠ it_intent_id r) as Hin.
    { intros z. rewrite elem_of_update_by, Hid. naive_solver. }
    split_and!; [|done..|].
    + split; cbn [lg_intents with_intents].
      * rewrite (Forall2_fmap_same it_intent_id intent_moved _ _ (λ x y H, im_id x y H) Hf). done.
      * apply Forall_forall. intros z [->|[Hz _]]%Hin; [by apply row_ok_stamped|].
        rewrite Forall_forall in Hrows. by apply Hrows.
      * intros x y [->|[Hx Hxr]]%Hin [->|[Hy Hyr]]%Hin Hxy; [done| | |by apply Hu].
        -- rewrite conflict_sym. apply Hc; [done|]. cbn in *. congruence.
        -- apply Hc; [done|]. cbn in *. congruence.
    + exists r''. split; [by right|]. split; [done|split; [done|by apply row_ok_stamped]|exact Hin].
Qed.

(** ** Rows the operations write *)

Lemma validate_intent_Ok s t u :
  validate_intent_transition s t = Ok u ↔ t ∈ INTENT_TRANSITIONS s.
Proof. unfold validate_intent_transition. rewrite raise_if_Ok. apply negb_bool_decide_false. Qed.

Lemma edge_path s t : t ∈ INTENT_TRANSITIONS s → rtc intent_edge (enum_value s) (enum_value t).
Proof. intros Hin. apply rtc_once. by exists s, t. Qed.

Definition ahead_statuses : list InvestigationIntentStatus :=
  [InvestigationIntentStatus.PENDING; InvestigationIntentStatus.RETRY;
   InvestigationIntentStatus.CLAIMED; InvestigationIntentStatus.ENQUEUED].

Definition spent_statuses : list InvestigationIntentStatus :=
  InvestigationIntentStatus.STARTED :: TERMINAL_INTENT_STATUSES.

Lemma spent_status r s : has_status r s → spent r → s ∈ spent_statuses.
Proof. intros Hs (t & Ht & Hin). by rewrite (has_status_inj r s t Hs Ht). Qed.

Lemma ahead_status r s : has_status r s → ahead r → s ∈ ahead_statuses.
Proof. intros Hs (t & Ht & Hin). by rewrite (has_status_inj r s t Hs Ht). Qed.

Lemma write_row_with r s target rev att claim task skip err :
  row_ok r → has_status r s → s ≠ InvestigationIntentStatus.TERMINAL →
  rtc intent_edge (enum_value s) (enum_value target) →
  (it_revision r ≤ rev)%Z → (0 ≤ att)%Z →
  (s ∈ spent_statuses → target ∈ ahead_statuses → (it_revision r < rev)%Z) →
  (∀ t, task = Some t → ∃ v, t = task_id ie r v ∧ (v ≤ rev)%Z) →
  (target ∈ [InvestigationIntentStatus.ENQUEUED; InvestigationIntentStatus.STARTED] →
     task = Some (task_id ie r rev)) →
  (target = InvestigationIntentStatus.CLAIMED ↔ is_Some claim) →
  write_ok r (row_with r target rev att claim task skip err).
Proof.
  intros Hro Hs Hnt Hpath Hrev Hatt Hre Htask Hact Hclaim.
  assert (has_status (row_with r target rev att claim task skip err) target) as Hnew by done.
  split; [split; try done|split].
  - unfold has_status in Hs. rewrite Hs. exact Hpath.
  - intros Hsp Hah. apply Hre; [by eapply spent_status|by eapply ahead_status].
  - intros Ht. by destruct (Hnt (has_status_inj r _ _ Hs Ht)).
  - by exists target.
  - cbn. destruct Hro. lia.
  - done.
  - exact Htask.
  - intros [He|He]; apply (has_status_inj _ _ _ Hnew) in He; subst target; apply Hact; decide_in.
  - intros Hc%(has_status_inj _ _ _ Hnew). apply Hclaim in Hc as [[o t] ->]. cbn. eauto.
  - intros Hc. destruct claim as [c|]; [|done]. destruct Hc.
    rewrite <-(proj2 Hclaim) by eauto. done.
Qed.

(** The task columns that survive. *)
Lemma kept_task r rev t :
  row_ok r → (it_revision r ≤ rev)%Z → it_broker_task_id r = Some t →
  ∃ v, t = task_id ie r v ∧ (v ≤ rev)%Z.
Proof.
  intros Hro Hrev Ht. apply (ro_task r Hro) in Ht as (v & -> & Hv). exists v. split; [done|lia].
Qed.

Definition settling : list InvestigationIntentStatus :=
  [InvestigationIntentStatus.RETRY; InvestigationIntentStatus.SKIPPED;
   InvestigationIntentStatus.DEAD; InvestigationIntentStatus.TERMINAL].

Lemma settling_calm t :
  t ∈ settling →
  (t ∉ [InvestigationIntentStatus.ENQUEUED; InvestigationIntentStatus.STARTED]) ∧
  t ≠ InvestigationIntentStatus.CLAIMED ∧
  (t ∈ ahead_statuses → t = InvestigationIntentStatus.RETRY).
Proof.
  unfold settling.
  intros [->|[->|[->|[->|Hin]%elem_of_cons]%elem_of_cons]%elem_of_cons]%elem_of_cons;
    [| | | |by apply elem_of_nil in Hin]; split_and!; try done; intros H0; refute_in H0.
Qed.

Lemma set_status_write r s target skip err incr r' :
  row_ok r → has_status r s → target ∈ settling →
  (target = InvestigationIntentStatus.RETRY → incr = true ∨ s ∉ spent_statuses) →
  _set_status_in_session ie r target skip err incr = Ok r' → write_ok r r' ∧ ¬ active r'.
Proof.
  intros Hro Hs Htgt Hretry. unfold _set_status_in_session.
  rewrite bind_Ok. intros (s0 & Hs0%enum_of_value_or_raise_Ok & H0).
  assert (s0 = s) as -> by (by eapply has_status_inj).
  apply unit_seq_Ok in H0 as [Hv%validate_intent_Ok [= <-]].
  apply settling_calm in Htgt as (Hna & Hnc & Hahead). rewrite (revision_of_ok r Hro).
  split.
  - apply (write_row_with _ s); [done|done| |by apply edge_path| | | | | |].
    + intros ->. by apply elem_of_nil in Hv.
    + destruct incr; lia.
    + destruct Hro, incr; lia.
    + intros Hsp Hah. destruct (Hretry (Hahead Hah)) as [->|]; [lia|done].
    + intros t. destruct incr.
      * case_bool_decide; [intros [= <-]; eauto with lia|done].
      * by apply kept_task.
    + intros Hact. by destruct Hna.
    + split; [done|by intros []].
  - intros [He|He]; cbn in He; unfold has_status in He; cbn in He; apply enum_value_eq in He; subst target;
      apply Hna; decide_in.
Qed.

Lemma without_task r r' :
  ¬ has_status r InvestigationIntentStatus.TERMINAL → write_ok r r' → ¬ active r' →
  write_ok r (row_with_task r' None).
Proof.
  intros Hnt [[K1 K2 K3 K4 K5 K6 K7 K8 K9] [H1 H2 H3 H4 H5 H6 H7]] Hna.
  by split; split.
Qed.

Lemma claimed_row_write now r s from :
  row_ok r → has_status r s → expire_claim now r s = Ok from →
  InvestigationIntentStatus.CLAIMED ∈ INTENT_TRANSITIONS from.1 →
  write_ok r (claimed_row ie now r from.2).
Proof.
  intros Hro Hs He Hc. unfold claimed_row.
  assert (rtc intent_edge (enum_value s) (enum_value InvestigationIntentStatus.CLAIMED) ∧
          (0 ≤ from.2)%Z ∧ s ∉ spent_statuses) as (Hpath & Hatt & Hns).
  { unfold expire_claim in He. pose proof (ro_attempt r Hro). destruct (_ && _) eqn:Hx.
    - apply unit_seq_Ok in He as [Hv [= <-]]. apply andb_true_iff in Hx as [->%bool_decide_eq_true _].
      split_and!; [|cbn; lia|intros H0; refute_in H0].
      apply validate_intent_Ok in Hv. etrans; by apply edge_path.
    - injection He as <-. split_and!; [by apply edge_path|done|]. cbn in Hc.
      intros H0. destruct s; first [refute_in Hc|refute_in H0]. }
  apply (write_row_with _ s); try done.
  - intros ->. apply Hns. decide_in.
  - intros t Ht. by eapply kept_task.
  - intros H0. refute_in H0.
Qed.

Lemma start_write r s task skip err :
  row_ok r → has_status r s → task = task_id ie r (it_revision r) →
  rtc intent_edge (enum_value s) (enum_value InvestigationIntentStatus.STARTED) →
  s ≠ InvestigationIntentStatus.TERMINAL →
  write_ok r (row_with r InvestigationIntentStatus.STARTED (it_revision r) (it_attempt r) None
                (Some task) skip err).
Proof.
  intros Hro Hs -> Hp Hnt. pose proof (ro_attempt r Hro).
  apply (write_row_with _ s); try done.
  - intros _ H0. refute_in H0.
  - intros t [= <-]. eexists. split; [done|lia].
Qed.

Lemma enqueued_write lg event r :
  row_ok r → has_status r InvestigationIntentStatus.CLAIMED →
  write_ok r (enqueued_row ie lg event r).
Proof.
  intros Hro Hs. pose proof (ro_attempt r Hro).
  assert (write_ok r (row_with r InvestigationIntentStatus.ENQUEUED (it_revision r) (it_attempt r)
    None (Some (task_id ie r (it_revision r))) (it_skip_reason r) None))
    as [[K1 K2 K3 K4 K5 K6 K7 K8 K9] [H1 H2 H3 H4 H5 H6 H7]].
  { apply (write_row_with _ InvestigationIntentStatus.CLAIMED); try done.
    - apply edge_path. decide_in.
    - intros H0. refute_in H0.
    - intros t [= <-]. eexists. split; [done|lia]. }
  split; split; try done. intros Ht. by apply (has_status_inj r _ _ Hs) in Ht.
Qed.

Lemma rearmed_write r s request :
  row_ok r → has_status r s → InvestigationIntentStatus.RETRY ∈ INTENT_TRANSITIONS s →
  write_ok r (rearmed ie r request).
Proof.
  intros Hro Hs Hv. pose proof (ro_revision r Hro).
  assert (has_status (rearmed ie r request) InvestigationIntentStatus.RETRY) as Hnew by done.
  assert (it_revision (rearmed ie r request) = it_revision r + 1)%Z as Hrev
    by (cbn; by rewrite revision_of_ok).
  split; split; rewrite ?Hrev; try done; try lia.
  - unfold has_status in Hs. rewrite Hs. by apply edge_path.
  - intros Ht%(has_status_inj r _ _ Hs). subst s. by apply elem_of_nil in Hv.
  - by eexists.
  - intros t [= <-]. eexists. split; [done|]. rewrite revision_of_ok by done. lia.
  - by intros [Ha|Ha]; apply (has_status_inj _ _ _ Hnew) in Ha.
Qed.

Lemma skipped_write reason r s :
  row_ok r → has_status r s → InvestigationIntentStatus.SKIPPED ∈ INTENT_TRANSITIONS s →
  write_ok r (skipped_row reason r).
Proof.
  intros Hro Hs Hv. pose proof (ro_attempt r Hro). unfold skipped_row.
  apply (write_row_with _ s); try done.
  - intros ->. by apply elem_of_nil in Hv.
  - by apply edge_path.
  - intros _ H0. refute_in H0.
  - intros H0. refute_in H0.
Qed.

Lemma reconciled_write r s event r' :
  row_ok r → has_status r s → _reconcile_stale_row ie r s event = Ok r' →
  write_ok r r' ∧ ¬ active r' ∧ ¬ has_status r' InvestigationIntentStatus.CLAIMED.
Proof.
  intros Hro Hs. unfold _reconcile_stale_row. rewrite (revision_of_ok r Hro).
  pose proof (ro_attempt r Hro) as Hatt.
  assert (∀ target rev att task skip err,
    target ∈ INTENT_TRANSITIONS s → target ∈ settling → (it_revision r ≤ rev)%Z → (0 ≤ att)%Z →
    (target = InvestigationIntentStatus.RETRY → (it_revision r < rev)%Z) →
    (∀ t, task = Some t → ∃ v, t = task_id ie r v ∧ (v ≤ rev)%Z) →
    let r1 := row_with r target rev att None task skip err in
    write_ok r r1 ∧ ¬ active r1 ∧ ¬ has_status r1 InvestigationIntentStatus.CLAIMED) as Hgen.
  { intros target rev att task skip err Hv Hset Hrev Ha Hre Ht r1.
    apply settling_calm in Hset as (Hna & Hnc & Hah).
    assert (has_status r1 target) as Hnew by done. split_and!.
    - apply (write_row_with _ s); try done.
      + intros ->. by apply elem_of_nil in Hv.
      + by apply edge_path.
      + auto.
    - intros [Hx|Hx]; apply (has_status_inj _ _ _ Hnew) in Hx; subst target; apply Hna; decide_in.
    - intros Hx%(has_status_inj _ _ _ Hnew). done. }
  destruct event as [event|]; [destruct (_ && _); [|destruct (_ && _)]|]; try destruct (_ <=? _)%Z;
    intros [Hv%validate_intent_Ok [= <-]]%unit_seq_Ok; (apply Hgen; [done|decide_in|lia|lia|done || lia|]);
    try done; try (intros t Ht; by eapply kept_task); intros t [= <-]; eexists; split; done || lia.
Qed.

(** ** Transactions *)

Record intents_evolve (l l' : list IntentRow) : Prop := {
  ie_ok : ledger_ok l';
  ie_step : intents_step l l';
  ie_running : one_running l → one_running l'
}.

Lemma intents_evolve_refl l : ledger_ok l → intents_evolve l l.
Proof.
  intros Hok. split; [done| |done]. exists l, []. rewrite app_nil_r. split; [|done].
  apply Forall2_same, intent_moved_refl.
Qed.

Lemma intents_step_trans l1 l2 l3 :
  ledger_ok l2 → intents_step l1 l2 → intents_step l2 l3 → intents_step l1 l3.
Proof.
  intros [_ Hrows _] (m & n & Hm & ->) (m' & n' & Hm' & ->).
  apply Forall2_app_inv_l in Hm' as (m1 & n1 & Hm1 & Hn1 & ->).
  exists m1, (n1 ++ n')%list. rewrite app_assoc. split; [|done].
  apply Forall_app in Hrows as [Hrows _]. clear Hn1. revert m1 Hm1 Hrows.
  induction Hm as [|a b l m Hab _ IH]; intros m1 Hm1 Hrows.
  - by apply Forall2_nil_inv_l in Hm1 as ->.
  - apply Forall2_cons_inv_l in Hm1 as (c & m2 & Hbc & Hm2 & ->).
    apply Forall_cons in Hrows as [[[s Hs] _ _ _ _ _ _] Hrows].
    constructor; [exact (intent_moved_trans a b c s Hs Hab Hbc)|by apply IH].
Qed.

Lemma intents_evolve_trans l1 l2 l3 :
  intents_evolve l1 l2 → intents_evolve l2 l3 → intents_evolve l1 l3.
Proof.
  intros [Ho Hs Hr] [Ho' Hs' Hr']. split; [done| |auto].
  exact (intents_step_trans l1 l2 l3 Ho Hs Hs').
Qed.

Definition other_active (l : list IntentRow) (r : IntentRow) : Prop :=
  ∃ s, s ∈ l ∧ it_event_id s = it_event_id r ∧ it_intent_id s ≠ it_intent_id r ∧ active s.

Lemma put_evolve dbnow r r' lg lg' :
  ledger_ok (lg_intents lg) → r ∈ lg_intents lg → write_ok r r' →
  (active r' → active r ∨ ¬ other_active (lg_intents lg) r) →
  put_intent dbnow r r' lg = Ok lg' → intents_evolve (lg_intents lg) (lg_intents lg').
Proof.
  intros Hok Hr Hw Hact Hput.
  destruct (put_intent_spec _ _ _ _ _ Hok Hr Hw Hput) as (Hok' & _ & _ & r'' & Hr'' & [Hf Hnew Hin]).
  assert (active r'' → active r') as Ha by (by destruct Hr'' as [->| ->]).
  destruct Hnew as [Hm _]. split; [done| |].
  - eexists _, []. rewrite app_nil_r. by split.
  - intros Hone.
    assert (∀ z, z ∈ lg_intents lg → it_intent_id z ≠ it_intent_id r → active r'' → active z →
              it_event_id r'' = it_event_id z → False) as Hno.
    { intros z Hz Hzr Har Haz He. rewrite (im_event _ _ Hm) in He.
      destruct (Hact (Ha Har)) as [Harr|Hno].
      - apply Hzr. f_equal. symmetry. by apply Hone.
      - apply Hno. exists z. by split_and!. }
    intros x y [->|[Hx Hxr]]%Hin [->|[Hy Hyr]]%Hin Hax Hay He; [done| | |by apply Hone].
    + by destruct (Hno y).
    + by destruct (Hno x).
Qed.

Lemma insert_evolve new lg lg' :
  ledger_ok (lg_intents lg) → row_ok new → ¬ active new →
  insert_intent new lg = Ok lg' → intents_evolve (lg_intents lg) (lg_intents lg').
Proof.
  intros [Hk Hrows Hu] Hro Hna [Hn [= <-]]%raise_if_seq_Ok. cbn [with_intents lg_intents].
  assert (∀ s, s ∈ lg_intents lg → it_intent_id s ≠ it_intent_id new ∧
            intents_conflict s new = false) as Hfree.
  { intros s Hs. apply not_true_iff_false in Hn. split.
    - intros He. apply Hn, existsb_exists. exists s. split; [by apply list_elem_of_In|].
      by rewrite bool_decide_eq_true_2.
    - apply not_true_iff_false. intros He. apply Hn, existsb_exists. exists s.
      split; [by apply list_elem_of_In|]. by rewrite He, orb_true_r. }
  split; [split| |].
  - rewrite fmap_app. apply NoDup_app. split_and!; [done| |apply NoDup_singleton].
    intros k (s & -> & Hs)%list_elem_of_fmap Hin%list_elem_of_singleton. by apply Hfree in Hs as [].
  - apply Forall_app. by split; [|constructor].
  - intros r s [Hr| ->%list_elem_of_singleton]%elem_of_app [Hs| ->%list_elem_of_singleton]%elem_of_app Hid.
    + by apply Hu.
    + by apply Hfree.
    + rewrite conflict_sym. by apply Hfree.
    + done.
  - exists (lg_intents lg), [new]. split; [|done]. apply Forall2_same, intent_moved_refl.
  - intros Hone r s [Hr| ->%list_elem_of_singleton]%elem_of_app [Hs| ->%list_elem_of_singleton]%elem_of_app;
      try done. by apply Hone.
Qed.

Lemma get_intent_Some lg x r : get_intent lg x = Some r → r ∈ lg_intents lg ∧ it_intent_id r = x.
Proof. apply get_by_Some. Qed.

Lemma ledger_row l r : ledger_ok l → r ∈ l → row_ok r.
Proof. intros [_ Hrows _]. rewrite Forall_forall in Hrows. apply Hrows. Qed.

Lemma loaded_status (s : InvestigationIntentStatus) r :
  enum_of_value_or_raise (it_status r) = Ok s ↔ has_status r s.
Proof. apply enum_of_value_or_raise_Ok. Qed.

(** A write that leaves the row neither published nor running. *)
Lemma put_calm dbnow r r' lg lg' :
  ledger_ok (lg_intents lg) → r ∈ lg_intents lg → write_ok r r' → ¬ active r' →
  put_intent dbnow r r' lg = Ok lg' →
  intents_evolve (lg_intents lg) (lg_intents lg') ∧ lg_db lg' = lg_db lg ∧
  (∀ z, z ∈ lg_intents lg → it_intent_id z ≠ it_intent_id r → z ∈ lg_intents lg').
Proof.
  intros Hok Hr Hw Hna Hput.
  destruct (put_intent_spec _ _ _ _ _ Hok Hr Hw Hput) as (_ & Hdb & _ & r'' & _ & [_ _ Hin]).
  split_and!; [by eapply put_evolve|done|]. intros z Hz Hne. apply Hin. by right.
Qed.

(** A loop over rows read before it. *)
Definition snapshot (rows l : list IntentRow) : Prop :=
  NoDup (it_intent_id <$> rows) ∧ ∀ r, r ∈ rows → r ∈ l.

Lemma snapshot_next r rows l l' :
  snapshot (r :: rows) l →
  (∀ z, z ∈ l → it_intent_id z ≠ it_intent_id r → z ∈ l') → snapshot rows l'.
Proof.
  intros [[Hnr Hnd]%NoDup_cons Hin] Hkeep. split; [done|]. intros z Hz.
  apply Hkeep; [apply Hin; by right|]. intros He. apply Hnr. rewrite <-He.
  by apply list_elem_of_fmap_2.
Qed.

Lemma snapshot_skip r rows l : snapshot (r :: rows) l → snapshot rows l.
Proof. intros Hs. by eapply snapshot_next. Qed.

Lemma snapshot_filter f l : NoDup (it_intent_id <$> l) → snapshot (List.filter f l) l.
Proof.
  intros Hk. split; [by apply NoDup_fmap_filter|]. intros r [Hr _]%list_elem_of_In%filter_In.
  by apply list_elem_of_In.
Qed.

Lemma snapshot_selected R `{!RelDecision R} f n l :
  NoDup (it_intent_id <$> l) → snapshot (take n (merge_sort R (List.filter f l))) l.
Proof.
  intros Hk. split; [by apply NoDup_fmap_selected|]. by intros r [Hr _]%elem_of_selected.
Qed.

Lemma skipped_calm reason r : ¬ active (skipped_row reason r).
Proof. intros [H0|H0]; by apply (bool_decide_pack _) in H0. Qed.

Lemma skip_rows_evolve dbnow lg rows reason out :
  ledger_ok (lg_intents lg) → snapshot rows (lg_intents lg) →
  skip_rows dbnow lg rows reason = Ok out → intents_evolve (lg_intents lg) (lg_intents out.1).
Proof.
  revert lg out. induction rows as [|r rows IH]; intros lg out Hok Hsnap; cbn [skip_rows].
  - intros [= <-]. by apply intents_evolve_refl.
  - rewrite bind_Ok. intros (s & Hs%loaded_status & H0).
    apply unit_seq_Ok in H0 as [Hv%validate_intent_Ok H0].
    apply bind_Ok in H0 as (lg1 & Hput & H0). apply bind_Ok in H0 as (rest & Hrest & [= <-]).
    assert (r ∈ lg_intents lg) as Hr by (apply Hsnap; by left).
    pose proof (skipped_write reason r s (ledger_row _ _ Hok Hr) Hs Hv) as Hw.
    destruct (put_calm _ _ _ _ _ Hok Hr Hw (skipped_calm _ _) Hput) as (Hev & _ & Hkeep).
    eapply intents_evolve_trans; [done|]. apply IH in Hrest; [done|apply Hev|].
    by eapply snapshot_next.
Qed.
End facts.
