(* ===== verification/IntentRuns.v ===== *)
(** * Guarantees of the investigation intent ledger: transactions

    Every transaction of the ledger keeps it well formed, moves rows only along the transition
    table, and, with the exception of the inline start, keeps at most one published or running
    intent per event. *)

From stdpp Require Import prelude strings gmap sorting pretty.
From S2P Require Import Prelude Enums Errors Tables Workflow Db Reconcile.
From S2P Require Import ContextJournal ContextStore DegradedFlags StateMachine AutoPolicies Intents.
From S2P Require Import IntentFacts.

#[local] Open Scope string_scope.

Section transactions.
Context (ie : IntentEnv).

Implicit Types lg : Ledger.

Definition ledger_evolve (lg lg' : Ledger) : Prop :=
  intents_evolve ie (lg_intents lg) (lg_intents lg').

Definition lg_ok (lg : Ledger) : Prop := ledger_ok ie (lg_intents lg).

Lemma ledger_evolve_refl lg : lg_ok lg → ledger_evolve lg lg.
Proof. apply intents_evolve_refl. Qed.

Lemma ledger_evolve_trans lg1 lg2 lg3 :
  ledger_evolve lg1 lg2 → ledger_evolve lg2 lg3 → ledger_evolve lg1 lg3.
Proof. apply intents_evolve_trans. Qed.

Lemma ledger_evolve_ok lg lg' : ledger_evolve lg lg' → lg_ok lg'.
Proof. by intros []. Qed.

(** A loaded row. *)
Lemma loaded lg x r : lg_ok lg → get_intent lg x = Some r → r ∈ lg_intents lg ∧ row_ok ie r.
Proof.
  intros Hok [Hr _]%get_intent_Some. split; [done|]. by eapply ledger_row.
Qed.

Lemma found (f : IntentRow → bool) lg r :
  lg_ok lg → List.find f (lg_intents lg) = Some r → r ∈ lg_intents lg ∧ row_ok ie r ∧ f r = true.
Proof.
  intros Hok [Hr Hf]%find_some. apply list_elem_of_In in Hr. split_and!; [done| |done].
  by eapply ledger_row.
Qed.

Lemma get_intent_elem lg r : lg_ok lg → r ∈ lg_intents lg → get_intent lg (it_intent_id r) = Some r.
Proof. intros [Hk _ _]. by apply get_by_elem. Qed.

Lemma step_row l l' r : intents_step l l' → r ∈ l → ∃ r', r' ∈ l' ∧ intent_moved r r'.
Proof.
  intros (mid & news & Hf & ->) [i Hi]%list_elem_of_lookup.
  apply (Forall2_lookup_l _ _ _ i r Hf) in Hi as (r' & Hr' & Hm). exists r'. split; [|done].
  apply elem_of_app. left. by eapply list_elem_of_lookup_2.
Qed.

(** A write of an inactive row. *)
Lemma put_calm_evolve dbnow r r' lg lg' :
  lg_ok lg → r ∈ lg_intents lg → write_ok ie r r' ∧ ¬ active r' →
  put_intent dbnow r r' lg = Ok lg' → ledger_evolve lg lg'.
Proof. intros Hok Hr [Hw Hna] Hput. by destruct (put_calm ie dbnow r r' lg lg'). Qed.

Lemma status_calm r s :
  has_status r s → s ∉ [InvestigationIntentStatus.ENQUEUED; InvestigationIntentStatus.STARTED] →
  ¬ active r.
Proof.
  intros Hs Hn [Ha|Ha]; apply (has_status_inj _ _ _ Hs) in Ha; subst s; apply Hn; decide_in.
Qed.

Ltac calm := intros H0; refute_in H0.

(** ** HTTP intake *)

Lemma rearm_evolve dbnow lg r request out :
  lg_ok lg → r ∈ lg_intents lg → _rearm_http_intent ie dbnow lg r request = Ok out →
  ledger_evolve lg out.1.
Proof.
  intros Hok Hr. unfold _rearm_http_intent. rewrite bind_Ok. intros (s & Hs%loaded_status & H0).
  apply unit_seq_Ok in H0 as [Hv%validate_intent_Ok H0]. apply bind_Ok in H0 as (o & _ & H0).
  apply bind_Ok in H0 as (lg' & Hput & [= <-]).
  eapply (put_calm_evolve dbnow r _ lg lg' Hok Hr); [|exact Hput]. split.
  - eapply rearmed_write; [by eapply ledger_row|done..].
  - apply (status_calm _ InvestigationIntentStatus.RETRY); [done|calm].
Qed.

Lemma replay_evolve dbnow lg r event_id payload out :
  lg_ok lg → r ∈ lg_intents lg → _replay_http_intent ie dbnow lg r event_id payload = Ok out →
  ledger_evolve lg out.1.
Proof.
  intros Hok Hr [_ H0]%raise_if_seq_Ok. apply bind_Ok in H0 as (s & _ & H0).
  destruct (_ && _); [by eapply rearm_evolve|].
  apply bind_Ok in H0 as (o & _ & [= <-]). by apply ledger_evolve_refl.
Qed.

Lemma on_active_evolve dbnow lg q key subject r out :
  lg_ok lg → r ∈ lg_intents lg → on_active_intent ie dbnow lg q key subject r = Ok out →
  ledger_evolve lg out.1.
Proof.
  intros Hok Hr. unfold on_active_intent. rewrite bind_Ok. intros (s & _ & H0).
  destruct (s ∈? _); [by eapply rearm_evolve|done].
Qed.

Lemma skip_active_evolve dbnow lg event_id reason out :
  lg_ok lg → skip_active_intents_for_event_in_session dbnow lg event_id reason = Ok out →
  ledger_evolve lg out.1.
Proof.
  intros Hok. apply skip_rows_evolve; [done|]. apply snapshot_filter, Hok.
Qed.

Lemma pending_calm r : it_status r = enum_value InvestigationIntentStatus.PENDING → ¬ active r.
Proof. intros Hs. apply (status_calm r InvestigationIntentStatus.PENDING Hs). calm. Qed.

Lemma pending_row_ok r :
  it_status r = enum_value InvestigationIntentStatus.PENDING → it_revision r = 1%Z →
  it_attempt r = 0%Z → it_claim_owner r = None → it_claim_expires_at r = None →
  (it_broker_task_id r = None ∨ it_broker_task_id r = Some (task_id ie r 1)) → row_ok ie r.
Proof.
  intros Hs Hr Ha Ho He Ht. split; rewrite ?Hr, ?Ha; try lia.
  - by eexists.
  - intros t Heq. exists 1%Z. destruct Ht as [Ht|Ht]; [congruence|]. split; [congruence|lia].
  - intros Hac. by destruct (pending_calm r Hs).
  - intros Hc. apply (has_status_inj r _ _ Hs) in Hc. done.
  - done.
Qed.

Lemma http_intake_evolve dbnow lg q key subject intent_id out :
  lg_ok lg → http_intake_tx ie dbnow lg q key subject intent_id = Ok out →
  ledger_evolve lg out.1.
Proof.
  intros Hok. unfold http_intake_tx. destruct (_ !! _) as [event|]; [|done].
  destruct (List.find _ _) as [r|] eqn:Hf.
  { apply (found _ _ _ Hok) in Hf as (Hr & _). by apply replay_evolve. }
  destruct (se_status event !=? _); [by rewrite bind_Ok; intros (s & _ & ?)|].
  destruct (List.find (http_row _) _) as [r|] eqn:Hf'.
  { apply (found _ _ _ Hok) in Hf' as (Hr & _). by apply on_active_evolve. }
  rewrite bind_Ok. intros (sk & Hsk & H0). apply bind_Ok in H0 as (lg' & Hin & H0).
  apply bind_Ok in H0 as (o & _ & [= <-]).
  apply skip_active_evolve in Hsk; [|done]. eapply ledger_evolve_trans; [exact Hsk|].
  eapply (insert_evolve ie); [by eapply ledger_evolve_ok| | |exact Hin].
  - apply pending_row_ok; try done. by right.
  - by apply pending_calm.
Qed.

Lemma http_race_evolve dbnow lg q key subject lost out :
  lg_ok lg → http_race_tx ie dbnow lg q key subject lost = Ok out → ledger_evolve lg out.1.
Proof.
  intros Hok. unfold http_race_tx. destruct (_ !! _) as [event|]; [|done].
  destruct (List.find _ _) as [r|] eqn:Hf.
  { apply (found _ _ _ Hok) in Hf as (Hr & _). by apply replay_evolve. }
  destruct (List.find (http_row _) _) as [r|] eqn:Hf'; [|done].
  apply (found _ _ _ Hok) in Hf' as (Hr & _). by apply on_active_evolve.
Qed.

(** ** Intents by policy *)

Lemma maybe_create_evolve dbnow lg event role product cp intent_id out :
  lg_ok lg →
  maybe_create_pending_in_session ie dbnow lg event role product cp intent_id = Ok out →
  ledger_evolve lg out.1.
Proof.
  intros Hok. unfold maybe_create_pending_in_session.
  destruct (_ || _); [intros [= <-]; by apply ledger_evolve_refl|].
  destruct (negb _); [intros [= <-]; by apply ledger_evolve_refl|].
  destruct (existsb _ _); [intros [= <-]; by apply ledger_evolve_refl|].
  rewrite bind_Ok. intros (lg' & Hin & [= <-]).
  apply (insert_evolve ie) in Hin; [exact Hin|done| |by apply pending_calm].
  apply pending_row_ok; try done. by left.
Qed.

Lemma materialize_rows_evolve dbnow lg events new_id out :
  lg_ok lg → materialize_rows ie dbnow lg events new_id = Ok out → ledger_evolve lg out.1.
Proof.
  revert lg out. induction events as [|e events IH]; intros lg out Hok; cbn [materialize_rows].
  - intros [= <-]. by apply ledger_evolve_refl.
  - rewrite bind_Ok. intros (r & Hr & H0). apply bind_Ok in H0 as (rest & Hrest & [= <-]).
    apply maybe_create_evolve in Hr; [|done]. eapply ledger_evolve_trans; [exact Hr|].
    apply IH in Hrest; [done|]. by eapply ledger_evolve_ok.
Qed.

Lemma materialize_evolve now dbnow lg new_id out :
  lg_ok lg → _materialize_provisional_intents ie now dbnow lg new_id = Ok out →
  ledger_evolve lg out.1.
Proof.
  intros Hok. unfold _materialize_provisional_intents.
  destruct (negb _); [intros [= <-]; by apply ledger_evolve_refl|].
  by apply materialize_rows_evolve.
Qed.

(** ** Claims *)

Lemma claimed_calm now r att : ¬ active (claimed_row ie now r att).
Proof. apply (status_calm _ InvestigationIntentStatus.CLAIMED); [done|calm]. Qed.

Lemma claim_one_evolve now dbnow lg intent_id out :
  lg_ok lg → _claim_intent ie now dbnow lg intent_id = Ok out → ledger_evolve lg out.1.
Proof.
  intros Hok. unfold _claim_intent. destruct (get_intent lg intent_id) as [r|] eqn:Hg;
    [|intros [= <-]; by apply ledger_evolve_refl].
  apply (loaded _ _ _ Hok) in Hg as [Hr Hro]. rewrite bind_Ok. intros (s & Hs%loaded_status & H0).
  apply bind_Ok in H0 as (from & Hfrom & H0).
  destruct (negb _); [injection H0 as <-; by apply ledger_evolve_refl|].
  apply unit_seq_Ok in H0 as [Hv%validate_intent_Ok H0].
  apply bind_Ok in H0 as (lg' & Hput & [= <-]).
  eapply (put_calm_evolve dbnow r); [done..| |exact Hput].
  split; [by eapply claimed_row_write|apply claimed_calm].
Qed.

Lemma claim_rows_evolve now dbnow lg rows out :
  lg_ok lg → snapshot rows (lg_intents lg) →
  claim_intent_rows ie now dbnow lg rows = Ok out → ledger_evolve lg out.1.
Proof.
  revert lg out. induction rows as [|r rows IH]; intros lg out Hok Hsnap; cbn [claim_intent_rows].
  - intros [= <-]. by apply ledger_evolve_refl.
  - rewrite bind_Ok. intros (s & Hs%loaded_status & H0). apply bind_Ok in H0 as (from & Hfrom & H0).
    apply unit_seq_Ok in H0 as [Hv%validate_intent_Ok H0].
    apply bind_Ok in H0 as (lg1 & Hput & H0). apply bind_Ok in H0 as (rest & Hrest & [= <-]).
    assert (r ∈ lg_intents lg) as Hr by (apply Hsnap; by left).
    assert (write_ok ie r (claimed_row ie now r from.2)) as Hw.
    { eapply claimed_row_write; [by eapply ledger_row|done..]. }
    destruct (put_calm ie dbnow r _ lg lg1 Hok Hr Hw (claimed_calm now r from.2) Hput)
      as (Hev & _ & Hkeep).
    eapply ledger_evolve_trans; [exact Hev|].
    apply IH in Hrest; [done|apply Hev|by eapply snapshot_next].
Qed.

Lemma claim_batch_evolve now dbnow lg locked limit out :
  lg_ok lg → claim_intent_batch ie now dbnow lg locked limit = Ok out → ledger_evolve lg out.1.
Proof.
  intros Hok. apply claim_rows_evolve; [done|]. apply snapshot_selected, Hok.
Qed.

(** ** Publication *)

Lemma active_is_running r : active r → it_status r ∈ running_statuses.
Proof. intros [->| ->]; decide_in. Qed.

Lemma not_blocking lg r : sibling_blocking lg r = false → ¬ other_active (lg_intents lg) r.
Proof.
  intros Hb (s & Hs & He & Hid & Ha%active_is_running).
  assert (sibling_blocking lg r = true) as Hx; [|congruence].
  apply existsb_exists. exists s. split; [by apply list_elem_of_In|].
  by rewrite (bool_decide_eq_true_2 (_ = _)), (bool_decide_eq_true_2 (_ ∈ _)), bool_decide_eq_false_2.
Qed.

Lemma audit_response_intents dbnow lg event r :
  lg_intents (audit_response ie dbnow lg event r) = lg_intents lg.
Proof. unfold audit_response. by destruct (_ && _). Qed.

Lemma settle_evolve dbnow lg r s target skip err incr r' lg' :
  lg_ok lg → r ∈ lg_intents lg → has_status r s →
  _set_status_in_session ie r target skip err incr = Ok r' → put_intent dbnow r r' lg = Ok lg' →
  target ∈ settling →
  (target = InvestigationIntentStatus.RETRY → incr = true ∨ s ∉ spent_statuses) →
  ledger_evolve lg lg'.
Proof.
  intros Hok Hr Hs Hset Hput Ht Hretry. eapply (put_calm_evolve dbnow r r'); [done..| |exact Hput].
  eapply set_status_write; [by eapply ledger_row|done..].
Qed.

Lemma commit_evolve dbnow lg intent_id out :
  lg_ok lg → _commit_enqueued_publish_target ie dbnow lg intent_id = Ok out →
  ledger_evolve lg out.1.
Proof.
  intros Hok. unfold _commit_enqueued_publish_target. destruct (get_intent lg intent_id) as [r|] eqn:Hg;
    [|intros [= <-]; by apply ledger_evolve_refl].
  apply (loaded _ _ _ Hok) in Hg as [Hr Hro]. rewrite bind_Ok. intros (s & Hs%loaded_status & H0).
  case_bool_decide as Hne; cbn [negb] in H0; [subst s|injection H0 as <-; by apply ledger_evolve_refl].
  destruct (_ !! _) as [event|].
  2:{ apply bind_Ok in H0 as (r' & Hset & H0). apply bind_Ok in H0 as (lg' & Hput & [= <-]).
      eapply settle_evolve; [done|exact Hr|exact Hs|exact Hset|exact Hput|decide_in|done]. }
  destruct (_ && _).
  { apply bind_Ok in H0 as (r' & Hset & H0). apply bind_Ok in H0 as (lg' & Hput & [= <-]).
    eapply settle_evolve; [done|exact Hr|exact Hs|exact Hset|exact Hput|decide_in|done]. }
  destruct (sibling_blocking lg r) eqn:Hb.
  { apply bind_Ok in H0 as (r' & Hset & H0). apply bind_Ok in H0 as (lg' & Hput & [= <-]).
    eapply settle_evolve; [done|exact Hr|exact Hs|exact Hset|exact Hput|decide_in|by left]. }
  apply unit_seq_Ok in H0 as [_ H0]. apply bind_Ok in H0 as (lg' & Hput & [= <-]).
  unfold ledger_evolve. rewrite <-(audit_response_intents dbnow lg event r).
  eapply (put_evolve ie); [by rewrite audit_response_intents..| | |exact Hput].
  - by apply enqueued_write.
  - intros _. right. rewrite audit_response_intents. by apply not_blocking.
Qed.

Lemma not_terminal_enqueued r :
  has_status r InvestigationIntentStatus.ENQUEUED → ¬ has_status r InvestigationIntentStatus.TERMINAL.
Proof. intros Hs Ht. by apply (has_status_inj r _ _ Hs) in Ht. Qed.

Lemma transient_row_write r failure conserve r' :
  row_ok ie r → has_status r InvestigationIntentStatus.ENQUEUED →
  transient_failure_row ie r failure conserve = Ok r' → write_ok ie r r' ∧ ¬ active r'.
Proof.
  intros Hro Hs. unfold transient_failure_row. destruct conserve; [|destruct (_ <=? _)%Z].
  - rewrite bind_Ok. intros (r1 & Hset & [= <-]).
    apply (set_status_write ie r _ _ _ _ _ _ Hro Hs) in Hset as [Hw Hna]; [|decide_in|right; calm].
    split; [|exact Hna]. by apply without_task; [apply not_terminal_enqueued| |].
  - apply (set_status_write ie r InvestigationIntentStatus.ENQUEUED); [done..|decide_in|done].
  - apply (set_status_write ie r InvestigationIntentStatus.ENQUEUED); [done..|decide_in|by left].
Qed.

Lemma revert_transient_evolve dbnow lg intent_id failure conserve out :
  lg_ok lg → revert_transient_tx ie dbnow lg intent_id failure conserve = Ok out →
  ledger_evolve lg out.1.
Proof.
  intros Hok. unfold revert_transient_tx. destruct (get_intent lg intent_id) as [r|] eqn:Hg;
    [|intros [= <-]; by apply ledger_evolve_refl].
  apply (loaded _ _ _ Hok) in Hg as [Hr Hro]. rewrite bind_Ok. intros (s & Hs%loaded_status & H0).
  case_bool_decide as Hne; cbn [negb] in H0; [subst s|injection H0 as <-; by apply ledger_evolve_refl].
  apply bind_Ok in H0 as (r' & Hrow & H0). apply bind_Ok in H0 as (lg' & Hput & [= <-]).
  eapply (put_calm_evolve dbnow r r'); [done..| |exact Hput]. by eapply transient_row_write.
Qed.

Lemma revert_unexpected_evolve dbnow lg intent_id failure conserve lg' :
  lg_ok lg →
  _revert_enqueued_after_unexpected_failure ie dbnow lg intent_id failure conserve = Ok lg' →
  ledger_evolve lg lg'.
Proof.
  intros Hok. unfold _revert_enqueued_after_unexpected_failure.
  destruct (get_intent lg intent_id) as [r|] eqn:Hg; [|intros [= <-]; by apply ledger_evolve_refl].
  apply (loaded _ _ _ Hok) in Hg as [Hr Hro]. rewrite bind_Ok. intros (s & Hs%loaded_status & H0).
  case_bool_decide as Hne; cbn [negb] in H0; [subst s|injection H0 as <-; by apply ledger_evolve_refl].
  apply bind_Ok in H0 as (r' & Hset & Hput).
  apply (set_status_write ie r _ _ _ _ _ _ Hro Hs) in Hset as [Hw Hna];
    [|destruct conserve; decide_in|right; calm].
  eapply (put_calm_evolve dbnow r); [done..| |exact Hput].
  split; [|exact Hna]. by apply without_task; [apply not_terminal_enqueued| |].
Qed.

(** ** Workers *)

(** The delivery carries the task id of the row's revision. *)
Definition current_delivery (r : IntentRow) (task : string) : Prop :=
  task = task_id ie r (it_revision r).

Section hashing.
(** A hex digest is never empty. *)
Context (Hsha : ∀ s, ie_sha256 ie s ≠ "").

Lemma started_put r r' lg lg' dbnow :
  lg_ok lg → r ∈ lg_intents lg → active r →
  write_ok ie r r' → put_intent dbnow r r' lg = Ok lg' → ledger_evolve lg lg'.
Proof. intros Hok Hr Ha Hw Hput. eapply put_evolve; [done..| |exact Hput]. by left. Qed.

Lemma mark_started_cases dbnow lg intent_id task out :
  lg_ok lg → mark_started ie dbnow lg intent_id task = Ok out →
  out.2 ≠ IntentDeliveryAdmission.ACCEPTED ∧ out.1 = lg ∨
  out.2 = IntentDeliveryAdmission.ACCEPTED ∧ ∃ r,
    get_intent lg intent_id = Some r ∧ current_delivery r task ∧
    (has_status r InvestigationIntentStatus.STARTED ∧ out.1 = lg ∨
     has_status r InvestigationIntentStatus.ENQUEUED ∧
     put_intent dbnow r
       (row_with r InvestigationIntentStatus.STARTED (it_revision r) (it_attempt r) None
          (Some task) (it_skip_reason r) (it_last_error r)) lg = Ok out.1).
Proof.
  intros Hok. unfold mark_started. destruct (get_intent lg intent_id) as [r|] eqn:Hg;
    [|intros [= <-]; by left].
  apply (loaded _ _ _ Hok) in Hg as Hl. destruct Hl as [Hr Hro].
  rewrite bind_Ok. intros (s & Hs%loaded_status & H0).
  destruct (s ∈? _); [injection H0 as <-; by left|].
  destruct (decide (s = InvestigationIntentStatus.STARTED)) as [->|Hns].
  - rewrite bool_decide_eq_true_2 in H0 by done.
    pose proof (ro_active ie r Hro (or_intror Hs)) as Ht. rewrite Ht, (revision_of_ok ie r Hro) in H0.
    case_bool_decide as Heq.
    + injection H0 as <-. right. split; [done|]. exists r. split_and!; [done|congruence|by left].
    + rewrite bool_decide_eq_false_2 in H0 by congruence. injection H0 as <-. by left.
  - rewrite (bool_decide_eq_false_2 (s = InvestigationIntentStatus.STARTED)) in H0 by done.
    case_bool_decide as Hen; cbn [negb] in H0; [|injection H0 as <-; by left]. subst s.
    pose proof (ro_active ie r Hro (or_introl Hs)) as Ht. rewrite Ht in H0. cbn [truthy_str] in H0.
    rewrite (bool_decide_eq_false_2 (task_id ie r (it_revision r) = "")) in H0 by apply Hsha.
    cbn [negb andb] in H0.
    case_bool_decide as Heq; cbn [negb] in H0; [|injection H0 as <-; by left].
    apply unit_seq_Ok in H0 as [_ H0]. apply bind_Ok in H0 as (lg' & Hput & [= <-]).
    right. split; [done|]. exists r. split_and!; [done|congruence|by right].
Qed.

Lemma mark_started_evolve dbnow lg intent_id task out :
  lg_ok lg → mark_started ie dbnow lg intent_id task = Ok out → ledger_evolve lg out.1.
Proof.
  intros Hok [[_ ->]|(_ & r & Hg & Hcur & [[_ ->]|[Hs Hput]])]%mark_started_cases;
    [by apply ledger_evolve_refl..| |done].
  apply (loaded _ _ _ Hok) in Hg as [Hr Hro].
  eapply (started_put r); [done..|by left| |exact Hput].
  apply (start_write ie r InvestigationIntentStatus.ENQUEUED); try done. apply edge_path. decide_in.
Qed.
End hashing.

Lemma transition_evolve dbnow lg intent_id target skip err incr expected out :
  lg_ok lg → target ∈ settling → (target = InvestigationIntentStatus.RETRY → incr = true) →
  intent_transition ie dbnow lg intent_id target skip err incr expected = Ok out →
  ledger_evolve lg out.1.
Proof.
  intros Hok Ht Hretry. unfold intent_transition.
  destruct (get_intent lg intent_id) as [r|] eqn:Hg; [|intros [= <-]; by apply ledger_evolve_refl].
  apply (loaded _ _ _ Hok) in Hg as [Hr Hro]. rewrite bind_Ok. intros (s & Hs%loaded_status & H0).
  destruct (match expected with Some _ => _ | None => _ end);
    [injection H0 as <-; by apply ledger_evolve_refl|].
  destruct (s ∈? _); [injection H0 as <-; by apply ledger_evolve_refl|].
  apply unit_seq_Ok in H0 as [_ H0]. apply bind_Ok in H0 as (r' & Hset & H0).
  apply bind_Ok in H0 as (lg' & Hput & [= <-]).
  eapply settle_evolve; [done|exact Hr|exact Hs|exact Hset|exact Hput|done|auto].
Qed.

(** ** Recovery *)

Lemma reconcile_rows_evolve now dbnow lg rows out :
  lg_ok lg → snapshot rows (lg_intents lg) →
  reconcile_rows ie now dbnow lg rows = Ok out → ledger_evolve lg out.1.
Proof.
  revert lg out. induction rows as [|r rows IH]; intros lg out Hok Hsnap; cbn [reconcile_rows].
  - intros [= <-]. by apply ledger_evolve_refl.
  - rewrite bind_Ok. intros (s & Hs%loaded_status & H0).
    destruct (negb _); [apply IH in H0; [done..|by eapply snapshot_skip]|].
    apply bind_Ok in H0 as (r' & Hrow & H0).
    apply bind_Ok in H0 as (lg1 & Hput & H0). apply bind_Ok in H0 as (rest & Hrest & [= <-]).
    assert (r ∈ lg_intents lg) as Hr by (apply Hsnap; by left).
    apply (reconciled_write ie r s) in Hrow as (Hw & Hna & _); [|by eapply ledger_row|done].
    destruct (put_calm ie dbnow r _ lg lg1 Hok Hr Hw Hna Hput) as (Hev & _ & Hkeep).
    eapply ledger_evolve_trans; [exact Hev|].
    apply IH in Hrest; [done|apply Hev|by eapply snapshot_next].
Qed.

Lemma reconcile_stale_evolve now dbnow lg locked limit out :
  lg_ok lg → reconcile_stale_tx ie now dbnow lg locked limit = Ok out → ledger_evolve lg out.1.
Proof.
  intros Hok. apply reconcile_rows_evolve; [done|]. apply snapshot_selected, Hok.
Qed.

(** ** The inline start *)

Lemma inline_grows dbnow lg intent_id out :
  lg_ok lg → mark_inline_started ie dbnow lg intent_id = Ok out →
  lg_ok out.1 ∧ intents_step (lg_intents lg) (lg_intents out.1).
Proof.
  intros Hok. unfold mark_inline_started. destruct (get_intent lg intent_id) as [r|] eqn:Hg; [|done].
  apply (loaded _ _ _ Hok) in Hg as [Hr Hro]. rewrite bind_Ok. intros (s & Hs%loaded_status & H0).
  apply raise_if_seq_Ok in H0 as [_ H0]. apply unit_seq_Ok in H0 as [Hv%validate_intent_Ok H0].
  apply unit_seq_Ok in H0 as [Hv1%validate_intent_Ok H0].
  apply unit_seq_Ok in H0 as [Hv2%validate_intent_Ok H0].
  apply bind_Ok in H0 as (lg' & Hput & [= <-]). rewrite (revision_of_ok ie r Hro) in Hput.
  assert (s ≠ InvestigationIntentStatus.TERMINAL) as Hnt by (intros ->; by apply elem_of_nil in Hv).
  apply (put_intent_spec ie) in Hput as (Hok' & _ & _ & r'' & _ & [Hf _ _]); [|done..|].
  - split; [exact Hok'|]. eexists _, []. rewrite app_nil_r. by split.
  - apply (start_write ie r s); try done.
    etrans; [by apply edge_path|]. etrans; by apply edge_path.
Qed.
End transactions.
