(* ===== verification/IntentProps.v ===== *)
(** * Properties of the investigation intent ledger

    Runs of the ledger's transactions in any order, and what holds after every one of them. *)

From stdpp Require Import prelude strings gmap sorting pretty.
From Stdlib Require Import QArith Lqa.
From S2P Require Import Prelude Enums Errors Tables Workflow Db Reconcile.
From S2P Require Import ContextJournal ContextStore DegradedFlags StateMachine AutoPolicies Intents.
From S2P Require Import IntentFacts IntentRuns.

#[local] Open Scope string_scope.

(** ** Runs *)

(** One committed transaction; [IOther] is a write of another component to its own tables. *)
Inductive icall : Type :=
| IHttp (dbnow : Z) (q : HttpRequest) (key subject intent_id : string)
| IHttpRace (dbnow : Z) (q : HttpRequest) (key subject : string) (lost : error)
| ISkip (dbnow : Z) (event_id reason : string)
| IMaybeCreate (dbnow : Z) (event : SecurityEventRow) (role : string) (product : option string)
    (created_or_promoted : bool) (intent_id : string)
| IMaterialize (now dbnow : Z) (new_id : string → string)
| IClaimBatch (now dbnow : Z) (locked : string → bool) (limit : nat)
| IClaim (now dbnow : Z) (intent_id : string)
| ICommit (dbnow : Z) (intent_id : string)
| IRevertTransient (dbnow : Z) (intent_id failure : string) (conserve : bool)
| IRevertUnexpected (dbnow : Z) (intent_id failure : string) (conserve : bool)
| IStarted (dbnow : Z) (intent_id task : string)
| ITerminal (dbnow : Z) (intent_id : string) (task : option string)
| ISkipped (dbnow : Z) (intent_id reason : string) (task : option string)
| IRetry (dbnow : Z) (intent_id error : string) (task : option string)
| IDead (dbnow : Z) (intent_id error : string) (task : option string)
| IReconcile (now dbnow : Z) (locked : string → bool) (limit : nat)
| IInline (dbnow : Z) (intent_id : string)
| IOther (db : Db) (links : list SourceEventLinkRow).

(** A transaction that raises is rolled back. *)
Definition committed {A} (lg : Ledger) (r : result (Ledger * A)) : Ledger :=
  match r with Ok (lg', _) => lg' | Err _ => lg end.

Definition icommit (ie : IntentEnv) (lg : Ledger) (c : icall) : Ledger :=
  match c with
  | IHttp dbnow q key subject x => committed lg (http_intake_tx ie dbnow lg q key subject x)
  | IHttpRace dbnow q key subject lost => committed lg (http_race_tx ie dbnow lg q key subject lost)
  | ISkip dbnow e reason => committed lg (skip_active_intents_for_event_in_session dbnow lg e reason)
  | IMaybeCreate dbnow e role p cp x =>
      committed lg (maybe_create_pending_in_session ie dbnow lg e role p cp x)
  | IMaterialize now dbnow f => committed lg (_materialize_provisional_intents ie now dbnow lg f)
  | IClaimBatch now dbnow locked n => committed lg (claim_intent_batch ie now dbnow lg locked n)
  | IClaim now dbnow x => committed lg (_claim_intent ie now dbnow lg x)
  | ICommit dbnow x => committed lg (_commit_enqueued_publish_target ie dbnow lg x)
  | IRevertTransient dbnow x f c => committed lg (revert_transient_tx ie dbnow lg x f c)
  | IRevertUnexpected dbnow x f c =>
      match _revert_enqueued_after_unexpected_failure ie dbnow lg x f c with
      | Ok lg' => lg' | Err _ => lg
      end
  | IStarted dbnow x t => committed lg (mark_started ie dbnow lg x t)
  | ITerminal dbnow x t => committed lg (mark_terminal ie dbnow lg x t)
  | ISkipped dbnow x reason t => committed lg (mark_skipped ie dbnow lg x reason t)
  | IRetry dbnow x e t => committed lg (mark_retry ie dbnow lg x e t)
  | IDead dbnow x e t => committed lg (mark_dead ie dbnow lg x e t)
  | IReconcile now dbnow locked n => committed lg (reconcile_stale_tx ie now dbnow lg locked n)
  | IInline dbnow x => committed lg (mark_inline_started ie dbnow lg x)
  | IOther db links => MkLedger db (lg_intents lg) links
  end.

Definition irun (ie : IntentEnv) : Ledger → list icall → Ledger := foldl (icommit ie).

Definition is_inline (c : icall) : bool := match c with IInline _ _ => true | _ => false end.

Section props.
Context (ie : IntentEnv).

Section runs.
Context (Hsha : ∀ s, ie_sha256 ie s ≠ "").

Lemma committed_evolve {A} lg (r : result (Ledger * A)) :
  lg_ok ie lg → (∀ out, r = Ok out → ledger_evolve ie lg out.1) →
  ledger_evolve ie lg (committed lg r).
Proof.
  intros Hok Hr. destruct r as [[lg' a]|e]; [by apply (Hr (lg', a))|by apply ledger_evolve_refl].
Qed.

Lemma icommit_evolve lg c :
  lg_ok ie lg → is_inline c = false → ledger_evolve ie lg (icommit ie lg c).
Proof.
  intros Hok Hc. destruct c; try discriminate Hc; cbn [icommit];
    try (apply committed_evolve; [done|]); intros.
  - by eapply http_intake_evolve.
  - by eapply http_race_evolve.
  - by eapply skip_active_evolve.
  - by eapply maybe_create_evolve.
  - by eapply materialize_evolve.
  - by eapply claim_batch_evolve.
  - by eapply claim_one_evolve.
  - by eapply commit_evolve.
  - by eapply revert_transient_evolve.
  - destruct (_revert_enqueued_after_unexpected_failure _ _ _ _ _ _) eqn:E;
      [by eapply revert_unexpected_evolve|by apply ledger_evolve_refl].
  - by eapply mark_started_evolve.
  - eapply transition_evolve; [done| | |eassumption]; [decide_in|done].
  - eapply transition_evolve; [done| | |eassumption]; [decide_in|done].
  - eapply transition_evolve; [done| | |eassumption]; [decide_in|done].
  - eapply transition_evolve; [done| | |eassumption]; [decide_in|done].
  - by eapply reconcile_stale_evolve.
  - by apply (ledger_evolve_refl ie lg).
Qed.

Definition grows (lg lg' : Ledger) : Prop :=
  lg_ok ie lg' ∧ intents_step (lg_intents lg) (lg_intents lg').

Lemma grows_refl lg : lg_ok ie lg → grows lg lg.
Proof. intros Hok. destruct (ledger_evolve_refl ie lg Hok). by split. Qed.

Lemma icommit_grows lg c : lg_ok ie lg → grows lg (icommit ie lg c).
Proof.
  intros Hok. destruct (is_inline c) eqn:Hc; [|by destruct (icommit_evolve lg c Hok Hc)].
  destruct c; try discriminate Hc. cbn [icommit].
  destruct (mark_inline_started _ _ _ _) as [[lg' t]|e] eqn:E; [|by apply grows_refl].
  by apply (inline_grows ie) in E.
Qed.

Lemma irun_grows calls lg : lg_ok ie lg → grows lg (irun ie lg calls).
Proof.
  revert lg. induction calls as [|c calls IH]; intros lg Hok; [by apply grows_refl|].
  destruct (icommit_grows lg c Hok) as [Hok1 Hs1]. destruct (IH _ Hok1) as [Hok2 Hs2].
  split; [exact Hok2|]. exact (intents_step_trans ie _ _ _ Hok1 Hs1 Hs2).
Qed.

Lemma irun_evolve calls lg :
  lg_ok ie lg → forallb (λ c, negb (is_inline c)) calls = true →
  ledger_evolve ie lg (irun ie lg calls).
Proof.
  revert lg. induction calls as [|c calls IH]; intros lg Hok; cbn [forallb].
  { by intros _; apply ledger_evolve_refl. }
  intros [Hc Hcs]%andb_true_iff. apply negb_true_iff in Hc.
  pose proof (icommit_evolve lg c Hok Hc) as Hev.
  eapply ledger_evolve_trans; [exact Hev|]. apply IH; [by eapply ledger_evolve_ok|done].
Qed.

(** C15. Whatever transactions commit, in any order: the ledger stays well formed (distinct intents,
    readable statuses, the unique constraints, a positive revision, a claim owner and expiry exactly
    while CLAIMED, and while published or running the task id of the current revision), and every
    intent keeps its identity, moves only along [INTENT_TRANSITIONS], never lowers its revision,
    starts over only under a new revision, keeps its request while its revision stands, and is final
    once TERMINAL. *)
Theorem intents_move_legally calls lg :
  lg_ok ie lg → lg_ok ie (irun ie lg calls) ∧
  ∀ x r, get_intent lg x = Some r →
    ∃ r', get_intent (irun ie lg calls) x = Some r' ∧ intent_moved r r'.
Proof.
  intros Hok. destruct (irun_grows calls lg Hok) as [Hok' Hstep].
  split; [done|]. intros x r [Hr <-]%get_intent_Some.
  destruct (step_row _ _ r Hstep Hr) as (r' & Hr' & Hm).
  exists r'. split; [|done]. rewrite <-(im_id _ _ Hm). by apply (get_intent_elem ie).
Qed.

(** C16. At most one intent of an event is published or running, whatever transactions commit, as
    long as none is an inline start. *)
Theorem one_running_intent calls lg :
  lg_ok ie lg → one_running (lg_intents lg) → forallb (λ c, negb (is_inline c)) calls = true →
  one_running (lg_intents (irun ie lg calls)).
Proof. intros Hok Hone Hc. by apply (irun_evolve calls lg Hok Hc). Qed.

(** ** Deliveries *)

(** A write that takes no task id of another row cannot fail. *)
Lemma put_fresh dbnow r r' lg :
  lg_ok ie lg → r ∈ lg_intents lg → write_ok ie r r' → request_of r' = request_of r →
  (∀ s t, s ∈ lg_intents lg → it_intent_id s ≠ it_intent_id r →
     it_broker_task_id s = Some t → it_broker_task_id r' ≠ Some t) →
  ∃ lg', put_intent dbnow r r' lg = Ok lg'.
Proof.
  intros [_ _ Hu] Hr [[H1 H2 H3 H4 _ _ _ _ _] _] [= H5 H6 _] H7. unfold put_intent.
  case_bool_decide; [by eexists|]. destruct (existsb _ _) eqn:Hex; [|by eexists].
  apply existsb_exists in Hex as (s & Hs%list_elem_of_In & [Hid Hc]%andb_true_iff).
  exfalso. bool_props. rewrite H1 in Hid. specialize (Hu s r Hs Hr Hid).
  apply not_true_iff_false in Hu as []. apply intents_conflict_true in Hc. apply intents_conflict_true.
  destruct Hc as [Hc|[(t & Ht & Ht')|Hc]]; unfold conflicting.
  - left. by rewrite H2, H3, H4 in Hc.
  - by destruct (H7 s t Hs Hid Ht).
  - right. right. by rewrite H5, H6 in Hc.
Qed.

Lemma kept_task_fresh lg r s t :
  lg_ok ie lg → r ∈ lg_intents lg → s ∈ lg_intents lg → it_intent_id s ≠ it_intent_id r →
  it_broker_task_id s = Some t → it_broker_task_id r ≠ Some t.
Proof.
  intros [_ _ Hu] Hr Hs Hid Ht Ht'. specialize (Hu s r Hs Hr Hid).
  apply not_true_iff_false in Hu as []. apply intents_conflict_true. right. left. by exists t.
Qed.

Lemma put_total dbnow r r' lg :
  lg_ok ie lg → r ∈ lg_intents lg → write_ok ie r r' → request_of r' = request_of r →
  it_broker_task_id r' = it_broker_task_id r → ∃ lg', put_intent dbnow r r' lg = Ok lg'.
Proof.
  intros Hok Hr Hw Hreq Ht. apply put_fresh; [done..|]. rewrite Ht. intros s t. by apply kept_task_fresh.
Qed.

Lemma current_delivery_accepted dbnow lg x r :
  lg_ok ie lg → get_intent lg x = Some r → active r →
  ∃ lg', mark_started ie dbnow lg x (task_id ie r (it_revision r))
         = Ok (lg', IntentDeliveryAdmission.ACCEPTED).
Proof.
  intros Hok Hg Ha. unfold mark_started. rewrite Hg.
  apply (loaded _ _ _ _ Hok) in Hg as [Hr Hro]. pose proof (ro_active ie r Hro Ha) as Ht.
  destruct Ha as [Hs|Hs]; rewrite (proj2 (loaded_status _ r) Hs); cbn [mbind result_bind];
    rewrite (bool_decide_eq_false_2 (_ ∈ TERMINAL_INTENT_STATUSES)) by (intros H0; refute_in H0).
  - rewrite (bool_decide_eq_false_2 (_ = InvestigationIntentStatus.STARTED)) by done.
    rewrite (bool_decide_eq_true_2 (_ = InvestigationIntentStatus.ENQUEUED)) by done.
    rewrite Ht, (bool_decide_eq_true_2 (Some _ = Some _)) by done. rewrite andb_false_r. cbn [negb].
    destruct (put_total dbnow r (row_with r InvestigationIntentStatus.STARTED (it_revision r)
      (it_attempt r) None (Some (task_id ie r (it_revision r))) (it_skip_reason r) (it_last_error r))
      lg Hok Hr) as [lg' Hput]; [|done..|].
    { apply (start_write ie r InvestigationIntentStatus.ENQUEUED); try done. apply edge_path. decide_in. }
    exists lg'. apply unit_seq_Ok. split; [apply validate_intent_Ok; decide_in|]. by rewrite Hput.
  - exists lg. rewrite (bool_decide_eq_true_2 (_ = InvestigationIntentStatus.STARTED)) by done.
    by rewrite Ht, (bool_decide_eq_true_2 (Some _ = Some _)).
Qed.

(** After any transactions a delivery is accepted exactly when its intent is published or
    running and the delivery carries the task id of the intent's current revision. *)
Theorem delivery_admitted_exactly calls lg0 dbnow x task :
  lg_ok ie lg0 → let lg := irun ie lg0 calls in
  (∃ lg', mark_started ie dbnow lg x task = Ok (lg', IntentDeliveryAdmission.ACCEPTED)) ↔
  ∃ r, get_intent lg x = Some r ∧ active r ∧ task = task_id ie r (it_revision r).
Proof.
  intros Hok0 lg. assert (lg_ok ie lg) as Hok by apply (irun_grows calls lg0 Hok0).
  clearbody lg. split.
  - intros [lg' H0]. apply (mark_started_cases ie Hsha) in H0 as [[Hn _]|(_ & r & Hg & Hcur & Hs)];
      [done| |done].
    exists r. split_and!; [done| |done]. destruct Hs as [[Hs _]|[Hs _]]; [by right|by left].
  - intros (r & Hg & Ha & ->). by apply current_delivery_accepted.
Qed.

(** A completion reported under another task id. *)
Lemma stale_transition dbnow lg x target skip err incr task :
  lg_ok ie lg → (∀ r, get_intent lg x = Some r → task ≠ task_id ie r (it_revision r)) →
  intent_transition ie dbnow lg x target skip err incr (Some task) = Ok (lg, false).
Proof.
  intros Hok Hne. unfold intent_transition. destruct (get_intent lg x) as [r|] eqn:Hg; [|done].
  specialize (Hne r eq_refl). apply (loaded _ _ _ _ Hok) in Hg as [Hr Hro].
  destruct (ro_status ie r Hro) as [s Hs]. rewrite (proj2 (loaded_status s r) Hs).
  cbn [mbind result_bind]. case_bool_decide as Hst; [subst s|done].
  rewrite (ro_active ie r Hro (or_intror Hs)), bool_decide_eq_false_2; [done|congruence].
Qed.

Lemma stale_delivery dbnow lg x task :
  lg_ok ie lg → (∀ r, get_intent lg x = Some r → task ≠ task_id ie r (it_revision r)) →
  ∃ a, mark_started ie dbnow lg x task = Ok (lg, a) ∧ a ≠ IntentDeliveryAdmission.ACCEPTED.
Proof.
  intros Hok Hne. destruct (mark_started ie dbnow lg x task) as [[lg' a]|e] eqn:E.
  - apply (mark_started_cases ie Hsha) in E as [[Hn Hl]|(_ & r & Hg & Hcur & _)]; [|by destruct (Hne r)|done].
    exists a. cbn in Hn, Hl. by subst lg'.
  - exfalso. unfold mark_started in E. destruct (get_intent lg x) as [r|] eqn:Hg; [|done].
    specialize (Hne r eq_refl). apply (loaded _ _ _ _ Hok) in Hg as [Hr Hro].
    destruct (ro_status ie r Hro) as [s Hs]. rewrite (proj2 (loaded_status s r) Hs) in E.
    cbn [mbind result_bind] in E. rewrite (revision_of_ok ie r Hro) in E.
    destruct (s ∈? _); [done|]. case_bool_decide; [subst s|case_bool_decide; [subst s|done]].
    + rewrite (bool_decide_eq_false_2 (task = _)) in E by done.
      by destruct (it_broker_task_id r ==? Some task).
    + rewrite (ro_active ie r Hro (or_introl Hs)) in E. cbn [truthy_str negb] in E.
      rewrite (bool_decide_eq_false_2 (task_id ie r (it_revision r) = "")) in E by apply Hsha.
      rewrite (bool_decide_eq_false_2 (Some _ = _)) in E by congruence. done.
Qed.

(** A worker whose task id is not that of the intent's current revision (its intent was
    recovered, retried or settled and re-armed meanwhile) changes nothing: its delivery is not
    accepted, and its report of success, skip, retry or death is refused. *)
Theorem superseded_worker_fenced calls lg0 dbnow x task text :
  lg_ok ie lg0 → let lg := irun ie lg0 calls in
  (∀ r, get_intent lg x = Some r → task ≠ task_id ie r (it_revision r)) →
  (∃ a, mark_started ie dbnow lg x task = Ok (lg, a) ∧ a ≠ IntentDeliveryAdmission.ACCEPTED) ∧
  mark_terminal ie dbnow lg x (Some task) = Ok (lg, false) ∧
  mark_skipped ie dbnow lg x text (Some task) = Ok (lg, false) ∧
  mark_retry ie dbnow lg x text (Some task) = Ok (lg, false) ∧
  mark_dead ie dbnow lg x text (Some task) = Ok (lg, false).
Proof.
  intros Hok0 lg Hne. assert (lg_ok ie lg) as Hok by apply (irun_grows calls lg0 Hok0).
  split_and!; [by apply stale_delivery|by apply stale_transition..].
Qed.

(** ** Idempotent intake *)

(** The row that answers a request. *)
Record answers (lg : Ledger) (q : HttpRequest) (out : HttpInvestigationIntentResult) (r : IntentRow) :
    Prop := {
  an_row : r ∈ lg_intents lg;
  an_id : hr_intent_id out = it_intent_id r;
  an_event : it_event_id r = hq_event_id q;
  an_request : request_of r = (Some (str_strip (hq_requested_by q)),
                               Some (str_strip (hq_idempotency_key q)), Some (hq_payload_sha256 q));
  an_revision : hr_revision out = it_revision r;
  an_task : hr_task_id out = task_id ie r (it_revision r)
}.

Lemma http_result_Ok r created out :
  row_ok ie r → _http_intent_result ie r created = Ok out →
  hr_intent_id out = it_intent_id r ∧ hr_revision out = it_revision r ∧
  hr_task_id out = task_id ie r (it_revision r) ∧ hr_created out = created.
Proof.
  intros Hro. unfold _http_intent_result. rewrite bind_Ok. intros (s & _ & [= <-]).
  cbn. by rewrite (revision_of_ok ie r Hro).
Qed.

Lemma put_answers dbnow lg lg' r r' q out :
  lg_ok ie lg → r ∈ lg_intents lg → write_ok ie r r' → put_intent dbnow r r' lg = Ok lg' →
  (r' ∈ lg_intents lg' → answers lg' q out r') →
  (stamped dbnow r' ∈ lg_intents lg' → answers lg' q out (stamped dbnow r')) →
  ∃ a, answers lg' q out a.
Proof.
  intros Hok Hr Hw Hput H1 H2.
  destruct (put_intent_spec ie _ _ _ _ _ Hok Hr Hw Hput) as (_ & _ & _ & r'' & Hr'' & [_ _ Hin]).
  assert (r'' ∈ lg_intents lg') as Hel by (apply Hin; by left).
  exists r''. destruct Hr'' as [->| ->]; auto.
Qed.

Lemma rearm_answers dbnow lg q r request out :
  lg_ok ie lg → r ∈ lg_intents lg → it_event_id r = hq_event_id q →
  _rearm_http_intent ie dbnow lg r request = Ok out →
  request_of (rearmed ie r request) =
    (Some (str_strip (hq_requested_by q)), Some (str_strip (hq_idempotency_key q)),
     Some (hq_payload_sha256 q)) →
  ∃ a, answers out.1 q out.2 a.
Proof.
  intros Hok Hr He H0 Hreq. unfold _rearm_http_intent in H0.
  apply bind_Ok in H0 as (s & Hs%loaded_status & H0).
  apply unit_seq_Ok in H0 as [Hv%validate_intent_Ok H0]. apply bind_Ok in H0 as (o & Ho & H0).
  apply bind_Ok in H0 as (lg' & Hput & [= <-]). cbn [fst snd].
  pose proof (rearmed_write ie r s request (ledger_row ie _ _ Hok Hr) Hs Hv) as Hw.
  apply http_result_Ok in Ho as (Hid & Hrev & Htask & _); [|apply Hw].
  eapply put_answers; [done|exact Hr|exact Hw|exact Hput|..]; intros Hel; by split.
Qed.

Lemma find_request subject key lg r :
  List.find (request_row subject key) (lg_intents lg) = Some r →
  r ∈ lg_intents lg ∧ it_requested_by r = Some subject ∧ it_request_idempotency_key r = Some key.
Proof.
  intros [Hr [Hs Hk]%andb_true_iff]%find_some. bool_props. by rewrite list_elem_of_In.
Qed.

Lemma find_http e lg r :
  List.find (http_row e) (lg_intents lg) = Some r → r ∈ lg_intents lg ∧ it_event_id r = e.
Proof.
  intros [Hr H0]%find_some. unfold http_row in H0. bool_props. by rewrite list_elem_of_In.
Qed.

Lemma replay_answers dbnow lg q r out :
  lg_ok ie lg →
  List.find (request_row (str_strip (hq_requested_by q)) (str_strip (hq_idempotency_key q)))
    (lg_intents lg) = Some r →
  _replay_http_intent ie dbnow lg r (hq_event_id q) (hq_payload_sha256 q) = Ok out →
  ∃ a, answers out.1 q out.2 a.
Proof.
  intros Hok (Hr & Hsub & Hkey)%find_request [Hm H0]%raise_if_seq_Ok.
  apply orb_false_iff in Hm as [He Hp]. apply negb_false_iff in He, Hp. bool_props.
  apply bind_Ok in H0 as (s & _ & H0). destruct (_ && _).
  - eapply rearm_answers; [done|exact Hr|done|exact H0|]. unfold request_of. cbn. congruence.
  - apply bind_Ok in H0 as (o & Ho & [= <-]).
    apply http_result_Ok in Ho as (Hid & Hrev & Htask & _); [|by eapply ledger_row].
    exists r. split; try done. unfold request_of. congruence.
Qed.

Lemma on_active_answers dbnow lg q r out :
  lg_ok ie lg → List.find (http_row (hq_event_id q)) (lg_intents lg) = Some r →
  on_active_intent ie dbnow lg q (str_strip (hq_idempotency_key q)) (str_strip (hq_requested_by q)) r
    = Ok out → ∃ a, answers out.1 q out.2 a.
Proof.
  intros Hok (Hr & He)%find_http. unfold on_active_intent. rewrite bind_Ok. intros (s & _ & H0).
  destruct (s ∈? _); [|done]. by eapply rearm_answers.
Qed.

Lemma intake_answers dbnow lg q x out :
  lg_ok ie lg →
  http_intake_tx ie dbnow lg q (str_strip (hq_idempotency_key q)) (str_strip (hq_requested_by q)) x
    = Ok out → ∃ a, answers out.1 q out.2 a.
Proof.
  intros Hok. unfold http_intake_tx. destruct (_ !! _) as [event|]; [|done].
  destruct (List.find _ _) as [r|] eqn:Hf; [by apply replay_answers|].
  destruct (se_status event !=? _); [by rewrite bind_Ok; intros (s & _ & ?)|].
  destruct (List.find (http_row _) _) as [r|] eqn:Hf'; [by apply on_active_answers|].
  rewrite bind_Ok. intros (sk & Hsk & H0). apply bind_Ok in H0 as (lg' & Hin & H0).
  apply bind_Ok in H0 as (o & Ho & [= <-]). cbn [fst snd].
  apply http_result_Ok in Ho as (Hid & Hrev & Htask & _); [|apply pending_row_ok; try done; by right].
  eexists. split; [|done..]. apply raise_if_seq_Ok in Hin as [_ [= <-]].
  apply elem_of_app. right. by left.
Qed.

Lemma race_answers dbnow lg q lost out :
  lg_ok ie lg →
  http_race_tx ie dbnow lg q (str_strip (hq_idempotency_key q)) (str_strip (hq_requested_by q)) lost
    = Ok out → ∃ a, answers out.1 q out.2 a.
Proof.
  intros Hok. unfold http_race_tx. destruct (_ !! _) as [event|]; [|done].
  destruct (List.find _ _) as [r|] eqn:Hf; [by apply replay_answers|].
  destruct (List.find (http_row _) _) as [r|] eqn:Hf'; [by apply on_active_answers|done].
Qed.

(** A successful intake: the request passed the header checks, and a row answers it. *)
Lemma create_answers dbnow lg q x between out lg1 :
  lg_ok ie lg →
  create_or_replay_http_intent ie dbnow lg q x (λ l, irun ie l between) = (Ok out, lg1) →
  lg_ok ie lg1 ∧ (∃ a, answers lg1 q out a) ∧
  ((str_strip (hq_idempotency_key q) ==? "")
   || (200 <? Z.of_nat (String.length (str_strip (hq_idempotency_key q))))%Z) = false ∧
  (str_strip (hq_requested_by q) ==? "") = false.
Proof.
  intros Hok. unfold create_or_replay_http_intent. destruct (_ || _) eqn:Hk; [done|].
  destruct (str_strip (hq_requested_by q) ==? "") eqn:Hsub; [done|].
  destruct (http_intake_tx _ _ _ _ _ _ _) as [[lg' o]|e] eqn:Htx.
  - intros [= <- <-]. split_and!; [|by apply intake_answers in Htx|done..].
    apply (http_intake_evolve ie) in Htx; [|done]. by eapply ledger_evolve_ok.
  - destruct (err_class e ==? _); [|done]. destruct (irun_grows between lg Hok) as [Hok' _].
    destruct (http_race_tx _ _ _ _ _ _ _) as [[lg' o]|e'] eqn:Hrace; [|done].
    intros [= <- <-]. split_and!; [|by apply race_answers in Hrace|done..].
    apply (http_race_evolve ie) in Hrace; [|done]. by eapply ledger_evolve_ok.
Qed.

Lemma find_unique_request subject key lg r :
  lg_ok ie lg → r ∈ lg_intents lg → it_requested_by r = Some subject →
  it_request_idempotency_key r = Some key →
  List.find (request_row subject key) (lg_intents lg) = Some r.
Proof.
  intros [Hk _ Hu] Hr Hs Hkey. destruct (List.find _ _) as [r'|] eqn:Hf.
  - apply find_request in Hf as (Hr' & Hs' & Hkey'). f_equal.
    destruct (decide (it_intent_id r' = it_intent_id r)) as [He|Hne];
      [exact (NoDup_fmap_elem it_intent_id _ r' r Hk Hr' Hr He)|].
    specialize (Hu r' r Hr' Hr Hne). apply not_true_iff_false in Hu as [].
    apply intents_conflict_true. right. right. split; [by exists subject|by exists key].
  - apply (List.find_none _ _) with (x := r) in Hf; [|by apply list_elem_of_In].
    unfold request_row in Hf.
    rewrite (bool_decide_eq_true_2 (_ = Some subject)), bool_decide_eq_true_2 in Hf; done.
Qed.


Lemma replay_unsettled dbnow lg r s event_id payload :
  row_ok ie r → has_status r s → s ∉ settled_statuses → it_event_id r = event_id →
  it_request_payload_sha256 r = Some payload →
  _replay_http_intent ie dbnow lg r event_id payload =
    Ok (lg, {| hr_intent_id := it_intent_id r; hr_event_id := it_event_id r;
               hr_task_id := task_id ie r (it_revision r); hr_revision := it_revision r;
               hr_status := s; hr_created := false |}).
Proof.
  intros Hro Hs Hns He Hp. unfold _replay_http_intent, _http_intent_result.
  rewrite (bool_decide_eq_true_2 (_ = event_id)), (bool_decide_eq_true_2 (_ = Some payload)) by done.
  rewrite (proj2 (loaded_status s r) Hs), (revision_of_ok ie r Hro).
  cbn [negb orb raise_if mbind result_bind].
  by rewrite (bool_decide_eq_false_2 (s ∈ _)), andb_false_r.
Qed.

Lemma replay_mismatch dbnow lg r event_id payload :
  it_event_id r ≠ event_id ∨ it_request_payload_sha256 r ≠ Some payload →
  ∃ e, _replay_http_intent ie dbnow lg r event_id payload = Err e ∧
       err_class e = IdempotencyKeyReuseError.
Proof.
  intros Hd. unfold _replay_http_intent.
  assert ((it_event_id r !=? event_id) || (it_request_payload_sha256 r !=? Some payload) = true) as ->.
  { apply orb_true_iff. rewrite !negb_true_iff, !bool_decide_eq_false. tauto. }
  by eexists.
Qed.

(** After a successful intake and any further transactions, while the intent stands at the
    answered revision and is not settled: the same request is answered with the same intent, task
    and revision and writes nothing; and another request under the same principal and key, for
    another event or with another payload, is refused as a reuse of the key and writes nothing. *)
Theorem http_intake_idempotent dbnow dbnow' lg q x x' between others calls out lg1 r :
  lg_ok ie lg →
  create_or_replay_http_intent ie dbnow lg q x (λ l, irun ie l between) = (Ok out, lg1) →
  let lg2 := irun ie lg1 calls in
  get_intent lg2 (hr_intent_id out) = Some r → it_revision r = hr_revision out →
  (it_status r ∉ enum_value <$> settled_statuses) →
  (is_Some (db_events (lg_db lg2) !! hq_event_id q) →
   ∃ out2, create_or_replay_http_intent ie dbnow' lg2 q x' others = (Ok out2, lg2) ∧
     hr_intent_id out2 = hr_intent_id out ∧ hr_task_id out2 = hr_task_id out ∧
     hr_revision out2 = hr_revision out ∧ hr_created out2 = false) ∧
  (∀ q', is_Some (db_events (lg_db lg2) !! hq_event_id q') →
     str_strip (hq_requested_by q') = str_strip (hq_requested_by q) →
     str_strip (hq_idempotency_key q') = str_strip (hq_idempotency_key q) →
     hq_event_id q' ≠ hq_event_id q ∨ hq_payload_sha256 q' ≠ hq_payload_sha256 q →
     ∃ e, create_or_replay_http_intent ie dbnow' lg2 q' x' others = (Err e, lg2) ∧
       err_class e = IdempotencyKeyReuseError).
Proof.
  intros Hok Hc lg2 Hg Hrev Hns.
  apply create_answers in Hc as (Hok1 & [a [Ha1 Ha2 Ha3 Ha4 Ha5 Ha6]] & Hkey & Hsub); [|done].
  destruct (irun_grows calls lg1 Hok1) as [Hok2 Hstep]. fold lg2 in Hok2, Hstep.
  apply (loaded _ _ _ _ Hok2) in Hg as Hl. destruct Hl as [Hr Hro].
  destruct (step_row _ _ a Hstep Ha1) as (r' & Hr' & Hm).
  assert (r' = r) as ->.
  { apply get_intent_Some in Hg as [_ Hid].
    apply (NoDup_fmap_elem it_intent_id (lg_intents lg2)); [apply Hok2|done..|].
    rewrite (im_id _ _ Hm). congruence. }
  pose proof (im_request _ _ Hm ltac:(congruence)) as Hreq. rewrite Ha4 in Hreq.
  injection Hreq as Hq1 Hq2 Hq3.
  pose proof (find_unique_request _ _ _ _ Hok2 Hr Hq1 Hq2) as Hfind.
  pose proof (im_event _ _ Hm) as Hev. rewrite Ha3 in Hev. pose proof (im_id _ _ Hm) as Hid.
  clearbody lg2. split.
  - intros [event Hevent]. unfold create_or_replay_http_intent, http_intake_tx.
    destruct (ro_status ie r Hro) as [s Hs].
    assert (s ∉ settled_statuses) as Hs' by (intros Hin; apply Hns; rewrite Hs; by apply list_elem_of_fmap_2).
    rewrite Hkey, Hsub, Hevent, Hfind, (replay_unsettled dbnow' lg2 r s _ _ Hro Hs Hs' Hev Hq3).
    eexists. split; [done|]. cbn [hr_intent_id hr_task_id hr_revision hr_created].
    rewrite Hrev, Ha2, Ha6, Ha5. unfold task_id. by rewrite Hid.
  - intros q' [event Hevent] Eq1 Eq2 Hdiff. unfold create_or_replay_http_intent, http_intake_tx.
    destruct (replay_mismatch dbnow' lg2 r (hq_event_id q') (hq_payload_sha256 q')) as (e & He & Hcl).
    { rewrite Hev, Hq3. naive_solver. }
    rewrite Eq1, Eq2, Hkey, Hsub, Hevent, Hfind, He, Hcl. by exists e.
Qed.
End runs.
End props.
