(* ===== verification/IntentDispatch.v ===== *)
(** * Claim order and dispatch of investigation intents

    A claiming pass takes the most urgent intents first, and a dispatch is a sequence of the
    ledger's transactions whatever the broker answers. *)

From stdpp Require Import prelude strings gmap sorting pretty.
From Stdlib Require Import QArith Lqa.
From S2P Require Import Prelude Enums Errors Tables Workflow Db Reconcile.
From S2P Require Import ContextJournal ContextStore DegradedFlags StateMachine AutoPolicies Intents.
From S2P Require Import IntentFacts IntentRuns IntentProps.

#[local] Open Scope string_scope.

(** ** The claim order *)

Lemma claim_rel_spec now lg a b :
  claim_rel now lg a b ↔
  (intent_priority now lg b < intent_priority now lg a)%Q ∨
  (intent_priority now lg a == intent_priority now lg b)%Q ∧
  ((it_created_at a < it_created_at b)%Z ∨
   it_created_at a = it_created_at b ∧ String.le (it_intent_id a) (it_intent_id b)).
Proof.
  unfold claim_rel, claim_order, String.le. rewrite orb_true_iff, !andb_true_iff, orb_true_iff.
  rewrite andb_true_iff, Qeq_bool_iff, Z.ltb_lt, Z.eqb_eq, negb_true_iff.
  assert (Qle_bool (intent_priority now lg a) (intent_priority now lg b) = false ↔
          (intent_priority now lg b < intent_priority now lg a)%Q) as ->.
  { rewrite <-not_true_iff_false, Qle_bool_iff. split; [apply Qnot_le_lt|apply Qlt_not_le]. }
  by rewrite Is_true_true.
Qed.

#[global] Instance claim_rel_total now lg : Total (claim_rel now lg).
Proof.
  intros a b. rewrite !claim_rel_spec.
  destruct (Q_dec (intent_priority now lg a) (intent_priority now lg b)) as [[H|H]|H]; [auto..|].
  destruct (Z.lt_trichotomy (it_created_at a) (it_created_at b)) as [Hc|[Hc|Hc]].
  - left. right. auto.
  - destruct (total String.le (it_intent_id a) (it_intent_id b)); [left|right]; right; auto using Qeq_sym.
  - right. right. split; [by apply Qeq_sym|auto].
Qed.

#[global] Instance claim_rel_transitive now lg : Transitive (claim_rel now lg).
Proof.
  intros a b c. rewrite !claim_rel_spec.
  intros [Hab|[Hab Kab]] [Hbc|[Hbc Kbc]]; [left; lra..|].
  right. split; [lra|]. destruct Kab as [Kab|[Kab Lab]], Kbc as [Kbc|[Kbc Lbc]]; [left; lia..|].
  right. split; [lia|]. by etrans.
Qed.

(** In a sorted list a selected element precedes every element left out. *)
Lemma selected_first {A} (R : relation A) l n a b :
  StronglySorted R l → a ∈ take n l → b ∈ drop n l → R a b.
Proof.
  rewrite <-(take_drop n l) at 1. generalize (take n l), (drop n l). intros l1 l2.
  induction l1 as [|x l1 IH]; intros Hs Ha Hb; [by apply elem_of_nil in Ha|].
  apply StronglySorted_inv in Hs as [Hs Hx]. rewrite Forall_forall in Hx.
  apply elem_of_cons in Ha as [->|Ha]; [apply Hx, elem_of_app; by right|by apply IH].
Qed.

Lemma selected_precede {A} (R : relation A) `{!RelDecision R, !Total R, !Transitive R} p l n a b :
  a ∈ take n (merge_sort R (List.filter p l)) → b ∈ l → p b = true →
  b ∉ take n (merge_sort R (List.filter p l)) → R a b.
Proof.
  intros Ha Hb Hp Hnb. eapply selected_first; [by apply (StronglySorted_merge_sort R)|exact Ha|].
  assert (b ∈ merge_sort R (List.filter p l)) as Hmem.
  { rewrite merge_sort_Permutation. apply list_elem_of_In, filter_In.
    split; [by apply list_elem_of_In|done]. }
  rewrite <-(take_drop n (merge_sort R _)) in Hmem. by apply elem_of_app in Hmem as [|].
Qed.

Section dispatch.
Context (ie : IntentEnv).

Definition claimed_by (now : Z) (r : IntentRow) : Prop :=
  has_status r InvestigationIntentStatus.CLAIMED ∧ it_claim_owner r = Some (ie_worker_id ie) ∧
  it_claim_expires_at r = Some (now + ie_claim_lease_s ie)%Z.

Lemma claimable_from now r s :
  has_status r s → claimable_intent now r = true →
  ∃ from, expire_claim now r s = Ok from ∧
          InvestigationIntentStatus.CLAIMED ∈ INTENT_TRANSITIONS from.1.
Proof.
  intros Hs Hc. unfold claimable_intent in Hc. rewrite Hs in Hc. unfold expire_claim.
  apply orb_true_iff in Hc as [Hc|[Hc He]%andb_true_iff]; bool_props.
  - apply list_elem_of_fmap in Hc as (t & Ht%enum_value_eq & Hin). subst t.
    rewrite (bool_decide_eq_false_2 (s = _)) by (intros ->; refute_in Hin). cbn [andb].
    eexists. split; [done|]. cbn [fst]. destruct s; first [refute_in Hin|decide_in].
  - apply enum_value_eq in Hc. subst s. rewrite bool_decide_eq_true_2, He by done. cbn [andb].
    exists (InvestigationIntentStatus.RETRY, (it_attempt r + 1)%Z).
    split; [|decide_in]. apply unit_seq_Ok. split; [|done]. apply validate_intent_Ok. decide_in.
Qed.

Lemma claim_rows_total now dbnow lg rows :
  lg_ok ie lg → snapshot rows (lg_intents lg) → (∀ r, r ∈ rows → claimable_intent now r = true) →
  ∃ lg', claim_intent_rows ie now dbnow lg rows = Ok (lg', it_intent_id <$> rows) ∧ lg_ok ie lg' ∧
    (∀ z, z ∈ lg_intents lg → it_intent_id z ∉ it_intent_id <$> rows → z ∈ lg_intents lg') ∧
    ∀ r, r ∈ rows → ∃ r', r' ∈ lg_intents lg' ∧ it_intent_id r' = it_intent_id r ∧ claimed_by now r'.
Proof.
  revert lg. induction rows as [|r rows IH]; intros lg Hok Hsnap Hcl.
  { exists lg. split_and!; [done..|]. by intros r Hr%elem_of_nil. }
  assert (r ∈ lg_intents lg) as Hr by (apply Hsnap; by left).
  pose proof (ledger_row ie _ _ Hok Hr) as Hro. destruct (ro_status ie r Hro) as [s Hs].
  destruct (claimable_from now r s Hs (Hcl r ltac:(by left))) as (from & Hfrom & Hv).
  assert (write_ok ie r (claimed_row ie now r from.2)) as Hw by (by eapply claimed_row_write).
  destruct (put_total ie dbnow r (claimed_row ie now r from.2) lg Hok Hr Hw) as [lg1 Hput]; [done..|].
  destruct (put_intent_spec ie _ _ _ _ _ Hok Hr Hw Hput) as (Hok1 & _ & _ & r1 & Hr1 & [_ _ Hin]).
  assert (it_intent_id r1 = it_intent_id r ∧ claimed_by now r1) as [Hid1 Hby]
    by (by destruct Hr1 as [->| ->]).
  assert (∀ z, z ∈ lg_intents lg → it_intent_id z ≠ it_intent_id r → z ∈ lg_intents lg1) as Hkeep
    by (intros z Hz Hne; apply Hin; by right).
  pose proof (snapshot_next r rows _ _ Hsnap Hkeep) as Hsnap1.
  destruct (IH lg1 Hok1 Hsnap1) as (lg' & Hrun & Hok' & Hkeep' & Hby');
    [intros z Hz; apply Hcl; by right|].
  exists lg'. split_and!; [|done| |].
  - cbn [claim_intent_rows]. rewrite (proj2 (loaded_status s r) Hs). cbn [mbind result_bind].
    rewrite Hfrom. cbn [mbind result_bind]. apply unit_seq_Ok.
    split; [by apply validate_intent_Ok|]. rewrite Hput. cbn [mbind result_bind]. by rewrite Hrun.
  - intros z Hz Hnz. apply Hkeep'; [apply Hkeep; [done|]|]; intros He; apply Hnz;
      [rewrite He; by left|by right].
  - intros z [->|Hz]%elem_of_cons; [|by apply Hby'].
    exists r1. split_and!; try apply Hby; [|done]. apply Hkeep'; [apply Hin; by left|].
    rewrite Hid1. by destruct Hsnap as [[Hn _]%NoDup_cons _].
Qed.

(** A claiming pass on a well-formed ledger never fails.  It claims, for this worker and until
    the end of the lease, as many claimable unlocked intents as there are, up to the limit, each
    once, and every intent it claims comes before every claimable one it leaves in the order by
    priority, age and key. *)
Theorem claims_most_urgent now dbnow lg locked limit :
  lg_ok ie lg →
  let open r := r ∈ lg_intents lg ∧ claimable_intent now r = true ∧ locked (it_intent_id r) = false in
  ∃ lg' ids, claim_intent_batch ie now dbnow lg locked limit = Ok (lg', ids) ∧ NoDup ids ∧
    length ids = Nat.min limit (length (List.filter
      (λ r, claimable_intent now r && negb (locked (it_intent_id r))) (lg_intents lg))) ∧
    (∀ x, x ∈ ids → (∃ r, open r ∧ it_intent_id r = x) ∧
                    ∃ r', get_intent lg' x = Some r' ∧ claimed_by now r') ∧
    (∀ a b, open a → open b → it_intent_id a ∈ ids → it_intent_id b ∉ ids → claim_rel now lg a b).
Proof.
  intros Hok open. pose proof (lo_keyed ie _ Hok) as Hk.
  pose proof (snapshot_selected (claim_rel now lg)
    (λ r, claimable_intent now r && negb (locked (it_intent_id r))) limit _ Hk) as Hsnap.
  assert (∀ r, r ∈ claim_candidates now lg locked limit → open r) as Hsel.
  { intros r [Hr [Hc Hl]%andb_true_iff]%elem_of_selected. apply negb_true_iff in Hl. by split_and!. }
  destruct (claim_rows_total now dbnow lg (claim_candidates now lg locked limit) Hok Hsnap)
    as (lg' & Hrun & Hok' & _ & Hby); [intros r Hr; by apply Hsel|].
  exists lg', (it_intent_id <$> claim_candidates now lg locked limit).
  split_and!; [done|apply Hsnap| | |].
  - unfold claim_candidates. by rewrite length_fmap, length_take, merge_sort_Permutation.
  - intros x (r & -> & Hr)%list_elem_of_fmap. split; [exists r; auto|].
    destruct (Hby r Hr) as (r' & Hr' & Hid & Hc). exists r'. split; [|done].
    rewrite <-Hid. by apply (get_intent_elem ie).
  - intros a b (Ha & _) (Hb & Hcb & Hlb) Hina Hnb.
    apply list_elem_of_fmap in Hina as (a' & Heq & Ha').
    assert (a' = a) as -> by (eapply (NoDup_fmap_elem it_intent_id); [exact Hk|by apply Hsel|done..]).
    apply (selected_precede (claim_rel now lg) _ _ limit a b Ha' Hb); [by rewrite Hcb, Hlb|].
    intros Hmem. destruct Hnb. by apply list_elem_of_fmap_2.
Qed.

(** ** Recovery *)

(** No digest of the next revision of [r] is a digest of [s] up to revision [n]. *)
Definition distinct_tasks (r s : IntentRow) (n : Z) : Prop :=
  ∀ v, (v ≤ n)%Z → task_id ie r (it_revision r + 1) ≠ task_id ie s v.

Definition recovered (r r' : IntentRow) : Prop :=
  it_intent_id r' = it_intent_id r ∧
  (has_status r' InvestigationIntentStatus.RETRY ∧ it_revision r' = it_revision r + 1 ∧
     it_attempt r' = it_attempt r + 1 ∧ it_attempt r' < ie_max_attempts ie ∨
   has_status r' InvestigationIntentStatus.DEAD ∧ ie_max_attempts ie ≤ it_attempt r + 1 ∨
   has_status r' InvestigationIntentStatus.TERMINAL ∨ has_status r' InvestigationIntentStatus.SKIPPED)%Z.

Lemma reconcile_row_total r s event :
  row_ok ie r → has_status r s → it_status r ∈ running_statuses →
  ∃ r', _reconcile_stale_row ie r s event = Ok r' ∧ recovered r r' ∧ request_of r' = request_of r ∧
    (it_revision r' ≤ it_revision r + 1)%Z ∧
    (it_broker_task_id r' = None ∨ it_broker_task_id r' = it_broker_task_id r ∨
     it_broker_task_id r' = Some (task_id ie r (it_revision r + 1))).
Proof.
  intros Hro Hs Hrun. unfold _reconcile_stale_row. cbv zeta. rewrite (revision_of_ok ie r Hro).
  assert (s ∈ [InvestigationIntentStatus.CLAIMED; InvestigationIntentStatus.ENQUEUED;
               InvestigationIntentStatus.STARTED]) as Hin.
  { rewrite Hs in Hrun. apply list_elem_of_fmap in Hrun as (t & Ht%enum_value_eq & Hin). by subst t. }
  assert (∀ t, t = InvestigationIntentStatus.RETRY ∨ t = InvestigationIntentStatus.DEAD →
    ∀ (k : result IntentRow), (validate_intent_transition s t ;; k) = k) as Hval.
  { intros t Ht k. assert (validate_intent_transition s t = Ok tt) as ->; [|done].
    apply validate_intent_Ok. destruct Ht as [-> | ->], s; first [refute_in Hin|decide_in]. }
  assert (s = InvestigationIntentStatus.STARTED → ∀ t, t = InvestigationIntentStatus.TERMINAL ∨
    t = InvestigationIntentStatus.SKIPPED → ∀ (k : result IntentRow),
    (validate_intent_transition s t ;; k) = k) as Hval'.
  { intros -> t [-> | ->] k; reflexivity. }
  destruct event as [event|]; [destruct (_ && _) eqn:E1; [|destruct (_ && (se_status event ==? _)) eqn:E2]|];
    try destruct (Z.leb_spec (ie_max_attempts ie) (it_attempt r + 1));
    try (apply andb_true_iff in E1 as [?%bool_decide_eq_true _]);
    try (apply andb_true_iff in E2 as [?%bool_decide_eq_true _]);
    (first [rewrite Hval by auto|rewrite Hval' by auto]); (eexists; split; [done|]);
    cbn [row_with it_revision it_broker_task_id];
    (split_and!; [split; [done|]|done|lia|by auto]);
    first [left; by split_and!|right; left; by split|right; right; by left|right; right; by right].
Qed.

Lemma reconcile_one_total dbnow lg r s event :
  lg_ok ie lg → r ∈ lg_intents lg → has_status r s → it_status r ∈ running_statuses →
  (∀ z, z ∈ lg_intents lg → it_intent_id z ≠ it_intent_id r → distinct_tasks r z (it_revision z)) →
  ∃ r' lg1 r1, _reconcile_stale_row ie r s event = Ok r' ∧ put_intent dbnow r r' lg = Ok lg1 ∧
    lg_ok ie lg1 ∧ recovered r r1 ∧ (it_revision r1 ≤ it_revision r + 1)%Z ∧
    ∀ z, z ∈ lg_intents lg1 ↔ z = r1 ∨ z ∈ lg_intents lg ∧ it_intent_id z ≠ it_intent_id r.
Proof.
  intros Hok Hr Hs Hrun Hd. pose proof (ledger_row ie _ _ Hok Hr) as Hro.
  destruct (reconcile_row_total r s event Hro Hs Hrun) as (r' & Hrow & Hrec & Hreq & Hrev & Hbrok).
  destruct (reconciled_write ie r s _ r' Hro Hs Hrow) as (Hw & _ & _).
  destruct (put_fresh ie dbnow r r' lg Hok Hr Hw Hreq) as [lg1 Hput].
  { intros z t Hz Hid Ht. destruct Hbrok as [->|[->| ->]]; [done|by eapply kept_task_fresh|].
    intros [= Heq]. destruct (ro_task ie z (ledger_row ie _ _ Hok Hz) t Ht) as (v & -> & Hv).
    by apply (Hd z Hz Hid v Hv). }
  destruct (put_intent_spec ie _ _ _ _ _ Hok Hr Hw Hput) as (Hok1 & _ & _ & r1 & Hr1 & [_ _ Hin]).
  exists r', lg1, r1. split_and!; [done..| | |exact Hin]; by destruct Hr1 as [->| ->].
Qed.

Lemma distinct_tasks_ext r s s' n m :
  it_intent_id s' = it_intent_id s → (m ≤ n)%Z → distinct_tasks r s n → distinct_tasks r s' m.
Proof. intros Hid Hn Hd v Hv. unfold task_id. rewrite Hid. apply Hd. lia. Qed.

(** The rows of a recovery pass, and the rest of the ledger. *)
Record recoverable (rows : list IntentRow) (lg : Ledger) : Prop := {
  rc_snapshot : snapshot rows (lg_intents lg);
  rc_running : ∀ r, r ∈ rows → it_status r ∈ running_statuses;
  rc_other : ∀ r s, r ∈ rows → s ∈ lg_intents lg → it_intent_id s ≠ it_intent_id r →
    distinct_tasks r s (it_revision s);
  rc_rows : ∀ r s, r ∈ rows → s ∈ rows → it_intent_id s ≠ it_intent_id r →
    distinct_tasks r s (it_revision s + 1)
}.

Lemma recoverable_skip r rows lg : recoverable (r :: rows) lg → recoverable rows lg.
Proof.
  intros [Hs Hr Ho Hro]. split; [by eapply snapshot_skip|..]; intros;
    [apply Hr|apply Ho|apply Hro]; by try right.
Qed.

Lemma recoverable_next r r1 rows lg lg1 :
  recoverable (r :: rows) lg → it_intent_id r1 = it_intent_id r →
  (it_revision r1 ≤ it_revision r + 1)%Z →
  (∀ z, z ∈ lg_intents lg1 ↔ z = r1 ∨ z ∈ lg_intents lg ∧ it_intent_id z ≠ it_intent_id r) →
  recoverable rows lg1.
Proof.
  intros Hrc Hid Hrev Hin. destruct (recoverable_skip _ _ _ Hrc) as [_ Hr' Ho' Hro'].
  destruct Hrc as [Hs Hr Ho Hro]. split; [|done| |done].
  - eapply snapshot_next; [exact Hs|]. intros z Hz Hne. apply Hin. by right.
  - intros x s Hx [->|[Hs' _]]%Hin Hne; [|by apply Ho'].
    apply (distinct_tasks_ext x r r1 (it_revision r + 1)); [done..|].
    apply Hro; [by right|by left|congruence].
Qed.

Lemma reconcile_rows_total now dbnow lg rows :
  lg_ok ie lg → recoverable rows lg →
  ∃ lg' n, reconcile_rows ie now dbnow lg rows = Ok (lg', n) ∧ lg_ok ie lg' ∧
    (∀ z, z ∈ lg_intents lg → it_intent_id z ∉ it_intent_id <$> rows → z ∈ lg_intents lg') ∧
    ∀ r s, r ∈ rows → has_status r s → _is_stale_intent_row ie now r s = true →
      ∃ r', r' ∈ lg_intents lg' ∧ recovered r r'.
Proof.
  revert lg. induction rows as [|r rows IH]; intros lg Hok Hrc.
  { exists lg, 0%nat. split_and!; [done..|]. by intros r s Hr%elem_of_nil. }
  assert (r ∈ lg_intents lg) as Hr by (apply Hrc; by left).
  destruct (ro_status ie r (ledger_row ie _ _ Hok Hr)) as [s Hs].
  cbn [reconcile_rows]. rewrite (proj2 (loaded_status s r) Hs). cbn [mbind result_bind].
  destruct (_is_stale_intent_row ie now r s) eqn:Hstale; cbn [negb].
  - destruct (reconcile_one_total dbnow lg r s (db_events (lg_db lg) !! it_event_id r) Hok Hr Hs)
      as (r' & lg1 & r1 & -> & Hput & Hok1 & [Hid Hrec1] & Hrev & Hin);
      [apply Hrc; by left|intros z Hz; apply (rc_other _ _ Hrc r z); [by left|done]|].
    cbn [mbind result_bind]. rewrite Hput. cbn [mbind result_bind].
    pose proof (recoverable_next r r1 rows lg lg1 Hrc Hid Hrev Hin) as Hrc1.
    destruct (IH lg1 Hok1 Hrc1) as (lg' & n & -> & Hok' & Hkeep & Hrec).
    exists lg', (S n). split_and!; [done..| |].
    + intros z Hz [Hne Hnz]%not_elem_of_cons. apply Hkeep; [apply Hin; by right|done].
    + intros z t [->|Hz]%elem_of_cons Ht Hst; [|by eapply Hrec].
      exists r1. split; [|by split]. apply Hkeep; [apply Hin; by left|]. rewrite Hid.
      by destruct (proj1 (NoDup_cons _ _) (proj1 (rc_snapshot _ _ Hrc))).
  - destruct (IH lg Hok (recoverable_skip _ _ _ Hrc)) as (lg' & n & Hrun & Hok' & Hkeep & Hrec).
    exists lg', n. split_and!; [done..| |].
    + intros z Hz [_ Hnz]%not_elem_of_cons. by apply Hkeep.
    + intros z t [->|Hz]%elem_of_cons Ht Hst; [|by eapply Hrec].
      rewrite (has_status_inj r t s Ht Hs) in Hst. congruence.
Qed.

(** A recovery pass whose limit covers the claimed, published and running intents never fails
    and leaves none of the stale ones behind: each is retried under a new revision with one more
    attempt, or is dead when its attempts are used up, or is settled by the status of its event.
    (The digests of the intents' next task ids are assumed not to collide.) *)
Theorem stale_intents_recovered now dbnow lg locked limit :
  lg_ok ie lg →
  (∀ r s, r ∈ lg_intents lg → s ∈ lg_intents lg → it_intent_id s ≠ it_intent_id r →
     distinct_tasks r s (it_revision s + 1)) →
  (length (lg_intents lg) ≤ limit)%nat →
  ∃ lg' n, reconcile_stale_tx ie now dbnow lg locked limit = Ok (lg', n) ∧ lg_ok ie lg' ∧
    ∀ r s, r ∈ lg_intents lg → has_status r s → it_status r ∈ running_statuses →
      locked (it_intent_id r) = false → _is_stale_intent_row ie now r s = true →
      ∃ r', get_intent lg' (it_intent_id r) = Some r' ∧ recovered r r'.
Proof.
  intros Hok Hd Hlim. unfold reconcile_stale_tx. set (rows := stale_candidates lg locked limit).
  assert (∀ r, r ∈ rows → r ∈ lg_intents lg ∧ it_status r ∈ running_statuses) as Hin.
  { intros r [Hr [Hb _]%andb_true_iff]%elem_of_selected. by apply bool_decide_eq_true in Hb. }
  assert (recoverable rows lg) as Hrc.
  { split; [apply snapshot_selected, Hok|by apply Hin| |].
    - intros r s Hr Hs Hid. eapply (distinct_tasks_ext r s s (it_revision s + 1)); [done|lia|].
      apply Hd; [by apply Hin|done..].
    - intros r s Hr Hs Hid. apply Hd; [by apply Hin|by apply Hin|done]. }
  destruct (reconcile_rows_total now dbnow lg rows Hok Hrc) as (lg' & n & Hrun & Hok' & _ & Hrec).
  exists lg', n. split_and!; [done..|]. intros r s Hr Hs Hst Hl Hstale.
  assert (r ∈ rows) as Hrow.
  { unfold rows, stale_candidates. rewrite take_ge.
    - rewrite merge_sort_Permutation. apply list_elem_of_In, filter_In.
      split; [by apply list_elem_of_In|]. by rewrite Hl, bool_decide_eq_true_2.
    - rewrite merge_sort_Permutation. etrans; [apply List.filter_length_le|done]. }
  destruct (Hrec r s Hrow Hs Hstale) as (r' & Hr' & Hrc'). exists r'. split; [|done].
  destruct Hrc' as [<- _]. by apply (get_intent_elem ie).
Qed.

(** ** Publication *)

(** What a committed publication carries. *)
Lemma commit_target dbnow lg x lg' target :
  _commit_enqueued_publish_target ie dbnow lg x = Ok (lg', Some target) →
  ∃ r event, get_intent lg x = Some r ∧ db_events (lg_db lg) !! it_event_id r = Some event ∧
    has_status r InvestigationIntentStatus.CLAIMED ∧ sibling_blocking lg r = false ∧
    pt_task_id target = task_id ie r (it_revision r) ∧
    pt_include_response_execution target = include_response_of ie lg event r ∧
    pt_resume_from_checkpoint target = resumable r event ∧
    (se_status event = enum_value EventStatus.NEW ∨ resumable r event = true).
Proof.
  unfold _commit_enqueued_publish_target. destruct (get_intent lg x) as [r|]; [|done].
  rewrite bind_Ok. intros (s & Hs%loaded_status & H0). case_bool_decide as Hc; [subst s|done].
  cbn [negb] in H0. destruct (_ !! _) as [event|] eqn:Hev.
  2:{ apply bind_Ok in H0 as (r' & _ & H0). by apply bind_Ok in H0 as (? & _ & ?). }
  destruct (_ && negb _) eqn:Hnew.
  { apply bind_Ok in H0 as (r' & _ & H0). by apply bind_Ok in H0 as (? & _ & ?). }
  destruct (sibling_blocking lg r) eqn:Hb.
  { apply bind_Ok in H0 as (r' & _ & H0). by apply bind_Ok in H0 as (? & _ & ?). }
  apply unit_seq_Ok in H0 as [_ H0]. apply bind_Ok in H0 as (lg1 & _ & [= <- <-]).
  exists r, event. split_and!; try done.
  apply andb_false_iff in Hnew as [Hn|Hn]; apply negb_false_iff in Hn; [left|by right].
  by apply bool_decide_eq_true in Hn.
Qed.

(** An automatic intent is published with the response phase only for a NEW event of sufficient
    severity whose source link is primary and not provisional, under mock source, tool and
    disposition modes, with the full loop available and a cap that is itself an automatic level:
    nothing real is touched without a person. *)
Theorem auto_response_only_mock dbnow lg x r lg' target :
  get_intent lg x = Some r → it_intent_kind r = INTENT_KIND_AUTO_INVESTIGATE →
  _commit_enqueued_publish_target ie dbnow lg x = Ok (lg', Some target) →
  pt_include_response_execution target = true →
  let ps := ie_policies ie in
  ps_auto_response_enabled ps = true ∧ full_loop_available (ps_orchestration_mode ps) = true ∧
  is_mock_source_mode (ps_source_mode ps) = true ∧ is_mock_tool_mode (ps_tool_mode ps) = true ∧
  is_mock_disposition_mode (ps_disposition_mode ps) = true ∧
  max_auto_level ps ∈ AUTO_APPROVABLE_ACTION_LEVELS ∧
  ∃ event, db_events (lg_db lg) !! it_event_id r = Some event ∧
    se_status event = enum_value EventStatus.NEW ∧
    _resolve_response_link_role lg (se_event_id event) = PRIMARY_LINK_ROLE ∧
    ∃ severity, str_lower (se_severity event) = enum_value severity ∧
      (_SEVERITY_RANK (severity_setting (ps_auto_response_min_severity ps) Severity.HIGH)
         ≤ _SEVERITY_RANK severity)%Z.
Proof.
  intros Hg Hkind (r' & event & Hg' & Hev & _ & _ & _ & Hinc & _)%commit_target Htrue ps.
  rewrite Hg in Hg'. injection Hg' as <-. rewrite Hinc in Htrue. unfold include_response_of in Htrue.
  rewrite bool_decide_eq_true_2 in Htrue by done.
  apply auto_response_eligible in Htrue
    as (H1 & H2 & H3 & H4 & H5 & H6 & H7 & _ & H8 & H9).
  split_and!; [done..|]. exists event. by split_and!.
Qed.

(** An automatic intent that is published again after its event left NEW resumes from the
    checkpoint without the response phase, whatever was decided before: the response policy is asked
    again and accepts NEW events only. *)
Lemma resumed_auto_intent_drops_response dbnow lg x r event lg' target :
  get_intent lg x = Some r → it_intent_kind r = INTENT_KIND_AUTO_INVESTIGATE →
  db_events (lg_db lg) !! it_event_id r = Some event → se_status event ≠ enum_value EventStatus.NEW →
  _commit_enqueued_publish_target ie dbnow lg x = Ok (lg', Some target) →
  pt_resume_from_checkpoint target = true ∧ pt_include_response_execution target = false.
Proof.
  intros Hg Hkind Hev Hst (r' & event' & Hg' & Hev' & _ & _ & _ & Hinc & Hres & Hnew)%commit_target.
  rewrite Hg in Hg'. injection Hg' as <-. rewrite Hev in Hev'. injection Hev' as <-.
  destruct Hnew as [|Hnew]; [done|]. split; [congruence|]. rewrite Hinc. unfold include_response_of.
  rewrite bool_decide_eq_true_2 by done. apply not_true_is_false. intros Hel.
  by apply auto_response_eligible in Hel as (_ & _ & _ & _ & _ & _ & Hs & _).
Qed.

(** The transactions of a dispatch. *)
Definition is_dispatch (c : icall) : bool :=
  match c with
  | IClaimBatch _ _ _ _ | IClaim _ _ _ | ICommit _ _ | IRevertTransient _ _ _ _
  | IRevertUnexpected _ _ _ _ | IOther _ _ => true
  | _ => false
  end.

Definition dispatches (lg lg' : Ledger) : Prop :=
  ∃ calls, forallb is_dispatch calls = true ∧ lg' = irun ie lg calls.

Lemma dispatches_refl lg : dispatches lg lg.
Proof. by exists []. Qed.

Lemma dispatches_trans lg1 lg2 lg3 : dispatches lg1 lg2 → dispatches lg2 lg3 → dispatches lg1 lg3.
Proof.
  intros (c1 & H1 & ->) (c2 & H2 & ->). exists (c1 ++ c2)%list. split.
  - by rewrite forallb_app, H1, H2.
  - unfold irun. by rewrite foldl_app.
Qed.

Lemma dispatches_one lg c : is_dispatch c = true → dispatches lg (icommit ie lg c).
Proof. intros Hc. exists [c]. cbn [forallb]. by rewrite Hc. Qed.

Section store.
Context {St : Type} `{ContextStore St}.

Lemma set_dispatch_flag_dispatches (w : IntentWorld) e flag r w' :
  set_dispatch_flag ie w e flag = (r, w') →
  dispatches (iw_ledger w) (iw_ledger w') ∧
  lg_intents (iw_ledger w') = lg_intents (iw_ledger w) ∧
  lg_links (iw_ledger w') = lg_links (iw_ledger w).
Proof.
  unfold set_dispatch_flag. destruct (negb _).
  { intros [= <- <-]. split; [apply dispatches_refl|done]. }
  destruct (set_flag _ _ _ _ _) as [r0 w0]. intros [= <- <-]. split; [|done].
  by apply (dispatches_one (iw_ledger w) (IOther (w_db w0) (lg_links (iw_ledger w)))).
Qed.

(** The revert reads and writes the intents only. *)
Lemma revert_transient_frame dbnow lg db x failure conserve :
  revert_transient_tx ie dbnow (MkLedger db (lg_intents lg) (lg_links lg)) x failure conserve =
  (out ← revert_transient_tx ie dbnow lg x failure conserve;
   Ok (MkLedger db (lg_intents out.1) (lg_links out.1), out.2)).
Proof.
  unfold revert_transient_tx. change (get_intent (MkLedger db _ _) x) with (get_intent lg x).
  destruct (get_intent lg x) as [r|]; [|done].
  destruct (enum_of_value_or_raise _); [|done]. cbn [mbind result_bind].
  destruct (_ !=? _); [done|]. destruct (transient_failure_row _ _ _ _); [|done].
  cbn [mbind result_bind]. unfold put_intent. destruct (_ ==? _); [done|]. cbn [lg_intents].
  by destruct (existsb _ _).
Qed.

Lemma publish_failure_dispatches dbnow (w : IntentWorld) x failure conserve r w' :
  _revert_enqueued_after_publish_failure ie dbnow w x failure conserve = (r, w') →
  dispatches (iw_ledger w) (iw_ledger w').
Proof.
  unfold _revert_enqueued_after_publish_failure.
  destruct (revert_transient_tx _ _ _ _ _ _) as [[lg [e|]]|e] eqn:Htx.
  - destruct (set_dispatch_flag _ _ _ _) as [[u|e'] w1] eqn:Hf;
      apply set_dispatch_flag_dispatches in Hf as (Hd & Hi & Hl); intros [= <- <-]; [|done].
    eapply dispatches_trans; [exact Hd|]. cbn [iw_ledger].
    assert (icommit ie (iw_ledger w1) (IRevertTransient dbnow x failure conserve) =
            MkLedger (lg_db (iw_ledger w1)) (lg_intents lg) (lg_links lg)) as <-;
      [|by apply dispatches_one].
    cbn [icommit]. destruct (iw_ledger w1) as [db l k]. cbn in Hi, Hl. subst l k.
    by rewrite revert_transient_frame, Htx.
  - intros [= <- <-]. assert (lg = icommit ie (iw_ledger w) (IRevertTransient dbnow x failure conserve))
      as -> by (cbn [icommit]; by rewrite Htx). by apply dispatches_one.
  - intros [= <- <-]. apply dispatches_refl.
Qed.

Lemma after_failed_dispatches (w : IntentWorld) target answer revert raised r w' :
  (∀ w1 r1 w2, revert w1 = (r1, w2) → dispatches (iw_ledger w1) (iw_ledger w2)) →
  after_failed_publish ie w target answer revert raised = (r, w') →
  dispatches (iw_ledger w) (iw_ledger w').
Proof.
  intros Hrev. unfold after_failed_publish. destruct (pa_cleanup answer);
    [|intros [= <- <-]; apply dispatches_refl].
  destruct (revert w) as [[u'|e] w1] eqn:Hr; apply Hrev in Hr; [|by intros [= <- <-]].
  destruct (if pt_include_response_execution target then _ else _) as [r2 w2] eqn:Hf.
  assert (dispatches (iw_ledger w1) (iw_ledger w2)) as Hd.
  { destruct (pt_include_response_execution target);
      [by apply set_dispatch_flag_dispatches in Hf as [? _]|].
    injection Hf as <- <-. apply dispatches_refl. }
  intros Heq. assert (w' = w2) as -> by (by destruct r2, raised; injection Heq).
  by eapply dispatches_trans.
Qed.

Lemma publish_dispatches dbnow (w : IntentWorld) x strict conserve answer r w' :
  _publish_claimed_intent ie dbnow w x strict conserve answer = (r, w') →
  dispatches (iw_ledger w) (iw_ledger w').
Proof.
  unfold _publish_claimed_intent.
  destruct (_commit_enqueued_publish_target _ _ _ _) as [[lg t]|e] eqn:Htx;
    [|intros [= <- <-]; apply dispatches_refl].
  assert (dispatches (iw_ledger w) lg) as Hd.
  { assert (lg = icommit ie (iw_ledger w) (ICommit dbnow x)) as ->
      by (cbn [icommit]; by rewrite Htx). by apply dispatches_one. }
  destruct t as [target|]; [|by intros [= <- <-]].
  intros Hp. eapply dispatches_trans; [exact Hd|]. change lg with (iw_ledger (MkIntentWorld lg (iw_store w))).
  destruct (pa_answer answer) as [|e|name|e]; [injection Hp as <- <-; apply dispatches_refl|..];
    (eapply after_failed_dispatches; [|exact Hp]); intros w1 r1 w2; [apply publish_failure_dispatches..|].
  cbv beta.
  destruct (_revert_enqueued_after_unexpected_failure ie dbnow (iw_ledger w1) (pt_intent_id target)
    (_safe_dispatch_error e) conserve) as [lg2|e2] eqn:Hrev;
    intros [= <- <-]; [|apply dispatches_refl].
  assert (lg2 = icommit ie (iw_ledger w1)
    (IRevertUnexpected dbnow (pt_intent_id target) (_safe_dispatch_error e) conserve)) as ->
    by (cbn [icommit]; by rewrite Hrev). by apply dispatches_one.
Qed.

Lemma publish_all_dispatches dbnow (w : IntentWorld) ids answers r w' :
  publish_all ie dbnow w ids answers = (r, w') → dispatches (iw_ledger w) (iw_ledger w').
Proof.
  revert w r w'. induction ids as [|x ids IH]; intros w r w'; cbn [publish_all].
  { intros [= <- <-]. apply dispatches_refl. }
  destruct (_publish_claimed_intent _ _ _ _ _ _ _) as [[b|e] w1] eqn:Hp;
    apply publish_dispatches in Hp; [|by intros [= <- <-]].
  destruct (publish_all ie dbnow w1 ids answers) as [r2 w2] eqn:Hr. intros [= <- <-].
  eapply dispatches_trans; [exact Hp|by eapply IH].
Qed.

Lemma publish_strict_dispatches dbnow (w : IntentWorld) ids answers r w' :
  publish_strict ie dbnow w ids answers = (r, w') → dispatches (iw_ledger w) (iw_ledger w').
Proof.
  revert w r w'. induction ids as [|x ids IH]; intros w r w'; cbn [publish_strict].
  { intros [= <- <-]. apply dispatches_refl. }
  destruct (_publish_claimed_intent _ _ _ _ _ _ _) as [[b|e] w1] eqn:Hp; apply publish_dispatches in Hp;
    [|destruct (err_class e ==? _); [|by intros [= <- <-]]].
  all: destruct (publish_strict ie dbnow w1 ids answers) as [r2 w2] eqn:Hr; intros [= <- <-];
    (eapply dispatches_trans; [exact Hp|by eapply IH]).
Qed.

Lemma claim_and_publish_intent_dispatches now dbnow (w : IntentWorld) x conserve answer r w' :
  claim_and_publish_intent ie now dbnow w x conserve answer = (r, w') →
  dispatches (iw_ledger w) (iw_ledger w').
Proof.
  unfold claim_and_publish_intent.
  destruct (_claim_intent _ _ _ _ _) as [[lg o]|e] eqn:Hc; [|intros [= <- <-]; apply dispatches_refl].
  assert (dispatches (iw_ledger w) lg) as Hd.
  { assert (lg = icommit ie (iw_ledger w) (IClaim now dbnow x)) as ->
      by (cbn [icommit]; by rewrite Hc). by apply dispatches_one. }
  destruct o as [id|]; [|by intros [= <- <-]].
  intros Hp%publish_dispatches. by eapply dispatches_trans.
Qed.

Lemma claim_batch_dispatches now dbnow lg locked limit lg' ids :
  claim_intent_batch ie now dbnow lg locked limit = Ok (lg', ids) → dispatches lg lg'.
Proof.
  intros Hc. assert (lg' = icommit ie lg (IClaimBatch now dbnow locked limit)) as ->
    by (cbn [icommit]; by rewrite Hc). by apply dispatches_one.
Qed.

Lemma fallback_dispatches now dbnow (w : IntentWorld) e x trigger answer r w' :
  _run_in_process_dispatch_fallback ie now dbnow w e x trigger answer = (r, w') →
  dispatches (iw_ledger w) (iw_ledger w').
Proof.
  unfold _run_in_process_dispatch_fallback.
  destruct (negb _); [intros [= <- <-]; apply dispatches_refl|].
  destruct e as [e|], x as [x|]; try (intros [= <- <-]; apply dispatches_refl).
  destruct (_is_safe_for_in_process_dispatch_fallback _ _ _) as [[|]|err];
    try (intros [= <- <-]; apply dispatches_refl).
  destruct (claim_and_publish_intent _ _ _ _ _ _ _) as [[b|err] w1] eqn:Hc; intros [= <- <-];
    by eapply claim_and_publish_intent_dispatches.
Qed.

(** Whatever the broker and the metadata store answer, and however a dispatch ends, the ledger
    it leaves is the result of a sequence of claims, commits, reverts and writes to other tables:
    a failure in between leaves committed transactions and no partial one. *)
Theorem dispatch_is_transactions now dbnow (w : IntentWorld) locked limit answers e x trigger enqueued
    answer :
  dispatches (iw_ledger w) (iw_ledger (claim_and_publish_batch ie now dbnow w locked limit answers).2) ∧
  dispatches (iw_ledger w) (iw_ledger (dispatch_sync_batch ie now dbnow w locked limit answers).2) ∧
  dispatches (iw_ledger w)
    (iw_ledger (schedule_dispatch_async ie now dbnow w e x trigger enqueued answer)).
Proof.
  split_and!.
  - unfold claim_and_publish_batch. destruct (claim_intent_batch _ _ _ _ _ _) as [[lg ids]|err] eqn:Hc;
      [|apply dispatches_refl]. apply claim_batch_dispatches in Hc.
    destruct (publish_all _ _ _ _ _) as [r w'] eqn:Hp. apply publish_all_dispatches in Hp.
    by eapply dispatches_trans.
  - unfold dispatch_sync_batch. destruct (claim_intent_batch _ _ _ _ _ _) as [[lg ids]|err] eqn:Hc;
      [|apply dispatches_refl]. apply claim_batch_dispatches in Hc.
    destruct (publish_strict _ _ _ _ _) as [r w'] eqn:Hp. apply publish_strict_dispatches in Hp.
    by eapply dispatches_trans.
  - unfold schedule_dispatch_async. destruct (_ || _); [apply dispatches_refl|].
    set (w1 := match e with Some e => _ | None => w end).
    assert (dispatches (iw_ledger w) (iw_ledger w1)) as H1.
    { subst w1. destruct e as [e|]; [|apply dispatches_refl].
      destruct (set_dispatch_flag _ _ _ _) as [r w'] eqn:Hf. by apply set_dispatch_flag_dispatches in Hf as [? _]. }
    destruct (_run_in_process_dispatch_fallback _ _ _ w1 _ _ _ _) as [r w'] eqn:Hf.
    apply fallback_dispatches in Hf. by eapply dispatches_trans.
Qed.
End store.
End dispatch.
