(* ===== verification/Scenarios.v ===== *)
(** * Concrete executions

    One REQUIRED threat event from REPORTING to CLOSED over the journal store, and smaller
    inputs, at which the general theorems are applied: their hypotheses hold there, by
    evaluation. *)

From stdpp Require Import prelude strings gmap pretty sorting.
From S2P Require Import Prelude Enums Errors Tables Convergence Workflow Lifecycles WorkflowFacts.
From S2P Require Import Db Verification CloseGate SideEffects Reconcile.
From S2P Require Import Reconcile ContextJournal ContextStore.
From S2P Require Import DegradedFlags StateMachine StateMachineFacts ServiceRuns ProjectionFacts.

#[local] Open Scope string_scope.

(** ** A database *)

Definition demo_row (status : EventStatus) : SecurityEventRow := {|
  se_event_id := "evt-1"; se_event_type := enum_value EventType.HOST_COMPROMISE;
  se_source_type := Some "mock_xdr"; se_created_at := 10;
  se_status := enum_value status; se_severity := enum_value Severity.HIGH;
  se_final_verdict := enum_value FinalVerdict.CONFIRMED_THREAT;
  se_creation_source_ref := VDict [("product", VStr "xdr")];
  se_source_reference_snapshots := []; se_disposition_source_ref := None;
  se_disposition_policy := enum_value DispositionPolicy.REQUIRED; se_updated_at := 100;
  se_closed_at := None; se_replan_count := 0; se_degraded_flags := []; se_escalated := false;
  se_external_unsynced := false; se_event_context_snapshot := None; se_row_version := 7
|}.

(** The deferred terminal status update, approved and executed. *)
Definition demo_terminal_action : ActionRow := {|
  act_action_id := "act-terminal"; act_event_id := "evt-1"; act_plan_revision := 1;
  act_action_category := enum_value ActionCategory.RESPONSE;
  act_tool_name := TERMINAL_DISPOSITION_TOOL;
  act_execution_phase := enum_value ActionExecutionPhase.POST_VERIFY;
  act_action_fingerprint := "fp-terminal"; act_action_level := enum_value ActionLevel.L1;
  act_activation_condition := Some "after_effect_resolution"; act_impact_assessment := None;
  act_playbook_ref := None; act_action_template_snapshot := None;
  act_approved_terminal_dispositions := [VStr (enum_value SourceDisposition.CONTAINED)];
  act_status := enum_value ActionStatus.SUCCESS; act_execution_owner := None;
  act_execution_job_id := None; act_writeback_required := true; act_writeback_applicable := true;
  act_writeback_readiness := enum_value WritebackReadiness.READY;
  act_writeback_status := Some (enum_value WritebackStatus.CONFIRMED);
  act_superseded_by_revision := None; act_executed_at := Some 90%Z; act_updated_at := 95
|}.

Definition demo_outbox : OutboxRow := {|
  ob_outbox_id := "ob-1"; ob_writeback_id := "wb-1"; ob_disposition_id := "disp-1";
  ob_action_id := "act-terminal"; ob_event_id := "evt-1"; ob_closure_cycle := 1;
  ob_source_record_id := "src-1"; ob_source_locator_hash := "loc"; ob_source_sequence := 1;
  ob_intent_kind := enum_value DispositionIntentKind.EVENT_STATUS_UPDATE;
  ob_logical_slot := "default"; ob_supersedes_disposition_id := None;
  ob_superseded_by_disposition_id := None; ob_idempotency_key := "idem-1";
  ob_command_payload :=
    [("intent_kind", VStr (enum_value DispositionIntentKind.EVENT_STATUS_UPDATE));
     ("operation_params",
       VDict [("target_disposition", VStr (enum_value SourceDisposition.CONTAINED))])];
  ob_command_payload_sha256 := "sha-1";
  ob_delivery_status := enum_value OutboxDeliveryStatus.DELIVERED;
  ob_latest_writeback_status := Some (enum_value WritebackStatus.CONFIRMED);
  ob_attempt := 0; ob_next_retry_at := None; ob_locked_by := None; ob_locked_at := None;
  ob_lease_expires_at := None; ob_last_error_code := None; ob_last_error_detail := None;
  ob_created_at := 91; ob_updated_at := 94; ob_delivered_at := Some 94%Z
|}.

Definition demo_receipt : ReceiptRow := {|
  rc_writeback_id := "wb-1"; rc_sequence := 1; rc_disposition_id := "disp-1";
  rc_action_id := "act-terminal"; rc_source_record_id := "src-1";
  rc_status := enum_value WritebackStatus.CONFIRMED;
  rc_confirmation_evidence := Some (enum_value ConfirmationEvidence.READBACK_VERIFIED);
  rc_provider_record_id := None; rc_provider_job_id := None; rc_provider_code := None;
  rc_provider_message := None; rc_observed_at := Some 93%Z; rc_submitted_at := Some 92%Z;
  rc_confirmed_at := Some 93%Z; rc_target_results := []; rc_raw_result := [];
  rc_truncated := false; rc_simulated := false
|}.

Definition demo_db (status : EventStatus) : Db := {|
  db_events := {[ "evt-1" := demo_row status ]}; db_actions := [demo_terminal_action];
  db_jobs := []; db_outboxes := [demo_outbox]; db_receipts := [demo_receipt];
  db_target_results := []; db_source_sequences := {[ "src-1" := 1%Z ]};
  db_reports := [{| rp_report_id := "rep-1"; rp_event_id := "evt-1" |}]; db_approvals := [];
  db_audit := []; db_journal := []; db_versions := ∅; db_next_audit_id := 1
|}.

(** ** An environment *)

(** The two fields of a command, read from its payload. *)
Definition demo_parse_command (payload : list (string * pyval)) : option ParsedCommand :=
  match dict_get payload "intent_kind", dict_get payload "operation_params" with
  | Some (VStr kind), Some (VDict params) =>
      intent ← enum_of_value kind;
      Some {| pc_intent_kind := intent;
              pc_set_disposition :=
                match dict_get params "target_disposition" with
                | Some (VStr d) => enum_of_value d
                | _ => None
                end |}
  | _, _ => None
  end.

Definition demo_env : Env := {|
  env_has_audit := true; env_has_degraded := true; env_disposition_mode := "live_xdr";
  env_reconcile := {| rec_enabled := true; rec_max_attempts := 3; rec_lease_seconds := 300 |};
  env_locked := λ _, false; env_redact := λ s, s; env_isoformat := λ t, pretty t;
  env_parse_verification := λ _, None; env_parse_command := demo_parse_command;
  env_source_ref_valid := λ v, match v with VDict _ => true | _ => false end;
  env_locator_valid := λ v, match v with VDict _ => true | _ => false end;
  env_event_summary := λ row, Ok (VDict [("status", VStr (se_status row))])
|}.

Definition demo_clock : Clock :=
  {| ck_reconcile := 200; ck_updated := 201; ck_closed := 202; ck_audit := 203;
     ck_history := 204 |}.

Definition demo_assemble (db : Db) (e : string) : result pyval := Ok (VDict [("id", VStr e)]).

Definition demo_world (status : EventStatus) : World Redis :=
  MkWorld (demo_db status) {| redis_answers := []; db_clock := 200 |}.

#[local] Instance demo_store : ContextStore Redis := JournalStore demo_assemble.

Definition close_demo : result SecurityEvent * World Redis :=
  transition demo_env demo_clock (demo_world EventStatus.REPORTING) "evt-1" EventStatus.CLOSED
    None None None.

Lemma close_demo_ok : is_ok close_demo.1 = true.
Proof. by vm_compute. Qed.

(** ** Closing *)

Lemma closed_only_with_evidence_witness :
  ∃ db row, reconcile_phase demo_env demo_clock (demo_db EventStatus.REPORTING) "evt-1"
              EventStatus.CLOSED = Ok db ∧
    db_events db !! "evt-1" = Some row ∧ closure_evidence demo_env db "evt-1" row.
Proof.
  pose proof close_demo_ok as Hok. unfold close_demo in Hok.
  destruct (transition _ _ _ _ _ _ _ _) as [[ev|er] w'] eqn:Ht; [|done].
  exact (closed_only_with_evidence demo_env demo_clock _ _ _ _ _ ev w' Ht).
Defined.

Lemma close_independent_of_caller_witness :
  transition_tx demo_env demo_clock (demo_db EventStatus.REPORTING) "evt-1" EventStatus.CLOSED
    (Some TransitionContext_default) "op" None =
  transition_tx demo_env demo_clock (demo_db EventStatus.REPORTING) "evt-1" EventStatus.CLOSED
    None "op" None.
Proof.
  apply (close_independent_of_caller _ _ _ _ (demo_row EventStatus.REPORTING));
    [by vm_compute|by vm_compute].
Defined.

Lemma demo_keyed status : keyed (demo_db status).
Proof. split; apply (bool_decide_unpack _); by vm_compute. Qed.

(** ** Runs of the service *)

(** A close attempt, a repair and a force-close by an administrator. *)
Definition demo_calls : list call :=
  [CallRepair 150 "evt-1" 3;
   CallForceClose demo_clock "evt-1" {| pr_subject := "alice"; pr_roles := ["admin"] |} "drill";
   CallTransition demo_clock "evt-1" EventStatus.CLOSED None None None].

(** The log as the creation of the event leaves it. *)
Definition created_world (status : EventStatus) : World Redis :=
  on_db (λ db, db_with_audit
    [{| al_id := 1; al_event_id := "evt-1"; al_from_status := None; al_to_status := Some "new";
        al_operator := Some "EventService"; al_reason := Some "event_created";
        al_created_at := 90 |}] 2 db) (demo_world status).

Lemma created_keyed status : keyed (w_db (created_world status)).
Proof. destruct (demo_keyed status). by split. Qed.

(** The calls, with a row of another service after the first. *)
Definition demo_run : list run_step :=
  Noted {| al_id := 2; al_event_id := "evt-1"; al_from_status := Some "new";
           al_to_status := Some "new"; al_operator := Some "EventService";
           al_reason := Some "source_linked"; al_created_at := 95 |} :: (Served <$> demo_calls).

Lemma audit_log_is_a_path_witness :
  ∃ path, history "evt-1" EventStatus.REPORTING 0 [(None, Some "new")] [(Some "new", Some "new")]
    path (w_db (exec_run demo_env (created_world EventStatus.REPORTING) demo_run)).
Proof.
  apply (audit_log_is_a_path demo_env (created_world EventStatus.REPORTING) demo_run "evt-1"
           (demo_row EventStatus.REPORTING) EventStatus.REPORTING);
    [done|apply created_keyed|by vm_compute|done].
Defined.

Lemma lifecycle_bounded_witness :
  ∃ path added,
    event_trace (w_db (exec_run demo_env (created_world EventStatus.NEW) demo_run)) "evt-1"
      = ([(None, Some "new")] ++ added)%list ∧
    interleaved [(Some "new", Some "new")] (move_text <$> moves EventStatus.NEW path) added ∧
    (length path ≤ 37 + 2 * report_failures (moves EventStatus.NEW path))%nat.
Proof.
  apply (lifecycle_bounded demo_env (created_world EventStatus.NEW) demo_run "evt-1"
           (demo_row EventStatus.NEW)); [done|apply created_keyed|by vm_compute|done|done].
Defined.

Lemma closed_is_final_witness :
  ∃ row', db_events (w_db (exec_calls demo_env (demo_world EventStatus.CLOSED) demo_calls))
            !! "evt-1" = Some row' ∧ row_core row' = row_core (demo_row EventStatus.CLOSED).
Proof.
  apply (closed_is_final demo_env (demo_world EventStatus.CLOSED) demo_calls "evt-1");
    [done|apply demo_keyed|by vm_compute|done].
Defined.

Lemma unsynced_only_by_admin_witness :
  unsynced (demo_db EventStatus.REPORTING) "evt-1" = true ∨
  ∃ c, c ∈ demo_calls ∧ admin_force_close "evt-1" c.
Proof.
  apply (unsynced_only_by_admin demo_env (demo_world EventStatus.REPORTING) demo_calls "evt-1");
    [done|apply demo_keyed|by vm_compute].
Defined.

(** ** Projection *)

(** A world whose event carries the marker of projection audit:12. *)
Definition marked_world : World Redis :=
  (set_flag (demo_world EventStatus.REPORTING) "evt-1" STATE_TRANSITION_PROJECTION_DEGRADED_FLAG
     (VStr (_projection_degraded_value [failure "summary" raised None] ("audit:1" +++ "2")))
     "StateMachineService").2.

Lemma stale_repair_clears_newer_marker_witness :
  _clear_projection_degraded demo_env marked_world "evt-1" "audit:1" =
  match set_flag marked_world "evt-1" STATE_TRANSITION_PROJECTION_DEGRADED_FLAG (VBool false)
          "StateMachineService" with
  | (Err er, w') => (Some (failure "degraded_flag" raised (Some er)), w')
  | (Ok _, w') => (None, w')
  end.
Proof.
  apply (stale_repair_clears_newer_marker demo_env marked_world "evt-1"
           [failure "summary" raised None] "audit:1" "2");
    [done|apply (bool_decide_unpack _); by vm_compute|by vm_compute].
Defined.

Lemma closed_event_never_repaired_witness :
  match (repair_post_commit_projection demo_env 300 (demo_world EventStatus.CLOSED) "evt-1" 3).1 with
  | Ok o => degraded o = true
  | Err _ => False
  end.
Proof.
  assert (is_ok (repair_post_commit_projection demo_env 300 (demo_world EventStatus.CLOSED)
            "evt-1" 3).1 = true) as Hok by (by vm_compute).
  destruct (repair_post_commit_projection _ _ _ _ _).1 as [o|] eqn:Hr; [|done].
  apply (closed_event_never_repaired demo_env 300 (demo_world EventStatus.CLOSED) "evt-1" 3
           (demo_row EventStatus.CLOSED) o); [by vm_compute|done|exact Hr].
Defined.

(** ** The resolver *)

Definition demo_verification : VerificationResult := {|
  vr_results := [{| var_action_id := "act-1"; var_effect_status := EffectStatus.VERIFIED;
                    var_writeback_required := false;
                    var_writeback_readiness := WritebackReadiness.NOT_REQUIRED;
                    var_writeback_status := None; var_writeback_ids := [];
                    var_verification_action_id := None; var_detail := None;
                    var_verification_action_dirty := false; var_verification_phase := None;
                    var_confirmation_evidence := None |}];
  vr_overall_status := VerificationOverallStatus.SUCCESS; vr_failed_actions := [];
  vr_failed_writebacks := []; vr_recoverable_writeback_ids := [];
  vr_pending_writeback_action_ids := []; vr_blocked_writebacks := [];
  vr_need_action_replan := false; vr_need_writeback_recovery := false;
  vr_need_manual_resolution := false; vr_verification_phase := VerificationPhase.EFFECT;
  vr_wm_persisted := true; vr_publish_failures := []
|}.

Definition demo_resolve : ResolveArgs := {|
  ra_final_verdict := FinalVerdict.CONFIRMED_THREAT; ra_verification := Some demo_verification;
  ra_approved_terminal_dispositions :=
    approved_terminal_for_context false (VerdictEnum FinalVerdict.CONFIRMED_THREAT);
  ra_disposition_only := false; ra_disposition_policy := DispositionPolicy.REQUIRED;
  ra_writeback_readiness := WritebackReadiness.READY; ra_event_disposition_supported := true
|}.

Lemma resolver_sound_witness : resolution demo_resolve SourceDisposition.CONTAINED.
Proof. apply (resolver_sound demo_resolve). by vm_compute. Defined.

Lemma resolver_picks_gate_disposition_witness :
  head (approved_terminal_for_context false (VerdictEnum FinalVerdict.CONFIRMED_THREAT))
    = Some SourceDisposition.CONTAINED ∧
  SourceDisposition.CONTAINED ∈ TERMINAL_SOURCE_DISPOSITIONS.
Proof. apply (resolver_picks_gate_disposition demo_resolve); [done|by vm_compute]. Defined.

(** ** The writeback gate and the jobs *)

Lemma writeback_gate_refines_rows_witness :
  match build_closed_gate_actions (demo_db EventStatus.REPORTING) "evt-1" (Some 1%Z) with
  | Ok views => check_required_writeback_close_gate views = None ↔
                required_rows_confirmed (demo_db EventStatus.REPORTING) "evt-1" 1
  | Err _ => False
  end.
Proof.
  assert (is_ok (build_closed_gate_actions (demo_db EventStatus.REPORTING) "evt-1" (Some 1%Z))
          = true) as Hok by (by vm_compute).
  destruct (build_closed_gate_actions _ _ _) as [views|] eqn:Hb; [|done].
  apply (writeback_gate_refines_rows _ _ _ views Hb).
Defined.

(** A running job whose lease ran out. *)
Definition demo_job (status : string) : JobRow := {|
  job_job_id := "job-" +++ status; job_event_id := "evt-1"; job_action_id := "act-block";
  job_provider_name := "mock_xdr"; job_idempotency_key := "idem-job"; job_provider_job_id := None;
  job_status := status; job_claimed_by := Some "worker-1"; job_lease_expires_at := Some 50%Z;
  job_poll_after_ms := None; job_attempt := 1; job_provider_code := None;
  job_provider_message := None; job_raw_result := []; job_updated_at := 40;
  job_started_at := None; job_finished_at := None
|}.

Definition running_job : JobRow := demo_job (enum_value ExecutionJobStatus.RUNNING).

Lemma active_job_detected_witness :
  is_Some (_action_has_active_job "act-block" (_build_jobs_by_action [running_job])) ↔
  ∃ j, j ∈ [running_job] ∧ job_action_id j = "act-block" ∧ active_job j.
Proof. apply active_job_detected. apply (bool_decide_unpack _). by vm_compute. Defined.

Lemma unreadable_job_hides_active_witness :
  _action_has_active_job "act-block"
    (_build_jobs_by_action [demo_job "corrupt"; running_job]) = None.
Proof. apply (unreadable_job_hides_active (demo_job "corrupt")). by vm_compute. Defined.

(** ** Reconciliation *)

Definition executing_action : ActionRow := {|
  act_action_id := "act-block"; act_event_id := "evt-1"; act_plan_revision := 1;
  act_action_category := enum_value ActionCategory.RESPONSE; act_tool_name := "block_ip";
  act_execution_phase := enum_value ActionExecutionPhase.IMMEDIATE;
  act_action_fingerprint := "fp-block"; act_action_level := enum_value ActionLevel.L2;
  act_activation_condition := None; act_impact_assessment := None;
  act_playbook_ref := None; act_action_template_snapshot := None;
  act_approved_terminal_dispositions := [];
  act_status := enum_value ActionStatus.EXECUTING; act_execution_owner := Some "worker-1";
  act_execution_job_id := Some "job-running"; act_writeback_required := false;
  act_writeback_applicable := false;
  act_writeback_readiness := enum_value WritebackReadiness.NOT_REQUIRED;
  act_writeback_status := None; act_superseded_by_revision := None; act_executed_at := None;
  act_updated_at := 40
|}.

Definition stale_db : Db :=
  db_with_executions [executing_action] [running_job] (demo_db EventStatus.EXECUTING_RESPONSE).

Definition demo_settings : ReconcileSettings := env_reconcile demo_env.

Lemma stale_db_keyed : keyed stale_db.
Proof. split; apply (bool_decide_unpack _); by vm_compute. Qed.

Lemma reconcile_safe_witness :
  match reconcile_stale_executions_for_event demo_settings (λ _, false) 1000 stale_db
          (Some "evt-1") 10 false with
  | Ok (db', n) => reconciled 1000 3 stale_db db' ∧ (0 ≤ n ≤ 20)%Z
  | Err _ => False
  end.
Proof.
  assert (is_ok (reconcile_stale_executions_for_event demo_settings (λ _, false) 1000 stale_db
            (Some "evt-1") 10 false) = true) as Hok by (by vm_compute).
  destruct (reconcile_stale_executions_for_event _ _ _ _ _ _ _) as [[db' n]|] eqn:Hr; [|done].
  exact (reconcile_safe _ _ _ _ _ _ _ _ _ stale_db_keyed Hr).
Defined.

Lemma reconcile_before_close_total_witness :
  ∃ db' n, reconcile_stale_executions_before_close demo_settings (λ _, false) 1000 stale_db
             "evt-1" 10 = Ok (db', n).
Proof.
  apply reconcile_before_close_total; [apply stale_db_keyed|]. split.
  - repeat constructor; by eexists.
  - repeat constructor; by eexists.
Defined.

(** ** The context journal *)

Lemma demo_journal_wf status : journal_wf (demo_db status).
Proof. intros e f. by exists 0%nat. Qed.

Lemma set_then_read_witness :
  ∃ db', context_set 200 (demo_db EventStatus.TRIAGING) "evt-1" "storyline" (VStr "p1") = Ok (db', 1%Z) ∧
    journal_wf db' ∧ get_versioned_field db' "evt-1" "storyline" = Ok (VStr "p1", 1%Z) ∧
    ∀ e' f', ("evt-1", "storyline") ≠ (e', f') →
      latest_journal_value db' e' f' = latest_journal_value (demo_db EventStatus.TRIAGING) e' f'.
Proof.
  apply (set_then_read 200 (demo_db EventStatus.TRIAGING) "evt-1" "storyline" (VStr "p1"));
    [apply demo_journal_wf|apply (bool_decide_unpack _); by vm_compute|done|by intros [? ?]].
Defined.

Lemma cas_no_lost_update_witness :
  let db := demo_db EventStatus.TRIAGING in
  (is_ok (compare_and_set 200 db "evt-1" "storyline" 0 (VStr "p1")) = true) ∧
  (∀ db1, compare_and_set 200 db "evt-1" "storyline" 0 (VStr "p1") = Ok (db1, true) ↔
     0%Z = current_version db "evt-1" "storyline" ∧ db1 = write_field db "evt-1" "storyline" (VStr "p1")) ∧
  (∀ db1, compare_and_set 200 db "evt-1" "storyline" 0 (VStr "p1") = Ok (db1, true) →
     journal_wf db1 ∧ compare_and_set 201 db1 "evt-1" "storyline" 0 (VStr "p2") = Ok (db1, false)).
Proof.
  apply cas_no_lost_update;
    [apply demo_journal_wf|apply (bool_decide_unpack _); by vm_compute|done].
Defined.

Lemma completion_marker_monotonic_witness :
  match context_set 200 (demo_db EventStatus.TRIAGING) "evt-1" "analysis_only_complete"
          (VBool true) with
  | Ok (db', _) => marker_true db' "evt-1" ∧ journal_wf db'
  | Err _ => False
  end.
Proof.
  assert (is_ok (context_set 200 (demo_db EventStatus.TRIAGING) "evt-1" "analysis_only_complete"
            (VBool true)) = true) as Hok by (by vm_compute).
  destruct (context_set _ _ _ _ _) as [[db' ver]|] eqn:Hs; [|done].
  apply (completion_marker_monotonic 200 _ _ true db' ver (demo_journal_wf EventStatus.TRIAGING));
    [by right|exact Hs].
Defined.

Lemma flag_list_is_a_map_witness :
  flag_value (apply_flag_to_list ["a=1"; "b"] "a" (VStr "2")) "a" = flag_text (VStr "2") ∧
  apply_flag_to_list (apply_flag_to_list ["a=1"; "b"] "a" (VStr "2")) "a" (VStr "2")
    = apply_flag_to_list ["a=1"; "b"] "a" (VStr "2") ∧
  ("b" ≠ "a" → flag_value (apply_flag_to_list ["a=1"; "b"] "a" (VStr "2")) "b"
                 = flag_value ["a=1"; "b"] "b").
Proof. apply (flag_list_is_a_map ["a=1"; "b"] "a" "b" (VStr "2")); by vm_compute. Defined.
