(* ===== verification/DeliveryScenarios.v ===== *)
(** * Concrete deliveries

    One status update: enqueued, claimed, submitted by a worker that crashes before its commit,
    paused when its lease expires, cleared by a lookup, and delivered; and the smaller inputs at
    which the general theorems on the outbox are applied. *)

From stdpp Require Import prelude strings gmap sorting.
From S2P Require Import Prelude Enums Errors Tables Workflow Lifecycles Runs Db Disposition.
From S2P Require Import OutboundGuard ExecutionResults Reconcile ContextJournal Outbox Delivery.
From S2P Require Import OutboxFacts DeliveryFacts DeliveryRuns DeliveryProps DeliveryProgress.
From S2P Require Import StateMachine Scenarios.

#[local] Open Scope string_scope.

(** ** The service *)

Definition status_update (disposition key : string) : DispositionCommand := {|
  dc_disposition_id := disposition; dc_action_id := "act-terminal"; dc_closure_cycle := 1;
  dc_intent_kind := DispositionIntentKind.EVENT_STATUS_UPDATE;
  dc_source_locator := {|
    loc_source_product := "mock_xdr"; loc_source_tenant_id := "tenant-1";
    loc_connector_id := "conn-1"; loc_source_kind := SourceObjectKind.INCIDENT;
    loc_source_object_type := None; loc_source_object_id := "inc-1" |};
  dc_operation_code := "set_event_disposition";
  dc_operation_params := SetEventDispositionParams SourceDisposition.CONTAINED None;
  dc_target_results := []; dc_operator_id := "system"; dc_idempotency_key := key;
  dc_source_concurrency_token := None; dc_execution_owner := ExecutionOwner.XDR_MANAGED;
  dc_parent_disposition_id := None; dc_supersedes_disposition_id := None
|}.

Definition update1 : DispositionCommand := status_update "disp-1" "idem-1".
Definition update2 : DispositionCommand := status_update "disp-2" "idem-2".

Definition provider_receipt (status : WritebackStatus) : DispositionReceipt := {|
  dr_writeback_id := "p-1"; dr_sequence := 1; dr_disposition_id := "disp-1";
  dr_action_id := "act-terminal"; dr_source_record_id := "src-1"; dr_status := status;
  dr_confirmation_evidence := None; dr_provider_record_id := None; dr_provider_job_id := None;
  dr_provider_code := None; dr_provider_message := None; dr_observed_at := Some 210%Z;
  dr_submitted_at := Some 210%Z; dr_confirmed_at := None; dr_target_results := [];
  dr_raw_result := []; dr_truncated := false; dr_simulated := true
|}.

(** A provider that answers submissions with [status] and knows no earlier submission. *)
Definition provider (status : WritebackStatus) : BaseDispositionAdapter := {|
  ad_name := "mock_xdr";
  ad_capabilities := {| supports_idempotency := true; supports_status_query := false;
    supports_concurrency_token := false; supports_lookup_by_idempotency := true;
    supports_readback_confirmation := false; supports_entity_effect_readback := false |};
  ad_validate_command := λ _, Ok tt;
  ad_submit := λ _, Ok (provider_receipt status);
  ad_get_status := λ _, Ok None;
  ad_lookup_submission := λ _ _, Ok None;
  ad_confirm_readback := λ _, Ok None
|}.

(** The payloads are told apart by their disposition and their predecessor. *)
Definition payload_tag (payload : list (string * pyval)) : string :=
  match dict_get payload "disposition_id", dict_get payload "supersedes_disposition_id" with
  | Some (VStr d), Some (VStr s) => d +++ "/" +++ s
  | Some (VStr d), _ => d
  | _, _ => ""
  end.

Definition service_env (worker : string) (status : WritebackStatus) : DeliveryEnv := {|
  de_worker_id := worker;
  de_settings := {| st_block_live_action_execution := false; st_disposition_mode := "mock_xdr";
    st_allow_xdr_writeback := false; st_outbox_max_attempts := 5; st_outbox_retry_backoff := 5;
    st_outbox_retry_backoff_max := 300 |};
  de_registry := [("mock_xdr", provider status)];
  de_sanitizer := {| redact_sensitive_text := λ s, s; sanitize_raw_result := λ d, d |};
  de_validate_command := λ payload,
    if payload_tag payload ==? "disp-1" then Ok update1
    else if payload_tag payload ==? "disp-2" then Ok update2
    else if payload_tag payload ==? "disp-2/disp-1" then Ok (command_superseding update2 "disp-1")
    else Err (builtin_error ValueError "command payload");
  de_sha256 := λ s, s; de_payload_sha256 := payload_tag;
  de_locator_hash := λ l, loc_source_object_id l; de_isoformat := λ _, "t"
|}.

Definition env_ok : DeliveryEnv := service_env "w1" WritebackStatus.ACCEPTED.
Definition env_unknown : DeliveryEnv := service_env "w1" WritebackStatus.UNKNOWN.

Definition clock (t : Z) : DeliveryClock :=
  {| dk_now := t; dk_block := t; dk_delivered := t; dk_project := t; dk_tx := t |}.

(** ** The database *)

Definition managed_action : ActionRow := {|
  act_action_id := "act-terminal"; act_event_id := "evt-1"; act_plan_revision := 1;
  act_action_category := enum_value ActionCategory.RESPONSE;
  act_tool_name := TERMINAL_DISPOSITION_TOOL;
  act_execution_phase := enum_value ActionExecutionPhase.POST_VERIFY;
  act_action_fingerprint := "fp-terminal"; act_action_level := enum_value ActionLevel.L1;
  act_activation_condition := Some "after_effect_resolution"; act_impact_assessment := None;
  act_playbook_ref := None; act_action_template_snapshot := None;
  act_approved_terminal_dispositions := [VStr (enum_value SourceDisposition.CONTAINED)];
  act_status := enum_value ActionStatus.APPROVED;
  act_execution_owner := Some (enum_value ExecutionOwner.XDR_MANAGED);
  act_execution_job_id := None; act_writeback_required := true; act_writeback_applicable := true;
  act_writeback_readiness := enum_value WritebackReadiness.READY;
  act_writeback_status := None; act_superseded_by_revision := None; act_executed_at := None;
  act_updated_at := 95
|}.

Definition outbox_db : Db := {|
  db_events := {["evt-1" := demo_row EventStatus.VERIFYING]}; db_actions := [managed_action];
  db_jobs := []; db_outboxes := []; db_receipts := []; db_target_results := [];
  db_source_sequences := {["src-1" := 0%Z]}; db_reports := []; db_approvals := []; db_audit := []; db_journal := [];
  db_versions := ∅; db_next_audit_id := 1
|}.

Definition request (command : DispositionCommand) (n : string) : EnqueueArgs := {|
  eq_command := command; eq_event_id := "evt-1"; eq_source_record_id := "src-1";
  eq_logical_slot := "default"; eq_trusted_locator := None; eq_approved_action_ids := None;
  eq_new_outbox_id := "ob-" +++ n; eq_new_writeback_id := "wb-" +++ n
|}.

Definition start : Sys := MkSys outbox_db [] [].

Definition unlocked : string → bool := λ _, false.

(** ** A crash between egress and commit *)

Definition demo_claim : PausedLookupClaim := {|
  cl_outbox_id := "ob-1"; cl_token := "w1:reconcile:n1"; cl_event_id := "evt-1";
  cl_action_id := "act-terminal"; cl_disposition_id := "disp-1"; cl_writeback_id := "wb-1";
  cl_idempotency_key := "idem-1"; cl_command_payload_sha256 := "disp-1"; cl_command := update1;
  cl_adapter := provider WritebackStatus.ACCEPTED; cl_provider_job_id := None
|}.

Definition enqueue1 : dstep := SEnqueue env_ok 200 200 (request update1 "1").

Definition until_crash : list dstep :=
  [enqueue1; SClaim env_ok unlocked 205 205 10; SCrash env_ok (clock 206) "ob-1"].

Definition crash_run : list dstep :=
  (until_crash ++
   [SClaim env_ok unlocked 240 240 10;
    SClaimPaused env_ok (λ _, "n1") unlocked 241 241 10;
    SReconcile env_ok 242 242 demo_claim;
    SClaim env_ok unlocked 243 243 10;
    SProcess env_ok (clock 244) 244 244 "ob-1"])%list.

Example crash_run_log :
  sy_log (exec_dsteps start crash_run) = [Sent "ob-1"; Cleared "ob-1"; Sent "ob-1"].
Proof. vm_compute. reflexivity. Qed.

Example crash_run_delivered :
  map ob_delivery_status (db_outboxes (sy_db (exec_dsteps start crash_run))) =
    [enum_value OutboxDeliveryStatus.DELIVERED].
Proof. vm_compute. reflexivity. Qed.

(** ** Witnesses *)

Ltac evaluate := apply (bool_decide_unpack _); vm_compute; exact I.
Ltac computed := vm_compute; reflexivity.

Lemma row_leased_intro db id :
  ob_delivery_status <$> get_by ob_outbox_id id (db_outboxes db) =
    Some (enum_value OutboxDeliveryStatus.LEASED) → row_leased db id.
Proof. unfold row_leased. destruct (get_by _ _ _); [|done]. intros [= H]. eauto. Qed.

Lemma answered_intro db id :
  existsb (λ o, (ob_outbox_id o ==? id) &&
    existsb (λ r, rc_writeback_id r ==? ob_writeback_id o) (db_receipts db))
    (db_outboxes db) = true → answered db id.
Proof.
  intros (o & Ho & [Hid Hr]%andb_true_iff)%existsb_exists.
  apply existsb_exists in Hr as (r & Hr & Hw). bool_props.
  exists o, r. by rewrite !list_elem_of_In.
Qed.

Fixpoint all_disciplined (y : Sys) (l : list dstep) : Prop :=
  match l with
  | [] => True
  | st :: l' => disciplined y st ∧ all_disciplined (exec_dstep y st) l'
  end.

Lemma disciplined_druns l : ∀ y, all_disciplined y l → druns y l (exec_dsteps y l).
Proof.
  induction l as [|st l IH]; intros y; [constructor|]. cbn [all_disciplined]. intros [Hst Hl].
  econstructor; [done|]. by apply IH.
Qed.

Lemma crash_run_druns : druns start crash_run (exec_dsteps start crash_run).
Proof.
  apply disciplined_druns. unfold crash_run, until_crash, enqueue1. cbn [app all_disciplined].
  split_and!; try exact I.
  - split; [evaluate|]. intros c r _. apply row_leased_intro. computed.
  - split; [evaluate|]. intros c e _. apply row_leased_intro. computed.
Qed.

Lemma no_resend_without_lookup_witness : Cleared "ob-1" ∈ [Cleared "ob-1"].
Proof.
  apply (no_resend_without_lookup outbox_db crash_run (exec_dsteps start crash_run) "ob-1"
    [] [Cleared "ob-1"] []); [evaluate|exact crash_run_druns|exact crash_run_log].
Defined.

(** One READY row. *)
Definition ready : Sys := exec_dsteps start [enqueue1].
(** The same row, leased by [w1], submitted, and not recorded. *)
Definition leased : Sys := exec_dsteps start until_crash.
(** The row under a lookup claim. *)
Definition under_lookup : Sys :=
  exec_dsteps leased [SClaim env_ok unlocked 240 240 10;
                      SClaimPaused env_ok (λ _, "n1") unlocked 241 241 10].

Definition only_row (y : Sys) : OutboxRow := default demo_outbox (head (db_outboxes (sy_db y))).

Lemma delivery_egress_guarded_witness :
  ∃ o a s owner, ob_outbox_id o = "ob-1" ∧
    egress_allowed env_ok (clock 206) (sy_db ready) o a s owner update1.
Proof.
  apply (delivery_egress_guarded env_ok (clock 206) (sy_db ready) "ob-1" update1
    (_deliver_outbox env_ok (clock 206) (sy_db ready) "ob-1").2). computed.
Defined.

Lemma leased_rows_wf : Forall row_wf (db_outboxes (sy_db leased)).
Proof.
  assert (db_outboxes (sy_db leased) = [only_row leased]) as -> by computed.
  constructor; [|done]. split.
  - exists OutboxDeliveryStatus.LEASED. computed.
  - intros _. vm_compute. eauto.
  - vm_compute. constructor.
Qed.

Lemma outbox_rows_well_formed_witness :
  Forall row_wf (db_outboxes (sy_db (exec_dsteps leased
    [SClaim env_ok unlocked 240 240 10; SProcess env_ok (clock 206) 206 206 "ob-1"]))).
Proof. apply outbox_rows_well_formed; [evaluate|exact leased_rows_wf]. Defined.

Lemma outbox_step_legal_witness :
  ∃ o' t, o' ∈ db_outboxes (sy_db (exec_dstep leased (SClaim env_ok unlocked 240 240 10))) ∧
    outbox_identity o' = outbox_identity (only_row leased) ∧
    (is_Some (ob_superseded_by_disposition_id (only_row leased)) →
     is_Some (ob_superseded_by_disposition_id o')) ∧
    ob_delivery_status o' = enum_value t ∧
    (t = OutboxDeliveryStatus.LEASED ∨
     OutboxDeliveryStatus.LEASED ≠ OutboxDeliveryStatus.DELIVERED ∧
     OutboxDeliveryStatus.LEASED ≠ OutboxDeliveryStatus.DEAD_LETTER ∧
     t ∈ default [] (OUTBOX_DELIVERY_TRANSITIONS OutboxDeliveryStatus.LEASED)).
Proof.
  apply (outbox_step_legal leased); [evaluate| |computed].
  assert (db_outboxes (sy_db leased) = [only_row leased]) as -> by computed.
  by apply list_elem_of_singleton.
Defined.

Lemma ready_single : single_head (sy_db ready).
Proof.
  unfold single_head. assert (db_outboxes (sy_db ready) = [only_row ready]) as -> by computed.
  by intros o1 o2 ->%list_elem_of_singleton ->%list_elem_of_singleton.
Qed.

Lemma one_active_head_witness :
  single_head (sy_db (exec_dsteps ready [SEnqueue env_ok 201 201 (request update2 "2")])).
Proof. apply one_active_head; [evaluate|exact ready_single]. Defined.

Definition delivered_sys : Sys := exec_dsteps start crash_run.

Lemma stored_receipt_never_resent_witness :
  ∃ evs, sy_log (exec_dsteps delivered_sys
    [SDirect env_ok (clock 250) "ob-1"; SClaim env_ok unlocked 300 300 10]) =
    (sy_log delivered_sys ++ evs)%list ∧ Sent "ob-1" ∉ evs.
Proof.
  apply stored_receipt_never_resent; [evaluate|]. apply answered_intro. computed.
Defined.

Definition lookup_result : result (Db * bool * option WritebackStatus) :=
  _apply_paused_lookup_outcome env_ok 242 242 (sy_db under_lookup) demo_claim
    (_lookup_paused_outbox demo_claim).

Definition looked_up : Db :=
  match lookup_result with Ok (db, _, _) => db | Err _ => outbox_db end.

Lemma lookup_applied_under_token_witness :
  looked_up = sy_db under_lookup ∧ true = false ∨
  ∃ o, claim_matches (sy_db under_lookup) demo_claim o ∧
    ∀ o', o' ∈ db_outboxes looked_up →
      (ob_outbox_id o' ≠ "ob-1" → o' ∈ db_outboxes (sy_db under_lookup)) ∧
      (ob_outbox_id o' = "ob-1" → ¬ parked o' →
       lo_kind (_lookup_paused_outbox demo_claim) = _PausedLookupKind.NOT_FOUND ∧
       supports_idempotency (ad_capabilities (cl_adapter demo_claim)) = true ∧
       supports_lookup_by_idempotency (ad_capabilities (cl_adapter demo_claim)) = true).
Proof.
  apply (lookup_applied_under_token env_ok 242 242 (sy_db under_lookup) demo_claim
    (_lookup_paused_outbox demo_claim) looked_up true (Some WritebackStatus.PENDING));
    [evaluate|computed].
Defined.

Lemma claim_batch_serves_due_rows_witness :
  ∃ db' ids, _claim_batch env_ok unlocked 240 240 (sy_db leased) 10 = Ok (db', ids) ∧
    ∀ o, o ∈ db_outboxes (sy_db leased) → claimable 240 o = true →
      unlocked (ob_outbox_id o) = false →
      ∃ o', o' ∈ db_outboxes db' ∧ ob_outbox_id o' = ob_outbox_id o ∧
        serviced env_ok 240 o o' (bool_decide (ob_outbox_id o ∈ ids)).
Proof.
  apply claim_batch_serves_due_rows; [evaluate|exact leased_rows_wf|vm_compute; lia].
Defined.

Definition enqueue_db (r : result (Db * OutboxRow)) : Db :=
  match r with Ok (db, _) => db | Err _ => outbox_db end.
Definition enqueue_row (r : result (Db * OutboxRow)) : OutboxRow :=
  match r with Ok (_, row) => row | Err _ => demo_outbox end.

Definition first_enqueue : result (Db * OutboxRow) :=
  enqueue_command env_ok 200 200 outbox_db (request update1 "1").

Lemma enqueue_replay_returns_head_witness :
  ∃ db2 n, enqueue_command env_ok 220 220 (enqueue_db first_enqueue) (request update1 "9") =
      Ok (db2, enqueue_row first_enqueue) ∧
    db_outboxes db2 = db_outboxes (enqueue_db first_enqueue) ∧
    db_receipts db2 = db_receipts (enqueue_db first_enqueue) ∧
    db_journal db2 = db_journal (enqueue_db first_enqueue) ∧
    db_source_sequences (enqueue_db first_enqueue) !! "src-1" = Some n ∧
    db_source_sequences db2 !! "src-1" = Some (n + 1)%Z.
Proof.
  apply (enqueue_replay_returns_head env_ok (request update1 "1") (request update1 "9")
    200 200 220 220 outbox_db); [by split|reflexivity|computed|computed].
Defined.

Definition second_enqueue : result (Db * OutboxRow) :=
  enqueue_command env_ok 210 210 (sy_db ready) (request update2 "2").

Lemma superseding_replay_refused_witness :
  enqueue_command env_ok 220 220 (enqueue_db second_enqueue) (request update2 "9") =
    Err (builtin_error IntegrityError "unique constraint violated").
Proof.
  apply (superseding_replay_refused env_ok (request update2 "2") (request update2 "9")
    210 210 220 220 (sy_db ready) (enqueue_db second_enqueue) (only_row ready)
    (enqueue_row second_enqueue));
    [by split|exact ready_single|reflexivity|computed|vm_compute; done|vm_compute; done|computed].
Defined.

Definition egress_of (r : result egress) : OutboxRow * ActionRow * DispositionCommand :=
  match r with
  | Ok (Send o a c _) => (o, a, c)
  | _ => (demo_outbox, managed_action, update1)
  end.

Lemma unleased_unknown_submission_repeats_witness :
  exec_dsteps ready [SDirect env_unknown (clock 206) "ob-1"; SDirect env_unknown (clock 206) "ob-1"]
  = MkSys (sy_db ready) (sy_pending ready) (sy_log ready ++ [Sent "ob-1"; Sent "ob-1"]).
Proof.
  apply (unleased_unknown_submission_repeats env_unknown (clock 206) ready "ob-1"
    (egress_of (deliver_checks env_unknown (clock 206) (sy_db ready) "ob-1")).1.1
    (egress_of (deliver_checks env_unknown (clock 206) (sy_db ready) "ob-1")).1.2
    update1 (provider WritebackStatus.UNKNOWN) (provider_receipt WritebackStatus.UNKNOWN));
    [computed|vm_compute; done|reflexivity|reflexivity|left; reflexivity].
Defined.

Lemma target_results_write_once_witness :
  let t := {| te_canonical_target := "host-1"; te_status := TargetExecutionStatus.SUCCESS;
              te_code := None; te_message := None; te_artifact_id := None;
              te_raw_result := [] |} in
  let r := sync_target_results_in_tx (de_sanitizer env_ok) outbox_db "job-1" 1 [t] in
  let db' := match r with Ok (db, _) => db | Err _ => outbox_db end in
  (∃ rows, db' = add_results outbox_db rows ∧
     Forall (λ r, row_of_attempt "job-1" 1 r = true) rows ∧
     (rows ≠ [] → List.filter (row_of_attempt "job-1" 1) (db_target_results outbox_db) = []) ∧
     ([t] = [] → rows = [])) ∧
  (true = true ↔ [t] = [] ∨ holds_results (de_sanitizer env_ok) db' "job-1" 1 [t]) ∧
  sync_target_results_in_tx (de_sanitizer env_ok) db' "job-1" 1 [t] = Ok (db', true).
Proof.
  intros t r db'.
  apply (target_results_write_once (de_sanitizer env_ok) outbox_db "job-1" 1 [t] db' true).
  computed.
Defined.

(** ** Two processes with the same worker id *)

(** The second process takes the lease of the first for its own, because both are called
    [w1]: the command is submitted twice. *)
Example shared_worker_id_submits_twice :
  sy_log (exec_dsteps leased [SProcess env_ok (clock 207) 207 207 "ob-1"]) =
    [Sent "ob-1"; Sent "ob-1"].
Proof. computed. Qed.

(** A recorded UNKNOWN answer, a lookup that proves that nothing was accepted, and the row cycles:
    claimed again, it is not sent, because the receipt of the unknown answer is stored. *)
Definition unknown_cycle : list dstep :=
  [enqueue1; SClaim env_unknown unlocked 205 205 10;
   SProcess env_unknown (clock 206) 206 206 "ob-1";
   SClaimPaused env_ok (λ _, "n1") unlocked 241 241 10;
   SReconcile env_ok 242 242 demo_claim;
   SClaim env_ok unlocked 243 243 10;
   SProcess env_ok (clock 244) 244 244 "ob-1"].

Example cleared_row_is_not_sent :
  sy_log (exec_dsteps start unknown_cycle) = [Sent "ob-1"; Cleared "ob-1"] ∧
  map ob_delivery_status (db_outboxes (sy_db (exec_dsteps start unknown_cycle))) =
    [enum_value OutboxDeliveryStatus.LEASED].
Proof. split; computed. Qed.
