(* ===== verification/ApprovalScenarios.v ===== *)
(** * Concrete executions of the approval engine

    A plan of one L3 and one L1 Action: evaluated, approved under a key, timed out, reviewed again.
    The general theorems are applied there. *)

From stdpp Require Import prelude strings gmap pretty.
From S2P Require Import Prelude Enums Errors Tables Lifecycles Db Reconcile ContextJournal.
From S2P Require Import ContextStore StateMachine ApprovalRules Approval ApprovalFacts.
From S2P Require Import ApprovalProps ApprovalReplay Scenarios.

#[local] Open Scope string_scope.

#[local] Instance approval_store : ContextStore Redis := JournalStore demo_assemble.

(** ** A plan *)

Definition plan_action (id tool : string) (level : ActionLevel) (readiness : WritebackReadiness) :
    ActionRow := {|
  act_action_id := id; act_event_id := "evt-1"; act_plan_revision := 2;
  act_action_category := enum_value ActionCategory.RESPONSE; act_tool_name := tool;
  act_execution_phase := enum_value ActionExecutionPhase.IMMEDIATE;
  act_action_fingerprint := "fp"; act_action_level := enum_value level;
  act_activation_condition := None; act_impact_assessment := None; act_playbook_ref := None;
  act_action_template_snapshot := None; act_approved_terminal_dispositions := [];
  act_status := enum_value ActionStatus.PENDING;
  act_execution_owner := Some (enum_value ExecutionOwner.DIRECT_TOOL);
  act_execution_job_id := None;
  act_writeback_required := readiness !=? WritebackReadiness.NOT_REQUIRED;
  act_writeback_applicable := readiness !=? WritebackReadiness.NOT_REQUIRED;
  act_writeback_readiness := enum_value readiness; act_writeback_status := None;
  act_superseded_by_revision := None; act_executed_at := None; act_updated_at := 95
|}.

Definition plan_db (actions : list ActionRow) (records : list ApprovalRow) : Db :=
  db_with_approvals records (db_with_executions actions [] (demo_db EventStatus.PLANNING_RESPONSE)).

Definition plan_world (actions : list ActionRow) (records : list ApprovalRow) : World Redis :=
  MkWorld (plan_db actions records) {| redis_answers := []; db_clock := 200 |}.

Definition demo_plan : list ActionRow :=
  [plan_action "act-block" "block_ip" ActionLevel.L3 WritebackReadiness.NOT_REQUIRED;
   plan_action "act-note" "add_note" ActionLevel.L1 WritebackReadiness.NOT_REQUIRED].

Definition demo_manifest : CapabilityManifest := {|
  cm_source_read := CapabilityState.SUPPORTED; cm_event_disposition := CapabilityState.SUPPORTED;
  cm_entity_response := CapabilityState.SUPPORTED;
  cm_allowed_operations := ["block_ip"; "add_note"];
  cm_supports_lookup_by_idempotency := true; cm_supports_idempotency := true
|}.

Definition demo_approval_env : ApprovalEnv := {|
  ae_manifest := demo_manifest; ae_auto_response_enabled := false;
  ae_auto_response_max_auto_level := ""; ae_approval_timeout_minutes := 30;
  ae_parse_playbook_ref := λ _, Err (value_error "playbook_ref");
  ae_parse_template := λ _, Err (value_error "template"); ae_columns_valid := λ _, Ok tt;
  ae_sha256 := λ s, s; ae_comment_hash := λ s, s; ae_isoformat := λ t, pretty t;
  ae_has_context_store := true; ae_assess := None
|}.

Definition demo_hooks : ApprovalHooks := {|
  ah_has_state_machine := true; ah_resume := None; ah_rollback := None; ah_in_graph := λ _, false
|}.

Definition demo_approval_clock : ApprovalClock := {| ak_timeout := 100; ak_now := 101; ak_status := 102 |}.

Definition alice : Principal := {| pr_subject := "alice"; pr_roles := ["approver"] |}.

Lemma keyed_by_test db :
  bool_decide (NoDup (act_action_id <$> db_actions db)) = true →
  bool_decide (NoDup (ap_approval_id <$> db_approvals db)) = true → keyed_tables db.
Proof. intros H1 H2. split; by apply (bool_decide_unpack _), Is_true_true. Qed.

(** ** Approval of the L3 Action *)

Definition approval_calls : list acall :=
  [CEvaluatePlan demo_clock demo_approval_clock "evt-1" 2 0 (λ x, "rec-" +++ x);
   CApprove demo_clock 150 "act-block" alice (Some "go") (Some "key-1");
   CReject demo_clock 160 "act-block" alice None (Some "key-1");
   CScan demo_clock 90000 true].

#[local] Abbreviation approved_world :=
  (exec_acalls demo_env demo_approval_env demo_hooks (plan_world demo_plan []) approval_calls).

(** The event executes its response, the L3 Action is approved. *)
Lemma approved_world_status :
  (se_status <$> db_events (w_db approved_world) !! "evt-1",
   act_status <$> get_by act_action_id "act-block" (db_actions (w_db approved_world)))
  = (Some "executing_response", Some "approved").
Proof. by vm_compute. Qed.




(** A record decided earlier, by a person. *)
Definition decided_record : ApprovalRow := {|
  ap_approval_id := "rec-0"; ap_action_id := "act-block"; ap_event_id := "evt-1";
  ap_plan_revision := 2; ap_approval_cycle := 0; ap_decision_id := Some "key-0";
  ap_required_level := enum_value ActionLevel.L3; ap_decision := enum_value ApprovalDecisionKind.REQUIRE_APPROVAL; ap_operator := Some "bob";
  ap_comment := None; ap_detail := None; ap_requested_at := 50; ap_decided_at := Some 60%Z;
  ap_timeout_at := Some 70%Z
|}.

Lemma decisions_are_final_witness :
  ∃ r', r' ∈ db_approvals (w_db (exec_acalls demo_env demo_approval_env demo_hooks
          (plan_world demo_plan [decided_record]) approval_calls)) ∧
    ap_approval_id r' = "rec-0" ∧ ap_action_id r' = "act-block" ∧ ap_approval_cycle r' = 0%Z ∧
    settlement r' = (Some "bob", None, Some 60%Z, Some "key-0").
Proof.
  apply (decisions_are_final demo_env demo_approval_env demo_hooks
           (plan_world demo_plan [decided_record]) approval_calls decided_record).
  - by apply keyed_by_test; vm_compute.
  - by repeat constructor.
  - by left.
  - done.
Defined.

(** ** One decision key *)

Definition waiting_world : World Redis :=
  exec_acalls demo_env demo_approval_env demo_hooks (plan_world demo_plan [])
    (take 1 approval_calls).

#[local] Abbreviation demo_approve :=
  (_decide demo_env demo_approval_env demo_hooks demo_clock 150 waiting_world "act-block" alice
     (Some "go") (Some "key-1") ActionStatus.APPROVED).

Lemma demo_approve_ok : is_ok demo_approve.1 = true.
Proof. by vm_compute. Qed.

Lemma decision_key_binds_witness :
  ∃ w o, _decide demo_env demo_approval_env demo_hooks demo_clock 170 w "act-block" alice
           (Some "go") (Some "key-1") ActionStatus.APPROVED = (Ok o, w) ∧
    ao_idempotent_replay o = true.
Proof.
  pose proof demo_approve_ok as Hok. destruct demo_approve as [[o|] w'] eqn:Hd; [|discriminate Hok].
  destruct (decision_key_binds demo_env demo_approval_env demo_hooks demo_clock demo_clock 150 170
    waiting_world w' "act-block" "key-1" alice alice (Some "go") None (Some "key-1")
    ActionStatus.APPROVED o) as ((o' & Ho & Hr & _) & _).
  - by vm_compute.
  - by left.
  - exact Hd.
  - exists w', o'. split; [exact Ho|exact Hr].
Defined.

(** ** A plan advances *)

(** The plan is decided; the event still waits. *)
Definition decided_plan : World Redis :=
  plan_world ((λ a, with_status a ActionStatus.APPROVED 90) <$> demo_plan) [].

Lemma plan_advance_guarded_witness :
  ∃ row, in_plan (w_db decided_plan) "evt-1" 2 row ∧ act_status row = enum_value ActionStatus.APPROVED.
Proof.
  assert (se_status <$> db_events (w_db (_maybe_advance_plan demo_env demo_approval_env demo_hooks
    demo_clock decided_plan "evt-1" 2).2) !! "evt-1" = Some "executing_response") as Hst
    by (by vm_compute).
  destruct (plan_advance_guarded demo_env demo_approval_env demo_hooks demo_clock decided_plan
    "evt-1" "evt-1" 2) as (_ & _ & [Hr|(_ & Ha & _)]).
  - rewrite Hst. by vm_compute.
  - by rewrite Hst in Hr.
  - exact Ha.
Defined.

(** ** Timeouts *)

Definition expired_request : ApprovalRow := {|
  ap_approval_id := "rec-1"; ap_action_id := "act-block"; ap_event_id := "evt-1";
  ap_plan_revision := 2; ap_approval_cycle := 0; ap_decision_id := None;
  ap_required_level := enum_value ActionLevel.L3; ap_decision := enum_value ApprovalDecisionKind.REQUIRE_APPROVAL; ap_operator := None;
  ap_comment := None; ap_detail := None; ap_requested_at := 50; ap_decided_at := None;
  ap_timeout_at := Some 70%Z
|}.

Definition waiting_action : ActionRow :=
  with_status (plan_action "act-block" "block_ip" ActionLevel.L3 WritebackReadiness.NOT_REQUIRED)
    ActionStatus.WAITING_APPROVAL 50.

Lemma scan_settles_expired_witness :
  ∃ a', _load_action_row (w_db (scan_timeouts demo_env demo_approval_env demo_hooks demo_clock 80 true
          (plan_world [waiting_action] [expired_request])).2) "act-block" = Some a' ∧
    act_status a' = enum_value ActionStatus.REJECTED.
Proof.
  apply (scan_settles_expired demo_env demo_approval_env demo_hooks demo_clock 80
           (plan_world [waiting_action] [expired_request]) expired_request waiting_action).
  - by left.
  - by vm_compute.
  - by vm_compute.
  - done.
Defined.

(** ** Dead ends *)

(** An approved Action whose cycle is reviewed again. *)
#[local] Abbreviation reviewed :=
  (require_manual_review demo_env demo_approval_env demo_hooks demo_clock demo_approval_clock
     (plan_world [with_status waiting_action ActionStatus.APPROVED 60] [decided_record])
     "act-block" "second look" 0 "rec-2").

Lemma reviewed_ok : is_ok reviewed.1 = true.
Proof. by vm_compute. Qed.

Lemma review_of_decided_cycle_strands_witness :
  ∃ (w : World Redis) row, _load_action_row (w_db w) "act-block" = Some row ∧
    act_status row = enum_value ActionStatus.WAITING_APPROVAL ∧
    (∀ now t, (_decide demo_env demo_approval_env demo_hooks demo_clock now w "act-block" alice None
                 None t).2 = w).
Proof.
  pose proof reviewed_ok as Hok. destruct reviewed as [[[]|] w'] eqn:Hr; [|discriminate Hok].
  destruct (review_of_decided_cycle_strands demo_env demo_approval_env demo_hooks demo_clock
    demo_approval_clock
    (plan_world [with_status waiting_action ActionStatus.APPROVED 60] [decided_record])
    w' "act-block" "second look" "rec-2" 0 decided_record) as ((row & Hrow & Hst) & Hdec & _).
  - intros r Hin _. change (r ∈ [decided_record]) in Hin.
    apply list_elem_of_singleton in Hin. subst r. reflexivity.
  - by vm_compute.
  - exact Hr.
  - exists w', row. split; [exact Hrow|]. split; [exact Hst|]. intros now t. apply Hdec.
Defined.

(** The connector is down: the gate asks for a person. *)
Definition gated_action : ActionRow :=
  with_status (plan_action "act-block" "block_ip" ActionLevel.L1
    WritebackReadiness.CONNECTOR_UNAVAILABLE) ActionStatus.WAITING_APPROVAL 50.

Lemma gated_review_cannot_approve_witness :
  is_ok (approve demo_env demo_approval_env demo_hooks demo_clock 60
    (plan_world [gated_action] [expired_request]) "act-block" alice None None).1 = false.
Proof.
  destruct (action_from_orm demo_approval_env gated_action) as [a|] eqn:Ha; [|by vm_compute in Ha].
  destruct (evaluate_hard_gates a (ae_manifest demo_approval_env)) as [gate|] eqn:Hg.
  2: { vm_compute in Ha. injection Ha as <-. by vm_compute in Hg. }
  destruct (gated_review_cannot_approve demo_env demo_approval_env demo_hooks demo_clock 60
    (plan_world [gated_action] [expired_request]) "act-block" gated_action a gate alice None None)
    as (_ & err & He & _).
  - by vm_compute.
  - exact Ha.
  - exact Hg.
  - vm_compute in Ha. injection Ha as <-. vm_compute in Hg. by injection Hg as <-.
  - done.
  - by rewrite He.
Defined.
