(* ===== verification/IntentScenarios.v ===== *)
(** * Concrete executions of the investigation intent ledger

    An automatic intent superseded by an HTTP request, whose worker is lost, recovered under a new
    revision and finished.  The general theorems are applied there. *)

From stdpp Require Import prelude strings gmap pretty sorting.
From Stdlib Require Import QArith.
From S2P Require Import Prelude Enums Errors Tables Workflow Db Reconcile ContextJournal ContextStore.
From S2P Require Import StateMachine AutoPolicies Intents IntentFacts IntentRuns IntentProps.
From S2P Require Import IntentDispatch Scenarios.

#[local] Open Scope string_scope.

Definition demo_policies (response : bool) : PolicySettings := {|
  ps_auto_investigate_enabled := true; ps_auto_investigate_min_severity := "medium";
  ps_auto_investigate_event_types := ""; ps_auto_response_enabled := response;
  ps_auto_response_min_severity := "high"; ps_auto_response_max_auto_level := "L1";
  ps_auto_response_event_types := ""; ps_source_mode := "mock_xdr"; ps_tool_mode := "mock";
  ps_disposition_mode := "mock_xdr"; ps_orchestration_mode := "graph"
|}.

(** The digest is a tag in front of the text. *)
Definition demo_intents (response : bool) : IntentEnv := {|
  ie_policies := demo_policies response; ie_claim_lease_s := 60; ie_max_attempts := 5;
  ie_provisional_window_s := 30; ie_materialize_batch_size := 10; ie_worker_id := "dispatcher";
  ie_has_degraded := true; ie_celery := true; ie_sha256 := λ s, "h" +++ s
|}.

Lemma demo_digest response s : ie_sha256 (demo_intents response) s ≠ "".
Proof. done. Qed.

Definition new_ledger : Ledger :=
  MkLedger (demo_db EventStatus.NEW) [] [{| sl_event_id := "evt-1"; sl_role := "primary" |}].

Lemma new_ledger_ok ie : lg_ok ie new_ledger.
Proof.
  split; cbn; [by apply NoDup_nil|by apply Forall_nil|]. by intros r s Hr%elem_of_nil.
Qed.

Definition demo_request : HttpRequest := {|
  hq_event_id := "evt-1"; hq_requested_by := "alice"; hq_idempotency_key := " key-1 ";
  hq_payload_sha256 := "p1"; hq_orchestration_mode := "graph"; hq_include_response := false;
  hq_generate_report := true
|}.

Definition no_lock (x : string) : bool := false.

(** Created by policy, superseded over HTTP, claimed and published. *)
Definition published : list icall :=
  [IMaybeCreate 20 (demo_row EventStatus.NEW) PRIMARY_LINK_ROLE (Some "mock_xdr") true "int-a";
   IHttp 30 demo_request "key-1" "alice" "int-h";
   IClaimBatch 40 40 no_lock 10; ICommit 41 "int-h"].

(** Started, lost, recovered and published again. *)
Definition recovered_run : list icall :=
  [IStarted 42 "int-h" "hint-h:1"; IReconcile 2000 2000 no_lock 10; IClaim 2001 2001 "int-h";
   ICommit 2002 "int-h"].

#[local] Abbreviation ie := (demo_intents false).
#[local] Abbreviation published_ledger := (irun ie new_ledger published).
#[local] Abbreviation recovered_ledger := (irun ie new_ledger (published ++ recovered_run)%list).

(** The statuses along the way. *)
Example demo_statuses :
  (λ r, (it_intent_id r, it_status r, it_revision r)) <$> lg_intents published_ledger =
    [("int-a", "skipped", 1%Z); ("int-h", "enqueued", 1%Z)] ∧
  (λ r, (it_intent_id r, it_status r, it_revision r, it_broker_task_id r)) <$>
    lg_intents recovered_ledger =
    [("int-a", "skipped", 1%Z, None); ("int-h", "enqueued", 2%Z, Some "hint-h:2")].
Proof. split; vm_compute; reflexivity. Qed.

Lemma published_ok : lg_ok ie published_ledger.
Proof. apply irun_grows; [apply demo_digest|apply new_ledger_ok]. Qed.

Lemma recovered_ok : lg_ok ie recovered_ledger.
Proof. apply irun_grows; [apply demo_digest|apply new_ledger_ok]. Qed.

(** The row of the HTTP intent. *)
Definition http_intent (status : InvestigationIntentStatus) (revision attempt updated_at : Z)
    (task : string) (error : option string) : IntentRow := {|
  it_intent_id := "int-h"; it_event_id := "evt-1"; it_intent_kind := INTENT_KIND_HTTP_INVESTIGATE;
  it_intent_version := INTENT_VERSION_ISSUE276_V1; it_status := enum_value status;
  it_revision := revision; it_request_idempotency_key := Some "key-1";
  it_request_payload_sha256 := Some "p1"; it_requested_by := Some "alice";
  it_orchestration_mode := "graph"; it_attempt := attempt; it_claim_owner := None;
  it_claim_expires_at := None; it_broker_task_id := Some task; it_skip_reason := None;
  it_last_error := error; it_include_response_execution := false; it_generate_report := true;
  it_created_at := 30; it_updated_at := updated_at
|}.

Lemma published_intent :
  get_intent published_ledger "int-h" =
    Some (http_intent InvestigationIntentStatus.ENQUEUED 1 0 41 "hint-h:1" None).
Proof. vm_compute. reflexivity. Qed.

Lemma recovered_intent :
  get_intent recovered_ledger "int-h" =
    Some (http_intent InvestigationIntentStatus.ENQUEUED 2 1 2002 "hint-h:2" None).
Proof. vm_compute. reflexivity. Qed.

Lemma intents_move_legally_witness :
  lg_ok ie published_ledger ∧ lg_ok ie (irun ie published_ledger recovered_run) ∧
  ∃ r', get_intent (irun ie published_ledger recovered_run) "int-h" = Some r' ∧
    intent_moved (http_intent InvestigationIntentStatus.ENQUEUED 1 0 41 "hint-h:1" None) r'.
Proof.
  destruct (intents_move_legally ie (demo_digest false) recovered_run published_ledger published_ok)
    as [Hok Hmove].
  split; [exact published_ok|]. split; [exact Hok|]. apply Hmove, published_intent.
Defined.

Lemma one_running_intent_witness :
  one_running (lg_intents new_ledger) ∧ one_running (lg_intents recovered_ledger).
Proof.
  assert (one_running (lg_intents new_ledger)) as Hone by (intros r s Hr%elem_of_nil; done).
  split; [exact Hone|].
  apply (one_running_intent ie (demo_digest false) (published ++ recovered_run)%list new_ledger
           (new_ledger_ok ie) Hone).
  reflexivity.
Defined.

Lemma delivery_admitted_exactly_witness :
  ∃ lg', mark_started ie 2003 recovered_ledger "int-h" "hint-h:2" =
           Ok (lg', IntentDeliveryAdmission.ACCEPTED).
Proof.
  apply (delivery_admitted_exactly ie (demo_digest false) (published ++ recovered_run)%list new_ledger
           2003 "int-h" "hint-h:2" (new_ledger_ok ie)).
  eexists. split; [exact recovered_intent|]. split; [left; reflexivity|reflexivity].
Defined.

(** The worker lost under the first revision comes back. *)
Lemma superseded_worker_fenced_witness :
  (∃ a, mark_started ie 2003 recovered_ledger "int-h" "hint-h:1" = Ok (recovered_ledger, a) ∧
        a ≠ IntentDeliveryAdmission.ACCEPTED) ∧
  mark_terminal ie 2003 recovered_ledger "int-h" (Some "hint-h:1") = Ok (recovered_ledger, false) ∧
  mark_skipped ie 2003 recovered_ledger "int-h" "late" (Some "hint-h:1") =
    Ok (recovered_ledger, false) ∧
  mark_retry ie 2003 recovered_ledger "int-h" "late" (Some "hint-h:1") =
    Ok (recovered_ledger, false) ∧
  mark_dead ie 2003 recovered_ledger "int-h" "late" (Some "hint-h:1") = Ok (recovered_ledger, false).
Proof.
  apply (superseded_worker_fenced ie (demo_digest false) (published ++ recovered_run)%list new_ledger
           2003 "int-h" "hint-h:1" "late" (new_ledger_ok ie)).
  intros r Hr. pose proof recovered_intent as Hi.
  assert (Some r = Some (http_intent InvestigationIntentStatus.ENQUEUED 2 1 2002 "hint-h:2" None))
    as [= ->] by (etransitivity; [symmetry; exact Hr|exact Hi]).
  vm_compute. discriminate.
Defined.

(** The first answer to the request. *)
Definition demo_answer : HttpInvestigationIntentResult := {|
  hr_intent_id := "int-h"; hr_event_id := "evt-1"; hr_task_id := "hint-h:1"; hr_revision := 1;
  hr_status := InvestigationIntentStatus.PENDING; hr_created := true
|}.

#[local] Abbreviation asked :=
  (create_or_replay_http_intent ie 30 new_ledger demo_request "int-h" (λ l, irun ie l [])).

Lemma asked_answer : asked.1 = Ok demo_answer.
Proof. vm_compute. reflexivity. Qed.

Definition after_request : list icall := [IClaimBatch 40 40 no_lock 10; ICommit 41 "int-h"].

(** The same request again is answered alike; with another payload it is refused. *)
Lemma http_intake_idempotent_witness :
  (∃ out2, create_or_replay_http_intent ie 50 (irun ie asked.2 after_request) demo_request "int-x"
             (λ l, l) = (Ok out2, irun ie asked.2 after_request) ∧
     hr_intent_id out2 = "int-h" ∧ hr_task_id out2 = "hint-h:1" ∧ hr_revision out2 = 1%Z ∧
     hr_created out2 = false) ∧
  ∃ e, create_or_replay_http_intent ie 50 (irun ie asked.2 after_request)
         {| hq_event_id := "evt-1"; hq_requested_by := "alice"; hq_idempotency_key := "key-1";
            hq_payload_sha256 := "p2"; hq_orchestration_mode := "graph";
            hq_include_response := true; hq_generate_report := true |} "int-x" (λ l, l)
       = (Err e, irun ie asked.2 after_request) ∧ err_class e = IdempotencyKeyReuseError.
Proof.
  assert (asked = (Ok demo_answer, asked.2)) as Ha.
  { rewrite <-asked_answer. apply surjective_pairing. }
  destruct (http_intake_idempotent ie (demo_digest false) 30 50 new_ledger demo_request "int-h" "int-x"
    [] (λ l, l) after_request demo_answer asked.2
    (http_intent InvestigationIntentStatus.ENQUEUED 1 0 41 "hint-h:1" None) (new_ledger_ok ie) Ha)
    as [Hsame Hother].
  - vm_compute. reflexivity.
  - reflexivity.
  - intros Hin. refute_in Hin.
  - split; [apply Hsame|apply Hother].
    + vm_compute. eexists. reflexivity.
    + vm_compute. eexists. reflexivity.
    + reflexivity.
    + vm_compute. reflexivity.
    + right. discriminate.
Defined.

(** The lost run, about to be recovered. *)
#[local] Abbreviation lost_ledger := (irun ie new_ledger (published ++ [IStarted 42 "int-h" "hint-h:1"])%list).

Lemma lost_ok : lg_ok ie lost_ledger.
Proof. apply irun_grows; [apply demo_digest|apply new_ledger_ok]. Qed.

Lemma lost_intents : it_intent_id <$> lg_intents lost_ledger = ["int-a"; "int-h"].
Proof. vm_compute. reflexivity. Qed.

Lemma demo_tasks_distinct r s n :
  r ∈ lg_intents lost_ledger → s ∈ lg_intents lost_ledger → it_intent_id s ≠ it_intent_id r →
  distinct_tasks ie r s n.
Proof.
  intros Hr Hs Hne v _. apply (list_elem_of_fmap_2 it_intent_id) in Hr, Hs.
  rewrite lost_intents in Hr, Hs. unfold task_id, deterministic_investigation_task_id.
  cbn [ie_sha256 demo_intents]. intros He.
  repeat (apply elem_of_cons in Hr as [Hr|Hr]); repeat (apply elem_of_cons in Hs as [Hs|Hs]);
    try (by apply elem_of_nil in Hr); try (by apply elem_of_nil in Hs); try congruence;
    rewrite Hr, Hs in He; discriminate He.
Qed.

Lemma stale_intents_recovered_witness :
  ∃ lg' n, reconcile_stale_tx ie 2000 2000 lost_ledger no_lock 10 = Ok (lg', n) ∧ lg_ok ie lg' ∧
    ∃ r', get_intent lg' "int-h" = Some r' ∧
      recovered ie (http_intent InvestigationIntentStatus.STARTED 1 0 42 "hint-h:1" None) r'.
Proof.
  destruct (stale_intents_recovered ie 2000 2000 lost_ledger no_lock 10 lost_ok)
    as (lg' & n & Hrun & Hok & Hrec).
  - intros r s Hr Hs Hne. exact (demo_tasks_distinct r s _ Hr Hs Hne).
  - vm_compute. do 2 apply le_S. repeat constructor.
  - exists lg', n. split; [exact Hrun|]. split; [exact Hok|].
    apply (Hrec (http_intent InvestigationIntentStatus.STARTED 1 0 42 "hint-h:1" None)
             InvestigationIntentStatus.STARTED).
    + apply (get_intent_Some lost_ledger "int-h"). vm_compute. reflexivity.
    + reflexivity.
    + decide_in.
    + reflexivity.
    + vm_compute. reflexivity.
Defined.

Lemma claims_most_urgent_witness :
  let lg := irun ie new_ledger (take 2 published) in
  ∃ lg' ids, claim_intent_batch ie 40 40 lg no_lock 1 = Ok (lg', ids) ∧ length ids = 1%nat ∧
    ∀ x, x ∈ ids → ∃ r', get_intent lg' x = Some r' ∧ claimed_by ie 40 r'.
Proof.
  destruct (claims_most_urgent ie 40 40 (irun ie new_ledger (take 2 published)) no_lock 1)
    as (lg' & ids & Hrun & _ & Hlen & Hids & _).
  - apply irun_grows; [apply demo_digest|apply new_ledger_ok].
  - exists lg', ids. split; [exact Hrun|]. split; [rewrite Hlen; vm_compute; reflexivity|].
    intros x Hx. apply (Hids x Hx).
Defined.

(** An automatic intent with the response phase. *)
#[local] Abbreviation auto_ledger :=
  (irun (demo_intents true) new_ledger
     [IMaybeCreate 20 (demo_row EventStatus.NEW) PRIMARY_LINK_ROLE (Some "mock_xdr") true "int-a";
      IClaim 40 40 "int-a"]).

#[local] Abbreviation auto_commit :=
  (_commit_enqueued_publish_target (demo_intents true) 41 auto_ledger "int-a").

Definition auto_target : _EnqueuedPublishTarget := {|
  pt_event_id := "evt-1"; pt_task_id := "hint-a:1"; pt_intent_id := "int-a";
  pt_include_response_execution := true; pt_generate_report := false;
  pt_orchestration_mode := "graph"; pt_resume_from_checkpoint := false
|}.

Lemma auto_commit_target : snd <$> (match auto_commit with Ok o => Some o | Err _ => None end) =
  Some (Some auto_target).
Proof. vm_compute. reflexivity. Qed.

Lemma auto_response_only_mock_witness :
  pt_include_response_execution auto_target = true ∧
  ps_auto_response_enabled (demo_policies true) = true ∧
  is_mock_tool_mode (ps_tool_mode (demo_policies true)) = true ∧
  ∃ event, db_events (lg_db auto_ledger) !! "evt-1" = Some event ∧
    se_status event = enum_value EventStatus.NEW.
Proof.
  destruct auto_commit as [[lg' t]|e] eqn:Hc; pose proof auto_commit_target as Ht; rewrite Hc in Ht;
    [|discriminate Ht].
  assert (t = Some auto_target) as -> by (injection Ht; intros; assumption).
  destruct (get_intent auto_ledger "int-a") as [r|] eqn:Hg; [|vm_compute in Hg; discriminate Hg].
  assert (it_event_id r = "evt-1" ∧ it_intent_kind r = INTENT_KIND_AUTO_INVESTIGATE) as [He Hk].
  { vm_compute in Hg. injection Hg as <-. split; reflexivity. }
  destruct (auto_response_only_mock (demo_intents true) 41 auto_ledger "int-a" r lg' auto_target
    Hg Hk Hc eq_refl) as (H1 & _ & _ & H2 & _ & _ & event & Hev & Hst & _).
  rewrite He in Hev.
  split; [reflexivity|]. split; [exact H1|]. split; [exact H2|]. exists event. split; [exact Hev|exact Hst].
Defined.

(** ** The attempt limit *)

(** A claim that keeps expiring is taken again without looking at the limit of five attempts. *)
Definition expiring (n : nat) : list icall :=
  (λ i, IClaim (40 + 100 * Z.of_nat i) (40 + 100 * Z.of_nat i) "int-h") <$> seq 0 n.

Example expired_claims_pass_the_limit :
  (λ r, (it_status r, it_attempt r)) <$>
    get_intent (irun ie new_ledger (take 2 published ++ expiring 9)%list) "int-h" =
  Some ("claimed", 8%Z).
Proof. vm_compute. reflexivity. Qed.

(** An inline start does not look at the other intents of the event: the exception that
    [one_running_intent] makes is needed. *)
Example inline_start_ignores_siblings :
  (λ r, (it_intent_id r, it_status r)) <$>
    lg_intents (irun ie new_ledger
      [IHttp 30 demo_request "key-1" "alice" "int-h";
       IMaybeCreate 31 (demo_row EventStatus.NEW) PRIMARY_LINK_ROLE (Some "mock_xdr") true "int-a";
       IClaim 32 32 "int-a"; ICommit 33 "int-a"; IInline 34 "int-h"]) =
  [("int-h", "started"); ("int-a", "enqueued")].
Proof. vm_compute. reflexivity. Qed.
