(* ===== verification/Detection.v ===== *)
(** * Detection rules: data and observation operators (models/detection_rule.py,
      models/behavior_observation.py, models/feature_snapshot.py, detection/operators,
      detection/sequences/releases.py)

    A rule names an operator, which turns the observations (or snapshots) of a window into
    matches, one per group.  Instants are whole microseconds in UTC; thresholds, scores and
    counts are exact rationals where the code computes with floating-point numbers. *)

From stdpp Require Import prelude strings sorting.
From Stdlib Require Import QArith.
From S2P Require Import Prelude Errors.

#[local] Open Scope string_scope.
#[local] Open Scope Z_scope.

(** ** Enumerations *)

Module DetectionRuleRuntimeState.
Inductive DetectionRuleRuntimeState : Type :=
| DRAFT
| VALIDATED
| SHADOW_ACTIVE
| PRODUCTION_ACTIVE
| DISABLED.

#[global] Instance DetectionRuleRuntimeState_eq_dec : EqDecision DetectionRuleRuntimeState.
Proof. solve_decision. Defined.

Definition value (x : DetectionRuleRuntimeState) : string :=
  match x with
  | DRAFT => "draft"
  | VALIDATED => "validated"
  | SHADOW_ACTIVE => "shadow_active"
  | PRODUCTION_ACTIVE => "production_active"
  | DISABLED => "disabled"
  end.

#[global] Program Instance DetectionRuleRuntimeState_str_enum : StrEnum DetectionRuleRuntimeState := {|
  enum_value := value;
  enum_members := [DRAFT; VALIDATED; SHADOW_ACTIVE; PRODUCTION_ACTIVE; DISABLED]
|}.
Solve All Obligations with solve_str_enum.
End DetectionRuleRuntimeState.
Abbreviation DetectionRuleRuntimeState := DetectionRuleRuntimeState.DetectionRuleRuntimeState.

Module RuleOperatorKind.
Inductive RuleOperatorKind : Type :=
| EVENT_MATCH
| EVENT_COUNT
| EVENT_SEQUENCE
| VALUE_COUNT
| STATISTICAL_ANOMALY.

#[global] Instance RuleOperatorKind_eq_dec : EqDecision RuleOperatorKind.
Proof. solve_decision. Defined.

Definition value (x : RuleOperatorKind) : string :=
  match x with
  | EVENT_MATCH => "event_match"
  | EVENT_COUNT => "event_count"
  | EVENT_SEQUENCE => "event_sequence"
  | VALUE_COUNT => "value_count"
  | STATISTICAL_ANOMALY => "statistical_anomaly"
  end.

#[global] Program Instance RuleOperatorKind_str_enum : StrEnum RuleOperatorKind := {|
  enum_value := value;
  enum_members := [EVENT_MATCH; EVENT_COUNT; EVENT_SEQUENCE; VALUE_COUNT; STATISTICAL_ANOMALY]
|}.
Solve All Obligations with solve_str_enum.
End RuleOperatorKind.
Abbreviation RuleOperatorKind := RuleOperatorKind.RuleOperatorKind.

Module MissingDataPolicy.
Inductive MissingDataPolicy : Type :=
| SKIP
| FAIL
| TREAT_AS_ZERO.

#[global] Instance MissingDataPolicy_eq_dec : EqDecision MissingDataPolicy.
Proof. solve_decision. Defined.

Definition value (x : MissingDataPolicy) : string :=
  match x with
  | SKIP => "skip"
  | FAIL => "fail"
  | TREAT_AS_ZERO => "treat_as_zero"
  end.

#[global] Program Instance MissingDataPolicy_str_enum : StrEnum MissingDataPolicy := {|
  enum_value := value;
  enum_members := [SKIP; FAIL; TREAT_AS_ZERO]
|}.
Solve All Obligations with solve_str_enum.
End MissingDataPolicy.
Abbreviation MissingDataPolicy := MissingDataPolicy.MissingDataPolicy.

Module FeatureWindowKind.
Inductive FeatureWindowKind : Type :=
| ONE_HOUR
| TWENTY_FOUR_HOURS
| SEVEN_DAYS
| THIRTY_DAYS.

#[global] Instance FeatureWindowKind_eq_dec : EqDecision FeatureWindowKind.
Proof. solve_decision. Defined.

Definition value (x : FeatureWindowKind) : string :=
  match x with
  | ONE_HOUR => "1h"
  | TWENTY_FOUR_HOURS => "24h"
  | SEVEN_DAYS => "7d"
  | THIRTY_DAYS => "30d"
  end.

#[global] Program Instance FeatureWindowKind_str_enum : StrEnum FeatureWindowKind := {|
  enum_value := value;
  enum_members := [ONE_HOUR; TWENTY_FOUR_HOURS; SEVEN_DAYS; THIRTY_DAYS]
|}.
Solve All Obligations with solve_str_enum.
End FeatureWindowKind.
Abbreviation FeatureWindowKind := FeatureWindowKind.FeatureWindowKind.

Module FeatureSnapshotStatus.
Inductive FeatureSnapshotStatus : Type :=
| READY
| INSUFFICIENT_HISTORY
| INSUFFICIENT_COVERAGE.

#[global] Instance FeatureSnapshotStatus_eq_dec : EqDecision FeatureSnapshotStatus.
Proof. solve_decision. Defined.

Definition value (x : FeatureSnapshotStatus) : string :=
  match x with
  | READY => "ready"
  | INSUFFICIENT_HISTORY => "insufficient_history"
  | INSUFFICIENT_COVERAGE => "insufficient_coverage"
  end.

#[global] Program Instance FeatureSnapshotStatus_str_enum : StrEnum FeatureSnapshotStatus := {|
  enum_value := value;
  enum_members := [READY; INSUFFICIENT_HISTORY; INSUFFICIENT_COVERAGE]
|}.
Solve All Obligations with solve_str_enum.
End FeatureSnapshotStatus.
Abbreviation FeatureSnapshotStatus := FeatureSnapshotStatus.FeatureSnapshotStatus.

Module DetectionBaselineStatus.
Inductive DetectionBaselineStatus : Type :=
| READY
| INSUFFICIENT_HISTORY
| INSUFFICIENT_COVERAGE.

#[global] Instance DetectionBaselineStatus_eq_dec : EqDecision DetectionBaselineStatus.
Proof. solve_decision. Defined.

Definition value (x : DetectionBaselineStatus) : string :=
  match x with
  | READY => "ready"
  | INSUFFICIENT_HISTORY => "insufficient_history"
  | INSUFFICIENT_COVERAGE => "insufficient_coverage"
  end.

#[global] Program Instance DetectionBaselineStatus_str_enum : StrEnum DetectionBaselineStatus := {|
  enum_value := value;
  enum_members := [READY; INSUFFICIENT_HISTORY; INSUFFICIENT_COVERAGE]
|}.
Solve All Obligations with solve_str_enum.
End DetectionBaselineStatus.
Abbreviation DetectionBaselineStatus := DetectionBaselineStatus.DetectionBaselineStatus.

(** ** Sorting

    [sorted(l, key=...)] is stable: an element stays before the later ones it ties with. *)

Section sorting.
Context {A : Type} (le : A → A → bool).

Fixpoint insert_sorted (x : A) (l : list A) : list A :=
  match l with
  | [] => [x]
  | y :: l' => if le x y then x :: l else y :: insert_sorted x l'
  end.

Definition py_sorted (l : list A) : list A := foldr insert_sorted [] l.

Lemma insert_sorted_perm x l : insert_sorted x l ≡ₚ x :: l.
Proof.
  induction l as [|y l IH]; cbn; [done|]. destruct (le x y); [done|]. by rewrite IH, Permutation_swap.
Qed.

Lemma py_sorted_perm l : py_sorted l ≡ₚ l.
Proof. induction l as [|x l IH]; cbn; [done|]. by rewrite insert_sorted_perm, IH. Qed.

Hypothesis le_total : ∀ x y, le x y = true ∨ le y x = true.

Lemma insert_sorted_Sorted x l : Sorted (λ x y, le x y = true) l → Sorted (λ x y, le x y = true) (insert_sorted x l).
Proof.
  induction 1 as [|y l Hs IH Hhd]; cbn; [by repeat constructor|].
  destruct (le x y) eqn:Hxy; [by repeat constructor|].
  constructor; [done|]. destruct (le_total x y) as [?|Hyx]; [congruence|].
  destruct l as [|z l]; cbn; [by repeat constructor|].
  destruct (le x z); constructor; [done|]. by inversion Hhd.
Qed.

Lemma py_sorted_Sorted l : Sorted (λ x y, le x y = true) (py_sorted l).
Proof. induction l; cbn; [constructor|]. by apply insert_sorted_Sorted. Qed.
End sorting.

(** ** Values *)

(** [a < b] on numbers. *)
Definition q_lt (a b : Q) : bool := negb (Qle_bool b a).

(** A floating-point number: an exact value, or one of the special ones. *)
Inductive pyfloat : Type :=
| Fin (q : Q)
| Infinite (negative : bool)
| NaN.

(** [x < t] *)
Definition float_lt (x : pyfloat) (t : Q) : bool :=
  match x with Fin q => q_lt q t | Infinite negative => negative | NaN => false end.

Definition q_of_nat (n : nat) : Q := inject_Z (Z.of_nat n).

Definition validation_error (message : string) (details : list (string * pyval)) : error :=
  ShadowTraceError_init ValidationError message None details.

(** ** Observations *)

Record BehaviorEntityRef : Type := {
  er_entity_type : string;
  er_entity_id : string;
  er_role : option string
}.

Record BehaviorObservation : Type := {
  bo_observation_id : string;
  bo_source_tenant_id : string;
  bo_detection_scope_id : string;
  bo_source_revision : Z;  (* source_ref.source_revision *)
  bo_observed_at : Z;
  bo_entity_refs : list BehaviorEntityRef;
  bo_action : option string;
  bo_category : option string;
  bo_detection_score : option Q
}.

(** ** Rules *)

Definition PHASE_A_OPERATORS : list string :=
  ["event_match"; "event_count"; "event_sequence"; "value_count"; "statistical_anomaly"].

Record DetectionRuleDefinition : Type := {
  dr_rule_id : string;
  dr_rule_version : Z;
  dr_operator : RuleOperatorKind;
  dr_feature_contract_version : string;
  dr_detection_scope_id : string;
  dr_window_kind : string;
  dr_group_key_fields : list string;
  dr_threshold : Q;
  dr_severity : string;
  dr_required_fields : list string;
  dr_missing_data_policy : MissingDataPolicy;
  dr_match_criteria : list (string * pyval);
  dr_value_field : option string;
  dr_max_observation_scan : Z
}.

(** ** Matches *)

Record ScorerProvenance : Type := {
  spv_model_release_id : string;
  spv_model_release_hash : string;
  spv_calibration_version : string;
  spv_threshold_version : string;
  spv_detection_score : Q;
  spv_feature_contract_version : string;
  spv_snapshot_content_hash : string;
  spv_source_watermark : Z;
  spv_baseline_id : string;
  spv_baseline_content_hash : string;
  spv_snapshot_revision : Z;
  spv_contributing_features : list (string * list (string * Q) * string)
}.

Record SequenceProvenance : Type := {
  qpv_sequence_id : string;
  qpv_sequence_hash : string;
  qpv_max_step_gap_seconds : Z;
  qpv_ordered_observation_ids : list string;
  qpv_sequence_step_matches : list (list (string * pyval));
  qpv_match_explanation : string
}.

Record OperatorMatch : Type := {
  om_group_key : list (string * string);
  om_matched_value : pyfloat;
  om_observation_ids : list string;
  om_snapshot_ids : list string;
  om_window_start : option Z;
  om_window_end : option Z;
  om_scorer_provenance : option ScorerProvenance;
  om_sequence_provenance : option SequenceProvenance
}.

(** ** Shared steps of the operators (detection/operators/base.py) *)

Definition non_empty_text (s : option string) : option string :=
  match s with Some t => if t ==? "" then None else s | None => None end.

(** The value of one group key field. *)
Definition observation_field (o : BehaviorObservation) (field : string) : option string :=
  if field ==? "entity_type" then er_entity_type <$> head (bo_entity_refs o)
  else if field ==? "entity_id" then er_entity_id <$> head (bo_entity_refs o)
  else if field ==? "category" then non_empty_text (bo_category o)
  else if field ==? "action" then non_empty_text (bo_action o)
  else None.

Fixpoint collect_fields (value_of : string → option string) (fields : list string)
    (values : list (string * string)) : option (list (string * string)) :=
  match fields with
  | [] => Some values
  | f :: fields' =>
      match value_of f with
      | Some v => collect_fields value_of fields' (dict_set values f v)
      | None => None
      end
  end.

Definition group_key_from_observation (o : BehaviorObservation) (fields : list string) :
    option (list (string * string)) := collect_fields (observation_field o) fields [].

Definition apply_missing_data_policy (policy : MissingDataPolicy) (rule_id reason : string) : result unit :=
  raise_if (policy ==? MissingDataPolicy.FAIL)
    (validation_error ("missing required data for rule " +++ rule_id +++ ": " +++ reason)
       [("rule_id", VStr rule_id); ("reason", VStr reason)]).

Definition observation_missing_required_field (o : BehaviorObservation) (field : string) : bool :=
  if field ==? "action" then bool_decide (non_empty_text (bo_action o) = None)
  else if field ==? "category" then bool_decide (non_empty_text (bo_category o) = None)
  else if (field ==? "entity_type") || (field ==? "entity_id") then
    match bo_entity_refs o with [] => true | _ => false end
  else if field ==? "detection_score" then
    match bo_detection_score o with None => true | Some _ => false end
  else true.

Fixpoint process_fields (rule : DetectionRuleDefinition) (o : BehaviorObservation)
    (fields : list string) : result bool :=
  match fields with
  | [] => Ok true
  | f :: fields' =>
      if observation_missing_required_field o f then
        match dr_missing_data_policy rule with
        | MissingDataPolicy.SKIP | MissingDataPolicy.TREAT_AS_ZERO => Ok false
        | MissingDataPolicy.FAIL =>
            apply_missing_data_policy (dr_missing_data_policy rule) (dr_rule_id rule)
              ("missing required field " +++ f) ;; process_fields rule o fields'
        end
      else process_fields rule o fields'
  end.

Definition should_process_observation (rule : DetectionRuleDefinition) (o : BehaviorObservation) :
    result bool := process_fields rule o (dr_required_fields rule).

Definition handle_missing_group_key (rule : DetectionRuleDefinition) : result unit :=
  if dr_missing_data_policy rule ==? MissingDataPolicy.FAIL then
    apply_missing_data_policy MissingDataPolicy.FAIL (dr_rule_id rule)
      "unable to derive group key from observation"
  else Ok tt.

Definition bounded_observations (observations : list BehaviorObservation) (max_scan : Z) :
    result (list BehaviorObservation) :=
  raise_if (max_scan <? Z.of_nat (length observations))
    (validation_error "observation scan cost limit exceeded"
       [("requested", VInt (Z.of_nat (length observations))); ("max_scan", VInt max_scan)]) ;;
  Ok observations.

Fixpoint observation_matches_criteria (o : BehaviorObservation) (criteria : list (string * pyval)) : bool :=
  match criteria with
  | [] => true
  | (key, expected) :: criteria' =>
      (if key ==? "action" then py_eq (opt_str (bo_action o)) expected
       else if key ==? "category" then py_eq (opt_str (bo_category o)) expected
       else if key ==? "entity_type" then
         existsb (λ r, py_eq (VStr (er_entity_type r)) expected) (bo_entity_refs o)
       else if key ==? "entity_id" then
         existsb (λ r, py_eq (VStr (er_entity_id r)) expected) (bo_entity_refs o)
       else false)
      && observation_matches_criteria o criteria'
  end.

(** ** Grouping *)

Definition GroupKey : Type := list (string * string).

(** [tuple(sorted(group_key.items()))]: the keys of a dict are distinct. *)
Definition key_tuple (gk : GroupKey) : GroupKey := py_sorted (λ a b, String.leb a.1 b.1) gk.

(** [grouped.setdefault(key, []).append(x)] *)
Fixpoint group_add {A} (grouped : list (GroupKey * list A)) (k : GroupKey) (x : A) :
    list (GroupKey * list A) :=
  match grouped with
  | [] => [(k, [x])]
  | (k', xs) :: grouped' =>
      if k ==? k' then (k', (xs ++ [x])%list) :: grouped' else (k', xs) :: group_add grouped' k x
  end.

(** The loop over the observations; [selected] is the criteria check of event_match. *)
Fixpoint group_observations {A} (rule : DetectionRuleDefinition) (selected : BehaviorObservation → bool)
    (item : BehaviorObservation → A) (observations : list BehaviorObservation)
    (grouped : list (GroupKey * list A)) : result (list (GroupKey * list A)) :=
  match observations with
  | [] => Ok grouped
  | o :: observations' =>
      process ← should_process_observation rule o;
      if negb process || negb (selected o) then
        group_observations rule selected item observations' grouped
      else
        match group_key_from_observation o (dr_group_key_fields rule) with
        | None =>
            handle_missing_group_key rule ;; group_observations rule selected item observations' grouped
        | Some gk =>
            group_observations rule selected item observations' (group_add grouped (key_tuple gk) (item o))
        end
  end.

Record OperatorExecutionContext (Snapshot Baseline : Type) : Type := {
  oc_source_tenant_id : string;
  oc_cutoff_at : Z;
  oc_observations : list BehaviorObservation;
  oc_snapshots : list Snapshot;
  oc_baselines : list Baseline;
  oc_window_start : option Z;
  oc_window_end : option Z
}.
Arguments oc_source_tenant_id {_ _}.
Arguments oc_cutoff_at {_ _}.
Arguments oc_observations {_ _}.
Arguments oc_snapshots {_ _}.
Arguments oc_baselines {_ _}.
Arguments oc_window_start {_ _}.
Arguments oc_window_end {_ _}.

(** ** event_count and event_match *)

Definition count_match {S B} (context : OperatorExecutionContext S B) (g : GroupKey * list string) :
    OperatorMatch :=
  {| om_group_key := g.1; om_matched_value := Fin (q_of_nat (length g.2)); om_observation_ids := g.2;
     om_snapshot_ids := []; om_window_start := oc_window_start context;
     om_window_end := oc_window_end context; om_scorer_provenance := None;
     om_sequence_provenance := None |}.

Definition count_matches {S B} (rule : DetectionRuleDefinition) (context : OperatorExecutionContext S B)
    (grouped : list (GroupKey * list string)) : list OperatorMatch :=
  count_match context <$>
    List.filter (λ g, negb (q_lt (q_of_nat (length g.2)) (dr_threshold rule))) grouped.

Definition event_count_evaluate {S B} (rule : DetectionRuleDefinition)
    (context : OperatorExecutionContext S B) : result (list OperatorMatch) :=
  observations ← bounded_observations (oc_observations context) (dr_max_observation_scan rule);
  grouped ← group_observations rule (λ _, true) bo_observation_id observations [];
  Ok (count_matches rule context grouped).

Definition event_match_evaluate {S B} (rule : DetectionRuleDefinition)
    (context : OperatorExecutionContext S B) : result (list OperatorMatch) :=
  observations ← bounded_observations (oc_observations context) (dr_max_observation_scan rule);
  grouped ← group_observations rule (λ o, observation_matches_criteria o (dr_match_criteria rule))
    bo_observation_id observations [];
  Ok (count_matches rule context grouped).

(** ** event_sequence (detection/operators/event_sequence.py, detection/sequences/releases.py) *)

Definition IDENTITY_EXFIL_SEQUENCE_ID : string := "identity-exfil-v1".
Definition GEO_SENSITIVE_SEQUENCE_ID : string := "geo-sensitive-v1".
Definition DEFAULT_MAX_STEP_GAP_SECONDS : Z := 86400.

Definition SequenceStep : Type := list (string * pyval).

Record SequenceRelease : Type := {
  sq_sequence_id : string;
  sq_sequence_hash : string;
  sq_sequence_steps : list SequenceStep;
  sq_max_step_gap_seconds : Z;
  sq_description : string
}.

(** All-or-nothing matching: the threshold is the number of steps. *)
Definition sequence_match_threshold (release : SequenceRelease) : Q :=
  q_of_nat (length (sq_sequence_steps release)).

Section sequences.
(** [sha256(orjson.dumps(value, OPT_SORT_KEYS)).hexdigest()] and [isoformat()] *)
Variables (canonical_hash : pyval → string) (isoformat : Z → string).

Definition build_release (sequence_id description : string) (steps : list SequenceStep) : SequenceRelease :=
  {| sq_sequence_id := sequence_id;
     sq_sequence_hash := canonical_hash (VDict [("sequence_id", VStr sequence_id);
       ("sequence_steps", VList (VDict <$> steps));
       ("max_step_gap_seconds", VInt DEFAULT_MAX_STEP_GAP_SECONDS);
       ("description", VStr description)]);
     sq_sequence_steps := steps;
     sq_max_step_gap_seconds := DEFAULT_MAX_STEP_GAP_SECONDS;
     sq_description := description |}.

Definition sequence_step (action category : string) : SequenceStep :=
  [("action", VStr action); ("category", VStr category)].

Definition build_identity_exfil_sequence_v1 : SequenceRelease :=
  build_release IDENTITY_EXFIL_SEQUENCE_ID "abnormal login → privilege change → bulk read → egress"
    [sequence_step "login" "identity"; sequence_step "privilege_change" "identity";
     sequence_step "bulk_read" "data_access"; sequence_step "egress" "data_exfiltration"].

Definition build_geo_sensitive_sequence_v1 : SequenceRelease :=
  build_release GEO_SENSITIVE_SEQUENCE_ID "new device/geo anomaly → sensitive access"
    [sequence_step "anomalous_login" "identity"; sequence_step "sensitive_access" "data_access"].

Definition known_sequence (sequence_id : string) : option SequenceRelease :=
  dict_get [(IDENTITY_EXFIL_SEQUENCE_ID, build_identity_exfil_sequence_v1);
            (GEO_SENSITIVE_SEQUENCE_ID, build_geo_sensitive_sequence_v1)] sequence_id.

(** [isinstance(v, str) and v] *)
Definition text_criterion (criteria : list (string * pyval)) (k : string) : option string :=
  match dict_get criteria k with Some (VStr s) => non_empty_text (Some s) | _ => None end.

Definition opt_val (v : option pyval) : pyval := default VNone v.

(** [isinstance(v, int)]: a truth value is an int. *)
Definition positive_gap (criteria : list (string * pyval)) : option Z :=
  match dict_get criteria "max_step_gap_seconds" ≫= int_like with
  | Some z => if z <=? 0 then None else Some z
  | None => None
  end.

Definition _resolve_sequence_release (rule : DetectionRuleDefinition) : result (SequenceRelease * Z) :=
  let criteria := dr_match_criteria rule in
  let rule_id := ("rule_id", VStr (dr_rule_id rule)) in
  match text_criterion criteria "sequence_id" with
  | None => Err (validation_error "event_sequence requires sequence_id in match_criteria" [rule_id])
  | Some sequence_id =>
      let seq := ("sequence_id", VStr sequence_id) in
      match known_sequence sequence_id with
      | None => Err (validation_error "unsupported sequence package" [rule_id; seq])
      | Some release =>
          match text_criterion criteria "sequence_hash" with
          | None =>
              Err (validation_error "event_sequence requires sequence_hash in match_criteria" [rule_id; seq])
          | Some h =>
              raise_if (h !=? sq_sequence_hash release)
                (validation_error "sequence package hash mismatch"
                   [rule_id; seq; ("expected_sequence_hash", VStr h)]) ;;
              match positive_gap criteria with
              | None =>
                  Err (validation_error "max_step_gap_seconds must be a positive integer"
                         [rule_id; ("max_step_gap_seconds", opt_val (dict_get criteria "max_step_gap_seconds"))])
              | Some gap =>
                  raise_if (negb (gap =? sq_max_step_gap_seconds release))
                    (validation_error "max_step_gap_seconds must match frozen sequence release"
                       [rule_id; seq;
                        ("expected_max_step_gap_seconds", VInt (sq_max_step_gap_seconds release))]) ;;
                  Ok (release, gap)
              end
          end
      end
  end.

(** Order by instant, then by key. *)
Definition observed_le (a b : BehaviorObservation) : bool :=
  (bo_observed_at a <? bo_observed_at b)
  || ((bo_observed_at a =? bo_observed_at b) && String.leb (bo_observation_id a) (bo_observation_id b)).

Fixpoint drop_seen (seen : list string) (l : list BehaviorObservation) : list BehaviorObservation :=
  match l with
  | [] => []
  | o :: l' =>
      if bo_observation_id o ∈? seen then drop_seen seen l'
      else o :: drop_seen (bo_observation_id o :: seen) l'
  end.

Definition _dedupe_observations (observations : list BehaviorObservation) : list BehaviorObservation :=
  drop_seen [] (py_sorted observed_le observations).

Definition MICROSECONDS : Z := 1000000.

(** [matched and max_step_gap_seconds is not None and gap > max_step_gap_seconds] *)
Definition gap_exceeded (max_gap : option Z) (last : option BehaviorObservation)
    (candidate : BehaviorObservation) : bool :=
  match last, max_gap with
  | Some m, Some g => g * MICROSECONDS <? bo_observed_at candidate - bo_observed_at m
  | _, _ => false
  end.

(** The inner loop from [search_from] on: the first candidate that fits, and what follows it. *)
Fixpoint find_step (step : SequenceStep) (max_gap : option Z) (last : option BehaviorObservation)
    (rest : list BehaviorObservation) : option (BehaviorObservation * list BehaviorObservation) :=
  match rest with
  | [] => None
  | candidate :: rest' =>
      if negb (observation_matches_criteria candidate step) || gap_exceeded max_gap last candidate
      then find_step step max_gap last rest'
      else Some (candidate, rest')
  end.

Fixpoint match_steps (steps : list SequenceStep) (max_gap : option Z) (last : option BehaviorObservation)
    (rest : list BehaviorObservation) : option (list BehaviorObservation) :=
  match steps with
  | [] => Some []
  | step :: steps' =>
      match find_step step max_gap last rest with
      | None => None
      | Some (found, rest') => (λ l, found :: l) <$> match_steps steps' max_gap (Some found) rest'
      end
  end.

Definition find_ordered_sequence_match (observations : list BehaviorObservation) (steps : list SequenceStep)
    (max_step_gap_seconds : option Z) : option (list BehaviorObservation) :=
  match steps with
  | [] => None
  | _ => match_steps steps max_step_gap_seconds None (_dedupe_observations observations)
  end.

(** [{key: step[key] for key in sorted(step)}] *)
Definition sorted_step (step : SequenceStep) : SequenceStep :=
  py_sorted (λ a b, String.leb a.1 b.1) step.

Fixpoint step_records (index : Z) (matched : list BehaviorObservation) (steps : list SequenceStep) :
    list (list (string * pyval)) :=
  match matched, steps with
  | o :: matched', step :: steps' =>
      [("step_index", VInt index); ("observation_id", VStr (bo_observation_id o));
       ("source_revision", VInt (bo_source_revision o)); ("action", opt_str (bo_action o));
       ("category", opt_str (bo_category o)); ("observed_at", VStr (isoformat (bo_observed_at o)));
       ("step_criteria", VDict (sorted_step step))] :: step_records (index + 1) matched' steps'
  | _, _ => []
  end.

Definition _build_step_match_records : list BehaviorObservation → list SequenceStep →
    list (list (string * pyval)) := step_records 0.

Definition _build_match_explanation (sequence_id : string) (matched : list BehaviorObservation) : string :=
  "matched sequence " +++ sequence_id +++ ": "
  +++ str_join "→" ((λ o, default "?" (non_empty_text (bo_action o))) <$> matched).

Definition sequence_match {S B} (rule : DetectionRuleDefinition) (context : OperatorExecutionContext S B)
    (release : SequenceRelease) (gap : Z) (g : GroupKey * list BehaviorObservation) : option OperatorMatch :=
  match find_ordered_sequence_match g.2 (sq_sequence_steps release) (Some gap) with
  | None => None
  | Some matched =>
      let value := q_of_nat (length matched) in
      if q_lt value (dr_threshold rule) then None
      else
        let ids := bo_observation_id <$> matched in
        Some {| om_group_key := g.1; om_matched_value := Fin value; om_observation_ids := ids;
                om_snapshot_ids := []; om_window_start := oc_window_start context;
                om_window_end := oc_window_end context; om_scorer_provenance := None;
                om_sequence_provenance := Some
                  {| qpv_sequence_id := sq_sequence_id release;
                     qpv_sequence_hash := sq_sequence_hash release;
                     qpv_max_step_gap_seconds := sq_max_step_gap_seconds release;
                     qpv_ordered_observation_ids := ids;
                     qpv_sequence_step_matches := _build_step_match_records matched (sq_sequence_steps release);
                     qpv_match_explanation := _build_match_explanation (sq_sequence_id release) matched |} |}
  end.

Definition event_sequence_evaluate {S B} (rule : DetectionRuleDefinition)
    (context : OperatorExecutionContext S B) : result (list OperatorMatch) :=
  observations ← bounded_observations (oc_observations context) (dr_max_observation_scan rule);
  resolved ← _resolve_sequence_release rule;
  let '(release, gap) := resolved in
  grouped ← group_observations rule (λ _, true) (λ o, o) observations [];
  Ok (omap (M:=list) (sequence_match rule context release gap) grouped).
End sequences.
