(* ===== verification/FeatureSnapshots.v ===== *)
(** * Feature snapshots and baselines (services/feature_snapshot_resolver.py,
      models/feature_snapshot.py, detection/scoring/robust_stats.py)

    A snapshot aggregates the observations of one entity in an event-time window; a baseline
    aggregates the ready snapshots up to a cutoff with robust statistics.  Instants and spans are
    whole microseconds.  The hashes, the square root and the readings of untyped feature values
    are arguments.  Of the length limits of the models, that on the observation list is kept: it
    is the one ordinary data can exceed. *)

From stdpp Require Import prelude strings sorting pretty.
From Stdlib Require Import QArith Qround Qabs.
From S2P Require Import Prelude Errors Detection.

#[local] Open Scope string_scope.
#[local] Open Scope Z_scope.
#[local] Open Scope list_scope.

Definition FEATURE_SNAPSHOT_SCHEMA_VERSION : string := "1.0".
Definition FEATURE_CONTRACT_VERSION : string := "1.0".
Definition BASELINE_SCHEMA_VERSION : string := "1.0".
Definition MIN_OBSERVATIONS_1H : Z := 3.
Definition MIN_OBSERVATIONS_24H : Z := 5.
Definition MIN_OBSERVATIONS_7D : Z := 10.
Definition MIN_OBSERVATIONS_30D : Z := 20.
Definition DEFAULT_ALLOWED_LATENESS : Z := 15 * 60 * MICROSECONDS.
Definition HOUR : Z := 3600 * MICROSECONDS.
Definition DAY : Z := 24 * HOUR.

(** ** Robust statistics (detection/scoring/robust_stats.py) *)

Definition at_index (l : list Q) (i : Z) : Q := default 0%Q (l !! Z.to_nat i).

Definition no_values (what : string) : error :=
  builtin_error ValueError (what +++ " requires at least one value").

Definition sorted_q (values : list Q) : list Q := py_sorted Qle_bool values.

Definition median (values : list Q) : result Q :=
  match values with
  | [] => Err (no_values "median")
  | _ =>
      let ordered := sorted_q values in
      let n := Z.of_nat (length ordered) in
      let mid := n / 2 in
      if n mod 2 =? 1 then Ok (at_index ordered mid)
      else Ok ((at_index ordered (mid - 1) + at_index ordered mid) / 2)%Q
  end.

(** Median absolute deviation. *)
Definition mad (values : list Q) (center : option Q) : result Q :=
  match values with
  | [] => Err (no_values "mad")
  | _ =>
      med ← match center with Some c => Ok c | None => median values end;
      median ((λ v, Qabs (v - med)) <$> values)
  end.

Definition q_min (a b : Q) : Q := if Qle_bool a b then a else b.
Definition q_max (a b : Q) : Q := if Qle_bool a b then b else a.

Definition quantile (values : list Q) (q : Q) : result Q :=
  match values with
  | [] => Err (no_values "quantile")
  | v :: values' =>
      if Qle_bool q 0 then Ok (foldl q_min v values')
      else if Qle_bool 1 q then Ok (foldl q_max v values')
      else
        let ordered := sorted_q values in
        let pos := (inject_Z (Z.of_nat (length ordered) - 1) * q)%Q in
        let lower := Qfloor pos in
        let upper := Qceiling pos in
        if lower =? upper then Ok (at_index ordered lower)
        else
          let weight := (pos - inject_Z lower)%Q in
          Ok (at_index ordered lower * (1 - weight) + at_index ordered upper * weight)%Q
  end.

(** [round(x, digits)]: to the nearest, a tie to the even neighbour. *)
Definition round_even (q : Q) : Z :=
  let f := Qfloor q in
  match Qcompare (q - inject_Z f) (1 # 2) with
  | Lt => f
  | Gt => f + 1
  | Eq => if Z.even f then f else f + 1
  end.

Definition py_round (scale : positive) (q : Q) : Q := Qmake (round_even (q * inject_Z (Zpos scale))) scale.

Definition round4 : Q → Q := py_round 10000.

Definition robust_feature_stats (values : list Q) : result (list (string * Q)) :=
  med ← median values;
  deviation ← mad values (Some med);
  p25 ← quantile values (1 # 4);
  p75 ← quantile values (3 # 4);
  p95 ← quantile values (95 # 100);
  Ok [("median", round4 med); ("mad", round4 deviation); ("p25", round4 p25); ("p75", round4 p75);
      ("p95", round4 p95)].

(** ** Windows *)

Definition _WINDOW_DURATIONS (k : FeatureWindowKind) : Z :=
  match k with
  | FeatureWindowKind.ONE_HOUR => HOUR
  | FeatureWindowKind.TWENTY_FOUR_HOURS => DAY
  | FeatureWindowKind.SEVEN_DAYS => 7 * DAY
  | FeatureWindowKind.THIRTY_DAYS => 30 * DAY
  end.

Definition _MIN_OBSERVATIONS (k : FeatureWindowKind) : Z :=
  match k with
  | FeatureWindowKind.ONE_HOUR => MIN_OBSERVATIONS_1H
  | FeatureWindowKind.TWENTY_FOUR_HOURS => MIN_OBSERVATIONS_24H
  | FeatureWindowKind.SEVEN_DAYS => MIN_OBSERVATIONS_7D
  | FeatureWindowKind.THIRTY_DAYS => MIN_OBSERVATIONS_30D
  end.

Definition _COVERAGE_FRACTION (k : FeatureWindowKind) : Q :=
  match k with
  | FeatureWindowKind.ONE_HOUR => 1 # 2
  | FeatureWindowKind.TWENTY_FOUR_HOURS => 1 # 4
  | FeatureWindowKind.SEVEN_DAYS => 1 # 5
  | FeatureWindowKind.THIRTY_DAYS => 15 # 100
  end.

(** [cutoff.replace(minute=0, second=0, microsecond=0)], and the same with [hour=0]. *)
Definition truncate_to (span t : Z) : Z := t - t mod span.

Definition align_window_end (cutoff_at : Z) (k : FeatureWindowKind) : Z :=
  let span := if k ==? FeatureWindowKind.ONE_HOUR then HOUR else DAY in
  let aligned := truncate_to span cutoff_at in
  if cutoff_at <? aligned then aligned - span else aligned.

Definition compute_window_bounds (cutoff_at : Z) (k : FeatureWindowKind) : Z * Z :=
  let window_end := align_window_end cutoff_at k in
  (window_end - _WINDOW_DURATIONS k, window_end).

Definition effective_observation_upper_bound (window_end cutoff_at allowed_lateness : Z) : Z :=
  if cutoff_at <=? window_end + allowed_lateness then cutoff_at else window_end.

Definition observation_matches_entity (o : BehaviorObservation) (entity_type entity_id : string) : bool :=
  existsb (λ r, (er_entity_type r ==? entity_type) && (er_entity_id r ==? entity_id)) (bo_entity_refs o).

Definition filter_observations_for_entity (observations : list BehaviorObservation)
    (entity_type entity_id : string) (window_start upper_bound : Z) : list BehaviorObservation :=
  py_sorted observed_le
    (List.filter (λ o, negb ((bo_observed_at o <? window_start) || (upper_bound <? bo_observed_at o))
                       && observation_matches_entity o entity_type entity_id) observations).

(** ** Features

    A feature value: a number, a table of counts, or another JSON value. *)
Inductive feature : Type :=
| FNum (q : Q)
| FCounts (counts : list (string * Z))
| FRaw (v : pyval).

Definition Features : Type := list (string * feature).

(** [d[k] = d.get(k, 0) + 1] for a non-empty text *)
Definition count_text (t : option string) (counts : list (string * Z)) : list (string * Z) :=
  match non_empty_text t with
  | Some k => dict_set counts k (default 0 (dict_get counts k) + 1)
  | None => counts
  end.

Definition count_texts (field : BehaviorObservation → option string) (l : list BehaviorObservation) :
    list (string * Z) := foldl (λ counts o, count_text (field o) counts) [] l.

Definition sum_q (l : list Q) : Q := foldl Qplus 0%Q l.

Definition mean (l : list Q) : Q := (sum_q l / q_of_nat (length l))%Q.

Definition _aggregate_features (observations : list BehaviorObservation) : Features :=
  let action_counts := count_texts bo_action observations in
  let category_counts := count_texts bo_category observations in
  let scores := omap (M:=list) bo_detection_score observations in
  [("observation_count", FNum (q_of_nat (length observations)));
   ("unique_action_count", FNum (q_of_nat (length action_counts)));
   ("unique_category_count", FNum (q_of_nat (length category_counts)));
   ("action_counts", FCounts action_counts);
   ("category_counts", FCounts category_counts)]
  ++ match scores with
     | [] => []
     | s :: scores' => [("avg_detection_score", FNum (round4 (mean scores)));
                        ("max_detection_score", FNum (foldl q_max s scores'))]
     end.

Definition _evaluate_readiness (observations : list BehaviorObservation) (k : FeatureWindowKind) :
    FeatureSnapshotStatus :=
  if Z.of_nat (length observations) <? _MIN_OBSERVATIONS k then FeatureSnapshotStatus.INSUFFICIENT_HISTORY
  else match head observations, last observations with
       | Some first_at, Some last_at =>
           if q_lt (inject_Z (bo_observed_at last_at - bo_observed_at first_at))
                (inject_Z (_WINDOW_DURATIONS k) * _COVERAGE_FRACTION k)
           then FeatureSnapshotStatus.INSUFFICIENT_COVERAGE
           else FeatureSnapshotStatus.READY
       | _, _ => FeatureSnapshotStatus.READY
       end.

(** ** Snapshots *)

Record FeatureSnapshotProvenance : Type := {
  fp_observation_ids : list string;
  fp_observation_count : Z;
  fp_first_observed_at : option Z;
  fp_last_observed_at : option Z
}.

(** The keys the content hash covers. *)
Record SnapshotContent : Type := {
  sc_source_tenant_id : string;
  sc_detection_scope_id : string;
  sc_entity_type : string;
  sc_entity_id : string;
  sc_feature_contract_version : string;
  sc_window_kind : FeatureWindowKind;
  sc_window_start : Z;
  sc_window_end : Z;
  sc_cutoff_at : Z;
  sc_allowed_lateness_seconds : Z;
  sc_source_watermark : Z;
  sc_status : FeatureSnapshotStatus;
  sc_features : Features;
  sc_provenance : FeatureSnapshotProvenance;
  sc_revision : Z;
  sc_schema_version : string
}.

Record FeatureSnapshot : Type := {
  fs_content : SnapshotContent;
  fs_snapshot_id : string;
  fs_supersedes_snapshot_id : option string;
  fs_content_hash : string;
  fs_cache_key : string;
  fs_idempotency_key : string
}.

Record SeasonalityProfile : Type := {
  sp_hour_of_week : list (string * Z);
  sp_sample_snapshot_count : Z
}.

(** The entries of [stats]: numbers, and the table of robust statistics. *)
Inductive stat : Type :=
| StNum (q : Q)
| StRobust (d : list (string * list (string * Q))).

Record BaselineContent : Type := {
  bc_source_tenant_id : string;
  bc_detection_scope_id : string;
  bc_entity_type : string;
  bc_entity_id : string;
  bc_peer_group_id : option string;
  bc_feature_contract_version : string;
  bc_window_kind : FeatureWindowKind;
  bc_cutoff_at : Z;
  bc_status : DetectionBaselineStatus;
  bc_stats : list (string * stat);
  bc_seasonality_profile : option SeasonalityProfile;
  bc_snapshot_revision_refs : list string;
  bc_revision : Z;
  bc_schema_version : string
}.

Record DetectionFeatureBaseline : Type := {
  fb_content : BaselineContent;
  fb_baseline_id : string;
  fb_supersedes_baseline_id : option string;
  fb_content_hash : string;
  fb_cache_key : string;
  fb_idempotency_key : string
}.

Record SnapshotEnv : Type := {
  sv_sha256 : string → string;  (* hexdigest of a text *)
  sv_snapshot_hash : SnapshotContent → string;
  sv_baseline_hash : BaselineContent → string;
  sv_isoformat : Z → string;
  sv_sqrt : Q → Q;
  sv_float : pyval → option pyfloat;  (* float(v), None when it raises *)
  sv_int : pyval → option Z;  (* int(v), None when it raises *)
  sv_pydantic_message : string → string  (* the text of a model error *)
}.

Section snapshots.
Context (sv : SnapshotEnv).

Definition pydantic_error (what : string) : error :=
  {| err_class := PydanticValidationError; err_message := sv_pydantic_message sv what; err_code := "";
     err_status := 500; err_details := [] |}.

Definition MAX_PROVENANCE_OBSERVATIONS : nat := 256.

Definition build_snapshot_idempotency_key (scope entity_type entity_id version : string)
    (k : FeatureWindowKind) (window_end cutoff_at revision : Z) : string :=
  scope +++ ":" +++ entity_type +++ ":" +++ entity_id +++ ":" +++ version +++ ":" +++ enum_value k +++ ":"
  +++ sv_isoformat sv window_end +++ ":" +++ sv_isoformat sv cutoff_at +++ ":rev" +++ pretty revision.

Definition build_snapshot_id (content_hash : string) (revision : Z) : string :=
  "fsnap-" +++ str_take 12 (sv_sha256 sv (content_hash +++ "|rev" +++ pretty revision)).

Record SnapshotArgs : Type := {
  sa_source_tenant_id : string;
  sa_detection_scope_id : string;
  sa_entity_type : string;
  sa_entity_id : string;
  sa_window_kind : FeatureWindowKind;
  sa_cutoff_at : Z;
  sa_revision : Z;
  sa_supersedes_snapshot_id : option string;
  sa_allowed_lateness : Z;
  sa_feature_contract_version : string;
  sa_snapshot_id : option string
}.

(** [id or generated] *)
Definition or_generated (given : option string) (generated : string) : string :=
  default generated (non_empty_text given).

Definition snapshot_provenance (matched : list BehaviorObservation) : result FeatureSnapshotProvenance :=
  raise_if (bool_decide (MAX_PROVENANCE_OBSERVATIONS < length matched)%nat)
    (pydantic_error "FeatureSnapshotProvenance.observation_ids") ;;
  Ok {| fp_observation_ids := bo_observation_id <$> matched;
        fp_observation_count := Z.of_nat (length matched);
        fp_first_observed_at := bo_observed_at <$> head matched;
        fp_last_observed_at := bo_observed_at <$> last matched |}.

Definition snapshot_content (a : SnapshotArgs) (matched : list BehaviorObservation)
    (provenance : FeatureSnapshotProvenance) : SnapshotContent :=
  let '(window_start, window_end) := compute_window_bounds (sa_cutoff_at a) (sa_window_kind a) in
  let status := _evaluate_readiness matched (sa_window_kind a) in
  {| sc_source_tenant_id := sa_source_tenant_id a;
     sc_detection_scope_id := sa_detection_scope_id a;
     sc_entity_type := sa_entity_type a;
     sc_entity_id := sa_entity_id a;
     sc_feature_contract_version := sa_feature_contract_version a;
     sc_window_kind := sa_window_kind a;
     sc_window_start := window_start;
     sc_window_end := window_end;
     sc_cutoff_at := sa_cutoff_at a;
     sc_allowed_lateness_seconds := sa_allowed_lateness a / MICROSECONDS;
     sc_source_watermark := match last matched with
                            | Some o => Z.min (sa_cutoff_at a) (bo_observed_at o)
                            | None => sa_cutoff_at a
                            end;
     sc_status := status;
     sc_features := if status ==? FeatureSnapshotStatus.READY then _aggregate_features matched else [];
     sc_provenance := provenance;
     sc_revision := sa_revision a;
     sc_schema_version := FEATURE_SNAPSHOT_SCHEMA_VERSION |}.

Definition build_feature_snapshot (a : SnapshotArgs) (observations : list BehaviorObservation) :
    result FeatureSnapshot :=
  raise_if (sa_revision a <? 1) (validation_error "revision must be >= 1" []) ;;
  let '(window_start, window_end) := compute_window_bounds (sa_cutoff_at a) (sa_window_kind a) in
  let upper := effective_observation_upper_bound window_end (sa_cutoff_at a) (sa_allowed_lateness a) in
  let matched := filter_observations_for_entity observations (sa_entity_type a) (sa_entity_id a)
                   window_start upper in
  provenance ← snapshot_provenance matched;
  let body := snapshot_content a matched provenance in
  let content_hash := sv_snapshot_hash sv body in
  Ok {| fs_content := body;
        fs_snapshot_id := or_generated (sa_snapshot_id a) (build_snapshot_id content_hash (sa_revision a));
        fs_supersedes_snapshot_id := sa_supersedes_snapshot_id a;
        fs_content_hash := content_hash;
        fs_cache_key := content_hash;
        fs_idempotency_key := build_snapshot_idempotency_key (sa_detection_scope_id a) (sa_entity_type a)
          (sa_entity_id a) (sa_feature_contract_version a) (sa_window_kind a) window_end (sa_cutoff_at a)
          (sa_revision a) |}.

(** [load_observations_for_window] and [materialize_snapshot]: the rows are those of the table. *)
Definition observed_asc (a b : BehaviorObservation) : bool := bo_observed_at a <=? bo_observed_at b.

Definition load_observations_for_window (table : list BehaviorObservation) (tenant scope : string)
    (window_start upper_bound : Z) : list BehaviorObservation :=
  py_sorted observed_asc
    (List.filter (λ o, (bo_source_tenant_id o ==? tenant) && (bo_detection_scope_id o ==? scope)
                       && (window_start <=? bo_observed_at o) && (bo_observed_at o <=? upper_bound)) table).

Definition materialize_snapshot (table : list BehaviorObservation) (a : SnapshotArgs) : result FeatureSnapshot :=
  let '(window_start, window_end) := compute_window_bounds (sa_cutoff_at a) (sa_window_kind a) in
  let upper := effective_observation_upper_bound window_end (sa_cutoff_at a) (sa_allowed_lateness a) in
  build_feature_snapshot a (load_observations_for_window table (sa_source_tenant_id a)
                              (sa_detection_scope_id a) window_start upper).
End snapshots.

(** ** Latest revisions *)

(** [latest[key] = snap] when the key is new or the revision higher; a key keeps its place. *)
Fixpoint keep_latest {K} `{EqDecision K} (latest : list (K * FeatureSnapshot)) (key : K)
    (snap : FeatureSnapshot) : list (K * FeatureSnapshot) :=
  match latest with
  | [] => [(key, snap)]
  | (k, current) :: latest' =>
      if key ==? k then
        (k, if sc_revision (fs_content current) <? sc_revision (fs_content snap) then snap else current)
        :: latest'
      else (k, current) :: keep_latest latest' key snap
  end.

Definition latest_by {K} `{EqDecision K} (key : FeatureSnapshot → K) (l : list FeatureSnapshot) :
    list FeatureSnapshot := (foldl (λ latest snap, keep_latest latest (key snap) snap) [] l).*2.

(** Lexicographic order by two keys. *)
Definition lex_le (c : comparison) (b : bool) : bool :=
  match c with Lt => true | Eq => b | Gt => false end.

Definition by_cutoff_revision (a b : FeatureSnapshot) : bool :=
  lex_le (sc_cutoff_at (fs_content a) ?= sc_cutoff_at (fs_content b))
    (sc_revision (fs_content a) <=? sc_revision (fs_content b)).

Definition by_cutoff_id (a b : FeatureSnapshot) : bool :=
  lex_le (sc_cutoff_at (fs_content a) ?= sc_cutoff_at (fs_content b))
    (String.leb (fs_snapshot_id a) (fs_snapshot_id b)).

Definition by_entity_revision (a b : FeatureSnapshot) : bool :=
  lex_le (String.compare (sc_entity_type (fs_content a)) (sc_entity_type (fs_content b)))
    (lex_le (String.compare (sc_entity_id (fs_content a)) (sc_entity_id (fs_content b)))
       (sc_revision (fs_content a) <=? sc_revision (fs_content b))).

Definition dedupe_latest_snapshot_revisions (l : list FeatureSnapshot) : list FeatureSnapshot :=
  py_sorted by_cutoff_revision
    (latest_by (λ s, (sc_window_end (fs_content s), sc_cutoff_at (fs_content s))) l).

Definition dedupe_latest_snapshots_by_entity (l : list FeatureSnapshot) : list FeatureSnapshot :=
  py_sorted by_entity_revision
    (latest_by (λ s, (sc_entity_type (fs_content s), sc_entity_id (fs_content s))) l).

(** ** Baselines *)

Definition is_ready (s : FeatureSnapshot) : bool :=
  sc_status (fs_content s) ==? FeatureSnapshotStatus.READY.

(** [max(counts.items(), key=lambda item: (item[1], item[0]))[0]] *)
Definition item_lt (a b : string * Z) : bool :=
  (a.2 <? b.2) || ((a.2 =? b.2) && negb (String.leb b.1 a.1)).

Definition dominant (counts : list (string * Z)) : option string :=
  match counts with
  | [] => None
  | c :: counts' => Some (foldl (λ best item, if item_lt best item then item else best) c counts').1
  end.

Definition _primary_category_from_features (features : Features) : option string :=
  match dict_get features "category_counts" with Some (FCounts counts) => dominant counts | _ => None end.

(** [observed.weekday() * 24 + observed.hour]; the first of January 1970 was a Thursday. *)
Definition hour_of_week (t : Z) : Z := ((t / DAY + 3) mod 7) * 24 + (t mod DAY) / HOUR.

Definition _build_seasonality_profile (l : list FeatureSnapshot) : SeasonalityProfile :=
  let ready := List.filter is_ready l in
  {| sp_hour_of_week :=
       foldl (λ d s, let key := pretty (hour_of_week (sc_window_end (fs_content s))) in
                     dict_set d key (default 0 (dict_get d key) + 1)) [] ready;
     sp_sample_snapshot_count := Z.of_nat (length ready) |}.

Section baselines.
Context (sv : SnapshotEnv).

Definition derive_peer_group_id (entity_type : string) (primary_category : option string) : string :=
  "peer-" +++ str_take 10
    (sv_sha256 sv (entity_type +++ "|" +++ default "_none_" (non_empty_text primary_category))).

Definition build_baseline_idempotency_key (scope entity_type entity_id : string) (k : FeatureWindowKind)
    (cutoff_at revision : Z) : string :=
  scope +++ ":" +++ entity_type +++ ":" +++ entity_id +++ ":" +++ enum_value k +++ ":"
  +++ sv_isoformat sv cutoff_at +++ ":rev" +++ pretty revision.

Definition build_baseline_id (content_hash : string) (revision : Z) : string :=
  "fbase-" +++ str_take 12 (sv_sha256 sv (content_hash +++ "|baseline|rev" +++ pretty revision)).

(** [int(features.get(name, 0))] *)
Definition int_feature (features : Features) (name : string) : result Z :=
  match dict_get features name with
  | None => Ok 0
  | Some (FNum q) => Ok (if Qle_bool 0 q then Qfloor q else Qceiling q)
  | Some (FRaw v) => match sv_int sv v with Some z => Ok z | None => Err (builtin_error ValueError name) end
  | Some (FCounts _) => Err (builtin_error OtherError name)
  end.

(** [float(features.get(name, 0))] *)
Definition float_feature (features : Features) (name : string) : result Q :=
  match dict_get features name with
  | None => Ok 0%Q
  | Some (FNum q) => Ok q
  | Some (FRaw v) =>
      match sv_float sv v with Some (Fin q) => Ok q | _ => Err (builtin_error ValueError name) end
  | Some (FCounts _) => Err (builtin_error OtherError name)
  end.

Fixpoint map_result {A B} (f : A → result B) (l : list A) : result (list B) :=
  match l with
  | [] => Ok []
  | x :: l' => y ← f x; ys ← map_result f l'; Ok (y :: ys)
  end.

(** The numeric [avg_detection_score] of the snapshots that have one. *)
Definition score_feature (s : FeatureSnapshot) : option Q :=
  match dict_get (sc_features (fs_content s)) "avg_detection_score" with
  | Some (FNum q) => Some q
  | Some (FRaw v) => inject_Z <$> int_like v
  | _ => None
  end.

Definition eligible_snapshots (l : list FeatureSnapshot) (cutoff : Z) : list FeatureSnapshot :=
  py_sorted by_cutoff_id
    (List.filter (λ s, is_ready s && (sc_cutoff_at (fs_content s) <=? cutoff))
       (dedupe_latest_snapshot_revisions l)).

Definition min_required (k : FeatureWindowKind) : Z := Z.max 2 (_MIN_OBSERVATIONS k / 2).

Definition ready_stats (eligible : list FeatureSnapshot) (scores : list Q) (counts : list Z) :
    result (list (string * stat)) :=
  unique_actions ← map_result (λ s, float_feature (sc_features (fs_content s)) "unique_action_count") eligible;
  observation_count ← robust_feature_stats (inject_Z <$> counts);
  avg ← robust_feature_stats scores;
  unique ← robust_feature_stats unique_actions;
  let mean_score := mean scores in
  let variance := mean ((λ v, (v - mean_score) * (v - mean_score))%Q <$> scores) in
  Ok [("snapshot_count", StNum (q_of_nat (length eligible)));
      ("mean_avg_detection_score", StNum (round4 mean_score));
      ("std_avg_detection_score", StNum (round4 (sv_sqrt sv variance)));
      ("mean_observation_count", StNum (round4 (mean (inject_Z <$> counts))));
      ("max_observation_count", StNum (inject_Z (foldl Z.max (default 0 (head counts)) counts)));
      ("robust", StRobust [("observation_count", observation_count); ("avg_detection_score", avg);
                           ("unique_action_count", unique)])].

Definition baseline_stats (eligible : list FeatureSnapshot) (k : FeatureWindowKind) :
    result (DetectionBaselineStatus * list (string * stat)) :=
  if Z.of_nat (length eligible) <? min_required k
  then Ok (DetectionBaselineStatus.INSUFFICIENT_HISTORY, [])
  else
    let scores := omap (M:=list) score_feature eligible in
    counts ← map_result (λ s, int_feature (sc_features (fs_content s)) "observation_count") eligible;
    if Z.of_nat (length scores) <? min_required k
    then Ok (DetectionBaselineStatus.INSUFFICIENT_COVERAGE,
             [("snapshot_count", StNum (q_of_nat (length eligible)))])
    else
      stats ← ready_stats eligible scores counts;
      Ok (DetectionBaselineStatus.READY, stats).

Record BaselineArgs : Type := {
  ba_source_tenant_id : string;
  ba_detection_scope_id : string;
  ba_entity_type : string;
  ba_entity_id : string;
  ba_window_kind : FeatureWindowKind;
  ba_cutoff_at : Z;
  ba_revision : Z;
  ba_supersedes_baseline_id : option string;
  ba_baseline_id : option string;
  ba_feature_contract_version : string
}.

(** [l[-n:]] *)
Definition last_n {A} (n : nat) (l : list A) : list A := drop (length l - n) l.

Definition build_detection_feature_baseline (a : BaselineArgs) (snapshots : list FeatureSnapshot) :
    result DetectionFeatureBaseline :=
  let eligible := eligible_snapshots snapshots (ba_cutoff_at a) in
  status_stats ← baseline_stats eligible (ba_window_kind a);
  let '(status, stats) := status_stats in
  let body :=
    {| bc_source_tenant_id := ba_source_tenant_id a;
       bc_detection_scope_id := ba_detection_scope_id a;
       bc_entity_type := ba_entity_type a;
       bc_entity_id := ba_entity_id a;
       bc_peer_group_id :=
         (λ s, derive_peer_group_id (ba_entity_type a)
                 (_primary_category_from_features (sc_features (fs_content s)))) <$> last eligible;
       bc_feature_contract_version := ba_feature_contract_version a;
       bc_window_kind := ba_window_kind a;
       bc_cutoff_at := ba_cutoff_at a;
       bc_status := status;
       bc_stats := stats;
       bc_seasonality_profile :=
         match eligible with [] => None | _ => Some (_build_seasonality_profile eligible) end;
       bc_snapshot_revision_refs := fs_snapshot_id <$> last_n 16 eligible;
       bc_revision := ba_revision a;
       bc_schema_version := BASELINE_SCHEMA_VERSION |} in
  let content_hash := sv_baseline_hash sv body in
  Ok {| fb_content := body;
        fb_baseline_id := or_generated (ba_baseline_id a) (build_baseline_id content_hash (ba_revision a));
        fb_supersedes_baseline_id := ba_supersedes_baseline_id a;
        fb_content_hash := content_hash;
        fb_cache_key := content_hash;
        fb_idempotency_key := build_baseline_idempotency_key (ba_detection_scope_id a) (ba_entity_type a)
          (ba_entity_id a) (ba_window_kind a) (ba_cutoff_at a) (ba_revision a) |}.
End baselines.
