(* ===== verification/AnomalyScoring.v ===== *)
(** * Anomaly scoring and the snapshot operators (detection/scoring/anomaly_scorer.py,
      detection/scoring/release.py, detection/operators/value_count.py,
      detection/operators/statistical_anomaly.py)

    A snapshot is scored against the robust statistics of its baseline: the largest modified
    z-score over the features of a frozen release decides, and is calibrated to 0..100. *)

From stdpp Require Import prelude strings sorting pretty.
From Stdlib Require Import QArith Qround Qabs.
From S2P Require Import Prelude Errors Detection FeatureSnapshots.

#[local] Open Scope string_scope.
#[local] Open Scope Z_scope.
#[local] Open Scope list_scope.

(** ** Modified z-scores (robust_stats.py) *)

Definition _MAD_SCALE_FACTOR : Q := 6745 # 10000.
Definition _MIN_QUANTILE_SCALE : Q := 1 # 1000000.

Definition robust_z_score (value center scale : Q) : Q :=
  if Qle_bool scale 0 then 0%Q else (_MAD_SCALE_FACTOR * (value - center) / scale)%Q.

(** The fallbacks when the deviation is degenerate, in the order the code tries them. *)
Definition iqr_z (value center p25 p75 half_iqr : Q) : Q :=
  if q_lt p75 value then (_MAD_SCALE_FACTOR * (value - p75) / half_iqr + _MAD_SCALE_FACTOR)%Q
  else if q_lt value p25 then (_MAD_SCALE_FACTOR * (p25 - value) / half_iqr + _MAD_SCALE_FACTOR)%Q
  else (_MAD_SCALE_FACTOR * Qabs (value - center) / half_iqr)%Q.

Definition tail_z (value center : Q) (p25 p95 : option Q) : Q * string :=
  let epsilon := (Qabs (_MAD_SCALE_FACTOR * (value - center) / _MIN_QUANTILE_SCALE), "quantile_epsilon")%Q in
  let below := match p25 with
    | Some p25 =>
        if q_lt value p25 then
          (Qabs (_MAD_SCALE_FACTOR * (center - value) / q_max (center - p25) _MIN_QUANTILE_SCALE),
           "quantile_p25")%Q
        else epsilon
    | None => epsilon
    end in
  match p95 with
  | Some p95 =>
      if q_lt p95 value then
        (Qabs (_MAD_SCALE_FACTOR * (value - center) / q_max (p95 - center) _MIN_QUANTILE_SCALE),
         "quantile_p95")%Q
      else below
  | None => below
  end.

Definition feature_anomaly_z (value : Q) (stats : list (string * Q)) : result (Q * string) :=
  match dict_get stats "median" with
  | None => Err (builtin_error KeyError "median")
  | Some center =>
      let scale := default 0%Q (dict_get stats "mad") in
      if q_lt 0 scale then Ok (Qabs (robust_z_score value center scale), "mad")
      else if Qeq_bool value center then Ok (0%Q, "mad_degenerate")
      else
        let p25 := dict_get stats "p25" in
        let p95 := dict_get stats "p95" in
        match p25, dict_get stats "p75" with
        | Some q25, Some q75 =>
            let half_iqr := ((q75 - q25) / 2)%Q in
            if q_lt _MIN_QUANTILE_SCALE half_iqr
            then Ok (iqr_z value center q25 q75 half_iqr, "quantile_iqr")
            else Ok (tail_z value center p25 p95)
        | _, _ => Ok (tail_z value center p25 p95)
        end
  end.

(** ** Releases (detection/scoring/release.py) *)

Definition SCORED_ACCOUNT_FEATURES : list string :=
  ["observation_count"; "avg_detection_score"; "unique_action_count"].
Definition MOCK_ACCOUNT_MAD_RELEASE_ID : string := "mock-account-mad-v1".
Definition MOCK_ACCOUNT_CALIBRATION_VERSION : string := "mad_robust_z_v1".
Definition MOCK_ACCOUNT_THRESHOLD_VERSION : string := "robust_z_3.5".
Definition MOCK_ACCOUNT_CONTAMINATION : Q := 5 # 100.
Definition DEFAULT_ROBUST_Z_THRESHOLD : Q := 35 # 10.

Record AnomalyScorerRelease : Type := {
  ar_release_id : string;
  ar_release_hash : string;
  ar_calibration_version : string;
  ar_threshold_version : string;
  ar_contamination : Q;
  ar_feature_contract_version : string;
  ar_scored_features : list string;
  ar_default_robust_z_threshold : Q
}.

Definition verify_hash (release : AnomalyScorerRelease) (expected : option string) : result unit :=
  match expected with
  | None => Ok tt
  | Some h =>
      raise_if (h !=? ar_release_hash release)
        (validation_error "anomaly scorer release hash mismatch"
           [("expected_release_hash", VStr h); ("actual_release_hash", VStr (ar_release_hash release));
            ("release_id", VStr (ar_release_id release)); ("category", VStr "artifact_hash_mismatch")])
  end.

(** The digest of the frozen release is computed when the module is loaded. *)
Definition build_mock_account_mad_release (release_hash : string) : AnomalyScorerRelease :=
  {| ar_release_id := MOCK_ACCOUNT_MAD_RELEASE_ID;
     ar_release_hash := release_hash;
     ar_calibration_version := MOCK_ACCOUNT_CALIBRATION_VERSION;
     ar_threshold_version := MOCK_ACCOUNT_THRESHOLD_VERSION;
     ar_contamination := MOCK_ACCOUNT_CONTAMINATION;
     ar_feature_contract_version := FEATURE_CONTRACT_VERSION;
     ar_scored_features := SCORED_ACCOUNT_FEATURES;
     ar_default_robust_z_threshold := DEFAULT_ROBUST_Z_THRESHOLD |}.

(** ** The scorer *)

Definition MAX_FEATURE_VALUE : Q := 1000000 # 1.
Definition MAX_CONTRIBUTING_FEATURES : nat := 8.

Module ScorerErrorCategory.
Inductive ScorerErrorCategory : Type :=
| INSUFFICIENT_HISTORY
| INSUFFICIENT_COVERAGE
| ARTIFACT_HASH_MISMATCH
| POISONED_INPUT
| BASELINE_HASH_MISMATCH.

#[global] Instance ScorerErrorCategory_eq_dec : EqDecision ScorerErrorCategory.
Proof. solve_decision. Defined.

Definition value (x : ScorerErrorCategory) : string :=
  match x with
  | INSUFFICIENT_HISTORY => "insufficient_history"
  | INSUFFICIENT_COVERAGE => "insufficient_coverage"
  | ARTIFACT_HASH_MISMATCH => "artifact_hash_mismatch"
  | POISONED_INPUT => "poisoned_input"
  | BASELINE_HASH_MISMATCH => "baseline_hash_mismatch"
  end.

#[global] Program Instance ScorerErrorCategory_str_enum : StrEnum ScorerErrorCategory := {|
  enum_value := value;
  enum_members := [INSUFFICIENT_HISTORY; INSUFFICIENT_COVERAGE; ARTIFACT_HASH_MISMATCH; POISONED_INPUT;
                   BASELINE_HASH_MISMATCH]
|}.
Solve All Obligations with solve_str_enum.
End ScorerErrorCategory.
Abbreviation ScorerErrorCategory := ScorerErrorCategory.ScorerErrorCategory.

Definition category_detail (c : ScorerErrorCategory) : string * pyval := ("category", VStr (enum_value c)).

Record ContributingFeature : Type := {
  cf_feature_name : string;
  cf_value : Q;
  cf_baseline_median : Q;
  cf_baseline_mad : Q;
  cf_robust_z : Q;
  cf_weight : Q;
  cf_scoring_method : string
}.

Definition as_dict (f : ContributingFeature) : string * list (string * Q) * string :=
  (cf_feature_name f,
   [("value", round4 (cf_value f)); ("baseline_median", round4 (cf_baseline_median f));
    ("baseline_mad", round4 (cf_baseline_mad f)); ("robust_z", round4 (cf_robust_z f));
    ("weight", round4 (cf_weight f))], cf_scoring_method f).

Record AnomalyScoreResult : Type := {
  as_detection_score : Q;
  as_max_robust_z : Q;
  as_is_anomaly : bool;
  as_contributing_features : list ContributingFeature;
  as_release : AnomalyScorerRelease
}.

Section scorer.
Context (sv : SnapshotEnv).

Definition raw_float (f : feature) : option pyfloat :=
  match f with FNum q => Some (Fin q) | FCounts _ => None | FRaw v => sv_float sv v end.

(** [features.get(name)] with a stored null as absent *)
Definition present_feature (features : Features) (name : string) : option feature :=
  match dict_get features name with Some (FRaw VNone) => None | f => f end.

Definition _coerce_feature_value (raw : option feature) (name : string) : result Q :=
  let named := ("feature_name", VStr name) in
  match raw with
  | None => Err (validation_error ("missing feature value: " +++ name) [named])
  | Some f =>
      match raw_float f with
      | None => Err (validation_error ("non-numeric feature value: " +++ name) [named])
      | Some (Fin q) =>
          if q_lt MAX_FEATURE_VALUE (Qabs q) then
            Err (validation_error "feature value exceeds resource limit"
                   [named; category_detail ScorerErrorCategory.POISONED_INPUT])
          else Ok q
      | Some _ =>
          Err (validation_error "poisoned feature value"
                 [named; category_detail ScorerErrorCategory.POISONED_INPUT])
      end
  end.

Definition stat_number (b : DetectionFeatureBaseline) (key : string) : option Q :=
  match dict_get (bc_stats (fb_content b)) key with Some (StNum q) => Some q | _ => None end.

Definition _robust_stats_for_feature (b : DetectionFeatureBaseline) (name : string) :
    option (list (string * Q)) :=
  let legacy :=
    match stat_number b ("median_" +++ name), stat_number b ("mad_" +++ name) with
    | Some m, Some d => Some [("median", m); ("mad", d)]
    | _, _ => None
    end in
  match dict_get (bc_stats (fb_content b)) "robust" with
  | Some (StRobust d) => match dict_get d name with Some s => Some s | None => legacy end
  | _ => legacy
  end.

(** Two decimals. *)
Definition calibrate_detection_score (max_robust_z threshold : Q) : Q :=
  if Qle_bool threshold 0 then 0%Q
  else py_round 100 (q_max 0 (q_min 1 (max_robust_z / threshold)) * 100)%Q.

(** The guards of [score_snapshot] before any feature is read. *)
Definition binding_checks (s : FeatureSnapshot) (b : DetectionFeatureBaseline)
    (release : AnomalyScorerRelease) (expected_release expected_baseline : option string) : result unit :=
  let sc := fs_content s in
  let bc := fb_content b in
  verify_hash release expected_release ;;
  raise_if (sc_feature_contract_version sc !=? ar_feature_contract_version release)
    (validation_error "feature contract version mismatch"
       [("snapshot_version", VStr (sc_feature_contract_version sc));
        ("release_version", VStr (ar_feature_contract_version release))]) ;;
  raise_if (match expected_baseline with Some h => h !=? fb_content_hash b | None => false end)
    (validation_error "baseline content hash mismatch"
       [("expected_baseline_content_hash", opt_str expected_baseline);
        ("actual_baseline_content_hash", VStr (fb_content_hash b));
        category_detail ScorerErrorCategory.BASELINE_HASH_MISMATCH]) ;;
  raise_if (sc_status sc ==? FeatureSnapshotStatus.INSUFFICIENT_HISTORY)
    (validation_error "snapshot insufficient history — cannot score"
       [category_detail ScorerErrorCategory.INSUFFICIENT_HISTORY]) ;;
  raise_if (sc_status sc ==? FeatureSnapshotStatus.INSUFFICIENT_COVERAGE)
    (validation_error "snapshot insufficient coverage — cannot score"
       [category_detail ScorerErrorCategory.INSUFFICIENT_COVERAGE]) ;;
  raise_if (bc_status bc ==? DetectionBaselineStatus.INSUFFICIENT_HISTORY)
    (validation_error "baseline insufficient history — cannot score"
       [category_detail ScorerErrorCategory.INSUFFICIENT_HISTORY]) ;;
  raise_if (bc_status bc ==? DetectionBaselineStatus.INSUFFICIENT_COVERAGE)
    (validation_error "baseline insufficient coverage — cannot score"
       [category_detail ScorerErrorCategory.INSUFFICIENT_COVERAGE]) ;;
  raise_if ((sc_source_tenant_id sc !=? bc_source_tenant_id bc)
            || (sc_detection_scope_id sc !=? bc_detection_scope_id bc)
            || (sc_entity_type sc !=? bc_entity_type bc) || (sc_entity_id sc !=? bc_entity_id bc))
    (validation_error "snapshot/baseline tenant or entity binding mismatch"
       [("snapshot_id", VStr (fs_snapshot_id s)); ("baseline_id", VStr (fb_baseline_id b))]) ;;
  raise_if (negb (sc_cutoff_at sc =? bc_cutoff_at bc))
    (validation_error "snapshot/baseline cutoff_at binding mismatch"
       [("snapshot_cutoff_at", VStr (sv_isoformat sv (sc_cutoff_at sc)));
        ("baseline_cutoff_at", VStr (sv_isoformat sv (bc_cutoff_at bc)))]) ;;
  raise_if (sc_window_kind sc !=? bc_window_kind bc)
    (validation_error "snapshot/baseline window_kind binding mismatch"
       [("snapshot_window_kind", VStr (enum_value (sc_window_kind sc)));
        ("baseline_window_kind", VStr (enum_value (bc_window_kind bc)))]).

Definition score_feature_of (s : FeatureSnapshot) (b : DetectionFeatureBaseline) (name : string) :
    result ContributingFeature :=
  let incomplete what :=
    validation_error (what +++ name)
      [("feature_name", VStr name); category_detail ScorerErrorCategory.INSUFFICIENT_COVERAGE] in
  match _robust_stats_for_feature b name with
  | None => Err (incomplete "baseline missing robust stats for feature: ")
  | Some stats =>
      match dict_get stats "median", dict_get stats "mad" with
      | Some center, Some scale =>
          value ← _coerce_feature_value (present_feature (sc_features (fs_content s)) name) name;
          z ← feature_anomaly_z value stats;
          Ok {| cf_feature_name := name; cf_value := value; cf_baseline_median := center;
                cf_baseline_mad := scale; cf_robust_z := z.1; cf_weight := 0%Q;
                cf_scoring_method := z.2 |}
      | _, _ => Err (incomplete "baseline robust stats incomplete for feature: ")
      end
  end.

Definition with_weight (f : ContributingFeature) (w : Q) : ContributingFeature :=
  {| cf_feature_name := cf_feature_name f; cf_value := cf_value f;
     cf_baseline_median := cf_baseline_median f; cf_baseline_mad := cf_baseline_mad f;
     cf_robust_z := cf_robust_z f; cf_weight := w; cf_scoring_method := cf_scoring_method f |}.

Definition weighted (l : list ContributingFeature) : list ContributingFeature :=
  let total := sum_q (cf_robust_z <$> l) in
  if q_lt 0 total then (λ f, with_weight f (cf_robust_z f / total)%Q) <$> l
  else (λ f, with_weight f (1 / q_of_nat (length l))%Q) <$> l.

(** [sorted(..., key=robust_z, reverse=True)] keeps the order of ties. *)
Definition by_z_desc (a b : ContributingFeature) : bool := Qle_bool (cf_robust_z b) (cf_robust_z a).

Definition score_snapshot (s : FeatureSnapshot) (b : DetectionFeatureBaseline)
    (release : AnomalyScorerRelease) (threshold : Q) (expected_release expected_baseline : option string) :
    result AnomalyScoreResult :=
  binding_checks s b release expected_release expected_baseline ;;
  contributing ← map_result (score_feature_of s b) (ar_scored_features release);
  match contributing with
  | [] => Err (validation_error "baseline missing robust stats for scorer release"
                 [category_detail ScorerErrorCategory.INSUFFICIENT_COVERAGE])
  | _ =>
      let max_z := foldl (λ m f, q_max m (cf_robust_z f)) 0%Q contributing in
      Ok {| as_detection_score := calibrate_detection_score max_z threshold;
            as_max_robust_z := max_z;
            as_is_anomaly := Qle_bool threshold max_z;
            as_contributing_features :=
              take MAX_CONTRIBUTING_FEATURES (py_sorted by_z_desc (weighted contributing));
            as_release := release |}
  end.

(** ** The snapshot operators *)

Definition snapshot_field (s : FeatureSnapshot) (field : string) : option string :=
  let counts_of name :=
    match dict_get (sc_features (fs_content s)) name with Some (FCounts c) => dominant c | _ => None end in
  if field ==? "entity_type" then Some (sc_entity_type (fs_content s))
  else if field ==? "entity_id" then Some (sc_entity_id (fs_content s))
  else if field ==? "category" then counts_of "category_counts"
  else if field ==? "action" then counts_of "action_counts"
  else None.

Definition group_key_from_snapshot (s : FeatureSnapshot) (fields : list string) : option GroupKey :=
  collect_fields (snapshot_field s) fields [].

(** [continue] after the policy had its say: an error under FAIL, nothing otherwise. *)
Definition skip_or_fail (rule : DetectionRuleDefinition) (reason : string) : result (option OperatorMatch) :=
  apply_missing_data_policy (dr_missing_data_policy rule) (dr_rule_id rule) reason ;; Ok None.

Definition snapshot_match (s : FeatureSnapshot) (gk : GroupKey) (value : pyfloat)
    (scorer : option ScorerProvenance) : OperatorMatch :=
  {| om_group_key := gk; om_matched_value := value; om_observation_ids := [];
     om_snapshot_ids := [fs_snapshot_id s]; om_window_start := Some (sc_window_start (fs_content s));
     om_window_end := Some (sc_window_end (fs_content s)); om_scorer_provenance := scorer;
     om_sequence_provenance := None |}.

(** One round of the loop of [ValueCountOperator.evaluate]. *)
Definition value_count_snapshot (rule : DetectionRuleDefinition) (value_field : string) (s : FeatureSnapshot) :
    result (option OperatorMatch) :=
  let counted (value : pyfloat) : result (option OperatorMatch) :=
    if float_lt value (dr_threshold rule) then Ok None
    else match group_key_from_snapshot s (dr_group_key_fields rule) with
         | None => skip_or_fail rule "unable to derive group key from snapshot"
         | Some gk => Ok (Some (snapshot_match s gk value None))
         end in
  if negb (is_ready s) then skip_or_fail rule "snapshot not ready"
  else match present_feature (sc_features (fs_content s)) value_field with
       | None =>
           if dr_missing_data_policy rule ==? MissingDataPolicy.TREAT_AS_ZERO then counted (Fin 0)
           else skip_or_fail rule ("missing feature field " +++ value_field)
       | Some f =>
           match raw_float f with
           | Some value => counted value
           | None => skip_or_fail rule ("non-numeric feature field " +++ value_field)
           end
       end.

Definition collect_matches {A} (f : A → result (option OperatorMatch)) (l : list A) :
    result (list OperatorMatch) :=
  found ← map_result f l; Ok (omap (M:=list) (λ m, m) found).

Definition value_count_evaluate (rule : DetectionRuleDefinition)
    (context : OperatorExecutionContext FeatureSnapshot DetectionFeatureBaseline) : result (list OperatorMatch) :=
  match non_empty_text (dr_value_field rule) with
  | None =>
      apply_missing_data_policy MissingDataPolicy.FAIL (dr_rule_id rule)
        "value_field is required for value_count" ;; Ok []
  | Some value_field =>
      (if dr_max_observation_scan rule <? Z.of_nat (length (oc_snapshots context))
       then apply_missing_data_policy MissingDataPolicy.FAIL (dr_rule_id rule)
              "snapshot scan cost limit exceeded"
       else Ok tt) ;;
      collect_matches (value_count_snapshot rule value_field) (oc_snapshots context)
  end.

Definition text_or_none (v : option pyval) : option string :=
  match v with Some (VStr t) => Some t | _ => None end.

Definition _snapshot_matches_criteria (s : FeatureSnapshot) (criteria : list (string * pyval)) : bool :=
  match text_or_none (dict_get criteria "entity_type") with
  | Some t => sc_entity_type (fs_content s) ==? t | None => true end
  && match text_or_none (dict_get criteria "entity_id") with
     | Some t => sc_entity_id (fs_content s) ==? t | None => true end.

Definition _baseline_for_entity (entity_type entity_id : string) (l : list DetectionFeatureBaseline) :
    option DetectionFeatureBaseline :=
  List.find (λ b, (bc_entity_type (fb_content b) ==? entity_type)
                  && (bc_entity_id (fb_content b) ==? entity_id)) l.

Definition _resolve_release (release : AnomalyScorerRelease) (rule : DetectionRuleDefinition) :
    result AnomalyScorerRelease :=
  match dict_get (dr_match_criteria rule) "model_release_id" with
  | None | Some VNone => Ok release
  | Some v =>
      if py_eq v (VStr (ar_release_id release)) then Ok release
      else Err (validation_error "unsupported anomaly scorer release" [("model_release_id", v)])
  end.

Definition _scorer_provenance (s : FeatureSnapshot) (b : DetectionFeatureBaseline)
    (scored : AnomalyScoreResult) (release : AnomalyScorerRelease) : ScorerProvenance :=
  {| spv_model_release_id := ar_release_id release;
     spv_model_release_hash := ar_release_hash release;
     spv_calibration_version := ar_calibration_version release;
     spv_threshold_version := ar_threshold_version release;
     spv_detection_score := as_detection_score scored;
     spv_feature_contract_version := sc_feature_contract_version (fs_content s);
     spv_snapshot_content_hash := fs_content_hash s;
     spv_source_watermark := sc_source_watermark (fs_content s);
     spv_baseline_id := fb_baseline_id b;
     spv_baseline_content_hash := fb_content_hash b;
     spv_snapshot_revision := sc_revision (fs_content s);
     spv_contributing_features := as_dict <$> as_contributing_features scored |}.

(** One round of the loop of [StatisticalAnomalyOperator.evaluate]. *)
Definition anomaly_snapshot (rule : DetectionRuleDefinition) (release : AnomalyScorerRelease)
    (baselines : list DetectionFeatureBaseline) (expected_release expected_baseline : option string)
    (s : FeatureSnapshot) : result (option OperatorMatch) :=
  let criteria := dr_match_criteria rule in
  let sc := fs_content s in
  if match criteria with [] => false | _ => negb (_snapshot_matches_criteria s criteria) end then Ok None
  else match _baseline_for_entity (sc_entity_type sc) (sc_entity_id sc) baselines with
       | None =>
           Err (validation_error "missing detection feature baseline for snapshot entity"
                  [("rule_id", VStr (dr_rule_id rule)); ("entity_type", VStr (sc_entity_type sc));
                   ("entity_id", VStr (sc_entity_id sc)); ("category", VStr "insufficient_history")])
       | Some b =>
           scored ← score_snapshot s b release (dr_threshold rule) expected_release expected_baseline;
           if negb (as_is_anomaly scored) then Ok None
           else match group_key_from_snapshot s (dr_group_key_fields rule) with
                | None => skip_or_fail rule "unable to derive group key from snapshot"
                | Some gk => Ok (Some (snapshot_match s gk (Fin (as_detection_score scored))
                                         (Some (_scorer_provenance s b scored release))))
                end
       end.

Definition statistical_anomaly_evaluate (mock_release : AnomalyScorerRelease) (rule : DetectionRuleDefinition)
    (context : OperatorExecutionContext FeatureSnapshot DetectionFeatureBaseline) : result (list OperatorMatch) :=
  release ← _resolve_release mock_release rule;
  let criteria := dr_match_criteria rule in
  let expected_release := text_or_none (dict_get criteria "model_release_hash") in
  verify_hash release expected_release ;;
  collect_matches
    (anomaly_snapshot rule release (oc_baselines context) expected_release
       (text_or_none (dict_get criteria "baseline_content_hash")))
    (oc_snapshots context).
End scorer.
