(* ===== verification/DetectionRuntime.v ===== *)
(** * Compilation and shadow execution of detection rules (services/detection_rule_resolver.py,
      services/detection_rule_runtime.py, detection/operators/registry.py)

    Packages of rules are compiled, and the active ones are run over the tables at a cutoff: each
    match becomes a candidate, stored once per identity, and each failing rule leaves an error
    row instead of stopping the run.  A float is left out of the details of an error. *)

From stdpp Require Import prelude strings sorting pretty.
From Stdlib Require Import QArith.
From S2P Require Import Prelude Errors Detection FeatureSnapshots AnomalyScoring.

#[local] Open Scope string_scope.
#[local] Open Scope Z_scope.
#[local] Open Scope list_scope.

Definition DETECTION_RULE_SCHEMA_VERSION : string := "1.0".
Definition CANDIDATE_DETECTION_SCHEMA_VERSION : string := "1.0".

Definition _ALLOWED_GROUP_FIELDS : list string := ["entity_type"; "entity_id"; "category"; "action"].
Definition _ALLOWED_REQUIRED_FIELDS : list string :=
  ["action"; "category"; "entity_type"; "entity_id"; "detection_score"; "observation_count"].
Definition _ALLOWED_VALUE_FIELDS : list string :=
  ["observation_count"; "avg_detection_score"; "max_detection_score"].
Definition _ALLOWED_MATCH_CRITERIA_KEYS : list string :=
  ["action"; "category"; "entity_type"; "entity_id"; "model_release_id"; "model_release_hash";
   "baseline_content_hash"; "sequence_id"; "sequence_hash"; "sequence_steps"; "max_step_gap_seconds"].
Definition _ALLOWED_SEQUENCE_STEP_KEYS : list string := ["action"; "category"; "entity_type"; "entity_id"].

(** ** Environment *)

Record CandidateIdentity : Type := {
  ci_source_tenant_id : string;
  ci_detection_scope_id : string;
  ci_package_id : string;
  ci_package_version : Z;
  ci_rule_id : string;
  ci_rule_version : Z;
  ci_operator : RuleOperatorKind;
  ci_group_key : GroupKey;
  ci_cutoff_at : Z;
  ci_window_kind : string;
  ci_severity : string;
  ci_ordered_observation_refs : option (list (string * Z))
}.

Record CandidateDetectionProvenance : Type := {
  cp_observation_ids : list string;
  cp_snapshot_ids : list string;
  cp_window_start : option Z;
  cp_window_end : option Z;
  cp_scorer : option ScorerProvenance;
  cp_sequence : option SequenceProvenance
}.

Record DetectionEnv : Type := {
  dv_snapshots : SnapshotEnv;
  dv_canonical_hash : pyval → string;
  dv_release_hash : string;  (* of the frozen scorer release *)
  dv_package_hash : string → Z → list DetectionRuleDefinition → string * option string * option string → string;
    (* of a package: tenant, version, rules, and its provenance without the time *)
  dv_identity_hash : CandidateIdentity → string;
  dv_content_hash : CandidateIdentity → pyfloat → CandidateDetectionProvenance → string
}.

Record DetectionRulePackageProvenance : Type := {
  pp_author : string;
  pp_review_artifact_ref : option string;
  pp_test_artifact_ref : option string;
  pp_compiled_at : option Z
}.

Record DetectionRulePackage : Type := {
  pk_package_id : string;
  pk_source_tenant_id : string;
  pk_package_version : Z;
  pk_runtime_state : DetectionRuleRuntimeState;
  pk_rules : list DetectionRuleDefinition;
  pk_provenance : DetectionRulePackageProvenance;
  pk_content_hash : string;
  pk_idempotency_key : string;
  pk_supersedes_package_id : option string
}.

Record CandidateDetection : Type := {
  cd_candidate_detection_id : string;
  cd_identity : CandidateIdentity;
  cd_matched_value : pyfloat;
  cd_shadow_only : bool;
  cd_provenance : CandidateDetectionProvenance;
  cd_content_hash : string;
  cd_idempotency_key : string;
  cd_schema_version : string
}.

Record DetectionRuleRuntimeError : Type := {
  re_error_id : string;
  re_source_tenant_id : string;
  re_package_id : string;
  re_rule_id : option string;
  re_error_category : string;
  re_error_message : string;
  re_detail : list (string * pyval)
}.

(** The tables the runtime reads and writes. *)
Record DetectionDb : Type := {
  dd_packages : list DetectionRulePackage;
  dd_observations : list BehaviorObservation;
  dd_snapshots : list FeatureSnapshot;
  dd_baselines : list DetectionFeatureBaseline;
  dd_candidates : list CandidateDetection;
  dd_errors : list DetectionRuleRuntimeError
}.

Section runtime.
Context (dv : DetectionEnv).

Definition mock_release : AnomalyScorerRelease := build_mock_account_mad_release (dv_release_hash dv).

(** ** Operators (detection/operators/registry.py) *)

Definition Operator : Type :=
  DetectionRuleDefinition → OperatorExecutionContext FeatureSnapshot DetectionFeatureBaseline →
  result (list OperatorMatch).

Definition operator_register (registry : list (string * Operator)) (kind : string) (op : Operator) :
    result (list (string * Operator)) :=
  raise_if (bool_decide (is_Some (dict_get registry kind)))
    (validation_error ("operator already registered: " +++ kind) [("operator", VStr kind)]) ;;
  Ok (dict_set registry kind op).

Definition operator_get (registry : list (string * Operator)) (kind : string) : result Operator :=
  match dict_get registry kind with
  | Some op => Ok op
  | None => Err (validation_error ("unknown rule operator: " +++ kind) [("operator", VStr kind)])
  end.

Definition default_operator_registry : result (list (string * Operator)) :=
  r ← operator_register [] "event_match" event_match_evaluate;
  r ← operator_register r "event_count" event_count_evaluate;
  r ← operator_register r "event_sequence"
        (event_sequence_evaluate (dv_canonical_hash dv) (sv_isoformat (dv_snapshots dv)));
  r ← operator_register r "value_count" (value_count_evaluate (dv_snapshots dv));
  operator_register r "statistical_anomaly" (statistical_anomaly_evaluate (dv_snapshots dv) mock_release).

(** ** Compilation *)

Definition _validate_window_kind (window_kind : string) : result unit :=
  match enum_of_value (A:=FeatureWindowKind) window_kind with
  | Some _ => Ok tt
  | None => Err (validation_error ("unsupported window kind: " +++ window_kind)
                   [("window_kind", VStr window_kind)])
  end.

Definition check_all_in (allowed names : list string) (what key : string) : result unit :=
  for_each (λ f, raise_if (negb (f ∈? allowed)) (validation_error (what +++ f) [(key, VStr f)])) names.

Definition observation_operators : list RuleOperatorKind :=
  [RuleOperatorKind.EVENT_MATCH; RuleOperatorKind.EVENT_COUNT; RuleOperatorKind.EVENT_SEQUENCE].

Definition compile_value_count (rule : DetectionRuleDefinition) : result unit :=
  match non_empty_text (dr_value_field rule) with
  | None => Err (validation_error "value_count requires value_field" [("rule_id", VStr (dr_rule_id rule))])
  | Some f =>
      raise_if (negb (f ∈? _ALLOWED_VALUE_FIELDS))
        (validation_error ("unsupported value_field: " +++ f) [("value_field", VStr f)])
  end.

Definition rule_detail (rule : DetectionRuleDefinition) : string * pyval := ("rule_id", VStr (dr_rule_id rule)).

Definition compile_statistical (rule : DetectionRuleDefinition) : result unit :=
  raise_if (Qle_bool (dr_threshold rule) 0)
    (validation_error "statistical_anomaly requires positive robust_z threshold" [rule_detail rule]) ;;
  raise_if (bool_decide (is_Some (dr_value_field rule)))
    (validation_error "statistical_anomaly must not set value_field" [rule_detail rule]) ;;
  match text_criterion (dr_match_criteria rule) "model_release_id" with
  | None => Err (validation_error "statistical_anomaly requires model_release_id in match_criteria"
                   [rule_detail rule])
  | Some id =>
      raise_if (id !=? MOCK_ACCOUNT_MAD_RELEASE_ID)
        (validation_error "unsupported anomaly scorer release"
           [rule_detail rule; ("model_release_id", VStr id)]) ;;
      match text_criterion (dr_match_criteria rule) "model_release_hash" with
      | Some h =>
          raise_if (h !=? ar_release_hash mock_release)
            (validation_error "anomaly scorer release hash mismatch"
               [rule_detail rule; ("model_release_id", VStr id); ("expected_release_hash", VStr h)])
      | None => Ok tt
      end
  end.

Definition check_step (rule : DetectionRuleDefinition) (indexed : nat * pyval) : result unit :=
  let index := ("step_index", VInt (Z.of_nat indexed.1)) in
  match indexed.2 with
  | VDict (kv :: d) =>
      for_each (λ k, raise_if (negb (k ∈? _ALLOWED_SEQUENCE_STEP_KEYS))
                       (validation_error ("unsupported sequence step key: " +++ k)
                          [rule_detail rule; index; ("key", VStr k)])) (dict_keys (kv :: d))
  | _ => Err (validation_error "sequence step must be a non-empty object" [rule_detail rule; index])
  end.

Definition compile_sequence (rule : DetectionRuleDefinition) : result unit :=
  let criteria := dr_match_criteria rule in
  raise_if (Qle_bool (dr_threshold rule) 0)
    (validation_error "event_sequence requires positive threshold" [rule_detail rule]) ;;
  raise_if (bool_decide (is_Some (dr_value_field rule)))
    (validation_error "event_sequence must not set value_field" [rule_detail rule]) ;;
  match text_criterion criteria "sequence_id" with
  | None => Err (validation_error "event_sequence requires sequence_id in match_criteria" [rule_detail rule])
  | Some sequence_id =>
      let seq := ("sequence_id", VStr sequence_id) in
      match known_sequence (dv_canonical_hash dv) sequence_id with
      | None => Err (validation_error "unsupported sequence package" [rule_detail rule; seq])
      | Some release =>
          match text_criterion criteria "sequence_hash" with
          | None =>
              Err (validation_error "event_sequence requires sequence_hash in match_criteria"
                     [rule_detail rule; seq])
          | Some h =>
              raise_if (h !=? sq_sequence_hash release)
                (validation_error "sequence package hash mismatch"
                   [rule_detail rule; seq; ("expected_sequence_hash", VStr h)]) ;;
              match dict_get criteria "sequence_steps" with
              | Some (VList raw_steps) =>
                  raise_if (bool_decide (length raw_steps < 2)%nat)
                    (validation_error "event_sequence requires at least two sequence_steps"
                       [rule_detail rule; seq]) ;;
                  for_each (check_step rule) (imap pair raw_steps) ;;
                  raise_if (negb (py_eq (VList raw_steps) (VList (VDict <$> sq_sequence_steps release))))
                    (validation_error "sequence_steps must match frozen sequence release"
                       [rule_detail rule; seq]) ;;
                  match positive_gap criteria with
                  | None =>
                      Err (validation_error "max_step_gap_seconds must be a positive integer"
                             [rule_detail rule;
                              ("max_step_gap_seconds", opt_val (dict_get criteria "max_step_gap_seconds"))])
                  | Some gap =>
                      raise_if (negb (gap =? sq_max_step_gap_seconds release))
                        (validation_error "max_step_gap_seconds must match frozen sequence release"
                           [rule_detail rule; seq;
                            ("expected_max_step_gap_seconds", VInt (sq_max_step_gap_seconds release))]) ;;
                      raise_if (negb (Qeq_bool (dr_threshold rule) (sequence_match_threshold release)))
                        (validation_error "event_sequence threshold must equal frozen sequence step count"
                           [rule_detail rule; seq])
                  end
              | _ => Err (validation_error "event_sequence requires at least two sequence_steps"
                            [rule_detail rule; seq])
              end
          end
      end
  end.

Definition compile_missing_policy (rule : DetectionRuleDefinition) : result unit :=
  let operator := ("operator", VStr (enum_value (dr_operator rule))) in
  if dr_operator rule ==? RuleOperatorKind.VALUE_COUNT then Ok tt
  else
    raise_if (dr_missing_data_policy rule ==? MissingDataPolicy.TREAT_AS_ZERO)
      (validation_error
         "treat_as_zero missing_data_policy is not supported for observation/scorer operators"
         [rule_detail rule; operator]) ;;
    raise_if ((dr_operator rule !=? RuleOperatorKind.STATISTICAL_ANOMALY)
              && ("observation_count" ∈? dr_required_fields rule))
      (validation_error "observation_count required_field is not valid for observation operators"
         [rule_detail rule; operator]).

Definition compile_rule_definition (rule : DetectionRuleDefinition) : result DetectionRuleDefinition :=
  let kind := enum_value (dr_operator rule) in
  raise_if (negb (kind ∈? PHASE_A_OPERATORS))
    (validation_error ("unsupported operator: " +++ kind) [("operator", VStr kind)]) ;;
  registry ← default_operator_registry;
  _ ← operator_get registry kind;
  _validate_window_kind (dr_window_kind rule) ;;
  raise_if (dr_feature_contract_version rule !=? FEATURE_CONTRACT_VERSION)
    (validation_error "unsupported feature contract version"
       [("feature_contract_version", VStr (dr_feature_contract_version rule))]) ;;
  check_all_in _ALLOWED_GROUP_FIELDS (dr_group_key_fields rule) "unsupported group key field: " "field_name" ;;
  check_all_in _ALLOWED_REQUIRED_FIELDS (dr_required_fields rule) "unsupported required field: "
    "field_name" ;;
  compile_missing_policy rule ;;
  raise_if ((dr_operator rule ==? RuleOperatorKind.EVENT_MATCH)
            && match dr_match_criteria rule with [] => true | _ => false end)
    (validation_error "event_match requires non-empty match_criteria" [rule_detail rule]) ;;
  for_each (λ k, raise_if (negb (k ∈? _ALLOWED_MATCH_CRITERIA_KEYS))
                   (validation_error ("unsupported match_criteria key: " +++ k)
                      [rule_detail rule; ("key", VStr k)])) (dict_keys (dr_match_criteria rule)) ;;
  (match dr_operator rule with
   | RuleOperatorKind.VALUE_COUNT => compile_value_count rule
   | RuleOperatorKind.STATISTICAL_ANOMALY => compile_statistical rule
   | RuleOperatorKind.EVENT_SEQUENCE => compile_sequence rule
   | _ => Ok tt
   end) ;;
  Ok rule.

Fixpoint check_distinct (seen : list string) (rules : list DetectionRuleDefinition) : result unit :=
  match rules with
  | [] => Ok tt
  | r :: rules' =>
      raise_if (dr_rule_id r ∈? seen)
        (validation_error "duplicate rule_id in package" [("rule_id", VStr (dr_rule_id r))]) ;;
      check_distinct (dr_rule_id r :: seen) rules'
  end.

(** The checks of [compile_rule_package]. *)
Definition compile_rules (package_version : Z) (rules : list DetectionRuleDefinition) :
    result (list DetectionRuleDefinition) :=
  raise_if (package_version <? 1) (validation_error "package_version must be >= 1" []) ;;
  raise_if (match rules with [] => true | _ => false end)
    (validation_error "rule package must contain at least one rule" []) ;;
  compiled ← map_result compile_rule_definition rules;
  check_distinct [] compiled ;;
  Ok compiled.

Definition build_package_id (content_hash : string) : string :=
  "drpkg-" +++ str_take 12 (sv_sha256 (dv_snapshots dv) content_hash).

Definition build_package_idempotency_key (tenant : string) (version : Z) (content_hash : string) : string :=
  tenant +++ ":drpkg:v" +++ pretty version +++ ":" +++ content_hash.

Definition MAX_PACKAGE_RULES : nat := 64.

Definition compile_rule_package (tenant : string) (version : Z) (state : DetectionRuleRuntimeState)
    (rules : list DetectionRuleDefinition) (provenance : DetectionRulePackageProvenance)
    (supersedes package_id : option string) : result DetectionRulePackage :=
  compiled ← compile_rules version rules;
  let content_hash :=
    dv_package_hash dv tenant version compiled
      (pp_author provenance, pp_review_artifact_ref provenance, pp_test_artifact_ref provenance) in
  raise_if (bool_decide (MAX_PACKAGE_RULES < length compiled)%nat)
    (pydantic_error (dv_snapshots dv) "DetectionRulePackage.rules") ;;
  Ok {| pk_package_id := or_generated package_id (build_package_id content_hash);
        pk_source_tenant_id := tenant;
        pk_package_version := version;
        pk_runtime_state := state;
        pk_rules := compiled;
        pk_provenance := provenance;
        pk_content_hash := content_hash;
        pk_idempotency_key := build_package_idempotency_key tenant version content_hash;
        pk_supersedes_package_id := supersedes |}.

(** The lifecycle of a package. *)
Definition allowed_runtime_transition (current target : DetectionRuleRuntimeState) : bool :=
  match current, target with
  | DetectionRuleRuntimeState.DRAFT, DetectionRuleRuntimeState.VALIDATED
  | DetectionRuleRuntimeState.VALIDATED, DetectionRuleRuntimeState.SHADOW_ACTIVE
  | DetectionRuleRuntimeState.VALIDATED, DetectionRuleRuntimeState.DISABLED
  | DetectionRuleRuntimeState.SHADOW_ACTIVE, DetectionRuleRuntimeState.PRODUCTION_ACTIVE
  | DetectionRuleRuntimeState.SHADOW_ACTIVE, DetectionRuleRuntimeState.DISABLED
  | DetectionRuleRuntimeState.PRODUCTION_ACTIVE, DetectionRuleRuntimeState.DISABLED => true
  | _, _ => false
  end.

(** ** Candidates *)

Definition build_candidate_detection_id (identity_hash : string) : string :=
  "dcand-" +++ str_take 12 (sv_sha256 (dv_snapshots dv) (identity_hash +++ "|candidate")).

Definition group_material (gk : GroupKey) : string :=
  str_join "|" ((λ kv, kv.1 +++ "=" +++ kv.2) <$> key_tuple gk).

Definition build_candidate_idempotency_key (i : CandidateIdentity) : string :=
  let base := ci_source_tenant_id i +++ ":" +++ ci_package_id i +++ ":" +++ ci_rule_id i +++ ":v"
              +++ pretty (ci_rule_version i) +++ ":" +++ sv_isoformat (dv_snapshots dv) (ci_cutoff_at i)
              +++ ":" +++ group_material (ci_group_key i) in
  match ci_ordered_observation_refs i with
  | Some (r :: refs) =>
      base +++ ":" +++ str_join "|" ((λ x, x.1 +++ "@" +++ pretty x.2) <$> r :: refs)
  | _ => base
  end.

Definition sequence_ref (record : list (string * pyval)) : option (string * Z) :=
  match dict_get record "observation_id", dict_get record "source_revision" ≫= int_like with
  | Some (VStr id), Some z => Some (id, z)
  | _, _ => None
  end.

Definition _sequence_observation_refs (p : CandidateDetectionProvenance) : option (list (string * Z)) :=
  match omap (M:=list) sequence_ref (default [] (qpv_sequence_step_matches <$> cp_sequence p)) with
  | [] => None
  | refs => Some refs
  end.

Definition _candidate_identity_body (package : DetectionRulePackage) (rule : DetectionRuleDefinition)
    (cutoff_at : Z) (group_key : GroupKey) (refs : option (list (string * Z))) : CandidateIdentity :=
  {| ci_source_tenant_id := pk_source_tenant_id package;
     ci_detection_scope_id := dr_detection_scope_id rule;
     ci_package_id := pk_package_id package;
     ci_package_version := pk_package_version package;
     ci_rule_id := dr_rule_id rule;
     ci_rule_version := dr_rule_version rule;
     ci_operator := dr_operator rule;
     ci_group_key := group_key;
     ci_cutoff_at := cutoff_at;
     ci_window_kind := dr_window_kind rule;
     ci_severity := dr_severity rule;
     ci_ordered_observation_refs := refs |}.

(** [matched_value: float = Field(ge=0)] *)
Definition non_negative (x : pyfloat) : bool :=
  match x with Fin q => Qle_bool 0 q | Infinite negative => negb negative | NaN => false end.

Definition build_candidate_detection (package : DetectionRulePackage) (rule : DetectionRuleDefinition)
    (cutoff_at : Z) (group_key : GroupKey) (matched_value : pyfloat)
    (provenance : CandidateDetectionProvenance) : result CandidateDetection :=
  let refs := if dr_operator rule ==? RuleOperatorKind.EVENT_SEQUENCE
              then _sequence_observation_refs provenance else None in
  let identity := _candidate_identity_body package rule cutoff_at group_key refs in
  raise_if (negb (non_negative matched_value))
    (pydantic_error (dv_snapshots dv) "CandidateDetection.matched_value") ;;
  Ok {| cd_candidate_detection_id := build_candidate_detection_id (dv_identity_hash dv identity);
        cd_identity := identity;
        cd_matched_value := matched_value;
        cd_shadow_only := true;
        cd_provenance := provenance;
        cd_content_hash := dv_content_hash dv identity matched_value provenance;
        cd_idempotency_key := build_candidate_idempotency_key identity;
        cd_schema_version := CANDIDATE_DETECTION_SCHEMA_VERSION |}.

Definition MAX_CANDIDATE_OBSERVATIONS : nat := 256.
Definition MAX_CANDIDATE_SNAPSHOTS : nat := 64.

(** The provenance of a match, as the model accepts it. *)
Definition candidate_provenance (m : OperatorMatch) : result CandidateDetectionProvenance :=
  raise_if (bool_decide (MAX_CANDIDATE_OBSERVATIONS < length (om_observation_ids m))%nat
            || bool_decide (MAX_CANDIDATE_SNAPSHOTS < length (om_snapshot_ids m))%nat)
    (pydantic_error (dv_snapshots dv) "CandidateDetectionProvenance") ;;
  Ok {| cp_observation_ids := om_observation_ids m;
        cp_snapshot_ids := om_snapshot_ids m;
        cp_window_start := om_window_start m;
        cp_window_end := om_window_end m;
        cp_scorer := om_scorer_provenance m;
        cp_sequence := om_sequence_provenance m |}.

Definition candidate_of_match (package : DetectionRulePackage) (rule : DetectionRuleDefinition)
    (cutoff_at : Z) (m : OperatorMatch) : result CandidateDetection :=
  provenance ← candidate_provenance m;
  build_candidate_detection package rule cutoff_at (om_group_key m) (om_matched_value m) provenance.

(** ** Loading *)

(** [.limit(max_scan + 1)] and the check that follows it *)
Definition scan_limited {A} (what : string) (max_scan : Z) (rows : list A) : result (list A) :=
  let rows := take (Z.to_nat (max_scan + 1)) rows in
  raise_if (max_scan <? Z.of_nat (length rows))
    (validation_error (what +++ " scan cost limit exceeded")
       [("max_scan", VInt max_scan); ("found", VInt (Z.of_nat (length rows)))]) ;;
  Ok rows.

Definition _load_observations (db : DetectionDb) (tenant scope : string) (window_start upper max_scan : Z) :
    result (list BehaviorObservation) :=
  scan_limited "observation" max_scan
    (load_observations_for_window (dd_observations db) tenant scope window_start upper).

Definition text_admits (wanted : option string) (actual : string) : bool :=
  match wanted with Some t => actual ==? t | None => true end.

Definition snapshot_selected (tenant scope : string) (entity_type entity_id : option string)
    (k : FeatureWindowKind) (cutoff_at : Z) (s : FeatureSnapshot) : bool :=
  let sc := fs_content s in
  (sc_source_tenant_id sc ==? tenant) && (sc_detection_scope_id sc ==? scope) && (sc_window_kind sc ==? k)
  && (sc_cutoff_at sc =? cutoff_at) && text_admits entity_type (sc_entity_type sc)
  && text_admits entity_id (sc_entity_id sc).

Definition by_revision_desc (a b : FeatureSnapshot) : bool :=
  sc_revision (fs_content b) <=? sc_revision (fs_content a).

Definition _load_snapshots (db : DetectionDb) (tenant scope : string) (entity_type entity_id : option string)
    (k : FeatureWindowKind) (cutoff_at max_scan : Z) : result (list FeatureSnapshot) :=
  rows ← scan_limited "snapshot" max_scan
    (py_sorted by_revision_desc
       (List.filter (snapshot_selected tenant scope entity_type entity_id k cutoff_at) (dd_snapshots db)));
  Ok (dedupe_latest_snapshots_by_entity rows).

Definition baseline_selected (tenant scope : string) (entity_type entity_id : option string)
    (k : FeatureWindowKind) (cutoff_at : Z) (b : DetectionFeatureBaseline) : bool :=
  let bc := fb_content b in
  (bc_source_tenant_id bc ==? tenant) && (bc_detection_scope_id bc ==? scope) && (bc_window_kind bc ==? k)
  && (bc_cutoff_at bc =? cutoff_at) && text_admits entity_type (bc_entity_type bc)
  && text_admits entity_id (bc_entity_id bc).

Definition baseline_revision_desc (a b : DetectionFeatureBaseline) : bool :=
  bc_revision (fb_content b) <=? bc_revision (fb_content a).

Fixpoint first_per_entity (seen : list (string * string)) (l : list DetectionFeatureBaseline) :
    list DetectionFeatureBaseline :=
  match l with
  | [] => []
  | b :: l' =>
      let key := (bc_entity_type (fb_content b), bc_entity_id (fb_content b)) in
      if key ∈? seen then first_per_entity seen l' else b :: first_per_entity (key :: seen) l'
  end.

Definition _load_baselines (db : DetectionDb) (tenant scope : string) (entity_type entity_id : option string)
    (k : FeatureWindowKind) (cutoff_at max_scan : Z) : result (list DetectionFeatureBaseline) :=
  rows ← scan_limited "baseline" max_scan
    (py_sorted baseline_revision_desc
       (List.filter (baseline_selected tenant scope entity_type entity_id k cutoff_at) (dd_baselines db)));
  Ok (first_per_entity [] rows).

(** ** One rule *)

Definition is_observation_operator (rule : DetectionRuleDefinition) : bool :=
  dr_operator rule ∈? observation_operators.

Definition rule_context (db : DetectionDb) (package : DetectionRulePackage) (rule : DetectionRuleDefinition)
    (cutoff_at : Z) (k : FeatureWindowKind) :
    result (OperatorExecutionContext FeatureSnapshot DetectionFeatureBaseline * Z) :=
  let '(window_start, window_end) := compute_window_bounds cutoff_at k in
  let upper := effective_observation_upper_bound window_end cutoff_at DEFAULT_ALLOWED_LATENESS in
  let tenant := pk_source_tenant_id package in
  let scope := dr_detection_scope_id rule in
  let entity_type := text_or_none (dict_get (dr_match_criteria rule) "entity_type") in
  let entity_id := text_or_none (dict_get (dr_match_criteria rule) "entity_id") in
  let context observations snapshots baselines :=
    {| oc_source_tenant_id := tenant; oc_cutoff_at := cutoff_at; oc_observations := observations;
       oc_snapshots := snapshots; oc_baselines := baselines; oc_window_start := Some window_start;
       oc_window_end := Some window_end |} in
  if is_observation_operator rule then
    observations ← _load_observations db tenant scope window_start upper (dr_max_observation_scan rule);
    Ok (context observations [] [], Z.of_nat (length observations))
  else
    snapshots ← _load_snapshots db tenant scope entity_type entity_id k cutoff_at
                  (dr_max_observation_scan rule);
    baselines ← (if dr_operator rule ==? RuleOperatorKind.STATISTICAL_ANOMALY
                 then _load_baselines db tenant scope entity_type entity_id k cutoff_at
                        (dr_max_observation_scan rule)
                 else Ok []);
    Ok (context [] snapshots baselines, Z.of_nat (length snapshots)).

Definition _evaluate_rule (db : DetectionDb) (package : DetectionRulePackage) (rule : DetectionRuleDefinition)
    (cutoff_at : Z) : result (list CandidateDetection * Z) :=
  k ← enum_of_value_or_raise (A:=FeatureWindowKind) (dr_window_kind rule);
  loaded ← rule_context db package rule cutoff_at k;
  let '(context, scanned) := loaded in
  registry ← default_operator_registry;
  operator ← operator_get registry (enum_value (dr_operator rule));
  matches ← operator rule context;
  candidates ← map_result (candidate_of_match package rule cutoff_at) matches;
  Ok (candidates, scanned).

(** ** Persistence *)

Definition set_candidates (db : DetectionDb) (l : list CandidateDetection) : DetectionDb :=
  {| dd_packages := dd_packages db; dd_observations := dd_observations db; dd_snapshots := dd_snapshots db;
     dd_baselines := dd_baselines db; dd_candidates := l; dd_errors := dd_errors db |}.

Definition set_errors (db : DetectionDb) (l : list DetectionRuleRuntimeError) : DetectionDb :=
  {| dd_packages := dd_packages db; dd_observations := dd_observations db; dd_snapshots := dd_snapshots db;
     dd_baselines := dd_baselines db; dd_candidates := dd_candidates db; dd_errors := l |}.

Definition candidate_by_key (db : DetectionDb) (key : string) : option CandidateDetection :=
  List.find (λ c, cd_idempotency_key c ==? key) (dd_candidates db).

(** The evidence of a stored candidate is replaced, its identity stays. *)
Definition refreshed (existing new : CandidateDetection) : CandidateDetection :=
  {| cd_candidate_detection_id := cd_candidate_detection_id existing; cd_identity := cd_identity existing;
     cd_matched_value := cd_matched_value new; cd_shadow_only := cd_shadow_only existing;
     cd_provenance := cd_provenance new; cd_content_hash := cd_content_hash new;
     cd_idempotency_key := cd_idempotency_key existing; cd_schema_version := cd_schema_version existing |}.

(** The row with a key is replaced; keys are unique. *)
Definition update_candidate (key : string) (row : CandidateDetection) (l : list CandidateDetection) :
    list CandidateDetection := (λ c, if cd_idempotency_key c ==? key then row else c) <$> l.

(** [row_to_candidate_detection] reads every row as shadow only. *)
Definition row_to_candidate_detection (row : CandidateDetection) : CandidateDetection :=
  {| cd_candidate_detection_id := cd_candidate_detection_id row; cd_identity := cd_identity row;
     cd_matched_value := cd_matched_value row; cd_shadow_only := true; cd_provenance := cd_provenance row;
     cd_content_hash := cd_content_hash row; cd_idempotency_key := cd_idempotency_key row;
     cd_schema_version := cd_schema_version row |}.

Definition persist_candidate_in_session (db : DetectionDb) (candidate : CandidateDetection) :
    result (CandidateDetection * DetectionDb) :=
  match candidate_by_key db (cd_idempotency_key candidate) with
  | Some existing =>
      if cd_content_hash existing !=? cd_content_hash candidate then
        raise_if (cd_candidate_detection_id existing !=? cd_candidate_detection_id candidate)
          (validation_error "candidate detection idempotency replay with different identity"
             [("idempotency_key", VStr (cd_idempotency_key candidate))]) ;;
        let row := refreshed existing candidate in
        Ok (row_to_candidate_detection row,
            set_candidates db (update_candidate (cd_idempotency_key candidate) row (dd_candidates db)))
      else Ok (row_to_candidate_detection existing, db)
  | None =>
      (* the primary key: no row has the idempotency key, so the second lookup finds none either *)
      raise_if (existsb (λ c, cd_candidate_detection_id c ==? cd_candidate_detection_id candidate)
                  (dd_candidates db))
        (builtin_error IntegrityError "unique constraint violated") ;;
      Ok (row_to_candidate_detection candidate, set_candidates db (dd_candidates db ++ [candidate]))
  end.

(** Candidates stored before a failing one stay stored. *)
Fixpoint persist_candidates (db : DetectionDb) (l : list CandidateDetection) :
    list CandidateDetection * option error * DetectionDb :=
  match l with
  | [] => ([], None, db)
  | c :: l' =>
      match persist_candidate_in_session db c with
      | Err e => ([], Some e, db)
      | Ok (stored, db1) =>
          let '(rest, e, db2) := persist_candidates db1 l' in (stored :: rest, e, db2)
      end
  end.

Definition persist_runtime_error_in_session (db : DetectionDb) (e : DetectionRuleRuntimeError) :
    DetectionRuleRuntimeError * DetectionDb :=
  match List.find (λ r, re_error_id r ==? re_error_id e) (dd_errors db) with
  | Some existing =>
      let row := {| re_error_id := re_error_id existing; re_source_tenant_id := re_source_tenant_id existing;
                    re_package_id := re_package_id existing; re_rule_id := re_rule_id existing;
                    re_error_category := re_error_category existing;
                    re_error_message := re_error_message e; re_detail := re_detail e |} in
      (row, set_errors db ((λ r, if re_error_id r ==? re_error_id e then row else r) <$> dd_errors db))
  | None => (e, set_errors db (dd_errors db ++ [e]))
  end.

Definition build_runtime_error_id (tenant package_id : string) (rule_id : option string)
    (category : string) (cutoff_at : Z) : string :=
  "drerr-" +++ str_take 12 (sv_sha256 (dv_snapshots dv)
    (tenant +++ "|" +++ package_id +++ "|" +++ default "_package_" (non_empty_text rule_id) +++ "|"
     +++ category +++ "|" +++ sv_isoformat (dv_snapshots dv) cutoff_at)).

Definition MAX_ERROR_MESSAGE : nat := 512.

(** The error row of a failed rule; the model bounds its message. *)
Definition _persist_rule_runtime_error (db : DetectionDb) (tenant : string) (package : DetectionRulePackage)
    (rule : DetectionRuleDefinition) (cutoff_at : Z) (category : string) (e : error) :
    result (DetectionRuleRuntimeError * DetectionDb) :=
  let n := String.length (err_message e) in
  raise_if ((n =? 0)%nat || bool_decide (MAX_ERROR_MESSAGE < n)%nat)
    (pydantic_error (dv_snapshots dv) "DetectionRuleRuntimeError.error_message") ;;
  Ok (persist_runtime_error_in_session db
    {| re_error_id := build_runtime_error_id tenant (pk_package_id package) (Some (dr_rule_id rule))
                        category cutoff_at;
       re_source_tenant_id := tenant;
       re_package_id := pk_package_id package;
       re_rule_id := Some (dr_rule_id rule);
       re_error_category := category;
       re_error_message := err_message e;
       re_detail := if err_class e ==? ValidationError then err_details e
                    else [("exception_type", VStr (error_type_name (err_class e)))] |}).

(** ** A shadow run *)

Record DetectionRuleRuntimeResult : Type := {
  rr_candidates : list CandidateDetection;
  rr_errors : list DetectionRuleRuntimeError;
  rr_rules_evaluated : Z;
  rr_observations_scanned : Z
}.

Definition empty_result : DetectionRuleRuntimeResult :=
  {| rr_candidates := []; rr_errors := []; rr_rules_evaluated := 0; rr_observations_scanned := 0 |}.

Definition rule_round (cutoff_at : Z) (tenant : string) (package : DetectionRulePackage)
    (st : DetectionRuleRuntimeResult * DetectionDb) (rule : DetectionRuleDefinition) :
    result (DetectionRuleRuntimeResult * DetectionDb) :=
  let '(acc, db) := st in
  let '(candidates, failed, scanned, db1) :=
    match _evaluate_rule db package rule cutoff_at with
    | Err e => ([], Some e, 0, db)
    | Ok (cs, scanned) =>
        let '(stored, e, db1) := persist_candidates db cs in (stored, e, scanned, db1)
    end in
  let acc1 := {| rr_candidates := rr_candidates acc ++ candidates; rr_errors := rr_errors acc;
                 rr_rules_evaluated := rr_rules_evaluated acc + 1;
                 rr_observations_scanned := rr_observations_scanned acc + scanned |} in
  match failed with
  | None => Ok (acc1, db1)
  | Some e =>
      let category := if err_class e ==? ValidationError then "validation_error" else "internal_error" in
      row_db ← _persist_rule_runtime_error db1 tenant package rule cutoff_at category e;
      Ok ({| rr_candidates := rr_candidates acc1; rr_errors := rr_errors acc1 ++ [row_db.1];
             rr_rules_evaluated := rr_rules_evaluated acc1;
             rr_observations_scanned := rr_observations_scanned acc1 |}, row_db.2)
  end.

Fixpoint fold_result {A B} (f : A → B → result A) (a : A) (l : list B) : result A :=
  match l with
  | [] => Ok a
  | x :: l' => a' ← f a x; fold_result f a' l'
  end.

Definition package_round (cutoff_at : Z) (tenant : string) (st : DetectionRuleRuntimeResult * DetectionDb)
    (package : DetectionRulePackage) : result (DetectionRuleRuntimeResult * DetectionDb) :=
  if pk_runtime_state package ==? DetectionRuleRuntimeState.SHADOW_ACTIVE
  then fold_result (rule_round cutoff_at tenant package) st (pk_rules package)
  else Ok st.

Definition selected_packages (db : DetectionDb) (tenant : string) (package_id : option string) :
    result (list DetectionRulePackage) :=
  match package_id with
  | Some id =>
      let missing := validation_error "detection rule package not found for tenant"
                       [("package_id", VStr id); ("source_tenant_id", VStr tenant)] in
      match List.find (λ p, pk_package_id p ==? id) (dd_packages db) with
      | None => Err missing
      | Some p =>
          raise_if (pk_source_tenant_id p !=? tenant) missing ;;
          raise_if (pk_runtime_state p !=? DetectionRuleRuntimeState.SHADOW_ACTIVE)
            (validation_error "detection rule package is not shadow_active"
               [("package_id", VStr id); ("runtime_state", VStr (enum_value (pk_runtime_state p)))]) ;;
          Ok [p]
      end
  | None =>
      Ok (List.filter (λ p, (pk_source_tenant_id p ==? tenant)
                            && (pk_runtime_state p ==? DetectionRuleRuntimeState.SHADOW_ACTIVE))
            (dd_packages db))
  end.

Definition execute_shadow (db : DetectionDb) (tenant : string) (cutoff_at : Z) (package_id : option string) :
    result (DetectionRuleRuntimeResult * DetectionDb) :=
  packages ← selected_packages db tenant package_id;
  fold_result (package_round cutoff_at tenant) (empty_result, db) packages.

(** ** Reads *)

Definition get_candidate (db : DetectionDb) (tenant candidate_id : string) : option CandidateDetection :=
  match List.find (λ c, cd_candidate_detection_id c ==? candidate_id) (dd_candidates db) with
  | Some row =>
      if ci_source_tenant_id (cd_identity row) !=? tenant then None
      else Some (row_to_candidate_detection row)
  | None => None
  end.
End runtime.
