(* ===== verification/DetectionFacts.v ===== *)
(** * What the detection operators compute

    Grouped counting against its definition by filters, ordered sequences against the existence of
    an occurrence, and the range of the anomaly score. *)

From stdpp Require Import prelude strings sorting pretty.
From Stdlib Require Import QArith Qround Qabs Lqa.
From S2P Require Import Prelude Errors Detection FeatureSnapshots AnomalyScoring.

#[local] Open Scope string_scope.
#[local] Open Scope Z_scope.
#[local] Open Scope list_scope.

(** ** Grouped counting *)

Section grouping.
Context (rule : DetectionRuleDefinition) (selected : BehaviorObservation → bool).

(** The group an observation counts for, if it counts at all. *)
Definition group_of (o : BehaviorObservation) : option GroupKey :=
  match should_process_observation rule o with
  | Ok true =>
      if selected o then key_tuple <$> group_key_from_observation o (dr_group_key_fields rule) else None
  | _ => None
  end.

Definition in_group (k : GroupKey) (o : BehaviorObservation) : bool := group_of o ==? Some k.

Definition members (k : GroupKey) (l : list BehaviorObservation) : list BehaviorObservation :=
  List.filter (in_group k) l.

Context {A : Type} (item : BehaviorObservation → A).

Fixpoint group_get (g : list (GroupKey * list A)) (k : GroupKey) : list A :=
  match g with
  | [] => []
  | (k', xs) :: g' => if k ==? k' then xs else group_get g' k
  end.

Lemma group_add_get g k k' x :
  group_get (group_add g k x) k' = if k' ==? k then group_get g k' ++ [x] else group_get g k'.
Proof.
  induction g as [|[k1 xs] g IH]; cbn; [by repeat case_bool_decide|].
  destruct (decide (k = k1)) as [->|Hk].
  - rewrite (bool_decide_eq_true_2 (k1 = k1)) by done. cbn. by case_bool_decide.
  - rewrite (bool_decide_eq_false_2 (k = k1)) by done. cbn. rewrite IH.
    repeat case_bool_decide; naive_solver.
Qed.

Lemma group_add_keys (g : list (GroupKey * list A)) k x : (group_add g k x).*1 = if k ∈? g.*1 then g.*1 else g.*1 ++ [k].
Proof.
  induction g as [|[k1 xs] g IH]; cbn; [done|].
  destruct (decide (k = k1)) as [->|Hk].
  - rewrite (bool_decide_eq_true_2 (k1 = k1)) by done. by rewrite bool_decide_eq_true_2 by (by left).
  - rewrite (bool_decide_eq_false_2 (k = k1)) by done. cbn. rewrite IH.
    repeat case_bool_decide; set_solver.
Qed.

Lemma group_add_filled (g : list (GroupKey * list A)) k x :
  Forall (λ p, p.2 ≠ []) g → Forall (λ p, p.2 ≠ []) (group_add g k x).
Proof.
  induction 1 as [|[k1 xs] g Hx Hg IH]; cbn; [by repeat constructor|].
  case_bool_decide; constructor; cbn in *; try done. by destruct xs.
Qed.

Lemma members_cons k o l :
  members k (o :: l) = if group_of o ==? Some k then o :: members k l else members k l.
Proof. done. Qed.

(** One round: an observation goes to its group, or the groups stay. *)
Lemma group_observations_cons o l g g' :
  group_observations rule selected item (o :: l) g = Ok g' →
  group_observations rule selected item l
    (match group_of o with Some k => group_add g k (item o) | None => g end) = Ok g'.
Proof.
  cbn [group_observations]. unfold group_of.
  destruct (should_process_observation rule o) as [[]|e]; cbn; [|done..].
  destruct (selected o); cbn; [|done].
  destruct (group_key_from_observation o (dr_group_key_fields rule)); cbn; [done|].
  by destruct (handle_missing_group_key rule) as [[]|].
Qed.

(** The loop groups each observation where it belongs, in order. *)
Lemma group_observations_spec l g g' :
  group_observations rule selected item l g = Ok g' →
  NoDup g.*1 → Forall (λ p, p.2 ≠ []) g →
  NoDup g'.*1 ∧ Forall (λ p, p.2 ≠ []) g' ∧
  ∀ k, group_get g' k = group_get g k ++ (item <$> members k l).
Proof.
  revert g. induction l as [|o l IH]; intros g.
  { intros [= ->] ? ?. split_and!; [done..|]. intros. cbn. by rewrite app_nil_r. }
  intros Hg%group_observations_cons Hnd Hne. setoid_rewrite members_cons.
  destruct (group_of o) as [k0|] eqn:Ho; [|by apply IH].
  destruct (IH _ Hg) as (? & ? & Hget); [|by apply group_add_filled|].
  { rewrite group_add_keys. case_bool_decide; [done|]. apply NoDup_app.
    split_and!; [done|set_solver|apply NoDup_singleton]. }
  split_and!; [done..|]. intros k. rewrite Hget, group_add_get.
  repeat case_bool_decide; simplify_eq; try done. by rewrite <-app_assoc.
Qed.

Lemma group_get_elem g k xs : NoDup g.*1 → (k, xs) ∈ g → group_get g k = xs.
Proof.
  induction g as [|[k1 ys] g IH]; cbn; [set_solver|].
  intros [Hni Hnd]%NoDup_cons [Heq|Hin]%elem_of_cons; simplify_eq.
  - by rewrite bool_decide_eq_true_2.
  - rewrite bool_decide_eq_false_2; [by apply IH|]. intros ->. apply Hni.
    apply list_elem_of_fmap. by exists (k1, xs).
Qed.

Lemma group_get_key g k : group_get g k ≠ [] → (k, group_get g k) ∈ g.
Proof.
  induction g as [|[k1 ys] g IH]; cbn; [done|].
  case_bool_decide; subst; [intros; by left|]. intros ?; right; by apply IH.
Qed.

(** The groups are exactly the non-empty sets of members. *)
Lemma grouped_exact l g :
  group_observations rule selected item l [] = Ok g →
  NoDup g.*1 ∧ ∀ p, p ∈ g ↔ members p.1 l ≠ [] ∧ p.2 = item <$> members p.1 l.
Proof.
  intros Hg. destruct (group_observations_spec l [] g Hg) as (Hnd & Hne & Hget); [constructor..|].
  split; [done|]. intros [k xs]; cbn. split.
  - intros Hin. pose proof (group_get_elem _ _ _ Hnd Hin) as Hk. rewrite Hget in Hk. cbn in Hk.
    rewrite Forall_forall in Hne. specialize (Hne _ Hin). cbn in Hne. split; [|done].
    intros Hm. rewrite Hm in Hk. cbn in Hk. by subst.
  - intros [Hm ->]. assert (group_get g k = item <$> members k l) as Hk by (by rewrite Hget).
    rewrite <-Hk. apply group_get_key. rewrite Hk. by destruct (members k l).
Qed.
End grouping.

Lemma elem_of_filter_bool {A} (f : A → bool) (l : list A) x : x ∈ List.filter f l ↔ x ∈ l ∧ f x = true.
Proof. rewrite !list_elem_of_In. apply filter_In. Qed.

Lemma bounded_observations_Ok l n l' :
  bounded_observations l n = Ok l' ↔ l' = l ∧ Z.of_nat (length l) ≤ n.
Proof. unfold bounded_observations. rewrite raise_if_seq_Ok, Z.ltb_ge. naive_solver. Qed.

Section counting.
Context {S B : Type} (rule : DetectionRuleDefinition) (context : OperatorExecutionContext S B).

(** What both counting operators promise for a choice of observations. *)
Definition counts_exactly (selected : BehaviorObservation → bool) (matches : list OperatorMatch) : Prop :=
  NoDup (om_group_key <$> matches) ∧
  ∀ m, m ∈ matches ↔
    ∃ k, let ids := bo_observation_id <$> members rule selected k (oc_observations context) in
      ids ≠ [] ∧ (dr_threshold rule <= q_of_nat (length ids))%Q ∧ m = count_match context (k, ids).

Lemma threshold_met x : negb (q_lt x (dr_threshold rule)) = true ↔ (dr_threshold rule <= x)%Q.
Proof. unfold q_lt. by rewrite negb_involutive, Qle_bool_iff. Qed.

Lemma count_matches_exact selected g :
  group_observations rule selected bo_observation_id (oc_observations context) [] = Ok g →
  counts_exactly selected (count_matches rule context g).
Proof.
  intros Hg. destruct (grouped_exact _ _ _ _ _ Hg) as [Hnd Hin]. unfold count_matches. split.
  - rewrite <-list_fmap_compose. change (om_group_key ∘ count_match context) with (@fst GroupKey (list string)).
    clear Hin Hg. induction g as [|p g IH]; cbn; [constructor|].
    apply NoDup_cons in Hnd as [Hni Hnd]. case_match; cbn; [|by apply IH].
    constructor; [|by apply IH]. intros (q & Hq & Hqin)%list_elem_of_fmap. apply Hni.
    apply elem_of_filter_bool in Hqin as [Hqin _]. rewrite Hq. apply list_elem_of_fmap. by exists q.
  - intros m. rewrite list_elem_of_fmap. split.
    + intros ([k ids] & -> & [Hp Ht]%elem_of_filter_bool). apply Hin in Hp as [Hm Hids]; cbn in *.
      exists k. subst ids. split_and!; [by destruct (members _ _ _ _)|by apply threshold_met|done].
    + intros (k & Hne & Ht & ->). eexists (k, _). split; [done|]. apply elem_of_filter_bool.
      split; [|by apply threshold_met]. apply Hin. split; [|done]. cbn. intros Hm. by rewrite Hm in Hne.
Qed.

(** C23. A counting rule that does not raise reports exactly one match for each group of which the
    observations that pass the required fields (and, for event_match, the criteria) are at least as
    many as the threshold, and lists precisely these observations, in order. *)
Theorem counting_operators_exact matches :
  (event_count_evaluate rule context = Ok matches → counts_exactly (λ _, true) matches) ∧
  (event_match_evaluate rule context = Ok matches →
   counts_exactly (λ o, observation_matches_criteria o (dr_match_criteria rule)) matches).
Proof.
  unfold event_count_evaluate, event_match_evaluate.
  by split; intros (l & [-> _]%bounded_observations_Ok & (g & Hg & [= <-])%bind_Ok)%bind_Ok;
    apply count_matches_exact.
Qed.
End counting.

(** ** Ordered sequences *)

Section sequences.
Context (max_gap : option Z).

(** At most the gap, in seconds, after the one before (instants are in microseconds). *)
Definition near (prev : option BehaviorObservation) (o : BehaviorObservation) : Prop :=
  match prev, max_gap with
  | Some m, Some g => bo_observed_at o - bo_observed_at m ≤ g * 1000000
  | _, _ => True
  end.

Lemma near_spec prev o : gap_exceeded max_gap prev o = false ↔ near prev o.
Proof. unfold gap_exceeded, near. destruct prev, max_gap; [|done..]. by rewrite Z.ltb_ge. Qed.

(** [l] takes the steps in order, each within the gap of the one before. *)
Fixpoint occurrence (prev : option BehaviorObservation) (l : list BehaviorObservation)
    (steps : list SequenceStep) : Prop :=
  match l, steps with
  | [], [] => True
  | o :: l', step :: steps' =>
      observation_matches_criteria o step = true ∧ near prev o ∧
      occurrence (Some o) l' steps'
  | _, _ => False
  end.

Lemma find_step_Some step prev rest c rest' :
  find_step step max_gap prev rest = Some (c, rest') →
  observation_matches_criteria c step = true ∧ gap_exceeded max_gap prev c = false ∧
  c :: rest' `sublist_of` rest.
Proof.
  induction rest as [|o rest IH]; cbn; [done|].
  destruct (observation_matches_criteria o step) eqn:Hm, (gap_exceeded max_gap prev o) eqn:Hg; cbn;
    try (intros H; destruct (IH H) as (? & ? & ?); split_and!; [done..|by constructor]).
  intros [= <- <-]. split_and!; [done..|reflexivity].
Qed.

Lemma match_steps_sound steps prev rest l :
  match_steps steps max_gap prev rest = Some l → l `sublist_of` rest ∧ occurrence prev l steps.
Proof.
  revert prev rest l. induction steps as [|step steps IH]; intros prev rest l; cbn.
  { intros [= <-]. split; [apply sublist_nil_l|done]. }
  destruct (find_step step max_gap prev rest) as [[c rest']|] eqn:Hf; [|done].
  apply find_step_Some in Hf as (Hm & Hg & Hsub).
  destruct (match_steps steps max_gap (Some c) rest') as [l'|] eqn:Hms; [|done]. intros [= <-].
  apply IH in Hms as [Hsub' Hocc]. split; [|by rewrite near_spec in Hg].
  etrans; [|exact Hsub]. by constructor.
Qed.

(** Without a gap to mind, the earliest choice leaves the most to choose from. *)
Lemma find_step_earliest step prev rest o l :
  (∀ x, x ∈ rest → gap_exceeded max_gap prev x = false) →
  o :: l `sublist_of` rest → observation_matches_criteria o step = true →
  ∃ c rest', find_step step max_gap prev rest = Some (c, rest') ∧ l `sublist_of` rest' ∧
    c ∈ rest ∧ rest' `sublist_of` rest.
Proof.
  intros Hgap Hsub Hm. induction rest as [|x rest IH]; [by apply sublist_nil_r in Hsub|].
  cbn. rewrite (Hgap x) by (by left). rewrite orb_false_r.
  destruct (observation_matches_criteria x step) eqn:Hx; cbn.
  - exists x, rest. split_and!; [done| |by left|by repeat constructor].
    apply sublist_cons_r in Hsub as [Hsub|(l' & [= <- <-] & Hsub)]; [|done].
    etrans; [|exact Hsub]. by constructor.
  - apply sublist_cons_r in Hsub as [Hsub|(l' & [= <- <-] & Hsub)]; [|congruence].
    destruct IH as (c & rest' & Hf & ? & ? & ?); [intros; apply Hgap; by right|done|].
    exists c, rest'. split_and!; [done..|by right|by constructor].
Qed.

Lemma match_steps_complete steps prev rest l :
  (∀ x y, x ∈ rest → y ∈ rest → gap_exceeded max_gap (Some x) y = false) →
  (∀ y, y ∈ rest → gap_exceeded max_gap prev y = false) →
  l `sublist_of` rest → occurrence prev l steps → is_Some (match_steps steps max_gap prev rest).
Proof.
  revert prev rest l. induction steps as [|step steps IH]; intros prev rest l Hall Hprev Hsub Hocc; cbn.
  { by eexists. }
  destruct l as [|o l]; cbn in Hocc; [done|]. destruct Hocc as (Hm & _ & Hocc).
  destruct (find_step_earliest step prev rest o l Hprev Hsub Hm) as (c & rest' & -> & Hl & Hc & Hsub').
  assert (∀ x, x ∈ rest' → x ∈ rest) as Hin.
  { intros x Hx. by eapply elem_of_submseteq, sublist_submseteq. }
  assert (occurrence (Some c) l steps) as Hocc'.
  { destruct l as [|o' l], steps; cbn [occurrence] in *; try done. destruct Hocc as (? & ? & ?). split_and!; [done| |done].
    apply near_spec, Hall; [done|]. apply Hin. eapply elem_of_submseteq; [by left|]. by apply sublist_submseteq. }
  destruct (IH (Some c) rest' l) as [l' ->]; [by eauto..|done|done|]. by eexists.
Qed.
End sequences.

(** *** Deduplication *)

Lemma drop_seen_sublist seen l : drop_seen seen l `sublist_of` l.
Proof.
  revert seen. induction l as [|o l IH]; intros seen; cbn; [constructor|].
  case_bool_decide; by constructor.
Qed.

Lemma drop_seen_fresh seen l o : o ∈ drop_seen seen l → bo_observation_id o ∉ seen.
Proof.
  revert seen. induction l as [|x l IH]; intros seen; cbn; [set_solver|].
  case_bool_decide; [apply IH|]. intros [->|Ho%IH]%elem_of_cons; set_solver.
Qed.

Lemma drop_seen_NoDup seen l : NoDup (bo_observation_id <$> drop_seen seen l).
Proof.
  revert seen. induction l as [|x l IH]; intros seen; cbn; [constructor|].
  case_bool_decide; [done|]. cbn. constructor; [|done].
  intros (o & Ho & Hin%drop_seen_fresh)%list_elem_of_fmap. apply Hin. rewrite <-Ho. by left.
Qed.

Lemma observed_le_total a b : observed_le a b = true ∨ observed_le b a = true.
Proof.
  unfold observed_le. destruct (Z.lt_trichotomy (bo_observed_at a) (bo_observed_at b)) as [H|[H|H]].
  - left. apply orb_true_iff. left. by apply Z.ltb_lt.
  - rewrite H, Z.eqb_refl, Z.ltb_irrefl. cbn.
    unfold String.leb. rewrite (String.compare_antisym (bo_observation_id b) (bo_observation_id a)).
    destruct (String.compare (bo_observation_id a) (bo_observation_id b)); cbn; auto.
  - right. apply orb_true_iff. left. by apply Z.ltb_lt.
Qed.

Lemma sublist_map {A B} (f : A → B) l k : l `sublist_of` k → f <$> l `sublist_of` f <$> k.
Proof. induction 1; cbn; by constructor. Qed.

Definition not_later (a b : BehaviorObservation) : Prop := bo_observed_at a ≤ bo_observed_at b.

Lemma Sorted_weaken {A} (R S : A → A → Prop) l : (∀ x y, R x y → S x y) → Sorted R l → Sorted S l.
Proof.
  intros HRS. induction 1 as [|x l Hs IH Hhd]; constructor; [done|].
  destruct Hhd; constructor; auto.
Qed.

Lemma observed_sorted l : StronglySorted not_later (py_sorted observed_le l).
Proof.
  apply Sorted_StronglySorted; [intros ???; unfold not_later; lia|].
  eapply Sorted_weaken; [|apply py_sorted_Sorted, observed_le_total].
  unfold observed_le, not_later. intros x y [H%Z.ltb_lt|[H%Z.eqb_eq _]%andb_true_iff]%orb_true_iff; lia.
Qed.

Lemma StronglySorted_sublist {A} (R : A → A → Prop) l k : k `sublist_of` l → StronglySorted R l → StronglySorted R k.
Proof.
  induction 1 as [|x k l Hs IH|x k l Hs IH]; intros Hl; [done|apply StronglySorted_inv in Hl as [Hl Hx]..].
  - constructor; [by apply IH|]. rewrite Forall_forall in *. intros y Hy. apply Hx.
    by eapply elem_of_submseteq, sublist_submseteq.
  - by apply IH.
Qed.

Lemma dedupe_elem l o : o ∈ _dedupe_observations l → o ∈ l.
Proof.
  intros Ho. rewrite <-(py_sorted_perm observed_le l).
  eapply elem_of_submseteq; [exact Ho|]. apply sublist_submseteq, drop_seen_sublist.
Qed.

(** *** The order of the observations *)

Lemma string_lt_trans (a b c : string) :
  String.compare a b = Lt → String.compare b c = Lt → String.compare a c = Lt.
Proof.
  revert b c. induction a as [|x a IH]; intros [|y b] [|z c]; cbn; try done.
  destruct (Ascii.compare x y) eqn:E1, (Ascii.compare y z) eqn:E2; try done.
  - apply Ascii.compare_eq_iff in E1 as ->. rewrite E2. apply IH.
  - apply Ascii.compare_eq_iff in E1 as ->. by rewrite E2.
  - apply Ascii.compare_eq_iff in E2 as ->. by rewrite E1.
  - unfold Ascii.compare in *. rewrite N.compare_lt_iff in E1, E2.
    by rewrite (proj2 (N.compare_lt_iff _ _) (N.lt_trans _ _ _ E1 E2)).
Qed.

(** Earlier, or at the same instant and with the smaller id. *)
Definition before (a b : BehaviorObservation) : Prop :=
  bo_observed_at a < bo_observed_at b ∨
  bo_observed_at a = bo_observed_at b ∧
  String.compare (bo_observation_id a) (bo_observation_id b) = Lt.

Lemma before_trans a b c : before a b → before b c → before a c.
Proof.
  unfold before. intros [H1|[H1 H2]] [H3|[H3 H4]]; [left; lia..|]. right. split; [lia|].
  by eapply string_lt_trans.
Qed.

Lemma string_compare_refl s : String.compare s s = Eq.
Proof. pose proof (String.compare_antisym s s) as H. by destruct (String.compare s s). Qed.

Lemma before_irrefl a : ¬ before a a.
Proof. unfold before. rewrite string_compare_refl. intros [|[]]; [lia|done]. Qed.

Lemma observed_le_before a b :
  bo_observation_id a ≠ bo_observation_id b → observed_le a b = true → before a b.
Proof.
  intros Hne. unfold observed_le, before, String.leb.
  intros [H%Z.ltb_lt|[H%Z.eqb_eq Hc]%andb_true_iff]%orb_true_iff; [by left|right]. split; [done|].
  destruct (String.compare _ _) eqn:E; [|done..]. by apply String.compare_eq_iff in E.
Qed.

(** The record that counts for an id: the earliest one, of several at that instant the one given
    first. *)
Fixpoint record_of (observations : list BehaviorObservation) (id : string) :
    option BehaviorObservation :=
  match observations with
  | [] => None
  | o :: l =>
      match record_of l id with
      | None => if bool_decide (bo_observation_id o = id) then Some o else None
      | Some o' => if bool_decide (bo_observation_id o = id ∧ bo_observed_at o ≤ bo_observed_at o')
                   then Some o else Some o'
      end
  end.

Definition first_with (id : string) (l : list BehaviorObservation) : option BehaviorObservation :=
  List.find (λ o, bo_observation_id o ==? id) l.

Lemma first_with_Some id l o : first_with id l = Some o → bo_observation_id o = id ∧ o ∈ l.
Proof.
  intros [Hin Hid]%List.find_some. apply bool_decide_eq_true in Hid.
  by rewrite list_elem_of_In.
Qed.

Lemma same_id_le a b :
  bo_observation_id a = bo_observation_id b →
  observed_le a b = bool_decide (bo_observed_at a ≤ bo_observed_at b).
Proof.
  intros Hid. unfold observed_le, String.leb. rewrite Hid, string_compare_refl, andb_true_r.
  destruct (Z.ltb_spec (bo_observed_at a) (bo_observed_at b)); cbn.
  - rewrite bool_decide_eq_true_2 by lia. done.
  - destruct (Z.eqb_spec (bo_observed_at a) (bo_observed_at b)); case_bool_decide; lia || done.
Qed.

Lemma first_with_insert id x l :
  StronglySorted not_later l →
  first_with id (insert_sorted observed_le x l) =
  match first_with id l with
  | None => if bool_decide (bo_observation_id x = id) then Some x else None
  | Some o' => if bool_decide (bo_observation_id x = id ∧ bo_observed_at x ≤ bo_observed_at o')
               then Some x else Some o'
  end.
Proof.
  unfold first_with. induction 1 as [|y l Hl IH Hy]; cbn; [by case_bool_decide|].
  assert (observed_le x y = true → bo_observed_at x ≤ bo_observed_at y) as Hle.
  { unfold observed_le. intros [H%Z.ltb_lt|[H%Z.eqb_eq _]%andb_true_iff]%orb_true_iff; lia. }
  destruct (observed_le x y) eqn:Exy; cbn; destruct (decide (bo_observation_id y = id)) as [Ey|Ey];
    rewrite ?(bool_decide_eq_true_2 _ Ey), ?(bool_decide_eq_false_2 _ Ey).
  - specialize (Hle eq_refl). destruct (decide (bo_observation_id x = id)) as [Hx|Hx].
    + by rewrite !bool_decide_eq_true_2.
    + by rewrite !bool_decide_eq_false_2 by naive_solver.
  - specialize (Hle eq_refl).
    destruct (List.find _ l) as [o'|] eqn:Ef; [|done].
    apply first_with_Some in Ef as [_ Hin]. rewrite Forall_forall in Hy.
    specialize (Hy _ Hin). unfold not_later in Hy.
    destruct (decide (bo_observation_id x = id)) as [Hx|Hx].
    + rewrite !bool_decide_eq_true_2; [done| |done]. split; [done|lia].
    + by rewrite !bool_decide_eq_false_2 by naive_solver.
  - rewrite bool_decide_eq_false_2; [done|].
    intros [Hx Hat]. rewrite same_id_le, bool_decide_eq_true_2 in Exy by congruence. done.
  - exact IH.
Qed.

Lemma first_with_sorted id l : first_with id (py_sorted observed_le l) = record_of l id.
Proof.
  induction l as [|x l IH]; [done|]. cbn [py_sorted foldr record_of].
  change (foldr (insert_sorted observed_le) [] l) with (py_sorted observed_le l).
  rewrite first_with_insert by apply observed_sorted. by rewrite IH.
Qed.

Lemma drop_seen_elem seen l o :
  o ∈ drop_seen seen l ↔ (bo_observation_id o ∉ seen) ∧ first_with (bo_observation_id o) l = Some o.
Proof.
  unfold first_with. revert seen. induction l as [|x l IH]; intros seen; cbn.
  { split; [set_solver|naive_solver]. }
  destruct (decide (bo_observation_id x = bo_observation_id o)) as [Hid|Hid].
  - rewrite (bool_decide_eq_true_2 (bo_observation_id x = _)) by done. case_bool_decide as Hs.
    + rewrite IH, <-Hid. naive_solver.
    + rewrite elem_of_cons, IH, <-Hid. split; [intros [->|[H _]]; [done|]|].
      * destruct H. by left.
      * intros [_ [= <-]]. by left.
  - rewrite (bool_decide_eq_false_2 (bo_observation_id x = _)) by done. case_bool_decide as Hs.
    + apply IH.
    + rewrite elem_of_cons, IH, not_elem_of_cons. split; [intros [->|[[_ H] ?]]; [done|done]|].
      intros [? ?]. right. split; [|done]. split; [congruence|done].
Qed.

Lemma dedupe_records observations o :
  o ∈ _dedupe_observations observations ↔ record_of observations (bo_observation_id o) = Some o.
Proof.
  unfold _dedupe_observations. rewrite drop_seen_elem, first_with_sorted. set_solver.
Qed.

(** Before, or with the same instant and id. *)
Definition not_after (a b : BehaviorObservation) : Prop :=
  before a b ∨ bo_observed_at a = bo_observed_at b ∧ bo_observation_id a = bo_observation_id b.

Lemma not_after_trans a b c : not_after a b → not_after b c → not_after a c.
Proof.
  intros [H1|[T1 E1]] [H2|[T2 E2]]; [left; by eapply before_trans|..].
  - left. unfold before in *. by rewrite <-T2, <-E2.
  - left. unfold before in *. by rewrite T1, E1.
  - right. split; congruence.
Qed.

Lemma observed_le_not_after a b : observed_le a b = true → not_after a b.
Proof.
  intros Hle. destruct (decide (bo_observation_id a = bo_observation_id b)) as [E|E];
    [|left; by apply observed_le_before].
  rewrite same_id_le, bool_decide_eq_true in Hle by done. unfold not_after, before.
  destruct (decide (bo_observed_at a = bo_observed_at b)); [by right|left; left; lia].
Qed.

Lemma dedupe_sorted observations : StronglySorted before (_dedupe_observations observations).
Proof.
  assert (StronglySorted not_after (_dedupe_observations observations)) as Hs.
  { eapply StronglySorted_sublist; [apply drop_seen_sublist|].
    apply Sorted_StronglySorted; [intros x y z; apply not_after_trans|].
    eapply Sorted_weaken; [apply observed_le_not_after|].
    apply py_sorted_Sorted, observed_le_total. }
  assert (NoDup (bo_observation_id <$> _dedupe_observations observations)) as Hnd
    by apply (drop_seen_NoDup []).
  induction Hs as [|x l Hl IH Hx]; [constructor|].
  cbn in Hnd. apply NoDup_cons in Hnd as [Hid Hnd]. constructor; [by apply IH|].
  rewrite Forall_forall in *. intros y Hy. destruct (Hx y Hy) as [|[_ E]]; [done|].
  destruct Hid. rewrite E. by apply list_elem_of_fmap_2.
Qed.

(** In a strict order, a sorted selection is a sublist. *)
Lemma sorted_selection l k :
  StronglySorted before l → StronglySorted before k → (∀ o, o ∈ k → o ∈ l) → k `sublist_of` l.
Proof.
  intros Hl. revert k. induction Hl as [|x l Hl IH Hx]; intros k Hk Hin.
  { destruct k as [|o k]; [constructor|]. specialize (Hin o). set_solver. }
  destruct Hk as [|y k Hk Hy]; [apply sublist_nil_l|]. rewrite Forall_forall in *.
  assert (∀ o, o ∈ k → y = x → o ∈ l) as Htail.
  { intros o Ho ->. specialize (Hin o ltac:(by right)).
    apply elem_of_cons in Hin as [->|]; [|done]. by destruct (before_irrefl x (Hy _ Ho)). }
  assert (y ∈ x :: l) as [->|Hyl]%elem_of_cons by (apply Hin; by left).
  - constructor. apply IH; [done|]. intros o Ho. by apply Htail.
  - apply sublist_cons, IH; [by constructor; [|by apply Forall_forall]|].
    intros o Ho. pose proof (Hin o Ho) as [->|]%elem_of_cons; [|done]. exfalso.
    apply elem_of_cons in Ho as [<-|Ho]; [by apply (before_irrefl x), Hx|].
    apply (before_irrefl x). eapply before_trans; [by apply Hx|by apply Hy].
Qed.

(** An occurrence of the steps among the observations: records that count for their ids, one for each
    step, each before the next (at one instant by their ids), fitting its step and within the gap of
    the one before. *)
Definition occurs (observations : list BehaviorObservation) (steps : list SequenceStep) (max_gap : option Z)
    (l : list BehaviorObservation) : Prop :=
  Forall (λ o, record_of observations (bo_observation_id o) = Some o) l ∧
  StronglySorted before l ∧ occurrence max_gap None l steps.

Lemma occurs_dedupe observations steps max_gap l :
  occurs observations steps max_gap l ↔
  l `sublist_of` _dedupe_observations observations ∧ occurrence max_gap None l steps.
Proof.
  unfold occurs. rewrite Forall_forall. split.
  - intros (Hr & Hs & Ho). split; [|done].
    apply sorted_selection; [apply dedupe_sorted|done|]. intros o Hin. by apply dedupe_records, Hr.
  - intros [Hsub Ho]. split_and!; [|eapply StronglySorted_sublist; [done|apply dedupe_sorted]|done].
    intros o Hin. apply dedupe_records. by eapply elem_of_submseteq, sublist_submseteq.
Qed.

Lemma occurs_ordered observations steps max_gap l :
  occurs observations steps max_gap l →
  NoDup (bo_observation_id <$> l) ∧ length l = length steps ∧ Forall (λ o, o ∈ observations) l.
Proof.
  intros [Hsub Hocc]%occurs_dedupe. split_and!.
  - eapply sublist_NoDup; [apply (drop_seen_NoDup [])|]. by apply sublist_map.
  - clear Hsub. revert Hocc. generalize (@None BehaviorObservation). revert steps.
    induction l as [|o l IH]; intros [|s steps] prev; cbn; try done. intros (_ & _ & H). f_equal. by eapply IH.
  - apply Forall_forall. intros o Ho. apply dedupe_elem. by eapply elem_of_submseteq, sublist_submseteq.
Qed.

(** No two observations are further apart than the gap. *)
Definition within_gap (max_gap : option Z) (observations : list BehaviorObservation) : Prop :=
  ∀ g, max_gap = Some g → ∀ a b, a ∈ observations → b ∈ observations →
    bo_observed_at b - bo_observed_at a ≤ g * 1000000.

Lemma within_gap_free max_gap observations a b :
  within_gap max_gap observations → a ∈ observations → b ∈ observations →
  gap_exceeded max_gap (Some a) b = false.
Proof. intros Hw Ha Hb. destruct max_gap as [g|]; cbn; [|done]. apply Z.ltb_ge. by eapply Hw. Qed.

(** C24. The sequence operator's search is sound: what it returns is an occurrence of the steps, that
    is one observation for each step, fitting it, none twice, in the order of their instants and at
    one instant of their ids, each within the gap of the one before; an id reported several times
    counts with its earliest record.  And it finds an occurrence whenever there is one, provided no
    two observations are further apart than the gap. *)
Theorem sequence_search_correct observations steps max_gap :
  steps ≠ [] →
  (∀ l, find_ordered_sequence_match observations steps max_gap = Some l →
     occurs observations steps max_gap l ∧
     NoDup (bo_observation_id <$> l) ∧ length l = length steps ∧ Forall (λ o, o ∈ observations) l) ∧
  (within_gap max_gap observations →
     is_Some (find_ordered_sequence_match observations steps max_gap) ↔
     ∃ l, occurs observations steps max_gap l).
Proof.
  intros Hne. unfold find_ordered_sequence_match. destruct steps as [|s steps]; [done|].
  assert (∀ l, match_steps (s :: steps) max_gap None (_dedupe_observations observations) = Some l →
            occurs observations (s :: steps) max_gap l) as Hsound.
  { intros l Hl. by apply occurs_dedupe, match_steps_sound. }
  split; [|split].
  - intros l Hl%Hsound. split; [done|by eapply occurs_ordered].
  - intros [l Hl]. exists l. by apply Hsound.
  - intros [l [Hsub Hocc]%occurs_dedupe].
    eapply match_steps_complete; [..|exact Hsub|exact Hocc]; [|by destruct max_gap].
    intros x y Hx%dedupe_elem Hy%dedupe_elem. by eapply within_gap_free.
Qed.

(** Beyond the gap the search can miss what is there: it commits to the first observation of the
    first step, and when the second step is too far from it the search fails, although a later
    first step would do.  One early, unrelated observation hides the sequence. *)
Theorem early_step_hides_sequence a1 a2 b s1 s2 g :
  NoDup [bo_observation_id a1; bo_observation_id a2; bo_observation_id b] →
  bo_observed_at a1 < bo_observed_at a2 → bo_observed_at a2 < bo_observed_at b →
  observation_matches_criteria a1 s1 = true → observation_matches_criteria a2 s1 = true →
  observation_matches_criteria b s2 = true → observation_matches_criteria a2 s2 = false →
  bo_observed_at b - bo_observed_at a2 ≤ g * MICROSECONDS < bo_observed_at b - bo_observed_at a1 →
  find_ordered_sequence_match [a1; a2; b] [s1; s2] (Some g) = None ∧
  find_ordered_sequence_match [a2; b] [s1; s2] (Some g) = Some [a2; b] ∧
  occurs [a1; a2; b] [s1; s2] (Some g) [a2; b].
Proof.
  intros Hnd H12 H2b Hm1 Hm2 Hmb Hn [Hg1 Hg2].
  assert (∀ x y, bo_observed_at x < bo_observed_at y → observed_le x y = true) as Hle.
  { intros x y Hxy. unfold observed_le. apply orb_true_iff. left. by apply Z.ltb_lt. }
  assert (_dedupe_observations [a1; a2; b] = [a1; a2; b]) as Hd.
  { unfold _dedupe_observations, py_sorted. cbn. rewrite (Hle a2 b) by done. cbn.
    rewrite (Hle a1 a2) by done. cbn.
    rewrite !NoDup_cons in Hnd. repeat (rewrite bool_decide_eq_false_2 by set_solver). done. }
  assert (_dedupe_observations [a2; b] = [a2; b]) as Hd2.
  { unfold _dedupe_observations, py_sorted. cbn. rewrite (Hle a2 b) by done. cbn.
    rewrite !NoDup_cons in Hnd. repeat (rewrite bool_decide_eq_false_2 by set_solver). done. }
  assert (gap_exceeded (Some g) (Some a1) b = true) as He by (by apply Z.ltb_lt).
  assert (gap_exceeded (Some g) (Some a2) b = false) as He2 by (by apply Z.ltb_ge).
  split_and!.
  - unfold find_ordered_sequence_match. rewrite Hd. cbn -[gap_exceeded]. rewrite Hm1.
    change (gap_exceeded (Some g) None a1) with false. cbn -[gap_exceeded]. by rewrite Hn, Hmb, He.
  - unfold find_ordered_sequence_match. rewrite Hd2. cbn -[gap_exceeded]. rewrite Hm2.
    change (gap_exceeded (Some g) None a2) with false. cbn -[gap_exceeded]. by rewrite Hmb, He2.
  - apply occurs_dedupe. split; [rewrite Hd; by repeat constructor|]. cbn [occurrence].
    rewrite <-!near_spec. by rewrite Hm2, Hmb, He2.
Qed.

(** ** The anomaly score *)

Lemma q_lt_true a b : q_lt a b = true ↔ (a < b)%Q.
Proof.
  unfold q_lt. rewrite negb_true_iff, <-not_true_iff_false, Qle_bool_iff.
  split; [apply Qnot_le_lt|apply Qlt_not_le].
Qed.

Lemma q_lt_false a b : q_lt a b = false ↔ (b <= a)%Q.
Proof. unfold q_lt. by rewrite negb_false_iff, Qle_bool_iff. Qed.

Lemma Qle_bool_false a b : Qle_bool a b = false ↔ (b < a)%Q.
Proof. rewrite <-q_lt_true. unfold q_lt. by rewrite negb_true_iff. Qed.

Lemma q_max_spec a b : (a <= q_max a b)%Q ∧ (b <= q_max a b)%Q ∧ (q_max a b = a ∨ q_max a b = b).
Proof.
  unfold q_max. destruct (Qle_bool a b) eqn:H; [apply Qle_bool_iff in H|apply Qle_bool_false in H];
    split_and!; auto; lra.
Qed.

Lemma q_min_spec a b : (q_min a b <= a)%Q ∧ (q_min a b <= b)%Q ∧ (q_min a b = a ∨ q_min a b = b).
Proof.
  unfold q_min. destruct (Qle_bool a b) eqn:H; [apply Qle_bool_iff in H|apply Qle_bool_false in H];
    split_and!; auto; lra.
Qed.

Lemma Qdiv_nonneg a b : (0 <= a)%Q → (0 < b)%Q → (0 <= a / b)%Q.
Proof. intros Ha Hb. apply Qle_shift_div_l; [done|]. lra. Qed.

Lemma round_even_between a b q : (inject_Z a <= q <= inject_Z b)%Q → a ≤ round_even q ≤ b.
Proof.
  intros [Ha Hb]. unfold round_even.
  pose proof (Qfloor_le q) as Hf. pose proof (Qlt_floor q) as Hf'.
  assert (a ≤ Qfloor q) as Hlo. { apply Qfloor_resp_le in Ha. by rewrite Qfloor_Z in Ha. }
  assert (Qfloor q ≤ b) as Hhi. { apply Qfloor_resp_le in Hb. by rewrite Qfloor_Z in Hb. }
  destruct (Z.eq_dec (Qfloor q) b) as [Heq|Hne].
  - assert ((q - inject_Z (Qfloor q) ?= 1 # 2)%Q = Lt) as Hc.
    { apply (proj1 (Qlt_alt _ _)). rewrite Heq in *. lra. }
    rewrite Hc. lia.
  - destruct (_ ?= _)%Q; [destruct (Z.even _)|..]; lia.
Qed.

Lemma py_round_between scale a b q :
  (inject_Z a <= q * inject_Z (Zpos scale) <= inject_Z b)%Q →
  (inject_Z a / inject_Z (Zpos scale) <= py_round scale q <= inject_Z b / inject_Z (Zpos scale))%Q.
Proof.
  intros [H1 H2]%round_even_between. unfold py_round. rewrite Qmake_Qdiv.
  rewrite Zle_Qle in H1, H2. assert (0 < inject_Z (Zpos scale))%Q as Hpos by (unfold Qlt; cbn; lia).
  split; (apply Qmult_le_compat_r; [done|]); by apply Qlt_le_weak, Qinv_lt_0_compat.
Qed.

Lemma calibrated z t : (0 <= z)%Q →
  (0 <= calibrate_detection_score z t <= 100)%Q ∧
  ((0 < t)%Q → (t <= z)%Q → (calibrate_detection_score z t == 100)%Q).
Proof.
  intros Hz. unfold calibrate_detection_score. destruct (Qle_bool t 0) eqn:Ht.
  { apply Qle_bool_iff in Ht. split; [lra|intros; lra]. }
  apply Qle_bool_false in Ht. set (x := q_max 0 (q_min 1 (z / t))).
  assert (0 <= x <= 1)%Q as Hx.
  { unfold x. destruct (q_max_spec 0 (q_min 1 (z / t))) as (? & ? & Hor), (q_min_spec 1 (z / t)) as (? & ? & ?).
    split; [done|]. destruct Hor as [->| ->]; lra. }
  split; [|intros _ Htz].
  - pose proof (py_round_between 100 0 10000 (x * 100)) as Hr.
    destruct Hr as [H1 H2].
    { unfold inject_Z. change (10000 # 1)%Q with (10000)%Q. change (100 # 1)%Q with 100%Q. lra. }
    assert (inject_Z 10000 / inject_Z 100 == 100)%Q as E by reflexivity.
    assert (inject_Z 0 / inject_Z 100 == 0)%Q as E0 by reflexivity. rewrite E in H2. rewrite E0 in H1. by split.
  - assert (x == 1)%Q as E.
    { assert (1 <= z / t)%Q by (apply Qle_shift_div_l; lra).
      destruct (q_min_spec 1 (z / t)) as (? & ? & Hor). unfold x.
      destruct (q_max_spec 0 (q_min 1 (z / t))) as (? & ? & Hor').
      destruct Hor as [E1|E1], Hor' as [E2|E2]; rewrite E1 in *; rewrite E2 in *; lra. }
    pose proof (py_round_between 100 10000 10000 (x * 100)) as Hr.
    assert (inject_Z 10000 / inject_Z 100 == 100)%Q as E' by reflexivity.
    destruct Hr as [H1 H2]; [|rewrite E' in H1, H2; lra].
    rewrite E. unfold inject_Z. split; discriminate.
Qed.

Lemma iqr_z_nonneg v c p25 p75 h : (0 < h)%Q → (0 <= iqr_z v c p25 p75 h)%Q.
Proof.
  intros Hh. unfold iqr_z. assert (0 < _MAD_SCALE_FACTOR)%Q by reflexivity.
  destruct (q_lt p75 v) eqn:H1; [apply q_lt_true in H1|destruct (q_lt v p25) eqn:H2; [apply q_lt_true in H2|]].
  - assert (0 <= _MAD_SCALE_FACTOR * (v - p75) / h)%Q; [|lra].
    apply Qdiv_nonneg; [|done]. apply Qmult_le_0_compat; lra.
  - assert (0 <= _MAD_SCALE_FACTOR * (p25 - v) / h)%Q; [|lra].
    apply Qdiv_nonneg; [|done]. apply Qmult_le_0_compat; lra.
  - apply Qdiv_nonneg; [|done]. apply Qmult_le_0_compat; [lra|apply Qabs_nonneg].
Qed.

Lemma tail_z_nonneg v c p25 p95 : (0 <= (tail_z v c p25 p95).1)%Q.
Proof. unfold tail_z. repeat case_match; apply Qabs_nonneg. Qed.

Lemma feature_anomaly_z_nonneg v stats z : feature_anomaly_z v stats = Ok z → (0 <= z.1)%Q.
Proof.
  unfold feature_anomaly_z. destruct (dict_get stats "median") as [c|]; [|done].
  assert (∀ a b : Q * string, Ok a = Ok b → (0 <= a.1)%Q → (0 <= b.1)%Q) as Hok by (by intros ?? [= ->]).
  destruct (q_lt 0 _); [intros H; eapply Hok; [exact H|apply Qabs_nonneg]|].
  destruct (Qeq_bool v c); [intros H; eapply Hok; [exact H|apply Qle_refl]|].
  assert (0 < _MIN_QUANTILE_SCALE)%Q by reflexivity.
  destruct (dict_get stats "p25") as [q25|], (dict_get stats "p75") as [q75|];
    try (intros H'; eapply Hok; [exact H'|apply tail_z_nonneg]).
  destruct (q_lt _MIN_QUANTILE_SCALE _) eqn:Hh; intros H'; (eapply Hok; [exact H'|]); [|apply tail_z_nonneg].
  apply iqr_z_nonneg. apply q_lt_true in Hh. lra.
Qed.

(** *** The features that contribute *)

Lemma map_result_Ok {A B} (f : A → result B) l k :
  map_result f l = Ok k ↔ Forall2 (λ x y, f x = Ok y) l k.
Proof.
  revert k. induction l as [|x l IH]; intros k; cbn.
  - split; [intros [= <-]; constructor|by intros ->%Forall2_nil_inv_l].
  - rewrite bind_Ok. setoid_rewrite bind_Ok. split.
    + intros (y & Hy & ys & Hys & [= <-]). constructor; [done|]. by apply IH.
    + intros (y & ys & Hy & Hys & ->)%Forall2_cons_inv_l. exists y. split; [done|]. exists ys.
      by rewrite IH.
Qed.

Section scores.
Context (sv : SnapshotEnv).

Lemma score_feature_nonneg s b name f : score_feature_of sv s b name = Ok f → (0 <= cf_robust_z f)%Q.
Proof.
  unfold score_feature_of. destruct (_robust_stats_for_feature b name) as [stats|]; [|done].
  destruct (dict_get stats "median"), (dict_get stats "mad"); try done.
  intros (v & _ & (z & Hz & [= <-])%bind_Ok)%bind_Ok. by eapply feature_anomaly_z_nonneg.
Qed.

Definition max_z_of (m : Q) (l : list ContributingFeature) : Q := foldl (λ m f, q_max m (cf_robust_z f)) m l.

Lemma max_z_spec m l : (m <= max_z_of m l)%Q ∧ ∀ f, f ∈ l → (cf_robust_z f <= max_z_of m l)%Q.
Proof.
  revert m. induction l as [|f l IH]; intros m; cbn; [split; [lra|set_solver]|].
  destruct (IH (q_max m (cf_robust_z f))) as [H1 H2], (q_max_spec m (cf_robust_z f)) as (? & ? & _).
  unfold max_z_of in *. cbn. split; [lra|]. intros g [->|Hg]%elem_of_cons; [lra|by apply H2].
Qed.

(** The maximum is reached: by the start or by a feature. *)
Lemma max_z_reached m l : max_z_of m l = m ∨ ∃ f, f ∈ l ∧ cf_robust_z f = max_z_of m l.
Proof.
  unfold max_z_of. revert m. induction l as [|f l IH]; intros m; cbn; [by left|].
  destruct (IH (q_max m (cf_robust_z f))) as [->|(g & Hg & Hz)].
  - destruct (q_max_spec m (cf_robust_z f)) as (_ & _ & [->| ->]); [by left|].
    right. exists f. split; [by left|done].
  - right. exists g. split; [by right|done].
Qed.

Lemma max_z_of_feature l :
  l ≠ [] → Forall (λ g, 0 <= cf_robust_z g)%Q l →
  ∃ f, f ∈ l ∧ (cf_robust_z f == max_z_of 0 l)%Q.
Proof.
  intros Hne Hz. destruct (max_z_spec 0 l) as [_ Hm].
  destruct (max_z_reached 0 l) as [H0|(f & Hf & <-)]; [|exists f; split; [done|lra]].
  destruct l as [|f l]; [done|]. exists f. split; [by left|].
  apply Forall_cons in Hz as [Hf _]. specialize (Hm f ltac:(by left)). rewrite H0 in *. lra.
Qed.

(** The first of the features in descending order has the largest z-score. *)
Lemma sorted_head_largest l :
  l ≠ [] → ∃ f l', py_sorted by_z_desc l = f :: l' ∧ ∀ g, g ∈ l → (cf_robust_z g <= cf_robust_z f)%Q.
Proof.
  intros Hne. pose proof (py_sorted_perm by_z_desc l) as Hp.
  assert (StronglySorted (λ a b, cf_robust_z b <= cf_robust_z a)%Q (py_sorted by_z_desc l)) as Hs.
  { apply Sorted_StronglySorted; [intros x y z; lra|].
    eapply Sorted_weaken; [|apply py_sorted_Sorted].
    - intros x y. unfold by_z_desc. by rewrite Qle_bool_iff.
    - intros x y. unfold by_z_desc. rewrite !Qle_bool_iff. lra. }
  destruct (py_sorted by_z_desc l) as [|f l']; [by apply Permutation_nil_l in Hp|].
  exists f, l'. split; [done|]. intros g Hg. rewrite <-Hp in Hg.
  apply StronglySorted_inv in Hs as [_ Hs]. rewrite Forall_forall in Hs.
  apply elem_of_cons in Hg as [->|Hg]; [lra|by apply Hs].
Qed.

Lemma sum_q_from a l : (foldl Qplus a l == a + sum_q l)%Q.
Proof.
  unfold sum_q. revert a. induction l as [|x l IH]; intros a; cbn; [lra|].
  rewrite (IH (a + x)%Q), (IH (0 + x)%Q). lra.
Qed.

Lemma sum_q_cons x l : (sum_q (x :: l) == x + sum_q l)%Q.
Proof. unfold sum_q at 1. cbn. rewrite sum_q_from. lra. Qed.

Lemma sum_q_bounds l : Forall (λ x, 0 <= x)%Q l → (0 <= sum_q l)%Q ∧ ∀ x, x ∈ l → (x <= sum_q l)%Q.
Proof.
  induction 1 as [|x l Hx Hl [IH1 IH2]]; [split; [cbn; lra|set_solver]|].
  rewrite sum_q_cons. split; [lra|]. intros y [->|Hy%IH2]%elem_of_cons; rewrite ?sum_q_cons; lra.
Qed.

Lemma weighted_spec l f :
  Forall (λ g, 0 <= cf_robust_z g)%Q l → f ∈ weighted l →
  (∃ g, g ∈ l ∧ cf_robust_z f = cf_robust_z g) ∧ (0 <= cf_weight f <= 1)%Q.
Proof.
  intros Hl. unfold weighted.
  assert (Forall (λ x, 0 <= x)%Q (cf_robust_z <$> l)) as Hz by (by apply Forall_fmap).
  destruct (sum_q_bounds _ Hz) as [_ Hmax].
  destruct (q_lt 0 (sum_q (cf_robust_z <$> l))) eqn:Ht; intros (g & -> & Hg)%list_elem_of_fmap; cbn;
    (split; [by exists g|]).
  - apply q_lt_true in Ht. rewrite Forall_forall in Hl. specialize (Hl g Hg).
    assert (cf_robust_z g <= sum_q (cf_robust_z <$> l))%Q.
    { apply Hmax, list_elem_of_fmap. by exists g. }
    split; [by apply Qdiv_nonneg|]. apply Qle_shift_div_r; lra.
  - assert (1 <= q_of_nat (length l))%Q.
    { unfold q_of_nat. change 1%Q with (inject_Z 1). rewrite <-Zle_Qle. destruct l; cbn in *; [set_solver|lia]. }
    split; [apply Qdiv_nonneg; lra|]. apply Qle_shift_div_r; lra.
Qed.

(** Weights do not change the z-scores, so the first listed feature has the largest. *)
Lemma listed_head l m :
  l ≠ [] → Forall (λ g, 0 <= cf_robust_z g)%Q l → (∀ f, f ∈ l → (cf_robust_z f <= m)%Q) →
  (∃ f, f ∈ l ∧ (cf_robust_z f == m)%Q) →
  ∃ f l', take MAX_CONTRIBUTING_FEATURES (py_sorted by_z_desc (weighted l)) = f :: l' ∧
    (cf_robust_z f == m)%Q.
Proof.
  intros Hne Hz Hm (top & Htop & Htm).
  assert (∀ g, g ∈ l → ∃ f, f ∈ weighted l ∧ cf_robust_z f = cf_robust_z g) as Hw.
  { intros g Hg. unfold weighted. destruct (q_lt _ _); eexists;
      (split; [apply list_elem_of_fmap_2, Hg|done]). }
  destruct (Hw top Htop) as (top' & Htop' & Hz').
  destruct (sorted_head_largest (weighted l)) as (f & l' & Hs & Hmax).
  { intros E. rewrite E in Htop'. set_solver. }
  rewrite Hs. exists f. eexists. split; [done|].
  assert (f ∈ weighted l) as Hf by (rewrite <-(py_sorted_perm by_z_desc), Hs; by left).
  destruct (weighted_spec l f Hz Hf) as [(g & Hg & Hfg) _].
  pose proof (Hmax _ Htop') as H1. specialize (Hm g Hg). rewrite Hz' in H1. rewrite Hfg in *. lra.
Qed.

(** A snapshot and a baseline of the same entity, at the same cutoff, both ready. *)
Definition comparable (s : FeatureSnapshot) (b : DetectionFeatureBaseline) : Prop :=
  let sc := fs_content s in
  let bc := fb_content b in
  sc_status sc = FeatureSnapshotStatus.READY ∧ bc_status bc = DetectionBaselineStatus.READY ∧
  sc_source_tenant_id sc = bc_source_tenant_id bc ∧ sc_detection_scope_id sc = bc_detection_scope_id bc ∧
  sc_entity_type sc = bc_entity_type bc ∧ sc_entity_id sc = bc_entity_id bc ∧
  sc_cutoff_at sc = bc_cutoff_at bc ∧ sc_window_kind sc = bc_window_kind bc.

Lemma binding_checks_Ok s b release er eb :
  binding_checks sv s b release er eb = Ok tt →
  comparable s b ∧ (∀ h, er = Some h → h = ar_release_hash release) ∧
  (∀ h, eb = Some h → h = fb_content_hash b).
Proof.
  unfold binding_checks, comparable. intros H. guards_ok.
  destruct H as (Hv & _ & Heb & H1 & H2 & H3 & H4 & Hids & Hcut & Hk).
  destruct (sc_status (fs_content s)), (bc_status (fb_content b)); try done.
  destruct_and!. split_and!; try done; try (by apply Z.eqb_eq).
  - intros h ->. unfold verify_hash in Hv. by guards_ok.
  - intros h ->. by guards_ok.
Qed.

(** C25. A score is computed only for a snapshot and a baseline of the same entity, scope, window and
    cutoff that are both ready, and from the release and baseline that were asked for.  It lies
    between 0 and 100; the reported maximum is the largest of the z-scores of the release's features,
    each of which was scored, and the first listed feature has it; the snapshot is an anomaly exactly
    when this maximum reaches the threshold, and then the score is 100; listed features have a z-score
    within the maximum and a weight between 0 and 1. *)
Theorem anomaly_score_correct s b release threshold er eb r :
  score_snapshot sv s b release threshold er eb = Ok r →
  comparable s b ∧ (∀ h, er = Some h → h = ar_release_hash release) ∧ (∀ h, eb = Some h → h = fb_content_hash b) ∧
  (0 <= as_detection_score r <= 100)%Q ∧
  (∀ n, n ∈ ar_scored_features release →
     ∃ f, score_feature_of sv s b n = Ok f ∧ (cf_robust_z f <= as_max_robust_z r)%Q) ∧
  (∃ n f, n ∈ ar_scored_features release ∧ score_feature_of sv s b n = Ok f ∧
     (cf_robust_z f == as_max_robust_z r)%Q) ∧
  (∃ f l, as_contributing_features r = f :: l ∧ (cf_robust_z f == as_max_robust_z r)%Q) ∧
  (as_is_anomaly r = true ↔ (threshold <= as_max_robust_z r)%Q) ∧
  ((0 < threshold)%Q → as_is_anomaly r = true → (as_detection_score r == 100)%Q) ∧
  Forall (λ f, 0 <= cf_robust_z f <= as_max_robust_z r ∧ 0 <= cf_weight f <= 1)%Q (as_contributing_features r).
Proof.
  unfold score_snapshot. rewrite unit_seq_Ok.
  intros [(? & ? & ?)%binding_checks_Ok (l & Hl%map_result_Ok & Hr)%bind_Ok].
  do 3 (split; [done|]).
  assert (Forall (λ g, 0 <= cf_robust_z g)%Q l) as Hz.
  { apply Forall_forall. intros f (n & _ & Hn)%(Forall2_elem_r _ _ _ _ Hl). by eapply score_feature_nonneg. }
  destruct (max_z_spec 0 l) as [Hm0 Hm]. assert (l ≠ []) as Hne by (by destruct l).
  destruct (max_z_of_feature l Hne Hz) as (top & Htop & Hmax). unfold max_z_of in *.
  set (m := foldl _ 0%Q l) in *.
  assert (Ok {| as_detection_score := calibrate_detection_score m threshold; as_max_robust_z := m;
                as_is_anomaly := Qle_bool threshold m;
                as_contributing_features := take MAX_CONTRIBUTING_FEATURES (py_sorted by_z_desc (weighted l));
                as_release := release |} = Ok r) as Hr' by (by destruct l). clear Hr. injection Hr' as <-.
  cbn [as_detection_score as_max_robust_z as_is_anomaly as_contributing_features].
  destruct (calibrated m threshold Hm0) as [Hc1 Hc2]. rewrite Qle_bool_iff. split; [done|].
  split. { intros n (f & Hf & Hn)%(Forall2_elem_l _ _ _ _ Hl). exists f. split; [done|by apply Hm]. }
  split. { destruct (Forall2_elem_r _ _ _ _ Hl Htop) as (n & Hn & Hs). by exists n, top. }
  split; [apply listed_head; [done|done|done|by exists top]|]. do 2 (split; [done|]). apply Forall_forall. intros f Hf.
  assert (f ∈ py_sorted by_z_desc (weighted l)) as Hf' by (by eapply elem_of_submseteq, submseteq_take).
  rewrite py_sorted_perm in Hf'.
  destruct (weighted_spec l f Hz Hf') as [(g & Hg & ->) Hw]. split; [|done].
  rewrite Forall_forall in Hz. split; [by apply Hz|by apply Hm].
Qed.
End scores.
