(* ===== verification/DetectionRuntimeFacts.v ===== *)
(** * Snapshots, baselines and shadow runs: what they guarantee *)

From stdpp Require Import prelude strings sorting pretty.
From Stdlib Require Import QArith.
From S2P Require Import Prelude Errors Detection FeatureSnapshots AnomalyScoring DetectionRuntime DetectionFacts.

#[local] Open Scope string_scope.
#[local] Open Scope Z_scope.
#[local] Open Scope list_scope.

(** A unique column determines the row. *)
Lemma column_unique {A B} (f : A → B) l x y : NoDup (f <$> l) → x ∈ l → y ∈ l → f x = f y → x = y.
Proof.
  induction l as [|z l IH]; cbn; [set_solver|]. intros [Hni Hnd]%NoDup_cons.
  intros [->|Hx]%elem_of_cons [->|Hy]%elem_of_cons Hf; [done| | |by apply IH].
  - destruct Hni. rewrite Hf. by apply list_elem_of_fmap_2.
  - destruct Hni. rewrite <-Hf. by apply list_elem_of_fmap_2.
Qed.

(** ** Tables that only grow

    Every row of the first list is still there, changed at most as [R] allows, and the rows added
    after them are [fresh]. *)

Section extends.
Context {A : Type} (R : relation A) (fresh : A → Prop).

Definition extends (l l' : list A) : Prop :=
  ∃ l1 l2, l' = l1 ++ l2 ∧ Forall2 R l l1 ∧ Forall fresh l2.

#[global] Instance extends_preorder `{!PreOrder R} : (∀ x y, fresh x → R x y → fresh y) → PreOrder extends.
Proof.
  intros Hfresh. split.
  - intros l. exists l, []. rewrite app_nil_r. split_and!; [done| |constructor]. by apply Forall2_same.
  - intros l l' l'' (l1 & l2 & -> & H1 & H2) (k1 & k2 & -> & Hk & Hk2).
    apply Forall2_app_inv_l in Hk as (m1 & m2 & Hm1 & Hm2 & ->). exists m1, (m2 ++ k2).
    rewrite app_assoc. split_and!; [done| |].
    + eapply Forall2_compose; [|exact H1|exact Hm1]. intros x y z ? ?. by etrans.
    + apply Forall_app. split; [|done]. clear -H2 Hm2 Hfresh.
      induction Hm2 as [|x y l2 m2 Hxy _ IH]; [constructor|].
      apply Forall_cons in H2 as [? ?]. constructor; [by eapply Hfresh|by apply IH].
Qed.
End extends.

(** ** Windows *)

Definition window_span (k : FeatureWindowKind) : Z := if k ==? FeatureWindowKind.ONE_HOUR then HOUR else DAY.

Lemma align_window_end_spec cutoff k :
  align_window_end cutoff k ≤ cutoff < align_window_end cutoff k + window_span k ∧
  align_window_end cutoff k mod window_span k = 0.
Proof.
  unfold align_window_end, truncate_to. fold (window_span k).
  assert (0 < window_span k) as Hs by (unfold window_span; case_bool_decide; done).
  pose proof (Z.mod_pos_bound cutoff (window_span k) Hs).
  destruct (cutoff <? cutoff - cutoff mod window_span k) eqn:Hlt; [apply Z.ltb_lt in Hlt; lia|].
  split; [lia|]. rewrite Zminus_mod_idemp_r, Z.sub_diag. by apply Z.mod_0_l; lia.
Qed.

Lemma upper_bound_spec cutoff k lateness :
  let '(_, window_end) := compute_window_bounds cutoff k in
  window_end ≤ cutoff → effective_observation_upper_bound window_end cutoff lateness ≤ cutoff.
Proof.
  cbn. unfold effective_observation_upper_bound. intros. destruct (_ <=? _); lia.
Qed.

Lemma in_filtered l et ei ws ub o :
  o ∈ filter_observations_for_entity l et ei ws ub ↔
  o ∈ l ∧ ws ≤ bo_observed_at o ≤ ub ∧ observation_matches_entity o et ei = true.
Proof.
  unfold filter_observations_for_entity. rewrite (py_sorted_perm observed_le), elem_of_filter_bool.
  rewrite andb_true_iff, negb_true_iff, orb_false_iff, !Z.ltb_ge. naive_solver lia.
Qed.

Lemma in_loaded table tenant scope ws ub o :
  o ∈ load_observations_for_window table tenant scope ws ub ↔
  o ∈ table ∧ bo_source_tenant_id o = tenant ∧ bo_detection_scope_id o = scope ∧ ws ≤ bo_observed_at o ≤ ub.
Proof.
  unfold load_observations_for_window. rewrite (py_sorted_perm observed_asc), elem_of_filter_bool.
  rewrite !andb_true_iff, !Z.leb_le, !bool_decide_eq_true. naive_solver.
Qed.

Section snapshots.
Context (sv : SnapshotEnv).

(** Enough observations, and from the first to the last at least the required part of the window. *)
Definition enough (k : FeatureWindowKind) (matched : list BehaviorObservation) : Prop :=
  _MIN_OBSERVATIONS k ≤ Z.of_nat (length matched) ∧
  ∀ o1 o2, head matched = Some o1 → last matched = Some o2 →
    (inject_Z (_WINDOW_DURATIONS k) * _COVERAGE_FRACTION k
     <= inject_Z (bo_observed_at o2 - bo_observed_at o1))%Q.

Lemma readiness_spec matched k :
  (_evaluate_readiness matched k = FeatureSnapshotStatus.READY ↔ enough k matched) ∧
  (_evaluate_readiness matched k = FeatureSnapshotStatus.INSUFFICIENT_HISTORY ↔
   Z.of_nat (length matched) < _MIN_OBSERVATIONS k).
Proof.
  unfold _evaluate_readiness, enough.
  destruct (Z.ltb_spec (Z.of_nat (length matched)) (_MIN_OBSERVATIONS k)) as [Hl|Hl].
  { split; [|done]. split; [done|lia]. }
  destruct (head matched) as [o1|], (last matched) as [o2|]; try by (split; split; [..|lia]).
  destruct (q_lt _ _) eqn:Hq.
  - apply q_lt_true in Hq. split; (split; [done|]); [|lia].
    intros [_ Hc]. by apply Qle_not_lt in Hq; [|apply Hc].
  - apply q_lt_false in Hq. split; (split; [|done || lia]); [|done].
    intros _. split; [done|]. by intros ? ? [= <-] [= <-].
Qed.

(** C26. A materialised snapshot holds exactly the observations of its tenant, scope and entity in a
    window of the full duration that ends on an hour or day boundary at or before the cutoff; when
    the cutoff is within the allowed lateness of that end, those up to the cutoff too, otherwise none
    after the end.  It is ready, and carries the features of these observations, exactly when they
    are enough and span enough of the window; otherwise it carries none. *)
Theorem snapshot_no_leakage table a s :
  materialize_snapshot sv table a = Ok s →
  let sc := fs_content s in
  sc_window_start sc = sc_window_end sc - _WINDOW_DURATIONS (sa_window_kind a) ∧
  sc_window_end sc ≤ sa_cutoff_at a < sc_window_end sc + window_span (sa_window_kind a) ∧
  sc_window_end sc mod window_span (sa_window_kind a) = 0 ∧
  ∃ matched upper, fp_observation_ids (sc_provenance sc) = bo_observation_id <$> matched ∧
    StronglySorted not_later matched ∧ (length matched ≤ MAX_PROVENANCE_OBSERVATIONS)%nat ∧
    (sa_cutoff_at a - sc_window_end sc ≤ sa_allowed_lateness a → upper = sa_cutoff_at a) ∧
    (sa_allowed_lateness a < sa_cutoff_at a - sc_window_end sc → upper = sc_window_end sc) ∧
    (∀ o, o ∈ matched ↔
       o ∈ table ∧ bo_source_tenant_id o = sa_source_tenant_id a ∧
       bo_detection_scope_id o = sa_detection_scope_id a ∧
       observation_matches_entity o (sa_entity_type a) (sa_entity_id a) = true ∧
       sc_window_start sc ≤ bo_observed_at o ≤ upper) ∧
    (sc_status sc = FeatureSnapshotStatus.READY ↔ enough (sa_window_kind a) matched) ∧
    (sc_status sc = FeatureSnapshotStatus.READY → sc_features sc = _aggregate_features matched) ∧
    (sc_status sc ≠ FeatureSnapshotStatus.READY → sc_features sc = []).
Proof.
  unfold materialize_snapshot, build_feature_snapshot. cbn [compute_window_bounds].
  set (window_end := align_window_end _ _). set (upper := effective_observation_upper_bound _ _ _).
  set (window_start := window_end - _). set (matched := filter_observations_for_entity _ _ _ _ _).
  rewrite raise_if_seq_Ok. intros [_ (p & Hp & [= <-])%bind_Ok]. cbn.
  unfold snapshot_provenance in Hp. apply raise_if_seq_Ok in Hp as [Hlen [= <-]]. cbn.
  apply bool_decide_eq_false in Hlen.
  destruct (align_window_end_spec (sa_cutoff_at a) (sa_window_kind a)) as [Hw Hmod].
  fold window_end upper window_start in Hw, Hmod |- *. split_and!; try done; try lia.
  exists matched, upper. split_and!;
    [done|apply observed_sorted|unfold MAX_PROVENANCE_OBSERVATIONS in *; lia|..].
  - unfold upper, effective_observation_upper_bound. fold window_end.
    destruct (Z.leb_spec (sa_cutoff_at a) (window_end + sa_allowed_lateness a)); lia.
  - unfold upper, effective_observation_upper_bound. fold window_end.
    destruct (Z.leb_spec (sa_cutoff_at a) (window_end + sa_allowed_lateness a)); lia.
  - intros o. unfold matched. rewrite in_filtered, in_loaded. naive_solver.
  - apply readiness_spec.
  - intros Hr. by rewrite bool_decide_eq_true_2.
  - intros Hr. by rewrite bool_decide_eq_false_2.
Qed.
End snapshots.

(** ** Latest revisions *)

Section latest.
Context {K : Type} `{EqDecision K} (key : FeatureSnapshot → K).

Definition revision (s : FeatureSnapshot) : Z := sc_revision (fs_content s).

(** The entries are the highest revisions of their keys among the snapshots seen. *)
Definition latest_ok (seen : list FeatureSnapshot) (d : list (K * FeatureSnapshot)) : Prop :=
  NoDup d.*1 ∧
  (∀ k s, (k, s) ∈ d → s ∈ seen ∧ key s = k ∧ ∀ s', s' ∈ seen → key s' = k → revision s' ≤ revision s) ∧
  (∀ s, s ∈ seen → key s ∈ d.*1).

Lemma keep_latest_keys (d : list (K * FeatureSnapshot)) k s :
  (keep_latest d k s).*1 = if k ∈? d.*1 then d.*1 else d.*1 ++ [k].
Proof.
  induction d as [|[k1 c] d IH]; cbn; [done|].
  destruct (decide (k = k1)) as [->|Hk].
  - rewrite (bool_decide_eq_true_2 (k1 = k1)) by done. by rewrite bool_decide_eq_true_2 by (by left).
  - rewrite (bool_decide_eq_false_2 (k = k1)) by done. cbn. rewrite IH. repeat case_bool_decide; set_solver.
Qed.

Lemma keep_latest_elem (d : list (K * FeatureSnapshot)) k s k' s' :
  NoDup d.*1 → (k', s') ∈ keep_latest d k s →
  ((k', s') ∈ d ∧ (k' = k → revision s ≤ revision s')) ∨
  (k' = k ∧ s' = s ∧ ∀ c, (k, c) ∈ d → revision c < revision s).
Proof.
  unfold revision. induction d as [|[k1 c] d IH]; cbn.
  { intros _ [[= -> ->]|?]%elem_of_cons; [|set_solver]. right. set_solver. }
  intros [Hni Hnd]%NoDup_cons. case_bool_decide as Hk; [subst k1|].
  - assert (∀ c', (k, c') ∈ d → False) as Hno.
    { intros c' Hc'. apply Hni, list_elem_of_fmap. by exists (k, c'). }
    intros [[= -> ->]|Hin]%elem_of_cons.
    + destruct (_ <? _) eqn:Hr; [apply Z.ltb_lt in Hr|apply Z.ltb_ge in Hr].
      * right. split_and!; [done..|]. intros c' [[= ->]|Hc']%elem_of_cons; [done|by destruct (Hno c')].
      * left. split; [by left|done].
    + left. split; [by right|]. intros ->. by destruct (Hno s').
  - intros [[= -> ->]|Hin]%elem_of_cons; [left; split; [by left|done]|].
    destruct (IH Hnd Hin) as [[? ?]|(-> & -> & Hc)]; [left; split; [by right|done]|].
    right. split_and!; [done..|]. intros c' [[= -> ->]|Hc']%elem_of_cons; [done|by apply Hc].
Qed.

Lemma keep_latest_ok seen d s : latest_ok seen d → latest_ok (seen ++ [s]) (keep_latest d (key s) s).
Proof.
  intros (Hnd & Hin & Hall). split_and!.
  - rewrite keep_latest_keys. case_bool_decide; [done|]. apply NoDup_app.
    split_and!; [done|set_solver|apply NoDup_singleton].
  - intros k s' Hk0; apply keep_latest_elem in Hk0 as [[Hs' Hr]|(-> & -> & Hc)]; [| |done].
    + destruct (Hin _ _ Hs') as (? & <- & Hmax). split_and!; [set_solver|done|].
      intros s2 [Hs2|Hs2%list_elem_of_singleton]%elem_of_app Hk; [|subst s2]; [by apply Hmax|]. by apply Hr.
    + split_and!; [set_solver|done|]. intros s2 [Hs2|Hs2%list_elem_of_singleton]%elem_of_app Hk; [|subst s2]; [|done].
      pose proof (Hall _ Hs2) as ([k c] & Hkc & Hc2)%list_elem_of_fmap. cbn in Hkc. subst k.
      destruct (Hin _ _ Hc2) as (_ & _ & Hm). rewrite Hk in *. specialize (Hm s2 Hs2 Hk).
      specialize (Hc c Hc2). lia.
  - intros s2 Hs2. rewrite keep_latest_keys. case_bool_decide as Hk;
      apply elem_of_app in Hs2 as [Hs2%Hall|Hs2%list_elem_of_singleton]; set_solver.
Qed.

Lemma latest_fold_ok l : latest_ok l (foldl (λ latest snap, keep_latest latest (key snap) snap) [] l).
Proof.
  assert (∀ d seen, latest_ok seen d →
            latest_ok (seen ++ l) (foldl (λ latest snap, keep_latest latest (key snap) snap) d l)) as Hf.
  { induction l as [|x l IH]; intros d seen Hd; cbn; [by rewrite app_nil_r|].
    rewrite (cons_middle x seen l), app_assoc. by apply IH, keep_latest_ok. }
  apply (Hf [] []). split_and!; [constructor|set_solver..].
Qed.

Lemma latest_by_spec l s :
  s ∈ latest_by key l → s ∈ l ∧ ∀ s', s' ∈ l → key s' = key s → revision s' ≤ revision s.
Proof.
  destruct (latest_fold_ok l) as (_ & Hin & _).
  intros ([k s1] & -> & Hs)%list_elem_of_fmap. destruct (Hin _ _ Hs) as (? & <- & ?). by split.
Qed.

Lemma latest_by_complete l s : s ∈ l → ∃ s', s' ∈ latest_by key l ∧ key s' = key s.
Proof.
  destruct (latest_fold_ok l) as (_ & Hin & Hall).
  intros Hs%Hall. apply list_elem_of_fmap in Hs as ([k s1] & Hk & Hs1). exists s1. split.
  - apply list_elem_of_fmap. by exists (k, s1).
  - cbn in Hk. by destruct (Hin _ _ Hs1) as (_ & -> & _).
Qed.
End latest.

Section baselines.
Context (sv : SnapshotEnv).

Definition snapshot_window (s : FeatureSnapshot) : Z * Z :=
  (sc_window_end (fs_content s), sc_cutoff_at (fs_content s)).

(** A baseline is computed from ready snapshots at or before its cutoff only, the highest revision of
    each window, and is ready only with enough of them. *)
Theorem baseline_as_of_cutoff a snapshots b :
  build_detection_feature_baseline sv a snapshots = Ok b →
  let eligible := eligible_snapshots snapshots (ba_cutoff_at a) in
  (∀ s, s ∈ eligible →
     s ∈ snapshots ∧ sc_status (fs_content s) = FeatureSnapshotStatus.READY ∧
     sc_cutoff_at (fs_content s) ≤ ba_cutoff_at a ∧
     ∀ s', s' ∈ snapshots → snapshot_window s' = snapshot_window s → revision s' ≤ revision s) ∧
  bc_snapshot_revision_refs (fb_content b) = fs_snapshot_id <$> last_n 16 eligible ∧
  (bc_status (fb_content b) = DetectionBaselineStatus.READY →
     min_required (ba_window_kind a) ≤ Z.of_nat (length eligible)).
Proof.
  unfold build_detection_feature_baseline. intros ([status stats] & Hs & [= <-])%bind_Ok. cbn. split_and!.
  - unfold eligible_snapshots, dedupe_latest_snapshot_revisions. intros s.
    rewrite (py_sorted_perm by_cutoff_id), elem_of_filter_bool, (py_sorted_perm by_cutoff_revision).
    unfold is_ready. rewrite andb_true_iff, bool_decide_eq_true, Z.leb_le.
    intros [[Hin Hmax]%latest_by_spec [? ?]]. by split_and!.
  - done.
  - intros ->. unfold baseline_stats in Hs. destruct (_ <? _) eqn:Hlt; [done|]. by apply Z.ltb_ge in Hlt.
Qed.
End baselines.

(** ** Shadow runs *)

Section runs.
Context (dv : DetectionEnv).

(** The tables a run only reads. *)
Definition same_inputs (db db' : DetectionDb) : Prop :=
  dd_packages db' = dd_packages db ∧ dd_observations db' = dd_observations db ∧
  dd_snapshots db' = dd_snapshots db ∧ dd_baselines db' = dd_baselines db.

#[global] Instance same_inputs_preorder : PreOrder same_inputs.
Proof. split; [intros ?; by split_and!|]. intros ??? (?&?&?&?) (?&?&?&?). split_and!; congruence. Qed.

Lemma evaluate_same_inputs db db' package rule cutoff :
  same_inputs db db' → _evaluate_rule dv db' package rule cutoff = _evaluate_rule dv db package rule cutoff.
Proof.
  intros (_ & Ho & Hs & Hb). unfold _evaluate_rule, rule_context, _load_observations, _load_snapshots, _load_baselines.
  by rewrite Ho, Hs, Hb.
Qed.

(** A stored candidate keeps everything but its evidence. *)
Definition kept (c c' : CandidateDetection) : Prop :=
  cd_candidate_detection_id c' = cd_candidate_detection_id c ∧ cd_identity c' = cd_identity c ∧
  cd_idempotency_key c' = cd_idempotency_key c ∧ cd_shadow_only c' = cd_shadow_only c.

#[global] Instance kept_preorder : PreOrder kept.
Proof. split; [intros ?; by split_and!|]. intros ??? (?&?&?&?) (?&?&?&?). split_and!; congruence. Qed.

Lemma kept_shadow c c' : cd_shadow_only c = true → kept c c' → cd_shadow_only c' = true.
Proof. intros Hc (_ & _ & _ & ->). done. Qed.

Definition grows : list CandidateDetection → list CandidateDetection → Prop :=
  extends kept (λ c, cd_shadow_only c = true).

#[global] Instance grows_preorder : PreOrder grows := extends_preorder _ _ kept_shadow.

(** Keys are unique columns. *)
Definition candidates_ok (l : list CandidateDetection) : Prop :=
  NoDup (cd_idempotency_key <$> l) ∧ NoDup (cd_candidate_detection_id <$> l).

Lemma find_None_key key l : List.find (λ c, cd_idempotency_key c ==? key) l = None → key ∉ cd_idempotency_key <$> l.
Proof.
  intros Hf (c & -> & Hc)%list_elem_of_fmap. apply list_elem_of_In in Hc.
  pose proof (find_none _ _ Hf c Hc) as Hn. cbn in Hn. by apply bool_decide_eq_false in Hn.
Qed.

Lemma find_Some_key key l c :
  List.find (λ c, cd_idempotency_key c ==? key) l = Some c → c ∈ l ∧ cd_idempotency_key c = key.
Proof. intros [Hin Hk]%find_some. apply list_elem_of_In in Hin. by apply bool_decide_eq_true in Hk. Qed.

Lemma update_candidate_kept key row l :
  (∀ c, c ∈ l → cd_idempotency_key c = key → kept c row) → Forall2 kept l (update_candidate key row l).
Proof.
  unfold update_candidate. induction l as [|c l IH]; intros Hk; cbn; constructor.
  - case_bool_decide as Hc; [apply Hk; [by left|done]|reflexivity].
  - apply IH. intros; apply Hk; [by right|done].
Qed.

Lemma kept_map {A} (f : CandidateDetection → A) l l' :
  (∀ c c', kept c c' → f c' = f c) → Forall2 kept l l' → f <$> l' = f <$> l.
Proof. intros Hf. induction 1 as [|c c' l l' Hc _ IH]; cbn; [done|]. by rewrite (Hf _ _ Hc), IH. Qed.

Lemma kept_ok l l' : Forall2 kept l l' → candidates_ok l → candidates_ok l'.
Proof.
  intros Hk [H1 H2]. split.
  - by rewrite (kept_map cd_idempotency_key l l') by (try done; by intros ?? (_ & _ & ? & _)).
  - by rewrite (kept_map cd_candidate_detection_id l l') by (try done; by intros ?? (? & _)).
Qed.

(** The same key determines the same stored row. *)
Lemma same_key_same_row l c c' :
  candidates_ok l → c ∈ l → c' ∈ l → cd_idempotency_key c = cd_idempotency_key c' → c = c'.
Proof. intros [Hnd _]. by apply (column_unique cd_idempotency_key). Qed.

Lemma persist_candidate_spec db c stored db1 :
  candidates_ok (dd_candidates db) → cd_shadow_only c = true →
  persist_candidate_in_session db c = Ok (stored, db1) →
  same_inputs db db1 ∧ dd_errors db1 = dd_errors db ∧ grows (dd_candidates db) (dd_candidates db1) ∧
  candidates_ok (dd_candidates db1).
Proof.
  intros Hok Hsh. unfold persist_candidate_in_session, candidate_by_key.
  destruct (List.find _ _) as [e|] eqn:Hf.
  - apply find_Some_key in Hf as [He Hke]. case_bool_decide as Hh; cbn.
    { intros [= _ <-]. split_and!; try done; reflexivity. }
    rewrite raise_if_seq_Ok. intros [_ [= _ <-]].
    assert (Forall2 kept (dd_candidates db)
              (update_candidate (cd_idempotency_key c) (refreshed e c) (dd_candidates db))) as Hk.
    { apply update_candidate_kept. intros c' Hc' Hkc'. rewrite (same_key_same_row _ c' e Hok) by congruence.
      by split_and!. }
    split_and!; try done; [|by eapply kept_ok].
    eexists _, []. rewrite app_nil_r. split_and!; [done|done|constructor].
  - apply find_None_key in Hf. rewrite raise_if_seq_Ok. intros [Hid [= _ <-]]. split_and!; try done.
    + exists (dd_candidates db), [c]. split_and!; [done|by apply Forall2_same|by repeat constructor].
    + destruct Hok as [H1 H2]. cbn. split; rewrite fmap_app; apply NoDup_app; split_and!; try done;
        try apply NoDup_singleton; intros x Hx ->%list_elem_of_singleton; [done|].
      apply list_elem_of_fmap in Hx as (c' & Hc' & Hin). apply list_elem_of_In in Hin.
      assert (existsb (λ c0, cd_candidate_detection_id c0 ==? cd_candidate_detection_id c) (dd_candidates db) = true);
        [|congruence]. apply existsb_exists. exists c'. split; [done|]. by apply bool_decide_eq_true.
Qed.

(** A message the error row can hold. *)
Definition message_fits (e : error) : Prop := (0 < String.length (err_message e) ≤ MAX_ERROR_MESSAGE)%nat.

Lemma persist_candidate_error db c e : persist_candidate_in_session db c = Err e → message_fits e.
Proof.
  unfold persist_candidate_in_session, message_fits, MAX_ERROR_MESSAGE. destruct (candidate_by_key _ _).
  - case_bool_decide; cbn; [done|]. intros [[_ <-]%raise_if_Err|(? & _ & ?)]%bind_Err; [|done]. vm_compute. lia.
  - intros [[_ <-]%raise_if_Err|(? & _ & ?)]%bind_Err; [|done]. vm_compute. lia.
Qed.

Lemma persist_candidates_spec l db stored e db1 :
  candidates_ok (dd_candidates db) → Forall (λ c, cd_shadow_only c = true) l →
  persist_candidates db l = (stored, e, db1) →
  same_inputs db db1 ∧ dd_errors db1 = dd_errors db ∧ grows (dd_candidates db) (dd_candidates db1) ∧
  candidates_ok (dd_candidates db1) ∧ (∀ x, e = Some x → message_fits x).
Proof.
  revert db stored. induction l as [|c l IH]; intros db stored Hok Hl; cbn.
  { intros [= _ <- <-]. split_and!; try done; reflexivity. }
  apply Forall_cons in Hl as [Hc Hl].
  destruct (persist_candidate_in_session db c) as [[st db2]|x] eqn:Hp.
  - destruct (persist_candidate_spec _ _ _ _ Hok Hc Hp) as (Hi & He & Hg & Hok2).
    destruct (persist_candidates db2 l) as [[rest e2] db3] eqn:Hr. intros [= _ <- <-].
    destruct (IH _ _ Hok2 Hl Hr) as (Hi2 & He2 & Hg2 & Hok3 & Hm). split_and!; [by etrans|congruence|by etrans|done..].
  - intros [= _ <- <-]. split_and!; try done; try reflexivity. intros x' [= <-]. by eapply persist_candidate_error.
Qed.

Lemma evaluated_shadow_only db package rule cutoff l n :
  _evaluate_rule dv db package rule cutoff = Ok (l, n) → Forall (λ c, cd_shadow_only c = true) l.
Proof.
  unfold _evaluate_rule. intros (k & _ & ([ctx m] & _ & (reg & _ & (op & _ & (ms & _ & Hl)%bind_Ok)%bind_Ok)%bind_Ok)%bind_Ok)%bind_Ok.
  apply bind_Ok in Hl as (cs & Hcs%map_result_Ok & [= <- _]). apply Forall_forall.
  intros c (m0 & _ & Hm)%(Forall2_elem_r _ _ _ _ Hcs). unfold candidate_of_match in Hm.
  apply bind_Ok in Hm as (p & _ & Hb). unfold build_candidate_detection in Hb.
  apply raise_if_seq_Ok in Hb as [_ [= <-]]. done.
Qed.

#[local] Abbreviation RunState := (DetectionRuleRuntimeResult * DetectionDb)%type.

(** What a run may do to its state. *)
Definition advances (n : Z) (st st' : RunState) : Prop :=
  same_inputs st.2 st'.2 ∧ grows (dd_candidates st.2) (dd_candidates st'.2) ∧
  (candidates_ok (dd_candidates st.2) → candidates_ok (dd_candidates st'.2)) ∧
  rr_rules_evaluated st'.1 = rr_rules_evaluated st.1 + n.

Lemma advances_trans n m st1 st2 st3 : advances n st1 st2 → advances m st2 st3 → advances (n + m) st1 st3.
Proof.
  intros (H1 & H2 & H3 & H4) (G1 & G2 & G3 & G4). split_and!; [by etrans|by etrans|auto|lia].
Qed.

Lemma advances_refl st : advances 0 st st.
Proof. split_and!; [reflexivity..|done|lia]. Qed.

Definition evaluation_fits (db : DetectionDb) (cutoff : Z) (p : DetectionRulePackage)
    (r : DetectionRuleDefinition) : Prop :=
  ∀ e, _evaluate_rule dv db p r cutoff = Err e → message_fits e.

Lemma error_row_stored db tenant package rule cutoff category e :
  message_fits e →
  ∃ row db', _persist_rule_runtime_error dv db tenant package rule cutoff category e = Ok (row, db') ∧
    same_inputs db db' ∧ dd_candidates db' = dd_candidates db ∧ re_error_message row = err_message e.
Proof.
  intros [H0 H1]. unfold _persist_rule_runtime_error.
  rewrite (proj2 (Nat.eqb_neq _ _)) by lia. rewrite (bool_decide_eq_false_2 (MAX_ERROR_MESSAGE < _)%nat) by lia. cbn.
  unfold persist_runtime_error_in_session. destruct (List.find _ _) as [x|]; cbn; eexists _, _; by split_and!.
Qed.

Lemma rule_round_advances cutoff tenant package st rule :
  candidates_ok (dd_candidates st.2) → evaluation_fits st.2 cutoff package rule →
  ∃ st', rule_round dv cutoff tenant package st rule = Ok st' ∧ advances 1 st st'.
Proof.
  destruct st as [acc db]. intros Hok Hfit. unfold rule_round. cbn in Hok, Hfit.
  destruct (_evaluate_rule dv db package rule cutoff) as [[cs n]|e] eqn:He.
  - destruct (persist_candidates db cs) as [[stored e] db1] eqn:Hp.
    destruct (persist_candidates_spec _ _ _ _ _ Hok (evaluated_shadow_only _ _ _ _ _ _ He) Hp)
      as (Hi & _ & Hg & Hok1 & Hm).
    destruct e as [e|]; [|eexists; split; [done|by split_and!]].
    destruct (error_row_stored db1 tenant package rule cutoff
                (if err_class e ==? ValidationError then "validation_error" else "internal_error") e)
      as (row & db2 & -> & Hi2 & Hc2 & _); [by apply Hm|].
    eexists; split; [done|]. split_and!; cbn; rewrite ?Hc2; try done. by etrans.
  - destruct (error_row_stored db tenant package rule cutoff
                (if err_class e ==? ValidationError then "validation_error" else "internal_error") e)
      as (row & db2 & -> & Hi2 & Hc2 & _); [by apply Hfit|].
    eexists; split; [done|]. split_and!; cbn; rewrite ?Hc2; try done.
Qed.

(** A fold of steps that never fail and keep the invariant. *)
Lemma fold_result_advances {B} (f : RunState → B → result RunState) (size : B → Z) l st :
  (∀ st' x, x ∈ l → candidates_ok (dd_candidates st'.2) → same_inputs st.2 st'.2 →
     ∃ st'', f st' x = Ok st'' ∧ advances (size x) st' st'') →
  candidates_ok (dd_candidates st.2) →
  ∃ st', fold_result f st l = Ok st' ∧ advances (foldr (λ x n, size x + n) 0 l) st st'.
Proof.
  revert st. induction l as [|x l IH]; intros st Hf Hok; cbn.
  { exists st. split; [done|apply advances_refl]. }
  destruct (Hf st x) as (st1 & -> & H1); [by left|done|reflexivity|]. cbn.
  destruct (IH st1) as (st2 & -> & H2).
  - intros st' y Hy Hok' Hi. apply Hf; [by right|done|]. etrans; [apply H1|done].
  - by apply H1.
  - exists st2. split; [done|]. by eapply advances_trans.
Qed.

Definition rules_of (p : DetectionRulePackage) : Z :=
  if pk_runtime_state p ==? DetectionRuleRuntimeState.SHADOW_ACTIVE then Z.of_nat (length (pk_rules p)) else 0.

Lemma package_round_advances cutoff tenant st p :
  (∀ r, r ∈ pk_rules p → evaluation_fits st.2 cutoff p r) → candidates_ok (dd_candidates st.2) →
  ∃ st', package_round dv cutoff tenant st p = Ok st' ∧ advances (rules_of p) st st'.
Proof.
  intros Hfit Hok. unfold package_round, rules_of. case_bool_decide; [|by eauto using advances_refl].
  destruct (fold_result_advances (rule_round dv cutoff tenant p) (λ _, 1) (pk_rules p) st) as (st' & -> & Ha).
  - intros st' r Hr Hok' Hi. apply rule_round_advances; [done|]. intros e He. apply (Hfit r Hr e).
    by rewrite <-(evaluate_same_inputs st.2 st'.2).
  - done.
  - exists st'. split; [done|]. replace (Z.of_nat (length (pk_rules p))) with (foldr (λ _ n, 1 + n) 0 (pk_rules p)); [done|].
    clear. induction (pk_rules p) as [|r l IH]; cbn; lia.
Qed.

(** A shadow run evaluates every rule of every selected package: a rule that fails leaves an error
    row and does not stop the others.  The run writes nothing but candidates and error rows; stored
    candidates keep their key, identity and shadow mark, new ones are shadow only, and keys stay
    unique. *)
Theorem shadow_run_total db tenant cutoff package_id packages :
  candidates_ok (dd_candidates db) → selected_packages db tenant package_id = Ok packages →
  (∀ p r, p ∈ packages → r ∈ pk_rules p → evaluation_fits db cutoff p r) →
  ∃ res db', execute_shadow dv db tenant cutoff package_id = Ok (res, db') ∧
    rr_rules_evaluated res = foldr (λ p n, rules_of p + n) 0 packages ∧
    same_inputs db db' ∧ grows (dd_candidates db) (dd_candidates db') ∧ candidates_ok (dd_candidates db').
Proof.
  intros Hok Hsel Hfit. unfold execute_shadow. rewrite Hsel. cbn.
  destruct (fold_result_advances (package_round dv cutoff tenant) rules_of packages (empty_result, db))
    as ([res db'] & -> & Hi & Hg & Hok' & Hn); [|done|].
  - intros st' p Hp Hok' Hi. apply package_round_advances; [|done]. intros r Hr e He.
    apply (Hfit p r Hp Hr e). by rewrite <-(evaluate_same_inputs db st'.2).
  - exists res, db'. by split_and!; [..|apply Hok'].
Qed.

(** ** Replays *)

Lemma find_app_fresh key (l k : list CandidateDetection) :
  key ∉ cd_idempotency_key <$> l →
  List.find (λ c, cd_idempotency_key c ==? key) (l ++ k) = List.find (λ c, cd_idempotency_key c ==? key) k.
Proof.
  induction l as [|c l IH]; cbn; [done|]. rewrite not_elem_of_cons. intros [Hne Hni].
  rewrite bool_decide_eq_false_2 by congruence. by apply IH.
Qed.

(** *** Storing candidates twice

    Several candidates of a run may share one key; then the last one's evidence stays in the row. *)

Definition evidence (c : CandidateDetection) : string * pyfloat * CandidateDetectionProvenance :=
  (cd_candidate_detection_id c, cd_matched_value c, cd_provenance c).

(** Of the candidates with one key, the content hash tells those with different evidence apart. *)
Definition told_apart (l : list CandidateDetection) : Prop :=
  ∀ c c', c ∈ l → c' ∈ l → cd_idempotency_key c = cd_idempotency_key c' →
    cd_content_hash c = cd_content_hash c' → evidence c = evidence c'.

Lemma distinct_keys_told_apart l : NoDup (cd_idempotency_key <$> l) → told_apart l.
Proof. intros Hnd c c' Hc Hc' Hk _. by rewrite (column_unique cd_idempotency_key l c c'). Qed.

Definition renewed (c r : CandidateDetection) : CandidateDetection :=
  if cd_idempotency_key r ==? cd_idempotency_key c then refreshed r c else r.

Definition put (c : CandidateDetection) (l : list CandidateDetection) : list CandidateDetection := renewed c <$> l.

Definition renew_all (l : list CandidateDetection) (r : CandidateDetection) : CandidateDetection :=
  foldl (λ r c, renewed c r) r l.

Definition row_for (c : CandidateDetection) (l : list CandidateDetection) : option CandidateDetection :=
  List.find (λ r, cd_idempotency_key r ==? cd_idempotency_key c) l.

Lemma renewed_key c r : cd_idempotency_key (renewed c r) = cd_idempotency_key r.
Proof. unfold renewed. by case_bool_decide. Qed.

Lemma renewed_hit c r : cd_idempotency_key r = cd_idempotency_key c → renewed c r = refreshed r c.
Proof. intros. unfold renewed. by rewrite bool_decide_eq_true_2. Qed.

Lemma renewed_miss c r : cd_idempotency_key r ≠ cd_idempotency_key c → renewed c r = r.
Proof. intros. unfold renewed. by rewrite bool_decide_eq_false_2. Qed.

Lemma renewed_id c r : cd_candidate_detection_id (renewed c r) = cd_candidate_detection_id r.
Proof. unfold renewed. by case_bool_decide. Qed.

Lemma refreshed_renewed c c' r : refreshed (renewed c r) c' = refreshed r c'.
Proof. unfold renewed. by case_bool_decide. Qed.

Lemma refreshed_same r c : cd_content_hash r = cd_content_hash c → evidence r = evidence c → refreshed r c = r.
Proof. intros Hh [= _ Hm Hp]. unfold refreshed. rewrite <-Hh, <-Hm, <-Hp. by destruct r. Qed.

Lemma refreshed_self c : refreshed c c = c.
Proof. by destruct c. Qed.

Lemma renew_all_snoc l c r : renew_all (l ++ [c]) r = renewed c (renew_all l r).
Proof. unfold renew_all. by rewrite foldl_app. Qed.

Lemma renew_all_spec l r :
  cd_idempotency_key (renew_all l r) = cd_idempotency_key r ∧
  cd_candidate_detection_id (renew_all l r) = cd_candidate_detection_id r ∧
  (∀ c, refreshed (renew_all l r) c = refreshed r c) ∧ renew_all l (renew_all l r) = renew_all l r.
Proof.
  revert r. induction l as [|c l IH] using rev_ind; intros r; [done|]. rewrite !renew_all_snoc.
  destruct (IH r) as (Hk & Hi & Hr & Hid). split_and!.
  - by rewrite renewed_key.
  - by rewrite renewed_id.
  - intros c'. by rewrite refreshed_renewed.
  - destruct (decide (cd_idempotency_key r = cd_idempotency_key c)) as [E|E].
    + rewrite (renewed_hit c (renew_all l r)) by congruence. rewrite Hr.
      destruct (IH (refreshed r c)) as (Hk2 & _ & Hr2 & _). rewrite renewed_hit by (rewrite Hk2; done).
      by rewrite Hr2.
    + rewrite (renewed_miss c (renew_all l r)) by congruence. rewrite Hid. apply renewed_miss. congruence.
Qed.

Lemma keys_fmap (f : CandidateDetection → CandidateDetection) (X : list CandidateDetection) :
  (∀ r, cd_idempotency_key (f r) = cd_idempotency_key r) → cd_idempotency_key <$> (f <$> X) = cd_idempotency_key <$> X.
Proof. intros Hf. rewrite <-list_fmap_compose. apply list_fmap_ext. intros i x _. apply Hf. Qed.

Lemma row_for_fmap (f : CandidateDetection → CandidateDetection) c X :
  (∀ r, cd_idempotency_key (f r) = cd_idempotency_key r) → row_for c (f <$> X) = f <$> row_for c X.
Proof.
  intros Hf. unfold row_for. induction X as [|x X IH]; cbn; [done|]. rewrite Hf. by case_bool_decide.
Qed.

Lemma row_for_Some c X r : row_for c X = Some r → r ∈ X ∧ cd_idempotency_key r = cd_idempotency_key c.
Proof. apply find_Some_key. Qed.

Lemma row_for_app c X Y r : row_for c X = Some r → row_for c (X ++ Y) = Some r.
Proof. unfold row_for. induction X as [|x X IH]; cbn; [done|]. by case_bool_decide. Qed.

(** The rows with the key of a candidate, when keys are unique. *)
Lemma put_unique c r X :
  NoDup (cd_idempotency_key <$> X) → row_for c X = Some r →
  update_candidate (cd_idempotency_key c) (refreshed r c) X = put c X.
Proof.
  intros Hnd Hr. unfold update_candidate, put. apply list_fmap_ext. intros i x Hx. unfold renewed.
  case_bool_decide as E; [|done]. apply row_for_Some in Hr as [Hr Hk].
  f_equal. apply (column_unique cd_idempotency_key X); [done|done|by eapply list_elem_of_lookup_2|congruence].
Qed.

Lemma put_id c r X :
  NoDup (cd_idempotency_key <$> X) → row_for c X = Some r → refreshed r c = r → put c X = X.
Proof.
  intros Hnd Hr Hs. rewrite <-(put_unique c r) by done. rewrite Hs. unfold update_candidate.
  rewrite <-(list_fmap_id X) at 2. apply list_fmap_ext. intros i x Hx. case_bool_decide as E; [|done].
  apply row_for_Some in Hr as [Hr Hk]. cbn.
  apply (column_unique cd_idempotency_key X); [done|done|by eapply list_elem_of_lookup_2|congruence].
Qed.

Lemma set_candidates_same db : set_candidates db (dd_candidates db) = db.
Proof. by destruct db. Qed.

Section twice.
Context (U : list CandidateDetection).
Hypothesis Htold : told_apart U.

(** The row has the hash and the evidence of one of the candidates. *)
Definition known (r : CandidateDetection) : Prop :=
  ∃ u, u ∈ U ∧ cd_idempotency_key u = cd_idempotency_key r ∧ cd_content_hash u = cd_content_hash r ∧
    evidence u = evidence r.

Definition table_ok (X : list CandidateDetection) : Prop :=
  NoDup (cd_idempotency_key <$> X) ∧ Forall known X.

Lemma known_told r c :
  known r → c ∈ U → cd_idempotency_key r = cd_idempotency_key c → cd_content_hash r = cd_content_hash c →
  evidence r = evidence c.
Proof. intros (u & Hu & Hk & Hh & <-) Hc Hkc Hhc. apply Htold; congruence || done. Qed.

(** A candidate whose key has a row with its id. *)
Definition has_row (X : list CandidateDetection) (c : CandidateDetection) : Prop :=
  ∃ r, row_for c X = Some r ∧ cd_candidate_detection_id r = cd_candidate_detection_id c.

Lemma put_ok c X : table_ok X → c ∈ U → has_row X c → table_ok (put c X).
Proof.
  intros [Hnd Hk] Hc (r & Hr & Hid). split; [unfold put; by rewrite keys_fmap by apply renewed_key|].
  unfold put. apply Forall_fmap, Forall_forall. intros x Hx. rewrite Forall_forall in Hk. cbn.
  unfold renewed. case_bool_decide as E; [|by apply Hk]. apply row_for_Some in Hr as [Hr Hkr].
  assert (x = r) as -> by (apply (column_unique cd_idempotency_key X); [done|done|done|congruence]).
  exists c. split_and!; [done|done|done|]. unfold evidence. cbn. by rewrite Hid.
Qed.

Lemma persist_present db c r :
  table_ok (dd_candidates db) → c ∈ U → row_for c (dd_candidates db) = Some r →
  cd_candidate_detection_id r = cd_candidate_detection_id c →
  persist_candidate_in_session db c =
  Ok (row_to_candidate_detection (refreshed r c), set_candidates db (put c (dd_candidates db))).
Proof.
  intros [Hnd Hkn] Hc Hr Hid. unfold persist_candidate_in_session, candidate_by_key. fold (row_for c (dd_candidates db)).
  rewrite Hr. destruct (decide (cd_content_hash r = cd_content_hash c)) as [Hh|Hh].
  - rewrite bool_decide_eq_true_2 by done. cbn [negb]. pose proof (row_for_Some _ _ _ Hr) as [Hin Hk].
    rewrite Forall_forall in Hkn. assert (refreshed r c = r) as Hs by (apply refreshed_same, known_told; auto).
    rewrite (put_id c r) by done. by rewrite Hs, set_candidates_same.
  - rewrite bool_decide_eq_false_2 by done. cbn [negb]. rewrite bool_decide_eq_true_2 by done. cbn.
    by rewrite put_unique.
Qed.

(** What storing one candidate does. *)
Lemma persist_cases db c stored db1 :
  table_ok (dd_candidates db) → c ∈ U → persist_candidate_in_session db c = Ok (stored, db1) →
  has_row (dd_candidates db) c ∨
  row_for c (dd_candidates db) = None ∧ stored = row_to_candidate_detection c ∧
  db1 = set_candidates db (dd_candidates db ++ [c]).
Proof.
  intros [_ Hkn] Hc. unfold persist_candidate_in_session, candidate_by_key. fold (row_for c (dd_candidates db)).
  destruct (row_for c (dd_candidates db)) as [r|] eqn:Hr.
  - intros Hp. left. exists r. split; [done|]. pose proof (row_for_Some _ _ _ Hr) as [Hin Hk].
    rewrite Forall_forall in Hkn. case_bool_decide as Hh; cbn in Hp.
    + assert (evidence r = evidence c) as [= ? _ _] by (by apply known_told; auto). done.
    + apply raise_if_seq_Ok in Hp as [Hid _]. by rewrite negb_false_iff, bool_decide_eq_true in Hid.
  - rewrite raise_if_seq_Ok. intros [_ [= <- <-]]. by right.
Qed.

Definition stored_as (X : list CandidateDetection) (c : CandidateDetection) : CandidateDetection :=
  row_to_candidate_detection (refreshed (default c (row_for c X)) c).

Lemma has_row_put c X c' : has_row (put c X) c' ↔ has_row X c'.
Proof.
  unfold has_row, put. rewrite row_for_fmap by apply renewed_key. split.
  - intros (r & Hr & Hid). destruct (row_for c' X) as [r'|]; [|done]. cbn in Hr. injection Hr as <-.
    exists r'. by rewrite renewed_id in Hid.
  - intros (r & -> & Hid). exists (renewed c r). by rewrite renewed_id.
Qed.

Lemma stored_as_fmap (f : CandidateDetection → CandidateDetection) X c :
  (∀ r, cd_idempotency_key (f r) = cd_idempotency_key r) → (∀ r c, refreshed (f r) c = refreshed r c) →
  stored_as (f <$> X) c = stored_as X c.
Proof.
  intros Hk Hr. unfold stored_as. rewrite row_for_fmap by done. destruct (row_for c X); [|done]. cbn. by rewrite Hr.
Qed.

(** Candidates whose keys all have rows: each row ends with the evidence of the last of them. *)
Lemma persist_all_present l db :
  table_ok (dd_candidates db) → (∀ c, c ∈ l → c ∈ U ∧ has_row (dd_candidates db) c) →
  persist_candidates db l =
  (stored_as (dd_candidates db) <$> l, None, set_candidates db (renew_all l <$> dd_candidates db)).
Proof.
  revert db. induction l as [|c l IH]; intros db Hok Hl.
  { cbn. by rewrite list_fmap_id, set_candidates_same. }
  destruct (Hl c) as [Hc Hrow]; [by left|]. pose proof Hrow as (r & Hr & Hid). cbn [persist_candidates].
  rewrite (persist_present db c r) by done. rewrite IH; cbn [dd_candidates set_candidates].
  - f_equal; [f_equal|].
    + rewrite fmap_cons. f_equal; [unfold stored_as; by rewrite Hr|]. apply list_fmap_ext. intros i c' _.
      apply stored_as_fmap; [apply renewed_key|intros; apply refreshed_renewed].
    + unfold put. by rewrite <-list_fmap_compose.
  - by apply put_ok.
  - intros c' Hc'. rewrite has_row_put. apply Hl. by right.
Qed.

(** A candidate with a row leaves the rows of other keys behind it alone. *)
Lemma put_before c r X N :
  row_for c X = Some r → NoDup (cd_idempotency_key <$> (put c X ++ N)) → put c (X ++ N) = put c X ++ N.
Proof.
  intros [Hin Hk]%row_for_Some Hnd. unfold put. rewrite fmap_app. f_equal. rewrite <-(list_fmap_id N) at 2.
  apply list_fmap_ext. intros i x Hx. apply renewed_miss. intros E.
  rewrite fmap_app, NoDup_app in Hnd. destruct Hnd as (_ & Hnd & _). apply (Hnd (cd_idempotency_key c)).
  - unfold put. rewrite keys_fmap by apply renewed_key. rewrite <-Hk. by apply list_elem_of_fmap_2.
  - rewrite <-E. by eapply list_elem_of_fmap_2, list_elem_of_lookup_2.
Qed.

(** The first run: with the rows it inserts, every candidate has a row, and the table is as above. *)
Lemma persist_first l db stored db1 :
  table_ok (dd_candidates db) → (∀ c, c ∈ l → c ∈ U) → persist_candidates db l = (stored, None, db1) →
  ∃ N, let X := dd_candidates db ++ N in
    table_ok X ∧ (∀ c, c ∈ l → has_row X c) ∧ stored = stored_as X <$> l ∧
    db1 = set_candidates db (renew_all l <$> X).
Proof.
  revert db stored. induction l as [|c l IH]; intros db stored Hok Hl; cbn [persist_candidates].
  { intros [= <- <-]. exists []. cbn. rewrite app_nil_r, list_fmap_id, set_candidates_same.
    split_and!; [done|by intros c ?%elem_of_nil|done|done]. }
  assert (c ∈ U) as Hc by (apply Hl; by left). assert (∀ c', c' ∈ l → c' ∈ U) as Hl' by (intros; apply Hl; by right).
  destruct (persist_candidate_in_session db c) as [[st db2]|x] eqn:Hp; [|done].
  destruct (persist_candidates db2 l) as [[rest e2] db3] eqn:Hr. intros [= <- -> <-].
  destruct (persist_cases _ _ _ _ Hok Hc Hp) as [Hrow|(Hnone & -> & ->)].
  - pose proof Hrow as (r & Hrr & Hid). rewrite (persist_present db c r) in Hp by done. injection Hp as <- <-.
    destruct (IH (set_candidates db (put c (dd_candidates db))) _ (put_ok c _ Hok Hc Hrow) Hl' Hr)
      as (N & [Hnd Hkn] & Hrows & -> & ->).
    cbn [dd_candidates set_candidates] in *. exists N.
    pose proof (put_before c r (dd_candidates db) N Hrr Hnd) as Hput.
    rewrite <-Hput in *. split_and!.
    + split; [revert Hnd; unfold put; by rewrite keys_fmap by apply renewed_key|].
      apply Forall_app. split; [apply Hok|]. rewrite Hput in Hkn. by apply Forall_app in Hkn as [_ ?].
    + intros c' [->|Hc']%elem_of_cons; [exists r; split; [by apply row_for_app|done]|].
      by apply (has_row_put c), Hrows.
    + rewrite fmap_cons. f_equal.
      * unfold stored_as. by rewrite (row_for_app c _ N r Hrr).
      * apply list_fmap_ext. intros i c' _. apply stored_as_fmap; [apply renewed_key|intros; apply refreshed_renewed].
    + unfold put. by rewrite <-list_fmap_compose.
  - assert (table_ok (dd_candidates db ++ [c])) as Hok2.
    { destruct Hok as [Hnd Hkn]. split.
      - rewrite fmap_app. apply NoDup_app. split_and!; [done| |apply NoDup_singleton].
        intros k Hk ->%list_elem_of_singleton. by apply find_None_key in Hnone.
      - apply Forall_app. split; [done|]. apply Forall_singleton. by exists c. }
    destruct (IH (set_candidates db (dd_candidates db ++ [c])) _ Hok2 Hl' Hr) as (N & Hok3 & Hrows & -> & ->).
    cbn [dd_candidates set_candidates] in *. exists (c :: N). rewrite <-app_assoc in *. cbn [app] in *.
    assert (row_for c (dd_candidates db ++ c :: N) = Some c) as Hself.
    { unfold row_for. rewrite find_app_fresh by (by apply find_None_key). cbn. by rewrite bool_decide_eq_true_2. }
    split_and!; [done| | |].
    + intros c' [->|Hc']%elem_of_cons; [by exists c|by apply Hrows].
    + rewrite fmap_cons. f_equal. unfold stored_as. rewrite Hself. cbn. by rewrite refreshed_self.
    + change (renew_all (c :: l) <$> (dd_candidates db ++ c :: N)) with ((renew_all l ∘ renewed c) <$> (dd_candidates db ++ c :: N)).
      rewrite list_fmap_compose. fold (put c (dd_candidates db ++ c :: N)).
      by rewrite (put_id c c) by (apply Hok3 || done || apply refreshed_self).
Qed.

(** Storing the candidates of a run again changes nothing and answers the same. *)
Lemma persist_again l db stored db1 :
  table_ok (dd_candidates db) → (∀ c, c ∈ l → c ∈ U) → persist_candidates db l = (stored, None, db1) →
  persist_candidates db1 l = (stored, None, db1).
Proof.
  intros Hok Hl Hp. destruct (persist_first _ _ _ _ Hok Hl Hp) as (N & HX & Hrows & -> & ->).
  set (X := dd_candidates db ++ N) in *.
  assert (∀ k, (∀ c, c ∈ k → c ∈ l) → table_ok (renew_all k <$> X) ∧ ∀ c, c ∈ l → has_row (renew_all k <$> X) c) as Hk.
  { induction k as [|c k IH] using rev_ind; intros Hsub.
    - cbn. rewrite list_fmap_id. done.
    - assert (renew_all (k ++ [c]) <$> X = put c (renew_all k <$> X)) as ->.
      { unfold put. rewrite <-list_fmap_compose. apply list_fmap_ext. intros i x _. apply renew_all_snoc. }
      destruct IH as [Hok2 Hrows2]; [set_solver|]. assert (c ∈ l) as Hc by (apply Hsub; set_solver).
      split; [by apply put_ok; auto|]. intros c' Hc'. by apply has_row_put, Hrows2. }
  destruct (Hk l) as [Hok1 Hrows1]; [done|]. rewrite persist_all_present; cbn [dd_candidates set_candidates]; [|done|auto].
  f_equal; [f_equal|].
  - apply list_fmap_ext. intros i c _. apply stored_as_fmap; intros r; apply renew_all_spec.
  - rewrite <-list_fmap_compose. f_equal. apply list_fmap_ext. intros i x _. apply renew_all_spec.
Qed.
End twice.

Lemma persist_candidates_app l k db :
  persist_candidates db (l ++ k) =
  let '(st, e, db1) := persist_candidates db l in
  match e with
  | Some _ => (st, e, db1)
  | None => let '(st2, e2, db2) := persist_candidates db1 k in (st ++ st2, e2, db2)
  end.
Proof.
  revert db. induction l as [|c l IH]; intros db; cbn; [by destruct (persist_candidates db k) as [[? ?] ?]|].
  destruct (persist_candidate_in_session db c) as [[st db2]|x]; [|done]. rewrite IH.
  destruct (persist_candidates db2 l) as [[st1 [e|]] db3]; [done|].
  by destruct (persist_candidates db3 k) as [[? ?] ?].
Qed.

Lemma persist_candidates_inputs l db stored e db1 : persist_candidates db l = (stored, e, db1) → same_inputs db db1.
Proof.
  revert db stored. induction l as [|c l IH]; intros db stored; cbn; [by intros [= _ _ <-]|].
  destruct (persist_candidate_in_session db c) as [[st db2]|x] eqn:Hp; [|by intros [= _ _ <-]].
  destruct (persist_candidates db2 l) as [[rest e2] db3] eqn:Hr. intros [= _ <- <-].
  etrans; [|by eapply IH]. unfold persist_candidate_in_session in Hp. destruct (candidate_by_key _ _).
  - case_bool_decide; cbn in Hp; [by simplify_eq|]. apply raise_if_seq_Ok in Hp as [_ [= _ <-]]. done.
  - apply raise_if_seq_Ok in Hp as [_ [= _ <-]]. done.
Qed.

(** A run as one list of rules, each with its package. *)
#[local] Abbreviation Job := (DetectionRulePackage * DetectionRuleDefinition)%type.

Definition jobs (packages : list DetectionRulePackage) : list Job :=
  p ← packages;
  if pk_runtime_state p ==? DetectionRuleRuntimeState.SHADOW_ACTIVE then (p,.) <$> pk_rules p else [].

Definition job_round (cutoff : Z) (tenant : string) (st : RunState) (j : Job) : result RunState :=
  rule_round dv cutoff tenant j.1 st j.2.

Lemma fold_result_app {A B} (f : A → B → result A) a l k :
  fold_result f a (l ++ k) = a' ← fold_result f a l; fold_result f a' k.
Proof. revert a. induction l as [|x l IH]; intros a; cbn; [done|]. destruct (f a x); cbn; [apply IH|done]. Qed.

Lemma run_as_jobs cutoff tenant st packages :
  fold_result (package_round dv cutoff tenant) st packages = fold_result (job_round cutoff tenant) st (jobs packages).
Proof.
  revert st. induction packages as [|p l IH]; intros st; [done|].
  cbn [fold_result]. unfold jobs. rewrite bind_cons. fold (jobs l). rewrite fold_result_app.
  assert (package_round dv cutoff tenant st p =
    fold_result (job_round cutoff tenant) st
      (if pk_runtime_state p ==? DetectionRuleRuntimeState.SHADOW_ACTIVE then (p,.) <$> pk_rules p else [])) as ->.
  { unfold package_round. case_bool_decide; [|done]. revert st. induction (pk_rules p) as [|r rs IHr]; intros st; cbn; [done|].
    change (job_round cutoff tenant st (p, r)) with (rule_round dv cutoff tenant p st r).
    destruct (rule_round dv cutoff tenant p st r); cbn; [apply IHr|done]. }
  destruct (fold_result (job_round cutoff tenant) st _); cbn; [apply IH|done].
Qed.

Definition evaluates (db : DetectionDb) (cutoff : Z) (j : Job) (r : list CandidateDetection * Z) : Prop :=
  _evaluate_rule dv db j.1 j.2 cutoff = Ok r.

(** A state with the candidates of a clean round added. *)
Definition with_round (acc : DetectionRuleRuntimeResult) (stored : list CandidateDetection) (n : Z) :
    DetectionRuleRuntimeResult :=
  {| rr_candidates := rr_candidates acc ++ stored; rr_errors := rr_errors acc;
     rr_rules_evaluated := rr_rules_evaluated acc + 1; rr_observations_scanned := rr_observations_scanned acc + n |}.

(** A round either adds an error, or stores the candidates of its rule. *)
Lemma job_round_cases cutoff tenant acc db j res db1 :
  job_round cutoff tenant (acc, db) j = Ok (res, db1) →
  (∃ e, rr_errors res = rr_errors acc ++ [e]) ∨
  (∃ cs n stored, evaluates db cutoff j (cs, n) ∧ persist_candidates db cs = (stored, None, db1) ∧
     res = with_round acc stored n).
Proof.
  unfold job_round, rule_round, evaluates. destruct (_evaluate_rule dv db j.1 j.2 cutoff) as [[cs n]|x].
  - destruct (persist_candidates db cs) as [[stored [e|]] db2] eqn:Hp.
    + intros (row & _ & [= <- _])%bind_Ok. left. by eexists.
    + intros [= <- <-]. right. by exists cs, n, stored.
  - intros (row & _ & [= <- _])%bind_Ok. left. by eexists.
Qed.

Lemma run_errors_grow cutoff tenant l st res db1 :
  fold_result (job_round cutoff tenant) st l = Ok (res, db1) → ∃ es, rr_errors res = rr_errors st.1 ++ es.
Proof.
  revert st. induction l as [|j l IH]; intros [acc db]; cbn; [intros [= <- _]; exists []; by rewrite app_nil_r|].
  intros ([acc1 db2] & Hj & (es & Hes)%IH)%bind_Ok. cbn in Hes.
  destruct (job_round_cases _ _ _ _ _ _ _ Hj) as [[e He]|(cs & n & stored & _ & _ & ->)]; [|by exists es].
  exists (e :: es). by rewrite Hes, He, <-app_assoc.
Qed.

(** A clean run evaluates every rule over its inputs and stores all the candidates. *)
Lemma clean_run cutoff tenant l acc db res db1 :
  fold_result (job_round cutoff tenant) (acc, db) l = Ok (res, db1) → rr_errors res = [] →
  ∃ rs stored, Forall2 (evaluates db cutoff) l rs ∧ persist_candidates db (concat rs.*1) = (stored, None, db1) ∧
    rr_candidates res = rr_candidates acc ++ stored.
Proof.
  revert acc db. induction l as [|j l IH]; intros acc db; cbn.
  { intros [= <- <-] _. exists [], []. rewrite app_nil_r. split_and!; [constructor|done..]. }
  intros ([acc1 db2] & Hj & Hl)%bind_Ok Hes.
  destruct (run_errors_grow _ _ _ _ _ _ Hl) as [es Hgrow]. cbn in Hgrow.
  destruct (job_round_cases _ _ _ _ _ _ _ Hj) as [[e He]|(cs & n & stored & Hev & Hp & ->)].
  { rewrite Hgrow, He in Hes. by destruct (rr_errors acc). }
  destruct (IH _ _ Hl Hes) as (rs & stored2 & Hevs & Hp2 & Hc). exists ((cs, n) :: rs), (stored ++ stored2).
  split_and!.
  - constructor; [done|]. eapply Forall2_impl; [exact Hevs|]. intros j' r' Hr. unfold evaluates in *.
    by rewrite <-(evaluate_same_inputs db db2) by (by eapply persist_candidates_inputs).
  - cbn. rewrite persist_candidates_app, Hp. by rewrite Hp2.
  - by rewrite Hc, app_assoc.
Qed.

(** Rules that evaluate, and whose candidates are stored without an error, run clean. *)
Lemma replay_run cutoff tenant l acc db rs stored db1 :
  Forall2 (evaluates db cutoff) l rs → persist_candidates db (concat rs.*1) = (stored, None, db1) →
  ∃ res, fold_result (job_round cutoff tenant) (acc, db) l = Ok (res, db1) ∧
    rr_candidates res = rr_candidates acc ++ stored ∧ rr_errors res = rr_errors acc.
Proof.
  intros Hev. revert acc db stored Hev. revert rs. induction l as [|j l IH]; intros rs acc db stored Hev.
  { apply Forall2_nil_inv_l in Hev as ->. cbn. intros [= <- <-]. exists acc. by rewrite app_nil_r. }
  apply Forall2_cons_inv_l in Hev as ([cs n] & rs' & Hj & Hev & ->). cbn. rewrite persist_candidates_app.
  destruct (persist_candidates db cs) as [[s1 [e|]] db2] eqn:H1; [done|].
  destruct (persist_candidates db2 (concat rs'.*1)) as [[s2 e2] db3] eqn:H2. intros [= <- -> <-].
  unfold job_round, rule_round. rewrite Hj, H1. cbn.
  destruct (IH rs' (with_round acc s1 n) db2 s2) as (res & Hf & Hc & He); [|done|].
  - eapply Forall2_impl; [exact Hev|]. intros j' r' Hr'. unfold evaluates in *.
    by rewrite (evaluate_same_inputs db db2) by (by eapply persist_candidates_inputs).
  - exists res. split_and!; [exact Hf| |done]. by rewrite Hc, app_assoc.
Qed.

Lemma selected_same_inputs db db' tenant package_id :
  same_inputs db db' → selected_packages db' tenant package_id = selected_packages db tenant package_id.
Proof. intros (Hp & _). unfold selected_packages. by rewrite Hp. Qed.

(** The candidates the rules of a run find. *)
Definition evaluated (db : DetectionDb) (tenant : string) (cutoff : Z) (package_id : option string) :
    list CandidateDetection :=
  match selected_packages db tenant package_id with
  | Ok packages => concat ((λ j, match _evaluate_rule dv db j.1 j.2 cutoff with Ok r => r.1 | Err _ => [] end) <$> jobs packages)
  | Err _ => []
  end.

Lemma evaluated_candidates db cutoff l rs :
  Forall2 (evaluates db cutoff) l rs →
  concat ((λ j, match _evaluate_rule dv db j.1 j.2 cutoff with Ok r => r.1 | Err _ => [] end) <$> l) = concat rs.*1.
Proof. induction 1 as [|j r l rs Hj _ IH]; [done|]. cbn. unfold evaluates in Hj. by rewrite Hj, IH. Qed.

(** C27. A shadow run is idempotent: running again over the tables a clean run left, with the same
    arguments, finds no error, returns the same candidates and leaves every table as it is, also
    when several candidates of the run share an idempotency key and the last one's evidence stands in
    their row.  Keys are unique in the table, and the content hash tells candidates of one key with
    different evidence apart. *)
Theorem shadow_rerun_idempotent db tenant cutoff package_id res db1 :
  NoDup (cd_idempotency_key <$> dd_candidates db) →
  told_apart (dd_candidates db ++ evaluated db tenant cutoff package_id) →
  execute_shadow dv db tenant cutoff package_id = Ok (res, db1) → rr_errors res = [] →
  ∃ res', execute_shadow dv db1 tenant cutoff package_id = Ok (res', db1) ∧
    rr_candidates res' = rr_candidates res ∧ rr_errors res' = [].
Proof.
  intros Hnd Htold. unfold execute_shadow. intros (packages & Hsel & Hrun)%bind_Ok Hes. rewrite run_as_jobs in Hrun.
  destruct (clean_run _ _ _ _ _ _ _ Hrun Hes) as (rs & stored & Hev & Hp & Hc). cbn in Hc.
  pose proof (persist_candidates_inputs _ _ _ _ _ Hp) as Hi.
  unfold evaluated in Htold. rewrite Hsel, (evaluated_candidates _ _ _ _ Hev) in Htold.
  rewrite (selected_same_inputs db db1), Hsel by done. cbn. rewrite run_as_jobs.
  destruct (replay_run cutoff tenant (jobs packages) empty_result db1 rs stored db1) as (res' & -> & Hc' & He').
  - eapply Forall2_impl; [exact Hev|]. intros j r Hr. unfold evaluates in *. by rewrite (evaluate_same_inputs db db1).
  - eapply (persist_again _ Htold); [|intros c Hin; by apply elem_of_app; right|exact Hp].
    split; [done|]. apply Forall_forall. intros c Hin. exists c. split; [by apply elem_of_app; left|done].
  - exists res'. by rewrite Hc', Hc.
Qed.

(** ** A group with too much evidence *)

Lemma candidate_of_match_error package rule cutoff m e :
  candidate_of_match dv package rule cutoff m = Err e → ∃ what, e = pydantic_error (dv_snapshots dv) what.
Proof.
  unfold candidate_of_match, candidate_provenance, build_candidate_detection.
  intros [[[_ <-]%raise_if_Err|(? & _ & ?)]%bind_Err|(p & _ & [[_ <-]%raise_if_Err|(? & _ & ?)]%bind_Err)]%bind_Err;
    by eauto.
Qed.

Lemma candidates_error package rule cutoff ms m :
  m ∈ ms → (MAX_CANDIDATE_OBSERVATIONS < length (om_observation_ids m))%nat →
  ∃ what, map_result (candidate_of_match dv package rule cutoff) ms = Err (pydantic_error (dv_snapshots dv) what).
Proof.
  intros Hm Hlen. induction ms as [|m' ms IH]; [set_solver|]. cbn.
  destruct (candidate_of_match dv package rule cutoff m') as [c|e] eqn:Hc; cbn.
  - apply elem_of_cons in Hm as [<-|Hm].
    + unfold candidate_of_match, candidate_provenance in Hc. rewrite bool_decide_eq_true_2 in Hc by done. done.
    + destruct (IH Hm) as [what ->]. by exists what.
  - apply candidate_of_match_error in Hc as [what ->]. by exists what.
Qed.

Lemma event_count_registered :
  ∃ registry, default_operator_registry dv = Ok registry ∧
    operator_get registry "event_count" = Ok event_count_evaluate.
Proof. eexists. split; reflexivity. Qed.

(** The busiest groups silence a rule: when one group of an event_count rule has more than 256
    observations its candidate cannot be built, and the round stores no candidate for any group of
    the rule, only an error row, although the scan limit lets through up to 10,000 observations. *)
Theorem busy_group_suppresses_rule cutoff tenant package acc db rule k ctx n ms m :
  dr_operator rule = RuleOperatorKind.EVENT_COUNT →
  enum_of_value_or_raise (dr_window_kind rule) = Ok k → rule_context db package rule cutoff k = Ok (ctx, n) →
  event_count_evaluate rule ctx = Ok ms → m ∈ ms →
  (MAX_CANDIDATE_OBSERVATIONS < length (om_observation_ids m))%nat →
  (∀ what, message_fits (pydantic_error (dv_snapshots dv) what)) →
  ∃ row what db', rule_round dv cutoff tenant package (acc, db) rule =
      Ok ({| rr_candidates := rr_candidates acc; rr_errors := rr_errors acc ++ [row];
             rr_rules_evaluated := rr_rules_evaluated acc + 1;
             rr_observations_scanned := rr_observations_scanned acc |}, db') ∧
    dd_candidates db' = dd_candidates db ∧
    re_error_message row = err_message (pydantic_error (dv_snapshots dv) what).
Proof.
  intros Hop Hk Hctx Hms Hm Hlen Hfit.
  destruct (candidates_error package rule cutoff ms m Hm Hlen) as [what Hc].
  assert (_evaluate_rule dv db package rule cutoff = Err (pydantic_error (dv_snapshots dv) what)) as He.
  { unfold _evaluate_rule. apply bind_Err. right. exists k. split; [done|].
    apply bind_Err. right. exists (ctx, n). split; [done|].
    destruct event_count_registered as (reg & Hreg & Hget).
    apply bind_Err. right. exists reg. split; [done|].
    apply bind_Err. right. exists event_count_evaluate. rewrite Hop. split; [done|].
    apply bind_Err. right. exists ms. split; [done|]. apply bind_Err. by left. }
  unfold rule_round. rewrite He.
  destruct (error_row_stored db tenant package rule cutoff "internal_error" (pydantic_error (dv_snapshots dv) what))
    as (row & db' & Hrow & _ & Hdb & Hmsg); [done|].
  exists row, what, db'. rewrite bool_decide_eq_false_2, Hrow by done. cbn. by rewrite app_nil_r, Z.add_0_r.
Qed.
End runs.
