(* ===== verification/DetectionServices.v ===== *)
(** * The services around detection (services/detection_rule_service.py,
      services/feature_snapshot_service.py, services/detection_baseline_service.py)

    Packages are registered as drafts and move through their lifecycle; snapshots and baselines are
    materialised once per window and get a new revision when their content changes.  Each method is
    one transaction over the tables of DetectionRuntime.v. *)

From stdpp Require Import prelude strings sorting pretty relations.
From Stdlib Require Import QArith.
From S2P Require Import Prelude Errors Detection FeatureSnapshots AnomalyScoring DetectionRuntime DetectionFacts.
From S2P Require Import DetectionRuntimeFacts.

#[local] Open Scope string_scope.
#[local] Open Scope Z_scope.
#[local] Open Scope list_scope.

Definition set_packages (db : DetectionDb) (l : list DetectionRulePackage) : DetectionDb :=
  {| dd_packages := l; dd_observations := dd_observations db; dd_snapshots := dd_snapshots db;
     dd_baselines := dd_baselines db; dd_candidates := dd_candidates db; dd_errors := dd_errors db |}.

Definition set_snapshots (db : DetectionDb) (l : list FeatureSnapshot) : DetectionDb :=
  {| dd_packages := dd_packages db; dd_observations := dd_observations db; dd_snapshots := l;
     dd_baselines := dd_baselines db; dd_candidates := dd_candidates db; dd_errors := dd_errors db |}.

Definition set_baselines (db : DetectionDb) (l : list DetectionFeatureBaseline) : DetectionDb :=
  {| dd_packages := dd_packages db; dd_observations := dd_observations db; dd_snapshots := dd_snapshots db;
     dd_baselines := l; dd_candidates := dd_candidates db; dd_errors := dd_errors db |}.

(** ** Append-only tables

    The three services store a row the same way: a row with the same idempotency key is returned
    when its content hash agrees and refused otherwise; a clash of the primary key is an integrity
    error. *)

Section append.
Context {Row : Type} (row_id row_key row_hash : Row → string) (what : string).

Definition by_key (l : list Row) (key : string) : option Row := List.find (λ r, row_key r ==? key) l.

Definition append_row (l : list Row) (row : Row) : result (Row * list Row) :=
  match by_key l (row_key row) with
  | Some existing =>
      raise_if (row_hash existing !=? row_hash row)
        (validation_error (what +++ " idempotency replay with different content hash")
           [("idempotency_key", VStr (row_key row))]) ;;
      Ok (existing, l)
  | None =>
      raise_if (existsb (λ r, row_id r ==? row_id row) l)
        (builtin_error IntegrityError "unique constraint violated") ;;
      Ok (row, l ++ [row])
  end.
End append.

(** ** Packages *)

(** A revision of a detection scope, of the table that owns them. *)
Record ScopeRevision : Type := {
  sr_detection_scope_id : string;
  sr_source_tenant_id : string;
  sr_lifecycle_state : string
}.

Definition scope_active (scopes : list ScopeRevision) (tenant scope : string) : bool :=
  existsb (λ r, (sr_detection_scope_id r ==? scope) && (sr_source_tenant_id r ==? tenant)
                && (sr_lifecycle_state r ==? "active")) scopes.

(** A scope seen before is not asked for again. *)
Fixpoint validate_scopes (scopes : list ScopeRevision) (tenant : string) (seen : list string)
    (rules : list DetectionRuleDefinition) : result unit :=
  match rules with
  | [] => Ok tt
  | r :: rules' =>
      let scope := dr_detection_scope_id r in
      if scope ∈? seen then validate_scopes scopes tenant seen rules'
      else
        raise_if (negb (scope_active scopes tenant scope))
          (validation_error "detection scope not active for tenant"
             [("detection_scope_id", VStr scope); ("source_tenant_id", VStr tenant)]) ;;
        validate_scopes scopes tenant (scope :: seen) rules'
  end.

Definition _validate_active_scopes_for_rules (scopes : list ScopeRevision) (tenant : string)
    (rules : list DetectionRuleDefinition) : result unit := validate_scopes scopes tenant [] rules.

Section services.
Context (dv : DetectionEnv).

(** The foreign key of [supersedes_package_id] is checked with the insert. *)
Definition persist_package (db : DetectionDb) (package : DetectionRulePackage) :
    result (DetectionRulePackage * DetectionDb) :=
  raise_if (match by_key pk_idempotency_key (dd_packages db) (pk_idempotency_key package),
                  pk_supersedes_package_id package with
            | None, Some id => negb (existsb (λ p, pk_package_id p ==? id) (dd_packages db))
            | _, _ => false
            end)
    (builtin_error IntegrityError "foreign key constraint violated") ;;
  stored ← append_row pk_package_id pk_idempotency_key pk_content_hash "detection rule package"
             (dd_packages db) package;
  Ok (stored.1, set_packages db stored.2).

Definition register_package (db : DetectionDb) (tenant : string) (version : Z)
    (rules : list DetectionRuleDefinition) (author : string) (review test supersedes : option string)
    (now : Z) : result (DetectionRulePackage * DetectionDb) :=
  package ← compile_rule_package dv tenant version DetectionRuleRuntimeState.DRAFT rules
              {| pp_author := author; pp_review_artifact_ref := review; pp_test_artifact_ref := test;
                 pp_compiled_at := Some now |} supersedes None;
  persist_package db package.

Definition _get_package_row (db : DetectionDb) (tenant package_id : string) : result DetectionRulePackage :=
  match List.find (λ p, (pk_package_id p ==? package_id) && (pk_source_tenant_id p ==? tenant)) (dd_packages db) with
  | Some p => Ok p
  | None => Err (ShadowTraceError_init ResourceNotFoundError "detection rule package not found" None
                   [("package_id", VStr package_id); ("source_tenant_id", VStr tenant)])
  end.

Definition with_state (p : DetectionRulePackage) (state : DetectionRuleRuntimeState) : DetectionRulePackage :=
  {| pk_package_id := pk_package_id p; pk_source_tenant_id := pk_source_tenant_id p;
     pk_package_version := pk_package_version p; pk_runtime_state := state; pk_rules := pk_rules p;
     pk_provenance := pk_provenance p; pk_content_hash := pk_content_hash p;
     pk_idempotency_key := pk_idempotency_key p; pk_supersedes_package_id := pk_supersedes_package_id p |}.

(** The row with a primary key is replaced. *)
Definition update_package (id : string) (row : DetectionRulePackage) (l : list DetectionRulePackage) :
    list DetectionRulePackage := (λ p, if pk_package_id p ==? id then row else p) <$> l.

Definition _transition (db : DetectionDb) (scopes : list ScopeRevision) (tenant package_id : string)
    (target : DetectionRuleRuntimeState) : result (DetectionRulePackage * DetectionDb) :=
  row ← _get_package_row db tenant package_id;
  raise_if (negb (allowed_runtime_transition (pk_runtime_state row) target))
    (validation_error "invalid detection rule runtime transition"
       [("package_id", VStr package_id); ("current_state", VStr (enum_value (pk_runtime_state row)));
        ("target_state", VStr (enum_value target))]) ;;
  (if target ==? DetectionRuleRuntimeState.VALIDATED then
     _validate_active_scopes_for_rules scopes (pk_source_tenant_id row) (pk_rules row) ;;
     _ ← compile_rule_package dv (pk_source_tenant_id row) (pk_package_version row) target (pk_rules row)
           (pk_provenance row) (pk_supersedes_package_id row) (Some (pk_package_id row));
     Ok tt
   else Ok tt) ;;
  let updated := with_state row target in
  Ok (updated, set_packages db (update_package (pk_package_id row) updated (dd_packages db))).

Definition validate_package (db : DetectionDb) (scopes : list ScopeRevision) (tenant package_id : string) :=
  _transition db scopes tenant package_id DetectionRuleRuntimeState.VALIDATED.

Definition activate_shadow (db : DetectionDb) (scopes : list ScopeRevision) (tenant package_id : string) :=
  _transition db scopes tenant package_id DetectionRuleRuntimeState.SHADOW_ACTIVE.

Definition promote_to_production (db : DetectionDb) (scopes : list ScopeRevision) (tenant package_id : string) :=
  _transition db scopes tenant package_id DetectionRuleRuntimeState.PRODUCTION_ACTIVE.

Definition disable_package (db : DetectionDb) (scopes : list ScopeRevision) (tenant package_id : string) :=
  _transition db scopes tenant package_id DetectionRuleRuntimeState.DISABLED.

Definition get_package (db : DetectionDb) (tenant package_id : string) : option DetectionRulePackage :=
  match List.find (λ p, pk_package_id p ==? package_id) (dd_packages db) with
  | Some p => if pk_source_tenant_id p !=? tenant then None else Some p
  | None => None
  end.

Definition by_version_desc (a b : DetectionRulePackage) : bool := pk_package_version b <=? pk_package_version a.

Definition list_shadow_active_packages (db : DetectionDb) (tenant : string) : list DetectionRulePackage :=
  py_sorted by_version_desc
    (List.filter (λ p, (pk_source_tenant_id p ==? tenant)
                       && (pk_runtime_state p ==? DetectionRuleRuntimeState.SHADOW_ACTIVE)) (dd_packages db)).

(** ** Snapshots *)

Record SnapshotRequest : Type := {
  mr_source_tenant_id : string;
  mr_detection_scope_id : string;
  mr_entity_type : string;
  mr_entity_id : string;
  mr_window_kind : FeatureWindowKind;
  mr_cutoff_at : Z;
  mr_allowed_lateness : Z
}.

Definition snapshot_args (r : SnapshotRequest) (revision : Z) (supersedes : option string) : SnapshotArgs :=
  {| sa_source_tenant_id := mr_source_tenant_id r; sa_detection_scope_id := mr_detection_scope_id r;
     sa_entity_type := mr_entity_type r; sa_entity_id := mr_entity_id r; sa_window_kind := mr_window_kind r;
     sa_cutoff_at := mr_cutoff_at r; sa_revision := revision; sa_supersedes_snapshot_id := supersedes;
     sa_allowed_lateness := mr_allowed_lateness r; sa_feature_contract_version := FEATURE_CONTRACT_VERSION;
     sa_snapshot_id := None |}.

Definition persist_snapshot (db : DetectionDb) (s : FeatureSnapshot) : result (FeatureSnapshot * DetectionDb) :=
  stored ← append_row fs_snapshot_id fs_idempotency_key fs_content_hash "feature snapshot" (dd_snapshots db) s;
  Ok (stored.1, set_snapshots db stored.2).

Definition snapshot_of_request (r : SnapshotRequest) (window_end : Z) (s : FeatureSnapshot) : bool :=
  let sc := fs_content s in
  (sc_source_tenant_id sc ==? mr_source_tenant_id r) && (sc_detection_scope_id sc ==? mr_detection_scope_id r)
  && (sc_entity_type sc ==? mr_entity_type r) && (sc_entity_id sc ==? mr_entity_id r)
  && (sc_window_kind sc ==? mr_window_kind r) && (sc_window_end sc =? window_end)
  && (sc_cutoff_at sc =? mr_cutoff_at r).

Definition _latest_revision_for_key (db : DetectionDb) (r : SnapshotRequest) (window_end : Z) :
    option FeatureSnapshot :=
  head (py_sorted by_revision_desc (List.filter (snapshot_of_request r window_end) (dd_snapshots db))).

(** The advisory lock makes the whole transaction one step. *)
Definition materialize_or_recompute (db : DetectionDb) (r : SnapshotRequest) :
    result (FeatureSnapshot * DetectionDb) :=
  let '(window_start, window_end) := compute_window_bounds (mr_cutoff_at r) (mr_window_kind r) in
  let upper := effective_observation_upper_bound window_end (mr_cutoff_at r) (mr_allowed_lateness r) in
  let observations := load_observations_for_window (dd_observations db) (mr_source_tenant_id r)
                        (mr_detection_scope_id r) window_start upper in
  let build revision supersedes :=
    build_feature_snapshot (dv_snapshots dv) (snapshot_args r revision supersedes) observations in
  match _latest_revision_for_key db r window_end with
  | Some prior =>
      let revision := sc_revision (fs_content prior) in
      candidate ← build revision None;
      if fs_content_hash candidate ==? fs_content_hash prior then Ok (prior, db)
      else
        s ← build (revision + 1) (Some (fs_snapshot_id prior));
        persist_snapshot db s
  | None =>
      s ← build 1 None;
      persist_snapshot db s
  end.

Definition materialize (db : DetectionDb) (r : SnapshotRequest) : result (FeatureSnapshot * DetectionDb) :=
  materialize_or_recompute db r.

Definition get_snapshot (db : DetectionDb) (tenant snapshot_id : string) : option FeatureSnapshot :=
  match List.find (λ s, fs_snapshot_id s ==? snapshot_id) (dd_snapshots db) with
  | Some s => if sc_source_tenant_id (fs_content s) !=? tenant then None else Some s
  | None => None
  end.

Definition get_by_cache_key (db : DetectionDb) (tenant cache_key : string) : option FeatureSnapshot :=
  List.find (λ s, (sc_source_tenant_id (fs_content s) ==? tenant) && (fs_cache_key s ==? cache_key))
    (dd_snapshots db).

(** ** Baselines *)

Record BaselineRequest : Type := {
  br_source_tenant_id : string;
  br_detection_scope_id : string;
  br_entity_type : string;
  br_entity_id : string;
  br_window_kind : FeatureWindowKind;
  br_cutoff_at : Z
}.

Definition baseline_args (r : BaselineRequest) (revision : Z) (supersedes : option string) : BaselineArgs :=
  {| ba_source_tenant_id := br_source_tenant_id r; ba_detection_scope_id := br_detection_scope_id r;
     ba_entity_type := br_entity_type r; ba_entity_id := br_entity_id r; ba_window_kind := br_window_kind r;
     ba_cutoff_at := br_cutoff_at r; ba_revision := revision; ba_supersedes_baseline_id := supersedes;
     ba_baseline_id := None; ba_feature_contract_version := FEATURE_CONTRACT_VERSION |}.

Definition persist_baseline (db : DetectionDb) (b : DetectionFeatureBaseline) :
    result (DetectionFeatureBaseline * DetectionDb) :=
  stored ← append_row fb_baseline_id fb_idempotency_key fb_content_hash "detection baseline" (dd_baselines db) b;
  Ok (stored.1, set_baselines db stored.2).

Definition _load_snapshots_for_baseline (db : DetectionDb) (r : BaselineRequest) : list FeatureSnapshot :=
  py_sorted by_cutoff_revision
    (List.filter (λ s, let sc := fs_content s in
       (sc_source_tenant_id sc ==? br_source_tenant_id r) && (sc_detection_scope_id sc ==? br_detection_scope_id r)
       && (sc_entity_type sc ==? br_entity_type r) && (sc_entity_id sc ==? br_entity_id r)
       && (sc_window_kind sc ==? br_window_kind r) && (sc_cutoff_at sc <=? br_cutoff_at r)) (dd_snapshots db)).

Definition baseline_of_request (r : BaselineRequest) (b : DetectionFeatureBaseline) : bool :=
  let bc := fb_content b in
  (bc_source_tenant_id bc ==? br_source_tenant_id r) && (bc_detection_scope_id bc ==? br_detection_scope_id r)
  && (bc_entity_type bc ==? br_entity_type r) && (bc_entity_id bc ==? br_entity_id r)
  && (bc_window_kind bc ==? br_window_kind r) && (bc_cutoff_at bc =? br_cutoff_at r).

Definition _latest_baseline_revision (db : DetectionDb) (r : BaselineRequest) : option DetectionFeatureBaseline :=
  head (py_sorted baseline_revision_desc (List.filter (baseline_of_request r) (dd_baselines db))).

Definition materialize_baseline (db : DetectionDb) (r : BaselineRequest) :
    result (DetectionFeatureBaseline * DetectionDb) :=
  let snapshots := _load_snapshots_for_baseline db r in
  let build revision supersedes :=
    build_detection_feature_baseline (dv_snapshots dv) (baseline_args r revision supersedes) snapshots in
  match _latest_baseline_revision db r with
  | Some prior =>
      let revision := bc_revision (fb_content prior) in
      candidate ← build revision None;
      if fb_content_hash candidate ==? fb_content_hash prior then Ok (prior, db)
      else
        b ← build (revision + 1) (Some (fb_baseline_id prior));
        persist_baseline db b
  | None =>
      b ← build 1 None;
      persist_baseline db b
  end.

Definition get_baseline (db : DetectionDb) (tenant baseline_id : string) : option DetectionFeatureBaseline :=
  match List.find (λ b, fb_baseline_id b ==? baseline_id) (dd_baselines db) with
  | Some b => if bc_source_tenant_id (fb_content b) !=? tenant then None else Some b
  | None => None
  end.
End services.

(** * What the detection services guarantee: append-only revisions, the package lifecycle, and what compilation promises the runtime *)

(** ** Sorting by revision *)

Section latest_row.
Context {Row : Type} (revision : Row → Z).

Definition revision_desc (a b : Row) : bool := revision b <=? revision a.

Lemma insert_front x l : (∀ y, y ∈ l → revision y < revision x) → insert_sorted revision_desc x l = x :: l.
Proof.
  destruct l as [|y l]; cbn; [done|]. intros Hx. unfold revision_desc.
  by rewrite (proj2 (Z.leb_le _ _)) by (specialize (Hx y); set_solver by lia).
Qed.

Lemma insert_head x y l k :
  py_sorted revision_desc l = y :: k → revision x < revision y →
  ∃ k', insert_sorted revision_desc x (py_sorted revision_desc l) = y :: k'.
Proof.
  intros -> Hlt. cbn. unfold revision_desc at 1. rewrite (proj2 (Z.leb_gt _ _)) by done. by eexists.
Qed.

(** The only row of the highest revision comes first. *)
Lemma head_highest l x :
  (∀ y, y ∈ l → revision y < revision x) → head (py_sorted revision_desc (l ++ [x])) = Some x.
Proof.
  intros Hx. assert (∃ k, py_sorted revision_desc (l ++ [x]) = x :: k) as [k ->]; [|done].
  induction l as [|y l IH]; cbn; [by eexists|].
  destruct IH as [k Hk]; [set_solver|]. apply (insert_head _ x _ k); [done|]. apply Hx. by left.
Qed.

Lemma head_bounds l x : head (py_sorted revision_desc l) = Some x → x ∈ l ∧ ∀ y, y ∈ l → revision y ≤ revision x.
Proof.
  intros Hh. pose proof (py_sorted_perm revision_desc l) as Hp.
  assert (Sorted (λ a b, revision b ≤ revision a) (py_sorted revision_desc l)) as Hs.
  { eapply Sorted_weaken; [|apply py_sorted_Sorted].
    - intros a b. apply Z.leb_le.
    - intros a b. unfold revision_desc. rewrite !Z.leb_le. lia. }
  destruct (py_sorted revision_desc l) as [|z k] eqn:Hk; [done|]. injection Hh as ->.
  split; [rewrite <-Hp; by left|]. intros y Hy. rewrite <-Hp in Hy.
  apply Sorted_StronglySorted in Hs; [|intros ???; lia]. apply StronglySorted_inv in Hs as [_ Hf].
  apply elem_of_cons in Hy as [->|Hy]; [done|]. rewrite Forall_forall in Hf. by apply Hf.
Qed.
End latest_row.

(** ** Append-only tables *)

Section append_facts.
Context {Row : Type} (row_id row_key row_hash : Row → string) (what : string).

Lemma append_row_Ok l row stored l' :
  append_row row_id row_key row_hash what l row = Ok (stored, l') →
  (l' = l ∧ stored ∈ l ∧ row_key stored = row_key row ∧ row_hash stored = row_hash row) ∨
  (l' = l ++ [row] ∧ stored = row ∧ (row_key row ∉ row_key <$> l) ∧ (row_id row ∉ row_id <$> l)).
Proof.
  unfold append_row, by_key. destruct (List.find _ l) as [e|] eqn:Hf; rewrite raise_if_seq_Ok; intros [Hb [= <- <-]].
  - left. apply find_some in Hf as [Hin%list_elem_of_In Hk]. apply bool_decide_eq_true in Hk.
    apply negb_false_iff, bool_decide_eq_true in Hb. by split_and!.
  - right. split_and!; [done..| |].
    + intros (r & Hr & Hin%list_elem_of_In)%list_elem_of_fmap.
      pose proof (find_none _ _ Hf r Hin) as Hn. cbn in Hn. apply bool_decide_eq_false in Hn. congruence.
    + intros (r & Hr & Hin%list_elem_of_In)%list_elem_of_fmap.
      rewrite <-not_true_iff_false, existsb_exists in Hb. destruct Hb. exists r. split; [done|].
      by apply bool_decide_eq_true.
Qed.

(** A materialisation: the latest revision when its content is current, else a new one. *)
Context (revision : Row → Z) (mine : Row → bool) (build : Z → option string → result Row).

Definition latest (l : list Row) : option Row := head (py_sorted (revision_desc revision) (List.filter mine l)).

Definition recompute (l : list Row) : result (Row * list Row) :=
  match latest l with
  | Some prior =>
      candidate ← build (revision prior) None;
      if row_hash candidate ==? row_hash prior then Ok (prior, l)
      else s ← build (revision prior + 1) (Some (row_id prior)); append_row row_id row_key row_hash what l s
  | None => s ← build 1 None; append_row row_id row_key row_hash what l s
  end.

(** Every revision is built from the same inputs, and belongs to the request. *)
Hypothesis build_mine : ∀ n sup s, build n sup = Ok s → mine s = true ∧ revision s = n.
Hypothesis build_hash : ∀ n sup sup' s, build n sup = Ok s → ∃ s', build n sup' = Ok s' ∧ row_hash s' = row_hash s.

(** What a materialisation did to the table. *)
Definition appended (l : list Row) (s : Row) (l' : list Row) : Prop :=
  l' = l ∨ (l' = l ++ [s] ∧ mine s = true ∧ ∀ y, y ∈ l → mine y = true → revision y < revision s).

Lemma append_built l n sup s stored l' :
  build n sup = Ok s → (∀ y, y ∈ l → mine y = true → revision y < n) →
  append_row row_id row_key row_hash what l s = Ok (stored, l') →
  appended l stored l' ∧ ∃ c, build n None = Ok c ∧ row_hash c = row_hash stored.
Proof.
  intros Hb Hlt Ha. destruct (build_mine _ _ _ Hb) as [Hm Hr]. destruct (build_hash _ _ None _ Hb) as (c & Hc & Hh).
  destruct (append_row_Ok _ _ _ _ Ha) as [(-> & _ & _ & He)|(-> & -> & _)].
  - split; [by left|]. exists c. by rewrite Hh, He.
  - split; [|by exists c]. right. split_and!; [done..|]. by rewrite Hr.
Qed.

Lemma recompute_spec l s l' :
  recompute l = Ok (s, l') → appended l s l' ∧ ∃ n c, build n None = Ok c ∧ row_hash c = row_hash s.
Proof.
  unfold recompute, latest. destruct (head _) as [prior|] eqn:Hl.
  - apply head_bounds in Hl as [_ Hmax]. intros (c & Hc & Hk)%bind_Ok. revert Hk. case_bool_decide as Hh.
    { intros [= <- <-]. split; [by left|]. by exists (revision prior), c. }
    intros (x & Hx & Ha)%bind_Ok. eapply append_built in Ha as [? (c' & ?)]; [by eauto|done|].
    intros y Hy Hmy. specialize (Hmax y). rewrite elem_of_filter_bool in Hmax.
    specialize (Hmax (conj Hy Hmy)). lia.
  - intros (x & Hx & Ha)%bind_Ok. eapply append_built in Ha as [? (c' & ?)]; [by eauto|done|].
    intros y Hy Hmy. destruct (py_sorted _ _) as [|z k] eqn:Hk; [|done].
    pose proof (py_sorted_perm (revision_desc revision) (List.filter mine l)) as Hp. rewrite Hk in Hp.
    assert (y ∈ List.filter mine l) as Hin by (by apply elem_of_filter_bool). rewrite <-Hp in Hin. set_solver.
Qed.

Lemma filter_app_bool l k : List.filter mine (l ++ k) = List.filter mine l ++ List.filter mine k.
Proof. apply List.filter_app. Qed.

Lemma snoc_neq (x : Row) l : l ++ [x] = l → False.
Proof. intros Hl%(f_equal length). rewrite length_app in Hl. cbn in Hl. lia. Qed.

(** Materialising again changes nothing and returns the same row. *)
Lemma recompute_idempotent l s l' : recompute l = Ok (s, l') → recompute l' = Ok (s, l').
Proof.
  intros Hr. destruct (recompute_spec _ _ _ Hr) as [[->|(-> & Hm & Hlt)] _]; [done|].
  assert (latest (l ++ [s]) = Some s) as Hl.
  { unfold latest. rewrite filter_app_bool. cbn. rewrite Hm. apply head_highest.
    intros y [Hy Hmy]%elem_of_filter_bool. by apply Hlt. }
  assert (∃ n sup, build n sup = Ok s) as (n & sup & Hb).
  { unfold recompute in Hr. destruct (latest l) as [prior|].
    - apply bind_Ok in Hr as (c & _ & Hk). revert Hk. case_bool_decide; [intros [= _ Hk]; symmetry in Hk; by apply snoc_neq in Hk|].
      intros (x & Hx & [(Hk & _)|(_ & -> & _)]%append_row_Ok)%bind_Ok; [by apply snoc_neq in Hk|by eauto].
    - apply bind_Ok in Hr as (x & Hx & [(Hk & _)|(_ & -> & _)]%append_row_Ok); [by apply snoc_neq in Hk|by eauto]. }
  destruct (build_mine _ _ _ Hb) as [_ Hrev]. destruct (build_hash _ _ None _ Hb) as (c & Hc & Hh).
  unfold recompute. rewrite Hl, Hrev, Hc. cbn. by rewrite Hh, bool_decide_eq_true_2.
Qed.
End append_facts.

(** ** Snapshots and baselines *)

Section revisions.
Context (dv : DetectionEnv).

Lemma set_snapshots_id db : set_snapshots db (dd_snapshots db) = db.
Proof. by destruct db. Qed.

Lemma set_baselines_id db : set_baselines db (dd_baselines db) = db.
Proof. by destruct db. Qed.

(** The window of a request, and the observations in it. *)
Definition request_end (r : SnapshotRequest) : Z := (compute_window_bounds (mr_cutoff_at r) (mr_window_kind r)).2.

Definition request_observations (table : list BehaviorObservation) (r : SnapshotRequest) : list BehaviorObservation :=
  load_observations_for_window table (mr_source_tenant_id r) (mr_detection_scope_id r)
    (compute_window_bounds (mr_cutoff_at r) (mr_window_kind r)).1
    (effective_observation_upper_bound (request_end r) (mr_cutoff_at r) (mr_allowed_lateness r)).

Definition build_snapshot (table : list BehaviorObservation) (r : SnapshotRequest) (n : Z) (sup : option string) :
    result FeatureSnapshot :=
  build_feature_snapshot (dv_snapshots dv) (snapshot_args r n sup) (request_observations table r).

#[local] Abbreviation recompute_snapshot table r :=
  (recompute fs_snapshot_id fs_idempotency_key fs_content_hash "feature snapshot" revision
     (snapshot_of_request r (request_end r)) (build_snapshot table r)).

Lemma materialize_as_recompute db r :
  materialize_or_recompute dv db r =
  x ← recompute_snapshot (dd_observations db) r (dd_snapshots db); Ok (x.1, set_snapshots db x.2).
Proof.
  unfold materialize_or_recompute, recompute, persist_snapshot, latest, _latest_revision_for_key.
  unfold build_snapshot, request_observations, request_end, revision. cbn [compute_window_bounds fst snd].
  change (revision_desc _) with by_revision_desc. set (observations := load_observations_for_window _ _ _ _ _).
  destruct (head _) as [prior|]; [|by destruct (build_feature_snapshot _ _ _)].
  destruct (build_feature_snapshot _ (snapshot_args r _ None) _) as [c|]; cbn; [|done].
  case_bool_decide; cbn; [by rewrite set_snapshots_id|].
  by destruct (build_feature_snapshot _ (snapshot_args r _ (Some _)) _).
Qed.

Lemma build_snapshot_mine table r n sup s :
  build_snapshot table r n sup = Ok s → snapshot_of_request r (request_end r) s = true ∧ revision s = n.
Proof.
  unfold build_snapshot, build_feature_snapshot. rewrite raise_if_seq_Ok. cbn [compute_window_bounds].
  intros [_ (p & _ & [= <-])%bind_Ok]. unfold snapshot_of_request, revision. cbn.
  rewrite !bool_decide_eq_true_2, !Z.eqb_refl by done. done.
Qed.

Lemma build_snapshot_hash table r n sup sup' s :
  build_snapshot table r n sup = Ok s → ∃ s', build_snapshot table r n sup' = Ok s' ∧ fs_content_hash s' = fs_content_hash s.
Proof.
  unfold build_snapshot, build_feature_snapshot. rewrite raise_if_seq_Ok. cbn [compute_window_bounds].
  intros [Hn (p & Hp & [= <-])%bind_Ok]. cbn in *. rewrite Hn, Hp. cbn. by eexists.
Qed.

(** Materialising a snapshot twice is materialising it once.  The table only grows: a new row is
    the highest revision of its window, and what is returned has the content hash of the
    observations that are in the table now, so that late data gives a new revision. *)
Theorem materialize_snapshot_idempotent db r s db1 :
  materialize_or_recompute dv db r = Ok (s, db1) →
  materialize_or_recompute dv db1 r = Ok (s, db1) ∧
  db1 = set_snapshots db (dd_snapshots db1) ∧
  appended revision (snapshot_of_request r (request_end r)) (dd_snapshots db) s (dd_snapshots db1) ∧
  ∃ n c, build_snapshot (dd_observations db) r n None = Ok c ∧ fs_content_hash c = fs_content_hash s.
Proof.
  rewrite !materialize_as_recompute. intros ([s' l'] & Hr & [= -> <-])%bind_Ok. cbn [fst snd set_snapshots dd_observations dd_snapshots] in *.
  pose proof (recompute_idempotent _ _ _ _ _ _ _ (build_snapshot_mine _ r) (build_snapshot_hash _ r) _ _ _ Hr) as ->.
  destruct (recompute_spec _ _ _ _ _ _ _ (build_snapshot_mine _ r) (build_snapshot_hash _ r) _ _ _ Hr). done.
Qed.

Definition baseline_revision (b : DetectionFeatureBaseline) : Z := bc_revision (fb_content b).

Definition build_baseline (snapshots : list FeatureSnapshot) (r : BaselineRequest) (n : Z) (sup : option string) :
    result DetectionFeatureBaseline :=
  build_detection_feature_baseline (dv_snapshots dv) (baseline_args r n sup) snapshots.

#[local] Abbreviation recompute_baseline snapshots r :=
  (recompute fb_baseline_id fb_idempotency_key fb_content_hash "detection baseline" baseline_revision
     (baseline_of_request r) (build_baseline snapshots r)).

Lemma materialize_baseline_as_recompute db r :
  materialize_baseline dv db r =
  x ← recompute_baseline (_load_snapshots_for_baseline db r) r (dd_baselines db); Ok (x.1, set_baselines db x.2).
Proof.
  unfold materialize_baseline, recompute, persist_baseline, latest, _latest_baseline_revision.
  unfold build_baseline, baseline_revision. change (revision_desc _) with baseline_revision_desc.
  destruct (head _) as [prior|]; [|by destruct (build_detection_feature_baseline _ _ _)].
  destruct (build_detection_feature_baseline _ (baseline_args r _ None) _) as [c|]; cbn; [|done].
  case_bool_decide; cbn; [by rewrite set_baselines_id|].
  by destruct (build_detection_feature_baseline _ (baseline_args r _ (Some _)) _).
Qed.

Lemma build_baseline_mine snapshots r n sup b :
  build_baseline snapshots r n sup = Ok b → baseline_of_request r b = true ∧ baseline_revision b = n.
Proof.
  unfold build_baseline, build_detection_feature_baseline. intros ([st stats] & _ & [= <-])%bind_Ok.
  unfold baseline_of_request, baseline_revision. cbn. rewrite !bool_decide_eq_true_2, Z.eqb_refl by done. done.
Qed.

Lemma build_baseline_hash snapshots r n sup sup' b :
  build_baseline snapshots r n sup = Ok b →
  ∃ b', build_baseline snapshots r n sup' = Ok b' ∧ fb_content_hash b' = fb_content_hash b.
Proof.
  unfold build_baseline, build_detection_feature_baseline. intros ([st stats] & Hs & [= <-])%bind_Ok.
  cbn in *. rewrite Hs. cbn. by eexists.
Qed.

(** The same holds of baselines. *)
Theorem materialize_baseline_idempotent db r b db1 :
  materialize_baseline dv db r = Ok (b, db1) →
  materialize_baseline dv db1 r = Ok (b, db1) ∧
  db1 = set_baselines db (dd_baselines db1) ∧
  appended baseline_revision (baseline_of_request r) (dd_baselines db) b (dd_baselines db1) ∧
  ∃ n c, build_baseline (_load_snapshots_for_baseline db r) r n None = Ok c ∧ fb_content_hash c = fb_content_hash b.
Proof.
  rewrite !materialize_baseline_as_recompute. intros ([b' l'] & Hr & [= -> <-])%bind_Ok. cbn [fst snd set_baselines dd_baselines] in *.
  change (_load_snapshots_for_baseline (set_baselines db l') r) with (_load_snapshots_for_baseline db r).
  pose proof (recompute_idempotent _ _ _ _ _ _ _ (build_baseline_mine _ r) (build_baseline_hash _ r) _ _ _ Hr) as ->.
  destruct (recompute_spec _ _ _ _ _ _ _ (build_baseline_mine _ r) (build_baseline_hash _ r) _ _ _ Hr). done.
Qed.
End revisions.

(** ** Packages *)

Section packages.
Context (dv : DetectionEnv).

Lemma compile_rule_definition_same rule rule' : compile_rule_definition dv rule = Ok rule' → rule' = rule.
Proof.
  unfold compile_rule_definition. rewrite raise_if_seq_Ok.
  intros [_ (reg & _ & (op & _ & (? & _ & Hk)%bind_Ok)%bind_Ok)%bind_Ok].
  rewrite raise_if_seq_Ok in Hk. destruct Hk as [_ (? & _ & (? & _ & (? & _ & Hk)%bind_Ok)%bind_Ok)%bind_Ok].
  rewrite raise_if_seq_Ok in Hk. by destruct Hk as [_ (? & _ & (? & _ & [= ->])%bind_Ok)%bind_Ok].
Qed.

Lemma compile_rules_same version rules compiled : compile_rules dv version rules = Ok compiled → compiled = rules.
Proof.
  unfold compile_rules. rewrite !raise_if_seq_Ok.
  intros [_ [_ (l & Hl%map_result_Ok & (? & _ & [= <-])%bind_Ok)%bind_Ok]].
  induction Hl as [|r r' rules l Hr%compile_rule_definition_same _ IH]; congruence.
Qed.

(** What registration established of a stored package. *)
Definition package_ok (p : DetectionRulePackage) : Prop :=
  compile_rules dv (pk_package_version p) (pk_rules p) = Ok (pk_rules p) ∧
  (length (pk_rules p) ≤ MAX_PACKAGE_RULES)%nat ∧
  pk_content_hash p =
    dv_package_hash dv (pk_source_tenant_id p) (pk_package_version p) (pk_rules p)
      (pp_author (pk_provenance p), pp_review_artifact_ref (pk_provenance p), pp_test_artifact_ref (pk_provenance p)) ∧
  pk_idempotency_key p = build_package_idempotency_key (pk_source_tenant_id p) (pk_package_version p) (pk_content_hash p).

Definition packages_ok (l : list DetectionRulePackage) : Prop :=
  NoDup (pk_package_id <$> l) ∧ NoDup (pk_idempotency_key <$> l) ∧ Forall package_ok l.

(** The lifecycle: a draft is validated, runs in the shadow and is promoted; what was validated can be
    disabled, for good. *)
Inductive allowed : DetectionRuleRuntimeState → DetectionRuleRuntimeState → Prop :=
| lc_validate : allowed DetectionRuleRuntimeState.DRAFT DetectionRuleRuntimeState.VALIDATED
| lc_activate : allowed DetectionRuleRuntimeState.VALIDATED DetectionRuleRuntimeState.SHADOW_ACTIVE
| lc_promote : allowed DetectionRuleRuntimeState.SHADOW_ACTIVE DetectionRuleRuntimeState.PRODUCTION_ACTIVE
| lc_disable s : s ≠ DetectionRuleRuntimeState.DRAFT → s ≠ DetectionRuleRuntimeState.DISABLED →
    allowed s DetectionRuleRuntimeState.DISABLED.

Lemma transition_allowed a b : allowed_runtime_transition a b = true → allowed a b.
Proof. by destruct a, b; try done; intros _; constructor. Qed.

(** What one call may do to the table of packages: nothing, append a package as a draft, or move the
    state of one package by one step of the lifecycle. *)
Inductive package_step (l : list DetectionRulePackage) : list DetectionRulePackage → Prop :=
| package_same : package_step l l
| package_registered p :
    pk_runtime_state p = DetectionRuleRuntimeState.DRAFT → package_step l (l ++ [p])
| package_moved i p s :
    l !! i = Some p → allowed (pk_runtime_state p) s → package_step l (<[i := with_state p s]> l).

Lemma moved_ok l i p s : l !! i = Some p → packages_ok l → packages_ok (<[i := with_state p s]> l).
Proof.
  intros Hi (H1 & H2 & H3). unfold packages_ok. rewrite !list_fmap_insert.
  rewrite !list_insert_id by (by rewrite list_lookup_fmap, Hi). split_and!; [done|done|].
  apply Forall_insert; [done|]. exact (Forall_lookup_1 _ _ _ _ H3 Hi).
Qed.

Lemma register_evolves db tenant version rules author review test supersedes now p db' :
  register_package dv db tenant version rules author review test supersedes now = Ok (p, db') →
  package_step (dd_packages db) (dd_packages db') ∧
  (packages_ok (dd_packages db) → packages_ok (dd_packages db')).
Proof.
  unfold register_package, compile_rule_package.
  intros (q & (compiled & Hc & Hq)%bind_Ok & Hs)%bind_Ok. rewrite raise_if_seq_Ok in Hq. destruct Hq as [Hlen [= <-]].
  pose proof (compile_rules_same _ _ _ Hc) as ->. apply bool_decide_eq_false in Hlen.
  unfold persist_package in Hs. rewrite raise_if_seq_Ok in Hs. destruct Hs as [_ ([st l'] & Ha & [= _ <-])%bind_Ok].
  cbn. apply append_row_Ok in Ha as [(-> & _)|(-> & _ & Hk & Hi)]; [split; [constructor|done]|]. split.
  - by apply package_registered.
  - intros (H1 & H2 & H3). split_and!.
    + rewrite fmap_app. apply NoDup_app. split_and!; [done|set_solver|apply NoDup_singleton].
    + rewrite fmap_app. apply NoDup_app. split_and!; [done|set_solver|apply NoDup_singleton].
    + apply Forall_app. split; [done|]. constructor; [|constructor]. split_and!; cbn; try done. lia.
Qed.

(** Ids being unique, the update by id changes one row. *)
Lemma update_package_insert l i p q :
  NoDup (pk_package_id <$> l) → l !! i = Some p →
  update_package (pk_package_id p) q l = <[i := q]> l.
Proof.
  intros Hnd Hi. apply list_eq. intros j. unfold update_package. rewrite list_lookup_fmap.
  destruct (decide (i = j)) as [<-|Hne].
  - rewrite Hi, list_lookup_insert_eq by (by eapply lookup_lt_Some). cbn.
    by rewrite bool_decide_eq_true_2.
  - rewrite list_lookup_insert_ne by done. destruct (l !! j) as [x|] eqn:Hj; [|done]. cbn.
    rewrite bool_decide_eq_false_2; [done|]. intros E. destruct Hne.
    eapply NoDup_lookup; [exact Hnd|by rewrite list_lookup_fmap, Hi|].
    rewrite list_lookup_fmap, Hj. cbn. by rewrite E.
Qed.

Lemma transition_evolves db scopes tenant id target p db' :
  packages_ok (dd_packages db) → _transition dv db scopes tenant id target = Ok (p, db') →
  package_step (dd_packages db) (dd_packages db') ∧ packages_ok (dd_packages db').
Proof.
  intros Hok. unfold _transition, _get_package_row. intros (row & Hrow & Hk)%bind_Ok.
  rewrite raise_if_seq_Ok in Hk. destruct Hk as [Hallowed%negb_false_iff (? & _ & [= _ <-])%bind_Ok].
  destruct (List.find _ _) as [q|] eqn:Hf; [|done]. injection Hrow as ->.
  apply find_some in Hf as [[i Hi]%list_elem_of_In%list_elem_of_lookup _]. cbn.
  rewrite (update_package_insert _ i) by (done || apply Hok).
  split; [by apply package_moved, transition_allowed|by apply moved_ok].
Qed.

(** ** Any sequence of service calls *)

Lemma rule_round_inputs cutoff tenant package st rule st' :
  rule_round dv cutoff tenant package st rule = Ok st' → same_inputs st.2 st'.2.
Proof.
  destruct st as [acc db]. unfold rule_round, _persist_rule_runtime_error, persist_runtime_error_in_session. cbn.
  destruct (_evaluate_rule dv db package rule cutoff) as [[cs n]|e].
  - destruct (persist_candidates db cs) as [[stored [e|]] db2] eqn:Hp.
    + intros (row & (? & _ & [= <-])%bind_Ok & [= <-])%bind_Ok. cbn. apply persist_candidates_inputs in Hp.
      by destruct (List.find _ _).
    + intros [= <-]. by apply persist_candidates_inputs in Hp.
  - intros (row & (? & _ & [= <-])%bind_Ok & [= <-])%bind_Ok. cbn. by destruct (List.find _ _).
Qed.

Lemma execute_shadow_inputs db tenant cutoff package_id res db' :
  execute_shadow dv db tenant cutoff package_id = Ok (res, db') → same_inputs db db'.
Proof.
  unfold execute_shadow. intros (packages & _ & Hrun)%bind_Ok. rewrite run_as_jobs in Hrun.
  change (same_inputs (empty_result, db).2 (res, db').2). revert Hrun. generalize (empty_result, db), (res, db').
  intros st st'. revert st. induction (jobs packages) as [|j l IH]; intros st; cbn; [intros [= ->]; reflexivity|].
  intros (st1 & H1%rule_round_inputs & H2)%bind_Ok. etrans; [exact H1|by apply IH].
Qed.

Inductive service_step : DetectionDb → DetectionDb → Prop :=
| step_register db db' tenant version rules author review test supersedes now p :
    register_package dv db tenant version rules author review test supersedes now = Ok (p, db') →
    service_step db db'
| step_transition db db' scopes tenant id target p :
    _transition dv db scopes tenant id target = Ok (p, db') → service_step db db'
| step_snapshot db db' r s : materialize_or_recompute dv db r = Ok (s, db') → service_step db db'
| step_baseline db db' r b : materialize_baseline dv db r = Ok (b, db') → service_step db db'
| step_run db db' tenant cutoff package_id res :
    execute_shadow dv db tenant cutoff package_id = Ok (res, db') → service_step db db'.

Lemma service_step_packages db db' :
  service_step db db' → packages_ok (dd_packages db) →
  packages_ok (dd_packages db') ∧ package_step (dd_packages db) (dd_packages db').
Proof.
  intros Hs Hok.
  destruct Hs as [??????????? [??]%register_evolves|??????? Ht|???? Hm|???? Hm|?????? Hr]; [by auto|..].
  - by apply transition_evolves in Ht as [? ?].
  - rewrite materialize_as_recompute in Hm. apply bind_Ok in Hm as (x & _ & [= _ <-]).
    by split; [|constructor].
  - rewrite materialize_baseline_as_recompute in Hm. apply bind_Ok in Hm as (x & _ & [= _ <-]).
    by split; [|constructor].
  - apply execute_shadow_inputs in Hr as (-> & _). by split; [|constructor].
Qed.

(** C28. Whatever calls the services answer, in any order: identifiers and keys of packages stay
    unique and every stored package still compiles, to the rules and the hash it has; and each call
    leaves the table of packages as it is, or appends one package, as a draft, or moves the state of
    one package by a single step of the lifecycle (a draft is validated, what is validated runs in
    the shadow, what runs in the shadow is promoted, and each of these but a draft is disabled for
    good) and changes nothing else of any package. *)
Theorem package_lifecycle db db1 db2 :
  packages_ok (dd_packages db) → rtc service_step db db1 → service_step db1 db2 →
  packages_ok (dd_packages db1) ∧ packages_ok (dd_packages db2) ∧
  package_step (dd_packages db1) (dd_packages db2).
Proof.
  intros Hok Hr Hs. assert (packages_ok (dd_packages db1)) as Hok1.
  { revert Hok. induction Hr as [|db db3 db1 H3 _ IH]; intros Hok; [done|].
    apply service_step_packages in H3 as [? _]; [|done]. by apply IH. }
  split; [done|by apply service_step_packages].
Qed.

(** A promoted package is run by nothing: a run that names it is refused, and a run of the tenant
    leaves it out. *)
Theorem promotion_stops_runs db scopes tenant id p db' cutoff :
  NoDup (pk_package_id <$> dd_packages db) → promote_to_production dv db scopes tenant id = Ok (p, db') →
  (∃ e, execute_shadow dv db' tenant cutoff (Some id) = Err e) ∧
  ∃ packages, selected_packages db' tenant None = Ok packages ∧ Forall (λ q, pk_package_id q ≠ id) packages.
Proof.
  intros Hnd. unfold promote_to_production, _transition, _get_package_row. intros (row & Hrow & Hk)%bind_Ok.
  rewrite raise_if_seq_Ok in Hk. destruct Hk as [_ (? & _ & [= _ <-])%bind_Ok].
  destruct (List.find _ _) as [q|] eqn:Hf; [|done]. injection Hrow as ->.
  apply find_some in Hf as [Hin%list_elem_of_In [Hid Ht]%andb_true_iff].
  apply bool_decide_eq_true in Hid, Ht. subst id.
  assert (∀ q, q ∈ update_package (pk_package_id row) (with_state row DetectionRuleRuntimeState.PRODUCTION_ACTIVE)
                     (dd_packages db) →
            pk_package_id q = pk_package_id row → pk_runtime_state q = DetectionRuleRuntimeState.PRODUCTION_ACTIVE) as Hq.
  { intros q (q' & -> & Hq')%list_elem_of_fmap. by case_bool_decide. }
  split.
  - unfold execute_shadow, selected_packages. cbn. destruct (List.find _ _) as [q|] eqn:Hf2; [|by eexists].
    apply find_some in Hf2 as [Hq2%list_elem_of_In Hid2%bool_decide_eq_true].
    rewrite (Hq q Hq2 Hid2). rewrite (bool_decide_eq_false_2 (_ = DetectionRuleRuntimeState.SHADOW_ACTIVE)) by done.
    by destruct (pk_source_tenant_id q !=? tenant); eexists.
  - eexists. split; [done|]. apply Forall_forall. intros q [Hin2 [_ Hst]%andb_true_iff]%elem_of_filter_bool Hid2.
    apply bool_decide_eq_true in Hst. rewrite (Hq q Hin2 Hid2) in Hst. done.
Qed.
End packages.

(** ** What compilation promises *)

Section compiled.
Context (dv : DetectionEnv).

Lemma map_result_Err {A B} (f : A → result B) l e : map_result f l = Err e → ∃ x, x ∈ l ∧ f x = Err e.
Proof.
  induction l as [|x l IH]; cbn; [done|].
  intros [Hx|(y & _ & [(z & ? & ?)%IH|(ys & _ & ?)]%bind_Err)]%bind_Err; [|..|done].
  - exists x. split; [by left|done].
  - exists z. split; [by right|done].
Qed.

(** The parts of a compilation that the runtime relies on. *)
Lemma compile_inv rule :
  compile_rule_definition dv rule = Ok rule →
  _validate_window_kind (dr_window_kind rule) = Ok tt ∧
  (dr_operator rule = RuleOperatorKind.EVENT_SEQUENCE → compile_sequence dv rule = Ok tt).
Proof.
  unfold compile_rule_definition. rewrite raise_if_seq_Ok.
  intros [_ (reg & _ & (op & _ & ([] & Hw & Hk)%bind_Ok)%bind_Ok)%bind_Ok]. split; [done|]. intros Hop.
  rewrite raise_if_seq_Ok in Hk. destruct Hk as [_ (? & _ & (? & _ & (? & _ & Hk)%bind_Ok)%bind_Ok)%bind_Ok].
  rewrite raise_if_seq_Ok in Hk. destruct Hk as [_ (? & _ & ([] & Hs & _)%bind_Ok)%bind_Ok]. by rewrite Hop in Hs.
Qed.

Lemma compiled_window rule :
  compile_rule_definition dv rule = Ok rule → ∃ k, enum_of_value_or_raise (A:=FeatureWindowKind) (dr_window_kind rule) = Ok k.
Proof.
  intros [Hw _]%compile_inv. unfold _validate_window_kind, enum_of_value_or_raise in *.
  destruct (enum_of_value (dr_window_kind rule)) as [k|]; [by exists k|done].
Qed.

(** A compiled sequence rule resolves its release again at every run. *)
Lemma compiled_sequence_resolves rule :
  compile_rule_definition dv rule = Ok rule → dr_operator rule = RuleOperatorKind.EVENT_SEQUENCE →
  ∃ release, _resolve_sequence_release (dv_canonical_hash dv) rule = Ok (release, sq_max_step_gap_seconds release) ∧
    (dr_threshold rule == sequence_match_threshold release)%Q.
Proof.
  intros [_ Hs]%compile_inv Hop. specialize (Hs Hop). unfold compile_sequence in Hs.
  rewrite !raise_if_seq_Ok in Hs. destruct Hs as (_ & _ & Hs). unfold _resolve_sequence_release.
  destruct (text_criterion _ "sequence_id") as [id|]; [|done].
  destruct (known_sequence _ id) as [release|]; [|done].
  destruct (text_criterion _ "sequence_hash") as [h|]; [|done].
  rewrite raise_if_seq_Ok in Hs. destruct Hs as [Hh Hs]. rewrite Hh. cbn.
  destruct (dict_get _ "sequence_steps") as [[]|]; try done.
  rewrite raise_if_seq_Ok in Hs. destruct Hs as [_ (? & _ & Hs)%bind_Ok].
  rewrite raise_if_seq_Ok in Hs. destruct Hs as [_ Hs].
  destruct (positive_gap _) as [gap|]; [|done].
  rewrite raise_if_seq_Ok in Hs. destruct Hs as [Hg Ht]. rewrite Hg. cbn.
  apply negb_false_iff, Z.eqb_eq in Hg. subst gap. exists release. split; [done|].
  apply Qeq_bool_iff. unfold raise_if in Ht. by destruct (Qeq_bool _ _).
Qed.

Lemma group_observations_skip {A} rule selected (item : BehaviorObservation → A) l g :
  dr_missing_data_policy rule = MissingDataPolicy.SKIP →
  ∃ g', group_observations rule selected item l g = Ok g'.
Proof.
  intros Hskip. revert g. induction l as [|o l IH]; intros g; cbn; [by eexists|].
  assert (∃ b, should_process_observation rule o = Ok b) as [b ->].
  { unfold should_process_observation. induction (dr_required_fields rule) as [|f fs IHf]; cbn; [by eexists|].
    rewrite Hskip. destruct (observation_missing_required_field o f); [by eexists|done]. }
  cbn. destruct (_ || _); [apply IH|]. destruct (group_key_from_observation _ _); [apply IH|].
  unfold handle_missing_group_key. rewrite Hskip. cbn. apply IH.
Qed.

(** The operators over observations do not fail on a compiled rule that skips missing data. *)
Lemma compiled_operator_total rule op (ctx : OperatorExecutionContext FeatureSnapshot DetectionFeatureBaseline) :
  compile_rule_definition dv rule = Ok rule → dr_missing_data_policy rule = MissingDataPolicy.SKIP →
  is_observation_operator rule = true → (Z.of_nat (length (oc_observations ctx)) ≤ dr_max_observation_scan rule) →
  (registry ← default_operator_registry dv; operator_get registry (enum_value (dr_operator rule))) = Ok op →
  ∃ ms, op rule ctx = Ok ms.
Proof.
  intros Hc Hskip Hobs Hlen Hop.
  assert (bounded_observations (oc_observations ctx) (dr_max_observation_scan rule) = Ok (oc_observations ctx)) as Hb.
  { unfold bounded_observations. by rewrite (proj2 (Z.ltb_ge _ _)) by lia. }
  unfold is_observation_operator, observation_operators in Hobs. apply bool_decide_eq_true in Hobs.
  assert (dr_operator rule = RuleOperatorKind.EVENT_MATCH ∨ dr_operator rule = RuleOperatorKind.EVENT_COUNT ∨
          dr_operator rule = RuleOperatorKind.EVENT_SEQUENCE) as [Hk|[Hk|Hk]] by set_solver; rewrite Hk in Hop;
    injection Hop as <-.
  - unfold event_match_evaluate. rewrite Hb. cbn.
    edestruct @group_observations_skip as [g ->]; [done|]. by eexists.
  - unfold event_count_evaluate. rewrite Hb. cbn.
    edestruct @group_observations_skip as [g ->]; [done|]. by eexists.
  - unfold event_sequence_evaluate. rewrite Hb. cbn.
    destruct (compiled_sequence_resolves rule Hc Hk) as (release & -> & _). cbn.
    edestruct @group_observations_skip as [g ->]; [done|]. by eexists.
Qed.

(** A compiled rule over observations that skips missing data never fails for its configuration:
    its window, its operator and its sequence release are found again at every run.  It fails only
    when the window holds more observations than its scan limit, or when a match has more evidence
    than a candidate may list. *)
Theorem compiled_rule_errors db package rule cutoff e :
  compile_rule_definition dv rule = Ok rule → dr_missing_data_policy rule = MissingDataPolicy.SKIP →
  is_observation_operator rule = true →
  _evaluate_rule dv db package rule cutoff = Err e →
  err_message e = "observation scan cost limit exceeded" ∨ ∃ what, e = pydantic_error (dv_snapshots dv) what.
Proof.
  intros Hc Hskip Hobs He. destruct (compiled_window rule Hc) as [k Hk]. unfold _evaluate_rule in He.
  apply bind_Err in He as [He|(k' & _ & He)]; [congruence|].
  apply bind_Err in He as [He|([ctx n] & Hctx & He)].
  { unfold rule_context in He. rewrite Hobs in He. cbn in He. left.
    apply bind_Err in He as [He|(? & _ & ?)]; [|done]. unfold _load_observations, scan_limited in He.
    by apply bind_Err in He as [[_ <-]%raise_if_Err|(? & _ & ?)]. }
  unfold rule_context in Hctx. rewrite Hobs in Hctx. cbn in Hctx.
  apply bind_Ok in Hctx as (obs & Hload & [= <- _]). unfold _load_observations, scan_limited in Hload.
  rewrite raise_if_seq_Ok in Hload. destruct Hload as [Hlen%Z.ltb_ge [= <-]].
  apply bind_Err in He as [He|(reg & Hreg & He)]; [done|].
  apply bind_Err in He as [He|(op & Hop & He)].
  { injection Hreg as <-. by destruct (dr_operator rule). }
  apply bind_Err in He as [He|(ms & _ & He)].
  - match type of He with op rule ?ctx = _ =>
      destruct (compiled_operator_total rule op ctx Hc Hskip Hobs Hlen) as [ms Hms] end.
    + by rewrite Hreg.
    + congruence.
  - right. apply bind_Err in He as [(m & _ & Hm)%map_result_Err|(? & _ & ?)]; [|done].
    by apply candidate_of_match_error in Hm.
Qed.

(** ** Rules that compile and never fire *)

Lemma foreign_criterion o criteria key v :
  (key, v) ∈ criteria → key ∉ _ALLOWED_SEQUENCE_STEP_KEYS → observation_matches_criteria o criteria = false.
Proof.
  intros Hin Hkey. induction criteria as [|[k x] criteria IH]; [set_solver|]. cbn.
  apply elem_of_cons in Hin as [[= <- <-]|Hin]; [|rewrite IH by done; apply andb_false_r].
  unfold _ALLOWED_SEQUENCE_STEP_KEYS in Hkey.
  by rewrite !bool_decide_eq_false_2 by (intros ->; apply Hkey; set_solver).
Qed.

Lemma foreign_criterion_never_matches rule (ctx : OperatorExecutionContext FeatureSnapshot DetectionFeatureBaseline) key v ms :
  (key, v) ∈ dr_match_criteria rule → key ∉ _ALLOWED_SEQUENCE_STEP_KEYS →
  event_match_evaluate rule ctx = Ok ms → ms = [].
Proof.
  intros Hin Hkey. unfold event_match_evaluate. intros (obs & _ & (g & Hg & [= <-])%bind_Ok)%bind_Ok.
  assert (∀ l g g', group_observations rule (λ o, observation_matches_criteria o (dr_match_criteria rule))
                     bo_observation_id l g = Ok g' → g' = g) as Hnone; [|by rewrite (Hnone _ _ _ Hg)].
  clear -Hin Hkey. induction l as [|o l IH]; intros g g'; cbn; [by intros [= ->]|].
  intros (b & _ & Hg)%bind_Ok. rewrite (foreign_criterion o _ _ _ Hin Hkey), orb_true_r in Hg. by eapply IH.
Qed.

Lemma empty_release_hash_fails rule ctx :
  dict_get (dr_match_criteria rule) "model_release_hash" = Some (VStr "") → dv_release_hash dv ≠ "" →
  ∃ e, statistical_anomaly_evaluate (dv_snapshots dv) (mock_release dv) rule ctx = Err e.
Proof.
  intros Hh Hne. unfold statistical_anomaly_evaluate. rewrite Hh. cbn.
  assert (∀ r, _resolve_release (mock_release dv) rule = Ok r → r = mock_release dv) as Hres.
  { unfold _resolve_release. intros r. repeat case_match; congruence. }
  destruct (_resolve_release (mock_release dv) rule) as [r|e]; cbn; [|by eexists].
  rewrite (Hres r eq_refl). cbn. rewrite bool_decide_eq_false_2 by congruence. by eexists.
Qed.

Definition silent_rule (operator : RuleOperatorKind) (criteria : list (string * pyval)) : DetectionRuleDefinition := {|
  dr_rule_id := "r"; dr_rule_version := 1; dr_operator := operator;
  dr_feature_contract_version := FEATURE_CONTRACT_VERSION; dr_detection_scope_id := "scope";
  dr_window_kind := "1h"; dr_group_key_fields := ["entity_id"]; dr_threshold := 7 # 2;
  dr_severity := "medium"; dr_required_fields := []; dr_missing_data_policy := MissingDataPolicy.SKIP;
  dr_match_criteria := criteria; dr_value_field := None; dr_max_observation_scan := 500
|}.

(** Compilation accepts rules that can never fire.  It checks the keys of match_criteria against
    the keys of all operators, so an event_match rule that names a scorer field compiles, and no
    observation ever matches it.  And it passes over an empty model_release_hash, which the scorer
    then compares with the release at every run, so that the rule fails each time. *)
Theorem compiles_but_never_fires :
  let foreign := silent_rule RuleOperatorKind.EVENT_MATCH
                   [("action", VStr "login"); ("model_release_id", VStr "any")] in
  let unbound := silent_rule RuleOperatorKind.STATISTICAL_ANOMALY
                   [("model_release_id", VStr MOCK_ACCOUNT_MAD_RELEASE_ID); ("model_release_hash", VStr "")] in
  compile_rule_definition dv foreign = Ok foreign ∧
  (∀ (ctx : OperatorExecutionContext FeatureSnapshot DetectionFeatureBaseline) ms,
     event_match_evaluate foreign ctx = Ok ms → ms = []) ∧
  compile_rule_definition dv unbound = Ok unbound ∧
  (dv_release_hash dv ≠ "" →
   ∀ ctx, ∃ e, statistical_anomaly_evaluate (dv_snapshots dv) (mock_release dv) unbound ctx = Err e).
Proof.
  cbn zeta. split_and!; [reflexivity| |reflexivity|].
  - intros ctx ms. apply (foreign_criterion_never_matches _ _ "model_release_id" (VStr "any")); [set_solver|].
    unfold _ALLOWED_SEQUENCE_STEP_KEYS. set_solver.
  - intros Hne ctx. by apply empty_release_hash_fails.
Qed.
End compiled.
