(* ===== verification/DetectionScenarios.v ===== *)
(** * Concrete detections, and the witnesses of the theorems on them

    An account that logs in a few times an hour and then bursts: its snapshots, a baseline, a score, a
    shadow run and its replay, and the sequences of the releases. *)

From stdpp Require Import prelude strings sorting pretty.
From Stdlib Require Import QArith.
From S2P Require Import Prelude Errors Detection FeatureSnapshots AnomalyScoring DetectionRuntime.
From S2P Require Import DetectionFacts DetectionRuntimeFacts DetectionServices.

#[local] Open Scope string_scope.
#[local] Open Scope Z_scope.
#[local] Open Scope list_scope.

(** ** The environment: readable digests in place of hashes *)

Definition demo_sv : SnapshotEnv := {|
  sv_sha256 := λ s, s;
  sv_snapshot_hash := λ c, sc_entity_id c +++ "@" +++ pretty (sc_cutoff_at c / HOUR);
  sv_baseline_hash := λ c, "base:" +++ bc_entity_id c +++ "@" +++ pretty (bc_cutoff_at c / HOUR);
  sv_isoformat := λ t, pretty (t / MICROSECONDS);
  sv_sqrt := λ q, q;
  sv_float := λ _, None;
  sv_int := λ _, None;
  sv_pydantic_message := λ _, "1 validation error for model"
|}.

Definition demo_dv : DetectionEnv := {|
  dv_snapshots := demo_sv;
  dv_canonical_hash := λ _, "hash";
  dv_release_hash := "mad-v1";
  dv_package_hash := λ t v rules _, t +++ pretty v +++ str_join "," (dr_rule_id <$> rules);
  dv_identity_hash := λ i, group_material (ci_group_key i);
  dv_content_hash := λ i _ p, ci_rule_id i +++ "/" +++ pretty (length (cp_observation_ids p))
|}.

(** ** Observations *)

Definition account (id : string) : BehaviorEntityRef :=
  {| er_entity_type := "account"; er_entity_id := id; er_role := None |}.

Definition seen_in (category id who action : string) (at_seconds : Z) : BehaviorObservation := {|
  bo_observation_id := id; bo_source_tenant_id := "t1"; bo_detection_scope_id := "scope";
  bo_source_revision := 1; bo_observed_at := at_seconds * MICROSECONDS; bo_entity_refs := [account who];
  bo_action := Some action; bo_category := Some category; bo_detection_score := Some (20 # 1)
|}.

Definition seen : string → string → string → Z → BehaviorObservation := seen_in "auth".

(** [n] logins in the hour [h], evenly spread. *)
Definition logins (who : string) (h n : Z) : list BehaviorObservation :=
  (λ i, seen (who +++ pretty h +++ "-" +++ pretty i) who "login"
          (h * 3600 + Z.of_nat i * (3599 / n))) <$> seq 0 (Z.to_nat n).

Definition demo_table : list BehaviorObservation :=
  logins "alice" 0 4 ++ logins "alice" 1 5 ++ logins "alice" 2 4 ++ logins "alice" 3 40 ++ logins "bob" 3 3.

Definition hour_args (who : string) (cutoff : Z) : SnapshotArgs := {|
  sa_source_tenant_id := "t1"; sa_detection_scope_id := "scope"; sa_entity_type := "account";
  sa_entity_id := who; sa_window_kind := FeatureWindowKind.ONE_HOUR; sa_cutoff_at := cutoff * HOUR;
  sa_revision := 1; sa_supersedes_snapshot_id := None; sa_allowed_lateness := 0;
  sa_feature_contract_version := FEATURE_CONTRACT_VERSION; sa_snapshot_id := None
|}.

(** The value of a computation that is known not to fail. *)
Definition value_of {A} (r : result A) (H : match r with Ok _ => True | Err _ => False end) : A :=
  match r return match r with Ok _ => True | Err _ => False end → A with
  | Ok a => λ _, a
  | Err _ => λ H, match H with end
  end H.

Definition alice_at (cutoff : Z) : result FeatureSnapshot := materialize_snapshot demo_sv demo_table (hour_args "alice" cutoff).

Definition alice_4 : FeatureSnapshot := Eval vm_compute in value_of (alice_at 4) I.

(** An observation on the hour is counted in the windows on both sides of it. *)
Example alice_counts :
  map_result (λ h, s ← alice_at h; Ok (fp_observation_count (sc_provenance (fs_content s)))) [1; 2; 3; 4]
  = Ok [5; 6; 5; 40].
Proof. vm_compute. reflexivity. Qed.

Lemma snapshot_no_leakage_witness :
  materialize_snapshot demo_sv demo_table (hour_args "alice" 4) = Ok alice_4 ∧
  sc_status (fs_content alice_4) = FeatureSnapshotStatus.READY ∧
  sc_window_end (fs_content alice_4) ≤ 4 * HOUR.
Proof.
  assert (materialize_snapshot demo_sv demo_table (hour_args "alice" 4) = Ok alice_4) as H by (vm_compute; reflexivity).
  split; [exact H|]. split; [vm_compute; reflexivity|].
  destruct (snapshot_no_leakage demo_sv demo_table (hour_args "alice" 4) alice_4 H) as (_ & [Hle _] & _). exact Hle.
Defined.

(** ** A baseline and a score *)

Definition alice_history : list FeatureSnapshot :=
  Eval vm_compute in value_of (map_result alice_at [1; 2; 3; 4]) I.

Definition alice_args : BaselineArgs := {|
  ba_source_tenant_id := "t1"; ba_detection_scope_id := "scope"; ba_entity_type := "account";
  ba_entity_id := "alice"; ba_window_kind := FeatureWindowKind.ONE_HOUR; ba_cutoff_at := 4 * HOUR;
  ba_revision := 1; ba_supersedes_baseline_id := None; ba_baseline_id := None;
  ba_feature_contract_version := FEATURE_CONTRACT_VERSION
|}.

Definition alice_baseline : DetectionFeatureBaseline :=
  Eval vm_compute in value_of (build_detection_feature_baseline demo_sv alice_args alice_history) I.

Definition demo_release : AnomalyScorerRelease := mock_release demo_dv.

Definition alice_score : AnomalyScoreResult :=
  Eval vm_compute in value_of (score_snapshot demo_sv alice_4 alice_baseline demo_release (7 # 2)
                                 (Some "mad-v1") (Some (fb_content_hash alice_baseline))) I.

(** The burst is an anomaly, with the full score. *)
Lemma anomaly_score_correct_witness :
  score_snapshot demo_sv alice_4 alice_baseline demo_release (7 # 2)
    (Some "mad-v1") (Some (fb_content_hash alice_baseline)) = Ok alice_score ∧
  as_is_anomaly alice_score = true ∧ (as_detection_score alice_score == 100)%Q.
Proof.
  assert (score_snapshot demo_sv alice_4 alice_baseline demo_release (7 # 2)
    (Some "mad-v1") (Some (fb_content_hash alice_baseline)) = Ok alice_score) as H by (vm_compute; reflexivity).
  split; [exact H|]. split; [reflexivity|].
  destruct (anomaly_score_correct demo_sv _ _ _ _ _ _ _ H) as (_ & _ & _ & _ & _ & _ & _ & _ & Hs & _).
  apply Hs; reflexivity.
Defined.

(** ** Sequences *)

Definition action_step (action : string) : SequenceStep := [("action", VStr action)].

(** A login, and a download half an hour later. *)
Definition login_then_download : list BehaviorObservation :=
  [seen "o2" "alice" "download" 1800; seen "o1" "alice" "login" 0].

Lemma sequence_search_correct_witness :
  [action_step "login"; action_step "download"] ≠ [] ∧
  find_ordered_sequence_match login_then_download [action_step "login"; action_step "download"] (Some 3600) =
    Some (reverse login_then_download) ∧
  occurs login_then_download [action_step "login"; action_step "download"] (Some 3600)
    (reverse login_then_download).
Proof.
  assert ([action_step "login"; action_step "download"] ≠ []) as H by done.
  split; [exact H|]. split; [vm_compute; reflexivity|].
  apply (sequence_search_correct login_then_download _ (Some 3600) H). vm_compute. reflexivity.
Defined.

(** In the released sequence, an unrelated anomalous login of the day before hides the one that is
    followed by a sensitive access. *)
Lemma early_step_hides_sequence_witness :
  let steps := sq_sequence_steps (build_geo_sensitive_sequence_v1 (λ _, "hash")) in
  let a1 := seen_in "identity" "o0" "alice" "anomalous_login" 0 in
  let a2 := seen_in "identity" "o1" "alice" "anomalous_login" 90000 in
  let b := seen_in "data_access" "o2" "alice" "sensitive_access" 91800 in
  find_ordered_sequence_match [a1; a2; b] steps (Some DEFAULT_MAX_STEP_GAP_SECONDS) = None ∧
  find_ordered_sequence_match [a2; b] steps (Some DEFAULT_MAX_STEP_GAP_SECONDS) = Some [a2; b].
Proof.
  cbn zeta. edestruct early_step_hides_sequence as (H1 & H2 & _); [| | | | | | | |split; [exact H1|exact H2]];
    try (vm_compute; reflexivity).
  - apply (bool_decide_unpack _). vm_compute. exact I.
  - split; [|vm_compute; reflexivity]. apply Z.leb_le. vm_compute. reflexivity.
Defined.

(** ** Shadow runs *)

Definition count_rule : DetectionRuleDefinition := {|
  dr_rule_id := "many-logins"; dr_rule_version := 1; dr_operator := RuleOperatorKind.EVENT_COUNT;
  dr_feature_contract_version := FEATURE_CONTRACT_VERSION; dr_detection_scope_id := "scope";
  dr_window_kind := "1h"; dr_group_key_fields := ["entity_id"]; dr_threshold := 3 # 1;
  dr_severity := "medium"; dr_required_fields := []; dr_missing_data_policy := MissingDataPolicy.SKIP;
  dr_match_criteria := []; dr_value_field := None; dr_max_observation_scan := 500
|}.

(** A scan limit the same window exceeds. *)
Definition narrow_rule : DetectionRuleDefinition := {|
  dr_rule_id := "narrow"; dr_rule_version := 1; dr_operator := RuleOperatorKind.EVENT_COUNT;
  dr_feature_contract_version := FEATURE_CONTRACT_VERSION; dr_detection_scope_id := "scope";
  dr_window_kind := "1h"; dr_group_key_fields := ["entity_id"]; dr_threshold := 3 # 1;
  dr_severity := "medium"; dr_required_fields := []; dr_missing_data_policy := MissingDataPolicy.SKIP;
  dr_match_criteria := []; dr_value_field := None; dr_max_observation_scan := 10
|}.

Definition demo_package (rules : list DetectionRuleDefinition) : DetectionRulePackage := {|
  pk_package_id := "p1"; pk_source_tenant_id := "t1"; pk_package_version := 1;
  pk_runtime_state := DetectionRuleRuntimeState.SHADOW_ACTIVE; pk_rules := rules;
  pk_provenance := {| pp_author := "ops"; pp_review_artifact_ref := None; pp_test_artifact_ref := None;
                      pp_compiled_at := None |};
  pk_content_hash := "h"; pk_idempotency_key := "k"; pk_supersedes_package_id := None
|}.

Definition demo_db (table : list BehaviorObservation) (rules : list DetectionRuleDefinition) : DetectionDb := {|
  dd_packages := [demo_package rules]; dd_observations := table; dd_snapshots := []; dd_baselines := [];
  dd_candidates := []; dd_errors := []
|}.

#[local] Abbreviation run_of db := (execute_shadow demo_dv db "t1" (4 * HOUR) None).

(** The failing rule leaves its error row, the other one its two candidates. *)
Example demo_run :
  (r ← run_of (demo_db demo_table [narrow_rule; count_rule]);
   Ok (cd_idempotency_key <$> rr_candidates r.1, re_error_message <$> rr_errors r.1, rr_rules_evaluated r.1))
  = Ok (["t1:p1:many-logins:v1:14400:entity_id=alice"; "t1:p1:many-logins:v1:14400:entity_id=bob"],
        ["observation scan cost limit exceeded"], 2).
Proof. vm_compute. reflexivity. Qed.

#[local] Abbreviation mixed_db := (demo_db demo_table [narrow_rule; count_rule]).

Lemma shadow_run_total_witness :
  candidates_ok (dd_candidates mixed_db) ∧
  ∃ res db', run_of mixed_db = Ok (res, db') ∧ rr_rules_evaluated res = 2 ∧ candidates_ok (dd_candidates db').
Proof.
  assert (candidates_ok (dd_candidates mixed_db)) as Hok by (split; constructor).
  split; [exact Hok|].
  destruct (shadow_run_total demo_dv mixed_db "t1" (4 * HOUR) None [demo_package [narrow_rule; count_rule]])
    as (res & db' & Hrun & Hn & _ & _ & Hok'); [exact Hok|reflexivity| |].
  - intros p r ->%list_elem_of_singleton Hr e He. unfold message_fits.
    apply elem_of_cons in Hr as [Hr|Hr%list_elem_of_singleton]; subst r; vm_compute in He; [|discriminate].
    injection He as <-. split; apply Nat.leb_le; vm_compute; reflexivity.
  - exists res, db'. split; [exact Hrun|]. split; [rewrite Hn; reflexivity|exact Hok'].
Defined.

Definition count_run : DetectionRuleRuntimeResult * DetectionDb :=
  Eval vm_compute in value_of (run_of (demo_db demo_table [count_rule])) I.

Lemma shadow_rerun_idempotent_witness :
  run_of (demo_db demo_table [count_rule]) = Ok (count_run.1, count_run.2) ∧
  length (rr_candidates count_run.1) = 2%nat ∧
  ∃ res', run_of count_run.2 = Ok (res', count_run.2) ∧ rr_candidates res' = rr_candidates count_run.1.
Proof.
  assert (run_of (demo_db demo_table [count_rule]) = Ok (count_run.1, count_run.2)) as H
    by (vm_compute; reflexivity).
  split; [exact H|]. split; [reflexivity|].
  destruct (shadow_rerun_idempotent demo_dv (demo_db demo_table [count_rule]) "t1" (4 * HOUR) None count_run.1 count_run.2)
    as (res' & Hr & Hc & _).
  - constructor.
  - apply distinct_keys_told_apart, (bool_decide_unpack _). vm_compute. exact I.
  - exact H.
  - reflexivity.
  - exists res'. split; [exact Hr|exact Hc].
Defined.

(** ** A busy account *)

Definition busy_db : DetectionDb := 
  demo_db (replicate 257 (seen "o" "alice" "login" 11000) ++ replicate 3 (seen "b" "bob" "login" 12000)) [count_rule].

Definition busy_context : OperatorExecutionContext FeatureSnapshot DetectionFeatureBaseline * Z :=
  Eval vm_compute in
  value_of (rule_context busy_db (demo_package [count_rule]) count_rule (4 * HOUR) FeatureWindowKind.ONE_HOUR) I.

Definition busy_matches : list OperatorMatch :=
  Eval vm_compute in value_of (event_count_evaluate count_rule busy_context.1) I.

(** Both groups match, and neither has a candidate. *)
Lemma busy_group_suppresses_rule_witness :
  length busy_matches = 2%nat ∧
  ∃ res db', rule_round demo_dv (4 * HOUR) "t1" (demo_package [count_rule]) (empty_result, busy_db) count_rule
      = Ok (res, db') ∧ rr_candidates res = [] ∧ length (rr_errors res) = 1%nat ∧ dd_candidates db' = [].
Proof.
  split; [reflexivity|].
  edestruct (busy_group_suppresses_rule demo_dv (4 * HOUR) "t1" (demo_package [count_rule]) empty_result busy_db
               count_rule FeatureWindowKind.ONE_HOUR busy_context.1 busy_context.2 busy_matches)
    as (row & what & db' & Hr & Hc & _); [| | | | | | |].
  - reflexivity.
  - reflexivity.
  - vm_compute. reflexivity.
  - vm_compute. reflexivity.
  - left.
  - apply Nat.leb_le. vm_compute. reflexivity.
  - intros what. split; apply Nat.leb_le; vm_compute; reflexivity.
  - eexists _, db'. split; [exact Hr|]. cbn. split; [reflexivity|]. split; [reflexivity|exact Hc].
Defined.

(** ** The services *)

Definition alice_request : SnapshotRequest := {|
  mr_source_tenant_id := "t1"; mr_detection_scope_id := "scope"; mr_entity_type := "account";
  mr_entity_id := "alice"; mr_window_kind := FeatureWindowKind.ONE_HOUR; mr_cutoff_at := 4 * HOUR;
  mr_allowed_lateness := 0
|}.

Definition first_materialized : FeatureSnapshot * DetectionDb :=
  Eval vm_compute in value_of (materialize_or_recompute demo_dv (demo_db demo_table []) alice_request) I.

(** The second materialisation returns the stored row. *)
Lemma materialize_snapshot_idempotent_witness :
  materialize_or_recompute demo_dv (demo_db demo_table []) alice_request
    = Ok (first_materialized.1, first_materialized.2) ∧
  length (dd_snapshots first_materialized.2) = 1%nat ∧
  materialize_or_recompute demo_dv first_materialized.2 alice_request
    = Ok (first_materialized.1, first_materialized.2).
Proof.
  assert (materialize_or_recompute demo_dv (demo_db demo_table []) alice_request
    = Ok (first_materialized.1, first_materialized.2)) as H by (vm_compute; reflexivity).
  split; [exact H|]. split; [reflexivity|]. apply (materialize_snapshot_idempotent demo_dv _ _ _ _ H).
Defined.

Definition demo_scopes : list ScopeRevision :=
  [{| sr_detection_scope_id := "scope"; sr_source_tenant_id := "t1"; sr_lifecycle_state := "active" |}].

Definition empty_db : DetectionDb := {|
  dd_packages := []; dd_observations := demo_table; dd_snapshots := []; dd_baselines := [];
  dd_candidates := []; dd_errors := []
|}.

#[local] Abbreviation registered :=
  (register_package demo_dv empty_db "t1" 1 [count_rule] "ops" None None None 0).

Definition draft_id : string := Eval vm_compute in pk_package_id (value_of registered I).1.
Definition draft_db : DetectionDb := Eval vm_compute in (value_of registered I).2.
Definition valid_db : DetectionDb :=
  Eval vm_compute in (value_of (validate_package demo_dv draft_db demo_scopes "t1" draft_id) I).2.
Definition active_db : DetectionDb :=
  Eval vm_compute in (value_of (activate_shadow demo_dv valid_db demo_scopes "t1" draft_id) I).2.

(** A package is registered, validated and activated. *)
Lemma package_lifecycle_witness :
  packages_ok demo_dv (dd_packages empty_db) ∧ rtc (service_step demo_dv) empty_db valid_db ∧
  service_step demo_dv valid_db active_db ∧
  packages_ok demo_dv (dd_packages active_db) ∧
  package_step (dd_packages valid_db) (dd_packages active_db) ∧
  (pk_runtime_state <$> dd_packages active_db) = [DetectionRuleRuntimeState.SHADOW_ACTIVE].
Proof.
  assert (rtc (service_step demo_dv) empty_db valid_db) as Hsteps.
  { eapply rtc_l; [|eapply rtc_l; [|apply rtc_refl]].
    - eapply (step_register demo_dv empty_db draft_db "t1" 1 [count_rule] "ops" None None None 0). vm_compute. reflexivity.
    - eapply (step_transition demo_dv draft_db valid_db demo_scopes "t1" draft_id DetectionRuleRuntimeState.VALIDATED). vm_compute. reflexivity. }
  assert (service_step demo_dv valid_db active_db) as Hstep.
  { eapply (step_transition demo_dv valid_db active_db demo_scopes "t1" draft_id DetectionRuleRuntimeState.SHADOW_ACTIVE).
    vm_compute. reflexivity. }
  assert (packages_ok demo_dv (dd_packages empty_db)) as Hok by (repeat split; constructor).
  destruct (package_lifecycle demo_dv _ _ _ Hok Hsteps Hstep) as (_ & Hok2 & Hps).
  split; [exact Hok|]. split; [exact Hsteps|]. split; [exact Hstep|]. split; [exact Hok2|].
  split; [exact Hps|reflexivity].
Defined.

Definition narrow_error : error :=
  Eval vm_compute in
  match _evaluate_rule demo_dv mixed_db (demo_package [narrow_rule; count_rule]) narrow_rule (4 * HOUR) with
  | Err e => e
  | Ok _ => builtin_error ValueError ""
  end.

Lemma compiled_rule_errors_witness :
  compile_rule_definition demo_dv narrow_rule = Ok narrow_rule ∧
  _evaluate_rule demo_dv mixed_db (demo_package [narrow_rule; count_rule]) narrow_rule (4 * HOUR) = Err narrow_error ∧
  (err_message narrow_error = "observation scan cost limit exceeded" ∨
   ∃ what, narrow_error = pydantic_error demo_sv what).
Proof.
  assert (compile_rule_definition demo_dv narrow_rule = Ok narrow_rule) as Hc by reflexivity.
  assert (_evaluate_rule demo_dv mixed_db (demo_package [narrow_rule; count_rule]) narrow_rule (4 * HOUR)
            = Err narrow_error) as He by (vm_compute; reflexivity).
  split; [exact Hc|]. split; [exact He|].
  apply (compiled_rule_errors demo_dv mixed_db (demo_package [narrow_rule; count_rule]) narrow_rule (4 * HOUR) _ Hc);
    [reflexivity|reflexivity|exact He].
Defined.
