(* ===== verification/Budget.v ===== *)
(** * Token and cost budgets (services/budget_service.py)

    Counters per event, per agent of an event and for the system, in Redis or, when Redis fails, in
    the process.  Redis is behind the interface [RedisBudget]; a pipeline is one transaction.  What
    the server answers to a call is an argument.  Costs are whole numbers of 1e-8 dollars, the
    precision the service rounds to; counters stay below 2^53, where [int(float(x))] is exact. *)

From stdpp Require Import prelude strings gmap.
From Stdlib Require Import QArith Qround.
From S2P Require Import Prelude Enums Errors Lease BudgetReservation Detection FeatureSnapshots.

#[local] Open Scope string_scope.
#[local] Open Scope Z_scope.

(** ** Constants (models/workflow.py) *)

Definition GLOBAL_TOKEN_BUDGET : Z := 1000000.
Definition EVENT_TOKEN_BUDGET : Z := 100000.
Definition EVENT_COST_BUDGET_USD : Q := 5 # 1.
Definition PER_AGENT_TOKEN_CAP : Z := 20000.

Definition MODEL_PRICE_TABLE : list (string * (Q * Q)) := [("mock-model", (0%Q, 0%Q))].

Definition EVENT_BUDGET_SEVERITY_MULTIPLIER : list (string * Q) :=
  [("low", 1 # 2); ("medium", 1 # 1); ("high", 3 # 2); ("critical", 2 # 1)].

Definition SYSTEM_BUDGET_KEY : string := "shadowtrace:budget:system".
Definition EVENT_BUDGET_KEY_PREFIX : string := "shadowtrace:budget:event:".
Definition _event_key (event_id : string) : string := EVENT_BUDGET_KEY_PREFIX +++ event_id.
Definition _agent_tokens_field (agent_name : string) : string := "agent:" +++ agent_name +++ ":tokens".
Definition _agent_tools_field (agent_name : string) : string := "agent:" +++ agent_name +++ ":tool_calls".

(** ** Redis *)

Inductive command : Type :=
| incrby (key : string) (n : Z)
| hincrby (key field : string) (n : Z)
| hincrbyfloat (key field : string) (n : Z).

Class RedisBudget (R : Type) : Type := {
  rb_get : R → string → Z;  (* absent: 0 *)
  rb_hgetall : R → string → list (string * Z);
  rb_exec : R → list command → R;
  rb_delete : R → string → R
}.

Definition hget {R} `{RedisBudget R} (r : R) (key field : string) : Z :=
  default 0 (dict_get (rb_hgetall r key) field).

Definition adds_to_key (key : string) (c : command) : Z :=
  match c with incrby k n => if k ==? key then n else 0 | _ => 0 end.

Definition adds_to_field (key field : string) (c : command) : Z :=
  match c with
  | hincrby k f n | hincrbyfloat k f n => if (k ==? key) && (f ==? field) then n else 0
  | incrby _ _ => 0
  end.

Definition total {A} (f : A → Z) (l : list A) : Z := foldr (λ x n, f x + n) 0 l.

(** A transaction adds up its commands; a field is listed once. *)
Class RedisBudgetLaws (R : Type) `{RedisBudget R} : Prop := {
  hgetall_nodup : ∀ r key, NoDup (rb_hgetall r key).*1;
  exec_get : ∀ r cs key, rb_get (rb_exec r cs) key = rb_get r key + total (adds_to_key key) cs;
  exec_hget : ∀ r cs key field, hget (rb_exec r cs) key field = hget r key field + total (adds_to_field key field) cs;
  delete_hget : ∀ r key key' field, hget (rb_delete r key) key' field = if key' ==? key then 0 else hget r key' field;
  delete_get : ∀ r key key', key' ≠ key → rb_get (rb_delete r key) key' = rb_get r key'
}.

(** ** State *)

Record EventCounters : Type := {
  ec_tokens : Z;
  ec_cost_usd : Z;
  ec_tool_calls : Z;
  ec_per_agent_tokens : gmap string Z;
  ec_per_agent_tool_calls : gmap string Z
}.

Definition no_counters : EventCounters :=
  {| ec_tokens := 0; ec_cost_usd := 0; ec_tool_calls := 0; ec_per_agent_tokens := ∅;
     ec_per_agent_tool_calls := ∅ |}.

Record BudgetState : Type := {
  bt_system_tokens : Z;
  bt_events : gmap string EventCounters;
  bt_degraded : bool;
  bt_pinned : gset string;
  bt_last_probe : Z
}.

Record BudgetUsage : Type := {
  us_event_tokens : Z;
  us_event_cost_usd : Z;
  us_tool_calls : Z;
  us_per_agent : gmap string (Z * Z);  (* tokens, tool_calls *)
  us_system_tokens : Z
}.

Record BudgetSettings : Type := {
  bs_enabled : bool;
  bs_llm_mode : string;
  bs_event_token_budget : Z;
  bs_event_cost_budget_usd : Q;
  bs_per_agent_token_cap : Z;
  bs_global_token_budget : Z
}.

(** [setting or default] *)
Definition z_or (x d : Z) : Z := if x =? 0 then d else x.
Definition q_or (x d : Q) : Q := if Qeq_bool x 0 then d else x.

Definition event_token_budget (bs : BudgetSettings) : Z := z_or (bs_event_token_budget bs) EVENT_TOKEN_BUDGET.
Definition event_cost_budget (bs : BudgetSettings) : Q := q_or (bs_event_cost_budget_usd bs) EVENT_COST_BUDGET_USD.
Definition per_agent_cap (bs : BudgetSettings) : Z := z_or (bs_per_agent_token_cap bs) PER_AGENT_TOKEN_CAP.
Definition global_budget (bs : BudgetSettings) : Z := z_or (bs_global_token_budget bs) GLOBAL_TOKEN_BUDGET.

(** ** Costs *)

Definition COST_UNITS : positive := 100000000.

Definition compute_llm_cost_usd (model_name : string) (prompt_tokens completion_tokens : Z) (force_zero : bool) : Z :=
  if force_zero then 0
  else match dict_get MODEL_PRICE_TABLE model_name with
       | None => 0
       | Some (prompt_price, completion_price) =>
           round_even ((inject_Z prompt_tokens / 1000 * prompt_price
                        + inject_Z completion_tokens / 1000 * completion_price) * inject_Z (Zpos COST_UNITS))%Q
       end.

(** [value] is the severity in lower case. *)
Definition allocate_event_budget (bs : BudgetSettings) (value : string) : Z :=
  let multiplier := default 1%Q (dict_get EVENT_BUDGET_SEVERITY_MULTIPLIER value) in
  Z.max 1 (Qfloor (inject_Z (event_token_budget bs) * multiplier)).

(** ** The degraded mark and pinned events *)

Definition bt_with_degraded (b : bool) (st : BudgetState) : BudgetState :=
  {| bt_system_tokens := bt_system_tokens st; bt_events := bt_events st; bt_degraded := b;
     bt_pinned := bt_pinned st; bt_last_probe := bt_last_probe st |}.

Definition bt_with_probe (t : Z) (st : BudgetState) : BudgetState :=
  {| bt_system_tokens := bt_system_tokens st; bt_events := bt_events st; bt_degraded := bt_degraded st;
     bt_pinned := bt_pinned st; bt_last_probe := t |}.

Definition _pin_event_to_memory (event_id : option string) (st : BudgetState) : BudgetState :=
  {| bt_system_tokens := bt_system_tokens st; bt_events := bt_events st; bt_degraded := bt_degraded st;
     bt_pinned := match event_id with
                  | Some e => if e ==? "" then bt_pinned st else {[e]} ∪ bt_pinned st
                  | None => bt_pinned st
                  end;
     bt_last_probe := bt_last_probe st |}.

Definition _uses_redis_for_event (st : BudgetState) (event_id : string) : bool :=
  negb (bool_decide (event_id ∈ bt_pinned st)).

Definition _ensure_event_pinned_for_degraded_fallback (event_id : string) (st : BudgetState) : BudgetState :=
  if bt_degraded st then _pin_event_to_memory (Some event_id) st else st.

Definition mark_budget_degraded (event_id : option string) (st : BudgetState) : BudgetState :=
  _pin_event_to_memory event_id (bt_with_degraded true st).

Section budget.
Context {R : Type} `{RedisBudget R}.
Context (rv : ReservationEnv) (bs : BudgetSettings).

Definition budget_recovery (a : RedisAnswers) (st : BudgetState) : BudgetState :=
  if negb (rv_attempt_recovery rv) || negb (bt_degraded st) || negb (rv_has_redis rv) then st
  else if ra_now a - bt_last_probe st <? rv_recovery_interval rv then st
  else
    let st := bt_with_probe (ra_now a) st in
    match ra_probe_ping a, ra_probe_get a with
    | Ok true, Ok _ => bt_with_degraded false st
    | _, _ => st
    end.

(** Whether there is a client; getting one may raise, which counts as an outage. *)
Definition budget_redis_client (a : RedisAnswers) (st : BudgetState) : bool * BudgetState :=
  if negb (rv_has_redis rv) then (false, st)
  else match ra_ping a with
       | Err _ | Ok false => (false, mark_budget_degraded None st)
       | Ok true =>
           let st := if bt_degraded st then budget_recovery a st else st in
           if bt_degraded st then (false, st)
           else if ra_client a then (true, st) else (false, mark_budget_degraded None st)
       end.

(** ** Charges *)

Definition counters (st : BudgetState) (event_id : string) : EventCounters :=
  default no_counters (bt_events st !! event_id).

Definition add_to (m : gmap string Z) (k : string) (n : Z) : gmap string Z := <[k := default 0 (m !! k) + n]> m.

Definition _apply_memory_llm_charge (event_id agent_name : string) (tokens cost : Z) (st : BudgetState) : BudgetState :=
  let c := counters st event_id in
  {| bt_system_tokens := bt_system_tokens st + tokens;
     bt_events := <[event_id :=
       {| ec_tokens := ec_tokens c + tokens; ec_cost_usd := ec_cost_usd c + cost;
          ec_tool_calls := ec_tool_calls c;
          ec_per_agent_tokens := add_to (ec_per_agent_tokens c) agent_name tokens;
          ec_per_agent_tool_calls := ec_per_agent_tool_calls c |}]> (bt_events st);
     bt_degraded := bt_degraded st; bt_pinned := bt_pinned st; bt_last_probe := bt_last_probe st |}.

Definition _apply_memory_tool_charge (event_id agent_name : string) (st : BudgetState) : BudgetState :=
  let c := counters st event_id in
  {| bt_system_tokens := bt_system_tokens st;
     bt_events := <[event_id :=
       {| ec_tokens := ec_tokens c; ec_cost_usd := ec_cost_usd c; ec_tool_calls := ec_tool_calls c + 1;
          ec_per_agent_tokens := ec_per_agent_tokens c;
          ec_per_agent_tool_calls := add_to (ec_per_agent_tool_calls c) agent_name 1 |}]> (bt_events st);
     bt_degraded := bt_degraded st; bt_pinned := bt_pinned st; bt_last_probe := bt_last_probe st |}.

Definition llm_commands (event_id agent_name : string) (tokens cost : Z) : list command :=
  [incrby SYSTEM_BUDGET_KEY tokens; hincrby (_event_key event_id) "tokens" tokens]
  ++ (if cost =? 0 then [] else [hincrbyfloat (_event_key event_id) "cost_usd" cost])
  ++ [hincrby (_event_key event_id) (_agent_tokens_field agent_name) tokens].

Definition tool_commands (event_id agent_name : string) : list command :=
  [hincrby (_event_key event_id) "tool_calls" 1;
   hincrby (_event_key event_id) (_agent_tools_field agent_name) 1].

(** A charge goes to Redis, or to memory when there is no client, the event is pinned or the
    transaction fails. *)
Definition apply_charge (event_id : string) (commands : list command) (in_memory : BudgetState → BudgetState)
    (a : RedisAnswers) (st : BudgetState) (r : R) : BudgetState * R :=
  let '(client, st) := budget_redis_client a st in
  if negb client || negb (_uses_redis_for_event st event_id)
  then (in_memory (_ensure_event_pinned_for_degraded_fallback event_id st), r)
  else
    let '(answer, r) := over_net (ra_net a) r (tt, rb_exec r commands) in
    match answer with
    | Ok _ => (st, r)
    | Err _ => (in_memory (mark_budget_degraded (Some event_id) st), r)
    end.

Definition _apply_llm_charge (event_id agent_name : string) (tokens cost : Z) :
    RedisAnswers → BudgetState → R → BudgetState * R :=
  apply_charge event_id (llm_commands event_id agent_name tokens cost)
    (_apply_memory_llm_charge event_id agent_name tokens cost).

Definition _apply_tool_charge (event_id agent_name : string) : RedisAnswers → BudgetState → R → BudgetState * R :=
  apply_charge event_id (tool_commands event_id agent_name) (_apply_memory_tool_charge event_id agent_name).

(** ** Reading usage *)

Definition ends_with (suffix s : string) : bool :=
  (String.length suffix <=? String.length s)%nat
  && (str_drop (String.length s - String.length suffix) s ==? suffix).

(** [key[len(prefix):-len(suffix)]] when the key starts and ends so *)
Definition between (prefix suffix key : string) : option string :=
  if String.prefix prefix key && ends_with suffix key
  then Some (str_take (String.length key - String.length prefix - String.length suffix)
               (str_drop (String.length prefix) key))
  else None.

(** [per_agent.setdefault(name, {tokens: 0, tool_calls: 0})] and the update of one entry *)
Definition agent_entry (m : gmap string (Z * Z)) (kv : string * Z) : gmap string (Z * Z) :=
  match between "agent:" ":tokens" kv.1 with
  | Some name => <[name := (kv.2, (default (0, 0) (m !! name)).2)]> m
  | None =>
      match between "agent:" ":tool_calls" kv.1 with
      | Some name => <[name := ((default (0, 0) (m !! name)).1, kv.2)]> m
      | None => m
      end
  end.

Definition _read_redis_usage (a : RedisAnswers) (st : BudgetState) (r : R) (event_id : string) :
    option BudgetUsage * BudgetState :=
  if negb (_uses_redis_for_event st event_id) then (None, st)
  else
    let '(client, st) := budget_redis_client a st in
    if negb client then (None, st)
    else match ra_net a with
         | lost_before _ | lost_after _ => (None, mark_budget_degraded (Some event_id) st)
         | _ =>
             let key := _event_key event_id in
             (Some {| us_event_tokens := hget r key "tokens";
                      us_event_cost_usd := hget r key "cost_usd";
                      us_tool_calls := hget r key "tool_calls";
                      us_per_agent := foldl agent_entry ∅ (rb_hgetall r key);
                      us_system_tokens := rb_get r SYSTEM_BUDGET_KEY + bt_system_tokens st |}, st)
         end.

Definition _read_memory_usage (st : BudgetState) (event_id : string) : BudgetUsage :=
  let c := counters st event_id in
  {| us_event_tokens := ec_tokens c;
     us_event_cost_usd := ec_cost_usd c;
     us_tool_calls := ec_tool_calls c;
     us_per_agent := merge (λ t n, match t, n with
                                   | None, None => None
                                   | _, _ => Some (default 0 t, default 0 n)
                                   end) (ec_per_agent_tokens c) (ec_per_agent_tool_calls c);
     us_system_tokens := bt_system_tokens st |}.

Definition get_usage (a : RedisAnswers) (st : BudgetState) (r : R) (event_id : string) : BudgetUsage * BudgetState :=
  if _uses_redis_for_event st event_id then
    match _read_redis_usage a st r event_id with
    | (Some usage, st) => (usage, st)
    | (None, st) => (_read_memory_usage st event_id, st)
    end
  else (_read_memory_usage st event_id, st).

(** ** The service *)

Record BudgetSnapshot : Type := {
  bn_event_id : string;
  bn_agent_name : string;
  bn_usage : BudgetUsage;
  bn_event_token_budget : Z;
  bn_event_cost_budget_usd : Q;
  bn_per_agent_token_cap : Z;
  bn_global_token_budget : Z
}.

Definition _snapshot (event_id agent_name : string) (usage : BudgetUsage) : BudgetSnapshot :=
  {| bn_event_id := event_id; bn_agent_name := agent_name; bn_usage := usage;
     bn_event_token_budget := event_token_budget bs; bn_event_cost_budget_usd := event_cost_budget bs;
     bn_per_agent_token_cap := per_agent_cap bs; bn_global_token_budget := global_budget bs |}.

Definition charged_tokens (prompt_tokens completion_tokens : Z) : Z := Z.max 0 prompt_tokens + Z.max 0 completion_tokens.

(** The charge and the read that follows are two exchanges with Redis; the usage is also handed to
    the writer of the context, whose failure is swallowed. *)
Definition charge_llm (a a' : RedisAnswers) (st : BudgetState) (r : R) (event_id agent_name model_name : string)
    (prompt_tokens completion_tokens : Z) : BudgetSnapshot * (BudgetState * R) :=
  let force_zero := str_lower (str_strip (bs_llm_mode bs)) ==? "mock" in
  let cost := compute_llm_cost_usd model_name (Z.max 0 prompt_tokens) (Z.max 0 completion_tokens) force_zero in
  let '(st, r) := _apply_llm_charge event_id agent_name (charged_tokens prompt_tokens completion_tokens) cost a st r in
  let '(usage, st) := get_usage a' st r event_id in
  (_snapshot event_id agent_name usage, (st, r)).

Definition charge_tool (a a' : RedisAnswers) (st : BudgetState) (r : R) (event_id agent_name : string) :
    BudgetSnapshot * (BudgetState * R) :=
  let '(st, r) := _apply_tool_charge event_id agent_name a st r in
  let '(usage, st) := get_usage a' st r event_id in
  (_snapshot event_id agent_name usage, (st, r)).

Definition budget_error (message scope event_id agent_name metric : string) (figures : list (string * pyval)) : error :=
  ShadowTraceError_init BudgetExceededError message (Some "budget_exceeded")
    ([("scope", VStr scope); ("event_id", VStr event_id); ("agent_name", VStr agent_name)] ++ figures
     ++ [("metric", VStr metric)]).

Definition agent_tokens (usage : BudgetUsage) (agent_name : string) : Z :=
  (default (0, 0) (us_per_agent usage !! agent_name)).1.

(** [current] and [limit] of a cost are floats and left out of the details. *)
Definition _raise_if_exceeded (event_id agent_name : string) (usage : BudgetUsage) : result unit :=
  let figures current limit := [("current", VInt current); ("limit", VInt limit)] in
  raise_if (event_token_budget bs <? us_event_tokens usage)
    (budget_error "event token budget exceeded" "event" event_id agent_name "tokens"
       (figures (us_event_tokens usage) (event_token_budget bs))) ;;
  raise_if (q_lt (event_cost_budget bs) (Qmake (us_event_cost_usd usage) COST_UNITS))
    (budget_error "event cost budget exceeded" "event" event_id agent_name "cost_usd" []) ;;
  raise_if (per_agent_cap bs <? agent_tokens usage agent_name)
    (budget_error "per-agent token budget exceeded" "agent" event_id agent_name "tokens"
       (figures (agent_tokens usage agent_name) (per_agent_cap bs))) ;;
  raise_if (global_budget bs <? us_system_tokens usage)
    (budget_error "system token budget exceeded" "system" event_id agent_name "tokens"
       (figures (us_system_tokens usage) (global_budget bs))).

Definition budget_check (a : RedisAnswers) (st : BudgetState) (r : R) (event_id agent_name : string) :
    result unit * BudgetState :=
  if negb (bs_enabled bs) then (Ok tt, st)
  else
    let '(usage, st) := get_usage a st r event_id in (_raise_if_exceeded event_id agent_name usage, st).

(** The pin is dropped first, so the event always uses Redis afterwards. *)
Definition reset_event (a : RedisAnswers) (st : BudgetState) (r : R) (event_id : string) : BudgetState * R :=
  let st := {| bt_system_tokens := bt_system_tokens st; bt_events := delete event_id (bt_events st);
               bt_degraded := bt_degraded st; bt_pinned := bt_pinned st ∖ {[event_id]};
               bt_last_probe := bt_last_probe st |} in
  let '(client, st) := budget_redis_client a st in
  if negb client then (st, r)
  else
    let '(answer, r) := over_net (ra_net a) r (tt, rb_delete r (_event_key event_id)) in
    match answer with
    | Ok _ => (st, r)
    | Err _ => (mark_budget_degraded (Some event_id) st, r)
    end.
End budget.
