(* ===== verification/BudgetFacts.v ===== *)
(** * Budgets: what is counted, when it is enforced, and when it is forgotten *)

From stdpp Require Import prelude strings gmap.
From Stdlib Require Import QArith Qround.
From S2P Require Import Prelude Enums Errors Lease BudgetReservation Detection FeatureSnapshots DetectionFacts Budget.
From S2P Require Import ErrorTaxonomy ToolMeta ToolRegistry ToolExecutor.

#[local] Open Scope string_scope.
#[local] Open Scope Z_scope.

(** ** Fields of agents *)

Lemma length_app_str (s t : string) : String.length (s +++ t) = (String.length s + String.length t)%nat.
Proof. induction s as [|c s IH]; [done|]. rewrite string_app_cons. cbn. by rewrite IH. Qed.

Lemma str_take_drop n (t : string) : str_take n t +++ str_drop n t = t.
Proof.
  revert n. induction t as [|c t IH]; intros [|n]; try done. unfold str_take in *. cbn [String.substring str_drop].
  by rewrite string_app_cons, IH.
Qed.

Lemma str_drop_add n m (t : string) : str_drop (n + m) t = str_drop m (str_drop n t).
Proof. revert t. induction n as [|n IH]; intros [|c t]; cbn; [done..|by destruct m|apply IH]. Qed.

Lemma str_take_app (s t : string) : str_take (String.length s) (s +++ t) = s.
Proof. induction s as [|c s IH]; [by destruct t|]. rewrite string_app_cons. unfold str_take in *. cbn. by rewrite IH. Qed.

Lemma between_app p s n : between p s (p +++ n +++ s) = Some n.
Proof.
  unfold between, ends_with. rewrite (prefix_app p (n +++ s) : String.prefix p _ = true). rewrite !length_app_str.
  replace (_ - String.length s)%nat with (String.length p + String.length n)%nat by lia.
  rewrite str_drop_add, !str_drop_app, bool_decide_eq_true_2 by done.
  rewrite (proj2 (Nat.leb_le _ _)) by lia. cbn.
  replace (_ - _ - _)%nat with (String.length n) by lia. by rewrite str_take_app.
Qed.

(** A name that is not empty is found in its own field only. *)
Lemma between_inv p s k n : n ≠ "" → between p s k = Some n → k = p +++ n +++ s.
Proof.
  intros Hn. unfold between, ends_with. destruct (String.prefix p k) eqn:Hp; [|done].
  apply (proj1 (startswith_true k p)) in Hp as [t ->]. cbn [andb].
  rewrite !length_app_str. destruct (Nat.leb _ _); [|done]. cbn. case_bool_decide as Hs; [|done].
  replace (_ + String.length t - _ - _)%nat with (String.length t - String.length s)%nat by lia.
  rewrite str_drop_app. intros [= <-].
  destruct (decide (String.length t ≤ String.length s)%nat).
  { destruct Hn. replace (_ - _)%nat with 0%nat by lia. by destruct t. }
  replace (String.length p + _ - _)%nat with (String.length p + (String.length t - String.length s))%nat in Hs by lia.
  rewrite str_drop_add, str_drop_app in Hs. rewrite <-Hs at 2. by rewrite str_take_drop.
Qed.

Lemma agent_fields_differ g g' : _agent_tokens_field g ≠ _agent_tools_field g'.
Proof.
  intros Heq. assert (ends_with ":tokens" (_agent_tools_field g') = true) as He.
  { rewrite <-Heq. pose proof (between_app "agent:" ":tokens" g) as Hb. unfold between in Hb.
    fold (_agent_tokens_field g) in Hb. by destruct (ends_with ":tokens" (_agent_tokens_field g)), (String.prefix _ _). }
  unfold ends_with in He. apply andb_true_iff in He as [_ He%bool_decide_eq_true].
  unfold _agent_tools_field in He. rewrite !length_app_str in He. cbn [String.length] in He.
  replace (_ - 7)%nat with (6 + String.length g' + 4)%nat in He by lia.
  rewrite str_drop_add, str_drop_add, (str_drop_app "agent:"), str_drop_app in He. done.
Qed.

Lemma agent_entry_tokens m k v g :
  g ≠ "" →
  (default (0, 0) (agent_entry m (k, v) !! g)).1 =
  if k ==? _agent_tokens_field g then v else (default (0, 0) (m !! g)).1.
Proof.
  intros Hg. unfold agent_entry. cbn [fst snd]. destruct (between "agent:" ":tokens" k) as [n|] eqn:Hb.
  - destruct (decide (n = g)) as [->|Hn].
    + apply between_inv in Hb; [|done]. rewrite bool_decide_eq_true_2 by done. by rewrite lookup_insert_eq.
    + rewrite lookup_insert_ne by done. rewrite bool_decide_eq_false_2; [done|].
      intros ->. unfold _agent_tokens_field in Hb. rewrite between_app in Hb. congruence.
  - rewrite bool_decide_eq_false_2 by (intros ->; unfold _agent_tokens_field in Hb; by rewrite between_app in Hb).
    destruct (between "agent:" ":tool_calls" k) as [n|]; [|done].
    destruct (decide (n = g)) as [->|Hn]; [by rewrite lookup_insert_eq|by rewrite lookup_insert_ne].
Qed.

(** What is read for an agent is the value of its field. *)
Lemma per_agent_tokens l g :
  NoDup l.*1 → g ≠ "" →
  (default (0, 0) (foldl agent_entry ∅ l !! g)).1 = default 0 (dict_get l (_agent_tokens_field g)).
Proof.
  intros Hnd Hg.
  assert (∀ m, (default (0, 0) (foldl agent_entry m l !! g)).1 =
               default (default (0, 0) (m !! g)).1 (dict_get l (_agent_tokens_field g))) as Hl.
  { induction l as [|[k v] l IH]; intros m; [done|]. cbn in Hnd. apply NoDup_cons in Hnd as [Hni Hnd].
    cbn [foldl dict_get]. rewrite IH, agent_entry_tokens by done.
    destruct (decide (k = _agent_tokens_field g)) as [->|Hk].
    - rewrite !bool_decide_eq_true_2 by done. cbn. destruct (dict_get l _) eqn:Hd; [|done]. destruct Hni.
      clear -Hd. induction l as [|[k v'] l IH]; [done|]. cbn in *. case_bool_decide; [subst; by left|]. right. by apply IH.
    - rewrite bool_decide_eq_false_2, bool_decide_eq_false_2 by congruence. done. }
  by rewrite Hl, lookup_empty.
Qed.

(** ** Costs *)

Lemma round_even_zero q : (q == 0)%Q → round_even q = 0.
Proof.
  intros Hq. unfold round_even. rewrite (Qfloor_comp _ _ Hq). change (Qfloor 0) with 0.
  destruct (q - inject_Z 0 ?= 1 # 2)%Q eqn:Hc; [done..|]. apply Qgt_alt in Hc. by rewrite Hq in Hc.
Qed.

(** The price table has one model, and it is free: no call has a cost. *)
Lemma cost_is_zero model p c force : compute_llm_cost_usd model p c force = 0.
Proof.
  unfold compute_llm_cost_usd. destruct force; [done|]. cbn. case_bool_decide; [|done].
  apply round_even_zero. ring.
Qed.

(** ** Calls of several workers *)

Inductive bcall : Type :=
| BLlm (event_id agent_name model_name : string) (prompt_tokens completion_tokens : Z)
| BTool (event_id agent_name : string)
| BCheck (event_id agent_name : string).

Section runs.
Context {R : Type} `{RedisBudgetLaws R} (rv : ReservationEnv) (bs : BudgetSettings).

(** One call of one worker, with what Redis answers to its two exchanges. *)
Definition run_call (c : bcall) (a a' : RedisAnswers) (st : BudgetState) (r : R) : BudgetState * R :=
  match c with
  | BLlm e g m p q => (charge_llm rv bs a a' st r e g m p q).2
  | BTool e g => (charge_tool rv bs a a' st r e g).2
  | BCheck e g => ((budget_check rv bs a st r e g).2, r)
  end.

Record BudgetWorld : Type := { bw_workers : list BudgetState; bw_redis : R }.

Definition step : Type := nat * bcall * RedisAnswers * RedisAnswers.

(** A step of a worker that does not exist does nothing. *)
Definition world_step (w : BudgetWorld) (s : step) : BudgetWorld :=
  let '(i, c, a, a') := s in
  match bw_workers w !! i with
  | Some st =>
      let '(st', r') := run_call c a a' st (bw_redis w) in
      {| bw_workers := <[i := st']> (bw_workers w); bw_redis := r' |}
  | None => w
  end.

Definition world_run : BudgetWorld → list step → BudgetWorld := foldl world_step.

(** ** Counting *)

(** A counter kept partly in memory and partly in Redis. *)
Record meter : Type := {
  mt_memory : BudgetState → Z;
  mt_redis : R → Z;
  mt_due : bcall → Z  (* what a call owes it *)
}.

(** The counters it reads, and that each charge adds what it owes, whichever way it goes. *)
Record meter_ok (m : meter) : Prop := {
  meter_flags : ∀ st st', bt_system_tokens st' = bt_system_tokens st → bt_events st' = bt_events st →
    mt_memory m st' = mt_memory m st;
  meter_llm : ∀ e g md p q st cost, 
    mt_memory m (_apply_memory_llm_charge e g (charged_tokens p q) cost st) = mt_memory m st + mt_due m (BLlm e g md p q);
  meter_llm_redis : ∀ e g md p q r cost,
    mt_redis m (rb_exec r (llm_commands e g (charged_tokens p q) cost)) = mt_redis m r + mt_due m (BLlm e g md p q);
  meter_tool : ∀ e g st, mt_memory m (_apply_memory_tool_charge e g st) = mt_memory m st + mt_due m (BTool e g);
  meter_tool_redis : ∀ e g r, mt_redis m (rb_exec r (tool_commands e g)) = mt_redis m r + mt_due m (BTool e g);
  meter_check : ∀ e g, mt_due m (BCheck e g) = 0;
  meter_pos : ∀ c, 0 ≤ mt_due m c
}.

Definition reply_lost (a : RedisAnswers) : bool := match ra_net a with lost_after _ => true | _ => false end.

(** The operations on the flags leave the counters alone. *)
Definition same_counters (st st' : BudgetState) : Prop :=
  bt_system_tokens st' = bt_system_tokens st ∧ bt_events st' = bt_events st.

#[local] Instance same_counters_preorder : PreOrder same_counters.
Proof. split; [by intros ?|]. intros ??? [??] [??]. split; congruence. Qed.

Lemma recovery_counters a st : same_counters st (budget_recovery rv a st).
Proof.
  unfold budget_recovery. destruct (_ || _); [done|]. destruct (_ <? _); [done|].
  destruct (ra_probe_ping a) as [[|]|e]; [|done..]. by destruct (ra_probe_get a).
Qed.

Lemma client_counters a st : same_counters st (budget_redis_client rv a st).2.
Proof.
  unfold budget_redis_client. destruct (negb _); [done|]. destruct (ra_ping a) as [[|]|e]; [|done..].
  set (st1 := if bt_degraded st then budget_recovery rv a st else st).
  assert (same_counters st st1) as Hs by (unfold st1; destruct (bt_degraded st); [apply recovery_counters|done]).
  clearbody st1. destruct (bt_degraded st1); [done|]. by destruct (ra_client a).
Qed.

Lemma get_usage_counters a st (r : R) e : same_counters st (get_usage rv a st r e).2.
Proof.
  unfold get_usage, _read_redis_usage. destruct (_uses_redis_for_event st e); [|done]. cbn.
  pose proof (client_counters a st) as Hc. destruct (budget_redis_client rv a st) as [[] st1]; [|done]. cbn in *.
  by destruct (ra_net a).
Qed.

Section meter.
Context (m : meter) (Hm : meter_ok m).

Lemma apply_charge_counted e cmds f d a st r st' r' :
  (∀ st, mt_memory m (f st) = mt_memory m st + d) → (mt_redis m (rb_exec r cmds) = mt_redis m r + d) → 0 ≤ d →
  apply_charge rv e cmds f a st r = (st', r') →
  let before := mt_memory m st + mt_redis m r in
  let after := mt_memory m st' + mt_redis m r' in
  before + d ≤ after ≤ before + d + (if reply_lost a then d else 0).
Proof.
  intros Hf Hr Hd. unfold apply_charge.
  pose proof (client_counters a st) as [H1 H2]. destruct (budget_redis_client rv a st) as [client st1]. cbn in H1, H2.
  assert (mt_memory m st1 = mt_memory m st) as Hst by (by apply (meter_flags m Hm)).
  destruct (negb client || _).
  { intros [= <- <-]. cbn zeta. rewrite Hf.
    rewrite (meter_flags m Hm st1 (_ensure_event_pinned_for_degraded_fallback e st1))
      by (unfold _ensure_event_pinned_for_degraded_fallback; by destruct (bt_degraded st1)).
    destruct (reply_lost a); lia. }
  unfold reply_lost. destruct (ra_net a) as [| |x|x]; cbn; intros [= <- <-]; cbn zeta; rewrite ?Hf; try lia.
  - rewrite (meter_flags m Hm st1 (mark_budget_degraded (Some e) st1)) by done. lia.
  - rewrite (meter_flags m Hm st1 (mark_budget_degraded (Some e) st1)) by done. lia.
Qed.

Lemma run_call_counted c a a' st r st' r' :
  run_call c a a' st r = (st', r') →
  let before := mt_memory m st + mt_redis m r in
  let after := mt_memory m st' + mt_redis m r' in
  before + mt_due m c ≤ after ≤ before + mt_due m c + (if reply_lost a then mt_due m c else 0).
Proof.
  destruct c as [e g md p q|e g|e g]; cbn [run_call].
  - unfold charge_llm, _apply_llm_charge. destruct (apply_charge _ _ _ _ _ _ _) as [st1 r1] eqn:Ha.
    pose proof (get_usage_counters a' st1 r1 e) as [H1 H2]. destruct (get_usage rv a' st1 r1 e) as [u st2].
    cbn in H1, H2 |- *. intros [= <- <-]. rewrite (meter_flags m Hm st1 st2) by done.
    refine (apply_charge_counted _ _ _ (mt_due m (BLlm e g md p q)) _ _ _ _ _ _ _ _ Ha).
    + intros. apply (meter_llm m Hm).
    + apply (meter_llm_redis m Hm).
    + apply (meter_pos m Hm).
  - unfold charge_tool, _apply_tool_charge. destruct (apply_charge _ _ _ _ _ _ _) as [st1 r1] eqn:Ha.
    pose proof (get_usage_counters a' st1 r1 e) as [H1 H2]. destruct (get_usage rv a' st1 r1 e) as [u st2].
    cbn in H1, H2 |- *. intros [= <- <-]. rewrite (meter_flags m Hm st1 st2) by done.
    refine (apply_charge_counted _ _ _ (mt_due m (BTool e g)) _ _ _ _ _ _ _ _ Ha).
    + intros. apply (meter_tool m Hm).
    + apply (meter_tool_redis m Hm).
    + apply (meter_pos m Hm).
  - intros [= <- <-]. rewrite (meter_check m Hm). unfold budget_check. destruct (negb _); [cbn; destruct (reply_lost a); lia|].
    pose proof (get_usage_counters a st r e) as [H1 H2]. destruct (get_usage rv a st r e) as [u st2].
    cbn in H1, H2 |- *. rewrite (meter_flags m Hm st st2) by done. destruct (reply_lost a); lia.
Qed.

(** Everything counted anywhere. *)
Definition counted_in (w : BudgetWorld) : Z := total (mt_memory m) (bw_workers w) + mt_redis m (bw_redis w).

Definition step_due (s : step) : Z := mt_due m s.1.1.2.
Definition step_twice (s : step) : Z := if reply_lost s.1.2 then mt_due m s.1.1.2 else 0.
Definition executes (w : BudgetWorld) (s : step) : Prop := (s.1.1.1 < length (bw_workers w))%nat.

Lemma total_insert (f : BudgetState → Z) l i x y : l !! i = Some x → total f (<[i := y]> l) = total f l - f x + f y.
Proof.
  revert i. induction l as [|z l IH]; intros [|i]; cbn; try done; [intros [= ->]; lia|].
  intros Hi. change (total f (z :: <[i := y]> l) = total f (z :: l) - f x + f y). cbn.
  specialize (IH i Hi). unfold total in IH. lia.
Qed.

Lemma world_step_counted w s :
  executes w s →
  length (bw_workers (world_step w s)) = length (bw_workers w) ∧
  counted_in w + step_due s ≤ counted_in (world_step w s) ≤ counted_in w + step_due s + step_twice s.
Proof.
  destruct s as [[[i c] a] a']. unfold executes, world_step, counted_in, step_due, step_twice. cbn [fst snd].
  intros [st Hst]%lookup_lt_is_Some. rewrite Hst.
  destruct (run_call c a a' st (bw_redis w)) as [st' r'] eqn:Hrun. cbn [bw_workers bw_redis]. rewrite length_insert. split; [done|].
  apply run_call_counted in Hrun. cbn zeta in Hrun. rewrite (total_insert _ _ _ _ _ Hst). lia.
Qed.

(** Whatever the workers do and Redis answers or loses, nothing charged is lost, and only a charge
    whose reply was lost is counted twice. *)
Lemma run_counted w l :
  Forall (executes w) l →
  counted_in w + total step_due l ≤ counted_in (world_run w l)
    ≤ counted_in w + total step_due l + total step_twice l.
Proof.
  revert w. induction l as [|s l IH]; intros w Hl; cbn; [lia|]. apply Forall_cons in Hl as [Hs Hl].
  destruct (world_step_counted w s Hs) as [Hlen Hc].
  destruct (IH (world_step w s)) as [H1 H2]; [by (unfold executes in *; rewrite Hlen)|].
  unfold total, world_run in *. lia.
Qed.
End meter.

(** ** The counters of the service *)

Inductive which : Type :=
| EventTokens (event_id : string)
| AgentTokens (event_id agent_name : string)
| EventToolCalls (event_id : string)
| SystemTokens.

Definition meter_of (x : which) : meter :=
  match x with
  | EventTokens e => {|
      mt_memory := λ st, ec_tokens (counters st e);
      mt_redis := λ r, hget r (_event_key e) "tokens";
      mt_due := λ c, match c with BLlm e' _ _ p q => if e' ==? e then charged_tokens p q else 0 | _ => 0 end |}
  | AgentTokens e g => {|
      mt_memory := λ st, default 0 (ec_per_agent_tokens (counters st e) !! g);
      mt_redis := λ r, hget r (_event_key e) (_agent_tokens_field g);
      mt_due := λ c, match c with
                     | BLlm e' g' _ p q => if (e' ==? e) && (g' ==? g) then charged_tokens p q else 0
                     | _ => 0
                     end |}
  | EventToolCalls e => {|
      mt_memory := λ st, ec_tool_calls (counters st e);
      mt_redis := λ r, hget r (_event_key e) "tool_calls";
      mt_due := λ c, match c with BTool e' _ => if e' ==? e then 1 else 0 | _ => 0 end |}
  | SystemTokens => {|
      mt_memory := bt_system_tokens;
      mt_redis := λ r, rb_get r SYSTEM_BUDGET_KEY;
      mt_due := λ c, match c with BLlm _ _ _ p q => charged_tokens p q | _ => 0 end |}
  end.

Lemma charged_pos p q : 0 ≤ charged_tokens p q.
Proof. unfold charged_tokens. lia. Qed.

Lemma event_key_inj e e' : (_event_key e ==? _event_key e') = (e ==? e').
Proof.
  unfold _event_key. apply bool_decide_ext. split; [|congruence]. intros Heq.
  apply (f_equal (str_drop (String.length EVENT_BUDGET_KEY_PREFIX))) in Heq. by rewrite !str_drop_app in Heq.
Qed.

Lemma agent_field_inj g g' : (_agent_tokens_field g ==? _agent_tokens_field g') = (g ==? g').
Proof.
  apply bool_decide_ext. split; [|congruence]. intros Heq. unfold _agent_tokens_field in Heq.
  apply (f_equal (between "agent:" ":tokens")) in Heq. rewrite !between_app in Heq. congruence.
Qed.

Lemma memory_llm_counters e g tokens cost st e' :
  counters (_apply_memory_llm_charge e g tokens cost st) e' =
  if e ==? e' then
    {| ec_tokens := ec_tokens (counters st e) + tokens; ec_cost_usd := ec_cost_usd (counters st e) + cost;
       ec_tool_calls := ec_tool_calls (counters st e);
       ec_per_agent_tokens := add_to (ec_per_agent_tokens (counters st e)) g tokens;
       ec_per_agent_tool_calls := ec_per_agent_tool_calls (counters st e) |}
  else counters st e'.
Proof.
  unfold counters at 1, _apply_memory_llm_charge. cbn [bt_events]. case_bool_decide as He.
  - subst e'. by rewrite lookup_insert_eq.
  - by rewrite lookup_insert_ne.
Qed.

Lemma memory_tool_counters e g st e' :
  counters (_apply_memory_tool_charge e g st) e' =
  if e ==? e' then
    {| ec_tokens := ec_tokens (counters st e); ec_cost_usd := ec_cost_usd (counters st e);
       ec_tool_calls := ec_tool_calls (counters st e) + 1;
       ec_per_agent_tokens := ec_per_agent_tokens (counters st e);
       ec_per_agent_tool_calls := add_to (ec_per_agent_tool_calls (counters st e)) g 1 |}
  else counters st e'.
Proof.
  unfold counters at 1, _apply_memory_tool_charge. cbn [bt_events]. case_bool_decide as He.
  - subst e'. by rewrite lookup_insert_eq.
  - by rewrite lookup_insert_ne.
Qed.

Lemma add_to_get m k n k' : default 0 (add_to m k n !! k') = default 0 (m !! k') + (if k ==? k' then n else 0).
Proof.
  unfold add_to. case_bool_decide as Hk; [subst; by rewrite lookup_insert_eq|].
  rewrite lookup_insert_ne by done. lia.
Qed.

(** What the transaction of an LLM charge adds to a field. *)
Lemma llm_adds e g tokens cost e' f :
  total (adds_to_field (_event_key e') f) (llm_commands e g tokens cost) =
  if e ==? e' then
    (if "tokens" ==? f then tokens else 0) + (if "cost_usd" ==? f then cost else 0)
    + (if _agent_tokens_field g ==? f then tokens else 0)
  else 0.
Proof.
  unfold llm_commands, total. destruct (Z.eqb_spec cost 0) as [->|]; cbn [app foldr adds_to_field];
    rewrite !event_key_inj; case_bool_decide; cbn [andb]; try lia.
  repeat case_bool_decide; lia.
Qed.

Lemma tool_adds e g e' f :
  total (adds_to_field (_event_key e') f) (tool_commands e g) =
  if e ==? e' then (if "tool_calls" ==? f then 1 else 0) + (if _agent_tools_field g ==? f then 1 else 0) else 0.
Proof.
  unfold tool_commands, total. cbn [app foldr adds_to_field]. rewrite !event_key_inj. case_bool_decide; cbn [andb]; lia.
Qed.

Lemma llm_system e g tokens cost : total (adds_to_key SYSTEM_BUDGET_KEY) (llm_commands e g tokens cost) = tokens.
Proof.
  unfold llm_commands, total. destruct (cost =? 0); cbn [app foldr adds_to_key]; rewrite bool_decide_eq_true_2 by done; lia.
Qed.

Lemma meter_of_ok x : meter_ok (meter_of x).
Proof.
  destruct x as [e|e g|e|]; split; cbn [meter_of mt_memory mt_redis mt_due]; intros.
  all: rewrite ?memory_llm_counters, ?memory_tool_counters, ?exec_hget, ?exec_get, ?llm_adds, ?tool_adds, ?llm_system.
  all: try (unfold counters in *; congruence); try done.
  all: try (destruct c; repeat case_match; auto using charged_pos with lia; try lia; apply charged_pos).
  all: rewrite ?agent_field_inj; repeat case_bool_decide; simplify_eq; cbn [ec_tokens ec_tool_calls ec_per_agent_tokens].
  all: try (by unfold _agent_tokens_field, _agent_tools_field in *; discriminate).
  all: try (by exfalso; eapply agent_fields_differ).
  all: rewrite ?add_to_get; repeat case_bool_decide; simplify_eq; cbn [andb]; try lia.
  unfold _apply_memory_tool_charge. cbn. lia.
Qed.

(** C29. No charge is lost.  Whatever the workers charge and check, in any order, and whatever Redis
    answers, refuses or loses: what the processes and Redis together hold of any counter, the tokens
    of an event, of an agent of it, its tool calls or the system's tokens, grows by at least what was
    charged, and by at most that plus the charges whose reply was lost, which may be counted a second
    time; when no reply is lost it grows by exactly what was charged.  A run holds charges and checks:
    [reset_event], which drops the counters of an event, stands between runs. *)
Theorem charges_are_counted x w l :
  Forall (executes w) l →
  let due := total (step_due (meter_of x)) l in
  let grown := counted_in (meter_of x) (world_run w l) - counted_in (meter_of x) w in
  due ≤ grown ≤ due + total (step_twice (meter_of x)) l ∧
  (Forall (λ s, reply_lost s.1.2 = false) l → grown = due).
Proof.
  intros Hl. pose proof (run_counted (meter_of x) (meter_of_ok x) w l Hl) as Hc. cbn zeta.
  split; [lia|]. intros Hn.
  assert (total (step_twice (meter_of x)) l = 0) as Hz; [|lia].
  clear -Hn. induction Hn as [|s l Hs _ IH]; [done|]. unfold total, step_twice in *. cbn.
  by rewrite Hs, IH.
Qed.

(** ** While Redis answers *)

Definition reliable (a : RedisAnswers) : Prop := ra_ping a = Ok true ∧ ra_client a = true ∧ ra_net a = connected.

(** A worker that never saw an outage. *)
Definition undegraded (st : BudgetState) : Prop := bt_degraded st = false ∧ bt_pinned st = ∅ ∧ bt_system_tokens st = 0.

Lemma undegraded_uses st e : undegraded st → _uses_redis_for_event st e = true.
Proof. intros (_ & Hp & _). unfold _uses_redis_for_event. rewrite Hp. by rewrite bool_decide_eq_false_2 by set_solver. Qed.

Lemma reliable_client a st : rv_has_redis rv = true → reliable a → undegraded st → budget_redis_client rv a st = (true, st).
Proof. intros Hr (Hp & Hc & _) (Hd & _). unfold budget_redis_client. by rewrite Hr, Hp, Hd, Hd, Hc. Qed.

Lemma reliable_charge e cmds f a st (r : R) :
  rv_has_redis rv = true → reliable a → undegraded st → apply_charge rv e cmds f a st r = (st, rb_exec r cmds).
Proof.
  intros Hr Ha Hst. unfold apply_charge. rewrite reliable_client, undegraded_uses by done. cbn.
  destruct Ha as (_ & _ & ->). done.
Qed.

(** The usage read from Redis. *)
Definition redis_usage (r : R) (e : string) : BudgetUsage := {|
  us_event_tokens := hget r (_event_key e) "tokens";
  us_event_cost_usd := hget r (_event_key e) "cost_usd";
  us_tool_calls := hget r (_event_key e) "tool_calls";
  us_per_agent := foldl agent_entry ∅ (rb_hgetall r (_event_key e));
  us_system_tokens := rb_get r SYSTEM_BUDGET_KEY
|}.

Lemma reliable_usage a st (r : R) e :
  rv_has_redis rv = true → reliable a → undegraded st → get_usage rv a st r e = (redis_usage r e, st).
Proof.
  intros Hr Ha Hst. unfold get_usage, _read_redis_usage. rewrite undegraded_uses by done. cbn.
  rewrite reliable_client by done. cbn. destruct Ha as (_ & _ & ->). unfold redis_usage.
  destruct Hst as (_ & _ & ->). by rewrite Z.add_0_r.
Qed.

Definition reliable_step (s : step) : Prop := reliable s.1.2 ∧ reliable s.2.

(** Reliable calls leave the workers as they are: everything is in Redis. *)
Lemma reliable_run_workers w l :
  rv_has_redis rv = true → Forall undegraded (bw_workers w) → Forall reliable_step l →
  bw_workers (world_run w l) = bw_workers w.
Proof.
  intros Hr. revert w. induction l as [|[[[i c] a] a'] l IH]; intros w Hw Hl; [done|].
  apply Forall_cons in Hl as [[Ha Ha'] Hl]. cbn in Ha, Ha'.
  change (world_run w ((i, c, a, a') :: l)) with (world_run (world_step w (i, c, a, a')) l).
  assert (bw_workers (world_step w (i, c, a, a')) = bw_workers w) as Hs.
  { unfold world_step. destruct (bw_workers w !! i) as [st|] eqn:Hi; [|done].
    assert (undegraded st) as Hst by (by eapply Forall_lookup_1 in Hw).
    assert ((run_call c a a' st (bw_redis w)).1 = st) as Hrun.
    { destruct c as [e g md p q|e g|e g]; cbn [run_call].
      - unfold charge_llm, _apply_llm_charge. by rewrite reliable_charge, reliable_usage.
      - unfold charge_tool, _apply_tool_charge. by rewrite reliable_charge, reliable_usage.
      - unfold budget_check. destruct (negb _); [done|]. by rewrite reliable_usage. }
    destruct (run_call c a a' st (bw_redis w)) as [st' r']. cbn in *. subst st'. by rewrite list_insert_id. }
  rewrite IH; [done|by rewrite Hs|done].
Qed.

Lemma reliable_not_twice m l : Forall reliable_step l → total (step_twice m) l = 0.
Proof.
  induction 1 as [|[[[i c] a] a'] l [(_ & _ & Ha) _] _ IH]; [done|]. unfold total in *. cbn. rewrite IH.
  unfold step_twice, reply_lost. cbn in *. by rewrite Ha.
Qed.

(** The tokens charged by a run. *)
Definition charged (x : which) (l : list step) : Z := total (step_due (meter_of x)) l.

Definition idle (w : BudgetWorld) : Prop :=
  Forall (λ st, undegraded st ∧ bt_events st = ∅) (bw_workers w) ∧
  (∀ e f, hget (bw_redis w) (_event_key e) f = 0) ∧ rb_get (bw_redis w) SYSTEM_BUDGET_KEY = 0.

Lemma reliable_redis_value x w l :
  rv_has_redis rv = true → idle w → Forall (executes w) l → Forall reliable_step l →
  mt_redis (meter_of x) (bw_redis (world_run w l)) = charged x l.
Proof.
  intros Hr (Hw & Hz & Hs) Hx Hl.
  assert (Forall undegraded (bw_workers w)) as Hw' by (eapply Forall_impl; [exact Hw|naive_solver]).
  pose proof (run_counted (meter_of x) (meter_of_ok x) w l Hx) as Hc.
  rewrite (reliable_not_twice _ _ Hl) in Hc. unfold counted_in, charged in *.
  rewrite (reliable_run_workers w l Hr Hw' Hl) in Hc.
  assert (total (mt_memory (meter_of x)) (bw_workers w) = 0) as Hm.
  { clear -Hw. induction Hw as [|st ws [(_ & _ & Hst) He] _ IH]; [done|]. unfold total in *. cbn. rewrite IH.
    destruct x; cbn; unfold counters; rewrite ?He, ?lookup_empty; cbn; rewrite ?lookup_empty; cbn; lia. }
  assert (mt_redis (meter_of x) (bw_redis w) = 0) as Hz' by (destruct x; cbn; auto). lia.
Qed.

Lemma reliable_cost w l e :
  rv_has_redis rv = true → Forall undegraded (bw_workers w) → Forall reliable_step l →
  hget (bw_redis w) (_event_key e) "cost_usd" = 0 → hget (bw_redis (world_run w l)) (_event_key e) "cost_usd" = 0.
Proof.
  intros Hr. revert w. induction l as [|[[[i c] a] a'] l IH]; intros w Hw Hl Hz; [done|].
  pose proof (reliable_run_workers w [(i, c, a, a')] Hr Hw) as Hs.
  apply Forall_cons in Hl as [Ha Hl]. specialize (Hs (Forall_cons_2 _ _ _ Ha (Forall_nil_2 _))).
  change (world_run w [(i, c, a, a')]) with (world_step w (i, c, a, a')) in Hs.
  change (world_run w ((i, c, a, a') :: l)) with (world_run (world_step w (i, c, a, a')) l).
  apply IH; [by rewrite Hs|done|].
  destruct Ha as [Ha Ha']. cbn in Ha, Ha'. unfold world_step.
  destruct (bw_workers w !! i) as [st|] eqn:Hi; [|done]. assert (undegraded st) by (by eapply Forall_lookup_1 in Hw).
  destruct c as [e' g md p q|e' g|e' g]; cbn [run_call].
  - unfold charge_llm, _apply_llm_charge. rewrite reliable_charge, reliable_usage by done. cbn [fst snd bw_redis].
    rewrite exec_hget, llm_adds, cost_is_zero, Hz. repeat case_bool_decide; try done.
  - unfold charge_tool, _apply_tool_charge. rewrite reliable_charge, reliable_usage by done. cbn [fst snd bw_redis].
    rewrite exec_hget, tool_adds, Hz. repeat case_bool_decide; done.
  - done.
Qed.

Lemma zero_cost_le q : (0 <= q)%Q → (Qmake 0 COST_UNITS <= q)%Q.
Proof. apply Qle_trans. done. Qed.

(** While Redis answers, the budgets are enforced across all workers: after any calls of any
    workers, a check passes exactly when what was charged for the event, for the agent and in all is
    within the limits.  (The cost limit never bites: the price table knows one model, which is
    free.) *)
Theorem budget_enforced w l a st e g :
  rv_has_redis rv = true → bs_enabled bs = true → (0 <= event_cost_budget bs)%Q → g ≠ "" →
  idle w → Forall (executes w) l → Forall reliable_step l → reliable a → undegraded st →
  (budget_check rv bs a st (bw_redis (world_run w l)) e g).1 = Ok tt ↔
  charged (EventTokens e) l ≤ event_token_budget bs ∧ charged (AgentTokens e g) l ≤ per_agent_cap bs ∧
  charged SystemTokens l ≤ global_budget bs.
Proof.
  intros Hr Hen Hcost Hg Hw Hx Hl Ha Hst. unfold budget_check. rewrite Hen, reliable_usage by done. cbn [negb fst].
  pose proof (reliable_redis_value (EventTokens e) w l Hr Hw Hx Hl) as He.
  pose proof (reliable_redis_value (AgentTokens e g) w l Hr Hw Hx Hl) as Hag.
  pose proof (reliable_redis_value SystemTokens w l Hr Hw Hx Hl) as Hs. cbn [meter_of mt_redis] in He, Hag, Hs.
  assert (hget (bw_redis (world_run w l)) (_event_key e) "cost_usd" = 0) as Hc.
  { apply reliable_cost; [done| |done|apply Hw]. eapply Forall_impl; [apply Hw|naive_solver]. }
  unfold _raise_if_exceeded, agent_tokens. rewrite !raise_if_seq_Ok, raise_if_Ok, !Z.ltb_ge, q_lt_false.
  unfold redis_usage. cbn [us_event_tokens us_event_cost_usd us_per_agent us_system_tokens].
  rewrite per_agent_tokens by (done || apply hgetall_nodup). unfold hget in Hag. rewrite He, Hag, Hs, Hc.
  pose proof (zero_cost_le _ Hcost). naive_solver.
Qed.

(** ** When Redis does not *)

Definition outage (a : RedisAnswers) : Prop := ra_ping a ≠ Ok true.

Lemma outage_client a st : rv_has_redis rv = true → outage a → budget_redis_client rv a st = (false, mark_budget_degraded None st).
Proof. intros Hr Ha. unfold budget_redis_client, outage in *. rewrite Hr. by destruct (ra_ping a) as [[]|]. Qed.

(** A check against memory. *)
Lemma memory_check_passes st e g :
  (0 <= event_cost_budget bs)%Q → ec_tokens (counters st e) ≤ event_token_budget bs →
  ec_cost_usd (counters st e) = 0 →
  default 0 (ec_per_agent_tokens (counters st e) !! g) ≤ per_agent_cap bs → 0 ≤ per_agent_cap bs →
  bt_system_tokens st ≤ global_budget bs →
  _raise_if_exceeded bs e g (_read_memory_usage st e) = Ok tt.
Proof.
  intros Hcost He Hc Hg H0' Hs. unfold _raise_if_exceeded, agent_tokens, _read_memory_usage.
  cbn [us_event_tokens us_event_cost_usd us_per_agent us_system_tokens]. rewrite Hc.
  rewrite !raise_if_seq_Ok, raise_if_Ok, !Z.ltb_ge, q_lt_false, lookup_merge.
  split_and!; [done|by apply zero_cost_le| |done].
  destruct (ec_per_agent_tokens (counters st e) !! g), (ec_per_agent_tool_calls (counters st e) !! g); cbn in *; lia.
Qed.

(** An outage forgets what was spent.  A worker that did not count the event itself passes every
    check while Redis is away, whatever the counters in Redis say; and one charge during the outage
    pins the event to its memory, so that its checks keep passing after Redis is back, until the
    tokens charged since the outage alone exceed a limit. *)
Theorem outage_forgets_usage a a1 a2 st (r : R) e g md p q :
  rv_has_redis rv = true → bs_enabled bs = true → (0 <= event_cost_budget bs)%Q → e ≠ "" →
  undegraded st → bt_events st = ∅ → outage a → outage a1 →
  charged_tokens p q ≤ event_token_budget bs → charged_tokens p q ≤ per_agent_cap bs →
  charged_tokens p q ≤ global_budget bs →
  (budget_check rv bs a st r e g).1 = Ok tt ∧
  let '(st', r') := (charge_llm rv bs a1 a2 st r e g md p q).2 in
  r' = r ∧ ∀ a3, (budget_check rv bs a3 st' r' e g).1 = Ok tt.
Proof.
  intros Hr Hen Hcost He Hst Hev Ha Ha1 H1 H2 H3. pose proof (charged_pos p q) as Hpos. split.
  - unfold budget_check, get_usage, _read_redis_usage. rewrite Hen, undegraded_uses, outage_client by done. cbn [negb].
    apply memory_check_passes; [done|..]; destruct Hst as (_ & _ & Hsys); unfold counters; cbn;
      rewrite ?Hev, ?lookup_empty, ?Hsys; cbn; rewrite ?lookup_empty; cbn; lia.
  - unfold charge_llm, _apply_llm_charge, apply_charge. cbn zeta. rewrite cost_is_zero, outage_client by done. cbn [negb orb].
    set (st' := _apply_memory_llm_charge _ _ _ _ _).
    assert (_uses_redis_for_event st' e = false) as Hpin.
    { unfold st', _uses_redis_for_event. cbn. rewrite (bool_decide_eq_false_2 (e = "")) by done.
      by rewrite bool_decide_eq_true_2 by set_solver. }
    unfold get_usage at 1. rewrite Hpin. cbn [snd]. split; [done|]. intros a3.
    unfold budget_check, get_usage. rewrite Hen, Hpin. cbn [negb].
    destruct Hst as (_ & _ & Hsys).
    apply memory_check_passes; [done|unfold st'..]; rewrite ?memory_llm_counters, ?bool_decide_eq_true_2 by done;
      unfold counters; cbn; rewrite ?Hev, ?lookup_empty, ?Hsys; cbn; rewrite ?add_to_get, ?lookup_empty,
      ?bool_decide_eq_true_2 by done; cbn; lia.
Qed.
End runs.

(** ** The tool executor under a budget *)

(** What the executor is told of a check. *)
Definition check_answer (out : result unit) : option exc :=
  match out with Ok _ => None | Err e => Some (exc_of_error e) end.

Section executor.
Context {R : Type} `{RedisBudgetLaws R} (rv : ReservationEnv) (bs : BudgetSettings).
Context {G J : Type} `{GuardPort G} `{JobStore J}.

(** C30. A spent budget stops the tools: while Redis answers, once the tokens charged by all workers for
    an event, for one of its agents or in all exceed a limit, no tool call of that agent for the event
    is dispatched by any worker; it raises and changes nothing. *)
Theorem spent_budget_stops_tools (w : BudgetWorld (R:=R)) l a st e g (ce : CallEnv) args (x : XWorld (G:=G) (J:=J)) b :
  rv_has_redis rv = true → bs_enabled bs = true → (0 <= event_cost_budget bs)%Q → g ≠ "" →
  idle w → Forall (executes w) l → Forall reliable_step l → reliable a → undegraded st →
  (event_token_budget bs < charged (R:=R) (EventTokens e) l ∨ per_agent_cap bs < charged (R:=R) (AgentTokens e g) l ∨
   global_budget bs < charged (R:=R) SystemTokens l) →
  ce_budget ce = Some b →
  bu_check b = check_answer (budget_check rv bs a st (bw_redis (world_run rv bs w l)) e g).1 →
  ∃ err, executor_call ce args x = (x_raised err, x).
Proof.
  intros Hr Hen Hcost Hg Hw Hx Hl Ha Hst Hover Hb Hcheck.
  pose proof (budget_enforced rv bs w l a st e g Hr Hen Hcost Hg Hw Hx Hl Ha Hst) as Hiff.
  assert (∃ y, bu_check b = Some y) as [y Hy].
  { rewrite Hcheck. destruct (budget_check _ _ _ _ _ _ _).1 as [[]|e0]; [|by eexists].
    destruct (proj1 Hiff eq_refl) as (? & ? & ?). lia. }
  unfold executor_call. destruct (get_tool _ _) as [reg|e0]; [|by eexists].
  case_bool_decide; [by eexists|]. rewrite Hb, Hy.
  case_match; by eexists.
Qed.
End executor.
