(* ===== verification/Llm.v ===== *)
(** * The LLM client (core/llm/base.py)

    Every agent talks to its model through [chat]: the messages are fitted to the input limit, and the
    configured models are tried in order.  For each model a request is repeated when its answer is
    empty or cut off, and repaired once when it is no valid JSON.  Every attempt first asks the
    convergence guard, then the budget; it is charged when its answer could be used, and leaves one row
    in the audit log.

    The provider behind [_request], the JSON decoder (core/llm/json_extract.py up to the decoded
    object), pydantic's validation and the redaction of texts are arguments.  The budget is behind an
    interface.  The details of an error are left out, and a task is cancelled only while it waits for
    the provider. *)

From stdpp Require Import prelude strings gmap.
From Stdlib Require Import QArith Lia.
From S2P Require Import Prelude Enums Errors ErrorTaxonomy ConvergenceGuard.

#[local] Open Scope string_scope.
#[local] Open Scope Z_scope.
#[local] Open Scope list_scope.

(** ** Messages and responses *)

Inductive Role : Type := system | user | assistant | tool.

#[global] Instance Role_eq_dec : EqDecision Role.
Proof. solve_decision. Defined.

Record LLMMessage : Type := {
  lm_role : Role;
  lm_content : string;
  lm_name : option string
}.

Definition message (role : Role) (content : string) : LLMMessage :=
  {| lm_role := role; lm_content := content; lm_name := None |}.

Definition with_content (content : string) (m : LLMMessage) : LLMMessage :=
  {| lm_role := lm_role m; lm_content := content; lm_name := lm_name m |}.

Record ProviderResponse : Type := {
  pr_content : string;
  pr_model_name : string;
  pr_prompt_tokens : Z;
  pr_completion_tokens : Z;
  pr_total_tokens : Z;
  pr_finish_reason : option string
}.

(** [raw.total_tokens or raw.prompt_tokens + raw.completion_tokens] *)
Definition total_tokens_of (r : ProviderResponse) : Z :=
  if pr_total_tokens r =? 0 then pr_prompt_tokens r + pr_completion_tokens r else pr_total_tokens r.

Record LLMResponse (A : Type) : Type := {
  lr_content : string;
  lr_parsed : option A;
  lr_model_name : string;
  lr_prompt_tokens : Z;
  lr_completion_tokens : Z;
  lr_total_tokens : Z;
  lr_fallback_level : Z;
  lr_degraded_reason : option string
}.
Arguments lr_content {_}. Arguments lr_parsed {_}. Arguments lr_model_name {_}. Arguments lr_prompt_tokens {_}.
Arguments lr_completion_tokens {_}. Arguments lr_total_tokens {_}. Arguments lr_fallback_level {_}.
Arguments lr_degraded_reason {_}.

(** ** Errors *)

Definition LLM_CALL_ERROR_CLASSES : list string :=
  ["empty_content"; "invalid_json"; "schema_validation"; "timeout"; "auth"; "rate_limit"; "provider";
   "config"; "audit"; "budget"; "unknown"].

Inductive LlmErrorClass : Type :=
| LLMError | LLMTimeoutError | LLMAuthError | LLMRateLimitedError | LLMInvalidJSONError
| LLMProviderError | LLMAuditError.

#[global] Instance LlmErrorClass_eq_dec : EqDecision LlmErrorClass.
Proof. solve_decision. Defined.

Definition class_name (c : LlmErrorClass) : string :=
  match c with
  | LLMError => "LLMError" | LLMTimeoutError => "LLMTimeoutError" | LLMAuthError => "LLMAuthError"
  | LLMRateLimitedError => "LLMRateLimitedError" | LLMInvalidJSONError => "LLMInvalidJSONError"
  | LLMProviderError => "LLMProviderError" | LLMAuditError => "LLMAuditError"
  end.

Definition default_error_code (c : LlmErrorClass) : string :=
  match c with
  | LLMError => "llm_error" | LLMTimeoutError => "llm_timeout" | LLMAuthError => "llm_auth_error"
  | LLMRateLimitedError => "llm_rate_limited" | LLMInvalidJSONError => "llm_invalid_json"
  | LLMProviderError => "llm_provider_error" | LLMAuditError => "llm_audit_error"
  end.

Definition default_retryable (c : LlmErrorClass) : bool :=
  match c with LLMError | LLMRateLimitedError | LLMProviderError => true | _ => false end.

Record InvalidOutput : Type := {
  io_invalid_content : string;
  io_validation_error : string;
  io_error_class : string;
  io_finish_reason : option string
}.

(** An [LLMError]; the last field is set for [LLMInvalidJSONError]. *)
Record LlmFailure : Type := {
  lf_class : LlmErrorClass;
  lf_message : string;
  lf_error_code : string;
  lf_retryable : bool;
  lf_invalid : option InvalidOutput
}.

Definition LLMError_init (c : LlmErrorClass) (message : string) (retryable : option bool) : LlmFailure :=
  let code := default_error_code c in
  {| lf_class := c; lf_message := message; lf_error_code := code;
     lf_retryable := default (_retryable_for_code code (default_retryable c)) retryable; lf_invalid := None |}.

Definition LLMInvalidJSONError_init (message invalid_content validation_error error_class : string)
    (finish_reason : option string) : LlmFailure :=
  {| lf_class := LLMInvalidJSONError; lf_message := message; lf_error_code := "llm_invalid_json";
     lf_retryable := _retryable_for_code "llm_invalid_json" false;
     lf_invalid := Some {| io_invalid_content := invalid_content; io_validation_error := validation_error;
                           io_error_class := if error_class ∈? LLM_CALL_ERROR_CLASSES then error_class
                                             else "invalid_json";
                           io_finish_reason := finish_reason |} |}.

(** What a call can raise. *)
Inductive Raised : Type :=
| r_llm (f : LlmFailure)
| r_exc (x : exc)
| r_cancelled.

(** What an attempt catches and audits. *)
Inductive CallError : Type :=
| e_llm (f : LlmFailure)
| e_shadow (x : exc).

Definition raised_of (e : CallError) : Raised := match e with e_llm f => r_llm f | e_shadow x => r_exc x end.

Definition error_message (e : CallError) : string :=
  match e with e_llm f => lf_message f | e_shadow x => err_message (ex_error x) end.

Definition error_code_of (e : CallError) : string :=
  match e with e_llm f => lf_error_code f | e_shadow x => err_code (ex_error x) end.

Definition is_class (e : option CallError) (c : LlmErrorClass) : bool :=
  match e with Some (e_llm f) => lf_class f ==? c | _ => false end.

Definition text_or (s d : string) : string := if s ==? "" then d else s.

(** [cleaned[: MAX - 1] + "…"]; [redact]: the redaction of credentials inside a text. *)
Definition _LLM_ERROR_DETAIL_MAX_LEN : nat := 256.

Definition sanitize_llm_error_detail (redact : string → string) (value : option string) : option string :=
  match value with
  | None => None
  | Some v =>
      let cleaned := str_strip (redact v) in
      if cleaned ==? "" then None
      else if (_LLM_ERROR_DETAIL_MAX_LEN <? String.length cleaned)%nat
           then Some (str_take (_LLM_ERROR_DETAIL_MAX_LEN - 1) cleaned +++ "…")
           else Some cleaned
  end.

Definition failure_class (status : string) (error : option CallError) : string * string :=
  let detail := text_or (match error with Some e => error_message e | None => "" end) status in
  match error with
  | Some (e_llm {| lf_class := LLMInvalidJSONError; lf_message := m; lf_invalid := Some io |}) =>
      (if io_error_class io ∈? LLM_CALL_ERROR_CLASSES then io_error_class io else "invalid_json",
       text_or (io_validation_error io) m)
  | _ =>
      if is_class error LLMTimeoutError || (status ==? "llm_timeout") then ("timeout", detail)
      else if is_class error LLMAuthError || (status ==? "llm_auth_error") then ("auth", detail)
      else if is_class error LLMRateLimitedError || (status ==? "llm_rate_limited") then ("rate_limit", detail)
      else if status ==? "llm_config_error" then ("config", detail)
      else if is_class error LLMAuditError || (status ==? "llm_audit_error") then ("audit", detail)
      else if (status ==? "budget_exceeded")
              || match error with Some e => error_code_of e ==? "budget_exceeded" | None => false end
      then ("budget", detail)
      else if is_class error LLMProviderError || (status ∈? ["llm_provider_error"; "error"]) then ("provider", detail)
      else match error with
           | Some (e_llm f) =>
               let code := str_lower (str_strip (text_or (lf_error_code f) status)) in
               (if code ==? "llm_invalid_json" then "invalid_json"
                else if code ==? "llm_timeout" then "timeout" else "provider",
                text_or (lf_message f) (text_or code status))
           | _ => if status ==? "llm_invalid_json" then ("invalid_json", status) else ("unknown", detail)
           end
  end.

Definition classify_llm_call_failure (redact : string → string) (status : string) (error : option CallError) :
    option string * option string :=
  if status ==? "success" then (None, None)
  else let '(c, detail) := failure_class status error in
       (Some (if c ∈? LLM_CALL_ERROR_CLASSES then c else "unknown"), sanitize_llm_error_detail redact (Some detail)).

Record LLMCallAudit : Type := {
  la_event_id : string;
  la_agent_name : string;
  la_prompt_key : string;
  la_model_name : string;
  la_prompt_tokens : Z;
  la_completion_tokens : Z;
  la_total_tokens : Z;
  la_latency_ms : Z;
  la_fallback_level : Z;
  la_status : string;
  la_error_class : option string;
  la_error_detail : option string
}.

(** ** Fitting the messages *)

Definition _JSON_MODE_HINT : string :=
  "Respond with a single valid JSON object only. Do not wrap the object in markdown fences or add commentary.".

Definition _EMPTY_CONTENT_RETRY_HINT : LLMMessage := message user
  "Previous response had empty content. Return one JSON object only that matches the required schema. No markdown fences and no commentary.".

Definition _STRUCTURED_OUTPUT_MAX_TOKEN_CAP : Z := 8192.
Definition _EMPTY_CONTENT_RETRIES : nat := 1.
Definition _LENGTH_TRUNCATION_RETRIES : nat := 1.
Definition _REPAIR_INVALID_CONTENT_MAX : nat := 512.

Definition _fallback_level (model_index : nat) : Z := match model_index with O => 0 | _ => 1 end.

Definition bump_max_tokens (max_tokens : Z) : Z :=
  let safe := Z.max 1 max_tokens in
  Z.min (Z.max (safe * 2) (safe + 512)) _STRUCTURED_OUTPUT_MAX_TOKEN_CAP.

Definition str_rstrip (s : string) : string := str_rev (str_lstrip (str_rev s)).

Definition newline : string := String (Ascii.ascii_of_nat 10) EmptyString.

Definition dquote (s : string) : string :=
  let q := String (Ascii.ascii_of_nat 34) EmptyString in q +++ s +++ q.

(** The first system message, between what comes before and after it. *)
Fixpoint split_system (messages : list LLMMessage) : option (list LLMMessage * LLMMessage * list LLMMessage) :=
  match messages with
  | [] => None
  | m :: rest =>
      if lm_role m ==? system then Some ([], m, rest)
      else match split_system rest with
           | Some (before, s, after) => Some (m :: before, s, after)
           | None => None
           end
  end.

Definition mentions_json (m : LLMMessage) : bool := str_contains "json" (str_lower (lm_content m)).

Definition ensure_json_mode_messages (messages : list LLMMessage) : list LLMMessage :=
  if existsb mentions_json messages then messages
  else match split_system messages with
       | Some (before, s, after) =>
           before ++ with_content (str_rstrip (lm_content s) +++ newline +++ newline +++ _JSON_MODE_HINT) s :: after
       | None => message system _JSON_MODE_HINT :: messages
       end.

Definition chars (messages : list LLMMessage) : nat :=
  list_sum ((λ m, String.length (lm_content m)) <$> messages).

(** [content[-remaining:]] for a content longer than [remaining] > 0. *)
Definition last_chars (n : nat) (s : string) : string := str_drop (String.length s - n) s.

(** The loop over [reversed(copied)]: newest first, cut at what remains. *)
Fixpoint newest (remaining : nat) (reversed : list LLMMessage) : list LLMMessage :=
  match reversed with
  | [] => []
  | m :: rest =>
      match remaining with
      | O => []
      | _ =>
          let content := if (remaining <? String.length (lm_content m))%nat then last_chars remaining (lm_content m)
                         else lm_content m in
          with_content content m :: newest (remaining - String.length content) rest
      end
  end.

Definition _plain_truncate (messages : list LLMMessage) (max_chars : Z) : list LLMMessage :=
  if max_chars <=? 0 then []
  else
    let limit := Z.to_nat max_chars in
    if (chars messages <=? limit)%nat then messages
    else match split_system messages with
         | Some (before, s, after) =>
             if (limit <? String.length (lm_content s))%nat
             then [with_content (str_take limit (lm_content s)) s]
             else s :: rev (newest (limit - String.length (lm_content s)) (rev (before ++ after)))
         | None => rev (newest limit (rev messages))
         end.

(** ** Ports *)

(** The budget as an attempt sees it: what a check or a charge raises, if anything. *)
Class BudgetMeter (B : Type) : Type := {
  bm_check : B → string → string → option exc * B;
  bm_charge : B → string → string → string → Z → Z → option exc * B
}.

(** A client without a budget service. *)
#[global] Instance no_meter : BudgetMeter unit :=
  {| bm_check := λ b _ _, (None, b); bm_charge := λ b _ _ _ _ _, (None, b) |}.

(** What the provider answers; [timed_out]: also when the time limit of the request passes. *)
Inductive ProviderAnswer : Type :=
| answered (r : ProviderResponse)
| timed_out
| refused (f : LlmFailure)
| broke (x : exc)
| was_cancelled.

Inductive AuditAnswer : Type := audited | audit_fails | audit_soft_limit.

(** A response model of type [A]: its fields, and validation of a payload, which answers the text of
    the validation error. *)
Record ResponseModel (A : Type) : Type := {
  rm_fields : list string;
  rm_required : list string;
  rm_validate : list (string * pyval) → string + A;
  rm_schema : string
}.
Arguments rm_fields {_}. Arguments rm_required {_}. Arguments rm_validate {_}. Arguments rm_schema {_}.

(** Message and class of a failed extraction. *)
Record JsonFailure : Type := { jf_message : string; jf_error_class : string }.

Record LLMRequest : Type := {
  lq_messages : list LLMMessage;
  lq_model_name : string;
  lq_temperature : Q;
  lq_max_tokens : Z;
  lq_json_mode : bool
}.

(** The client and its surroundings: the models, the limit of the input, and what provider, clock,
    audit log and library code answer; the provider, the clock and the log answer by the number of the
    attempt. *)
Record LlmClient : Type := {
  lc_primary_model : string;
  lc_fallback_models : list string;
  lc_message_budgeter : option (list LLMMessage → Z → list LLMMessage);
  lc_max_input_tokens : Z;
  lc_request : nat → LLMRequest → ProviderAnswer;
  lc_latency_ms : nat → Z;
  lc_audit : nat → AuditAnswer;
  lc_extract_json : string → JsonFailure + list (string * pyval);
  lc_json_dumps : list (string * pyval) → string;
  lc_redact : string → string;
  lc_signature : string → list (string * pyval) → string;
  lc_memory : option (string → string → pyval → write_outcome)
}.

(** The models of [__init__]: stripped, without the primary and without repetitions. *)
Fixpoint from_keys (l : list string) : list string :=
  match l with
  | [] => []
  | x :: l => x :: List.filter (λ y, y !=? x) (from_keys l)
  end.

Definition init_models (primary_model : string) (fallback_models : list string) : string * list string :=
  let primary := str_strip primary_model in
  (primary, from_keys (List.filter (λ m, (m !=? "") && (m !=? primary)) (str_strip <$> fallback_models))).

Record ChatArgs : Type := {
  ch_event_id : string;
  ch_agent_name : string;
  ch_prompt_key : string;
  ch_temperature : Q;
  ch_max_tokens : Z;
  ch_json_mode : bool
}.

Definition _validate_context (a : ChatArgs) (messages : list LLMMessage) : option exc :=
  let missing := (λ fv, fv.1) <$>
    List.filter (λ fv, str_strip fv.2 ==? "")
      [("event_id", ch_event_id a); ("agent_name", ch_agent_name a); ("prompt_key", ch_prompt_key a)] in
  match missing, messages with
  | _ :: _, _ => Some (plain_exc ValueError ("required LLM context is empty: " +++ str_join ", " missing) "")
  | [], [] => Some (plain_exc ValueError "messages must not be empty" "")
  | [], _ => None
  end.

Definition _WRAPPER_KEYS : list string := ["data"; "result"; "output"; "response"; "json"; "payload"; "content"].

Definition subset_keys (names : list string) (d : list (string * pyval)) : bool :=
  forallb (λ n, n ∈? dict_keys d) names.

Definition meets_keys (names : list string) (d : list (string * pyval)) : bool :=
  existsb (λ n, n ∈? dict_keys d) names.

(** The dict has the keys the model asks for. *)
Definition carries {A} (m : ResponseModel A) (d : list (string * pyval)) : bool :=
  match rm_required m with
  | [] => meets_keys (rm_fields m) d
  | required => subset_keys required d
  end.

Definition inner_dict (v : option pyval) : option (list (string * pyval)) :=
  match v with Some (VDict d) => Some d | _ => None end.

Fixpoint first_carrying {A} (m : ResponseModel A) (dicts : list (option (list (string * pyval)))) :
    option (list (string * pyval)) :=
  match dicts with
  | [] => None
  | Some d :: rest => if carries m d then Some d else first_carrying m rest
  | None :: rest => first_carrying m rest
  end.

Definition coerce_payload_for_model {A} (payload : list (string * pyval)) (response_model : option (ResponseModel A)) :
    list (string * pyval) :=
  match response_model with
  | None => payload
  | Some m =>
      if carries m payload then payload
      else match first_carrying m ((λ k, inner_dict (dict_get payload k)) <$> _WRAPPER_KEYS) with
           | Some inner => inner
           | None =>
               match omap (λ kv, inner_dict (Some kv.2)) payload with
               | [inner] => if carries m inner then inner else payload
               | _ => payload
               end
           end
  end.

Section client.
Context {B : Type} `{BudgetMeter B} {A : Type} (lc : LlmClient) (response_model : option (ResponseModel A)).

(** What the attempts share; [lw_requests] and [lw_clock]: the requests sent and the attempts made. *)
Record LlmWorld : Type := MkLlmWorld {
  lw_guard : option (gmap string ConvergenceState);
  lw_meter : B;
  lw_audits : list LLMCallAudit;
  lw_requests : list LLMRequest;
  lw_clock : nat
}.

Definition with_guard (g : gmap string ConvergenceState) (w : LlmWorld) : LlmWorld :=
  MkLlmWorld (Some g) (lw_meter w) (lw_audits w) (lw_requests w) (lw_clock w).

Definition with_meter (b : B) (w : LlmWorld) : LlmWorld :=
  MkLlmWorld (lw_guard w) b (lw_audits w) (lw_requests w) (lw_clock w).

Definition log_audit (row : LLMCallAudit) (w : LlmWorld) : LlmWorld :=
  MkLlmWorld (lw_guard w) (lw_meter w) (lw_audits w ++ [row]) (lw_requests w) (lw_clock w).

Definition log_request (q : LLMRequest) (w : LlmWorld) : LlmWorld :=
  MkLlmWorld (lw_guard w) (lw_meter w) (lw_audits w) (lw_requests w ++ [q]) (lw_clock w).

Definition tick (w : LlmWorld) : LlmWorld :=
  MkLlmWorld (lw_guard w) (lw_meter w) (lw_audits w) (lw_requests w) (S (lw_clock w)).

Definition require_json (a : ChatArgs) : bool :=
  ch_json_mode a || match response_model with Some _ => true | None => false end.

Definition _fit_messages (messages : list LLMMessage) : list LLMMessage :=
  match lc_message_budgeter lc with
  | Some fit => fit messages (lc_max_input_tokens lc)
  | None => _plain_truncate messages (lc_max_input_tokens lc * 2)
  end.

(** ** One attempt *)

Definition llm_step (a : ChatArgs) (model_name : string) : step :=
  MkStep "llm_call" None None (Some (ch_agent_name a +++ ":" +++ ch_prompt_key a +++ ":" +++ model_name)).

Definition _check_convergence (a : ChatArgs) (model_name : string) (w : LlmWorld) : option LlmFailure * LlmWorld :=
  match lw_guard w with
  | None => (None, w)
  | Some g =>
      let g := record_step (lc_signature lc) g (ch_event_id a) (llm_step a model_name) in
      (if stop (should_stop (lc_memory lc) g (ch_event_id a))
       then Some (LLMError_init LLMProviderError "LLM request blocked by convergence guard" (Some false))
       else None, with_guard g w)
  end.

Definition _parse (content : string) (finish_reason : option string) :
    LlmFailure + option A * list (string * pyval) :=
  let invalid := LLMInvalidJSONError_init "LLM returned invalid structured output" content in
  if str_strip content ==? "" then
    inl (LLMInvalidJSONError_init "LLM returned empty structured output" content "empty completion content"
           "empty_content" finish_reason)
  else match lc_extract_json lc content with
       | inl jf =>
           inl (invalid (jf_message jf)
                  (if jf_error_class jf ∈? LLM_CALL_ERROR_CLASSES then jf_error_class jf else "invalid_json")
                  finish_reason)
       | inr payload =>
           let payload := coerce_payload_for_model payload response_model in
           match response_model with
           | None => inr (None, payload)
           | Some m =>
               match rm_validate m payload with
               | inl text => inl (invalid text "schema_validation" finish_reason)
               | inr parsed => inr (Some parsed, payload)
               end
           end
       end.

(** The [except] clauses around budget check and request; [None]: the exception passes. *)
Definition caught (message : string) (x : exc) : option CallError :=
  if ex_class x ==? SoftTimeLimitExceeded then None
  else if is_shadow x then Some (e_shadow x)
  else Some (e_llm (LLMError_init LLMProviderError message None)).

Inductive Phase (X : Type) : Type :=
| ph_ok (r : X)
| ph_error (e : CallError)
| ph_passes (x : Raised)
| ph_cancelled.
Arguments ph_ok {_}. Arguments ph_error {_}. Arguments ph_passes {_}. Arguments ph_cancelled {_}.

Definition phase_of {X} (message : string) (x : exc) : Phase X :=
  match caught message x with Some e => ph_error e | None => ph_passes (r_exc x) end.

Definition request_phase (a : ChatArgs) (q : LLMRequest) (n : nat) (w : LlmWorld) :
    Phase ProviderResponse * LlmWorld :=
  let '(failed, b) := bm_check (lw_meter w) (ch_event_id a) (ch_agent_name a) in
  let w := with_meter b w in
  match failed with
  | Some x => (phase_of "unexpected LLM provider failure" x, w)
  | None =>
      (match lc_request lc n q with
       | answered r => ph_ok r
       | timed_out => ph_error (e_llm (LLMError_init LLMTimeoutError "LLM request timed out" None))
       | refused f => ph_error (e_llm f)
       | broke x => phase_of "unexpected LLM provider failure" x
       | was_cancelled => ph_cancelled
       end, log_request q w)
  end.

Definition with_body (content : string) (r : ProviderResponse) : ProviderResponse := {|
  pr_content := content; pr_model_name := pr_model_name r; pr_prompt_tokens := pr_prompt_tokens r;
  pr_completion_tokens := pr_completion_tokens r; pr_total_tokens := pr_total_tokens r;
  pr_finish_reason := pr_finish_reason r
|}.

(** The answer is parsed, and charged when that succeeds. *)
Definition settle_phase (a : ChatArgs) (json_mode : bool) (raw : ProviderResponse) (w : LlmWorld) :
    Phase (ProviderResponse * option A) * LlmWorld :=
  match (if json_mode
         then match _parse (pr_content raw) (pr_finish_reason raw) with
              | inl f => inl f
              | inr (parsed, payload) => inr (with_body (lc_json_dumps lc payload) raw, parsed)
              end
         else inr (raw, None)) with
  | inl f => (ph_error (e_llm f), w)
  | inr (raw, parsed) =>
      let '(failed, b) := bm_charge (lw_meter w) (ch_event_id a) (ch_agent_name a) (pr_model_name raw)
                            (pr_prompt_tokens raw) (pr_completion_tokens raw) in
      (match failed with
       | Some x => phase_of "LLM post-processing failed" x
       | None => ph_ok (raw, parsed)
       end, with_meter b w)
  end.

Definition audit_row (a : ChatArgs) (model_name : string) (level latency : Z) (raw : option ProviderResponse)
    (status : string) (error : option CallError) : LLMCallAudit :=
  let '(error_class, error_detail) := classify_llm_call_failure (lc_redact lc) status error in
  {| la_event_id := ch_event_id a; la_agent_name := ch_agent_name a; la_prompt_key := ch_prompt_key a;
     la_model_name := model_name;
     la_prompt_tokens := from_option pr_prompt_tokens 0 raw;
     la_completion_tokens := from_option pr_completion_tokens 0 raw;
     la_total_tokens := from_option total_tokens_of 0 raw;
     la_latency_ms := Z.max 0 latency; la_fallback_level := level; la_status := status;
     la_error_class := error_class; la_error_detail := error_detail |}.

Definition _record_audit (n : nat) (row : LLMCallAudit) (w : LlmWorld) : option Raised * LlmWorld :=
  match lc_audit lc n with
  | audited => (None, log_audit row w)
  | audit_fails => (Some (r_llm (LLMError_init LLMAuditError "failed to persist LLM call audit" None)), w)
  | audit_soft_limit => (Some (r_exc (plain_exc SoftTimeLimitExceeded "" "")), w)
  end.

Definition _attempt (a : ChatArgs) (messages : list LLMMessage) (model_name : string) (level max_tokens : Z)
    (json_mode : bool) (w : LlmWorld) : (Raised + ProviderResponse * option A) * LlmWorld :=
  let n := lw_clock w in
  let q := {| lq_messages := messages; lq_model_name := model_name; lq_temperature := ch_temperature a;
              lq_max_tokens := max_tokens; lq_json_mode := json_mode |} in
  let audit raw status error w :=
    _record_audit n (audit_row a model_name level (lc_latency_ms lc n) raw status error) w in
  let failing raw e w :=
    let '(failed, w) := audit raw (error_code_of e) (Some e) w in
    (inl (default (raised_of e) failed), w) in
  let cancel raw w :=
    let '(failed, w) := audit raw "llm_provider_error" None w in (inl (default r_cancelled failed), w) in
  match _check_convergence a model_name (tick w) with
  | (Some f, w) => (inl (r_llm f), w)
  | (None, w) =>
      match request_phase a q n w with
      | (ph_passes x, w) => (inl x, w)
      | (ph_cancelled, w) => cancel None w
      | (ph_error e, w) => failing None e w
      | (ph_ok raw, w) =>
          match settle_phase a json_mode raw w with
          | (ph_passes x, w) => (inl x, w)
          | (ph_cancelled, w) => cancel (Some raw) w
          | (ph_error e, w) => failing (Some raw) e w
          | (ph_ok (raw, parsed), w) =>
              let '(failed, w) := audit (Some raw) "success" None w in
              (match failed with Some x => inl x | None => inr (raw, parsed) end, w)
          end
      end
  end.

(** ** One model *)

Definition repair_message (validation_error clipped : string) : LLMMessage :=
  message user
    ("Return corrected JSON only. The previous output was invalid." +++ newline +++
     "Validation error: " +++ validation_error +++ newline +++
     "Required schema: " +++ match response_model with Some m => rm_schema m
                             | None => "{" +++ dquote "type" +++ ": " +++ dquote "object" +++ "}" end +++ newline +++
     "Invalid output: " +++ clipped).

Definition _repair_json (a : ChatArgs) (messages : list LLMMessage) (io : InvalidOutput) (model_name : string)
    (level max_tokens : Z) (w : LlmWorld) : (Raised + ProviderResponse * option A) * LlmWorld :=
  let clipped := str_take _REPAIR_INVALID_CONTENT_MAX (io_invalid_content io) in
  _attempt a (_fit_messages (messages ++ [message assistant clipped; repair_message (io_validation_error io) clipped]))
    model_name level max_tokens true w.

Definition cut_off (io : InvalidOutput) : bool := str_lower (default "" (io_finish_reason io)) ==? "length".

(** The [while True] of [_complete_structured]; [empty] and [truncated]: the retries left.  [None]: out
    of fuel. *)
Fixpoint complete_loop (fuel : nat) (a : ChatArgs) (messages : list LLMMessage) (model_name : string) (level : Z)
    (attempt_messages : list LLMMessage) (attempt_max_tokens : Z) (empty truncated : nat) (w : LlmWorld) :
    option (Raised + ProviderResponse * option A) * LlmWorld :=
  match fuel with
  | O => (None, w)
  | S fuel =>
      match _attempt a attempt_messages model_name level attempt_max_tokens (require_json a) w with
      | (inl (r_llm {| lf_class := LLMInvalidJSONError; lf_invalid := Some io |} as x), w) =>
          if io_error_class io ==? "empty_content" then
            match empty with
            | O => (Some (inl x), w)
            | S empty =>
                complete_loop fuel a messages model_name level
                  (_fit_messages (messages ++ [_EMPTY_CONTENT_RETRY_HINT])) (bump_max_tokens attempt_max_tokens)
                  empty truncated w
            end
          else
            match truncated, cut_off io with
            | S truncated, true =>
                complete_loop fuel a messages model_name level attempt_messages
                  (bump_max_tokens attempt_max_tokens) empty truncated w
            | _, _ => let '(out, w) := _repair_json a messages io model_name level attempt_max_tokens w in (Some out, w)
            end
      | (out, w) => (Some out, w)
      end
  end.

(** Enough for every retry. *)
Definition complete_fuel : nat := S (_EMPTY_CONTENT_RETRIES + _LENGTH_TRUNCATION_RETRIES).

Definition _complete_structured (a : ChatArgs) (messages : list LLMMessage) (model_name : string) (level : Z)
    (w : LlmWorld) : option (Raised + ProviderResponse * option A) * LlmWorld :=
  let retries n := if require_json a then n else O in
  complete_loop complete_fuel a messages model_name level messages (ch_max_tokens a)
    (retries _EMPTY_CONTENT_RETRIES) (retries _LENGTH_TRUNCATION_RETRIES) w.

(** ** The call *)

Inductive ChatOutcome : Type :=
| chat_returns (r : LLMResponse A)
| chat_raises (x : Raised)
| chat_out_of_fuel.

(** Whether the next model is tried. *)
Definition falls_back (x : Raised) : option LlmFailure :=
  match x with
  | r_llm f => if (lf_class f !=? LLMAuditError) && lf_retryable f then Some f else None
  | _ => None
  end.

Definition response_of (raw : ProviderResponse) (parsed : option A) (level : Z) (last_error : option LlmFailure) :
    LLMResponse A := {|
  lr_content := pr_content raw; lr_parsed := parsed; lr_model_name := pr_model_name raw;
  lr_prompt_tokens := pr_prompt_tokens raw; lr_completion_tokens := pr_completion_tokens raw;
  lr_total_tokens := total_tokens_of raw; lr_fallback_level := level;
  lr_degraded_reason := if level =? 0 then None
                        else Some ("primary model unavailable: " +++
                                   from_option (λ f, class_name (lf_class f)) "NoneType" last_error)
|}.

Fixpoint try_models (a : ChatArgs) (prepared : list LLMMessage) (index : nat) (models : list string)
    (last_error : option LlmFailure) (w : LlmWorld) : ChatOutcome * LlmWorld :=
  match models with
  | [] => (chat_raises (r_llm (default (LLMError_init LLMProviderError "no LLM models are configured" None) last_error)), w)
  | model_name :: models =>
      let level := _fallback_level index in
      match _complete_structured a prepared model_name level w with
      | (None, w) => (chat_out_of_fuel, w)
      | (Some (inr (raw, parsed)), w) => (chat_returns (response_of raw parsed level last_error), w)
      | (Some (inl x), w) =>
          match falls_back x with
          | Some f => try_models a prepared (S index) models (Some f) w
          | None => (chat_raises x, w)
          end
      end
  end.

Definition chat_models : list string := lc_primary_model lc :: lc_fallback_models lc.

Definition chat (a : ChatArgs) (messages : list LLMMessage) (w : LlmWorld) : ChatOutcome * LlmWorld :=
  match _validate_context a messages with
  | Some x => (chat_raises (r_exc x), w)
  | None =>
      let source := if require_json a then ensure_json_mode_messages messages else messages in
      try_models a (_fit_messages source) 0 chat_models None w
  end.
End client.
