(* ===== verification/LlmFacts.v ===== *)
(** * What the LLM client guarantees, and where it does not

    A chat always ends, after at most four requests per model, each within the input limit; a spent
    budget stops it before any request.  Two defects: an answer that cannot be used is never charged,
    and the guard takes the fallback of two consecutive chats for an oscillation. *)

From stdpp Require Import prelude strings gmap.
From Stdlib Require Import QArith Lia.
From S2P Require Import Prelude Enums Errors Tables ErrorTaxonomy ConvergenceGuard Lease BudgetReservation ToolExecutor.
From S2P Require Import Detection Budget BudgetFacts Llm.

#[local] Open Scope string_scope.
#[local] Open Scope Z_scope.
#[local] Open Scope list_scope.

(** ** Fitting the messages *)

Lemma length_str_drop n s : String.length (str_drop n s) = (String.length s - n)%nat.
Proof. revert s. induction n as [|n IH]; intros [|c s]; cbn; [done..|]. by rewrite IH. Qed.

Lemma length_str_take n s : (String.length (str_take n s) ≤ n)%nat.
Proof.
  unfold str_take. revert s. induction n as [|n IH]; intros [|c s]; cbn; [lia..|]. specialize (IH s). lia.
Qed.

Lemma chars_app l k : chars (l ++ k) = (chars l + chars k)%nat.
Proof. unfold chars. by rewrite fmap_app, list_sum_app. Qed.

Lemma chars_cons m l : chars (m :: l) = (String.length (lm_content m) + chars l)%nat.
Proof. done. Qed.

Lemma chars_rev l : chars (rev l) = chars l.
Proof. induction l as [|m l IH]; [done|]. cbn [rev]. rewrite chars_app, IH, !chars_cons. change (chars []) with 0%nat. lia. Qed.

Lemma newest_bounded n l : (chars (newest n l) ≤ n)%nat.
Proof.
  revert n. induction l as [|m l IH]; intros n; [unfold chars; cbn; lia|]. cbn [newest].
  destruct n as [|n]; [unfold chars; cbn; lia|].
  set (content := if (S n <? String.length (lm_content m))%nat then last_chars (S n) (lm_content m) else lm_content m).
  assert (String.length content ≤ S n)%nat as Hc.
  { unfold content, last_chars. destruct (Nat.ltb_spec (S n) (String.length (lm_content m))); [|lia].
    rewrite length_str_drop. lia. }
  specialize (IH (S n - String.length content)%nat).
  rewrite chars_cons. cbn [lm_content with_content]. lia.
Qed.

Lemma split_system_Some l before s after :
  split_system l = Some (before, s, after) → l = before ++ s :: after ∧ lm_role s = system.
Proof.
  revert before. induction l as [|m l IH]; intros before; cbn; [done|]. case_bool_decide as Hm.
  - intros [= <- <- <-]. done.
  - destruct (split_system l) as [[[b s'] aft]|]; [|done]. intros [= <- <- <-].
    destruct (IH b eq_refl) as [-> ?]. done.
Qed.

(** The messages sent fit the limit, and the system message leads what is left of them. *)
Lemma plain_truncate_bounded messages max_chars : Z.of_nat (chars (_plain_truncate messages max_chars)) ≤ Z.max 0 max_chars.
Proof.
  unfold _plain_truncate. destruct (Z.leb_spec max_chars 0); [unfold chars; cbn; lia|].
  destruct (Nat.leb_spec (chars messages) (Z.to_nat max_chars)); [lia|].
  destruct (split_system messages) as [[[before s] after]|] eqn:Hs.
  - destruct (Nat.ltb_spec (Z.to_nat max_chars) (String.length (lm_content s))) as [Hlt|Hge].
    + pose proof (length_str_take (Z.to_nat max_chars) (lm_content s)). unfold chars. cbn. lia.
    + rewrite chars_cons, chars_rev.
      pose proof (newest_bounded (Z.to_nat max_chars - String.length (lm_content s)) (rev (before ++ after))). lia.
  - rewrite chars_rev. pose proof (newest_bounded (Z.to_nat max_chars) (rev messages)). lia.
Qed.

(** [bump_max_tokens] is to raise the limit of a retry; above the cap it lowers it. *)
Lemma bump_lowers n : _STRUCTURED_OUTPUT_MAX_TOKEN_CAP < n → bump_max_tokens n < n.
Proof. unfold bump_max_tokens, _STRUCTURED_OUTPUT_MAX_TOKEN_CAP. lia. Qed.

Lemma bump_raises n : n < _STRUCTURED_OUTPUT_MAX_TOKEN_CAP → n < bump_max_tokens n.
Proof. unfold bump_max_tokens, _STRUCTURED_OUTPUT_MAX_TOKEN_CAP. lia. Qed.

(** ** A chat is bounded *)

Section bounded.
Context {B : Type} `{BudgetMeter B} {A : Type} (lc : LlmClient) (rm : option (ResponseModel A)).

Definition fits (messages : list LLMMessage) : Prop :=
  lc_message_budgeter lc = None → Z.of_nat (chars messages) ≤ Z.max 0 (lc_max_input_tokens lc * 2).

(** What one attempt at the model [m] sent and left in the audit log: at most one request, for this
    model and with messages that fit, and at most one row, for this model. *)
Definition Attempt : Type := list LLMRequest * list LLMCallAudit.

Record one_attempt (m : string) (t : Attempt) : Prop := {
  oa_request : t.1 = [] ∨ ∃ q, t.1 = [q] ∧ lq_model_name q = m ∧ fits (lq_messages q);
  oa_row : t.2 = [] ∨ ∃ row, t.2 = [row] ∧ la_model_name row = m
}.

(** The attempts [ts] lead from [w] to [w']. *)
Record logged (ts : list Attempt) (w w' : LlmWorld (B:=B)) : Prop := {
  lg_clock : lw_clock w' = (lw_clock w + length ts)%nat;
  lg_requests : lw_requests w' = lw_requests w ++ concat ts.*1;
  lg_audits : lw_audits w' = lw_audits w ++ concat ts.*2
}.

(** At most [n] attempts at the model [m] lead from [w] to [w']. *)
Definition attempts (m : string) (n : nat) (w w' : LlmWorld (B:=B)) : Prop :=
  ∃ ts, (length ts ≤ n)%nat ∧ Forall (one_attempt m) ts ∧ logged ts w w'.

Lemma logged_nil w : logged [] w w.
Proof. split; cbn; rewrite ?app_nil_r; [lia|done..]. Qed.

Lemma logged_app ts1 ts2 w1 w2 w3 : logged ts1 w1 w2 → logged ts2 w2 w3 → logged (ts1 ++ ts2) w1 w3.
Proof.
  intros [Hc1 Hq1 Ha1] [Hc2 Hq2 Ha2]. split.
  - rewrite Hc2, Hc1, length_app. lia.
  - by rewrite Hq2, Hq1, fmap_app, concat_app, app_assoc.
  - by rewrite Ha2, Ha1, fmap_app, concat_app, app_assoc.
Qed.

Lemma attempts_trans m n k w1 w2 w3 : attempts m n w1 w2 → attempts m k w2 w3 → attempts m (n + k) w1 w3.
Proof.
  intros (ts1 & ? & ? & Hl1) (ts2 & ? & ? & Hl2). exists (ts1 ++ ts2). rewrite length_app.
  split_and!; [lia|by apply Forall_app_2|by eapply logged_app].
Qed.

Lemma attempts_mono m n k w w' : (n ≤ k)%nat → attempts m n w w' → attempts m k w w'.
Proof. intros Hle (ts & ? & ? & ?). exists ts. split_and!; [lia|done..]. Qed.

Lemma fit_admissible messages :
  lc_message_budgeter lc = None →
  Z.of_nat (chars (_fit_messages lc messages)) ≤ Z.max 0 (lc_max_input_tokens lc * 2).
Proof. intros Hb. unfold _fit_messages. rewrite Hb. apply plain_truncate_bounded. Qed.

(** The parts of an attempt between the guard and the audit. *)
Lemma check_convergence_logs a m (w : LlmWorld (B:=B)) f w' :
  _check_convergence lc a m w = (f, w') →
  lw_clock w' = lw_clock w ∧ lw_requests w' = lw_requests w ∧ lw_audits w' = lw_audits w ∧ lw_meter w' = lw_meter w.
Proof. unfold _check_convergence. destruct (lw_guard w); by intros [= _ <-]. Qed.

Lemma request_phase_logs a q n (w : LlmWorld (B:=B)) ph w' :
  request_phase lc a q n w = (ph, w') →
  lw_clock w' = lw_clock w ∧ lw_audits w' = lw_audits w ∧
  ∃ qs, lw_requests w' = lw_requests w ++ qs ∧ (qs = [] ∨ qs = [q]).
Proof.
  unfold request_phase. destruct (bm_check _ _ _) as [[x|] b]; intros [= _ <-]; cbn; (split_and!; [done..|]).
  - exists []. rewrite app_nil_r. auto.
  - exists [q]. auto.
Qed.

Lemma settle_phase_logs a json raw (w : LlmWorld (B:=B)) ph w' :
  settle_phase lc rm a json raw w = (ph, w') →
  lw_clock w' = lw_clock w ∧ lw_requests w' = lw_requests w ∧ lw_audits w' = lw_audits w.
Proof.
  unfold settle_phase. destruct (if json then _ else _) as [f|[raw' parsed]]; [by intros [= _ <-]|].
  destruct (bm_charge _ _ _ _ _ _) as [failed b]. by intros [= _ <-].
Qed.

Lemma record_audit_logs n row (w : LlmWorld (B:=B)) x w' :
  _record_audit lc n row w = (x, w') →
  lw_clock w' = lw_clock w ∧ lw_requests w' = lw_requests w ∧ lw_meter w' = lw_meter w ∧
  ∃ rows, lw_audits w' = lw_audits w ++ rows ∧ (rows = [] ∨ rows = [row]).
Proof.
  unfold _record_audit. destruct (lc_audit lc n); intros [= _ <-]; cbn; (split_and!; [done..|]).
  - exists [row]. auto.
  - exists []. rewrite app_nil_r. auto.
  - exists []. rewrite app_nil_r. auto.
Qed.

Lemma audit_row_model a m level latency raw status error :
  la_model_name (audit_row lc a m level latency raw status error) = m.
Proof. unfold audit_row. by destruct (classify_llm_call_failure _ _ _). Qed.

(** After the request and its settlement at most one row is written. *)
Lemma audited_attempt m q n row (w w1 w2 : LlmWorld (B:=B)) x :
  lq_model_name q = m → fits (lq_messages q) → la_model_name row = m →
  lw_clock w1 = S (lw_clock w) → lw_audits w1 = lw_audits w →
  (∃ qs, lw_requests w1 = lw_requests w ++ qs ∧ (qs = [] ∨ qs = [q])) →
  _record_audit lc n row w1 = (x, w2) → attempts m 1 w w2.
Proof.
  intros Hq Hfit Hrow Hc Ha (qs & Hqs & Hone) (Hc2 & Hr2 & _ & rows & Ha2 & Hrows)%record_audit_logs.
  exists [(qs, rows)]. split_and!; [done| |].
  - apply Forall_singleton. split; cbn.
    + destruct Hone as [->| ->]; [by left|right; by exists q].
    + destruct Hrows as [->| ->]; [by left|right; by exists row].
  - split; cbn; rewrite ?app_nil_r; [lia|congruence|congruence].
Qed.

Lemma unaudited_attempt m q (w w1 : LlmWorld (B:=B)) :
  lq_model_name q = m → fits (lq_messages q) → lw_clock w1 = S (lw_clock w) → lw_audits w1 = lw_audits w →
  (∃ qs, lw_requests w1 = lw_requests w ++ qs ∧ (qs = [] ∨ qs = [q])) → attempts m 1 w w1.
Proof.
  intros Hq Hfit Hc Ha (qs & Hqs & Hone). exists [(qs, [])]. split_and!; [done| |].
  - apply Forall_singleton. split; cbn; [|by left]. destruct Hone as [->| ->]; [by left|right; by exists q].
  - split; cbn; rewrite ?app_nil_r; [lia|done|congruence].
Qed.

Lemma attempt_bounded a messages m level max_tokens json (w : LlmWorld (B:=B)) out w' :
  fits messages → _attempt lc rm a messages m level max_tokens json w = (out, w') → attempts m 1 w w'.
Proof.
  intros Hfit. unfold _attempt.
  set (q := {| lq_messages := messages |}).
  destruct (_check_convergence lc a m (tick w)) as [[f|] w1] eqn:Hg;
    apply check_convergence_logs in Hg as (Hc1 & Hr1 & Ha1 & _); cbn in Hc1, Hr1, Ha1.
  { intros [= _ <-]. apply (unaudited_attempt m q); [done..|]. exists []. rewrite app_nil_r. auto. }
  destruct (request_phase lc a q (lw_clock w) w1) as [ph w2] eqn:Hp.
  apply request_phase_logs in Hp as (Hc2 & Ha2 & qs & Hr2 & Hone). rewrite Hr1 in Hr2. rewrite Ha1 in Ha2. rewrite Hc1 in Hc2.
  assert (∀ raw json' ph' w3, settle_phase lc rm a json' raw w2 = (ph', w3) →
    lw_clock w3 = S (lw_clock w) ∧ lw_audits w3 = lw_audits w ∧ lw_requests w3 = lw_requests w ++ qs) as Hset.
  { intros raw json' ph' w3 (-> & -> & ->)%settle_phase_logs. done. }
  pose proof (ex_intro (λ qs, _ ∧ (qs = [] ∨ qs = [q])) qs (conj Hr2 Hone)) as Hex2.
  assert (∀ n row w1 w2 x, la_model_name row = m → lw_clock w1 = S (lw_clock w) → lw_audits w1 = lw_audits w →
    (∃ qs, lw_requests w1 = lw_requests w ++ qs ∧ (qs = [] ∨ qs = [q])) →
    _record_audit lc n row w1 = (x, w2) → attempts m 1 w w2) as Haudited.
  { intros n row w3 w4 x. by apply audited_attempt. }
  destruct ph as [raw|e|x|]; cbn.
  - destruct (settle_phase lc rm a json raw w2) as [ph' w3] eqn:Hs. apply Hset in Hs as (Hc3 & Ha3 & Hr3).
    pose proof (ex_intro (λ qs, _ ∧ (qs = [] ∨ qs = [q])) qs (conj Hr3 Hone)) as Hex.
    destruct ph' as [[raw' parsed]|e|x|]; try (by intros [= _ <-]; eapply (unaudited_attempt m q));
      (destruct (_record_audit _ _ _ w3) as [x w4] eqn:Haud; intros [= _ <-];
       exact (Haudited _ _ _ _ _ (audit_row_model _ _ _ _ _ _ _) Hc3 Ha3 Hex Haud)).
  - destruct (_record_audit _ _ _ w2) as [x w4] eqn:Haud. intros [= _ <-].
    exact (Haudited _ _ _ _ _ (audit_row_model _ _ _ _ _ _ _) Hc2 Ha2 Hex2 Haud).
  - intros [= _ <-]. by eapply (unaudited_attempt m q).
  - destruct (_record_audit _ _ _ w2) as [x w4] eqn:Haud. intros [= _ <-].
    exact (Haudited _ _ _ _ _ (audit_row_model _ _ _ _ _ _ _) Hc2 Ha2 Hex2 Haud).
Qed.

Lemma complete_loop_bounded fuel a messages m level current max_tokens empty truncated (w : LlmWorld (B:=B)) out w' :
  fits current → (empty + truncated < fuel)%nat →
  complete_loop lc rm fuel a messages m level current max_tokens empty truncated w = (out, w') →
  is_Some out ∧ attempts m (empty + truncated + 2) w w'.
Proof.
  revert current max_tokens empty truncated w.
  induction fuel as [|fuel IH]; intros current max_tokens empty truncated w Hfit Hf; [lia|]. cbn [complete_loop].
  destruct (_attempt lc rm a current m level max_tokens (require_json rm a) w) as [r w1] eqn:Ha.
  pose proof (attempt_bounded _ _ _ _ _ _ _ _ _ Hfit Ha) as H1.
  assert (is_Some (Some r) ∧ attempts m (empty + truncated + 2) w w1) as Hdone.
  { split; [by eexists|]. eapply (attempts_mono m 1); [lia|exact H1]. }
  destruct r as [[[[] ms code b [io|]]|x|]|ok]; try (by intros [= <- <-]).
  case_bool_decide as He.
  - destruct empty as [|empty]; [by intros [= <- <-]|]. intros Hk.
    apply IH in Hk as [Hs Hk]; [|intros ?; by apply fit_admissible|lia]. split; [done|].
    eapply (attempts_mono m (1 + (empty + truncated + 2))); [lia|by eapply attempts_trans].
  - assert (∀ out w', (let '(out, w) := _repair_json lc rm a messages io m level max_tokens w1 in (Some out, w)) = (out, w') →
      is_Some out ∧ attempts m (empty + truncated + 2) w w') as Hrep.
    { intros out' w2. unfold _repair_json.
      match goal with |- context [_attempt ?l ?r ?a ?m ?n ?v ?t ?j ?w0] =>
        destruct (_attempt l r a m n v t j w0) as [o2 w3] eqn:Hr end.
      intros [= <- <-]. split; [by eexists|]. apply attempt_bounded in Hr; [|intros ?; by apply fit_admissible].
      eapply (attempts_mono m (1 + 1)); [lia|by eapply attempts_trans]. }
    destruct truncated as [|truncated]; [by apply Hrep|]. destruct (cut_off io); [|by apply Hrep]. intros Hk.
    apply IH in Hk as [Hs Hk]; [|done|lia]. split; [done|].
    eapply (attempts_mono m (1 + (empty + truncated + 2))); [lia|by eapply attempts_trans].
Qed.

Lemma complete_bounded a messages m level (w : LlmWorld (B:=B)) out w' :
  fits messages → _complete_structured lc rm a messages m level w = (out, w') → is_Some out ∧ attempts m 4 w w'.
Proof.
  intros Hfit Hc. unfold _complete_structured in Hc. apply complete_loop_bounded in Hc as [Hs Hw]; [|done|].
  - split; [done|]. eapply attempts_mono; [|exact Hw].
    unfold _EMPTY_CONTENT_RETRIES, _LENGTH_TRUNCATION_RETRIES. destruct (require_json rm a); lia.
  - unfold complete_fuel, _EMPTY_CONTENT_RETRIES, _LENGTH_TRUNCATION_RETRIES. destruct (require_json rm a); lia.
Qed.

(** The models of [tried], in this order, with at most four attempts each. *)
Definition tried_in_order (tried : list string) (tss : list (list Attempt)) : Prop :=
  Forall2 (λ m ts, (length ts ≤ 4)%nat ∧ Forall (one_attempt m) ts) tried tss.

Lemma try_models_bounded a prepared i l last (w : LlmWorld (B:=B)) o w' :
  fits prepared → try_models lc rm a prepared i l last w = (o, w') →
  o ≠ chat_out_of_fuel ∧
  ∃ tried rest tss, l = tried ++ rest ∧ tried_in_order tried tss ∧ logged (concat tss) w w'.
Proof.
  intros Hfit. revert i last w. induction l as [|m l IH]; intros i last w; cbn [try_models].
  { intros [= <- <-]. split; [done|]. exists [], [], []. split_and!; [done|constructor|apply logged_nil]. }
  destruct (_complete_structured lc rm a prepared m (_fallback_level i) w) as [out w1] eqn:Hc.
  apply complete_bounded in Hc as [[r ->] (ts & Hn & Hts & Hlog)]; [|done].
  assert (∃ tried rest tss, m :: l = tried ++ rest ∧ tried_in_order tried tss ∧ logged (concat tss) w w1) as Hdone.
  { exists [m], l, [ts]. split_and!; [done|constructor; [done|constructor]|]. cbn. by rewrite app_nil_r. }
  destruct r as [x|[raw parsed]]; [|by intros [= <- <-]]. destruct (falls_back x) as [f|]; [|by intros [= <- <-]].
  intros (Ho & tried & rest & tss & -> & Htss & Hl)%IH. split; [done|].
  exists (m :: tried), rest, (ts :: tss). split_and!; [done|by constructor|]. cbn. by eapply logged_app.
Qed.

(** C31. A chat always ends, whatever provider, parser, budget and guard answer: it tries the configured
    models in their order, a first part of them, with at most four attempts at each.  An attempt sends
    at most one request, for its model and, when no message budgeter is configured, within the input
    limit, and leaves at most one row for it in the audit log; what the chat sends and logs is what
    these attempts do, after the earlier requests and rows. *)
Theorem chat_bounded a messages (w : LlmWorld (B:=B)) :
  let '(o, w') := chat lc rm a messages w in
  o ≠ chat_out_of_fuel ∧
  ∃ tried rest tss, chat_models lc = tried ++ rest ∧ tried_in_order tried tss ∧ logged (concat tss) w w'.
Proof.
  destruct (chat lc rm a messages w) as [o w'] eqn:Hc. unfold chat in Hc.
  destruct (_validate_context a messages) as [x|].
  { injection Hc as <- <-. split; [done|]. exists [], (chat_models lc), [].
    split_and!; [done|constructor|apply logged_nil]. }
  eapply try_models_bounded; [|exact Hc]. intros ?. by apply fit_admissible.
Qed.
End bounded.

(** ** A spent budget stops the requests *)

Section refused.
Context {B : Type} `{BudgetMeter B} {A : Type} (lc : LlmClient) (rm : option (ResponseModel A)).

Lemma refused_attempt a messages m level max_tokens json (w w' : LlmWorld (B:=B)) x out :
  (bm_check (lw_meter w) (ch_event_id a) (ch_agent_name a)).1 = Some x → is_shadow x = true →
  _attempt lc rm a messages m level max_tokens json w = (out, w') →
  lw_requests w' = lw_requests w ∧ ∃ y, out = inl y ∧ falls_back y = None ∧
    match y with r_llm f => lf_class f ≠ LLMInvalidJSONError | _ => True end.
Proof.
  intros Hx Hs. unfold _attempt.
  destruct (_check_convergence lc a m (tick w)) as [[f|] w1] eqn:Hg.
  { pose proof Hg as (_ & Hr & _)%check_convergence_logs. intros [= <- <-]. split; [done|]. eexists. split; [done|].
    unfold _check_convergence in Hg. destruct (lw_guard (tick w)); [|done]. destruct (stop _); [|done].
    injection Hg as <- _. done. }
  apply check_convergence_logs in Hg as (_ & Hr & _ & Hm). cbn in Hr, Hm.
  unfold request_phase. rewrite Hm. destruct (bm_check _ _ _) as [[y|] b]; [|done]. cbn in Hx. injection Hx as ->.
  assert (ex_class x ≠ SoftTimeLimitExceeded) as Hc.
  { unfold is_shadow in Hs. intros He. by rewrite He in Hs. }
  unfold phase_of, caught. rewrite bool_decide_eq_false_2, Hs by done. cbn [fst snd].
  destruct (_record_audit _ _ _ _) as [y w2] eqn:Ha. pose proof Ha as (_ & Hr2 & _)%record_audit_logs.
  intros [= <- <-]. cbn in Hr2. split; [by rewrite Hr2|]. eexists. split; [done|].
  unfold _record_audit in Ha. destruct (lc_audit lc _); injection Ha as <- _; done.
Qed.

Lemma refused_chat a messages (w : LlmWorld (B:=B)) x :
  (bm_check (lw_meter w) (ch_event_id a) (ch_agent_name a)).1 = Some x → is_shadow x = true →
  ∃ y w', chat lc rm a messages w = (chat_raises y, w') ∧ lw_requests w' = lw_requests w.
Proof.
  intros Hx Hs. unfold chat, chat_models. destruct (_validate_context a messages); [by eexists _, _|]. cbn [try_models].
  unfold _complete_structured, complete_fuel. cbn [complete_loop].
  match goal with |- context [_attempt ?l ?r ?a ?m ?n ?v ?t ?j ?w0] =>
    destruct (_attempt l r a m n v t j w0) as [out w1] eqn:Ha end.
  eapply refused_attempt in Ha as (Hr & y & -> & Hf & Hc); [|done..].
  destruct y as [[[] ? ? ? ?]|x'|]; cbn in Hc; try done; rewrite Hf; by eexists _, _.
Qed.
End refused.

(** [BudgetService] as the meter of a client: one worker's state, the shared counters, and what Redis
    answers to the calls in turn. *)
Section service.
Context {R : Type} `{RedisBudgetLaws R} (rv : ReservationEnv) (bs : BudgetSettings).

Record ServiceMeter : Type := {
  sm_state : BudgetState;
  sm_redis : R;
  sm_answers : nat → RedisAnswers;
  sm_clock : nat
}.

#[local] Instance service_meter : BudgetMeter ServiceMeter := {|
  bm_check m e g :=
    let '(out, st) := budget_check rv bs (sm_answers m (sm_clock m)) (sm_state m) (sm_redis m) e g in
    (check_answer out, {| sm_state := st; sm_redis := sm_redis m; sm_answers := sm_answers m;
                          sm_clock := S (sm_clock m) |});
  bm_charge m e g md p q :=
    let '(st, r) := (charge_llm rv bs (sm_answers m (sm_clock m)) (sm_answers m (S (sm_clock m)))
                       (sm_state m) (sm_redis m) e g md p q).2 in
    (None, {| sm_state := st; sm_redis := r; sm_answers := sm_answers m; sm_clock := S (S (sm_clock m)) |})
|}.

Lemma budget_check_error a st (r : R) e g x :
  (budget_check rv bs a st r e g).1 = Err x → is_shadow (exc_of_error x) = true.
Proof.
  unfold budget_check. destruct (negb _); [done|]. destruct (get_usage rv a st r e) as [u st']. cbn.
  unfold _raise_if_exceeded. destruct (event_token_budget bs <? _); [by intros [= <-]|].
  destruct (q_lt _ _); [by intros [= <-]|]. destruct (per_agent_cap bs <? _); [by intros [= <-]|].
  destruct (global_budget bs <? _); [by intros [= <-]|done].
Qed.

(** C32. A spent budget stops the model calls: while Redis answers, once the tokens charged by all
    workers for an event, for one of its agents or in all exceed a limit, no chat of that agent for
    the event sends a request, to whatever model; it raises. *)
Theorem spent_budget_stops_llm {A} (lc : LlmClient) (rm : option (ResponseModel A)) a messages
    (w : BudgetWorld (R:=R)) l (lw : LlmWorld (B:=ServiceMeter)) :
  rv_has_redis rv = true → bs_enabled bs = true → (0 <= event_cost_budget bs)%Q → ch_agent_name a ≠ "" →
  idle w → Forall (executes w) l → Forall reliable_step l →
  reliable (sm_answers (lw_meter lw) (sm_clock (lw_meter lw))) → undegraded (sm_state (lw_meter lw)) →
  sm_redis (lw_meter lw) = bw_redis (world_run rv bs w l) →
  (event_token_budget bs < charged (R:=R) (EventTokens (ch_event_id a)) l ∨
   per_agent_cap bs < charged (R:=R) (AgentTokens (ch_event_id a) (ch_agent_name a)) l ∨
   global_budget bs < charged (R:=R) SystemTokens l) →
  ∃ x lw', chat lc rm a messages lw = (chat_raises x, lw') ∧ lw_requests lw' = lw_requests lw.
Proof.
  intros Hr Hen Hcost Hg Hw Hx Hl Ha Hst Hred Hover.
  pose proof (budget_enforced rv bs w l _ _ (ch_event_id a) _ Hr Hen Hcost Hg Hw Hx Hl Ha Hst) as Hiff.
  rewrite <-Hred in Hiff.
  destruct (budget_check rv bs (sm_answers (lw_meter lw) (sm_clock (lw_meter lw))) (sm_state (lw_meter lw))
              (sm_redis (lw_meter lw)) (ch_event_id a) (ch_agent_name a)) as [[[]|e] st] eqn:Hc; cbn in Hiff.
  { destruct (proj1 Hiff eq_refl) as (? & ? & ?). lia. }
  apply (refused_chat lc rm a messages lw (exc_of_error e)).
  - cbn. by rewrite Hc.
  - eapply budget_check_error. by rewrite Hc.
Qed.
End service.

(** ** What is charged *)

(** A meter that keeps the charges made through it. *)
Record Charge : Type := {
  cg_event_id : string;
  cg_agent_name : string;
  cg_model_name : string;
  cg_prompt_tokens : Z;
  cg_completion_tokens : Z
}.

#[global] Instance logged_meter {B} `{BudgetMeter B} : BudgetMeter (B * list Charge) := {|
  bm_check b e g := let '(x, b') := bm_check b.1 e g in (x, (b', b.2));
  bm_charge b e g m p q :=
    let '(x, b') := bm_charge b.1 e g m p q in
    (x, (b', b.2 ++ [{| cg_event_id := e; cg_agent_name := g; cg_model_name := m; cg_prompt_tokens := p;
                        cg_completion_tokens := q |}]))
|}.

Section rejected.
Context {B : Type} `{BudgetMeter B} {A : Type} (lc : LlmClient) (rm : option (ResponseModel A)).
Context (a : ChatArgs) (raw : ProviderResponse) (f : LlmFailure).
Hypothesis Haudit : ∀ n, lc_audit lc n = audited.
Hypothesis Hanswer : ∀ n q, lc_request lc n q = answered raw.
Hypothesis Hparse : _parse lc rm (pr_content raw) (pr_finish_reason raw) = inl f.

(** The next [n] budget checks pass. *)
Fixpoint checks_pass (n : nat) (b : B) : Prop :=
  match n with
  | O => True
  | S n => (bm_check b (ch_event_id a) (ch_agent_name a)).1 = None ∧
           checks_pass n (bm_check b (ch_event_id a) (ch_agent_name a)).2
  end.

(** The guard, if there is one, allows the next [n] calls of the model. *)
Fixpoint guard_allows (n : nat) (m : string) (g : gmap string ConvergenceState) : Prop :=
  match n with
  | O => True
  | S n => let g' := record_step (lc_signature lc) g (ch_event_id a) (llm_step a m) in
           stop (should_stop (lc_memory lc) g' (ch_event_id a)) = false ∧ guard_allows n m g'
  end.

Definition admits (n : nat) (m : string) (w : LlmWorld (B:=B * list Charge)) : Prop :=
  checks_pass n (lw_meter w).1 ∧ match lw_guard w with None => True | Some g => guard_allows n m g end.

(** [n] requests were sent and audited with their tokens, and nothing was charged. *)
Definition uncharged (n : nat) (w w' : LlmWorld (B:=B * list Charge)) : Prop :=
  length (lw_requests w') = (length (lw_requests w) + n)%nat ∧
  total la_total_tokens (lw_audits w') = total la_total_tokens (lw_audits w) + Z.of_nat n * total_tokens_of raw ∧
  (lw_meter w').2 = (lw_meter w).2.

Lemma uncharged_trans n m w1 w2 w3 : uncharged n w1 w2 → uncharged m w2 w3 → uncharged (n + m) w1 w3.
Proof.
  intros (Hr1 & Ha1 & Hm1) (Hr2 & Ha2 & Hm2). split_and!; [lia| |congruence].
  rewrite Ha2, Ha1. lia.
Qed.

Lemma total_app {X} (g : X → Z) l k : total g (l ++ k) = total g l + total g k.
Proof. unfold total. induction l as [|x l IH]; cbn; [done|]. rewrite IH. lia. Qed.

(** The guard lets an admitted call pass. *)
Lemma admitted_call n m (w : LlmWorld (B:=B * list Charge)) :
  admits (S n) m w →
  ∃ w1, _check_convergence lc a m (tick w) = (None, w1) ∧ lw_requests w1 = lw_requests w ∧
    lw_audits w1 = lw_audits w ∧ lw_meter w1 = lw_meter w ∧
    match lw_guard w1 with None => True | Some g => guard_allows n m g end.
Proof.
  intros [_ Hg]. unfold _check_convergence. cbn [lw_guard tick]. destruct (lw_guard w) as [g|] eqn:Eg.
  - destruct Hg as [Hs Hg]. rewrite Hs. by eexists.
  - eexists. split_and!; [done..|]. cbn. by rewrite Eg.
Qed.

Lemma rejected_attempt n messages m level max_tokens (w : LlmWorld (B:=B * list Charge)) :
  admits (S n) m w →
  ∃ w', _attempt lc rm a messages m level max_tokens true w = (inl (r_llm f), w') ∧ uncharged 1 w w' ∧
    admits n m w'.
Proof.
  intros Had. destruct (admitted_call _ _ _ Had) as (w1 & Hw1 & Hr & Ha & Hm & Hg).
  destruct Had as [[Hc Hcs] _]. unfold _attempt. rewrite Hw1. unfold request_phase. cbn. rewrite Hm.
  destruct (bm_check (lw_meter w).1 _ _) as [x b]. cbn in Hc, Hcs. subst x.
  cbn. rewrite Hanswer. unfold settle_phase. rewrite Hparse. unfold _record_audit. rewrite Haudit. cbn.
  eexists. split; [done|]. split; [|by split]. unfold uncharged.
  cbn -[total audit_row Z.of_nat Z.mul]. rewrite length_app, total_app, Hr, Ha.
  split_and!; [done| |done]. f_equal. unfold audit_row.
  destruct (classify_llm_call_failure _ _ _) as [c d]. unfold total. cbn [foldr la_total_tokens from_option]. lia.
Qed.

(** C38. An answer that cannot be used is never charged.  When the provider's answers are cut off and no
    valid JSON, the audit log works, and neither the budget check nor the guard stops the next three
    calls, a chat sends three requests and raises; the audit log shows the tokens of all three, but
    no charge is made, whatever budget service is wired in. *)
Theorem rejected_answers_uncharged messages io (w : LlmWorld (B:=B * list Charge)) :
  require_json rm a = true → _validate_context a messages = None → admits 3 (lc_primary_model lc) w →
  lf_class f = LLMInvalidJSONError → lf_retryable f = false → lf_invalid f = Some io →
  io_error_class io ≠ "empty_content" → cut_off io = true →
  ∃ w', chat lc rm a messages w = (chat_raises (r_llm f), w') ∧
    length (lw_requests w') = (length (lw_requests w) + 3)%nat ∧
    total la_total_tokens (lw_audits w') = total la_total_tokens (lw_audits w) + 3 * total_tokens_of raw ∧
    (lw_meter w').2 = (lw_meter w).2.
Proof.
  intros Hj Hv Had Hc Hrt Hi He Hcut. pose proof rejected_attempt as Hrej. clear Hparse. unfold chat. rewrite Hv, Hj. unfold chat_models. cbn [try_models].
  change (_fallback_level 0) with 0.
  set (prepared := _fit_messages lc _). unfold _complete_structured, complete_fuel. rewrite Hj.
  unfold _EMPTY_CONTENT_RETRIES, _LENGTH_TRUNCATION_RETRIES. cbn [plus].
  destruct f as [c ms code b [io'|]]; cbn in Hc, Hrt, Hi; [|done]. subst c b. injection Hi as ->.
  cbn [complete_loop]. rewrite Hj.
  destruct (Hrej 2%nat prepared (lc_primary_model lc) 0 (ch_max_tokens a) w Had) as (w1 & -> & H1 & Had1).
  rewrite (bool_decide_eq_false_2 _ He), Hcut.
  destruct (Hrej 1%nat prepared (lc_primary_model lc) 0 (bump_max_tokens (ch_max_tokens a)) w1 Had1)
    as (w2 & -> & H2 & Had2).
  rewrite (bool_decide_eq_false_2 _ He). unfold _repair_json.
  match goal with |- context [_attempt _ _ _ ?m ?n ?v ?t true w2] =>
    destruct (Hrej 0%nat m n v t w2 Had2) as (w3 & -> & H3 & _) end.
  cbn [falls_back lf_class lf_retryable]. rewrite andb_false_r. exists w3.
  destruct (uncharged_trans _ _ _ _ _ (uncharged_trans _ _ _ _ _ H1 H2) H3) as (Hr & Ha & Hm). done.
Qed.
End rejected.

(** ** Fallbacks and the guard *)

Section fallback.
Context {B : Type} `{BudgetMeter B} {A : Type} (lc : LlmClient) (rm : option (ResponseModel A)).
Context (a : ChatArgs) (p fb : string) (raw : ProviderResponse) (f : LlmFailure).

(** The primary model is down with an error after which the next model is tried; the fallback model
    answers; audit log, budget and the persistence of the guard work. *)
Record primary_down : Prop := {
  pd_models : chat_models lc = [p; fb];
  pd_distinct : p ≠ fb;
  pd_audit : ∀ n, lc_audit lc n = audited;
  pd_refuses : ∀ n q, lq_model_name q = p → lc_request lc n q = refused f;
  pd_error : lf_class f ≠ LLMInvalidJSONError ∧ falls_back (r_llm f) = Some f;
  pd_answers : ∀ n q, lq_model_name q = fb → lc_request lc n q = answered raw;
  pd_usable : require_json rm a = true → ∃ x, _parse lc rm (pr_content raw) (pr_finish_reason raw) = inr x;
  pd_check : ∀ b : B, (bm_check b (ch_event_id a) (ch_agent_name a)).1 = None;
  pd_charge : ∀ (b : B) r, (bm_charge b (ch_event_id a) (ch_agent_name a) (pr_model_name r) (pr_prompt_tokens r)
                              (pr_completion_tokens r)).1 = None;
  pd_persists : ∀ st d, _persist_convergence_state (lc_memory lc) (ch_event_id a) st d = true
}.

(** The state of a guard that only saw model calls. *)
Definition calls_state (recent : list string) : ConvergenceState :=
  let n := Z.of_nat (length recent) in
  {| total_steps := n; react_rounds := 0; replan_count := 0; llm_calls := n; tool_call_signatures := [];
     recent_actions := recent |}.

Definition saw (w : LlmWorld (B:=B)) (recent : list string) : Prop :=
  ∃ g, lw_guard w = Some g ∧ _get_or_create_state g (ch_event_id a) = calls_state recent.

Definition label (m : string) : string :=
  "llm_call:" +++ ch_agent_name a +++ ":" +++ ch_prompt_key a +++ ":" +++ m.

Lemma label_inj m m' : label m = label m' → m = m'.
Proof. unfold label. intros Hl. by repeat apply (inj (String.append _)) in Hl. Qed.

Lemma llm_step_label m : step_label (lc_signature lc) (llm_step a m) = label m.
Proof.
  unfold step_label, effective_sig, llm_step. cbn [st_signature st_type].
  rewrite bool_decide_eq_false_2; [done|]. destruct (ch_agent_name a); done.
Qed.

Lemma record_call recent m :
  (length recent < 6)%nat → record_in_state (lc_signature lc) (llm_step a m) (calls_state recent) = calls_state (recent ++ [label m]).
Proof.
  intros Hl. unfold record_in_state, calls_state. rewrite llm_step_label. cbn [st_type llm_step recent_actions].
  change _RECENT_ACTIONS_MAXLEN with 6%nat. rewrite length_app. cbn [length].
  destruct (Nat.ltb_spec 6 (length recent + 1)); [lia|]. cbn [total_steps react_rounds replan_count llm_calls tool_call_signatures].
  replace (("llm_call" ∈? _VALID_STEP_TYPES) && ("llm_call" ==? "llm_call")) with true by reflexivity.
  f_equal; try done; lia.
Qed.

(** What the guard does on a call. *)
Lemma guarded_call m w recent :
  primary_down → (length recent < 6)%nat → saw w recent →
  let blocked := _detect_oscillation (recent ++ [label m]) in
  ∃ w', _check_convergence lc a m (tick w) =
      (if blocked is Some _ then Some (LLMError_init LLMProviderError "LLM request blocked by convergence guard" (Some false))
       else None, w') ∧
    saw w' (recent ++ [label m]) ∧ lw_requests w' = lw_requests w ∧ lw_meter w' = lw_meter w.
Proof.
  intros Hd Hl (g & Hg & Hst). unfold _check_convergence. cbn [lw_guard tick]. rewrite Hg.
  unfold record_step. rewrite Hst, record_call by done.
  exists (with_guard (<[ch_event_id a := calls_state (recent ++ [label m])]> g) (tick w)).
  split; [|split_and!; [|done..]].
  - f_equal. unfold should_stop. rewrite lookup_insert_eq.
    unfold calls_state at 1. cbn [total_steps llm_calls tool_call_signatures recent_actions].
    rewrite length_app. cbn [length].
    destruct (Z.leb_spec GLOBAL_MAX_STEPS (Z.of_nat (length recent + 1))); [unfold GLOBAL_MAX_STEPS in *; lia|].
    cbn [llm_calls calls_state]. rewrite length_app. cbn [length].
    destruct (Z.leb_spec MAX_TOTAL_LLM_CALLS (Z.of_nat (length recent + 1))); [unfold MAX_TOTAL_LLM_CALLS in *; lia|].
    cbn [List.find tool_call_signatures calls_state recent_actions]. cbn zeta.
    destruct (_detect_oscillation _) as [[x y]|]; [|done]. unfold _stop_decision. by rewrite (pd_persists Hd).
  - eexists. split; [done|]. unfold _get_or_create_state. by rewrite lookup_insert_eq.
Qed.

Lemma down_attempt messages level max_tokens json w recent :
  primary_down → (length recent < 6)%nat → _detect_oscillation (recent ++ [label p]) = None → saw w recent →
  ∃ w', _attempt lc rm a messages p level max_tokens json w = (inl (r_llm f), w') ∧ saw w' (recent ++ [label p]) ∧
    length (lw_requests w') = S (length (lw_requests w)).
Proof.
  intros Hd Hl Ho Hs. destruct (guarded_call p w recent Hd Hl Hs) as (w1 & Hg & Hs1 & Hr & Hm). rewrite Ho in Hg.
  unfold _attempt. rewrite Hg. unfold request_phase. pose proof (pd_check Hd (lw_meter w1)) as Hc.
  destruct (bm_check _ _ _) as [x b]. cbn in Hc. subst x. rewrite (pd_refuses Hd) by done.
  unfold _record_audit. rewrite (pd_audit Hd). cbn. eexists. split; [done|]. split; [done|].
  cbn. rewrite length_app, Hr. cbn. lia.
Qed.

Lemma served_attempt messages level max_tokens w recent :
  primary_down → (length recent < 6)%nat → _detect_oscillation (recent ++ [label fb]) = None → saw w recent →
  ∃ x w', _attempt lc rm a messages fb level max_tokens (require_json rm a) w = (inr x, w') ∧
    saw w' (recent ++ [label fb]) ∧ length (lw_requests w') = S (length (lw_requests w)).
Proof.
  intros Hd Hl Ho Hs. destruct (guarded_call fb w recent Hd Hl Hs) as (w1 & Hg & Hs1 & Hr & Hm). rewrite Ho in Hg.
  unfold _attempt. rewrite Hg. unfold request_phase. pose proof (pd_check Hd (lw_meter w1)) as Hc.
  destruct (bm_check _ _ _) as [x b]. cbn in Hc. subst x. rewrite (pd_answers Hd) by done. unfold settle_phase.
  assert (∃ r, (if require_json rm a
     then match _parse lc rm (pr_content raw) (pr_finish_reason raw) with
          | inl f => inl f
          | inr (parsed, payload) => inr (with_body (lc_json_dumps lc payload) raw, parsed)
          end
     else inr (raw, None)) = inr r) as [[r parsed] ->].
  { destruct (require_json rm a) eqn:Hj; [|by eexists]. destruct (pd_usable Hd Hj) as [[y z] ->]. by eexists. }
  pose proof (pd_charge Hd (lw_meter (log_request {| lq_messages := messages; lq_model_name := fb;
    lq_temperature := ch_temperature a; lq_max_tokens := max_tokens; lq_json_mode := require_json rm a |}
    (with_meter b w1))) r) as Hc.
  destruct (bm_charge _ _ _ _ _ _) as [x b']. cbn in Hc. subst x. unfold _record_audit. rewrite (pd_audit Hd).
  eexists _, _. split; [done|]. split; [done|]. cbn. rewrite length_app, Hr. cbn. lia.
Qed.

Lemma guarded_attempt_blocked messages m level max_tokens json w recent :
  primary_down → (length recent < 6)%nat → is_Some (_detect_oscillation (recent ++ [label m])) → saw w recent →
  ∃ w', _attempt lc rm a messages m level max_tokens json w =
      (inl (r_llm (LLMError_init LLMProviderError "LLM request blocked by convergence guard" (Some false))), w') ∧
    lw_requests w' = lw_requests w.
Proof.
  intros Hd Hl [xy Ho] Hs. destruct (guarded_call m w recent Hd Hl Hs) as (w1 & Hg & _ & Hr & _). rewrite Ho in Hg.
  unfold _attempt. rewrite Hg. by exists w1.
Qed.

(** A chat that reaches the fallback model. *)
Lemma fallback_chat messages w recent :
  primary_down → (length recent < 5)%nat → _validate_context a messages = None → saw w recent →
  _detect_oscillation (recent ++ [label p]) = None →
  (_detect_oscillation ((recent ++ [label p]) ++ [label fb]) = None →
   ∃ r w', chat lc rm a messages w = (chat_returns r, w') ∧ lr_fallback_level r = 1 ∧
     saw w' ((recent ++ [label p]) ++ [label fb]) ∧ length (lw_requests w') = (length (lw_requests w) + 2)%nat) ∧
  (is_Some (_detect_oscillation ((recent ++ [label p]) ++ [label fb])) →
   ∃ x w', chat lc rm a messages w = (chat_raises (r_llm x), w') ∧
     lf_message x = "LLM request blocked by convergence guard" ∧
     length (lw_requests w') = S (length (lw_requests w))).
Proof.
  intros Hd Hl Hv Hs Ho. unfold chat. rewrite Hv, (pd_models Hd). cbn [try_models].
  set (prepared := _fit_messages lc _). unfold _complete_structured, complete_fuel. cbn [complete_loop].
  destruct (down_attempt prepared (_fallback_level 0) (ch_max_tokens a) (require_json rm a) w recent Hd ltac:(lia) Ho Hs)
    as (w1 & -> & Hs1 & Hr1). destruct (pd_error Hd) as [Hc Hf].
  assert (length (recent ++ [label p]) < 6)%nat as Hl1 by (rewrite length_app; cbn; lia).
  destruct f as [[] ms code b io]; try done; rewrite Hf; (split; intros Ho2;
    [destruct (served_attempt prepared (_fallback_level 1) (ch_max_tokens a) w1 _ Hd Hl1 Ho2 Hs1) as ([r parsed] & w2 & -> & Hs2 & Hr2);
     eexists _, _; (split; [done|]); (split; [done|]); (split; [done|lia])
    |destruct (guarded_attempt_blocked prepared fb (_fallback_level 1) (ch_max_tokens a) (require_json rm a) w1 _ Hd Hl1 Ho2 Hs1)
       as (w2 & -> & Hr2); eexists _, _; (split; [done|]); (split; [done|congruence])]).
Qed.

(** The guard cuts off the fallback.  While the primary model is down and the fallback model works,
    the first chat of an agent on an event is answered by the fallback model; the second one tries the
    primary model again, and its fallback is refused as an oscillation between the two models, so that
    the chat fails although a model could answer. *)
Theorem second_fallback_refused messages g w :
  primary_down → _validate_context a messages = None → lw_guard w = Some g → g !! ch_event_id a = None →
  ∃ r w1 x w2, chat lc rm a messages w = (chat_returns r, w1) ∧ lr_fallback_level r = 1 ∧
    chat lc rm a messages w1 = (chat_raises (r_llm x), w2) ∧
    lf_message x = "LLM request blocked by convergence guard" ∧
    length (lw_requests w2) = S (length (lw_requests w1)).
Proof.
  intros Hd Hv Hg He.
  assert (saw w []) as Hs by (exists g; split; [done|]; unfold _get_or_create_state; by rewrite He).
  destruct (proj1 (fallback_chat messages w [] Hd ltac:(cbn; lia) Hv Hs eq_refl) eq_refl) as (r & w1 & H1 & Hr & Hs1 & _).
  assert (is_Some (_detect_oscillation ((([label p] ++ [label fb]) ++ [label p]) ++ [label fb]))) as Ho.
  { exists (label p, label fb). apply (proj2 (detect_oscillation_spec (lc_signature lc) _ _ _)). split; [|by exists []].
    intros Hl%label_inj. by destruct (pd_distinct Hd). }
  destruct (proj2 (fallback_chat messages w1 [label p; label fb] Hd ltac:(cbn; lia) Hv Hs1 eq_refl) Ho) as (x & w2 & H2 & Hx & Hr2).
  exists r, w1, x, w2. done.
Qed.
End fallback.
