(* ===== verification/LlmScenarios.v ===== *)
(** * Budgets and model calls on concrete inputs, and the witnesses of the theorems on them *)

From stdpp Require Import prelude strings gmap.
From Stdlib Require Import QArith.
From S2P Require Import Prelude Enums Errors Db ExecutionResults ConvergenceGuard CircuitBreaker ErrorTaxonomy.
From S2P Require Import ToolMeta ToolRegistry ToolExecutor ToolExecutorFacts Lease BudgetReservation ToolScenarios.
From S2P Require Import Detection FeatureSnapshots DetectionFacts Budget BudgetFacts Llm LlmFacts.

#[local] Open Scope string_scope.
#[local] Open Scope Z_scope.

(** ** The server *)

Record MemoryRedis : Type := {
  mr_keys : gmap string Z;
  mr_hashes : gmap string (gmap string Z)
}.

Definition hash_of (r : MemoryRedis) (key : string) : gmap string Z := default ∅ (mr_hashes r !! key).

Definition hash_add (r : MemoryRedis) (key field : string) (n : Z) : MemoryRedis :=
  {| mr_keys := mr_keys r;
     mr_hashes := <[key := <[field := default 0 (hash_of r key !! field) + n]> (hash_of r key)]> (mr_hashes r) |}.

Definition exec_one (r : MemoryRedis) (c : command) : MemoryRedis :=
  match c with
  | incrby k n => {| mr_keys := <[k := default 0 (mr_keys r !! k) + n]> (mr_keys r); mr_hashes := mr_hashes r |}
  | hincrby k f n | hincrbyfloat k f n => hash_add r k f n
  end.

#[global] Instance memory_redis : RedisBudget MemoryRedis := {|
  rb_get := λ r k, default 0 (mr_keys r !! k);
  rb_hgetall := λ r k, map_to_list (hash_of r k);
  rb_exec := foldl exec_one;
  rb_delete := λ r k, {| mr_keys := delete k (mr_keys r); mr_hashes := delete k (mr_hashes r) |}
|}.

Lemma dict_get_elem_iff (l : list (string * Z)) k v : NoDup l.*1 → dict_get l k = Some v ↔ (k, v) ∈ l.
Proof.
  induction l as [|[k' v'] l IH]; cbn; [set_solver|]. intros [Hni Hnd]%NoDup_cons. case_bool_decide as Hk.
  - subst k'. split; [intros [= ->]; by left|]. intros [[= ->]|Hin]%elem_of_cons; [done|].
    destruct Hni. apply list_elem_of_fmap. by exists (k, v).
  - rewrite IH by done. set_solver.
Qed.

Lemma hget_hash (r : MemoryRedis) key f : hget r key f = default 0 (hash_of r key !! f).
Proof.
  unfold hget. cbn. destruct (hash_of r key !! f) as [v|] eqn:Hv.
  - assert (dict_get (map_to_list (hash_of r key)) f = Some v) as ->; [|done].
    apply dict_get_elem_iff; [apply NoDup_fst_map_to_list|]. by apply elem_of_map_to_list.
  - destruct (dict_get _ f) as [v|] eqn:Hd; [|done]. apply dict_get_elem_iff in Hd; [|apply NoDup_fst_map_to_list].
    apply elem_of_map_to_list in Hd. congruence.
Qed.

Lemma hash_add_get r k f n key field :
  hget (hash_add r k f n) key field = hget r key field + (if (k ==? key) && (f ==? field) then n else 0).
Proof.
  rewrite !hget_hash. unfold hash_add, hash_of at 1. cbn [mr_hashes].
  destruct (decide (k = key)) as [->|Hk].
  - rewrite lookup_insert_eq, bool_decide_eq_true_2 by done. cbn.
    destruct (decide (f = field)) as [->|Hf].
    + by rewrite lookup_insert_eq, bool_decide_eq_true_2.
    + rewrite lookup_insert_ne, bool_decide_eq_false_2 by done. lia.
  - rewrite lookup_insert_ne, bool_decide_eq_false_2 by done. cbn. fold (hash_of r key). lia.
Qed.

Lemma exec_one_get r c key field :
  rb_get (exec_one r c) key = rb_get r key + adds_to_key key c ∧
  hget (exec_one r c) key field = hget r key field + adds_to_field key field c.
Proof.
  destruct c as [k n|k f n|k f n]; cbn [exec_one adds_to_key adds_to_field].
  - split; [|rewrite !hget_hash; unfold hash_of; cbn; lia]. cbn. case_bool_decide as Hk.
    + subst k. by rewrite lookup_insert_eq.
    + rewrite lookup_insert_ne by done. lia.
  - split; [cbn; lia|apply hash_add_get].
  - split; [cbn; lia|apply hash_add_get].
Qed.

#[global] Instance memory_redis_laws : RedisBudgetLaws MemoryRedis.
Proof.
  split.
  - intros r key. cbn. apply NoDup_fst_map_to_list.
  - intros r cs key. change (rb_exec r cs) with (foldl exec_one r cs). revert r.
    induction cs as [|c cs IH]; intros r; [unfold total; cbn; lia|]. cbn [foldl]. rewrite IH.
    destruct (exec_one_get r c key "") as [-> _]. unfold total. cbn [foldr]. lia.
  - intros r cs key field. change (rb_exec r cs) with (foldl exec_one r cs). revert r.
    induction cs as [|c cs IH]; intros r; [unfold total; cbn; lia|]. cbn [foldl]. rewrite IH.
    destruct (exec_one_get r c key field) as [_ ->]. unfold total. cbn [foldr]. lia.
  - intros r key key' field. rewrite !hget_hash. unfold hash_of. cbn. case_bool_decide as Hk.
    + subst key'. by rewrite lookup_delete_eq.
    + by rewrite lookup_delete_ne.
  - intros r key key' Hk. cbn. by rewrite lookup_delete_ne.
Qed.

(** ** Two workers *)

Definition demo_reservation : ReservationEnv := {|
  rv_has_redis := true; rv_attempt_recovery := true; rv_recovery_interval := 5
|}.

Definition demo_settings : BudgetSettings := {|
  bs_enabled := true; bs_llm_mode := "live"; bs_event_token_budget := 0; bs_event_cost_budget_usd := 0%Q;
  bs_per_agent_token_cap := 80000; bs_global_token_budget := 0
|}.

Definition redis_answers (net : Net) : RedisAnswers := {|
  ra_ping := Ok true; ra_now := 0; ra_probe_ping := Ok true; ra_probe_get := Ok tt; ra_client := true; ra_net := net
|}.

Definition away : RedisAnswers := {|
  ra_ping := Ok false; ra_now := 0; ra_probe_ping := Ok false; ra_probe_get := Ok tt; ra_client := true; ra_net := connected
|}.

Definition new_worker : BudgetState := {|
  bt_system_tokens := 0; bt_events := ∅; bt_degraded := false; bt_pinned := ∅; bt_last_probe := 0
|}.

Definition two_workers : BudgetWorld (R:=MemoryRedis) := {|
  bw_workers := [new_worker; new_worker]; bw_redis := {| mr_keys := ∅; mr_hashes := ∅ |}
|}.

Definition spend (worker : nat) (agent : string) (tokens : Z) (net : Net) : step :=
  (worker, BLlm "evt-1" agent "gpt" tokens 0, redis_answers net, redis_answers connected).

Definition spending : list step := [spend 0 "triage" 60000 connected; spend 1 "agent" 50000 connected].

(** A charge whose reply is lost is counted twice, the other one once. *)
Lemma charges_are_counted_witness :
  let l := [spend 0 "triage" 600 (lost_after (builtin_error ConnectionError "")); spend 1 "agent" 50 connected] in
  Forall (executes two_workers) l ∧ charged (R:=MemoryRedis) (EventTokens "evt-1") l = 650 ∧
  counted_in (meter_of (R:=MemoryRedis) (EventTokens "evt-1")) (world_run demo_reservation demo_settings two_workers l) = 1250 ∧
  650 ≤ counted_in (meter_of (R:=MemoryRedis) (EventTokens "evt-1")) (world_run demo_reservation demo_settings two_workers l).
Proof.
  cbn zeta. assert (Forall (executes two_workers)
    [spend 0 "triage" 600 (lost_after (builtin_error ConnectionError "")); spend 1 "agent" 50 connected]) as Hx.
  { repeat constructor. }
  split; [exact Hx|]. split; [vm_compute; reflexivity|]. split; [vm_compute; reflexivity|].
  destruct (charges_are_counted demo_reservation demo_settings (EventTokens "evt-1") two_workers _ Hx) as [[Hle _] _].
  revert Hle. vm_compute. auto.
Defined.

Lemma two_workers_idle : idle two_workers.
Proof.
  split; [|split; [|reflexivity]].
  - repeat constructor.
  - intros e f. rewrite hget_hash. unfold hash_of. cbn. by rewrite lookup_empty.
Qed.

#[local] Existing Instance memory_jobs.
#[local] Instance budget_guard : GuardPort (gmap string ConvergenceState) := convergence_port by_name None.

Definition budgeted_env : CallEnv (G := gmap string ConvergenceState) (J := gmap string ActionExecutionJob) := {|
  ce_call_id := "c-1"; ce_audit_ok := true; ce_schemas := demo_schemas;
  ce_budget := Some {|
    bu_check := check_answer (budget_check demo_reservation demo_settings (redis_answers connected) new_worker
                  (bw_redis (world_run demo_reservation demo_settings two_workers spending)) "evt-1" "agent").1;
    bu_charge := λ _, None |};
  ce_parse_result := demo_parse; ce_parse_job := λ _, None; ce_allow_now := λ _, 100;
  ce_record_now := λ _, 101; ce_elapsed_ms := λ _, 5;
  ce_answer := λ _, returned [("status", VStr "success")]; ce_others := λ _ s, s
|}.

Lemma spent_budget_stops_tools_witness :
  event_token_budget demo_settings < charged (R:=MemoryRedis) (EventTokens "evt-1") spending ∧
  ∃ err, executor_call budgeted_env (demo_call "query_dns" None) demo_world = (x_raised err, demo_world).
Proof.
  assert (event_token_budget demo_settings < charged (R:=MemoryRedis) (EventTokens "evt-1") spending) as Hover
    by (vm_compute; reflexivity).
  split; [exact Hover|].
  refine (spent_budget_stops_tools demo_reservation demo_settings two_workers spending (redis_answers connected) new_worker
            "evt-1" "agent" budgeted_env (demo_call "query_dns" None) demo_world _ _ _ _ _ _ _ _ _ _ (or_introl Hover) _ _).
  - reflexivity.
  - reflexivity.
  - vm_compute. discriminate.
  - discriminate.
  - apply two_workers_idle.
  - repeat constructor.
  - repeat constructor.
  - repeat constructor.
  - repeat constructor.
  - reflexivity.
  - reflexivity.
Defined.

(** The same spending is forgotten when Redis goes away. *)
Lemma outage_forgets_usage_witness :
  let r := bw_redis (world_run demo_reservation demo_settings two_workers spending) in
  hget r (_event_key "evt-1") "tokens" = 110000 ∧
  (budget_check demo_reservation demo_settings away new_worker r "evt-1" "agent").1 = Ok tt.
Proof.
  cbn zeta. split; [vm_compute; reflexivity|].
  refine (proj1 (outage_forgets_usage demo_reservation demo_settings away away away new_worker
            (bw_redis (world_run demo_reservation demo_settings two_workers spending)) "evt-1" "agent" "gpt" 10 0
            _ _ _ _ _ _ _ _ _ _ _)).
  - reflexivity.
  - reflexivity.
  - vm_compute. discriminate.
  - discriminate.
  - repeat constructor.
  - reflexivity.
  - discriminate.
  - discriminate.
  - vm_compute. discriminate.
  - vm_compute. discriminate.
  - vm_compute. discriminate.
Defined.

(** * A small LLM client, and the witnesses of the theorems on it *)

Definition provider_response (content : string) (finish : option string) : ProviderResponse := {|
  pr_content := content; pr_model_name := "model"; pr_prompt_tokens := 900; pr_completion_tokens := 100;
  pr_total_tokens := 0; pr_finish_reason := finish
|}.

(** The decoder knows one JSON text. *)
Definition demo_client (request : nat → LLMRequest → ProviderAnswer) : LlmClient := {|
  lc_primary_model := "big"; lc_fallback_models := ["small"]; lc_message_budgeter := None;
  lc_max_input_tokens := 1000; lc_request := request; lc_latency_ms := λ _, 5; lc_audit := λ _, audited;
  lc_extract_json := λ s, if s ==? "{}" then inr [] else inl {| jf_message := "no JSON object found";
                                                               jf_error_class := "invalid_json" |};
  lc_json_dumps := λ _, "{}"; lc_redact := λ s, s; lc_signature := λ t _, t; lc_memory := None
|}.

Definition demo_chat : ChatArgs := {|
  ch_event_id := "evt-1"; ch_agent_name := "agent"; ch_prompt_key := "triage"; ch_temperature := 3 # 10;
  ch_max_tokens := 4096; ch_json_mode := true
|}.

Definition demo_messages : list LLMMessage := [message system "You triage events."; message user "evt-1"].

Definition any_model : option (ResponseModel unit) := None.

(** ** A budget two workers have spent *)

Definition spent_meter : ServiceMeter (R := MemoryRedis) := {|
  sm_state := new_worker; sm_redis := bw_redis (world_run demo_reservation demo_settings two_workers spending);
  sm_answers := λ _, redis_answers connected; sm_clock := 0
|}.

Definition spent_world : LlmWorld (B := ServiceMeter (R := MemoryRedis)) := MkLlmWorld None spent_meter [] [] 0.

Definition willing : LlmClient := demo_client (λ _ _, answered (provider_response "{}" None)).

Lemma spent_budget_stops_llm_witness :
  event_token_budget demo_settings < charged (R:=MemoryRedis) (EventTokens "evt-1") spending ∧
  ∃ x lw', chat (H := service_meter demo_reservation demo_settings) willing any_model demo_chat demo_messages spent_world =
             (chat_raises x, lw') ∧ lw_requests lw' = [].
Proof.
  assert (event_token_budget demo_settings < charged (R:=MemoryRedis) (EventTokens "evt-1") spending) as Hover
    by (vm_compute; reflexivity).
  split; [exact Hover|].
  refine (spent_budget_stops_llm demo_reservation demo_settings willing any_model demo_chat demo_messages two_workers
            spending spent_world _ _ _ _ _ _ _ _ _ _ (or_introl Hover)).
  - reflexivity.
  - reflexivity.
  - vm_compute. discriminate.
  - discriminate.
  - apply two_workers_idle.
  - repeat constructor.
  - repeat constructor.
  - repeat constructor.
  - repeat constructor.
  - reflexivity.
Defined.

(** ** A provider whose answers are cut off *)

Definition cut : ProviderResponse := provider_response "{ never closed" (Some "length").

Definition babbling : LlmClient := demo_client (λ _ _, answered cut).

Definition rejection : LlmFailure :=
  Eval vm_compute in match _parse babbling any_model (pr_content cut) (pr_finish_reason cut) with
                     | inl f => f | inr _ => LLMError_init LLMProviderError "" None end.

(** An enabled budget service that has spent nothing, and a guard that has seen nothing. *)
Definition unspent_meter : ServiceMeter (R := MemoryRedis) := {|
  sm_state := new_worker; sm_redis := bw_redis two_workers; sm_answers := λ _, redis_answers connected; sm_clock := 0
|}.

Definition metered_world : LlmWorld (B := ServiceMeter (R := MemoryRedis) * list Charge) :=
  MkLlmWorld (Some ∅) (unspent_meter, []) [] [] 0.

#[local] Instance live_meter : BudgetMeter (ServiceMeter (R := MemoryRedis)) :=
  service_meter demo_reservation demo_settings.

Lemma rejected_answers_uncharged_witness :
  bs_enabled demo_settings = true ∧
  ∃ w', chat babbling any_model demo_chat demo_messages metered_world = (chat_raises (r_llm rejection), w') ∧
    length (lw_requests w') = 3%nat ∧ total la_total_tokens (lw_audits w') = 3000 ∧ (lw_meter w').2 = [].
Proof.
  split; [reflexivity|].
  refine (rejected_answers_uncharged babbling any_model demo_chat cut rejection _ _ _ demo_messages
            {| io_invalid_content := "{ never closed"; io_validation_error := "no JSON object found";
               io_error_class := "invalid_json"; io_finish_reason := Some "length" |} metered_world _ _ _ _ _ _ _ _).
  - reflexivity.
  - reflexivity.
  - vm_compute. reflexivity.
  - reflexivity.
  - vm_compute. reflexivity.
  - vm_compute. repeat split; reflexivity.
  - reflexivity.
  - reflexivity.
  - reflexivity.
  - discriminate.
  - vm_compute. reflexivity.
Defined.

(** ** A primary model that is down *)

Definition overloaded : LlmFailure := LLMError_init LLMRateLimitedError "rate limited" None.

Definition degraded_client : LlmClient :=
  demo_client (λ _ q, if lq_model_name q ==? "big" then refused overloaded else answered (provider_response "{}" None)).

Definition guarded_world : LlmWorld (B := unit) := MkLlmWorld (Some ∅) tt [] [] 0.

Lemma second_fallback_refused_witness :
  ∃ r w1 x w2,
    chat degraded_client any_model demo_chat demo_messages guarded_world = (chat_returns r, w1) ∧
    lr_fallback_level r = 1 ∧
    chat degraded_client any_model demo_chat demo_messages w1 = (chat_raises (r_llm x), w2) ∧
    lf_message x = "LLM request blocked by convergence guard".
Proof.
  destruct (second_fallback_refused degraded_client any_model demo_chat "big" "small" (provider_response "{}" None)
              overloaded demo_messages ∅ guarded_world) as (r & w1 & x & w2 & H1 & H2 & H3 & H4 & _).
  - split.
    + reflexivity.
    + discriminate.
    + reflexivity.
    + intros n q Hq. cbn. by rewrite Hq.
    + split; [discriminate|reflexivity].
    + intros n q Hq. cbn. by rewrite Hq.
    + intros _. eexists. vm_compute. reflexivity.
    + reflexivity.
    + reflexivity.
    + reflexivity.
  - vm_compute. reflexivity.
  - reflexivity.
  - reflexivity.
  - exists r, w1, x, w2. split; [exact H1|]. split; [exact H2|]. split; [exact H3|exact H4].
Defined.
