(* ===== verification/React.v ===== *)
(** * The ReAct loop (models/react.py, orchestration/react_engine.py)

    [ReActEngine.run] repeats observe, think, act and reflect until one of its stop conditions holds:
    two LLM calls and at most one action per round.  The engine reaches LLM, executor, guard and trace
    log through [ReActPorts]; [ReadOnlyReActExecutor] is the one executor, over the grant-bound or the
    plain tool executor and a list of whitelisted agents.

    A confidence is a rational; the fixed text of the prompts is left out, what is put into them is an
    argument of the LLM.  Clock readings are left out of the traces. *)

From stdpp Require Import prelude strings gmap sorting pretty.
From Stdlib Require Import QArith Lia.
From S2P Require Import Prelude Enums Errors ErrorTaxonomy Db ExecutionResults ToolMeta ToolRegistry ConvergenceGuard.
From S2P Require Import CircuitBreaker ToolExecutor SafeProjection Lease BudgetReservation ToolGrants BoundExecutor Llm.

#[local] Open Scope string_scope.
#[local] Open Scope Z_scope.
#[local] Open Scope list_scope.

(** ** Python's texts *)

Definition hex_digit (n : nat) : Ascii.ascii :=
  Ascii.ascii_of_nat (if (n <? 10)%nat then 48 + n else 87 + n).

(** A character inside a string literal quoted by [q]. *)
Definition repr_char (q c : Ascii.ascii) : string :=
  let n := Ascii.nat_of_ascii c in
  let escaped s := String (Ascii.ascii_of_nat 92) s in
  if (c ==? q) || (n =? 92)%nat then escaped (String c EmptyString)
  else if (n =? 10)%nat then escaped "n"
  else if (n =? 13)%nat then escaped "r"
  else if (n =? 9)%nat then escaped "t"
  else if (n <? 32)%nat || (n =? 127)%nat
       then escaped (String (Ascii.ascii_of_nat 120) (String (hex_digit (n / 16)) (String (hex_digit (n mod 16)) EmptyString)))
  else String c EmptyString.

Fixpoint str_concat_map (f : Ascii.ascii → string) (s : string) : string :=
  match s with EmptyString => EmptyString | String c s => f c +++ str_concat_map f s end.

(** [repr(s)]: single quotes, unless the text has them and no double ones. *)
Definition repr_str (s : string) : string :=
  let single := Ascii.ascii_of_nat 39 in
  let double := Ascii.ascii_of_nat 34 in
  let has c := str_contains (String c EmptyString) s in
  let q := if has single && negb (has double) then double else single in
  String q (str_concat_map (repr_char q) s +++ String q EmptyString).

(** [repr(v)] *)
Fixpoint py_repr (v : pyval) : string :=
  match v with
  | VNone => "None"
  | VBool true => "True"
  | VBool false => "False"
  | VInt z => pretty z
  | VStr s => repr_str s
  | VList l => "[" +++ str_join ", " (map py_repr l) +++ "]"
  | VDict d => "{" +++ str_join ", " (map (λ kv, repr_str kv.1 +++ ": " +++ py_repr kv.2) d) +++ "}"
  end.

(** [str(v)] *)
Definition py_text (v : pyval) : string := match v with VStr s => s | _ => py_repr v end.

(** The nearest integer; ties to even. *)
Definition round_half_even (q : Q) : Z :=
  let d := Zpos (Qden q) in
  let n := Qnum q / d in
  match (2 * (Qnum q mod d) ?= d)%Z with
  | Lt => n
  | Gt => n + 1
  | Eq => if Z.even n then n else n + 1
  end.

(** [f"{q:.2f}"] for 0 ≤ q *)
Definition two_decimals (q : Q) : string :=
  let n := round_half_even (q * 100)%Q in
  pretty (n / 100) +++ "." +++ pretty ((n / 10) mod 10) +++ pretty (n mod 10).

(** ** Data (models/react.py) *)

Definition _MAX_DECISION_SUMMARY_CHARS : nat := 512.
Definition _MAX_ACTION_SUMMARY_CHARS : nat := 256.

Inductive ReActActionType : Type := CALL_TOOL | CALL_AGENT | FINISH.

#[global] Instance ReActActionType_eq_dec : EqDecision ReActActionType.
Proof. solve_decision. Defined.

Definition action_type_value (t : ReActActionType) : string :=
  match t with CALL_TOOL => "call_tool" | CALL_AGENT => "call_agent" | FINISH => "finish" end.

Inductive ReActStopReason : Type :=
| CONFIDENCE_MET | MAX_ROUNDS | FINISHED | BUDGET_EXHAUSTED | CONVERGED | ERROR.

#[global] Instance ReActStopReason_eq_dec : EqDecision ReActStopReason.
Proof. solve_decision. Defined.

Definition stop_reason_value (s : ReActStopReason) : string :=
  match s with
  | CONFIDENCE_MET => "confidence_met" | MAX_ROUNDS => "max_rounds" | FINISHED => "finished"
  | BUDGET_EXHAUSTED => "budget_exhausted" | CONVERGED => "converged" | ERROR => "error"
  end.

Inductive ReActReasonCode : Type :=
| UNSPECIFIED | CORROBORATE_INDICATOR | RESOLVE_ENTITY | CONFIRM_PATH | FILL_EVIDENCE_GAP
| STOP_SUFFICIENT | STOP_NO_TARGET | DEFAULT_FALLBACK.

Definition reason_code_value (r : ReActReasonCode) : string :=
  match r with
  | UNSPECIFIED => "unspecified" | CORROBORATE_INDICATOR => "corroborate_indicator"
  | RESOLVE_ENTITY => "resolve_entity" | CONFIRM_PATH => "confirm_path"
  | FILL_EVIDENCE_GAP => "fill_evidence_gap" | STOP_SUFFICIENT => "stop_sufficient"
  | STOP_NO_TARGET => "stop_no_target" | DEFAULT_FALLBACK => "default_fallback"
  end.

Inductive ReActGapCode : Type :=
| GAP_NONE | EVIDENCE_MISSING | ENTITY_UNRESOLVED | PATH_UNCONFIRMED | SCENARIO_EVIDENCE_MISSING.

#[global] Instance ReActGapCode_eq_dec : EqDecision ReActGapCode.
Proof. solve_decision. Defined.

Definition gap_code_value (g : ReActGapCode) : string :=
  match g with
  | GAP_NONE => "none" | EVIDENCE_MISSING => "evidence_missing" | ENTITY_UNRESOLVED => "entity_unresolved"
  | PATH_UNCONFIRMED => "path_unconfirmed" | SCENARIO_EVIDENCE_MISSING => "scenario_evidence_missing"
  end.

Inductive ReActUncertaintyCode : Type :=
| UNCERTAINTY_NONE | LOW_CONFIDENCE | CONFLICTING_EVIDENCE | INCOMPLETE_COVERAGE.

#[global] Instance ReActUncertaintyCode_eq_dec : EqDecision ReActUncertaintyCode.
Proof. solve_decision. Defined.

Definition uncertainty_code_value (u : ReActUncertaintyCode) : string :=
  match u with
  | UNCERTAINTY_NONE => "none" | LOW_CONFIDENCE => "low_confidence"
  | CONFLICTING_EVIDENCE => "conflicting_evidence" | INCOMPLETE_COVERAGE => "incomplete_coverage"
  end.

Record ReActCandidate : Type := {
  rc_candidate_type : ReActActionType;
  rc_name : string;
  rc_candidate_id : string
}.

Record ReActAction : Type := {
  ac_action_type : ReActActionType;
  ac_target_name : string;
  ac_params : list (string * pyval);
  ac_reason_code : ReActReasonCode;
  ac_decision_summary : string
}.

Record ReActRound : Type := {
  rd_round_index : Z;
  rd_observation : string;
  rd_decision_summary : string;
  rd_reason_code : ReActReasonCode;
  rd_gap_code : ReActGapCode;
  rd_uncertainty_code : ReActUncertaintyCode;
  rd_action : option ReActAction;
  rd_action_result : option (list (string * pyval));
  rd_confidence : Q
}.

Record ReActResult : Type := {
  rs_rounds : list ReActRound;
  rs_final_confidence : Q;
  rs_stop_reason : ReActStopReason;
  rs_outputs : list (string * pyval)
}.

Record ReActThinkOutput : Type := {
  th_decision_summary : string;
  th_reason_code : ReActReasonCode;
  th_action : option ReActAction;
  th_candidates : list ReActCandidate
}.

Record ReActReflectOutput : Type := {
  rf_decision_summary : string;
  rf_confidence : Q;
  rf_gap_code : ReActGapCode;
  rf_uncertainty_code : ReActUncertaintyCode;
  rf_evidence_refs : list string
}.

(** The length and range constraints of the fields. *)
Definition action_valid (a : ReActAction) : bool :=
  (String.length (ac_decision_summary a) <=? _MAX_ACTION_SUMMARY_CHARS)%nat.

Definition think_valid (t : ReActThinkOutput) : bool :=
  (String.length (th_decision_summary t) <=? _MAX_DECISION_SUMMARY_CHARS)%nat
  && from_option action_valid true (th_action t)
  && forallb (λ c, rc_name c !=? "") (th_candidates t).

Definition reflect_valid (r : ReActReflectOutput) : bool :=
  (String.length (rf_decision_summary r) <=? _MAX_DECISION_SUMMARY_CHARS)%nat
  && Qle_bool 0 (rf_confidence r) && Qle_bool (rf_confidence r) 1.

(** ** Constants of the engine *)

Definition CONFIDENCE_THRESHOLD : Q := 7 # 10.
Definition REACT_ACTION_DENIED : string := "react_action_denied".
Definition DEFAULT_TOOL_CALL_BUDGET : Z := 10.
Definition MAX_CONSECUTIVE_ROUND_FAILURES : Z := 2.
Definition _MAX_TEXT_CHARS : nat := 2000.

Definition _FAILURE_STATUSES : list string :=
  [REACT_ACTION_DENIED; "error"] ++
  (enum_value <$> [ToolResultStatus.FAILED; ToolResultStatus.UNKNOWN; ToolResultStatus.TIMEOUT;
                   ToolResultStatus.REMOTE_ERROR; ToolResultStatus.RATE_LIMITED; ToolResultStatus.AUTH_ERROR;
                   ToolResultStatus.VALIDATION_ERROR; ToolResultStatus.CIRCUIT_OPEN; ToolResultStatus.UNSUPPORTED]).

(** ** Ports *)

(** What [execute] does: it returns a dict, refuses the action, or raises. *)
Inductive ActOutcome : Type :=
| act_result (d : list (string * pyval))
| act_denied (message : string)
| act_soft_limit
| act_raises (message : string).

(** What an LLM call does: the parsed payload, a response without one, an [LLMError], or another
    exception. *)
Inductive LlmReply (A : Type) : Type :=
| replied (a : A)
| unstructured
| llm_failed (text : string)
| reply_raises (x : Raised).
Arguments replied {_}. Arguments unstructured {_}. Arguments llm_failed {_}. Arguments reply_raises {_}.

Definition reply_of_chat {A} (o : ChatOutcome (A := A)) : LlmReply A :=
  match o with
  | chat_returns r => match lr_parsed r with Some a => replied a | None => unstructured end
  | chat_raises (r_llm f) => llm_failed (lf_message f)
  | chat_raises x => reply_raises x
  | chat_out_of_fuel => unstructured
  end.

(** What the engine makes of it: an [LLMError] stops the run, another exception passes. *)
Inductive Answered (A : Type) : Type :=
| got (a : A)
| failed (text : string)
| passes (x : Raised).
Arguments got {_}. Arguments failed {_}. Arguments passes {_}.

Definition checked_reply {A} (prompt_key model : string) (r : LlmReply A) : Answered A :=
  match r with
  | replied a => got a
  | unstructured => failed (prompt_key +++ " returned no structured " +++ model +++ " payload")
  | llm_failed text => failed text
  | reply_raises x => passes x
  end.

Record ThinkPrompt : Type := {
  tp_targets : list (string * pyval);
  tp_observation : string;
  tp_scenario_id : option string
}.

Record ReflectPrompt : Type := {
  fp_goal : string;
  fp_observation : string;
  fp_action : ReActAction;
  fp_result_brief : string;
  fp_scenario_id : option string
}.

(** What [_trace_round] hands to the sink. *)
Record RoundTrace : Type := {
  rt_goal : string;
  rt_round_index : Z;
  rt_observation_summary : string;
  rt_context_keys : list string;
  rt_decision_summary : string;
  rt_reason_code : ReActReasonCode;
  rt_candidate_actions : list ReActCandidate;
  rt_selected_action : string;
  rt_confidence : Q;
  rt_warnings : list string;
  rt_gap_code : option ReActGapCode;
  rt_uncertainty_code : option ReActUncertaintyCode;
  rt_stage : string;
  rt_evidence_refs : option (list string)
}.

(** The shared guard inside the state [W]. *)
Record GuardAccess (W : Type) : Type := {
  ga_signature : string → list (string * pyval) → string;
  ga_memory : option (string → string → pyval → write_outcome);
  ga_get : W → gmap string ConvergenceState;
  ga_set : gmap string ConvergenceState → W → W
}.
Arguments ga_signature {_}. Arguments ga_memory {_}. Arguments ga_get {_}. Arguments ga_set {_}.

Record ReActPorts (W : Type) : Type := {
  po_think : ThinkPrompt → W → LlmReply ReActThinkOutput * W;
  po_reflect : ReflectPrompt → W → LlmReply ReActReflectOutput * W;
  po_execute : Z → ReActAction → W → ActOutcome * W;
  po_describe_targets : W → list (string * pyval);
  po_guard : option (GuardAccess W);
  po_trace : RoundTrace → W → W
}.
Arguments po_think {_}. Arguments po_reflect {_}. Arguments po_execute {_}. Arguments po_describe_targets {_}.
Arguments po_guard {_}. Arguments po_trace {_}.

(** ** Helpers of the engine *)

Definition _truncate (text : string) (max_chars : nat) : string :=
  if (String.length text <=? max_chars)%nat then text else str_take max_chars text +++ "[TRUNCATED]".

Definition sorted_keys (context : list (string * pyval)) : list string := merge_sort string_le (dict_keys context).

Definition context_text (context : list (string * pyval)) (key : string) : option string :=
  match dict_get context key with
  | Some v => if py_truthy v then Some (py_text v) else None
  | None => None
  end.

Definition _build_observation (goal : string) (context : list (string * pyval)) (previous_summary : string) : string :=
  let part key := match context_text context key with
                  | Some text => [key +++ ": " +++ _truncate text _MAX_TEXT_CHARS]
                  | None => []
                  end in
  let parts :=
    ["Goal: " +++ goal] ++
    concat (part <$> ["event_id"; "observation"; "evidence_summary"; "gaps"]) ++
    (match context_text context "observation", context_text context "evidence_summary" with
     | None, None => ["context_keys: " +++ py_repr (VList (VStr <$> sorted_keys context))]
     | _, _ => []
     end) ++
    (if previous_summary ==? "" then [] else ["Previous round result: " +++ previous_summary]) in
  _truncate (str_join newline parts) _MAX_TEXT_CHARS.

Definition result_status (d : list (string * pyval)) : pyval := default (VStr "success") (dict_get d "status").

Definition _summarize_result (action : ReActAction) (action_result : list (string * pyval))
    (reflect : ReActReflectOutput) : string :=
  let gap := if rf_gap_code reflect ==? GAP_NONE then ""
             else "; gap_code: " +++ gap_code_value (rf_gap_code reflect) in
  action_type_value (ac_action_type action) +++ " " +++ ac_target_name action +++ " -> " +++
  py_text (result_status action_result) +++ " (confidence=" +++ two_decimals (rf_confidence reflect) +++ gap +++ ")".

Definition _round_scenario (context : list (string * pyval)) (round_index : Z) : option string :=
  (λ base, base +++ "_round" +++ pretty round_index) <$> context_text context "scenario_id".

Definition _is_failure (action_result : list (string * pyval)) : bool :=
  str_lower (str_strip (py_text (result_status action_result))) ∈? _FAILURE_STATUSES.

(** The trace of a round. *)
Definition round_trace (goal : string) (context : list (string * pyval)) (think : ReActThinkOutput)
    (round : ReActRound) (reflect : option ReActReflectOutput) (extra_warnings : list string) : RoundTrace :=
  let denied := match rd_action_result round with
                | Some d => match dict_get d "status" with
                            | Some (VStr s) => s ==? REACT_ACTION_DENIED
                            | _ => false
                            end
                | None => false
                end in
  let summary := text_or (rd_decision_summary round) (th_decision_summary think) in
  {| rt_goal := goal; rt_round_index := rd_round_index round;
     rt_observation_summary := _truncate (rd_observation round) 500; rt_context_keys := sorted_keys context;
     rt_decision_summary :=
       _truncate (match reflect with Some r => text_or (rf_decision_summary r) summary | None => summary end) 512;
     rt_reason_code := th_reason_code think; rt_candidate_actions := th_candidates think;
     rt_selected_action := match rd_action round with
                           | Some a => action_type_value (ac_action_type a) +++ ":" +++ ac_target_name a
                           | None => "stop"
                           end;
     rt_confidence := rd_confidence round;
     rt_warnings := extra_warnings ++ (if denied then [REACT_ACTION_DENIED] else []);
     rt_gap_code := rf_gap_code <$> reflect;
     rt_uncertainty_code := match reflect with
                            | Some r => if rf_uncertainty_code r ==? UNCERTAINTY_NONE then None
                                        else Some (rf_uncertainty_code r)
                            | None => None
                            end;
     rt_stage := match reflect with Some _ => "react_reflect" | None => "react_think" end;
     rt_evidence_refs := rf_evidence_refs <$> reflect |}.

(** ** The loop *)

Record ReActEngine (W : Type) : Type := {
  en_ports : ReActPorts W;
  en_confidence_threshold : Q;
  en_tool_call_budget : Z
}.
Arguments en_ports {_}. Arguments en_confidence_threshold {_}. Arguments en_tool_call_budget {_}.

Inductive RunOutcome : Type :=
| run_returns (r : ReActResult)
| run_raises (x : Raised).

Definition run_value_error (message : string) : Raised := r_exc (plain_exc ValueError message "").

Section engine.
Context {W : Type} (en : ReActEngine W) (goal : string) (context : list (string * pyval)) (event_id : string).
Let ports : ReActPorts W := en_ports en.

(** The local variables of [run], with the state of everything else. *)
Record RunState : Type := MkRunState {
  ru_rounds : list ReActRound;
  ru_action_results : list pyval;
  ru_tool_calls : Z;
  ru_consecutive_failures : Z;
  ru_last_confidence : Q;
  ru_previous_summary : string;
  ru_world : W
}.

Definition in_world (w : W) (st : RunState) : RunState :=
  MkRunState (ru_rounds st) (ru_action_results st) (ru_tool_calls st) (ru_consecutive_failures st)
    (ru_last_confidence st) (ru_previous_summary st) w.

Definition add_round (round : ReActRound) (st : RunState) : RunState :=
  MkRunState (ru_rounds st ++ [round]) (ru_action_results st) (ru_tool_calls st) (ru_consecutive_failures st)
    (ru_last_confidence st) (ru_previous_summary st) (ru_world st).

(** [_result] *)
Definition result_of (st : RunState) (stop : ReActStopReason) (extra : list (string * pyval)) : ReActResult := {|
  rs_rounds := ru_rounds st; rs_final_confidence := ru_last_confidence st; rs_stop_reason := stop;
  rs_outputs := [("goal", VStr goal); ("action_results", VList (ru_action_results st))] ++ extra
|}.

Definition _trace_round (think : ReActThinkOutput) (round : ReActRound) (reflect : option ReActReflectOutput)
    (extra_warnings : list string) (st : RunState) : RunState :=
  in_world (po_trace ports (round_trace goal context think round reflect extra_warnings) (ru_world st)) st.

Definition record_in_guard (s : step) (st : RunState) : RunState :=
  match po_guard ports with
  | None => st
  | Some ga => in_world (ga_set ga (record_step (ga_signature ga) (ga_get ga (ru_world st)) event_id s) (ru_world st)) st
  end.

(** [state.model_dump(mode="json")] *)
Definition state_dump (st : ConvergenceState) : pyval :=
  VDict [("total_steps", VInt (total_steps st)); ("react_rounds", VInt (react_rounds st));
         ("replan_count", VInt (replan_count st)); ("llm_calls", VInt (llm_calls st));
         ("tool_call_signatures", VDict (prod_map id VInt <$> tool_call_signatures st));
         ("recent_actions", VList (VStr <$> recent_actions st))].

Definition _guard_converged_result (st : RunState) (last_confidence : Q) : option ReActResult :=
  match po_guard ports with
  | None => None
  | Some ga =>
      let g := ga_get ga (ru_world st) in
      let decision := should_stop (ga_memory ga) g event_id in
      if stop decision then
        Some {| rs_rounds := ru_rounds st; rs_final_confidence := last_confidence; rs_stop_reason := CONVERGED;
                rs_outputs := [("goal", VStr goal); ("action_results", VList (ru_action_results st));
                               ("stop_detail", VStr (stop_detail decision));
                               ("convergence_reason", VStr (enum_value (stop_reason decision)));
                               ("convergence_state", state_dump (get_state g event_id))] |}
      else None
  end.

Definition guard_step (type : string) (signature : option string) : step := MkStep type None None signature.

Definition _record_llm_call (st : RunState) (last_confidence : Q) : option ReActResult * RunState :=
  let st := record_in_guard (guard_step "llm_call" None) st in
  (_guard_converged_result st last_confidence, st).

Definition _think (observation : string) (round_index : Z) (st : RunState) :
    Answered ReActThinkOutput * RunState :=
  let '(reply, w) := po_think ports {| tp_targets := po_describe_targets ports (ru_world st);
                                       tp_observation := observation;
                                       tp_scenario_id := _round_scenario context round_index |} (ru_world st) in
  (checked_reply "react_think" "ReActThinkOutput" reply, in_world w st).

Definition _reflect (observation : string) (action : ReActAction) (action_result : list (string * pyval))
    (round_index : Z) (st : RunState) : Answered ReActReflectOutput * RunState :=
  let '(reply, w) := po_reflect ports
    {| fp_goal := goal; fp_observation := observation; fp_action := action;
       fp_result_brief := _truncate (str_take _MAX_TEXT_CHARS (py_repr (VDict action_result))) _MAX_TEXT_CHARS;
       fp_scenario_id := _round_scenario context round_index |} (ru_world st) in
  (checked_reply "react_reflect" "ReActReflectOutput" reply, in_world w st).

(** A round that stops before its action, or whose reflection fails. *)
Definition plain_round (round_index : Z) (observation : string) (think : ReActThinkOutput)
    (action_result : option (list (string * pyval))) (confidence : Q) : ReActRound := {|
  rd_round_index := round_index; rd_observation := observation; rd_decision_summary := th_decision_summary think;
  rd_reason_code := th_reason_code think; rd_gap_code := GAP_NONE; rd_uncertainty_code := UNCERTAINTY_NONE;
  rd_action := th_action think; rd_action_result := action_result; rd_confidence := confidence
|}.

Definition reflected_round (round_index : Z) (observation : string) (think : ReActThinkOutput)
    (action_result : list (string * pyval)) (reflect : ReActReflectOutput) : ReActRound := {|
  rd_round_index := round_index; rd_observation := observation;
  rd_decision_summary := text_or (rf_decision_summary reflect) (th_decision_summary think);
  rd_reason_code := th_reason_code think; rd_gap_code := rf_gap_code reflect;
  rd_uncertainty_code := rf_uncertainty_code reflect; rd_action := th_action think;
  rd_action_result := Some action_result; rd_confidence := rf_confidence reflect
|}.

(** The [try] around [executor.execute]: the result of the round, and whether it failed; [None]: the
    exception passes. *)
Definition acted (action : ReActAction) (o : ActOutcome) : option (list (string * pyval) * bool) :=
  match o with
  | act_result d => Some (d, _is_failure d)
  | act_denied m => Some ([("status", VStr REACT_ACTION_DENIED); ("target_name", VStr (ac_target_name action));
                           ("detail", VStr m)], true)
  | act_raises m => Some ([("status", VStr "error"); ("target_name", VStr (ac_target_name action));
                           ("detail", VStr (str_take _MAX_TEXT_CHARS m))], true)
  | act_soft_limit => None
  end.

Definition counted_call (action : ReActAction) (o : ActOutcome) : Z :=
  match ac_action_type action, o with CALL_TOOL, act_result _ => 1 | _, _ => 0 end.

Definition action_entry (round_index : Z) (action : ReActAction) (action_result : list (string * pyval)) : pyval :=
  VDict [("round", VInt round_index); ("action_type", VStr (action_type_value (ac_action_type action)));
         ("target_name", VStr (ac_target_name action)); ("status", result_status action_result)].

(** What a round does: the loop ends, or goes on. *)
Inductive RoundOutcome : Type :=
| round_stops (r : ReActResult) (w : W)
| round_raises (x : Raised) (w : W)
| round_goes_on (st : RunState).

(** After the action. *)
Definition reflect_phase (round_index : Z) (observation : string) (think : ReActThinkOutput) (action : ReActAction)
    (action_result : list (string * pyval)) (round_failed : bool) (st : RunState) : RoundOutcome :=
  let stops stop extra st := round_stops (result_of st stop extra) (ru_world st) in
  match _reflect observation action action_result round_index st with
  | (passes x, st) => round_raises x (ru_world st)
  | (failed text, st) =>
      let round := plain_round round_index observation think (Some action_result) (ru_last_confidence st) in
      let st := _trace_round think round None ["react_reflect_failed"] (add_round round st) in
      stops ERROR [("stop_detail", VStr ("react_reflect: " +++ text))] st
  | (got reflect, st) =>
      let round := reflected_round round_index observation think action_result reflect in
      let st := _trace_round think round (Some reflect) [] (add_round round st) in
      match _record_llm_call st (rf_confidence reflect) with
      | (Some converged, st) => round_stops converged (ru_world st)
      | (None, st) =>
          let st := MkRunState (ru_rounds st) (ru_action_results st) (ru_tool_calls st)
                      (if round_failed then ru_consecutive_failures st + 1 else 0) (rf_confidence reflect)
                      (_summarize_result action action_result reflect) (ru_world st) in
          if MAX_CONSECUTIVE_ROUND_FAILURES <=? ru_consecutive_failures st then
            stops ERROR [("stop_detail", VStr (pretty (ru_consecutive_failures st) +++ " consecutive failed rounds (last: " +++
                            py_text (default VNone (dict_get action_result "status")) +++ ")"))] st
          else if negb round_failed && Qle_bool (en_confidence_threshold en) (rf_confidence reflect)
          then stops CONFIDENCE_MET [] st
          else round_goes_on st
      end
  end.

(** From the answer of the think step on. *)
Definition act_phase (round_index : Z) (observation : string) (think : ReActThinkOutput) (st : RunState) : RoundOutcome :=
  let round := plain_round round_index observation think None (ru_last_confidence st) in
  let stops stop extra :=
    let st := _trace_round think round None [] (add_round round st) in
    round_stops (result_of st stop extra) (ru_world st) in
  match th_action think with
  | None => stops FINISHED []
  | Some action =>
      if ac_action_type action ==? FINISH then stops FINISHED []
      else if (ac_action_type action ==? CALL_TOOL) && (en_tool_call_budget en <=? ru_tool_calls st) then
        stops BUDGET_EXHAUSTED
          [("stop_detail", VStr ("tool-call budget " +++ pretty (en_tool_call_budget en) +++ " exhausted after " +++
                                 pretty (ru_tool_calls st) +++ " calls"))]
      else
        let '(o, w) := po_execute ports round_index action (ru_world st) in
        match acted action o with
        | None => round_raises (r_exc (plain_exc SoftTimeLimitExceeded "" "")) w
        | Some (action_result, round_failed) =>
            let st := MkRunState (ru_rounds st)
                        (ru_action_results st ++ [action_entry round_index action action_result])
                        (ru_tool_calls st + counted_call action o) (ru_consecutive_failures st)
                        (ru_last_confidence st) (ru_previous_summary st) w in
            reflect_phase round_index observation think action action_result round_failed st
        end
  end.

Definition react_round (round_index : Z) (st : RunState) : RoundOutcome :=
  let st := record_in_guard (guard_step "react_round" (Some ("round:" +++ pretty round_index))) st in
  match _guard_converged_result st (ru_last_confidence st) with
  | Some converged => round_stops converged (ru_world st)
  | None =>
      let observation := _build_observation goal context (ru_previous_summary st) in
      match _think observation round_index st with
      | (passes x, st) => round_raises x (ru_world st)
      | (failed text, st) =>
          round_stops (result_of st ERROR [("stop_detail", VStr ("react_think: " +++ text))]) (ru_world st)
          | (got think, st) =>
          match _record_llm_call st (ru_last_confidence st) with
          | (Some converged, st) => round_stops converged (ru_world st)
          | (None, st) => act_phase round_index observation think st
          end
      end
  end.

(** [for round_index in range(1, max_rounds + 1)], [n] rounds from the end. *)
Fixpoint react_loop (n : nat) (round_index : Z) (st : RunState) : RunOutcome * W :=
  match n with
  | O => (run_returns (result_of st MAX_ROUNDS []), ru_world st)
  | S n =>
      match react_round round_index st with
      | round_stops r w => (run_returns r, w)
      | round_raises x w => (run_raises x, w)
      | round_goes_on st => react_loop n (round_index + 1) st
      end
  end.

Definition initial_state (w : W) : RunState := MkRunState [] [] 0 0 0 "" w.
End engine.

Definition react_run {W} (en : ReActEngine W) (goal : string) (context : list (string * pyval)) (max_rounds : Z) (w : W) :
    RunOutcome * W :=
  if max_rounds <? 1 then (run_raises (run_value_error "max_rounds must be >= 1"), w)
  else
    let event_id := str_strip (default "" (context_text context "event_id")) in
    if event_id ==? "" then (run_raises (run_value_error "context['event_id'] is required"), w)
    else react_loop en goal context event_id (Z.to_nat max_rounds) 1 (initial_state w).

(** ** [ReadOnlyReActExecutor] *)

(** What a whitelisted agent does. *)
Inductive AgentAnswer : Type :=
| agent_returns (v : pyval)
| agent_raises (message : string)
| agent_soft_limit.

Section executor.
Context {G J R : Type} `{GuardPort G} `{JobStore J} `{RedisCounters R}.
Context (rv : ReservationEnv) (ge : GrantEnv) (pj : ProjectionEnv).

(** The executor of one event.  [rx_grant_id]: the grant of the bound executor, if there is one; what
    the clocks, the tools and other processes do is given by the round. *)
Record ReadOnlyReActExecutor : Type := {
  rx_event_id : string;
  rx_agent_name : string;
  rx_grant_required : bool;
  rx_grant : option ToolCallGrant;
  rx_allowed_agents : list (string * (list (string * pyval) → BoundWorld (G:=G) (J:=J) (R:=R) →
                                      AgentAnswer * BoundWorld (G:=G) (J:=J) (R:=R)));
  rx_clock : Z → AttemptClock;
  rx_call : Z → CallEnv (G:=G) (J:=J);
  rx_attempt_id : Z → string;
  rx_others : Z → nat → GrantWorld (R:=R) → GrantWorld (R:=R)
}.

Definition read_call (x : ReadOnlyReActExecutor) (action : ReActAction) (agent_name : string) : CallArgs := {|
  ca_tool_name := ac_target_name action; ca_params := ac_params action; ca_event_id := rx_event_id x;
  ca_action_id := None; ca_execution_job_id := None; ca_idempotency_key := None; ca_execution_owner := None;
  ca_retry_policy := None; ca_agent_name := agent_name
|}.

Definition raised_act (x : exc) : ActOutcome :=
  if ex_class x ==? SoftTimeLimitExceeded then act_soft_limit else act_raises (err_message (ex_error x)).

Definition _execute_bound_tool (x : ReadOnlyReActExecutor) (g : ToolCallGrant) (round : Z) (action : ReActAction)
    (w : BoundWorld (G:=G) (J:=J) (R:=R)) : ActOutcome * BoundWorld :=
  let agent_name := match dict_get (ac_params action) "_forged_agent_name" with
                    | Some v => py_text v
                    | None => rx_agent_name x
                    end in
  let '(o, w) := bound_call rv ge pj (rx_clock x round) (rx_call x round) (tg_grant_id g) (rx_attempt_id x round)
                   (read_call x action agent_name) (rx_others x round) w in
  (match o with
   | b_result r =>
       act_result [("status", VStr (enum_value (tr_status (br_result r)))); ("tool_name", VStr (ac_target_name action));
                   ("provider_name", VStr (tr_provider_name (br_result r))); ("data", VDict (sp_data (br_projection r)));
                   ("error_detail", opt_str (tr_error_detail (br_result r)));
                   ("projection_hash", VStr (sp_projection_hash (br_projection r)));
                   ("trust_level", VStr (sp_trust_level (br_projection r)));
                   ("taint_flags", VList (VStr <$> sp_taint_flags (br_projection r)))]
   | b_raised e =>
       if ex_class e ∈? [ToolCallGrantDeniedError; ToolCallGrantUnavailableError]
       then act_denied (err_message (ex_error e)) else raised_act e
   | b_out_of_fuel => act_raises ""
   end, w).

Definition plain_tool_call (x : ReadOnlyReActExecutor) (round : Z) (action : ReActAction)
    (w : BoundWorld (G:=G) (J:=J) (R:=R)) : ActOutcome * BoundWorld :=
  let name := ac_target_name action in
  match get_tool (xw_registry (bw_tools w)) name with
  | Err _ => (act_denied ("unknown tool target_name=" +++ repr_str name), w)
  | Ok registered =>
      let category := tm_tool_category (rt_tool_meta registered) in
      if category !=? ToolCategory.QUERY then
        (act_denied ("tool " +++ repr_str name +++ " has tool_category=" +++ enum_value category +++
                     "; ReAct may only call query tools"), w)
      else
        let '(o, tools) := executor_call (rx_call x round) (read_call x action (rx_agent_name x)) (bw_tools w) in
        (match o with
         | x_result r =>
             act_result [("status", VStr (enum_value (tr_status r))); ("tool_name", VStr name);
                         ("provider_name", VStr (tr_provider_name r)); ("data", VDict (tr_data r));
                         ("error_detail", opt_str (tr_error_detail r))]
         | x_raised e => raised_act e
         | x_out_of_fuel => act_raises ""
         end, MkBoundWorld (bw_grants w) tools)
  end.

Definition _execute_tool (x : ReadOnlyReActExecutor) (round : Z) (action : ReActAction)
    (w : BoundWorld (G:=G) (J:=J) (R:=R)) : ActOutcome * BoundWorld :=
  match rx_grant x with
  | Some g => _execute_bound_tool x g round action w
  | None =>
      if rx_grant_required x then (act_denied "dynamic tool calls require BoundToolExecutor grant", w)
      else plain_tool_call x round action w
  end.

Definition _execute_agent (x : ReadOnlyReActExecutor) (action : ReActAction)
    (w : BoundWorld (G:=G) (J:=J) (R:=R)) : ActOutcome * BoundWorld :=
  let name := ac_target_name action in
  match dict_get (rx_allowed_agents x) name with
  | None => (act_denied ("agent " +++ repr_str name +++ " is not in the read-only whitelist"), w)
  | Some fn =>
      let '(answer, w) := fn (ac_params action) w in
      (match answer with
       | agent_returns (VDict d) => act_result d
       | agent_returns v => act_result [("status", VStr "success"); ("agent_name", VStr name);
                                        ("data", VDict [("result", v)])]
       | agent_raises m => act_raises m
       | agent_soft_limit => act_soft_limit
       end, w)
  end.

Definition react_execute (x : ReadOnlyReActExecutor) (round : Z) (action : ReActAction)
    (w : BoundWorld (G:=G) (J:=J) (R:=R)) : ActOutcome * BoundWorld :=
  match ac_action_type action with
  | FINISH => (act_result [("status", VStr "finished")], w)
  | CALL_TOOL => _execute_tool x round action w
  | CALL_AGENT => _execute_agent x action w
  end.

Definition describe_targets (x : ReadOnlyReActExecutor) (w : BoundWorld (G:=G) (J:=J) (R:=R)) : list (string * pyval) :=
  let query_tools := tm_tool_name <$> list_tools (xw_registry (bw_tools w)) (Some (enum_value ToolCategory.QUERY)) in
  let query_tools := match rx_grant x with
                     | None => merge_sort string_le query_tools
                     | Some g => sorted_set (List.filter (λ t, t ∈? gs_allowed_tools (tg_scope g)) query_tools)
                     end in
  [("query_tools", VList (VStr <$> query_tools));
   ("read_only_agents", VList (VStr <$> merge_sort string_le (dict_keys (rx_allowed_agents x))))].
End executor.
