(* ===== verification/ReactFacts.v ===== *)
(** * What the ReAct loop guarantees

    Whatever the LLM answers, a run is bounded, stops for the reason it reports, and reaches no tool
    but query tools. *)

From stdpp Require Import prelude strings gmap sorting pretty.
From Stdlib Require Import QArith Lia.
From S2P Require Import Prelude Enums Errors Db ExecutionResults ConvergenceGuard CircuitBreaker ErrorTaxonomy.
From S2P Require Import ToolMeta ToolRegistry ToolExecutor ToolExecutorFacts SafeProjection Lease BudgetReservation.
From S2P Require Import ToolGrants ToolGrantFacts BoundExecutor Llm React.

#[local] Open Scope string_scope.
#[local] Open Scope Z_scope.
#[local] Open Scope list_scope.

(** ** The reason of a stop *)

Section reasons.
Context {W : Type} (en : ReActEngine W) (goal : string) (context : list (string * pyval)) (event_id : string).

(** The action of the round failed. *)
Definition failed_round (r : ReActRound) : bool := from_option _is_failure false (rd_action_result r).

Definition tool_round (r : ReActRound) : bool :=
  from_option (λ a, ac_action_type a ==? CALL_TOOL) false (rd_action r).

Definition confident (r : ReActRound) : bool :=
  negb (failed_round r) && Qle_bool (en_confidence_threshold en) (rd_confidence r).

(** Rounds after which the loop goes on: numbered from 1, each with an executed action, none of them
    confident, and no two in a row failed. *)
Definition undecided (rounds : list ReActRound) : Prop :=
  (∀ k r, rounds !! k = Some r → rd_round_index r = Z.of_nat k + 1 ∧ is_Some (rd_action_result r) ∧ confident r = false) ∧
  (∀ k r r', rounds !! k = Some r → rounds !! S k = Some r' → failed_round r && failed_round r' = false).

Definition last_failed (rounds : list ReActRound) : bool := from_option failed_round false (last rounds).

Definition confidence_after (rounds : list ReActRound) : Q := from_option rd_confidence 0%Q (last rounds).

(** What the reported reason says of the rounds: [done] are undecided, [final] is the last one. *)
Definition explains (done final : list ReActRound) (r : ReActResult) (max_rounds : Z) : Prop :=
  match rs_stop_reason r with
  | MAX_ROUNDS => final = [] ∧ Z.of_nat (length done) = max_rounds
  | CONFIDENCE_MET => ∃ x, final = [x] ∧ is_Some (rd_action_result x) ∧ confident x = true
  | FINISHED => ∃ x, final = [x] ∧ rd_action_result x = None ∧
      match rd_action x with Some a => ac_action_type a = FINISH | None => True end
  | BUDGET_EXHAUSTED => ∃ x, final = [x] ∧ rd_action_result x = None ∧ tool_round x = true ∧
      en_tool_call_budget en ≤ Z.of_nat (length (List.filter tool_round done))
  | ERROR => final = [] ∨ ∃ x, final = [x] ∧ is_Some (rd_action_result x) ∧
      (rd_confidence x = confidence_after done ∨ (last_failed done = true ∧ failed_round x = true))
  | CONVERGED => ∃ ga w, po_guard (en_ports en) = Some ga ∧
      stop (should_stop (ga_memory ga) (ga_get ga w) event_id) = true
  end.

Definition explained (rounds : list ReActRound) (r : ReActResult) (max_rounds : Z) : Prop :=
  ∃ final, rs_rounds r = rounds ++ final ∧ (length final ≤ 1)%nat ∧ explains rounds final r max_rounds.

(** The local variables at the top of a round. *)
Record at_round (i : Z) (st : RunState (W:=W)) : Prop := {
  ar_index : i = Z.of_nat (length (ru_rounds st)) + 1;
  ar_undecided : undecided (ru_rounds st);
  ar_failures : ru_consecutive_failures st = if last_failed (ru_rounds st) then 1 else 0;
  ar_confidence : ru_last_confidence st = confidence_after (ru_rounds st);
  ar_calls : ru_tool_calls st ≤ Z.of_nat (length (List.filter tool_round (ru_rounds st)))
}.

(** Operations on the surroundings leave the local variables alone. *)
Definition same_locals (st st' : RunState (W:=W)) : Prop := st' = in_world (ru_world st') st.

Lemma same_locals_refl st : same_locals st st.
Proof. by destruct st. Qed.

Lemma same_locals_trans st1 st2 st3 : same_locals st1 st2 → same_locals st2 st3 → same_locals st1 st3.
Proof. unfold same_locals. intros -> ->. done. Qed.

Lemma in_world_same w st : same_locals st (in_world w st).
Proof. done. Qed.

Lemma record_same s st : same_locals st (record_in_guard en event_id s st).
Proof. unfold record_in_guard. destruct (po_guard _); [done|apply same_locals_refl]. Qed.

Lemma same_at_round i st st' : same_locals st st' → at_round i st → at_round i st'.
Proof. intros -> [? ? ? ? ?]. by constructor. Qed.

Lemma acted_failure action o d b : acted action o = Some (d, b) → b = _is_failure d.
Proof. destruct o; cbn; intros [= <- <-]; try done; by vm_compute. Qed.

Lemma undecided_snoc rounds x :
  undecided rounds → rd_round_index x = Z.of_nat (length rounds) + 1 → is_Some (rd_action_result x) → confident x = false →
  last_failed rounds && failed_round x = false → undecided (rounds ++ [x]).
Proof.
  intros [Hr Hc] Hi Ha Hn Hf. split.
  - intros k r. rewrite lookup_app_Some, list_lookup_singleton_Some. intros [Hk|(Hk & Hz & <-)]; [by apply Hr|].
    replace k with (length rounds) by lia. done.
  - intros k r r' Hk Hk'. destruct (decide (S k < length rounds)%nat) as [Hlt|Hge].
    + rewrite lookup_app_l in Hk, Hk' by lia. by eapply Hc.
    + pose proof (lookup_lt_Some _ _ _ Hk') as Hl. rewrite length_app in Hl. cbn in Hl.
      assert (S k = length rounds) as Hs by lia. rewrite lookup_app_l in Hk by lia.
      rewrite lookup_app_r, Hs, Nat.sub_diag in Hk' by lia. cbn in Hk'. injection Hk' as <-.
      unfold last_failed in Hf. rewrite last_lookup, <-Hs in Hf. cbn in Hf. by rewrite Hk in Hf.
Qed.

(** What a round does to the local variables. *)
Definition round_spec (i : Z) (rounds : list ReActRound) (max_rounds : Z) (o : RoundOutcome (W:=W)) : Prop :=
  match o with
  | round_stops r _ => rs_stop_reason r ≠ MAX_ROUNDS ∧ explained rounds r max_rounds
  | round_raises _ _ => True
  | round_goes_on st => at_round (i + 1) st
  end.

Lemma converged_explained st q r rounds final m :
  _guard_converged_result en goal event_id st q = Some r → ru_rounds st = rounds ++ final → (length final ≤ 1)%nat →
  rs_stop_reason r ≠ MAX_ROUNDS ∧ explained rounds r m.
Proof.
  unfold _guard_converged_result. destruct (po_guard (en_ports en)) as [ga|] eqn:Hg; [|done].
  destruct (stop _) eqn:Hs; [|done]. intros [= <-] Hr Hl. split; [done|]. exists final. split_and!; [done..|].
  exists ga, (ru_world st). done.
Qed.

Lemma reflect_phase_spec i obs think action d st m :
  th_action think = Some action → i = Z.of_nat (length (ru_rounds st)) + 1 → undecided (ru_rounds st) →
  ru_consecutive_failures st = (if last_failed (ru_rounds st) then 1 else 0) →
  ru_last_confidence st = confidence_after (ru_rounds st) →
  ru_tool_calls st ≤ Z.of_nat (length (List.filter tool_round (ru_rounds st)))
    + (if ac_action_type action ==? CALL_TOOL then 1 else 0) →
  round_spec i (ru_rounds st) m (reflect_phase en goal context event_id i obs think action d (_is_failure d) st).
Proof.
  intros Hact Hi Hu Hf Hc Ht. unfold reflect_phase, _reflect.
  destruct (po_reflect _ _ _) as [reply w]. destruct (checked_reply _ _ reply) as [reflect|text|x]; [|..|done].
  2:{ split; [done|]. eexists [_]. split_and!; [done|done|]. right. eexists. split; [done|]. cbn. rewrite Hc.
      split; [by eexists|by left]. }
  unfold _record_llm_call.
  match goal with |- context [record_in_guard ?e ?v ?s0 ?st0] => set (st1 := record_in_guard e v s0 st0);
    pose proof (record_same s0 st0 : same_locals _ st1) as Hsame end.
  set (round := reflected_round i obs think d reflect) in *.
  assert (ru_rounds st1 = ru_rounds st ++ [round]) as Hr1 by (by rewrite Hsame).
  destruct (_guard_converged_result _ _ _ st1 _) as [r|] eqn:Hg.
  { by eapply converged_explained. }
  assert (confident round = negb (_is_failure d) && Qle_bool (en_confidence_threshold en) (rf_confidence reflect)) as Hconf by done.
  assert (failed_round round = _is_failure d) as Hfail by done.
  cbn [ru_consecutive_failures].
  replace (ru_consecutive_failures st1) with (ru_consecutive_failures st) by (by rewrite Hsame). rewrite Hf.
  set (n := if _is_failure d then _ else 0).
  destruct (Z.leb_spec MAX_CONSECUTIVE_ROUND_FAILURES n) as [Hn|Hn].
  { split; [done|]. exists [round]. split_and!; [done|done|]. right. exists round. split_and!; [done|by eexists|]. right.
    rewrite Hfail. unfold n, MAX_CONSECUTIVE_ROUND_FAILURES in Hn. destruct (_is_failure d), (last_failed (ru_rounds st)); by split || lia. }
  rewrite <-Hconf. destruct (confident round) eqn:Hcf.
  { split; [done|]. exists [round]. split_and!; [done|done|]. exists round. split_and!; [done|by eexists|done]. }
  assert (last_failed (ru_rounds st) && failed_round round = false) as Htwo.
  { rewrite Hfail. unfold n, MAX_CONSECUTIVE_ROUND_FAILURES in Hn. by destruct (_is_failure d), (last_failed (ru_rounds st)). }
  split; cbn [ru_rounds ru_consecutive_failures ru_last_confidence ru_tool_calls]; rewrite Hr1.
  - rewrite length_app. cbn. lia.
  - apply undecided_snoc; [done|done|by eexists|done|done].
  - unfold last_failed. rewrite last_snoc. cbn [from_option]. rewrite Hfail.
    unfold n, MAX_CONSECUTIVE_ROUND_FAILURES in *. destruct (_is_failure d); [|done].
    destruct (last_failed (ru_rounds st)); [lia|done].
  - unfold confidence_after. by rewrite last_snoc.
  - replace (ru_tool_calls st1) with (ru_tool_calls st) by (by rewrite Hsame).
    rewrite List.filter_app, length_app. cbn [List.filter]. unfold tool_round at 2. cbn [rd_action reflected_round round].
    rewrite Hact. cbn [from_option]. destruct (ac_action_type action ==? CALL_TOOL); cbn [length]; lia.
Qed.

Lemma act_phase_spec i obs think st m :
  at_round i st → round_spec i (ru_rounds st) m (act_phase en goal context event_id i obs think st).
Proof.
  intros [Hi Hu Hf Hc Ht]. unfold act_phase.
  destruct (th_action think) as [action|] eqn:Hact.
  2:{ split; [done|]. eexists [_]. split_and!; [done|done|]. eexists. split_and!; [done|done|]. cbn. by rewrite Hact. }
  case_bool_decide as Hfin.
  { split; [done|]. eexists [_]. split_and!; [done|done|]. eexists. split_and!; [done|done|]. cbn. by rewrite Hact. }
  destruct ((ac_action_type action ==? CALL_TOOL) && _) eqn:Hb.
  { apply andb_true_iff in Hb as [Hct%bool_decide_eq_true Hle%Z.leb_le].
    split; [done|]. eexists [_]. split_and!; [done|done|]. eexists. split_and!; [done|done|..].
    - unfold tool_round. cbn. rewrite Hact. cbn. by rewrite bool_decide_eq_true_2.
    - lia. }
  destruct (po_execute _ _ _ _) as [o w]. destruct (acted action o) as [[d b]|] eqn:Ha; [|done].
  rewrite (acted_failure _ _ _ _ Ha).
  set (st' := MkRunState _ (ru_action_results st ++ _) _ _ _ _ w).
  change (ru_rounds st) with (ru_rounds st'). apply reflect_phase_spec; try done. unfold st', counted_call. cbn. destruct (ac_action_type action), o; case_bool_decide; (done || lia).
Qed.

Lemma react_round_spec i st m :
  at_round i st → round_spec i (ru_rounds st) m (react_round en goal context event_id i st).
Proof.
  intros Har. unfold react_round.
  match goal with |- context [record_in_guard ?e ?v ?s0 st] => set (st1 := record_in_guard e v s0 st);
    pose proof (record_same s0 st : same_locals _ st1) as H1 end.
  pose proof (same_at_round i st st1 H1 Har) as Har1.
  assert (ru_rounds st1 = ru_rounds st) as Hr1 by (by rewrite H1). rewrite <-Hr1.
  destruct (_guard_converged_result _ _ _ st1 _) as [r|] eqn:Hg.
  { apply (converged_explained _ _ _ _ [] _ Hg); [by rewrite app_nil_r|cbn; lia]. }
  unfold _think. destruct (po_think _ _ _) as [reply w]. destruct (checked_reply _ _ reply) as [think|text|x]; [|..|done].
  2:{ split; [done|]. exists []. split_and!; [by rewrite app_nil_r|cbn; lia|by left]. }
  unfold _record_llm_call.
  match goal with |- context [record_in_guard ?e ?v ?s0 ?st0] => set (st2 := record_in_guard e v s0 st0);
    pose proof (record_same s0 st0 : same_locals _ st2) as H2 end.
  pose proof (same_locals_trans _ _ _ (in_world_same w st1) H2) as H12.
  pose proof (same_at_round i st1 st2 H12 Har1) as Har2.
  assert (ru_rounds st2 = ru_rounds st1) as Hr2 by (by rewrite H12). rewrite <-Hr2.
  destruct (_guard_converged_result _ _ _ st2 _) as [r|] eqn:Hg2.
  { apply (converged_explained _ _ _ _ [] _ Hg2); [by rewrite app_nil_r|cbn; lia]. }
  by apply act_phase_spec.
Qed.

Lemma react_loop_spec n i st r w m :
  at_round i st → m = i - 1 + Z.of_nat n → react_loop en goal context event_id n i st = (run_returns r, w) →
  ∃ done, undecided done ∧ explained done r m ∧
    (rs_stop_reason r ≠ MAX_ROUNDS → Z.of_nat (length done) < m).
Proof.
  revert i st. induction n as [|n IH]; intros i st Har Hm; cbn [react_loop].
  { intros [= <- _]. exists (ru_rounds st). split; [apply Har|]. split; [|done].
    exists []. split_and!; [by rewrite app_nil_r|cbn; lia|]. split; [done|]. destruct Har. lia. }
  pose proof (react_round_spec i st m Har) as Hs. destruct (react_round _ _ _ _ i st) as [r' w'|x w'|st']; cbn in Hs.
  - intros [= <- _]. exists (ru_rounds st). split; [apply Har|]. split; [apply Hs|]. intros _. destruct Har. lia.
  - done.
  - apply IH; [done|lia].
Qed.
End reasons.

(** C33. A ReAct run that returns stops for the reason it reports, and not before: its rounds are
    undecided ones (numbered, executed, not confident, no two failures in a row), followed by at most
    one deciding round that fits the reason; there are never more than [max_rounds], and exactly
    [max_rounds] undecided ones when that is the reason. *)
Theorem react_stops_for_its_reason {W} (en : ReActEngine W) goal context max_rounds w r w' :
  react_run en goal context max_rounds w = (run_returns r, w') →
  ∃ done final, rs_rounds r = done ++ final ∧ undecided en done ∧ (length final ≤ 1)%nat ∧
    explains en (str_strip (default "" (context_text context "event_id"))) done final r max_rounds ∧
    Z.of_nat (length (rs_rounds r)) ≤ max_rounds.
Proof.
  unfold react_run. destruct (Z.ltb_spec max_rounds 1); [done|]. destruct (_ ==? ""); [done|]. intros Hrun.
  apply (react_loop_spec en _ _ _ _ _ _ _ _ max_rounds) in Hrun as (done & Hu & (final & Hr & Hl & He) & Hlt).
  - exists done, final. split_and!; [done..|]. rewrite Hr, length_app.
    destruct (decide (rs_stop_reason r = MAX_ROUNDS)) as [Hm|Hm]; [|specialize (Hlt Hm); lia].
    unfold explains in He. rewrite Hm in He. destruct He as [-> He]. cbn. lia.
  - split; cbn; [done| |done|done|lia]. split; [|done]. intros k x Hk. by rewrite lookup_nil in Hk.
  - rewrite Z2Nat.id by lia. lia.
Qed.

(** ** Bounds *)

(** The LLM calls and executed actions of a run. *)
Record Tally : Type := MkTally {
  ty_llm_calls : nat;
  ty_actions : list (ReActAction * ActOutcome)
}.

Definition tallied {W} (p : ReActPorts W) : ReActPorts (W * Tally) := {|
  po_think q wt := let '(r, w) := po_think p q wt.1 in (r, (w, MkTally (S (ty_llm_calls wt.2)) (ty_actions wt.2)));
  po_reflect q wt := let '(r, w) := po_reflect p q wt.1 in (r, (w, MkTally (S (ty_llm_calls wt.2)) (ty_actions wt.2)));
  po_execute i a wt :=
    let '(o, w) := po_execute p i a wt.1 in (o, (w, MkTally (ty_llm_calls wt.2) (ty_actions wt.2 ++ [(a, o)])));
  po_describe_targets wt := po_describe_targets p wt.1;
  po_guard := (λ ga, {| ga_signature := ga_signature ga; ga_memory := ga_memory ga; ga_get wt := ga_get ga wt.1;
                        ga_set g wt := (ga_set ga g wt.1, wt.2) |}) <$> po_guard p;
  po_trace t wt := (po_trace p t wt.1, wt.2)
|}.

Definition tallied_engine {W} (en : ReActEngine W) : ReActEngine (W * Tally) :=
  {| en_ports := tallied (en_ports en); en_confidence_threshold := en_confidence_threshold en;
     en_tool_call_budget := en_tool_call_budget en |}.

(** The tool calls that came back with a result. *)
Definition spent (t : Tally) : Z := foldr (λ ao n, counted_call ao.1 ao.2 + n) 0 (ty_actions t).

Section bounds.
Context {W : Type} (en : ReActEngine W) (goal : string) (context : list (string * pyval)) (event_id : string).
Abbreviation ten := (tallied_engine en).

Definition tally (st : RunState (W := W * Tally)) : Tally := (ru_world st).2.

Lemma spent_snoc t a o : spent (MkTally (ty_llm_calls t) (ty_actions t ++ [(a, o)])) = spent t + counted_call a o.
Proof.
  unfold spent. cbn [ty_actions]. induction (ty_actions t) as [|x l IH]; cbn [app foldr fst snd]; [lia|]. rewrite IH. lia.
Qed.

Lemma record_tally s st : tally (record_in_guard ten event_id s st) = tally st.
Proof. unfold record_in_guard. cbn. by destruct (po_guard (en_ports en)). Qed.

(** [t'] comes from [t] by at most [l] LLM calls and [a] actions, none of them to finish. *)
Definition within (l a : nat) (t t' : Tally) : Prop :=
  (ty_llm_calls t' ≤ ty_llm_calls t + l)%nat ∧
  ∃ acts, ty_actions t' = ty_actions t ++ acts ∧ (length acts ≤ a)%nat ∧
    Forall (λ ao, ac_action_type ao.1 ≠ FINISH) acts.

Definition limit : Z := Z.max 0 (en_tool_call_budget en).

(** What a round does to the tally. *)
Definition round_within (l a : nat) (t : Tally) (o : RoundOutcome (W := W * Tally)) : Prop :=
  match o with
  | round_stops _ wt | round_raises _ wt => within l a t wt.2 ∧ spent wt.2 ≤ limit
  | round_goes_on st => within l a t (tally st) ∧ ru_tool_calls st = spent (tally st) ∧ spent (tally st) ≤ limit
  end.

Lemma within_refl l a t : within l a t t.
Proof. split; [lia|]. exists []. rewrite app_nil_r. split_and!; [done|cbn; lia|constructor]. Qed.

Lemma within_trans l1 l2 a1 a2 t1 t2 t3 : within l1 a1 t1 t2 → within l2 a2 t2 t3 → within (l1 + l2) (a1 + a2) t1 t3.
Proof.
  intros [H1 (x & Hx & Hlx & Hfx)] [H2 (y & Hy & Hly & Hfy)]. split; [lia|]. exists (x ++ y).
  rewrite Hy, Hx, app_assoc, length_app. split_and!; [done|lia|by apply Forall_app_2].
Qed.

Lemma round_within_trans l1 l2 a1 a2 t1 t2 o :
  within l1 a1 t1 t2 → round_within l2 a2 t2 o → round_within (l1 + l2) (a1 + a2) t1 o.
Proof.
  intros H. destruct o as [r wt|x wt|st]; cbn; [intros [? ?]|intros [? ?]|intros (? & ? & ?)];
    split; try done; by eapply within_trans.
Qed.

Lemma reflect_tally i obs think action d b st :
  ru_tool_calls st = spent (tally st) → spent (tally st) ≤ limit →
  round_within 1 0 (tally st) (reflect_phase ten goal context event_id i obs think action d b st).
Proof.
  intros Hc Hl. unfold reflect_phase, _reflect. cbn [en_ports tallied_engine po_reflect tallied].
  destruct (po_reflect _ _ _) as [reply w].
  set (t' := MkTally _ _). set (st1 := in_world _ st).
  assert (within 1 0 (tally st) t') as Hw.
  { split; [unfold t', tally; cbn; lia|]. exists []. rewrite app_nil_r. split_and!; [done|done|constructor]. }
  assert (spent t' = spent (tally st)) as Hsp by done.
  destruct (checked_reply _ _ reply) as [reflect|text|x]; [|by split; [|rewrite <-Hsp in Hl]|by split; [|rewrite <-Hsp in Hl]].
  unfold _record_llm_call.
  match goal with |- context [record_in_guard ?e ?v ?s0 ?st0] => set (st2 := record_in_guard e v s0 st0);
    pose proof (record_tally s0 st0 : tally st2 = _) as Ht; pose proof (record_same e v s0 st0 : same_locals _ st2) as Hs end.
  assert (tally st2 = t') as Ht2 by (rewrite Ht; done). clear Ht.
  assert (ru_tool_calls st2 = ru_tool_calls st) as Hc2 by (by rewrite Hs).
  clearbody st2. destruct (_guard_converged_result _ _ _ st2 _) as [r|].
  { cbn. change (ru_world st2).2 with (tally st2). by rewrite Ht2, Hsp. }
  destruct (_ <=? _); [|destruct (_ && _)]; cbn; unfold tally; cbn; change (ru_world st2).2 with (tally st2);
    by rewrite Ht2, ?Hsp, ?Hc2.
Qed.

Lemma act_tally i obs think st :
  ru_tool_calls st = spent (tally st) → spent (tally st) ≤ limit →
  round_within 1 1 (tally st) (act_phase ten goal context event_id i obs think st).
Proof.
  intros Hc Hl. unfold act_phase.
  assert (within 1 1 (tally st) (tally st) ∧ spent (tally st) ≤ limit) as Hstop by (split; [apply within_refl|done]).
  destruct (th_action think) as [action|]; [|done]. case_bool_decide as Hf; [done|].
  destruct ((ac_action_type action ==? CALL_TOOL) && _) eqn:Hb; [done|]. cbn [en_ports tallied_engine po_execute tallied].
  destruct (po_execute _ _ _ _) as [o w]. set (t' := MkTally _ _).
  assert (within 0 1 (tally st) t') as Hw.
  { split; [unfold t', tally; cbn; lia|]. exists [(action, o)]. split_and!; [done|done|by apply Forall_singleton]. }
  assert (spent t' = spent (tally st) + counted_call action o) as Hsp by apply spent_snoc.
  assert (spent t' ≤ limit) as Hl'.
  { rewrite Hsp. unfold counted_call. destruct (ac_action_type action) eqn:Ht; [|lia..].
    rewrite bool_decide_eq_true_2 in Hb by done. apply Z.leb_gt in Hb. cbn in Hb. unfold limit in *. destruct o; lia. }
  destruct (acted action o) as [[d b]|].
  - apply (round_within_trans 0 1 1 0 (tally st) t' _ Hw).
    set (st' := MkRunState _ _ _ _ _ _ _). change t' with (tally st'). apply reflect_tally; [|done].
    change (tally st') with t'. cbn [ru_tool_calls st']. by rewrite Hc, Hsp.
  - split; [|done]. by apply (within_trans 0 1 1 0 _ _ _ Hw), within_refl.
Qed.

Lemma round_tally i st :
  ru_tool_calls st = spent (tally st) → spent (tally st) ≤ limit →
  round_within 2 1 (tally st) (react_round ten goal context event_id i st).
Proof.
  intros Hc Hl. unfold react_round.
  match goal with |- context [record_in_guard ?e ?v ?s0 st] => set (st1 := record_in_guard e v s0 st);
    pose proof (record_tally s0 st : tally st1 = _) as Ht1; pose proof (record_same e v s0 st : same_locals _ st1) as Hs1 end.
  assert (ru_tool_calls st1 = spent (tally st1)) as Hc1 by (rewrite Ht1, <-Hc; by rewrite Hs1).
  rewrite <-Ht1 in *. clearbody st1. clear Ht1 Hs1 Hc.
  destruct (_guard_converged_result _ _ _ st1 _) as [r|]; [by split; [apply within_refl|]|].
  unfold _think. cbn [en_ports tallied_engine po_think tallied].
  destruct (po_think _ _ _) as [reply w]. set (t' := MkTally _ _).
  assert (within 1 0 (tally st1) t') as Hw.
  { split; [unfold t', tally; cbn; lia|]. exists []. rewrite app_nil_r. split_and!; [done|done|constructor]. }
  assert (within 2 1 (tally st1) t' ∧ spent t' ≤ limit) as Hstop.
  { split; [|done]. by apply (within_trans 1 1 0 1 _ _ _ Hw), within_refl. }
  destruct (checked_reply _ _ reply) as [think|text|x]; [|done..]. unfold _record_llm_call.
  match goal with |- context [record_in_guard ?e ?v ?s0 ?st0] => set (st2 := record_in_guard e v s0 st0);
    pose proof (record_tally s0 st0 : tally st2 = _) as Ht2; pose proof (record_same e v s0 st0 : same_locals _ st2) as Hs2 end.
  assert (tally st2 = t') as Ht by (rewrite Ht2; done).
  assert (ru_tool_calls st2 = spent t') as Hc2 by (rewrite Hs2; done). clearbody st2.
  destruct (_guard_converged_result _ _ _ st2 _) as [r|].
  { cbn. change (ru_world st2).2 with (tally st2). by rewrite Ht. }
  apply (round_within_trans 1 1 0 1 (tally st1) t' _ Hw). rewrite <-Ht. apply act_tally; rewrite Ht; [done|apply Hstop].
Qed.

Lemma loop_tally n i st out :
  ru_tool_calls st = spent (tally st) → spent (tally st) ≤ limit →
  react_loop ten goal context event_id n i st = out →
  within (2 * n) n (tally st) out.2.2 ∧ spent out.2.2 ≤ limit.
Proof.
  revert i st. induction n as [|n IH]; intros i st Hc Hl; cbn [react_loop].
  { intros <-. split; [apply within_refl|done]. }
  pose proof (round_tally i st Hc Hl) as Hr.
  replace (2 * S n)%nat with (2 + 2 * n)%nat by lia. change (S n) with (1 + n)%nat.
  destruct (react_round _ _ _ _ i st) as [r wt|x wt|st']; cbn in Hr.
  - intros <-. split; [|apply Hr]. eapply within_trans; [apply Hr|apply within_refl].
  - intros <-. split; [|apply Hr]. eapply within_trans; [apply Hr|apply within_refl].
  - destruct Hr as (Hw & Hc' & Hl'). intros Hout. destruct (IH _ _ Hc' Hl' Hout) as [Hw' Hs]. split; [|done].
    by eapply within_trans.
Qed.
End bounds.

(** C34. A ReAct run is bounded, whatever the LLM answers and however it ends: at most two LLM calls and
    one executed action per round, for at most [max_rounds] rounds; never more tool results than the
    tool-call budget; and an action to finish is never handed to the executor. *)
Theorem react_run_bounded {W} (en : ReActEngine W) goal context max_rounds w :
  let '(_, (_, t)) := react_run (tallied_engine en) goal context max_rounds (w, MkTally 0 []) in
  Z.of_nat (ty_llm_calls t) ≤ Z.max 0 (2 * max_rounds) ∧
  Z.of_nat (length (ty_actions t)) ≤ Z.max 0 max_rounds ∧
  spent t ≤ Z.max 0 (en_tool_call_budget en) ∧
  Forall (λ ao, ac_action_type ao.1 ≠ FINISH) (ty_actions t).
Proof.
  unfold react_run.
  assert (∀ x : RunOutcome, let '(_, (_, t)) := (x, (w, MkTally 0 [])) in
    Z.of_nat (ty_llm_calls t) ≤ Z.max 0 (2 * max_rounds) ∧ Z.of_nat (length (ty_actions t)) ≤ Z.max 0 max_rounds ∧
    spent t ≤ Z.max 0 (en_tool_call_budget en) ∧ Forall (λ ao, ac_action_type ao.1 ≠ FINISH) (ty_actions t)) as Hnone.
  { intros x. split_and!; [cbn; lia..|constructor]. }
  destruct (Z.ltb_spec max_rounds 1); [exact (Hnone (run_raises r_cancelled))|].
  destruct (_ ==? ""); [exact (Hnone (run_raises r_cancelled))|]. clear Hnone.
  destruct (react_loop _ _ _ _ _ _ _) as [out [w' t]] eqn:Hrun.
  apply loop_tally in Hrun as [[Hl (acts & Ha & Hn & Hf)] Hs]; [|done|cbn; unfold limit; lia].
  cbn in Hl, Ha. rewrite Ha. split_and!; [lia|lia|done|done].
Qed.

(** * A ReAct run only reads *)

(** ** A call keeps the metadata *)

Section metas.
Context {G J : Type} `{GuardPort G} `{JobStore J}.
Implicit Types (w : XWorld (G := G) (J := J)) (ce : CallEnv (G := G) (J := J)).

Definition meta_at w (t : string) : option ToolMeta := rt_tool_meta <$> dict_get (xw_registry w) t.

Definition same_metas w w' : Prop := ∀ t, meta_at w' t = meta_at w t.

#[global] Instance same_metas_preorder : PreOrder same_metas.
Proof. split; [by intros w t|]. intros w1 w2 w3 H1 H2 t. by rewrite H2. Qed.

Lemma same_registry w w' : xw_registry w' = xw_registry w → same_metas w w'.
Proof. intros Hr t. unfold meta_at. by rewrite Hr. Qed.

Lemma count_execution_metas t a w : same_metas w (count_execution t a w).
Proof.
  unfold count_execution. destruct (dict_get (xw_registry w) t) as [r|] eqn:Hr; [|done]. intros t'. unfold meta_at. cbn.
  destruct (decide (t = t')) as [<-|Hne]; [|by rewrite dict_get_set_ne].
  rewrite dict_get_set, Hr. by destruct a.
Qed.

Lemma dispatch_once_metas ce c n w answer w' : dispatch_once ce c n w = (answer, w') → same_metas w w'.
Proof.
  unfold dispatch_once. destruct (require_tool_provider_impl _); intros [= _ <-]; [done|].
  etrans; [|apply count_execution_metas]. by apply same_registry.
Qed.

Lemma finalize_metas ce r n w o w' : _finalize ce r n w = (o, w') → same_metas w w'.
Proof. unfold _finalize. intros [= _ <-]. apply same_registry. by destruct (ce_audit_ok ce). Qed.

Lemma job_writeback_registry c r w : xw_registry (job_writeback c r w).2 = xw_registry w.
Proof.
  unfold job_writeback, _cas_writeback_job. destruct (ca_execution_job_id _); [|done]. destruct (tr_job_id r); [|done].
  destruct (_ ==? _); [|done]. destruct (sh_jobs _); [|done]. destruct (js_get_job _ _); [|done].
  by destruct (js_cas_update_job _ _ _ _).
Qed.

Lemma record_outcome_registry ce n t s w : xw_registry (record_outcome ce n t s w) = xw_registry w.
Proof.
  unfold record_outcome. destruct (_ ∈? _); [apply breaker_update_rest|].
  destruct (_ ∈? _); [apply breaker_update_rest|done].
Qed.

Lemma settle_metas ce c n k raw w out w' : settle ce c n k raw w = (out, w') → same_metas w w'.
Proof.
  unfold settle. intros Hs. destruct (output_failure _ _ _ _) as [x|]; [by injection Hs as <- <-|].
  destruct (_coerce_tool_result _ _ _ _ _ _) as [x|r]; [by injection Hs as <- <-|].
  set (w1 := record_outcome _ _ _ _ _) in Hs.
  pose proof (job_writeback_registry c r w1) as Hreg. destruct (job_writeback c r w1) as [failed w2]. cbn [snd] in Hreg.
  assert (same_metas w w2) as Hw2 by (apply same_registry; rewrite Hreg; apply record_outcome_registry).
  destruct failed as [x|]; [by injection Hs as <- <-|].
  destruct (charge_answer _ _ _) as [[x|]|]; [by injection Hs as <- <-| |];
    (destruct (_finalize _ _ _ _) as [o w3] eqn:Hf; injection Hs as <- <-; apply finalize_metas in Hf; etrans; [exact Hw2|done]).
Qed.

Lemma on_exception_metas ce c n x w out w' : on_exception ce c n x w = (out, w') → same_metas w w'.
Proof.
  unfold on_exception. set (w1 := breaker_update _ _ _).
  assert (same_metas w w1) as H1 by apply same_registry, breaker_update_rest.
  destruct (ex_class x ==? TimeoutError); [by destruct (_should_retry _ _ _ _ _ _); intros [= <- <-]|].
  destruct (_ ∈? _); [by intros [= <- <-]|]. by destruct (_should_retry _ _ _ _ _ _); intros [= <- <-].
Qed.

Lemma call_round_metas ce c n k w out w' : call_round ce c n k w = (out, w') → same_metas w w'.
Proof.
  unfold call_round. destruct (guard_stops _ _).
  { destruct (_finalize _ _ _ _) as [o w1] eqn:Hf. intros [= <- <-]. by eapply finalize_metas. }
  set (w1 := guard_record _ _). assert (same_metas w w1) as H1 by (apply same_registry; by destruct n).
  clearbody w1. pose proof (on_breaker_rest (ca_tool_name (cl_args c)) (allow_request (ce_allow_now ce n)) w1) as (_ & Hreg & _).
  destruct (on_breaker _ _ w1) as [ok w2]. cbn [snd] in Hreg. apply same_registry in Hreg.
  assert (same_metas w w2) as H2 by by etrans. destruct (negb ok).
  { destruct (_finalize _ _ _ _) as [o w3] eqn:Hf. intros [= <- <-]. etrans; [exact H2|]. by eapply finalize_metas. }
  destruct (dispatch_once ce c n w2) as [answer w3] eqn:Hd. apply dispatch_once_metas in Hd.
  assert (same_metas w w3) as H3 by by etrans.
  destruct (match answer with inl x => (inl x, w3) | inr raw => settle ce c n k raw w3 end) as [o w4] eqn:Ho.
  assert (same_metas w w4) as H4.
  { etrans; [exact H3|]. destruct answer; [by injection Ho as <- <-|by eapply settle_metas]. }
  destruct o as [x|o]; [|by intros [= <- <-]].
  destruct (on_exception ce c n x w4) as [e w5] eqn:He. apply on_exception_metas in He.
  assert (same_metas w w5) as H5 by by etrans.
  destruct e as [[y|r]|]; [by intros [= <- <-]| |by intros [= <- <-]].
  destruct (_finalize _ _ _ _) as [o w6] eqn:Hf. intros [= <- <-]. etrans; [exact H5|]. by eapply finalize_metas.
Qed.

Lemma call_loop_metas fuel ce c n k w o w' : call_loop fuel ce c n k w = (o, w') → same_metas w w'.
Proof.
  revert n k w. induction fuel as [|fuel IH]; intros n k w; cbn [call_loop]; [by intros [= _ <-]|].
  destruct (call_round ce c n k w) as [[out|] w1] eqn:Hr; apply call_round_metas in Hr; [by intros [= _ <-]|].
  intros Hl%IH. by etrans.
Qed.

Lemma executor_call_metas ce a w : same_metas w (executor_call ce a w).2.
Proof.
  unfold executor_call. destruct (get_tool _ _) as [registered|e]; [|done]. destruct (_ ==? CallNature.VIRTUAL); [done|].
  destruct (if _ ==? CallNature.SIDE_EFFECT then _ else _) as [x|provider]; [done|].
  destruct (match ce_budget ce with Some b => bu_check b | None => None end); [done|].
  destruct (validate_input _ _ _ _) as [[]|e]; [|done].
  set (w2 := emit (call_started _) _).
  assert (same_metas w w2) as H2.
  { apply same_registry. unfold w2. pose proof (on_breaker_rest (ca_tool_name a) (pair tt) w) as (_ & Hreg & _).
    by destruct (ce_audit_ok ce). }
  clearbody w2. destruct (_ && _).
  - destruct (_finalize _ _ _ _) as [o w3] eqn:Hf. cbn. etrans; [exact H2|]. by eapply finalize_metas.
  - destruct (call_loop _ _ _ _ _ _) as [o w3] eqn:Hl. cbn. etrans; [exact H2|]. by eapply call_loop_metas.
Qed.
End metas.

(** ** What every port keeps, a run keeps *)

Section preserve.
Context {W : Type} (Rel : W → W → Prop) `{!PreOrder Rel} (en : ReActEngine W).

Record ports_keep : Prop := {
  pk_think : ∀ q w, Rel w (po_think (en_ports en) q w).2;
  pk_reflect : ∀ q w, Rel w (po_reflect (en_ports en) q w).2;
  pk_execute : ∀ i a w, Rel w (po_execute (en_ports en) i a w).2;
  pk_trace : ∀ t w, Rel w (po_trace (en_ports en) t w);
  pk_guard : ∀ ga g w, po_guard (en_ports en) = Some ga → Rel w (ga_set ga g w)
}.

Definition round_keeps (w : W) (o : RoundOutcome (W:=W)) : Prop :=
  match o with round_stops _ w' | round_raises _ w' => Rel w w' | round_goes_on st => Rel w (ru_world st) end.

Hypothesis Hk : ports_keep.
Variables (goal : string) (context : list (string * pyval)) (event_id : string).

Lemma record_keeps s st : Rel (ru_world st) (ru_world (record_in_guard en event_id s st)).
Proof.
  unfold record_in_guard. destruct (po_guard (en_ports en)) as [ga|] eqn:Hg; [|done]. cbn. by apply (pk_guard Hk).
Qed.

Lemma round_keeps_trans w w' o : Rel w w' → round_keeps w' o → round_keeps w o.
Proof. intros Hw. destruct o; cbn; intros Ho; by etrans. Qed.

Lemma reflect_keeps i obs think action d b st :
  round_keeps (ru_world st) (reflect_phase en goal context event_id i obs think action d b st).
Proof.
  unfold reflect_phase, _reflect.
  pose proof (pk_reflect Hk {| fp_goal := goal; fp_observation := obs; fp_action := action;
    fp_result_brief := _truncate (str_take _MAX_TEXT_CHARS (py_repr (VDict d))) _MAX_TEXT_CHARS;
    fp_scenario_id := _round_scenario context i |} (ru_world st)) as Hr.
  destruct (po_reflect _ _ _) as [reply w]. cbn in Hr. destruct (checked_reply _ _ reply) as [reflect|text|x]; [..|done].
  2:{ cbn. etrans; [exact Hr|]. apply (pk_trace Hk). }
  unfold _record_llm_call.
  match goal with |- context [record_in_guard ?e ?v ?s0 ?st0] => set (st2 := record_in_guard e v s0 st0);
    pose proof (record_keeps s0 st0 : Rel _ (ru_world st2)) as H2 end.
  assert (Rel (ru_world st) (ru_world st2)) as Hst2 by (etrans; [exact Hr|]; etrans; [|exact H2]; apply (pk_trace Hk)).
  clearbody st2. destruct (_guard_converged_result _ _ _ st2 _) as [r|]; [done|].
  destruct (_ <=? _); [done|]. by destruct (_ && _).
Qed.

Lemma act_keeps i obs think st : round_keeps (ru_world st) (act_phase en goal context event_id i obs think st).
Proof.
  unfold act_phase.
  destruct (th_action think) as [action|]; [|apply (pk_trace Hk)]. destruct (_ ==? FINISH); [apply (pk_trace Hk)|].
  destruct (_ && _); [apply (pk_trace Hk)|].
  pose proof (pk_execute Hk i action (ru_world st)) as He. destruct (po_execute _ _ _ _) as [o w]. cbn in He.
  destruct (acted action o) as [[d b]|]; [|done].
  eapply round_keeps_trans; [exact He|].
  set (st' := MkRunState _ _ _ _ _ _ w). exact (reflect_keeps i obs think action d b st').
Qed.

Lemma round_keeps_world i st : round_keeps (ru_world st) (react_round en goal context event_id i st).
Proof.
  unfold react_round.
  match goal with |- context [record_in_guard ?e ?v ?s0 st] => set (st1 := record_in_guard e v s0 st);
    pose proof (record_keeps s0 st : Rel _ (ru_world st1)) as H1 end.
  clearbody st1. eapply round_keeps_trans; [exact H1|].
  destruct (_guard_converged_result _ _ _ st1 _) as [r|]; [by cbn|]. unfold _think.
  match goal with |- context [po_think _ ?q _] => pose proof (pk_think Hk q (ru_world st1)) as Ht end.
  destruct (po_think _ _ _) as [reply w]. cbn in Ht. destruct (checked_reply _ _ reply) as [think|text|x]; [|done..].
  unfold _record_llm_call.
  match goal with |- context [record_in_guard ?e ?v ?s0 ?st0] => set (st2 := record_in_guard e v s0 st0);
    pose proof (record_keeps s0 st0 : Rel _ (ru_world st2)) as H2 end.
  assert (Rel (ru_world st1) (ru_world st2)) as Hst2 by by etrans. clearbody st2.
  destruct (_guard_converged_result _ _ _ st2 _) as [r|]; [done|].
  eapply round_keeps_trans; [exact Hst2|]. apply act_keeps.
Qed.

Lemma loop_keeps n i st : Rel (ru_world st) (react_loop en goal context event_id n i st).2.
Proof.
  revert i st. induction n as [|n IH]; intros i st; cbn [react_loop]; [done|].
  pose proof (round_keeps_world i st) as Hr. destruct (react_round _ _ _ _ i st) as [r w|x w|st']; cbn in *; [done..|].
  etrans; [exact Hr|apply IH].
Qed.
End preserve.

Lemma run_keeps {W} (Rel : W → W → Prop) `{!PreOrder Rel} (en : ReActEngine W) goal context max_rounds w :
  ports_keep Rel en → Rel w (react_run en goal context max_rounds w).2.
Proof.
  intros Hk. unfold react_run. destruct (_ <? _); [done|]. destruct (_ ==? ""); [done|].
  exact (loop_keeps Rel en Hk goal context _ (Z.to_nat max_rounds) 1 (initial_state w)).
Qed.

(** ** Reading *)

Section reads.
Context {G J R : Type} `{GuardPort G} `{JobStore J} `{RedisCounters R}.
Context (rv : ReservationEnv) (ge : GrantEnv) (pj : ProjectionEnv).
Implicit Types (w : BoundWorld (G:=G) (J:=J) (R:=R)).

Definition query_tool w (t : string) : Prop :=
  ∃ m, meta_at (bw_tools w) t = Some m ∧ tm_tool_category m = ToolCategory.QUERY.

(** Tools keep their metadata, and every tool that was dispatched is a query tool. *)
Definition reads w w' : Prop :=
  same_metas (bw_tools w) (bw_tools w') ∧ ∀ t, (count t (bw_tools w) < count t (bw_tools w'))%nat → query_tool w t.

#[global] Instance reads_preorder : PreOrder reads.
Proof.
  split; [intros w; split; [done|intros t; lia]|]. intros w1 w2 w3 [Hm1 Hq1] [Hm2 Hq2]. split; [by etrans|].
  intros t Hlt. destruct (decide (count t (bw_tools w1) < count t (bw_tools w2))%nat) as [Hl|Hl]; [by apply Hq1|].
  destruct (Hq2 t) as (m & Hm & Hc); [lia|]. exists m. by rewrite <-Hm1.
Qed.

Lemma reads_same_tools w w' :
  xw_registry (bw_tools w') = xw_registry (bw_tools w) → xw_log (bw_tools w') = xw_log (bw_tools w) → reads w w'.
Proof. intros Hr Hl. split; [by apply same_registry|]. intros t. rewrite (count_log t _ _ Hl). lia. Qed.

Lemma query_call_reads ce a w r gw :
  get_tool (xw_registry (bw_tools w)) (ca_tool_name a) = Ok r →
  tm_tool_category (rt_tool_meta r) = ToolCategory.QUERY →
  reads w (MkBoundWorld gw (executor_call ce a (bw_tools w)).2).
Proof.
  intros Hget Hq. split; [apply executor_call_metas|]. intros t Hlt. cbn in Hlt.
  pose proof (proj2 (executor_call_bounded ce a (bw_tools w)) t) as Hb.
  assert (ca_tool_name a = t) as <- by (case_bool_decide; [done|lia]).
  unfold get_tool in Hget. exists (rt_tool_meta r). unfold meta_at.
  destruct (dict_get _ _); [|done]. by injection Hget as ->.
Qed.

Lemma bound_call_reads ck ce gid aid a others w : reads w (bound_call rv ge pj ck ce gid aid a others w).2.
Proof.
  unfold bound_call. destruct (reserve_attempt _ _ _ _ _ _ _) as [[[record g]|e] gw]; [|by apply reads_same_tools].
  unfold granted_call. cbn [bw_tools]. destruct (_precheck _ _ _ _ _) eqn:Hp; [by apply reads_same_tools|].
  destruct (precheck_None _ _ _ _ _ Hp) as (_ & _ & _ & (r & Hget & Hq & _) & _).
  destruct (validate_input _ _ _ _) as [[]|e]; [|destruct (_ ==? _); by apply reads_same_tools].
  pose proof (λ gw', query_call_reads (_dispatch_executor g ce) (trusted_args g a) w r gw' Hget Hq) as Hr.
  destruct (executor_call _ _ _) as [o tools]. cbn [snd] in Hr.
  destruct o as [res|x|]; [destruct (project _ _ _ _ _ _)|..]; apply Hr.
Qed.

Variable x : ReadOnlyReActExecutor (G:=G) (J:=J) (R:=R).

(** The whitelisted agents keep to reading too. *)
Definition agents_read : Prop :=
  Forall (λ nf, ∀ params w, reads w (nf.2 params w).2) (rx_allowed_agents x).

Lemma dict_get_In {A} (d : list (string * A)) k v : dict_get d k = Some v → (k, v) ∈ d.
Proof.
  induction d as [|[k' v'] d IH]; cbn; [done|]. case_bool_decide; [intros [= ->]; subst; by left|]. intros Hd. right. by apply IH.
Qed.

Lemma react_execute_reads i action w : agents_read → reads w (react_execute rv ge pj x i action w).2.
Proof.
  intros Ha. unfold react_execute. destruct (ac_action_type action); [| |done].
  - unfold _execute_tool. destruct (rx_grant x) as [g|].
    + unfold _execute_bound_tool.
      match goal with |- context [bound_call ?a1 ?a2 ?a3 ?a4 ?a5 ?a6 ?a7 ?a8 ?a9 w] =>
        pose proof (bound_call_reads a4 a5 a6 a7 a8 a9 w) as Hb; destruct (bound_call a1 a2 a3 a4 a5 a6 a7 a8 a9 w) as [o w'] end.
      done.
    + destruct (rx_grant_required x); [done|]. unfold plain_tool_call.
      destruct (get_tool _ _) as [r|e] eqn:Hget; [|done]. case_bool_decide as Hq; cbn [negb]; [|done].
      match goal with |- context [executor_call ?ce ?a ?t] =>
        pose proof (query_call_reads ce a w r (bw_grants w) Hget Hq) as Hr; destruct (executor_call ce a t) as [o tools] end.
      done.
  - unfold _execute_agent. destruct (dict_get _ _) as [fn|] eqn:Hfn; [|done].
    apply dict_get_In in Hfn. unfold agents_read in Ha. rewrite Forall_forall in Ha.
    pose proof (Ha _ Hfn (ac_params action) w) as Hr. cbn in Hr. by destruct (fn (ac_params action) w).
Qed.

(** The ports of an engine whose executor is [x] over the tools inside [W]; LLM, trace log and guard
    dispatch no tool and change no registration. *)
Record wired {W} (p : ReActPorts W) (tools_of : W → BoundWorld (G:=G) (J:=J) (R:=R)) : Prop := {
  wi_execute : ∀ i a s, (po_execute p i a s).1 = (react_execute rv ge pj x i a (tools_of s)).1 ∧
                        tools_of (po_execute p i a s).2 = (react_execute rv ge pj x i a (tools_of s)).2;
  wi_think : ∀ q s, reads (tools_of s) (tools_of (po_think p q s).2);
  wi_reflect : ∀ q s, reads (tools_of s) (tools_of (po_reflect p q s).2);
  wi_trace : ∀ t s, reads (tools_of s) (tools_of (po_trace p t s));
  wi_guard : ∀ ga g s, po_guard p = Some ga → reads (tools_of s) (tools_of (ga_set ga g s))
}.

(** C35. A ReAct run only reads: whatever the LLM asks for, every tool dispatched during the run was
    registered as a query tool when the run began, and no tool changes its metadata; the whitelisted
    agents are assumed to keep to that. *)
Theorem react_only_reads {W} (en : ReActEngine W) (tools_of : W → BoundWorld (G:=G) (J:=J) (R:=R))
    goal context max_rounds (s : W) out s' t :
  wired (en_ports en) tools_of → agents_read →
  react_run en goal context max_rounds s = (out, s') →
  same_metas (bw_tools (tools_of s)) (bw_tools (tools_of s')) ∧
  ((count t (bw_tools (tools_of s)) < count t (bw_tools (tools_of s')))%nat → query_tool (tools_of s) t).
Proof.
  intros Hw Ha Hrun. set (Rel (s1 s2 : W) := reads (tools_of s1) (tools_of s2)).
  assert (PreOrder Rel) as Hpre.
  { split; [intros s1; apply (reflexivity (R := reads))|intros s1 s2 s3; apply (transitivity (R := reads))]. }
  assert (Rel s s') as [Hm Hq]; [|split; [done|apply Hq]].
  replace s' with (react_run en goal context max_rounds s).2 by (by rewrite Hrun).
  apply run_keeps; [done|]. split; unfold Rel; [apply (wi_think _ _ Hw)|apply (wi_reflect _ _ Hw)| |apply (wi_trace _ _ Hw)|].
  - intros i a s1. rewrite (proj2 (wi_execute _ _ Hw i a s1)). by apply react_execute_reads.
  - intros ga g s1. apply (wi_guard _ _ Hw).
Qed.
End reads.
