(* ===== verification/ReactFill.v ===== *)
(** * Read-only fill (orchestration/react_fill.py, tools/tool_call_runtime.py,
      services/tenant_resolution.py)

    [run_readonly_react_fill] mints an executor for the event, runs the ReAct loop of [React] over it
    and leaves a note on the scratchpad.  The executor is bound to a grant of [ToolGrants] that names
    the tools of the plan step; grant and token ids, clocks and what other processes commit are
    arguments. *)

From stdpp Require Import prelude strings gmap sorting pretty.
From Stdlib Require Import QArith Lia.
From S2P Require Import Prelude Enums Errors ErrorTaxonomy Db ExecutionResults ToolMeta ToolRegistry ConvergenceGuard.
From S2P Require Import CircuitBreaker ToolExecutor SafeProjection Lease BudgetReservation ToolGrants BoundExecutor Llm React.

#[local] Open Scope string_scope.
#[local] Open Scope Z_scope.
#[local] Open Scope list_scope.

(** ** Tenants (services/tenant_resolution.py) *)

Definition tenant_text (v : option pyval) : option string :=
  match v with
  | Some (VStr s) => if str_strip s ==? "" then None else Some (str_strip s)
  | _ => None
  end.

(** The first of the two keys that holds a tenant. *)
Definition tenant_in (d : list (string * pyval)) : option string :=
  match tenant_text (dict_get d "source_tenant_id") with
  | Some t => Some t
  | None => tenant_text (dict_get d "tenant_id")
  end.

Fixpoint tenant_among (items : list pyval) : option string :=
  match items with
  | [] => None
  | VDict d :: items => match tenant_in d with Some t => Some t | None => tenant_among items end
  | _ :: items => tenant_among items
  end.

Definition resolve_tenant_id (source_snapshot : pyval) : option string :=
  match source_snapshot with
  | VDict d =>
      let from_references :=
        match dict_get d "source_reference_snapshots" with Some (VList l) => tenant_among l | _ => None end in
      match tenant_in d with
      | Some t => Some t
      | None =>
          match dict_get d "creation_source_ref" with
          | Some (VDict c) => match tenant_in c with Some t => Some t | None => from_references end
          | _ => from_references
          end
      end
  | _ => None
  end.

(** ** The tools of a grant (tools/tool_call_runtime.py) *)

Record PlanStep : Type := {
  ps_step_order : Z;
  ps_step_goal : string;
  ps_assigned_agent : string;
  ps_required_tools : list string;
  ps_success_criteria : string
}.

Definition tools_scope (allowed_tools connector_ids : list string) : ToolCallGrantScope :=
  _normalize_scope_lists {| gs_allowed_tools := allowed_tools; gs_allowed_domains := []; gs_allowed_entities := [];
                            gs_connector_ids := connector_ids |}.

Definition list_dynamic_query_tools (reg : ToolRegistry) : list string :=
  merge_sort string_le
    (tm_tool_name <$> List.filter (λ m, tm_routing_kind m !=? RoutingKind.DISPOSITION_ONLY)
                        (list_tools reg (Some (enum_value ToolCategory.QUERY)))).

Definition resolve_react_grant_tools (reg : ToolRegistry) (required_tools : option (list string)) : list string :=
  let effective tools := sorted_set (resolve_effective_query_tools (tools_scope tools []) reg) in
  let fallback := effective (list_dynamic_query_tools reg) in
  match required_tools with
  | None | Some [] => fallback
  | Some required => match effective required with [] => fallback | narrowed => narrowed end
  end.

Definition plan_step_binding_id (step : option PlanStep) : option string :=
  (λ s, "react-step-" +++ pretty (ps_step_order s)) <$> step.

(** [sha256]: the hexadecimal digest. *)
Definition build_react_idempotency_key (sha256 : string → string) (event_id : string) (plan_step_id : option string)
    (allowed_tools : option (list string)) (max_calls : option Z) (shadow_run_id : option string) : string :=
  let step := text_or (str_strip (text_or (default "" plan_step_id) "default")) "default" in
  let key := "react-" +++ event_id +++ "-" +++ step in
  let key := if truthy_str shadow_run_id
             then key +++ "-shadow-" +++ str_strip (default "" shadow_run_id) else key in
  let key := match allowed_tools with
             | Some tools => key +++ "-" +++ str_take 8
                 (sha256 (str_join "," (merge_sort string_le tools) +++ ":" +++ pretty (default 0 max_calls)))
             | None => key
             end in
  str_take 256 key.

Definition DEFAULT_VALID_FOR_SECONDS : Z := 900.

Definition build_react_grant_request (sha256 : string → string) (principal_id event_id tenant_id : string)
    (allowed_tools connector_ids : list string) (max_calls : Z) (shadow_run_id : option string) (mode : ToolCallMode)
    (policy_version : option string) (plan_step_id task_id : option string) : ToolCallGrantCreateRequest := {|
  cr_mode := mode; cr_shadow_run_id := shadow_run_id; cr_event_id := event_id; cr_plan_step_id := plan_step_id;
  cr_task_id := task_id; cr_tenant_id := tenant_id; cr_scope := tools_scope allowed_tools connector_ids;
  cr_execution_principal := {| bp_principal_id := principal_id; bp_agent_name := "react_engine";
                               bp_actor_type := "react_engine" |};
  cr_max_calls := max_calls; cr_valid_for_seconds := DEFAULT_VALID_FOR_SECONDS;
  cr_policy_version := text_or (default "" policy_version) DEFAULT_TOOL_CALL_GRANT_POLICY_VERSION;
  cr_idempotency_key := build_react_idempotency_key sha256 event_id plan_step_id (Some allowed_tools) (Some max_calls)
                          shadow_run_id
|}.

Section factory.
Context {G J R : Type} `{GuardPort G} `{JobStore J} `{RedisCounters R}.
Context (rv : ReservationEnv) (ge : GrantEnv) (pj : ProjectionEnv).
Abbreviation Executor := (ReadOnlyReActExecutor (G:=G) (J:=J) (R:=R)).
Abbreviation AgentFn := (list (string * pyval) → BoundWorld (G:=G) (J:=J) (R:=R) →
                         AgentAnswer * BoundWorld (G:=G) (J:=J) (R:=R)).

(** The settings read here, and what clocks, tools and other processes do during the calls of the
    executor. *)
Record FactoryEnv : Type := {
  fe_grant_required : bool;
  fe_policy_version : string;
  fe_clock : Z → AttemptClock;
  fe_call : Z → CallEnv (G:=G) (J:=J);
  fe_attempt_id : Z → string;
  fe_others : Z → nat → GrantWorld (R:=R) → GrantWorld (R:=R)
}.

(** The readings of one mint: [mi_others] is what other processes commit inside [issue_grant] and
    before a replayed grant is loaded. *)
Record Mint : Type := {
  mi_now : Z;
  mi_created : Z;
  mi_token : string;
  mi_grant_id : string;
  mi_principal_id : string;
  mi_others : nat → GrantDb → GrantDb
}.

(** [ReadOnlyReActExecutor(...)] *)
Definition new_executor (fe : FactoryEnv) (event_id agent_name : string) (grant : option ToolCallGrant)
    (allowed_agents : list (string * AgentFn)) : result Executor :=
  raise_if (str_strip event_id ==? "") (builtin_error ValueError "event_id must not be empty") ;;
  Ok {| rx_event_id := event_id; rx_agent_name := agent_name; rx_grant_required := fe_grant_required fe;
        rx_grant := grant; rx_allowed_agents := allowed_agents; rx_clock := fe_clock fe; rx_call := fe_call fe;
        rx_attempt_id := fe_attempt_id fe; rx_others := fe_others fe |}.

(** [issue_grant], and [load_grant_trusted] when the grant was there before. *)
Definition obtain_grant (mi : Mint) (q : ToolCallGrantCreateRequest) (db : GrantDb) : result ToolCallGrant * GrantDb :=
  if negb (create_request_valid q) then (Err (builtin_error PydanticValidationError "ToolCallGrantCreateRequest"), db)
  else
    match issue_grant ge (mi_now mi) (mi_created mi) db q (mi_token mi) (mi_grant_id mi) (mi_others mi 0%nat) with
    | (Err e, db) => (Err e, db)
    | (Ok (g, token), db) =>
        if token ==? "" then
          let db := mi_others mi 1%nat db in
          (load_grant_trusted ge db (tg_grant_id g), db)
        else (Ok g, db)
    end.

(** The executor bound to the grant of the request. *)
Definition bound_executor (fe : FactoryEnv) (mi : Mint) (event_id agent_name : string)
    (allowed_agents : list (string * AgentFn)) (q : ToolCallGrantCreateRequest) (db : GrantDb) : result Executor * GrantDb :=
  match obtain_grant mi q db with
  | (Err e, db) => (Err e, db)
  | (Ok g, db) => (new_executor fe event_id agent_name (Some g) allowed_agents, db)
  end.

Definition event_request (fe : FactoryEnv) (mi : Mint) (reg : ToolRegistry) (event_id tenant : string)
    (plan_step : option PlanStep) : ToolCallGrantCreateRequest :=
  build_react_grant_request (ge_sha256 ge) (mi_principal_id mi) event_id tenant
    (resolve_react_grant_tools reg (ps_required_tools <$> plan_step)) [] (Z.max 1 DEFAULT_TOOL_CALL_BUDGET) None
    ToolCallMode.PRODUCTION (Some (fe_policy_version fe)) (plan_step_binding_id plan_step) None.

Definition for_event (fe : FactoryEnv) (mi : Mint) (reg : ToolRegistry) (event_id : string) (tenant_id : option string)
    (source_snapshot : pyval) (plan_step : option PlanStep) (db : GrantDb) : result Executor * GrantDb :=
  let tenant := str_strip (if truthy_str tenant_id then default "" tenant_id
                           else default "" (resolve_tenant_id source_snapshot)) in
  if tenant ==? "" then
    (Err (grant_unavailable "event tenant is required for dynamic ReAct"
            [("event_id", VStr event_id); ("reason", VStr "missing_event_tenant")]), db)
  else if negb (fe_grant_required fe) then (new_executor fe event_id "react_engine" None [], db)
  else if negb (ge_available ge) then
    (Err (grant_unavailable "tool call grant service unavailable for dynamic ReAct" [("event_id", VStr event_id)]), db)
  else bound_executor fe mi event_id "react_engine" [] (event_request fe mi reg event_id tenant plan_step) db.

Definition for_shadow_run (fe : FactoryEnv) (mi : Mint) (reg : ToolRegistry) (event_id shadow_run_id tenant_id : string)
    (allowed_agents : list (string * AgentFn)) (allowed_tools : list string) (max_calls : option Z) (db : GrantDb) :
    result Executor * GrantDb :=
  if str_strip shadow_run_id ==? "" then
    (Err (builtin_error ValueError "shadow_run_id is required for shadow ReAct executor"), db)
  else if str_strip tenant_id ==? "" then
    (Err (builtin_error ValueError "tenant_id is required for shadow ReAct executor"), db)
  else if negb (fe_grant_required fe) then (new_executor fe event_id "shadow_query_pivot" None allowed_agents, db)
  else if negb (ge_available ge) then
    (Err (grant_unavailable "tool call grant service unavailable for shadow ReAct"
            [("event_id", VStr event_id); ("shadow_run_id", VStr shadow_run_id)]), db)
  else
    let tools := resolve_react_grant_tools reg
                   (Some (if bool_decide (allowed_tools = []) then list_dynamic_query_tools reg else allowed_tools)) in
    let calls := match max_calls with Some n => if n =? 0 then DEFAULT_TOOL_CALL_BUDGET else n
                                    | None => DEFAULT_TOOL_CALL_BUDGET end in
    bound_executor fe mi event_id "shadow_query_pivot" allowed_agents
      (build_react_grant_request (ge_sha256 ge) (mi_principal_id mi) event_id tenant_id tools [] (Z.max 1 calls)
         (Some shadow_run_id) ToolCallMode.SHADOW (Some (fe_policy_version fe)) (Some ("shadow-" +++ shadow_run_id)) None)
      db.
End factory.

(** ** The fill (orchestration/react_fill.py) *)

Definition REACT_FILL_GOAL : string := "只读补证：查询缺口证据，不生成处置动作".
Definition REACT_FILL_SCRATCHPAD_PREFIX : string := "react_fill:".
Definition DEFAULT_MAX_ROUNDS : Z := 5.

Definition gap_bits_of (rnd : ReActRound) : list string :=
  let code := gap_code_value (rd_gap_code rnd) in
  let summary := str_strip (rd_decision_summary rnd) in
  (if (code ==? "") || (code ==? "none") then [] else [code]) ++
  (if summary ==? "" then [] else [str_take 80 summary]).

Definition summarize_react_fill (r : ReActResult) : string :=
  "react_stop=" +++ stop_reason_value (rs_stop_reason r) +++ "; confidence=" +++ two_decimals (rs_final_confidence r) +++
  "; gaps=" +++ str_take 240 (str_join "; " (concat (gap_bits_of <$> rs_rounds r))).

(** [plan.get("steps") or []] of a plan in its JSON form *)
Definition plan_steps (execution_plan : pyval) : list pyval :=
  match execution_plan with
  | VDict d => match dict_get d "steps" with Some (VList l) => l | _ => [] end
  | _ => []
  end.

Definition react_payload (step : pyval) : option (list (string * pyval)) :=
  match step with
  | VDict d => match dict_get d "assigned_agent" with
               | Some (VStr agent) => if agent ==? "react" then Some d else None
               | _ => None
               end
  | _ => None
  end.

Definition execution_plan_has_react_step (execution_plan : pyval) : bool :=
  existsb (λ s, bool_decide (is_Some (react_payload s))) (plan_steps execution_plan).

(** [model_validate] is an argument, as is the [int()], [str()] and [list()] coercion of what it rejects. *)
Definition react_step_from_plan (validate coerce : list (string * pyval) → option PlanStep) (execution_plan : pyval) :
    option (option PlanStep) :=
  match omap react_payload (plan_steps execution_plan) with
  | [] => Some None
  | payload :: _ => match validate payload with
                    | Some step => Some (Some step)
                    | None => Some <$> coerce payload
                    end
  end.

(** Working memory: whether a writer can be bound, and the append; its failure is swallowed. *)
Record Scratchpad (W : Type) : Type := {
  sc_writer : bool;
  sc_append : string → string → W → bool * W
}.
Arguments sc_writer {_}. Arguments sc_append {_}.

Definition _append_scratchpad {W} (working_memory : option (Scratchpad W)) (event_id note : string) (w : W) : W :=
  match working_memory with
  | None => w
  | Some m => if sc_writer m then (sc_append m event_id note w).2 else w
  end.

Inductive FillOutcome : Type :=
| fill_returns (r : option ReActResult)
| fill_raises (x : Raised).

Section fill.
Context {G J R : Type} `{GuardPort G} `{JobStore J} `{RedisCounters R}.
Context (rv : ReservationEnv) (ge : GrantEnv) (pj : ProjectionEnv).
Context {W : Type} (bound_of : W → BoundWorld (G:=G) (J:=J) (R:=R)) (set_bound : BoundWorld (G:=G) (J:=J) (R:=R) → W → W).
Abbreviation Executor := (ReadOnlyReActExecutor (G:=G) (J:=J) (R:=R)).

(** The two questions the engine puts to the LLM client. *)
Record FillLlm : Type := {
  fl_think : ThinkPrompt → W → LlmReply ReActThinkOutput * W;
  fl_reflect : ReflectPrompt → W → LlmReply ReActReflectOutput * W
}.

(** The keyword arguments of [run_readonly_react_fill]. *)
Record FillArgs : Type := {
  fa_llm_client : option FillLlm;
  fa_executor : option Executor;
  fa_executor_factory : option (FactoryEnv (G:=G) (J:=J) (R:=R) * Mint);
  fa_plan_step : option PlanStep;
  fa_working_memory : option (Scratchpad W);
  fa_convergence_guard : option (GuardAccess W);
  fa_trace_sink : RoundTrace → W → W;
  fa_source_snapshot : pyval;
  fa_react_enabled : bool
}.

(** [ReActEngine(llm_client, ...)] over the executor [x] *)
Definition fill_engine (a : FillArgs) (llm : FillLlm) (x : Executor) : ReActEngine W := {|
  en_ports := {|
    po_think := fl_think llm; po_reflect := fl_reflect llm;
    po_execute := λ i action w, let '(o, b) := react_execute rv ge pj x i action (bound_of w) in (o, set_bound b w);
    po_describe_targets := λ w, describe_targets x (bound_of w);
    po_guard := fa_convergence_guard a; po_trace := fa_trace_sink a
  |};
  en_confidence_threshold := CONFIDENCE_THRESHOLD;
  en_tool_call_budget := DEFAULT_TOOL_CALL_BUDGET
|}.

Definition fill_goal (context : list (string * pyval)) (plan_step : option PlanStep) : string :=
  match context_text context "gaps" with
  | Some text => text
  | None => text_or (from_option ps_step_goal "" plan_step) REACT_FILL_GOAL
  end.

Definition fill_payload (event_id goal : string) (context : list (string * pyval)) : list (string * pyval) :=
  let payload := dict_set context "event_id" (VStr event_id) in
  match dict_get payload "gaps" with Some _ => payload | None => dict_set payload "gaps" (VStr goal) end.

(** The executor of the fill: minted when there is a factory, else the given one; [inl]: the fill ends here. *)
Definition fill_executor (a : FillArgs) (event_id : string) (payload : list (string * pyval)) (w : W) :
    (FillOutcome + Executor) * W :=
  match fa_executor_factory a with
  | None => (match fa_executor a with Some x => inr x | None => inl (fill_returns None) end, w)
  | Some (fe, mi) =>
      let snapshot := if py_truthy (fa_source_snapshot a) then fa_source_snapshot a
                      else default VNone (dict_get payload "source_snapshot") in
      let b := bound_of w in
      let '(minted, db) := for_event ge fe mi (xw_registry (bw_tools b)) event_id (resolve_tenant_id snapshot) snapshot
                             (fa_plan_step a) (gw_db (bw_grants b)) in
      let w := set_bound (MkBoundWorld (MkGrantWorld db (gw_reservations (bw_grants b)) (gw_redis (bw_grants b)))
                            (bw_tools b)) w in
      match minted with
      | Ok x => (inr x, w)
      | Err e =>
          if err_class e ==? ToolCallGrantUnavailableError then
            (inl (fill_returns None),
             _append_scratchpad (fa_working_memory a) event_id (REACT_FILL_SCRATCHPAD_PREFIX +++ "grant_unavailable") w)
          else if err_class e ==? SoftTimeLimitExceeded then (inl (fill_raises (r_exc (exc_of_error e))), w)
          else (inl (fill_returns None), w)
      end
  end.

(** What passes the [except] clauses around the run. *)
Definition passes_fill (x : Raised) : bool :=
  match x with r_exc e => ex_class e ==? SoftTimeLimitExceeded | r_cancelled => true | r_llm _ => false end.

Definition run_readonly_react_fill (a : FillArgs) (event_id : string) (context : list (string * pyval)) (w : W) :
    FillOutcome * W :=
  if negb (fa_react_enabled a) then (fill_returns None, w)
  else match fa_llm_client a, fa_executor_factory a, fa_executor a with
  | None, _, _ | Some _, None, None => (fill_returns None, w)
  | Some llm, _, _ =>
      let goal := fill_goal context (fa_plan_step a) in
      let payload := fill_payload event_id goal context in
      match fill_executor a event_id payload w with
      | (inl o, w) => (o, w)
      | (inr x, w) =>
          match react_run (fill_engine a llm x) goal payload DEFAULT_MAX_ROUNDS w with
          | (run_raises e, w) =>
              if passes_fill e then (fill_raises e, w)
              else (fill_returns None,
                    _append_scratchpad (fa_working_memory a) event_id (REACT_FILL_SCRATCHPAD_PREFIX +++ "error") w)
          | (run_returns r, w) =>
              (fill_returns (Some r),
               _append_scratchpad (fa_working_memory a) event_id
                 (REACT_FILL_SCRATCHPAD_PREFIX +++ summarize_react_fill r) w)
          end
      end
  end.
End fill.
