(* ===== verification/ReactFillFacts.v ===== *)
(** * What a read-only fill may reach

    A fill is confined to the tools of its plan step, and a fill over a grant that is no longer live
    reaches nothing. *)

From stdpp Require Import prelude strings gmap sorting pretty.
From Stdlib Require Import QArith Lia.
From S2P Require Import Prelude Enums Errors ErrorTaxonomy Db ExecutionResults ToolMeta ToolRegistry ConvergenceGuard.
From S2P Require Import CircuitBreaker ToolExecutor ToolExecutorFacts SafeProjection Lease BudgetReservation ToolGrants.
From S2P Require Import ToolGrantFacts Reconcile BoundExecutor Llm React ReactFacts ReactFill.

#[local] Open Scope string_scope.
#[local] Open Scope Z_scope.
#[local] Open Scope list_scope.

(** ** Stripping *)

Lemma lstrip_idem s : str_lstrip (str_lstrip s) = str_lstrip s.
Proof. induction s as [|c s IH]; cbn; [done|]. destruct (is_py_space c) eqn:Hc; [done|]. cbn. by rewrite Hc. Qed.

Lemma lstrip_suffix s : ∃ q, s = q +++ str_lstrip s.
Proof.
  induction s as [|c s [q IH]]; [by exists ""|]. cbn [str_lstrip]. destruct (is_py_space c); [|by exists ""].
  exists (String c q). by rewrite string_app_cons, <-IH.
Qed.

Lemma rev_app_spec s acc : str_rev_app s acc = str_rev s +++ acc.
Proof.
  unfold str_rev. revert acc. induction s as [|c s IH]; intros acc; cbn [str_rev_app]; [done|].
  by rewrite (IH (String c acc)), (IH (String c "")), string_app_assoc.
Qed.

Lemma rev_cons c s : str_rev (String c s) = str_rev s +++ String c "".
Proof. exact (rev_app_spec s (String c "")). Qed.

Lemma rev_app s t : str_rev (s +++ t) = str_rev t +++ str_rev s.
Proof.
  induction s as [|c s IH]; [by rewrite string_app_nil_r|]. by rewrite string_app_cons, !rev_cons, IH, string_app_assoc.
Qed.

Lemma rev_rev s : str_rev (str_rev s) = s.
Proof. induction s as [|c s IH]; [done|]. by rewrite rev_cons, rev_app, IH. Qed.

Lemma lstrip_prefix p q : str_lstrip (p +++ q) = p +++ q → str_lstrip p = p.
Proof.
  destruct p as [|c p]; [done|]. rewrite string_app_cons. cbn [str_lstrip]. destruct (is_py_space c); [|done]. intros Hl.
  destruct (lstrip_suffix (p +++ q)) as [u Hu]. rewrite Hl in Hu. apply (f_equal String.length) in Hu.
  rewrite (string_length_app u) in Hu. cbn in Hu. lia.
Qed.

Lemma strip_idem s : str_strip (str_strip s) = str_strip s.
Proof.
  unfold str_strip. set (u := str_lstrip s). assert (str_lstrip u = u) as Hu by apply lstrip_idem.
  destruct (lstrip_suffix (str_rev u)) as [q Hq].
  assert (u = str_rev (str_lstrip (str_rev u)) +++ str_rev q) as Hp by (rewrite <-rev_app, <-Hq; by rewrite rev_rev).
  rewrite (lstrip_prefix (str_rev (str_lstrip (str_rev u))) (str_rev q)) by (by rewrite <-Hp). by rewrite rev_rev, lstrip_idem.
Qed.

Lemma normalize_elem seen l x :
  x ∈ normalize_tokens seen l → x ≠ "" ∧ ∃ y, y ∈ l ∧ x = str_strip y.
Proof.
  revert seen. induction l as [|y l IH]; intros seen; cbn; [by intros ?%elem_of_nil|].
  destruct ((str_strip y ==? "") || _) eqn:Hb.
  - intros (Hx & z & Hz & ->)%IH. split; [done|]. exists z. split; [by right|done].
  - apply orb_false_iff in Hb as [Hb%bool_decide_eq_false _]. intros [->|Hx]%elem_of_cons.
    + split; [done|]. exists y. split; [by left|done].
    + apply IH in Hx as (Hx & z & Hz & ->). split; [done|]. exists z. split; [by right|done].
Qed.

(** Tokens that come out of a normalisation are left alone by the next ones. *)
Lemma renormalize_elem l x : (∀ y, y ∈ l → str_strip y = y) → x ∈ normalize_tokens [] l → x ∈ l.
Proof. intros Hl (_ & y & Hy & ->)%normalize_elem. by rewrite Hl. Qed.

Lemma normalized_stripped l y : y ∈ normalize_tokens [] l → str_strip y = y.
Proof. intros (_ & z & _ & ->)%normalize_elem. apply strip_idem. Qed.

(** ** The tools of a step *)

(** The tools a step that names [required] may reach: those of them that are registered query tools
    (disposition-only ones apart), or, when none of them is one, every such tool. *)
Definition tool_of_step (reg : ToolRegistry) (required : list string) (t : string) : Prop :=
  t ∈ list_dynamic_query_tools reg ∧
  (t ∈ normalize_tokens [] required ∨ ∀ u, u ∈ normalize_tokens [] required → u ∉ list_dynamic_query_tools reg).

Lemma sorted_set_elem l t : t ∈ sorted_set l ↔ t ∈ l.
Proof. unfold sorted_set. by rewrite merge_sort_Permutation, elem_of_remove_dups. Qed.

Lemma effective_elem tools conns reg t :
  t ∈ resolve_effective_query_tools (tools_scope tools conns) reg ↔
  t ∈ normalize_tokens [] tools ∧ t ∈ list_dynamic_query_tools reg.
Proof.
  unfold resolve_effective_query_tools, list_dynamic_query_tools. cbn [gs_allowed_tools tools_scope _normalize_scope_lists].
  rewrite merge_sort_Permutation, !list_elem_of_In, filter_In, <-!list_elem_of_In.
  by rewrite bool_decide_eq_true.
Qed.

Lemma resolved_of_step reg step t :
  t ∈ resolve_react_grant_tools reg (ps_required_tools <$> step) →
  tool_of_step reg (from_option ps_required_tools [] step) t ∧ str_strip t = t.
Proof.
  assert (∀ l, (∀ u, u ∈ normalize_tokens [] (from_option ps_required_tools [] step) → u ∉ list_dynamic_query_tools reg) →
            t ∈ sorted_set (resolve_effective_query_tools (tools_scope l []) reg) →
            tool_of_step reg (from_option ps_required_tools [] step) t ∧ str_strip t = t) as Hfall.
  { intros l Hn [Hl Hd]%sorted_set_elem%effective_elem. split; [by split; [|right]|by eapply normalized_stripped]. }
  unfold resolve_react_grant_tools. destruct step as [s|]; cbn [fmap option_fmap option_map from_option] in *;
    [|apply Hfall; by intros u ?%elem_of_nil].
  destruct (ps_required_tools s) as [|x required] eqn:Hreq; [apply Hfall; by intros u ?%elem_of_nil|].
  rewrite <-Hreq in *.
  destruct (sorted_set (resolve_effective_query_tools (tools_scope (ps_required_tools s) []) reg)) as [|y narrowed] eqn:Hs.
  - apply Hfall. intros u Hu Hd. apply (elem_of_nil u). rewrite <-Hs. by apply sorted_set_elem, effective_elem.
  - rewrite <-Hs. intros [Hl Hd]%sorted_set_elem%effective_elem.
    split; [by split; [|left]|by eapply normalized_stripped].
Qed.

(** A plan step none of whose tools is a registered query tool gets every query tool. *)
Lemma unknown_tools_widen reg step t :
  (∀ u, u ∈ normalize_tokens [] (ps_required_tools step) → u ∉ list_dynamic_query_tools reg) →
  t ∈ list_dynamic_query_tools reg → str_strip t = t → t ≠ "" →
  t ∈ resolve_react_grant_tools reg (Some (ps_required_tools step)).
Proof.
  intros Hn Ht Hst Hne. unfold resolve_react_grant_tools.
  assert (t ∈ sorted_set (resolve_effective_query_tools (tools_scope (list_dynamic_query_tools reg) []) reg)) as Hall.
  { apply sorted_set_elem, effective_elem. split; [|done]. clear Hn.
    assert (∀ seen l, t ∉ seen → t ∈ l → t ∈ normalize_tokens seen l) as Hin; [|by apply Hin; [apply not_elem_of_nil|]].
    intros seen l. revert seen. induction l as [|y l IH]; intros seen Hs; [by intros ?%elem_of_nil|].
    cbn. intros [<-|Hy]%elem_of_cons.
    - rewrite Hst. rewrite !bool_decide_eq_false_2 by done. by left.
    - destruct (_ || _) eqn:Hb; [by apply IH|]. destruct (decide (t = str_strip y)) as [->|Hd]; [by left|].
      right. apply IH; [|done]. by rewrite not_elem_of_cons. }
  destruct (ps_required_tools step) as [|x required] eqn:Hreq; [done|]. rewrite <-Hreq in *.
  destruct (sorted_set (resolve_effective_query_tools (tools_scope (ps_required_tools step) []) reg)) as [|y narrowed] eqn:Hs;
    [done|].
  assert (y ∈ sorted_set (resolve_effective_query_tools (tools_scope (ps_required_tools step) []) reg)) as Hy
    by (rewrite Hs; by left).
  apply sorted_set_elem, effective_elem in Hy as [Hy Hd]. by destruct (Hn y).
Qed.

(** ** The scope of a stored grant *)

Definition scope_at (db : GrantDb) (gid : string) : option ToolCallGrantScope := gr_scope <$> get_grant db gid.

Lemma update_scope_at db r n rv gid :
  get_grant db (gr_grant_id r) = Some r →
  scope_at (MkGrantDb (update_by gr_grant_id (row_with_count r n rv) (gd_grants db)) (gd_attempts db)) gid = scope_at db gid.
Proof.
  intros Hr. unfold scope_at, get_grant in *. cbn [gd_grants].
  destruct (decide (gr_grant_id r = gid)) as [<-|Hne].
  - by rewrite Hr, (update_by_self gr_grant_id _ r (row_with_count r n rv) Hr).
  - clear Hr. unfold get_by, update_by. induction (gd_grants db) as [|x l IH]; cbn; [done|].
    destruct (decide (gr_grant_id x = gr_grant_id r)) as [He|Hx].
    + rewrite (bool_decide_eq_true_2 _ He). cbn. rewrite !bool_decide_eq_false_2 by congruence. exact IH.
    + rewrite (bool_decide_eq_false_2 _ Hx). case_bool_decide; [done|exact IH].
Qed.

Lemma own_row {db gid r} : get_grant db gid = Some r → get_grant db (gr_grant_id r) = Some r.
Proof. intros Hr. destruct (get_grant_Some _ _ _ Hr) as [_ He]. by rewrite He. Qed.

Lemma scope_of_grants db atts gid : scope_at (MkGrantDb (gd_grants db) atts) gid = scope_at db gid.
Proof. done. Qed.

Lemma rollback_scope db g aid reason gid : scope_at (_rollback_reserved_attempt db g aid reason) gid = scope_at db gid.
Proof.
  unfold _rollback_reserved_attempt. destruct (get_grant db g) as [r|] eqn:Hr; [|apply scope_of_grants].
  destruct (0 <? gr_attempt_count r); [|apply scope_of_grants].
  etrans; [|exact (update_scope_at db r (gr_attempt_count r - 1) (gr_revoked_at r) gid (own_row Hr))]. done.
Qed.

Lemma from_row_scope r g : grant_from_row r = Ok g → tg_scope g = _normalize_scope_lists (gr_scope r).
Proof.
  unfold grant_from_row. rewrite bind_Ok. intros (m & _ & Hv). unfold ToolCallGrant_validate in Hv.
  repeat (apply raise_if_seq_Ok in Hv as [_ Hv]). by injection Hv as <-.
Qed.

Section scopes.
Context {R : Type} `{RedisCounters R} (rv : ReservationEnv) (ge : GrantEnv).
Variables (gid : string) (sc : ToolCallGrantScope).

Definition scoped (w : GrantWorld (R:=R)) : Prop := scope_at (gw_db w) gid = Some sc.

Lemma tx_scope now dbnow db g aa out db' :
  reserve_attempt_tx ge now dbnow db g aa = (out, db') → scope_at db gid = Some sc →
  scope_at db' gid = Some sc ∧ ∀ record g', out = Ok (record, g') → tg_grant_id g = gid →
    tg_grant_id g' = gid ∧ tg_scope g' = _normalize_scope_lists sc.
Proof.
  unfold reserve_attempt_tx. destruct (get_grant db (tg_grant_id g)) as [r|] eqn:Hr; [|by intros [= <- <-]].
  destruct (negb (countable now r)); [by intros [= <- <-]|]. destruct (attempt_conflict _ _); [by intros [= <- <-]|].
  intros [= <- <-] Hs. split.
  - rewrite <-Hs. exact (update_scope_at db r _ _ gid (own_row Hr)).
  - intros record g' (g1 & Hg1 & [= <- <-])%bind_Ok Hgid. split.
    + destruct (grant_from_row_Ok _ _ Hg1) as (_ & -> & _). cbn. destruct (get_grant_Some _ _ _ Hr). congruence.
    + rewrite (from_row_scope _ _ Hg1). cbn. unfold scope_at in Hs. rewrite <-Hgid, Hr in Hs. by injection Hs as <-.
Qed.

Lemma reserve_scope ck w aa others out w' :
  (∀ n x, scoped x → scoped (others n x)) → scoped w → reserve_attempt rv ge ck w gid aa others = (out, w') →
  scoped w' ∧ ∀ record g, out = Ok (record, g) → tg_scope g = _normalize_scope_lists sc.
Proof.
  intros Ho Hw. unfold reserve_attempt.
  destruct (g ← load_grant_trusted ge (gw_db w) gid; _) as [g0|e] eqn:Hload; [|by intros [= <- <-]].
  apply load_live_Ok in Hload as (_ & _ & _ & _ & Hgid). pose proof (Ho 0%nat w Hw) as Hw0. set (w0 := others 0%nat w) in *.
  destruct (reserve_attempt_tx _ _ _ _ _ _) as [out0 db] eqn:Htx. apply tx_scope in Htx as [Hdb Hg]; [|done].
  destruct out0 as [[record g]|e]; [|by intros [= <- <-]]. destruct (Hg record g eq_refl Hgid) as [Hid Hsc].
  pose proof (Ho 1%nat (MkGrantWorld db (gw_reservations w0) (gw_redis w0)) Hdb) as Hw1. set (w1 := others 1%nat _) in *.
  destruct (budget_reserve _ _ _ _ _ _ _ _) as [[seq|e] [st red]].
  - destruct (seq =? _); [intros [= <- <-]; split; [done|]; by intros ? ? [= <- <-]|].
    destruct (budget_release _ _ _ _ _ _ _ _) as [st' red']. intros [= <- <-]. split; [|done].
    unfold scoped. cbn [gw_db]. rewrite rollback_scope. by apply (Ho 2%nat).
  - intros [= <- <-]. split; [|done]. unfold scoped. cbn [gw_db]. rewrite rollback_scope. by apply (Ho 2%nat).
Qed.
End scopes.

(** ** The grant of a step *)

Section mint.
Context (ge : GrantEnv) (event_id : string) (reg : ToolRegistry) (step : option PlanStep).

Definition step_tools : list string := resolve_react_grant_tools reg (ps_required_tools <$> step).

Definition step_key : string :=
  build_react_idempotency_key (ge_sha256 ge) event_id (plan_step_binding_id step) (Some step_tools)
    (Some DEFAULT_TOOL_CALL_BUDGET) None.

Definition step_scope : ToolCallGrantScope := _normalize_scope_lists (tools_scope step_tools []).

(** The part of a key that stands for the tools and the number of calls. *)
Definition scope_digest (tools : list string) (max_calls : Z) : string :=
  str_take 8 (ge_sha256 ge (str_join "," (merge_sort string_le tools) +++ ":" +++ pretty max_calls)).

(** The row was minted by [build_react_grant_request] for these tools and calls: it has the key and
    the scope of such a request. *)
Definition minted (r : GrantRow) (tools : list string) (max_calls : Z) : Prop :=
  ∃ principal event tenant conns shadow mode policy plan_step task,
    let q := build_react_grant_request (ge_sha256 ge) principal event tenant tools conns max_calls shadow mode policy
               plan_step task in
    gr_idempotency_key r = cr_idempotency_key q ∧ gr_scope r = _normalize_scope_lists (cr_scope q).

(** Every stored grant was minted so, and no digest of one collides with that of the step: 32 bits of
    SHA-256 tell its tools from those of the step. *)
Definition rows_minted (db : GrantDb) : Prop :=
  ∀ r, r ∈ gd_grants db → ∃ tools max_calls, minted r tools max_calls ∧
    (scope_digest tools max_calls = scope_digest step_tools DEFAULT_TOOL_CALL_BUDGET → tools ≡ₚ step_tools).

(** Other processes keep the table well formed and the scopes in it, and mint grants in the same way. *)
Record fair (mi : Mint) : Prop := {
  fm_ok : ∀ n db, grants_ok db → grants_ok (mi_others mi n db);
  fm_scope : ∀ n db gid sc, scope_at db gid = Some sc → scope_at (mi_others mi n db) gid = Some sc;
  fm_minted : ∀ n db, rows_minted db → rows_minted (mi_others mi n db)
}.

(** The digest is a hexadecimal text of at least eight characters, and the key of the step is short
    enough not to be cut. *)
Record key_complete : Prop := {
  kc_digest : ∀ s, (8 ≤ String.length (ge_sha256 ge s))%nat;
  kc_key : (String.length step_key < 256)%nat
}.

(** The scope names tools of the step only. *)
Definition within_step (sc : ToolCallGrantScope) : Prop :=
  ∀ t, t ∈ gs_allowed_tools (_normalize_scope_lists sc) → t ∈ step_tools.

(** *** The key gives back the digest *)

Lemma take_shorter n s : (String.length (str_take n s) < n)%nat → str_take n s = s.
Proof.
  unfold str_take. revert s. induction n as [|n IH]; intros [|c s]; cbn; [lia..|done|].
  intros Hl. by rewrite IH by lia.
Qed.

Lemma take_long n s : (n ≤ String.length s)%nat → String.length (str_take n s) = n.
Proof.
  unfold str_take. revert s. induction n as [|n IH]; intros [|c s]; cbn; [done..|lia|].
  intros Hl. by rewrite IH by lia.
Qed.

Lemma same_suffix u v s t : String.length s = String.length t → u +++ s = v +++ t → s = t.
Proof.
  intros Hl. revert v. induction u as [|c u IH]; intros [|d v] He; rewrite ?string_app_cons in He; [done|..].
  - apply (f_equal String.length) in He. change ("" +++ s) with s in He. cbn in He.
    rewrite string_length_app in He. lia.
  - apply (f_equal String.length) in He. change ("" +++ t) with t in He. cbn in He.
    rewrite string_length_app in He. lia.
  - injection He as _ He. by eapply IH.
Qed.

Lemma key_digest event plan_step tools max_calls shadow :
  ∃ u, build_react_idempotency_key (ge_sha256 ge) event plan_step (Some tools) (Some max_calls) shadow =
       str_take 256 (u +++ scope_digest tools max_calls).
Proof.
  unfold build_react_idempotency_key, scope_digest. cbn [default from_option].
  eexists. rewrite <-string_app_assoc. done.
Qed.

Lemma key_names_digest r tools max_calls :
  key_complete → minted r tools max_calls → gr_idempotency_key r = step_key →
  scope_digest tools max_calls = scope_digest step_tools DEFAULT_TOOL_CALL_BUDGET.
Proof.
  intros [Hd Hk] (principal & event & tenant & conns & shadow & mode & policy & plan_step & task & Hkey & _) He.
  rewrite Hkey in He. cbn [cr_idempotency_key build_react_grant_request] in He.
  destruct (key_digest event plan_step tools max_calls shadow) as [u Hu].
  destruct (key_digest event_id (plan_step_binding_id step) step_tools DEFAULT_TOOL_CALL_BUDGET None) as [v Hv].
  fold step_key in Hv. rewrite Hu in He. rewrite <-He in Hk. apply take_shorter in Hk as Hu'.
  rewrite He, Hv in Hk. apply take_shorter in Hk as Hv'. rewrite Hu', Hv, Hv' in He.
  eapply same_suffix; [|exact He]. unfold scope_digest. by rewrite !take_long.
Qed.

Lemma step_tools_stripped t : t ∈ step_tools → str_strip t = t.
Proof. apply resolved_of_step. Qed.

Lemma minted_within r tools max_calls : minted r tools max_calls → tools ≡ₚ step_tools → within_step (gr_scope r).
Proof.
  intros (principal & event & tenant & conns & shadow & mode & policy & plan_step & task & _ & ->) Hp t Ht.
  cbn [gs_allowed_tools _normalize_scope_lists tools_scope cr_scope build_react_grant_request] in Ht.
  do 2 (apply renormalize_elem in Ht; [|apply normalized_stripped]).
  apply renormalize_elem in Ht; [by rewrite <-Hp|]. intros y Hy. rewrite Hp in Hy. by apply step_tools_stripped.
Qed.

Lemma replayed_within db r :
  key_complete → rows_minted db → r ∈ gd_grants db → gr_idempotency_key r = step_key → within_step (gr_scope r).
Proof.
  intros Hkc Hm Hr Hk. destruct (Hm r Hr) as (tools & n & Hmint & Hd).
  eapply minted_within; [exact Hmint|]. apply Hd. by eapply key_names_digest.
Qed.

Lemma step_scope_within : within_step step_scope.
Proof.
  intros t Ht. unfold step_scope in Ht. cbn [gs_allowed_tools _normalize_scope_lists tools_scope] in Ht.
  do 2 (apply renormalize_elem in Ht; [|apply normalized_stripped]).
  apply renormalize_elem in Ht; [done|]. apply step_tools_stripped.
Qed.

Lemma grant_by_key_Some db k r : grant_by_key db k = Some r → r ∈ gd_grants db ∧ gr_idempotency_key r = k.
Proof.
  unfold grant_by_key. intros [Hin Hk]%List.find_some. split; [by apply list_elem_of_In|]. by apply bool_decide_eq_true in Hk.
Qed.

Lemma stored_scope db r : grants_ok db → r ∈ gd_grants db → scope_at db (gr_grant_id r) = Some (gr_scope r).
Proof.
  intros Hok Hr. unfold scope_at, get_grant. by rewrite (get_by_elem gr_grant_id) by (done || apply Hok).
Qed.

Lemma issued_scope now dbnow db q token gid others g tok db' :
  key_complete → grants_ok db → grants_ok (others db) → rows_minted db → rows_minted (others db) →
  cr_idempotency_key q = step_key → _normalize_scope_lists (cr_scope q) = step_scope →
  issue_grant ge now dbnow db q token gid others = (Ok (g, tok), db') →
  ∃ sc, scope_at db' (tg_grant_id g) = Some sc ∧ within_step sc.
Proof.
  intros Hkc Hok Hok' Hkb Hkb' Hkey Hsc. unfold issue_grant. destruct (negb _); [done|]. destruct (_ ==? ToolCallMode.COMPATIBILITY); [done|].
  destruct (build_namespace_key _ _ _) as [ns|e]; [|done].
  assert (∀ d r, grants_ok d → rows_minted d → grant_by_key d (cr_idempotency_key q) = Some r →
    grant_from_row r = Ok g → ∃ sc, scope_at d (tg_grant_id g) = Some sc ∧ within_step sc) as Hold.
  { intros d r Hd Hb [Hr Hk]%grant_by_key_Some Hg. destruct (grant_from_row_Ok _ _ Hg) as (_ & -> & _).
    exists (gr_scope r). rewrite stored_scope by done. split; [done|]. eapply replayed_within; [done..|congruence]. }
  destruct (grant_by_key db _) as [r|] eqn:Hk.
  { destruct (_ !=? _); [done|]. intros [= Hg <-]. apply bind_Ok in Hg as (g1 & Hg1 & [= <- <-]). by eapply Hold. }
  destruct (grant_conflict _ _) eqn:Hc.
  - destruct (grant_by_key (others db) _) as [r|] eqn:Hk'; [|done]. intros [= Hg <-].
    apply bind_Ok in Hg as (g1 & Hg1 & [= <- <-]). by eapply Hold.
  - intros [= Hg <-]. apply bind_Ok in Hg as (g1 & Hg1 & [= <- <-]). exists step_scope. split; [|apply step_scope_within].
    destruct (grant_from_row_Ok _ _ Hg1) as (_ & -> & _). unfold scope_at, get_grant. cbn [gd_grants].
    rewrite (get_by_snoc gr_grant_id); [by rewrite <-Hsc|].
    intros y Hy He. apply not_true_iff_false in Hc as []. apply existsb_exists. exists y.
    split; [by apply list_elem_of_In|]. by rewrite bool_decide_eq_true_2.
Qed.
End mint.

(** ** Fills *)

Section fills.
Context {G J R : Type} `{GuardPort G} `{JobStore J} `{RedisCounters R}.
Context (rv : ReservationEnv) (ge : GrantEnv) (pj : ProjectionEnv).
Context {W : Type} (bound_of : W → BoundWorld (G:=G) (J:=J) (R:=R)) (set_bound : BoundWorld (G:=G) (J:=J) (R:=R) → W → W).
Implicit Types (a : FillArgs (G:=G) (J:=J) (R:=R) (W:=W)) (b : BoundWorld (G:=G) (J:=J) (R:=R)).

(** Grants and tools are one part of the surroundings; LLM, trace log, guard and scratchpad are others. *)
Record quiet a (llm : FillLlm (W:=W)) : Prop := {
  qu_set : ∀ b w, bound_of (set_bound b w) = b;
  qu_think : ∀ q w, bound_of (fl_think llm q w).2 = bound_of w;
  qu_reflect : ∀ q w, bound_of (fl_reflect llm q w).2 = bound_of w;
  qu_trace : ∀ t w, bound_of (fa_trace_sink a t w) = bound_of w;
  qu_guard : ∀ ga g w, fa_convergence_guard a = Some ga → bound_of (ga_set ga g w) = bound_of w;
  qu_memory : ∀ m e n w, fa_working_memory a = Some m → bound_of (sc_append m e n w).2 = bound_of w
}.

Lemma append_quiet a llm e n w : quiet a llm → bound_of (_append_scratchpad (fa_working_memory a) e n w) = bound_of w.
Proof.
  intros Hq. unfold _append_scratchpad. destruct (fa_working_memory a) as [m|] eqn:Hm; [|done].
  destruct (sc_writer m); [|done]. by apply (qu_memory _ _ Hq).
Qed.

(** What every call of the executor keeps, the run keeps. *)
Lemma fill_run_keeps (Rel : BoundWorld (G:=G) (J:=J) (R:=R) → BoundWorld (G:=G) (J:=J) (R:=R) → Prop) `{!PreOrder Rel}
    a llm x goal payload n w :
  quiet a llm → (∀ i action b, Rel b (react_execute rv ge pj x i action b).2) →
  Rel (bound_of w) (bound_of (react_run (fill_engine rv ge pj bound_of set_bound a llm x) goal payload n w).2).
Proof.
  intros Hq Hx. set (RelW (w1 w2 : W) := Rel (bound_of w1) (bound_of w2)).
  assert (PreOrder RelW) by (split; [intros w1; unfold RelW; reflexivity|intros w1 w2 w3; unfold RelW; apply transitivity]).
  apply (run_keeps RelW). split; unfold RelW; cbn.
  - intros q w1. by rewrite (qu_think _ _ Hq).
  - intros q w1. by rewrite (qu_reflect _ _ Hq).
  - intros i action w1. specialize (Hx i action (bound_of w1)).
    destruct (react_execute _ _ _ _ _ _ _) as [o b]. cbn in *. by rewrite (qu_set _ _ Hq).
  - intros t w1. by rewrite (qu_trace _ _ Hq).
  - intros ga g w1 Hg. by rewrite (qu_guard _ _ Hq ga).
Qed.

Definition with_db b (db : GrantDb) : BoundWorld (G:=G) (J:=J) (R:=R) :=
  MkBoundWorld (MkGrantWorld db (gw_reservations (bw_grants b)) (gw_redis (bw_grants b))) (bw_tools b).

(** A fill that mints its executor: nothing, or [for_event] and perhaps a run over what it returned. *)
Lemma minting_fill a llm fe mi event_id context w o w' :
  quiet a llm → fa_executor_factory a = Some (fe, mi) → fa_llm_client a = Some llm →
  run_readonly_react_fill rv ge pj bound_of set_bound a event_id context w = (o, w') →
  bound_of w' = bound_of w ∨
  ∃ tenant snapshot minted db, for_event ge fe mi (xw_registry (bw_tools (bound_of w))) event_id tenant snapshot
      (fa_plan_step a) (gw_db (bw_grants (bound_of w))) = (minted, db) ∧
    (bound_of w' = with_db (bound_of w) db ∨
     ∃ x goal payload w1, minted = Ok x ∧ bound_of w1 = with_db (bound_of w) db ∧
       bound_of w' = bound_of (react_run (fill_engine rv ge pj bound_of set_bound a llm x) goal payload DEFAULT_MAX_ROUNDS w1).2).
Proof.
  intros Hq Hf Hl. unfold run_readonly_react_fill. destruct (negb _); [intros [= _ <-]; by left|]. rewrite Hl, Hf.
  unfold fill_executor. rewrite Hf.
  match goal with |- context [for_event ?g ?f ?m ?r ?e ?t ?s ?p ?d] =>
    destruct (for_event g f m r e t s p d) as [minted db] eqn:Hm; intros Hrun; right; exists t, s, minted, db end.
  split; [exact Hm|]. fold (with_db (bound_of w) db) in Hrun.
  assert (bound_of (set_bound (with_db (bound_of w) db) w) = with_db (bound_of w) db) as Hw1 by apply (qu_set _ _ Hq).
  set (w1 := set_bound _ w) in *. destruct minted as [x|e].
  - right. destruct (react_run _ _ _ _ w1) as [out w2] eqn:Hr. exists x. eexists _, _, w1.
    split; [done|]. split; [exact Hw1|]. rewrite Hr.
    destruct out as [r|y]; [injection Hrun as _ <-; by apply (append_quiet a llm)|].
    destruct (passes_fill y); injection Hrun as _ <-; [done|by apply (append_quiet a llm)].
  - left. rewrite <-Hw1. destruct (err_class e ==? _); [injection Hrun as _ <-; by apply (append_quiet a llm)|].
    by destruct (err_class e ==? SoftTimeLimitExceeded); injection Hrun as _ <-.
Qed.
(** *** Confinement *)

Definition confined (gid : string) (sc : ToolCallGrantScope) b b' : Prop :=
  scoped gid sc (bw_grants b) →
  scoped gid sc (bw_grants b') ∧
  ∀ t, (count t (bw_tools b) < count t (bw_tools b'))%nat → t ∈ gs_allowed_tools (_normalize_scope_lists sc).

#[local] Instance confined_preorder gid sc : PreOrder (confined gid sc).
Proof.
  split; [intros b Hs; split; [done|intros t; lia]|]. intros b1 b2 b3 H12 H23 Hs.
  destruct (H12 Hs) as [Hs2 Ht2]. destruct (H23 Hs2) as [Hs3 Ht3]. split; [done|]. intros t Hlt.
  destruct (decide (count t (bw_tools b1) < count t (bw_tools b2))%nat); [by apply Ht2|apply Ht3; lia].
Qed.

Lemma granted_call_grants ce g aid c b : ∃ atts,
  gw_db (bw_grants (granted_call pj ce g aid c b).2) = MkGrantDb (gd_grants (gw_db (bw_grants b))) atts.
Proof.
  assert (∀ b1 s d rs ph, bw_grants b1 = bw_grants b →
    ∃ atts, gw_db (bw_grants (finalize_in b1 aid s d rs ph)) = MkGrantDb (gd_grants (gw_db (bw_grants b))) atts) as Hfin.
  { intros b1 s d rs ph Hb1. unfold finalize_in, finalize_attempt. cbn. rewrite Hb1.
    destruct (get_by _ _ _); [by eexists|]. exists (gd_attempts (gw_db (bw_grants b))). by destruct (gw_db (bw_grants b)). }
  assert (∃ atts, gw_db (bw_grants b) = MkGrantDb (gd_grants (gw_db (bw_grants b))) atts) as Hsame
    by (exists (gd_attempts (gw_db (bw_grants b))); by destruct (gw_db (bw_grants b))).
  unfold granted_call. destruct (_precheck _ _ _ _ _); [by apply Hfin|].
  destruct (validate_input _ _ _ _) as [[]|e]; [|destruct (_ ==? _); [by apply Hfin|done]].
  destruct (executor_call _ _ _) as [out tools]. destruct out as [res|y|]; [|by apply Hfin|done].
  destruct (project _ _ _ _ _ _); by apply Hfin.
Qed.

Lemma bound_call_confined ck ce gid sc aid c others b :
  (∀ n x, scoped gid sc x → scoped gid sc (others n x)) →
  confined gid sc b (bound_call rv ge pj ck ce gid aid c others b).2.
Proof.
  intros Ho Hs. unfold bound_call.
  destruct (reserve_attempt _ _ _ _ _ _ _) as [out gw] eqn:Hres.
  destruct (reserve_scope rv ge gid sc _ _ _ _ _ _ Ho Hs Hres) as [Hgw Hg].
  destruct out as [[record g]|e]; [|split; [done|cbn; lia]]. specialize (Hg record g eq_refl).
  set (b0 := MkBoundWorld gw (bw_tools b)). split.
  - destruct (granted_call_grants ce g aid c b0) as [atts Hdb]. unfold scoped. by rewrite Hdb.
  - intros t Hlt. destruct (granted_call _ _ _ _ _ b0) as [o b'] eqn:Hcall. cbn [snd] in Hlt.
    destruct (granted_call_dispatch _ _ _ _ _ _ _ _ _ Hcall Hlt) as [Hp Hb'].
    destruct (precheck_None _ _ _ _ _ Hp) as (_ & _ & Hin & _). rewrite <-Hg.
    rewrite Hb' in Hlt. change (bw_tools b0) with (bw_tools b) in Hlt.
    pose proof (proj2 (executor_call_bounded (_dispatch_executor g ce) (trusted_args g c) (bw_tools b)) t) as Hb.
    cbn [ca_tool_name trusted_args] in Hb. case_bool_decide as Ht; [by rewrite <-Ht|lia].
Qed.

Lemma execute_confined (x : ReadOnlyReActExecutor (G:=G) (J:=J) (R:=R)) g sc i action b :
  rx_grant x = Some g → rx_allowed_agents x = [] →
  (∀ i n w, scoped (tg_grant_id g) sc w → scoped (tg_grant_id g) sc (rx_others x i n w)) →
  confined (tg_grant_id g) sc b (react_execute rv ge pj x i action b).2.
Proof.
  intros Hg Ha Ho. unfold react_execute. destruct (ac_action_type action); [| |reflexivity].
  - unfold _execute_tool. rewrite Hg. unfold _execute_bound_tool.
    match goal with |- context [bound_call ?a1 ?a2 ?a3 ?a4 ?a5 ?a6 ?a7 ?a8 ?a9 b] =>
      pose proof (bound_call_confined a4 a5 a6 sc a7 a8 a9 b (Ho i)) as Hb; destruct (bound_call a1 a2 a3 a4 a5 a6 a7 a8 a9 b) as [o b'] end.
    done.
  - unfold _execute_agent. rewrite Ha. reflexivity.
Qed.

Lemma for_event_scope fe mi reg event_id tenant snapshot step db x db' :
  fe_grant_required fe = true → key_complete ge event_id reg step → grants_ok db → rows_minted ge reg step db →
  fair ge reg step mi →
  for_event (G:=G) (J:=J) (R:=R) ge fe mi reg event_id tenant snapshot step db = (Ok x, db') →
  ∃ g, rx_grant x = Some g ∧ rx_allowed_agents x = [] ∧ rx_others x = fe_others fe ∧
       ∃ sc, scope_at db' (tg_grant_id g) = Some sc ∧ within_step reg step sc.
Proof.
  intros Hreq Hkc Hok Hkb [Hfok Hfsc Hfkey]. unfold for_event. destruct (_ ==? ""); [done|]. rewrite Hreq. cbn [negb].
  destruct (negb (ge_available ge)); [done|]. unfold bound_executor, obtain_grant.
  destruct (negb (create_request_valid _)); [done|].
  destruct (issue_grant _ _ _ _ _ _ _ _) as [[[g tok]|e] db1] eqn:Hi; [|done].
  eapply (issued_scope ge event_id reg step) in Hi as (sc & Hi & Hsc);
    [|done|done|by apply Hfok|done|by apply Hfkey|done|done].
  assert (∀ g' d, (new_executor (G:=G) (J:=J) (R:=R) fe event_id "react_engine" (Some g') [], d) = (Ok x, db') →
    rx_grant x = Some g' ∧ rx_allowed_agents x = [] ∧ rx_others x = fe_others fe ∧ d = db') as Hnew.
  { intros g' d [= Hx <-]. unfold new_executor in Hx. apply raise_if_seq_Ok in Hx as [_ Hx]. by injection Hx as <-. }
  destruct (tok ==? "").
  - destruct (load_grant_trusted _ _ _) as [g'|e] eqn:Hld; [|done]. intros (? & ? & ? & <-)%Hnew. exists g'. split_and!; [done..|].
    unfold load_grant_trusted in Hld. apply raise_if_seq_Ok in Hld as [_ Hld].
    destruct (get_grant _ _) as [r|] eqn:Hr; [|done]. destruct (grant_from_row_Ok _ _ Hld) as (_ & -> & _).
    destruct (get_grant_Some _ _ _ Hr) as [_ ->]. exists sc. split; [by apply Hfsc|done].
  - intros (? & ? & ? & <-)%Hnew. exists g. split_and!; [done..|by exists sc].
Qed.

(** C36. A fill is confined to its plan step: with grants required, every tool dispatched by a fill that
    mints its executor is a registered query tool that the step names; only when none of the tools the
    step names is a registered query tool may it be another query tool.  This holds whatever grants
    are stored, provided they were minted by [build_react_grant_request], the key of the step is not
    cut at its 256 characters, and no stored grant for other tools has the step's digest. *)
Theorem fill_confined_to_step a llm fe mi event_id context w o w' t :
  quiet a llm → fa_executor_factory a = Some (fe, mi) → fa_llm_client a = Some llm → fe_grant_required fe = true →
  let reg := xw_registry (bw_tools (bound_of w)) in
  key_complete ge event_id reg (fa_plan_step a) → grants_ok (gw_db (bw_grants (bound_of w))) →
  rows_minted ge reg (fa_plan_step a) (gw_db (bw_grants (bound_of w))) → fair ge reg (fa_plan_step a) mi →
  (∀ gid sc i n gw, scoped gid sc gw → scoped gid sc (fe_others fe i n gw)) →
  run_readonly_react_fill rv ge pj bound_of set_bound a event_id context w = (o, w') →
  (count t (bw_tools (bound_of w)) < count t (bw_tools (bound_of w')))%nat →
  tool_of_step reg (from_option ps_required_tools [] (fa_plan_step a)) t.
Proof.
  intros Hq Hf Hl Hreq reg Hkc Hok Hkb Hfair Ho Hrun Hlt.
  destruct (minting_fill _ _ _ _ _ _ _ _ _ Hq Hf Hl Hrun) as [He|(tenant & snapshot & minted & db & Hm & Hcase)];
    [rewrite He in Hlt; lia|].
  destruct Hcase as [He|(x & goal & payload & w1 & -> & Hw1 & He)]; [rewrite He in Hlt; cbn in Hlt; lia|].
  destruct (for_event_scope _ _ _ _ _ _ _ _ _ _ Hreq Hkc Hok Hkb Hfair Hm) as (g & Hg & Ha & Hox & sc & Hsc & Hin).
  pose proof (fill_run_keeps (confined (tg_grant_id g) sc) a llm x goal payload DEFAULT_MAX_ROUNDS w1 Hq) as Hkeep.
  destruct Hkeep as [_ Hrunin]; [intros i action b; apply execute_confined; [done..|intros i1 n1 gw1; rewrite Hox; apply Ho]|rewrite Hw1; exact Hsc|].
  apply (resolved_of_step reg (fa_plan_step a)), Hin, Hrunin. rewrite Hw1, <-He. exact Hlt.
Qed.

(** *** Stale grants *)

(** Revoked, or expired by the time of every call. *)
Definition stale (fe : FactoryEnv (G:=G) (J:=J) (R:=R)) (r : GrantRow) : Prop :=
  is_Some (gr_revoked_at r) ∨ ∀ i, gr_expires_at r ≤ ac_checked (fe_clock fe i).

Definition inert (gid : string) (r : GrantRow) b b' : Prop := get_grant (gw_db (bw_grants b)) gid = Some r → b' = b.

#[local] Instance inert_preorder gid r : PreOrder (inert gid r).
Proof. split; [by intros b|]. intros b1 b2 b3 H12 H23 Hr. specialize (H12 Hr). subst b2. by apply H23. Qed.

Lemma stale_reserve ck w gid aa others r :
  get_grant (gw_db w) gid = Some r → is_Some (gr_revoked_at r) ∨ gr_expires_at r ≤ ac_checked ck →
  ∃ e, reserve_attempt rv ge ck w gid aa others = (Err e, w).
Proof.
  intros Hr Hdead. unfold reserve_attempt.
  destruct (g ← load_grant_trusted ge (gw_db w) gid; _) as [g|e] eqn:Hload; [|by exists e].
  apply load_live_Ok in Hload as (r' & Hr' & _ & (Hrev & Hexp & _) & _). rewrite Hr in Hr'. injection Hr' as <-.
  destruct Hdead as [[z Hz]|Hz]; [by rewrite Hrev in Hz|lia].
Qed.

Lemma execute_inert (x : ReadOnlyReActExecutor (G:=G) (J:=J) (R:=R)) g r i action b :
  rx_grant x = Some g → rx_allowed_agents x = [] →
  is_Some (gr_revoked_at r) ∨ gr_expires_at r ≤ ac_checked (rx_clock x i) →
  inert (tg_grant_id g) r b (react_execute rv ge pj x i action b).2.
Proof.
  intros Hg Ha Hd. unfold react_execute. destruct (ac_action_type action); [| |done].
  - unfold _execute_tool. rewrite Hg. unfold _execute_bound_tool, bound_call. intros Hr.
    match goal with |- context [reserve_attempt rv ge ?ck ?gw ?id ?aa ?ot] =>
      destruct (stale_reserve ck gw id aa ot r Hr Hd) as [e ->] end. by destruct b.
  - unfold _execute_agent. by rewrite Ha.
Qed.

Lemma stale_for_event fe mi reg event_id tenant snapshot step db r minted db' :
  fe_grant_required fe = true → mi_others mi = (λ _ d, d) → grants_ok db →
  grant_by_key db (step_key ge event_id reg step) = Some r →
  for_event (G:=G) (J:=J) (R:=R) ge fe mi reg event_id tenant snapshot step db = (minted, db') →
  db' = db ∧ ∀ x, minted = Ok x →
    ∃ g, rx_grant x = Some g ∧ tg_grant_id g = gr_grant_id r ∧ rx_allowed_agents x = [] ∧ rx_clock x = fe_clock fe.
Proof.
  intros Hreq Hid Hok Hk. unfold for_event. destruct (_ ==? ""); [by intros [= <- <-]|]. rewrite Hreq. cbn [negb].
  destruct (negb (ge_available ge)) eqn:Hav; [by intros [= <- <-]|]. unfold bound_executor, obtain_grant.
  destruct (negb (create_request_valid _)); [by intros [= <- <-]|]. rewrite Hid. unfold issue_grant. rewrite Hav.
  cbn [cr_mode event_request build_react_grant_request build_namespace_key cr_event_id cr_shadow_run_id cr_idempotency_key].
  rewrite bool_decide_eq_false_2 by done.
  match goal with |- context [grant_by_key db ?k] => change k with (step_key ge event_id reg step) end.
  rewrite Hk. destruct (gr_event_id r !=? event_id); [by intros [= <- <-]|].
  destruct (grant_from_row r) as [g|e] eqn:Hg; [|by intros [= <- <-]]. cbn.
  destruct (grant_from_row_Ok _ _ Hg) as (_ & Hgid & _). apply grant_by_key_Some in Hk as [Hr _].
  unfold load_grant_trusted, get_grant. rewrite Hav, Hgid, (get_by_elem gr_grant_id) by (done || apply Hok).
  cbn. rewrite Hg. intros [= <- <-]. split; [done|]. intros x Hx. unfold new_executor in Hx.
  apply raise_if_seq_Ok in Hx as [_ Hx]. exists g. by injection Hx as <-.
Qed.

(** C37. A fill over a grant that is no longer live does nothing: once a grant stored for the step of an
    event is revoked or expired, every later fill of the step is bound to it again, so that whatever
    the LLM asks for, no tool is dispatched, no attempt is counted and the grant stays as it is. *)
Theorem stale_grant_blocks_fill a llm fe mi event_id context w o w' r :
  quiet a llm → fa_executor_factory a = Some (fe, mi) → fa_llm_client a = Some llm → fe_grant_required fe = true →
  mi_others mi = (λ _ d, d) → grants_ok (gw_db (bw_grants (bound_of w))) →
  grant_by_key (gw_db (bw_grants (bound_of w)))
    (step_key ge event_id (xw_registry (bw_tools (bound_of w))) (fa_plan_step a)) = Some r →
  stale fe r →
  run_readonly_react_fill rv ge pj bound_of set_bound a event_id context w = (o, w') →
  bound_of w' = bound_of w.
Proof.
  intros Hq Hf Hl Hreq Hid Hok Hk Hst Hrun.
  destruct (minting_fill _ _ _ _ _ _ _ _ _ Hq Hf Hl Hrun) as [He|(tenant & snapshot & minted & db & Hm & Hcase)]; [done|].
  destruct (stale_for_event _ _ _ _ _ _ _ _ _ _ _ Hreq Hid Hok Hk Hm) as [-> Hx].
  assert (with_db (bound_of w) (gw_db (bw_grants (bound_of w))) = bound_of w) as Hb
    by (unfold with_db; by destruct (bound_of w) as [[]]).
  rewrite Hb in Hcase. destruct Hcase as [He|(x & goal & payload & w1 & -> & Hw1 & He)]; [done|].
  destruct (Hx x eq_refl) as (g & Hg & Hgid & Ha & Hck). rewrite He, <-Hw1.
  apply (fill_run_keeps (inert (tg_grant_id g) r)); [done|..].
  - intros i action b. apply execute_inert; [done..|]. rewrite Hck. destruct Hst as [Hst|Hst]; [by left|right; apply Hst].
  - rewrite Hw1, Hgid. apply grant_by_key_Some in Hk as [Hr _]. by apply get_by_elem; [apply Hok|].
Qed.
End fills.
