(* ===== verification/ReactScenarios.v ===== *)
(** * ReAct runs and fills on concrete inputs, and the witnesses of the theorems on them *)

From stdpp Require Import prelude strings gmap sorting pretty.
From Stdlib Require Import QArith Lia.
From S2P Require Import Prelude Enums Errors ErrorTaxonomy Db ExecutionResults ToolMeta ToolRegistry ConvergenceGuard.
From S2P Require Import CircuitBreaker ToolExecutor ToolExecutorFacts SafeProjection Lease BudgetReservation ToolGrants.
From S2P Require Import ToolGrantFacts BoundExecutor ToolScenarios Llm React ReactFacts.
From S2P Require Import ReactFill ReactFillFacts.

#[local] Open Scope string_scope.
#[local] Open Scope Z_scope.
#[local] Open Scope list_scope.

#[local] Existing Instance memory_jobs.
#[local] Instance scenario_guard : GuardPort (gmap string ConvergenceState) := convergence_port by_name None.

#[local] Abbreviation Bound := (BoundWorld (G := gmap string ConvergenceState) (J := gmap string ActionExecutionJob)
                                  (R := gmap string Z)).

(** The grants and tools, and the notes on the scratchpad. *)
#[local] Abbreviation Surroundings := (Bound * list string)%type.

Definition ask (tool : string) : ReActAction := {|
  ac_action_type := CALL_TOOL; ac_target_name := tool; ac_params := [("ip", VStr "10.0.0.1")];
  ac_reason_code := FILL_EVIDENCE_GAP; ac_decision_summary := ""
|}.

(** An LLM that asks for [tool] in every round and is as confident as [q]. *)
Definition stubborn_llm (tool : string) (q : Q) : FillLlm (W := Surroundings) := {|
  fl_think := λ _ w, (replied {| th_decision_summary := "look it up"; th_reason_code := FILL_EVIDENCE_GAP;
                                 th_action := Some (ask tool); th_candidates := [] |}, w);
  fl_reflect := λ _ w, (replied {| rf_decision_summary := ""; rf_confidence := q; rf_gap_code := EVIDENCE_MISSING;
                                   rf_uncertainty_code := UNCERTAINTY_NONE; rf_evidence_refs := [] |}, w)
|}.

Definition demo_factory (now : Z) : FactoryEnv (G := gmap string ConvergenceState) (J := gmap string ActionExecutionJob)
    (R := gmap string Z) := {|
  fe_grant_required := true; fe_policy_version := ""; fe_clock := λ _, demo_clock now connected;
  fe_call := λ _, healthy_env; fe_attempt_id := λ i, "a-" +++ pretty i; fe_others := λ _ _ g, g
|}.

Definition demo_mint (now : Z) : Mint := {|
  mi_now := now; mi_created := now; mi_token := "token"; mi_grant_id := "grant-9"; mi_principal_id := "principal-1";
  mi_others := λ _ d, d
|}.

Definition demo_step : PlanStep := {|
  ps_step_order := 2; ps_step_goal := "which hosts answered"; ps_assigned_agent := "react";
  ps_required_tools := [" query_dns "; "block_ip"]; ps_success_criteria := ""
|}.

Definition fill_args (now : Z) (llm : FillLlm (W := Surroundings)) : FillArgs := {|
  fa_llm_client := Some llm; fa_executor := None; fa_executor_factory := Some (demo_factory now, demo_mint now);
  fa_plan_step := Some demo_step;
  fa_working_memory := Some {| sc_writer := true; sc_append := λ _ note w, (true, (w.1, w.2 ++ [note])) |};
  fa_convergence_guard := None; fa_trace_sink := λ _ w, w;
  fa_source_snapshot := VDict [("creation_source_ref", VDict [("tenant_id", VStr " tenant ")])];
  fa_react_enabled := true
|}.

Definition fill_in (ge : GrantEnv) (now : Z) (tool : string) (q : Q) (w : Surroundings) : FillOutcome * Surroundings :=
  run_readonly_react_fill demo_reservations ge demo_projection fst (λ b w, (b, w.2))
    (fill_args now (stubborn_llm tool q)) "evt-1" [] w.

Definition fill_at : Z → string → Q → Surroundings → FillOutcome * Surroundings := fill_in demo_grant_env.

Definition empty_grants : Surroundings :=
  (MkBoundWorld (MkGrantWorld (MkGrantDb [] []) fresh_reservations ∅) demo_world, []).

Definition first_fill : FillOutcome * Surroundings := fill_at 100 "query_dns" (9 # 10) empty_grants.

(** Half an hour later. *)
Definition second_fill : FillOutcome * Surroundings := fill_at 1900 "query_dns" (9 # 10) first_fill.2.

(** A side effect is refused twice; later the query tool itself is refused, for the grant has expired. *)
Example fills_noted :
  (first_fill.2.2, (fill_at 100 "block_ip" (9 # 10) empty_grants).2.2, drop 1 second_fill.2.2) =
  (["react_fill:react_stop=confidence_met; confidence=0.90; gaps=evidence_missing; look it up"],
   ["react_fill:react_stop=error; confidence=0.90; gaps=evidence_missing; look it up; evidence_missing; look it up"],
   ["react_fill:react_stop=error; confidence=0.90; gaps=evidence_missing; look it up; evidence_missing; look it up"]).
Proof. vm_compute. reflexivity. Qed.

Lemma demo_quiet now llm_tool q :
  quiet fst (λ b w, (b, w.2)) (fill_args now (stubborn_llm llm_tool q)) (stubborn_llm llm_tool q).
Proof. split; try done. by intros m e n w [= <-]. Qed.

Lemma no_grants_ok : grants_ok (MkGrantDb [] []).
Proof. split; [apply NoDup_nil_2..| |]; by intros x Hx%elem_of_nil. Qed.

(** A digest that tells texts apart by their ends. *)
Definition digest_env : GrantEnv :=
  {| ge_available := true; ge_sha256 := λ s, str_rev s +++ "00000000"; ge_params_fingerprint := λ _, "fp" |}.

(** An earlier grant of the same step, which then named another tool. *)
Definition other_request : ToolCallGrantCreateRequest :=
  build_react_grant_request (ge_sha256 digest_env) "principal-1" "evt-1" "tenant" ["query_whois"] []
    (Z.max 1 DEFAULT_TOOL_CALL_BUDGET) None ToolCallMode.PRODUCTION (Some "") (plan_step_binding_id (Some demo_step)) None.

Definition other_db : GrantDb :=
  (issue_grant digest_env 50 50 (MkGrantDb [] []) other_request "token" "grant-1" id).2.

Lemma other_db_ok : grants_ok other_db.
Proof. apply issue_ok; [apply no_grants_ok..|vm_compute; reflexivity]. Qed.

Definition other_grants : Surroundings := (MkBoundWorld (MkGrantWorld other_db fresh_reservations ∅) demo_world, []).

Definition confined_fill : FillOutcome * Surroundings := fill_in digest_env 100 "query_dns" (9 # 10) other_grants.

Lemma other_db_minted : rows_minted digest_env (xw_registry demo_world) (Some demo_step) other_db.
Proof.
  assert (∃ r, gd_grants other_db = [r] ∧ gr_idempotency_key r = cr_idempotency_key other_request ∧
    gr_scope r = _normalize_scope_lists (cr_scope other_request)) as (r & Hr & Hk & Hs)
    by (eexists; split; [vm_compute; reflexivity|split; vm_compute; reflexivity]).
  intros r' Hr'. rewrite Hr in Hr'. apply list_elem_of_singleton in Hr' as ->.
  exists ["query_whois"], (Z.max 1 DEFAULT_TOOL_CALL_BUDGET). split.
  { exists "principal-1", "evt-1", "tenant", [], None, ToolCallMode.PRODUCTION, (Some ""),
      (plan_step_binding_id (Some demo_step)), None. split; [exact Hk|exact Hs]. }
  intros Hd. vm_compute in Hd. discriminate.
Qed.

Lemma fill_confined_to_step_witness :
  length (gd_grants other_db) = 1%nat ∧
  tool_of_step (xw_registry demo_world) (ps_required_tools demo_step) "query_dns".
Proof.
  split; [vm_compute; reflexivity|].
  apply (fill_confined_to_step demo_reservations digest_env demo_projection fst (λ b w, (b, w.2))
    (fill_args 100 (stubborn_llm "query_dns" (9 # 10))) (stubborn_llm "query_dns" (9 # 10)) (demo_factory 100) (demo_mint 100)
    "evt-1" [] other_grants confined_fill.1 confined_fill.2 "query_dns").
  - apply demo_quiet.
  - reflexivity.
  - reflexivity.
  - reflexivity.
  - split; [intros s; cbn; rewrite string_length_app; cbn; lia|apply Nat.ltb_lt; vm_compute; reflexivity].
  - apply other_db_ok.
  - apply other_db_minted.
  - split; [intros n db Hok; exact Hok|intros n db gid sc Hs; exact Hs|intros n db Hk; exact Hk].
  - intros gid sc i n gw Hs. exact Hs.
  - apply surjective_pairing.
  - vm_compute. lia.
Defined.

Definition fill_db : GrantDb := gw_db (bw_grants first_fill.2.1).

Lemma fill_db_ok : grants_ok fill_db.
Proof.
  assert (∃ r a, fill_db = MkGrantDb [r] [a] ∧ at_grant_id a = gr_grant_id r ∧
                 (gr_attempt_count r, gr_max_calls r, at_attempt_seq a) = (1, 10, 1)) as (r & a & -> & Hid & [= Hc Hm Ha])
    by (eexists _, _; split; [vm_compute; reflexivity|split; vm_compute; reflexivity]).
  split; cbn; [apply NoDup_singleton..| |].
  - intros x ->%list_elem_of_singleton. lia.
  - intros x ->%list_elem_of_singleton. exists r. rewrite list_elem_of_singleton. split_and!; [done..|lia|lia].
Qed.

Lemma stale_grant_blocks_fill_witness : second_fill.2.1 = first_fill.2.1.
Proof.
  destruct (grant_by_key fill_db (step_key demo_grant_env "evt-1" (xw_registry (bw_tools first_fill.2.1)) (Some demo_step)))
    as [r|] eqn:Hr; [|vm_compute in Hr; discriminate].
  apply (stale_grant_blocks_fill demo_reservations demo_grant_env demo_projection fst (λ b w, (b, w.2))
    (fill_args 1900 (stubborn_llm "query_dns" (9 # 10))) (stubborn_llm "query_dns" (9 # 10)) (demo_factory 1900) (demo_mint 1900)
    "evt-1" [] first_fill.2 second_fill.1 second_fill.2 r).
  - apply demo_quiet.
  - reflexivity.
  - reflexivity.
  - reflexivity.
  - reflexivity.
  - apply fill_db_ok.
  - exact Hr.
  - right. intros i. vm_compute in Hr. injection Hr as <-. vm_compute. discriminate.
  - apply surjective_pairing.
Defined.

(** ** Runs over the plain executor *)

Definition plain_executor : ReadOnlyReActExecutor (G := gmap string ConvergenceState) (J := gmap string ActionExecutionJob)
    (R := gmap string Z) := {|
  rx_event_id := "evt-1"; rx_agent_name := "react_engine"; rx_grant_required := false; rx_grant := None;
  rx_allowed_agents := []; rx_clock := λ _, demo_clock 100 connected; rx_call := λ _, healthy_env;
  rx_attempt_id := λ _, ""; rx_others := λ _ _ g, g
|}.

Definition plain_engine (tool : string) (q : Q) : ReActEngine Surroundings :=
  fill_engine demo_reservations demo_grant_env demo_projection fst (λ b w, (b, w.2))
    (fill_args 100 (stubborn_llm tool q)) (stubborn_llm tool q) plain_executor.

Definition plain_run (tool : string) (q : Q) : RunOutcome * Surroundings :=
  react_run (plain_engine tool q) "goal" [("event_id", VStr "evt-1")] 3 empty_grants.

Example plain_runs :
  (match (plain_run "query_dns" (1 # 2)).1 with run_returns r => Some (rs_stop_reason r, length (rs_rounds r)) | _ => None end,
   count "query_dns" (bw_tools (plain_run "query_dns" (1 # 2)).2.1),
   match (plain_run "block_ip" (1 # 2)).1 with run_returns r => Some (rs_stop_reason r, length (rs_rounds r)) | _ => None end,
   count "block_ip" (bw_tools (plain_run "block_ip" (1 # 2)).2.1)) =
  (Some (MAX_ROUNDS, 3%nat), 3%nat, Some (ERROR, 2%nat), 0%nat).
Proof. vm_compute. reflexivity. Qed.

Lemma react_stops_for_its_reason_witness :
  ∃ r done final, (plain_run "query_dns" (1 # 2)).1 = run_returns r ∧ rs_rounds r = done ++ final ∧
    explains (plain_engine "query_dns" (1 # 2)) "evt-1" done final r 3.
Proof.
  destruct (plain_run "query_dns" (1 # 2)) as [[r|x] w'] eqn:Hrun; [|apply (f_equal fst) in Hrun; vm_compute in Hrun; discriminate].
  destruct (react_stops_for_its_reason (plain_engine "query_dns" (1 # 2)) "goal" [("event_id", VStr "evt-1")] 3 empty_grants r w'
    Hrun) as (done & final & Hr & _ & _ & He & _).
  exists r, done, final. split; [reflexivity|]. split; [exact Hr|exact He].
Defined.

Lemma react_only_reads_witness : query_tool (empty_grants.1) "query_dns".
Proof.
  apply (react_only_reads demo_reservations demo_grant_env demo_projection plain_executor (plain_engine "query_dns" (1 # 2)) fst
    "goal" [("event_id", VStr "evt-1")] 3 empty_grants (plain_run "query_dns" (1 # 2)).1 (plain_run "query_dns" (1 # 2)).2
    "query_dns").
  - split; cbn; try done. intros i a s. by destruct (react_execute _ _ _ _ _ _ _).
  - apply Forall_nil_2.
  - apply surjective_pairing.
  - vm_compute. lia.
Defined.
